(* ===== verification/_CoqProject ===== *)
-Q . S2P
Prelude.v
Trimmed.v
GoStd.v
Timestamps.v
Tables.v
GoNet.v
Persistence.v
Model.v
TenantRestriction.v
Common.v
Conditions.v
PolicyOrder.v
SaaSCatalog.v
Inspection.v
SwgEnforcement.v
BreakGlass.v
Guards.v
Locality.v
EastWest.v
ServerInitiated.v
Evaluator.v
Decision.v
MatchedPolicy.v
PolicyStore.v
PolicyFleet.v
EastWestCeremony.v
EastWestRelease.v
AuthLedger.v
AuthFleet.v
DelegatedGrant.v
HumanApproval.v
NonHuman.v
RuntimeEvidence.v
AgentAccess.v
Admission.v
SharedFleet.v
AdmissionFleet.v
HighRisk.v
HighRiskFleet.v
RevocationFeed.v
FeedSync.v
PolicyRule.v
RuleCompile.v
RuleLateral.v
RuleStore.v
AssetCatalog.v
CatalogStore.v
CatalogFleet.v
CatalogReconcile.v
Explain.v
AccessLog.v
SeatAllocation.v
EnrollToken.v
RegionFailover.v
Conntrack.v
Lru.v
AgentRollout.v
UpdateGate.v
Session.v
TransportDoor.v
KillSwitch.v
InventorySnapshot.v
EnrolledLedger.v
IdentityClaims.v
EnrolledHistory.v
Effects.v
UpdateVersion.v
UpdateJournal.v
UpdateRollout.v
UpdateRunner.v
UpdateTick.v
UpdateWorld.v
UpdateRefusal.v
UpdateLaunch.v
UpdateSteering.v
