(* ===== verification/Prelude.v ===== *)
(** * A verification library for dsse-core

    dsse-core is the core of a security service edge written in Go.  An Edge process
    steers the traffic of enrolled devices, asks the decision evaluator what to do with
    each request, and acts on the decision it returns; a control plane keeps the state
    the Edges and devices work from.  This library models the decision core completely
    and, around it, the stores and state machines whose failure would admit what must
    not be admitted.  Every definition is executable and follows the source function it
    is named after; the theorems say what each component promises.

    ** The parts and how they interact

    A request enters [decision.Evaluator.Evaluate].  It is annotated from the SaaS
    catalogue (claims of the client are cleared first), then decided on one of three
    planes: server-initiated flows by legacy exceptions, lateral flows by east-west
    rules, everything else by the first matching policy in precedence order, whose
    guards (workload attestation, freshness, tool boundary, human approval, break
    glass) can only make an allow stricter, and whose enforcement steps (TLS
    inspection, SWG, DLP) add actions without touching the decision.  The decision is
    explained, logged and traced.  The policies and east-west rules are compiled from
    rules an administrator authors, whose sources, destinations and services are entries
    of the asset catalogue, so that catalogue, compiler and evaluator together decide what
    an authored rule lets through.  Around it: enrolment tokens and seats decide which
    device may exist, sessions carry what an authentication proved, region failover
    keeps a device inside its residency boundary, the DNS conntrack gives a request the
    name behind its address, the interception cache is bounded, and the rollout control
    plane with the update gate on the device decides when software changes, which the updater
    on the device carries out across its own replacement.  A device reaches
    an Edge through a handshake whose gate asks the enrolled inventory and the
    kill-switches; an administrator's block closes what the gate had let in.

    ** Files

    - [Prelude]: record update notation ([r <| f := v |>]), the [result] monad, Go's
      string functions on bytes, [int] arithmetic ([wrap64], [atoi], [itoa]), stable
      sorting by a comparator with the class [WeakOrder], tactics ([split_match],
      [bool_facts]) and the hint databases [go] and [go_rewrite].
    - [Trimmed]: texts that [strings.TrimSpace] leaves alone.
    - [GoStd]: values of type [any], floats of [strconv], time and RFC 3339.
    - [GoNet]: [netip] addresses and prefixes, [net.SplitHostPort].
    - [Persistence]: the outcomes of a save and what is stored afterwards
      ([src/blobstore/blobstore.go]).
    - [Model]: the records of [src/model/types.go] in use.
    - [Common]: small helpers of [src/decision/evaluator.go].
    - [Conditions]: [fieldValues], [conditionMatches], [matchPolicy].
    - [PolicyOrder]: [orderedPolicies], [firstMatchedPolicyWithDiagnosis].
    - [SaaSCatalog]: [src/decision/saas_catalog.go].
    - [Inspection], [SwgEnforcement]: TLS inspection readiness, tenant enforcement and
      DLP directives ([src/decision/swg_tenant_enforcement.go, dlp_enforcement.go]).
    - [BreakGlass], [Guards]: the guards of a matched policy.
    - [Locality], [EastWest], [ServerInitiated]: the two dedicated planes
      ([src/decision/locality.go, east_west.go, server_initiated.go,
      legacy_exception.go]).
    - [Evaluator], [Decision]: [Evaluate] as a sequence of steps over its local
      variables (the record [evaluation]), and the theorems about its result, with the
      specification [permitted] of what each plane lets through.  [MatchedPolicy]: a decision
      names the policy that made it.
    - [PolicyRule]: authored rules and their validation ([src/policyrule/policyrule.go]).
    - [RuleCompile]: rules compiled to policies, over the interface [EgressResolver]
      ([compile_egress.go, service_transport.go]); [RuleLateral]: east-west rules and
      inspection hosts, over [EastWestResolver] ([compile_eastwest.go, compile.go]).
    - [RuleStore]: the rule store, its transactions and its distribution
      ([store.go, shared.go, persistence.go, distribution.go]).
    - [AssetCatalog]: endpoints, groups, services, aliases, resolution and the enrolled
      inventory ([src/assetcatalog]); its store is the instance of the resolvers above.
    - [CatalogStore]: the transactions of the catalogue, edits by owner, reconciliation
      and erasure; [CatalogFleet]: their invariant, histories of several control planes,
      ownership and erasure; [CatalogReconcile]: the three kinds of entry behind the
      interface [EntryKind] with its laws, and what an Edge holds after a reconciliation.
    - [Explain], [AccessLog]: [src/decision/explain.go, config_generation.go] and the
      log and trace records.
    - [SeatAllocation], [EnrollToken], [RegionFailover], [Conntrack], [Lru],
      [AgentRollout], [UpdateGate], [Session]: one Module each, for
      [src/seatallocation], [src/enrolltoken], [src/regionfailover],
      [src/dns/conntrack.go], [src/interception/lru.go], [src/agentrollout],
      [src/agentupdate/gate.go, plan.go] and [src/session].
    - [Tables]: stored documents whose rows an owner edits.  [Timestamps]: RFC 3339 texts
      read back exactly.  [TenantRestriction]: sign-in restrictions of SaaS providers.
    - [PolicyStore]: the policy runtime store, its edits and the evaluator it hands out
      ([src/policy]); [PolicyFleet]: histories of processes over one stored document.
    - [EastWestCeremony]: challenges of held lateral flows and the grants they earn
      ([src/eastwest]); [EastWestRelease]: from the decision to the released flow.
    - [AuthLedger]: the ledger that delegated grants and human approvals share;
      [AuthFleet]: its histories; [DelegatedGrant] ([src/delegatedgrant]), [HumanApproval]
      ([src/humanapproval]), [NonHuman] ([src/nhi]); [RuntimeEvidence]: what an agent must
      show ([src/cmd/dsse-edge/delegated_access.go, main.go]); [AgentAccess]: what becomes
      of revocations.
    - [Admission]: the kill-switches of devices, [HighRisk]: the marks of devices and users
      ([src/revocation]); [SharedFleet]: processes over one saved row, as the class [Plane]
      with the record [keeper] of what edits must leave in place; [AdmissionFleet],
      [HighRiskFleet]: both as instances.
    - [RevocationFeed]: the feed an edge pulls kill-switches and marks from
      ([src/cmd/dsse-edge/revocation_sync.go]); [FeedSync]: control planes, an edge and
      an answer on its way as one transition system.
    - [TransportDoor]: the gate of an Edge's handshake ([secure_transport.go],
      [src/tenantca/registry.go]), the registry of live connections
      ([transport_conn_registry.go]) and the handlers that block and restore a device
      ([admin_device_admission_routes.go]); [KillSwitch]: the door beside a fleet of
      control planes, from the block to the last closed connection.
    - [InventorySnapshot]: the saved form of the enrolled inventory; [EnrolledLedger]: its
      operations on memory, a file and a shared row ([src/enrolledinventory]), the instance
      of the class [DeviceLedger] the door asks; [IdentityClaims]: the shared table of claims
      on names that issuers take and release
      ([src/cmd/dsse-edge/enrolled_identity_claim_postgres.go]); [EnrolledHistory]: what
      becomes of an enrolled, a disabled and a removed device.
    - [Effects]: programs as trees of effects an environment answers, their deaths, and a
      weakest precondition.  [UpdateVersion], [UpdateJournal], [UpdateRollout]: versions,
      the updater's journal and the fleet's plan on the device ([src/agentupdate/version.go,
      manifest.go, journal.go, rollout.go]); [UpdateRunner]: one step of an update and the
      rollback ([runner.go, rollback.go]); [UpdateTick]: a whole pass
      ([src/clients/windows-wfp/updateplatform/tick.go]); [UpdateWorld]: the disk, steering
      and the trail such a pass moves, its rehearsals, and a pass around its decision as the
      record [surrounds]; [UpdateRefusal], [UpdateLaunch], [UpdateSteering]: what then holds.

    ** State and operations

    A Go struct with methods is a Record and one function per method that returns the
    new state with the method's results.  A mutex makes each method one step; histories
    are lists of operations ([foldl]) or an inductive [run] or [reachable].  A store
    with a persister carries what the persister holds, and a save is described by its
    outcome (saved, saved in place, not confirmed, failed), so that the theorems range
    over every failure.  Several control planes that share a persister are the records
    [fleet] of [AgentRollout], [RuleStore], [CatalogFleet], [PolicyFleet] and [AuthFleet],
    and the [Plane]s of [SharedFleet]; their steps are edits with any outcome, promotions
    that read the row again, and restarts.  A Go map of maps is a
    [gmap] of [gmap]s read by [rowsOf] and written by [putRow]; where the code visits a
    map the order is a [gmap]'s when the result is sorted, and otherwise the class
    [MapOrder], any permutation.  Errors are values of [result] or [option].  The updater,
    which the installer it launches replaces, is a [prog]: every platform call and every save
    of the journal is an effect, a pass may die before any of them, and a failing effect may
    or may not have done its work.

    ** What the theorems show

    - The decision: it is allow exactly when a declarative specification permits
      (evaluator, east-west and server-initiated planes); default denial is the absence
      of a match; precedence is priority, then restrictiveness, then identifier, and does
      not depend on listing order; policies of other tenants and SaaS claims of the
      client do not matter; a blank decision denies; a bypass carries no action that
      needs plaintext; a missing fact satisfies no condition; host name wildcards
      respect labels; address rules cover IPv4-mapped spellings; the device identity
      the client claims cannot borrow a grant; grant lifetimes are capped.
    - Authored rules: a request is allowed only under an authored rule that covers it, with
      its selectors resolved in the catalogue to the device and the host dialled; each
      egress rule compiles to policies that match exactly what it covers, and unresolved
      references never widen it; inspection bypasses stay within their source; validation
      is idempotent.
    - Shared control planes: what is stored of rules and of the catalogue stays readable
      for every control plane over every history with failed and half-reached writes; a
      failed change is harmless; distribution is a round trip for rules and a
      reconciliation for the catalogue; an erased tenant is gone; aliases stay unique;
      destinations of other workflows cannot be taken over.
    - Policy runtime: over every history of processes the live policies are the authored
      ones over the bundle; a disabled policy does not decide, and an acknowledged one is
      evaluated, on the process that said so and on all that have read the document since;
      the header values of a sign-in restriction reach only their tenant; a bundle is a
      round trip of the controls, and of the policies until a restart.
    - Ceremonies and evidence: a flow is released as authenticated only by an authentication
      the challenge of which binds it, a completed ceremony releases, a challenge is spent once; agents act under
      live evidence, and a revoked grant or approval never authorises again; authored
      lifetimes are capped.
    - Kill-switches and marks: a device an administrator blocked stays blocked on every
      process that applied or read the block until it is restored or erased, a block a peer
      region saw acknowledged is permanent, a device a detection raised stays raised until an
      administrator or a pulled feed says otherwise, a user is as severe as the worst mark; an edge refuses a blocked device once a pull that
      began after the block has gone through, and sound answers are never rejected.
    - The door: who comes in shows a certificate of no other tenant; an administrator blocks
      and restores devices of the own organisation only; once the sweep of a block has ended
      the device serves on no connection, that sweep always can end, and nothing else cuts a
      session off.
    - The enrolled inventory: a name is not enrolled twice, a device that was disabled or
      removed stays out and is refused at the door, unless the ledger starts from its static
      list instead of its file, an enrolment that fails leaves the devices as they were and no
      claim but one the table did not answer for, and what is saved is read back.
    - Stores: a token is spent at most once over every history with failures and
      restarts; seats stay within the pool; what a seat store saves it can read; the
      explanation agrees with the decision; an active session proves a success of its tenant; the conntrack table is bounded and
      remembers; the cache refines a list in order of use.
    - State machines: region selection stays within the boundary, fails closed, never
      moves a revoked device and bounds its hysteresis; a halt holds on every control
      plane until it is released; snapshots stay readable; the update gate proceeds
      exactly when its conditions hold and a plan never relaxes them.
    - The updater: versions are totally ordered; an installer is launched only after all that
      must precede it; steering is never down without a record; a version left by a rollback
      stays out; a rehearsal changes nothing; a plan can always stop a device and starts it
      only for the release, the device and the time it is for, as far as it names them.

    Some examples record where the code departs from its own comments or wraps around:
    [config_generation_depends_on_request], [allocate_overflow_accepted],
    [reduction_refused_after_pool_shrinks], [huge_idle_requirement_lifts_the_gate],
    [isLocalClock_accepts_signs], [spaced_tenant_locks_the_store],
    [device_identifier_locks_the_catalogue], [padded_tenant_takes_over],
    [moved_alias_is_numbered], [fresh_id_overwrites], [shared_id_breaks_the_namespace],
    [anonymous_ceremony_releases_every_user], [authored_lifetime_ignored],
    [attested_use_does_not_keep_the_grant], [erasure_misses_capitals],
    [stale_cache_raises_a_cleared_device], [detection_over_a_lost_row_drops_marks],
    [permission_after_removal_is_not_honoured], [interrupted_attempt_is_not_counted],
    [rollback_disarm_error_is_not_recorded], [seeded_device_returns_when_file_unreadable];
    [pull_drops_a_detection] shows what the documentation says of pulled marks.

    ** Bounds and conventions

    - [int] and [time.Duration] are [Z] with [wrap64] where the code adds or multiplies
      values it does not bound; theorems about sums and products state the range.
    - Strings are bytes.  [trim_space] handles every space of Unicode; case mapping is
      that of ASCII, which is where [strings.ToLower] and [strings.EqualFold] are
      used on identifiers, host names and modes.
    - Fuel: [itoa] has one step per binary digit of its argument, IPv6 parsing has nine
      turns for eight groups and an ellipsis, the searches for a free rule identifier and
      a free alias have one turn more than there are names in use; every other recursion is structural.
    - Floats of conditions are decimal rationals rounded to 53 bits, half to even.
    - The clock is read once per call and is an argument, as are random identifiers,
      SHA-256 and the answers of probes.  A release instant is in UTC.

    ** Not modelled

    The lexical layer of JSON (a saved state is absent, unreadable, or what it decodes
    to; texts are valid UTF-8), TLS and X.509 beyond the identity and the anchors of a
    certificate, HTTP outside the handlers named above, file and network I/O, the kernel
    clients, the installers and the console.  The administrator's handlers around the other
    modelled stores, the outbox of the revocation mesh, signing and validation of manifests, the
    outbox of update reports, staging and the platforms' own calls, steering and known-bypass
    matching, metering and the signed licence files are not modelled. *)

From Stdlib Require Import Ascii.
From stdpp Require Import base gmap sets list strings sorting.
From Stdlib Require Import Permutation.

#[export] Set Default Goal Selector "!".

(** ** Record update

    [r <| f := v |>] is the Go assignment [r.f = v] on a copied struct.  A record
    type declares its eta expansion once ([Etaable]); every field's setter is then
    computed from it. *)

Class Etaable (R : Type) := eta_of : R → R.
Class Setter {R T : Type} (p : R → T) := set_field : T → R → R.

Ltac build_setter :=
  lazymatch goal with
  | |- @Setter ?R ?T ?p =>
      let i := constr:(_ : Etaable R) in
      let e := eval hnf in i in
      lazymatch (eval pattern p in e) with
      | ?f _ =>
          let s := eval cbv beta in (fun (v : T) (r : R) => f (fun _ : R => v) r) in
          exact s
      end
  end.

#[export] Hint Extern 1 (Setter _) => build_setter : typeclass_instances.

Declare Scope go_scope.
Delimit Scope go_scope with go.
Notation "r <| f := v |>" := (set_field (p:=f) v r)
  (at level 1, f at level 0, v at level 200, left associativity,
   format "r <| f  :=  v |>") : go_scope.
Open Scope go_scope.

(** ** Fallible results: Go's [(value, error)] pairs *)

Inductive result (E A : Type) : Type :=
  | Ok (a : A)
  | Err (e : E).
Arguments Ok {E A} a.
Arguments Err {E A} e.

Definition is_ok {E A} (r : result E A) : bool :=
  match r with Ok _ => true | Err _ => false end.

Definition result_bind {E A B} (r : result E A) (k : A → result E B) : result E B :=
  match r with Ok a => k a | Err e => Err e end.

Notation "'let!' x := c 'in' k" := (result_bind c (fun x => k))
  (at level 200, x pattern, c at level 100, k at level 200) : go_scope.

Lemma result_bind_ok {E A B} (r : result E A) (k : A → result E B) b :
  result_bind r k = Ok b ↔ ∃ a, r = Ok a ∧ k a = Ok b.
Proof. destruct r as [a|e]; cbn; naive_solver. Qed.

Lemma result_bind_err {E A B} (r : result E A) (k : A → result E B) e :
  result_bind r k = Err e ↔ r = Err e ∨ ∃ a, r = Ok a ∧ k a = Err e.
Proof. destruct r as [a|e']; cbn; naive_solver. Qed.

(** ** Go strings

    A Go string is a sequence of bytes: [string] below is read as that sequence.
    [trim_space] knows every Unicode white-space rune in its UTF-8 encoding; case
    mapping is the ASCII one (a byte above 127 is left as it is), because every
    keyword the program compares case-insensitively is ASCII. *)

Definition byte_val (c : ascii) : N := N_of_ascii c.

Definition is_space1 (a : ascii) : bool :=
  let n := byte_val a in
  ((9 <=? n) && (n <=? 13) || (n =? 32))%N.

(** U+0085 and U+00A0. *)
Definition is_space2 (a b : ascii) : bool :=
  ((byte_val a =? 194) && ((byte_val b =? 133) || (byte_val b =? 160)))%N.

(** U+1680, U+2000 to U+200A, U+2028, U+2029, U+202F, U+205F and U+3000. *)
Definition is_space3 (a b c : ascii) : bool :=
  let x := byte_val a in let y := byte_val b in let z := byte_val c in
  ((x =? 225) && (y =? 154) && (z =? 128)
   || (x =? 226) && (y =? 128)
        && ((128 <=? z) && (z <=? 138) || (z =? 168) || (z =? 169) || (z =? 175))
   || (x =? 226) && (y =? 129) && (z =? 159)
   || (x =? 227) && (y =? 128) && (z =? 128))%N.

(** Drops the leading white space, given the two- and three-byte spaces. *)
Fixpoint trim_with (sp2 : ascii → ascii → bool) (sp3 : ascii → ascii → ascii → bool)
    (s : string) : string :=
  match s with
  | EmptyString => s
  | String a s1 =>
      if is_space1 a then trim_with sp2 sp3 s1 else
      match s1 with
      | EmptyString => s
      | String b s2 =>
          if sp2 a b then trim_with sp2 sp3 s2 else
          match s2 with
          | EmptyString => s
          | String c s3 => if sp3 a b c then trim_with sp2 sp3 s3 else s
          end
      end
  end.

Definition trim_left : string → string := trim_with is_space2 is_space3.
(** The same on a reversed string: the bytes of a rune come last first. *)
Definition trim_left_rev : string → string :=
  trim_with (fun b a => is_space2 a b) (fun c b a => is_space3 a b c).

Definition trim_right (s : string) : string := String.rev (trim_left_rev (String.rev s)).

(** [strings.TrimSpace] *)
Definition trim_space (s : string) : string := trim_right (trim_left s).

Definition lower_byte (c : ascii) : ascii :=
  let n := byte_val c in
  if ((65 <=? n) && (n <=? 90))%N then ascii_of_N (n + 32) else c.

Fixpoint map_bytes (f : ascii → ascii) (s : string) : string :=
  match s with
  | EmptyString => EmptyString
  | String c s' => String (f c) (map_bytes f s')
  end.

(** [strings.ToLower], [strings.EqualFold], [strings.ReplaceAll] of one byte. *)
Definition to_lower : string → string := map_bytes lower_byte.
Definition equal_fold (a b : string) : bool := String.eqb (to_lower a) (to_lower b).
Definition replace_byte (old new : ascii) : string → string :=
  map_bytes (fun c => if Ascii.eqb c old then new else c).

(** [strings.HasPrefix], [strings.TrimPrefix] and their suffix versions. *)
Fixpoint strip_prefix (p s : string) : option string :=
  match p, s with
  | EmptyString, _ => Some s
  | String a p', String b s' => if Ascii.eqb a b then strip_prefix p' s' else None
  | String _ _, EmptyString => None
  end.
Definition has_prefix (s p : string) : bool := bool_decide (is_Some (strip_prefix p s)).
Definition trim_prefix (s p : string) : string := default s (strip_prefix p s).
Definition strip_suffix (suf s : string) : option string :=
  String.rev <$> strip_prefix (String.rev suf) (String.rev s).
Definition has_suffix (s suf : string) : bool := bool_decide (is_Some (strip_suffix suf s)).
Definition trim_suffix (s suf : string) : string := default s (strip_suffix suf s).

Definition is_empty (s : string) : bool := String.eqb s "".
Definition nonempty (s : string) : bool := negb (is_empty s).
(** [strings.TrimSpace(s) == ""] *)
Definition is_blank (s : string) : bool := is_empty (trim_space s).

(** [strings.Contains], [strings.Index] of one byte (the text before it and after
    it), [strings.LastIndexByte] likewise, and [strings.Cut] on a separator. *)
Fixpoint cut (sep s : string) : option (string * string) :=
  match strip_prefix sep s with
  | Some rest => Some ("", rest)
  | None =>
      match s with
      | EmptyString => None
      | String c s' =>
          match cut sep s' with
          | Some (before, after) => Some (String c before, after)
          | None => None
          end
      end
  end.
Definition contains_str (s sub : string) : bool := bool_decide (is_Some (cut sub s)).
Definition cut_last_byte (c : ascii) (s : string) : option (string * string) :=
  match cut (String c EmptyString) (String.rev s) with
  | Some (a, b) => Some (String.rev b, String.rev a)
  | None => None
  end.

(** [strings.Split] on one byte: never the empty list. *)
Fixpoint split_byte (c : ascii) (s : string) : list string :=
  match s with
  | EmptyString => [EmptyString]
  | String a s' =>
      if Ascii.eqb a c then EmptyString :: split_byte c s'
      else match split_byte c s' with
           | w :: ws => String a w :: ws
           | [] => [String a EmptyString]
           end
  end.

(** [strings.Join] *)
Fixpoint join (sep : string) (l : list string) : string :=
  match l with
  | [] => EmptyString
  | [w] => w
  | w :: ws => w +:+ sep +:+ join sep ws
  end.

(** [strings.Trim(s, cutset)] for a cutset of ASCII bytes. *)
Fixpoint trim_left_set (cutset : list ascii) (s : string) : string :=
  match s with
  | EmptyString => s
  | String a s' => if existsb (Ascii.eqb a) cutset then trim_left_set cutset s' else s
  end.
Definition trim_set (cutset : list ascii) (s : string) : string :=
  String.rev (trim_left_set cutset (String.rev (trim_left_set cutset s))).

(** ** Decimal numbers: [strconv.Itoa], [strconv.Atoi] (the range of [int]) *)

Definition digit_val (c : ascii) : option Z :=
  let n := Z.of_N (byte_val c) in
  if ((48 <=? n) && (n <=? 57))%Z then Some (n - 48)%Z else None.

Definition digit_char (d : Z) : ascii := ascii_of_N (Z.to_N (d + 48)).

Fixpoint itoa_pos (fuel : nat) (n : Z) (acc : string) : string :=
  match fuel with
  | O => acc
  | S fuel' =>
      let acc' := String (digit_char (n mod 10)) acc in
      if (n <? 10)%Z then acc' else itoa_pos fuel' (n / 10) acc'
  end.

(** Fuel: one step per digit, and a number has at most as many digits as bits. *)
Definition itoa_fuel (n : Z) : nat := S (Z.to_nat (Z.log2 n)).
Definition itoa (n : Z) : string :=
  if (n <? 0)%Z then String "-" (itoa_pos (itoa_fuel (- n)) (- n) "")
  else itoa_pos (itoa_fuel n) n "".

Fixpoint parse_digits (s : string) (acc : Z) : option Z :=
  match s with
  | EmptyString => Some acc
  | String c s' =>
      match digit_val c with
      | Some d => parse_digits s' (acc * 10 + d)%Z
      | None => None
      end
  end.

(** An unsigned decimal with at least one digit. *)
Definition parse_unsigned (s : string) : option Z :=
  if is_empty s then None else parse_digits s 0.

Definition int_max : Z := 2 ^ 63 - 1.
Definition int_min : Z := - 2 ^ 63.

(** Go's [int] arithmetic wraps at 64 bits. *)
Definition wrap64 (z : Z) : Z := (z + 2 ^ 63) mod 2 ^ 64 - 2 ^ 63.

Definition atoi (s : string) : option Z :=
  let go (t : string) (sign : Z) :=
    match parse_unsigned t with
    | Some n => let v := (sign * n)%Z in
                if ((int_min <=? v) && (v <=? int_max))%Z then Some v else None
    | None => None
    end in
  match s with
  | String "-" t => go t (-1)%Z
  | String "+" t => go t 1%Z
  | _ => go s 1%Z
  end.

(** ** Lists *)

Definition containsString (l : list string) (x : string) : bool :=
  existsb (fun y => String.eqb y x) l.

Definition appendUniqueString (l : list string) (x : string) : list string :=
  if is_empty x then l else if containsString l x then l else l ++ [x].

(** The last value wins: Go's successive assignments [m[k] = v]. *)
Definition set_keys {V} (m : gmap string V) (kvs : list (string * V)) : gmap string V :=
  foldl (fun acc kv => <[kv.1 := kv.2]> acc) m kvs.

(** [when b kvs]: the assignments of [if b { ... }]. *)
Definition when {A} (b : bool) (l : list A) : list A := if b then l else [].

(** [switch k { case k1: v1 ... default: d }] with at least one label per case. *)
Fixpoint switch {A} (k : string) (cases : list (list string * A)) (d : A) : A :=
  match cases with
  | [] => d
  | (labels, v) :: rest => if containsString labels k then v else switch k rest d
  end.

(** ** Stable sorting ([sort.SliceStable])

    The result of a stable sort by a strict weak order is unique, so insertion
    sort stands for the library's merge of runs. *)

Section stable_sort.
  Context {A : Type} (lt : A → A → bool).

Fixpoint insert_sorted (x : A) (l : list A) : list A :=
  match l with
  | [] => [x]
  | y :: l' => if lt y x then y :: insert_sorted x l' else x :: y :: l'
  end.

Definition sort_stable (l : list A) : list A := foldr insert_sorted [] l.
End stable_sort.

(** A comparator [less] fit for sorting: a strict weak order. *)
Class WeakOrder {A} (lt : A → A → bool) : Prop := {
  wo_asym : ∀ x y, lt x y = true → lt y x = false;
  wo_negtrans : ∀ x y z, lt y x = false → lt z y = false → lt z x = false;
}.

(** [if k(x) != k(y) { return k(x) < k(y) }; return rest(x, y)] *)
Definition lex_Z {A} (k : A → Z) (rest : A → A → bool) : A → A → bool :=
  fun x y => if (k x =? k y)%Z then rest x y else (k x <? k y)%Z.

Definition lex_string_lt {A} (k : A → string) : A → A → bool :=
  fun x y => String.ltb (k x) (k y).

Definition sort_strings : list string → list string := sort_stable String.ltb.

(** ** Proof support *)

Create HintDb go discriminated.
Create HintDb go_rewrite.

(** Case analysis on every [if] and [match] that blocks the goal or a hypothesis. *)
Ltac split_match :=
  repeat (case_match; simplify_eq/=; try done).

(** Boolean facts to propositions. *)
Ltac bool_facts :=
  repeat match goal with
  | H : (_ && _)%bool = true |- _ => apply andb_prop in H as [? ?]
  | H : (_ || _)%bool = false |- _ => apply orb_false_elim in H as [? ?]
  | H : negb _ = true |- _ => apply negb_true_iff in H
  | H : negb _ = false |- _ => apply negb_false_iff in H
  | H : String.eqb _ _ = true |- _ => apply String.eqb_eq in H
  | H : String.eqb _ _ = false |- _ => apply String.eqb_neq in H
  | H : (_ =? _)%Z = true |- _ => apply Z.eqb_eq in H
  | H : (_ =? _)%Z = false |- _ => apply Z.eqb_neq in H
  | H : (_ <? _)%Z = true |- _ => apply Z.ltb_lt in H
  | H : (_ <? _)%Z = false |- _ => apply Z.ltb_ge in H
  | H : (_ <=? _)%Z = true |- _ => apply Z.leb_le in H
  | H : (_ <=? _)%Z = false |- _ => apply Z.leb_gt in H
  | H : bool_decide _ = true |- _ => apply bool_decide_eq_true in H
  | H : bool_decide _ = false |- _ => apply bool_decide_eq_false in H
  end.

Section sort_facts.
  Context {A : Type} (lt : A → A → bool) `{!WeakOrder lt}.

Lemma insert_sorted_perm x l : insert_sorted lt x l ≡ₚ x :: l.
Proof.
  induction l as [|y l IH]; cbn; [done|].
  destruct (lt y x); [|done]. rewrite IH. constructor.
Qed.

Lemma sort_stable_perm l : sort_stable lt l ≡ₚ l.
Proof.
  induction l as [|x l IH]; cbn; [done|]. rewrite insert_sorted_perm. by f_equiv.
Qed.

(** Sorting respects reordering of its input, up to reordering of its output. *)
#[export] Instance sort_stable_proper : Proper ((≡ₚ) ==> (≡ₚ)) (sort_stable lt).
Proof. intros l l' Hp. by rewrite !sort_stable_perm. Qed.

Lemma insert_sorted_sorted x l :
  StronglySorted (fun a b => lt b a = false) l →
  StronglySorted (fun a b => lt b a = false) (insert_sorted lt x l).
Proof.
  induction 1 as [|y l Hl IH Hy]; cbn; [repeat constructor|].
  destruct (lt y x) eqn:E.
  - constructor; [done|]. rewrite insert_sorted_perm. constructor; [|done].
    by apply wo_asym.
  - repeat constructor; try done. eapply Forall_impl; [done|].
    intros z Hz. cbn in Hz. by eapply wo_negtrans.
Qed.

Lemma sort_stable_sorted l : StronglySorted (fun a b => lt b a = false) (sort_stable lt l).
Proof. induction l; cbn; [constructor|]. by apply insert_sorted_sorted. Qed.

Lemma filter_insert_sorted (f : A → bool) x l :
  (∀ x y, f x = true → f y = true → lt x y = false) →
  List.filter f (insert_sorted lt x l) = List.filter f (x :: l).
Proof.
  intros Hf. induction l as [|y l IH]; [done|]. cbn [insert_sorted].
  destruct (lt y x) eqn:E; [|done]. cbn [List.filter]. rewrite IH. cbn [List.filter].
  destruct (f y) eqn:Ey, (f x) eqn:Ex; try done.
  by rewrite (Hf y x) in E.
Qed.

(** Elements that the comparator does not order keep their relative order. *)
Lemma sort_stable_stable (f : A → bool) l :
  (∀ x y, f x = true → f y = true → lt x y = false) →
  List.filter f (sort_stable lt l) = List.filter f l.
Proof.
  intros Hf. induction l as [|x l IH]; [done|]. cbn [sort_stable foldr].
  rewrite filter_insert_sorted by done. cbn [List.filter]. unfold sort_stable in IH.
  by rewrite IH.
Qed.

Lemma find_sorted_min (P : A → bool) l x :
  StronglySorted (fun a b => lt b a = false) l →
  List.find P l = Some x →
  x ∈ l ∧ P x = true ∧ ∀ y, y ∈ l → P y = true → lt y x = false.
Proof.
  intros Hs. induction Hs as [|a l Hs IH Ha]; cbn; [done|].
  destruct (P a) eqn:E; intros Hx; simplify_eq.
  - split; [left|split; [done|]]. intros y [->|Hy]%elem_of_cons _.
    + destruct (lt x x) eqn:Exx; [|done]. by rewrite (wo_asym x x) in Exx.
    + rewrite Forall_forall in Ha. by apply Ha.
  - destruct (IH Hx) as (Hin & HP & Hmin). split; [by right|split; [done|]].
    intros y [->|Hy]%elem_of_cons HPy; [congruence|]. by apply Hmin.
Qed.

Lemma find_sort_stable (P : A → bool) l x :
  List.find P (sort_stable lt l) = Some x →
  x ∈ l ∧ P x = true ∧ ∀ y, y ∈ l → P y = true → lt y x = false.
Proof.
  intros H. apply find_sorted_min in H as (Hin & HP & Hmin);
    [|apply sort_stable_sorted].
  setoid_rewrite sort_stable_perm in Hin. split; [done|split; [done|]].
  intros y Hy. apply Hmin. by rewrite sort_stable_perm.
Qed.

Lemma find_sort_stable_none (P : A → bool) l :
  List.find P (sort_stable lt l) = None ↔ ∀ y, y ∈ l → P y = false.
Proof.
  split.
  - intros H y Hy. eapply List.find_none; [done|]. apply list_elem_of_In.
    by rewrite sort_stable_perm.
  - intros H. destruct (List.find P _) as [x|] eqn:E; [|done].
    apply find_sort_stable in E as (Hin & HP & _). by rewrite H in HP.
Qed.
(** Sorting and selecting commute. *)
Lemma filter_insert_sorted_comm (f : A → bool) a s :
  StronglySorted (fun a b => lt b a = false) s →
  List.filter f (insert_sorted lt a s) =
  if f a then insert_sorted lt a (List.filter f s) else List.filter f s.
Proof.
  induction 1 as [|y s Hs IH Hy]; cbn; [done|]. destruct (lt y a) eqn:Eya; cbn [List.filter].
  - rewrite IH. destruct (f y), (f a); cbn; try done. by rewrite Eya.
  - destruct (f a); [|done].
    assert (∀ z l, List.filter f (y :: s) = z :: l → lt z a = false) as Hz.
    { intros z l Hf. assert (z ∈ y :: s) as Hin.
      { apply list_elem_of_In. apply (List.filter_In f z). rewrite Hf. by left. }
      apply elem_of_cons in Hin as [->|Hin]; [done|].
      rewrite Forall_forall in Hy. by eapply (wo_negtrans a y z), Hy. }
    change (if f y then y :: List.filter f s else List.filter f s)
      with (List.filter f (y :: s)).
    destruct (List.filter f (y :: s)) as [|z l]; [done|]. cbn. by rewrite (Hz z l).
Qed.

Lemma filter_sort_stable (f : A → bool) l :
  List.filter f (sort_stable lt l) = sort_stable lt (List.filter f l).
Proof.
  induction l as [|a l IH]; [done|]. cbn [sort_stable foldr List.filter].
  rewrite filter_insert_sorted_comm by apply sort_stable_sorted.
  unfold sort_stable in IH. rewrite IH. by destruct (f a).
Qed.

(** [x] is the first minimal element of [l] among those that satisfy [P]. *)
Definition first_min (P : A → bool) (l : list A) (x : A) : Prop :=
  ∃ l1 l2, l = l1 ++ x :: l2 ∧ P x = true ∧
    (∀ y, y ∈ l1 → P y = true → lt x y = true) ∧
    (∀ y, y ∈ l2 → P y = true → lt y x = false).

Lemma find_insert_sorted (P : A → bool) a s :
  StronglySorted (fun a b => lt b a = false) s →
  List.find P (insert_sorted lt a s) =
  match List.find P s with
  | Some x => if P a && negb (lt x a) then Some a else Some x
  | None => if P a then Some a else None
  end.
Proof.
  induction 1 as [|y s Hs IH Hy]; [done|]. cbn [insert_sorted].
  destruct (lt y a) eqn:Eya; cbn [List.find].
  - destruct (P y); [|exact IH]. by rewrite Eya, andb_false_r.
  - destruct (P a) eqn:Ea; [|by destruct (P y), (List.find P s)].
    cbn. destruct (P y) eqn:Ey; [by rewrite Eya|].
    destruct (List.find P s) as [x|] eqn:Ex; [|done].
    apply find_sorted_min in Ex as (Hin & _ & _); [|done].
    rewrite Forall_forall in Hy. by rewrite (wo_negtrans a y x Eya (Hy _ Hin)).
Qed.

Lemma first_min_unique (P : A → bool) l x y :
  first_min P l x → first_min P l y → x = y.
Proof.
  intros (l1 & l2 & -> & Hx & Hx1 & Hx2) (k1 & k2 & Heq & Hy & Hy1 & Hy2).
  apply app_eq_inv in Heq as [([|a k] & -> & Hk)|([|a k] & -> & Hk)];
    [by injection Hk|injection Hk as <- ->|by injection Hk|injection Hk as <- ->].
  - assert (lt x y = true) by (apply Hx1; set_solver).
    assert (lt x y = false) by (apply Hy2; set_solver). congruence.
  - assert (lt y x = true) by (apply Hy1; set_solver).
    assert (lt y x = false) by (apply Hx2; set_solver). congruence.
Qed.

Lemma find_sort_stable_first (P : A → bool) l x :
  List.find P (sort_stable lt l) = Some x ↔ first_min P l x.
Proof.
  assert (∀ l x, List.find P (sort_stable lt l) = Some x → first_min P l x) as Hfwd.
  { clear l x. induction l as [|a l IH]; intros x; [done|].
    cbn [sort_stable foldr]. rewrite find_insert_sorted by apply sort_stable_sorted.
    fold (sort_stable lt l). destruct (List.find P (sort_stable lt l)) as [b|] eqn:Eb.
    - destruct (IH b eq_refl) as (l1 & l2 & -> & Hb & H1 & H2).
      destruct (P a && negb (lt b a)) eqn:E; intros [= <-].
      + bool_facts. exists [], (l1 ++ b :: l2). split_and!; [done..|set_solver|].
        intros y Hy HPy. apply find_sort_stable in Eb as (_ & _ & Hmin).
        eapply (wo_negtrans a b y); auto.
      + exists (a :: l1), l2. split_and!; try done.
        intros y [->|Hy]%elem_of_cons HPy; [|auto].
        rewrite HPy in E. by apply negb_false_iff in E.
    - destruct (P a) eqn:Ea; intros [= <-]. exists [], l. split_and!; [done..|set_solver|].
      intros y Hy HPy. pose proof (proj1 (find_sort_stable_none P l) Eb y Hy). congruence. }
  split; [apply Hfwd|]. intros Hx. destruct (List.find P (sort_stable lt l)) as [y|] eqn:E.
  - f_equal. eapply first_min_unique; [by apply Hfwd|done].
  - destruct Hx as (l1 & l2 & -> & HPx & _).
    rewrite (proj1 (find_sort_stable_none P _) E x) in HPx; [done|set_solver].
Qed.
End sort_facts.

#[export] Instance lex_Z_weak {A} (k : A → Z) rest :
  WeakOrder rest → WeakOrder (lex_Z k rest).
Proof.
  intros [Hasym Hneg]. split; unfold lex_Z.
  - intros x y. rewrite (Z.eqb_sym (k y)). destruct (Z.eqb_spec (k x) (k y)); [auto|].
    intros ?%Z.ltb_lt. apply Z.ltb_ge. lia.
  - intros x y z. destruct (Z.eqb_spec (k y) (k x)), (Z.eqb_spec (k z) (k y)),
      (Z.eqb_spec (k z) (k x)); rewrite ?Z.ltb_ge; try lia; eauto.
Qed.

Lemma string_ltb_leb (x y : string) : String.ltb x y = negb (String.leb y x).
Proof.
  unfold String.ltb, String.leb. rewrite (String.compare_antisym y x).
  by destruct (x ?= y)%string.
Qed.

#[export] Instance string_ltb_weak {A} (k : A → string) : WeakOrder (lex_string_lt k).
Proof.
  split; unfold lex_string_lt; setoid_rewrite string_ltb_leb.
  - intros x y. rewrite negb_true_iff, negb_false_iff. intros H.
    destruct (String.leb_total (k x) (k y)) as [?|?]; [done|congruence].
  - intros x y z. rewrite !negb_false_iff. intros Hyx Hzy.
    rewrite <- !Is_true_true in *. change (String.le (k x) (k z)).
    transitivity (k y); [exact Hyx|exact Hzy].
Qed.

#[export] Instance sort_strings_weak : WeakOrder String.ltb.
Proof. exact (string_ltb_weak id). Qed.

(** The order of distinct texts is total, so a sorted list is known by its elements. *)
Lemma sort_strings_unique l l' : l ≡ₚ l' → sort_strings l = sort_strings l'.
Proof.
  intros Hp. apply (StronglySorted_unique_strong (fun a b => String.ltb b a = false));
    [|apply sort_stable_sorted, _..|by unfold sort_strings; rewrite !sort_stable_perm].
  intros x y _ _. rewrite !string_ltb_leb, !negb_false_iff. apply String.leb_antisym.
Qed.

(** ** String facts *)

Lemma string_app_cons c (a b : string) : String c a +:+ b = String c (a +:+ b).
Proof. done. Qed.

Lemma string_app_assoc (a b c : string) : a +:+ (b +:+ c) = (a +:+ b) +:+ c.
Proof. induction a as [|x a IH]; [done|]. exact (f_equal (String x) IH). Qed.

Lemma string_app_nil_r (a : string) : a +:+ "" = a.
Proof. induction a as [|x a IH]; [done|]. exact (f_equal (String x) IH). Qed.

Lemma rev_app_spec (a b : string) : String.rev_app a b = String.rev a +:+ b.
Proof.
  revert b. induction a as [|c a IH]; intros b; [done|]. unfold String.rev. cbn.
  rewrite !IH. by rewrite <- string_app_assoc.
Qed.

Lemma string_rev_cons c (a : string) : String.rev (String c a) = String.rev a +:+ String c "".
Proof. unfold String.rev at 1. cbn. apply rev_app_spec. Qed.

Lemma string_rev_app (a b : string) : String.rev (a +:+ b) = String.rev b +:+ String.rev a.
Proof.
  induction a as [|c a IH]; [by rewrite string_app_nil_r|].
  by rewrite string_app_cons, !string_rev_cons, IH, string_app_assoc.
Qed.

Lemma string_rev_involutive (a : string) : String.rev (String.rev a) = a.
Proof. induction a as [|c a IH]; [done|]. by rewrite string_rev_cons, string_rev_app, IH. Qed.

Lemma strip_prefix_spec (p s r : string) : strip_prefix p s = Some r ↔ s = p +:+ r.
Proof.
  revert s. induction p as [|a p IH]; intros s; cbn; [naive_solver|].
  destruct s as [|b s]; [naive_solver|]. rewrite string_app_cons.
  destruct (Ascii.eqb_spec a b); rewrite ?IH; naive_solver.
Qed.

Lemma strip_suffix_spec (suf s r : string) : strip_suffix suf s = Some r ↔ s = r +:+ suf.
Proof.
  unfold strip_suffix. rewrite fmap_Some. setoid_rewrite strip_prefix_spec. split.
  - intros (x & Hx & ->). apply (f_equal String.rev) in Hx.
    by rewrite string_rev_app, !string_rev_involutive in Hx.
  - intros ->. exists (String.rev r). by rewrite string_rev_app, string_rev_involutive.
Qed.

Lemma has_prefix_spec (s p : string) : has_prefix s p = true ↔ ∃ r, s = p +:+ r.
Proof.
  unfold has_prefix. rewrite bool_decide_eq_true. unfold is_Some.
  by setoid_rewrite strip_prefix_spec.
Qed.

Lemma has_suffix_spec (s p : string) : has_suffix s p = true ↔ ∃ r, s = r +:+ p.
Proof.
  unfold has_suffix. rewrite bool_decide_eq_true. unfold is_Some.
  by setoid_rewrite strip_suffix_spec.
Qed.

Lemma string_length_app (a b : string) :
  String.length (a +:+ b) = String.length a + String.length b.
Proof. induction a as [|x a IH]; [done|]. exact (f_equal S IH). Qed.

Section trim_facts.
  Context (sp2 : ascii → ascii → bool) (sp3 : ascii → ascii → ascii → bool).

(** The text begins with white space. *)
Definition starts_space (s : string) : bool :=
  match s with
  | EmptyString => false
  | String a s1 =>
      is_space1 a ||
      match s1 with
      | EmptyString => false
      | String b s2 =>
          sp2 a b || match s2 with EmptyString => false | String c _ => sp3 a b c end
      end
  end.

Lemma trim_with_fixed s : starts_space s = false → trim_with sp2 sp3 s = s.
Proof.
  destruct s as [|a [|b [|c s]]]; cbn; try done; destruct (is_space1 a); cbn; try done;
    destruct (sp2 a b); cbn; try done. by intros ->.
Qed.

Lemma trim_with_suffix s :
  starts_space (trim_with sp2 sp3 s) = false ∧ ∃ p, s = p +:+ trim_with sp2 sp3 s.
Proof.
  assert (∀ n s, String.length s < n →
    starts_space (trim_with sp2 sp3 s) = false ∧ ∃ p, s = p +:+ trim_with sp2 sp3 s) as H.
  { clear s. induction n as [|n IH]; intros s Hn; [lia|].
    assert (∀ q s', s = q +:+ s' → String.length s' < n →
      trim_with sp2 sp3 s = trim_with sp2 sp3 s' →
      starts_space (trim_with sp2 sp3 s) = false ∧ ∃ p, s = p +:+ trim_with sp2 sp3 s) as Hstep.
    { intros q s' -> Hl ->. destruct (IH s' Hl) as [? [p Hp]]. split; [done|].
      exists (q +:+ p). rewrite <- string_app_assoc. by f_equal. }
    destruct s as [|a s1]; [split; [done|]; by exists ""|].
    destruct (is_space1 a) eqn:Ea.
    { apply (Hstep (String a "") s1); cbn in *; [done|lia|by rewrite Ea]. }
    destruct s1 as [|b s2]; [cbn; rewrite Ea; cbn; rewrite Ea; split; [done|]; by exists ""|].
    destruct (sp2 a b) eqn:Eb.
    { apply (Hstep (String a (String b "")) s2); cbn in *; [done|lia|by rewrite Ea, Eb]. }
    destruct s2 as [|c s3];
      [cbn; rewrite Ea, Eb; cbn; rewrite Ea, Eb; split; [done|]; by exists ""|].
    destruct (sp3 a b c) eqn:Ec.
    { apply (Hstep (String a (String b (String c ""))) s3); cbn in *;
        [done|lia|by rewrite Ea, Eb, Ec]. }
    cbn. rewrite Ea, Eb, Ec. cbn. rewrite Ea, Eb, Ec. split; [done|]. by exists "". }
  eapply H. apply Nat.lt_succ_diag_r.
Qed.

Lemma trim_with_idemp s : trim_with sp2 sp3 (trim_with sp2 sp3 s) = trim_with sp2 sp3 s.
Proof. apply trim_with_fixed, trim_with_suffix. Qed.

Lemma starts_space_prefix p r : starts_space (p +:+ r) = false → starts_space p = false.
Proof.
  destruct p as [|a [|b [|c p]]]; rewrite ?string_app_cons; cbn; [done|..];
    rewrite !orb_false_iff; intros; destruct_and?; repeat split; done.
Qed.
Lemma trim_with_cons a s1 :
  trim_with sp2 sp3 (String a s1) =
  if is_space1 a then trim_with sp2 sp3 s1 else
  match s1 with
  | EmptyString => String a s1
  | String b s2 =>
      if sp2 a b then trim_with sp2 sp3 s2 else
      match s2 with
      | EmptyString => String a s1
      | String c s3 => if sp3 a b c then trim_with sp2 sp3 s3 else String a s1
      end
  end.
Proof. reflexivity. Qed.

(** A last character that is no part of a space survives. *)
Lemma trim_with_last c s :
  is_space1 c = false → (∀ a, sp2 a c = false) → (∀ a b, sp3 a b c = false) →
  trim_with sp2 sp3 (s +:+ String c "") ≠ "".
Proof.
  intros H1 H2 H3.
  assert (∀ n s, String.length s < n → trim_with sp2 sp3 (s +:+ String c "") ≠ "") as H.
  { clear s. induction n as [|n IH]; intros s Hn; [lia|].
    destruct s as [|x s1].
    { change ("" +:+ String c "") with (String c ""). by rewrite trim_with_cons, H1. }
    rewrite string_app_cons, trim_with_cons. cbn in Hn.
    destruct (is_space1 x); [apply IH; lia|]. destruct s1 as [|y s2].
    { change ("" +:+ String c "") with (String c ""). cbv iota beta. by rewrite H2. }
    rewrite string_app_cons. cbn in Hn. destruct (sp2 x y); [apply IH; lia|].
    destruct s2 as [|z s3].
    { change ("" +:+ String c "") with (String c ""). cbv iota beta. by rewrite H3. }
    rewrite string_app_cons. cbn in Hn. destruct (sp3 x y z); [apply IH; lia|done]. }
  eapply H. apply Nat.lt_succ_diag_r.
Qed.
End trim_facts.

Lemma trim_right_prefix s : ∃ r, s = trim_right s +:+ r.
Proof.
  unfold trim_right, trim_left_rev.
  destruct (trim_with_suffix (fun b a => is_space2 a b) (fun c b a => is_space3 a b c)
              (String.rev s)) as [_ [p Hp]].
  exists (String.rev p). apply (f_equal String.rev) in Hp.
  by rewrite string_rev_involutive, string_rev_app in Hp.
Qed.

(** A text that starts with a character that starts no space is not blank. *)
Lemma nonblank_head c s :
  is_space1 c = false → (∀ a, is_space2 c a = false) → (∀ a b, is_space3 c a b = false) →
  is_blank (String c s) = false.
Proof.
  intros H1 H2 H3. unfold is_blank, trim_space. apply not_true_iff_false.
  unfold is_empty. rewrite String.eqb_eq.
  assert (trim_left (String c s) = String c s) as ->.
  { apply trim_with_fixed. cbn. rewrite H1. destruct s as [|a [|b s]]; rewrite ?H2, ?H3; done. }
  unfold trim_right. rewrite string_rev_cons. intros H.
  apply (f_equal String.rev) in H. rewrite string_rev_involutive in H. revert H.
  by apply trim_with_last.
Qed.

(** [strings.TrimSpace] is idempotent. *)
Lemma trim_space_idemp s : trim_space (trim_space s) = trim_space s.
Proof.
  unfold trim_space. assert (trim_left (trim_right (trim_left s)) = trim_right (trim_left s)) as ->.
  { apply trim_with_fixed. destruct (trim_right_prefix (trim_left s)) as [r Hr].
    apply (starts_space_prefix _ _ _ r). rewrite <- Hr. apply trim_with_suffix. }
  unfold trim_right. rewrite string_rev_involutive. unfold trim_left_rev.
  by rewrite trim_with_idemp.
Qed.

(** ** Wrapping arithmetic *)

Lemma wrap64_id z : (int_min ≤ z ≤ int_max)%Z → wrap64 z = z.
Proof.
  unfold wrap64, int_min, int_max. intros H. rewrite Z.mod_small; lia.
Qed.

Lemma wrap64_add_l x y : wrap64 (wrap64 x + y) = wrap64 (x + y).
Proof.
  unfold wrap64. f_equal.
  replace ((x + 2 ^ 63) mod 2 ^ 64 - 2 ^ 63 + y + 2 ^ 63)%Z
    with ((x + 2 ^ 63) mod 2 ^ 64 + y)%Z by lia.
  rewrite Zplus_mod_idemp_l. f_equal. lia.
Qed.

Lemma wrap64_range z : (int_min ≤ wrap64 z ≤ int_max)%Z.
Proof.
  unfold wrap64, int_min, int_max.
  pose proof (Z.mod_pos_bound (z + 2 ^ 63) (2 ^ 64) eq_refl). lia.
Qed.

Lemma wrap64_inj x y : (- 2 ^ 64 < x - y < 2 ^ 64)%Z → wrap64 x = wrap64 y → x = y.
Proof.
  intros Hd H. unfold wrap64 in H.
  assert ((x + 2 ^ 63) mod 2 ^ 64 = (y + 2 ^ 63) mod 2 ^ 64)%Z as He by lia.
  pose proof (Z.div_mod (x + 2 ^ 63) (2 ^ 64)). pose proof (Z.div_mod (y + 2 ^ 63) (2 ^ 64)).
  nia.
Qed.

(** ** Decimal texts are read back *)

Section decimal_facts.
Local Open Scope Z_scope.

Lemma digit_val_char d : 0 ≤ d < 10 → digit_val (digit_char d) = Some d.
Proof.
  intros Hd. assert (d ∈ seqZ 0 10) as Hin by (apply elem_of_seqZ; lia).
  rewrite list_elem_of_In in Hin. cbn in Hin.
  repeat (destruct Hin as [<-|Hin]; [reflexivity|]). done.
Qed.

Lemma parse_digits_itoa_pos fuel n acc :
  0 ≤ n < 2 ^ Z.of_nat fuel → (0 < fuel)%nat →
  parse_digits (itoa_pos fuel n acc) 0 = parse_digits acc n.
Proof.
  revert n acc. induction fuel as [|fuel IH]; intros n acc Hn Hf; [lia|]. cbn [itoa_pos].
  pose proof (Z.mod_pos_bound n 10). destruct (Z.ltb_spec n 10).
  - cbn [parse_digits]. rewrite digit_val_char by lia. f_equal. rewrite Z.mod_small; lia.
  - rewrite Nat2Z.inj_succ, Z.pow_succ_r in Hn by lia.
    assert (n / 10 < 2 ^ Z.of_nat fuel) by (apply Z.div_lt_upper_bound; lia).
    rewrite IH.
    + cbn [parse_digits]. rewrite digit_val_char by lia. f_equal.
      rewrite (Z.div_mod n 10) at 3; lia.
    + split; [apply Z.div_pos; lia|done].
    + destruct fuel; [|lia]. cbn in *. lia.
Qed.

Lemma itoa_fuel_enough n : 0 ≤ n → n < 2 ^ Z.of_nat (itoa_fuel n).
Proof.
  intros Hn. unfold itoa_fuel. rewrite Nat2Z.inj_succ, Z2Nat.id by apply Z.log2_nonneg.
  destruct (Z.eq_dec n 0) as [->|]; [done|]. apply Z.log2_spec. lia.
Qed.

Lemma parse_digits_itoa n : 0 ≤ n → parse_digits (itoa n) 0 = Some n.
Proof.
  intros Hn. unfold itoa. rewrite (proj2 (Z.ltb_ge _ _)) by lia.
  rewrite parse_digits_itoa_pos; [done| |unfold itoa_fuel; lia].
  split; [done|by apply itoa_fuel_enough].
Qed.

Lemma itoa_inj m n : 0 ≤ n → itoa m = itoa n → m = n.
Proof.
  intros Hn H. apply (f_equal (fun s => parse_digits s 0)) in H.
  rewrite (parse_digits_itoa n Hn) in H. destruct (Z.ltb_spec m 0) as [Hm|Hm].
  - unfold itoa in H. by rewrite (proj2 (Z.ltb_lt _ _) Hm) in H.
  - rewrite parse_digits_itoa in H by done. by injection H.
Qed.

Lemma itoa_inj_all m n : itoa m = itoa n → m = n.
Proof.
  destruct (Z.ltb_spec n 0) as [Hn|Hn]; [|by apply itoa_inj].
  destruct (Z.ltb_spec m 0) as [Hm|Hm]; [|intros H; symmetry; by apply itoa_inj].
  intros H. unfold itoa in H.
  rewrite (proj2 (Z.ltb_lt _ _) Hn), (proj2 (Z.ltb_lt _ _) Hm) in H. simplify_eq.
  assert (itoa (- m) = itoa (- n)) as He.
  { unfold itoa. by rewrite !(proj2 (Z.ltb_ge _ _)) by lia. }
  apply itoa_inj in He; lia.
Qed.

Lemma itoa_nonempty n : itoa n ≠ "".
Proof.
  intros H. destruct (Z.ltb_spec n 0) as [Hn|Hn].
  - unfold itoa in H. by rewrite (proj2 (Z.ltb_lt _ _) Hn) in H.
  - pose proof (parse_digits_itoa n Hn) as Hp. rewrite H in Hp. cbn in Hp. injection Hp as <-.
    done.
Qed.

(** Texts that do not begin with the byte 0. *)
Definition starts_nul (s : string) : bool :=
  match s with String c _ => Ascii.eqb c Ascii.zero | EmptyString => false end.

Lemma starts_nul_app a b :
  starts_nul (a +:+ b) = if is_empty a then starts_nul b else starts_nul a.
Proof. by destruct a. Qed.

Lemma itoa_starts_nul n : starts_nul (itoa n) = false.
Proof.
  destruct (Z.ltb_spec n 0) as [Hn|Hn].
  - unfold itoa. by rewrite (proj2 (Z.ltb_lt _ _) Hn).
  - pose proof (parse_digits_itoa n Hn) as H. destruct (itoa n) as [|c s]; [done|]. cbn in *.
    destruct (Ascii.eqb_spec c Ascii.zero) as [->|]; done.
Qed.

Lemma starts_nul_join sep l :
  starts_nul sep = false → Forall (fun s => starts_nul s = false) l →
  starts_nul (join sep l) = false.
Proof.
  intros Hs. induction 1 as [|w l Hw Hl IH]; [done|]. destruct l; [done|].
  change (join sep (w :: s :: l)) with (w +:+ (sep +:+ join sep (s :: l))).
  rewrite !starts_nul_app, Hw, Hs, IH. repeat case_match; done.
Qed.
End decimal_facts.

Lemma is_empty_true (s : string) : is_empty s = true ↔ s = "".
Proof. apply String.eqb_eq. Qed.

Lemma containsString_spec (l : list string) x : containsString l x = true ↔ x ∈ l.
Proof.
  unfold containsString. rewrite existsb_exists. setoid_rewrite String.eqb_eq.
  setoid_rewrite <- list_elem_of_In. naive_solver.
Qed.

Lemma set_keys_app {V} (m : gmap string V) k1 k2 :
  set_keys m (k1 ++ k2) = set_keys (set_keys m k1) k2.
Proof. apply foldl_app. Qed.

Lemma set_keys_other {V} (m : gmap string V) kvs k :
  k ∉ kvs.*1 → set_keys m kvs !! k = m !! k.
Proof.
  revert m. induction kvs as [|[k' v] kvs IH]; intros m Hk; [done|].
  cbn in *. apply not_elem_of_cons in Hk as [? ?].
  unfold set_keys in *. rewrite IH by done. by rewrite lookup_insert_ne.
Qed.

Lemma set_keys_last {V} (m : gmap string V) l1 k v l2 :
  k ∉ l2.*1 → set_keys m (l1 ++ (k, v) :: l2) !! k = Some v.
Proof.
  intros Hk. rewrite set_keys_app. change ((k, v) :: l2) with ([(k, v)] ++ l2).
  rewrite set_keys_app, set_keys_other by done. apply lookup_insert_eq.
Qed.

(** Entries that agree on the value of each key: every one is found. *)
Lemma set_keys_lookup {V} (l : list (string * V)) k v :
  (∀ k v v', (k, v) ∈ l → (k, v') ∈ l → v = v') →
  set_keys ∅ l !! k = Some v ↔ (k, v) ∈ l.
Proof.
  intros Hfun. split.
  - assert (∀ m, set_keys m l !! k = Some v → m !! k = Some v ∨ (k, v) ∈ l) as Hgen.
    { clear Hfun. induction l as [|[k' v'] l IH]; intros m; [by left|]. cbn.
      intros [Hm|Hl]%IH; [|right; by right]. rewrite lookup_insert in Hm.
      destruct (decide (k' = k)) as [->|]; [|by left]. injection Hm as ->. right; left. }
    intros [Hm|Hl]%Hgen; [by rewrite lookup_empty in Hm|done].
  - intros Hl. apply list_elem_of_split in Hl as (l1 & l2 & ->).
    assert (∀ l' m, (∀ v', (k, v') ∈ l' → v' = v) → m !! k = Some v → set_keys m l' !! k = Some v) as Hgen.
    { induction l' as [|[k' v'] l' IH]; intros m Hl' Hm; [done|]. cbn. apply IH; [intros x Hx; apply Hl'; by right|].
      rewrite lookup_insert. case_decide as Hk; [|done]. subst k'. f_equal. apply Hl'. left. }
    rewrite set_keys_app. cbn. apply Hgen; [|apply lookup_insert_eq].
    intros v' Hv'. eapply Hfun; [apply elem_of_app; right; right; exact Hv'|apply elem_of_app; right; left].
Qed.

Lemma exists_elem_cons {A} (P : A → Prop) x l :
  (∃ y, y ∈ x :: l ∧ P y) ↔ P x ∨ ∃ y, y ∈ l ∧ P y.
Proof.
  setoid_rewrite elem_of_cons. split; [intros (y & [->|Hy] & HP)|intros [HP|(y & Hy & HP)]]; eauto.
Qed.

(** ** Rows per tenant: [map[string]map[string]A]

    Reading a missing inner map is reading an empty one. *)

Definition rowsOf {A} (m : gmap string (gmap string A)) (t : string) : gmap string A :=
  default ∅ (m !! t).
Definition putRow {A} (t id : string) (a : A) (m : gmap string (gmap string A))
    : gmap string (gmap string A) := <[t := <[id := a]> (rowsOf m t)]> m.

Section two_level_maps.
Context {A : Type}.
Implicit Types (m : gmap string (gmap string A)).

Lemma rowsOf_empty t : rowsOf (∅ : gmap string (gmap string A)) t = ∅.
Proof. unfold rowsOf. by rewrite lookup_empty. Qed.

Lemma rowsOf_some m t id a :
  rowsOf m t !! id = Some a ↔ ∃ rows, m !! t = Some rows ∧ rows !! id = Some a.
Proof.
  unfold rowsOf. destruct (m !! t) as [rows|]; cbn; [naive_solver|].
  rewrite lookup_empty. naive_solver.
Qed.

Lemma rowsOf_insert m t rows t' :
  rowsOf (<[t := rows]> m) t' = if decide (t' = t) then rows else rowsOf m t'.
Proof.
  unfold rowsOf. destruct (decide (t' = t)) as [->|Hne].
  - by rewrite lookup_insert_eq.
  - by rewrite lookup_insert_ne.
Qed.

(** The row under a key after an insertion. *)
Lemma rowsOf_put m t id a t' id' :
  rowsOf (putRow t id a m) t' !! id' =
  if decide (t' = t ∧ id' = id) then Some a else rowsOf m t' !! id'.
Proof.
  unfold putRow. rewrite rowsOf_insert. destruct (decide (t' = t)) as [->|Ht].
  - destruct (decide (id' = id)) as [->|Hi].
    + by rewrite lookup_insert_eq, decide_True.
    + rewrite lookup_insert_ne by done. by rewrite decide_False by naive_solver.
  - by rewrite decide_False by naive_solver.
Qed.

Lemma rowsOf_delete m t t' :
  rowsOf (delete t m) t' = if decide (t' = t) then ∅ else rowsOf m t'.
Proof.
  unfold rowsOf. destruct (decide (t' = t)) as [->|Hne].
  - by rewrite lookup_delete_eq.
  - by rewrite lookup_delete_ne.
Qed.
End two_level_maps.

(** Distinct elements of a set are no more than the set has. *)
Lemma no_dup_in_set (l : list string) (X : gset string) :
  NoDup l → (∀ x, x ∈ l → x ∈ X) → length l ≤ size X.
Proof.
  intros Hnd Hin. rewrite <- (size_list_to_set (C := gset string) l) by done.
  apply subseteq_size. intros x. rewrite elem_of_list_to_set. apply Hin.
Qed.

Lemma flat_map_fmap {A B C} (f : A → list B) (g : B → C) l :
  flat_map (fun x => g <$> f x) l = g <$> flat_map f l.
Proof. induction l as [|x l IH]; cbn; [done|]. by rewrite IH, fmap_app. Qed.

(** Blocks without repetition that share no element. *)
Lemma NoDup_flat_map {A B} (f : A → list B) l :
  NoDup l → (∀ x, x ∈ l → NoDup (f x)) →
  (∀ x y b, x ∈ l → y ∈ l → b ∈ f x → b ∈ f y → x = y) → NoDup (flat_map f l).
Proof.
  induction 1 as [|x l Hx Hnd IH]; intros Hf Hd; cbn; [constructor|].
  apply NoDup_app. split_and!.
  - apply Hf. left.
  - intros b Hb Hbl. apply list_elem_of_In, List.in_flat_map in Hbl as (y & Hy & Hby).
    apply Hx. rewrite (Hd x y b); [by apply list_elem_of_In|left|right; by apply list_elem_of_In
      |done|by apply list_elem_of_In].
  - apply IH; [intros y Hy; apply Hf; by right|].
    intros y z b Hy Hz. apply Hd; by right.
Qed.

Lemma fst_when {A B} (b : bool) (l : list (A * B)) : (when b l).*1 ⊆ l.*1.
Proof. destruct b; cbn; set_solver. Qed.

Lemma appendUniqueString_elem (l : list string) x y :
  y ∈ appendUniqueString l x → y ∈ l ∨ y = x.
Proof.
  unfold appendUniqueString. split_match; set_solver.
Qed.

Lemma appendUniqueString_mono (l : list string) x y : y ∈ l → y ∈ appendUniqueString l x.
Proof. unfold appendUniqueString. split_match; set_solver. Qed.

#[export] Hint Resolve appendUniqueString_mono : go.
#[export] Hint Rewrite string_rev_involutive string_app_nil_r trim_space_idemp : go_rewrite.
