(* ===== verification/Trimmed.v ===== *)
(** * Texts that [strings.TrimSpace] keeps whole

    Names the stores derive (numbered aliases, identifiers made of digits) are compared
    after trimming; these lemmas say that trimming leaves them as they are. *)

From Stdlib Require Import Ascii ZifyBool ZifyN.
From stdpp Require Import base gmap sets list strings.
From S2P Require Import Prelude.


(** A printable character other than a space is part of no space. *)
Definition solid (c : ascii) : bool := ((33 <=? byte_val c) && (byte_val c <=? 126))%N.

Lemma starts_solid c s : solid c = true → starts_space is_space2 is_space3 (String c s) = false.
Proof.
  unfold solid. intros H. bool_facts. cbn [starts_space].
  assert (is_space1 c = false) as -> by (unfold is_space1; cbv zeta; lia).
  assert (∀ b, is_space2 c b = false) as H2 by (intros b; unfold is_space2; cbv zeta; lia).
  assert (∀ b d, is_space3 c b d = false) as H3 by (intros b d; unfold is_space3; cbv zeta; lia).
  destruct s as [|b [|d s]]; rewrite ?H2, ?H3; done.
Qed.

Lemma starts_solid_rev c s :
  solid c = true →
  starts_space (fun b a => is_space2 a b) (fun c b a => is_space3 a b c) (String c s) = false.
Proof.
  unfold solid. intros H. bool_facts. cbn [starts_space].
  assert (is_space1 c = false) as -> by (unfold is_space1; cbv zeta; lia).
  assert (∀ b, is_space2 b c = false) as H2 by (intros b; unfold is_space2; cbv zeta; lia).
  assert (∀ b d, is_space3 d b c = false) as H3 by (intros b d; unfold is_space3; cbv zeta; lia).
  destruct s as [|b [|d s]]; rewrite ?H2, ?H3; done.
Qed.

Lemma trimmed_starts s : trim_space s = s → starts_space is_space2 is_space3 s = false.
Proof.
  intros <-. unfold trim_space. destruct (trim_right_prefix (trim_left s)) as [r Hr].
  apply (starts_space_prefix _ _ _ r). rewrite <- Hr. apply trim_with_suffix.
Qed.

Lemma trim_space_fixed s c :
  starts_space is_space2 is_space3 (s +:+ String c "") = false → solid c = true →
  trim_space (s +:+ String c "") = s +:+ String c "".
Proof.
  intros Hs Hc. unfold trim_space.
  assert (trim_left (s +:+ String c "") = s +:+ String c "") as -> by (by apply trim_with_fixed).
  unfold trim_right. rewrite string_rev_app. change (String.rev (String c "")) with (String c "").
  assert (trim_left_rev (String c "" +:+ String.rev s) = String c "" +:+ String.rev s) as ->
    by (by apply trim_with_fixed, starts_solid_rev).
  by rewrite string_rev_app, string_rev_involutive.
Qed.

(** A solid character does not complete a space that an unfinished one began. *)
Lemma starts_space_app s c r :
  s ≠ "" → starts_space is_space2 is_space3 s = false → solid c = true →
  starts_space is_space2 is_space3 (s +:+ String c r) = false.
Proof.
  unfold solid. intros Hne Hs Hc. bool_facts.
  assert (∀ b, is_space2 b c = false) as H2 by (intros b; unfold is_space2; cbv zeta; lia).
  assert (∀ b d, is_space3 b d c = false) as H3 by (intros b d; unfold is_space3; cbv zeta; lia).
  assert (∀ b d, is_space3 b c d = false) as H3' by (intros b d; unfold is_space3; cbv zeta; lia).
  destruct s as [|x [|y [|z s]]]; rewrite ?string_app_cons; cbn [starts_space] in *; [done|..].
  - change ("" +:+ String c r) with (String c r). cbv iota beta. rewrite orb_false_r in Hs.
    rewrite H2, Hs. destruct r; by rewrite ?H3'.
  - change ("" +:+ String c r) with (String c r). cbv iota beta. by rewrite H3.
  - done.
Qed.

Lemma digit_char_solid d : (0 ≤ d < 10)%Z → solid (digit_char d) = true.
Proof.
  intros Hd. assert (d ∈ seqZ 0 10) as Hin by (apply elem_of_seqZ; lia).
  rewrite list_elem_of_In in Hin. cbn in Hin.
  repeat (destruct Hin as [<-|Hin]; [reflexivity|]). done.
Qed.

Lemma itoa_pos_acc fuel n acc : ∃ q, itoa_pos fuel n acc = q +:+ acc.
Proof.
  revert n acc. induction fuel as [|fuel IH]; intros n acc; cbn [itoa_pos]; [by exists ""|].
  destruct (n <? 10)%Z; [by exists (String (digit_char (n mod 10)) "")|].
  destruct (IH (n / 10)%Z (String (digit_char (n mod 10)) acc)) as [q ->].
  exists (q +:+ String (digit_char (n mod 10)) ""). by rewrite <- string_app_assoc.
Qed.

Lemma itoa_last n : (0 ≤ n)%Z → ∃ q c, itoa n = q +:+ String c "" ∧ solid c = true.
Proof.
  intros Hn. unfold itoa. rewrite (proj2 (Z.ltb_ge _ _)) by done. unfold itoa_fuel.
  cbn [itoa_pos]. pose proof (Z.mod_pos_bound n 10 eq_refl).
  destruct (n <? 10)%Z.
  - exists "", (digit_char (n mod 10)). split; [done|by apply digit_char_solid].
  - destruct (itoa_pos_acc (Z.to_nat (Z.log2 n)) (n / 10) (String (digit_char (n mod 10)) "")) as [q ->].
    exists q, (digit_char (n mod 10)). split; [done|by apply digit_char_solid].
Qed.

(** [strings.TrimSpace] keeps a numbered text whole. *)
Lemma trim_numbered s c n :
  trim_space s = s → s ≠ "" → solid c = true → (0 ≤ n)%Z →
  trim_space (s +:+ String c (itoa n)) = s +:+ String c (itoa n).
Proof.
  intros Hs Hne Hc Hn. destruct (itoa_last n Hn) as (q & d & -> & Hd).
  assert (s +:+ String c (q +:+ String d "") = (s +:+ String c q) +:+ String d "") as Heq
    by (by rewrite <- string_app_assoc).
  rewrite Heq. apply trim_space_fixed; [|done]. rewrite <- Heq.
  apply starts_space_app; [done|by apply trimmed_starts|done].
Qed.

(** A text of solid characters. *)
Fixpoint solid_text (s : string) : bool :=
  match s with EmptyString => true | String c s' => solid c && solid_text s' end.

Lemma solid_text_app a b : solid_text (a +:+ b) = solid_text a && solid_text b.
Proof. induction a as [|c a IH]; [done|]. rewrite string_app_cons. cbn. by rewrite IH, andb_assoc. Qed.

Lemma solid_text_substring n m s : solid_text s = true → solid_text (String.substring n m s) = true.
Proof.
  revert n m. induction s as [|c s IH]; intros [|n] [|m]; cbn; try done;
    intros [Hc Hs]%andb_true_iff; [|by apply IH..]. by rewrite Hc, IH.
Qed.

Lemma string_snoc s : s ≠ "" → ∃ q c, s = q +:+ String c "".
Proof.
  induction s as [|x s IH]; intros Hne; [done|]. destruct s as [|y s]; [by exists "", x|].
  destruct IH as (q & c & ->); [done|]. by exists (String x q), c.
Qed.

Lemma trim_solid s : solid_text s = true → trim_space s = s.
Proof.
  destruct s as [|x s]; [done|]. intros H. destruct (string_snoc (String x s)) as (q & c & Hq); [done|].
  rewrite Hq in H |- *. rewrite solid_text_app in H. cbn in H. bool_facts.
  apply trim_space_fixed; [|done]. destruct q as [|y q].
  - by apply starts_solid.
  - rewrite string_app_cons. cbn in H. bool_facts. by apply starts_solid.
Qed.

(** ** Texts byte by byte, split and joined *)

Fixpoint all_bytes (f : ascii → bool) (s : string) : bool :=
  match s with EmptyString => true | String c s' => f c && all_bytes f s' end.

Lemma all_bytes_app f a b : all_bytes f (a +:+ b) = all_bytes f a && all_bytes f b.
Proof. induction a as [|c a IH]; [done|]. rewrite string_app_cons. cbn. by rewrite IH, andb_assoc. Qed.

Lemma all_bytes_impl (f g : ascii → bool) s :
  (∀ c, f c = true → g c = true) → all_bytes f s = true → all_bytes g s = true.
Proof. intros Hfg. induction s as [|c s IH]; [done|]. cbn. intros H. bool_facts. rewrite Hfg, IH; done. Qed.

Lemma all_bytes_solid s : all_bytes solid s = solid_text s.
Proof. induction s as [|c s IH]; [done|]. cbn. by rewrite IH. Qed.

Lemma all_bytes_split f c s :
  Forall (fun w => all_bytes f w = true) (split_byte c s) → f c = true → all_bytes f s = true.
Proof.
  intros Hall Hc. induction s as [|a s IH]; [done|]. cbn in *.
  destruct (Ascii.eqb_spec a c) as [->|Hne].
  - apply Forall_cons in Hall as [_ Hall]. by rewrite Hc, IH.
  - destruct (split_byte c s) as [|w ws]; apply Forall_cons in Hall as [Hw Hall]; cbn in Hw; bool_facts.
    + by rewrite IH, andb_true_r.
    + rewrite IH; [by rewrite andb_true_r|]. by constructor.
Qed.

Lemma split_byte_none c s : all_bytes (fun x => negb (Ascii.eqb x c)) s = true → split_byte c s = [s].
Proof.
  induction s as [|a s IH]; [done|]. cbn. intros H. bool_facts. rewrite (IH ltac:(done)).
  by destruct (Ascii.eqb a c).
Qed.

Lemma split_byte_app c w s :
  all_bytes (fun x => negb (Ascii.eqb x c)) w = true →
  split_byte c (w +:+ String c s) = w :: split_byte c s.
Proof.
  induction w as [|a w IH]; [|rewrite string_app_cons; cbn].
  { intros _. change ("" +:+ String c s) with (String c s). cbn [split_byte]. by rewrite Ascii.eqb_refl. }
  intros H. bool_facts. rewrite IH by done. by destruct (Ascii.eqb a c).
Qed.

Lemma split_join c l :
  l ≠ [] → Forall (fun w => all_bytes (fun x => negb (Ascii.eqb x c)) w = true) l →
  split_byte c (join (String c "") l) = l.
Proof.
  intros Hne Hall. induction Hall as [|w l Hw Hall IH]; [done|]. destruct l as [|v l].
  - by apply split_byte_none.
  - change (join (String c "") (w :: v :: l)) with (w +:+ String c "" +:+ join (String c "") (v :: l)).
    change (String c "" +:+ ?x) with (String c x).
    rewrite split_byte_app by done. by rewrite IH.
Qed.

(** The bytes of a list of texts, one more for each. *)
Definition text_cost (l : list string) : nat := sum_list_with (fun w => S (String.length w)) l.

Lemma join_length c l : String.length (join (String c "") l) = Nat.pred (text_cost l).
Proof.
  induction l as [|w [|v l] IH]; [done|cbn; lia|].
  change (join (String c "") (w :: v :: l)) with (w +:+ String c "" +:+ join (String c "") (v :: l)).
  rewrite !string_length_app, IH. unfold text_cost. cbn. lia.
Qed.

Lemma split_cost c s : text_cost (split_byte c s) = S (String.length s).
Proof.
  unfold text_cost. induction s as [|a s IH]; [done|]. cbn. destruct (Ascii.eqb a c); [cbn; by rewrite IH|].
  destruct (split_byte c s) as [|w ws]; cbn in *; [done|]. lia.
Qed.

Lemma trim_space_length s : (String.length (trim_space s) ≤ String.length s)%nat.
Proof.
  unfold trim_space. destruct (trim_right_prefix (trim_left s)) as [r Hr].
  destruct (trim_with_suffix is_space2 is_space3 s) as [_ [q Hq]].
  assert (String.length (trim_left s) ≤ String.length s)%nat.
  { apply (f_equal String.length) in Hq. rewrite string_length_app in Hq. unfold trim_left. lia. }
  apply (f_equal String.length) in Hr. rewrite string_length_app in Hr. lia.
Qed.

Lemma to_lower_length s : String.length (to_lower s) = String.length s.
Proof. unfold to_lower. induction s as [|c s IH]; [done|]. cbn. by rewrite IH. Qed.

Lemma lower_byte_idemp c : lower_byte (lower_byte c) = lower_byte c.
Proof.
  unfold lower_byte, byte_val. destruct ((65 <=? N_of_ascii c) && (N_of_ascii c <=? 90))%N eqn:E;
    [|by rewrite E].
  rewrite N_ascii_embedding by lia.
  destruct ((65 <=? N_of_ascii c + 32) && (N_of_ascii c + 32 <=? 90))%N eqn:E'; [lia|done].
Qed.

Lemma to_lower_idemp s : to_lower (to_lower s) = to_lower s.
Proof. unfold to_lower. induction s as [|c s IH]; [done|]. cbn. by rewrite IH, lower_byte_idemp. Qed.

Lemma lower_byte_cases x :
  byte_val (lower_byte x) = byte_val x ∨ (97 ≤ byte_val (lower_byte x) ≤ 122)%N ∧ (65 ≤ byte_val x ≤ 90)%N.
Proof.
  unfold lower_byte. destruct ((65 <=? byte_val x) && (byte_val x <=? 90))%N eqn:E; [right|by left].
  unfold byte_val at 1 2. rewrite !N_ascii_embedding; unfold byte_val in *; bool_facts; lia.
Qed.

Lemma lower_eqb x n : (n < 65 ∨ 122 < n)%N → (byte_val (lower_byte x) =? n)%N = (byte_val x =? n)%N.
Proof. intros. destruct (lower_byte_cases x) as [->|]; lia. Qed.

Lemma lower_leb x n : (n < 65 ∨ 122 < n)%N → (byte_val (lower_byte x) <=? n)%N = (byte_val x <=? n)%N.
Proof. intros. destruct (lower_byte_cases x) as [->|]; lia. Qed.

Lemma lower_geb x n : (n < 65 ∨ 122 < n)%N → (n <=? byte_val (lower_byte x))%N = (n <=? byte_val x)%N.
Proof. intros. destruct (lower_byte_cases x) as [->|]; lia. Qed.

(** Letters are no part of a space, so folding the case commutes with trimming. *)
Lemma lower_byte_spaces a b c :
  is_space1 (lower_byte a) = is_space1 a ∧ is_space2 (lower_byte a) (lower_byte b) = is_space2 a b ∧
  is_space3 (lower_byte a) (lower_byte b) (lower_byte c) = is_space3 a b c.
Proof.
  unfold is_space1, is_space2, is_space3. cbv zeta. by rewrite !lower_eqb, !lower_leb, !lower_geb by lia.
Qed.

Section trim_map.
Context (sp2 : ascii → ascii → bool) (sp3 : ascii → ascii → ascii → bool).
Hypothesis sp2_lower : ∀ a b, sp2 (lower_byte a) (lower_byte b) = sp2 a b.
Hypothesis sp3_lower : ∀ a b c, sp3 (lower_byte a) (lower_byte b) (lower_byte c) = sp3 a b c.

Lemma trim_with_lower s : trim_with sp2 sp3 (to_lower s) = to_lower (trim_with sp2 sp3 s).
Proof.
  assert (∀ n s, (String.length s < n)%nat → trim_with sp2 sp3 (to_lower s) = to_lower (trim_with sp2 sp3 s)) as H.
  { clear s. induction n as [|n IH]; intros s Hn; [lia|]. destruct s as [|a s1]; [done|]. cbn in Hn.
    change (to_lower (String a s1)) with (String (lower_byte a) (to_lower s1)). rewrite !trim_with_cons.
    rewrite (proj1 (lower_byte_spaces a a a)). destruct (is_space1 a); [apply IH; lia|].
    destruct s1 as [|b s2]; [done|]. cbn in Hn.
    change (to_lower (String b s2)) with (String (lower_byte b) (to_lower s2)). cbv iota beta.
    rewrite sp2_lower. destruct (sp2 a b); [apply IH; lia|].
    destruct s2 as [|c s3]; [done|]. cbn in Hn.
    change (to_lower (String c s3)) with (String (lower_byte c) (to_lower s3)). cbv iota beta.
    rewrite sp3_lower. by destruct (sp3 a b c); [apply IH; lia|]. }
  eapply H. apply Nat.lt_succ_diag_r.
Qed.
End trim_map.

Lemma to_lower_app a b : to_lower (a +:+ b) = to_lower a +:+ to_lower b.
Proof. induction a as [|c a IH]; [done|]. exact (f_equal (String (lower_byte c)) IH). Qed.

Lemma to_lower_rev s : String.rev (to_lower s) = to_lower (String.rev s).
Proof.
  induction s as [|c s IH]; [done|]. change (to_lower (String c s)) with (String (lower_byte c) (to_lower s)).
  by rewrite !string_rev_cons, IH, to_lower_app.
Qed.

Lemma trim_space_lower s : trim_space (to_lower s) = to_lower (trim_space s).
Proof.
  unfold trim_space, trim_right, trim_left, trim_left_rev.
  rewrite trim_with_lower, to_lower_rev, trim_with_lower, to_lower_rev; [done|..];
    intros; by apply lower_byte_spaces.
Qed.

(** A text without the separator ends at its first occurrence. *)
Lemma separator_inj c a b a' b' :
  all_bytes (fun x => negb (Ascii.eqb x c)) a = true → all_bytes (fun x => negb (Ascii.eqb x c)) a' = true →
  a +:+ String c b = a' +:+ String c b' → a = a' ∧ b = b'.
Proof.
  revert a'. induction a as [|x a IH]; intros [|x' a'] Ha Ha' H; cbn [all_bytes] in *.
  - by injection H as <-.
  - apply andb_true_iff in Ha' as [Hx _]. rewrite string_app_cons in H. injection H as <- _.
    by rewrite Ascii.eqb_refl in Hx.
  - apply andb_true_iff in Ha as [Hx _]. rewrite string_app_cons in H. injection H as -> _.
    by rewrite Ascii.eqb_refl in Hx.
  - apply andb_true_iff in Ha as [_ Ha], Ha' as [_ Ha']. rewrite !string_app_cons in H. injection H as <- H.
    by destruct (IH a' Ha Ha' H) as [-> ->].
Qed.
