(* ===== verification/GoStd.v ===== *)
(** * Go values and the parts of the standard library the program calls

    [any] values as they come out of [encoding/json] or are built in code, their
    [fmt.Sprint] text, [strconv.ParseFloat], and [time] (RFC 3339).  These model
    the language and its library, not this repository's code. *)

From Stdlib Require Import Ascii.
From stdpp Require Import base gmap list strings.
From S2P Require Import Prelude.

Open Scope Z_scope.

(** ** [any]

    A [float64] is given by the text [fmt.Sprint] prints for it, the shortest
    decimal that reads back as the same number, so one float has one text. *)

Inductive any : Type :=
  | VNil
  | VBool (b : bool)
  | VInt (n : Z)
  | VFloat (text : string)
  | VStr (s : string)
  | VList (l : list any)
  | VStrs (l : list string)
  | VMap (m : list (string * any)).

Notation metadata := (gmap string any).

Definition bool_text (b : bool) : string := if b then "true" else "false".

Fixpoint sprint (v : any) : string :=
  match v with
  | VNil => "<nil>"
  | VBool b => bool_text b
  | VInt n => itoa n
  | VFloat t => t
  | VStr s => s
  | VList l => "[" +:+ join " " (List.map sprint l) +:+ "]"
  | VStrs l => "[" +:+ join " " l +:+ "]"
  | VMap m =>
      "map[" +:+ join " " (List.map snd (sort_stable (lex_string_lt fst)
        (List.map (fun '(k, x) => (k, k +:+ ":" +:+ sprint x)) m))) +:+ "]"
  end.

#[export] Instance any_eq_dec : EqDecision any.
Proof.
  refine (fix go (x y : any) {struct x} : Decision (x = y) :=
    let _ : EqDecision any := @go in
    match x, y with
    | VNil, VNil => left eq_refl
    | VBool a, VBool b => cast_if (decide (a = b))
    | VInt a, VInt b => cast_if (decide (a = b))
    | VFloat a, VFloat b => cast_if (decide (a = b))
    | VStr a, VStr b => cast_if (decide (a = b))
    | VList a, VList b => cast_if (decide (a = b))
    | VStrs a, VStrs b => cast_if (decide (a = b))
    | VMap a, VMap b => cast_if (decide (a = b))
    | _, _ => right _
    end);
    match goal with
    | H : _ = _ |- _ => clear -H
    | H : _ ≠ _ |- _ => clear -H
    | |- _ => clear
    end; congruence.
Defined.

(** [for k, v := range m]: the entries in some order. *)
Class MapOrder := {
  iterate {A} : list A → list A;
  iterate_perm {A} (l : list A) : iterate l ≡ₚ l;
}.

(** [typed[k]] on a [map[string]any]: an absent key reads as nil. *)
Fixpoint map_get (m : list (string * any)) (k : string) : any :=
  match m with
  | [] => VNil
  | (k', v) :: m' => if String.eqb k' k then v else map_get m' k
  end.

(** ** [strconv.ParseFloat(s, 64)]: decimal notation, infinities and NaN

    Hexadecimal floats and digit-separating underscores are read as errors. *)

Inductive float64 : Type :=
  | FNaN
  | FInf (negative : bool)
  | FFin (m e : Z).              (* m * 2 ^ e *)

(** The digits of [s] appended to [acc], how many there were, and the rest. *)
Fixpoint scan_digits (s : string) (acc n : Z) : Z * Z * string :=
  match s with
  | String c s' =>
      match digit_val c with
      | Some d => scan_digits s' (acc * 10 + d) (n + 1)
      | None => (acc, n, s)
      end
  | EmptyString => (acc, n, s)
  end.

Definition round_half_even (num den : Z) : Z :=
  let q := num / den in
  let r := num mod den in
  if 2 * r <? den then q
  else if den <? 2 * r then q + 1
  else if Z.even q then q else q + 1.

(** The double nearest to [num / den > 0], ties to even; [None] is overflow. *)
Definition round_float (num den : Z) : option (Z * Z) :=
  let scaled (e : Z) := if 0 <=? e then (num, den * 2 ^ e) else (num * 2 ^ (- e), den) in
  let e0 := Z.max (Z.log2 num - Z.log2 den - 53) (-1074) in
  let '(n0, d0) := scaled e0 in
  let e := if 2 ^ 53 <=? n0 / d0 then e0 + 1 else e0 in
  let '(n, d) := scaled e in
  let m := round_half_even n d in
  if 2 ^ 1024 <=? m * 2 ^ (Z.max e 0) then None else Some (m, e).

Definition decimal_float (sign mant exp10 : Z) (digits : Z) : option float64 :=
  if mant =? 0 then Some (FFin 0 0)
  else if 310 <? digits + exp10 then None
  else if digits + exp10 <? -330 then Some (FFin 0 0)
  else
    let '(num, den) := if 0 <=? exp10 then (mant * 10 ^ exp10, 1)
                       else (mant, 10 ^ (- exp10)) in
    match round_float num den with
    | Some (m, e) => Some (FFin (sign * m) e)
    | None => None
    end.

(** The exponent part: nothing, or [e] with an optionally signed number. *)
Definition scan_exponent (s : string) : option Z :=
  match s with
  | EmptyString => Some 0
  | String c rest =>
      if Ascii.eqb (lower_byte c) "e" then
        match rest with
        | String "-" t => Z.opp <$> parse_unsigned t
        | String "+" t => parse_unsigned t
        | _ => parse_unsigned rest
        end
      else None
  end.

Definition parse_decimal (sign : Z) (s : string) : option float64 :=
  let '(ip, ni, rest) := scan_digits s 0 0 in
  let '(mant, nd, nf, rest') :=
    match rest with
    | String "." t => let '(m, n, r) := scan_digits t ip ni in (m, n, n - ni, r)
    | _ => (ip, ni, 0, rest)
    end in
  if nd =? 0 then None else
  match scan_exponent rest' with
  | Some x => decimal_float sign mant (x - nf) (Z.of_nat (String.length (itoa mant)))
  | None => None
  end.

Definition parse_float (s : string) : option float64 :=
  let '(sign, t) := match s with
                    | String "-" t => (-1, t)
                    | String "+" t => (1, t)
                    | _ => (1, s)
                    end in
  let low := to_lower t in
  if containsString ["inf"; "infinity"] low then Some (FInf (sign <? 0))
  else if String.eqb low "nan" then (if String.eqb s t then Some FNaN else None)
  else parse_decimal sign t.

(** [a <= b] on doubles: false when either is NaN. *)
Definition float_le (a b : float64) : bool :=
  match a, b with
  | FNaN, _ | _, FNaN => false
  | FInf n, FInf n' => n || negb n'
  | FInf n, FFin _ _ => n
  | FFin _ _, FInf n => negb n
  | FFin m e, FFin m' e' =>
      let b := Z.min e e' in m * 2 ^ (e - b) <=? m' * 2 ^ (e' - b)
  end.

(** [int(f)] on amd64: truncation, and the least integer when out of range. *)
Definition int_of_float (f : float64) : Z :=
  match f with
  | FFin m e =>
      let n := if 0 <=? e then m * 2 ^ e else Z.quot m (2 ^ (- e)) in
      if (int_min <=? n) && (n <=? int_max) then n else int_min
  | _ => int_min
  end.

(** ** [time]

    A [time.Time] is its number of nanoseconds since the Unix epoch, in UTC; a
    [time.Duration] is a number of nanoseconds. *)

Definition second : Z := 1000000000.

(** The zero [time.Time], 1 January of year 1. *)
Definition zero_time : Z := -62135596800 * second.
Definition is_zero_time (t : Z) : bool := t =? zero_time.

(** [t.Sub(u)] saturates at the range of a duration. *)
Definition time_sub (t u : Z) : Z := Z.max int_min (Z.min int_max (t - u)).

(** [int(d.Seconds())] for the durations above; the rounding of [Seconds] to a
    double is ignored (it matters within a microsecond of a whole second). *)
Definition whole_seconds (d : Z) : Z := Z.quot d second.

Definition is_leap (y : Z) : bool :=
  (y mod 4 =? 0) && (negb (y mod 100 =? 0) || (y mod 400 =? 0)).

Definition days_in_month (y m : Z) : Z :=
  if m =? 2 then (if is_leap y then 29 else 28)
  else if (m =? 4) || (m =? 6) || (m =? 9) || (m =? 11) then 30 else 31.

(** Days from 1970-01-01 to a civil date, and back. *)
Definition days_from_civil (y m d : Z) : Z :=
  let y' := if m <=? 2 then y - 1 else y in
  let era := y' / 400 in
  let yoe := y' - era * 400 in
  let doy := (153 * (if 2 <? m then m - 3 else m + 9) + 2) / 5 + d - 1 in
  era * 146097 + (yoe * 365 + yoe / 4 - yoe / 100 + doy) - 719468.

Definition civil_from_days (days : Z) : Z * Z * Z :=
  let z := days + 719468 in
  let era := z / 146097 in
  let doe := z - era * 146097 in
  let yoe := (doe - doe / 1460 + doe / 36524 - doe / 146096) / 365 in
  let doy := doe - (365 * yoe + yoe / 4 - yoe / 100) in
  let mp := (5 * doy + 2) / 153 in
  let m := if mp <? 10 then mp + 3 else mp - 9 in
  (yoe + era * 400 + (if m <=? 2 then 1 else 0), m, doy - (153 * mp + 2) / 5 + 1).

(** A two-digit field, and one that may also have a single digit ([getnum]). *)
Definition two_digits (s : string) : option (Z * string) :=
  match s with
  | String a (String b rest) =>
      match digit_val a, digit_val b with
      | Some x, Some y => Some (x * 10 + y, rest)
      | _, _ => None
      end
  | _ => None
  end.

Definition one_or_two_digits (s : string) : option (Z * string) :=
  match two_digits s with
  | Some r => Some r
  | None =>
      match s with
      | String a rest => match digit_val a with Some x => Some (x, rest) | None => None end
      | EmptyString => None
      end
  end.

Definition expect (c : ascii) (s : string) : option string :=
  match s with
  | String a rest => if Ascii.eqb a c then Some rest else None
  | EmptyString => None
  end.

(** An optional fraction of a second: nine digits count, the rest are skipped. *)
Fixpoint scan_nanos (s : string) (unit : Z) : Z * string :=
  match s with
  | String c rest =>
      match digit_val c with
      | Some d => let '(n, r) := scan_nanos rest (unit / 10) in (d * unit + n, r)
      | None => (0, s)
      end
  | EmptyString => (0, s)
  end.

Definition scan_fraction (s : string) : Z * string :=
  match s with
  | String c (String d rest as t) =>
      if (Ascii.eqb c "." || Ascii.eqb c ",") && bool_decide (is_Some (digit_val d))
      then scan_nanos t 100000000 else (0, s)
  | _ => (0, s)
  end.

(** The offset in seconds: [Z] or [+hh:mm]. *)
Definition scan_zone (s : string) : option (Z * string) :=
  match s with
  | String "Z" rest => Some (0, rest)
  | String c t =>
      if Ascii.eqb c "+" || Ascii.eqb c "-" then
        '(h, t1) ← two_digits t; t2 ← expect ":" t1; '(m, t3) ← two_digits t2;
        if (h <=? 24) && (m <=? 60)
        then Some ((if Ascii.eqb c "-" then -1 else 1) * (h * 3600 + m * 60), t3)
        else None
      else None
  | EmptyString => None
  end.

(** [time.Parse(time.RFC3339, s)] *)
Definition parse_rfc3339 (s : string) : option Z :=
  '(y1, s) ← two_digits s; '(y2, s) ← two_digits s; s ← expect "-" s;
  '(mo, s) ← two_digits s; s ← expect "-" s; '(d, s) ← two_digits s; s ← expect "T" s;
  '(h, s) ← one_or_two_digits s; s ← expect ":" s; '(mi, s) ← two_digits s;
  s ← expect ":" s; '(se, s) ← two_digits s;
  let '(ns, s) := scan_fraction s in
  '(off, s) ← scan_zone s;
  let y := y1 * 100 + y2 in
  if is_empty s && (1 <=? mo) && (mo <=? 12) && (1 <=? d) && (d <=? days_in_month y mo)
     && (h <=? 23) && (mi <=? 59) && (se <=? 59)
  then Some ((days_from_civil y mo d * 86400 + h * 3600 + mi * 60 + se - off) * second + ns)
  else None.

Fixpoint pad (width : nat) (n : Z) (acc : string) : string :=
  match width with
  | O => acc
  | S w => pad w (n / 10) (String (digit_char (n mod 10)) acc)
  end.

(** [t.UTC().Format(time.RFC3339)], for the years 0 to 9999. *)
Definition format_rfc3339 (t : Z) : string :=
  let secs := t / second in
  let '(y, m, d) := civil_from_days (secs / 86400) in
  let r := secs mod 86400 in
  pad 4 y "" +:+ "-" +:+ pad 2 m "" +:+ "-" +:+ pad 2 d "" +:+ "T" +:+
  pad 2 (r / 3600) "" +:+ ":" +:+ pad 2 (r / 60 mod 60) "" +:+ ":" +:+
  pad 2 (r mod 60) "" +:+ "Z".

(** ** A value written as JSON and read back

    Numbers come back as [float64] and slices as [[]any].  The text of an integer is that
    of the [float64] it becomes, exact below 2^53; strings are valid UTF-8. *)

Definition strip_zeros (s : string) : string := String.rev (trim_left_set ["0"%char] (String.rev s)).

(** [fmt.Sprint(float64(n))] *)
Definition float_text (n : Z) : string :=
  let digits := itoa (Z.abs n) in
  let exp := Z.of_nat (String.length digits) - 1 in
  (if n <? 0 then "-" else "") +:+
  (if exp <? 6 then digits
   else match strip_zeros digits with
        | String c rest =>
            String c (if is_empty rest then "" else "." +:+ rest) +:+ "e+" +:+ pad 2 exp ""
        | EmptyString => ""
        end).

Fixpoint json_value (v : any) : any :=
  match v with
  | VInt n => VFloat (float_text n)
  | VStrs l => VList (List.map VStr l)
  | VList l => VList (List.map json_value l)
  | VMap m => VMap (List.map (fun '(k, x) => (k, json_value x)) m)
  | VNil | VBool _ | VFloat _ | VStr _ => v
  end.

Definition json_values (m : metadata) : metadata := json_value <$> m.

(** What was read back is written as itself. *)
Lemma json_value_idemp : ∀ v, json_value (json_value v) = json_value v.
Proof.
  fix IH 1. intros [| | | | |l|l|m]; try reflexivity; cbn [json_value]; f_equal; rewrite List.map_map.
  - induction l as [|x l IHl]; cbn [List.map]; f_equal; [apply IH|exact IHl].
  - apply List.map_ext. intros x. reflexivity.
  - induction m as [|[k x] m IHm]; cbn [List.map]; f_equal; [f_equal; apply IH|exact IHm].
Qed.

Lemma json_values_idemp m : json_values (json_values m) = json_values m.
Proof.
  unfold json_values. rewrite <- map_fmap_compose. apply map_fmap_ext. intros k v _.
  apply json_value_idemp.
Qed.

Example float_texts :
  List.map float_text [0; 42; -7; 999999; 1000000; 123456789; 3600000]
  = ["0"; "42"; "-7"; "999999"; "1e+06"; "1.23456789e+08"; "3.6e+06"].
Proof. reflexivity. Qed.
