(* ===== verification/Timestamps.v ===== *)
(** * Timestamps survive their text

    [time.Parse(time.RFC3339, t.Format(time.RFC3339))] is [t] without its fraction of a second,
    for the years 0 to 9999: the calendar arithmetic of [GoStd] is inverted exactly and every
    field is read back from its digits. *)

From Stdlib Require Import Ascii ZifyBool.
From stdpp Require Import base list strings.
From S2P Require Import Prelude GoStd.

Open Scope Z_scope.

(** ** The calendar

    Years of an era of 400 begin in March; the day a leap year adds is their last. *)

Definition year_start (y : Z) : Z := 365 * y + y / 4 - y / 100.
Definition year_end (y : Z) : Z := year_start y + 364 + (if is_leap (y + 1) then 1 else 0).

(** [yoe] of [civil_from_days]. *)
Definition year_of_era (doe : Z) : Z := (doe - doe / 1460 + doe / 36524 - doe / 146096) / 365.

Lemma year_of_era_mono a b : 0 ≤ a → a ≤ b → b ≤ 146096 → year_of_era a ≤ year_of_era b.
Proof.
  intros Ha Hab. assert (∃ n, b = a + Z.of_nat n) as [n ->] by (exists (Z.to_nat (b - a)); lia). clear Hab.
  induction n as [|n IH]; intros Hb; [by rewrite Z.add_0_r|].
  transitivity (year_of_era (a + Z.of_nat n)); [apply IH; lia|].
  replace (a + Z.of_nat (S n)) with (a + Z.of_nat n + 1) by lia. set (c := a + Z.of_nat n) in *.
  assert (0 ≤ c < 146096) as Hc by lia. clearbody c. unfold year_of_era. apply Z.div_le_mono; [done|].
  Z.to_euclidean_division_equations. lia.
Qed.

(** Every year of the era, at both ends. *)
Lemma years_checked :
  forallb (fun y => let y := Z.of_nat y in
    (year_of_era (year_start y) =? y) && (year_of_era (year_end y) =? y)
    && (year_end y + 1 =? if y =? 399 then 146097 else year_start (y + 1))) (seq 0 400) = true.
Proof. vm_compute. reflexivity. Qed.

Lemma year_checked y :
  0 ≤ y < 400 →
  year_of_era (year_start y) = y ∧ year_of_era (year_end y) = y ∧
  year_end y + 1 = if y =? 399 then 146097 else year_start (y + 1).
Proof.
  intros Hy. pose proof years_checked as H. rewrite forallb_forall in H.
  specialize (H (Z.to_nat y)). rewrite Z2Nat.id in H by lia. cbv zeta in H.
  rewrite !andb_true_iff, !Z.eqb_eq in H. apply and_assoc, H, in_seq. lia.
Qed.

Lemma year_start_nonneg y : 0 ≤ y → 0 ≤ year_start y.
Proof. intros Hy. unfold year_start. Z.to_euclidean_division_equations. lia. Qed.

Lemma day_of_year doe :
  0 ≤ doe ≤ 146096 →
  let y := year_of_era doe in
  0 ≤ y < 400 ∧ 0 ≤ doe - year_start y ≤ 364 + (if is_leap (y + 1) then 1 else 0).
Proof.
  intros Hdoe y.
  pose proof (year_of_era_mono 0 doe ltac:(lia) ltac:(lia) ltac:(lia)) as Hlow.
  pose proof (year_of_era_mono doe 146096 ltac:(lia) ltac:(lia) ltac:(lia)) as Hhigh.
  change (year_of_era 0) with 0 in Hlow. change (year_of_era 146096) with 399 in Hhigh.
  fold y in Hlow, Hhigh. assert (0 ≤ y < 400) as Hy by lia.
  split; [done|]. destruct (year_checked y Hy) as (_ & _ & Hend). split.
  - destruct (Z.le_gt_cases (year_start y) doe) as [|Hlt]; [lia|]. exfalso.
    assert (y ≠ 0) as Hne by (intros E; rewrite E in Hlt; change (year_start 0) with 0 in Hlt; lia).
    destruct (year_checked (y - 1) ltac:(lia)) as (_ & He & Hs).
    rewrite (proj2 (Z.eqb_neq (y - 1) 399)) in Hs by lia. replace (y - 1 + 1) with y in Hs by lia.
    pose proof (year_of_era_mono doe (year_end (y - 1)) ltac:(lia) ltac:(lia)) as Hm.
    assert (year_end (y - 1) ≤ 146096).
    { unfold year_start in Hs. clear -Hs Hy. Z.to_euclidean_division_equations. lia. }
    specialize (Hm ltac:(lia)). fold y in Hm. lia.
  - change (doe - year_start y ≤ 364 + (if is_leap (y + 1) then 1 else 0)).
    destruct (Z.le_gt_cases doe (year_end y)) as [|Hlt]; [unfold year_end in *; lia|]. exfalso.
    destruct (Z.eqb_spec y 399) as [E|E]; [lia|].
    destruct (year_checked (y + 1) ltac:(lia)) as (Hs & _).
    pose proof (year_of_era_mono (year_start (y + 1)) doe ltac:(apply year_start_nonneg; lia) ltac:(lia) ltac:(lia)) as Hm.
    fold y in Hm. lia.
Qed.

(** Every day of a year of 366. *)
Lemma days_checked :
  forallb (fun n => let doy := Z.of_nat n in
    let mp := (5 * doy + 2) / 153 in
    let m := if mp <? 10 then mp + 3 else mp - 9 in
    let d := doy - (153 * mp + 2) / 5 + 1 in
    (0 <=? mp) && (mp <? 12) && (1 <=? d)
    && (d <=? if m =? 2 then (if doy =? 365 then 29 else 28) else days_in_month 1 m)) (seq 0 366) = true.
Proof. vm_compute. reflexivity. Qed.

Lemma is_leap_era y era : is_leap (y + era * 400) = is_leap y.
Proof.
  unfold is_leap. replace (y + era * 400) with (y + era * 100 * 4) at 1 by lia. rewrite Z.mod_add by done.
  replace (y + era * 400) with (y + era * 4 * 100) at 1 by lia. rewrite Z.mod_add by done.
  by rewrite Z.mod_add.
Qed.

(** The civil date of a day is a date, and names the day. *)
Lemma civil_round_trip days y m d :
  civil_from_days days = (y, m, d) →
  days_from_civil y m d = days ∧ 1 ≤ m ≤ 12 ∧ 1 ≤ d ≤ days_in_month y m.
Proof.
  unfold civil_from_days. set (z := days + 719468). set (era := z / 146097). set (doe := z - era * 146097).
  assert (0 ≤ doe ≤ 146096) as Hdoe by (unfold doe, era; Z.to_euclidean_division_equations; lia).
  destruct (day_of_year doe Hdoe) as [Hyoe Hdoy]. unfold year_of_era in Hyoe, Hdoy. cbv zeta.
  set (yoe := (doe - doe / 1460 + doe / 36524 - doe / 146096) / 365) in *.
  replace (doe - (365 * yoe + yoe / 4 - yoe / 100)) with (doe - year_start yoe) by (unfold year_start; lia).
  set (doy := doe - year_start yoe) in *.
  pose proof days_checked as H. rewrite forallb_forall in H. specialize (H (Z.to_nat doy)).
  rewrite Z2Nat.id in H by lia. cbv zeta in H. set (mp := (5 * doy + 2) / 153) in *.
  assert (In (Z.to_nat doy) (seq 0 366)) as Hin by (apply in_seq; destruct (is_leap (yoe + 1)); lia).
  specialize (H Hin). rewrite !andb_true_iff, !Z.leb_le, Z.ltb_lt in H. destruct H as [[[Hmp0 Hmp] Hd1] Hd2].
  intros [= <- <- <-]. split; [|split; [destruct (Z.ltb_spec mp 10); lia|split; [lia|]]].
  - unfold days_from_civil. destruct (Z.ltb_spec mp 10) as [Hlt|Hge].
    + rewrite (proj2 (Z.leb_gt (mp + 3) 2)), (proj2 (Z.ltb_lt 2 (mp + 3))) by lia.
      replace (yoe + era * 400 + 0) with (yoe + era * 400) by lia. rewrite Z.div_add, Z.div_small by lia.
      replace (yoe + era * 400 - (0 + era) * 400) with yoe by lia.
      replace (mp + 3 - 3) with mp by lia. unfold doy, year_start, doe, z. lia.
    + rewrite (proj2 (Z.leb_le (mp - 9) 2)), (proj2 (Z.ltb_ge 2 (mp - 9))) by lia.
      replace (yoe + era * 400 + 1 - 1) with (yoe + era * 400) by lia. rewrite Z.div_add, Z.div_small by lia.
      replace (yoe + era * 400 - (0 + era) * 400) with yoe by lia.
      replace (mp - 9 + 9) with mp by lia. unfold doy, year_start, doe, z. lia.
  - etransitivity; [exact Hd2|]. unfold days_in_month. destruct (Z.ltb_spec mp 10) as [Hlt|Hge].
    + rewrite (proj2 (Z.eqb_neq (mp + 3) 2)) by lia. done.
    + destruct (Z.eqb_spec (mp - 9) 2) as [Hfeb|]; [|done].
      rewrite (proj2 (Z.leb_le (mp - 9) 2)) by lia.
      replace (yoe + era * 400 + 1) with (yoe + 1 + era * 400) by lia. rewrite is_leap_era.
      destruct (Z.eqb_spec doy 365) as [E|]; [|by destruct (is_leap _)].
      destruct (is_leap (yoe + 1)); [done|lia].
Qed.

(** ** The text *)

Lemma pad_app w n acc s : pad w n acc +:+ s = pad w n (acc +:+ s).
Proof. revert n acc. induction w as [|w IH]; intros n acc; [done|]. cbn [pad]. by rewrite IH. Qed.

Lemma two_digits_pad n s : 0 ≤ n < 100 → two_digits (pad 2 n s) = Some (n, s).
Proof.
  intros Hn. cbn [pad two_digits].
  rewrite !digit_val_char by (apply Z.mod_pos_bound; lia). f_equal. f_equal.
  Z.to_euclidean_division_equations. lia.
Qed.

Lemma pad_year y s : 0 ≤ y < 10000 → pad 4 y s = pad 2 (y / 100) (pad 2 (y mod 100) s).
Proof.
  intros Hy. cbn [pad].
  assert (y / 10 / 10 / 10 mod 10 = y / 100 / 10 mod 10) as -> by (Z.to_euclidean_division_equations; lia).
  assert (y / 10 / 10 mod 10 = y / 100 mod 10) as -> by (Z.to_euclidean_division_equations; lia).
  assert (y / 10 mod 10 = y mod 100 / 10 mod 10) as -> by (Z.to_euclidean_division_equations; lia).
  assert (y mod 10 = y mod 100 mod 10) as -> by (Z.to_euclidean_division_equations; lia).
  done.
Qed.

(** The first instant of year 0 and of year 10000. *)
Definition year_zero : Z := -62167219200 * second.
Definition year_10000 : Z := 253402300800 * second.

Lemma years_of_days days y m d :
  civil_from_days days = (y, m, d) → -719528 ≤ days < 2932897 → 0 ≤ y < 10000.
Proof.
  intros Hc Hdays. pose proof (civil_round_trip _ _ _ _ Hc) as (Hd & Hm & Hd1).
  assert (d ≤ 31) as Hd31.
  { unfold days_in_month in Hd1. destruct (m =? 2); [destruct (is_leap y); lia|]. destruct (_ || _); lia. }
  unfold days_from_civil in Hd. destruct (Z.leb_spec m 2), (Z.ltb_spec 2 m); try lia;
    Z.to_euclidean_division_equations; lia.
Qed.

Lemma expect_head c s : expect c (String c s) = Some s.
Proof. cbn. by rewrite Ascii.eqb_refl. Qed.

Lemma bind_some {A B} (x : A) (f : A → option B) : Some x ≫= f = f x.
Proof. done. Qed.

Lemma char_app c s : String c "" +:+ s = String c s.
Proof. done. Qed.

(** The next field or separator of the text. *)
Ltac next_field :=
  first [rewrite two_digits_pad by lia | rewrite expect_head]; rewrite ?bind_some; cbv beta iota zeta.

(** A timestamp is read back to the second. *)
Lemma rfc3339_round_trip t :
  year_zero ≤ t < year_10000 → parse_rfc3339 (format_rfc3339 t) = Some (t / second * second).
Proof.
  intros Ht. unfold format_rfc3339. set (secs := t / second).
  assert (-62167219200 ≤ secs < 253402300800) as Hsecs.
  { unfold secs, year_zero, year_10000, second in *. Z.to_euclidean_division_equations. lia. }
  destruct (civil_from_days (secs / 86400)) as [[y m] d] eqn:Hc.
  assert (0 ≤ y < 10000) as Hy.
  { eapply years_of_days; [exact Hc|]. Z.to_euclidean_division_equations. lia. }
  destruct (civil_round_trip _ _ _ _ Hc) as (Hdays & Hm & Hd). cbv zeta.
  set (r := secs mod 86400). assert (0 ≤ r < 86400) as Hr by (apply Z.mod_pos_bound; lia).
  assert (0 ≤ r / 3600 < 24 ∧ 0 ≤ r / 60 mod 60 < 60 ∧ 0 ≤ r mod 60 < 60) as (Hh & Hmi & Hse)
    by (Z.to_euclidean_division_equations; lia).
  assert (1 ≤ d ≤ 31) as Hd31.
  { split; [lia|]. unfold days_in_month in Hd. destruct (m =? 2); [destruct (is_leap y); lia|]. destruct (_ || _); lia. }
  rewrite !pad_app. repeat change ("" +:+ ?s) with s.
  rewrite !char_app. rewrite pad_year by lia. unfold parse_rfc3339.
  assert (0 ≤ y / 100 < 100) as Hy1 by (Z.to_euclidean_division_equations; lia).
  assert (0 ≤ y mod 100 < 100) as Hy2 by (Z.to_euclidean_division_equations; lia).
  unfold one_or_two_digits. repeat next_field. cbn [scan_fraction scan_zone].
  rewrite bind_some. cbv beta iota.
  replace (y / 100 * 100 + y mod 100) with y by (Z.to_euclidean_division_equations; lia).
  assert (is_empty "" && (1 <=? m) && (m <=? 12) && (1 <=? d) && (d <=? days_in_month y m) && (r / 3600 <=? 23)
    && (r / 60 mod 60 <=? 59) && (r mod 60 <=? 59) = true) as ->
    by (rewrite !andb_true_iff, !Z.leb_le; repeat split; lia).
  f_equal. rewrite Hdays.
  assert (secs / 86400 * 86400 + r / 3600 * 3600 + r / 60 mod 60 * 60 + r mod 60 = secs) as Hsum
    by (unfold r; clear; Z.to_euclidean_division_equations; lia).
  rewrite Z.sub_0_r, Z.add_0_r. by rewrite Hsum.
Qed.

Example instant : parse_rfc3339 (format_rfc3339 (1700000000 * second + 5)) = Some (1700000000 * second).
Proof. reflexivity. Qed.
