(* ===== verification/Tables.v ===== *)
(** * Maps of maps ([map[string]map[string]A]) in the order Go visits them *)

From stdpp Require Import base gmap fin_map_dom list strings.
From S2P Require Import Prelude GoStd.

Notation nested A := (gmap string (gmap string A)).

#[local] Arguments rowsOf : simpl never.

Section tables.
Context {A : Type}.
Implicit Types (m : nested A).

Lemma rowsOf_alter (f : gmap string A → gmap string A) t (m : nested A) t' :
  f ∅ = ∅ → rowsOf (alter f t m) t' = if decide (t' = t) then f (rowsOf m t') else rowsOf m t'.
Proof.
  intros Hf. unfold rowsOf. case_decide as Ht.
  - subst. rewrite lookup_alter_eq. by destruct (m !! t).
  - by rewrite lookup_alter_ne.
Qed.

Lemma rowsOf_fmap {B} (f : A → B) m t :
  rowsOf ((fun rows : gmap string A => f <$> rows) <$> m) t = f <$> rowsOf m t.
Proof.
  unfold rowsOf. rewrite lookup_fmap. destruct (m !! t); cbn; [done|]. by rewrite fmap_empty.
Qed.

Context `{MapOrder}.

(** The rows of a table as pairs of tenant and row, in the order Go visits them. *)
Definition visit (m : nested A) : list (string * (string * A)) :=
  flat_map (fun kv : string * gmap string A => pair kv.1 <$> iterate (map_to_list kv.2))
    (iterate (map_to_list m)).

Lemma elem_of_visit m t id a : (t, (id, a)) ∈ visit m ↔ rowsOf m t !! id = Some a.
Proof.
  unfold visit. rewrite list_elem_of_In, List.in_flat_map, rowsOf_some. split.
  - intros ([t' rows] & Hin%list_elem_of_In & Hr%list_elem_of_In).
    rewrite iterate_perm in Hin. apply elem_of_map_to_list in Hin.
    apply list_elem_of_fmap in Hr as ([id' a'] & [= -> -> ->] & Hr). rewrite iterate_perm in Hr.
    apply elem_of_map_to_list in Hr. by exists rows.
  - intros (rows & Hin & Hr). exists (t, rows). rewrite <- !list_elem_of_In.
    rewrite iterate_perm. split; [by apply elem_of_map_to_list|].
    apply list_elem_of_fmap. exists (id, a). split; [done|]. rewrite iterate_perm.
    by apply elem_of_map_to_list.
Qed.

Definition place (row : string * (string * A)) : string * string := (row.1, row.2.1).

Lemma NoDup_visit m : NoDup (place <$> visit m).
Proof.
  unfold visit. rewrite <- flat_map_fmap. apply NoDup_flat_map.
  - rewrite iterate_perm. apply NoDup_map_to_list.
  - intros [t rows] _. cbn. rewrite <- list_fmap_compose.
    apply NoDup_fmap_2_strong; [|rewrite iterate_perm; apply NoDup_map_to_list].
    intros [i x] [j y]. rewrite !iterate_perm, !elem_of_map_to_list. cbn. intros ? ? [= ->].
    congruence.
  - intros [t1 r1] [t2 r2] k. rewrite !iterate_perm, !elem_of_map_to_list. intros H1 H2 Hk1 Hk2.
    assert (t1 = t2) as ->; [|congruence].
    apply list_elem_of_fmap in Hk1 as (x & -> & Hx), Hk2 as (y & Hk & Hy).
    apply list_elem_of_fmap in Hx as (? & -> & _), Hy as (? & -> & _). by injection Hk.
Qed.
End tables.
