(* ===== verification/GoNet.v ===== *)
(** * [net/netip] and the parts of [net] the program calls

    Addresses, prefixes, their parsers and printers, and the address classes of
    [netip.Addr], as Go 1.22.4 and later define them (the class predicates see
    through IPv4-mapped IPv6). *)

From Stdlib Require Import Ascii.
From stdpp Require Import base gmap list strings.
From S2P Require Import Prelude GoStd.

Open Scope Z_scope.

(** A valid [netip.Addr]; the zero [Addr] is [None] where it can occur. *)
Inductive addr : Type :=
  | A4 (bits : Z)
  | A6 (bits : Z) (zone : string).

#[export] Instance addr_eq_dec : EqDecision addr.
Proof. solve_decision. Defined.

(** ** Parsing *)

Definition parse_octet (s : string) : option Z :=
  let leading_zero := match s with String "0" (String _ _) => true | _ => false end in
  if leading_zero then None
  else match parse_unsigned s with
       | Some n => if n <=? 255 then Some n else None
       | None => None
       end.

Definition parse_ipv4_bits (s : string) : option Z :=
  match split_byte "." s with
  | [a; b; c; d] =>
      a ← parse_octet a; b ← parse_octet b; c ← parse_octet c; d ← parse_octet d;
      Some (((a * 256 + b) * 256 + c) * 256 + d)
  | _ => None
  end.

Definition hex_val (c : ascii) : option Z :=
  let n := Z.of_N (byte_val c) in
  if (48 <=? n) && (n <=? 57) then Some (n - 48)
  else if (97 <=? n) && (n <=? 102) then Some (n - 87)
  else if (65 <=? n) && (n <=? 70) then Some (n - 55)
  else None.

Fixpoint scan_hex (s : string) (acc n : Z) : Z * Z * string :=
  match s with
  | String c s' =>
      match hex_val c with
      | Some d => scan_hex s' (acc * 16 + d) (n + 1)
      | None => (acc, n, s)
      end
  | EmptyString => (acc, n, s)
  end.

Definition groups_bits (l : list Z) : Z := foldl (fun acc g => acc * 65536 + g) 0 l.

(** All of the text must be used; a [::] expands to at least one zero group. *)
Definition finish_ipv6 (groups : list Z) (ellipsis : option nat) (rest : string) : option Z :=
  if nonempty rest then None else
  let n := length groups in
  match ellipsis with
  | None => if (n =? 8)%nat then Some (groups_bits groups) else None
  | Some k =>
      if (n <? 8)%nat
      then Some (groups_bits (take k groups ++ replicate (8 - n) 0 ++ drop k groups))
      else None
  end.

(** One turn per 16-bit group; at most eight groups, so eight turns and one to
    stop are enough. *)
Fixpoint ipv6_groups (fuel : nat) (s : string) (groups : list Z) (ellipsis : option nat)
    : option Z :=
  match fuel with
  | O => None
  | S fuel' =>
      let i := length groups in
      if (8 <=? i)%nat then finish_ipv6 groups ellipsis s else
      let '(acc, n, rest) := scan_hex s 0 0 in
      if (n =? 0) || (4 <? n) then None else
      match rest with
      | String "." _ =>
          if (match ellipsis with None => negb (i =? 6)%nat | Some _ => (6 <? i)%nat end)
          then None
          else v ← parse_ipv4_bits s;
               finish_ipv6 (groups ++ [v / 65536; v mod 65536]) ellipsis ""
      | EmptyString => finish_ipv6 (groups ++ [acc]) ellipsis ""
      | String ":" (String ":" rest2) =>
          match ellipsis with
          | Some _ => None
          | None =>
              if is_empty rest2 then finish_ipv6 (groups ++ [acc]) (Some (S i)) ""
              else ipv6_groups fuel' rest2 (groups ++ [acc]) (Some (S i))
          end
      | String ":" EmptyString => None
      | String ":" rest1 => ipv6_groups fuel' rest1 (groups ++ [acc]) ellipsis
      | String _ _ => None
      end
  end.

Definition parse_ipv6 (s : string) : option addr :=
  let '(body, zone) :=
    match cut "%" s with Some (b, z) => (b, Some z) | None => (s, None) end in
  if (match zone with Some z => is_empty z | None => false end) then None else
  let zone := default "" zone in
  match strip_prefix "::" body with
  | Some rest =>
      if is_empty rest then Some (A6 0 zone)
      else bits ← ipv6_groups 9 rest [] (Some 0%nat); Some (A6 bits zone)
  | None => bits ← ipv6_groups 9 body [] None; Some (A6 bits zone)
  end.

(** The first of [.], [:] and [%] decides the family. *)
Fixpoint first_separator (s : string) : option ascii :=
  match s with
  | EmptyString => None
  | String c s' =>
      if existsb (Ascii.eqb c) ["."; ":"; "%"]%char then Some c else first_separator s'
  end.

(** [netip.ParseAddr] *)
Definition parse_addr (s : string) : option addr :=
  match first_separator s with
  | Some "."%char => A4 <$> parse_ipv4_bits s
  | Some ":"%char => parse_ipv6 s
  | _ => None
  end.

(** [net.ParseIP(s) != nil]: an address without a zone. *)
Definition is_ip_literal (s : string) : bool :=
  match parse_addr s with
  | Some (A4 _) => true
  | Some (A6 _ zone) => is_empty zone
  | None => false
  end.

(** ** Properties of addresses *)

Definition is4 (a : addr) : bool := match a with A4 _ => true | A6 _ _ => false end.
Definition is4in6 (a : addr) : bool :=
  match a with A4 _ => false | A6 b _ => Z.shiftr b 32 =? 65535 end.
Definition unmap (a : addr) : addr :=
  match a with
  | A6 b _ => if is4in6 a then A4 (Z.land b (2 ^ 32 - 1)) else a
  | A4 _ => a
  end.

Definition is_loopback (a : addr) : bool :=
  match unmap a with A4 b => Z.shiftr b 24 =? 127 | A6 b _ => b =? 1 end.
Definition is_private (a : addr) : bool :=
  match unmap a with
  | A4 b => (Z.shiftr b 24 =? 10) || (Z.shiftr b 20 =? 2753) || (Z.shiftr b 16 =? 49320)
  | A6 b _ => Z.shiftr b 121 =? 126
  end.
Definition is_link_local_unicast (a : addr) : bool :=
  match unmap a with A4 b => Z.shiftr b 16 =? 43518 | A6 b _ => Z.shiftr b 118 =? 1018 end.
Definition is_link_local_multicast (a : addr) : bool :=
  match unmap a with
  | A4 b => Z.shiftr b 8 =? 14680064
  | A6 b _ => Z.land (Z.shiftr b 112) 65295 =? 65282
  end.
Definition is_interface_local_multicast (a : addr) : bool :=
  match unmap a with
  | A4 _ => false
  | A6 b _ => Z.land (Z.shiftr b 112) 65295 =? 65281
  end.
Definition is_unspecified (a : addr) : bool :=
  match a with A4 b => b =? 0 | A6 b z => (b =? 0) && is_empty z end.

(** ** Prefixes *)

Record ip_prefix := { pfx_addr : addr; pfx_bits : Z }.

Definition parse_prefix (s : string) : option ip_prefix :=
  '(a, b) ← cut_last_byte "/" s;
  ip ← parse_addr a;
  let zoned := match ip with A6 _ z => nonempty z | A4 _ => false end in
  let max := if is4 ip then 32 else 128 in
  let signed_or_padded :=
    match b with
    | String c (String _ _) =>
        match digit_val c with Some d => d =? 0 | None => true end
    | _ => false
    end in
  if zoned || signed_or_padded then None else
  n ← atoi b;
  if (0 <=? n) && (n <=? max) then Some {| pfx_addr := ip; pfx_bits := n |} else None.

(** [p.Contains(ip)]: one family, no zone, the first [bits] bits agree. *)
Definition prefix_contains (p : ip_prefix) (ip : addr) : bool :=
  match pfx_addr p, ip with
  | A4 x, A4 y => Z.shiftr x (32 - pfx_bits p) =? Z.shiftr y (32 - pfx_bits p)
  | A6 x _, A6 y zone =>
      is_empty zone && (Z.shiftr x (128 - pfx_bits p) =? Z.shiftr y (128 - pfx_bits p))
  | _, _ => false
  end.

(** ** [net.ParseIP], [net.ParseCIDR] and [IPNet.Contains]

    No zones; the address ends at the first slash, and the prefix length is any run of
    digits.  A network inside the IPv4-mapped block is the IPv4 network. *)

Definition net_parse_ip (s : string) : option addr :=
  if is_ip_literal s then unmap <$> parse_addr s else None.

Definition net_parse_cidr (s : string) : option ip_prefix :=
  '(a, b) ← cut "/" s;
  if negb (is_ip_literal a) then None else
  ip ← parse_addr a;
  n ← parse_unsigned b;
  if n <=? (if is4 ip then 32 else 128) then
    Some (if is4in6 ip && (96 <=? n) then {| pfx_addr := unmap ip; pfx_bits := n - 96 |}
          else {| pfx_addr := ip; pfx_bits := n |})
  else None.

(** ** [addr.String()] *)

Definition ipv4_text (b : Z) : string :=
  join "." [itoa (b / 16777216); itoa (b / 65536 mod 256); itoa (b / 256 mod 256);
            itoa (b mod 256)].

Definition hex_char (d : Z) : ascii := ascii_of_N (Z.to_N (if d <? 10 then d + 48 else d + 87)).

(** A group without leading zeros. *)
Definition hex_text (g : Z) : string :=
  let digits := [g / 4096; g / 256 mod 16; g / 16 mod 16; g mod 16] in
  let fix strip (l : list Z) : list Z :=
    match l with
    | d :: ((_ :: _) as l') => if d =? 0 then strip l' else l
    | _ => l
    end in
  foldr (fun d s => String (hex_char d) s) "" (strip digits).

Definition ipv6_group_list (b : Z) : list Z :=
  (fun i => Z.land (Z.shiftr b (16 * (7 - Z.of_nat i))) 65535) <$> seq 0 8.

Fixpoint zero_run (l : list Z) : nat :=
  match l with g :: l' => if g =? 0 then S (zero_run l') else 0%nat | [] => 0%nat end.

(** The first longest run of at least two zero groups: its start and length. *)
Fixpoint longest_run (l : list Z) (i : nat) (best : nat * nat) : nat * nat :=
  match l with
  | [] => best
  | _ :: l' =>
      let n := zero_run l in
      longest_run l' (S i) (if (2 <=? n)%nat && (best.2 <? n)%nat then (i, n) else best)
  end.

Definition ipv6_text (b : Z) : string :=
  let gs := ipv6_group_list b in
  let '(start, len) := longest_run gs 0 (0, 0)%nat in
  let hex l := join ":" (List.map hex_text l) in
  if (len =? 0)%nat then hex gs
  else hex (take start gs) +:+ "::" +:+ hex (drop (start + len) gs).

Definition addr_text (a : addr) : string :=
  match a with
  | A4 b => ipv4_text b
  | A6 b zone =>
      (if is4in6 a then "::ffff:" +:+ ipv4_text (Z.land b (2 ^ 32 - 1)) else ipv6_text b)
        +:+ (if is_empty zone then "" else "%" +:+ zone)
  end.

(** ** [net.SplitHostPort] *)

Definition split_host_port (s : string) : option (string * string) :=
  '(before, port) ← cut_last_byte ":" s;
  match s with
  | String "[" _ =>
      '(opened, closed) ← cut "]" s;
      match opened, closed with
      | String _ host, String ":" p =>
          if contains_str p ":" || contains_str host "[" || contains_str p "[" ||
             contains_str p "]"
          then None else Some (host, p)
      | _, _ => None
      end
  | _ =>
      if contains_str before ":" || contains_str s "[" || contains_str s "]"
      then None else Some (before, port)
  end.

(** ** Facts the components use *)

(** An IPv4 address and its IPv4-mapped IPv6 form. *)
Definition mapped (b : Z) : addr := A6 (65535 * 2 ^ 32 + b) "".

Lemma unmap_mapped b : 0 <= b < 2 ^ 32 → unmap (mapped b) = A4 b.
Proof.
  intros Hb. unfold mapped, unmap, is4in6.
  assert (Z.shiftr (65535 * 2 ^ 32 + b) 32 = 65535) as ->.
  { rewrite Z.shiftr_div_pow2 by lia. rewrite Z.div_add_l by lia.
    rewrite Z.div_small by lia. lia. }
  rewrite Z.eqb_refl. f_equal.
  change (2 ^ 32 - 1) with (Z.ones 32). rewrite Z.land_ones by lia.
  rewrite Z.add_comm, Z.mod_add by lia. apply Z.mod_small; lia.
Qed.

Lemma unmap_unmap a : unmap (unmap a) = unmap a.
Proof.
  destruct a as [b|b z]; [done|]. unfold unmap at 2 3. destruct (is4in6 _) eqn:E; [done|].
  unfold unmap. by rewrite E.
Qed.

#[export] Hint Rewrite unmap_unmap : go_rewrite.

(** No address is written with a leading byte 0. *)
Lemma hex_text_starts_nul g : 0 ≤ g ≤ 65535 → starts_nul (hex_text g) = false.
Proof.
  intros Hg.
  assert (∀ d s, 0 ≤ d < 16 → starts_nul (String (hex_char d) s) = false) as Hd.
  { intros d s Hd. assert (d ∈ seqZ 0 16) as Hin by (apply elem_of_seqZ; lia).
    rewrite list_elem_of_In in Hin. cbn in Hin.
    repeat (destruct Hin as [<-|Hin]; [reflexivity|]). done. }
  pose proof (Z.mod_pos_bound (g / 256) 16). pose proof (Z.mod_pos_bound (g / 16) 16).
  pose proof (Z.mod_pos_bound g 16).
  assert (0 ≤ g / 4096 < 16).
  { split; [apply Z.div_pos; lia|apply Z.div_lt_upper_bound; lia]. }
  unfold hex_text. cbv zeta.
  destruct (g / 4096 =? 0), (g / 256 mod 16 =? 0), (g / 16 mod 16 =? 0); cbn beta iota.
  all: apply Hd; lia.
Qed.

Lemma ipv4_text_starts_nul b : starts_nul (ipv4_text b) = false.
Proof. apply starts_nul_join; [done|]. repeat (constructor; [apply itoa_starts_nul|]). constructor. Qed.

Lemma ipv6_text_starts_nul b : starts_nul (ipv6_text b) = false.
Proof.
  assert (Forall (fun s => starts_nul s = false) (List.map hex_text (ipv6_group_list b))) as Hall.
  { apply Forall_forall. intros s (g & -> & Hg)%list_elem_of_fmap.
    apply list_elem_of_fmap in Hg as (i & -> & _). apply hex_text_starts_nul.
    change 65535 with (Z.ones 16). rewrite Z.land_ones by lia.
    pose proof (Z.mod_pos_bound (Z.shiftr b (16 * (7 - Z.of_nat i))) (2 ^ 16)).
    change (Z.ones 16) with 65535. lia. }
  unfold ipv6_text. cbv zeta. destruct (longest_run _ _ _) as [start len].
  destruct (len =? 0)%nat; [by apply starts_nul_join|].
  rewrite starts_nul_app, (starts_nul_join ":"); [by destruct (is_empty _)|done|].
  rewrite <- firstn_map. by apply Forall_take.
Qed.

Lemma addr_text_starts_nul a : starts_nul (addr_text a) = false.
Proof.
  destruct a as [b|b zone]; [apply ipv4_text_starts_nul|]. cbn [addr_text].
  rewrite starts_nul_app. destruct (is4in6 _); [by rewrite starts_nul_app|].
  rewrite ipv6_text_starts_nul. by repeat case_match.
Qed.

Example parse_addr_v6 : parse_addr "fe80::1%eth0" = Some (A6 (65152 * 2 ^ 112 + 1) "eth0").
Proof. reflexivity. Qed.
Example parse_addr_v4in6 : parse_addr "::ffff:10.0.0.1" = Some (mapped 167772161).
Proof. reflexivity. Qed.
