(* ===== verification/Persistence.v ===== *)
(** * What a persister may answer ([src/blobstore/blobstore.go])

    The stores of the control plane save a whole snapshot through a persister.  This file
    holds what their models share: the kinds of persister, the outcomes of one write with
    what is stored afterwards, and the error classes of [FilePersister.Save]. *)

From stdpp Require Import base option.
From S2P Require Import Prelude.

(** No persister, one that saves, or one with transactions. *)
Inductive backing := Memory | Plain | Updating.

#[export] Instance backing_eq_dec : EqDecision backing.
Proof. solve_decision. Defined.

(** How the persister answers: saved; replaced without a confirmed flush; failed, with
    the new content in place or not; not reached at all. *)
Inductive write_outcome := Written | Unflushed | WriteFailed (reached : bool) | Unavailable.

(** What is stored after a write. *)
Definition diskAfter {A} (w : write_outcome) (stored : option A) (data : A) : option A :=
  match w with
  | Written | Unflushed | WriteFailed true => Some data
  | WriteFailed false | Unavailable => stored
  end.

(** ** The file persister *)

(** [durablefile.Write]: written, replaced but not flushed, not staged, not replaced. *)
Inductive durable_result := DurableOk | ErrReplacedNotFlushed | ErrStagingFailed | NotReplaced.

(** [savedDurabilityWarning] is an [ErrSavedWithoutAtomicity] and an
    [ErrDurabilityUnconfirmed] at once. *)
Inductive save_error :=
  | savedDurabilityWarning | ErrSavedWithoutAtomicity | StagingError | WriteError.

(** [in_place] says whether writing through the destination succeeds. *)
Definition Save (written : durable_result) (in_place : bool) : option save_error :=
  match written with
  | DurableOk => None
  | ErrReplacedNotFlushed => Some savedDurabilityWarning
  | ErrStagingFailed => Some StagingError
  | NotReplaced => if in_place then Some ErrSavedWithoutAtomicity else Some WriteError
  end.

Definition isSavedWithoutAtomicity (e : save_error) : bool :=
  match e with savedDurabilityWarning | ErrSavedWithoutAtomicity => true | _ => false end.
Definition isDurabilityUnconfirmed (e : save_error) : bool :=
  match e with savedDurabilityWarning => true | _ => false end.

Definition UnconfirmedSave (err : option save_error) : option save_error :=
  match err with
  | Some e => if isSavedWithoutAtomicity e && negb (isDurabilityUnconfirmed e) then None else err
  | None => None
  end.

(** The outcome a store sees for a save to a file; a failed write through the destination
    may leave a torn file, which is none of the outcomes. *)
Definition file_outcome (written : durable_result) (in_place : bool) : option write_outcome :=
  match Save written in_place, UnconfirmedSave (Save written in_place) with
  | _, None => Some Written
  | Some WriteError, _ => None
  | _, Some e => Some (if isDurabilityUnconfirmed e then Unflushed else WriteFailed false)
  end.

(** A save counts as done exactly when the new content is in place and flushed or written
    through; a failure to stage leaves the old content, and never tears the file. *)
Lemma file_outcome_spec written in_place :
  (file_outcome written in_place = Some Written ↔
   written = DurableOk ∨ written = NotReplaced ∧ in_place = true) ∧
  (file_outcome written in_place = Some Unflushed ↔ written = ErrReplacedNotFlushed) ∧
  (file_outcome written in_place = Some (WriteFailed false) ↔ written = ErrStagingFailed) ∧
  (file_outcome written in_place = None ↔ written = NotReplaced ∧ in_place = false).
Proof. destruct written, in_place; cbn; naive_solver. Qed.
