(* ===== verification/Model.v ===== *)
(** * The data model ([src/model/types.go])

    The records the decision engine and the stores exchange, field for field: a Go
    pointer is an [option], a [map[string]any] a finite map from strings to [any].
    [zero_T] is Go's zero value of [T].  [TargetScope] of a bundle and
    [IdentityRule] of a catalog entry are left out: nothing modelled here reads
    them. *)

From stdpp Require Import base gmap list strings.
From S2P Require Import Prelude GoStd.

Open Scope Z_scope.

Record PolicyAction : Type := mkPolicyAction {
  pact_Decision : string;
}.

#[export] Instance PolicyAction_eta : Etaable PolicyAction := fun r =>
  mkPolicyAction (pact_Decision r).
#[export] Instance PolicyAction_eq_dec : EqDecision PolicyAction.
Proof. solve_decision. Defined.

Definition zero_PolicyAction : PolicyAction :=
  mkPolicyAction "".

Record DLPSpec : Type := mkDLPSpec {
  dlps_Identifiers : list string;
  dlps_MinCount : Z;
  dlps_OnMatch : string;
  dlps_InstanceScope : string;
  dlps_PolicyID : string;
}.

#[export] Instance DLPSpec_eta : Etaable DLPSpec := fun r =>
  mkDLPSpec (dlps_Identifiers r) (dlps_MinCount r) (dlps_OnMatch r) (dlps_InstanceScope r)
    (dlps_PolicyID r).
#[export] Instance DLPSpec_eq_dec : EqDecision DLPSpec.
Proof. solve_decision. Defined.

Definition zero_DLPSpec : DLPSpec :=
  mkDLPSpec [] 0 "" "" "".

Record Policy : Type := mkPolicy {
  pol_ID : string;
  pol_TenantID : string;
  pol_Name : string;
  pol_Priority : Z;
  pol_Conditions : metadata;
  pol_Action : PolicyAction;
  pol_DLP : option DLPSpec;
  pol_Log : option bool;
  pol_RequiredTokenBinding : bool;
  pol_RequiredHumanApproval : bool;
  pol_RequiredWorkloadAttestation : bool;
  pol_BreakGlassPolicy : bool;
  pol_BreakGlassIdentityID : option string;
  pol_BreakGlassMaxSessionSeconds : option Z;
  pol_BreakGlassStrongAuthRequired : bool;
  pol_BreakGlassAuditRequired : bool;
  pol_AllowedTaskPurposes : list string;
  pol_AllowedToolIDs : list string;
  pol_AllowedToolActions : list string;
  pol_AllowedContextScopeIDs : list string;
  pol_AllowedMemoryScopeIDs : list string;
  pol_AllowedDataClassifications : list string;
  pol_InspectionProfileID : option string;
  pol_ServiceFamily : option string;
  pol_ConnectionInitiator : option string;
  pol_SourceRole : option string;
  pol_DestinationRole : option string;
  pol_Status : string;
  pol_CreatedBy : option string;
  pol_UpdatedAt : option string;
  pol_Metadata : metadata;
}.

#[export] Instance Policy_eta : Etaable Policy := fun r =>
  mkPolicy (pol_ID r) (pol_TenantID r) (pol_Name r) (pol_Priority r) (pol_Conditions r)
    (pol_Action r) (pol_DLP r) (pol_Log r) (pol_RequiredTokenBinding r)
    (pol_RequiredHumanApproval r) (pol_RequiredWorkloadAttestation r) (pol_BreakGlassPolicy r)
    (pol_BreakGlassIdentityID r) (pol_BreakGlassMaxSessionSeconds r)
    (pol_BreakGlassStrongAuthRequired r) (pol_BreakGlassAuditRequired r)
    (pol_AllowedTaskPurposes r) (pol_AllowedToolIDs r) (pol_AllowedToolActions r)
    (pol_AllowedContextScopeIDs r) (pol_AllowedMemoryScopeIDs r)
    (pol_AllowedDataClassifications r) (pol_InspectionProfileID r) (pol_ServiceFamily r)
    (pol_ConnectionInitiator r) (pol_SourceRole r) (pol_DestinationRole r) (pol_Status r)
    (pol_CreatedBy r) (pol_UpdatedAt r) (pol_Metadata r).
#[export] Instance Policy_eq_dec : EqDecision Policy.
Proof. solve_decision. Defined.

Definition zero_Policy : Policy :=
  mkPolicy "" "" "" 0 ∅ zero_PolicyAction None None false false false false None None false
    false [] [] [] [] [] [] None None None None None "" None None ∅.

Record SaaSCatalogEntry : Type := mkSaaSCatalogEntry {
  saas_TenantID : string;
  saas_SaaSApplicationID : string;
  saas_Name : string;
  saas_Provider : string;
  saas_Category : string;
  saas_RiskTier : string;
  saas_DomainPatterns : list string;
  saas_SNIPatterns : list string;
  saas_Tags : list string;
  saas_AIService : bool;
  saas_AIGovernance : string;
}.

#[export] Instance SaaSCatalogEntry_eta : Etaable SaaSCatalogEntry := fun r =>
  mkSaaSCatalogEntry (saas_TenantID r) (saas_SaaSApplicationID r) (saas_Name r)
    (saas_Provider r) (saas_Category r) (saas_RiskTier r) (saas_DomainPatterns r)
    (saas_SNIPatterns r) (saas_Tags r) (saas_AIService r) (saas_AIGovernance r).

Definition zero_SaaSCatalogEntry : SaaSCatalogEntry :=
  mkSaaSCatalogEntry "" "" "" "" "" "" [] [] [] false "".

Record SaaSContext : Type := mkSaaSContext {
  sctx_SaaSApplicationID : string;
  sctx_Name : string;
  sctx_Provider : string;
  sctx_Category : string;
  sctx_RiskTier : string;
  sctx_MatchedDomain : string;
  sctx_MatchedPattern : string;
  sctx_MatchType : string;
}.

#[export] Instance SaaSContext_eta : Etaable SaaSContext := fun r =>
  mkSaaSContext (sctx_SaaSApplicationID r) (sctx_Name r) (sctx_Provider r) (sctx_Category r)
    (sctx_RiskTier r) (sctx_MatchedDomain r) (sctx_MatchedPattern r) (sctx_MatchType r).

Definition zero_SaaSContext : SaaSContext :=
  mkSaaSContext "" "" "" "" "" "" "" "".

Record SWGTenantRestrictionRule : Type := mkSWGTenantRestrictionRule {
  trr_ID : string;
  trr_TenantID : string;
  trr_SaaSApplicationID : string;
  trr_Provider : string;
  trr_HeaderName : string;
  trr_HeaderValueRef : string;
  trr_HeaderValueKind : string;
  trr_EnforcementMode : string;
  trr_Status : string;
  trr_Metadata : metadata;
}.

#[export] Instance SWGTenantRestrictionRule_eta : Etaable SWGTenantRestrictionRule := fun r =>
  mkSWGTenantRestrictionRule (trr_ID r) (trr_TenantID r) (trr_SaaSApplicationID r)
    (trr_Provider r) (trr_HeaderName r) (trr_HeaderValueRef r) (trr_HeaderValueKind r)
    (trr_EnforcementMode r) (trr_Status r) (trr_Metadata r).
#[export] Instance SWGTenantRestrictionRule_eq_dec : EqDecision SWGTenantRestrictionRule.
Proof. solve_decision. Defined.

Definition zero_SWGTenantRestrictionRule : SWGTenantRestrictionRule :=
  mkSWGTenantRestrictionRule "" "" "" "" "" "" "" "" "" ∅.

Record DLPRule : Type := mkDLPRule {
  dlpr_ID : string;
  dlpr_TenantID : string;
  dlpr_SaaSApplicationID : string;
  dlpr_Provider : string;
  dlpr_Identifiers : list string;
  dlpr_MinCount : Z;
  dlpr_OnMatch : string;
  dlpr_InstanceScope : string;
  dlpr_Status : string;
  dlpr_Metadata : metadata;
}.

#[export] Instance DLPRule_eta : Etaable DLPRule := fun r =>
  mkDLPRule (dlpr_ID r) (dlpr_TenantID r) (dlpr_SaaSApplicationID r) (dlpr_Provider r)
    (dlpr_Identifiers r) (dlpr_MinCount r) (dlpr_OnMatch r) (dlpr_InstanceScope r)
    (dlpr_Status r) (dlpr_Metadata r).

Definition zero_DLPRule : DLPRule :=
  mkDLPRule "" "" "" "" [] 0 "" "" "" ∅.

Record SWGTLSBypassRule : Type := mkSWGTLSBypassRule {
  byp_ID : string;
  byp_TenantID : string;
  byp_Name : string;
  byp_MatchType : string;
  byp_Pattern : string;
  byp_SaaSApplicationID : string;
  byp_Category : string;
  byp_Reason : string;
  byp_Status : string;
  byp_Metadata : metadata;
}.

#[export] Instance SWGTLSBypassRule_eta : Etaable SWGTLSBypassRule := fun r =>
  mkSWGTLSBypassRule (byp_ID r) (byp_TenantID r) (byp_Name r) (byp_MatchType r) (byp_Pattern r)
    (byp_SaaSApplicationID r) (byp_Category r) (byp_Reason r) (byp_Status r) (byp_Metadata r).

Definition zero_SWGTLSBypassRule : SWGTLSBypassRule :=
  mkSWGTLSBypassRule "" "" "" "" "" "" "" "" "" ∅.

Record TenantRootCA : Type := mkTenantRootCA {
  rca_ID : string;
  rca_TenantID : string;
  rca_Name : string;
  rca_Status : string;
  rca_DistributionMode : string;
  rca_TrustStoreTarget : string;
  rca_CertificateRef : option string;
  rca_PrivateKeyStatus : string;
  rca_CreatedAt : option string;
  rca_UpdatedAt : option string;
  rca_Metadata : metadata;
}.

#[export] Instance TenantRootCA_eta : Etaable TenantRootCA := fun r =>
  mkTenantRootCA (rca_ID r) (rca_TenantID r) (rca_Name r) (rca_Status r)
    (rca_DistributionMode r) (rca_TrustStoreTarget r) (rca_CertificateRef r)
    (rca_PrivateKeyStatus r) (rca_CreatedAt r) (rca_UpdatedAt r) (rca_Metadata r).

Definition zero_TenantRootCA : TenantRootCA :=
  mkTenantRootCA "" "" "" "" "" "" None "" None None ∅.

Record TrustProfile : Type := mkTrustProfile {
  tpf_ID : string;
  tpf_TenantID : string;
  tpf_Name : string;
  tpf_TenantRootCAID : string;
  tpf_TrustStoreState : string;
  tpf_CertificatePinningPolicy : string;
  tpf_BypassPolicyID : option string;
  tpf_Status : string;
  tpf_Metadata : metadata;
}.

#[export] Instance TrustProfile_eta : Etaable TrustProfile := fun r =>
  mkTrustProfile (tpf_ID r) (tpf_TenantID r) (tpf_Name r) (tpf_TenantRootCAID r)
    (tpf_TrustStoreState r) (tpf_CertificatePinningPolicy r) (tpf_BypassPolicyID r)
    (tpf_Status r) (tpf_Metadata r).

Definition zero_TrustProfile : TrustProfile :=
  mkTrustProfile "" "" "" "" "" "" None "" ∅.

Record InspectionProfile : Type := mkInspectionProfile {
  ipf_ID : string;
  ipf_TenantID : string;
  ipf_Name : string;
  ipf_InspectionMode : string;
  ipf_TrustProfileID : string;
  ipf_TenantRootCAID : string;
  ipf_QUICPolicyMode : string;
  ipf_QUICPolicyAction : string;
  ipf_PayloadPolicy : string;
  ipf_CertificateIssuanceMode : string;
  ipf_TLSInterceptionEnabled : bool;
  ipf_NetworkExtensionDependency : string;
  ipf_Status : string;
  ipf_Metadata : metadata;
}.

#[export] Instance InspectionProfile_eta : Etaable InspectionProfile := fun r =>
  mkInspectionProfile (ipf_ID r) (ipf_TenantID r) (ipf_Name r) (ipf_InspectionMode r)
    (ipf_TrustProfileID r) (ipf_TenantRootCAID r) (ipf_QUICPolicyMode r)
    (ipf_QUICPolicyAction r) (ipf_PayloadPolicy r) (ipf_CertificateIssuanceMode r)
    (ipf_TLSInterceptionEnabled r) (ipf_NetworkExtensionDependency r) (ipf_Status r)
    (ipf_Metadata r).

Definition zero_InspectionProfile : InspectionProfile :=
  mkInspectionProfile "" "" "" "" "" "" "" "" "" "" false "" "" ∅.

Record PolicyBundle : Type := mkPolicyBundle {
  bun_ID : string;
  bun_TenantID : string;
  bun_Version : string;
  bun_PolicySchemaVersion : string;
  bun_Checksum : string;
  bun_Signature : string;
  bun_SigningKeyID : string;
  bun_PolicyIDs : list string;
  bun_CompiledPolicyRef : string;
  bun_BundleType : string;
  bun_ExpiresAt : string;
  bun_RevokedAt : option string;
  bun_CreatedAt : string;
  bun_ActivatedAt : option string;
  bun_Status : string;
  bun_SaaSCatalog : list SaaSCatalogEntry;
  bun_SWGTenantRestrictionRules : list SWGTenantRestrictionRule;
  bun_DLPRules : list DLPRule;
  bun_SWGTLSBypassRules : list SWGTLSBypassRule;
  bun_TenantRootCAs : list TenantRootCA;
  bun_TrustProfiles : list TrustProfile;
  bun_InspectionProfiles : list InspectionProfile;
  bun_Metadata : metadata;
}.

#[export] Instance PolicyBundle_eta : Etaable PolicyBundle := fun r =>
  mkPolicyBundle (bun_ID r) (bun_TenantID r) (bun_Version r) (bun_PolicySchemaVersion r)
    (bun_Checksum r) (bun_Signature r) (bun_SigningKeyID r) (bun_PolicyIDs r)
    (bun_CompiledPolicyRef r) (bun_BundleType r) (bun_ExpiresAt r) (bun_RevokedAt r)
    (bun_CreatedAt r) (bun_ActivatedAt r) (bun_Status r) (bun_SaaSCatalog r)
    (bun_SWGTenantRestrictionRules r) (bun_DLPRules r) (bun_SWGTLSBypassRules r)
    (bun_TenantRootCAs r) (bun_TrustProfiles r) (bun_InspectionProfiles r) (bun_Metadata r).

Definition zero_PolicyBundle : PolicyBundle :=
  mkPolicyBundle "" "" "" "" "" "" "" [] "" "" "" None "" None "" [] [] [] [] [] [] [] ∅.

Record AuthenticationEvent : Type := mkAuthenticationEvent {
  aev_ID : string;
  aev_TenantID : string;
  aev_UserID : string;
  aev_SubjectUserID : option string;
  aev_SessionID : string;
  aev_IDPID : string;
  aev_Method : string;
  aev_AMR : list string;
  aev_ACR : option string;
  aev_MFAState : string;
  aev_AuthTime : string;
  aev_ExpiresAt : option string;
  aev_SourceIP : option string;
  aev_DeviceID : option string;
  aev_Result : string;
  aev_Timestamp : string;
  aev_Metadata : metadata;
}.

#[export] Instance AuthenticationEvent_eta : Etaable AuthenticationEvent := fun r =>
  mkAuthenticationEvent (aev_ID r) (aev_TenantID r) (aev_UserID r) (aev_SubjectUserID r)
    (aev_SessionID r) (aev_IDPID r) (aev_Method r) (aev_AMR r) (aev_ACR r) (aev_MFAState r)
    (aev_AuthTime r) (aev_ExpiresAt r) (aev_SourceIP r) (aev_DeviceID r) (aev_Result r)
    (aev_Timestamp r) (aev_Metadata r).

Definition zero_AuthenticationEvent : AuthenticationEvent :=
  mkAuthenticationEvent "" "" "" None "" "" "" [] None "" "" None None None "" "" ∅.

Record Session : Type := mkSession {
  ses_ID : string;
  ses_TenantID : string;
  ses_UserID : string;
  ses_SubjectUserID : option string;
  ses_DeviceID : option string;
  ses_AuthenticationEventID : string;
  ses_PolicyBundleID : string;
  ses_CreatedAt : string;
  ses_ExpiresAt : string;
  ses_LastActiveAt : string;
  ses_Status : string;
  ses_Metadata : metadata;
}.

#[export] Instance Session_eta : Etaable Session := fun r =>
  mkSession (ses_ID r) (ses_TenantID r) (ses_UserID r) (ses_SubjectUserID r) (ses_DeviceID r)
    (ses_AuthenticationEventID r) (ses_PolicyBundleID r) (ses_CreatedAt r) (ses_ExpiresAt r)
    (ses_LastActiveAt r) (ses_Status r) (ses_Metadata r).

Definition zero_Session : Session :=
  mkSession "" "" "" None None "" "" "" "" "" "" ∅.

Record LegacyExceptionRecord : Type := mkLegacyExceptionRecord {
  lex_ID : string;
  lex_TenantID : string;
  lex_BusinessOwner : string;
  lex_ExpiresAt : string;
  lex_SourceServer : string;
  lex_DeviceGroup : string;
  lex_ServiceFamily : string;
  lex_Protocol : string;
  lex_Port : Z;
  lex_MaxSessionSeconds : Z;
  lex_ApprovalRequired : bool;
  lex_Mode : string;
  lex_Status : string;
}.

#[export] Instance LegacyExceptionRecord_eta : Etaable LegacyExceptionRecord := fun r =>
  mkLegacyExceptionRecord (lex_ID r) (lex_TenantID r) (lex_BusinessOwner r) (lex_ExpiresAt r)
    (lex_SourceServer r) (lex_DeviceGroup r) (lex_ServiceFamily r) (lex_Protocol r)
    (lex_Port r) (lex_MaxSessionSeconds r) (lex_ApprovalRequired r) (lex_Mode r) (lex_Status r).
#[export] Instance LegacyExceptionRecord_eq_dec : EqDecision LegacyExceptionRecord.
Proof. solve_decision. Defined.

Definition zero_LegacyExceptionRecord : LegacyExceptionRecord :=
  mkLegacyExceptionRecord "" "" "" "" "" "" "" "" 0 0 false "" "".

Record DecisionRequest : Type := mkDecisionRequest {
  req_TenantID : string;
  req_SessionID : string;
  req_AuthenticationEventID : string;
  req_UserID : string;
  req_SubjectUserID : string;
  req_UserGroups : list string;
  req_ActorType : string;
  req_ActorNHIID : string;
  req_NHIRiskSeverity : string;
  req_TransportDeviceIdentity : string;
  req_TransportClientCertVerified : bool;
  req_DelegatedAccessGrantID : string;
  req_AgentTaskSessionID : string;
  req_ToolID : string;
  req_ToolActionType : string;
  req_ToolPermissionProfile : string;
  req_ToolVersion : string;
  req_ToolSignatureState : string;
  req_MCPServerID : string;
  req_MCPResourceURI : string;
  req_MCPAudience : string;
  req_MCPTokenPassthroughPolicy : string;
  req_RuntimeEnvironmentID : string;
  req_ContextBoundaryID : string;
  req_DataClassification : string;
  req_AMR : list string;
  req_ACR : string;
  req_MFAState : string;
  req_AuthTime : string;
  req_AuthMethod : string;
  req_IDPID : string;
  req_Issuer : string;
  req_DeviceID : string;
  req_DeviceTrustLevel : string;
  req_ApplicationID : string;
  req_ApplicationSensitivity : string;
  req_ConnectorID : string;
  req_ConnectorRouteVerified : bool;
  req_SourceIP : string;
  req_SourcePort : Z;
  req_Destination : string;
  req_DestinationIP : string;
  req_DestinationResolvedIP : string;
  req_DestinationPort : Z;
  req_Protocol : string;
  req_SteeringMode : string;
  req_FQDN : string;
  req_SNI : string;
  req_ServiceFamily : string;
  req_SaaSApplicationID : string;
  req_SaaSName : string;
  req_SaaSProvider : string;
  req_SaaSCategory : string;
  req_SaaSRiskTier : string;
  req_SaaSMatchedDomain : string;
  req_SaaSMatchedPattern : string;
  req_SaaSMatchType : string;
  req_InspectionProfileID : string;
  req_InspectionMode : string;
  req_TrustProfileID : string;
  req_TenantRootCAID : string;
  req_QUICPolicyMode : string;
  req_QUICPolicyAction : string;
  req_BreakGlassRequestID : string;
  req_BreakGlassReasonPresent : bool;
  req_BreakGlassTicketIDPresent : bool;
  req_ConnectionInitiator : string;
  req_SourceServer : string;
  req_DeviceGroup : string;
  req_SourceRole : string;
  req_DestinationRole : string;
  req_TokenBindingState : string;
  req_WorkloadAttestationState : string;
  req_HumanApprovalEventID : string;
  req_HumanApprovalEventTrustState : string;
  req_HumanApprovalEventBindingState : string;
  req_HumanApprovalEventFreshnessState : string;
  req_RiskStateID : string;
  req_RiskStateSeverity : string;
  req_RiskRecommendedAction : string;
  req_RiskSignalSources : list string;
  req_AdminHighRisk : bool;
  req_IDPRiskLevel : string;
  req_AgentTamperSignal : bool;
  req_AuthenticationAnomaly : bool;
}.

#[export] Instance DecisionRequest_eta : Etaable DecisionRequest := fun r =>
  mkDecisionRequest (req_TenantID r) (req_SessionID r) (req_AuthenticationEventID r)
    (req_UserID r) (req_SubjectUserID r) (req_UserGroups r) (req_ActorType r)
    (req_ActorNHIID r) (req_NHIRiskSeverity r) (req_TransportDeviceIdentity r)
    (req_TransportClientCertVerified r) (req_DelegatedAccessGrantID r)
    (req_AgentTaskSessionID r) (req_ToolID r) (req_ToolActionType r)
    (req_ToolPermissionProfile r) (req_ToolVersion r) (req_ToolSignatureState r)
    (req_MCPServerID r) (req_MCPResourceURI r) (req_MCPAudience r)
    (req_MCPTokenPassthroughPolicy r) (req_RuntimeEnvironmentID r) (req_ContextBoundaryID r)
    (req_DataClassification r) (req_AMR r) (req_ACR r) (req_MFAState r) (req_AuthTime r)
    (req_AuthMethod r) (req_IDPID r) (req_Issuer r) (req_DeviceID r) (req_DeviceTrustLevel r)
    (req_ApplicationID r) (req_ApplicationSensitivity r) (req_ConnectorID r)
    (req_ConnectorRouteVerified r) (req_SourceIP r) (req_SourcePort r) (req_Destination r)
    (req_DestinationIP r) (req_DestinationResolvedIP r) (req_DestinationPort r)
    (req_Protocol r) (req_SteeringMode r) (req_FQDN r) (req_SNI r) (req_ServiceFamily r)
    (req_SaaSApplicationID r) (req_SaaSName r) (req_SaaSProvider r) (req_SaaSCategory r)
    (req_SaaSRiskTier r) (req_SaaSMatchedDomain r) (req_SaaSMatchedPattern r)
    (req_SaaSMatchType r) (req_InspectionProfileID r) (req_InspectionMode r)
    (req_TrustProfileID r) (req_TenantRootCAID r) (req_QUICPolicyMode r)
    (req_QUICPolicyAction r) (req_BreakGlassRequestID r) (req_BreakGlassReasonPresent r)
    (req_BreakGlassTicketIDPresent r) (req_ConnectionInitiator r) (req_SourceServer r)
    (req_DeviceGroup r) (req_SourceRole r) (req_DestinationRole r) (req_TokenBindingState r)
    (req_WorkloadAttestationState r) (req_HumanApprovalEventID r)
    (req_HumanApprovalEventTrustState r) (req_HumanApprovalEventBindingState r)
    (req_HumanApprovalEventFreshnessState r) (req_RiskStateID r) (req_RiskStateSeverity r)
    (req_RiskRecommendedAction r) (req_RiskSignalSources r) (req_AdminHighRisk r)
    (req_IDPRiskLevel r) (req_AgentTamperSignal r) (req_AuthenticationAnomaly r).

Definition zero_DecisionRequest : DecisionRequest :=
  mkDecisionRequest "" "" "" "" "" [] "" "" "" "" false "" "" "" "" "" "" "" "" "" "" "" "" ""
    "" [] "" "" "" "" "" "" "" "" "" "" "" false "" 0 "" "" "" 0 "" "" "" "" "" "" "" "" "" ""
    "" "" "" "" "" "" "" "" "" "" false false "" "" "" "" "" "" "" "" "" "" "" "" "" "" []
    false "" false false.

Record DecisionAction : Type := mkDecisionAction {
  act_Type : string;
  act_Target : option string;
  act_TTLSeconds : option Z;
  act_Metadata : metadata;
}.

#[export] Instance DecisionAction_eta : Etaable DecisionAction := fun r =>
  mkDecisionAction (act_Type r) (act_Target r) (act_TTLSeconds r) (act_Metadata r).

Definition zero_DecisionAction : DecisionAction :=
  mkDecisionAction "" None None ∅.

Record AccessDecision : Type := mkAccessDecision {
  dec_ID : string;
  dec_TenantID : string;
  dec_SessionID : option string;
  dec_AuthenticationEventID : option string;
  dec_UserID : option string;
  dec_SubjectUserID : option string;
  dec_ActorType : string;
  dec_ActorNHIID : option string;
  dec_DelegatedAccessGrantID : option string;
  dec_AgentTaskSessionID : option string;
  dec_ToolID : option string;
  dec_ToolActionType : option string;
  dec_ToolPermissionProfile : option string;
  dec_ToolVersion : option string;
  dec_ToolSignatureState : option string;
  dec_MCPServerID : option string;
  dec_MCPResourceURI : option string;
  dec_MCPAudience : option string;
  dec_MCPTokenPassthroughPolicy : option string;
  dec_RuntimeEnvironmentID : option string;
  dec_ContextBoundaryID : option string;
  dec_DataClassification : option string;
  dec_DeviceID : option string;
  dec_ApplicationID : string;
  dec_PolicyID : string;
  dec_PolicyBundleID : string;
  dec_PolicyBundleVersion : string;
  dec_RiskStateID : option string;
  dec_SourceIP : option string;
  dec_SourcePort : option Z;
  dec_Destination : option string;
  dec_DestinationIP : option string;
  dec_DestinationPort : option Z;
  dec_RequestMethod : option string;
  dec_RequestPath : option string;
  dec_Protocol : option string;
  dec_FQDN : option string;
  dec_SNI : option string;
  dec_ServiceFamily : option string;
  dec_SaaSContext : option SaaSContext;
  dec_ConnectionInitiator : option string;
  dec_SourceRole : option string;
  dec_DestinationRole : option string;
  dec_SourceVLANID : option string;
  dec_DestinationVLANID : option string;
  dec_MatchedConditions : list string;
  dec_TokenBindingState : option string;
  dec_WorkloadAttestationState : option string;
  dec_HumanApprovalEventID : option string;
  dec_Decision : string;
  dec_Reason : option string;
  dec_ReasonCodes : list string;
  dec_Actions : list DecisionAction;
  dec_Bypass : bool;
  dec_InspectionProfileID : option string;
  dec_InspectionMode : option string;
  dec_InspectionRouteCategory : option string;
  dec_InspectionExecutionScope : option string;
  dec_EdgeRegionID : option string;
  dec_EdgeClusterID : option string;
  dec_ConnectorID : option string;
  dec_CacheStatus : string;
  dec_TTLSeconds : Z;
  dec_Timestamp : string;
  dec_Metadata : metadata;
}.

#[export] Instance AccessDecision_eta : Etaable AccessDecision := fun r =>
  mkAccessDecision (dec_ID r) (dec_TenantID r) (dec_SessionID r) (dec_AuthenticationEventID r)
    (dec_UserID r) (dec_SubjectUserID r) (dec_ActorType r) (dec_ActorNHIID r)
    (dec_DelegatedAccessGrantID r) (dec_AgentTaskSessionID r) (dec_ToolID r)
    (dec_ToolActionType r) (dec_ToolPermissionProfile r) (dec_ToolVersion r)
    (dec_ToolSignatureState r) (dec_MCPServerID r) (dec_MCPResourceURI r) (dec_MCPAudience r)
    (dec_MCPTokenPassthroughPolicy r) (dec_RuntimeEnvironmentID r) (dec_ContextBoundaryID r)
    (dec_DataClassification r) (dec_DeviceID r) (dec_ApplicationID r) (dec_PolicyID r)
    (dec_PolicyBundleID r) (dec_PolicyBundleVersion r) (dec_RiskStateID r) (dec_SourceIP r)
    (dec_SourcePort r) (dec_Destination r) (dec_DestinationIP r) (dec_DestinationPort r)
    (dec_RequestMethod r) (dec_RequestPath r) (dec_Protocol r) (dec_FQDN r) (dec_SNI r)
    (dec_ServiceFamily r) (dec_SaaSContext r) (dec_ConnectionInitiator r) (dec_SourceRole r)
    (dec_DestinationRole r) (dec_SourceVLANID r) (dec_DestinationVLANID r)
    (dec_MatchedConditions r) (dec_TokenBindingState r) (dec_WorkloadAttestationState r)
    (dec_HumanApprovalEventID r) (dec_Decision r) (dec_Reason r) (dec_ReasonCodes r)
    (dec_Actions r) (dec_Bypass r) (dec_InspectionProfileID r) (dec_InspectionMode r)
    (dec_InspectionRouteCategory r) (dec_InspectionExecutionScope r) (dec_EdgeRegionID r)
    (dec_EdgeClusterID r) (dec_ConnectorID r) (dec_CacheStatus r) (dec_TTLSeconds r)
    (dec_Timestamp r) (dec_Metadata r).

Definition zero_AccessDecision : AccessDecision :=
  mkAccessDecision "" "" None None None None "" None None None None None None None None None
    None None None None None None None "" "" "" "" None None None None None None None None None
    None None None None None None None None None [] None None None "" None [] [] false None
    None None None None None None "" 0 "" ∅.

Record HumanApprovalEvent : Type := mkHumanApprovalEvent {
  hae_ID : string;
  hae_TenantID : string;
  hae_ApprovalSource : string;
  hae_ApproverUserID : option string;
  hae_SubjectUserID : option string;
  hae_ActorNHIID : option string;
  hae_DelegatedAccessGrantID : option string;
  hae_AgentTaskSessionID : option string;
  hae_ApplicationID : option string;
  hae_Audience : option string;
  hae_Resource : option string;
  hae_ActionType : option string;
  hae_TaskID : option string;
  hae_RunID : option string;
  hae_RequestedScopes : list string;
  hae_Reason : option string;
  hae_ApprovalResult : string;
  hae_EvidenceLink : option string;
  hae_ActivatedAt : option string;
  hae_ExpiresAt : option string;
  hae_CreatedAt : string;
  hae_Metadata : metadata;
}.

#[export] Instance HumanApprovalEvent_eta : Etaable HumanApprovalEvent := fun r =>
  mkHumanApprovalEvent (hae_ID r) (hae_TenantID r) (hae_ApprovalSource r)
    (hae_ApproverUserID r) (hae_SubjectUserID r) (hae_ActorNHIID r)
    (hae_DelegatedAccessGrantID r) (hae_AgentTaskSessionID r) (hae_ApplicationID r)
    (hae_Audience r) (hae_Resource r) (hae_ActionType r) (hae_TaskID r) (hae_RunID r)
    (hae_RequestedScopes r) (hae_Reason r) (hae_ApprovalResult r) (hae_EvidenceLink r)
    (hae_ActivatedAt r) (hae_ExpiresAt r) (hae_CreatedAt r) (hae_Metadata r).
#[export] Instance HumanApprovalEvent_eq_dec : EqDecision HumanApprovalEvent.
Proof. solve_decision. Defined.

Definition zero_HumanApprovalEvent : HumanApprovalEvent :=
  mkHumanApprovalEvent "" "" "" None None None None None None None None None None None [] None
    "" None None None "" ∅.

Record DelegatedAccessGrant : Type := mkDelegatedAccessGrant {
  dag_ID : string;
  dag_TenantID : string;
  dag_SubjectUserID : string;
  dag_ActorNHIID : string;
  dag_DeviceID : option string;
  dag_ApplicationID : option string;
  dag_Audience : option string;
  dag_Resource : option string;
  dag_Scopes : list string;
  dag_Purpose : option string;
  dag_TaskID : option string;
  dag_RunID : option string;
  dag_ToolIDs : list string;
  dag_ApprovalEventID : option string;
  dag_TokenBindingRequired : bool;
  dag_MaxSessionDuration : option Z;
  dag_ExpiresAt : string;
  dag_CreatedAt : option string;
  dag_RevokedAt : option string;
  dag_RevocationReason : option string;
  dag_Status : string;
  dag_Metadata : metadata;
}.

#[export] Instance DelegatedAccessGrant_eta : Etaable DelegatedAccessGrant := fun r =>
  mkDelegatedAccessGrant (dag_ID r) (dag_TenantID r) (dag_SubjectUserID r) (dag_ActorNHIID r)
    (dag_DeviceID r) (dag_ApplicationID r) (dag_Audience r) (dag_Resource r) (dag_Scopes r)
    (dag_Purpose r) (dag_TaskID r) (dag_RunID r) (dag_ToolIDs r) (dag_ApprovalEventID r)
    (dag_TokenBindingRequired r) (dag_MaxSessionDuration r) (dag_ExpiresAt r) (dag_CreatedAt r)
    (dag_RevokedAt r) (dag_RevocationReason r) (dag_Status r) (dag_Metadata r).
#[export] Instance DelegatedAccessGrant_eq_dec : EqDecision DelegatedAccessGrant.
Proof. solve_decision. Defined.

Definition zero_DelegatedAccessGrant : DelegatedAccessGrant :=
  mkDelegatedAccessGrant "" "" "" "" None None None None [] None None None [] None false None
    "" None None None "" ∅.

Record NonHumanIdentity : Type := mkNonHumanIdentity {
  nhi_ID : string;
  nhi_TenantID : string;
  nhi_Name : string;
  nhi_NHIType : string;
  nhi_OwnerUserID : string;
  nhi_TrustDomain : option string;
  nhi_Issuer : option string;
  nhi_Subject : option string;
  nhi_CredentialType : option string;
  nhi_AllowedApplicationIDs : list string;
  nhi_AllowedScopes : list string;
  nhi_AllowlistEnforced : bool;
  nhi_LastUsedAt : option string;
  nhi_ExpiresAt : option string;
  nhi_Status : string;
  nhi_Metadata : metadata;
}.

#[export] Instance NonHumanIdentity_eta : Etaable NonHumanIdentity := fun r =>
  mkNonHumanIdentity (nhi_ID r) (nhi_TenantID r) (nhi_Name r) (nhi_NHIType r)
    (nhi_OwnerUserID r) (nhi_TrustDomain r) (nhi_Issuer r) (nhi_Subject r)
    (nhi_CredentialType r) (nhi_AllowedApplicationIDs r) (nhi_AllowedScopes r)
    (nhi_AllowlistEnforced r) (nhi_LastUsedAt r) (nhi_ExpiresAt r) (nhi_Status r)
    (nhi_Metadata r).
#[export] Instance NonHumanIdentity_eq_dec : EqDecision NonHumanIdentity.
Proof. solve_decision. Defined.

Definition zero_NonHumanIdentity : NonHumanIdentity :=
  mkNonHumanIdentity "" "" "" "" "" None None None None [] [] false None None "" ∅.
