(* ===== verification/TenantRestriction.v ===== *)
(** * SaaS sign-in restrictions ([src/tenantrestriction/config.go])

    What an organization may configure per SaaS provider, the rule and the catalogue entry
    a setting compiles to, and the references under which its header values are found.
    Case folding is that of ASCII; the two letters outside ASCII that [(?i)[a-z]] also
    accepts in a domain are left out. *)

From Stdlib Require Import Ascii ZifyBool ZifyN.
From stdpp Require Import base gmap list strings.
From S2P Require Import Prelude Trimmed GoStd Model.

Open Scope Z_scope.

Module TenantRestriction.

Record Setting := mkSetting {
  set_AllowedValue : string;
  set_ContextTenantID : string;
  set_Enabled : bool;
}.

#[export] Instance Setting_eta : Etaable Setting := fun s =>
  mkSetting (set_AllowedValue s) (set_ContextTenantID s) (set_Enabled s).
#[export] Instance Setting_eq_dec : EqDecision Setting.
Proof. solve_decision. Defined.

Definition zero_Setting : Setting := mkSetting "" "" false.

Record Provider := mkProvider {
  prov_ID : string;
  prov_AppID : string;
  prov_Name : string;
  prov_Header : string;
  prov_Kind : string;
  prov_Hosts : list string;
}.

Definition Providers : list Provider := [
  mkProvider "google_workspace" "saas_google_workspace" "Google Workspace"
    "X-GoogApps-Allowed-Domains" "allowed_domains"
    ["google.com"; "*.google.com"; "googleapis.com"; "*.googleapis.com"; "googleusercontent.com";
     "*.googleusercontent.com"];
  mkProvider "microsoft_365" "saas_microsoft_365" "Microsoft 365" "Restrict-Access-To-Tenants"
    "allowed_tenant_ids" ["login.microsoftonline.com"; "login.microsoft.com"; "login.windows.net"];
  mkProvider "anthropic_claude" "saas_anthropic_claude" "Anthropic Claude"
    "anthropic-allowed-org-ids" "allowed_org_ids"
    ["claude.ai"; "*.claude.ai"; "claude.com"; "*.claude.com"; "anthropic.com"; "*.anthropic.com"];
  mkProvider "openai_chatgpt" "saas_openai_chatgpt" "OpenAI ChatGPT"
    "chatgpt-allowed-workspace-id" "allowed_workspace_id"
    ["chatgpt.com"; "*.chatgpt.com"; "chat.openai.com"]].

Definition Lookup (id : string) : option Provider :=
  List.find (fun p => String.eqb (prov_ID p) id) Providers.

(** ** [url.PathEscape] *)

Definition is_lower (c : ascii) : bool := ((97 <=? byte_val c) && (byte_val c <=? 122))%N.
Definition is_upper (c : ascii) : bool := ((65 <=? byte_val c) && (byte_val c <=? 90))%N.
Definition is_digit (c : ascii) : bool := ((48 <=? byte_val c) && (byte_val c <=? 57))%N.
Definition is_letter (c : ascii) : bool := is_lower c || is_upper c.

Definition path_plain (c : ascii) : bool :=
  is_letter c || is_digit c
  || existsb (Ascii.eqb c) ["-"; "_"; "."; "~"; "$"; "&"; "+"; ":"; "="; "@"]%char.

(** [upperhex[d]] *)
Definition hex_char (d : N) : ascii := ascii_of_N (if (d <? 10)%N then d + 48 else d + 55).

Fixpoint path_escape (s : string) : string :=
  match s with
  | EmptyString => EmptyString
  | String c s' =>
      if path_plain c then String c (path_escape s')
      else String "%" (String (hex_char (byte_val c / 16)) (String (hex_char (byte_val c mod 16))
             (path_escape s')))
  end.

Definition Ref (tenant provider : string) : string :=
  "operator_config_ref:tenant_restriction/" +:+ path_escape tenant +:+ "/" +:+ provider.

Definition Rule (tenant : string) (p : Provider) (s : Setting) : SWGTenantRestrictionRule :=
  mkSWGTenantRestrictionRule ("tr/" +:+ path_escape tenant +:+ "/" +:+ prov_ID p) tenant
    (prov_AppID p) (prov_ID p) (prov_Header p) (Ref tenant (prov_ID p)) (prov_Kind p)
    "header_injection" (if set_Enabled s then "active" else "inactive")
    (if String.eqb (prov_ID p) "microsoft_365"
     then {[ "restriction_context_ref" := VStr (Ref tenant (prov_ID p) +:+ "/context") ]} else ∅).

Definition Catalog (tenant : string) (p : Provider) : SaaSCatalogEntry :=
  mkSaaSCatalogEntry tenant (prov_AppID p) (prov_Name p) (prov_ID p) "saas" "" (prov_Hosts p)
    [] [] false "".

(** ** Validation *)

Definition is_hex (c : ascii) : bool :=
  is_digit c || ((97 <=? byte_val (lower_byte c)) && (byte_val (lower_byte c) <=? 102))%N.

Definition hex_group (n : nat) (s : string) : bool :=
  (String.length s =? n)%nat && all_bytes is_hex s.

(** [(?i)^[0-9a-f]{8}-[0-9a-f]{4}-[0-9a-f]{4}-[0-9a-f]{4}-[0-9a-f]{12}$] *)
Definition guid (s : string) : bool :=
  match split_byte "-" s with
  | [a; b; c; d; e] =>
      hex_group 8 a && hex_group 4 b && hex_group 4 c && hex_group 4 d && hex_group 12 e
  | _ => false
  end.

(** [^[A-Za-z0-9_-]{1,256}$] *)
Definition workspace (s : string) : bool :=
  nonempty s && (String.length s <=? 256)%nat
  && all_bytes (fun c => is_letter c || is_digit c || existsb (Ascii.eqb c) ["_"; "-"]%char) s.

Definition is_alnum (c : ascii) : bool := is_letter c || is_digit c.

(** [[a-z0-9](?:[a-z0-9-]{0,61}[a-z0-9])?], any case *)
Definition domain_label (s : string) : bool :=
  (String.length s <=? 63)%nat && all_bytes (fun c => is_alnum c || Ascii.eqb c "-") s
  && match s with String c _ => is_alnum c | EmptyString => false end
  && match String.rev s with String c _ => is_alnum c | EmptyString => false end.

(** Two labels or more. *)
Definition domain (s : string) : bool :=
  let labels := split_byte "." s in (2 <=? length labels)%nat && forallb domain_label labels.

Inductive error :=
  | UnknownProvider
  | InvalidAllowedValue
  | EmptyItem
  | InvalidItem (provider : string)
  | InvalidContextTenant
  | EnableUnconfigured.

(** The switch over the providers, for one item of the list. *)
Definition item_valid (provider allowed v : string) : bool :=
  if String.eqb provider "google_workspace" then (String.length v <=? 253)%nat && domain v
  else if String.eqb provider "microsoft_365" then guid v || (String.length v <=? 253)%nat && domain v
  else if String.eqb provider "anthropic_claude" then guid v
  else if String.eqb provider "openai_chatgpt" then workspace v && negb (contains_str allowed ",")
  else false.

(** [strings.ToLower] for every provider but one. *)
Definition item_of (provider raw : string) : string :=
  let v := trim_space raw in
  if String.eqb provider "openai_chatgpt" then v else to_lower v.

Fixpoint items (provider allowed : string) (raws values : list string) : result error (list string) :=
  match raws with
  | [] => Ok values
  | raw :: raws' =>
      let v := item_of provider raw in
      if is_empty v then
        if negb (is_blank allowed) then Err EmptyItem else items provider allowed raws' values
      else if negb (item_valid provider allowed v) then Err (InvalidItem provider)
      else items provider allowed raws' (if containsString values v then values else values ++ [v])
  end.

(** [strings.ContainsAny(s, "\r\n\x00")] *)
Definition has_control (s : string) : bool :=
  negb (all_bytes (fun c => negb (existsb (Ascii.eqb c) ["013"; "010"; "000"]%char)) s).

Definition Validate (provider : string) (s : Setting) : result error Setting :=
  match Lookup provider with
  | None => Err UnknownProvider
  | Some _ =>
      if (8192 <? String.length (set_AllowedValue s))%nat || has_control (set_AllowedValue s)
      then Err InvalidAllowedValue else
      let! values := items provider (set_AllowedValue s) (split_byte "," (set_AllowedValue s)) [] in
      let s := s <| set_AllowedValue := join "," values |>
                 <| set_ContextTenantID := to_lower (trim_space (set_ContextTenantID s)) |> in
      if nonempty (set_ContextTenantID s)
         && (negb (String.eqb provider "microsoft_365") || negb (guid (set_ContextTenantID s)))
      then Err InvalidContextTenant
      else if set_Enabled s
              && (is_empty (set_AllowedValue s)
                  || String.eqb provider "microsoft_365" && is_empty (set_ContextTenantID s))
      then Err EnableUnconfigured
      else Ok s
  end.

(** * Properties *)

(** ** Items *)

(** The bytes an item is made of. *)
Definition item_byte (c : ascii) : bool :=
  is_alnum c || existsb (Ascii.eqb c) ["-"; "_"; "."]%char.

Lemma item_byte_solid c : item_byte c = true → solid c = true.
Proof.
  unfold item_byte, is_alnum, is_letter, is_lower, is_upper, is_digit, solid. cbn [existsb].
  rewrite !orb_true_iff, !andb_true_iff, !N.leb_le, !Ascii.eqb_eq.
  intros [[[?|?]|?]|[->|[->|[->|?]]]]; try lia; by vm_compute.
Qed.

Lemma item_byte_not c x : item_byte c = false → item_byte x = true → negb (Ascii.eqb x c) = true.
Proof. intros Hc Hx. destruct (Ascii.eqb_spec x c) as [->|]; [congruence|done]. Qed.

Lemma hex_item c : is_hex c = true → item_byte c = true.
Proof.
  unfold is_hex, item_byte, is_alnum, is_letter. destruct (is_digit c); [by rewrite orb_true_r|].
  cbn [orb]. unfold lower_byte. destruct ((65 <=? byte_val c) && (byte_val c <=? 90))%N eqn:E; intros H.
  - change (((65 <=? byte_val c) && (byte_val c <=? 90))%N) with (is_upper c) in E.
    by rewrite E, orb_true_r.
  - assert (is_lower c = true) as ->; [|done]. unfold is_lower. lia.
Qed.

Lemma guid_item s : guid s = true → all_bytes item_byte s = true.
Proof.
  unfold guid, hex_group. destruct (split_byte "-" s) as [|a [|b [|c [|d [|e [|x y]]]]]] eqn:E; try done.
  intros H. bool_facts. apply (all_bytes_split _ "-"); [|done]. rewrite E.
  repeat (constructor; [by eapply all_bytes_impl; [apply hex_item|]|]). constructor.
Qed.

Lemma domain_item s : domain s = true → all_bytes item_byte s = true.
Proof.
  unfold domain. intros [_ H]%andb_true_iff. apply (all_bytes_split _ "."); [|done].
  apply Forall_forall. intros w Hw. rewrite forallb_forall in H.
  specialize (H w ltac:(by apply list_elem_of_In)). unfold domain_label in H. bool_facts.
  eapply all_bytes_impl; [|done]. intros c. unfold item_byte. cbn [existsb]. intros [-> | ->]%orb_true_iff;
    [done|by rewrite orb_true_r].
Qed.

Lemma workspace_item s : workspace s = true → all_bytes item_byte s = true.
Proof.
  unfold workspace. intros H. bool_facts. eapply all_bytes_impl; [|done].
  intros c. unfold item_byte, is_alnum. cbn [existsb]. intros Hc. bool_facts.
  destruct (is_letter c || is_digit c); [done|]. cbn in *.
  destruct (Ascii.eqb c "_"), (Ascii.eqb c "-"); done.
Qed.

Lemma valid_item provider allowed v : item_valid provider allowed v = true → all_bytes item_byte v = true.
Proof.
  unfold item_valid. destruct (String.eqb provider "google_workspace").
  { intros H. bool_facts. by apply domain_item. }
  destruct (String.eqb provider "microsoft_365").
  { rewrite orb_true_iff, andb_true_iff. intros [?|[_ ?]]; [by apply guid_item|by apply domain_item]. }
  destruct (String.eqb provider "anthropic_claude"); [apply guid_item|].
  destruct (String.eqb provider "openai_chatgpt"); [|done].
  intros H. bool_facts. by apply workspace_item.
Qed.

Lemma item_trimmed v : all_bytes item_byte v = true → trim_space v = v.
Proof.
  intros H. apply trim_solid. rewrite <- all_bytes_solid. by eapply all_bytes_impl; [apply item_byte_solid|].
Qed.

(** An item that was accepted is read as itself. *)
Lemma item_of_fixed provider raw :
  all_bytes item_byte (item_of provider raw) = true →
  item_of provider (item_of provider raw) = item_of provider raw.
Proof.
  intros H. apply item_trimmed in H. unfold item_of at 1. rewrite H. cbv zeta.
  case_match eqn:Hp; [done|]. unfold item_of. rewrite Hp. apply to_lower_idemp.
Qed.

(** What the loop over the items accepts: each is valid and reads as itself, none is
    there twice, and together they take no more room than the texts they come from. *)
Record accepted (provider allowed : string) (values : list string) : Prop := {
  acc_valid v : v ∈ values → v ≠ "" ∧ item_valid provider allowed v = true ∧ item_of provider v = v;
  acc_once : NoDup values;
}.

Lemma items_accepted provider allowed raws : ∀ values out,
  accepted provider allowed values → items provider allowed raws values = Ok out →
  accepted provider allowed out ∧ (text_cost out ≤ text_cost values + text_cost raws)%nat.
Proof.
  induction raws as [|raw raws IH]; intros values out Hacc; cbn [items].
  { intros [= <-]. split; [done|]. unfold text_cost. cbn. lia. }
  destruct (is_empty (item_of provider raw)) eqn:He.
  - destruct (negb _); [done|]. intros H. destruct (IH _ _ Hacc H). split; [done|].
    unfold text_cost in *. cbn. lia.
  - destruct (item_valid provider allowed (item_of provider raw)) eqn:Hv; [|done]. cbn [negb].
    assert (String.length (item_of provider raw) ≤ String.length raw)%nat as Hlen.
    { unfold item_of. cbv zeta. pose proof (trim_space_length raw). case_match; [lia|].
      rewrite to_lower_length. lia. }
    intros H. destruct (containsString values (item_of provider raw)) eqn:Hc.
    + destruct (IH _ _ Hacc H). split; [done|]. unfold text_cost in *. cbn. lia.
    + apply IH in H as [Hout Hcost].
      * split; [done|]. unfold text_cost in *. rewrite sum_list_with_app in Hcost. cbn in *. lia.
      * destruct Hacc as [Hall Honce]. split.
        -- intros v [Hin | ->%list_elem_of_singleton]%elem_of_app; [by apply Hall|].
           split_and!; [by intros Heq; rewrite Heq in He|done|].
           by apply item_of_fixed, (valid_item provider allowed).
        -- apply NoDup_app. split_and!; [done| |apply NoDup_singleton].
           intros v Hv1 ->%list_elem_of_singleton. apply containsString_spec in Hv1. congruence.
Qed.

(** Accepted items pass again, one after the other. *)
Lemma items_again provider allowed' l : ∀ values,
  (∀ v, v ∈ l → v ≠ "" ∧ item_valid provider allowed' v = true ∧ item_of provider v = v) →
  NoDup (values ++ l) → items provider allowed' l values = Ok (values ++ l).
Proof.
  induction l as [|v l IH]; intros values Hall Hnd; cbn [items]; [by rewrite app_nil_r|].
  destruct (Hall v ltac:(left)) as (Hne & Hv & ->).
  destruct (is_empty v) eqn:He; [by apply is_empty_true in He|]. rewrite Hv. cbn [negb].
  destruct (containsString values v) eqn:Hc.
  { apply containsString_spec in Hc. apply NoDup_app in Hnd as (_ & Hnd & _).
    exfalso. apply (Hnd v); [done|left]. }
  rewrite IH; [by rewrite <- app_assoc|by intros w Hw; apply Hall; right|by rewrite <- app_assoc].
Qed.

Lemma accepted_nil provider allowed : accepted provider allowed [].
Proof. split; [by intros v ?%elem_of_nil|constructor]. Qed.

Lemma items_bytes provider allowed values :
  accepted provider allowed values → Forall (fun w => all_bytes item_byte w = true) values.
Proof.
  intros [Hall _]. apply Forall_forall. intros v Hv. destruct (Hall v Hv) as (_ & Hv' & _).
  by eapply valid_item.
Qed.

Lemma all_bytes_join f c l :
  f c = true → Forall (fun w => all_bytes f w = true) l → all_bytes f (join (String c "") l) = true.
Proof.
  intros Hc. induction 1 as [|w l Hw Hall IH]; [done|]. destruct l as [|v l]; [done|].
  change (join (String c "") (w :: v :: l)) with (w +:+ String c "" +:+ join (String c "") (v :: l)).
  rewrite !all_bytes_app, Hw, IH. cbn. by rewrite Hc.
Qed.

Lemma contains_byte s c : all_bytes (fun x => negb (Ascii.eqb x c)) s = true → contains_str s (String c "") = false.
Proof.
  intros H. unfold contains_str. apply bool_decide_eq_false. intros [[a b] Hcut].
  revert a Hcut. induction s as [|x s IH]; intros a; cbn in *; [done|]. bool_facts.
  rewrite (Ascii.eqb_sym c x). destruct (Ascii.eqb x c) eqn:E; [done|].
  destruct (cut _ s) as [[a' b']|] eqn:Hs; [|done]. intros [= _ ->]. by eapply IH.
Qed.

(** The list of accepted items, written out again. *)
Lemma items_rewritten provider allowed values :
  accepted provider allowed values → values ≠ [] →
  (provider = "openai_chatgpt" → length values ≤ 1)%nat →
  items provider (join "," values) (split_byte "," (join "," values)) [] = Ok values.
Proof.
  intros Hacc Hne Hone. pose proof (items_bytes _ _ _ Hacc) as Hbytes.
  assert (Forall (fun w => all_bytes (fun x => negb (Ascii.eqb x ",")) w = true) values) as Hcomma.
  { eapply Forall_impl; [exact Hbytes|]. intros w. apply all_bytes_impl. intros x. by apply item_byte_not. }
  rewrite split_join by done. apply (items_again _ _ values []); [|apply Hacc].
  intros v Hv. destruct (acc_valid _ _ _ Hacc v Hv) as (Hv0 & Hv1 & Hv2). split_and!; [done| |done].
  unfold item_valid in *. destruct (String.eqb provider "google_workspace"); [done|].
  destruct (String.eqb provider "microsoft_365"); [done|].
  destruct (String.eqb provider "anthropic_claude"); [done|].
  destruct (String.eqb_spec provider "openai_chatgpt") as [Hp|]; [|done].
  apply andb_true_iff in Hv1 as [-> _]. cbn [andb]. specialize (Hone Hp).
  destruct values as [|w [|w' values]]; [done| |cbn in Hone; lia].
  rewrite (contains_byte (join "," [w])); [done|]. by apply Forall_cons in Hcomma as [? _].
Qed.

Lemma single_item allowed values :
  items "openai_chatgpt" allowed (split_byte "," allowed) [] = Ok values → (length values ≤ 1)%nat.
Proof.
  destruct (contains_str allowed ",") eqn:Hc.
  - assert (∀ raws vs out, items "openai_chatgpt" allowed raws vs = Ok out → out = vs) as Hnone.
    { induction raws as [|raw raws IH]; intros vs out; cbn [items]; [by intros [= <-]|].
      destruct (is_empty _); [destruct (negb _); [done|]; apply IH|].
      change (item_valid "openai_chatgpt" allowed ?v) with (workspace v && negb (contains_str allowed ",")).
      by rewrite Hc, andb_false_r. }
    intros ->%Hnone. cbn. lia.
  - assert (split_byte "," allowed = [allowed]) as ->.
    { apply split_byte_none. apply not_false_iff_true. intros Hf. apply not_true_iff_false in Hc. apply Hc.
      unfold contains_str. apply bool_decide_eq_true. clear Hc.
      induction allowed as [|x s IH]; [done|]. cbn [all_bytes cut strip_prefix] in *.
      rewrite (Ascii.eqb_sym "," x). destruct (Ascii.eqb x ","); [by eexists|]. cbn [negb andb] in Hf.
      destruct (IH Hf) as [[a b] ->]. by eexists. }
    cbn [items]. repeat case_match; try done; intros [= <-]; cbn; lia.
Qed.

Lemma no_control s : all_bytes (fun c => item_byte c || Ascii.eqb c ",") s = true → has_control s = false.
Proof.
  intros H. unfold has_control. apply negb_false_iff. eapply all_bytes_impl; [|exact H].
  intros c [Hc|Hc]%orb_true_iff.
  - apply negb_true_iff, not_true_iff_false. cbn [existsb]. rewrite !orb_true_iff, !Ascii.eqb_eq.
    intros [->|[->|[->|?]]]; done.
  - apply Ascii.eqb_eq in Hc as ->. done.
Qed.

(** What validation comes down to. *)
Lemma Validate_ok provider s s' :
  Validate provider s = Ok s' ↔
  is_Some (Lookup provider) ∧ (String.length (set_AllowedValue s) ≤ 8192)%nat ∧
  has_control (set_AllowedValue s) = false ∧
  ∃ values, items provider (set_AllowedValue s) (split_byte "," (set_AllowedValue s)) [] = Ok values ∧
    s' = mkSetting (join "," values) (to_lower (trim_space (set_ContextTenantID s))) (set_Enabled s) ∧
    nonempty (set_ContextTenantID s')
      && (negb (String.eqb provider "microsoft_365") || negb (guid (set_ContextTenantID s'))) = false ∧
    set_Enabled s' && (is_empty (set_AllowedValue s')
      || String.eqb provider "microsoft_365" && is_empty (set_ContextTenantID s')) = false.
Proof.
  unfold Validate. destruct s as [allowed context enabled].
  change (set_AllowedValue (mkSetting allowed context enabled)) with allowed.
  change (set_ContextTenantID (mkSetting allowed context enabled)) with context.
  change (set_Enabled (mkSetting allowed context enabled)) with enabled.
  destruct (Lookup provider); [|split; [done|by intros [[] _]]].
  destruct (Nat.ltb_spec 8192 (String.length allowed)); cbn [orb]; [split; [done|lia]|].
  destruct (has_control allowed); [split; [done|naive_solver]|]. rewrite result_bind_ok.
  set (ctx := to_lower (trim_space context)).
  assert (∀ values, (mkSetting allowed context enabled) <| set_AllowedValue := join "," values |>
    <| set_ContextTenantID := ctx |> = mkSetting (join "," values) ctx enabled) as Heq by done.
  split.
  - intros (values & Hi & Hr). split_and!; [done..|]. exists values. split; [done|]. rewrite !Heq in Hr.
    destruct (nonempty _ && _) eqn:H1 in Hr; [done|]. destruct (set_Enabled _ && _) eqn:H2 in Hr; [done|].
    injection Hr as <-. done.
  - intros (_ & _ & _ & values & Hi & -> & H1 & H2). exists values. split; [done|].
    rewrite !Heq, H1, H2. done.
Qed.

(** What validation returns passes validation unchanged: the settings that are saved are
    the ones a distributed configuration is checked against. *)
Lemma validated_again provider s s' : Validate provider s = Ok s' → Validate provider s' = Ok s'.
Proof.
  rewrite !Validate_ok. intros (Hp & Hlen & _ & values & Hitems & Hs' & Hc & He).
  destruct (items_accepted _ _ _ _ _ (accepted_nil provider (set_AllowedValue s)) Hitems) as [Hacc Hcost].
  rewrite split_cost in Hcost. unfold text_cost at 2 in Hcost. cbn [sum_list_with] in Hcost.
  assert (set_AllowedValue s' = join "," values) as Hallowed by (by rewrite Hs').
  assert (all_bytes (fun c => item_byte c || Ascii.eqb c ",") (set_AllowedValue s') = true) as Hbytes.
  { rewrite Hallowed. apply all_bytes_join; [done|].
    eapply Forall_impl; [by apply (items_bytes provider (set_AllowedValue s))|].
    intros w. apply all_bytes_impl. by intros c ->. }
  split_and!; [done| |by apply no_control|].
  { rewrite Hallowed, join_length. lia. }
  exists values. split_and!; [| |done..].
  - rewrite Hallowed. destruct (decide (values = [])) as [->|Hne].
    { cbn [join split_byte items]. assert (item_of provider "" = "") as -> by (unfold item_of; by case_match). done. }
    apply (items_rewritten _ _ _ Hacc Hne). intros ->. by eapply single_item.
  - assert (to_lower (trim_space (set_ContextTenantID s')) = set_ContextTenantID s') as ->; [|by rewrite Hs'].
    unfold nonempty in Hc. destruct (is_empty (set_ContextTenantID s')) eqn:Hemp.
    + by apply is_empty_true in Hemp as ->.
    + cbn in Hc. apply orb_false_iff in Hc as [_ Hg]. apply negb_false_iff in Hg.
      rewrite (item_trimmed _ (guid_item _ Hg)), Hs'. apply to_lower_idemp.
Qed.

(** ** References *)

Lemma hex_char_inj a b : (a < 16)%N → (b < 16)%N → hex_char a = hex_char b → a = b.
Proof.
  unfold hex_char. intros Ha Hb H. apply (f_equal N_of_ascii) in H.
  assert (∀ x, x < 16 → (if x <? 10 then x + 48 else x + 55) < 256)%N as Hs
    by (intros x Hx; destruct (N.ltb_spec x 10); lia).
  rewrite !N_ascii_embedding in H by auto.
  destruct (a <? 10)%N eqn:E1, (b <? 10)%N eqn:E2; lia.
Qed.

Lemma path_escape_inj s s' : path_escape s = path_escape s' → s = s'.
Proof.
  revert s'. induction s as [|c s IH]; intros [|c' s']; cbn [path_escape]; [done| | |].
  - by destruct (path_plain c').
  - by destruct (path_plain c).
  - destruct (path_plain c) eqn:Hc, (path_plain c') eqn:Hc'.
    + intros [= -> H]. f_equal. by apply IH.
    + intros [= -> H]. done.
    + intros [= <- H]. done.
    + intros [= H1 H2 H3]. f_equal; [|by apply IH].
      assert (∀ x : ascii, (byte_val x < 256)%N) as Hb by (intros x; apply N_ascii_bounded).
      apply hex_char_inj in H1; [|apply N.Div0.div_lt_upper_bound; specialize (Hb c); lia
        |apply N.Div0.div_lt_upper_bound; specialize (Hb c'); lia].
      apply hex_char_inj in H2; [|by apply N.mod_lt|by apply N.mod_lt].
      rewrite <- (ascii_N_embedding c), <- (ascii_N_embedding c'). f_equal.
      change (byte_val c = byte_val c'). rewrite (N.div_mod (byte_val c) 16), (N.div_mod (byte_val c') 16) by done.
      congruence.
Qed.

Lemma path_escape_no_slash s : all_bytes (fun x => negb (Ascii.eqb x "/")) (path_escape s) = true.
Proof.
  assert (∀ d, (d < 16)%N → negb (Ascii.eqb (hex_char d) "/") = true) as Hhex.
  { intros d Hd. apply negb_true_iff, Ascii.eqb_neq. intros H. apply (f_equal N_of_ascii) in H. revert H.
    unfold hex_char. change (N_of_ascii "/") with 47%N.
    destruct (d <? 10)%N eqn:E; rewrite N_ascii_embedding by lia; lia. }
  induction s as [|c s IH]; [done|]. cbn [path_escape]. destruct (path_plain c) eqn:Hc; cbn [all_bytes]; rewrite IH.
  - rewrite andb_true_r. apply negb_true_iff, Ascii.eqb_neq. by intros ->.
  - assert (byte_val c < 256)%N as Hb by apply N_ascii_bounded.
    rewrite !Hhex; [done|by apply N.mod_lt|]. by apply N.Div0.div_lt_upper_bound.
Qed.

Lemma provider_ids p : p ∈ Providers → all_bytes (fun x => negb (Ascii.eqb x "/")) (prov_ID p) = true.
Proof. unfold Providers. rewrite !elem_of_cons, elem_of_nil. by intros [->|[->|[->|[->|[]]]]]. Qed.

(** The references of different tenants or providers differ. *)
Lemma Ref_inj t p t' p' : Ref t p = Ref t' p' → t = t' ∧ p = p'.
Proof.
  unfold Ref. intros H. apply (f_equal (strip_prefix "operator_config_ref:tenant_restriction/")) in H.
  assert (∀ r, strip_prefix "operator_config_ref:tenant_restriction/"
    ("operator_config_ref:tenant_restriction/" +:+ r) = Some r) as Hs by (intros r; by apply strip_prefix_spec).
  rewrite !Hs in H. injection H as H. change ("/" +:+ ?r) with (String "/" r) in H.
  apply separator_inj in H as [H ->]; [|apply path_escape_no_slash..]. split; [by apply path_escape_inj|done].
Qed.

(** No reference is that of a context value. *)
Lemma Ref_context t p t' p' : p ∈ Providers → Ref t (prov_ID p) ≠ Ref t' p' +:+ "/context".
Proof.
  intros Hp H. unfold Ref in H. rewrite <- !string_app_assoc in H.
  change ("operator_config_ref:tenant_restriction/" +:+ path_escape t' +:+ "/" +:+ p' +:+ "/context")
    with (Ref t' (p' +:+ "/context")) in H.
  change ("operator_config_ref:tenant_restriction/" +:+ path_escape t +:+ "/" +:+ prov_ID p)
    with (Ref t (prov_ID p)) in H.
  apply Ref_inj in H as [_ H]. apply provider_ids in Hp. rewrite H, all_bytes_app in Hp.
  by rewrite andb_false_r in Hp.
Qed.

Example one_domain :
  Validate "google_workspace" (mkSetting " Example.com , sub.example.com,example.com" "" true)
  = Ok (mkSetting "example.com,sub.example.com" "" true).
Proof. vm_compute. reflexivity. Qed.

Example escaped : path_escape "a/b c;é" = "a%2Fb%20c%3B%C3%A9".
Proof. vm_compute. reflexivity. Qed.

End TenantRestriction.
