(* ===== verification/Common.v ===== *)
(** * Helpers of the decision package ([src/decision/evaluator.go])

    Defaults, pointers to non-zero values, typed reads of a policy's metadata, and
    the normal form the package compares risk and state words in. *)

From Stdlib Require Import Ascii.
From stdpp Require Import base gmap list strings.
From S2P Require Import Prelude GoStd.

Open Scope Z_scope.

Definition valueOrDefault (value fallback : string) : string :=
  if is_empty value then fallback else value.

Definition stringPtr (value : string) : option string :=
  if is_empty value then None else Some value.

Definition intPtr (value : Z) : option Z := if value =? 0 then None else Some value.

Fixpoint firstNonEmpty (values : list string) : string :=
  match values with
  | [] => ""
  | v :: vs => if nonempty (trim_space v) then trim_space v else firstNonEmpty vs
  end.

Definition singleValue (value : string) : list string :=
  if is_empty value then [] else [value].

Definition trueValue (value : bool) : list string := if value then ["true"] else [].

Definition normalizedRiskValue (value : string) : string :=
  replace_byte " " "_" (replace_byte "-" "_" (to_lower (trim_space value))).

(** Comma-separated parts, trimmed, the blank ones dropped. *)
Definition splitCommaList (value : string) : list string :=
  List.filter nonempty (List.map trim_space (split_byte "," value)).

(** An integer that JSON, code or a form may have written as int, float or text. *)
Definition intMetadata (m : metadata) (key : string) (fallback : Z) : Z :=
  match m !! key with
  | Some (VInt n) => n
  | Some (VFloat t) =>
      match parse_float t with Some f => int_of_float f | None => fallback end
  | Some (VStr s) => default fallback (atoi s)
  | _ => fallback
  end.

Definition boolMetadataValue (m : metadata) (key : string) : bool :=
  match m !! key with
  | Some (VBool b) => b
  | Some (VStr s) => equal_fold (trim_space s) "true"
  | _ => false
  end.

Definition stringMetadataValue (m : metadata) (key : string) : string :=
  match m !! key with
  | None | Some VNil => ""
  | Some v => trim_space (sprint v)
  end.

Definition mapBool (value : bool) (whenTrue whenFalse : string) : string :=
  if value then whenTrue else whenFalse.

Definition stateOrMissing (value : string) : string :=
  if nonempty (trim_space value) then trim_space value else "missing".

(** [strings.ToLower(strings.TrimSpace(v))], the form of the state words. *)
Definition folded (v : string) : string := to_lower (trim_space v).

(** [strconv.Quote], for printable text and ASCII control bytes. *)
Definition dquote : string := String (ascii_of_N 34) "".
Definition quote_byte (c : ascii) : string :=
  let n := byte_val c in
  let esc (x : ascii) := String (ascii_of_N 92) (String x "") in
  if (n =? 34)%N || (n =? 92)%N then esc c
  else if (n =? 7)%N then esc "a"%char else if (n =? 8)%N then esc "b"%char
  else if (n =? 12)%N then esc "f"%char else if (n =? 10)%N then esc "n"%char
  else if (n =? 13)%N then esc "r"%char else if (n =? 9)%N then esc "t"%char
  else if (n =? 11)%N then esc "v"%char
  else if (n <? 32)%N || (n =? 127)%N then
    let hex (d : N) := ascii_of_N (if (d <? 10)%N then d + 48 else d + 87) in
    String (ascii_of_N 92) (String "x" (String (hex (n / 16)%N) (String (hex (n mod 16)%N) "")))
  else String c "".

Fixpoint quote_bytes (s : string) : string :=
  match s with
  | EmptyString => EmptyString
  | String c s' => quote_byte c +:+ quote_bytes s'
  end.
Definition quote (s : string) : string := dquote +:+ quote_bytes s +:+ dquote.

(** ** Facts *)

Lemma stringPtr_some (s v : string) : stringPtr s = Some v ↔ s = v ∧ v ≠ "".
Proof.
  unfold stringPtr. destruct (is_empty s) eqn:E.
  - apply is_empty_true in E as ->. naive_solver.
  - split; [|naive_solver]. intros [= ->]. split; [done|]. intros ->. done.
Qed.

Lemma firstNonEmpty_blank (v : string) vs :
  is_blank v = true → firstNonEmpty (v :: vs) = firstNonEmpty vs.
Proof. unfold is_blank, firstNonEmpty, nonempty. intros ->. done. Qed.

Lemma firstNonEmpty_head (v : string) vs :
  is_blank v = false → firstNonEmpty (v :: vs) = trim_space v.
Proof. unfold is_blank, firstNonEmpty, nonempty. intros ->. done. Qed.

#[export] Hint Rewrite firstNonEmpty_blank firstNonEmpty_head using done : go_rewrite.
