(* ===== verification/Conditions.v ===== *)
(** * The condition language ([src/decision/evaluator.go])

    What a request offers for a condition key ([fieldValues]), when an authored
    value matches it ([conditionMatches] and the two retries for host names and IP
    literals), and when a policy matches a request ([matchPolicy]). *)

From Stdlib Require Import Ascii.
From stdpp Require Import base gmap list strings.
From S2P Require Import Prelude GoStd GoNet Model Common.

Open Scope Z_scope.

(** ** What the request says *)

Definition authAgeSeconds (now : Z) (authTime : string) : string :=
  if is_empty authTime then "" else
  match parse_rfc3339 authTime with
  | None => ""
  | Some parsed => itoa (Z.max 0 (whole_seconds (time_sub now parsed)))
  end.

Definition destinationAddressScope (req : DecisionRequest) : string :=
  let candidate := trim_space (req_DestinationIP req) in
  let candidate :=
    if is_empty candidate then trim_space (req_Destination req) else candidate in
  match parse_addr (trim_set ["["; "]"]%char candidate) with
  | None => "public"
  | Some a =>
      if is_loopback a then "loopback"
      else if is_link_local_unicast a || is_link_local_multicast a then "link_local"
      else if is_private a then "private"
      else "public"
  end.

(** A user condition accepts the subject of a delegated request as well. *)
Definition userIDs (req : DecisionRequest) : list string :=
  when (nonempty (req_UserID req)) [req_UserID req] ++
  when (nonempty (req_SubjectUserID req)
        && negb (String.eqb (req_SubjectUserID req) (req_UserID req)))
    [req_SubjectUserID req].

Definition fieldValues (now : Z) (req : DecisionRequest) (actorType key : string)
    : list string :=
  switch key [
    (["actor_type"], singleValue actorType);
    (["actor_nhi_id"], singleValue (req_ActorNHIID req));
    (["nhi_risk_severity"], singleValue (req_NHIRiskSeverity req));
    (["transport_client_cert_verified"],
      singleValue (bool_text (req_TransportClientCertVerified req)));
    (["transport_device_identity"], singleValue (req_TransportDeviceIdentity req));
    (["delegated_access_grant_id"], singleValue (req_DelegatedAccessGrantID req));
    (["agent_task_session_id"], singleValue (req_AgentTaskSessionID req));
    (["tool_id"], singleValue (req_ToolID req));
    (["tool_action_type"], singleValue (req_ToolActionType req));
    (["tool_permission_profile"], singleValue (req_ToolPermissionProfile req));
    (["tool_version"], singleValue (req_ToolVersion req));
    (["tool_signature_state"], singleValue (req_ToolSignatureState req));
    (["mcp_server_id"], singleValue (req_MCPServerID req));
    (["mcp_resource_uri"], singleValue (req_MCPResourceURI req));
    (["mcp_audience"], singleValue (req_MCPAudience req));
    (["mcp_token_passthrough_policy"], singleValue (req_MCPTokenPassthroughPolicy req));
    (["runtime_environment_id"], singleValue (req_RuntimeEnvironmentID req));
    (["context_boundary_id"], singleValue (req_ContextBoundaryID req));
    (["data_classification"], singleValue (req_DataClassification req));
    (["tenant_id"], singleValue (req_TenantID req));
    (["session_id_present"], singleValue (bool_text (negb (is_blank (req_SessionID req)))));
    (["application_id"], singleValue (req_ApplicationID req));
    (["service_family"], singleValue (req_ServiceFamily req));
    (["fqdn"], singleValue (req_FQDN req));
    (["sni"], singleValue (req_SNI req));
    (["saas_application_id"], singleValue (req_SaaSApplicationID req));
    (["saas_name"], singleValue (req_SaaSName req));
    (["saas_provider"], singleValue (req_SaaSProvider req));
    (["saas_category"], singleValue (req_SaaSCategory req));
    (["saas_risk_tier"], singleValue (req_SaaSRiskTier req));
    (["saas_match_type"], singleValue (req_SaaSMatchType req));
    (["inspection_profile_id"], singleValue (req_InspectionProfileID req));
    (["inspection_mode"], singleValue (req_InspectionMode req));
    (["trust_profile_id"], singleValue (req_TrustProfileID req));
    (["tenant_root_ca_id"], singleValue (req_TenantRootCAID req));
    (["quic_policy_mode"], singleValue (req_QUICPolicyMode req));
    (["quic_policy_action"], singleValue (req_QUICPolicyAction req));
    (["protocol"], singleValue (req_Protocol req));
    (["steering_mode"], singleValue (req_SteeringMode req));
    (["destination_port"],
      if req_DestinationPort req =? 0 then [] else singleValue (itoa (req_DestinationPort req)));
    (["user_groups"], req_UserGroups req);
    (["user_id"], userIDs req);
    (["mfa_state"], singleValue (req_MFAState req));
    (["acr"], singleValue (req_ACR req));
    (["amr"], req_AMR req);
    (["idp_id"], singleValue (req_IDPID req));
    (["issuer"], singleValue (req_Issuer req));
    (["authentication_event_id"], singleValue (req_AuthenticationEventID req));
    (["auth_time"], singleValue (req_AuthTime req));
    (["auth_age_seconds"], singleValue (authAgeSeconds now (req_AuthTime req)));
    (["auth_method"], singleValue (req_AuthMethod req));
    (["source_ip"], singleValue (req_SourceIP req));
    (["device_id"], singleValue (req_DeviceID req));
    (["device_trust_level"], singleValue (req_DeviceTrustLevel req));
    (["source_role"], singleValue (req_SourceRole req));
    (["destination_role"], singleValue (req_DestinationRole req));
    (["connection_initiator"], singleValue (req_ConnectionInitiator req));
    (["source_server"], singleValue (req_SourceServer req));
    (["destination_address_scope"], singleValue (destinationAddressScope req));
    (["token_binding_state"], singleValue (req_TokenBindingState req));
    (["workload_attestation_state"], singleValue (req_WorkloadAttestationState req));
    (["human_approval_event_id"], singleValue (req_HumanApprovalEventID req));
    (["human_approval_event_trust_state"],
      singleValue (req_HumanApprovalEventTrustState req));
    (["human_approval_event_binding_state"],
      singleValue (req_HumanApprovalEventBindingState req));
    (["human_approval_event_freshness_state"],
      singleValue (req_HumanApprovalEventFreshnessState req));
    (["risk_state_id"], singleValue (req_RiskStateID req));
    (["risk_state_severity"], singleValue (req_RiskStateSeverity req));
    (["risk_recommended_action"], singleValue (req_RiskRecommendedAction req));
    (["risk_signal_sources"], req_RiskSignalSources req);
    (["admin_high_risk"], trueValue (req_AdminHighRisk req));
    (["idp_risk_level"], singleValue (req_IDPRiskLevel req));
    (["agent_tamper_signal"], trueValue (req_AgentTamperSignal req));
    (["authentication_anomaly"], trueValue (req_AuthenticationAnomaly req))
  ] [].

(** ** What an authored value accepts *)

Definition anyActualEquals (actual : list string) (expected : string) : bool :=
  existsb (fun v => String.eqb v expected) actual.

Definition anyActualInExpectedValues (actual : list string) (expectedValues : any) : bool :=
  match expectedValues with
  | VList values => existsb (containsString (List.map sprint values)) actual
  | _ => false
  end.

Definition anyActualNumberCompare (actual : list string) (expectedValue : any)
    (compare : float64 → float64 → bool) : bool :=
  match parse_float (sprint expectedValue) with
  | None => false
  | Some expected =>
      existsb (fun v => match parse_float v with
                        | Some x => compare x expected
                        | None => false
                        end) actual
  end.

Definition conditionValues (value : any) : list string :=
  match value with
  | VList l => List.map sprint l
  | VStrs l => l
  | VNil => []
  | v => [sprint v]
  end.

(** Containment does not look at the host bits, so [Masked] changes nothing. *)
Definition anyActualCIDRContains (actual : list string) (expectedValue : any) : bool :=
  let prefixes := conditionValues expectedValue in
  existsb (fun v =>
    match parse_addr v with
    | None => false
    | Some a =>
        existsb (fun p => match parse_prefix p with
                          | Some pf => prefix_contains pf a || prefix_contains pf (unmap a)
                          | None => false
                          end) prefixes
    end) actual.

Definition conditionMatches (actual : list string) (expected : any) : bool :=
  match actual with
  | [] => false
  | _ =>
      match expected with
      | VMap m =>
          let value := map_get m "value" in
          let values := map_get m "values" in
          switch (sprint (map_get m "op")) [
            (["eq"; "equals"], anyActualEquals actual (sprint value));
            (["in"], anyActualInExpectedValues actual values);
            (["contains"], anyActualEquals actual (sprint value));
            (["lte"], anyActualNumberCompare actual value float_le);
            (["gte"], anyActualNumberCompare actual value (fun a e => float_le e a));
            (["cidr_contains"],
              anyActualCIDRContains actual value || anyActualCIDRContains actual values)
          ] false
      | VList _ => anyActualInExpectedValues actual expected
      | _ => anyActualEquals actual (sprint expected)
      end
  end.

Definition isHostnameConditionKey (key : string) : bool :=
  String.eqb key "fqdn" || String.eqb key "sni".

Definition hostMatchesPattern (host pattern : string) : bool :=
  let host := trim_space (to_lower host) in
  let pattern := trim_space (to_lower pattern) in
  if is_empty host || is_empty pattern then false
  else if has_prefix pattern "*." then
    let suffix := trim_prefix pattern "*." in
    if is_empty suffix || String.eqb host suffix then false
    else has_suffix host ("." +:+ suffix)
  else String.eqb host pattern.

(** The host names an authored value spells: [None] for an operator that names none. *)
Definition hostnamePatterns (expected : any) : option (list string) :=
  match expected with
  | VMap m =>
      switch (sprint (map_get m "op")) [
        (["eq"; "equals"; "contains"], Some [sprint (map_get m "value")]);
        (["in"], Some (match map_get m "values" with
                       | VList vs => List.map sprint vs
                       | _ => []
                       end))
      ] None
  | VList vs => Some (List.map sprint vs)
  | v => Some [sprint v]
  end.

Definition hostnameConditionMatches (actual : list string) (expected : any) : bool :=
  match hostnamePatterns expected with
  | None => false
  | Some patterns => existsb (fun host => existsb (hostMatchesPattern host) patterns) actual
  end.

(** A rule that names an address, tried against a request that dialled one. *)
Definition ipLiteralConditionMatchesDestination (destination : string) (expected : any) : bool :=
  let dst := trim_space destination in
  match parse_addr dst with
  | None => false
  | Some a =>
      conditionMatches [dst; addr_text (unmap a)] expected
      || anyActualCIDRContains [dst] expected
  end.

(** ** Messages for the rule that does not fire *)

Definition firstUnmetConditionMarker : string := String (ascii_of_N 0) "unmet:".

Definition conditionExpectedForMessage (expected : any) : string :=
  match expected with
  | VStr s => quote s
  | VList l => "one of [" +:+ join ", " (List.map sprint l) +:+ "]"
  | v => sprint v
  end.

Definition conditionActualForMessage (actual : list string) : string :=
  match actual with
  | [] => "no value for it"
  | [v] => if is_blank v then "an empty value" else quote v
  | vs => "[" +:+ join ", " vs +:+ "]"
  end.

Definition unmetConditionFrom (names : list string) : option string :=
  match names with
  | [n] => strip_prefix firstUnmetConditionMarker n
  | _ => None
  end.

(** ** A policy against a request *)

Definition sortedConditionKeys (conditions : metadata) : list string :=
  sort_strings (map_to_list conditions).*1.

Definition conditionHolds (now : Z) (req : DecisionRequest) (actorType key : string)
    (expected : any) : bool :=
  let actual := fieldValues now req actorType key in
  conditionMatches actual expected
  || isHostnameConditionKey key
     && (hostnameConditionMatches actual expected
         || ipLiteralConditionMatchesDestination (req_Destination req) expected).

Definition unmetMessage (now : Z) (req : DecisionRequest) (actorType key : string)
    (expected : any) : string :=
  firstUnmetConditionMarker +:+ key +:+ "=" +:+ conditionExpectedForMessage expected +:+
  " (this request has " +:+ conditionActualForMessage (fieldValues now req actorType key)
  +:+ ")".

Fixpoint matchConditions (now : Z) (req : DecisionRequest) (actorType : string)
    (conditions : metadata) (keys matched : list string) : bool * list string :=
  match keys with
  | [] => (true, matched)
  | key :: keys' =>
      let expected := default VNil (conditions !! key) in
      if conditionHolds now req actorType key expected
      then matchConditions now req actorType conditions keys' (matched ++ [key])
      else (false, [unmetMessage now req actorType key expected])
  end.

(** The tenant half of [matchPolicy]: a blank tenant on either side is global. *)
Definition policyTenantAppliesTo (policy : Policy) (req : DecisionRequest) : bool :=
  let pt := trim_space (pol_TenantID policy) in
  let rt := trim_space (req_TenantID req) in
  is_empty pt || is_empty rt || String.eqb pt rt.

Definition matchPolicy (now : Z) (policy : Policy) (req : DecisionRequest)
    (actorType : string) : bool * list string :=
  if negb (String.eqb (pol_Status policy) "active") then (false, [])
  else if negb (policyTenantAppliesTo policy req) then (false, [])
  else matchConditions now req actorType (pol_Conditions policy)
         (sortedConditionKeys (pol_Conditions policy)) [].

(** * Properties *)

Lemma sortedConditionKeys_perm m : sortedConditionKeys m ≡ₚ (map_to_list m).*1.
Proof. apply sort_stable_perm. Qed.

Lemma elem_of_sortedConditionKeys m k : k ∈ sortedConditionKeys m ↔ is_Some (m !! k).
Proof.
  rewrite sortedConditionKeys_perm, list_elem_of_fmap. split.
  - intros ([k' v] & -> & Hin). apply elem_of_map_to_list in Hin. eauto.
  - intros [v Hv]. exists (k, v). by rewrite elem_of_map_to_list.
Qed.

Lemma matchConditions_true now req actorType m keys matched :
  (matchConditions now req actorType m keys matched).1 = true ↔
  ∀ k, k ∈ keys → conditionHolds now req actorType k (default VNil (m !! k)) = true.
Proof.
  revert matched. induction keys as [|k keys IH]; intros matched; cbn; [set_solver|].
  destruct (conditionHolds _ _ _ k _) eqn:E; cbn.
  - rewrite IH. setoid_rewrite elem_of_cons. naive_solver.
  - split; [done|]. intros H. rewrite <- E. apply H. left.
Qed.

Lemma matchConditions_names now req actorType m keys matched :
  (matchConditions now req actorType m keys matched).1 = true →
  (matchConditions now req actorType m keys matched).2 = matched ++ keys.
Proof.
  revert matched. induction keys as [|k keys IH]; intros matched; cbn.
  - by rewrite app_nil_r.
  - destruct (conditionHolds _ _ _ k _); [|done].
    intros H. rewrite IH by done. by rewrite <- app_assoc.
Qed.

(** A matched policy reports its condition keys, in order. *)
Lemma matchPolicy_names now p req actorType :
  (matchPolicy now p req actorType).1 = true →
  (matchPolicy now p req actorType).2 = sortedConditionKeys (pol_Conditions p).
Proof.
  unfold matchPolicy. repeat case_match; [done..|]. apply matchConditions_names.
Qed.

(** When a policy matches, in terms of its conditions as a map: the order in which
    the keys are visited does not matter. *)
Lemma matchPolicy_iff now p req actorType :
  (matchPolicy now p req actorType).1 = true ↔
  pol_Status p = "active" ∧ policyTenantAppliesTo p req = true ∧
  map_Forall (fun k v => conditionHolds now req actorType k v = true) (pol_Conditions p).
Proof.
  unfold matchPolicy. destruct (String.eqb_spec (pol_Status p) "active") as [Hs|Hs]; cbn.
  2: naive_solver.
  destruct (policyTenantAppliesTo p req) eqn:Ht; cbn; [|naive_solver].
  rewrite matchConditions_true. setoid_rewrite elem_of_sortedConditionKeys.
  split.
  - intros H. split_and!; [done..|]. intros k v Hv.
    specialize (H k). rewrite Hv in H. apply H. eauto.
  - intros (_ & _ & H) k [v Hv]. rewrite Hv. by apply H.
Qed.

Lemma policyTenantAppliesTo_spec p req :
  policyTenantAppliesTo p req = true ↔
  trim_space (pol_TenantID p) = "" ∨ trim_space (req_TenantID req) = ""
  ∨ trim_space (pol_TenantID p) = trim_space (req_TenantID req).
Proof.
  unfold policyTenantAppliesTo. rewrite !orb_true_iff, !is_empty_true, String.eqb_eq. tauto.
Qed.

Lemma conditionMatches_nil expected : conditionMatches [] expected = false.
Proof. done. Qed.

#[export] Hint Rewrite conditionMatches_nil : go_rewrite.

(** ** What authors may rely on *)

(** A fact the request does not carry grants nothing.  A policy with a
    condition on a key for which the request has no value does not match, whatever the
    operator and the expected value; only the two host name keys have another source,
    the dialled destination. *)
Theorem missing_fact_never_matches (now : Z) (p : Policy) (req : DecisionRequest)
    (actorType key : string) (expected : any) :
  pol_Conditions p !! key = Some expected → fieldValues now req actorType key = [] →
  isHostnameConditionKey key = false →
  (matchPolicy now p req actorType).1 = false.
Proof.
  intros Hk Hf Hh. apply not_true_is_false. rewrite matchPolicy_iff. intros (_ & _ & Hall).
  specialize (Hall key expected Hk). cbn beta in Hall. unfold conditionHolds in Hall.
  by rewrite Hf, Hh, conditionMatches_nil in Hall.
Qed.

Definition groupPolicy : Policy :=
  zero_Policy <| pol_Status := "active" |>
              <| pol_Conditions := {[ "user_groups" := VStr "admins" ]} |>.

Lemma missing_fact_never_matches_witness :
  pol_Conditions groupPolicy !! "user_groups" = Some (VStr "admins") ∧
  (matchPolicy 0 groupPolicy zero_DecisionRequest "human_user").1 = false.
Proof.
  split; [reflexivity|].
  exact (missing_fact_never_matches 0 groupPolicy zero_DecisionRequest "human_user"
    "user_groups" (VStr "admins") eq_refl eq_refl eq_refl).
Defined.

(** Host name patterns respect label boundaries.  A plain pattern accepts
    the host equal to it, case and surrounding space aside; a pattern [*.suffix] accepts
    exactly the hosts that end in a dot and the suffix - never the suffix itself and
    never a host that merely ends with the same letters. *)
Theorem hostname_pattern_spec (host pattern : string) :
  let h := trim_space (to_lower host) in
  let p := trim_space (to_lower pattern) in
  hostMatchesPattern host pattern = true ↔
  h ≠ "" ∧ p ≠ "" ∧
  match strip_prefix "*." p with
  | Some suffix => suffix ≠ "" ∧ ∃ sub, h = sub +:+ "." +:+ suffix
  | None => h = p
  end.
Proof.
  intros h p. unfold hostMatchesPattern. fold h p.
  destruct (is_empty h) eqn:Eh; cbn [orb].
  { apply is_empty_true in Eh. split; [discriminate|by intros []]. }
  destruct (is_empty p) eqn:Ep.
  { apply is_empty_true in Ep. split; [discriminate|by intros (_ & [] & _)]. }
  assert (h ≠ "") by (intros E; rewrite E in Eh; discriminate).
  assert (p ≠ "") by (intros E; rewrite E in Ep; discriminate).
  unfold has_prefix, trim_prefix. destruct (strip_prefix "*." p) as [suf|] eqn:Es.
  - rewrite bool_decide_true by eauto. cbn [default from_option id].
    destruct (is_empty suf) eqn:Esuf; cbn [orb].
    { apply is_empty_true in Esuf. split; [discriminate|by intros (_ & _ & [] & _)]. }
    assert (suf ≠ "") by (intros E; rewrite E in Esuf; discriminate).
    destruct (String.eqb_spec h suf) as [->|Hne].
    + split; [discriminate|]. intros (_ & _ & _ & sub & Hs).
      apply (f_equal String.length) in Hs. rewrite !string_length_app in Hs. cbn in Hs. lia.
    + rewrite has_suffix_spec. tauto.
  - rewrite bool_decide_false by (intros []; discriminate). rewrite String.eqb_eq. tauto.
Qed.

(** A rule about an IPv4 address cannot be dodged by dialling its
    IPv4-mapped IPv6 spelling: an address or a prefix authored under a host name key
    covers the mapped form of every IPv4 address it covers. *)
Theorem ip_rule_covers_mapped (now : Z) (req : DecisionRequest) (actorType key rule : string)
    (b : Z) :
  isHostnameConditionKey key = true → 0 <= b < 2 ^ 32 →
  parse_addr (trim_space (req_Destination req)) = Some (mapped b) →
  rule = addr_text (A4 b) ∨ (∃ pf, parse_prefix rule = Some pf ∧ prefix_contains pf (A4 b) = true) →
  conditionHolds now req actorType key (VStr rule) = true.
Proof.
  intros Hk Hb Hd Hrule. unfold conditionHolds. rewrite Hk. cbn [andb].
  apply orb_true_iff. right. apply orb_true_iff. right.
  unfold ipLiteralConditionMatchesDestination. rewrite Hd, unmap_mapped by done.
  apply orb_true_iff. destruct Hrule as [->|(pf & Hpf & Hin)]; [left|right].
  - unfold conditionMatches, anyActualEquals. cbn [sprint existsb]. rewrite String.eqb_refl.
    by rewrite orb_true_r.
  - unfold anyActualCIDRContains. cbn [conditionValues sprint existsb].
    rewrite Hd, unmap_mapped by done. cbn [existsb]. by rewrite Hpf, Hin, orb_true_r.
Qed.

Lemma ip_rule_covers_mapped_witness :
  conditionHolds 0 (zero_DecisionRequest <| req_Destination := "::ffff:10.0.0.1" |>)
    "human_user" "fqdn" (VStr "10.0.0.0/8") = true.
Proof.
  apply (ip_rule_covers_mapped 0 (zero_DecisionRequest <| req_Destination := "::ffff:10.0.0.1" |>)
    "human_user" "fqdn" "10.0.0.0/8" 167772161);
    [reflexivity|lia|reflexivity|].
  right. eexists. split; [vm_compute; reflexivity|vm_compute; reflexivity].
Defined.
