(* ===== verification/PolicyOrder.v ===== *)
(** * Precedence between policies ([src/decision/evaluator.go])

    The order in which policies are tried, the first one that matches, and the
    diagnosis offered when none does. *)

From stdpp Require Import base gmap list strings sorting.
From S2P Require Import Prelude GoStd Model Common Conditions.

Open Scope Z_scope.

Definition policyDecisionRestrictivenessRank (decision : string) : Z :=
  switch decision [
    (["deny"], 0);
    (["require_reauthentication"; "require_step_up_mfa"; "require_interactive_mfa";
      "authenticate_required"], 1)
  ] 2.

Definition pol_rank (p : Policy) : Z :=
  policyDecisionRestrictivenessRank (pact_Decision (pol_Action p)).

(** The comparator of [orderedPolicies]. *)
Definition policyLess : Policy → Policy → bool :=
  lex_Z pol_Priority (lex_Z pol_rank (lex_string_lt pol_ID)).

Definition orderedPolicies (policies : list Policy) : list Policy :=
  sort_stable policyLess policies.

Definition diagnosisFor (now : Z) (policy : Policy) (req : DecisionRequest)
    (names : list string) : string :=
  if String.eqb (pol_Status policy) "active" && policyTenantAppliesTo policy req then
    match unmetConditionFrom names with
    | Some unmet =>
        "the closest rule is " +:+ quote (pol_ID policy) +:+ ", and it requires " +:+ unmet
    | None => ""
    end
  else "".

(** The first match with its condition names, or the diagnosis of the first
    near miss. *)
Fixpoint firstMatchedFrom (now : Z) (req : DecisionRequest) (actorType diagnosis : string)
    (policies : list Policy) : option (Policy * list string) * string :=
  match policies with
  | [] => (None, diagnosis)
  | policy :: rest =>
      let '(matches, names) := matchPolicy now policy req actorType in
      if matches then (Some (policy, names), "")
      else firstMatchedFrom now req actorType
             (if is_empty diagnosis then diagnosisFor now policy req names else diagnosis)
             rest
  end.

Definition firstMatchedPolicyWithDiagnosis (now : Z) (policies : list Policy)
    (req : DecisionRequest) (actorType : string) : option (Policy * list string) * string :=
  firstMatchedFrom now req actorType "" (orderedPolicies policies).

Definition firstMatchedPolicy (now : Z) (policies : list Policy) (req : DecisionRequest)
    (actorType : string) : option (Policy * list string) :=
  (firstMatchedPolicyWithDiagnosis now policies req actorType).1.

Definition firstPolicyTenantID (policies : list Policy) : string :=
  match List.find (fun p => nonempty (pol_TenantID p)) (orderedPolicies policies) with
  | Some p => pol_TenantID p
  | None => ""
  end.

(** * Properties *)

#[export] Instance policyLess_weak : WeakOrder policyLess := _.

Definition matches_b (now : Z) (req : DecisionRequest) (actorType : string) (p : Policy) : bool :=
  (matchPolicy now p req actorType).1.

Lemma firstMatchedFrom_find now req actorType diagnosis l :
  fst <$> (firstMatchedFrom now req actorType diagnosis l).1
  = List.find (matches_b now req actorType) l.
Proof.
  revert diagnosis. induction l as [|p l IH]; intros diagnosis; [done|]. cbn.
  unfold matches_b at 1. destruct (matchPolicy now p req actorType) as [[] names]; cbn;
    [done|apply IH].
Qed.

Lemma firstMatchedFrom_names now req actorType diagnosis l p names :
  (firstMatchedFrom now req actorType diagnosis l).1 = Some (p, names) →
  names = sortedConditionKeys (pol_Conditions p).
Proof.
  revert diagnosis. induction l as [|q l IH]; intros diagnosis; [done|]. cbn.
  pose proof (matchPolicy_names now q req actorType) as Hn.
  destruct (matchPolicy now q req actorType) as [[] names']; cbn in *; [|apply IH].
  intros [= -> ->]. by apply Hn.
Qed.

(** The winner, read off the policy set: the first of the most urgent matches. *)
Lemma firstMatchedPolicy_first_min now policies req actorType p :
  fst <$> firstMatchedPolicy now policies req actorType = Some p ↔
  first_min policyLess (matches_b now req actorType) policies p.
Proof.
  unfold firstMatchedPolicy, firstMatchedPolicyWithDiagnosis.
  rewrite firstMatchedFrom_find. apply find_sort_stable_first, _.
Qed.

(** The same in terms of the whole set. *)
Lemma firstMatchedPolicy_spec now policies req actorType p names :
  firstMatchedPolicy now policies req actorType = Some (p, names) →
  p ∈ policies ∧ matches_b now req actorType p = true ∧
  names = sortedConditionKeys (pol_Conditions p) ∧
  ∀ q, q ∈ policies → matches_b now req actorType q = true → policyLess q p = false.
Proof.
  intros H. unfold firstMatchedPolicy, firstMatchedPolicyWithDiagnosis in H.
  pose proof (firstMatchedFrom_names _ _ _ _ _ _ _ H) as Hn.
  apply (f_equal (fmap fst)) in H. rewrite firstMatchedFrom_find in H.
  apply find_sort_stable in H; [|apply _]. naive_solver.
Qed.

Lemma firstMatchedPolicy_none now policies req actorType :
  firstMatchedPolicy now policies req actorType = None ↔
  ∀ q, q ∈ policies → matches_b now req actorType q = false.
Proof.
  unfold firstMatchedPolicy, firstMatchedPolicyWithDiagnosis.
  rewrite <- (fmap_None fst), firstMatchedFrom_find.
  apply find_sort_stable_none, _.
Qed.

Lemma policyLess_priority p q : policyLess q p = false → pol_Priority p ≤ pol_Priority q.
Proof.
  unfold policyLess, lex_Z at 1. destruct (Z.eqb_spec (pol_Priority q) (pol_Priority p)); [lia|].
  intros ?%Z.ltb_ge. lia.
Qed.

Lemma policyLess_rank p q :
  policyLess q p = false → pol_Priority q = pol_Priority p → pol_rank p ≤ pol_rank q.
Proof.
  unfold policyLess, lex_Z. intros H Hp. rewrite Hp, Z.eqb_refl in H.
  destruct (Z.eqb_spec (pol_rank q) (pol_rank p)); [lia|]. apply Z.ltb_ge in H. lia.
Qed.

(** A policy of another tenant is passed over without a trace. *)
Lemma firstMatchedFrom_applicable now req actorType diagnosis l :
  firstMatchedFrom now req actorType diagnosis l =
  firstMatchedFrom now req actorType diagnosis
    (List.filter (fun p => policyTenantAppliesTo p req) l).
Proof.
  revert diagnosis. induction l as [|p l IH]; intros diagnosis; [done|]. cbn [List.filter].
  destruct (policyTenantAppliesTo p req) eqn:Ht; cbn [firstMatchedFrom].
  - destruct (matchPolicy now p req actorType) as [[] names]; [done|apply IH].
  - unfold matchPolicy. rewrite Ht. destruct (String.eqb (pol_Status p) "active") eqn:Hs;
      cbn [negb]; unfold diagnosisFor; rewrite Hs, Ht; cbn [andb];
      (replace (if is_empty diagnosis then "" else diagnosis) with diagnosis; [apply IH|]);
      destruct (is_empty diagnosis) eqn:E; try done; by apply is_empty_true in E.
Qed.

Lemma orderedPolicies_filter f l :
  List.filter f (orderedPolicies l) = orderedPolicies (List.filter f l).
Proof. apply filter_sort_stable, _. Qed.

(** ** The order as a specification *)

Lemma policyLess_antisym p q :
  policyLess p q = false → policyLess q p = false → pol_ID p = pol_ID q.
Proof.
  unfold policyLess, lex_Z, lex_string_lt.
  destruct (Z.eqb_spec (pol_Priority p) (pol_Priority q)),
    (Z.eqb_spec (pol_Priority q) (pol_Priority p)),
    (Z.eqb_spec (pol_rank p) (pol_rank q)), (Z.eqb_spec (pol_rank q) (pol_rank p));
    rewrite ?Z.ltb_ge; try lia.
  rewrite !string_ltb_leb, !negb_false_iff. intros H1 H2. by apply String.leb_antisym.
Qed.

Lemma policyLess_id p q :
  policyLess q p = false → pol_Priority q = pol_Priority p → pol_rank q = pol_rank p →
  String.leb (pol_ID p) (pol_ID q) = true.
Proof.
  unfold policyLess, lex_Z, lex_string_lt. intros H Hp Hr. rewrite Hp, Hr, !Z.eqb_refl in H.
  by rewrite string_ltb_leb, negb_false_iff in H.
Qed.

(** Which rule decides.  The policy chosen for a request is one of the
    set that matches, reported with its condition keys; every other matching policy has
    a larger priority number, or the same number and a decision no more restrictive -
    deny before the step-up decisions before the rest - or the same of both and an
    identifier no smaller. *)
Theorem precedence_spec (now : Z) (policies : list Policy) (req : DecisionRequest)
    (actorType : string) (p : Policy) (names : list string) :
  firstMatchedPolicy now policies req actorType = Some (p, names) →
  p ∈ policies ∧ (matchPolicy now p req actorType).1 = true ∧
  names = sortedConditionKeys (pol_Conditions p) ∧
  ∀ q, q ∈ policies → (matchPolicy now q req actorType).1 = true →
    pol_Priority p < pol_Priority q ∨
    (pol_Priority p = pol_Priority q ∧
     (pol_rank p < pol_rank q ∨
      (pol_rank p = pol_rank q ∧ String.leb (pol_ID p) (pol_ID q) = true))).
Proof.
  intros H. destruct (firstMatchedPolicy_spec _ _ _ _ _ _ H) as (H1 & H2 & H3 & H4).
  split_and!; [done..|]. intros q Hq Hm. specialize (H4 q Hq Hm).
  pose proof (policyLess_priority p q H4) as Hp.
  destruct (decide (pol_Priority q = pol_Priority p)) as [Ep|]; [right|left; lia].
  split; [done|]. pose proof (policyLess_rank p q H4 Ep).
  destruct (decide (pol_rank q = pol_rank p)) as [Er|]; [right|left; lia].
  split; [done|]. by apply policyLess_id.
Qed.

Definition allowAll : Policy :=
  zero_Policy <| pol_ID := "a-allow" |> <| pol_Status := "active" |> <| pol_Priority := 10 |>
    <| pol_Action := zero_PolicyAction <| pact_Decision := "allow" |> |>.
Definition denyAll : Policy :=
  zero_Policy <| pol_ID := "z-deny" |> <| pol_Status := "active" |> <| pol_Priority := 10 |>
    <| pol_Action := zero_PolicyAction <| pact_Decision := "deny" |> |>.

Lemma precedence_spec_witness :
  firstMatchedPolicy 0 [allowAll; denyAll] zero_DecisionRequest "human_user" = Some (denyAll, []) ∧
  denyAll ∈ [allowAll; denyAll].
Proof.
  assert (firstMatchedPolicy 0 [allowAll; denyAll] zero_DecisionRequest "human_user"
          = Some (denyAll, [])) as H by (vm_compute; reflexivity).
  split; [exact H|]. exact (proj1 (precedence_spec _ _ _ _ _ _ H)).
Defined.

(** The order the policies are listed in is irrelevant when their
    identifiers are distinct: two listings of the same set are evaluated in one order,
    so they choose the same policy and give the same diagnosis. *)
Theorem policy_order_canonical (policies policies' : list Policy) (now : Z)
    (req : DecisionRequest) (actorType : string) :
  policies ≡ₚ policies' → NoDup (pol_ID <$> policies) →
  orderedPolicies policies = orderedPolicies policies' ∧
  firstMatchedPolicyWithDiagnosis now policies req actorType
  = firstMatchedPolicyWithDiagnosis now policies' req actorType.
Proof.
  intros Hp Hnd. assert (orderedPolicies policies = orderedPolicies policies') as Heq.
  { eapply (StronglySorted_unique_strong (fun a b => policyLess b a = false)).
    - unfold orderedPolicies. intros p q Hin Hin' H1 H2.
      rewrite sort_stable_perm in Hin. rewrite sort_stable_perm, <- Hp in Hin'.
      pose proof (policyLess_antisym q p H1 H2) as Hid.
      apply list_elem_of_lookup in Hin as [i Hi]. apply list_elem_of_lookup in Hin' as [j Hj].
      assert (i = j) as ->; [|congruence].
      eapply NoDup_lookup; [exact Hnd| |]; rewrite list_lookup_fmap; [by rewrite Hi|].
      rewrite Hj. cbn. by rewrite Hid.
    - apply sort_stable_sorted, _.
    - apply sort_stable_sorted, _.
    - unfold orderedPolicies. by rewrite !sort_stable_perm. }
  split; [done|]. unfold firstMatchedPolicyWithDiagnosis. by rewrite Heq.
Qed.

Lemma policy_order_canonical_witness :
  [allowAll; denyAll] ≡ₚ [denyAll; allowAll] ∧
  orderedPolicies [allowAll; denyAll] = orderedPolicies [denyAll; allowAll].
Proof.
  assert ([allowAll; denyAll] ≡ₚ [denyAll; allowAll]) as Hp by apply Permutation_swap.
  split; [exact Hp|].
  refine (proj1 (policy_order_canonical _ _ 0 zero_DecisionRequest "human_user" Hp _)).
  apply NoDup_cons. split; [|apply NoDup_singleton].
  intros H. apply list_elem_of_singleton in H. discriminate H.
Defined.
