(* ===== verification/SaaSCatalog.v ===== *)
(** * The SaaS catalog ([src/decision/saas_catalog.go])

    Which catalog entry a request falls under.  The classification a client sends
    is erased first, so only the bundle's catalog decides it. *)

From Stdlib Require Import Ascii.
From stdpp Require Import base gmap list strings.
From S2P Require Import Prelude GoStd GoNet Model Common.

Open Scope Z_scope.

Definition clearDecisionRequestSaaSContext (req : DecisionRequest) : DecisionRequest :=
  req <| req_SaaSApplicationID := "" |> <| req_SaaSName := "" |>
      <| req_SaaSProvider := "" |> <| req_SaaSCategory := "" |>
      <| req_SaaSRiskTier := "" |> <| req_SaaSMatchedDomain := "" |>
      <| req_SaaSMatchedPattern := "" |> <| req_SaaSMatchType := "" |>.

Definition normalizeSaaSDomain (value : string) : string :=
  let value := trim_space (to_lower value) in
  if is_empty value then "" else
  let value :=
    match cut "://" value with
    | Some (_, rest) => match cut "/" rest with Some (host, _) => host | None => rest end
    | None => value
    end in
  let value := match split_host_port value with Some (host, _) => host | None => value end in
  trim_space (trim_suffix value ".").

(** The normalized pattern and how it matched. *)
Definition saasDomainPatternMatches (domain pattern : string) : option (string * string) :=
  let domain := normalizeSaaSDomain domain in
  let pattern := normalizeSaaSDomain pattern in
  if is_empty domain || is_empty pattern || String.eqb pattern "*" then None
  else if has_prefix pattern "*." then
    let suffix := trim_prefix pattern "*." in
    if is_empty suffix || String.eqb domain suffix then None
    else if has_suffix domain ("." +:+ suffix) then Some (pattern, "wildcard")
    else None
  else if String.eqb domain pattern then Some (pattern, "exact")
  else None.

Record saasCatalogCandidate := { cand_Source : string; cand_Value : string }.

Definition containsSaaSCatalogCandidate (l : list saasCatalogCandidate) (value source : string)
    : bool :=
  existsb (fun c => String.eqb (cand_Value c) value && String.eqb (cand_Source c) source) l.

Definition saasCatalogCandidates (req : DecisionRequest) : list saasCatalogCandidate :=
  foldl (fun acc c =>
           if is_empty (cand_Value c) then acc
           else if containsSaaSCatalogCandidate acc (cand_Value c) (cand_Source c) then acc
           else acc ++ [c])
    []
    [ {| cand_Source := "fqdn"; cand_Value := normalizeSaaSDomain (req_FQDN req) |};
      {| cand_Source := "sni"; cand_Value := normalizeSaaSDomain (req_SNI req) |};
      {| cand_Source := "destination"; cand_Value := normalizeSaaSDomain (req_Destination req) |} ].

Definition saasCatalogEntryInTenantScope (bundle : PolicyBundle) (entry : SaaSCatalogEntry)
    : bool :=
  let entryTenantID := trim_space (saas_TenantID entry) in
  is_empty entryTenantID || is_blank (bun_TenantID bundle)
  || String.eqb entryTenantID (trim_space (bun_TenantID bundle)).

Fixpoint first_some {A B} (f : A → option B) (l : list A) : option B :=
  match l with
  | [] => None
  | a :: l' => match f a with Some b => Some b | None => first_some f l' end
  end.

Definition matchSaaSCatalogPatterns (domain source : string) (entry : SaaSCatalogEntry)
    : option (string * string) :=
  if is_blank (saas_SaaSApplicationID entry) then None else
  let try (prefix : string) (pattern : string) :=
    match saasDomainPatternMatches domain pattern with
    | Some (normalized, kind) => Some (normalized, prefix +:+ "_" +:+ kind)
    | None => None
    end in
  match first_some (try source) (saas_DomainPatterns entry) with
  | Some r => Some r
  | None =>
      if negb (String.eqb source "sni") then None
      else first_some (try "sni") (saas_SNIPatterns entry)
  end.

Definition contextOfEntry (entry : SaaSCatalogEntry) (candidates : list saasCatalogCandidate)
    : option SaaSContext :=
  first_some (fun c =>
    match matchSaaSCatalogPatterns (cand_Value c) (cand_Source c) entry with
    | Some (pattern, matchType) =>
        Some {| sctx_SaaSApplicationID := trim_space (saas_SaaSApplicationID entry);
                sctx_Name := trim_space (saas_Name entry);
                sctx_Provider := trim_space (saas_Provider entry);
                sctx_Category := trim_space (saas_Category entry);
                sctx_RiskTier := trim_space (saas_RiskTier entry);
                sctx_MatchedDomain := cand_Value c;
                sctx_MatchedPattern := pattern;
                sctx_MatchType := matchType |}
    | None => None
    end) candidates.

Definition SaaSContextForRequest (bundle : PolicyBundle) (req : DecisionRequest)
    : option SaaSContext :=
  let bundle := if is_blank (req_TenantID req) then bundle
                else bundle <| bun_TenantID := req_TenantID req |> in
  let candidates := saasCatalogCandidates req in
  match candidates with
  | [] => None
  | _ =>
      first_some (fun entry =>
        if saasCatalogEntryInTenantScope bundle entry then contextOfEntry entry candidates
        else None) (bun_SaaSCatalog bundle)
  end.

Definition decisionRequestWithSaaSContext (bundle : PolicyBundle) (req : DecisionRequest)
    : DecisionRequest :=
  let req := clearDecisionRequestSaaSContext req in
  match SaaSContextForRequest bundle req with
  | None => req
  | Some ctx =>
      req <| req_SaaSApplicationID := sctx_SaaSApplicationID ctx |>
          <| req_SaaSName := sctx_Name ctx |>
          <| req_SaaSProvider := sctx_Provider ctx |>
          <| req_SaaSCategory := sctx_Category ctx |>
          <| req_SaaSRiskTier := sctx_RiskTier ctx |>
          <| req_SaaSMatchedDomain := sctx_MatchedDomain ctx |>
          <| req_SaaSMatchedPattern := sctx_MatchedPattern ctx |>
          <| req_SaaSMatchType := sctx_MatchType ctx |>
  end.

Definition saasContextFromRequest (req : DecisionRequest) : option SaaSContext :=
  if is_empty (req_SaaSApplicationID req) then None
  else Some {| sctx_SaaSApplicationID := req_SaaSApplicationID req;
               sctx_Name := req_SaaSName req;
               sctx_Provider := req_SaaSProvider req;
               sctx_Category := req_SaaSCategory req;
               sctx_RiskTier := req_SaaSRiskTier req;
               sctx_MatchedDomain := req_SaaSMatchedDomain req;
               sctx_MatchedPattern := req_SaaSMatchedPattern req;
               sctx_MatchType := req_SaaSMatchType req |}.

(** * Facts *)

(** Everything but the SaaS classification survives; it is what the rest of the
    evaluation may rely on. *)
Lemma decisionRequestWithSaaSContext_clear bundle r1 r2 :
  clearDecisionRequestSaaSContext r1 = clearDecisionRequestSaaSContext r2 →
  decisionRequestWithSaaSContext bundle r1 = decisionRequestWithSaaSContext bundle r2.
Proof. unfold decisionRequestWithSaaSContext. by intros ->. Qed.

Lemma with_saas_TenantID bundle r :
  req_TenantID (decisionRequestWithSaaSContext bundle r) = req_TenantID r.
Proof. unfold decisionRequestWithSaaSContext. by destruct (SaaSContextForRequest _ _). Qed.

Lemma first_some_spec {A B} (f : A → option B) l b :
  first_some f l = Some b → ∃ a, a ∈ l ∧ f a = Some b.
Proof.
  induction l as [|a l IH]; cbn; [done|]. destruct (f a) eqn:E; [|set_solver].
  intros [= ->]. exists a. split; [left|done].
Qed.

Lemma with_saas_approval bundle r :
  req_HumanApprovalEventID (decisionRequestWithSaaSContext bundle r) = req_HumanApprovalEventID r.
Proof. unfold decisionRequestWithSaaSContext. by destruct (SaaSContextForRequest _ _). Qed.

#[export] Hint Rewrite with_saas_TenantID : go_rewrite.

Definition requestScope (bundle : PolicyBundle) (req : DecisionRequest) : PolicyBundle :=
  if is_blank (req_TenantID req) then bundle
  else bundle <| bun_TenantID := req_TenantID req |>.

Lemma requestScope_catalog bundle req :
  bun_SaaSCatalog (requestScope bundle req) = bun_SaaSCatalog bundle.
Proof. unfold requestScope. by destruct (is_blank _). Qed.

Lemma contextOfEntry_spec entry cands ctx :
  contextOfEntry entry cands = Some ctx →
  is_blank (saas_SaaSApplicationID entry) = false ∧
  (∃ cand, cand ∈ cands ∧
     matchSaaSCatalogPatterns (cand_Value cand) (cand_Source cand) entry
     = Some (sctx_MatchedPattern ctx, sctx_MatchType ctx)) ∧
  sctx_SaaSApplicationID ctx = trim_space (saas_SaaSApplicationID entry) ∧
  sctx_RiskTier ctx = trim_space (saas_RiskTier entry).
Proof.
  intros H. apply first_some_spec in H as (cand & Hcand & Hm).
  destruct (matchSaaSCatalogPatterns _ _ entry) as [[pattern kind]|] eqn:Hp; [|discriminate].
  injection Hm as <-. split; [|by eauto].
  unfold matchSaaSCatalogPatterns in Hp. by destruct (is_blank (saas_SaaSApplicationID entry)).
Qed.

Lemma SaaSContextForRequest_spec bundle req ctx :
  SaaSContextForRequest bundle req = Some ctx →
  ∃ entry, entry ∈ bun_SaaSCatalog bundle ∧
    saasCatalogEntryInTenantScope (requestScope bundle req) entry = true ∧
    contextOfEntry entry (saasCatalogCandidates req) = Some ctx.
Proof.
  unfold SaaSContextForRequest. fold (requestScope bundle req). cbv zeta.
  rewrite requestScope_catalog. destruct (saasCatalogCandidates req) as [|c cs] eqn:Hcs;
    [discriminate|]. rewrite <- Hcs. clear. intros H.
  apply first_some_spec in H as (entry & Hin & He). exists entry.
  destruct (saasCatalogEntryInTenantScope _ entry); [done|discriminate].
Qed.

Lemma with_saas_context bundle req ctx :
  SaaSContextForRequest bundle (clearDecisionRequestSaaSContext req) = Some ctx →
  req_SaaSApplicationID (decisionRequestWithSaaSContext bundle req) = sctx_SaaSApplicationID ctx ∧
  req_SaaSRiskTier (decisionRequestWithSaaSContext bundle req) = sctx_RiskTier ctx.
Proof. unfold decisionRequestWithSaaSContext. by intros ->. Qed.

(** Where a request's SaaS classification comes from.  After annotation a
    request carries a SaaS application only if an entry of the bundle's catalogue names
    it: an entry of the request's tenant (or of none), with an application identifier,
    one of whose patterns accepts a name the request itself dials; its risk tier is that
    entry's.  Otherwise the request is the one with every SaaS field cleared, whatever
    the client sent. *)
Theorem saas_classification_sound (bundle : PolicyBundle) (req : DecisionRequest) :
  let cleared := clearDecisionRequestSaaSContext req in
  let req' := decisionRequestWithSaaSContext bundle req in
  req' = cleared ∨
  ∃ entry cand found,
    entry ∈ bun_SaaSCatalog bundle ∧
    saasCatalogEntryInTenantScope (requestScope bundle cleared) entry = true ∧
    is_blank (saas_SaaSApplicationID entry) = false ∧
    cand ∈ saasCatalogCandidates cleared ∧
    matchSaaSCatalogPatterns (cand_Value cand) (cand_Source cand) entry = Some found ∧
    req_SaaSApplicationID req' = trim_space (saas_SaaSApplicationID entry) ∧
    req_SaaSRiskTier req' = trim_space (saas_RiskTier entry).
Proof.
  cbv zeta. destruct (SaaSContextForRequest bundle (clearDecisionRequestSaaSContext req))
    as [ctx|] eqn:Hc; [right|left; unfold decisionRequestWithSaaSContext; by rewrite Hc].
  destruct (with_saas_context bundle req ctx Hc) as [-> ->].
  destruct (SaaSContextForRequest_spec _ _ _ Hc) as (entry & H1 & H2 & He).
  destruct (contextOfEntry_spec _ _ _ He) as (H3 & (cand & H4 & H5) & H6 & H7).
  by exists entry, cand, (sctx_MatchedPattern ctx, sctx_MatchType ctx).
Qed.
