(* ===== verification/Inspection.v ===== *)
(** * TLS inspection readiness ([src/decision/evaluator.go])

    The inspection, trust and root-CA profiles that apply to a matched policy, the
    routing they imply, and what they add to the decision. *)

From stdpp Require Import base gmap list strings.
From S2P Require Import Prelude GoStd Model Common.

Open Scope Z_scope.

(** A decision action with its metadata given as assignments. *)
Definition mk_action (type : string) (target : option string) (ttl : option Z)
    (kvs : list (string * any)) : DecisionAction :=
  {| act_Type := type; act_Target := target; act_TTLSeconds := ttl;
     act_Metadata := set_keys ∅ kvs |}.

Record tlsInspectionReadinessContext := mkTIC {
  tic_Configured : bool;
  tic_Profile : InspectionProfile;
  tic_TrustProfile : option TrustProfile;
  tic_TenantRootCA : option TenantRootCA;
  tic_QUICApplicable : bool;
}.

Definition noInspection : tlsInspectionReadinessContext :=
  mkTIC false zero_InspectionProfile None None false.

Definition byID {A} (id : A → string) (key : string) (l : list A) : option A :=
  List.find (fun x => String.eqb (trim_space (id x)) (trim_space key)) l.

Definition inspectionProfileByID (bundle : PolicyBundle) (id : string) :=
  byID ipf_ID id (bun_InspectionProfiles bundle).
Definition trustProfileByID (bundle : PolicyBundle) (id : string) :=
  byID tpf_ID id (bun_TrustProfiles bundle).
Definition tenantRootCAByID (bundle : PolicyBundle) (id : string) :=
  byID rca_ID id (bun_TenantRootCAs bundle).

(** A resource of another tenant is never used; a blank tenant is global. *)
Definition tenantMatches (candidate bundleTenant policyTenant requestTenant : string) : bool :=
  let candidate := trim_space candidate in
  is_empty candidate
  || String.eqb candidate (firstNonEmpty [requestTenant; policyTenant; bundleTenant]).

Definition requestIndicatesQUIC (req : DecisionRequest) : bool :=
  containsString ["udp"; "quic"] (normalizedRiskValue (req_Protocol req))
  || containsString ["quic"; "http3"; "http_3"; "https_quic"]
       (normalizedRiskValue (req_ServiceFamily req)).

Definition quicPolicyRequiresTCPTLS (profile : InspectionProfile) : bool :=
  containsString ["tcp_tls_required"; "prefer_tcp_tls"; "redirect_to_tcp_tls"; "disable_http3"]
    (normalizedRiskValue (ipf_QUICPolicyAction profile)).

Definition tlsInspectionReadinessContextFor (bundle : PolicyBundle) (policy : Policy)
    (req : DecisionRequest) : tlsInspectionReadinessContext :=
  let profileID := trim_space (default "" (pol_InspectionProfileID policy)) in
  let owned tenant :=
    tenantMatches tenant (bun_TenantID bundle) (pol_TenantID policy) (req_TenantID req) in
  if is_empty profileID then noInspection else
  match inspectionProfileByID bundle profileID with
  | None => noInspection
  | Some profile =>
      if negb (owned (ipf_TenantID profile)) then noInspection else
      let trust :=
        match trustProfileByID bundle (ipf_TrustProfileID profile) with
        | Some t => if owned (tpf_TenantID t) then Some t else None
        | None => None
        end in
      let rootCAID :=
        match trust with
        | Some t => if is_empty (ipf_TenantRootCAID profile) then tpf_TenantRootCAID t
                    else ipf_TenantRootCAID profile
        | None => ipf_TenantRootCAID profile
        end in
      let root :=
        match tenantRootCAByID bundle rootCAID with
        | Some r => if owned (rca_TenantID r) then Some r else None
        | None => None
        end in
      mkTIC true profile trust root (requestIndicatesQUIC req)
  end.

(** The key/value pairs of [if v != "" { metadata[k] = v }]. *)
Definition set_if (key value : string) : list (string * any) :=
  when (nonempty value) [(key, VStr value)].

Definition applyTLSInspectionReadinessMetadata (m : metadata)
    (ctx : tlsInspectionReadinessContext) : metadata :=
  let p := tic_Profile ctx in
  set_keys m (
    [ ("tls_inspection_readiness", VStr "policy_layer");
      ("tls_interception_enabled", VBool (ipf_TLSInterceptionEnabled p));
      ("certificate_issuance_mode",
        VStr (valueOrDefault (ipf_CertificateIssuanceMode p) "not_issued"));
      ("inspection_profile_id", VStr (ipf_ID p));
      ("inspection_mode", VStr (valueOrDefault (ipf_InspectionMode p) "metadata_only"));
      ("payload_policy", VStr (valueOrDefault (ipf_PayloadPolicy p) "metadata_only"));
      ("network_extension_runtime_used", VBool false) ]
    ++ set_if "network_extension_dependency" (ipf_NetworkExtensionDependency p)
    ++ set_if "trust_profile_id" (ipf_TrustProfileID p)
    ++ set_if "tenant_root_ca_id" (ipf_TenantRootCAID p)
    ++ match tic_TrustProfile ctx with
       | None => []
       | Some t =>
           [ ("trust_profile_id", VStr (tpf_ID t));
             ("trust_profile_status", VStr (valueOrDefault (tpf_Status t) "unknown")) ]
           ++ set_if "trust_store_state" (tpf_TrustStoreState t)
           ++ set_if "certificate_pinning_policy" (tpf_CertificatePinningPolicy t)
       end
    ++ match tic_TenantRootCA ctx with
       | None => []
       | Some r =>
           [ ("tenant_root_ca_id", VStr (rca_ID r));
             ("tenant_root_ca_status", VStr (valueOrDefault (rca_Status r) "unknown")) ]
           ++ set_if "tenant_root_ca_distribution_mode" (rca_DistributionMode r)
           ++ set_if "tenant_root_ca_trust_store_target" (rca_TrustStoreTarget r)
           ++ set_if "tenant_root_ca_private_key_status" (rca_PrivateKeyStatus r)
       end
    ++ set_if "quic_policy_mode" (ipf_QUICPolicyMode p)
    ++ set_if "quic_policy_action" (ipf_QUICPolicyAction p)
    ++ when (tic_QUICApplicable ctx && quicPolicyRequiresTCPTLS p)
         [("quic_tcp_tls_redirect_required", VBool true)]).

(** Route category and execution scope. *)
Definition inspectionRoutingForTLSInspectionContext (ctx : tlsInspectionReadinessContext)
    : string * string :=
  if negb (tic_Configured ctx) then ("", "")
  else if ipf_TLSInterceptionEnabled (tic_Profile ctx)
  then ("tls_readiness_candidate", "post_mvp_tls")
  else switch (normalizedRiskValue (ipf_InspectionMode (tic_Profile ctx))) [
         (["passthrough"], ("passthrough", "not_executed_metadata_only"));
         (["metadata_only"; "tls_readiness"], ("metadata_inspection", "metadata_inspection_only"))
       ] ("metadata_inspection", "metadata_inspection_only").

Definition applyEdgeInspectionRoutingMetadata (m : metadata)
    (routeCategory executionScope source : string) (bypass : bool) : metadata :=
  if is_blank routeCategory || is_blank executionScope then m else
  let decision :=
    if bypass then "bypass"
    else switch routeCategory [
           (["tls_readiness_candidate"], "intercept_candidate");
           (["passthrough"], "passthrough")
         ] "metadata_inspection" in
  set_keys m [
    ("inspection_route_category", VStr routeCategory);
    ("inspection_execution_scope", VStr executionScope);
    ("edge_tls_policy_decision", VStr decision);
    ("edge_tls_policy_decision_source", VStr source);
    ("edge_tls_policy_bypass", VBool bypass) ].

Definition appendTLSInspectionReadinessReasonCodes (codes : list string)
    (ctx : tlsInspectionReadinessContext) : list string :=
  let codes := appendUniqueString codes "tls_inspection_readiness_policy_layer" in
  if tic_QUICApplicable ctx && quicPolicyRequiresTCPTLS (tic_Profile ctx)
  then appendUniqueString codes "quic_tcp_tls_required" else codes.

Definition appendTLSInspectionReadinessActions (actions : list DecisionAction)
    (ctx : tlsInspectionReadinessContext) (req : DecisionRequest) (policy : Policy)
    : list DecisionAction :=
  if negb (tic_QUICApplicable ctx) || negb (quicPolicyRequiresTCPTLS (tic_Profile ctx))
  then actions
  else actions ++ [mk_action "emit_audit_event" None None [
    ("audit_event_type", VStr "tls_inspection_readiness_quic_policy");
    ("application_id", VStr (req_ApplicationID req));
    ("inspection_profile_id", VStr (ipf_ID (tic_Profile ctx)));
    ("policy_id", VStr (pol_ID policy));
    ("quic_policy_action", VStr (ipf_QUICPolicyAction (tic_Profile ctx)));
    ("recommended_transport", VStr "tcp_tls");
    ("network_extension_runtime_used", VBool false) ]].
