(* ===== verification/SwgEnforcement.v ===== *)
(** * Secure web gateway options of a matched policy
    ([src/decision/swg_tenant_enforcement.go], [src/decision/dlp_enforcement.go])

    The tenant-restriction header, the TLS bypass and the DLP inspection that apply
    to a matched request, and the directives they add to the decision. *)

From stdpp Require Import base gmap list strings.
From S2P Require Import Prelude GoStd Model Common SaaSCatalog Inspection.

Open Scope Z_scope.

Record swgTenantEnforcementContext := mkSWG {
  swg_Configured : bool;
  swg_DefaultTLSDecryptRequired : bool;
  swg_MacCATrustRequired : bool;
  swg_TenantRestrictionRule : option SWGTenantRestrictionRule;
  swg_TLSBypassRule : option SWGTLSBypassRule;
  swg_HeaderInjectionApplicable : bool;
  swg_HeaderInjectionSuppressed : bool;
  swg_HeaderInjectionAction : bool;
  swg_RuntimeTLSObserved : bool;
  swg_RuntimeHeaderObserved : bool;
  swg_HeaderValueMaterialPresent : bool;
}.

Definition noSWG : swgTenantEnforcementContext :=
  mkSWG false false false None None false false false false false false.

Definition is_some_b {A} (o : option A) : bool := match o with Some _ => true | None => false end.

Definition requestIsSWGHTTPS (req : DecisionRequest) : bool :=
  let serviceFamily := normalizedRiskValue (req_ServiceFamily req) in
  let protocol := normalizedRiskValue (req_Protocol req) in
  String.eqb serviceFamily "https" || String.eqb serviceFamily "saas"
  || (req_DestinationPort req =? 443) && (String.eqb protocol "tcp" || is_empty protocol).

Definition activeSWGRule (status : string) : bool :=
  is_empty (normalizedRiskValue status) || String.eqb (normalizedRiskValue status) "active".

Definition swgTenantRestrictionRuleMatches (rule : SWGTenantRestrictionRule)
    (req : DecisionRequest) : bool :=
  let ruleAppID := trim_space (trr_SaaSApplicationID rule) in
  let ruleProvider := normalizedRiskValue (trr_Provider rule) in
  nonempty ruleAppID && String.eqb ruleAppID (trim_space (req_SaaSApplicationID req))
  || nonempty ruleProvider && String.eqb ruleProvider (normalizedRiskValue (req_SaaSProvider req)).

Definition firstSWGTenantRestrictionRule (bundle : PolicyBundle) (req : DecisionRequest)
    (policy : Policy) : option SWGTenantRestrictionRule :=
  List.find (fun rule =>
    activeSWGRule (trr_Status rule)
    && negb (negb (is_blank (req_TenantID req)) && nonempty (trr_TenantID rule)
             && negb (String.eqb (trr_TenantID rule) (req_TenantID req)))
    && tenantMatches (trr_TenantID rule) (bun_TenantID bundle) (pol_TenantID policy)
         (req_TenantID req)
    && swgTenantRestrictionRuleMatches rule req) (bun_SWGTenantRestrictionRules bundle).

Definition swgDomainRuleMatches (pattern : string) (candidates : list string) : bool :=
  existsb (fun c => is_some_b (saasDomainPatternMatches c pattern)) candidates.

Definition swgTLSBypassRuleMatches (rule : SWGTLSBypassRule) (req : DecisionRequest) : bool :=
  switch (normalizedRiskValue (byp_MatchType rule)) [
    (["fqdn"; "domain"],
      swgDomainRuleMatches (byp_Pattern rule) [req_FQDN req; req_SNI req; req_Destination req]);
    (["sni"], swgDomainRuleMatches (byp_Pattern rule) [req_SNI req]);
    (["saas_application_id"],
      negb (is_blank (byp_SaaSApplicationID rule))
      && String.eqb (trim_space (byp_SaaSApplicationID rule))
           (trim_space (req_SaaSApplicationID req)));
    (["category"],
      nonempty (normalizedRiskValue (byp_Category rule))
      && String.eqb (normalizedRiskValue (byp_Category rule))
           (normalizedRiskValue (req_SaaSCategory req)))
  ] false.

Definition firstSWGTLSBypassRule (bundle : PolicyBundle) (req : DecisionRequest)
    (policy : Policy) : option SWGTLSBypassRule :=
  List.find (fun rule =>
    activeSWGRule (byp_Status rule)
    && tenantMatches (byp_TenantID rule) (bun_TenantID bundle) (pol_TenantID policy)
         (req_TenantID req)
    && swgTLSBypassRuleMatches rule req) (bun_SWGTLSBypassRules bundle).

Definition swgTenantEnforcementContextFor (bundle : PolicyBundle) (policy : Policy)
    (req : DecisionRequest) (inspectionCtx : tlsInspectionReadinessContext)
    : swgTenantEnforcementContext :=
  if negb (requestIsSWGHTTPS req) then noSWG
  else if is_empty (req_SaaSApplicationID req) && is_empty (req_SaaSProvider req)
          && is_empty (req_SaaSCategory req) then noSWG
  else
    let decrypt := tic_Configured inspectionCtx
                   && ipf_TLSInterceptionEnabled (tic_Profile inspectionCtx) in
    let restriction := firstSWGTenantRestrictionRule bundle req policy in
    let bypass := firstSWGTLSBypassRule bundle req policy in
    let applicable := is_some_b restriction in
    {| swg_Configured := decrypt || is_some_b restriction || is_some_b bypass;
       swg_DefaultTLSDecryptRequired := decrypt;
       swg_MacCATrustRequired := decrypt;
       swg_TenantRestrictionRule := restriction;
       swg_TLSBypassRule := bypass;
       swg_HeaderInjectionApplicable := applicable;
       swg_HeaderInjectionSuppressed := is_some_b bypass && applicable;
       swg_HeaderInjectionAction := applicable && negb (is_some_b bypass) && decrypt;
       swg_RuntimeTLSObserved := false;
       swg_RuntimeHeaderObserved := false;
       swg_HeaderValueMaterialPresent := false |}.

Definition applySWGTenantEnforcementMetadata (m : metadata) (ctx : swgTenantEnforcementContext)
    : metadata :=
  set_keys m (
    [ ("swg_tenant_enforcement_preflight", VStr "policy_layer");
      ("swg_default_tls_decryption_required", VBool (swg_DefaultTLSDecryptRequired ctx));
      ("swg_tls_bypass_policy", VStr "per_destination_bypass_list");
      ("swg_tls_bypass_applied", VBool (is_some_b (swg_TLSBypassRule ctx)));
      ("swg_tls_runtime_decryption_observed", VBool (swg_RuntimeTLSObserved ctx));
      ("swg_header_injection_runtime_observed", VBool (swg_RuntimeHeaderObserved ctx));
      ("swg_macos_ca_trust_required", VBool (swg_MacCATrustRequired ctx));
      ("swg_macos_ca_trust_observed", VBool false) ]
    ++ match swg_TenantRestrictionRule ctx with
       | None => []
       | Some r => [
           ("swg_tenant_restriction_rule_id", VStr (trr_ID r));
           ("swg_tenant_restriction_header_name", VStr (trr_HeaderName r));
           ("swg_tenant_restriction_header_value_ref", VStr (trr_HeaderValueRef r));
           ("swg_tenant_restriction_header_value_kind", VStr (trr_HeaderValueKind r));
           ("swg_tenant_restriction_header_value_material_in_decision",
             VBool (swg_HeaderValueMaterialPresent ctx));
           ("swg_tenant_restriction_header_injection_applicable",
             VBool (swg_HeaderInjectionApplicable ctx));
           ("swg_tenant_restriction_header_injection_applied",
             VBool (swg_HeaderInjectionAction ctx));
           ("swg_tenant_restriction_header_injection_suppressed_by_bypass",
             VBool (swg_HeaderInjectionSuppressed ctx)) ]
       end
    ++ match swg_TLSBypassRule ctx with
       | None => []
       | Some r => [
           ("swg_tls_bypass_rule_id", VStr (byp_ID r));
           ("swg_tls_bypass_match_type", VStr (byp_MatchType r));
           ("swg_tls_bypass_reason", VStr (byp_Reason r)) ]
       end).

Definition appendSWGTenantEnforcementReasonCodes (codes : list string)
    (ctx : swgTenantEnforcementContext) : list string :=
  let add (b : bool) (code : string) (codes : list string) :=
    if b then appendUniqueString codes code else codes in
  add (is_some_b (swg_TLSBypassRule ctx)) "swg_tls_bypass_applied"
    (add (swg_HeaderInjectionAction ctx) "swg_tenant_restriction_header_injection_planned"
      (add (swg_DefaultTLSDecryptRequired ctx) "swg_default_tls_decryption_required"
        (appendUniqueString codes "swg_saas_tenant_enforcement_preflight"))).

Definition injectHeaderAction (r : SWGTenantRestrictionRule) (req : DecisionRequest)
    (policy : Policy) : DecisionAction :=
  let ref := match trr_Metadata r !! "restriction_context_ref" with
             | Some (VStr s) => s
             | _ => ""
             end in
  mk_action "inject_saas_tenant_restriction_header"
    (stringPtr (valueOrDefault (req_SaaSApplicationID req) (req_ApplicationID req))) None (
    [ ("policy_id", VStr (pol_ID policy));
      ("saas_application_id", VStr (req_SaaSApplicationID req));
      ("saas_provider", VStr (req_SaaSProvider req));
      ("swg_tenant_restriction_rule_id", VStr (trr_ID r));
      ("header_name", VStr (trr_HeaderName r));
      ("header_value_ref", VStr (trr_HeaderValueRef r));
      ("header_value_kind", VStr (trr_HeaderValueKind r));
      ("header_value_material_in_decision", VBool false);
      ("tls_decryption_mode", VStr "default_decrypt");
      ("runtime_tls_decryption_observed", VBool false);
      ("runtime_header_injection_observed", VBool false) ]
    ++ when (String.eqb (trr_Provider r) "microsoft_365" && nonempty ref)
         [("restriction_context_ref", VStr ref)]).

Definition tlsBypassAuditAction (r : SWGTLSBypassRule) (ctx : swgTenantEnforcementContext)
    (req : DecisionRequest) (policy : Policy) : DecisionAction :=
  mk_action "emit_audit_event" None None [
    ("audit_event_type", VStr "swg_tls_bypass_preflight");
    ("policy_id", VStr (pol_ID policy));
    ("saas_application_id", VStr (req_SaaSApplicationID req));
    ("swg_tls_bypass_rule_id", VStr (byp_ID r));
    ("swg_tls_bypass_match_type", VStr (byp_MatchType r));
    ("swg_tls_bypass_reason", VStr (byp_Reason r));
    ("tenant_header_injection_suppressed", VBool (swg_HeaderInjectionSuppressed ctx));
    ("runtime_tls_decryption_observed", VBool false);
    ("runtime_header_injection_observed", VBool false);
    ("header_value_material_in_decision", VBool false);
    ("network_extension_runtime_used", VBool false) ].

Definition appendSWGTenantEnforcementActions (actions : list DecisionAction)
    (ctx : swgTenantEnforcementContext) (req : DecisionRequest) (policy : Policy)
    : list DecisionAction :=
  actions
  ++ match swg_TenantRestrictionRule ctx with
     | Some r => when (swg_HeaderInjectionAction ctx) [injectHeaderAction r req policy]
     | None => []
     end
  ++ match swg_TLSBypassRule ctx with
     | Some r => [tlsBypassAuditAction r ctx req policy]
     | None => []
     end.

(** ** DLP *)

Definition dlpRuleMatches (rule : DLPRule) (req : DecisionRequest) : bool :=
  let appID := trim_space (dlpr_SaaSApplicationID rule) in
  let provider := normalizedRiskValue (dlpr_Provider rule) in
  nonempty appID && String.eqb appID (trim_space (req_SaaSApplicationID req))
  || nonempty provider && String.eqb provider (normalizedRiskValue (req_SaaSProvider req))
  || is_empty appID && is_empty provider.

Definition firstDLPRule (bundle : PolicyBundle) (req : DecisionRequest) (policy : Policy)
    : option DLPRule :=
  List.find (fun rule =>
    activeSWGRule (dlpr_Status rule)
    && tenantMatches (dlpr_TenantID rule) (bun_TenantID bundle) (pol_TenantID policy)
         (req_TenantID req)
    && dlpRuleMatches rule req) (bun_DLPRules bundle).

Definition dlpInspectDirective (ruleID : string) (identifiers : list string) (minCount : Z)
    (onMatch instanceScope policyID : string) : DecisionAction :=
  let scope := trim_space instanceScope in
  mk_action "dlp_inspect" None None (
    [ ("dlp_rule_id", VStr ruleID);
      ("identifiers", VStrs identifiers);
      ("min_count", VInt minCount);
      ("action", VStr (valueOrDefault (trim_space onMatch) "observe")) ]
    ++ when (nonempty scope && negb (String.eqb scope "any")) [("instance_scope", VStr scope)]
    ++ set_if "dlp_policy_id" (trim_space policyID)).

Definition dlpInspectAction (rule : DLPRule) : DecisionAction :=
  dlpInspectDirective (dlpr_ID rule) (dlpr_Identifiers rule) (dlpr_MinCount rule)
    (dlpr_OnMatch rule) (dlpr_InstanceScope rule) "".

Definition dlpInspectActionFromSpec (ruleID : string) (spec : DLPSpec) : DecisionAction :=
  dlpInspectDirective ruleID (dlps_Identifiers spec) (dlps_MinCount spec)
    (dlps_OnMatch spec) (dlps_InstanceScope spec) (dlps_PolicyID spec).

(** * Facts *)

(** A header is injected only into a connection that is decrypted and not bypassed. *)
Lemma header_injection_decrypted bundle policy req ictx :
  swg_HeaderInjectionAction (swgTenantEnforcementContextFor bundle policy req ictx) = true →
  swg_TLSBypassRule (swgTenantEnforcementContextFor bundle policy req ictx) = None ∧
  tic_Configured ictx = true ∧ ipf_TLSInterceptionEnabled (tic_Profile ictx) = true.
Proof.
  unfold swgTenantEnforcementContextFor. repeat case_match; try done. cbn.
  intros H'. bool_facts. destruct (firstSWGTLSBypassRule _ _ _); done.
Qed.
