(* ===== verification/BreakGlass.v ===== *)
(** * Break-glass policies ([src/decision/evaluator.go])

    A policy for emergency access must carry a short session, strong authentication
    and an audit requirement; the request must show fresh strong authentication. *)

From stdpp Require Import base gmap list strings.
From S2P Require Import Prelude GoStd Model Common Conditions Inspection.

Open Scope Z_scope.

Record breakGlassPolicyContext := mkBG {
  bg_Configured : bool;
  bg_IdentityID : string;
  bg_MaxSessionSeconds : Z;
  bg_StrongAuthRequired : bool;
  bg_StrongAuthSatisfied : bool;
  bg_AuditRequired : bool;
  bg_AuthAgeSeconds : Z;
  bg_AuthAgeKnown : bool;
  bg_AuthFreshness : string;
  bg_ReasonPresent : bool;
  bg_TicketIDPresent : bool;
  bg_RequestID : string;
  bg_RequirementReasonCodes : list string;
  bg_ReauthenticationReasons : list string;
}.

#[export] Instance breakGlassPolicyContext_eta : Etaable breakGlassPolicyContext := fun r =>
  mkBG (bg_Configured r) (bg_IdentityID r) (bg_MaxSessionSeconds r) (bg_StrongAuthRequired r)
    (bg_StrongAuthSatisfied r) (bg_AuditRequired r) (bg_AuthAgeSeconds r) (bg_AuthAgeKnown r)
    (bg_AuthFreshness r) (bg_ReasonPresent r) (bg_TicketIDPresent r) (bg_RequestID r)
    (bg_RequirementReasonCodes r) (bg_ReauthenticationReasons r).

Definition noBreakGlass : breakGlassPolicyContext :=
  mkBG false "" 0 false false false 0 false "" false false "" [] [].

Definition conditionContainsBreakGlassValue (value : any) : bool :=
  existsb (fun v => String.eqb (normalizedRiskValue v) "break_glass") (conditionValues value).

Definition conditionRequiresBreakGlassAuth (condition : any) : bool :=
  match condition with
  | VMap m => conditionContainsBreakGlassValue (map_get m "value")
              || conditionContainsBreakGlassValue (map_get m "values")
  | v => conditionContainsBreakGlassValue v
  end.

Definition breakGlassPolicyConfigured (policy : Policy) : bool :=
  pol_BreakGlassPolicy policy
  || conditionRequiresBreakGlassAuth (default VNil (pol_Conditions policy !! "auth_method"))
  || containsString ["break_glass"; "break_glass_lab"]
       (normalizedRiskValue (stringMetadataValue (pol_Metadata policy) "purpose")).

Definition breakGlassMaxSessionSeconds (policy : Policy) : Z :=
  match pol_BreakGlassMaxSessionSeconds policy with
  | Some n => n
  | None => intMetadata (pol_Metadata policy) "break_glass_max_session_seconds" 0
  end.

(** The age of an authentication in whole seconds; [None] when it is not known. *)
Definition breakGlassAuthAgeSeconds (now : Z) (authTime : string) : option Z :=
  if is_blank authTime then None
  else match parse_rfc3339 authTime with
       | None => None
       | Some parsed => Some (Z.max 0 (whole_seconds (time_sub now parsed)))
       end.

Definition breakGlassAuthFreshness (ctx : breakGlassPolicyContext) : string :=
  if negb (bg_AuthAgeKnown ctx) then "missing_auth_time"
  else if bg_MaxSessionSeconds ctx <=? 0 then "missing_ttl"
  else if bg_MaxSessionSeconds ctx <? bg_AuthAgeSeconds ctx then "ttl_expired"
  else "fresh".

Definition breakGlassStrongAuthSatisfied (req : DecisionRequest) : bool :=
  String.eqb (normalizedRiskValue (req_AuthMethod req)) "break_glass"
  && containsString ["fresh"; "verified"; "satisfied"] (normalizedRiskValue (req_MFAState req))
  && (existsb (fun m => containsString
        ["otp"; "totp"; "hotp"; "webauthn"; "fido2"; "passkey"; "hardware_key";
         "phishing_resistant"; "mfa"] (normalizedRiskValue m)) (req_AMR req)
      || containsString
        ["urn:break_glass:admin"; "urn:break_glass:strong_auth"; "break_glass_strong_auth"]
        (normalizedRiskValue (req_ACR req))).

Definition breakGlassRequirementReasonCodes (ctx : breakGlassPolicyContext) : list string :=
  let codes := appendUniqueString []
    (if bg_MaxSessionSeconds ctx <=? 0 then "break_glass_ttl_missing"
     else if 3600 <? bg_MaxSessionSeconds ctx then "break_glass_ttl_too_long"
     else "break_glass_short_ttl_valid") in
  let codes := if bg_StrongAuthRequired ctx then codes
    else appendUniqueString codes "break_glass_strong_auth_requirement_missing" in
  appendUniqueString codes
    (if bg_AuditRequired ctx then "break_glass_audit_required"
     else "break_glass_audit_requirement_missing").

Definition breakGlassReauthenticationReasonCodes (ctx : breakGlassPolicyContext)
    : list string :=
  let codes := appendUniqueString []
    (if bg_StrongAuthSatisfied ctx then "break_glass_strong_auth_satisfied"
     else "break_glass_strong_auth_required") in
  appendUniqueString codes (switch (bg_AuthFreshness ctx) [
    (["missing_auth_time"], "break_glass_auth_time_missing");
    (["missing_ttl"], "");
    (["ttl_expired"], "break_glass_ttl_expired");
    (["fresh"], "")
  ] "break_glass_auth_time_missing").

Definition breakGlassPolicyContextFor (now : Z) (policy : Policy) (req : DecisionRequest)
    : breakGlassPolicyContext :=
  if negb (breakGlassPolicyConfigured policy) then noBreakGlass else
  let m := pol_Metadata policy in
  let named := trim_space (default "" (pol_BreakGlassIdentityID policy)) in
  let age := breakGlassAuthAgeSeconds now (req_AuthTime req) in
  let ctx := {|
    bg_Configured := true;
    bg_IdentityID := if nonempty named then named
                     else stringMetadataValue m "break_glass_identity_id";
    bg_MaxSessionSeconds := breakGlassMaxSessionSeconds policy;
    bg_StrongAuthRequired := pol_BreakGlassStrongAuthRequired policy
                             || boolMetadataValue m "break_glass_strong_auth_required";
    bg_StrongAuthSatisfied := breakGlassStrongAuthSatisfied req;
    bg_AuditRequired := pol_BreakGlassAuditRequired policy
                        || boolMetadataValue m "break_glass_audit_required";
    bg_AuthAgeSeconds := default 0 age;
    bg_AuthAgeKnown := match age with Some _ => true | None => false end;
    bg_AuthFreshness := "";
    bg_ReasonPresent := req_BreakGlassReasonPresent req;
    bg_TicketIDPresent := req_BreakGlassTicketIDPresent req;
    bg_RequestID := req_BreakGlassRequestID req;
    bg_RequirementReasonCodes := [];
    bg_ReauthenticationReasons := [] |} in
  let ctx := ctx <| bg_AuthFreshness := breakGlassAuthFreshness ctx |> in
  let ctx := ctx <| bg_RequirementReasonCodes := breakGlassRequirementReasonCodes ctx |> in
  ctx <| bg_ReauthenticationReasons := breakGlassReauthenticationReasonCodes ctx |>.

(** What both the decision and the audit event record of the context. *)
Definition breakGlassDetail (ctx : breakGlassPolicyContext) : list (string * any) :=
  set_if "break_glass_request_id" (bg_RequestID ctx)
  ++ when (bg_ReasonPresent ctx) [("break_glass_reason_present", VBool true)]
  ++ when (bg_TicketIDPresent ctx) [("break_glass_ticket_id_present", VBool true)].

Definition applyBreakGlassPolicyMetadata (m : metadata) (ctx : breakGlassPolicyContext)
    : metadata :=
  set_keys m (
    [ ("break_glass_policy", VBool true) ]
    ++ set_if "break_glass_identity_id" (bg_IdentityID ctx)
    ++ when (0 <? bg_MaxSessionSeconds ctx)
         [("break_glass_max_session_seconds", VInt (bg_MaxSessionSeconds ctx))]
    ++ [ ("break_glass_strong_auth_required", VBool (bg_StrongAuthRequired ctx));
         ("break_glass_strong_auth_satisfied", VBool (bg_StrongAuthSatisfied ctx));
         ("break_glass_audit_required", VBool (bg_AuditRequired ctx));
         ("break_glass_audit_event_required", VBool true) ]
    ++ when (bg_AuthAgeKnown ctx)
         [("break_glass_auth_age_seconds", VInt (bg_AuthAgeSeconds ctx))]
    ++ set_if "break_glass_auth_freshness" (bg_AuthFreshness ctx)
    ++ breakGlassDetail ctx).

Definition breakGlassPolicyRequirementsSatisfied (ctx : breakGlassPolicyContext) : bool :=
  (0 <? bg_MaxSessionSeconds ctx) && (bg_MaxSessionSeconds ctx <=? 3600)
  && bg_StrongAuthRequired ctx && bg_AuditRequired ctx.

Definition breakGlassRuntimeSatisfied (ctx : breakGlassPolicyContext) : bool :=
  bg_StrongAuthSatisfied ctx && String.eqb (bg_AuthFreshness ctx) "fresh".

Definition breakGlassReauthenticationAction (ctx : breakGlassPolicyContext)
    (req : DecisionRequest) (policy : Policy) : DecisionAction :=
  mk_action "prompt_reauthentication" (stringPtr (req_ApplicationID req))
    (intPtr (bg_MaxSessionSeconds ctx)) [
    ("break_glass_policy", VBool true);
    ("required_by_policy_id", VStr (pol_ID policy));
    ("required_auth_method", VStr "break_glass");
    ("strong_auth_required", VBool true);
    ("max_session_seconds", VInt (bg_MaxSessionSeconds ctx));
    ("accepted_mfa_factors", VStrs ["otp"; "webauthn"; "fido2"; "passkey"; "hardware_key"]);
    ("audit_event_type", VStr "break_glass_policy_decision");
    ("break_glass_auth_freshness", VStr (bg_AuthFreshness ctx)) ].

Definition breakGlassAuditAction (ctx : breakGlassPolicyContext) (req : DecisionRequest)
    (policy : Policy) (guardResult : string) : DecisionAction :=
  mk_action "emit_audit_event" None None (
    [ ("audit_event_type", VStr "break_glass_policy_decision");
      ("policy_id", VStr (pol_ID policy));
      ("application_id", VStr (req_ApplicationID req));
      ("break_glass_policy", VBool true);
      ("break_glass_policy_guard_result", VStr guardResult);
      ("break_glass_strong_auth_required", VBool (bg_StrongAuthRequired ctx));
      ("break_glass_strong_auth_satisfied", VBool (bg_StrongAuthSatisfied ctx));
      ("break_glass_audit_required", VBool (bg_AuditRequired ctx));
      ("break_glass_auth_freshness", VStr (bg_AuthFreshness ctx)) ]
    ++ set_if "break_glass_identity_id" (bg_IdentityID ctx)
    ++ when (0 <? bg_MaxSessionSeconds ctx)
         [("break_glass_max_session_seconds", VInt (bg_MaxSessionSeconds ctx))]
    ++ when (bg_AuthAgeKnown ctx)
         [("break_glass_auth_age_seconds", VInt (bg_AuthAgeSeconds ctx))]
    ++ breakGlassDetail ctx).

(** Decision, reason, reason codes and actions after the guard. *)
Definition applyBreakGlassPolicyGuard (decisionValue reason : string)
    (codes : list string) (actions : list DecisionAction) (policy : Policy)
    (req : DecisionRequest) (ctx : breakGlassPolicyContext)
    : string * string * list string * list DecisionAction :=
  let codes := foldl appendUniqueString codes
    ("break_glass_policy_matched" :: bg_RequirementReasonCodes ctx
     ++ bg_ReauthenticationReasons ctx) in
  let audit (guard : string) := [breakGlassAuditAction ctx req policy guard] in
  if negb (breakGlassPolicyRequirementsSatisfied ctx) then
    ("deny",
     "Break-glass policy is missing required short TTL, strong authentication, or audit safeguards.",
     appendUniqueString codes "break_glass_policy_guard_failed",
     actions ++ audit "blocked_policy_configuration")
  else if String.eqb decisionValue "allow" && negb (breakGlassRuntimeSatisfied ctx) then
    ("require_reauthentication",
     "Break-glass access requires fresh strong authentication within the policy TTL.",
     appendUniqueString codes "reauthentication_required",
     actions ++ [breakGlassReauthenticationAction ctx req policy]
             ++ audit "reauthentication_required")
  else (decisionValue, reason, codes, actions ++ audit "allowed").

(** * Facts *)

Lemma breakGlassGuard_allow d r cs acts p req ctx r' cs' acts' :
  applyBreakGlassPolicyGuard d r cs acts p req ctx = ("allow", r', cs', acts') →
  d = "allow" ∧ breakGlassPolicyRequirementsSatisfied ctx = true ∧
  breakGlassRuntimeSatisfied ctx = true.
Proof.
  unfold applyBreakGlassPolicyGuard. destruct (breakGlassPolicyRequirementsSatisfied ctx); cbn; [|done].
  destruct (String.eqb_spec d "allow"), (breakGlassRuntimeSatisfied ctx); cbn; intros [=]; done.
Qed.

Lemma breakGlass_configured now p req :
  bg_Configured (breakGlassPolicyContextFor now p req) = breakGlassPolicyConfigured p.
Proof. unfold breakGlassPolicyContextFor. by destruct (breakGlassPolicyConfigured p). Qed.

(** Fresh: authenticated within the session length, which is known and positive. *)
Lemma breakGlass_fresh now p req :
  breakGlassPolicyConfigured p = true →
  bg_AuthFreshness (breakGlassPolicyContextFor now p req) = "fresh" →
  ∃ age, breakGlassAuthAgeSeconds now (req_AuthTime req) = Some age ∧
         age ≤ breakGlassMaxSessionSeconds p ∧ 0 < breakGlassMaxSessionSeconds p.
Proof.
  unfold breakGlassPolicyContextFor. intros ->. cbn. unfold breakGlassAuthFreshness. cbn.
  destruct (breakGlassAuthAgeSeconds now (req_AuthTime req)) as [age|]; cbn; [|done].
  repeat case_match; try done. intros _. bool_facts. eauto.
Qed.
