(* ===== verification/Guards.v ===== *)
(** * Guards of a matched policy ([src/decision/evaluator.go])

    The reason, reason codes and actions a policy decision starts from, and the
    guards that may tighten an allow: the tool boundary, the workload proof, the age
    of the authentication and the human approval. *)

From stdpp Require Import base gmap list strings.
From S2P Require Import Prelude GoStd Model Common Inspection BreakGlass.

Open Scope Z_scope.

(** ** The agentic tool boundary *)

Definition toolBoundaryListContains (l : list string) (value : string) : bool :=
  let value := trim_space value in
  if is_empty value then false
  else existsb (fun item => equal_fold (trim_space item) value) l.

(** The reason code of the violation, [None] when the call is inside. *)
Definition toolActionBoundaryViolation (policy : Policy) (req : DecisionRequest)
    : option string :=
  if (0 <? length (pol_AllowedToolIDs policy))%nat
     && negb (toolBoundaryListContains (pol_AllowedToolIDs policy) (req_ToolID req))
  then Some "tool_id_not_allowed"
  else if (0 <? length (pol_AllowedToolActions policy))%nat
     && negb (toolBoundaryListContains (pol_AllowedToolActions policy) (req_ToolActionType req))
  then Some "tool_action_not_allowed"
  else None.

(** ** What a decision word says *)

Definition agentActor (actorType : string) : bool :=
  String.eqb actorType "delegated_agent" || String.eqb actorType "nhi".

Definition reasonCodesForPolicyDecision (decisionValue actorType : string) : list string :=
  switch decisionValue [
    (["deny"], ["policy_matched"; "application_denied"]);
    (["require_reauthentication"], ["policy_matched"; "reauthentication_required"]);
    (["require_workload_attestation"], ["policy_matched"; "workload_attestation_required"])
  ] (if agentActor actorType
     then ["policy_matched"; "delegated_grant_valid"; "scope_allowed"; "approval_valid";
           "tool_allowed"]
     else ["policy_matched"; "application_allowed"]).

Definition reasonForPolicyDecision (decisionValue actorType : string) : string :=
  switch decisionValue [
    (["require_reauthentication"],
      "Request matched a policy that requires re-authentication.");
    (["require_workload_attestation"],
      "Request matched a policy that requires verified workload attestation.");
    (["deny"], "Request matched an active deny policy.")
  ] (if agentActor actorType
     then "Delegated agent request matched the active lab policy."
     else "Request matched the active lab policy.").

(** A federated requirement as authored; a list of methods is split. *)
Definition reauthRequirement (m : metadata) (key : string) : list (string * any) :=
  match m !! key with
  | None => []
  | Some value =>
      match value with
      | VStr methods =>
          if String.eqb key "required_amr" && negb (is_blank methods)
          then [(key, VStrs (splitCommaList methods))] else [(key, value)]
      | _ => [(key, value)]
      end
  end.

Definition actionsForPolicyDecision (decisionValue : string) (req : DecisionRequest)
    (policy : Policy) : list DecisionAction :=
  let m := pol_Metadata policy in
  switch decisionValue [
    (["require_reauthentication"],
      [mk_action "prompt_reauthentication" (stringPtr (req_ApplicationID req))
         (intPtr (intMetadata m "reauth_interval_seconds" 300))
         ([("service_family", VStr (req_ServiceFamily req))]
          ++ set_if "required_idp_id" (stringMetadataValue m "required_idp_id")
          ++ set_if "min_acr" (stringMetadataValue m "min_acr")
          ++ flat_map (reauthRequirement m)
               ["required_amr"; "max_age_seconds"; "grant_ttl_seconds"])]);
    (["require_workload_attestation"],
      [mk_action "request_workload_attestation"
         (stringPtr (if is_empty (req_ActorNHIID req) then req_AgentTaskSessionID req
                     else req_ActorNHIID req)) None
         [ ("actor_nhi_id", VStr (req_ActorNHIID req));
           ("agent_task_session_id", VStr (req_AgentTaskSessionID req));
           ("application_id", VStr (req_ApplicationID req));
           ("required_by_policy_id", VStr (pol_ID policy));
           ("attestation_acceptance", VStrs ["verified"; "valid"]) ]])
  ] [].

(** ** Workload attestation and authentication age *)

Definition workloadAttestationSatisfied (state : string) : bool :=
  containsString ["verified"; "valid"] (folded state).

(** [age, known := ...; !known || age > maxAge] *)
Definition authenticationStale (now : Z) (req : DecisionRequest) (maxAge : Z) : bool :=
  match breakGlassAuthAgeSeconds now (req_AuthTime req) with
  | None => true
  | Some age => maxAge <? age
  end.

(** ** Human approval *)

Definition humanApprovalRequestAction (req : DecisionRequest) (policy : Policy)
    : DecisionAction :=
  mk_action "request_human_approval" (stringPtr (req_ApplicationID req))
    (intPtr (intMetadata (pol_Metadata policy) "human_approval_ttl_seconds" 300)) (
    [ ("required_by_policy_id", VStr (pol_ID policy));
      ("application_id", VStr (req_ApplicationID req));
      ("human_approval_required", VBool true);
      ("human_approval_scope", VStr "metadata_only");
      ("tool_payload_recorded", VBool false);
      ("tool_secret_recorded", VBool false);
      ("tool_credentials_recorded", VBool false) ]
    ++ set_if "actor_nhi_id" (req_ActorNHIID req)
    ++ set_if "delegated_access_grant_id" (req_DelegatedAccessGrantID req)
    ++ set_if "agent_task_session_id" (req_AgentTaskSessionID req)
    ++ set_if "tool_id" (req_ToolID req)
    ++ set_if "tool_action_type" (req_ToolActionType req)
    ++ set_if "data_classification" (req_DataClassification req)).

Definition humanApprovalEventTrustBindingFreshnessRequired (policy : Policy) : bool :=
  boolMetadataValue (pol_Metadata policy)
    "human_approval_event_require_trusted_binding_freshness"
  || equal_fold (stringMetadataValue (pol_Metadata policy) "human_approval_event_contract")
       "trust_binding_freshness".

Definition humanApprovalEventTrustSatisfied (state : string) : bool :=
  containsString ["trusted"; "valid"] (folded state).
Definition humanApprovalEventBindingSatisfied (state : string) : bool :=
  containsString ["bound"; "matched"; "valid"] (folded state).
Definition humanApprovalEventFreshnessSatisfied (state : string) : bool :=
  containsString ["fresh"; "valid"] (folded state).

Definition humanApprovalRequirementReasonCodes (req : DecisionRequest) (policy : Policy)
    : list string :=
  if is_blank (req_HumanApprovalEventID req) then ["approval_absent"]
  else if negb (humanApprovalEventTrustBindingFreshnessRequired policy) then []
  else when (negb (humanApprovalEventTrustSatisfied (req_HumanApprovalEventTrustState req)))
         ["approval_untrusted"]
    ++ when (negb (humanApprovalEventBindingSatisfied (req_HumanApprovalEventBindingState req)))
         ["approval_unbound"]
    ++ when (negb (humanApprovalEventFreshnessSatisfied
                     (req_HumanApprovalEventFreshnessState req)))
         ["approval_not_fresh"].

Definition applyHumanApprovalEventContractMetadata (m : metadata) (req : DecisionRequest)
    (policy : Policy) (valid : bool) : metadata :=
  if negb (humanApprovalEventTrustBindingFreshnessRequired policy) then m
  else set_keys m [
    ("human_approval_event_contract", VStr "trust_binding_freshness");
    ("human_approval_event_contract_result", VStr (mapBool valid "valid" "invalid"));
    ("human_approval_event_trust_state",
      VStr (stateOrMissing (req_HumanApprovalEventTrustState req)));
    ("human_approval_event_binding_state",
      VStr (stateOrMissing (req_HumanApprovalEventBindingState req)));
    ("human_approval_event_freshness_state",
      VStr (stateOrMissing (req_HumanApprovalEventFreshnessState req))) ].

(** * Facts *)

(** What an approval requirement asks for, read off the request. *)
Definition approvalEvidence (policy : Policy) (req : DecisionRequest) : Prop :=
  is_blank (req_HumanApprovalEventID req) = false ∧
  (humanApprovalEventTrustBindingFreshnessRequired policy = true →
   humanApprovalEventTrustSatisfied (req_HumanApprovalEventTrustState req) = true ∧
   humanApprovalEventBindingSatisfied (req_HumanApprovalEventBindingState req) = true ∧
   humanApprovalEventFreshnessSatisfied (req_HumanApprovalEventFreshnessState req) = true).

Lemma humanApproval_none req policy :
  humanApprovalRequirementReasonCodes req policy = [] ↔ approvalEvidence policy req.
Proof.
  unfold humanApprovalRequirementReasonCodes, approvalEvidence.
  destruct (is_blank _); [naive_solver|].
  destruct (humanApprovalEventTrustBindingFreshnessRequired policy); [|naive_solver].
  repeat match goal with |- context [?f (?s req)] => destruct (f (s req)) end; naive_solver.
Qed.

(** A declared allowlist contains the request's value. *)
Lemma toolBoundary_inside policy req :
  toolActionBoundaryViolation policy req = None →
  (pol_AllowedToolIDs policy ≠ [] →
   toolBoundaryListContains (pol_AllowedToolIDs policy) (req_ToolID req) = true) ∧
  (pol_AllowedToolActions policy ≠ [] →
   toolBoundaryListContains (pol_AllowedToolActions policy) (req_ToolActionType req) = true).
Proof.
  unfold toolActionBoundaryViolation.
  destruct (pol_AllowedToolIDs policy), (pol_AllowedToolActions policy),
    (toolBoundaryListContains _ _), (toolBoundaryListContains _ _); naive_solver.
Qed.

(** Not stale: the authentication time is known and recent. *)
Lemma authenticationStale_false now req maxAge :
  authenticationStale now req maxAge = false ↔
  ∃ age, breakGlassAuthAgeSeconds now (req_AuthTime req) = Some age ∧ age ≤ maxAge.
Proof.
  unfold authenticationStale. destruct (breakGlassAuthAgeSeconds _ _) as [age|]; [|naive_solver].
  rewrite Z.ltb_ge. naive_solver.
Qed.
