(* ===== verification/Locality.v ===== *)
(** * Where a destination is ([src/decision/locality.go])

    Whether a destination lies inside the estate: declared networks first, then the
    class of the address. *)

From Stdlib Require Import Ascii.
From stdpp Require Import base gmap list strings.
From S2P Require Import Prelude GoStd GoNet Model Common.

Open Scope Z_scope.

Inductive DestinationLocality : Set := LocalityUnknown | LocalityInternal | LocalityPublic.

#[export] Instance DestinationLocality_eq_dec : EqDecision DestinationLocality.
Proof. solve_decision. Defined.

Definition locality_String (l : DestinationLocality) : string :=
  match l with
  | LocalityInternal => "internal"
  | LocalityPublic => "public"
  | LocalityUnknown => "unknown"
  end.

Record InternalNetworks := mkInternalNetworks {
  inw_CIDRs : list string;
  inw_Domains : list string;
}.

Definition inw_Empty (n : InternalNetworks) : bool :=
  (length (inw_CIDRs n) =? 0)%nat && (length (inw_Domains n) =? 0)%nat.

Definition trim_brackets : string → string := trim_set ["["; "]"]%char.

Definition destinationHost (req : DecisionRequest) : string :=
  let d := trim_space (req_Destination req) in
  if is_empty d then ""
  else match split_host_port d with
       | Some (h, _) => trim_space h
       | None => trim_brackets d
       end.

(** The first value that is an address, IPv4-mapped ones unmapped. *)
Fixpoint parseIPCandidate (values : list string) : option addr :=
  match values with
  | [] => None
  | v :: vs =>
      let v := trim_brackets (trim_space v) in
      if is_empty v then parseIPCandidate vs
      else match parse_addr v with
           | Some a => Some (unmap a)
           | None => parseIPCandidate vs
           end
  end.

(** [100.64.0.0/10] *)
Definition cgnat : ip_prefix := {| pfx_addr := A4 1681915904; pfx_bits := 10 |}.

Definition isInternalAddress (ip : addr) : bool :=
  is_loopback ip || is_private ip || is_link_local_unicast ip || is_link_local_multicast ip
  || is_interface_local_multicast ip || is_unspecified ip
  || is4 ip && prefix_contains cgnat ip.

Definition cidrDeclares (ip : addr) (c : string) : bool :=
  let c := trim_space c in
  if is_empty c then false
  else match parse_prefix c with
       | None => false
       | Some p =>
           if negb (Bool.eqb (is4 (pfx_addr p)) (is4 ip)) then false else prefix_contains p ip
       end.

Definition matchesCIDR (n : InternalNetworks) (ip : addr) : bool :=
  existsb (cidrDeclares ip) (inw_CIDRs n).

Definition domainDeclares (fqdn d : string) : bool :=
  let d := trim_suffix (trim_prefix (folded d) "*.") "." in
  if is_empty d then false else String.eqb fqdn d || has_suffix fqdn ("." +:+ d).

Definition matchesDomain (n : InternalNetworks) (fqdn : string) : bool :=
  let fqdn := trim_suffix (folded fqdn) "." in
  if is_empty fqdn then false else existsb (domainDeclares fqdn) (inw_Domains n).

(** The name a request goes by: its FQDN, else a destination that is no address. *)
Definition destinationName (req : DecisionRequest) : string :=
  let host := destinationHost req in
  let fqdn := folded (req_FQDN req) in
  if is_empty fqdn && nonempty host && negb (is_ip_literal host) then to_lower host else fqdn.

Definition destinationAddress (req : DecisionRequest) : option addr :=
  parseIPCandidate [destinationHost req; req_DestinationIP req; req_DestinationResolvedIP req].

Definition ClassifyDestinationLocality (req : DecisionRequest) (declared : InternalNetworks)
    : DestinationLocality :=
  let fqdn := destinationName req in
  if nonempty fqdn && matchesDomain declared fqdn then LocalityInternal
  else match destinationAddress req with
       | None => LocalityUnknown
       | Some ip =>
           if matchesCIDR declared ip then LocalityInternal
           else if isInternalAddress ip then LocalityInternal
           else LocalityPublic
       end.

Definition EastWestLocalityAdmits (locality : DestinationLocality) : bool :=
  bool_decide (locality ≠ LocalityPublic).

(** * Properties *)

Lemma parseIPCandidate_unmapped vs a : parseIPCandidate vs = Some a → unmap a = a.
Proof.
  induction vs as [|v vs IH]; cbn; [done|]. repeat case_match; try apply IH.
  intros [= <-]. apply unmap_unmap.
Qed.

(** Public: no declaration covers the destination and its address is routable. *)
Lemma classify_public req n :
  ClassifyDestinationLocality req n = LocalityPublic ↔
  (nonempty (destinationName req) && matchesDomain n (destinationName req)) = false ∧
  ∃ ip, destinationAddress req = Some ip ∧ matchesCIDR n ip = false ∧
        isInternalAddress ip = false.
Proof.
  unfold ClassifyDestinationLocality. cbn zeta.
  destruct (nonempty _ && _); [split; [done|by intros [? _]]|].
  destruct (destinationAddress req) as [ip|]; [|split; [done|by intros (_ & ? & ? & _)]].
  destruct (matchesCIDR n ip) eqn:?, (isInternalAddress ip) eqn:?;
    (split; [intros; split; [done|]; by eauto|by intros (_ & ? & [= <-] & ? & ?)]) ||
    (split; [done|intros (_ & ? & [= <-] & ? & ?); congruence]).
Qed.

Definition networks_incl (n m : InternalNetworks) : Prop :=
  inw_CIDRs n ⊆ inw_CIDRs m ∧ inw_Domains n ⊆ inw_Domains m.

Lemma existsb_mono {A} (f : A → bool) l k : l ⊆ k → existsb f k = false → existsb f l = false.
Proof.
  intros Hl Hk. destruct (existsb f l) eqn:E; [|done].
  apply existsb_exists in E as (x & Hx%list_elem_of_In & Hf).
  assert (existsb f k = true); [|congruence].
  apply existsb_exists. exists x. split; [|done]. apply list_elem_of_In, Hl, Hx.
Qed.

Lemma matchesCIDR_mono n m ip :
  networks_incl n m → matchesCIDR m ip = false → matchesCIDR n ip = false.
Proof. intros [Hc _]. unfold matchesCIDR. apply existsb_mono, Hc. Qed.

Lemma matchesDomain_mono n m f :
  networks_incl n m → matchesDomain m f = false → matchesDomain n f = false.
Proof.
  intros [_ Hd]. unfold matchesDomain. destruct (is_empty _); [done|]. apply existsb_mono, Hd.
Qed.

Lemma classify_public_mono req n m :
  networks_incl n m → ClassifyDestinationLocality req m = LocalityPublic →
  ClassifyDestinationLocality req n = LocalityPublic.
Proof.
  intros Hi. rewrite !classify_public. intros (Hd & ip & Hip & Hc & Hint). split.
  - destruct (nonempty _); [|done]. cbn in *. by eapply matchesDomain_mono.
  - eauto using matchesCIDR_mono.
Qed.

Example classify_mapped :
  ClassifyDestinationLocality
    (zero_DecisionRequest <| req_Destination := "[::ffff:100.64.3.4]:22" |>)
    {| inw_CIDRs := []; inw_Domains := [] |} = LocalityInternal.
Proof. reflexivity. Qed.
