(* ===== verification/EastWest.v ===== *)
(** * East-west (lateral) authorization ([src/decision/east_west.go])

    Which requests belong to the lateral plane, which authored rule or ephemeral
    grant applies to one, and the decision for it: default deny unless the plane is
    in partial enforcement. *)

From stdpp Require Import base gmap list strings.
From S2P Require Import Prelude GoStd GoNet Model Common Inspection Guards Locality.

Open Scope Z_scope.

Definition eastWestProtocols : list string :=
  ["rdp"; "smb"; "cifs"; "winrm"; "wmi_rpc"; "dcom_rpc"; "ssh"; "vnc"; "rmm"; "rmm_agent";
   "database"; "db"; "management_tcp"].

Definition IsEastWestProtocol (serviceFamily : string) : bool :=
  containsString eastWestProtocols (folded serviceFamily).

(** [ServiceTransportPorts] is [None] for Go's nil map. *)
Record EastWestRule := mkEWRule {
  ewr_ID : string;
  ewr_Priority : Z;
  ewr_SourceUsers : list string;
  ewr_SourceGroups : list string;
  ewr_SourceDevices : list string;
  ewr_Destinations : list string;
  ewr_Protocols : list string;
  ewr_ServiceTransportPorts : option (gmap string (list Z));
  ewr_Mode : string;
  ewr_Warn : bool;
  ewr_MaxTTLSeconds : Z;
  ewr_DeviceAttestedAuto : bool;
  ewr_RequiredWorkloadAttestation : bool;
  ewr_RequiredIdPID : string;
  ewr_MinACR : string;
  ewr_RequiredAMR : list string;
  ewr_MaxAgeSeconds : Z;
  ewr_MaxAgeSecondsSet : bool;
  ewr_RiskSeverities : list string;
}.

#[export] Instance EastWestRule_eta : Etaable EastWestRule := fun r =>
  mkEWRule (ewr_ID r) (ewr_Priority r) (ewr_SourceUsers r) (ewr_SourceGroups r)
    (ewr_SourceDevices r) (ewr_Destinations r) (ewr_Protocols r)
    (ewr_ServiceTransportPorts r) (ewr_Mode r) (ewr_Warn r) (ewr_MaxTTLSeconds r)
    (ewr_DeviceAttestedAuto r) (ewr_RequiredWorkloadAttestation r) (ewr_RequiredIdPID r)
    (ewr_MinACR r) (ewr_RequiredAMR r) (ewr_MaxAgeSeconds r) (ewr_MaxAgeSecondsSet r)
    (ewr_RiskSeverities r).
#[export] Instance EastWestRule_eq_dec : EqDecision EastWestRule.
Proof. solve_decision. Defined.

Definition zero_EastWestRule : EastWestRule :=
  mkEWRule "" 0 [] [] [] [] [] None "" false 0 false false "" "" [] 0 false [].

(** The transport-bound device identity; the claimed one only without it. *)
Definition AuthoritativeDeviceIdentity (req : DecisionRequest) : string :=
  let id := trim_space (req_TransportDeviceIdentity req) in
  if nonempty id then id else trim_space (req_DeviceID req).

Definition eastWestSelectorMatches (selector candidates : list string) : bool :=
  match selector with
  | [] => true
  | _ => existsb (fun s =>
           let s := trim_space s in
           nonempty s && existsb (fun c => String.eqb s (trim_space c)) candidates) selector
  end.

(** Two texts that parse to the same address, IPv4-mapped or not. *)
Definition same_address (s c : string) : bool :=
  match parse_addr (trim_space s), parse_addr (trim_space c) with
  | Some want, Some got => bool_decide (unmap want = unmap got)
  | _, _ => false
  end.

Definition eastWestDestinationMatches (selector candidates : list string) : bool :=
  eastWestSelectorMatches selector candidates
  || existsb (fun s => existsb (same_address s) candidates) selector.

Definition is_nil {A} (l : list A) : bool := match l with [] => true | _ => false end.

Definition ewSourceMatches (r : EastWestRule) (req : DecisionRequest) : bool :=
  let sel l cands := negb (is_nil l) && eastWestSelectorMatches l cands in
  if negb (is_nil (ewr_SourceUsers r)) || negb (is_nil (ewr_SourceGroups r))
     || negb (is_nil (ewr_SourceDevices r))
  then sel (ewr_SourceUsers r) [req_UserID req; req_SubjectUserID req]
       || sel (ewr_SourceGroups r) (req_UserGroups req)
       || sel (ewr_SourceDevices r) [AuthoritativeDeviceIdentity req]
  else true.

Definition ewServiceMatches (r : EastWestRule) (req : DecisionRequest) : bool :=
  match ewr_ServiceTransportPorts r with
  | None => eastWestSelectorMatches (ewr_Protocols r) [req_ServiceFamily req]
  | Some ports =>
      existsb (fun port => (port =? req_DestinationPort req) && (0 <? port))
        (default [] (ports !! folded (req_Protocol req)))
  end.

(** [EastWestRule.matches] *)
Definition ewr_matches (r : EastWestRule) (req : DecisionRequest) : bool :=
  ewSourceMatches r req
  && eastWestDestinationMatches (ewr_Destinations r)
       [req_Destination req; req_ApplicationID req; req_FQDN req]
  && ewServiceMatches r req
  && eastWestSelectorMatches (ewr_RiskSeverities r) [req_RiskStateSeverity req].

Definition ewLess : EastWestRule → EastWestRule → bool :=
  lex_Z ewr_Priority (fun _ _ => false).

Definition MatchedEastWestRule (rules : list EastWestRule) (req : DecisionRequest)
    : option EastWestRule :=
  List.find (fun r => ewr_matches r req) (sort_stable ewLess rules).

(** ** Ephemeral grants *)

Record EastWestGrant := mkEWGrant {
  ewg_SubjectUserID : string;
  ewg_DeviceID : string;
  ewg_Destination : string;
  ewg_Protocol : string;
  ewg_ExpiresAt : Z;
  ewg_LastUsedAt : Z;
  ewg_IdleTTLSeconds : Z;
}.

#[export] Instance EastWestGrant_eta : Etaable EastWestGrant := fun g =>
  mkEWGrant (ewg_SubjectUserID g) (ewg_DeviceID g) (ewg_Destination g) (ewg_Protocol g)
    (ewg_ExpiresAt g) (ewg_LastUsedAt g) (ewg_IdleTTLSeconds g).

(** [EastWestGrant.matches] *)
Definition ewg_matches (g : EastWestGrant) (req : DecisionRequest) (now : Z) : bool :=
  if negb (now <? ewg_ExpiresAt g) then false
  else if (0 <? ewg_IdleTTLSeconds g)
          && (wrap64 (ewg_IdleTTLSeconds g * second) <? time_sub now (ewg_LastUsedAt g))
  then false
  else if nonempty (ewg_Protocol g)
          && negb (equal_fold (ewg_Protocol g) (trim_space (req_ServiceFamily req)))
  then false
  else if nonempty (ewg_SubjectUserID g)
          && negb (String.eqb (ewg_SubjectUserID g) (req_SubjectUserID req))
          && negb (String.eqb (ewg_SubjectUserID g) (req_UserID req))
  then false
  else if nonempty (ewg_DeviceID g)
          && negb (String.eqb (ewg_DeviceID g) (AuthoritativeDeviceIdentity req))
  then false
  else if nonempty (ewg_Destination g)
          && negb (String.eqb (ewg_Destination g) (req_Destination req))
          && negb (String.eqb (ewg_Destination g) (req_ApplicationID req))
  then false
  else true.

(** The east-west fields of [Evaluator]. *)
Record EastWestConfig := mkEWConfig {
  ewc_AllowUnmatched : bool;
  ewc_InternalNetworks : InternalNetworks;
  ewc_Rules : list EastWestRule;
  ewc_MaxGrantTTLSeconds : Z;
  ewc_Grants : list EastWestGrant;
}.

Definition hasValidEastWestGrant (e : EastWestConfig) (req : DecisionRequest) (now : Z) : bool :=
  existsb (fun g => ewg_matches g req now) (ewc_Grants e).

Definition eastWestDeviceAttestationEligible (req : DecisionRequest) : bool :=
  req_TransportClientCertVerified req && negb (is_blank (req_TransportDeviceIdentity req)).

(** ** The decision *)

Inductive EastWestMode : Set := EWAllow | EWAuthenticate | EWDeny.

(** An unknown mode, like no rule at all, is deny. *)
Definition eastWestModeOf (rule : option EastWestRule) : EastWestMode :=
  match rule with
  | None => EWDeny
  | Some r => switch (folded (ewr_Mode r))
                [(["allow"], EWAllow); (["authenticate"], EWAuthenticate)] EWDeny
  end.

Definition eastWestStepUpActions (rule : EastWestRule) : list DecisionAction :=
  let aged := ewr_MaxAgeSecondsSet rule || negb (ewr_MaxAgeSeconds rule =? 0) in
  [mk_action "prompt_reauthentication" None
     (if 0 <? ewr_MaxAgeSeconds rule then intPtr (ewr_MaxAgeSeconds rule) else None)
     ([("east_west", VBool true)]
      ++ set_if "required_idp_id" (trim_space (ewr_RequiredIdPID rule))
      ++ set_if "min_acr" (trim_space (ewr_MinACR rule))
      ++ when (negb (is_nil (ewr_RequiredAMR rule)))
           [("required_amr", VStrs (ewr_RequiredAMR rule))]
      ++ when (negb (ewr_MaxTTLSeconds rule =? 0))
           [("grant_ttl_seconds", VInt (ewr_MaxTTLSeconds rule))]
      ++ when aged [("max_age_seconds", VInt (ewr_MaxAgeSeconds rule))])].

Definition eastWestWarnActions (rule : EastWestRule) (req : DecisionRequest)
    : list DecisionAction :=
  [mk_action "warn_notice" None None
     ([("east_west", VBool true);
       ("message", VStr
         "This internal connection is monitored. Authentication will soon be required to reach it.")]
      ++ set_if "destination" (trim_space (req_Destination req))
      ++ set_if "service_family" (trim_space (req_ServiceFamily req))
      ++ set_if "rule_id" (trim_space (ewr_ID rule)))].

(** The rule demands a ceremony that a grant or a device cannot replace. *)
Definition requiresFederatedProof (rule : EastWestRule) : bool :=
  ewr_MaxAgeSecondsSet rule || negb (ewr_MaxAgeSeconds rule =? 0)
  || negb (is_blank (ewr_RequiredIdPID rule)) || negb (is_blank (ewr_MinACR rule))
  || negb (is_nil (ewr_RequiredAMR rule)).

(** The tenant ceiling on the rule's grant lifetime; a negative one is passed on. *)
Definition capGrantTTL (cap : Z) (rule : EastWestRule) : EastWestRule :=
  let ttl := ewr_MaxTTLSeconds rule in
  if cap <? 0 then rule <| ewr_MaxTTLSeconds := cap |>
  else if (0 <? cap) && ((ttl =? 0) || (0 <? ttl) && (cap <? ttl))
  then rule <| ewr_MaxTTLSeconds := cap |> else rule.

Record outcome := mkOutcome {
  out_Decision : string;
  out_Reason : string;
  out_Codes : list string;
  out_Actions : list DecisionAction;
}.

Definition eastWestAuthenticate (e : EastWestConfig) (rule : EastWestRule)
    (req : DecisionRequest) (now : Z) : outcome :=
  let federated := requiresFederatedProof rule in
  if negb federated && hasValidEastWestGrant e req now then
    mkOutcome "allow" "East-west access released by a valid ephemeral grant."
      ["east_west_grant_satisfied"] []
  else if negb federated && ewr_DeviceAttestedAuto rule
          && eastWestDeviceAttestationEligible req then
    mkOutcome "allow"
      "East-west access allowed by device attestation (verified mTLS device + trusted posture)."
      ["east_west_device_attested"] []
  else
    mkOutcome "authenticate_required" "East-west access requires interactive authentication."
      ["east_west_authentication_required"]
      (eastWestStepUpActions (capGrantTTL (ewc_MaxGrantTTLSeconds e) rule)).

Definition eastWestUnmatched (e : EastWestConfig) : outcome :=
  if ewc_AllowUnmatched e then
    mkOutcome "allow"
      "East-west access permitted (Partial Enforce: no rule matched; unmatched default is allow-all)."
      ["east_west_unmatched_allow"] []
  else
    mkOutcome "deny" "East-west access denied by default-deny per-hop policy."
      ["east_west_default_deny"] [].

Definition eastWestDecisionFor (e : EastWestConfig) (req : DecisionRequest) (now : Z) : outcome :=
  let matched := MatchedEastWestRule (ewc_Rules e) req in
  let mode := eastWestModeOf matched in
  match matched with
  | None => eastWestUnmatched e
  | Some rule =>
      if ewr_Warn rule && match mode with EWAllow => false | _ => true end then
        mkOutcome "allow"
          "East-west access permitted in Warn stage (monitored; enforcement not yet active)."
          ["east_west_warn"] (eastWestWarnActions rule req)
      else if match mode with EWDeny => false | _ => true end
              && ewr_RequiredWorkloadAttestation rule
              && negb (workloadAttestationSatisfied (req_WorkloadAttestationState req)) then
        mkOutcome "require_workload_attestation"
          "East-west policy requires verified workload attestation."
          ["east_west_workload_attestation_required"]
          (actionsForPolicyDecision "require_workload_attestation" req
             (zero_Policy <| pol_ID := ewr_ID rule |>))
      else match mode with
           | EWAllow => mkOutcome "allow" "East-west access permitted by per-hop policy."
                          ["east_west_policy_allow"] []
           | EWAuthenticate => eastWestAuthenticate e rule req now
           | EWDeny => mkOutcome "deny" "East-west access denied by per-hop policy."
                         ["east_west_policy_deny"] []
           end
  end.

Definition IsEastWestFlow (req : DecisionRequest) (declared : InternalNetworks) : bool :=
  if req_ConnectorRouteVerified req then true
  else if negb (IsEastWestProtocol (req_ServiceFamily req)) then false
  else EastWestLocalityAdmits (ClassifyDestinationLocality req declared).

(** * Properties *)

#[export] Instance ewLess_weak : WeakOrder ewLess.
Proof. apply lex_Z_weak. split; done. Qed.

(** The rule that governs a request: the first one of the lowest priority number
    among those that match. *)
Definition governs (e : EastWestConfig) (req : DecisionRequest) (r : EastWestRule) : Prop :=
  ∃ l1 l2, ewc_Rules e = l1 ++ r :: l2 ∧ ewr_matches r req = true ∧
    (∀ q, q ∈ l1 → ewr_matches q req = true → ewr_Priority r < ewr_Priority q) ∧
    (∀ q, q ∈ l2 → ewr_matches q req = true → ewr_Priority r ≤ ewr_Priority q).

Lemma ewLess_true r q : ewLess r q = true ↔ ewr_Priority r < ewr_Priority q.
Proof. unfold ewLess, lex_Z. case_match; bool_facts; rewrite ?Z.ltb_lt; naive_solver lia. Qed.

Lemma ewLess_false r q : ewLess r q = false ↔ ewr_Priority q ≤ ewr_Priority r.
Proof. rewrite <- not_true_iff_false, ewLess_true. lia. Qed.

Lemma matched_governs e req r :
  MatchedEastWestRule (ewc_Rules e) req = Some r ↔ governs e req r.
Proof.
  unfold MatchedEastWestRule, governs. rewrite find_sort_stable_first by apply _.
  unfold first_min. by setoid_rewrite ewLess_true; setoid_rewrite ewLess_false.
Qed.

Lemma matched_none e req :
  MatchedEastWestRule (ewc_Rules e) req = None ↔
  ∀ r, r ∈ ewc_Rules e → ewr_matches r req = false.
Proof. apply find_sort_stable_none, _. Qed.

(** The workload proof a rule asks for is there. *)
Definition ewAttested (r : EastWestRule) (req : DecisionRequest) : Prop :=
  ewr_RequiredWorkloadAttestation r = true →
  workloadAttestationSatisfied (req_WorkloadAttestationState req) = true.

(** The rule asks for nothing that only a federated login can show. *)
Definition ewNoCeremony (r : EastWestRule) : Prop :=
  ewr_MaxAgeSecondsSet r = false ∧ ewr_MaxAgeSeconds r = 0 ∧
  trim_space (ewr_RequiredIdPID r) = "" ∧ trim_space (ewr_MinACR r) = "" ∧ ewr_RequiredAMR r = [].

(** What the plane promises: the ways a lateral request may be let through. *)
Inductive ewPermitted (e : EastWestConfig) (req : DecisionRequest) (now : Z) : Prop :=
  | permit_unmatched :
      ewc_AllowUnmatched e = true →
      (∀ r, r ∈ ewc_Rules e → ewr_matches r req = false) → ewPermitted e req now
  | permit_warn r :
      governs e req r → ewr_Warn r = true → folded (ewr_Mode r) ≠ "allow" →
      ewPermitted e req now
  | permit_rule r :
      governs e req r → folded (ewr_Mode r) = "allow" → ewAttested r req →
      ewPermitted e req now
  | permit_grant r g :
      governs e req r → folded (ewr_Mode r) = "authenticate" → ewAttested r req →
      ewNoCeremony r → g ∈ ewc_Grants e → ewg_matches g req now = true →
      ewPermitted e req now
  | permit_device r :
      governs e req r → folded (ewr_Mode r) = "authenticate" → ewAttested r req →
      ewNoCeremony r → ewr_DeviceAttestedAuto r = true →
      eastWestDeviceAttestationEligible req = true → ewPermitted e req now.

Lemma eastWestModeOf_words r :
  (eastWestModeOf (Some r) = EWAllow ↔ folded (ewr_Mode r) = "allow") ∧
  (eastWestModeOf (Some r) = EWAuthenticate ↔ folded (ewr_Mode r) = "authenticate").
Proof.
  unfold eastWestModeOf. cbn [switch containsString existsb]. rewrite !orb_false_r.
  destruct (String.eqb_spec "allow" (folded (ewr_Mode r))) as [<-|];
    [split; split; done|].
  destruct (String.eqb_spec "authenticate" (folded (ewr_Mode r))) as [<-|];
    [split; split; done|]. split; split; congruence.
Qed.

Lemma requiresFederatedProof_false r : requiresFederatedProof r = false ↔ ewNoCeremony r.
Proof.
  unfold requiresFederatedProof, ewNoCeremony, is_blank.
  rewrite !orb_false_iff, !negb_false_iff, Z.eqb_eq, !is_empty_true.
  destruct (ewr_RequiredAMR r); cbn; intuition congruence.
Qed.

Lemma hasValidEastWestGrant_spec e req now :
  hasValidEastWestGrant e req now = true ↔
  ∃ g, g ∈ ewc_Grants e ∧ ewg_matches g req now = true.
Proof.
  unfold hasValidEastWestGrant. rewrite existsb_exists. by setoid_rewrite list_elem_of_In.
Qed.

Lemma eastWestAuthenticate_allow e r req now :
  out_Decision (eastWestAuthenticate e r req now) = "allow" ↔
  ewNoCeremony r ∧
  (hasValidEastWestGrant e req now = true ∨
   ewr_DeviceAttestedAuto r = true ∧ eastWestDeviceAttestationEligible req = true).
Proof.
  rewrite <- requiresFederatedProof_false.
  unfold eastWestAuthenticate. destruct (requiresFederatedProof r); [naive_solver|].
  destruct (hasValidEastWestGrant e req now); [naive_solver|].
  destruct (ewr_DeviceAttestedAuto r), (eastWestDeviceAttestationEligible req); naive_solver.
Qed.

(** The decision under a governing rule, when no proof is missing and nothing is
    softened. *)
Lemma eastWestDecisionFor_governed e req now r :
  MatchedEastWestRule (ewc_Rules e) req = Some r →
  out_Decision (eastWestDecisionFor e req now) = "allow" ↔
  ewr_Warn r = true ∧ folded (ewr_Mode r) ≠ "allow" ∨
  ewAttested r req ∧
  (folded (ewr_Mode r) = "allow" ∨
   folded (ewr_Mode r) = "authenticate" ∧
   out_Decision (eastWestAuthenticate e r req now) = "allow").
Proof.
  intros Hm. destruct (eastWestModeOf_words r) as [<- <-].
  unfold eastWestDecisionFor, ewAttested. rewrite Hm.
  destruct (eastWestModeOf (Some r)), (ewr_Warn r), (ewr_RequiredWorkloadAttestation r),
    (workloadAttestationSatisfied (req_WorkloadAttestationState req)); cbn -[eastWestAuthenticate];
    naive_solver.
Qed.

(** The lateral plane lets a request through exactly when one of the
    permissions holds: partial enforcement with no rule for it, or the governing
    rule (first of the lowest priority number) in its warn stage, in allow mode with
    the workload proof it asks for, or in authenticate mode released by a live grant
    or an attested device where no federated ceremony is demanded. *)
Theorem eastWest_allow_iff e req now :
  out_Decision (eastWestDecisionFor e req now) = "allow" ↔ ewPermitted e req now.
Proof.
  destruct (MatchedEastWestRule (ewc_Rules e) req) as [r|] eqn:Hm.
  - rewrite (eastWestDecisionFor_governed _ _ _ _ Hm), eastWestAuthenticate_allow,
      hasValidEastWestGrant_spec.
    assert (∀ r', governs e req r' ↔ r' = r) as Hg.
    { intros r'. rewrite <- matched_governs, Hm. naive_solver. }
    split.
    + pose proof (proj2 (Hg r) eq_refl).
      intros [[? ?]|[? [?|(? & ? & [(g & ? & ?)|[? ?]])]]];
        [eapply permit_warn|eapply permit_rule|eapply permit_grant|eapply permit_device];
        done.
    + pose proof (proj2 (matched_none e req)) as Hn. rewrite Hm in Hn.
      intros [? Hall| | | |]; [by specialize (Hn Hall)|..];
        repeat match goal with H : governs _ _ _ |- _ => apply Hg in H as -> end; eauto 10.
  - pose proof (proj1 (matched_none e req) Hm) as Hn.
    unfold eastWestDecisionFor, eastWestUnmatched. rewrite Hm. split.
    + destruct (ewc_AllowUnmatched e) eqn:?; [|done]. intros _. by apply permit_unmatched.
    + intros [-> ?| | | |]; [done|..]; exfalso;
        match goal with H : governs _ _ _ |- _ => apply matched_governs in H end; congruence.
Qed.

Lemma AuthoritativeDeviceIdentity_claim req d :
  is_blank (req_TransportDeviceIdentity req) = false →
  AuthoritativeDeviceIdentity (req <| req_DeviceID := d |>) = AuthoritativeDeviceIdentity req.
Proof.
  unfold AuthoritativeDeviceIdentity, is_blank, nonempty. destruct req; cbn.
  by intros ->.
Qed.

Lemma ewr_matches_claim r req d :
  is_blank (req_TransportDeviceIdentity req) = false →
  ewr_matches r (req <| req_DeviceID := d |>) = ewr_matches r req.
Proof.
  intros H. unfold ewr_matches, ewSourceMatches.
  rewrite AuthoritativeDeviceIdentity_claim by done. by destruct req.
Qed.

Lemma ewg_matches_claim g req d now :
  is_blank (req_TransportDeviceIdentity req) = false →
  ewg_matches g (req <| req_DeviceID := d |>) now = ewg_matches g req now.
Proof.
  intros H. unfold ewg_matches.
  rewrite AuthoritativeDeviceIdentity_claim by done. by destruct req.
Qed.

Lemma find_ext {A} (f g : A → bool) l :
  (∀ x, f x = g x) → List.find f l = List.find g l.
Proof. intros Hfg. induction l as [|x l IH]; cbn; [done|]. by rewrite Hfg, IH. Qed.

Lemma existsb_ext {A} (f g : A → bool) l : (∀ x, f x = g x) → existsb f l = existsb g l.
Proof. intros Hfg. induction l as [|x l IH]; cbn; [done|]. by rewrite Hfg, IH. Qed.

(** Once the transport has proved a device, the device identifier the
    client writes into the request has no influence on the lateral decision: neither
    on the rule, nor on the grant, nor on the actions. *)
Theorem eastWest_ignores_claimed_device e req d now :
  is_blank (req_TransportDeviceIdentity req) = false →
  eastWestDecisionFor e (req <| req_DeviceID := d |>) now = eastWestDecisionFor e req now.
Proof.
  intros H. unfold eastWestDecisionFor, MatchedEastWestRule, eastWestAuthenticate,
    hasValidEastWestGrant.
  rewrite (find_ext _ (fun r => ewr_matches r req)) by (intros; by apply ewr_matches_claim).
  rewrite (existsb_ext _ (fun g => ewg_matches g req now))
    by (intros; by apply ewg_matches_claim).
  by destruct req.
Qed.

Lemma eastWest_ignores_claimed_device_witness :
  let g := mkEWGrant "" "dev-1" "" "" 10 0 0 in
  let r := zero_EastWestRule <| ewr_Mode := "authenticate" |> in
  let req := zero_DecisionRequest <| req_TransportDeviceIdentity := "dev-2" |> in
  let e := mkEWConfig false (mkInternalNetworks [] []) [r] 0 [g] in
  is_blank (req_TransportDeviceIdentity req) = false ∧
  out_Decision (eastWestDecisionFor e (req <| req_DeviceID := "dev-1" |>) 5)
  = "authenticate_required".
Proof.
  split; [reflexivity|].
  rewrite (eastWest_ignores_claimed_device _ _ "dev-1" 5); reflexivity.
Defined.

(** Plane membership: a request is lateral when a connector route governs
    it, or when it speaks a lateral protocol to a destination not classified public;
    a destination is never classified public when its address is internal or
    declared, and declaring more networks never takes a request off the plane. *)
Theorem eastWest_flow_spec req n :
  (IsEastWestFlow req n = true ↔
   req_ConnectorRouteVerified req = true ∨
   IsEastWestProtocol (req_ServiceFamily req) = true ∧
   ClassifyDestinationLocality req n ≠ LocalityPublic) ∧
  (∀ ip, destinationAddress req = Some ip →
         isInternalAddress ip = true ∨ matchesCIDR n ip = true →
         ClassifyDestinationLocality req n ≠ LocalityPublic) ∧
  (∀ m, networks_incl n m → IsEastWestFlow req n = true → IsEastWestFlow req m = true).
Proof.
  assert (∀ k, IsEastWestFlow req k = true ↔
    req_ConnectorRouteVerified req = true ∨
    IsEastWestProtocol (req_ServiceFamily req) = true ∧
    ClassifyDestinationLocality req k ≠ LocalityPublic) as Hiff.
  { intros k. unfold IsEastWestFlow, EastWestLocalityAdmits.
    destruct (req_ConnectorRouteVerified req); [naive_solver|].
    destruct (IsEastWestProtocol _); cbn; [|naive_solver].
    rewrite bool_decide_eq_true. naive_solver. }
  split_and!; [done| |].
  - intros ip Hip Hor Hp. apply classify_public in Hp as (_ & ip' & Hip' & Hc & Hint).
    destruct Hor; congruence.
  - intros m Hi. rewrite !Hiff. intros [?|[? Hn]]; [by left|]. right. split; [done|].
    contradict Hn. by eapply classify_public_mono.
Qed.

(** The text spells the IPv4 address [b], plainly or IPv4-mapped. *)
Definition spells_v4 (b : Z) (s : string) : Prop :=
  parse_addr (trim_space s) ∈ [Some (A4 b); Some (mapped b)].

Lemma spells_v4_unmap b s :
  0 ≤ b < 2 ^ 32 → spells_v4 b s →
  ∃ a, parse_addr (trim_space s) = Some a ∧ unmap a = A4 b.
Proof.
  intros Hb [->|[->|[]%not_elem_of_nil]%elem_of_cons]%elem_of_cons; eexists;
    (split; [done|]); [done|by apply unmap_mapped].
Qed.

(** An authored IPv4 destination also covers the IPv4-mapped IPv6 form
    of the address in whichever field of the request it appears, and conversely. *)
Theorem eastWest_mapped_destination selector candidates s c b :
  0 ≤ b < 2 ^ 32 → s ∈ selector → c ∈ candidates → spells_v4 b s → spells_v4 b c →
  eastWestDestinationMatches selector candidates = true.
Proof.
  intros Hb Hs Hc (x & Hx & Hux)%spells_v4_unmap (y & Hy & Huy)%spells_v4_unmap; [|done..].
  unfold eastWestDestinationMatches. apply orb_true_iff. right.
  apply existsb_exists. exists s. split; [by apply list_elem_of_In|].
  apply existsb_exists. exists c. split; [by apply list_elem_of_In|].
  unfold same_address. rewrite Hx, Hy, Hux, Huy. by rewrite bool_decide_eq_true.
Qed.

Lemma eastWest_mapped_destination_witness :
  eastWestDestinationMatches ["10.200.0.11"] ["::ffff:ac8:b"; "app"; ""] = true.
Proof.
  apply (eastWest_mapped_destination _ _ "10.200.0.11" "::ffff:ac8:b" 180879371);
    [lia|left|left|apply list_elem_of_In; left; reflexivity
    |apply list_elem_of_In; right; left; reflexivity].
Defined.

(** The smaller of two limits, where zero means none. *)
Definition limit_min (cap ttl : Z) : Z := if ttl =? 0 then cap else cap `min` ttl.

Lemma capGrantTTL_min cap r :
  0 < cap → 0 ≤ ewr_MaxTTLSeconds r →
  ewr_MaxTTLSeconds (capGrantTTL cap r) = limit_min cap (ewr_MaxTTLSeconds r).
Proof.
  intros Hc Hr. unfold capGrantTTL, limit_min.
  destruct (Z.ltb_spec cap 0); [lia|]. destruct (Z.ltb_spec 0 cap); [|lia].
  destruct (Z.eqb_spec (ewr_MaxTTLSeconds r) 0); [by destruct r|]. cbn.
  destruct (Z.ltb_spec 0 (ewr_MaxTTLSeconds r)); [cbn|lia].
  destruct (Z.ltb_spec cap (ewr_MaxTTLSeconds r)); [destruct r; cbn in *|]; lia.
Qed.

Lemma eastWestStepUpActions_ttl r :
  ewr_MaxTTLSeconds r ≠ 0 →
  ∃ a, eastWestStepUpActions r = [a] ∧
       act_Metadata a !! "grant_ttl_seconds" = Some (VInt (ewr_MaxTTLSeconds r)).
Proof.
  intros H%Z.eqb_neq. unfold eastWestStepUpActions. rewrite H. cbn [negb when].
  eexists. split; [done|]. cbn [act_Metadata mk_action].
  rewrite !app_assoc, <- (app_assoc _ [_]). apply set_keys_last.
  intros Hin%fst_when. by apply list_elem_of_singleton in Hin.
Qed.

(** Under a positive tenant ceiling, an authentication demand never asks
    for a grant that outlives the ceiling, and keeps a shorter limit of the rule: the
    lifetime it carries is the smaller of the two, a zero limit counting as none. *)
Theorem eastWest_grant_ttl_capped e req now r :
  MatchedEastWestRule (ewc_Rules e) req = Some r →
  out_Decision (eastWestDecisionFor e req now) = "authenticate_required" →
  0 < ewc_MaxGrantTTLSeconds e → 0 ≤ ewr_MaxTTLSeconds r →
  ∃ a, out_Actions (eastWestDecisionFor e req now) = [a] ∧
       act_Metadata a !! "grant_ttl_seconds"
       = Some (VInt (limit_min (ewc_MaxGrantTTLSeconds e) (ewr_MaxTTLSeconds r))).
Proof.
  intros Hm. unfold eastWestDecisionFor. rewrite Hm.
  destruct (_ && _); [done|]. destruct (_ && _); [done|].
  destruct (eastWestModeOf (Some r)); [done| |done].
  unfold eastWestAuthenticate. destruct (_ && _); [done|]. destruct (_ && _); [done|].
  intros _ Hcap Hr. cbn [out_Actions]. rewrite <- capGrantTTL_min by done.
  apply eastWestStepUpActions_ttl. rewrite capGrantTTL_min by done.
  unfold limit_min. destruct (Z.eqb_spec (ewr_MaxTTLSeconds r) 0); lia.
Qed.

Lemma eastWest_grant_ttl_capped_witness :
  let r := zero_EastWestRule <| ewr_Mode := "authenticate" |> <| ewr_MaxTTLSeconds := 3600 |> in
  let e := mkEWConfig false (mkInternalNetworks [] []) [r] 900 [] in
  ∃ a, out_Actions (eastWestDecisionFor e zero_DecisionRequest 0) = [a] ∧
       act_Metadata a !! "grant_ttl_seconds" = Some (VInt 900).
Proof.
  intros r e. apply (eastWest_grant_ttl_capped e zero_DecisionRequest 0 r);
    [reflexivity|reflexivity|reflexivity|discriminate].
Defined.
