(* ===== verification/ServerInitiated.v ===== *)
(** * Server-initiated access ([src/decision/server_initiated.go],
    [src/decision/legacy_exception.go])

    A connection from a server to a client is denied unless an active, unexpired
    legacy exception of a permissive mode covers it. *)

From stdpp Require Import base gmap list strings.
From S2P Require Import Prelude GoStd Model Common.

Open Scope Z_scope.

Record LegacyException := mkLegacyException {
  le_ID : string;
  le_SourceServer : string;
  le_DeviceGroup : string;
  le_ServiceFamily : string;
  le_Protocol : string;
  le_Port : Z;
  le_Mode : string;
  le_ExpiresAt : Z;
  le_Active : bool;
}.

#[export] Instance LegacyException_eta : Etaable LegacyException := fun r =>
  mkLegacyException (le_ID r) (le_SourceServer r) (le_DeviceGroup r) (le_ServiceFamily r)
    (le_Protocol r) (le_Port r) (le_Mode r) (le_ExpiresAt r) (le_Active r).

Definition legacyExceptionFromModel (ex : LegacyExceptionRecord) : LegacyException :=
  let mode := trim_space (lex_Mode ex) in
  let mode := if is_empty mode then "allow" else mode in
  let value := trim_space (lex_ExpiresAt ex) in
  let '(mode, expires) :=
    if nonempty value
    then match parse_rfc3339 value with
         | Some t => (mode, t)
         | None => ("invalid", zero_time)
         end
    else (mode, zero_time) in
  mkLegacyException (lex_ID ex) (lex_SourceServer ex) (lex_DeviceGroup ex)
    (lex_ServiceFamily ex) (lex_Protocol ex) (lex_Port ex) mode expires
    (equal_fold (trim_space (lex_Status ex)) "active").

Definition LegacyExceptionsFromModel (exs : list LegacyExceptionRecord) : list LegacyException :=
  List.map legacyExceptionFromModel exs.

Definition isServerInitiated (req : DecisionRequest) : bool :=
  containsString ["server"; "server_initiated"] (folded (req_ConnectionInitiator req))
  || equal_fold (trim_space (req_SourceRole req)) "server"
     && equal_fold (trim_space (req_DestinationRole req)) "client".

Definition legacyFieldMatch (exVal reqVal : string) : bool :=
  let exVal := trim_space exVal in
  if is_empty exVal then true else equal_fold exVal (trim_space reqVal).

(** The body of the loop of [matchLegacyException]. *)
Definition legacyExceptionCovers (req : DecisionRequest) (now : Z) (ex : LegacyException)
    : bool :=
  le_Active ex
  && negb (negb (is_zero_time (le_ExpiresAt ex)) && negb (now <? le_ExpiresAt ex))
  && legacyFieldMatch (le_SourceServer ex) (req_SourceServer req)
  && legacyFieldMatch (le_DeviceGroup ex) (req_DeviceGroup req)
  && legacyFieldMatch (le_ServiceFamily ex) (req_ServiceFamily req)
  && legacyFieldMatch (le_Protocol ex) (req_Protocol req)
  && negb (negb (le_Port ex =? 0) && negb (le_Port ex =? req_DestinationPort req)).

Definition matchLegacyException (exceptions : list LegacyException) (req : DecisionRequest)
    (now : Z) : option LegacyException :=
  List.find (legacyExceptionCovers req now) exceptions.

(** Decision, reason and reason codes. *)
Definition serverInitiatedDecisionFor (exceptions : list LegacyException)
    (req : DecisionRequest) (now : Z) : string * string * list string :=
  match matchLegacyException exceptions req now with
  | None =>
      ("deny", "Server-initiated access denied by default-deny (no active Legacy Exception).",
       ["server_initiated_default_deny"])
  | Some ex =>
      switch (folded (le_Mode ex)) [
        (["deny"],
          ("deny", "Server-initiated access denied by Legacy Exception.",
           ["server_initiated_legacy_exception_deny"]));
        (["warn"],
          ("allow", "Server-initiated access allowed (warn) by Legacy Exception.",
           ["server_initiated_legacy_exception_warn"]));
        (["observe"],
          ("allow", "Server-initiated access allowed (observe) by Legacy Exception.",
           ["server_initiated_legacy_exception_observe"]));
        (["allow"],
          ("allow", "Server-initiated access allowed by Legacy Exception.",
           ["server_initiated_legacy_exception_allow"]))
      ] ("deny",
         "Server-initiated access denied because the matching Legacy Exception is invalid.",
         ["server_initiated_invalid_exception"])
  end.

(** * Properties *)

(** Live: active and, when it has an expiry, not yet expired. *)
Definition le_live (now : Z) (ex : LegacyException) : Prop :=
  le_Active ex = true ∧ (le_ExpiresAt ex = zero_time ∨ now < le_ExpiresAt ex).

(** A selector names a value: it is blank, or the same text but for case and padding. *)
Definition le_names (selector value : string) : Prop :=
  trim_space selector = "" ∨ to_lower (trim_space selector) = to_lower (trim_space value).

(** What an exception promises to cover, read off its fields. *)
Record le_covers (req : DecisionRequest) (now : Z) (ex : LegacyException) : Prop := {
  lc_live : le_live now ex;
  lc_source : le_names (le_SourceServer ex) (req_SourceServer req);
  lc_group : le_names (le_DeviceGroup ex) (req_DeviceGroup req);
  lc_family : le_names (le_ServiceFamily ex) (req_ServiceFamily req);
  lc_protocol : le_names (le_Protocol ex) (req_Protocol req);
  lc_port : le_Port ex = 0 ∨ le_Port ex = req_DestinationPort req;
}.

(** The first exception that covers the request, in the configured order, lets it through. *)
Definition exceptionPermits (exceptions : list LegacyException) (req : DecisionRequest) (now : Z)
    : Prop :=
  ∃ l1 ex l2, exceptions = l1 ++ ex :: l2 ∧ (∀ x, x ∈ l1 → ¬ le_covers req now x) ∧
    le_covers req now ex ∧ folded (le_Mode ex) ∈ ["allow"; "warn"; "observe"].

Lemma legacyFieldMatch_spec ex v : legacyFieldMatch ex v = true ↔ le_names ex v.
Proof.
  unfold legacyFieldMatch, le_names. destruct (is_empty (trim_space ex)) eqn:E.
  - apply is_empty_true in E. naive_solver.
  - unfold equal_fold. rewrite String.eqb_eq. split; [by right|]. intros [H|]; [|done].
    apply is_empty_true in H. congruence.
Qed.

Lemma legacyExceptionCovers_spec req now ex :
  legacyExceptionCovers req now ex = true ↔ le_covers req now ex.
Proof.
  unfold legacyExceptionCovers, is_zero_time.
  rewrite !andb_true_iff, !negb_true_iff, !andb_false_iff, !negb_false_iff, !legacyFieldMatch_spec,
    !Z.eqb_eq, Z.ltb_lt.
  split; [intros; destruct_and!; by constructor|]. intros [[] ? ? ? ?]. by repeat split.
Qed.

Lemma legacyExceptionCovers_false req now ex :
  legacyExceptionCovers req now ex = false ↔ ¬ le_covers req now ex.
Proof. by rewrite <- not_true_iff_false, legacyExceptionCovers_spec. Qed.

Lemma find_first {A} (f : A → bool) l x :
  List.find f l = Some x ↔
  ∃ l1 l2, l = l1 ++ x :: l2 ∧ f x = true ∧ ∀ y, y ∈ l1 → f y = false.
Proof.
  split.
  - induction l as [|a l IH]; cbn; [done|]. destruct (f a) eqn:E.
    + intros [= ->]. exists [], l. set_solver.
    + intros (l1 & l2 & -> & Hx & H1)%IH. exists (a :: l1), l2. set_solver.
  - intros (l1 & l2 & -> & Hx & H1). induction l1 as [|a l1 IH]; cbn; [by rewrite Hx|].
    rewrite H1 by left. apply IH. set_solver.
Qed.

Lemma permissive_mode mode (d : string * string * list string) a b c e :
  a.1.1 = "deny" → b.1.1 = "allow" → c.1.1 = "allow" → e.1.1 = "allow" → d.1.1 = "deny" →
  (switch mode [(["deny"], a); (["warn"], b); (["observe"], c); (["allow"], e)] d).1.1 = "allow" ↔
  mode ∈ ["allow"; "warn"; "observe"].
Proof.
  intros. cbn [switch containsString existsb]. rewrite !orb_false_r.
  repeat match goal with |- context [String.eqb ?a ?b] => destruct (String.eqb_spec a b) end;
    subst; split; try congruence; try set_solver.
Qed.

(** A server-initiated connection is allowed exactly when the first
    exception that covers it, in the configured order, is in mode allow, warn or
    observe; that exception is active and not past its expiry.  No later exception
    can override an earlier deny or malformed one. *)
Theorem serverInitiated_allow_iff exceptions req now :
  (serverInitiatedDecisionFor exceptions req now).1.1 = "allow" ↔
  exceptionPermits exceptions req now.
Proof.
  unfold serverInitiatedDecisionFor, exceptionPermits.
  setoid_rewrite <- legacyExceptionCovers_spec. setoid_rewrite not_true_iff_false.
  destruct (matchLegacyException exceptions req now) as [ex|] eqn:Hm; unfold matchLegacyException in Hm.
  - rewrite permissive_mode by done. split.
    + intros H. apply find_first in Hm as (l1 & l2 & ? & ? & ?). eauto 10.
    + intros (l1 & ex' & l2 & Hl & H1 & Hc & Hmode).
      assert (List.find (legacyExceptionCovers req now) exceptions = Some ex')
        by (apply find_first; eauto). congruence.
  - split; [done|]. intros (l1 & ex & l2 & -> & _ & Hc & _).
    eapply find_none in Hm; [|apply in_elt]. congruence.
Qed.

(** A stored exception whose expiry does not parse still stands in the
    way of the ones after it: the traffic it covers is denied, never let through as if
    the exception had no expiry. *)
Theorem malformed_expiry_denies ex rest req now :
  nonempty (trim_space (lex_ExpiresAt ex)) = true →
  parse_rfc3339 (trim_space (lex_ExpiresAt ex)) = None →
  legacyExceptionCovers req now (legacyExceptionFromModel ex) = true →
  serverInitiatedDecisionFor (LegacyExceptionsFromModel (ex :: rest)) req now
  = ("deny", "Server-initiated access denied because the matching Legacy Exception is invalid.",
     ["server_initiated_invalid_exception"]).
Proof.
  intros Hne Hp Hc. unfold serverInitiatedDecisionFor, matchLegacyException.
  cbn [LegacyExceptionsFromModel List.map List.find]. rewrite Hc.
  unfold legacyExceptionFromModel. by rewrite Hne, Hp.
Qed.

Lemma malformed_expiry_denies_witness :
  let ex := zero_LegacyExceptionRecord <| lex_Status := "active" |>
              <| lex_ExpiresAt := "next tuesday" |> in
  let ok := zero_LegacyExceptionRecord <| lex_Status := "active" |> in
  (serverInitiatedDecisionFor (LegacyExceptionsFromModel [ex; ok])
     zero_DecisionRequest 0).1.1 = "deny".
Proof.
  intros ex ok. rewrite (malformed_expiry_denies ex [ok] zero_DecisionRequest 0);
    reflexivity.
Defined.
