(* ===== verification/Evaluator.v ===== *)
(** * The decision ([Evaluator.Evaluate] in [src/decision/evaluator.go])

    One request against the server-initiated, the lateral and the policy plane, in
    that order.  A matched policy runs through its guards as a pipeline of steps on
    the variables of [Evaluate].  The clock reading and the random decision ID are
    arguments: [Evaluate] reads the clock once per helper, here they agree. *)

From stdpp Require Import base gmap list strings.
From S2P Require Import Prelude GoStd Model Common Conditions PolicyOrder SaaSCatalog Inspection SwgEnforcement.
From S2P Require Import BreakGlass Guards Locality EastWest ServerInitiated.

Open Scope Z_scope.

Record Evaluator := mkEvaluator {
  ev_Policies : list Policy;
  ev_PolicyBundle : PolicyBundle;
  ev_EdgeRegionID : string;
  ev_EdgeClusterID : string;
  ev_EastWestEnabled : bool;
  ev_EastWest : EastWestConfig;
  ev_ServerInitiatedEnabled : bool;
  ev_LegacyExceptions : list LegacyException;
  ev_TenantRestrictionHeaderValues : gmap string string;
}.

#[export] Instance Evaluator_eta : Etaable Evaluator := fun e =>
  mkEvaluator (ev_Policies e) (ev_PolicyBundle e) (ev_EdgeRegionID e) (ev_EdgeClusterID e)
    (ev_EastWestEnabled e) (ev_EastWest e) (ev_ServerInitiatedEnabled e) (ev_LegacyExceptions e)
    (ev_TenantRestrictionHeaderValues e).

(** ** The metadata a decision starts from *)

Definition decisionRequestHasToolMCPContext (req : DecisionRequest) : bool :=
  existsb nonempty [
    req_ToolID req; req_ToolActionType req; req_ToolPermissionProfile req;
    req_ToolVersion req; req_ToolSignatureState req; req_MCPServerID req;
    req_MCPResourceURI req; req_MCPAudience req; req_MCPTokenPassthroughPolicy req;
    req_RuntimeEnvironmentID req ].

Definition set_flag (key : string) (b : bool) : list (string * any) :=
  when b [(key, VBool true)].
Definition set_list (key : string) (l : list string) : list (string * any) :=
  when (negb (is_nil l)) [(key, VStrs l)].

Definition decisionMetadata (req : DecisionRequest) : metadata :=
  set_keys ∅ (
    set_if "actor_type" (req_ActorType req)
    ++ set_if "subject_user_id" (valueOrDefault (req_SubjectUserID req) (req_UserID req))
    ++ set_if "mfa_state" (req_MFAState req)
    ++ set_if "auth_time" (req_AuthTime req)
    ++ set_if "acr" (req_ACR req)
    ++ set_list "amr" (req_AMR req)
    ++ set_if "auth_method" (req_AuthMethod req)
    ++ set_if "idp_id" (req_IDPID req)
    ++ set_if "issuer" (req_Issuer req)
    ++ set_if "device_trust_level" (req_DeviceTrustLevel req)
    ++ set_if "actor_nhi_id" (req_ActorNHIID req)
    ++ set_if "delegated_access_grant_id" (req_DelegatedAccessGrantID req)
    ++ set_if "tool_id" (req_ToolID req)
    ++ set_if "tool_action_type" (req_ToolActionType req)
    ++ set_if "tool_permission_profile" (req_ToolPermissionProfile req)
    ++ set_if "tool_version" (req_ToolVersion req)
    ++ set_if "tool_signature_state" (req_ToolSignatureState req)
    ++ set_if "mcp_server_id" (req_MCPServerID req)
    ++ set_if "mcp_resource_uri" (req_MCPResourceURI req)
    ++ set_if "mcp_audience" (req_MCPAudience req)
    ++ set_if "mcp_token_passthrough_policy" (req_MCPTokenPassthroughPolicy req)
    ++ set_if "runtime_environment_id" (req_RuntimeEnvironmentID req)
    ++ when (decisionRequestHasToolMCPContext req)
         [ ("agent_tool_metadata_scope", VStr "metadata_only");
           ("mcp_metadata_scope", VStr "metadata_only");
           ("tool_payload_recorded", VBool false);
           ("tool_secret_recorded", VBool false);
           ("tool_credentials_recorded", VBool false) ]
    ++ set_if "context_boundary_id" (req_ContextBoundaryID req)
    ++ set_if "data_classification" (req_DataClassification req)
    ++ set_if "human_approval_event_id" (req_HumanApprovalEventID req)
    ++ set_if "human_approval_event_trust_state" (req_HumanApprovalEventTrustState req)
    ++ set_if "human_approval_event_binding_state" (req_HumanApprovalEventBindingState req)
    ++ set_if "human_approval_event_freshness_state" (req_HumanApprovalEventFreshnessState req)
    ++ set_if "workload_attestation_state" (req_WorkloadAttestationState req)
    ++ set_if "risk_state_id" (req_RiskStateID req)
    ++ set_if "risk_state_severity" (req_RiskStateSeverity req)
    ++ set_if "risk_recommended_action" (req_RiskRecommendedAction req)
    ++ set_list "risk_signal_sources" (req_RiskSignalSources req)
    ++ set_flag "admin_high_risk" (req_AdminHighRisk req)
    ++ set_if "idp_risk_level" (req_IDPRiskLevel req)
    ++ set_flag "agent_tamper_signal" (req_AgentTamperSignal req)
    ++ set_flag "authentication_anomaly" (req_AuthenticationAnomaly req)
    ++ set_if "saas_application_id" (req_SaaSApplicationID req)
    ++ set_if "saas_name" (req_SaaSName req)
    ++ set_if "saas_provider" (req_SaaSProvider req)
    ++ set_if "saas_category" (req_SaaSCategory req)
    ++ set_if "saas_risk_tier" (req_SaaSRiskTier req)
    ++ set_if "saas_matched_domain" (req_SaaSMatchedDomain req)
    ++ set_if "saas_matched_pattern" (req_SaaSMatchedPattern req)
    ++ set_if "saas_match_type" (req_SaaSMatchType req)
    ++ set_if "requested_inspection_profile_id" (req_InspectionProfileID req)
    ++ set_if "requested_inspection_mode" (req_InspectionMode req)
    ++ set_if "requested_trust_profile_id" (req_TrustProfileID req)
    ++ set_if "requested_tenant_root_ca_id" (req_TenantRootCAID req)
    ++ set_if "requested_quic_policy_mode" (req_QUICPolicyMode req)
    ++ set_if "requested_quic_policy_action" (req_QUICPolicyAction req)).

(** ** The variables of [Evaluate] *)

Record evaluation := mkEvaluation {
  es_Decision : string;
  es_Reason : string;
  es_Codes : list string;
  es_Matched : list string;
  es_Actions : list DecisionAction;
  es_PolicyID : string;
  es_TokenBinding : string;
  es_Workload : string;
  es_Metadata : metadata;
  es_InspectionProfileID : option string;
  es_InspectionMode : option string;
  es_RouteCategory : option string;
  es_ExecutionScope : option string;
  es_Bypass : bool;
}.

#[export] Instance evaluation_eta : Etaable evaluation := fun r =>
  mkEvaluation (es_Decision r) (es_Reason r) (es_Codes r) (es_Matched r) (es_Actions r)
    (es_PolicyID r) (es_TokenBinding r) (es_Workload r) (es_Metadata r)
    (es_InspectionProfileID r) (es_InspectionMode r) (es_RouteCategory r)
    (es_ExecutionScope r) (es_Bypass r).

Definition initialEvaluation (req : DecisionRequest) : evaluation :=
  mkEvaluation "deny" "No active policy matched the request." ["no_policy_match"] [] [] ""
    (req_TokenBindingState req) (req_WorkloadAttestationState req) (decisionMetadata req)
    None None None None false.

Definition put (k : string) (v : any) (s : evaluation) : evaluation :=
  s <| es_Metadata := <[k := v]> (es_Metadata s) |>.

(** ** A matched policy, step by step *)

Definition policyDecisionValue (policy : Policy) : string :=
  let d := trim_space (pact_Decision (pol_Action policy)) in
  if is_empty d then "deny" else d.

Definition adoptPolicy (policy : Policy) (s : evaluation) : evaluation :=
  let s := s <| es_PolicyID := pol_ID policy |> in
  let s := put "matched_policy_tenant_id" (VStr (pol_TenantID policy)) s in
  let s := s <| es_Decision := policyDecisionValue policy |> in
  match pol_Log policy with
  | Some b => put "log_traffic" (VBool b) s
  | None => s
  end.

Definition workloadGuard (policy : Policy) (s : evaluation) : evaluation :=
  if (String.eqb (es_Decision s) "allow"
      || String.eqb (es_Decision s) "require_reauthentication")
     && pol_RequiredWorkloadAttestation policy
     && negb (workloadAttestationSatisfied (es_Workload s))
  then s <| es_Decision := "require_workload_attestation" |> <| es_Workload := "required" |>
  else s.

Definition freshnessGuard (now : Z) (policy : Policy) (req : DecisionRequest)
    (s : evaluation) : evaluation :=
  if negb (String.eqb (es_Decision s) "allow") then s else
  let maxAge := intMetadata (pol_Metadata policy) "authentication_max_age_seconds" 0 in
  if (0 <? maxAge) && authenticationStale now req maxAge
  then put "authentication_max_age_seconds" (VInt maxAge)
         (put "reauthentication_reason" (VStr "authentication_max_age_exceeded")
            (s <| es_Decision := "require_reauthentication" |>))
  else s.

Definition deriveFromDecision (policy : Policy) (names : list string) (req : DecisionRequest)
    (actorType : string) (s : evaluation) : evaluation :=
  let d := es_Decision s in
  let s := s <| es_Reason := reasonForPolicyDecision d actorType |>
             <| es_Codes := reasonCodesForPolicyDecision d actorType |>
             <| es_Matched := names |>
             <| es_Actions := actionsForPolicyDecision d req policy |> in
  if is_empty (es_TokenBinding s) && pol_RequiredTokenBinding policy
  then s <| es_TokenBinding := "required" |> else s.

Definition toolBoundaryGuard (policy : Policy) (req : DecisionRequest) (s : evaluation)
    : evaluation :=
  if negb (String.eqb (es_Decision s) "allow") then s else
  match toolActionBoundaryViolation policy req with
  | None => s
  | Some code =>
      let s := s <| es_Decision := "deny" |>
        <| es_Reason := "Request matched a policy but the tool action is outside the permitted agentic boundary." |>
        <| es_Codes := ["policy_matched"; "tool_action_out_of_boundary"; code] |>
        <| es_Actions := [] |> in
      put "tool_action_boundary_violation" (VStr code)
        (put "tool_action_boundary_enforced" (VBool true) s)
  end.

Definition humanApprovalGuard (policy : Policy) (req : DecisionRequest) (s : evaluation)
    : evaluation :=
  if String.eqb (es_Decision s) "allow" && pol_RequiredHumanApproval policy then
    match humanApprovalRequirementReasonCodes req policy with
    | [] =>
        s <| es_Metadata :=
          applyHumanApprovalEventContractMetadata (es_Metadata s) req policy true |>
    | codes =>
        let s := s <| es_Decision := "require_human_approval" |>
          <| es_Reason := "Request matched a policy that requires human approval." |>
          <| es_Codes := ["policy_matched"; "human_approval_required"] ++ codes |>
          <| es_Actions := [humanApprovalRequestAction req policy] |> in
        let s := put "human_approval_request_scope" (VStr "metadata_only")
                   (put "human_approval_required" (VBool true) s) in
        s <| es_Metadata :=
          applyHumanApprovalEventContractMetadata (es_Metadata s) req policy false |>
    end
  else s.

Definition breakGlassGuard (now : Z) (policy : Policy) (req : DecisionRequest)
    (s : evaluation) : evaluation :=
  let ctx := breakGlassPolicyContextFor now policy req in
  if bg_Configured ctx then
    let '(d, reason, codes, actions) :=
      applyBreakGlassPolicyGuard (es_Decision s) (es_Reason s) (es_Codes s) (es_Actions s)
        policy req ctx in
    s <| es_Metadata := applyBreakGlassPolicyMetadata (es_Metadata s) ctx |>
      <| es_Decision := d |> <| es_Reason := reason |> <| es_Codes := codes |>
      <| es_Actions := actions |>
  else s.

Definition inspectionStep (ctx : tlsInspectionReadinessContext) (policy : Policy)
    (req : DecisionRequest) (s : evaluation) : evaluation :=
  let p := tic_Profile ctx in
  if tic_Configured ctx then
    let '(route, scope) := inspectionRoutingForTLSInspectionContext ctx in
    let s := s <| es_InspectionProfileID := stringPtr (ipf_ID p) |>
      <| es_InspectionMode := if nonempty (ipf_InspectionMode p)
                              then stringPtr (ipf_InspectionMode p) else es_InspectionMode s |>
      <| es_RouteCategory := stringPtr route |> <| es_ExecutionScope := stringPtr scope |> in
    let m := applyTLSInspectionReadinessMetadata (es_Metadata s) ctx in
    s <| es_Metadata :=
           applyEdgeInspectionRoutingMetadata m route scope "inspection_profile" false |>
      <| es_Codes := appendTLSInspectionReadinessReasonCodes (es_Codes s) ctx |>
      <| es_Actions := appendTLSInspectionReadinessActions (es_Actions s) ctx req policy |>
  else
    let id := trim_space (default "" (pol_InspectionProfileID policy)) in
    if nonempty id
    then put "inspection_profile_resolution" (VStr "missing")
           (s <| es_InspectionProfileID := stringPtr id |>)
    else s.

Definition swgStep (ctx : swgTenantEnforcementContext) (policy : Policy)
    (req : DecisionRequest) (s : evaluation) : evaluation :=
  if negb (swg_Configured ctx) then s else
  let s := s <| es_Metadata := applySWGTenantEnforcementMetadata (es_Metadata s) ctx |> in
  let s :=
    if is_some_b (swg_TLSBypassRule ctx) then
      s <| es_Bypass := true |> <| es_RouteCategory := stringPtr "passthrough" |>
        <| es_ExecutionScope := stringPtr "not_executed_metadata_only" |>
        <| es_Metadata := applyEdgeInspectionRoutingMetadata (es_Metadata s) "passthrough"
             "not_executed_metadata_only" "swg_tls_bypass_rule" true |>
    else s in
  s <| es_Codes := appendSWGTenantEnforcementReasonCodes (es_Codes s) ctx |>
    <| es_Actions := appendSWGTenantEnforcementActions (es_Actions s) ctx req policy |>.

Definition dlpStep (bundle : PolicyBundle) (ctx : swgTenantEnforcementContext)
    (policy : Policy) (req : DecisionRequest) (s : evaluation) : evaluation :=
  let directive (a : DecisionAction) (id : string) :=
    put "dlp_rule_id" (VStr id) (s <| es_Actions := es_Actions s ++ [a] |>) in
  match swg_TLSBypassRule ctx with
  | Some _ => s
  | None =>
      match pol_DLP policy with
      | Some spec => directive (dlpInspectActionFromSpec (pol_ID policy) spec) (pol_ID policy)
      | None =>
          match firstDLPRule bundle req policy with
          | Some rule => directive (dlpInspectAction rule) (dlpr_ID rule)
          | None => s
          end
      end
  end.

(** The guards, then the enforcement options. *)
Definition runGuards (now : Z) (policy : Policy) (names : list string) (req : DecisionRequest)
    (actorType : string) (s : evaluation) : evaluation :=
  breakGlassGuard now policy req
    (humanApprovalGuard policy req
      (toolBoundaryGuard policy req
        (deriveFromDecision policy names req actorType
          (freshnessGuard now policy req
            (workloadGuard policy
              (adoptPolicy policy s)))))).

Definition runEnforcement (bundle : PolicyBundle) (policy : Policy) (req : DecisionRequest)
    (s : evaluation) : evaluation :=
  let ictx := tlsInspectionReadinessContextFor bundle policy req in
  let swg := swgTenantEnforcementContextFor bundle policy req ictx in
  dlpStep bundle swg policy req (swgStep swg policy req (inspectionStep ictx policy req s)).

Definition matchedPolicyEvaluation (now : Z) (bundle : PolicyBundle) (policy : Policy)
    (names : list string) (req : DecisionRequest) (actorType : string) (s : evaluation)
    : evaluation :=
  runEnforcement bundle policy req (runGuards now policy names req actorType s).

(** ** The planes *)

Definition serverInitiatedEvaluation (e : Evaluator) (req : DecisionRequest) (now : Z)
    (s : evaluation) : evaluation :=
  let '(d, reason, codes) := serverInitiatedDecisionFor (ev_LegacyExceptions e) req now in
  put "server_initiated_authorization" (VBool true)
    (s <| es_Decision := d |> <| es_Reason := reason |> <| es_Codes := codes |>
       <| es_PolicyID := "server_initiated_policy" |>).

Definition eastWestEvaluation (e : Evaluator) (req : DecisionRequest) (now : Z)
    (s : evaluation) : evaluation :=
  let o := eastWestDecisionFor (ev_EastWest e) req now in
  let s := s <| es_Decision := out_Decision o |> <| es_Reason := out_Reason o |>
    <| es_Codes := out_Codes o |> <| es_Actions := es_Actions s ++ out_Actions o |>
    <| es_PolicyID := "east_west_policy" |> in
  put "destination_locality"
    (VStr (locality_String
      (ClassifyDestinationLocality req (ewc_InternalNetworks (ev_EastWest e)))))
    (put "east_west_protocol" (VStr (folded (req_ServiceFamily req)))
      (put "east_west_authorization" (VBool true) s)).

Definition policyEvaluation (e : Evaluator) (req : DecisionRequest) (actorType : string)
    (now : Z) (s : evaluation) : evaluation :=
  match firstMatchedPolicyWithDiagnosis now (ev_Policies e) req actorType with
  | (Some (policy, names), _) =>
      matchedPolicyEvaluation now (ev_PolicyBundle e) policy names req actorType s
  | (None, whyNot) =>
      if nonempty whyNot
      then s <| es_Reason := "No active policy matched the request. " +:+ whyNot +:+ "." |>
      else s
  end.

Definition onServerPlane (e : Evaluator) (req : DecisionRequest) : bool :=
  ev_ServerInitiatedEnabled e && isServerInitiated req.
Definition onEastWestPlane (e : Evaluator) (req : DecisionRequest) : bool :=
  ev_EastWestEnabled e && IsEastWestFlow req (ewc_InternalNetworks (ev_EastWest e)).

Definition actorTypeOf (req : DecisionRequest) : string :=
  valueOrDefault (req_ActorType req) "human".

Definition evaluate (e : Evaluator) (req : DecisionRequest) (now : Z) : evaluation :=
  let s := initialEvaluation req in
  if onServerPlane e req then serverInitiatedEvaluation e req now s
  else if onEastWestPlane e req then eastWestEvaluation e req now s
  else policyEvaluation e req (actorTypeOf req) now s.

Definition decisionFrom (e : Evaluator) (req : DecisionRequest) (id : string) (now : Z)
    (s : evaluation) : AccessDecision := {|
  dec_ID := id;
  dec_TenantID := valueOrDefault (req_TenantID req) (firstPolicyTenantID (ev_Policies e));
  dec_SessionID := stringPtr (req_SessionID req);
  dec_AuthenticationEventID := stringPtr (req_AuthenticationEventID req);
  dec_UserID := stringPtr (req_UserID req);
  dec_SubjectUserID := stringPtr (valueOrDefault (req_SubjectUserID req) (req_UserID req));
  dec_ActorType := actorTypeOf req;
  dec_ActorNHIID := stringPtr (req_ActorNHIID req);
  dec_DelegatedAccessGrantID := stringPtr (req_DelegatedAccessGrantID req);
  dec_AgentTaskSessionID := stringPtr (req_AgentTaskSessionID req);
  dec_ToolID := stringPtr (req_ToolID req);
  dec_ToolActionType := stringPtr (req_ToolActionType req);
  dec_ToolPermissionProfile := stringPtr (req_ToolPermissionProfile req);
  dec_ToolVersion := stringPtr (req_ToolVersion req);
  dec_ToolSignatureState := stringPtr (req_ToolSignatureState req);
  dec_MCPServerID := stringPtr (req_MCPServerID req);
  dec_MCPResourceURI := stringPtr (req_MCPResourceURI req);
  dec_MCPAudience := stringPtr (req_MCPAudience req);
  dec_MCPTokenPassthroughPolicy := stringPtr (req_MCPTokenPassthroughPolicy req);
  dec_RuntimeEnvironmentID := stringPtr (req_RuntimeEnvironmentID req);
  dec_ContextBoundaryID := stringPtr (req_ContextBoundaryID req);
  dec_DataClassification := stringPtr (req_DataClassification req);
  dec_DeviceID := stringPtr (req_DeviceID req);
  dec_ApplicationID := req_ApplicationID req;
  dec_PolicyID := es_PolicyID s;
  dec_PolicyBundleID := bun_ID (ev_PolicyBundle e);
  dec_PolicyBundleVersion := bun_Version (ev_PolicyBundle e);
  dec_RiskStateID := stringPtr (req_RiskStateID req);
  dec_SourceIP := stringPtr (req_SourceIP req);
  dec_SourcePort := intPtr (req_SourcePort req);
  dec_Destination := stringPtr (req_Destination req);
  dec_DestinationIP := stringPtr (req_DestinationIP req);
  dec_DestinationPort := intPtr (req_DestinationPort req);
  dec_RequestMethod := None;
  dec_RequestPath := None;
  dec_Protocol := stringPtr (req_Protocol req);
  dec_FQDN := stringPtr (req_FQDN req);
  dec_SNI := stringPtr (req_SNI req);
  dec_ServiceFamily := stringPtr (req_ServiceFamily req);
  dec_SaaSContext := saasContextFromRequest req;
  dec_ConnectionInitiator := stringPtr (req_ConnectionInitiator req);
  dec_SourceRole := stringPtr (req_SourceRole req);
  dec_DestinationRole := stringPtr (req_DestinationRole req);
  dec_SourceVLANID := None;
  dec_DestinationVLANID := None;
  dec_MatchedConditions := es_Matched s;
  dec_TokenBindingState := stringPtr (es_TokenBinding s);
  dec_WorkloadAttestationState := stringPtr (es_Workload s);
  dec_HumanApprovalEventID := stringPtr (req_HumanApprovalEventID req);
  dec_Decision := es_Decision s;
  dec_Reason := Some (es_Reason s);
  dec_ReasonCodes := es_Codes s;
  dec_Actions := es_Actions s;
  dec_Bypass := es_Bypass s;
  dec_InspectionProfileID := es_InspectionProfileID s;
  dec_InspectionMode := es_InspectionMode s;
  dec_InspectionRouteCategory := es_RouteCategory s;
  dec_InspectionExecutionScope := es_ExecutionScope s;
  dec_EdgeRegionID := stringPtr (ev_EdgeRegionID e);
  dec_EdgeClusterID := stringPtr (ev_EdgeClusterID e);
  dec_ConnectorID := stringPtr (req_ConnectorID req);
  dec_CacheStatus := "miss";
  dec_TTLSeconds := 60;
  dec_Timestamp := format_rfc3339 now;
  dec_Metadata := es_Metadata s |}.

(** [Evaluator.Evaluate], with the decision ID drawn and the clock read outside. *)
Definition Evaluate (e : Evaluator) (req : DecisionRequest) (id : string) (now : Z)
    : AccessDecision :=
  let req := decisionRequestWithSaaSContext (ev_PolicyBundle e) req in
  decisionFrom e req id now (evaluate e req now).

Definition IsDefaultDeny (dec : AccessDecision) : bool :=
  if negb (String.eqb (dec_Decision dec) "deny") then false
  else if (0 <? length (dec_MatchedConditions dec))%nat then false
  else containsString (dec_ReasonCodes dec) "no_policy_match".

(** * Properties *)

(** ** The guards *)

Lemma put_decision k v s : es_Decision (put k v s) = es_Decision s.
Proof. done. Qed.
Lemma put_workload k v s : es_Workload (put k v s) = es_Workload s.
Proof. done. Qed.
#[export] Hint Rewrite put_decision put_workload : go_rewrite.

(** Closes a goal about one guard once its conditions are known. *)
Ltac guard_cases :=
  split; intros; destruct_and?;
  repeat match goal with
  | H : ?P → _, H' : ?P |- _ => specialize (H H')
  | H : true = true → _ |- _ => specialize (H eq_refl)
  end;
  destruct_and?; repeat split; intros; try lia; first [done|congruence|solve [auto]].

Lemma adopt_fields policy s :
  es_Decision (adoptPolicy policy s) = policyDecisionValue policy ∧
  es_Workload (adoptPolicy policy s) = es_Workload s ∧
  es_PolicyID (adoptPolicy policy s) = pol_ID policy.
Proof. unfold adoptPolicy. by destruct (pol_Log policy). Qed.

Lemma workloadGuard_allow policy s :
  es_Decision (workloadGuard policy s) = "allow" ↔
  es_Decision s = "allow" ∧
  (pol_RequiredWorkloadAttestation policy = true →
   workloadAttestationSatisfied (es_Workload s) = true).
Proof.
  unfold workloadGuard. destruct (String.eqb_spec (es_Decision s) "allow") as [E|E]; cbn [negb andb orb].
  - rewrite E. destruct (pol_RequiredWorkloadAttestation policy),
      (workloadAttestationSatisfied (es_Workload s)); cbn [negb andb orb]; rewrite ?E; guard_cases.
  - destruct (String.eqb (es_Decision s) "require_reauthentication"),
      (pol_RequiredWorkloadAttestation policy),
      (workloadAttestationSatisfied (es_Workload s)); cbn [negb andb orb]; guard_cases.
Qed.

Definition maxAgeOf (policy : Policy) : Z :=
  intMetadata (pol_Metadata policy) "authentication_max_age_seconds" 0.

Definition freshEnough (now : Z) (policy : Policy) (req : DecisionRequest) : Prop :=
  0 < maxAgeOf policy →
  ∃ age, breakGlassAuthAgeSeconds now (req_AuthTime req) = Some age ∧ age ≤ maxAgeOf policy.

Lemma freshnessGuard_allow now policy req s :
  es_Decision (freshnessGuard now policy req s) = "allow" ↔
  es_Decision s = "allow" ∧ freshEnough now policy req.
Proof.
  unfold freshnessGuard, freshEnough, maxAgeOf. rewrite <- authenticationStale_false.
  destruct (String.eqb_spec (es_Decision s) "allow") as [E|E]; cbn [negb andb orb]; [|guard_cases].
  destruct (Z.ltb_spec 0 (intMetadata (pol_Metadata policy) "authentication_max_age_seconds" 0));
    cbn [negb andb orb]; [|rewrite E; guard_cases].
  destruct (authenticationStale _ _ _); cbn [negb andb orb]; [guard_cases|rewrite E; guard_cases].
Qed.

Lemma derive_decision policy names req actorType s :
  es_Decision (deriveFromDecision policy names req actorType s) = es_Decision s.
Proof. unfold deriveFromDecision. by case_match. Qed.

Lemma toolBoundaryGuard_allow policy req s :
  es_Decision (toolBoundaryGuard policy req s) = "allow" ↔
  es_Decision s = "allow" ∧ toolActionBoundaryViolation policy req = None.
Proof.
  unfold toolBoundaryGuard. destruct (String.eqb_spec (es_Decision s) "allow") as [E|E]; cbn [negb andb orb];
    [|guard_cases].
  destruct (toolActionBoundaryViolation policy req); cbn [negb andb orb]; guard_cases.
Qed.

Lemma humanApprovalGuard_allow policy req s :
  es_Decision (humanApprovalGuard policy req s) = "allow" ↔
  es_Decision s = "allow" ∧
  (pol_RequiredHumanApproval policy = true → approvalEvidence policy req).
Proof.
  unfold humanApprovalGuard. rewrite <- humanApproval_none.
  destruct (String.eqb_spec (es_Decision s) "allow") as [E|E]; cbn [negb andb orb]; [|guard_cases].
  destruct (pol_RequiredHumanApproval policy); [|guard_cases].
  destruct (humanApprovalRequirementReasonCodes req policy); cbn [negb andb orb]; guard_cases.
Qed.

Definition breakGlassHolds (now : Z) (policy : Policy) (req : DecisionRequest) : Prop :=
  breakGlassPolicyConfigured policy = true →
  breakGlassPolicyRequirementsSatisfied (breakGlassPolicyContextFor now policy req) = true ∧
  breakGlassRuntimeSatisfied (breakGlassPolicyContextFor now policy req) = true.

Lemma breakGlassGuard_step_allow now policy req s :
  es_Decision (breakGlassGuard now policy req s) = "allow" ↔
  es_Decision s = "allow" ∧ breakGlassHolds now policy req.
Proof.
  unfold breakGlassGuard, breakGlassHolds. rewrite breakGlass_configured.
  destruct (breakGlassPolicyConfigured policy); [|guard_cases].
  unfold applyBreakGlassPolicyGuard.
  destruct (breakGlassPolicyRequirementsSatisfied _), (breakGlassRuntimeSatisfied _),
    (String.eqb_spec (es_Decision s) "allow"); cbn [negb andb orb]; guard_cases.
Qed.

Lemma inspectionStep_decision ctx policy req s :
  es_Decision (inspectionStep ctx policy req s) = es_Decision s.
Proof. unfold inspectionStep. repeat case_match; done. Qed.

Lemma swgStep_decision ctx policy req s :
  es_Decision (swgStep ctx policy req s) = es_Decision s.
Proof. unfold swgStep. repeat case_match; done. Qed.

Lemma dlpStep_decision bundle ctx policy req s :
  es_Decision (dlpStep bundle ctx policy req s) = es_Decision s.
Proof. unfold dlpStep. repeat case_match; done. Qed.

Lemma runEnforcement_decision bundle policy req s :
  es_Decision (runEnforcement bundle policy req s) = es_Decision s.
Proof.
  unfold runEnforcement. by rewrite dlpStep_decision, swgStep_decision, inspectionStep_decision.
Qed.

(** Everything a matched policy asks for before it lets a request through. *)
Record policyGrants (now : Z) (policy : Policy) (req : DecisionRequest) (workload : string)
    : Prop := {
  pg_allow : policyDecisionValue policy = "allow";
  pg_workload : pol_RequiredWorkloadAttestation policy = true →
                workloadAttestationSatisfied workload = true;
  pg_fresh : freshEnough now policy req;
  pg_tool : toolActionBoundaryViolation policy req = None;
  pg_approval : pol_RequiredHumanApproval policy = true → approvalEvidence policy req;
  pg_break_glass : breakGlassHolds now policy req;
}.

Lemma runGuards_allow now policy names req actorType s :
  es_Decision (runGuards now policy names req actorType s) = "allow" ↔
  policyGrants now policy req (es_Workload s).
Proof.
  unfold runGuards.
  rewrite breakGlassGuard_step_allow, humanApprovalGuard_allow, toolBoundaryGuard_allow,
    derive_decision, freshnessGuard_allow, workloadGuard_allow.
  destruct (adopt_fields policy s) as (-> & -> & _).
  split; [intros [[[[[]]]]]; by constructor|by intros []].
Qed.
