(* ===== verification/Decision.v ===== *)
(** * What a decision guarantees

    The properties of [Evaluate] as a whole: exactly when it allows, when it is the
    default deny, whose policies and which request fields have a say, and what a TLS
    bypass rules out. *)

From stdpp Require Import base gmap list strings.
From S2P Require Import Prelude GoStd Model Common Conditions PolicyOrder SaaSCatalog Inspection SwgEnforcement.
From S2P Require Import BreakGlass Guards Locality EastWest ServerInitiated Evaluator.

Open Scope Z_scope.

(** ** Allow *)

(** The policy that decides a request: the first of the most urgent matches. *)
Definition decidingPolicy (e : Evaluator) (req : DecisionRequest) (now : Z) (p : Policy)
    : Prop :=
  first_min policyLess (matches_b now req (actorTypeOf req)) (ev_Policies e) p.

(** One of the listed tools is the one the request names, but for case and padding. *)
Definition toolListed (allowed : list string) (value : string) : Prop :=
  trim_space value ≠ "" ∧
  ∃ item, item ∈ allowed ∧ to_lower (trim_space item) = to_lower (trim_space value).

(** The authentication of a request is known and at most so many seconds old. *)
Definition authenticatedWithin (now : Z) (req : DecisionRequest) (seconds : Z) : Prop :=
  is_blank (req_AuthTime req) = false ∧
  ∃ t, parse_rfc3339 (req_AuthTime req) = Some t ∧
    0 ≤ seconds ∧ whole_seconds (time_sub now t) ≤ seconds.

(** What an emergency access policy asks for: a session of an hour at most, strong
    authentication and audit demanded by the policy, and a strong authentication of this
    request younger than the session. *)
Record emergencyAllowed (now : Z) (p : Policy) (req : DecisionRequest) : Prop := {
  ea_session : 0 < breakGlassMaxSessionSeconds p ≤ 3600;
  ea_strong : pol_BreakGlassStrongAuthRequired p = true
              ∨ boolMetadataValue (pol_Metadata p) "break_glass_strong_auth_required" = true;
  ea_audit : pol_BreakGlassAuditRequired p = true
             ∨ boolMetadataValue (pol_Metadata p) "break_glass_audit_required" = true;
  ea_shown : breakGlassStrongAuthSatisfied req = true;
  ea_fresh : authenticatedWithin now req (breakGlassMaxSessionSeconds p);
}.

(** Everything a policy may ask for before it lets a request through. *)
Record safeguards (now : Z) (p : Policy) (req : DecisionRequest) : Prop := {
  sg_allow : policyDecisionValue p = "allow";
  sg_workload : pol_RequiredWorkloadAttestation p = true →
                folded (req_WorkloadAttestationState req) ∈ ["verified"; "valid"];
  sg_fresh : 0 < maxAgeOf p → authenticatedWithin now req (maxAgeOf p);
  sg_tool : pol_AllowedToolIDs p ≠ [] → toolListed (pol_AllowedToolIDs p) (req_ToolID req);
  sg_action : pol_AllowedToolActions p ≠ [] →
              toolListed (pol_AllowedToolActions p) (req_ToolActionType req);
  sg_approval : pol_RequiredHumanApproval p = true → approvalEvidence p req;
  sg_break_glass : breakGlassPolicyConfigured p = true → emergencyAllowed now p req;
}.

(** The contract of the decision, on a request with its SaaS context. *)
Inductive permitted (e : Evaluator) (req : DecisionRequest) (now : Z) : Prop :=
  | permitted_by_exception :
      onServerPlane e req = true →
      exceptionPermits (ev_LegacyExceptions e) req now →
      permitted e req now
  | permitted_on_lateral_plane :
      onServerPlane e req = false → onEastWestPlane e req = true →
      ewPermitted (ev_EastWest e) req now →
      permitted e req now
  | permitted_by_policy p :
      onServerPlane e req = false → onEastWestPlane e req = false →
      decidingPolicy e req now p → safeguards now p req →
      permitted e req now.

Lemma toolBoundaryListContains_spec allowed value :
  toolBoundaryListContains allowed value = true ↔ toolListed allowed value.
Proof.
  unfold toolBoundaryListContains, toolListed, equal_fold.
  destruct (is_empty (trim_space value)) eqn:E.
  - apply is_empty_true in E. naive_solver.
  - rewrite existsb_exists. setoid_rewrite String.eqb_eq. setoid_rewrite <- list_elem_of_In.
    assert (trim_space value ≠ "") by (intros H; apply is_empty_true in H; congruence). naive_solver.
Qed.

Lemma toolBoundary_listed p req :
  toolActionBoundaryViolation p req = None ↔
  (pol_AllowedToolIDs p ≠ [] → toolListed (pol_AllowedToolIDs p) (req_ToolID req)) ∧
  (pol_AllowedToolActions p ≠ [] → toolListed (pol_AllowedToolActions p) (req_ToolActionType req)).
Proof.
  rewrite <- !toolBoundaryListContains_spec. unfold toolActionBoundaryViolation.
  destruct (pol_AllowedToolIDs p), (pol_AllowedToolActions p),
    (toolBoundaryListContains _ _), (toolBoundaryListContains _ _); naive_solver.
Qed.

Lemma authAge_within now req seconds :
  (∃ age, breakGlassAuthAgeSeconds now (req_AuthTime req) = Some age ∧ age ≤ seconds) ↔
  authenticatedWithin now req seconds.
Proof.
  unfold breakGlassAuthAgeSeconds, authenticatedWithin. destruct (is_blank _); [naive_solver|].
  destruct (parse_rfc3339 _) as [t|]; [|naive_solver]. split.
  - intros (age & [= <-] & ?). split; [done|]. exists t. repeat split; lia.
  - intros (_ & t' & [= <-] & ? & ?). eexists. split; [done|]. lia.
Qed.

Lemma freshness_within now p req ctx :
  0 < breakGlassMaxSessionSeconds p →
  bg_MaxSessionSeconds ctx = breakGlassMaxSessionSeconds p →
  bg_AuthAgeSeconds ctx = default 0 (breakGlassAuthAgeSeconds now (req_AuthTime req)) →
  bg_AuthAgeKnown ctx =
    match breakGlassAuthAgeSeconds now (req_AuthTime req) with Some _ => true | None => false end →
  breakGlassAuthFreshness ctx = "fresh" ↔
  authenticatedWithin now req (breakGlassMaxSessionSeconds p).
Proof.
  intros Hpos Hm Ha Hk. unfold breakGlassAuthFreshness. rewrite Hm, Ha, Hk, <- authAge_within.
  destruct (breakGlassAuthAgeSeconds _ _) as [age|]; cbn; [|naive_solver].
  repeat case_match; bool_facts; split; try naive_solver lia.
Qed.

Lemma breakGlass_emergency now p req :
  breakGlassHolds now p req ↔
  (breakGlassPolicyConfigured p = true → emergencyAllowed now p req).
Proof.
  unfold breakGlassHolds. destruct (breakGlassPolicyConfigured p) eqn:E; [|naive_solver].
  unfold breakGlassPolicyContextFor. rewrite E. cbn [negb]. cbn zeta.
  unfold breakGlassPolicyRequirementsSatisfied, breakGlassRuntimeSatisfied.
  cbn [bg_MaxSessionSeconds bg_StrongAuthRequired bg_AuditRequired bg_StrongAuthSatisfied
    bg_AuthFreshness set_field]. cbn.
  rewrite !andb_true_iff, !orb_true_iff, Z.ltb_lt, Z.leb_le, String.eqb_eq.
  match goal with |- context [breakGlassAuthFreshness ?c] => set (ctx := c) end.
  pose proof (freshness_within now p req ctx) as Hf. split.
  - intros H _. destruct (H eq_refl) as [(((? & ?) & ?) & ?) (? & Hfr)].
    constructor; try done. by apply Hf.
  - intros H _. destruct (H eq_refl). split_and!; try done; try lia. by apply Hf; [lia|..].
Qed.

Lemma policyGrants_safeguards now p req :
  policyGrants now p req (req_WorkloadAttestationState req) ↔ safeguards now p req.
Proof.
  split.
  - intros [Ha Hw Hf Ht Hh Hb].
    apply toolBoundary_listed in Ht as [? ?]. rewrite breakGlass_emergency in Hb.
    constructor; try done.
    + intros Hreq. apply containsString_spec. by apply Hw.
    + intros Hreq. by apply authAge_within, Hf.
  - intros [Ha Hw Hf Ht Hc Hh Hb]. constructor; try done.
    + intros Hreq. apply containsString_spec. by apply Hw.
    + intros Hreq. by apply authAge_within, Hf.
    + by apply toolBoundary_listed.
    + by rewrite breakGlass_emergency.
Qed.

Lemma serverInitiated_decision e req now s :
  es_Decision (serverInitiatedEvaluation e req now s)
  = (serverInitiatedDecisionFor (ev_LegacyExceptions e) req now).1.1.
Proof.
  unfold serverInitiatedEvaluation.
  by destruct (serverInitiatedDecisionFor _ _ _) as [[? ?] ?].
Qed.

Lemma policyEvaluation_winner e req now s p :
  decidingPolicy e req now p →
  policyEvaluation e req (actorTypeOf req) now s =
  matchedPolicyEvaluation now (ev_PolicyBundle e) p (sortedConditionKeys (pol_Conditions p))
    req (actorTypeOf req) s.
Proof.
  unfold decidingPolicy. rewrite <- firstMatchedPolicy_first_min.
  unfold firstMatchedPolicy, policyEvaluation, firstMatchedPolicyWithDiagnosis.
  destruct (firstMatchedFrom _ _ _ _ _) as [[[q names]|] d] eqn:E; cbn; [|done].
  intros [= ->]. f_equal. eapply firstMatchedFrom_names. by rewrite E.
Qed.

Lemma policyEvaluation_none e req now s :
  (∀ p, ¬ decidingPolicy e req now p) →
  ∃ reason, policyEvaluation e req (actorTypeOf req) now s = s <| es_Reason := reason |>.
Proof.
  unfold decidingPolicy. setoid_rewrite <- firstMatchedPolicy_first_min.
  unfold firstMatchedPolicy, policyEvaluation, firstMatchedPolicyWithDiagnosis.
  destruct (firstMatchedFrom _ _ _ _ _) as [[[q names]|] d] eqn:E; cbn.
  - intros H. by destruct (H q).
  - intros _. destruct (nonempty d); [by eexists|]. exists (es_Reason s). by destruct s.
Qed.

Lemma deciding_or_none e req now :
  (∃ p, decidingPolicy e req now p) ∨ ∀ p, ¬ decidingPolicy e req now p.
Proof.
  unfold decidingPolicy. setoid_rewrite <- firstMatchedPolicy_first_min.
  destruct (firstMatchedPolicy _ _ _ _) as [[p names]|]; [left|right]; naive_solver.
Qed.

(** No policy decides exactly when none matches. *)
Lemma deciding_none_iff e req now :
  (∀ p, ¬ decidingPolicy e req now p) ↔
  ∀ q, q ∈ ev_Policies e → matches_b now req (actorTypeOf req) q = false.
Proof.
  rewrite <- firstMatchedPolicy_none. unfold decidingPolicy.
  setoid_rewrite <- firstMatchedPolicy_first_min.
  destruct (firstMatchedPolicy _ _ _ _) as [[p names]|]; cbn; naive_solver.
Qed.

Lemma evaluate_permitted e req now : es_Decision (evaluate e req now) = "allow" ↔ permitted e req now.
Proof.
  unfold evaluate.
  destruct (onServerPlane e req) eqn:Hs.
  { rewrite serverInitiated_decision, serverInitiated_allow_iff.
    split; [by constructor|by intros []; congruence]. }
  destruct (onEastWestPlane e req) eqn:Hw.
  { change (es_Decision (eastWestEvaluation e req now (initialEvaluation req)))
      with (out_Decision (eastWestDecisionFor (ev_EastWest e) req now)).
    rewrite eastWest_allow_iff. split; [by constructor|by intros []; congruence]. }
  destruct (deciding_or_none e req now) as [[p Hp]|Hnone].
  - rewrite (policyEvaluation_winner _ _ _ _ _ Hp). unfold matchedPolicyEvaluation.
    rewrite runEnforcement_decision, runGuards_allow.
    rewrite policyGrants_safeguards. split; [by econstructor|]. intros [| |q _ _ Hq ?]; [congruence..|].
    by rewrite (first_min_unique policyLess _ _ _ _ Hp Hq).
  - destruct (policyEvaluation_none e req now (initialEvaluation req) Hnone) as [r ->].
    split; [done|]. intros [| |p _ _ Hp _]; [congruence..|by destruct (Hnone p)].
Qed.

Lemma Evaluate_decision e req id now :
  dec_Decision (Evaluate e req id now)
  = es_Decision (evaluate e (decisionRequestWithSaaSContext (ev_PolicyBundle e) req) now).
Proof. reflexivity. Qed.

(** (C1) A request is allowed exactly when its plane permits it.  On the server-initiated
    plane the first legacy exception that covers it, active and unexpired, has a permissive
    mode; on the east-west plane one of the permissions of the plane holds; and elsewhere the
    deciding policy says allow and the workload proof, the young authentication, the listed
    tool and action, the human approval and the emergency safeguards it asks for are all
    there.  Nothing else leads to allow. *)
Theorem evaluate_allow_iff e req id now :
  dec_Decision (Evaluate e req id now) = "allow" ↔
  permitted e (decisionRequestWithSaaSContext (ev_PolicyBundle e) req) now.
Proof. rewrite Evaluate_decision. apply evaluate_permitted. Qed.

(** ** Default deny *)

(** The code of the default deny never comes from a matched policy. *)
Definition codes_ok (l : list string) : Prop := "no_policy_match" ∉ l.

Lemma codes_ok_append l x :
  codes_ok l → x ≠ "no_policy_match" → codes_ok (appendUniqueString l x).
Proof. intros Hl Hx Hin. apply appendUniqueString_elem in Hin as [?|?]; [by apply Hl|done]. Qed.

Lemma codes_ok_fold xs l :
  codes_ok l → codes_ok xs → codes_ok (foldl appendUniqueString l xs).
Proof.
  revert l. induction xs as [|x xs IH]; intros l Hl Hx; [done|]. cbn.
  apply IH; [|unfold codes_ok in *; set_solver].
  apply codes_ok_append; [done|]. unfold codes_ok in Hx. set_solver.
Qed.

Ltac codes :=
  repeat first
    [ apply codes_ok_fold | apply codes_ok_append; [|done]
    | match goal with |- codes_ok (_ :: ?l) =>
        apply not_elem_of_cons; split; [done|change (codes_ok l)] end
    | match goal with |- codes_ok (?k ++ ?l) =>
        apply not_elem_of_app; split; [change (codes_ok k)|change (codes_ok l)] end
    | match goal with
      | |- codes_ok (if ?b then _ else _) => destruct b
      | |- codes_ok (appendUniqueString _ (if ?b then _ else _)) => destruct b
      | |- codes_ok (when ?b _) => destruct b; cbn [when]
      end
    | apply not_elem_of_nil | assumption ].

Lemma switch_cases {A} (P : A → Prop) k cases d :
  P d → Forall (fun c => P c.2) cases → P (switch k cases d).
Proof.
  intros Hd Hc. induction Hc as [|[labels v] cases Hv Hc IH]; cbn; [done|].
  by destruct (containsString labels k).
Qed.

Lemma codes_decision d a : codes_ok (reasonCodesForPolicyDecision d a).
Proof.
  unfold reasonCodesForPolicyDecision.
  apply (switch_cases codes_ok); [codes|]. repeat constructor; cbn; codes.
Qed.

Lemma codes_requirements ctx : codes_ok (breakGlassRequirementReasonCodes ctx).
Proof. unfold breakGlassRequirementReasonCodes. cbn zeta. codes. Qed.

Lemma codes_reauthentication ctx : codes_ok (breakGlassReauthenticationReasonCodes ctx).
Proof.
  unfold breakGlassReauthenticationReasonCodes. cbn zeta.
  apply (switch_cases (fun c => codes_ok (appendUniqueString _ c))); [codes|].
  repeat constructor; cbn; codes.
Qed.

(** The codes after the guards, then after the enforcement options. *)
Lemma codes_toolBoundary policy req s :
  codes_ok (es_Codes s) → codes_ok (es_Codes (toolBoundaryGuard policy req s)).
Proof.
  unfold toolBoundaryGuard, toolActionBoundaryViolation. intros H.
  repeat case_match; simplify_eq; try done; cbn [es_Codes put set_field]; codes.
Qed.

Lemma codes_approval req policy : codes_ok (humanApprovalRequirementReasonCodes req policy).
Proof. unfold humanApprovalRequirementReasonCodes. codes. Qed.

Lemma codes_humanApproval policy req s :
  codes_ok (es_Codes s) → codes_ok (es_Codes (humanApprovalGuard policy req s)).
Proof.
  unfold humanApprovalGuard. intros H. pose proof (codes_approval req policy).
  repeat case_match; try done. cbn [es_Codes put set_field]. cbn. codes.
Qed.

Lemma codes_breakGlass now policy req s :
  codes_ok (es_Codes s) → codes_ok (es_Codes (breakGlassGuard now policy req s)).
Proof.
  unfold breakGlassGuard, applyBreakGlassPolicyGuard, breakGlassPolicyContextFor.
  intros H. destruct (breakGlassPolicyConfigured policy); cbn [negb]; [|done].
  set (ctx := _ <| bg_ReauthenticationReasons := _ |>).
  assert (codes_ok (bg_RequirementReasonCodes ctx)) by apply codes_requirements.
  assert (codes_ok (bg_ReauthenticationReasons ctx)) by apply codes_reauthentication.
  clearbody ctx. destruct (bg_Configured ctx); [|done].
  destruct (breakGlassPolicyRequirementsSatisfied ctx); cbn [negb];
    [destruct (_ && _)|]; cbn; codes.
Qed.

Lemma codes_enforcement bundle policy req s :
  codes_ok (es_Codes s) → codes_ok (es_Codes (runEnforcement bundle policy req s)).
Proof.
  intros H. unfold runEnforcement. cbn zeta.
  assert (∀ ictx, codes_ok (es_Codes (inspectionStep ictx policy req s))) as Hi.
  { intros ictx. unfold inspectionStep, appendTLSInspectionReadinessReasonCodes.
    repeat case_match; cbn; codes. }
  assert (∀ ctx t, codes_ok (es_Codes t) → codes_ok (es_Codes (swgStep ctx policy req t))) as Hw.
  { intros ctx t Ht. unfold swgStep, appendSWGTenantEnforcementReasonCodes.
    destruct (swg_Configured ctx); [|done]. destruct (is_some_b (swg_TLSBypassRule ctx));
      cbn; codes. }
  assert (∀ ctx t, es_Codes (dlpStep bundle ctx policy req t) = es_Codes t) as Hd.
  { intros ctx t. unfold dlpStep. by repeat case_match. }
  rewrite Hd. apply Hw, Hi.
Qed.

Lemma codes_matched now bundle p names req actorType s :
  codes_ok (es_Codes (matchedPolicyEvaluation now bundle p names req actorType s)).
Proof.
  unfold matchedPolicyEvaluation, runGuards.
  apply codes_enforcement, codes_breakGlass, codes_humanApproval, codes_toolBoundary.
  unfold deriveFromDecision. case_match; apply codes_decision.
Qed.

Lemma codes_server exceptions req now :
  codes_ok (serverInitiatedDecisionFor exceptions req now).2.
Proof.
  unfold serverInitiatedDecisionFor. case_match; [|cbn; codes].
  apply (switch_cases (fun c : string * string * list string => codes_ok c.2)); [cbn; codes|].
  repeat constructor; cbn; codes.
Qed.

Lemma codes_eastWest ec req now : codes_ok (out_Codes (eastWestDecisionFor ec req now)).
Proof.
  unfold eastWestDecisionFor, eastWestAuthenticate, eastWestUnmatched.
  repeat case_match; cbn; codes.
Qed.

Lemma default_deny_codes dec : codes_ok (dec_ReasonCodes dec) → IsDefaultDeny dec = false.
Proof.
  unfold IsDefaultDeny, codes_ok. rewrite <- containsString_spec, not_true_iff_false. intros ->.
  by repeat case_match.
Qed.

(** (C32) A decision is reported as the default deny exactly when no plane
    claims the request and no policy matches it.  It then names no policy and carries
    no action. *)
Theorem default_deny_iff e req id now :
  let dec := Evaluate e req id now in
  let r := decisionRequestWithSaaSContext (ev_PolicyBundle e) req in
  (IsDefaultDeny dec = true ↔
   onServerPlane e r = false ∧ onEastWestPlane e r = false ∧
   ∀ q, q ∈ ev_Policies e → matches_b now r (actorTypeOf r) q = false) ∧
  (IsDefaultDeny dec = true →
   dec_Decision dec = "deny" ∧ dec_PolicyID dec = "" ∧ dec_Actions dec = []).
Proof.
  cbn zeta. unfold Evaluate. cbn zeta.
  generalize (decisionRequestWithSaaSContext (ev_PolicyBundle e) req). clear req. intros req.
  assert (∀ s, codes_ok (es_Codes s) → IsDefaultDeny (decisionFrom e req id now s) = false)
    as Hno by (intros s Hs; by apply default_deny_codes).
  unfold evaluate. destruct (onServerPlane e req) eqn:Hs.
  { rewrite Hno; [naive_solver|]. unfold serverInitiatedEvaluation.
    pose proof (codes_server (ev_LegacyExceptions e) req now) as Hc.
    by destruct (serverInitiatedDecisionFor _ _ _) as [[? ?] ?]. }
  destruct (onEastWestPlane e req) eqn:Hw.
  { rewrite Hno; [naive_solver|]. apply codes_eastWest. }
  rewrite <- deciding_none_iff.
  destruct (deciding_or_none e req now) as [[p Hp]|Hnone].
  - rewrite (policyEvaluation_winner _ _ _ _ _ Hp), Hno by apply codes_matched.
    split; [|done]. split; [done|]. intros (_ & _ & Hn). by destruct (Hn p).
  - destruct (policyEvaluation_none e req now (initialEvaluation req) Hnone) as [r ->].
    by repeat split.
Qed.

(** ** Who has a say *)

(** The policies that apply to the tenant of a request. *)
Definition ownPolicies (e : Evaluator) (req : DecisionRequest) : Evaluator :=
  mkEvaluator (List.filter (fun p => policyTenantAppliesTo p req) (ev_Policies e))
    (ev_PolicyBundle e) (ev_EdgeRegionID e) (ev_EdgeClusterID e) (ev_EastWestEnabled e)
    (ev_EastWest e) (ev_ServerInitiatedEnabled e) (ev_LegacyExceptions e)
    (ev_TenantRestrictionHeaderValues e).

Lemma policyTenantAppliesTo_tenant p r1 r2 :
  req_TenantID r1 = req_TenantID r2 → policyTenantAppliesTo p r1 = policyTenantAppliesTo p r2.
Proof. unfold policyTenantAppliesTo. by intros ->. Qed.

Lemma filter_all {A} (f : A → bool) l : (∀ x, x ∈ l → f x = true) → List.filter f l = l.
Proof.
  induction l as [|x l IH]; intros H; [done|]. cbn. rewrite H by left.
  f_equal. apply IH. intros y Hy. apply H. by right.
Qed.

(** A decision reads the policies through the first match and, for a request without a
    tenant, through the tenant of the first policy. *)
Lemma Evaluate_policies e L req id now :
  let r := decisionRequestWithSaaSContext (ev_PolicyBundle e) req in
  firstMatchedPolicyWithDiagnosis now L r (actorTypeOf r)
  = firstMatchedPolicyWithDiagnosis now (ev_Policies e) r (actorTypeOf r) →
  (req_TenantID req = "" → firstPolicyTenantID L = firstPolicyTenantID (ev_Policies e)) →
  Evaluate (e <| ev_Policies := L |>) req id now = Evaluate e req id now.
Proof.
  intros r Hfirst Htenant. unfold Evaluate. cbn zeta.
  change (ev_PolicyBundle (e <| ev_Policies := L |>)) with (ev_PolicyBundle e). fold r.
  assert (req_TenantID r = req_TenantID req) as Ht by apply with_saas_TenantID.
  assert (evaluate (e <| ev_Policies := L |>) r now = evaluate e r now) as ->.
  { unfold evaluate. change (onServerPlane (e <| ev_Policies := L |>) r) with (onServerPlane e r).
    change (onEastWestPlane (e <| ev_Policies := L |>) r) with (onEastWestPlane e r).
    destruct (onServerPlane e r); [done|]. destruct (onEastWestPlane e r); [done|].
    unfold policyEvaluation. change (ev_Policies (e <| ev_Policies := L |>)) with L. by rewrite Hfirst. }
  assert (valueOrDefault (req_TenantID r) (firstPolicyTenantID L)
          = valueOrDefault (req_TenantID r) (firstPolicyTenantID (ev_Policies e))) as Hd.
  { unfold valueOrDefault. destruct (is_empty (req_TenantID r)) eqn:E; [|done].
    apply is_empty_true in E. apply Htenant. by rewrite <- Ht. }
  unfold decisionFrom. change (ev_Policies (e <| ev_Policies := L |>)) with L. rewrite Hd. reflexivity.
Qed.

(** The first match among the policies that apply to the tenant. *)
Lemma firstMatched_applicable now l req actorType :
  firstMatchedPolicyWithDiagnosis now (List.filter (fun p => policyTenantAppliesTo p req) l) req actorType
  = firstMatchedPolicyWithDiagnosis now l req actorType.
Proof.
  unfold firstMatchedPolicyWithDiagnosis. rewrite <- orderedPolicies_filter.
  symmetry. apply firstMatchedFrom_applicable.
Qed.

(** The policies of another tenant have no influence on a
    decision: removing every policy that belongs to a tenant other than the
    request's leaves the whole decision unchanged, its reason, its diagnosis and its
    metadata included. *)
Theorem other_tenants_policies_irrelevant e req id now :
  Evaluate (ownPolicies e req) req id now = Evaluate e req id now.
Proof.
  change (ownPolicies e req) with
    (e <| ev_Policies := List.filter (fun p => policyTenantAppliesTo p req) (ev_Policies e) |>).
  apply Evaluate_policies.
  - rewrite (List.filter_ext _ (fun p => policyTenantAppliesTo p
      (decisionRequestWithSaaSContext (ev_PolicyBundle e) req))); [apply firstMatched_applicable|].
    intros p. apply policyTenantAppliesTo_tenant. symmetry. apply with_saas_TenantID.
  - intros Ht. f_equal. apply filter_all. intros p _. apply policyTenantAppliesTo_spec. right; left.
    by rewrite Ht.
Qed.

(** Whatever SaaS classification a client writes into its request is
    ignored: two requests that differ only there get the same decision. *)
Theorem client_saas_claims_ignored e r1 r2 id now :
  clearDecisionRequestSaaSContext r1 = clearDecisionRequestSaaSContext r2 →
  Evaluate e r1 id now = Evaluate e r2 id now.
Proof.
  intros H. unfold Evaluate.
  by rewrite (decisionRequestWithSaaSContext_clear (ev_PolicyBundle e) r1 r2 H).
Qed.

Lemma client_saas_claims_ignored_witness :
  let e := mkEvaluator [] zero_PolicyBundle "" "" false
             (mkEWConfig false (mkInternalNetworks [] []) [] 0 []) false [] ∅ in
  let req := zero_DecisionRequest <| req_FQDN := "www.example.com" |> in
  Evaluate e (req <| req_SaaSRiskTier := "sanctioned" |>) "dec_1" 0
  = Evaluate e req "dec_1" 0.
Proof. apply client_saas_claims_ignored. reflexivity. Defined.

(** ** Precedence *)

(** A guard leaves a field it does not assign as it was. *)
Ltac field_kept :=
  intros; unfold breakGlassGuard, humanApprovalGuard, toolBoundaryGuard, deriveFromDecision,
    freshnessGuard, workloadGuard, adoptPolicy; repeat case_match; done.

Lemma guards_policy_id now p names req actorType s :
  es_PolicyID (runGuards now p names req actorType s) = pol_ID p.
Proof.
  unfold runGuards.
  assert (∀ t, es_PolicyID (breakGlassGuard now p req t) = es_PolicyID t) as -> by field_kept.
  assert (∀ t, es_PolicyID (humanApprovalGuard p req t) = es_PolicyID t) as -> by field_kept.
  assert (∀ t, es_PolicyID (toolBoundaryGuard p req t) = es_PolicyID t) as -> by field_kept.
  assert (∀ t, es_PolicyID (deriveFromDecision p names req actorType t) = es_PolicyID t)
    as -> by field_kept.
  assert (∀ t, es_PolicyID (freshnessGuard now p req t) = es_PolicyID t) as -> by field_kept.
  assert (∀ t, es_PolicyID (workloadGuard p t) = es_PolicyID t) as -> by field_kept.
  apply adopt_fields.
Qed.

Lemma guards_bypass now p names req actorType s :
  es_Bypass (runGuards now p names req actorType s) = es_Bypass s.
Proof.
  unfold runGuards.
  assert (∀ t, es_Bypass (breakGlassGuard now p req t) = es_Bypass t) as -> by field_kept.
  assert (∀ t, es_Bypass (humanApprovalGuard p req t) = es_Bypass t) as -> by field_kept.
  assert (∀ t, es_Bypass (toolBoundaryGuard p req t) = es_Bypass t) as -> by field_kept.
  assert (∀ t, es_Bypass (deriveFromDecision p names req actorType t) = es_Bypass t)
    as -> by field_kept.
  assert (∀ t, es_Bypass (freshnessGuard now p req t) = es_Bypass t) as -> by field_kept.
  assert (∀ t, es_Bypass (workloadGuard p t) = es_Bypass t) as -> by field_kept.
  field_kept.
Qed.

Lemma enforcement_policy_id bundle p req s :
  es_PolicyID (runEnforcement bundle p req s) = es_PolicyID s.
Proof.
  unfold runEnforcement, dlpStep, swgStep, inspectionStep. cbn zeta.
  repeat case_match; done.
Qed.

Lemma matched_policy_id now bundle p names req actorType s :
  es_PolicyID (matchedPolicyEvaluation now bundle p names req actorType s) = pol_ID p.
Proof.
  unfold matchedPolicyEvaluation. by rewrite enforcement_policy_id, guards_policy_id.
Qed.

Lemma pol_rank_pos p : pact_Decision (pol_Action p) ≠ "deny" → 0 < pol_rank p.
Proof.
  unfold pol_rank, policyDecisionRestrictivenessRank. intros H. cbn [switch].
  destruct (containsString ["deny"] _) eqn:E; [|by case_match].
  apply containsString_spec, list_elem_of_singleton in E. done.
Qed.

(** When a policy lets a request through, every matching deny policy has
    a strictly higher priority number: at the same priority a deny wins, whatever the
    policies are called and in whatever order they are configured. *)
Theorem allow_outranks_every_deny e req id now q :
  let r := decisionRequestWithSaaSContext (ev_PolicyBundle e) req in
  dec_Decision (Evaluate e req id now) = "allow" →
  onServerPlane e r = false → onEastWestPlane e r = false →
  q ∈ ev_Policies e → matches_b now r (actorTypeOf r) q = true →
  pact_Decision (pol_Action q) = "deny" →
  ∃ p, p ∈ ev_Policies e ∧ dec_PolicyID (Evaluate e req id now) = pol_ID p ∧
       pol_Priority p < pol_Priority q.
Proof.
  cbn zeta. unfold Evaluate. cbn zeta.
  generalize (decisionRequestWithSaaSContext (ev_PolicyBundle e) req). clear req. intros req.
  cbn [dec_Decision dec_PolicyID decisionFrom]. intros Hallow Hs Hw Hq Hmatch Hdeny.
  revert Hallow. unfold evaluate. rewrite Hs, Hw.
  destruct (deciding_or_none e req now) as [[p Hp]|Hnone].
  2: { rewrite deciding_none_iff in Hnone. by rewrite Hnone in Hmatch. }
  rewrite (policyEvaluation_winner _ _ _ _ _ Hp). unfold matchedPolicyEvaluation.
  rewrite runEnforcement_decision. intros [Ha _ _ _ _ _]%runGuards_allow.
  assert (pact_Decision (pol_Action p) ≠ "deny") as Hpd.
  { intros E. unfold policyDecisionValue in Ha. by rewrite E in Ha. }
  apply find_sort_stable_first, find_sort_stable in Hp as (Hin & _ & Hmin); [|apply _..].
  specialize (Hmin q Hq Hmatch). exists p. split_and!; [done| |].
  - apply matched_policy_id.
  - apply Z.le_neq. split; [by apply policyLess_priority|]. intros Hpri.
    pose proof (policyLess_rank _ _ Hmin (eq_sym Hpri)) as Hr.
    assert (pol_rank q = 0) by (unfold pol_rank; by rewrite Hdeny).
    pose proof (pol_rank_pos p Hpd). lia.
Qed.

Lemma allow_outranks_every_deny_witness :
  let pol id pri d := zero_Policy <| pol_ID := id |> <| pol_Priority := pri |>
    <| pol_Status := "active" |> <| pol_Action := mkPolicyAction d |> in
  let e := mkEvaluator [pol "z-deny" 20 "deny"; pol "a-allow" 10 "allow"] zero_PolicyBundle
             "" "" false (mkEWConfig false (mkInternalNetworks [] []) [] 0 []) false [] ∅ in
  ∃ p, p ∈ ev_Policies e ∧
       dec_PolicyID (Evaluate e zero_DecisionRequest "dec_1" 0) = pol_ID p ∧
       pol_Priority p < 20.
Proof.
  intros pol e.
  apply (allow_outranks_every_deny e zero_DecisionRequest "dec_1" 0 (pol "z-deny" 20 "deny"));
    [vm_compute; reflexivity|reflexivity|reflexivity|left|vm_compute; reflexivity|reflexivity].
Defined.

(** A matching policy whose decision is blank never lets a request
    through: it is treated as a deny. *)
Theorem empty_decision_denies now bundle p names req actorType s :
  is_blank (pact_Decision (pol_Action p)) = true →
  es_Decision (matchedPolicyEvaluation now bundle p names req actorType s) = "deny".
Proof.
  intros Hb. unfold matchedPolicyEvaluation. rewrite runEnforcement_decision.
  assert (policyDecisionValue p = "deny") as Hd.
  { unfold policyDecisionValue. unfold is_blank in Hb. by rewrite Hb. }
  destruct (adopt_fields p s) as (Ha & _ & _). rewrite Hd in Ha.
  unfold runGuards. set (s0 := adoptPolicy p s) in *.
  assert (workloadGuard p s0 = s0) as -> by (unfold workloadGuard; by rewrite Ha).
  assert (freshnessGuard now p req s0 = s0) as -> by (unfold freshnessGuard; by rewrite Ha).
  set (s1 := deriveFromDecision p names req actorType s0).
  assert (es_Decision s1 = "deny") as H1 by (unfold s1; by rewrite derive_decision).
  assert (toolBoundaryGuard p req s1 = s1) as -> by (unfold toolBoundaryGuard; by rewrite H1).
  assert (humanApprovalGuard p req s1 = s1) as -> by (unfold humanApprovalGuard; by rewrite H1).
  unfold breakGlassGuard, applyBreakGlassPolicyGuard. rewrite H1.
  destruct (bg_Configured _); [|done].
  by destruct (breakGlassPolicyRequirementsSatisfied _).
Qed.

Lemma empty_decision_denies_witness :
  es_Decision (matchedPolicyEvaluation 0 zero_PolicyBundle
    (zero_Policy <| pol_Action := mkPolicyAction "  " |>) [] zero_DecisionRequest "human"
    (initialEvaluation zero_DecisionRequest)) = "deny".
Proof. apply empty_decision_denies. reflexivity. Defined.

(** ** TLS bypass *)

(** No action that needs the plain text of the connection. *)
Definition plaintext_action (a : DecisionAction) : bool :=
  containsString ["dlp_inspect"; "inject_saas_tenant_restriction_header"] (act_Type a).
Definition opaque (l : list DecisionAction) : Prop := Forall (fun a => plaintext_action a = false) l.

Lemma opaque_app l k : opaque (l ++ k) ↔ opaque l ∧ opaque k.
Proof. apply Forall_app. Qed.

Lemma opaque_policy d req p : opaque (actionsForPolicyDecision d req p).
Proof.
  unfold actionsForPolicyDecision. apply (switch_cases opaque); [constructor|].
  repeat constructor.
Qed.

Lemma opaque_guards now p names req actorType s :
  opaque (es_Actions (runGuards now p names req actorType s)).
Proof.
  unfold runGuards.
  set (t := deriveFromDecision _ _ _ _ _).
  assert (opaque (es_Actions t)) as Ht.
  { unfold t, deriveFromDecision. case_match; apply opaque_policy. }
  assert (opaque (es_Actions (humanApprovalGuard p req (toolBoundaryGuard p req t)))) as Hh.
  { unfold humanApprovalGuard, toolBoundaryGuard.
    repeat case_match; try done; repeat constructor. }
  unfold breakGlassGuard, applyBreakGlassPolicyGuard.
  destruct (bg_Configured _); [|done].
  destruct (negb _); [|destruct (_ && _)]; cbn [es_Actions set_field];
    rewrite ?opaque_app; repeat split; try done; repeat constructor.
Qed.

Lemma opaque_inspection ctx p req s :
  opaque (es_Actions s) → opaque (es_Actions (inspectionStep ctx p req s)).
Proof.
  intros H. unfold inspectionStep, appendTLSInspectionReadinessActions.
  repeat case_match; try done; cbn [es_Actions set_field];
    (apply opaque_app; split; [done|repeat constructor]).
Qed.

Lemma inspection_bypass ctx p req s : es_Bypass (inspectionStep ctx p req s) = es_Bypass s.
Proof. unfold inspectionStep. repeat case_match; done. Qed.


Lemma initial_bypass req : es_Bypass (initialEvaluation req) = false.
Proof. done. Qed.

(** Without a bypass nothing sets the flag; with one, no directive is added. *)
Lemma enforcement_bypass bundle p req s :
  es_Bypass s = false → opaque (es_Actions s) →
  es_Bypass (runEnforcement bundle p req s) = true →
  opaque (es_Actions (runEnforcement bundle p req s)).
Proof.
  intros Hs Ho. unfold runEnforcement. cbn zeta.
  set (ictx := tlsInspectionReadinessContextFor bundle p req).
  pose proof (header_injection_decrypted bundle p req ictx) as Hinj.
  set (ctx := swgTenantEnforcementContextFor bundle p req ictx) in *.
  pose proof (opaque_inspection ictx p req s Ho) as Hi.
  pose proof (inspection_bypass ictx p req s) as Hb. rewrite Hs in Hb.
  set (s1 := inspectionStep ictx p req s) in *. clearbody s1 ctx.
  unfold dlpStep, swgStep. destruct (swg_TLSBypassRule ctx) as [r|] eqn:Er; cbn [is_some_b].
  - destruct (swg_Configured ctx); cbn [negb]; [|congruence]. intros _.
    unfold appendSWGTenantEnforcementActions. cbn [es_Actions set_field]. rewrite Er.
    destruct (swg_HeaderInjectionAction ctx); [by destruct Hinj|].
    rewrite !opaque_app. split_and!; [done|case_match; constructor|repeat constructor].
  - intros H. exfalso. revert H. destruct (swg_Configured ctx); cbn [negb];
      repeat case_match; cbn [es_Bypass put set_field]; try congruence; cbn; congruence.
Qed.

(** A connection marked as bypassing TLS inspection never carries a
    directive that needs its plain text: no DLP scan and no header injection. *)
Theorem bypass_keeps_opaque e req id now :
  dec_Bypass (Evaluate e req id now) = true → opaque (dec_Actions (Evaluate e req id now)).
Proof.
  unfold Evaluate. cbn zeta. generalize (decisionRequestWithSaaSContext (ev_PolicyBundle e) req).
  clear req. intros req. cbn [dec_Bypass dec_Actions decisionFrom]. unfold evaluate.
  destruct (onServerPlane e req).
  { unfold serverInitiatedEvaluation.
    by destruct (serverInitiatedDecisionFor _ _ _) as [[? ?] ?]. }
  destruct (onEastWestPlane e req); [done|].
  destruct (deciding_or_none e req now) as [[p Hp]|Hnone].
  - rewrite (policyEvaluation_winner _ _ _ _ _ Hp). unfold matchedPolicyEvaluation.
    apply enforcement_bypass; [by rewrite guards_bypass|apply opaque_guards].
  - destruct (policyEvaluation_none e req now (initialEvaluation req) Hnone) as [r ->]. done.
Qed.

Lemma bypass_keeps_opaque_witness :
  let entry := zero_SaaSCatalogEntry <| saas_SaaSApplicationID := "m365" |>
    <| saas_DomainPatterns := ["*.office.com"] |> in
  let rule := zero_SWGTLSBypassRule <| byp_ID := "b1" |> <| byp_MatchType := "fqdn" |>
    <| byp_Pattern := "*.office.com" |> in
  let bundle := zero_PolicyBundle <| bun_SaaSCatalog := [entry] |>
    <| bun_SWGTLSBypassRules := [rule] |>
    <| bun_DLPRules := [zero_DLPRule <| dlpr_ID := "d1" |>] |> in
  let p := zero_Policy <| pol_ID := "p1" |> <| pol_Status := "active" |>
    <| pol_Action := mkPolicyAction "allow" |> in
  let e := mkEvaluator [p] bundle "" "" false
             (mkEWConfig false (mkInternalNetworks [] []) [] 0 []) false [] ∅ in
  let req := zero_DecisionRequest <| req_FQDN := "outlook.office.com" |>
    <| req_ServiceFamily := "https" |> in
  opaque (dec_Actions (Evaluate e req "dec_1" 0)) ∧
  List.map act_Type (dec_Actions (Evaluate e req "dec_1" 0)) = ["emit_audit_event"].
Proof.
  intros entry rule bundle p e req. split; [|vm_compute; reflexivity].
  apply bypass_keeps_opaque. vm_compute. reflexivity.
Defined.
