(* ===== verification/MatchedPolicy.v ===== *)
(** * The policy a decision was made by

    A decision of [src/decision/evaluator.go] records the identifier and the tenant of the
    policy that made it in its metadata, and no other step writes that key. *)

From stdpp Require Import base gmap list strings.
From S2P Require Import Prelude GoStd Model Common Conditions PolicyOrder SaaSCatalog Inspection SwgEnforcement.
From S2P Require Import BreakGlass Guards Locality EastWest ServerInitiated Evaluator Decision.
Open Scope Z_scope.

(** ** Which policy a decision records *)

Definition matchedTenantKey : string := "matched_policy_tenant_id".

(** A list of metadata that leaves the recorded tenant alone. *)
Ltac other_keys :=
  repeat first
    [ rewrite fmap_app | apply not_elem_of_app; split | apply not_elem_of_nil
    | rewrite fmap_cons; apply not_elem_of_cons; split; [done|]
    | match goal with |- context [if ?b then _ else _] => destruct b end
    | match goal with |- context [match ?x with _ => _ end] => destruct x end ].

Lemma set_other (m : metadata) kvs : matchedTenantKey ∉ kvs.*1 → set_keys m kvs !! matchedTenantKey = m !! matchedTenantKey.
Proof. apply set_keys_other. Qed.

Lemma put_other k v s : k ≠ matchedTenantKey → es_Metadata (put k v s) !! matchedTenantKey = es_Metadata s !! matchedTenantKey.
Proof. intros Hk. apply lookup_insert_ne. done. Qed.

Lemma decisionMetadata_other req : decisionMetadata req !! matchedTenantKey = None.
Proof.
  unfold decisionMetadata. rewrite set_other; [done|]. unfold set_if, set_list, set_flag, when. other_keys.
Qed.
Lemma bg_other m ctx : applyBreakGlassPolicyMetadata m ctx !! matchedTenantKey = m !! matchedTenantKey.
Proof. apply set_other. unfold breakGlassDetail, set_if, when. other_keys. Qed.
Lemma tls_other m ctx : applyTLSInspectionReadinessMetadata m ctx !! matchedTenantKey = m !! matchedTenantKey.
Proof. apply set_other. unfold set_if, when. other_keys. Qed.
Lemma routing_other m a b c d : applyEdgeInspectionRoutingMetadata m a b c d !! matchedTenantKey = m !! matchedTenantKey.
Proof. unfold applyEdgeInspectionRoutingMetadata. destruct (_ || _); [done|]. apply set_other. other_keys. Qed.
Lemma swg_other m ctx : applySWGTenantEnforcementMetadata m ctx !! matchedTenantKey = m !! matchedTenantKey.
Proof. apply set_other. unfold set_if, when. other_keys. Qed.
Lemma approval_other m req p b : applyHumanApprovalEventContractMetadata m req p b !! matchedTenantKey = m !! matchedTenantKey.
Proof. unfold applyHumanApprovalEventContractMetadata. case_match; [done|]. apply set_other. other_keys. Qed.

(** A step that leaves the recorded tenant alone. *)
Definition keeps_tenant (f : evaluation → evaluation) : Prop :=
  ∀ s, es_Metadata (f s) !! matchedTenantKey = es_Metadata s !! matchedTenantKey.

Lemma keeps_guards now p names req a s :
  es_Metadata (runGuards now p names req a s) !! matchedTenantKey = es_Metadata (adoptPolicy p s) !! matchedTenantKey.
Proof.
  unfold runGuards.
  assert (keeps_tenant (breakGlassGuard now p req)) as ->.
  { intros s'. unfold breakGlassGuard. destruct (bg_Configured _); [|done]. destruct (applyBreakGlassPolicyGuard _ _ _ _ _ _ _) as [[[? ?] ?] ?]. apply bg_other. }
  assert (keeps_tenant (humanApprovalGuard p req)) as ->.
  { intros s'. unfold humanApprovalGuard. destruct (_ && _); [|done]. destruct (humanApprovalRequirementReasonCodes req p); [apply approval_other|].
    cbn zeta. etrans; [apply approval_other|]. by rewrite !put_other. }
  assert (keeps_tenant (toolBoundaryGuard p req)) as ->.
  { intros s'. unfold toolBoundaryGuard. destruct (negb _); [done|]. destruct (toolActionBoundaryViolation _ _); [|done].
    by rewrite !put_other. }
  assert (keeps_tenant (deriveFromDecision p names req a)) as ->.
  { intros s'. unfold deriveFromDecision. by destruct (_ && _). }
  assert (keeps_tenant (freshnessGuard now p req)) as ->.
  { intros s'. unfold freshnessGuard. destruct (negb _); [done|]. cbn zeta. destruct (_ && _); [by rewrite !put_other|done]. }
  assert (keeps_tenant (workloadGuard p)) as ->; [|done].
  intros s'. unfold workloadGuard. by destruct (_ && _).
Qed.

Lemma adopt_tenant p s : es_Metadata (adoptPolicy p s) !! matchedTenantKey = Some (VStr (pol_TenantID p)).
Proof.
  unfold adoptPolicy. cbn zeta. destruct (pol_Log p); [rewrite put_other by done|]; apply lookup_insert_eq.
Qed.

Lemma keeps_enforcement bundle p req : keeps_tenant (runEnforcement bundle p req).
Proof.
  intros s. unfold runEnforcement. cbn zeta.
  assert (∀ ctx, keeps_tenant (dlpStep bundle ctx p req)) as ->.
  { intros ctx s'. unfold dlpStep. cbn zeta. repeat case_match; by rewrite ?put_other. }
  assert (∀ ctx, keeps_tenant (swgStep ctx p req)) as ->.
  { intros ctx s'. unfold swgStep. destruct (negb _); [done|]. cbn zeta. destruct (is_some_b _); cbn [es_Metadata set_field].
    - etrans; [apply routing_other|]. apply swg_other.
    - apply swg_other. }
  unfold inspectionStep. destruct (tic_Configured _).
  - destruct (inspectionRoutingForTLSInspectionContext _). cbn zeta. etrans; [apply routing_other|]. apply tls_other.
  - cbn zeta. destruct (nonempty _); [by rewrite put_other|done].
Qed.

Lemma matched_tenant now bundle p names req a s :
  es_Metadata (matchedPolicyEvaluation now bundle p names req a s) !! matchedTenantKey = Some (VStr (pol_TenantID p)).
Proof. unfold matchedPolicyEvaluation. by rewrite keeps_enforcement, keeps_guards, adopt_tenant. Qed.

(** The policy a request is decided by, with its SaaS context. *)
Definition decidedBy (e : Evaluator) (req : DecisionRequest) (now : Z) (p : Policy) : Prop :=
  let r := decisionRequestWithSaaSContext (ev_PolicyBundle e) req in
  onServerPlane e r = false ∧ onEastWestPlane e r = false ∧ decidingPolicy e r now p.

(** A decision records the tenant and identifier of the policy that made it, and a tenant only
    if a policy did. *)
Lemma decision_records_policy e req id now :
  (∃ p, decidedBy e req now p ∧ dec_PolicyID (Evaluate e req id now) = pol_ID p ∧
        dec_Metadata (Evaluate e req id now) !! matchedTenantKey = Some (VStr (pol_TenantID p))) ∨
  (∀ p, ¬ decidedBy e req now p) ∧ dec_Metadata (Evaluate e req id now) !! matchedTenantKey = None.
Proof.
  unfold Evaluate, decidedBy. cbv zeta. generalize (decisionRequestWithSaaSContext (ev_PolicyBundle e) req). clear req. intros r.
  cbn [dec_PolicyID dec_Metadata decisionFrom]. unfold evaluate. destruct (onServerPlane e r).
  { right. split; [by intros p [? _]|]. unfold serverInitiatedEvaluation.
    destruct (serverInitiatedDecisionFor _ _ _) as [[? ?] ?]. rewrite put_other by done. apply decisionMetadata_other. }
  destruct (onEastWestPlane e r).
  { right. split; [by intros p (_ & ? & _)|]. unfold eastWestEvaluation. cbn zeta. rewrite !put_other by done. apply decisionMetadata_other. }
  destruct (deciding_or_none e r now) as [[p Hp]|Hnone].
  - left. exists p. rewrite (policyEvaluation_winner _ _ _ _ _ Hp). split_and!; [done..|apply matched_policy_id|apply matched_tenant].
  - right. split; [by intros p (_ & _ & ?%Hnone)|].
    destruct (policyEvaluation_none e r now (initialEvaluation r) Hnone) as [reason ->]. apply decisionMetadata_other.
Qed.
