(* ===== verification/PolicyStore.v ===== *)
(** * The policy runtime store ([src/policy/store.go, runtime_shared.go, store_persistence.go,
    eastwest_persistence.go, incoming_runtime.go, tenant_restrictions.go, upstream_tls.go,
    received_runtime_cache.go])

    Three owners share the policies a process decides by: the bundle (the base), the Admin
    API (authored policies, status overrides and the runtime controls, stored durably) and
    the compiler of authored rules.  An edit works on a detached copy of the latest stored
    document and is published once the save has answered.  The JSON text of a document is
    described by what its sections decode to. *)

From stdpp Require Import base gmap sets fin_map_dom list strings sorting.
From S2P Require Import Prelude GoStd Tables Persistence Model TenantRestriction Common.
From S2P Require Import PolicyOrder Locality EastWest ServerInitiated Evaluator.
Import TenantRestriction.

Open Scope Z_scope.

Module PolicyStore.

(** ** The stored document *)

(** A field of the document: left out, [null], or a value. *)
Inductive section (A : Type) : Type := Absent | Null | Value (a : A).
Arguments Absent {A}.
Arguments Null {A}.
Arguments Value {A} a.

(** The runtime controls and authored policies, once [normalizeRuntimeMaps] has run. *)
Record adminPolicyRuntimeStateFile := mkRuntimeState {
  rt_UpstreamTLSModes : gmap string string;
  rt_SaaSTenantRestrictions : nested Setting;
  rt_TenantRestrictionRuleStatus : gmap string string;
  rt_PolicyStatusOverride : nested string;
  rt_EastWestEnabled : gmap string bool;
  rt_EastWestAllowUnmatched : gmap string bool;
  rt_EastWestRules : gmap string (list EastWestRule);
  rt_EastWestMaxGrantTTL : gmap string Z;
  rt_ServerInitiatedEnabled : gmap string bool;
  rt_LegacyExceptions : gmap string (list LegacyExceptionRecord);
  rt_AdminAuthoredPolicies : nested Policy;
}.

#[export] Instance runtimeState_eta : Etaable adminPolicyRuntimeStateFile := fun f =>
  mkRuntimeState (rt_UpstreamTLSModes f) (rt_SaaSTenantRestrictions f)
    (rt_TenantRestrictionRuleStatus f) (rt_PolicyStatusOverride f) (rt_EastWestEnabled f)
    (rt_EastWestAllowUnmatched f) (rt_EastWestRules f) (rt_EastWestMaxGrantTTL f)
    (rt_ServerInitiatedEnabled f) (rt_LegacyExceptions f) (rt_AdminAuthoredPolicies f).
#[export] Instance runtimeState_eq_dec : EqDecision adminPolicyRuntimeStateFile.
Proof. solve_decision. Defined.

Definition emptyRuntime : adminPolicyRuntimeStateFile :=
  mkRuntimeState ∅ ∅ ∅ ∅ ∅ ∅ ∅ ∅ ∅ ∅ ∅.

(** The fields of [runtimeFieldNames], and the text of the others. *)
Record document := mkDocument {
  doc_SchemaVersion : section string;
  doc_UpstreamTLSModes : section (gmap string string);
  doc_SaaSTenantRestrictions : section (nested Setting);
  doc_TenantRestrictionRuleStatus : section (gmap string string);
  doc_PolicyStatusOverride : section (nested string);
  doc_EastWestEnabled : section (gmap string bool);
  doc_EastWestAllowUnmatched : section (gmap string bool);
  doc_EastWestRules : section (gmap string (list EastWestRule));
  doc_EastWestMaxGrantTTL : section (gmap string Z);
  doc_ServerInitiatedEnabled : section (gmap string bool);
  doc_LegacyExceptions : section (gmap string (list LegacyExceptionRecord));
  doc_AdminAuthoredPolicies : section (nested Policy);
  doc_Others : gmap string string;
}.

(** A stored payload: not an object of these types, or a document. *)
Inductive raw :=
  | Garbage
  | Document (d : document).

Definition adminPolicyRuntimeStateSchemaVersion : string := "admin_policy_runtime_state.v1".

Inductive error :=
  | ErrPolicyPersistence
  | EmptyAuthority | Unreadable | UnsupportedSchema | NullField | NoKnownFields
  | InvalidUpstreamMode | NotCanonical | InvalidRestriction (e : TenantRestriction.error)
  | TenantIDRequired | PolicyIDRequired | PolicyIDSlash | TenantMismatch (own tenant : string)
  | InvalidStatus (status : string) | DecisionRequired | InvalidDecision (decision : string)
  | ConditionsRequired | FromPolicyBundle (id : string) | InvalidPolicyStatus
  | SelectOrganization | SelectTenant | InvalidTLSMode | StorageNotConfigured
  | ExceptionIdentity | EditError (message : string)
  | ReceivedTenantRequired | NodeLocalCacheRequired.

(** ** Upstream TLS modes and restrictions *)

Definition UpstreamTLSStrict : string := "strict".
Definition UpstreamTLSBrowserCompatible : string := "browser_compatible".
Definition UpstreamTLSDefault : string := UpstreamTLSBrowserCompatible.

Definition validAuthoredUpstreamTLSMode (mode : string) : bool :=
  String.eqb mode UpstreamTLSStrict || String.eqb mode UpstreamTLSBrowserCompatible.

Definition ValidateUpstreamTLSMode (mode : string) : bool :=
  is_empty mode || validAuthoredUpstreamTLSMode mode.

Definition EffectiveUpstreamTLSMode (mode : string) : string :=
  if is_empty mode then UpstreamTLSDefault else mode.

(** The settings of one tenant, in the order of their identifiers; each must already be
    what validation makes of it. *)
Fixpoint validateAll (settings : list (string * Setting)) : result error unit :=
  match settings with
  | [] => Ok tt
  | (id, s) :: rest =>
      match Validate id s with
      | Err e => Err (InvalidRestriction e)
      | Ok normalized => if bool_decide (normalized = s) then validateAll rest else Err NotCanonical
      end
  end.

Definition ValidateTenantRestrictions (settings : gmap string Setting) : result error unit :=
  validateAll (map_to_list settings).

(** ** Reading and writing the document *)

Definition is_absent {A} (s : section A) : bool := match s with Absent => true | _ => false end.
Definition is_null {A} (s : section A) : bool := match s with Null => true | _ => false end.
Definition value_of {A} (s : section A) (fallback : A) : A :=
  match s with Value a => a | _ => fallback end.

(** A test of every known field. *)
Definition anyField (test : ∀ A, section A → bool) (d : document) : bool :=
  test _ (doc_UpstreamTLSModes d) || test _ (doc_SchemaVersion d)
  || test _ (doc_SaaSTenantRestrictions d) || test _ (doc_TenantRestrictionRuleStatus d)
  || test _ (doc_PolicyStatusOverride d) || test _ (doc_EastWestEnabled d)
  || test _ (doc_EastWestAllowUnmatched d) || test _ (doc_EastWestRules d)
  || test _ (doc_EastWestMaxGrantTTL d) || test _ (doc_ServerInitiatedEnabled d)
  || test _ (doc_LegacyExceptions d) || test _ (doc_AdminAuthoredPolicies d).

Definition modesAcceptable (modes : gmap string string) : bool :=
  forallb (fun kv => negb (is_empty kv.1 || negb (String.eqb (trim_space kv.1) kv.1)
                           || negb (validAuthoredUpstreamTLSMode kv.2))) (map_to_list modes).

Fixpoint restrictionsAcceptable (tenants : list (string * gmap string Setting)) : result error unit :=
  match tenants with
  | [] => Ok tt
  | (_, settings) :: rest =>
      let! _ := ValidateTenantRestrictions settings in restrictionsAcceptable rest
  end.

Definition runtimeOf (d : document) : adminPolicyRuntimeStateFile :=
  mkRuntimeState (value_of (doc_UpstreamTLSModes d) ∅) (value_of (doc_SaaSTenantRestrictions d) ∅)
    (value_of (doc_TenantRestrictionRuleStatus d) ∅) (value_of (doc_PolicyStatusOverride d) ∅)
    (value_of (doc_EastWestEnabled d) ∅) (value_of (doc_EastWestAllowUnmatched d) ∅)
    (value_of (doc_EastWestRules d) ∅) (value_of (doc_EastWestMaxGrantTTL d) ∅)
    (value_of (doc_ServerInitiatedEnabled d) ∅) (value_of (doc_LegacyExceptions d) ∅)
    (value_of (doc_AdminAuthoredPolicies d) ∅).

(** The runtime state and the document it was read from. *)
Definition decodeRuntimeState (r : raw) : result error (adminPolicyRuntimeStateFile * document) :=
  match r with
  | Garbage => Err Unreadable
  | Document d =>
      let known := anyField (fun _ s => negb (is_absent s)) d in
      if negb known && bool_decide (doc_Others d = ∅) then Err EmptyAuthority else
      let schema := value_of (doc_SchemaVersion d) "" in
      if nonempty schema && negb (String.eqb schema adminPolicyRuntimeStateSchemaVersion)
      then Err UnsupportedSchema
      else if anyField (fun _ s => is_null s) d then Err NullField
      else if negb known then Err NoKnownFields
      else if negb (modesAcceptable (value_of (doc_UpstreamTLSModes d) ∅)) then Err InvalidUpstreamMode
      else
        let! _ := restrictionsAcceptable (map_to_list (value_of (doc_SaaSTenantRestrictions d) ∅)) in
        Ok (runtimeOf d, d)
  end.

(** [omitempty] *)
Definition omitempty {A} (m : gmap string A) : section (gmap string A) :=
  if bool_decide (m = ∅) then Absent else Value m.

(** A policy as it comes back from its JSON text. *)
Definition json_policy (p : Policy) : Policy :=
  p <| pol_Conditions := json_values (pol_Conditions p) |>
    <| pol_Metadata := json_values (pol_Metadata p) |>.

(** [json.Marshal] of the state, with the other fields [others] of the document. *)
Definition marshal (f : adminPolicyRuntimeStateFile) (others : gmap string string) : document :=
  mkDocument (Value adminPolicyRuntimeStateSchemaVersion) (omitempty (rt_UpstreamTLSModes f))
    (omitempty (rt_SaaSTenantRestrictions f)) (omitempty (rt_TenantRestrictionRuleStatus f))
    (omitempty (rt_PolicyStatusOverride f)) (omitempty (rt_EastWestEnabled f))
    (omitempty (rt_EastWestAllowUnmatched f)) (omitempty (rt_EastWestRules f))
    (omitempty (rt_EastWestMaxGrantTTL f)) (omitempty (rt_ServerInitiatedEnabled f))
    (omitempty (rt_LegacyExceptions f))
    (omitempty ((fun rows : gmap string Policy => json_policy <$> rows) <$> rt_AdminAuthoredPolicies f))
    others.

(** ** The store *)

Record Store := mkStore {
  ps_policies : nested Policy;
  ps_cachedPolicies : list Policy;
  ps_cachedPolicyIDs : list string;
  ps_runtime : adminPolicyRuntimeStateFile;
  ps_eastWestInternalNetworks : gmap string InternalNetworks;
  ps_compiledEastWestRules : gmap string (list EastWestRule);
  ps_compiledPolicies : gmap string (list Policy);
  ps_eastWestGrants : gmap string (list EastWestGrant);
  ps_runtimeAuthorityKnown : bool;
  ps_runtimeBasePolicies : nested Policy;
  ps_generation : Z;
}.

#[export] Instance Store_eta : Etaable Store := fun s =>
  mkStore (ps_policies s) (ps_cachedPolicies s) (ps_cachedPolicyIDs s) (ps_runtime s)
    (ps_eastWestInternalNetworks s) (ps_compiledEastWestRules s) (ps_compiledPolicies s)
    (ps_eastWestGrants s) (ps_runtimeAuthorityKnown s) (ps_runtimeBasePolicies s)
    (ps_generation s).

(** [generation++] on a [uint64] *)
Definition bump (s : Store) : Store :=
  s <| ps_generation := (ps_generation s + 1) mod 2 ^ 64 |>.

Definition SortPolicies : list Policy → list Policy :=
  sort_stable (lex_Z pol_Priority (lex_string_lt pol_ID)).

Definition activeAdminPolicyIDs (policies : list Policy) : list string :=
  List.map pol_ID (List.filter (fun p => String.eqb (pol_Status p) "active") policies).

(** [putLocked]: under the tenant and identifier the policy itself names. *)
Definition putLocked (m : nested Policy) (p : Policy) : nested Policy :=
  putRow (pol_TenantID p) (pol_ID p) p m.

(** ** Policies *)

Definition validAdminPolicyStatus (status : string) : bool :=
  containsString ["active"; "draft"; "disabled"] status.

Definition validAdminPolicyDecision (decision : string) : bool :=
  containsString ["allow"; "deny"; "require_reauthentication"; "require_workload_attestation"] decision.

(** Trimmed, without blanks and repetitions. *)
Definition normalizedStringList (values : list string) : list string :=
  foldl (fun result value =>
    let normalized := trim_space value in
    if is_empty normalized || containsString result normalized then result
    else result ++ [normalized]) [] values.

(** [clock] is what [time.Now] answers, read when [now] is the zero time. *)
Definition normalizeAdminPolicy (policy : Policy) (tenantID : string) (now clock : Z)
    : result error Policy :=
  let tenantID := trim_space tenantID in
  let id := trim_space (pol_ID policy) in
  let own := trim_space (pol_TenantID policy) in
  let own := if is_empty own then tenantID else own in
  let name := trim_space (pol_Name policy) in
  let status := trim_space (pol_Status policy) in
  let status := if is_empty status then "draft" else status in
  let decision := trim_space (pact_Decision (pol_Action policy)) in
  if is_empty tenantID then Err TenantIDRequired
  else if is_empty id then Err PolicyIDRequired
  else if contains_str id "/" then Err PolicyIDSlash
  else if negb (String.eqb own tenantID) then Err (TenantMismatch own tenantID)
  else if negb (validAdminPolicyStatus status) then Err (InvalidStatus status)
  else if is_empty decision then Err DecisionRequired
  else if negb (validAdminPolicyDecision decision) then Err (InvalidDecision decision)
  else if bool_decide (pol_Conditions policy = ∅) then Err ConditionsRequired
  else Ok (policy
    <| pol_ID := id |> <| pol_TenantID := own |>
    <| pol_Name := if is_empty name then id else name |>
    <| pol_Status := status |>
    <| pol_Action := mkPolicyAction decision |>
    <| pol_AllowedTaskPurposes := normalizedStringList (pol_AllowedTaskPurposes policy) |>
    <| pol_AllowedToolIDs := normalizedStringList (pol_AllowedToolIDs policy) |>
    <| pol_AllowedToolActions := normalizedStringList (pol_AllowedToolActions policy) |>
    <| pol_AllowedContextScopeIDs := normalizedStringList (pol_AllowedContextScopeIDs policy) |>
    <| pol_AllowedMemoryScopeIDs := normalizedStringList (pol_AllowedMemoryScopeIDs policy) |>
    <| pol_AllowedDataClassifications := normalizedStringList (pol_AllowedDataClassifications policy) |>
    <| pol_UpdatedAt := Some (format_rfc3339 (if is_zero_time now then clock else now)) |>).

(** Status overrides written into the policies that are there. *)
Definition overrideStatus (overrides : gmap string string) (id : string) (p : Policy) : Policy :=
  match overrides !! id with Some status => p <| pol_Status := status |> | None => p end.

Definition applyOverrides (overrides : gmap string string) (rows : gmap string Policy)
    : gmap string Policy :=
  map_imap (fun id p => Some (overrideStatus overrides id p)) rows.

Section store.
Context `{MapOrder}.

(** ** What is derived from the three owners *)

(** The rows of a map, or its keys, in the order Go visits them. *)
Definition visitRows {A} (rows : gmap string A) : list A := (iterate (map_to_list rows)).*2.
Definition visitKeys {A} (m : gmap string A) : list string := (iterate (map_to_list m)).*1.

Definition reapplyRuntimeOverlaysLocked (f : adminPolicyRuntimeStateFile) (m : nested Policy)
    (tenantID : string) : nested Policy :=
  let m := foldl putLocked m (visitRows (rowsOf (rt_AdminAuthoredPolicies f) tenantID)) in
  let overrides := rowsOf (rt_PolicyStatusOverride f) tenantID in
  if bool_decide (overrides = ∅) then m else alter (applyOverrides overrides) tenantID m.

Definition applyPolicyStatusOverridesLocked (f : adminPolicyRuntimeStateFile) (m : nested Policy)
    : nested Policy :=
  foldl (fun m tenantID => alter (applyOverrides (rowsOf (rt_PolicyStatusOverride f) tenantID)) tenantID m)
    m (visitKeys (rt_PolicyStatusOverride f)).

Definition rebuildPolicyCacheLocked (s : Store) : Store :=
  let policies := SortPolicies (snd <$> (snd <$> visit (ps_policies s))) in
  s <| ps_cachedPolicies := policies |> <| ps_cachedPolicyIDs := activeAdminPolicyIDs policies |>.

Definition adoptRuntimeLocked (s : Store) (f : adminPolicyRuntimeStateFile) : Store :=
  let m := foldl (reapplyRuntimeOverlaysLocked f) (ps_runtimeBasePolicies s)
             (visitKeys (rt_AdminAuthoredPolicies f)) in
  rebuildPolicyCacheLocked
    (s <| ps_runtime := f |> <| ps_policies := applyPolicyStatusOverridesLocked f m |>).

Definition NewStore (seed : list Policy) (clock : Z) : Store :=
  let m := foldl (fun m p =>
    let tenantID := trim_space (pol_TenantID p) in
    if is_empty tenantID then m else
    match normalizeAdminPolicy p tenantID clock clock with
    | Ok normalized => putLocked m normalized
    | Err _ => m
    end) ∅ seed in
  rebuildPolicyCacheLocked (mkStore m [] [] emptyRuntime ∅ ∅ ∅ ∅ false m 0).

(** ** Edits of the stored document *)

(** The callback of an update: the document to store, the state it holds, the answer. *)
Definition build {T} (s : Store) (edit : adminPolicyRuntimeStateFile → result error (adminPolicyRuntimeStateFile * T))
    (stored : option raw) : result error (raw * adminPolicyRuntimeStateFile * T) :=
  let latest :=
    match stored with
    | Some r => Some r
    | None => if ps_runtimeAuthorityKnown s then None else Some (Document (marshal (ps_runtime s) ∅))
    end in
  match latest with
  | None => Err ErrPolicyPersistence
  | Some r =>
      match decodeRuntimeState r with
      | Err _ => Err ErrPolicyPersistence
      | Ok (next, d) =>
          let! (next, t) := edit next in
          match decodeRuntimeState (Document (marshal next ∅)) with
          | Err _ => Err ErrPolicyPersistence
          | Ok (next', _) => Ok (Document (marshal next (doc_Others d)), next', t)
          end
      end
  end.

Definition publish (b : backing) (s : Store) (next : adminPolicyRuntimeStateFile) : Store :=
  let s := bump (adoptRuntimeLocked s next) in
  match b with
  | Memory => s
  | _ => s <| ps_runtimeAuthorityKnown := true |>
  end.

Definition editRuntimeLocked {T} (b : backing) (s : Store) (stored : option raw) (w : write_outcome)
    (edit : adminPolicyRuntimeStateFile → result error (adminPolicyRuntimeStateFile * T))
    : Store * option raw * result error T :=
  match b with
  | Updating =>
      match w with
      | Unavailable => (s, stored, Err ErrPolicyPersistence)
      | _ =>
          match build s edit stored with
          | Err e => (s, stored, Err e)
          | Ok (data, next, t) =>
              let disk := diskAfter w stored data in
              match w with
              | Written => (publish b s next, disk, Ok t)
              | _ => (s, disk, Err ErrPolicyPersistence)
              end
          end
      end
  | _ =>
      match build s edit (Some (Document (marshal (ps_runtime s) ∅))) with
      | Err e => (s, stored, Err e)
      | Ok (data, next, t) =>
          match b with
          | Plain =>
              let disk := diskAfter w stored data in
              match w with
              | Written => (publish b s next, disk, Ok t)
              | Unflushed => (publish b s next, disk, Err ErrPolicyPersistence)
              | _ => (s, disk, Err ErrPolicyPersistence)
              end
          | _ => (publish b s next, stored, Ok t)
          end
      end
  end.

(** ** Start and refresh *)

(** [load] is what the persister's [Load] answers. *)
Definition SetRuntimeStatePersister (b : backing) (s : Store) (load : result error (option raw))
    : result error Store :=
  match b with
  | Memory => Ok (s <| ps_runtimeAuthorityKnown := false |>)
  | _ =>
      match load with
      | Err e => Err e
      | Ok None => Ok (s <| ps_runtimeAuthorityKnown := false |>)
      | Ok (Some r) =>
          let! (f, _) := decodeRuntimeState r in
          Ok ((adoptRuntimeLocked s f) <| ps_runtimeAuthorityKnown := true |>)
      end
  end.

Definition RefreshSharedRuntime (b : backing) (s : Store) (load : result error (option raw))
    : result error Store :=
  match b with
  | Updating =>
      match load with
      | Err _ => Err ErrPolicyPersistence
      | Ok None => if ps_runtimeAuthorityKnown s then Err ErrPolicyPersistence else Ok s
      | Ok (Some r) =>
          match decodeRuntimeState r with
          | Err _ => Err ErrPolicyPersistence
          | Ok (f, _) =>
              let s := if bool_decide (ps_runtime s = f) then s else bump (adoptRuntimeLocked s f) in
              Ok (s <| ps_runtimeAuthorityKnown := true |>)
          end
      end
  | _ => Ok s
  end.

(** ** Distribution *)

Record TenantConfigBundle := mkTenantConfig {
  tc_UpstreamTLSMode : string;
  tc_SaaSTenantRestrictions : option (gmap string Setting);
  tc_EastWestEnabled : bool;
  tc_EastWestAllowUnmatched : bool;
  tc_EastWestRules : list EastWestRule;
  tc_EastWestMaxGrantTTL : Z;
  tc_ServerInitiatedEnabled : bool;
  tc_LegacyExceptions : list LegacyExceptionRecord;
  tc_TenantRestrictionRuleStatus : option (gmap string string);
}.

#[export] Instance TenantConfigBundle_eta : Etaable TenantConfigBundle := fun c =>
  mkTenantConfig (tc_UpstreamTLSMode c) (tc_SaaSTenantRestrictions c) (tc_EastWestEnabled c)
    (tc_EastWestAllowUnmatched c) (tc_EastWestRules c) (tc_EastWestMaxGrantTTL c)
    (tc_ServerInitiatedEnabled c) (tc_LegacyExceptions c) (tc_TenantRestrictionRuleStatus c).

Definition ValidateTenantConfig (cfg : TenantConfigBundle) : result error unit :=
  if negb (ValidateUpstreamTLSMode (tc_UpstreamTLSMode cfg)) then Err InvalidTLSMode
  else ValidateTenantRestrictions (default ∅ (tc_SaaSTenantRestrictions cfg)).

(** [m[tenant]] of a Go map, the zero value when there is none. *)
Definition get {A} (zero : A) (m : gmap string A) (tenant : string) : A := default zero (m !! tenant).

(** The rows of a bundle: those that are no policies of the tenant are skipped. *)
Definition freshPolicies (tenantID : string) (policies : list Policy) (now clock : Z) : gmap string Policy :=
  foldl (fun rows p =>
    match normalizeAdminPolicy (p <| pol_TenantID := tenantID |>) tenantID now clock with
    | Ok normalized => <[pol_ID normalized := normalized]> rows
    | Err _ => rows
    end) ∅ policies.

Definition replacePoliciesLocked (s : Store) (tenantID : string) (policies : list Policy) (now clock : Z)
    : Store * Z :=
  let fresh := freshPolicies tenantID policies now clock in
  (s <| ps_runtimeBasePolicies := <[tenantID := fresh]> (ps_runtimeBasePolicies s) |>
     <| ps_policies := reapplyRuntimeOverlaysLocked (ps_runtime s)
                         (<[tenantID := fresh]> (ps_policies s)) tenantID |>,
   Z.of_nat (size fresh)).

(** On the runtime state: the other fields of the store are not touched. *)
Definition applyTenantConfigLocked (f : adminPolicyRuntimeStateFile) (tenantID : string)
    (cfg : TenantConfigBundle) : adminPolicyRuntimeStateFile :=
  f <| rt_UpstreamTLSModes :=
         <[tenantID := EffectiveUpstreamTLSMode (tc_UpstreamTLSMode cfg)]> (rt_UpstreamTLSModes f) |>
    <| rt_SaaSTenantRestrictions :=
         match tc_SaaSTenantRestrictions cfg with
         | Some settings => <[tenantID := settings]> (rt_SaaSTenantRestrictions f)
         | None => rt_SaaSTenantRestrictions f
         end |>
    <| rt_EastWestEnabled := <[tenantID := tc_EastWestEnabled cfg]> (rt_EastWestEnabled f) |>
    <| rt_EastWestAllowUnmatched :=
         <[tenantID := tc_EastWestAllowUnmatched cfg]> (rt_EastWestAllowUnmatched f) |>
    <| rt_EastWestRules := <[tenantID := tc_EastWestRules cfg]> (rt_EastWestRules f) |>
    <| rt_EastWestMaxGrantTTL := <[tenantID := tc_EastWestMaxGrantTTL cfg]> (rt_EastWestMaxGrantTTL f) |>
    <| rt_ServerInitiatedEnabled :=
         <[tenantID := tc_ServerInitiatedEnabled cfg]> (rt_ServerInitiatedEnabled f) |>
    <| rt_LegacyExceptions := <[tenantID := tc_LegacyExceptions cfg]> (rt_LegacyExceptions f) |>
    <| rt_TenantRestrictionRuleStatus :=
         default (rt_TenantRestrictionRuleStatus f) (tc_TenantRestrictionRuleStatus cfg) |>.

Definition ReplaceTenant (s : Store) (tenantID : string) (policies : list Policy) (now clock : Z)
    : Store * Z :=
  let tenantID := trim_space tenantID in
  if is_empty tenantID then (s, 0) else
  let '(s, n) := replacePoliciesLocked s tenantID policies now clock in
  (rebuildPolicyCacheLocked (bump s), n).

(** The section of [ApplyBundle] and [ApplyReceivedBundle] under the lock. *)
Definition applyBundleLocked (s : Store) (tenantID : string) (policies : list Policy)
    (cfg : TenantConfigBundle) (now clock : Z) : Store * Z :=
  let '(s, n) := replacePoliciesLocked s tenantID policies now clock in
  let s := s <| ps_runtime := applyTenantConfigLocked (ps_runtime s) tenantID cfg |> in
  (rebuildPolicyCacheLocked (bump s), n).

Definition ApplyBundle (s : Store) (tenantID : string) (policies : list Policy)
    (cfg : TenantConfigBundle) (now clock : Z) : Store * Z :=
  match ValidateTenantConfig cfg with
  | Err _ => (s, 0)
  | Ok _ =>
      let tenantID := trim_space tenantID in
      if is_empty tenantID then (s, 0) else applyBundleLocked s tenantID policies cfg now clock
  end.

(** The controls are live even when the node-local cache could not be saved; the last
    component says whether it was. *)
Definition ApplyReceivedBundle (b : backing) (s : Store) (stored : option raw) (w : write_outcome)
    (tenant : string) (policies : list Policy) (cfg : TenantConfigBundle) (now clock : Z)
    : Store * option raw * result error (Z * bool) :=
  let tenant := trim_space tenant in
  if is_empty tenant then (s, stored, Err ReceivedTenantRequired) else
  match ValidateTenantConfig cfg with
  | Err e => (s, stored, Err e)
  | Ok _ =>
      match b with
      | Updating => (s, stored, Err NodeLocalCacheRequired)
      | _ =>
          match decodeRuntimeState (Document (marshal (ps_runtime s) ∅)) with
          | Err e => (s, stored, Err e)
          | Ok (state, _) =>
              let data := Document (marshal (applyTenantConfigLocked state tenant cfg) ∅) in
              let '(disk, cached) :=
                match b with
                | Plain => (diskAfter w stored data, match w with Written => true | _ => false end)
                | _ => (stored, true)
                end in
              let '(s, n) := applyBundleLocked s tenant policies cfg now clock in
              (s, disk, Ok (n, cached))
          end
      end
  end.

Definition Snapshot (s : Store) (tenantID : string) : list Policy :=
  let tenantID := trim_space tenantID in
  if is_empty tenantID then [] else
  SortPolicies (visitRows (rowsOf (ps_policies s) tenantID) ++ get [] (ps_compiledPolicies s) tenantID).

Definition zero_TenantConfig : TenantConfigBundle := mkTenantConfig "" None false false [] 0 false [] None.

Definition SnapshotTenantConfig (s : Store) (tenantID : string) : TenantConfigBundle :=
  let tenantID := trim_space tenantID in
  if is_empty tenantID then zero_TenantConfig else
  let f := ps_runtime s in
  mkTenantConfig (EffectiveUpstreamTLSMode (get "" (rt_UpstreamTLSModes f) tenantID))
    (Some (rowsOf (rt_SaaSTenantRestrictions f) tenantID))
    (get false (rt_EastWestEnabled f) tenantID) (get false (rt_EastWestAllowUnmatched f) tenantID)
    (get [] (rt_EastWestRules f) tenantID) (get 0 (rt_EastWestMaxGrantTTL f) tenantID)
    (get false (rt_ServerInitiatedEnabled f) tenantID) (get [] (rt_LegacyExceptions f) tenantID)
    (if bool_decide (rt_TenantRestrictionRuleStatus f = ∅) then None
     else Some (rt_TenantRestrictionRuleStatus f)).

(** ** Reads *)

Record ListOptions := mkListOptions { lo_Status : string; lo_Limit : Z }.
Record ListResponse := mkListResponse { lr_Policies : list Policy; lr_Count : Z; lr_Limit : Z }.

Definition List (s : Store) (tenantID : string) (options : ListOptions) : result error ListResponse :=
  let tenantID := trim_space tenantID in
  let status := trim_space (lo_Status options) in
  let limit := if lo_Limit options <=? 0 then 100 else lo_Limit options in
  if is_empty tenantID then Err TenantIDRequired
  else if nonempty status && negb (validAdminPolicyStatus status) then Err (InvalidStatus status)
  else
    let rows := SortPolicies (List.filter (fun p => is_empty status || String.eqb (pol_Status p) status)
                  (visitRows (rowsOf (ps_policies s) tenantID))) in
    Ok (mkListResponse (take (Z.to_nat limit) rows) (Z.of_nat (length rows)) limit).

Definition Get (s : Store) (tenantID policyID : string) : result error (option Policy) :=
  let tenantID := trim_space tenantID in
  let policyID := trim_space policyID in
  if is_empty tenantID then Err TenantIDRequired
  else if is_empty policyID then Err PolicyIDRequired
  else Ok (rowsOf (ps_policies s) tenantID !! policyID).

Definition ConfigGeneration (s : Store) : Z := ps_generation s.

Definition EastWestMaxGrantTTL (s : Store) (tenantID : string) : Z :=
  get 0 (rt_EastWestMaxGrantTTL (ps_runtime s)) (trim_space tenantID).
Definition EastWestIsEnabled (s : Store) (tenantID : string) : bool :=
  get false (rt_EastWestEnabled (ps_runtime s)) (trim_space tenantID).
Definition EastWestAllowsUnmatched (s : Store) (tenantID : string) : bool :=
  get false (rt_EastWestAllowUnmatched (ps_runtime s)) (trim_space tenantID).
Definition EastWestRulesFor (s : Store) (tenantID : string) : list EastWestRule :=
  get [] (rt_EastWestRules (ps_runtime s)) (trim_space tenantID).
Definition EffectiveEastWestRules (s : Store) (tenantID : string) : list EastWestRule :=
  EastWestRulesFor s tenantID ++ get [] (ps_compiledEastWestRules s) (trim_space tenantID).
Definition ServerInitiatedEnabledFor (s : Store) (tenantID : string) : bool :=
  get false (rt_ServerInitiatedEnabled (ps_runtime s)) (trim_space tenantID).
Definition LegacyExceptionsFor (s : Store) (tenantID : string) : list LegacyExceptionRecord :=
  sort_stable (lex_string_lt lex_ID) (get [] (rt_LegacyExceptions (ps_runtime s)) (trim_space tenantID)).
Definition TenantRestrictionRuleStatusOverrides (s : Store) : gmap string string :=
  rt_TenantRestrictionRuleStatus (ps_runtime s).
Definition UpstreamTLSModeFor (s : Store) (tenantID : string) : string :=
  EffectiveUpstreamTLSMode (get "" (rt_UpstreamTLSModes (ps_runtime s)) (trim_space tenantID)).
Definition UpstreamTLSConfigurable (b : backing) : bool := match b with Memory => false | _ => true end.

(** Only a choice that differs from the default counts. *)
Definition countsAsSetting (modes : gmap string string) (tenant : string) : Z :=
  let mode := get "" modes tenant in
  if nonempty mode && negb (String.eqb mode UpstreamTLSDefault) then 1 else 0.
Definition CountUpstreamTLSSettings (s : Store) (tenant : string) : Z :=
  countsAsSetting (rt_UpstreamTLSModes (ps_runtime s)) tenant.
Definition CountTenantRestrictions (s : Store) (tenant : string) : Z :=
  Z.of_nat (size (rowsOf (rt_SaaSTenantRestrictions (ps_runtime s)) tenant)).

Definition Tenants (s : Store) : list string :=
  let named (l : list string) := List.filter nonempty (List.map trim_space l) in
  sort_strings (elements (list_to_set (
    visitKeys (rt_UpstreamTLSModes (ps_runtime s)) ++ visitKeys (rt_SaaSTenantRestrictions (ps_runtime s))
    ++ named (visitKeys (ps_policies s)) ++ named (visitKeys (rt_EastWestEnabled (ps_runtime s)))) : gset string)).

Definition sortedKeys {A} (m : gmap string A) : list string := sort_strings (visitKeys m).

Definition CompiledRuleTenants (s : Store) : list string :=
  foldl (fun out tenant => if containsString out tenant then out else out ++ [tenant]) []
    (sortedKeys (ps_compiledPolicies s) ++ sortedKeys (ps_compiledEastWestRules s)).

(** ** State that is not stored *)

Definition SetEastWestInternalNetworks (s : Store) (tenantID : string) (networks : InternalNetworks) : Store :=
  s <| ps_eastWestInternalNetworks := <[trim_space tenantID := networks]> (ps_eastWestInternalNetworks s) |>.

Definition SetCompiledEastWestRules (s : Store) (tenantID : string) (rules : list EastWestRule) : Store :=
  bump (s <| ps_compiledEastWestRules := <[trim_space tenantID := rules]> (ps_compiledEastWestRules s) |>).

Definition SetCompiledPolicies (s : Store) (tenantID : string) (policies : list Policy) : Store :=
  let key := trim_space tenantID in
  bump (s <| ps_compiledPolicies :=
    match policies with
    | [] => delete key (ps_compiledPolicies s)
    | _ => <[key := policies]> (ps_compiledPolicies s)
    end |>).

Definition IssueEastWestGrant (s : Store) (tenantID : string) (grant : EastWestGrant) : Store :=
  let tenantID := trim_space tenantID in
  s <| ps_eastWestGrants :=
    <[tenantID := get [] (ps_eastWestGrants s) tenantID ++ [grant]]> (ps_eastWestGrants s) |>.

Definition grantInScope (scopeType scopeID : string) (g : EastWestGrant) : bool :=
  String.eqb scopeType "device" && String.eqb (ewg_DeviceID g) scopeID
  || String.eqb scopeType "user" && String.eqb (ewg_SubjectUserID g) scopeID.

Definition revokeEastWestGrantsForScopeLocked (s : Store) (tenantID scopeType scopeID : string)
    : Store * Z :=
  let grants := get [] (ps_eastWestGrants s) tenantID in
  if is_empty scopeID || is_nil grants then (s, 0) else
  (s <| ps_eastWestGrants :=
     <[tenantID := List.filter (fun g => negb (grantInScope scopeType scopeID g)) grants]>
       (ps_eastWestGrants s) |>,
   Z.of_nat (length (List.filter (grantInScope scopeType scopeID) grants))).

Definition revokeEastWestGrantsForTenantLocked (s : Store) (tenantID : string) : Store * Z :=
  (s <| ps_eastWestGrants := delete tenantID (ps_eastWestGrants s) |>,
   Z.of_nat (length (get [] (ps_eastWestGrants s) tenantID))).

Definition RevokeEastWestGrants (s : Store) (tenantID scopeType scopeID : string) : Store * Z :=
  let tenantID := trim_space tenantID in
  let scopeType := trim_space scopeType in
  let scopeID := trim_space scopeID in
  if is_empty scopeType || String.eqb scopeType "tenant"
  then revokeEastWestGrantsForTenantLocked s tenantID
  else revokeEastWestGrantsForScopeLocked s tenantID scopeType scopeID.

(** The grant whose idle timer a released request resets. *)
Definition touches (req : DecisionRequest) (g : EastWestGrant) : bool :=
  negb (ewg_IdleTTLSeconds g <=? 0)
  && negb (nonempty (ewg_Protocol g) && negb (equal_fold (ewg_Protocol g) (trim_space (req_ServiceFamily req))))
  && negb (nonempty (ewg_SubjectUserID g) && negb (String.eqb (ewg_SubjectUserID g) (req_SubjectUserID req))
           && negb (String.eqb (ewg_SubjectUserID g) (req_UserID req)))
  && negb (nonempty (ewg_DeviceID g) && negb (String.eqb (ewg_DeviceID g) (req_DeviceID req)))
  && negb (nonempty (ewg_Destination g) && negb (String.eqb (ewg_Destination g) (req_Destination req))
           && negb (String.eqb (ewg_Destination g) (req_ApplicationID req))).

Definition TouchEastWestGrant (s : Store) (tenantID : string) (req : DecisionRequest) (now : Z) : Store :=
  s <| ps_eastWestGrants := alter
    (List.map (fun g => if touches req g then g <| ewg_LastUsedAt := now |> else g))
    (trim_space tenantID) (ps_eastWestGrants s) |>.

Definition EastWestGrantsFor (s : Store) (tenantID : string) (now : Z) : list EastWestGrant :=
  List.filter (fun g => now <? ewg_ExpiresAt g) (get [] (ps_eastWestGrants s) (trim_space tenantID)).

(** ** The evaluator of the moment *)

(** What one provider of a tenant contributes: a rule, a catalogue entry, header values. *)
Definition compileRestriction (tenant : string) (rows : gmap string Setting) (p : Provider)
    : list (SWGTenantRestrictionRule * SaaSCatalogEntry * list (string * string)) :=
  match rows !! prov_ID p with
  | None => []
  | Some s => [(Rule tenant p s, Catalog tenant p,
      when (nonempty (set_AllowedValue s)) [(Ref tenant (prov_ID p), set_AllowedValue s)]
      ++ when (nonempty (set_ContextTenantID s))
           [(Ref tenant (prov_ID p) +:+ "/context", set_ContextTenantID s)])]
  end.

Definition compileRestrictions (restrictions : nested Setting)
    : list (SWGTenantRestrictionRule * SaaSCatalogEntry * list (string * string)) :=
  flat_map (fun tenant => flat_map (compileRestriction tenant (rowsOf restrictions tenant)) Providers)
    (sortedKeys restrictions).

Definition compileTenantRestrictionsLocked (s : Store) (base : Evaluator) : Evaluator :=
  let restrictions := rt_SaaSTenantRestrictions (ps_runtime s) in
  if bool_decide (restrictions = ∅) then base else
  let compiled := compileRestrictions restrictions in
  let bundle := ev_PolicyBundle base in
  base <| ev_PolicyBundle := bundle
            <| bun_SWGTenantRestrictionRules :=
                 bun_SWGTenantRestrictionRules bundle ++ List.map (fun x => x.1.1) compiled |>
            <| bun_SaaSCatalog := bun_SaaSCatalog bundle ++ List.map (fun x => x.1.2) compiled |> |>
       <| ev_TenantRestrictionHeaderValues :=
            set_keys ∅ (flat_map (fun x => x.2) compiled) |>.

Definition overrideRuleStatus (overrides : gmap string string) (r : SWGTenantRestrictionRule)
    : SWGTenantRestrictionRule :=
  match overrides !! trr_ID r with Some status => r <| trr_Status := status |> | None => r end.

Definition policyKey (p : Policy) : string * string := (pol_TenantID p, pol_ID p).

(** The compiled policies whose key is not there yet, each once. *)
Definition mergeCompiled (policies compiled : list Policy) : list Policy :=
  foldl (fun merged p => if bool_decide (policyKey p ∈ policyKey <$> merged) then merged
                         else merged ++ [p]) policies compiled.

Definition RuntimeEvaluator (s : Store) (base : Evaluator) : Evaluator :=
  let base := base <| ev_Policies := ps_cachedPolicies s |>
    <| ev_PolicyBundle := (ev_PolicyBundle base) <| bun_PolicyIDs := ps_cachedPolicyIDs s |> |> in
  let base := compileTenantRestrictionsLocked s base in
  let f := ps_runtime s in
  let bundle := ev_PolicyBundle base in
  let base := base <| ev_PolicyBundle := bundle <| bun_SWGTenantRestrictionRules :=
    List.map (overrideRuleStatus (rt_TenantRestrictionRuleStatus f))
      (bun_SWGTenantRestrictionRules bundle) |> |> in
  let tenantID := trim_space (bun_TenantID (ev_PolicyBundle base)) in
  let base := base <| ev_Policies := mergeCompiled (ev_Policies base)
    (flat_map (get [] (ps_compiledPolicies s)) (sortedKeys (ps_compiledPolicies s))) |> in
  let legacy := get [] (rt_EastWestRules f) tenantID in
  let compiled := get [] (ps_compiledEastWestRules s) tenantID in
  let grants := get [] (ps_eastWestGrants s) tenantID in
  let ew := ev_EastWest base in
  base <| ev_EastWestEnabled := get false (rt_EastWestEnabled f) tenantID || ev_EastWestEnabled base |>
    <| ev_EastWest := mkEWConfig (get false (rt_EastWestAllowUnmatched f) tenantID)
         (get (mkInternalNetworks [] []) (ps_eastWestInternalNetworks s) tenantID)
         (match legacy ++ compiled with [] => ewc_Rules ew | rules => rules end)
         (get 0 (rt_EastWestMaxGrantTTL f) tenantID)
         (match grants with [] => ewc_Grants ew | _ => grants end) |>
    <| ev_ServerInitiatedEnabled := default (ev_ServerInitiatedEnabled base)
         (rt_ServerInitiatedEnabled f !! tenantID) |>
    <| ev_LegacyExceptions := default (ev_LegacyExceptions base)
         (LegacyExceptionsFromModel <$> rt_LegacyExceptions f !! tenantID) |>.

(** ** The durable operations *)

Section operations.
Variables (b : backing) (s : Store) (stored : option raw) (w : write_outcome).

Definition edit_unit (edit : adminPolicyRuntimeStateFile → adminPolicyRuntimeStateFile) :=
  editRuntimeLocked b s stored w (fun f => Ok (edit f, tt)).

Definition Upsert (item : Policy) (tenantID : string) (now clock : Z)
    : Store * option raw * result error Policy :=
  match normalizeAdminPolicy item tenantID now clock with
  | Err e => (s, stored, Err e)
  | Ok normalized =>
      editRuntimeLocked b s stored w (fun f => Ok (
        f <| rt_AdminAuthoredPolicies :=
               putRow (pol_TenantID normalized) (pol_ID normalized) normalized (rt_AdminAuthoredPolicies f) |>,
        normalized))
  end.

(** [delete(m[tenant], id)] on a map of maps. *)
Definition deleteIn {A} (tenant id : string) (m : nested A) : nested A := alter (delete id) tenant m.

Definition Delete (tenantID policyID : string) : Store * option raw * result error (option Policy) :=
  let tenantID := trim_space tenantID in
  let policyID := trim_space policyID in
  if is_empty tenantID || is_empty policyID then (s, stored, Err PolicyIDRequired) else
  editRuntimeLocked b s stored w (fun f =>
    match rowsOf (rt_AdminAuthoredPolicies f) tenantID !! policyID with
    | None =>
        if bool_decide (is_Some (rowsOf (ps_runtimeBasePolicies s) tenantID !! policyID))
        then Err (FromPolicyBundle policyID) else Ok (f, None)
    | Some removed => Ok (
        f <| rt_AdminAuthoredPolicies := deleteIn tenantID policyID (rt_AdminAuthoredPolicies f) |>
          <| rt_PolicyStatusOverride := deleteIn tenantID policyID (rt_PolicyStatusOverride f) |>,
        Some removed)
    end).

Definition SetPolicyStatusContext (tenantID policyID status : string)
    : Store * option raw * result error bool :=
  let tenantID := trim_space tenantID in
  let policyID := trim_space policyID in
  let status := to_lower (trim_space status) in
  if negb (String.eqb status "active") && negb (String.eqb status "disabled")
  then (s, stored, Err InvalidPolicyStatus) else
  editRuntimeLocked b s stored w (fun f =>
    if bool_decide (is_Some (rowsOf (rt_AdminAuthoredPolicies f) tenantID !! policyID)
                    ∨ is_Some (rowsOf (ps_runtimeBasePolicies s) tenantID !! policyID))
    then Ok (f <| rt_PolicyStatusOverride :=
                    putRow tenantID policyID status (rt_PolicyStatusOverride f) |>, true)
    else Ok (f, false)).

(** [None] is a nil pointer: the field is left as it is. *)
Definition ApplyEastWestUpdateContext (tenant : string) (rules : option (list EastWestRule))
    (ttl : option Z) (enabled unmatched : option bool) : Store * option raw * result error unit :=
  let tenant := trim_space tenant in
  edit_unit (fun f =>
    f <| rt_EastWestRules := from_option (fun r => <[tenant := r]> (rt_EastWestRules f)) (rt_EastWestRules f) rules |>
      <| rt_EastWestMaxGrantTTL :=
           from_option (fun n => <[tenant := Z.max 0 n]> (rt_EastWestMaxGrantTTL f)) (rt_EastWestMaxGrantTTL f) ttl |>
      <| rt_EastWestEnabled :=
           from_option (fun e => <[tenant := e]> (rt_EastWestEnabled f)) (rt_EastWestEnabled f) enabled |>
      <| rt_EastWestAllowUnmatched :=
           from_option (fun u => <[tenant := u]> (rt_EastWestAllowUnmatched f)) (rt_EastWestAllowUnmatched f) unmatched |>).

Definition SetEastWestMaxGrantTTL (tenantID : string) (seconds : Z) :=
  (ApplyEastWestUpdateContext tenantID None (Some seconds) None None).1.
Definition SetEastWestEnabled (tenantID : string) (enabled : bool) :=
  (ApplyEastWestUpdateContext tenantID None None (Some enabled) None).1.
Definition SetEastWestAllowUnmatched (tenantID : string) (allow : bool) :=
  (ApplyEastWestUpdateContext tenantID None None None (Some allow)).1.
Definition SetEastWestRules (tenantID : string) (rules : list EastWestRule) :=
  (ApplyEastWestUpdateContext tenantID (Some rules) None None None).1.

Definition SetTenantRestrictionRuleStatusesContext (statuses : gmap string string) :=
  edit_unit (fun f =>
    f <| rt_TenantRestrictionRuleStatus := statuses ∪ rt_TenantRestrictionRuleStatus f |>).
Definition SetTenantRestrictionRuleStatus (ruleID status : string) :=
  (SetTenantRestrictionRuleStatusesContext {[ trim_space ruleID := trim_space status ]}).1.

Definition SetServerInitiatedEnabledContext (tenant : string) (enabled : bool) :=
  edit_unit (fun f =>
    f <| rt_ServerInitiatedEnabled := <[trim_space tenant := enabled]> (rt_ServerInitiatedEnabled f) |>).

(** The list with the first item of an identifier replaced, or with one more item. *)
Fixpoint replaceException (id : string) (candidate : LegacyExceptionRecord)
    (l : list LegacyExceptionRecord) : list LegacyExceptionRecord :=
  match l with
  | [] => [candidate]
  | ex :: l' => if String.eqb (lex_ID ex) id then candidate :: l' else ex :: replaceException id candidate l'
  end.

Definition MutateLegacyExceptionContext (tenant id : string)
    (edit : LegacyExceptionRecord → result error LegacyExceptionRecord)
    : Store * option raw * result error LegacyExceptionRecord :=
  let tenant := trim_space tenant in
  editRuntimeLocked b s stored w (fun f =>
    let list := get [] (rt_LegacyExceptions f) tenant in
    let current :=
      default (zero_LegacyExceptionRecord <| lex_ID := id |> <| lex_TenantID := tenant |>
                 <| lex_Status := "active" |>)
        (List.find (fun ex => String.eqb (lex_ID ex) id) list) in
    let! candidate := edit current in
    if negb (String.eqb (lex_ID candidate) id) then Err ExceptionIdentity else
    let candidate := candidate <| lex_TenantID := tenant |> in
    Ok (f <| rt_LegacyExceptions := <[tenant := replaceException id candidate list]> (rt_LegacyExceptions f) |>,
        candidate)).

Definition UpsertLegacyExceptionConfirmed (tenant : string) (ex : LegacyExceptionRecord) :=
  MutateLegacyExceptionContext tenant (lex_ID ex) (fun _ => Ok ex).

Fixpoint removeException (id : string) (l : list LegacyExceptionRecord) : list LegacyExceptionRecord :=
  match l with
  | [] => []
  | ex :: l' => if String.eqb (lex_ID ex) id then l' else ex :: removeException id l'
  end.

Definition RemoveLegacyExceptionContext (tenant id : string) : Store * option raw * result error bool :=
  let tenant := trim_space tenant in
  let id := trim_space id in
  editRuntimeLocked b s stored w (fun f =>
    let list := get [] (rt_LegacyExceptions f) tenant in
    if existsb (fun ex => String.eqb (lex_ID ex) id) list
    then Ok (f <| rt_LegacyExceptions := <[tenant := removeException id list]> (rt_LegacyExceptions f) |>, true)
    else Ok (f, false)).

(** [None] keeps what is set. *)
Record TenantRestrictionPatch := mkPatch {
  pt_AllowedValue : option string;
  pt_ContextTenantID : option string;
  pt_Enabled : option bool;
}.

Definition updateTenantRestrictionsLocked {T} (tenant : string)
    (edit : gmap string Setting → result error (gmap string Setting * T))
    : Store * option raw * result error T :=
  match b with
  | Memory => (s, stored, Err StorageNotConfigured)
  | _ =>
      editRuntimeLocked b s stored w (fun f =>
        let! (next, t) := edit (rowsOf (rt_SaaSTenantRestrictions f) tenant) in
        Ok (f <| rt_SaaSTenantRestrictions := <[tenant := next]> (rt_SaaSTenantRestrictions f) |>, t))
  end.

Definition SaveTenantRestrictionContext (tenant provider : string) (patch : TenantRestrictionPatch)
    : Store * option raw * result error unit :=
  let tenant := trim_space tenant in
  if is_empty tenant then (s, stored, Err SelectOrganization) else
  updateTenantRestrictionsLocked tenant (fun next =>
    let setting := default zero_Setting (next !! provider) in
    let setting := mkSetting (default (set_AllowedValue setting) (pt_AllowedValue patch))
      (default (set_ContextTenantID setting) (pt_ContextTenantID patch))
      (default (set_Enabled setting) (pt_Enabled patch)) in
    match Validate provider setting with
    | Err e => Err (InvalidRestriction e)
    | Ok setting => Ok (<[provider := setting]> next, tt)
    end).

(** The shortcut is for a store whose persister has no plain [Update]; [contextOnly] says that
    an updating persister has [UpdateContext] alone. *)
Definition RemoveTenantRestrictionsContext (contextOnly : bool) (tenant : string)
    : Store * option raw * result error Z :=
  let shared := match b with Updating => negb contextOnly | _ => false end in
  if negb shared && bool_decide (rowsOf (rt_SaaSTenantRestrictions (ps_runtime s)) tenant = ∅)
  then (s, stored, Ok 0)
  else updateTenantRestrictionsLocked tenant (fun previous => Ok (∅, Z.of_nat (size previous))).

Definition SetUpstreamTLSModeContext (tenantID mode : string) : Store * option raw * result error unit :=
  let tenantID := trim_space tenantID in
  if is_empty tenantID then (s, stored, Err SelectTenant)
  else if negb (validAuthoredUpstreamTLSMode mode) then (s, stored, Err InvalidTLSMode)
  else match b with
  | Memory => (s, stored, Err StorageNotConfigured)
  | _ => edit_unit (fun f => f <| rt_UpstreamTLSModes := <[tenantID := mode]> (rt_UpstreamTLSModes f) |>)
  end.

Definition RemoveUpstreamTLSSettingsContext (tenant : string) : Store * option raw * result error Z :=
  editRuntimeLocked b s stored w (fun f =>
    Ok (f <| rt_UpstreamTLSModes := <[tenant := UpstreamTLSDefault]> (rt_UpstreamTLSModes f) |>,
        countsAsSetting (rt_UpstreamTLSModes f) tenant)).

End operations.

End store.

(** * Properties *)

(** ** Reading back what was written *)

(** What [decodeRuntimeState] checks beyond the types. *)
Definition readable (f : adminPolicyRuntimeStateFile) : Prop :=
  modesAcceptable (rt_UpstreamTLSModes f) = true ∧
  restrictionsAcceptable (map_to_list (rt_SaaSTenantRestrictions f)) = Ok tt.

(** The state with its authored policies as JSON returns them. *)
Definition json_runtime (f : adminPolicyRuntimeStateFile) : adminPolicyRuntimeStateFile :=
  f <| rt_AdminAuthoredPolicies :=
         (fun rows : gmap string Policy => json_policy <$> rows) <$> rt_AdminAuthoredPolicies f |>.

Lemma value_of_omitempty {A} (m : gmap string A) : value_of (omitempty m) ∅ = m.
Proof. unfold omitempty. by case_bool_decide. Qed.

Lemma omitempty_not_null {A} (m : gmap string A) : is_null (omitempty m) = false.
Proof. unfold omitempty. by case_bool_decide. Qed.

Lemma runtimeOf_marshal f others : runtimeOf (marshal f others) = json_runtime f.
Proof. unfold runtimeOf, marshal. cbn. by rewrite !value_of_omitempty. Qed.

(** A written document is read exactly when the state passes the checks. *)
Lemma decode_marshal f others next d :
  decodeRuntimeState (Document (marshal f others)) = Ok (next, d) ↔
  readable f ∧ next = json_runtime f ∧ d = marshal f others.
Proof.
  unfold decodeRuntimeState. rewrite runtimeOf_marshal.
  assert (anyField (fun _ s => negb (is_absent s)) (marshal f others) = true) as ->
    by (unfold anyField, marshal; cbn; by rewrite orb_true_r).
  assert (anyField (fun _ s => is_null s) (marshal f others) = false) as ->
    by (unfold anyField, marshal; cbn; by rewrite !omitempty_not_null).
  cbn [negb andb marshal doc_SchemaVersion value_of doc_UpstreamTLSModes doc_SaaSTenantRestrictions].
  rewrite !value_of_omitempty. unfold readable.
  change (nonempty adminPolicyRuntimeStateSchemaVersion
    && negb (String.eqb adminPolicyRuntimeStateSchemaVersion adminPolicyRuntimeStateSchemaVersion)) with false.
  destruct (modesAcceptable _); cbn [negb]; [|naive_solver].
  destruct (restrictionsAcceptable _) as [[]|e]; cbn; naive_solver.
Qed.

Lemma decoded_readable r f d : decodeRuntimeState r = Ok (f, d) → readable f ∧ f = runtimeOf d.
Proof.
  destruct r as [|d']; [done|]. unfold decodeRuntimeState.
  destruct (_ && _); [done|]. destruct (nonempty _ && _); [done|].
  destruct (anyField _ _); [done|]. destruct (negb (anyField _ _)); [done|].
  destruct (modesAcceptable _) eqn:Hm; [|done]. cbn [negb].
  destruct (restrictionsAcceptable _) as [[]|e] eqn:Hr; [|done]. cbn. intros [= <- <-].
  split; [by split|done].
Qed.

Lemma json_policy_key p : policyKey (json_policy p) = policyKey p.
Proof. done. Qed.

Lemma json_policy_idemp p : json_policy (json_policy p) = json_policy p.
Proof. unfold json_policy. cbn. by rewrite !json_values_idemp. Qed.

Lemma json_runtime_idemp f : json_runtime (json_runtime f) = json_runtime f.
Proof.
  destruct f. cbv [json_runtime set_field]. cbn -[fmap]. f_equal. apply map_eq. intros t. rewrite !lookup_fmap.
  destruct (_ !! t) as [rows|]; [|done]. cbn. f_equal. apply map_eq. intros id. rewrite !lookup_fmap.
  destruct (rows !! id) as [p|]; [|done]. cbn. by rewrite json_policy_idemp.
Qed.

Lemma readable_json f : readable (json_runtime f) ↔ readable f.
Proof. done. Qed.

(** ** Policies under their own tenant and identifier *)

Definition is_tenant (t : string) : Prop := t ≠ "" ∧ trim_space t = t.

Definition keyedRows (m : nested Policy) : Prop :=
  ∀ t id p, rowsOf m t !! id = Some p → is_tenant t ∧ policyKey p = (t, id).

Lemma keyed_put m p : keyedRows m → is_tenant (pol_TenantID p) → keyedRows (putLocked m p).
Proof.
  intros Hm Ht t id q. unfold putLocked. rewrite rowsOf_put. case_decide as Hk; [|apply Hm].
  destruct Hk as [-> ->]. by intros [= <-].
Qed.

Lemma keyed_json m :
  keyedRows m → keyedRows ((fun rows : gmap string Policy => json_policy <$> rows) <$> m).
Proof.
  intros Hm t id p. rewrite rowsOf_fmap, lookup_fmap_Some. intros (q & <- & Hq).
  rewrite json_policy_key. by apply Hm.
Qed.

Lemma normalized_key p tenantID now clock q :
  normalizeAdminPolicy p tenantID now clock = Ok q →
  pol_TenantID q = trim_space tenantID ∧ is_tenant (trim_space tenantID) ∧ pol_ID q = trim_space (pol_ID p) ∧ pol_ID q ≠ "".
Proof.
  unfold normalizeAdminPolicy. cbv zeta.
  destruct (is_empty (trim_space tenantID)) eqn:Ht; [done|].
  destruct (is_empty (trim_space (pol_ID p))) eqn:Hid; [done|].
  destruct (contains_str _ "/"); [done|].
  destruct (String.eqb (if is_empty (trim_space (pol_TenantID p)) then trim_space tenantID
    else trim_space (pol_TenantID p)) (trim_space tenantID)) eqn:Hown; [|done]. cbn [negb].
  destruct (negb (validAdminPolicyStatus _)); [done|]. destruct (is_empty (trim_space (pact_Decision _))); [done|].
  destruct (negb (validAdminPolicyDecision _)); [done|]. case_bool_decide; [done|].
  intros [= <-]. cbn. apply String.eqb_eq in Hown. split_and!; [done| |done|].
  - split; [intros E; by rewrite E in Ht|apply trim_space_idemp].
  - intros E. by rewrite E in Hid.
Qed.

(** ** The live policies *)

Section live.
Context `{MapOrder}.

Lemma elem_of_visitKeys {A} (m : gmap string A) k : k ∈ visitKeys m ↔ is_Some (m !! k).
Proof.
  unfold visitKeys. rewrite iterate_perm, list_elem_of_fmap. split.
  - intros ([k' x] & -> & Hin%elem_of_map_to_list). by exists x.
  - intros [x Hx]. exists (k, x). split; [done|]. by apply elem_of_map_to_list.
Qed.

Lemma NoDup_visitKeys {A} (m : gmap string A) : NoDup (visitKeys m).
Proof. unfold visitKeys. rewrite iterate_perm. apply NoDup_fst_map_to_list. Qed.

Lemma elem_of_visitRows {A} (rows : gmap string A) x : x ∈ visitRows rows ↔ ∃ id, rows !! id = Some x.
Proof.
  unfold visitRows. rewrite iterate_perm, list_elem_of_fmap. split.
  - intros ([id y] & -> & Hin%elem_of_map_to_list). by exists id.
  - intros [id Hx]. exists (id, x). split; [done|]. by apply elem_of_map_to_list.
Qed.

(** The rows of one tenant have distinct keys. *)
Lemma NoDup_visitRows m t : keyedRows m → NoDup (policyKey <$> visitRows (rowsOf m t)).
Proof.
  intros Hm. unfold visitRows. rewrite <- list_fmap_compose.
  apply NoDup_fmap_2_strong; [|rewrite iterate_perm; apply NoDup_map_to_list].
  intros [i x] [j y]. rewrite iterate_perm, !elem_of_map_to_list. cbn. intros Hx Hy Hk.
  apply Hm in Hx as Hkx, Hy as Hky. destruct Hkx as [_ Hkx], Hky as [_ Hky].
  assert (i = j) as -> by congruence. congruence.
Qed.

Lemma foldl_put l m t id :
  NoDup (policyKey <$> l) →
  (∀ q, q ∈ l → policyKey q = (t, id) → rowsOf (foldl putLocked m l) t !! id = Some q) ∧
  ((t, id) ∉ policyKey <$> l → rowsOf (foldl putLocked m l) t !! id = rowsOf m t !! id).
Proof.
  revert m. induction l as [|p l IH]; intros m; cbn [foldl]; [by split; [intros ? ?%elem_of_nil|]|].
  rewrite fmap_cons, NoDup_cons. intros [Hp Hl]. destruct (IH (putLocked m p) Hl) as [IH1 IH2].
  assert (rowsOf (putLocked m p) t !! id = if decide (policyKey p = (t, id)) then Some p else rowsOf m t !! id)
    as Hput.
  { unfold putLocked. rewrite rowsOf_put. unfold policyKey. repeat case_decide; naive_solver. }
  split.
  - intros q [-> | Hq]%elem_of_cons Hk; [|by apply IH1].
    rewrite IH2 by (by rewrite <- Hk). rewrite Hput. by case_decide.
  - rewrite not_elem_of_cons. intros [Hne Hnin]. rewrite IH2, Hput by done. case_decide; [congruence|done].
Qed.

(** The policy in force: the authored one, or else that of the bundle, with its override. *)
Definition livePolicy (f : adminPolicyRuntimeStateFile) (base : nested Policy) (t id : string)
    : option Policy :=
  overrideStatus (rowsOf (rt_PolicyStatusOverride f) t) id <$>
    (rowsOf (rt_AdminAuthoredPolicies f) t !! id ∪ rowsOf base t !! id).

Lemma overrideStatus_idemp ov id p : overrideStatus ov id (overrideStatus ov id p) = overrideStatus ov id p.
Proof. unfold overrideStatus. by destruct (ov !! id). Qed.

Lemma overrideStatus_key ov id p : policyKey (overrideStatus ov id p) = policyKey p.
Proof. unfold overrideStatus. by destruct (ov !! id). Qed.

Lemma applyOverrides_lookup ov rows id : applyOverrides ov rows !! id = overrideStatus ov id <$> rows !! id.
Proof. unfold applyOverrides. rewrite map_lookup_imap. by destruct (rows !! id). Qed.

Lemma applyOverrides_empty ov : applyOverrides ov ∅ = ∅.
Proof. apply map_eq. intros id. by rewrite applyOverrides_lookup, !lookup_empty. Qed.

Lemma rowsOf_overridden ov t m t' id :
  rowsOf (alter (applyOverrides ov) t m) t' !! id =
  if decide (t' = t) then overrideStatus ov id <$> rowsOf m t' !! id else rowsOf m t' !! id.
Proof.
  rewrite rowsOf_alter by apply applyOverrides_empty. case_decide; [|done]. apply applyOverrides_lookup.
Qed.

Lemma reapply_lookup f m t0 t id :
  keyedRows (rt_AdminAuthoredPolicies f) →
  rowsOf (reapplyRuntimeOverlaysLocked f m t0) t !! id =
  if decide (t = t0) then livePolicy f m t id else rowsOf m t !! id.
Proof.
  intros Hf. unfold reapplyRuntimeOverlaysLocked, livePolicy. cbv zeta.
  set (rows := visitRows _). set (ov := rowsOf (rt_PolicyStatusOverride f) t0).
  destruct (foldl_put rows m t id (NoDup_visitRows _ _ Hf)) as [Hin Hnin].
  assert (rowsOf (foldl putLocked m rows) t !! id =
    if decide (t = t0) then rowsOf (rt_AdminAuthoredPolicies f) t !! id ∪ rowsOf m t !! id
    else rowsOf m t !! id) as Hrows.
  { case_decide as Ht; [subst t|].
    - destruct (rowsOf (rt_AdminAuthoredPolicies f) t0 !! id) as [q|] eqn:Hq.
      + rewrite (Hin q); [by rewrite union_Some_l| |by apply Hf]. apply elem_of_visitRows. by exists id.
      + rewrite Hnin; [by rewrite (left_id_L None (∪))|]. intros (q & Hk & Hr)%list_elem_of_fmap.
        apply elem_of_visitRows in Hr as [id' Hr]. apply Hf in Hr as Hk'. destruct Hk' as [_ Hk'].
        unfold policyKey in *. congruence.
    - apply Hnin. intros (q & Hk & Hr)%list_elem_of_fmap. apply elem_of_visitRows in Hr as [id' Hr].
      apply Hf in Hr as [_ Hk']. congruence. }
  case_bool_decide as Hov.
  - rewrite Hrows. case_decide as Ht; [|done]. subst t. fold ov. rewrite Hov. unfold overrideStatus.
    rewrite lookup_empty. by destruct (_ ∪ _).
  - rewrite rowsOf_overridden, Hrows. case_decide as Ht; [|done]. subst t. done.
Qed.

Lemma reapply_all f ts : ∀ m t id,
  keyedRows (rt_AdminAuthoredPolicies f) → NoDup ts →
  rowsOf (foldl (reapplyRuntimeOverlaysLocked f) m ts) t !! id =
  if decide (t ∈ ts) then livePolicy f m t id else rowsOf m t !! id.
Proof.
  induction ts as [|t0 ts IH]; intros m t id Hf Hnd; cbn [foldl].
  { case_decide as Hin; [by apply elem_of_nil in Hin|done]. }
  apply NoDup_cons in Hnd as [Hnin Hnd]. rewrite IH by done. unfold livePolicy at 1.
  rewrite !reapply_lookup by done. destruct (decide (t = t0)) as [->|Hne].
  - rewrite !decide_False, decide_True by (done || left). done.
  - destruct (decide (t ∈ ts)); [rewrite decide_True by (by right); done|].
    rewrite decide_False; [done|]. by intros [?|?]%elem_of_cons.
Qed.

Lemma overrides_all f ts : ∀ m t id,
  NoDup ts →
  rowsOf (foldl (fun m tenantID => alter (applyOverrides (rowsOf (rt_PolicyStatusOverride f) tenantID)) tenantID m) m ts) t !! id =
  if decide (t ∈ ts) then overrideStatus (rowsOf (rt_PolicyStatusOverride f) t) id <$> rowsOf m t !! id
  else rowsOf m t !! id.
Proof.
  induction ts as [|t0 ts IH]; intros m t id Hnd; cbn [foldl].
  { case_decide as Hin; [by apply elem_of_nil in Hin|done]. }
  apply NoDup_cons in Hnd as [Hnin Hnd]. rewrite IH, rowsOf_overridden by done.
  destruct (decide (t = t0)) as [->|Hne].
  - by rewrite decide_False, (decide_True _ _ (list_elem_of_here _ _)).
  - destruct (decide (t ∈ ts)); [rewrite decide_True by (by right); done|].
    rewrite decide_False; [done|]. by intros [?|?]%elem_of_cons.
Qed.

Lemma adopt_live s f t id :
  keyedRows (rt_AdminAuthoredPolicies f) →
  rowsOf (ps_policies (adoptRuntimeLocked s f)) t !! id = livePolicy f (ps_runtimeBasePolicies s) t id.
Proof.
  intros Hf. change (ps_policies (adoptRuntimeLocked s f)) with
    (applyPolicyStatusOverridesLocked f (foldl (reapplyRuntimeOverlaysLocked f) (ps_runtimeBasePolicies s)
       (visitKeys (rt_AdminAuthoredPolicies f)))).
  unfold applyPolicyStatusOverridesLocked. rewrite overrides_all by apply NoDup_visitKeys.
  rewrite !reapply_all by (done || apply NoDup_visitKeys). unfold livePolicy.
  assert (∀ ov (o : option Policy), overrideStatus ov id <$> (overrideStatus ov id <$> o) = overrideStatus ov id <$> o) as Hidem
    by (intros ov [p|]; cbn; [by rewrite overrideStatus_idemp|done]).
  set (ov := rowsOf (rt_PolicyStatusOverride f) t).
  assert (t ∉ visitKeys (rt_PolicyStatusOverride f) → ∀ o : option Policy, overrideStatus ov id <$> o = o) as Hno.
  { intros Hnin o. unfold ov, overrideStatus, rowsOf. rewrite elem_of_visitKeys in Hnin.
    destruct (_ !! t); [by destruct Hnin; eexists|]. cbn. rewrite lookup_empty. by destruct o. }
  assert (t ∉ visitKeys (rt_AdminAuthoredPolicies f) → rowsOf (rt_AdminAuthoredPolicies f) t !! id = None) as Hna.
  { intros Hnin. rewrite elem_of_visitKeys in Hnin. unfold rowsOf.
    destruct (_ !! t); [by destruct Hnin; eexists|apply lookup_empty]. }
  destruct (decide (t ∈ visitKeys (rt_PolicyStatusOverride f))) as [Ho|Ho];
    destruct (decide (t ∈ visitKeys (rt_AdminAuthoredPolicies f))) as [Ha|Ha];
    rewrite ?Hidem, ?(Hno Ho), ?(Hna Ha), ?(left_id_L None (∪)); done.
Qed.

End live.

End PolicyStore.
