(* ===== verification/PolicyFleet.v ===== *)
(** * Control planes over one policy document

    The invariant of the store of [PolicyStore]: what is live is the authored policies over
    those of the bundle with the status overrides, on every control plane and over every
    history of edits, bundles, refreshes and restarts with any answer of the persister; and
    what is stored can be read by all of them.  Then what the evaluator of the moment
    decides by. *)

From stdpp Require Import base gmap sets fin_map_dom list strings sorting.
From S2P Require Import Prelude Trimmed GoStd Tables Persistence Model TenantRestriction Common Conditions.
From S2P Require Import PolicyOrder SaaSCatalog SwgEnforcement Locality EastWest ServerInitiated Evaluator Decision PolicyStore.
Import TenantRestriction PolicyStore.

Open Scope Z_scope.

Module PolicyFleet.

#[local] Arguments rowsOf : simpl never.

Section invariant.
Context `{MapOrder}.

(** ** The invariant of a store *)

Record okStore (s : Store) : Prop := {
  ok_authored : keyedRows (rt_AdminAuthoredPolicies (ps_runtime s));
  ok_base : keyedRows (ps_runtimeBasePolicies s);
  ok_readable : readable (ps_runtime s);
  ok_live t id : rowsOf (ps_policies s) t !! id = livePolicy (ps_runtime s) (ps_runtimeBasePolicies s) t id;
  ok_cached : ps_cachedPolicies s = SortPolicies (snd <$> (snd <$> visit (ps_policies s)));
  ok_cachedIDs : ps_cachedPolicyIDs s = activeAdminPolicyIDs (ps_cachedPolicies s);
}.

(** What a control plane finds when it starts or refreshes. *)
Definition disk_ok (stored : option raw) : Prop :=
  match stored with
  | None => True
  | Some r => ∃ f d, decodeRuntimeState r = Ok (f, d) ∧ keyedRows (rt_AdminAuthoredPolicies f)
  end.

Definition keeps {T} (edit : adminPolicyRuntimeStateFile → result error (adminPolicyRuntimeStateFile * T)) : Prop :=
  ∀ f f' t, keyedRows (rt_AdminAuthoredPolicies f) → edit f = Ok (f', t) →
    keyedRows (rt_AdminAuthoredPolicies f').

Lemma adopt_ok s f :
  keyedRows (rt_AdminAuthoredPolicies f) → readable f → okStore s → okStore (adoptRuntimeLocked s f).
Proof. intros Hk Hr Hs. split; try done; [by apply Hs|]. intros t id. exact (adopt_live s f t id Hk). Qed.

(** A store that differs only in what the invariant does not speak of. *)
Lemma ok_frame s s' :
  ps_policies s' = ps_policies s → ps_cachedPolicies s' = ps_cachedPolicies s →
  ps_cachedPolicyIDs s' = ps_cachedPolicyIDs s → ps_runtime s' = ps_runtime s →
  ps_runtimeBasePolicies s' = ps_runtimeBasePolicies s → okStore s → okStore s'.
Proof.
  intros Hp Hc Hi Hr Hb []. split; rewrite ?Hr, ?Hb, ?Hp, ?Hc, ?Hi; try done; by setoid_rewrite Hp.
Qed.

Lemma publish_ok b s f :
  keyedRows (rt_AdminAuthoredPolicies f) → readable f → okStore s → okStore (publish b s f).
Proof.
  intros Hk Hr Hs. pose proof (adopt_ok s f Hk Hr Hs). destruct b; by apply (ok_frame (adoptRuntimeLocked s f)).
Qed.

(** ** Edits *)

(** What the callback of an update reads. *)
Definition latest (s : Store) (stored : option raw) : option raw :=
  match stored with
  | Some r => Some r
  | None => if ps_runtimeAuthorityKnown s then None else Some (Document (marshal (ps_runtime s) ∅))
  end.

Lemma build_ok {T} s (edit : adminPolicyRuntimeStateFile → result error (adminPolicyRuntimeStateFile * T))
    stored data next t :
  build s edit stored = Ok (data, next, t) ↔
  ∃ r f d f', latest s stored = Some r ∧ decodeRuntimeState r = Ok (f, d) ∧ edit f = Ok (f', t) ∧
    readable f' ∧ next = json_runtime f' ∧ data = Document (marshal f' (doc_Others d)).
Proof.
  unfold build. change (match stored with Some r => _ | None => _ end) with (latest s stored).
  destruct (latest s stored) as [r|]; [|split; [done|by intros (? & ? & ? & ? & ? & _)]].
  destruct (decodeRuntimeState r) as [[f d]|e] eqn:Hd;
    [|split; [done|intros (r' & f & d & f' & [= <-] & Hd' & _); by rewrite Hd in Hd']].
  rewrite result_bind_ok. split.
  - intros ([f' t'] & He & Hm). exists r, f, d, f'.
    destruct (decodeRuntimeState (Document (marshal f' ∅))) as [[n m]|] eqn:Hn; [|done].
    apply decode_marshal in Hn as (Hread & -> & _). by injection Hm as <- <- <-.
  - intros (r' & f0 & d0 & f' & [= <-] & Hd' & He & Hr & -> & ->). rewrite Hd in Hd'. injection Hd' as <- <-.
    exists (f', t). split; [done|].
    by rewrite (proj2 (decode_marshal f' ∅ _ _) (conj Hr (conj eq_refl eq_refl))).
Qed.

Lemma latest_keyed s stored r f d :
  okStore s → disk_ok stored → latest s stored = Some r → decodeRuntimeState r = Ok (f, d) →
  keyedRows (rt_AdminAuthoredPolicies f).
Proof.
  intros Hs Hd. destruct stored as [r'|]; cbn.
  - intros [= <-] Hr. destruct Hd as (f0 & d0 & Hd & Hk). rewrite Hd in Hr. by injection Hr as <- <-.
  - destruct (ps_runtimeAuthorityKnown s); [done|]. intros [= <-] (_ & -> & _)%decode_marshal.
    apply keyed_json, (ok_authored s Hs).
Qed.

(** The outcome of a build: the state to publish and the payload to store. *)
Lemma build_keyed {T} s (edit : adminPolicyRuntimeStateFile → result error (adminPolicyRuntimeStateFile * T))
    stored data next t :
  keeps edit → okStore s → disk_ok stored → build s edit stored = Ok (data, next, t) →
  keyedRows (rt_AdminAuthoredPolicies next) ∧ readable next ∧ disk_ok (Some data).
Proof.
  intros Hk Hs Hd (r & f & d & f' & Hl & Hr & He & Hread & -> & ->)%build_ok.
  assert (keyedRows (rt_AdminAuthoredPolicies f')) as Hf' by (eapply Hk; [|exact He]; by eapply latest_keyed).
  split_and!; [by apply keyed_json|done|].
  exists (json_runtime f'), (marshal f' (doc_Others d)). split; [by apply decode_marshal|by apply keyed_json].
Qed.

Lemma diskAfter_ok w stored data : disk_ok stored → disk_ok (Some data) → disk_ok (diskAfter w stored data).
Proof. by destruct w as [| |[]|]. Qed.

Lemma own_document s : okStore s → disk_ok (Some (Document (marshal (ps_runtime s) ∅))).
Proof.
  intros Hs. exists (json_runtime (ps_runtime s)), (marshal (ps_runtime s) ∅).
  split; [apply decode_marshal|apply keyed_json]; [split_and!; [|done..]|]; by apply Hs.
Qed.

Lemma edit_ok {T} b s stored w (edit : adminPolicyRuntimeStateFile → result error (adminPolicyRuntimeStateFile * T)) :
  keeps edit → okStore s → disk_ok stored →
  okStore (editRuntimeLocked b s stored w edit).1.1 ∧ disk_ok (editRuntimeLocked b s stored w edit).1.2.
Proof.
  intros Hk Hs Hd. pose proof (own_document s Hs) as Hown. unfold editRuntimeLocked.
  destruct b.
  - destruct (build _ _ _) as [[[data next] t]|e] eqn:Hb; [|done].
    destruct (build_keyed _ _ _ _ _ _ Hk Hs Hown Hb) as (? & ? & ?). split; [by apply publish_ok|done].
  - destruct (build _ _ _) as [[[data next] t]|e] eqn:Hb; [|done].
    destruct (build_keyed _ _ _ _ _ _ Hk Hs Hown Hb) as (? & ? & ?).
    destruct w as [| |[]|]; (split; [by (apply publish_ok || done)|by apply diskAfter_ok]).
  - destruct w as [| | |]; [| | |done];
      (destruct (build _ _ _) as [[[data next] t]|e] eqn:Hb; [|done];
       destruct (build_keyed _ _ _ _ _ _ Hk Hs Hd Hb) as (? & ? & ?);
       split; [by (apply publish_ok || done)|by apply diskAfter_ok]).
Qed.

(** Edits that leave the authored policies alone. *)
Lemma keeps_authored {T} (edit : adminPolicyRuntimeStateFile → result error (adminPolicyRuntimeStateFile * T)) :
  (∀ f f' t, edit f = Ok (f', t) → rt_AdminAuthoredPolicies f' = rt_AdminAuthoredPolicies f) → keeps edit.
Proof. intros Hsame f f' t Hf He. by rewrite (Hsame _ _ _ He). Qed.
End invariant.

Section histories.
Context `{MapOrder}.

(** ** Bundles *)

Lemma fresh_keyed tenantID policies now clock id p :
  trim_space tenantID = tenantID →
  freshPolicies tenantID policies now clock !! id = Some p → is_tenant tenantID ∧ policyKey p = (tenantID, id).
Proof.
  intros Htr. unfold freshPolicies.
  assert (∀ rows : gmap string Policy,
    (∀ i q, rows !! i = Some q → is_tenant tenantID ∧ policyKey q = (tenantID, i)) →
    ∀ i q, foldl (fun rows p => match normalizeAdminPolicy (p <| pol_TenantID := tenantID |>) tenantID now clock with
      | Ok normalized => <[pol_ID normalized := normalized]> rows | Err _ => rows end) rows policies !! i = Some q →
    is_tenant tenantID ∧ policyKey q = (tenantID, i)) as Hall.
  { induction policies as [|q l IH]; intros rows Hrows; cbn [foldl]; [done|]. apply IH. intros i x.
    destruct (normalizeAdminPolicy _ _ _ _) as [n|] eqn:Hn; [|apply Hrows].
    rewrite lookup_insert. case_decide as Hid; [|apply Hrows]. intros [= <-].
    apply normalized_key in Hn as (Ht & Hne & _ & _). rewrite Htr in Ht, Hne.
    unfold policyKey. by rewrite Ht, Hid. }
  apply Hall. intros i q. by rewrite lookup_empty.
Qed.

Lemma keyed_bundle m tenantID policies now clock :
  trim_space tenantID = tenantID → keyedRows m →
  keyedRows (<[tenantID := freshPolicies tenantID policies now clock]> m).
Proof.
  intros Htr Hm t id p. rewrite rowsOf_insert. case_decide as Ht; [|apply Hm]. subst t.
  by apply fresh_keyed.
Qed.

(** The state after a bundle, up to generation and cache. *)
Lemma replaced_live s tenantID policies now clock t id :
  okStore s →
  let s' := (replacePoliciesLocked s tenantID policies now clock).1 in
  rowsOf (ps_policies s') t !! id = livePolicy (ps_runtime s) (ps_runtimeBasePolicies s') t id.
Proof.
  intros Hs s'. cbn. rewrite reapply_lookup by apply Hs. unfold livePolicy. rewrite !rowsOf_insert.
  destruct (decide (t = tenantID)) as [->|Hne]; [done|]. apply (ok_live s Hs).
Qed.

Lemma bundle_ok s tenantID policies now clock f :
  trim_space tenantID = tenantID → okStore s → readable f →
  rt_AdminAuthoredPolicies f = rt_AdminAuthoredPolicies (ps_runtime s) →
  rt_PolicyStatusOverride f = rt_PolicyStatusOverride (ps_runtime s) →
  okStore (rebuildPolicyCacheLocked (bump
    ((replacePoliciesLocked s tenantID policies now clock).1 <| ps_runtime := f |>))).
Proof.
  intros Htr Hs Hr Ha Ho. split; try done.
  - change (keyedRows (rt_AdminAuthoredPolicies f)). rewrite Ha. apply Hs.
  - by apply keyed_bundle, (ok_base s Hs).
  - intros t id. pose proof (replaced_live s tenantID policies now clock t id Hs) as Hl. cbn in Hl.
    unfold livePolicy in *. cbn. by rewrite Ha, Ho.
Qed.

Lemma modes_spec modes :
  modesAcceptable modes = true ↔
  ∀ t m, modes !! t = Some m → t ≠ "" ∧ trim_space t = t ∧ validAuthoredUpstreamTLSMode m = true.
Proof.
  unfold modesAcceptable. rewrite forallb_forall. split.
  - intros Hall t m Hm. specialize (Hall (t, m)). cbn in Hall.
    rewrite <- list_elem_of_In, elem_of_map_to_list in Hall. specialize (Hall Hm).
    apply negb_true_iff, orb_false_iff in Hall as [[Ht Htr%negb_false_iff%String.eqb_eq]%orb_false_iff Hv%negb_false_iff].
    split_and!; [by intros ->|done..].
  - intros Hall [t m] Hin%list_elem_of_In%elem_of_map_to_list. destruct (Hall t m Hin) as (Ht & Htr & Hv).
    cbn [fst snd]. rewrite Htr, String.eqb_refl, Hv. by destruct (is_empty t) eqn:E; [apply is_empty_true in E|].
Qed.

Lemma restrictions_spec (l : list (string * gmap string Setting)) :
  restrictionsAcceptable l = Ok tt ↔ ∀ t rows, (t, rows) ∈ l → ValidateTenantRestrictions rows = Ok tt.
Proof.
  induction l as [|[t rows] l IH]; cbn [restrictionsAcceptable].
  { split; [by intros _ t rows ?%elem_of_nil|done]. }
  rewrite result_bind_ok. split.
  - intros ([] & Hv & Hl) t' rows' [[= -> ->] | Hin]%elem_of_cons; [done|by eapply (proj1 IH)].
  - intros Hall. exists tt. split; [apply (Hall t); left|]. apply IH. intros t' rows' Hin. apply (Hall t'). by right.
Qed.

(** Each setting is what validation makes of it. *)
Lemma settings_spec settings :
  ValidateTenantRestrictions settings = Ok tt ↔ ∀ id s, settings !! id = Some s → Validate id s = Ok s.
Proof.
  unfold ValidateTenantRestrictions. setoid_rewrite <- elem_of_map_to_list.
  induction (map_to_list settings) as [|[id s] l IH]; cbn [validateAll].
  { split; [by intros _ id s ?%elem_of_nil|done]. }
  destruct (Validate id s) as [n|e] eqn:Hv.
  - case_bool_decide as Hn; [subst n|].
    + rewrite IH. setoid_rewrite elem_of_cons. naive_solver.
    + split; [done|]. intros Hall. specialize (Hall id s (list_elem_of_here _ _)). congruence.
  - split; [done|]. intros Hall. specialize (Hall id s (list_elem_of_here _ _)). congruence.
Qed.

Lemma readable_spec f :
  readable f ↔
  (∀ t m, rt_UpstreamTLSModes f !! t = Some m → t ≠ "" ∧ trim_space t = t ∧ validAuthoredUpstreamTLSMode m = true) ∧
  (∀ t id s, rowsOf (rt_SaaSTenantRestrictions f) t !! id = Some s → Validate id s = Ok s).
Proof.
  unfold readable. rewrite modes_spec, restrictions_spec. setoid_rewrite elem_of_map_to_list.
  setoid_rewrite settings_spec. setoid_rewrite rowsOf_some. naive_solver.
Qed.

Lemma config_readable f tenantID cfg :
  tenantID ≠ "" → trim_space tenantID = tenantID → ValidateTenantConfig cfg = Ok tt →
  readable f → readable (applyTenantConfigLocked f tenantID cfg).
Proof.
  unfold ValidateTenantConfig. intros Hne Htr Hv. rewrite !readable_spec. intros [Hm Hr].
  destruct (ValidateUpstreamTLSMode _) eqn:Hmode; [|done]. cbn [negb] in Hv. split.
  - intros t m. cbn. rewrite lookup_insert. case_decide as Ht; [|apply Hm]. subst t. intros [= <-].
    split_and!; [done..|]. unfold EffectiveUpstreamTLSMode. unfold ValidateUpstreamTLSMode in Hmode.
    by destruct (is_empty (tc_UpstreamTLSMode cfg)).
  - cbn. destruct (tc_SaaSTenantRestrictions cfg) as [settings|]; [|done]. intros t id s.
    rewrite rowsOf_insert. case_decide; [|apply Hr]. by apply settings_spec.
Qed.

Lemma validated_config cfg : (∃ u, ValidateTenantConfig cfg = Ok u) → ValidateTenantConfig cfg = Ok tt.
Proof. by intros [[] ?]. Qed.

Lemma trimmed_nonempty t : is_empty (trim_space t) = false → trim_space t ≠ "".
Proof. intros E Ht. by rewrite Ht in E. Qed.

Lemma applyBundle_ok s tenant policies cfg now clock :
  okStore s → ValidateTenantConfig cfg = Ok tt → is_empty (trim_space tenant) = false →
  okStore (applyBundleLocked s (trim_space tenant) policies cfg now clock).1.
Proof.
  intros Hs Hv Ht. unfold applyBundleLocked. apply bundle_ok; [apply trim_space_idemp|done| |done..].
  apply config_readable; [by apply trimmed_nonempty|apply trim_space_idemp|done|apply Hs].
Qed.

Lemma received_ok b s stored w tenant policies cfg now clock :
  okStore s → disk_ok stored →
  okStore (ApplyReceivedBundle b s stored w tenant policies cfg now clock).1.1 ∧
  disk_ok (ApplyReceivedBundle b s stored w tenant policies cfg now clock).1.2.
Proof.
  intros Hs Hd. unfold ApplyReceivedBundle. cbv zeta. destruct (is_empty (trim_space tenant)) eqn:Ht; [done|].
  destruct (ValidateTenantConfig cfg) as [[]|] eqn:Hv; [|done].
  assert (okStore (applyBundleLocked s (trim_space tenant) policies cfg now clock).1) as Hs'
    by by apply applyBundle_ok.
  rewrite (proj2 (decode_marshal (ps_runtime s) ∅ _ _) (conj (ok_readable s Hs) (conj eq_refl eq_refl))).
  assert (disk_ok (Some (Document (marshal (applyTenantConfigLocked (json_runtime (ps_runtime s))
    (trim_space tenant) cfg) ∅)))) as Hdata.
  { eexists _, _. split; [apply decode_marshal; split_and!; [|done..]|].
    - apply config_readable; [by apply trimmed_nonempty|apply trim_space_idemp|done|apply Hs].
    - apply keyed_json, keyed_json, Hs. }
  destruct b; [| |done]; destruct (applyBundleLocked _ _ _ _ _ _) as [s' n]; cbn [fst snd] in *;
    (split; [done|]); [done|by apply diskAfter_ok].
Qed.

(** ** Histories *)

(** The operations on the stored document. *)
Inductive op :=
  | OpUpsert (item : Policy) (tenant : string) (now clock : Z)
  | OpDelete (tenant id : string)
  | OpStatus (tenant id status : string)
  | OpEastWest (tenant : string) (rules : option (list EastWestRule)) (ttl : option Z)
      (enabled unmatched : option bool)
  | OpRuleStatuses (statuses : gmap string string)
  | OpServerInitiated (tenant : string) (enabled : bool)
  | OpException (tenant id : string) (edit : LegacyExceptionRecord → result error LegacyExceptionRecord)
  | OpRemoveException (tenant id : string)
  | OpRestriction (tenant provider : string) (patch : TenantRestrictionPatch)
  | OpRemoveRestrictions (contextOnly : bool) (tenant : string)
  | OpUpstreamMode (tenant mode : string)
  | OpRemoveUpstream (tenant : string)
  | OpReceived (tenant : string) (policies : list Policy) (cfg : TenantConfigBundle) (now clock : Z).

Definition applyOp (b : backing) (s : Store) (stored : option raw) (w : write_outcome) (o : op)
    : Store * option raw :=
  match o with
  | OpUpsert item tenant now clock => (Upsert b s stored w item tenant now clock).1
  | OpDelete tenant id => (Delete b s stored w tenant id).1
  | OpStatus tenant id status => (SetPolicyStatusContext b s stored w tenant id status).1
  | OpEastWest tenant rules ttl enabled unmatched =>
      (ApplyEastWestUpdateContext b s stored w tenant rules ttl enabled unmatched).1
  | OpRuleStatuses statuses => (SetTenantRestrictionRuleStatusesContext b s stored w statuses).1
  | OpServerInitiated tenant enabled => (SetServerInitiatedEnabledContext b s stored w tenant enabled).1
  | OpException tenant id edit => (MutateLegacyExceptionContext b s stored w tenant id edit).1
  | OpRemoveException tenant id => (RemoveLegacyExceptionContext b s stored w tenant id).1
  | OpRestriction tenant provider patch => (SaveTenantRestrictionContext b s stored w tenant provider patch).1
  | OpRemoveRestrictions c tenant => (RemoveTenantRestrictionsContext b s stored w c tenant).1
  | OpUpstreamMode tenant mode => (SetUpstreamTLSModeContext b s stored w tenant mode).1
  | OpRemoveUpstream tenant => (RemoveUpstreamTLSSettingsContext b s stored w tenant).1
  | OpReceived tenant policies cfg now clock =>
      (ApplyReceivedBundle b s stored w tenant policies cfg now clock).1
  end.

(** The operations that touch the process alone. *)
Inductive local :=
  | LReplace (tenant : string) (policies : list Policy) (now clock : Z)
  | LBundle (tenant : string) (policies : list Policy) (cfg : TenantConfigBundle) (now clock : Z)
  | LCompiledPolicies (tenant : string) (policies : list Policy)
  | LCompiledRules (tenant : string) (rules : list EastWestRule)
  | LNetworks (tenant : string) (networks : InternalNetworks)
  | LIssue (tenant : string) (grant : EastWestGrant)
  | LRevoke (tenant scopeType scopeID : string)
  | LTouch (tenant : string) (req : DecisionRequest) (now : Z).

Definition applyLocal (s : Store) (l : local) : Store :=
  match l with
  | LReplace tenant policies now clock => (ReplaceTenant s tenant policies now clock).1
  | LBundle tenant policies cfg now clock => (ApplyBundle s tenant policies cfg now clock).1
  | LCompiledPolicies tenant policies => SetCompiledPolicies s tenant policies
  | LCompiledRules tenant rules => SetCompiledEastWestRules s tenant rules
  | LNetworks tenant networks => SetEastWestInternalNetworks s tenant networks
  | LIssue tenant grant => IssueEastWestGrant s tenant grant
  | LRevoke tenant scopeType scopeID => (RevokeEastWestGrants s tenant scopeType scopeID).1
  | LTouch tenant req now => TouchEastWestGrant s tenant req now
  end.

Record fleet := mkFleet { fl_stores : list Store; fl_disk : option raw }.

(** What one control plane does next, with the answer of its persister. *)
Inductive action :=
  | Edit (b : backing) (w : write_outcome) (o : op)
  | Alone (l : local)
  | Refresh (b : backing)
  | Restart (b : backing) (seed : list Policy) (clock : Z).

Definition putStore (f : fleet) (i : nat) (s : Store) : fleet := mkFleet (<[i := s]> (fl_stores f)) (fl_disk f).

Inductive step (f : fleet) (i : nat) (s : Store) : action → fleet → Prop :=
  | step_edit b w o s' disk :
      applyOp b s (fl_disk f) w o = (s', disk) →
      step f i s (Edit b w o) (mkFleet (<[i := s']> (fl_stores f)) disk)
  | step_alone l : step f i s (Alone l) (putStore f i (applyLocal s l))
  | step_refresh b s' :
      RefreshSharedRuntime b s (Ok (fl_disk f)) = Ok s' → step f i s (Refresh b) (putStore f i s')
  | step_restart b seed clock s' :
      SetRuntimeStatePersister b (NewStore seed clock) (Ok (fl_disk f)) = Ok s' →
      step f i s (Restart b seed clock) (putStore f i s').

(** A history of actions that are [allowed]. *)
Definition steps (allowed : action → Prop) : relation fleet :=
  rtc (fun f g => ∃ i s a, fl_stores f !! i = Some s ∧ allowed a ∧ step f i s a g).

Definition fleet_ok (f : fleet) : Prop := Forall okStore (fl_stores f) ∧ disk_ok (fl_disk f).

Lemma newStore_ok seed clock : okStore (NewStore seed clock).
Proof.
  unfold NewStore. set (m := foldl _ ∅ seed).
  assert (keyedRows m) as Hm.
  { unfold m. assert (keyedRows ∅) as He by (intros t id p; rewrite rowsOf_empty, lookup_empty; done).
    revert He. generalize (∅ : nested Policy). induction seed as [|p l IH]; intros m0 Hm0; [done|].
    cbn [foldl]. apply IH. destruct (is_empty (trim_space (pol_TenantID p))); [done|].
    destruct (normalizeAdminPolicy _ _ _ _) as [q|] eqn:Hq; [|done]. apply normalized_key in Hq.
    apply keyed_put; [done|]. destruct Hq as (-> & Hne & _). done. }
  split; try done. intros t id. unfold livePolicy, overrideStatus. cbn. rewrite !rowsOf_empty, !lookup_empty.
  rewrite (left_id_L None (∪)). by destruct (rowsOf m t !! id).
Qed.

Lemma keeps_upsert normalized (T := Policy) :
  is_tenant (pol_TenantID normalized) →
  keeps (fun f => Ok (f <| rt_AdminAuthoredPolicies := putRow (pol_TenantID normalized) (pol_ID normalized)
    normalized (rt_AdminAuthoredPolicies f) |>, normalized)).
Proof. intros Ht f f' t Hf [= <- <-]. by apply keyed_put. Qed.

Lemma rowsOf_deleteIn {A} tenant id (m : nested A) t i :
  rowsOf (deleteIn tenant id m) t !! i = if decide (t = tenant ∧ i = id) then None else rowsOf m t !! i.
Proof.
  unfold deleteIn. rewrite rowsOf_alter by apply delete_empty. destruct (decide (t = tenant)) as [->|Ht].
  - rewrite lookup_delete. repeat case_decide; naive_solver.
  - by rewrite decide_False by naive_solver.
Qed.

Lemma keyed_delete m tenant id : keyedRows m → keyedRows (deleteIn tenant id m).
Proof. intros Hm t i p. rewrite rowsOf_deleteIn. case_decide; [done|apply Hm]. Qed.

Lemma performed_ok b s stored w o :
  okStore s → disk_ok stored →
  okStore (applyOp b s stored w o).1 ∧ disk_ok (applyOp b s stored w o).2.
Proof.
  intros Hs Hd. destruct o; cbn [applyOp].
  - unfold Upsert. destruct (normalizeAdminPolicy _ _ _ _) as [q|] eqn:Hq; [|done].
    apply edit_ok; [|done..]. apply keeps_upsert. by destruct (normalized_key _ _ _ _ _ Hq) as (-> & ? & _).
  - unfold Delete. cbv zeta. destruct (_ || _); [done|]. apply edit_ok; [|done..].
    intros f f' t Hf. destruct (_ !! _) as [removed|]; [|by case_bool_decide; [|intros [= <- <-]]].
    intros [= <- <-]. by apply keyed_delete.
  - unfold SetPolicyStatusContext. cbv zeta. destruct (_ && _); [done|].
    apply edit_ok; [|done..]. apply keeps_authored. intros f f' t.
    by case_bool_decide; intros [= <- <-].
  - apply edit_ok; [|done..]. apply keeps_authored. by intros f f' t [= <- <-].
  - apply edit_ok; [|done..]. apply keeps_authored. by intros f f' t [= <- <-].
  - apply edit_ok; [|done..]. apply keeps_authored. by intros f f' t [= <- <-].
  - apply edit_ok; [|done..]. apply keeps_authored. intros f f' t.
    rewrite result_bind_ok. intros (c & _ & Hc). destruct (negb _); [done|]. by injection Hc as <- <-.
  - apply edit_ok; [|done..]. apply keeps_authored. intros f f' t. cbv zeta. by case_match; intros [= <- <-].
  - unfold SaveTenantRestrictionContext. cbv zeta. destruct (is_empty _); [done|].
    destruct b; [done| |]; (apply edit_ok; [|done..]); apply keeps_authored; intros f f' t;
      rewrite result_bind_ok; intros ([next u] & _ & [= <- <-]); done.
  - unfold RemoveTenantRestrictionsContext. cbv zeta. destruct (_ && _); [done|].
    destruct b; [done| |]; (apply edit_ok; [|done..]); apply keeps_authored; by intros f f' t [= <- <-].
  - unfold SetUpstreamTLSModeContext. cbv zeta. destruct (is_empty _); [done|]. destruct (negb _); [done|].
    destruct b; [done| |]; (apply edit_ok; [|done..]); apply keeps_authored; by intros f f' t [= <- <-].
  - apply edit_ok; [|done..]. apply keeps_authored. by intros f f' t [= <- <-].
  - by apply received_ok.
Qed.

Lemma applyLocal_ok s l : okStore s → okStore (applyLocal s l).
Proof.
  intros Hs. destruct l; cbn [applyLocal].
  - unfold ReplaceTenant. cbv zeta. destruct (is_empty (trim_space tenant)) eqn:Ht; [done|].
    apply (bundle_ok s _ policies now clock (ps_runtime s)); [apply trim_space_idemp|done|apply Hs|done..].
  - unfold ApplyBundle. destruct (ValidateTenantConfig cfg) as [[]|] eqn:Hv; [|done]. cbv zeta.
    destruct (is_empty (trim_space tenant)) eqn:Ht; [done|]. by apply applyBundle_ok.
  - by apply (ok_frame s).
  - by apply (ok_frame s).
  - by apply (ok_frame s).
  - by apply (ok_frame s).
  - unfold RevokeEastWestGrants, revokeEastWestGrantsForScopeLocked. cbv zeta.
    destruct (_ || _); [by apply (ok_frame s)|]. destruct (_ || _); [done|by apply (ok_frame s)].
  - by apply (ok_frame s).
Qed.

Lemma persister_ok b s stored s' :
  disk_ok stored → okStore s → SetRuntimeStatePersister b s (Ok stored) = Ok s' → okStore s'.
Proof.
  intros Hd Hs. assert (∀ known, okStore (s <| ps_runtimeAuthorityKnown := known |>)) as Hknown
    by (intros known; by apply (ok_frame s)).
  unfold SetRuntimeStatePersister. destruct stored as [r|]; [|destruct b; intros [= <-]; apply Hknown].
  destruct Hd as (f & d & Hdec & Hk). rewrite Hdec.
  assert (okStore (adoptRuntimeLocked s f)) as Ha
    by (apply adopt_ok; [done|by apply decoded_readable in Hdec as [? _]|done]).
  destruct b; intros [= <-]; [apply Hknown| |]; by apply (ok_frame (adoptRuntimeLocked s f)).
Qed.

Lemma refresh_ok b s stored s' :
  disk_ok stored → okStore s → RefreshSharedRuntime b s (Ok stored) = Ok s' → okStore s'.
Proof.
  intros Hd Hs. unfold RefreshSharedRuntime. destruct b; [by intros [= <-]..|].
  destruct stored as [r|]; [|by destruct (ps_runtimeAuthorityKnown s); intros [= <-]].
  destruct Hd as (f & d & Hdec & Hk). rewrite Hdec. case_bool_decide; intros [= <-].
  - by apply (ok_frame s).
  - apply (ok_frame (adoptRuntimeLocked s f)); try done.
    apply adopt_ok; [done|by apply decoded_readable in Hdec as [? _]|done].
Qed.

Lemma stepped_ok f i s a g : fl_stores f !! i = Some s → step f i s a g → fleet_ok f → fleet_ok g.
Proof.
  intros Hi Hstep [Hs Hd]. assert (okStore s) as Hat by by eapply Forall_lookup_1.
  destruct Hstep as [b w o s' disk Ho|l|b s' Hr|b seed clock s' Hr]; split; cbn [fl_stores fl_disk putStore];
    try done; try apply Forall_insert; try done.
  - pose proof (performed_ok b s (fl_disk f) w o Hat Hd) as [Hok _]. by rewrite Ho in Hok.
  - pose proof (performed_ok b s (fl_disk f) w o Hat Hd) as [_ Hok]. by rewrite Ho in Hok.
  - by apply applyLocal_ok.
  - by eapply refresh_ok.
  - eapply persister_ok; [done|apply newStore_ok|done].
Qed.

Lemma history_ok allowed f g : steps allowed f g → fleet_ok f → fleet_ok g.
Proof. induction 1 as [|f g h (i & s & a & Hi & _ & Hstep) _ IH]; eauto using stepped_ok. Qed.

(** The fleet of control planes that have just started with nothing stored. *)
Definition started (f : fleet) : Prop :=
  Forall (fun s => ∃ seed clock, s = NewStore seed clock) (fl_stores f) ∧ fl_disk f = None.

Lemma started_ok f : started f → fleet_ok f.
Proof.
  intros [Hs Hd]. split; [|by rewrite Hd]. eapply Forall_impl; [exact Hs|].
  intros s (seed & clock & ->). apply newStore_ok.
Qed.

(** ** The policies of the evaluator *)

Lemma mergeCompiled_prefix l c : ∃ k, mergeCompiled l c = l ++ k ∧ k ⊆ c.
Proof.
  revert l. induction c as [|p c IH]; intros l; cbn [mergeCompiled foldl]; [by exists []; rewrite app_nil_r|].
  change (∃ k, mergeCompiled (if bool_decide (policyKey p ∈ policyKey <$> l) then l else l ++ [p]) c = l ++ k ∧ k ⊆ p :: c).
  case_bool_decide.
  - destruct (IH l) as (k & -> & Hk). exists k. split; [done|set_solver].
  - destruct (IH (l ++ [p])) as (k & -> & Hk). exists (p :: k). split; [by rewrite <- app_assoc|set_solver].
Qed.

Lemma mergeCompiled_NoDup l c : NoDup (policyKey <$> l) → NoDup (policyKey <$> mergeCompiled l c).
Proof.
  revert l. induction c as [|p c IH]; intros l Hl; [done|].
  change (NoDup (policyKey <$> mergeCompiled (if bool_decide (policyKey p ∈ policyKey <$> l) then l else l ++ [p]) c)).
  apply IH. case_bool_decide as Hp; [done|]. rewrite fmap_app. apply NoDup_app. split_and!; [done| |apply NoDup_singleton].
  intros k Hk ->%list_elem_of_singleton. done.
Qed.

(** Every compiled policy is there under its key. *)
Lemma mergeCompiled_covers l c p : p ∈ c → policyKey p ∈ policyKey <$> mergeCompiled l c.
Proof.
  revert l. induction c as [|q c IH]; intros l; [by intros ?%elem_of_nil|].
  intros [-> | Hp]%elem_of_cons; [|by apply IH].
  change (policyKey q ∈ policyKey <$> mergeCompiled (if bool_decide (policyKey q ∈ policyKey <$> l) then l else l ++ [q]) c).
  destruct (mergeCompiled_prefix (if bool_decide (policyKey q ∈ policyKey <$> l) then l else l ++ [q]) c) as (k & -> & _).
  rewrite fmap_app. apply elem_of_app. left. case_bool_decide; [done|]. rewrite fmap_app. set_solver.
Qed.

(** All compiled policies, organization by organization. *)
Definition compiledOf (s : Store) : list Policy :=
  flat_map (get [] (ps_compiledPolicies s)) (sortedKeys (ps_compiledPolicies s)).

Lemma RuntimeEvaluator_policies s base :
  ev_Policies (RuntimeEvaluator s base) = mergeCompiled (ps_cachedPolicies s) (compiledOf s).
Proof.
  unfold RuntimeEvaluator, compileTenantRestrictionsLocked, compiledOf. cbv zeta. by case_bool_decide.
Qed.

Lemma elem_of_cached s p :
  okStore s → p ∈ ps_cachedPolicies s ↔
  livePolicy (ps_runtime s) (ps_runtimeBasePolicies s) (pol_TenantID p) (pol_ID p) = Some p.
Proof.
  intros Hs. rewrite (ok_cached s Hs). unfold SortPolicies. rewrite sort_stable_perm, <- (ok_live s Hs).
  rewrite list_elem_of_fmap. split.
  - intros ([id q] & -> & Hin). apply list_elem_of_fmap in Hin as ([t [id' q']] & [= -> ->] & Hin).
    apply elem_of_visit in Hin as Hq. cbn [snd].
    assert (policyKey q' = (t, id')) as Hk; [|unfold policyKey in Hk; by injection Hk as -> ->].
    rewrite (ok_live s Hs) in Hq. unfold livePolicy in Hq. apply fmap_Some in Hq as (p0 & Hp0 & ->).
    rewrite overrideStatus_key. apply union_Some in Hp0 as [Hp0|[_ Hp0]];
      [by apply (ok_authored s Hs) in Hp0 as [_ ?]|by apply (ok_base s Hs) in Hp0 as [_ ?]].
  - intros Hp. exists (pol_ID p, p). split; [done|]. apply list_elem_of_fmap.
    exists (pol_TenantID p, (pol_ID p, p)). split; [done|]. by apply elem_of_visit.
Qed.

Lemma live_key s t id p :
  okStore s → livePolicy (ps_runtime s) (ps_runtimeBasePolicies s) t id = Some p → is_tenant t ∧ policyKey p = (t, id).
Proof.
  intros Hs (p0 & Hp0 & ->)%fmap_Some. rewrite overrideStatus_key.
  apply union_Some in Hp0 as [Hp0|[_ Hp0]]; [by apply (ok_authored s Hs)|by apply (ok_base s Hs)].
Qed.

Lemma NoDup_cached s : okStore s → NoDup (policyKey <$> ps_cachedPolicies s).
Proof.
  intros Hs. rewrite (ok_cached s Hs). unfold SortPolicies. rewrite sort_stable_perm.
  rewrite <- !list_fmap_compose.
  apply NoDup_fmap_2_strong; [|apply (NoDup_fmap_1 place), NoDup_visit].
  intros [t1 [i1 p1]] [t2 [i2 p2]] H1%elem_of_visit H2%elem_of_visit Hk. cbn in Hk.
  pose proof H1 as Hl1. pose proof H2 as Hl2. rewrite (ok_live s Hs) in Hl1, Hl2.
  apply live_key in Hl1 as [_ Hl1], Hl2 as [_ Hl2]; try done.
  assert (t1 = t2 ∧ i1 = i2) as [-> ->] by (split; congruence). congruence.
Qed.

(** A policy of the evaluator is the live one of its key, or a compiled one where there is
    no live one. *)
Lemma evaluator_policy s base p :
  okStore s → p ∈ ev_Policies (RuntimeEvaluator s base) →
  livePolicy (ps_runtime s) (ps_runtimeBasePolicies s) (pol_TenantID p) (pol_ID p) = Some p ∨
  livePolicy (ps_runtime s) (ps_runtimeBasePolicies s) (pol_TenantID p) (pol_ID p) = None ∧ p ∈ compiledOf s.
Proof.
  intros Hs Hp. rewrite RuntimeEvaluator_policies in Hp.
  pose proof (mergeCompiled_NoDup _ (compiledOf s) (NoDup_cached s Hs)) as Hnd.
  destruct (mergeCompiled_prefix (ps_cachedPolicies s) (compiledOf s)) as (k & Hm & Hk).
  rewrite Hm in Hp, Hnd. apply elem_of_app in Hp as [Hp|Hp]; [left; by apply elem_of_cached|].
  destruct (livePolicy _ _ _ _) as [q|] eqn:Hq; [exfalso|right; split; [done|by apply Hk]].
  apply live_key in Hq as Hqk; [|done]. destruct Hqk as [_ Hqk].
  rewrite fmap_app in Hnd. apply NoDup_app in Hnd as (_ & Hdis & _).
  apply (Hdis (policyKey p)); [|by apply list_elem_of_fmap_2]. change (policyKey p) with (pol_TenantID p, pol_ID p).
  rewrite <- Hqk. apply list_elem_of_fmap_2.
  apply elem_of_cached; [done|]. unfold policyKey in Hqk. injection Hqk as Ht Hi. by rewrite Ht, Hi.
Qed.

(** (C13) Over every history of control planes that share one document,
    with failed and half-reached saves, bundles, refreshes and restarts: a policy is live on a
    control plane exactly when it is the authored policy of its organization and identifier, or
    else the one of the bundle, with the status an override gives it; the evaluator of the moment
    works with the live policies and, where there is none of that key, with compiled ones; and
    every control plane can read what is stored. *)
Theorem live_policies_follow_owners f g s base :
  started f → steps (fun _ => True) f g → s ∈ fl_stores g →
  (∀ t id, rowsOf (ps_policies s) t !! id = livePolicy (ps_runtime s) (ps_runtimeBasePolicies s) t id) ∧
  (∀ t id p, livePolicy (ps_runtime s) (ps_runtimeBasePolicies s) t id = Some p →
     policyKey p = (t, id) ∧ p ∈ ev_Policies (RuntimeEvaluator s base)) ∧
  (∀ p, p ∈ ev_Policies (RuntimeEvaluator s base) →
     livePolicy (ps_runtime s) (ps_runtimeBasePolicies s) (pol_TenantID p) (pol_ID p) = Some p ∨
     livePolicy (ps_runtime s) (ps_runtimeBasePolicies s) (pol_TenantID p) (pol_ID p) = None ∧
     p ∈ compiledOf s) ∧
  (∀ r, fl_disk g = Some r → ∃ s' state d, RefreshSharedRuntime Updating s (Ok (Some r)) = Ok s' ∧
     decodeRuntimeState r = Ok (state, d) ∧ ps_runtime s' = state).
Proof.
  intros Hf Hg Hin. apply started_ok in Hf. destruct (history_ok _ _ _ Hg Hf) as [Hstores Hdisk].
  assert (okStore s) as Hs by (by eapply Forall_forall). split_and!.
  - apply (ok_live s Hs).
  - intros t id p Hp. apply live_key in Hp as Hk; [|done]. destruct Hk as [_ Hk]. split; [done|].
    rewrite RuntimeEvaluator_policies.
    destruct (mergeCompiled_prefix (ps_cachedPolicies s) (compiledOf s)) as (k & -> & _).
    apply elem_of_app. left. apply elem_of_cached; [done|]. unfold policyKey in Hk. by injection Hk as -> ->.
  - intros p. by apply evaluator_policy.
  - intros r Hr. rewrite Hr in Hdisk. destruct Hdisk as (state & d & Hd & _).
    cbn [RefreshSharedRuntime]. rewrite Hd. eexists _, state, d. split_and!; [done..|].
    by case_bool_decide.
Qed.

(** ** What edits preserve *)

(** A property of the stored state. *)
Definition diskHolds (P : adminPolicyRuntimeStateFile → Prop) (stored : option raw) : Prop :=
  ∃ r f d, stored = Some r ∧ decodeRuntimeState r = Ok (f, d) ∧ P f.

Definition respects (P : adminPolicyRuntimeStateFile → Prop) {T}
    (edit : adminPolicyRuntimeStateFile → result error (adminPolicyRuntimeStateFile * T)) : Prop :=
  ∀ f f' t, P f → edit f = Ok (f', t) → P f'.

Section preserved.
Variable P : adminPolicyRuntimeStateFile → Prop.
Hypothesis P_json : ∀ f, P f → P (json_runtime f).

Lemma build_holds {T} s (edit : adminPolicyRuntimeStateFile → result error (adminPolicyRuntimeStateFile * T))
    stored data next t :
  respects P edit → diskHolds P stored → build s edit stored = Ok (data, next, t) →
  P next ∧ diskHolds P (Some data).
Proof.
  intros HP (r & f & d & -> & Hd & Hf) (r' & f1 & d1 & f' & [= <-] & Hd1 & He & Hr & -> & ->)%build_ok.
  rewrite Hd in Hd1. injection Hd1 as <- <-. assert (P f') as Hf' by by eapply HP.
  split; [by apply P_json|]. eexists _, _, _. split_and!; [done|by apply decode_marshal|by apply P_json].
Qed.

Lemma diskAfter_holds w stored data :
  diskHolds P stored → diskHolds P (Some data) → diskHolds P (diskAfter w stored data).
Proof. by destruct w as [| |[]|]. Qed.

(** An edit that respects [P], on a stored state where it holds. *)
Lemma edit_holds {T} b s stored w
    (edit : adminPolicyRuntimeStateFile → result error (adminPolicyRuntimeStateFile * T)) :
  respects P edit → readable (ps_runtime s) → diskHolds P stored → (b ≠ Updating → P (ps_runtime s)) →
  let out := editRuntimeLocked b s stored w edit in
  (P (ps_runtime s) → P (ps_runtime out.1.1)) ∧ diskHolds P out.1.2.
Proof.
  intros HP Hread Hd Hs.
  assert (b ≠ Updating → diskHolds P (Some (Document (marshal (ps_runtime s) ∅)))) as Hown.
  { intros Hb. eexists _, _, _. split_and!; [done|apply decode_marshal; by split_and!|by apply P_json, Hs]. }
  unfold editRuntimeLocked. destruct b.
  - destruct (build _ _ _) as [[[data next] t]|e] eqn:Hb; [|done].
    destruct (build_holds _ _ _ _ _ _ HP (Hown ltac:(done)) Hb) as [Hn _]. by split.
  - destruct (build _ _ _) as [[[data next] t]|e] eqn:Hb; [|done].
    destruct (build_holds _ _ _ _ _ _ HP (Hown ltac:(done)) Hb) as [Hn Hdata].
    destruct w as [| |[]|]; (split; [done|by apply diskAfter_holds]).
  - destruct w as [| | |]; [| | |done];
      (destruct (build _ _ _) as [[[data next] t]|e] eqn:Hb; [|done];
       destruct (build_holds _ _ _ _ _ _ HP Hd Hb) as [Hn Hdata];
       split; [done|by apply diskAfter_holds]).
Qed.

End preserved.

(** The edits of an operation respect [P]; a bundle that is received is not one. *)
Definition opRespects (P : adminPolicyRuntimeStateFile → Prop) (o : op) : Prop :=
  match o with
  | OpUpsert item tenant now clock =>
      ∀ normalized f, normalizeAdminPolicy item tenant now clock = Ok normalized → P f →
        P (f <| rt_AdminAuthoredPolicies := putRow (pol_TenantID normalized) (pol_ID normalized) normalized
                  (rt_AdminAuthoredPolicies f) |>)
  | OpDelete tenant id =>
      ∀ f, P f → P (f
        <| rt_AdminAuthoredPolicies := deleteIn (trim_space tenant) (trim_space id) (rt_AdminAuthoredPolicies f) |>
        <| rt_PolicyStatusOverride := deleteIn (trim_space tenant) (trim_space id) (rt_PolicyStatusOverride f) |>)
  | OpStatus tenant id status =>
      ∀ f, P f → P (f <| rt_PolicyStatusOverride := putRow (trim_space tenant) (trim_space id)
                           (to_lower (trim_space status)) (rt_PolicyStatusOverride f) |>)
  | _ => True
  end.

(** A property of the authored policies and the status overrides alone. *)
Definition ofPolicies (P : adminPolicyRuntimeStateFile → Prop) : Prop :=
  ∀ f f', rt_AdminAuthoredPolicies f' = rt_AdminAuthoredPolicies f →
    rt_PolicyStatusOverride f' = rt_PolicyStatusOverride f → P f → P f'.

Lemma respects_same P {T} (edit : adminPolicyRuntimeStateFile → result error (adminPolicyRuntimeStateFile * T)) :
  ofPolicies P →
  (∀ f f' t, edit f = Ok (f', t) → rt_AdminAuthoredPolicies f' = rt_AdminAuthoredPolicies f ∧
     rt_PolicyStatusOverride f' = rt_PolicyStatusOverride f) → respects P edit.
Proof. intros HP Hsame f f' t Hf He. destruct (Hsame _ _ _ He). by apply (HP f). Qed.

Lemma applyOp_holds P b s stored w o :
  (∀ f, P f → P (json_runtime f)) → ofPolicies P → opRespects P o → b ≠ Memory →
  okStore s → diskHolds P stored → (b = Plain → P (ps_runtime s)) →
  (P (ps_runtime s) → P (ps_runtime (applyOp b s stored w o).1)) ∧ diskHolds P (applyOp b s stored w o).2.
Proof.
  intros Hj Hp Ho Hb Hok Hd Hs.
  assert (readable (ps_runtime s)) as Hread by apply Hok.
  assert (b ≠ Updating → P (ps_runtime s)) as Hs' by (destruct b; [done|intros _; by apply Hs|done]).
  destruct o; cbn [applyOp].
  - unfold Upsert. destruct (normalizeAdminPolicy _ _ _ _) as [q|] eqn:Hq; [|done].
    apply edit_holds; [done| |done..]. intros f f' t Hf [= <- <-]. by apply Ho.
  - unfold Delete. cbv zeta. destruct (_ || _); [done|]. apply edit_holds; [done| |done..].
    intros f f' t Hf. destruct (_ !! _) as [removed|]; [|by case_bool_decide; [|intros [= <- <-]]].
    intros [= <- <-]. by apply Ho.
  - unfold SetPolicyStatusContext. cbv zeta. destruct (_ && _); [done|].
    apply edit_holds; [done| |done..]. intros f f' t Hf.
    case_bool_decide; intros [= <- <-]; [by apply Ho|done].
  - apply edit_holds; [done| |done..]. apply respects_same; [done|]. by intros f f' t [= <- <-].
  - apply edit_holds; [done| |done..]. apply respects_same; [done|]. by intros f f' t [= <- <-].
  - apply edit_holds; [done| |done..]. apply respects_same; [done|]. by intros f f' t [= <- <-].
  - apply edit_holds; [done| |done..]. apply respects_same; [done|]. intros f f' t.
    rewrite result_bind_ok. intros (c & _ & Hc). destruct (negb _); [done|]. by injection Hc as <- <-.
  - apply edit_holds; [done| |done..]. apply respects_same; [done|]. intros f f' t. cbv zeta.
    by case_match; intros [= <- <-].
  - unfold SaveTenantRestrictionContext. cbv zeta. destruct (is_empty _); [done|].
    destruct b; [done| |]; (apply edit_holds; [done| |done..]); (apply respects_same; [done|]); intros f f' t;
      rewrite result_bind_ok; intros ([next u] & _ & [= <- <-]); done.
  - unfold RemoveTenantRestrictionsContext. cbv zeta. destruct (_ && _); [done|].
    destruct b; [done| |]; (apply edit_holds; [done| |done..]); (apply respects_same; [done|]); by intros f f' t [= <- <-].
  - unfold SetUpstreamTLSModeContext. cbv zeta. destruct (is_empty _); [done|]. destruct (negb _); [done|].
    destruct b; [done| |]; (apply edit_holds; [done| |done..]); (apply respects_same; [done|]); by intros f f' t [= <- <-].
  - apply edit_holds; [done| |done..]. apply respects_same; [done|]. by intros f f' t [= <- <-].
  - unfold ApplyReceivedBundle. cbv zeta. destruct (is_empty (trim_space tenant)) eqn:Ht; [done|].
    destruct (ValidateTenantConfig cfg) as [[]|] eqn:Hv; [|done]. destruct b; [done| |done].
    rewrite (proj2 (decode_marshal (ps_runtime s) ∅ _ _) (conj Hread (conj eq_refl eq_refl))).
    destruct (applyBundleLocked _ _ _ _ _ _) as [s' n] eqn:Ha. cbn [fst snd].
    unfold applyBundleLocked, replacePoliciesLocked in Ha. injection Ha as <- _. split.
    + by apply (Hp (ps_runtime s)).
    + apply diskAfter_holds; [done|]. eexists _, _, _. split_and!; [done|apply decode_marshal; split_and!; [|done..]|].
      * apply config_readable; [by apply trimmed_nonempty|apply trim_space_idemp|done|done].
      * apply Hj. apply (Hp (json_runtime (ps_runtime s))); [done..|]. by apply Hj, Hs.
Qed.

Lemma applyLocal_holds P s l : ofPolicies P → P (ps_runtime s) → P (ps_runtime (applyLocal s l)).
Proof.
  intros Hp Hs. apply (Hp (ps_runtime s)); [| |done]; destruct l; cbn [applyLocal]; try done;
    try (unfold ReplaceTenant; cbv zeta; by destruct (is_empty _));
    try (unfold ApplyBundle; destruct (ValidateTenantConfig _); [|done]; cbv zeta; by destruct (is_empty _));
    (unfold RevokeEastWestGrants, revokeEastWestGrantsForScopeLocked; cbv zeta;
      destruct (_ || _); [done|]; by destruct (_ || _)).
Qed.

(** Actions through persisters of kind [b], with [ok] operations on the document. *)
Definition within (b : backing) (ok : op → Prop) (a : action) : Prop :=
  match a with
  | Edit b' _ o => b' = b ∧ ok o
  | Alone _ => True
  | Refresh b' | Restart b' _ _ => b' = b
  end.

(** Control planes with transactions, or a single one with a file. *)
Definition owners (b : backing) (f : fleet) : Prop :=
  match b with
  | Memory => False
  | Plain => length (fl_stores f) = 1%nat
  | Updating => True
  end.

Section preservation.
Variables (P : adminPolicyRuntimeStateFile → Prop) (b : backing).
Hypothesis P_json : ∀ f, P f → P (json_runtime f).
Hypothesis P_policies : ofPolicies P.

(** What the store at [i] and the stored document agree on. *)
Definition agreed (i : nat) (f : fleet) : Prop :=
  fleet_ok f ∧ owners b f ∧ diskHolds P (fl_disk f) ∧
  ∃ s, fl_stores f !! i = Some s ∧ P (ps_runtime s).

Lemma loaded_holds s stored s' :
  diskHolds P stored → b ≠ Memory → SetRuntimeStatePersister b s (Ok stored) = Ok s' → P (ps_runtime s').
Proof.
  intros (r & f & d & -> & Hd & Hf) Hb. unfold SetRuntimeStatePersister.
  destruct b; [done| |]; rewrite Hd; by intros [= <-].
Qed.

Lemma refreshed_holds s stored s' :
  diskHolds P stored → P (ps_runtime s) →
  RefreshSharedRuntime b s (Ok stored) = Ok s' → P (ps_runtime s').
Proof.
  intros (r & f & d & -> & Hd & Hf) Hs. unfold RefreshSharedRuntime. destruct b; [by intros [= <-]..|].
  rewrite Hd. by case_bool_decide; intros [= <-].
Qed.

Lemma step_agreed i f j s a g :
  fl_stores f !! j = Some s → within b (opRespects P) a → step f j s a g → agreed i f → agreed i g.
Proof.
  intros Hj Ha Hstep (Hok & Hown & Hdisk & s0 & Hi & Hs0).
  pose proof (stepped_ok _ _ _ _ _ Hj Hstep Hok) as Hok'.
  assert (b ≠ Memory) as Hb by by intros ->.
  assert (b = Plain → P (ps_runtime s)) as Hplain.
  { intros ->. cbn in Hown. apply lookup_lt_Some in Hj as Hlj, Hi as Hli.
    assert (j = i) as -> by lia. rewrite Hi in Hj. by injection Hj as <-. }
  assert (okStore s) as Hs by (eapply Forall_lookup_1; [apply Hok|done]).
  (** The part at [i] of a fleet with the store at [j] replaced. *)
  assert (∀ s1, (i = j → P (ps_runtime s1)) →
    ∃ s2, <[j := s1]> (fl_stores f) !! i = Some s2 ∧ P (ps_runtime s2)) as Hpart.
  { intros s1 Hs1. destruct (decide (i = j)) as [->|Hne].
    - exists s1. rewrite list_lookup_insert_eq; [auto|]. by eapply lookup_lt_Some.
    - exists s0. by rewrite list_lookup_insert_ne. }
  assert (i = j → P (ps_runtime s)) as Hsame.
  { intros ->. rewrite Hi in Hj. by injection Hj as <-. }
  assert (∀ s1, owners b (mkFleet (<[j := s1]> (fl_stores f)) (fl_disk f))) as Howners
    by (intros s1; destruct b; [done|cbn; by rewrite length_insert|done]).
  destruct Hstep as [b' w o s' disk Ho|l|b' s' Hr|b' seed clock s' Hr]; cbn in Ha.
  - destruct Ha as [-> Ha].
    destruct (applyOp_holds P b s (fl_disk f) w o P_json P_policies Ha Hb Hs Hdisk Hplain) as [H1 H2].
    rewrite Ho in H1, H2. split_and!; [done|destruct b; [done|cbn; by rewrite length_insert|done]|done|].
    apply Hpart. auto.
  - split_and!; [done|apply Howners|done|]. apply Hpart. intros Hij. apply applyLocal_holds; auto.
  - subst b'. split_and!; [done|apply Howners|done|]. apply Hpart. intros Hij.
    eapply refreshed_holds; [exact Hdisk| |exact Hr]. auto.
  - subst b'. split_and!; [done|apply Howners|done|]. apply Hpart. intros _.
    by eapply loaded_holds.
Qed.

Lemma steps_agreed i f g : steps (within b (opRespects P)) f g → agreed i f → agreed i g.
Proof. induction 1 as [|f g h (j & s & a & Hj & Ha & Hstep) _ IH]; eauto using step_agreed. Qed.

(** A confirmed edit whose result has the property, and what follows. *)
Lemma confirmed {T} i f s w (edit : adminPolicyRuntimeStateFile → result error (adminPolicyRuntimeStateFile * T))
    s' disk t :
  fleet_ok f → owners b f → fl_stores f !! i = Some s → keeps edit →
  (∀ f0 f', edit f0 = Ok (f', t) → P f') →
  editRuntimeLocked b s (fl_disk f) w edit = (s', disk, Ok t) →
  agreed i (mkFleet (<[i := s']> (fl_stores f)) disk).
Proof.
  intros [Hstores Hdisk] Hown Hi Hk HP He.
  assert (okStore s) as Hs by by eapply Forall_lookup_1.
  pose proof (edit_ok b s (fl_disk f) w edit Hk Hs Hdisk) as [Hs' Hd']. rewrite He in Hs', Hd'.
  assert (∀ stored data next t', build s edit stored = Ok (data, next, t') → t' = t →
    P next ∧ diskHolds P (Some data)) as Hbuild.
  { intros stored data next t' (r & f0 & d & f' & _ & _ & Hed & Hr & -> & ->)%build_ok ->.
    assert (P f') as Hf' by by eapply HP. split; [by apply P_json|].
    eexists _, _, _. split_and!; [done|apply decode_marshal; by split_and!|by apply P_json]. }
  split_and!.
  - split; [by apply Forall_insert|done].
  - destruct b; [done|cbn; by rewrite length_insert|done].
  - unfold editRuntimeLocked in He. destruct b; [done| |].
    + destruct (build _ _ _) as [[[data next] t']|e] eqn:Hb; [|done].
      destruct w; try done. injection He as <- <- ->. by eapply Hbuild.
    + destruct w; try done; (destruct (build _ _ _) as [[[data next] t']|e] eqn:Hb; [|done]); try done.
      injection He as <- <- ->. by eapply Hbuild.
  - exists s'. cbn [fl_stores]. rewrite list_lookup_insert_eq by by eapply lookup_lt_Some. split; [done|].
    unfold editRuntimeLocked in He. destruct b; [done| |].
    + destruct (build _ _ _) as [[[data next] t']|e] eqn:Hb; [|done].
      destruct w; try done. injection He as <- <- ->. by eapply Hbuild.
    + destruct w; try done; (destruct (build _ _ _) as [[[data next] t']|e] eqn:Hb; [|done]); try done.
      injection He as <- <- ->. by eapply Hbuild.
Qed.
End preservation.

Lemma within_mono b (ok ok' : op → Prop) f g :
  (∀ o, ok o → ok' o) → steps (within b ok) f g → steps (within b ok') f g.
Proof.
  intros Hok. induction 1 as [|f g h (j & s & a & Hj & Ha & Hstep) _ IH]; [constructor|].
  eapply rtc_l; [|exact IH]. exists j, s, a. split_and!; [done| |done].
  destruct a; cbn in *; naive_solver.
Qed.

Lemma ok_at P b i f s : agreed P b i f → fl_stores f !! i = Some s → okStore s ∧ P (ps_runtime s).
Proof.
  intros ([Hstores _] & _ & _ & s0 & Hi & HP) Hs. rewrite Hi in Hs. injection Hs as <-.
  split; [by eapply Forall_lookup_1|done].
Qed.

(** Control plane [j] has read the document since [f], or is [i], which wrote it. *)
Definition reads (b : backing) (a : action) : Prop := a = Refresh b ∨ ∃ seed clock, a = Restart b seed clock.

Definition hears (b : backing) (ok : op → Prop) (i j : nat) (f g : fleet) : Prop :=
  j = i ∧ steps (within b ok) f g ∨
  ∃ f1 f2 s a, steps (within b ok) f f1 ∧ fl_stores f1 !! j = Some s ∧ reads b a ∧ step f1 j s a f2 ∧
    steps (within b ok) f2 g.

Lemma read_agreed P b i j f s a g :
  (∀ f, P f → P (json_runtime f)) → ofPolicies P →
  agreed P b i f → fl_stores f !! j = Some s → reads b a → step f j s a g → agreed P b j g.
Proof.
  intros Hjson Hpol Hagreed Hj Ha Hstep.
  assert (agreed P b i g) as (Hok & Hown & Hd & _)
    by (eapply step_agreed; [done..| |done|done]; by destruct Ha as [-> |(? & ? & ->)]).
  split_and!; [done..|]. destruct Hagreed as (_ & Hown0 & Hd0 & s0 & Hi & Hs0).
  assert (∀ s1, <[j := s1]> (fl_stores f) !! j = Some s1) as Hat by (intros s1; by eapply list_lookup_insert_eq, lookup_lt_Some).
  destruct Ha as [-> |(seed & clock & ->)]; inversion Hstep as [| |b' s' Hr|b' seed' clock' s' Hr]; subst; exists s'; (split; [apply Hat|]).
  - destruct b; [done| |].
    + injection Hr as <-. cbn in Hown0. apply lookup_lt_Some in Hj as Hlj, Hi as Hli.
      assert (i = j) as -> by lia. rewrite Hi in Hj. by injection Hj as <-.
    + destruct Hd0 as (r & f1 & d1 & Hr1 & Hd1 & Hf1). rewrite Hr1 in Hr. cbn in Hr. rewrite Hd1 in Hr.
      case_bool_decide as Heq; injection Hr as <-; [cbn; by rewrite Heq|done].
  - eapply loaded_holds; [done| |exact Hr]. by intros ->.
Qed.

Lemma hears_agreed P b ok i j f g :
  (∀ f, P f → P (json_runtime f)) → ofPolicies P → (∀ o, ok o → opRespects P o) →
  agreed P b i f → hears b ok i j f g → agreed P b j g.
Proof.
  intros Hjson Hpol Hok Hf [[-> Hsteps]|(f1 & f2 & s & a & H1 & Hj & Ha & Hstep & H2)].
  - eapply steps_agreed; [done..| |done]. by eapply within_mono.
  - assert (agreed P b i f1) as Hf1 by (eapply steps_agreed; [done..| |done]; by eapply within_mono).
    assert (agreed P b j f2) as Hf2 by by eapply read_agreed.
    eapply steps_agreed; [done..| |done]. by eapply within_mono.
Qed.

(** ** A disabled policy stays disabled *)

Definition disabledAt (t id : string) (f : adminPolicyRuntimeStateFile) : Prop :=
  rowsOf (rt_PolicyStatusOverride f) t !! id = Some "disabled".

(** Operations other than a deletion or an activation under this key. *)
Definition keepsDisabled (t id : string) (o : op) : Prop :=
  match o with
  | OpDelete t' id' => (trim_space t', trim_space id') ≠ (t, id)
  | OpStatus t' id' status =>
      (trim_space t', trim_space id') ≠ (t, id) ∨ to_lower (trim_space status) = "disabled"
  | _ => True
  end.

Lemma disabled_respected t id o : keepsDisabled t id o → opRespects (disabledAt t id) o.
Proof.
  unfold disabledAt. destruct o; cbn; try done.
  - intros Hk f Hf. rewrite rowsOf_deleteIn, decide_False; [done|]. intros [-> ->]. by destruct Hk.
  - intros Hk f Hf. rewrite rowsOf_put. destruct (decide _) as [[-> ->]|]; [by destruct Hk as [[]| ->]|done].
Qed.

(** (C26) After a confirmed disabling of a policy, no request is decided
    by it on the control plane that disabled it, nor on any that has refreshed or restarted
    since, whatever happens next: bundles, other edits by any control plane, failed saves,
    refreshes and restarts.  Only an activation or a deletion under its key ends this.  A policy
    that does decide under that key is a compiled rule, and then the policy is gone from bundle
    and Admin API. *)
Theorem disabled_policy_never_decides b w f0 f i j s tenant id s' disk g s'' base req now actorType p names :
  started f0 → steps (fun _ => True) f0 f → owners b f → fl_stores f !! i = Some s →
  SetPolicyStatusContext b s (fl_disk f) w tenant id "disabled" = (s', disk, Ok true) →
  hears b (keepsDisabled (trim_space tenant) (trim_space id)) i j
    (mkFleet (<[i := s']> (fl_stores f)) disk) g →
  fl_stores g !! j = Some s'' →
  firstMatchedPolicy now (ev_Policies (RuntimeEvaluator s'' base)) req actorType = Some (p, names) →
  policyKey p = (trim_space tenant, trim_space id) →
  livePolicy (ps_runtime s'') (ps_runtimeBasePolicies s'') (trim_space tenant) (trim_space id) = None ∧
  p ∈ compiledOf s''.
Proof.
  intros Hf0 Hf Hown Hi Hset Hg Hj'' Hfirst Hkey.
  set (t := trim_space tenant) in *. set (d := trim_space id) in *.
  assert (agreed (disabledAt t d) b j g) as Hagreed.
  { eapply hears_agreed; [done|by intros f1 f2 _ Ho; unfold disabledAt; rewrite Ho|apply disabled_respected| |exact Hg].
    - unfold SetPolicyStatusContext in Hset. cbv zeta in Hset.
      change (to_lower (trim_space "disabled")) with "disabled" in Hset. cbn [negb andb String.eqb Ascii.eqb] in Hset.
      eapply confirmed; [done|by eapply history_ok, started_ok|done|done| | |exact Hset].
      + apply keeps_authored. intros f1 f2 x. cbv beta. by case_bool_decide; intros [= <- <-].
      + intros f1 f2. cbv beta. case_bool_decide; [|done]. intros [= <-]. unfold disabledAt. cbn.
        by rewrite rowsOf_put, decide_True. }
  destruct (ok_at _ _ _ _ _ Hagreed Hj'') as [Hs'' Hdis].
  apply firstMatchedPolicy_spec in Hfirst as (Hin & Hm & _).
  apply (evaluator_policy s'' base) in Hin; [|done]. unfold policyKey in Hkey. injection Hkey as Ht Hd.
  rewrite Ht, Hd in Hin. destruct Hin as [Hlive|]; [exfalso|done].
  unfold livePolicy in Hlive. apply fmap_Some in Hlive as (q & _ & ->).
  unfold matches_b in Hm. apply matchPolicy_iff in Hm as (Hact & _).
  unfold overrideStatus in Hact. by rewrite Hdis in Hact.
Qed.

(** ** An acknowledged policy is not lost *)

Definition authoredAt (t id : string) (p : Policy) (f : adminPolicyRuntimeStateFile) : Prop :=
  json_policy <$> rowsOf (rt_AdminAuthoredPolicies f) t !! id = Some (json_policy p).

(** Operations other than a new version or a deletion under this key. *)
Definition keepsAuthored (t id : string) (o : op) : Prop :=
  match o with
  | OpUpsert item t' _ _ => (trim_space t', trim_space (pol_ID item)) ≠ (t, id)
  | OpDelete t' id' => (trim_space t', trim_space id') ≠ (t, id)
  | _ => True
  end.

Lemma authored_respected t id p o : keepsAuthored t id o → opRespects (authoredAt t id p) o.
Proof.
  unfold authoredAt. destruct o; cbn; try done.
  - intros Hk q f Hq Hf. rewrite rowsOf_put. apply normalized_key in Hq as (-> & _ & -> & _).
    destruct (decide _) as [[-> ->]|]; [by destruct Hk|done].
  - intros Hk f Hf. rewrite rowsOf_deleteIn, decide_False; [done|]. intros [-> ->]. by destruct Hk.
Qed.

Lemma authored_json t id p f : authoredAt t id p f → authoredAt t id p (json_runtime f).
Proof.
  unfold authoredAt. intros Hf. cbn. rewrite rowsOf_fmap, lookup_fmap.
  destruct (rowsOf _ t !! id) as [q|]; [|done]. apply (inj Some) in Hf as Hq. cbn. by rewrite json_policy_idemp, Hq.
Qed.

(** An authored policy is evaluated, with the status its override gives it. *)
Lemma authored_evaluated s base t id q :
  okStore s → rowsOf (rt_AdminAuthoredPolicies (ps_runtime s)) t !! id = Some q →
  overrideStatus (rowsOf (rt_PolicyStatusOverride (ps_runtime s)) t) id q ∈ ev_Policies (RuntimeEvaluator s base).
Proof.
  intros Hok Hq.
  assert (livePolicy (ps_runtime s) (ps_runtimeBasePolicies s) t id =
    Some (overrideStatus (rowsOf (rt_PolicyStatusOverride (ps_runtime s)) t) id q)) as Hlive
    by (unfold livePolicy; by rewrite Hq, union_Some_l).
  rewrite RuntimeEvaluator_policies. destruct (mergeCompiled_prefix (ps_cachedPolicies s) (compiledOf s)) as (k & -> & _).
  apply elem_of_app. left. apply elem_of_cached; [done|].
  apply live_key in Hlive as Hk; [|done]. destruct Hk as [_ Hk]. unfold policyKey in Hk. by injection Hk as -> ->.
Qed.

(** (C30) A policy whose save was confirmed is not lost to another control
    plane's edit: until a new version or a deletion under its key, whatever the others do with
    memories of any age, the control plane that saved it and every one that has refreshed or
    restarted since have it among the policies of their evaluator, with the status that an
    override gives it there.  A request that it matches under that status is decided, by it or
    by a policy that does not come after it. *)
Theorem acknowledged_policy_survives b w f0 f i j s item tenant now clock p s' disk g s'' base :
  started f0 → steps (fun _ => True) f0 f → owners b f → fl_stores f !! i = Some s →
  Upsert b s (fl_disk f) w item tenant now clock = (s', disk, Ok p) →
  hears b (keepsAuthored (pol_TenantID p) (pol_ID p)) i j (mkFleet (<[i := s']> (fl_stores f)) disk) g →
  fl_stores g !! j = Some s'' →
  ∃ q, json_policy q = json_policy p ∧
    let live := overrideStatus (rowsOf (rt_PolicyStatusOverride (ps_runtime s'')) (pol_TenantID p)) (pol_ID p) q in
    let policies := ev_Policies (RuntimeEvaluator s'' base) in
    live ∈ policies ∧
    ∀ time req actorType, matches_b time req actorType live = true →
      ∃ d names, firstMatchedPolicy time policies req actorType = Some (d, names) ∧ policyLess live d = false.
Proof.
  intros Hf0 Hf Hown Hi Hup Hg Hs''.
  set (t := pol_TenantID p) in *. set (d := pol_ID p) in *.
  assert (agreed (authoredAt t d p) b j g) as Hagreed.
  { eapply hears_agreed; [apply authored_json|by intros f1 f2 Ho _; unfold authoredAt; rewrite Ho|apply authored_respected| |exact Hg].
    unfold Upsert in Hup. destruct (normalizeAdminPolicy _ _ _ _) as [q|] eqn:Hq; [|done].
    eapply confirmed; [apply authored_json|by eapply history_ok, started_ok|done|done| | |exact Hup].
    + apply keeps_upsert. by destruct (normalized_key _ _ _ _ _ Hq) as (-> & ? & _).
    + intros f1 f2 [= <- ->]. unfold authoredAt. cbn. by rewrite rowsOf_put, decide_True. }
  destruct (ok_at _ _ _ _ _ Hagreed Hs'') as [Hok Hauth].
  destruct (rowsOf (rt_AdminAuthoredPolicies (ps_runtime s'')) t !! d) as [q|] eqn:Hq;
    unfold authoredAt in Hauth; rewrite Hq in Hauth; [|done]. apply (inj Some) in Hauth as Hjson.
  exists q. split; [done|]. cbv zeta. set (live := overrideStatus _ _ _).
  assert (live ∈ ev_Policies (RuntimeEvaluator s'' base)) as Hin by by eapply authored_evaluated.
  split; [done|]. intros time req actorType Hm.
  destruct (firstMatchedPolicy time _ req actorType) as [[p' names]|] eqn:Hfirst.
  - exists p', names. split; [done|]. apply firstMatchedPolicy_spec in Hfirst as (_ & _ & _ & Hleast). by apply Hleast.
  - rewrite firstMatchedPolicy_none in Hfirst. by rewrite (Hfirst _ Hin) in Hm.
Qed.

(** ** Sign-in restrictions reach the evaluator per organization *)

Definition restrictionsOf (s : Store) : nested Setting := rt_SaaSTenantRestrictions (ps_runtime s).

Lemma elem_of_sortedKeys {A} (m : gmap string A) k : k ∈ sortedKeys m ↔ is_Some (m !! k).
Proof. unfold sortedKeys, sort_strings. rewrite sort_stable_perm. apply elem_of_visitKeys. Qed.

Lemma elem_of_compiled m x :
  x ∈ compileRestrictions m ↔
  ∃ tenant p setting, p ∈ Providers ∧ rowsOf m tenant !! prov_ID p = Some setting ∧
    x = (Rule tenant p setting, Catalog tenant p,
         when (nonempty (set_AllowedValue setting)) [(Ref tenant (prov_ID p), set_AllowedValue setting)]
         ++ when (nonempty (set_ContextTenantID setting))
              [(Ref tenant (prov_ID p) +:+ "/context", set_ContextTenantID setting)]).
Proof.
  unfold compileRestrictions. rewrite list_elem_of_In, List.in_flat_map. setoid_rewrite List.in_flat_map.
  setoid_rewrite <- list_elem_of_In. split.
  - intros (tenant & _ & p & Hp & Hx). unfold compileRestriction in Hx.
    destruct (_ !! _) as [setting|] eqn:Hs; [|by apply elem_of_nil in Hx].
    apply list_elem_of_singleton in Hx. by exists tenant, p, setting.
  - intros (tenant & p & setting & Hp & Hs & ->). exists tenant. split.
    + apply elem_of_sortedKeys. unfold rowsOf in Hs. destruct (m !! tenant); [by eexists|done].
    + exists p. split; [done|]. unfold compileRestriction. rewrite Hs. by apply list_elem_of_singleton.
Qed.

(** Where a header value comes from. *)
Lemma elem_of_values m k v :
  (k, v) ∈ flat_map (fun x : SWGTenantRestrictionRule * SaaSCatalogEntry * list (string * string) => x.2)
             (compileRestrictions m) ↔
  v ≠ "" ∧ ∃ tenant p setting, p ∈ Providers ∧ rowsOf m tenant !! prov_ID p = Some setting ∧
    (k = Ref tenant (prov_ID p) ∧ v = set_AllowedValue setting ∨
     k = Ref tenant (prov_ID p) +:+ "/context" ∧ v = set_ContextTenantID setting).
Proof.
  rewrite list_elem_of_In, List.in_flat_map. setoid_rewrite <- list_elem_of_In.
  assert (∀ (x : string) (l : list (string * string)) y, y ∈ when (nonempty x) l ↔ x ≠ "" ∧ y ∈ l) as Hwhen.
  { intros x l y. unfold nonempty. destruct (is_empty x) eqn:E; cbn.
    - apply is_empty_true in E. rewrite elem_of_nil. naive_solver.
    - split; [|by intros []]. intros Hy. split; [by intros ->|done]. }
  split.
  - intros (x & Hx & Hkv). apply elem_of_compiled in Hx as (tenant & p & setting & Hp & Hs & ->).
    cbn [snd] in Hkv. apply elem_of_app in Hkv as [Hkv|Hkv]; apply Hwhen in Hkv as [Hne Hkv];
      apply list_elem_of_singleton in Hkv as [= -> ->];
      (split; [done|]); exists tenant, p, setting; auto.
  - intros (Hne & tenant & p & setting & Hp & Hs & Hk).
    eexists. split; [apply elem_of_compiled; by exists tenant, p, setting|]. cbn [snd].
    destruct Hk as [[-> ->] | [-> ->]]; apply elem_of_app; [left|right]; apply Hwhen;
      (split; [done|]); by apply list_elem_of_singleton.
Qed.

Lemma suffix_inj (a b s : string) : a +:+ s = b +:+ s → a = b.
Proof.
  intros Heq. apply (f_equal (strip_suffix s)) in Heq.
  rewrite !(proj2 (strip_suffix_spec _ _ _) eq_refl) in Heq. by injection Heq.
Qed.

(** The values under the references of one setting. *)
Lemma value_at m tenant p setting v :
  p ∈ Providers → rowsOf m tenant !! prov_ID p = Some setting →
  ((Ref tenant (prov_ID p), v) ∈ flat_map (fun x => x.2) (compileRestrictions m) ↔
   v = set_AllowedValue setting ∧ v ≠ "") ∧
  ((Ref tenant (prov_ID p) +:+ "/context", v) ∈ flat_map (fun x => x.2) (compileRestrictions m) ↔
   v = set_ContextTenantID setting ∧ v ≠ "").
Proof.
  intros Hp Hs. rewrite !elem_of_values. split; split.
  - intros (Hne & t' & p' & a' & Hp' & Ha' & [[Hk ->] | [Hk ->]]); [|by apply Ref_context in Hk].
    apply Ref_inj in Hk as [<- Hid]. rewrite <- Hid, Hs in Ha'. by injection Ha' as <-.
  - intros [-> Hne]. split; [done|]. exists tenant, p, setting. auto.
  - intros (Hne & t' & p' & a' & Hp' & Ha' & [[Hk ->] | [Hk ->]]).
    + symmetry in Hk. by apply Ref_context in Hk.
    + apply suffix_inj, Ref_inj in Hk as [<- Hid]. rewrite <- Hid, Hs in Ha'. by injection Ha' as <-.
  - intros [-> Hne]. split; [done|]. exists tenant, p, setting. auto.
Qed.

Lemma values_functional m k v v' :
  (k, v) ∈ flat_map (fun x => x.2) (compileRestrictions m) →
  (k, v') ∈ flat_map (fun x => x.2) (compileRestrictions m) → v = v'.
Proof.
  intros Hv Hv'. apply elem_of_values in Hv as Hk. destruct Hk as (_ & t & p & a & Hp & Ha & Hk).
  destruct (value_at m t p a v Hp Ha) as [H1 H2], (value_at m t p a v' Hp Ha) as [H1' H2'].
  destruct Hk as [[-> _] | [-> _]]; naive_solver.
Qed.

Lemma RuntimeEvaluator_values s base :
  restrictionsOf s ≠ ∅ →
  ev_TenantRestrictionHeaderValues (RuntimeEvaluator s base)
  = set_keys ∅ (flat_map (fun x => x.2) (compileRestrictions (restrictionsOf s))).
Proof.
  intros Hne. unfold RuntimeEvaluator, compileTenantRestrictionsLocked. cbv zeta.
  rewrite bool_decide_eq_false_2 by done. done.
Qed.

Lemma RuntimeEvaluator_rules s base :
  bun_SWGTenantRestrictionRules (ev_PolicyBundle (RuntimeEvaluator s base)) =
  List.map (overrideRuleStatus (rt_TenantRestrictionRuleStatus (ps_runtime s)))
    (bun_SWGTenantRestrictionRules (ev_PolicyBundle base) ++
     List.map (fun x => x.1.1) (compileRestrictions (restrictionsOf s))).
Proof.
  unfold RuntimeEvaluator, compileTenantRestrictionsLocked. cbv zeta.
  fold (restrictionsOf s). case_bool_decide as He; [|done].
  assert (compileRestrictions (restrictionsOf s) = []) as ->; [|cbn; by rewrite app_nil_r].
  apply elem_of_nil_inv. intros x (t & p & a & _ & Ha & _)%elem_of_compiled.
  by rewrite He, rowsOf_empty, lookup_empty in Ha.
Qed.

(** The header a request of an organization is given for a SaaS
    provider carries the value that organization configured, validated, and no other's: the rule
    the evaluator selects refers to a value that is exactly the allowed value of that
    organization's setting for the provider, and the reference of its context value to its context
    tenant. *)
Theorem restriction_values_isolated s base req policy r :
  okStore s → bun_SWGTenantRestrictionRules (ev_PolicyBundle base) = [] →
  rowsOf (restrictionsOf s) "" = ∅ → is_blank (req_TenantID req) = false →
  firstSWGTenantRestrictionRule (ev_PolicyBundle (RuntimeEvaluator s base)) req policy = Some r →
  ∃ p setting, p ∈ Providers ∧ trr_Provider r = prov_ID p ∧ trr_HeaderName r = prov_Header p ∧
    trr_TenantID r = req_TenantID req ∧
    rowsOf (restrictionsOf s) (req_TenantID req) !! prov_ID p = Some setting ∧
    Validate (prov_ID p) setting = Ok setting ∧
    ∀ v, (ev_TenantRestrictionHeaderValues (RuntimeEvaluator s base) !! trr_HeaderValueRef r = Some v ↔
            v = set_AllowedValue setting ∧ v ≠ "") ∧
         (ev_TenantRestrictionHeaderValues (RuntimeEvaluator s base) !! (trr_HeaderValueRef r +:+ "/context") = Some v ↔
            v = set_ContextTenantID setting ∧ v ≠ "").
Proof.
  intros Hs Hbase Hroot Hreq Hr. unfold firstSWGTenantRestrictionRule in Hr.
  apply List.find_some in Hr as [Hin Hsel]. rewrite RuntimeEvaluator_rules, Hbase in Hin.
  cbn [app] in Hin. apply List.in_map_iff in Hin as (r0 & <- & Hin).
  apply List.in_map_iff in Hin as (x & <- & Hin%list_elem_of_In).
  apply elem_of_compiled in Hin as (tenant & p & setting & Hp & Hset & ->). cbn [fst] in *.
  set (rule := Rule tenant p setting) in *.
  assert (∀ ov, trr_TenantID (overrideRuleStatus ov rule) = tenant ∧
    trr_Provider (overrideRuleStatus ov rule) = prov_ID p ∧
    trr_HeaderName (overrideRuleStatus ov rule) = prov_Header p ∧
    trr_HeaderValueRef (overrideRuleStatus ov rule) = Ref tenant (prov_ID p)) as Hfields
    by (intros ov; unfold overrideRuleStatus; by destruct (ov !! _)).
  destruct (Hfields (rt_TenantRestrictionRuleStatus (ps_runtime s))) as (Ht & Hpr & Hh & Href).
  assert (tenant = req_TenantID req) as Htenant.
  { rewrite Ht in Hsel. rewrite Hreq in Hsel. bool_facts.
    destruct (String.eqb_spec tenant (req_TenantID req)) as [|Hne]; [done|]. exfalso.
    destruct (nonempty tenant) eqn:Hne'; [done|].
    unfold nonempty in Hne'. apply negb_false_iff, is_empty_true in Hne' as ->.
    by rewrite Hroot, lookup_empty in Hset. }
  destruct Htenant. exists p, setting. rewrite Hpr, Hh, Ht, Href. split_and!; [done..| |].
  { eapply (readable_spec (ps_runtime s)); [apply Hs|done]. }
  assert (restrictionsOf s ≠ ∅) as Hne.
  { intros He. rewrite He, rowsOf_empty, lookup_empty in Hset. done. }
  intros v. rewrite !RuntimeEvaluator_values, !set_keys_lookup by (done || apply values_functional).
  by apply value_at.
Qed.

(** ** A request is decided by the policies of its organization *)

(** (C35) The decision about a request of an organization depends on the live
    and compiled policies of that organization alone, and not on the order in which maps are
    visited or policies listed: any listing of those policies gives the same decision, reason,
    diagnosis and actions. *)
Theorem decided_by_own_policies s base req id now L :
  okStore s → is_tenant (req_TenantID req) → (∀ p, p ∈ compiledOf s → is_tenant (pol_TenantID p)) →
  L ≡ₚ List.filter (fun p => String.eqb (pol_TenantID p) (req_TenantID req))
         (ev_Policies (RuntimeEvaluator s base)) →
  Evaluate ((RuntimeEvaluator s base) <| ev_Policies := L |>) req id now
  = Evaluate (RuntimeEvaluator s base) req id now.
Proof.
  intros Hs [Hne Htr] Hcompiled HL. set (e := RuntimeEvaluator s base) in *.
  apply Evaluate_policies; [|done]. set (r := decisionRequestWithSaaSContext _ _).
  assert (req_TenantID r = req_TenantID req) as Ht by apply with_saas_TenantID.
  assert (NoDup (policyKey <$> ev_Policies e)) as Hkeys.
  { unfold e. rewrite RuntimeEvaluator_policies. by apply mergeCompiled_NoDup, NoDup_cached. }
  assert (∀ p, p ∈ ev_Policies e → is_tenant (pol_TenantID p)) as Htenants.
  { intros p Hp. apply (evaluator_policy s base) in Hp as [Hp|[_ Hp]]; [by apply live_key in Hp as [? _]|auto|done]. }
  rewrite <- (firstMatched_applicable now (ev_Policies e)).
  rewrite (List.filter_ext_in _ (fun p => String.eqb (pol_TenantID p) (req_TenantID req))).
  - apply policy_order_canonical; [done|]. rewrite HL.
    assert (∀ l, NoDup (policyKey <$> l) →
      NoDup (pol_ID <$> List.filter (fun p => String.eqb (pol_TenantID p) (req_TenantID req)) l)) as Hids; [|by apply Hids].
    induction l as [|p l IH]; cbn [List.filter]; [constructor|]. rewrite fmap_cons, NoDup_cons.
    intros [Hp Hl]. destruct (String.eqb_spec (pol_TenantID p) (req_TenantID req)) as [Hpt|]; [|by apply IH].
    rewrite fmap_cons, NoDup_cons. split; [|by apply IH].
    intros (q & Hq & Hin)%list_elem_of_fmap. apply list_elem_of_In, List.filter_In in Hin as [Hin Hqt].
    apply String.eqb_eq in Hqt. apply Hp, list_elem_of_fmap. exists q.
    split; [unfold policyKey; congruence|by apply list_elem_of_In].
  - intros p Hp%list_elem_of_In%Htenants. destruct Hp as [Hpne Hptr]. apply eq_true_iff_eq.
    rewrite policyTenantAppliesTo_spec, String.eqb_eq, Ht, Hptr, Htr. naive_solver.
Qed.

(** ** Distribution to an Edge *)

Lemma fresh_spec tenantID policies now clock id q :
  NoDup ((fun p => trim_space (pol_ID p)) <$> policies) →
  freshPolicies tenantID policies now clock !! id = Some q ↔
  ∃ p, p ∈ policies ∧ normalizeAdminPolicy (p <| pol_TenantID := tenantID |>) tenantID now clock = Ok q ∧ pol_ID q = id.
Proof.
  unfold freshPolicies.
  assert (∀ rows : gmap string Policy, NoDup ((fun p => trim_space (pol_ID p)) <$> policies) →
    (∀ i, is_Some (rows !! i) → i ∉ (fun p => trim_space (pol_ID p)) <$> policies) →
    foldl (fun rows p => match normalizeAdminPolicy (p <| pol_TenantID := tenantID |>) tenantID now clock with
      | Ok normalized => <[pol_ID normalized := normalized]> rows | Err _ => rows end) rows policies !! id = Some q ↔
    rows !! id = Some q ∨
    ∃ p, p ∈ policies ∧ normalizeAdminPolicy (p <| pol_TenantID := tenantID |>) tenantID now clock = Ok q ∧ pol_ID q = id) as Hgen.
  { induction policies as [|p l IH]; intros rows Hnd Hrows; cbn [foldl].
    { split; [by left|]. intros [?|(? & ?%elem_of_nil & _)]; done. }
    rewrite fmap_cons, NoDup_cons in Hnd. destruct Hnd as [Hp Hnd]. setoid_rewrite elem_of_cons.
    destruct (normalizeAdminPolicy _ _ _ _) as [n|] eqn:Hn.
    - apply normalized_key in Hn as Hk. destruct Hk as (_ & _ & Hid & _).
      change (trim_space (pol_ID (p <| pol_TenantID := tenantID |>))) with (trim_space (pol_ID p)) in Hid.
      rewrite IH; [|done|].
      + rewrite lookup_insert. case_decide as Heq.
        * subst id. split.
          -- intros [[= <-] | (p' & Hp' & Hq)]; [right; exists p; auto|right; exists p'; auto].
          -- intros [Hr|(p' & [-> | Hp'] & Hq & Hqid)]; [|rewrite Hn in Hq; injection Hq as <-; by left|right; by exists p'].
             exfalso. apply (Hrows (pol_ID n)); [by eexists|]. rewrite Hid, fmap_cons. left.
        * split; [intros [?|(p' & Hp' & Hq)]; [by left|right; exists p'; auto]|].
          intros [?|(p' & [-> | Hp'] & Hq & Hqid)]; [by left|congruence|right; by exists p'].
      + intros i [x Hx]. rewrite lookup_insert in Hx. destruct (decide (pol_ID n = i)) as [<-|]; [by rewrite Hid|].
        intros Hin. apply (Hrows i); [by eexists|]. rewrite fmap_cons. by right.
    - rewrite IH; [|done|].
      + split; [intros [?|(p' & Hp' & Hq)]; [by left|right; exists p'; auto]|].
        intros [?|(p' & [-> | Hp'] & Hq & Hqid)]; [by left|congruence|right; by exists p'].
      + intros i Hi Hin. apply (Hrows i Hi). rewrite fmap_cons. by right. }
  intros Hnd. rewrite Hgen; [|done|by intros i; rewrite lookup_empty; intros [? ?]].
  rewrite lookup_empty. naive_solver.
Qed.

Lemma get_insert {A} (zero : A) m t v t' : get zero (<[t := v]> m) t' = if decide (t = t') then v else get zero m t'.
Proof. unfold get. rewrite lookup_insert. by case_decide. Qed.

Lemma snapshot_valid c tenant :
  okStore c → ValidateTenantConfig (SnapshotTenantConfig c tenant) = Ok tt.
Proof.
  intros Hc. apply (ok_readable c), readable_spec in Hc as [Hm Hr].
  unfold SnapshotTenantConfig, ValidateTenantConfig. cbv zeta.
  destruct (is_empty (trim_space tenant)); [done|]. cbn [tc_UpstreamTLSMode tc_SaaSTenantRestrictions default].
  assert (ValidateUpstreamTLSMode (EffectiveUpstreamTLSMode
    (get "" (rt_UpstreamTLSModes (ps_runtime c)) (trim_space tenant))) = true) as ->.
  { unfold get. destruct (_ !! _) as [m|] eqn:E; [|done]. apply Hm in E as (_ & _ & Hv). cbn.
    unfold EffectiveUpstreamTLSMode, ValidateUpstreamTLSMode. destruct (is_empty m); [done|]. by rewrite Hv, orb_true_r. }
  cbn [negb]. apply settings_spec. intros id s. apply Hr.
Qed.

(** The configuration an Edge reads after it took over that of a control plane. *)
Lemma applied_config f c tenant (t := trim_space tenant) :
  is_empty t = false →
  (rt_TenantRestrictionRuleStatus (ps_runtime c) = ∅ → rt_TenantRestrictionRuleStatus f = ∅) →
  ∀ e, ps_runtime e = applyTenantConfigLocked f t (SnapshotTenantConfig c tenant) →
  SnapshotTenantConfig e tenant = SnapshotTenantConfig c tenant.
Proof.
  intros Ht Hst e He. unfold SnapshotTenantConfig in *. fold t in He |- *. rewrite Ht in *. cbv zeta in *. rewrite He.
  cbn [applyTenantConfigLocked tc_UpstreamTLSMode].
  set (modes := EffectiveUpstreamTLSMode (get "" (rt_UpstreamTLSModes (ps_runtime c)) t)).
  assert (EffectiveUpstreamTLSMode modes = modes) as Hmode.
  { unfold modes, EffectiveUpstreamTLSMode. by destruct (is_empty (get _ _ _)) eqn:E; [|rewrite E]. }
  cbn. rewrite !get_insert, !decide_True, rowsOf_insert, decide_True, !Hmode by done.
  case_bool_decide as Hc; cbn [default]; [rewrite bool_decide_eq_true_2 by auto|rewrite bool_decide_eq_false_2 by done]; done.
Qed.

(** The configuration of another organization, apart from the statuses all share. *)
Lemma other_config e e' t t' cfg :
  trim_space t' ≠ t → ps_runtime e' = applyTenantConfigLocked (ps_runtime e) t cfg →
  (SnapshotTenantConfig e' t') <| tc_TenantRestrictionRuleStatus := None |>
  = (SnapshotTenantConfig e t') <| tc_TenantRestrictionRuleStatus := None |>.
Proof.
  intros Hne He. unfold SnapshotTenantConfig. destruct (is_empty (trim_space t')); [done|]. cbv zeta.
  rewrite He. cbn. rewrite !get_insert, !decide_False by congruence.
  destruct (tc_SaaSTenantRestrictions cfg); cbn; [by rewrite rowsOf_insert, decide_False by congruence|done].
Qed.

(** The live policies of an organization without policies of its own on the Edge. *)
Lemma bundle_policies e t policies cfg now clock id :
  okStore (applyBundleLocked e t policies cfg now clock).1 →
  rowsOf (rt_AdminAuthoredPolicies (ps_runtime e)) t = ∅ → rowsOf (rt_PolicyStatusOverride (ps_runtime e)) t = ∅ →
  rowsOf (ps_policies (applyBundleLocked e t policies cfg now clock).1) t !! id
  = freshPolicies t policies now clock !! id.
Proof.
  intros Hok Ha Ho. rewrite (ok_live _ Hok). unfold livePolicy, overrideStatus. cbn.
  rewrite Ha, Ho, !lookup_empty, (left_id_L None (∪)), rowsOf_insert, decide_True by done.
  by destruct (freshPolicies _ _ _ _ !! id).
Qed.

(** What receiving a bundle leaves on a node with or without a cache. *)
Lemma received_result b e stored w tenant policies cfg now clock :
  okStore e → b ≠ Updating → is_empty (trim_space tenant) = false → ValidateTenantConfig cfg = Ok tt →
  ∃ disk cached,
    ApplyReceivedBundle b e stored w tenant policies cfg now clock
    = ((applyBundleLocked e (trim_space tenant) policies cfg now clock).1, disk,
       Ok ((applyBundleLocked e (trim_space tenant) policies cfg now clock).2, cached)) ∧
    (b = Plain → cached = true → disk =
       Some (Document (marshal (applyTenantConfigLocked (json_runtime (ps_runtime e)) (trim_space tenant) cfg) ∅))).
Proof.
  intros He Hb Ht Hv. unfold ApplyReceivedBundle. cbv zeta. rewrite Ht, Hv.
  rewrite (proj2 (decode_marshal (ps_runtime e) ∅ _ _) (conj (ok_readable e He) (conj eq_refl eq_refl))).
  destruct (applyBundleLocked _ _ _ _ _ _) as [e' n]. cbn [fst snd].
  destruct b; [| |done]; eexists _, _; (split; [done|]); [done|by destruct w].
Qed.

(** (C37) What a control plane publishes for an organization is what an Edge has
    after it received it: the same TLS mode, sign-in restrictions, east-west and
    server-initiated controls and exceptions; and, where the Edge has no policies and no status
    overrides of its own and the snapshot names no policy twice, as policies exactly the valid
    ones of the snapshot.  The controls of the other organizations stay as they were, apart from
    the rule statuses all organizations share.  The cache holds the controls, not the policies:
    when it was saved an Edge that restarts has the controls again, and its policies with the
    next bundle.  A control plane without rule statuses leaves those of the Edge, so the
    theorem asks that the Edge have none then. *)
Theorem bundle_round_trip b c e stored w tenant now clock :
  okStore c → okStore e → b ≠ Updating → is_blank tenant = false →
  (rt_TenantRestrictionRuleStatus (ps_runtime c) = ∅ → rt_TenantRestrictionRuleStatus (ps_runtime e) = ∅) →
  ∃ e' disk n cached,
    ApplyReceivedBundle b e stored w tenant (Snapshot c tenant) (SnapshotTenantConfig c tenant) now clock
    = (e', disk, Ok (n, cached)) ∧
    SnapshotTenantConfig e' tenant = SnapshotTenantConfig c tenant ∧
    (∀ t', trim_space t' ≠ trim_space tenant →
       (SnapshotTenantConfig e' t') <| tc_TenantRestrictionRuleStatus := None |>
       = (SnapshotTenantConfig e t') <| tc_TenantRestrictionRuleStatus := None |>) ∧
    (rowsOf (rt_AdminAuthoredPolicies (ps_runtime e)) (trim_space tenant) = ∅ →
     rowsOf (rt_PolicyStatusOverride (ps_runtime e)) (trim_space tenant) = ∅ →
     NoDup ((fun p => trim_space (pol_ID p)) <$> Snapshot c tenant) →
     ∀ id q, rowsOf (ps_policies e') (trim_space tenant) !! id = Some q ↔
       ∃ p, p ∈ Snapshot c tenant ∧ pol_ID q = id ∧
         normalizeAdminPolicy (p <| pol_TenantID := trim_space tenant |>) (trim_space tenant) now clock = Ok q) ∧
    (b = Plain → cached = true → ∀ seed time, ∃ e'',
       SetRuntimeStatePersister Plain (NewStore seed time) (Ok disk) = Ok e'' ∧
       SnapshotTenantConfig e'' tenant = SnapshotTenantConfig c tenant).
Proof.
  intros Hc He Hb Ht Hst. unfold is_blank in Ht. set (cfg := SnapshotTenantConfig c tenant).
  pose proof (snapshot_valid c tenant Hc) as Hv. fold cfg in Hv.
  destruct (received_result b e stored w tenant (Snapshot c tenant) cfg now clock He Hb Ht Hv)
    as (disk & cached & -> & Hdisk).
  assert (okStore (applyBundleLocked e (trim_space tenant) (Snapshot c tenant) cfg now clock).1) as Hok
    by by apply applyBundle_ok.
  eexists _, disk, _, cached. split_and!; [done|..].
  - by eapply applied_config.
  - intros t' Hne. by eapply other_config.
  - intros Ha Ho Hnd id q. rewrite bundle_policies, fresh_spec by done. naive_solver.
  - intros Hplain Hcached seed time. rewrite (Hdisk Hplain Hcached). unfold SetRuntimeStatePersister.
    set (f := applyTenantConfigLocked _ _ _). assert (readable f) as Hf.
    { apply config_readable; [by apply trimmed_nonempty|apply trim_space_idemp|done|apply He]. }
    rewrite (proj2 (decode_marshal f ∅ _ _) (conj Hf (conj eq_refl eq_refl))). eexists. split; [done|].
    by eapply (applied_config (json_runtime (json_runtime (ps_runtime e)))).
Qed.

End histories.

(** ** A small deployment *)

Section examples.

#[local] Instance listOrder : MapOrder := { iterate A l := l; iterate_perm A l := reflexivity l }.

Definition wiki : Policy :=
  zero_Policy <| pol_ID := "p1" |> <| pol_TenantID := "t" |> <| pol_Status := "active" |> <| pol_Priority := 10 |>
    <| pol_Conditions := {[ "fqdn" := VStr "wiki.example" ]} |> <| pol_Action := mkPolicyAction "allow" |>.
Definition toWiki : DecisionRequest :=
  zero_DecisionRequest <| req_TenantID := "t" |> <| req_FQDN := "wiki.example" |>.
Definition baseEvaluator : Evaluator :=
  mkEvaluator [] zero_PolicyBundle "" "" false (mkEWConfig false (mkInternalNetworks [] []) [] 0 []) false [] ∅.

Definition plane : Store := NewStore [wiki] 0.
Definition planes : fleet := mkFleet [plane; plane] None.

Lemma planes_started : started planes.
Proof. split; [|done]. by repeat constructor; exists [wiki], 0. Qed.

Definition decides (s : Store) : option string :=
  pol_ID ∘ fst <$> firstMatchedPolicy 0 (ev_Policies (RuntimeEvaluator s baseEvaluator)) toWiki "human".

(** The first plane disables the policy. *)
Definition disabledOut := SetPolicyStatusContext Updating plane None Written "t" "p1" "disabled".
Definition disabledPlane : Store := disabledOut.1.1.
Definition disabledFleet : fleet := mkFleet [disabledPlane; plane] disabledOut.1.2.

Example disabled_and_pulled_again :
  decides plane = Some "p1" ∧ decides disabledPlane = None ∧
  decides (ReplaceTenant disabledPlane "t" [wiki] 5 5).1 = None.
Proof. vm_compute. done. Qed.

(** The second plane refreshes, and has a bundle without the policy and a compiled rule of the
    same key. *)
Definition refreshed (s : Store) (stored : option raw) : Store :=
  match RefreshSharedRuntime Updating s (Ok stored) with Ok s' => s' | Err _ => s end.
Definition told : Store := refreshed plane disabledOut.1.2.
Definition emptied : Store := applyLocal told (LReplace "t" [] 5 5).
Definition recompiled : Store := applyLocal emptied (LCompiledPolicies "t" [wiki]).

Lemma disabled_policy_never_decides_witness :
  ∃ p names, firstMatchedPolicy 0 (ev_Policies (RuntimeEvaluator recompiled baseEvaluator)) toWiki "human" = Some (p, names) ∧
  policyKey p = ("t", "p1") ∧ p ∈ compiledOf recompiled.
Proof.
  assert (firstMatchedPolicy 0 (ev_Policies (RuntimeEvaluator recompiled baseEvaluator)) toWiki "human"
    = Some (wiki, ["fqdn"])) as Hfirst by (vm_compute; reflexivity).
  exists wiki, ["fqdn"]. split; [exact Hfirst|]. split; [reflexivity|].
  refine (proj2 (disabled_policy_never_decides Updating Written planes planes 0 1 plane "t" "p1" disabledPlane
    disabledOut.1.2 (mkFleet [disabledPlane; recompiled] disabledOut.1.2) recompiled baseEvaluator toWiki 0 "human" wiki ["fqdn"]
    planes_started _ I eq_refl _ (or_intror _) eq_refl Hfirst eq_refl)).
  - constructor.
  - vm_compute. reflexivity.
  - exists disabledFleet, (putStore disabledFleet 1 told), plane, (Refresh Updating).
    split; [constructor|]. split; [reflexivity|]. split; [left; reflexivity|].
    split; [apply step_refresh; vm_compute; reflexivity|]. eapply rtc_l; [|eapply rtc_once].
    + exists 1%nat, told, (Alone (LReplace "t" [] 5 5)). split; [reflexivity|]. split; [exact I|]. constructor.
    + exists 1%nat, emptied, (Alone (LCompiledPolicies "t" [wiki])). split; [reflexivity|]. split; [exact I|]. constructor.
Defined.

(** The second plane saves a policy while the first knows nothing of it. *)
Definition intranet : Policy := wiki <| pol_ID := "p2" |> <| pol_Priority := 5 |>.
Definition savedOut := Upsert Updating plane disabledOut.1.2 Written intranet "t" 7 7.
Definition savedPlane : Store := savedOut.1.1.
Definition savedPolicy : Policy := match savedOut.2 with Ok p => p | Err _ => zero_Policy end.
Definition savedFleet : fleet := mkFleet [disabledPlane; savedPlane] savedOut.1.2.
(** The first plane turns east-west rules on, from its old memory. *)
Definition enabledOut := ApplyEastWestUpdateContext Updating disabledPlane savedOut.1.2 Written "t" None None (Some true) None.
Definition enabledFleet : fleet := mkFleet [enabledOut.1.1; savedPlane] enabledOut.1.2.

Lemma disable_step : steps (fun _ => True) planes disabledFleet.
Proof.
  apply rtc_once. exists 0%nat, plane, (Edit Updating Written (OpStatus "t" "p1" "disabled")).
  split; [reflexivity|]. split; [exact I|]. apply (step_edit planes 0 plane Updating Written). vm_compute. reflexivity.
Qed.

Lemma live_policies_follow_owners_witness :
  ∃ r s' f d, disabledOut.1.2 = Some r ∧ RefreshSharedRuntime Updating plane (Ok (Some r)) = Ok s' ∧
    decodeRuntimeState r = Ok (f, d) ∧ ps_runtime s' = f.
Proof.
  assert (∃ r, disabledOut.1.2 = Some r) as [r Hr] by (eexists; vm_compute; reflexivity).
  assert (plane ∈ fl_stores disabledFleet) as Hin by (right; left).
  destruct (proj2 (proj2 (proj2 (live_policies_follow_owners planes disabledFleet plane baseEvaluator
    planes_started disable_step Hin))) r Hr) as (s' & f & d & Hs').
  exists r, s', f, d. split; [exact Hr|exact Hs'].
Defined.

(** The first plane wrote over what it did not know, and has the policy of the second when it
    has refreshed. *)
Definition caughtUp : Store := refreshed enabledOut.1.1 enabledOut.1.2.

Lemma acknowledged_policy_survives_witness :
  decides caughtUp = Some "p2" ∧
  ∃ q, json_policy q = json_policy savedPolicy ∧
    overrideStatus (rowsOf (rt_PolicyStatusOverride (ps_runtime caughtUp)) "t") "p2" q
      ∈ ev_Policies (RuntimeEvaluator caughtUp baseEvaluator).
Proof.
  split; [vm_compute; reflexivity|].
  edestruct (acknowledged_policy_survives Updating Written planes disabledFleet 1 0 plane intranet "t" 7 7 savedPolicy
    savedPlane savedOut.1.2 (putStore enabledFleet 0 caughtUp) caughtUp baseEvaluator planes_started disable_step I eq_refl)
    as (q & Hjson & Hin & _); [| |reflexivity|].
  - vm_compute. reflexivity.
  - right. exists enabledFleet, (putStore enabledFleet 0 caughtUp), enabledOut.1.1, (Refresh Updating).
    split.
    { apply rtc_once. exists 0%nat, disabledPlane, (Edit Updating Written (OpEastWest "t" None None (Some true) None)).
      split; [reflexivity|]. split; [split; [reflexivity|exact I]|].
      apply (step_edit savedFleet 0 disabledPlane Updating Written). vm_compute. reflexivity. }
    split; [reflexivity|]. split; [left; reflexivity|]. split; [apply step_refresh; vm_compute; reflexivity|constructor].
  - exists q. split; [exact Hjson|exact Hin].
Defined.

(** A setting of organization [t], and one of another. *)
Definition gsuite : Setting := mkSetting "example.com" "" true.
Definition patch : TenantRestrictionPatch := mkPatch (Some " Example.com ") None (Some true).
Definition otherPatch : TenantRestrictionPatch := mkPatch (Some "other.example") None (Some true).
Definition restrictedOut := applyOp Updating plane None Written (OpRestriction "t" "google_workspace" patch).
Definition restrictedPlane : Store :=
  (applyOp Updating restrictedOut.1 restrictedOut.2 Written (OpRestriction "u" "google_workspace" otherPatch)).1.
Definition toMail : DecisionRequest :=
  zero_DecisionRequest <| req_TenantID := "t" |> <| req_SaaSApplicationID := "saas_google_workspace" |>.

Lemma restrictedPlane_ok : okStore restrictedPlane.
Proof.
  pose proof (performed_ok Updating plane None Written (OpRestriction "t" "google_workspace" patch)
    (newStore_ok [wiki] 0) I) as [Hs Hd].
  exact (proj1 (performed_ok Updating restrictedOut.1 restrictedOut.2 Written
    (OpRestriction "u" "google_workspace" otherPatch) Hs Hd)).
Qed.

Lemma restriction_values_isolated_witness :
  ev_TenantRestrictionHeaderValues (RuntimeEvaluator restrictedPlane baseEvaluator)
    !! Ref "t" "google_workspace" = Some "example.com".
Proof.
  assert (∃ r, firstSWGTenantRestrictionRule (ev_PolicyBundle (RuntimeEvaluator restrictedPlane baseEvaluator))
    toMail zero_Policy = Some r ∧ trr_HeaderValueRef r = Ref "t" "google_workspace" ∧
    trr_Provider r = "google_workspace") as (r & Hr & Href & Hprov)
    by (eexists; split; [vm_compute; reflexivity|split; vm_compute; reflexivity]).
  assert (rowsOf (restrictionsOf restrictedPlane) "" = ∅) as Hroot by (vm_compute; reflexivity).
  destruct (restriction_values_isolated restrictedPlane baseEvaluator toMail zero_Policy r restrictedPlane_ok
    eq_refl Hroot eq_refl Hr) as (p & setting & _ & Hp & _ & _ & Hset & _ & Hval).
  rewrite Hprov in Hp. rewrite <- Hp, <- Href in *. apply (proj1 (Hval "example.com")).
  assert (rowsOf (restrictionsOf restrictedPlane) (req_TenantID toMail) !! "google_workspace" = Some gsuite) as Hg
    by (vm_compute; reflexivity).
  rewrite Hg in Hset. injection Hset as <-. split; [reflexivity|discriminate].
Defined.

Lemma decided_by_own_policies_witness :
  Evaluate ((RuntimeEvaluator plane baseEvaluator) <| ev_Policies := [wiki <| pol_Name := "p1" |> <| pol_UpdatedAt := Some (format_rfc3339 0) |>] |>)
    toWiki "d1" 0 = Evaluate (RuntimeEvaluator plane baseEvaluator) toWiki "d1" 0.
Proof.
  refine (decided_by_own_policies plane baseEvaluator toWiki "d1" 0 _ (newStore_ok [wiki] 0) _ _ _).
  - split; [discriminate|vm_compute; reflexivity].
  - intros p Hp. vm_compute in Hp. by apply elem_of_nil in Hp.
  - vm_compute. reflexivity.
Defined.

Lemma bundle_round_trip_witness :
  ∃ e' disk n cached,
    ApplyReceivedBundle Plain (NewStore [] 3) None Written "t" (Snapshot restrictedPlane "t")
      (SnapshotTenantConfig restrictedPlane "t") 9 9 = (e', disk, Ok (n, cached)) ∧
    SnapshotTenantConfig e' "t" = SnapshotTenantConfig restrictedPlane "t".
Proof.
  destruct (bundle_round_trip Plain restrictedPlane (NewStore [] 3) None Written "t" 9 9 restrictedPlane_ok
    (newStore_ok [] 3) ltac:(discriminate) eq_refl (fun _ => eq_refl)) as (e' & disk & n & cached & Hr & Hc & _).
  exists e', disk, n, cached. split; [exact Hr|exact Hc].
Defined.

End examples.
End PolicyFleet.
