(* ===== verification/EastWestCeremony.v ===== *)
(** * East-west ceremonies ([src/eastwest/challenge.go, grant.go, admin.go])

    A lateral flow that an authenticate rule holds leaves a challenge.  The user proves who
    they are in a browser, the challenge is completed once, and an ephemeral grant releases the
    flow until it expires.  The grants live in the policy store, behind the interface
    [GrantStore]; an administrator can also issue and revoke them, and sets the posture of the
    plane. *)

From Stdlib Require Import Ascii ZifyBool.
From stdpp Require Import base gmap sets list strings relations.
From S2P Require Import Prelude Trimmed GoStd Timestamps Model Common Locality EastWest.
From S2P Require Import Persistence Evaluator Decision PolicyStore.

Open Scope Z_scope.

Module EastWestCeremony.

(** ** Challenges *)

Definition AuthChallengeTTL : Z := 5 * 60 * second.

Definition RequiresAuthentication (decisionValue : string) : bool :=
  String.eqb decisionValue "authenticate_required".

Record AuthChallenge := mkAuthChallenge {
  ch_ID : string;
  ch_TenantID : string;
  ch_SubjectUserID : string;
  ch_DeviceID : string;
  ch_Destination : string;
  ch_ApplicationID : string;
  ch_Protocol : string;
  ch_Status : string;
  ch_CreatedAt : string;
  ch_ExpiresAt : string;
}.

#[export] Instance AuthChallenge_eta : Etaable AuthChallenge := fun c =>
  mkAuthChallenge (ch_ID c) (ch_TenantID c) (ch_SubjectUserID c) (ch_DeviceID c)
    (ch_Destination c) (ch_ApplicationID c) (ch_Protocol c) (ch_Status c) (ch_CreatedAt c)
    (ch_ExpiresAt c).

Definition BuildAuthChallenge (req : DecisionRequest) : AuthChallenge :=
  mkAuthChallenge "" (trim_space (req_TenantID req))
    (trim_space (valueOrDefault (req_SubjectUserID req) (req_UserID req)))
    (AuthoritativeDeviceIdentity req)
    (trim_space (valueOrDefault (req_Destination req) (req_ApplicationID req)))
    (trim_space (req_ApplicationID req)) (to_lower (trim_space (req_ServiceFamily req))) "" "" "".

(** [encoding/hex] *)
Definition hex_digit (n : nat) : ascii :=
  default "0"%char (String.get n "0123456789abcdef").
Fixpoint hex (bytes : string) : string :=
  match bytes with
  | EmptyString => EmptyString
  | String c rest =>
      let n := nat_of_ascii c in
      String (hex_digit (n / 16)) (String (hex_digit (n mod 16)) (hex rest))
  end.

(** [random] holds the bytes that were read, or nothing when reading failed. *)
Definition newID (random : option string) : string :=
  match random with
  | None => "ewc_fallback"
  | Some buf => "ewc_" +:+ hex buf
  end.

(** The challenges by identifier. *)
Notation AuthChallengeStore := (gmap string AuthChallenge).

Definition Create (s : AuthChallengeStore) (challenge : AuthChallenge) (now : Z)
    (random : option string) : AuthChallengeStore * AuthChallenge :=
  let challenge := challenge <| ch_ID := newID random |> <| ch_Status := "pending" |>
    <| ch_CreatedAt := format_rfc3339 now |>
    <| ch_ExpiresAt := format_rfc3339 (now + AuthChallengeTTL) |> in
  (<[ch_ID challenge := challenge]> s, challenge).

(** [now.Before(expiresAt)], where the expiry can be parsed. *)
Definition unexpired (c : AuthChallenge) (now : Z) : bool :=
  match parse_rfc3339 (ch_ExpiresAt c) with
  | None => false
  | Some expiresAt => now <? expiresAt
  end.

Definition Complete (s : AuthChallengeStore) (id : string) (now : Z)
    : AuthChallengeStore * option AuthChallenge :=
  match s !! trim_space id with
  | None => (s, None)
  | Some c =>
      if negb (String.eqb (ch_Status c) "pending") then (s, None)
      else if negb (unexpired c now) then (s, None)
      else let c := c <| ch_Status := "completed" |> in (<[ch_ID c := c]> s, Some c)
  end.

Definition Get (s : AuthChallengeStore) (id : string) : option AuthChallenge := s !! trim_space id.

Definition ListPending `{MapOrder} (s : AuthChallengeStore) (tenantID : string) (now : Z)
    : list AuthChallenge :=
  let tenantID := trim_space tenantID in
  List.filter (fun c => String.eqb (ch_TenantID c) tenantID && String.eqb (ch_Status c) "pending"
                        && unexpired c now) (iterate (map_to_list s)).*2.

Definition Count (s : AuthChallengeStore) : Z := Z.of_nat (size s).

(** ** Grants *)

Definition eastWestGrantDefaultTTL : Z := 24 * 3600 * second.

(** The interfaces [grantStore] and [grantToucher]. *)
Class GrantStore (S : Type) := {
  IssueEastWestGrant : S → string → EastWestGrant → S;
  EastWestGrantsFor : S → string → Z → list EastWestGrant;
  RevokeEastWestGrants : S → string → string → string → S * Z;
  EastWestRulesFor : S → string → list EastWestRule;
  EastWestMaxGrantTTL : S → string → Z;
  TouchEastWestGrant : S → string → DecisionRequest → Z → S;
}.

Inductive error :=
  | NotPendingUnexpired | NotPending | TenantMismatch | IdentityMismatch
  | NotEastWestProtocol (protocol : string) | DestinationRequired
  | InvalidMode (mode : string) | InvalidRule (i : nat) (e : error)
  | StoreError (e : PolicyStore.error).

Record grantResponse := mkGrantResponse {
  gr_TenantID : string;
  gr_SubjectUserID : string;
  gr_DeviceID : string;
  gr_Destination : string;
  gr_Protocol : string;
  gr_ExpiresAt : string;
}.

Definition grantResponseFrom (tenantID : string) (g : EastWestGrant) : grantResponse :=
  mkGrantResponse tenantID (ewg_SubjectUserID g) (ewg_DeviceID g) (ewg_Destination g)
    (ewg_Protocol g) (format_rfc3339 (ewg_ExpiresAt g)).

Record AdminGrantIssueRequest := mkAdminGrant {
  ag_SubjectUserID : string;
  ag_DeviceID : string;
  ag_Destination : string;
  ag_Protocol : string;
  ag_TTLSeconds : Z;
  ag_IdleTTLSeconds : Z;
}.

(** A limit in seconds on a duration; none when it is not positive. *)
Definition capTTL (seconds ttl : Z) : Z :=
  if 0 <? seconds
  then (let cap := wrap64 (seconds * second) in if cap <? ttl then cap else ttl)
  else ttl.

Section grants.
Context {S : Type} `{GrantStore S}.

(** The request a grant is for, as the rules see it. *)
Definition bindingRequest (binding : EastWestGrant) : DecisionRequest :=
  zero_DecisionRequest <| req_SubjectUserID := ewg_SubjectUserID binding |>
    <| req_UserID := ewg_SubjectUserID binding |> <| req_DeviceID := ewg_DeviceID binding |>
    <| req_Destination := ewg_Destination binding |>
    <| req_ApplicationID := ewg_Destination binding |>
    <| req_ServiceFamily := ewg_Protocol binding |>.

Definition EffectiveTTL (s : S) (tenantID : string) (binding : EastWestGrant) (requested : Z) : Z :=
  let ttl := match MatchedEastWestRule (EastWestRulesFor s tenantID) (bindingRequest binding) with
             | Some rule => capTTL (ewr_MaxTTLSeconds rule) requested
             | None => requested
             end in
  capTTL (EastWestMaxGrantTTL s tenantID) ttl.

(** The grant for a completed challenge. *)
Definition challengeGrant (s : S) (challenge : AuthChallenge) (now : Z) : EastWestGrant :=
  let grant := mkEWGrant (ch_SubjectUserID challenge) (ch_DeviceID challenge)
                 (ch_Destination challenge) (ch_Protocol challenge) 0 now 0 in
  grant <| ewg_ExpiresAt := now + EffectiveTTL s (ch_TenantID challenge) grant eastWestGrantDefaultTTL |>.

Definition issueGrantFromChallenge (s : S) (challenges : AuthChallengeStore) (challengeID : string)
    (now : Z) : S * AuthChallengeStore * result error grantResponse :=
  match Complete challenges challengeID now with
  | (challenges, None) => (s, challenges, Err NotPendingUnexpired)
  | (challenges, Some challenge) =>
      let grant := challengeGrant s challenge now in
      (IssueEastWestGrant s (ch_TenantID challenge) grant, challenges,
       Ok (grantResponseFrom (ch_TenantID challenge) grant))
  end.

(** The checks of [CompleteCeremony]. *)
Definition authorizeCeremony (challenges : AuthChallengeStore)
    (challengeID authenticatedTenantID authenticatedUserID : string) : result error unit :=
  match Get challenges challengeID with
  | None => Err NotPending
  | Some challenge =>
      if negb (String.eqb (ch_Status challenge) "pending") then Err NotPending
      else if is_blank authenticatedTenantID
              || negb (String.eqb (ch_TenantID challenge) authenticatedTenantID)
      then Err TenantMismatch
      else if nonempty (ch_SubjectUserID challenge)
              && negb (String.eqb (ch_SubjectUserID challenge) authenticatedUserID)
      then Err IdentityMismatch
      else Ok tt
  end.

Definition CompleteCeremony (s : S) (challenges : AuthChallengeStore)
    (challengeID authenticatedTenantID authenticatedUserID : string) (now : Z)
    : S * AuthChallengeStore * result error grantResponse :=
  match authorizeCeremony challenges challengeID authenticatedTenantID authenticatedUserID with
  | Err e => (s, challenges, Err e)
  | Ok _ => issueGrantFromChallenge s challenges challengeID now
  end.

(** The grant an administrator asks for. *)
Definition directGrant (s : S) (tenantID : string) (req : AdminGrantIssueRequest) (now : Z)
    : EastWestGrant :=
  let requested := if 0 <? ag_TTLSeconds req then wrap64 (ag_TTLSeconds req * second)
                   else eastWestGrantDefaultTTL in
  let grant := mkEWGrant (trim_space (ag_SubjectUserID req)) (trim_space (ag_DeviceID req))
                 (trim_space (ag_Destination req)) (to_lower (trim_space (ag_Protocol req))) 0 now
                 (ag_IdleTTLSeconds req) in
  grant <| ewg_ExpiresAt := now + EffectiveTTL s tenantID grant requested |>.

Definition IssueGrantDirect (s : S) (tenantID : string) (req : AdminGrantIssueRequest) (now : Z)
    : S * result error grantResponse :=
  if negb (IsEastWestProtocol (ag_Protocol req)) then (s, Err (NotEastWestProtocol (ag_Protocol req)))
  else if is_blank (ag_Destination req) then (s, Err DestinationRequired)
  else let grant := directGrant s tenantID req now in
       (IssueEastWestGrant s tenantID grant, Ok (grantResponseFrom tenantID grant)).

(** The answer carries the number of grants that were revoked. *)
Definition RevokeGrants (s : S) (tenantID scopeType scopeID : string) : S * Z :=
  RevokeEastWestGrants s tenantID scopeType scopeID.

Definition TouchGrantIfSatisfied (s : S) (req : DecisionRequest) (dec : AccessDecision) (now : Z) : S :=
  if negb (String.eqb (dec_Decision dec) "allow") then s
  else if negb (containsString (dec_ReasonCodes dec) "east_west_grant_satisfied") then s
  else TouchEastWestGrant s (dec_TenantID dec) req now.

Definition AdminGrants (s : S) (tenantID : string) (now : Z) : list grantResponse :=
  List.map (grantResponseFrom tenantID) (EastWestGrantsFor s tenantID now).

End grants.

(** ** The policy store behind the interface *)

#[export] Instance Store_GrantStore : GrantStore PolicyStore.Store := {
  IssueEastWestGrant := PolicyStore.IssueEastWestGrant;
  EastWestGrantsFor := PolicyStore.EastWestGrantsFor;
  RevokeEastWestGrants := PolicyStore.RevokeEastWestGrants;
  EastWestRulesFor := PolicyStore.EastWestRulesFor;
  EastWestMaxGrantTTL := PolicyStore.EastWestMaxGrantTTL;
  TouchEastWestGrant := PolicyStore.TouchEastWestGrant;
}.

(** ** The posture of the plane *)

Definition ModeObserve : string := "observe".
Definition ModePartial : string := "partial".
Definition ModeFull : string := "full".

Definition modeFor (enabled allowUnmatched : bool) : string :=
  if negb enabled then ModeObserve else if allowUnmatched then ModePartial else ModeFull.

Record adminRule := mkAdminRule {
  ar_ID : string;
  ar_Priority : Z;
  ar_SourceUsers : list string;
  ar_SourceGroups : list string;
  ar_Destinations : list string;
  ar_Protocols : list string;
  ar_Mode : string;
  ar_MaxTTLSeconds : Z;
  ar_DeviceAttestedAuto : bool;
}.

#[export] Instance adminRule_eta : Etaable adminRule := fun r =>
  mkAdminRule (ar_ID r) (ar_Priority r) (ar_SourceUsers r) (ar_SourceGroups r)
    (ar_Destinations r) (ar_Protocols r) (ar_Mode r) (ar_MaxTTLSeconds r)
    (ar_DeviceAttestedAuto r).

Record adminStatusResponse := mkAdminStatus {
  as_TenantID : string;
  as_Enabled : bool;
  as_AllowUnmatched : bool;
  as_Mode : string;
  as_Rules : list adminRule;
  as_MaxGrantTTLSeconds : Z;
}.

Record AdminUpdateRequest := mkAdminUpdate {
  au_Mode : option string;
  au_Enabled : option bool;
  au_Rules : option (list adminRule);
  au_MaxGrantTTLSeconds : option Z;
}.

Definition adminRuleFromModel (r : EastWestRule) : adminRule :=
  mkAdminRule (ewr_ID r) (ewr_Priority r) (ewr_SourceUsers r) (ewr_SourceGroups r)
    (ewr_Destinations r) (ewr_Protocols r) (ewr_Mode r) (ewr_MaxTTLSeconds r)
    (ewr_DeviceAttestedAuto r).

Definition adminRuleToModel (r : adminRule) : result error EastWestRule :=
  let mode := to_lower (trim_space (ar_Mode r)) in
  if negb (containsString ["allow"; "authenticate"; "deny"] mode) then Err (InvalidMode (ar_Mode r))
  else match List.find (fun p => negb (IsEastWestProtocol p)) (ar_Protocols r) with
       | Some p => Err (NotEastWestProtocol p)
       | None => Ok (zero_EastWestRule
           <| ewr_ID := trim_space (ar_ID r) |> <| ewr_Priority := ar_Priority r |>
           <| ewr_SourceUsers := ar_SourceUsers r |> <| ewr_SourceGroups := ar_SourceGroups r |>
           <| ewr_Destinations := ar_Destinations r |> <| ewr_Protocols := ar_Protocols r |>
           <| ewr_Mode := mode |> <| ewr_MaxTTLSeconds := ar_MaxTTLSeconds r |>
           <| ewr_DeviceAttestedAuto := ar_DeviceAttestedAuto r |>)
       end.

(** Every rule of the request, or the error of the first one that is refused. *)
Fixpoint parseRules (i : nat) (rules : list adminRule) : result error (list EastWestRule) :=
  match rules with
  | [] => Ok []
  | raw :: rest =>
      match adminRuleToModel raw with
      | Err e => Err (InvalidRule i e)
      | Ok rule => let! parsed := parseRules (S i) rest in Ok (rule :: parsed)
      end
  end.

(** The two flags a request asks for: [mode] over [enabled]. *)
Definition postureFlags (req : AdminUpdateRequest) : result error (option bool * option bool) :=
  match au_Mode req with
  | Some mode =>
      switch (to_lower (trim_space mode))
        [([ModeObserve], Ok (Some false, None)); ([ModePartial], Ok (Some true, Some true));
         ([ModeFull], Ok (Some true, Some false))]
        (Err (InvalidMode mode))
  | None =>
      match au_Enabled req with
      | Some true => Ok (Some true, Some false)
      | enabled => Ok (enabled, None)
      end
  end.

Definition AdminStatus (s : PolicyStore.Store) (tenantID : string) : adminStatusResponse :=
  let enabled := PolicyStore.EastWestIsEnabled s tenantID in
  let allowUnmatched := PolicyStore.EastWestAllowsUnmatched s tenantID in
  mkAdminStatus tenantID enabled allowUnmatched (modeFor enabled allowUnmatched)
    (List.map adminRuleFromModel (PolicyStore.EastWestRulesFor s tenantID))
    (PolicyStore.EastWestMaxGrantTTL s tenantID).

Definition ApplyAdminUpdateContext `{MapOrder} (b : backing) (s : PolicyStore.Store)
    (stored : option PolicyStore.raw) (w : write_outcome) (tenantID : string)
    (req : AdminUpdateRequest)
    : PolicyStore.Store * option PolicyStore.raw * result error adminStatusResponse :=
  let rules := match au_Rules req with
               | None => Ok None
               | Some raws => let! parsed := parseRules 0 raws in Ok (Some parsed)
               end in
  match rules, postureFlags req with
  | Err e, _ => (s, stored, Err e)
  | _, Err e => (s, stored, Err e)
  | Ok rules, Ok (enabled, unmatched) =>
      match PolicyStore.ApplyEastWestUpdateContext b s stored w tenantID rules
              (au_MaxGrantTTLSeconds req) enabled unmatched with
      | (s, stored, Err e) => (s, stored, Err (StoreError e))
      | (s, stored, Ok _) => (s, stored, Ok (AdminStatus s tenantID))
      end
  end.

(** * Properties *)

(** ** Identifiers *)

Lemma hex_byte_inj a b :
  hex_digit (nat_of_ascii a / 16) = hex_digit (nat_of_ascii b / 16) →
  hex_digit (nat_of_ascii a mod 16) = hex_digit (nat_of_ascii b mod 16) → a = b.
Proof.
  set (digit := fun c => let n := nat_of_ascii c in if (n <? 97)%nat then (n - 48)%nat else (n - 87)%nat).
  assert (∀ c, ascii_of_nat (digit (hex_digit (nat_of_ascii c / 16)) * 16
                             + digit (hex_digit (nat_of_ascii c mod 16))) = c) as Hback.
  { intros [[] [] [] [] [] [] [] []]; reflexivity. }
  intros H1 H2. rewrite <- (Hback a), <- (Hback b). by rewrite H1, H2.
Qed.

Lemma hex_inj a : ∀ b, hex a = hex b → a = b.
Proof.
  induction a as [|x a IH]; intros [|y b]; cbn [hex]; try done. cbv zeta.
  intros [= H1 H2 H3]. by rewrite (hex_byte_inj _ _ H1 H2), (IH _ H3).
Qed.

(** Identifiers that were read are as distinct as the bytes they were made from. *)
Lemma newID_inj a b : newID (Some a) = newID (Some b) → a = b.
Proof. cbn. intros [= H]. by apply hex_inj. Qed.

Lemma hex_digit_solid n : (n < 16)%nat → solid (hex_digit n) = true.
Proof. intros Hn. do 16 (destruct n as [|n]; [reflexivity|]). lia. Qed.

Lemma hex_solid s : solid_text (hex s) = true.
Proof.
  induction s as [|c s IH]; [done|]. cbn [hex]. cbv zeta. cbn [solid_text].
  pose proof (nat_ascii_bounded c).
  rewrite !hex_digit_solid, IH; [done|by apply Nat.mod_upper_bound|by apply Nat.Div0.div_lt_upper_bound].
Qed.

Lemma newID_trimmed random : trim_space (newID random) = newID random.
Proof.
  destruct random as [buf|]; [|reflexivity]. apply trim_solid. cbn. apply hex_solid.
Qed.

(** ** Challenges *)

Lemma unexpired_created c now at_ random :
  year_zero ≤ at_ + AuthChallengeTTL < year_10000 →
  unexpired (Create ∅ c at_ random).2 now = (now <? at_ / second * second + AuthChallengeTTL).
Proof.
  intros Hr. unfold unexpired. cbn [Create snd]. cbn [ch_ExpiresAt].
  change (parse_rfc3339 _) with (parse_rfc3339 (format_rfc3339 (at_ + AuthChallengeTTL))).
  rewrite rfc3339_round_trip by done. f_equal. unfold AuthChallengeTTL, second.
  Z.to_euclidean_division_equations. lia.
Qed.

Lemma Create_spec (s : AuthChallengeStore) c now random :
  let c' := (Create ∅ c now random).2 in
  Create s c now random = (<[newID random := c']> s, c') ∧ ch_ID c' = newID random.
Proof. done. Qed.

Lemma Complete_spec s id now s' c :
  Complete s id now = (s', Some c) ↔
  ∃ c0, s !! trim_space id = Some c0 ∧ ch_Status c0 = "pending" ∧ unexpired c0 now = true ∧
    c = c0 <| ch_Status := "completed" |> ∧ s' = <[ch_ID c0 := c]> s.
Proof.
  unfold Complete. destruct (s !! trim_space id) as [c0|]; [|split; [done|by intros (? & ? & _)]].
  destruct (String.eqb_spec (ch_Status c0) "pending") as [Hp|Hp]; cbn [negb];
    [|split; [done|]; intros (? & [= <-] & ? & _); done].
  destruct (unexpired c0 now) eqn:Hu; cbn [negb];
    [|split; [done|]; intros (? & [= <-] & _ & ? & _); congruence].
  split; [|by intros (? & [= <-] & _ & _ & -> & ->)].
  intros H. apply (inj2 pair) in H as [<- Hc]. apply (inj Some) in Hc as <-. by exists c0.
Qed.

Lemma authorizeCeremony_ok s id tenant user :
  authorizeCeremony s id tenant user = Ok tt ↔
  ∃ c, s !! trim_space id = Some c ∧ ch_Status c = "pending" ∧ is_blank tenant = false ∧
    ch_TenantID c = tenant ∧ (ch_SubjectUserID c = "" ∨ ch_SubjectUserID c = user).
Proof.
  unfold authorizeCeremony, Get.
  destruct (s !! trim_space id) as [c|]; [|split; [done|by intros (? & ? & _)]].
  transitivity (ch_Status c = "pending" ∧ is_blank tenant = false ∧ ch_TenantID c = tenant
    ∧ (ch_SubjectUserID c = "" ∨ ch_SubjectUserID c = user));
    [|split; [intros H; by exists c|by intros (? & [= <-] & H)]].
  destruct (String.eqb_spec (ch_Status c) "pending"); cbn [negb]; [|naive_solver].
  destruct (is_blank tenant); cbn [orb]; [naive_solver|].
  destruct (String.eqb_spec (ch_TenantID c) tenant); cbn [negb]; [|naive_solver].
  unfold nonempty. destruct (is_empty (ch_SubjectUserID c)) eqn:He; cbn [negb andb].
  - apply is_empty_true in He. naive_solver.
  - destruct (String.eqb_spec (ch_SubjectUserID c) user); cbn [negb]; [naive_solver|].
    split; [done|]. intros (_ & _ & _ & [Hs | Hs]); [by rewrite Hs in He|done].
Qed.

(** ** Lifetimes *)

Lemma capTTL_le seconds ttl : capTTL seconds ttl ≤ ttl.
Proof. unfold capTTL. cbv zeta. destruct (_ <? seconds); [destruct (Z.ltb_spec (wrap64 (seconds * second)) ttl)|]; lia. Qed.

(** Limits that fit a [time.Duration] are limits. *)
Lemma capTTL_limit seconds ttl :
  0 < seconds → seconds * second ≤ int_max → capTTL seconds ttl ≤ seconds * second.
Proof.
  intros Hs Hm. unfold capTTL. destruct (Z.ltb_spec 0 seconds); [|lia]. cbv zeta.
  rewrite wrap64_id by (unfold second in *; unfold int_min; lia).
  destruct (Z.ltb_spec (seconds * second) ttl); lia.
Qed.

Lemma EffectiveTTL_le {S} `{GrantStore S} (s : S) t g ttl : EffectiveTTL s t g ttl ≤ ttl.
Proof.
  unfold EffectiveTTL. etransitivity; [apply capTTL_le|].
  case_match; [apply capTTL_le|lia].
Qed.

End EastWestCeremony.
