(* ===== verification/EastWestRelease.v ===== *)
(** * An authenticate rule means that somebody authenticated

    The life of the grants of one Edge, as a step relation over held flows, ceremonies in two
    steps (the checks of [CompleteCeremony], then [issueGrantFromChallenge]), grants an
    administrator issues or revokes, idle timers and changes of the other controls.  The
    theorems are proved against [GrantLedger], the laws of the interface [GrantStore], which
    the policy store obeys. *)

From stdpp Require Import base gmap sets list strings relations.
From S2P Require Import Prelude Trimmed GoStd Timestamps Model Common SaaSCatalog Locality EastWest.
From S2P Require Import Persistence Evaluator Decision PolicyStore PolicyFleet EastWestCeremony.
Import EastWestCeremony.

Open Scope Z_scope.

Module EastWestRelease.

(** ** The laws of a store of grants *)

(** The same grant, whenever it was last used. *)
Definition sameGrant (g g' : EastWestGrant) : Prop :=
  ∃ used, g = g' <| ewg_LastUsedAt := used |>.

Class GrantLedger (S : Type) `{GrantStore S} := {
  held : S → string → list EastWestGrant;
  held_issue s t g t' :
    held (IssueEastWestGrant s t g) t' = held s t' ++ (if decide (t' = trim_space t) then [g] else []);
  held_revoke s t kind id t' : held (RevokeEastWestGrants s t kind id).1 t' ⊆ held s t';
  held_touch s t req now t' g :
    g ∈ held (TouchEastWestGrant s t req now) t' → ∃ g', g' ∈ held s t' ∧ sameGrant g g';
}.

Lemma sameGrant_refl g : sameGrant g g.
Proof. exists (ewg_LastUsedAt g). by destruct g. Qed.

Lemma sameGrant_trans g1 g2 g3 : sameGrant g1 g2 → sameGrant g2 g3 → sameGrant g1 g3.
Proof. intros [u1 ->] [u2 ->]. by exists u1. Qed.

#[export] Program Instance Store_GrantLedger : GrantLedger PolicyStore.Store := {
  held s t := PolicyStore.get [] (PolicyStore.ps_eastWestGrants s) t;
}.
Next Obligation.
  intros s t g t'. cbn. unfold PolicyStore.IssueEastWestGrant, PolicyStore.get. cbn.
  destruct (decide (t' = trim_space t)) as [-> |].
  - by rewrite lookup_insert_eq.
  - by rewrite lookup_insert_ne, app_nil_r.
Qed.
Next Obligation.
  intros s t kind id t' g. cbn. unfold PolicyStore.RevokeEastWestGrants. case_match.
  - unfold PolicyStore.revokeEastWestGrantsForTenantLocked, PolicyStore.get. cbn.
    destruct (decide (t' = trim_space t)) as [-> |].
    + rewrite lookup_delete_eq. by intros ?%elem_of_nil.
    + by rewrite lookup_delete_ne.
  - unfold PolicyStore.revokeEastWestGrantsForScopeLocked. case_match; [done|]. cbn.
    unfold PolicyStore.get at 1. destruct (decide (t' = trim_space t)) as [-> |].
    + rewrite lookup_insert_eq. cbn. rewrite !list_elem_of_In, filter_In. by intros [? _].
    + by rewrite lookup_insert_ne.
Qed.
Next Obligation.
  intros s t req now t' g. cbn. unfold PolicyStore.TouchEastWestGrant, PolicyStore.get. cbn.
  destruct (decide (t' = trim_space t)) as [-> |].
  - rewrite lookup_alter_eq. destruct (PolicyStore.ps_eastWestGrants s !! _) as [l|]; [|by intros ?%elem_of_nil].
    cbn. intros (g' & -> & Hin)%list_elem_of_fmap. exists g'. split; [done|].
    case_match; [by eexists|apply sameGrant_refl].
  - rewrite lookup_alter_ne by done. intros Hin. exists g. split; [done|apply sameGrant_refl].
Qed.

(** ** The steps of an Edge *)

(** A held flow and the challenge that was returned for it. *)
Record hold := mkHold {
  ho_Request : DecisionRequest;
  ho_At : Z;
  ho_Challenge : AuthChallenge;
}.

(** What a browser login proved, with the challenge it was made for. *)
Record proof := mkProof {
  pf_ChallengeID : string;
  pf_TenantID : string;
  pf_UserID : string;
}.

Record issuance := mkIssuance {
  iss_Proof : proof;
  iss_At : Z;
  iss_Challenge : AuthChallenge;
  iss_Grant : EastWestGrant;
}.

(** The state of the Edge, and what has happened on it. *)
Record edge (S : Type) := mkEdge {
  ed_store : S;
  ed_challenges : AuthChallengeStore;
  ed_proofs : list proof;
  ed_holds : list hold;
  ed_issued : list issuance;
  ed_direct : list (string * EastWestGrant);
}.
Arguments mkEdge {S}.
Arguments ed_store {S}.
Arguments ed_challenges {S}.
Arguments ed_proofs {S}.
Arguments ed_holds {S}.
Arguments ed_issued {S}.
Arguments ed_direct {S}.

Section edge.
Context {S : Type} `{GrantLedger S}.

(** No identifier is given twice, which is what reading random bytes is for, and the clock is
    within the years of RFC 3339. *)
Inductive step (e : edge S) : edge S → Prop :=
  | step_hold req now random cs c :
      year_zero ≤ now + AuthChallengeTTL < year_10000 →
      ed_challenges e !! newID random = None →
      Create (ed_challenges e) (BuildAuthChallenge req) now random = (cs, c) →
      step e (mkEdge (ed_store e) cs (ed_proofs e) (mkHold req now c :: ed_holds e)
                (ed_issued e) (ed_direct e))
  | step_authorize id tenant user :
      authorizeCeremony (ed_challenges e) id tenant user = Ok tt →
      step e (mkEdge (ed_store e) (ed_challenges e) (mkProof id tenant user :: ed_proofs e)
                (ed_holds e) (ed_issued e) (ed_direct e))
  | step_issue p now c s cs r :
      p ∈ ed_proofs e → (Complete (ed_challenges e) (pf_ChallengeID p) now).2 = Some c →
      issueGrantFromChallenge (ed_store e) (ed_challenges e) (pf_ChallengeID p) now = (s, cs, Ok r) →
      step e (mkEdge s cs (ed_proofs e) (ed_holds e)
                (mkIssuance p now c (challengeGrant (ed_store e) c now) :: ed_issued e) (ed_direct e))
  | step_direct tenant req now s r :
      IssueGrantDirect (ed_store e) tenant req now = (s, Ok r) →
      step e (mkEdge s (ed_challenges e) (ed_proofs e) (ed_holds e) (ed_issued e)
                ((tenant, directGrant (ed_store e) tenant req now) :: ed_direct e))
  | step_revoke tenant kind id :
      step e (mkEdge (RevokeGrants (ed_store e) tenant kind id).1 (ed_challenges e) (ed_proofs e)
                (ed_holds e) (ed_issued e) (ed_direct e))
  | step_touch req dec now :
      step e (mkEdge (TouchGrantIfSatisfied (ed_store e) req dec now) (ed_challenges e)
                (ed_proofs e) (ed_holds e) (ed_issued e) (ed_direct e))
  | step_controls s :
      (∀ t, held s t = held (ed_store e) t) →
      step e (mkEdge s (ed_challenges e) (ed_proofs e) (ed_holds e) (ed_issued e) (ed_direct e)).

(** A process begins without challenges and grants. *)
Definition fresh (e : edge S) : Prop :=
  ed_challenges e = ∅ ∧ ed_proofs e = [] ∧ ed_holds e = [] ∧ ed_issued e = [] ∧ ed_direct e = []
  ∧ ∀ t, held (ed_store e) t = [].

Definition completed (c : AuthChallenge) : AuthChallenge := c <| ch_Status := "completed" |>.

(** The challenge of a held flow. *)
Definition ofHold (h : hold) : Prop :=
  year_zero ≤ ho_At h + AuthChallengeTTL < year_10000 ∧
  ∃ random, ho_Challenge h = (Create ∅ (BuildAuthChallenge (ho_Request h)) (ho_At h) random).2.

(** The login is one of the tenant and, when the flow names one, of the user of the flow. *)
Definition proves (p : proof) (h : hold) : Prop :=
  trim_space (pf_ChallengeID p) = ch_ID (ho_Challenge h) ∧ is_blank (pf_TenantID p) = false ∧
  ch_TenantID (ho_Challenge h) = pf_TenantID p ∧
  (ch_SubjectUserID (ho_Challenge h) = "" ∨ ch_SubjectUserID (ho_Challenge h) = pf_UserID p).

(** A grant made in time for a held flow, after a login that proves it. *)
Definition earned (h : hold) (i : issuance) : Prop :=
  proves (iss_Proof i) h ∧ iss_Challenge i = completed (ho_Challenge h) ∧
  iss_At i < ho_At h / second * second + AuthChallengeTTL ∧
  ∃ ttl, ttl ≤ eastWestGrantDefaultTTL ∧
    iss_Grant i = mkEWGrant (ch_SubjectUserID (ho_Challenge h)) (ch_DeviceID (ho_Challenge h))
      (ch_Destination (ho_Challenge h)) (ch_Protocol (ho_Challenge h)) (iss_At i + ttl) (iss_At i) 0.

Record ok (e : edge S) : Prop := {
  ok_holds h : h ∈ ed_holds e → ofHold h ∧
    (ed_challenges e !! ch_ID (ho_Challenge h) = Some (ho_Challenge h) ∨
     ed_challenges e !! ch_ID (ho_Challenge h) = Some (completed (ho_Challenge h)));
  ok_challenges id c : ed_challenges e !! id = Some c →
    ∃ h, h ∈ ed_holds e ∧ id = ch_ID (ho_Challenge h);
  ok_proofs p : p ∈ ed_proofs e → ∃ h, h ∈ ed_holds e ∧ proves p h;
  ok_issued i : i ∈ ed_issued e → ed_challenges e !! ch_ID (iss_Challenge i) = Some (iss_Challenge i) ∧
    ∃ h, h ∈ ed_holds e ∧ earned h i;
  ok_once : NoDup (List.map (fun i => ch_ID (iss_Challenge i)) (ed_issued e));
  ok_held g t : g ∈ held (ed_store e) t → ∃ g', sameGrant g g' ∧
    ((∃ i, i ∈ ed_issued e ∧ g' = iss_Grant i ∧ t = ch_TenantID (iss_Challenge i)) ∨
     (∃ t', (t', g') ∈ ed_direct e ∧ t = trim_space t'));
}.

Implicit Types e : edge S.

Lemma ok_fresh e : fresh e → ok e.
Proof.
  intros (Hc & Hp & Hh & Hi & Hd & Hg). split; rewrite ?Hc, ?Hp, ?Hh, ?Hi.
  1, 3, 4: by intros ? ?%elem_of_nil.
  - intros id c. by rewrite lookup_empty.
  - constructor.
  - intros g t. rewrite Hg. by intros ?%elem_of_nil.
Qed.

(** Steps that add no grant. *)
Lemma ok_store e s :
  ok e → (∀ t g, g ∈ held s t → ∃ g', g' ∈ held (ed_store e) t ∧ sameGrant g g') →
  ok (mkEdge s (ed_challenges e) (ed_proofs e) (ed_holds e) (ed_issued e) (ed_direct e)).
Proof.
  intros He Hs. split; cbn; [apply He..|].
  intros g t (g1 & Hin & Hg1)%Hs. destruct (ok_held _ He _ _ Hin) as (g2 & Hg2 & Hfrom).
  exists g2. split; [by eapply sameGrant_trans|done].
Qed.

Lemma hold_ok e req now random cs c :
  ok e → year_zero ≤ now + AuthChallengeTTL < year_10000 →
  ed_challenges e !! newID random = None →
  Create (ed_challenges e) (BuildAuthChallenge req) now random = (cs, c) →
  ok (mkEdge (ed_store e) cs (ed_proofs e) (mkHold req now c :: ed_holds e) (ed_issued e) (ed_direct e)).
Proof.
  intros He Hr Hnew Hcr. destruct (Create_spec (ed_challenges e) (BuildAuthChallenge req) now random) as [Heq Hid].
  rewrite Heq in Hcr. apply (inj2 pair) in Hcr as [<- Hc].
  assert (ofHold (mkHold req now c)) as Hof by (split; [done|by exists random]).
  rewrite Hc in Hid |- *. clear Heq Hc.
  assert (∀ id, id = newID random → ed_challenges e !! id ≠ None → False) as Hno by (by intros ? ->).
  split; cbn.
  - intros h [-> | Hin]%elem_of_cons; cbn.
    + split; [done|]. left. rewrite Hid. apply lookup_insert_eq.
    + destruct (ok_holds _ He h Hin) as [Hh Hl]. split; [done|].
      rewrite lookup_insert_ne; [done|]. intros Heq. apply (Hno _ (eq_sym Heq)). by destruct Hl as [-> | ->].
  - intros id c' Hl. destruct (decide (id = newID random)) as [-> | Hne].
    + eexists. split; [left|]. by cbn.
    + rewrite lookup_insert_ne in Hl by done. destruct (ok_challenges _ He _ _ Hl) as (h & ? & ?).
      exists h. split; [by right|done].
  - intros p Hin. destruct (ok_proofs _ He p Hin) as (h & ? & ?). exists h. split; [by right|done].
  - intros i Hin. destruct (ok_issued _ He i Hin) as (Hl & h & ? & ?). split.
    + rewrite lookup_insert_ne; [done|]. intros Heq. apply (Hno _ (eq_sym Heq)). by rewrite Hl.
    + exists h. split; [by right|done].
  - apply He.
  - apply He.
Qed.

Lemma pending_hold e id c :
  ok e → ed_challenges e !! id = Some c → ch_Status c = "pending" →
  ∃ h, h ∈ ed_holds e ∧ id = ch_ID (ho_Challenge h) ∧ c = ho_Challenge h.
Proof.
  intros He Hl Hp. destruct (ok_challenges _ He _ _ Hl) as (h & Hin & ->). exists h. split_and!; [done..|].
  destruct (ok_holds _ He _ Hin) as [_ [Hh | Hh]]; rewrite Hl in Hh; injection Hh as ->; done.
Qed.

Lemma authorize_ok e id tenant user :
  ok e → authorizeCeremony (ed_challenges e) id tenant user = Ok tt →
  ok (mkEdge (ed_store e) (ed_challenges e) (mkProof id tenant user :: ed_proofs e) (ed_holds e)
        (ed_issued e) (ed_direct e)).
Proof.
  intros He (c & Hl & Hp & Hb & Ht & Hs)%authorizeCeremony_ok. split; cbn; [apply He..| |apply He|apply He|apply He].
  intros p [-> | Hin]%elem_of_cons; [|by apply He].
  destruct (pending_hold _ _ _ He Hl Hp) as (h & Hin & Hid & ->). exists h. by split.
Qed.

(** What [issueGrantFromChallenge] does, when it does something. *)
Lemma issued_facts e p now c s cs r :
  ok e → p ∈ ed_proofs e → (Complete (ed_challenges e) (pf_ChallengeID p) now).2 = Some c →
  issueGrantFromChallenge (ed_store e) (ed_challenges e) (pf_ChallengeID p) now = (s, cs, Ok r) →
  ∃ h, h ∈ ed_holds e ∧ earned h (mkIssuance p now c (challengeGrant (ed_store e) c now)) ∧
    ed_challenges e !! ch_ID c = Some (ho_Challenge h) ∧ cs = <[ch_ID c := c]> (ed_challenges e) ∧
    s = IssueEastWestGrant (ed_store e) (ch_TenantID c) (challengeGrant (ed_store e) c now).
Proof.
  intros He Hp Hc Hi. destruct (ok_proofs _ He _ Hp) as (h & Hin & Hprf). unfold issueGrantFromChallenge in Hi.
  destruct (Complete _ _ _) as [cs' o] eqn:Hcm. cbn in Hc. subst o. injection Hi as <- <- _.
  apply Complete_spec in Hcm as (c0 & Hl & Hst & Hu & -> & ->).
  rewrite (proj1 Hprf) in Hl. assert (c0 = ho_Challenge h) as ->.
  { destruct (ok_holds _ He _ Hin) as [_ [Hh | Hh]]; rewrite Hl in Hh; injection Hh as ->;
      [done|discriminate Hst]. }
  exists h. destruct (ok_holds _ He _ Hin) as [(Hyear & random & Hch) Hlk].
  assert (ch_ID (completed (ho_Challenge h)) = ch_ID (ho_Challenge h)) as Hid by done.
  split_and!; [done| |done|done|done].
  split; [done|]. split; [done|]. cbn. split.
  - rewrite Hch, unexpired_created in Hu by done. lia.
  - eexists. split; [apply EffectiveTTL_le|]. done.
Qed.

Lemma issue_ok e p now c s cs r :
  ok e → p ∈ ed_proofs e → (Complete (ed_challenges e) (pf_ChallengeID p) now).2 = Some c →
  issueGrantFromChallenge (ed_store e) (ed_challenges e) (pf_ChallengeID p) now = (s, cs, Ok r) →
  ok (mkEdge s cs (ed_proofs e) (ed_holds e)
        (mkIssuance p now c (challengeGrant (ed_store e) c now) :: ed_issued e) (ed_direct e)).
Proof.
  intros He Hp Hc Hi. destruct (issued_facts _ _ _ _ _ _ _ He Hp Hc Hi) as (h & Hin & Hearn & Hl & -> & ->).
  pose proof Hearn as (_ & Hch & _). cbn in Hch.
  assert (ch_Status (ho_Challenge h) = "pending") as Hpend.
  { destruct (ok_holds _ He _ Hin) as [(_ & random & ->) _]. done. }
  split; cbn.
  - intros h' Hin'. destruct (ok_holds _ He _ Hin') as [Hof Hlk]. split; [done|].
    destruct (decide (ch_ID (ho_Challenge h') = ch_ID c)) as [Heq | Hne].
    + right. rewrite Heq, lookup_insert_eq, Hch. rewrite Heq, Hl in Hlk.
      destruct Hlk as [[= <-] | [= Hlk]]; [done|]. by rewrite Hlk in Hpend.
    + by rewrite lookup_insert_ne.
  - intros id c' Hid. destruct (decide (id = ch_ID c)) as [-> | Hne].
    + exists h. by rewrite Hch.
    + rewrite lookup_insert_ne in Hid by done. by apply (ok_challenges _ He) in Hid.
  - apply He.
  - intros i [-> | Hi']%elem_of_cons; cbn; [split; [apply lookup_insert_eq|by exists h]|].
    destruct (ok_issued _ He _ Hi') as (Hlk & Hh). split; [|done].
    destruct (decide (ch_ID (iss_Challenge i) = ch_ID c)) as [Heq | Hne]; [|by rewrite lookup_insert_ne].
    exfalso. rewrite Heq, Hl in Hlk. injection Hlk as Hlk. destruct Hh as (h' & _ & _ & Hcmp & _).
    rewrite Hlk, Hcmp in Hpend. discriminate Hpend.
  - apply NoDup_cons. split; [|apply He].
    intros (i & Heq & Hi')%list_elem_of_In%in_map_iff. rewrite <- list_elem_of_In in Hi'. cbn in Heq.
    destruct (ok_issued _ He _ Hi') as (Hlk & h' & _ & _ & Hcmp & _).
    rewrite Heq, Hl in Hlk. injection Hlk as Hlk. rewrite Hlk, Hcmp in Hpend. discriminate Hpend.
  - intros g t. rewrite held_issue. intros [Hg | Hg]%elem_of_app.
    + destruct (ok_held _ He _ _ Hg) as (g' & Hsame & [(i & Hi' & ? & ?) | Hdir]); exists g'; split; auto.
      left. exists i. split_and!; [by right|done..].
    + case_decide as Ht; [|by apply elem_of_nil in Hg]. apply list_elem_of_singleton in Hg as ->.
      eexists. split; [apply sameGrant_refl|]. left. eexists. split_and!; [left|done|]. cbn.
      rewrite Ht, Hch. cbn. destruct (ok_holds _ He _ Hin) as [(_ & random & ->) _]. cbn.
      apply trim_space_idemp.
Qed.

Lemma direct_ok e tenant req now s r :
  ok e → IssueGrantDirect (ed_store e) tenant req now = (s, Ok r) →
  ok (mkEdge s (ed_challenges e) (ed_proofs e) (ed_holds e) (ed_issued e)
        ((tenant, directGrant (ed_store e) tenant req now) :: ed_direct e)).
Proof.
  intros He. unfold IssueGrantDirect. destruct (negb _); [done|]. destruct (is_blank _); [done|].
  intros [= <- _]. split; cbn; [apply He..|].
  intros g t. rewrite held_issue. intros [Hg | Hg]%elem_of_app.
  - destruct (ok_held _ He _ _ Hg) as (g' & Hsame & [Hi | (t' & ? & ?)]); exists g'; split; auto.
    right. exists t'. split; [by right|done].
  - case_decide as Ht; [|by apply elem_of_nil in Hg]. apply list_elem_of_singleton in Hg as ->.
    eexists. split; [apply sameGrant_refl|]. right. exists tenant. split; [left|done].
Qed.

Lemma edge_step_ok e e' : ok e → step e e' → ok e'.
Proof.
  intros He []; [by eapply hold_ok|by eapply authorize_ok|by eapply issue_ok|by eapply direct_ok|..];
    apply ok_store; try done.
  - intros t g Hg. exists g. split; [by eapply held_revoke|apply sameGrant_refl].
  - intros t g. unfold TouchGrantIfSatisfied.
    destruct (negb _); [|destruct (negb _)]; try (intros Hg; exists g; split; [done|apply sameGrant_refl]).
    apply held_touch.
  - intros t g. match goal with H : ∀ t, held _ t = _ |- _ => rewrite H end.
    intros Hg. exists g. split; [done|apply sameGrant_refl].
Qed.

Lemma edge_reachable e e' : fresh e → rtc step e e' → ok e'.
Proof. intros Hf%ok_fresh. induction 1; eauto using edge_step_ok. Qed.

End edge.

(** ** What a matching grant says about the request *)

(** The bindings of a challenge that a request meets; an empty one binds nothing. *)
Record bindsTo (subject device destination protocol : string) (req : DecisionRequest) : Prop := {
  bind_subject : subject = "" ∨ subject = req_SubjectUserID req ∨ subject = req_UserID req;
  bind_device : device = "" ∨ device = AuthoritativeDeviceIdentity req;
  bind_destination : destination = "" ∨ destination = req_Destination req ∨ destination = req_ApplicationID req;
  bind_protocol : protocol = "" ∨ equal_fold protocol (trim_space (req_ServiceFamily req)) = true;
}.

Notation grantBinds g req :=
  (bindsTo (ewg_SubjectUserID g) (ewg_DeviceID g) (ewg_Destination g) (ewg_Protocol g) req).

Lemma bound_or_empty a b : nonempty a && negb (String.eqb a b) = false ↔ a = "" ∨ a = b.
Proof.
  unfold nonempty. destruct (is_empty a) eqn:He; cbn.
  - apply is_empty_true in He. naive_solver.
  - destruct (String.eqb_spec a b); cbn; [naive_solver|]. split; [done|].
    intros [-> | ?]; [done|contradiction].
Qed.

Lemma bound_or_empty2 a b c :
  nonempty a && negb (String.eqb a b) && negb (String.eqb a c) = false ↔ a = "" ∨ a = b ∨ a = c.
Proof.
  destruct (String.eqb_spec a b) as [-> | Hb]; [rewrite andb_false_r; naive_solver|].
  cbn [negb]. rewrite andb_true_r, bound_or_empty. naive_solver.
Qed.

Lemma ewg_matches_spec g req now :
  ewg_matches g req now = true ↔
  now < ewg_ExpiresAt g ∧
  (0 < ewg_IdleTTLSeconds g → time_sub now (ewg_LastUsedAt g) ≤ wrap64 (ewg_IdleTTLSeconds g * second)) ∧
  grantBinds g req.
Proof.
  transitivity (now < ewg_ExpiresAt g ∧
    (0 <? ewg_IdleTTLSeconds g) && (wrap64 (ewg_IdleTTLSeconds g * second) <? time_sub now (ewg_LastUsedAt g)) = false ∧
    nonempty (ewg_Protocol g) && negb (equal_fold (ewg_Protocol g) (trim_space (req_ServiceFamily req))) = false ∧
    nonempty (ewg_SubjectUserID g) && negb (String.eqb (ewg_SubjectUserID g) (req_SubjectUserID req))
      && negb (String.eqb (ewg_SubjectUserID g) (req_UserID req)) = false ∧
    nonempty (ewg_DeviceID g) && negb (String.eqb (ewg_DeviceID g) (AuthoritativeDeviceIdentity req)) = false ∧
    nonempty (ewg_Destination g) && negb (String.eqb (ewg_Destination g) (req_Destination req))
      && negb (String.eqb (ewg_Destination g) (req_ApplicationID req)) = false).
  { unfold ewg_matches. destruct (Z.ltb_spec now (ewg_ExpiresAt g)); cbn [negb]; [|split; [done|lia]].
    repeat match goal with |- context [if ?b then false else _] => destruct b; [split; [done|naive_solver]|] end.
    done. }
  rewrite bound_or_empty, !bound_or_empty2.
  assert (nonempty (ewg_Protocol g) && negb (equal_fold (ewg_Protocol g) (trim_space (req_ServiceFamily req))) = false
    ↔ ewg_Protocol g = "" ∨ equal_fold (ewg_Protocol g) (trim_space (req_ServiceFamily req)) = true) as ->.
  { unfold nonempty. destruct (is_empty (ewg_Protocol g)) eqn:He; cbn.
    - apply is_empty_true in He. naive_solver.
    - destruct (equal_fold _ _); cbn; [naive_solver|]. split; [done|]. intros [Heq | ?]; [by rewrite Heq in He|done]. }
  rewrite andb_false_iff, !Z.ltb_ge. split.
  - intros (? & Hidle & ? & ? & ? & ?). split_and!; [done| |by split]. intros ?. destruct Hidle; lia.
  - intros (? & Hidle & []). split_and!; try done.
    destruct (Z.le_gt_cases (ewg_IdleTTLSeconds g) 0); [by left|right; by apply Hidle].
Qed.

Section release.
Context `{MapOrder}.

(** ** The evaluator of a tenant works with the grants of the tenant *)

Lemma RuntimeEvaluator_tenant s base :
  bun_TenantID (ev_PolicyBundle (PolicyStore.RuntimeEvaluator s base)) = bun_TenantID (ev_PolicyBundle base).
Proof.
  unfold PolicyStore.RuntimeEvaluator, PolicyStore.compileTenantRestrictionsLocked. cbv zeta.
  by case_bool_decide.
Qed.

Lemma RuntimeEvaluator_grants (s : PolicyStore.Store) base :
  ewc_Grants (ev_EastWest base) = [] →
  ewc_Grants (ev_EastWest (PolicyStore.RuntimeEvaluator s base))
  = held s (trim_space (bun_TenantID (ev_PolicyBundle base))).
Proof.
  intros Hb. unfold PolicyStore.RuntimeEvaluator, PolicyStore.compileTenantRestrictionsLocked. cbv zeta.
  case_bool_decide; cbn; rewrite Hb; by case_match.
Qed.

Lemma RuntimeEvaluator_has_grant (s : PolicyStore.Store) base g :
  g ∈ held s (trim_space (bun_TenantID (ev_PolicyBundle base))) →
  g ∈ ewc_Grants (ev_EastWest (PolicyStore.RuntimeEvaluator s base)).
Proof.
  assert (∀ l l' : list EastWestGrant, g ∈ l → g ∈ match l with [] => l' | _ => l end) as Hor.
  { intros [|] l'; [by intros ?%elem_of_nil|done]. }
  unfold PolicyStore.RuntimeEvaluator, PolicyStore.compileTenantRestrictionsLocked. cbv zeta.
  case_bool_decide; apply Hor.
Qed.

(** Somebody of the tenant [T], and the user it names, logged in for the flow in the last day. *)
Definition authenticatedFor (e : edge PolicyStore.Store) (T : string) (req : DecisionRequest) (now : Z) : Prop :=
  ∃ h i, h ∈ ed_holds e ∧ i ∈ ed_issued e ∧ earned h i ∧ pf_TenantID (iss_Proof i) = T ∧
    now < iss_At i + eastWestGrantDefaultTTL ∧
    let c := ho_Challenge h in
    bindsTo (ch_SubjectUserID c) (ch_DeviceID c) (ch_Destination c) (ch_Protocol c) req.

(** An administrator of the tenant issued a grant that covers the flow. *)
Definition preauthorized (e : edge PolicyStore.Store) (T : string) (req : DecisionRequest) (now : Z) : Prop :=
  ∃ t g, (t, g) ∈ ed_direct e ∧ trim_space t = T ∧ now < ewg_ExpiresAt g ∧ grantBinds g req.

Lemma matching_grant_source (e0 e : edge PolicyStore.Store) T g req now :
  fresh e0 → rtc step e0 e → g ∈ held (ed_store e) T → ewg_matches g req now = true →
  authenticatedFor e T req now ∨ preauthorized e T req now.
Proof.
  intros Hf Hs Hg (Hexp & _ & Hb)%ewg_matches_spec.
  pose proof (edge_reachable _ _ Hf Hs) as He.
  destruct (ok_held _ He _ _ Hg) as (g' & [used ->] & [(i & Hi & -> & ->) | (t & Hd & ->)]).
  - left. destruct (ok_issued _ He _ Hi) as (_ & h & Hh & Hearn).
    pose proof Hearn as (Hp & Hc & _ & ttl & Httl & Hgr). rewrite Hgr in Hexp, Hb. cbn in Hexp, Hb.
    exists h, i. split_and!; [done..| | |done].
    + rewrite Hc. cbn. symmetry. apply Hp.
    + lia.
  - right. exists t, g'. by split_and!.
Qed.

(** (C16) On an Edge that started without grants, a lateral flow
    under an authenticate rule that is neither in its warning stage nor open to attested devices is
    only let through when a browser login of the tenant, by the user the challenge named if it
    named one, completed within five minutes a challenge of that tenant, less than a day ago,
    whose user, device, destination and protocol are those of the flow - as far as the challenge
    names them: what it leaves blank it does not bind, see [anonymous_ceremony_releases_every_user];
    or when an administrator of the tenant issued a grant that covers it in the same way.  The
    rule then asks for no federated proof and its workload attestation is there. *)
Theorem authenticate_means_authenticated (e0 e : edge PolicyStore.Store) base req id now r :
  let ev := PolicyStore.RuntimeEvaluator (ed_store e) base in
  let req' := decisionRequestWithSaaSContext (ev_PolicyBundle ev) req in
  let T := trim_space (bun_TenantID (ev_PolicyBundle base)) in
  fresh e0 → rtc step e0 e → ewc_Grants (ev_EastWest base) = [] →
  onServerPlane ev req' = false → onEastWestPlane ev req' = true →
  governs (ev_EastWest ev) req' r → folded (ewr_Mode r) = "authenticate" →
  ewr_Warn r = false → ewr_DeviceAttestedAuto r = false →
  dec_Decision (Evaluate ev req id now) = "allow" →
  ewNoCeremony r ∧ ewAttested r req' ∧
  (authenticatedFor e T req' now ∨ preauthorized e T req' now).
Proof.
  intros ev req' T Hf Hs Hb Hsrv Hew Hgov Hmode Hwarn Hauto. rewrite Evaluate_decision, evaluate_permitted.
  fold req'. intros [|_ _ Hallow%eastWest_allow_iff|]; [congruence| |congruence].
  apply (eastWestDecisionFor_governed _ _ _ r) in Hallow as [[? _]|(Hatt & [? | [_ Hallow]])];
    [congruence| congruence| |by apply matched_governs].
  apply eastWestAuthenticate_allow in Hallow as (Hno & [Hg | [? _]]); [|congruence].
  split_and!; [done..|]. apply hasValidEastWestGrant_spec in Hg as (g & Hin & Hm).
  unfold ev in Hin. rewrite RuntimeEvaluator_grants in Hin by done. by eapply matching_grant_source.
Qed.

(** ** A completed ceremony releases the flow *)

(** The texts a grant is bound to are written without padding. *)
Record tidy (req : DecisionRequest) : Prop := {
  tidy_subject : trim_space (req_SubjectUserID req) = req_SubjectUserID req;
  tidy_user : trim_space (req_UserID req) = req_UserID req;
  tidy_destination : trim_space (req_Destination req) = req_Destination req;
  tidy_application : trim_space (req_ApplicationID req) = req_ApplicationID req;
}.

Lemma tidy_or (a b : string) :
  trim_space a = a → trim_space b = b →
  trim_space (valueOrDefault a b) = a ∨ trim_space (valueOrDefault a b) = b.
Proof. intros Ha Hb. unfold valueOrDefault. case_match; rewrite ?Ha, ?Hb; auto. Qed.

Lemma challenge_binds_its_flow req :
  tidy req →
  bindsTo (trim_space (valueOrDefault (req_SubjectUserID req) (req_UserID req)))
    (AuthoritativeDeviceIdentity req)
    (trim_space (valueOrDefault (req_Destination req) (req_ApplicationID req)))
    (to_lower (trim_space (req_ServiceFamily req))) req.
Proof.
  intros []. split; [right; by apply tidy_or|by right|right; by apply tidy_or|].
  right. unfold equal_fold. by rewrite to_lower_idemp, String.eqb_refl.
Qed.

(** Only the grants of the plane change. *)
Lemma RuntimeEvaluator_issue s t g base :
  let ew := ev_EastWest (PolicyStore.RuntimeEvaluator s base) in
  let ew' := ev_EastWest (PolicyStore.RuntimeEvaluator (PolicyStore.IssueEastWestGrant s t g) base) in
  ew' = mkEWConfig (ewc_AllowUnmatched ew) (ewc_InternalNetworks ew) (ewc_Rules ew)
          (ewc_MaxGrantTTLSeconds ew) (ewc_Grants ew').
Proof.
  unfold PolicyStore.RuntimeEvaluator, PolicyStore.compileTenantRestrictionsLocked. cbv zeta. cbn.
  by case_bool_decide.
Qed.

(** The lateral plane of a store lets a flow through at a time. *)
Definition letThrough (s : PolicyStore.Store) (base : Evaluator) (req : DecisionRequest) (now : Z) : Prop :=
  out_Decision (eastWestDecisionFor (ev_EastWest (PolicyStore.RuntimeEvaluator s base)) req now) = "allow".

(** (C34) A held flow is released by its ceremony, under a rule that asks for no federated proof:
    when the user the flow named, or anyone of the tenant if it named none, completes the login
    within five minutes of the second the flow was held in, the challenge is accepted and the
    flow, sent again over the same store and with the workload attestation the rule asks for, is
    let through until the lifetime the rules and the tenant leave to the grant has passed.  The
    user and the destination of the flow are texts without padding. *)
Theorem completed_ceremony_releases s base cs req t0 random challenges c user t1 now r :
  let T := trim_space (req_TenantID req) in
  year_zero ≤ t0 + AuthChallengeTTL < year_10000 → tidy req → T ≠ "" →
  trim_space (bun_TenantID (ev_PolicyBundle base)) = T →
  Create cs (BuildAuthChallenge req) t0 random = (challenges, c) →
  ch_SubjectUserID c = "" ∨ ch_SubjectUserID c = user →
  t1 < t0 / second * second + AuthChallengeTTL →
  governs (ev_EastWest (PolicyStore.RuntimeEvaluator s base)) req r →
  folded (ewr_Mode r) = "authenticate" → ewAttested r req → ewNoCeremony r →
  now < ewg_ExpiresAt (challengeGrant s c t1) →
  ∃ s' challenges' answer,
    CompleteCeremony s challenges (ch_ID c) T user t1 = (s', challenges', Ok answer) ∧
    letThrough s' base req now.
Proof.
  intros T Hyear Htidy HT Hbase Hcr Huser Hin Hgov Hmode Hatt Hno Hnow.
  destruct (Create_spec cs (BuildAuthChallenge req) t0 random) as [Heq Hid]. rewrite Heq in Hcr.
  apply (inj2 pair) in Hcr as [Hcs Hc]. rewrite Hc in Hcs, Hid.
  assert (challenges !! trim_space (ch_ID c) = Some c) as Hl.
  { rewrite Hid, newID_trimmed, <- Hcs. apply lookup_insert_eq. }
  assert (is_blank T = false) as HTb.
  { unfold is_blank, T. rewrite trim_space_idemp. destruct (is_empty (trim_space _)) eqn:He; [|done].
    by apply is_empty_true in He. }
  assert (ch_Status c = "pending" ∧ ch_TenantID c = T) as [Hst Ht] by (by rewrite <- Hc).
  assert (authorizeCeremony challenges (ch_ID c) T user = Ok tt) as Hauth
    by (apply authorizeCeremony_ok; by exists c).
  assert (Complete challenges (ch_ID c) t1 = (<[ch_ID c := completed c]> challenges, Some (completed c))) as Hcomp.
  { apply Complete_spec. exists c. split_and!; [done..| |done|done].
    rewrite <- Hc, unexpired_created by done. lia. }
  unfold CompleteCeremony, issueGrantFromChallenge. rewrite Hauth, Hcomp.
  eexists _, _, _. split; [done|].
  change (ch_TenantID (completed c)) with (ch_TenantID c). rewrite Ht.
  change (challengeGrant s (completed c) t1) with (challengeGrant s c t1).
  set (g := challengeGrant s c t1) in *.
  assert (g ∈ ewc_Grants (ev_EastWest (PolicyStore.RuntimeEvaluator (IssueEastWestGrant s T g) base))) as Hg.
  { apply RuntimeEvaluator_has_grant. rewrite Hbase. rewrite held_issue, decide_True;
      [apply elem_of_app; right; left|]. unfold T. by rewrite trim_space_idemp. }
  apply (eastWestDecisionFor_governed _ _ _ r).
  { apply matched_governs. cbn [IssueEastWestGrant Store_GrantStore]. rewrite RuntimeEvaluator_issue. exact Hgov. }
  right. split; [done|]. right. split; [done|]. apply eastWestAuthenticate_allow. split; [done|]. left.
  apply hasValidEastWestGrant_spec. exists g. split; [exact Hg|]. apply ewg_matches_spec. split_and!; [done|done|].
  unfold g. rewrite <- Hc. by apply challenge_binds_its_flow.
Qed.

End release.

(** In every state of an Edge that started empty, each grant a tenant
    holds was issued by an administrator or earned by a login for a held flow of that tenant, in
    time and for at most a day, and no challenge has earned two grants. *)
Theorem challenge_spent_once {S} `{GrantLedger S} (e0 e : edge S) :
  fresh e0 → rtc step e0 e →
  NoDup (List.map (fun i => ch_ID (iss_Challenge i)) (ed_issued e)) ∧
  ∀ t g, g ∈ held (ed_store e) t →
    (∃ h i, h ∈ ed_holds e ∧ i ∈ ed_issued e ∧ earned h i ∧ sameGrant g (iss_Grant i) ∧
       trim_space (req_TenantID (ho_Request h)) = t) ∨
    (∃ t' g', (t', g') ∈ ed_direct e ∧ sameGrant g g' ∧ trim_space t' = t).
Proof.
  intros Hf Hs. pose proof (edge_reachable _ _ Hf Hs) as He. split; [apply He|].
  intros t g (g' & Hsame & [(i & Hi & -> & ->) | (t' & Hd & ->)])%(ok_held _ He); [left|right; eauto].
  destruct (ok_issued _ He _ Hi) as (_ & h & Hh & Hearn). exists h, i. split_and!; [done..|].
  destruct Hearn as (_ & -> & _). destruct (ok_holds _ He _ Hh) as [(_ & random & ->) _]. done.
Qed.

(** ** The posture an administrator sets *)

Section posture.
Context `{MapOrder}.

(** A confirmed edit is what the process works with and what a restart reads. *)
Lemma edit_confirmed {T} b s stored w
    (edit : PolicyStore.adminPolicyRuntimeStateFile →
            result PolicyStore.error (PolicyStore.adminPolicyRuntimeStateFile * T)) s' disk t :
  PolicyStore.editRuntimeLocked b s stored w edit = (s', disk, Ok t) →
  ∃ f f', edit f = Ok (f', t) ∧ PolicyStore.ps_runtime s' = PolicyStore.json_runtime f' ∧
    (b ≠ Memory → ∃ r d, disk = Some r ∧ PolicyStore.decodeRuntimeState r = Ok (PolicyStore.ps_runtime s', d)).
Proof.
  assert (∀ stored data next t', PolicyStore.build s edit stored = Ok (data, next, t') →
    ∃ f f', edit f = Ok (f', t') ∧ next = PolicyStore.json_runtime f' ∧
      ∃ d, PolicyStore.decodeRuntimeState data = Ok (next, d)) as Hbuild.
  { intros st data next t' (r & f0 & d & f' & _ & _ & Hed & Hr & -> & ->)%PolicyFleet.build_ok.
    exists f0, f'. split_and!; [done|done|]. eexists. by apply PolicyStore.decode_marshal. }
  unfold PolicyStore.editRuntimeLocked. destruct b.
  - destruct (PolicyStore.build _ _ _) as [[[data next] t']|e] eqn:Hb; [|done]. intros [= <- _ ->].
    destruct (Hbuild _ _ _ _ Hb) as (f & f' & ? & -> & _). by exists f, f'.
  - destruct (PolicyStore.build _ _ _) as [[[data next] t']|e] eqn:Hb; [|done].
    destruct w; try done. intros [= <- <- ->].
    destruct (Hbuild _ _ _ _ Hb) as (f & f' & ? & -> & d & ?). exists f, f'. split_and!; eauto.
  - destruct w; try done; (destruct (PolicyStore.build _ _ _) as [[[data next] t']|e] eqn:Hb; [|done]); try done.
    intros [= <- <- ->]. destruct (Hbuild _ _ _ _ Hb) as (f & f' & ? & -> & d & ?). exists f, f'. split_and!; eauto.
Qed.

(** A rule as it is kept. *)
Definition canonicalRule (r : adminRule) : adminRule :=
  r <| ar_ID := trim_space (ar_ID r) |> <| ar_Mode := to_lower (trim_space (ar_Mode r)) |>.

Lemma rule_back r m : adminRuleToModel r = Ok m → adminRuleFromModel m = canonicalRule r.
Proof.
  unfold adminRuleToModel. destruct (negb _); [done|]. destruct (List.find _ _); [done|]. by intros [= <-].
Qed.

Lemma rules_back rules : ∀ i parsed,
  parseRules i rules = Ok parsed → List.map adminRuleFromModel parsed = List.map canonicalRule rules.
Proof.
  induction rules as [|r rules IH]; intros i parsed; cbn [parseRules]; [by intros [= <-]|].
  destruct (adminRuleToModel r) as [m|e] eqn:Hm; [|done].
  destruct (parseRules (Datatypes.S i) rules) as [ms|e] eqn:Hr; [|done]. intros [= <-]. cbn.
  by rewrite (rule_back _ _ Hm), (IH _ _ Hr).
Qed.

(** The posture a request asks for, if it asks for one. *)
Definition postureAsked (req : AdminUpdateRequest) : option string :=
  match au_Mode req with
  | Some mode => Some (to_lower (trim_space mode))
  | None => (fun enabled : bool => if enabled then ModeFull else ModeObserve) <$> au_Enabled req
  end.

Lemma posture_flags req enabled unmatched mode :
  postureFlags req = Ok (enabled, unmatched) → postureAsked req = Some mode →
  ∃ e, enabled = Some e ∧ ∀ u, modeFor e (default u unmatched) = mode.
Proof.
  unfold postureFlags, postureAsked. destruct (au_Mode req) as [m|].
  - cbn [switch containsString existsb]. rewrite !orb_false_r.
    destruct (String.eqb_spec ModeObserve (to_lower (trim_space m))) as [<- |];
      [intros [= <- <-] [= <-]; by exists false|].
    destruct (String.eqb_spec ModePartial (to_lower (trim_space m))) as [<- |];
      [intros [= <- <-] [= <-]; by exists true|].
    destruct (String.eqb_spec ModeFull (to_lower (trim_space m))) as [<- |];
      [intros [= <- <-] [= <-]; by exists true|done].
  - destruct (au_Enabled req) as [[]|]; intros [= <- <-] [= <-]; [by exists true|by exists false].
Qed.

Lemma get_trimmed {A} (zero : A) m tenant v :
  PolicyStore.get zero (<[trim_space tenant := v]> m) (trim_space tenant) = v.
Proof. unfold PolicyStore.get. by rewrite lookup_insert_eq. Qed.

(** An acknowledged change of the lateral plane is in force and stored: the
    status that is answered is the one of the process, with the posture, the rules (identifier
    trimmed, mode in lower case) and the ceiling the request named, and the process holds exactly
    what a restart or another control plane reads. *)
Theorem posture_acknowledged b s stored w tenant req s' disk st :
  ApplyAdminUpdateContext b s stored w tenant req = (s', disk, Ok st) →
  st = AdminStatus s' tenant ∧
  (∀ mode, postureAsked req = Some mode → as_Mode st = mode) ∧
  (∀ rules, au_Rules req = Some rules → as_Rules st = List.map canonicalRule rules) ∧
  (∀ n, au_MaxGrantTTLSeconds req = Some n → as_MaxGrantTTLSeconds st = Z.max 0 n) ∧
  (b ≠ Memory → ∃ r d, disk = Some r ∧
     PolicyStore.decodeRuntimeState r = Ok (PolicyStore.ps_runtime s', d)).
Proof.
  unfold ApplyAdminUpdateContext.
  set (parsed := match au_Rules req with None => Ok None | Some raws => _ end).
  destruct parsed as [rules|e] eqn:Hrules; [|done].
  destruct (postureFlags req) as [[enabled unmatched]|e] eqn:Hflags; [|done].
  destruct (PolicyStore.ApplyEastWestUpdateContext _ _ _ _ _ _ _ _ _) as [[s1 disk1] [u|e]] eqn:He; [|done].
  intros [= <- <- <-]. apply edit_confirmed in He as (f & f' & Hf & Hrt & Hdisk). injection Hf as <- _.
  split; [done|]. unfold AdminStatus, PolicyStore.EastWestIsEnabled, PolicyStore.EastWestAllowsUnmatched,
    PolicyStore.EastWestRulesFor, PolicyStore.EastWestMaxGrantTTL. cbv zeta. cbn [as_Mode as_Rules as_MaxGrantTTLSeconds].
  rewrite Hrt. split_and!; [..|by rewrite <- Hrt].
  - intros mode Hmode. destruct (posture_flags _ _ _ _ Hflags Hmode) as (e & -> & Hm). cbn.
    rewrite get_trimmed. destruct unmatched as [u0|]; cbn; [rewrite get_trimmed|]; [by apply (Hm u0)|apply Hm].
  - intros raws Hraws. unfold parsed in Hrules. rewrite Hraws in Hrules.
    destruct (parseRules 0 raws) as [ms|e] eqn:Hp; [|done]. injection Hrules as <-. cbn.
    rewrite get_trimmed. by eapply rules_back.
  - intros n ->. cbn. by rewrite get_trimmed.
Qed.

End posture.

(** ** A small deployment *)

Section examples.

#[local] Instance listOrder : MapOrder := { iterate A l := l; iterate_perm A l := reflexivity l }.

#[local] Existing Instances PolicyStore.runtimeState_eta PolicyStore.Store_eta.

Definition sshRule : EastWestRule :=
  zero_EastWestRule <| ewr_ID := "ssh" |> <| ewr_Protocols := ["ssh"] |> <| ewr_Mode := "authenticate" |>.
Definition office : PolicyStore.Store :=
  (PolicyStore.NewStore [] 0) <| PolicyStore.ps_runtime := PolicyStore.emptyRuntime
    <| PolicyStore.rt_EastWestEnabled := {[ "t" := true ]} |>
    <| PolicyStore.rt_EastWestRules := {[ "t" := [sshRule] ]} |> |>.
Definition officeBase : Evaluator :=
  mkEvaluator [] (zero_PolicyBundle <| bun_TenantID := "t" |>) "" "" false
    (mkEWConfig false (mkInternalNetworks [] []) [] 0 []) false [] ∅.
Definition sshFlow : DecisionRequest :=
  zero_DecisionRequest <| req_TenantID := "t" |> <| req_SubjectUserID := "alice" |>
    <| req_TransportDeviceIdentity := "laptop" |> <| req_Destination := "10.0.0.5" |>
    <| req_ServiceFamily := "ssh" |>.
Definition noon : Z := 1700000000 * second.
Definition decisionOf (s : PolicyStore.Store) (req : DecisionRequest) (now : Z) : string :=
  dec_Decision (Evaluate (PolicyStore.RuntimeEvaluator s officeBase) req "d1" now).

(** The flow is held, and alice logs in a minute later. *)
Definition heldOut := Create ∅ (BuildAuthChallenge sshFlow) noon (Some "0123456789abcdef").
Definition releasedOut :=
  CompleteCeremony office heldOut.1 (ch_ID heldOut.2) "t" "alice" (noon + 60 * second).
Definition released : PolicyStore.Store := releasedOut.1.1.

Example ceremony_in_time :
  decisionOf office sshFlow noon = "authenticate_required" ∧
  decisionOf released sshFlow (noon + 3600 * second) = "allow" ∧
  decisionOf released sshFlow (noon + 90000 * second) = "authenticate_required" ∧
  decisionOf released (sshFlow <| req_SubjectUserID := "bob" |>) (noon + 3600 * second)
    = "authenticate_required".
Proof. vm_compute. done. Qed.

Definition edge0 : edge PolicyStore.Store := mkEdge office ∅ [] [] [] [].
Definition aliceProof : proof := mkProof (ch_ID heldOut.2) "t" "alice".
Definition edge2 : edge PolicyStore.Store :=
  mkEdge office heldOut.1 [aliceProof] [mkHold sshFlow noon heldOut.2] [] [].
Definition edge3 : edge PolicyStore.Store :=
  mkEdge released releasedOut.1.2 [aliceProof] [mkHold sshFlow noon heldOut.2]
    [mkIssuance aliceProof (noon + 60 * second) (completed heldOut.2)
       (challengeGrant office (completed heldOut.2) (noon + 60 * second))] [].

Lemma edge0_fresh : fresh edge0.
Proof. by split_and!. Qed.

Lemma edge3_reached : rtc step edge0 edge3.
Proof.
  eapply rtc_l; [|eapply rtc_l; [|apply rtc_once]].
  - apply (step_hold edge0 sshFlow noon (Some "0123456789abcdef") heldOut.1 heldOut.2).
    + unfold year_zero, year_10000, AuthChallengeTTL, noon, second. lia.
    + reflexivity.
    + apply surjective_pairing.
  - apply (step_authorize _ (ch_ID heldOut.2) "t" "alice"). vm_compute. reflexivity.
  - destruct releasedOut.2 as [r|] eqn:Hr; [|exfalso; vm_compute in Hr; discriminate].
    apply (step_issue edge2 aliceProof (noon + 60 * second) (completed heldOut.2) released releasedOut.1.2 r).
    + left.
    + vm_compute. reflexivity.
    + rewrite <- Hr. vm_compute. reflexivity.
Qed.

Lemma authenticate_means_authenticated_witness :
  let ev := PolicyStore.RuntimeEvaluator (ed_store edge3) officeBase in
  let req := decisionRequestWithSaaSContext (ev_PolicyBundle ev) sshFlow in
  let T := trim_space (bun_TenantID (ev_PolicyBundle officeBase)) in
  let now := noon + 3600 * second in
  dec_Decision (Evaluate ev sshFlow "d1" now) = "allow" ∧
  (authenticatedFor edge3 T req now ∨ preauthorized edge3 T req now).
Proof.
  intros ev req T now.
  assert (dec_Decision (Evaluate ev sshFlow "d1" now) = "allow") as Hallow by (vm_compute; reflexivity).
  assert (governs (ev_EastWest ev) req sshRule) as Hgov by (apply matched_governs; vm_compute; reflexivity).
  split; [exact Hallow|].
  exact (proj2 (proj2 (authenticate_means_authenticated edge0 edge3 officeBase sshFlow "d1" now sshRule
    edge0_fresh edge3_reached eq_refl ltac:(vm_compute; reflexivity) ltac:(vm_compute; reflexivity) Hgov
    ltac:(vm_compute; reflexivity) eq_refl eq_refl Hallow))).
Defined.

Lemma challenge_spent_once_witness :
  ∃ h, h ∈ ed_holds edge3 ∧ trim_space (req_TenantID (ho_Request h)) = "t".
Proof.
  destruct (proj2 (challenge_spent_once edge0 edge3 edge0_fresh edge3_reached) "t"
    (challengeGrant office (completed heldOut.2) (noon + 60 * second))) as [(h & i & Hh & _ & _ & _ & Ht)|(t & g & Hd & _)].
  - vm_compute. left.
  - exists h. split; [exact Hh|exact Ht].
  - exfalso. inversion Hd.
Defined.

Lemma completed_ceremony_releases_witness :
  ∃ s' challenges' answer,
    CompleteCeremony office heldOut.1 (ch_ID heldOut.2) "t" "alice" (noon + 60 * second) = (s', challenges', Ok answer) ∧
    letThrough s' officeBase sshFlow (noon + 3600 * second).
Proof.
  assert (governs (ev_EastWest (PolicyStore.RuntimeEvaluator office officeBase)) sshFlow sshRule) as Hgov
    by (apply matched_governs; vm_compute; reflexivity).
  refine (completed_ceremony_releases office officeBase ∅ sshFlow noon (Some "0123456789abcdef") heldOut.1 heldOut.2
    "alice" (noon + 60 * second) (noon + 3600 * second) sshRule _ _ _ _ _ _ _ Hgov _ _ _ _).
  - unfold year_zero, year_10000, AuthChallengeTTL, noon, second. lia.
  - split; vm_compute; reflexivity.
  - vm_compute. discriminate.
  - vm_compute. reflexivity.
  - vm_compute. reflexivity.
  - right. vm_compute. reflexivity.
  - vm_compute. reflexivity.
  - vm_compute. reflexivity.
  - intros Hr. vm_compute in Hr. discriminate Hr.
  - vm_compute. split_and!; reflexivity.
  - vm_compute. reflexivity.
Defined.

(** Partial enforcement with one rule, saved to the shared document. *)
Definition partialUpdate : AdminUpdateRequest :=
  mkAdminUpdate (Some " Partial") None
    (Some [mkAdminRule " db " 10 ["alice"] [] ["10.0.0.5"] ["database"] "Deny" 0 false]) (Some 3600).
Definition partialOut := ApplyAdminUpdateContext Updating office None Written "t" partialUpdate.

Lemma posture_acknowledged_witness :
  ∃ st, partialOut.2 = Ok st ∧ as_Mode st = "partial" ∧
    as_Rules st = [mkAdminRule "db" 10 ["alice"] [] ["10.0.0.5"] ["database"] "deny" 0 false].
Proof.
  destruct partialOut.2 as [st|e] eqn:Ho; [|exfalso; vm_compute in Ho; discriminate Ho].
  assert (partialOut = (partialOut.1.1, partialOut.1.2, Ok st)) as Hout
    by (rewrite <- Ho; destruct partialOut as [[? ?] ?]; reflexivity).
  destruct (posture_acknowledged Updating office None Written "t" partialUpdate _ _ st Hout) as (_ & Hm & Hr & _).
  exists st. split; [reflexivity|]. split; [exact (Hm "partial" eq_refl)|exact (Hr _ eq_refl)].
Defined.

(** *** Where the code departs from its comments *)

(** A flow that names no user: the grant is bound to no user either, not to the one who logged
    in, and on an unmanaged device every user of the tenant is released by it. *)
Definition anonymousFlow : DecisionRequest :=
  sshFlow <| req_SubjectUserID := "" |> <| req_TransportDeviceIdentity := "" |>.
Definition anonymousOut := Create ∅ (BuildAuthChallenge anonymousFlow) noon (Some "0123456789abcdef").
Definition anonymousReleased : PolicyStore.Store :=
  (CompleteCeremony office anonymousOut.1 (ch_ID anonymousOut.2) "t" "alice" (noon + 60 * second)).1.1.

Example anonymous_ceremony_releases_every_user :
  decisionOf anonymousReleased (sshFlow <| req_SubjectUserID := "mallory" |>) (noon + 3600 * second) = "allow".
Proof. vm_compute. reflexivity. Qed.

(** The lifetime a compiled authored rule sets does not shorten the grant. *)
Definition authoredRule : EastWestRule := sshRule <| ewr_MaxTTLSeconds := 60 |>.
Definition authoredOffice : PolicyStore.Store :=
  PolicyStore.SetCompiledEastWestRules (office <| PolicyStore.ps_runtime := PolicyStore.emptyRuntime
    <| PolicyStore.rt_EastWestEnabled := {[ "t" := true ]} |> |>) "t" [authoredRule].

Example authored_lifetime_ignored :
  MatchedEastWestRule (PolicyStore.EffectiveEastWestRules authoredOffice "t") sshFlow = Some authoredRule ∧
  decisionOf (CompleteCeremony authoredOffice heldOut.1 (ch_ID heldOut.2) "t" "alice" noon).1.1 sshFlow
    (noon + 3600 * second) = "allow".
Proof. vm_compute. done. Qed.

(** The idle timer of a grant for a device is not reset by the flows of that device: the timer
    looks at the identifier the client sends, the release at the one its transport proves. *)
Definition idleGrant : AdminGrantIssueRequest := mkAdminGrant "alice" "laptop" "10.0.0.5" "ssh" 7200 600.
Definition idleOffice : PolicyStore.Store := (IssueGrantDirect office "t" idleGrant noon).1.
Definition touchedOffice : PolicyStore.Store :=
  let now := noon + 500 * second in
  TouchGrantIfSatisfied idleOffice sshFlow
    (Evaluate (PolicyStore.RuntimeEvaluator idleOffice officeBase) sshFlow "d1" now) now.

Example attested_use_does_not_keep_the_grant :
  decisionOf idleOffice sshFlow (noon + 500 * second) = "allow" ∧
  decisionOf touchedOffice sshFlow (noon + 700 * second) = "authenticate_required".
Proof. vm_compute. done. Qed.

End examples.

End EastWestRelease.
