(* ===== verification/AuthLedger.v ===== *)
(** * Ledgers of authorisations ([src/humanapproval/shared.go], [src/delegatedgrant/shared.go])

    Approvals and delegated grants are kept the same way: rows by tenant and identifier, edited
    on the latest document of a shared persister, with local denials that outlive a failed save.
    What the two stores do not share is behind the class [AuthRow]: how a row is denied, what
    becomes of rows that cannot be attributed, and what a publication counts. *)

From Stdlib Require Import Ascii.
From stdpp Require Import base gmap fin_maps list strings.
From S2P Require Import Prelude Trimmed GoStd Persistence.

Open Scope Z_scope.

Module AuthLedger.

(** ** Keys *)

Definition nul : string := String Ascii.zero "".
Definition no_nul (s : string) : bool := all_bytes (fun c => negb (Ascii.eqb c Ascii.zero)) s.

Definition authKey (tenant id : string) : string := tenant +:+ nul +:+ id.

Definition validKey (tenant id : string) : bool :=
  nonempty tenant && nonempty id && String.eqb (trim_space tenant) tenant
  && String.eqb (trim_space id) id && no_nul tenant && no_nul id.

Lemma authKey_inj t i t' i' :
  validKey t i = true → validKey t' i' = true → authKey t i = authKey t' i' → t = t' ∧ i = i'.
Proof. unfold validKey. rewrite !andb_true_iff. intros [[] ?] [[] ?]. by apply (separator_inj Ascii.zero). Qed.

Lemma validKey_trimmed t i : validKey t i = true → trim_space t = t ∧ trim_space i = i.
Proof. unfold validKey. rewrite !andb_true_iff, !String.eqb_eq. tauto. Qed.

Lemma validKey_nonempty t i : validKey t i = true → t ≠ "" ∧ i ≠ "".
Proof. unfold validKey, nonempty, is_empty. rewrite !andb_true_iff, !negb_true_iff, !String.eqb_neq. tauto. Qed.

(** ** Rows *)

Class AuthRow (R Reason Extra : Type) := {
  rowTenant : R → string;
  rowID : R → string;
  rowRevoked : R → bool;
  rereadRow : R → R;                                  (* read back from its JSON *)
  denyRow : Reason → R → R;
  skipsInvalid : bool;
  counted : gmap string R → gmap string R → Extra → Extra;
}.

Class AuthRowLaws (R Reason Extra : Type) `{AuthRow R Reason Extra} : Prop := {
  reread_tenant r : rowTenant (rereadRow r) = rowTenant r;
  reread_id r : rowID (rereadRow r) = rowID r;
  reread_revoked r : rowRevoked (rereadRow r) = rowRevoked r;
  deny_tenant q r : rowTenant (denyRow q r) = rowTenant r;
  deny_id q r : rowID (denyRow q r) = rowID r;
  deny_revoked q r : rowRevoked (denyRow q r) = true;
}.

(** What stops an operation. *)
Inductive error :=
  | NoChange | ErrPersistence | ErrCapacity | InvalidKey | PendingDenial | BadTransition
  | Ambiguous | ErrAbsent | RetainedTerminal
  | LoadFailed | AuthorityDisappeared | InvalidSnapshot.

(** A stored payload: rows by saved key, or nothing the package can read. *)
Inductive document (R : Type) := Unreadable | Document (saved : gmap string R).
Arguments Unreadable {R}.
Arguments Document {R} saved.

Record ledger (R Reason Extra : Type) := mkLedger {
  rows : gmap string R;
  capacity : Z;
  authorityKnown : bool;
  pendingRevocations : gmap string Reason;
  extra : Extra;
}.
Arguments mkLedger {R Reason Extra}.
Arguments rows {R Reason Extra}.
Arguments capacity {R Reason Extra}.
Arguments authorityKnown {R Reason Extra}.
Arguments pendingRevocations {R Reason Extra}.
Arguments extra {R Reason Extra}.

#[export] Instance ledger_eta R Q X : Etaable (ledger R Q X) := fun l =>
  mkLedger (rows l) (capacity l) (authorityKnown l) (pendingRevocations l) (extra l).

Section ledger.
Context {R Reason Extra : Type} `{AuthRow R Reason Extra}.

Notation rowsMap := (gmap string R).
Notation store := (ledger R Reason Extra).

Definition keyOf (r : R) : string := authKey (rowTenant r) (rowID r).

(** A saved row under its identifier or its full key, once. *)
Definition restoreRow (savedKey : string) (r : R) (fresh : option rowsMap) : option rowsMap :=
  match fresh with
  | None => None
  | Some fresh =>
      if negb (String.eqb savedKey (rowID r)) && negb (String.eqb savedKey (keyOf r)) then None
      else if negb (validKey (rowTenant r) (rowID r))
      then (if skipsInvalid then Some fresh else None)
      else match fresh !! keyOf r with
           | Some _ => None
           | None => Some (<[keyOf r := r]> fresh)
           end
  end.

Definition decodeSnapshot (d : document R) : option rowsMap :=
  match d with
  | Unreadable => None
  | Document saved => map_fold restoreRow (Some ∅) saved
  end.

(** [json.Marshal], as it will be read back. *)
Definition marshal (next : rowsMap) : document R := Document (rereadRow <$> next).

Definition applyPending (pending : gmap string Reason) (next : rowsMap) : rowsMap :=
  map_imap (fun key r => Some (match pending !! key with
                               | Some reason => denyRow reason r
                               | None => r
                               end)) next.

Definition publish (next : rowsMap) (l : store) : store :=
  l <| extra := counted (rows l) next (extra l) |> <| rows := next |>.

Definition isRevoked (next : rowsMap) (key : string) : bool :=
  match next !! key with Some r => rowRevoked r | None => false end.

(** The denials that [next] does not carry. *)
Definition unconfirmed (next : rowsMap) (pending : gmap string Reason) : gmap string Reason :=
  map_imap (fun key reason => if isRevoked next key then None else Some reason) pending.

(** What an edit starts from, and whether the authority is known then. *)
Definition latest (b : backing) (l : store) (stored : option (document R)) : option (rowsMap * bool) :=
  match b with
  | Updating =>
      match stored with
      | None => if authorityKnown l then None else Some (rows l, false)
      | Some d => match decodeSnapshot d with Some next => Some (next, true) | None => None end
      end
  | _ => match decodeSnapshot (marshal (rows l)) with
         | Some next => Some (next, authorityKnown l)
         | None => None
         end
  end.

Definition committed (b : backing) (next : rowsMap) (l : store) : store :=
  publish next l <| pendingRevocations := unconfirmed next (pendingRevocations l) |>
    <| authorityKnown := match b with Memory => authorityKnown l | _ => true end |>.

(** [cancelled] is whether the context is done already; the edit returns what it
    captured with its result, and the third component is nothing when it did not run. *)
Definition editLocked {T} (b : backing) (cancelled : bool) (l : store) (stored : option (document R))
    (w : write_outcome) (edit : rowsMap → T * result error rowsMap)
    : store * option (document R) * option T * result error unit :=
  let unreached := match b, w with Updating, Unavailable => true | _, _ => false end in
  if cancelled || unreached then (l, stored, None, Err ErrPersistence) else
  match latest b l stored with
  | None => (l, stored, None, Err ErrPersistence)
  | Some (next, known) =>
      let l := l <| authorityKnown := known |> in
      let next := applyPending (pendingRevocations l) next in
      let '(t, outcome) := edit next in
      match outcome with
      | Err NoChange => (publish next l, stored, Some t, Ok tt)
      | Err e => (l, stored, Some t, Err e)
      | Ok next =>
          match b with
          | Memory => (committed b next l, stored, Some t, Ok tt)
          | _ =>
              let disk := diskAfter w stored (marshal next) in
              match w with
              | Written => (committed b next l, disk, Some t, Ok tt)
              | _ => (l, disk, Some t, Err ErrPersistence)
              end
          end
      end
  end.

(** [loaded] is nothing when [Load] fails. *)
Definition RefreshShared (b : backing) (l : store) (loaded : option (option (document R)))
    : store * result error unit :=
  match b with
  | Updating =>
      match loaded with
      | None => (l, Err ErrPersistence)
      | Some None => if authorityKnown l then (l, Err ErrPersistence) else (l, Ok tt)
      | Some (Some d) =>
          match decodeSnapshot d with
          | None => (l, Err ErrPersistence)
          | Some next =>
              (publish (applyPending (pendingRevocations l) next) l <| authorityKnown := true |>, Ok tt)
          end
      end
  | _ => (l, Ok tt)
  end.

(** The persister is installed exactly when the answer is [Ok]. *)
Definition SetPersister (b : backing) (l : store) (loaded : option (option (document R)))
    : store * result error unit :=
  match b with
  | Memory => (l <| authorityKnown := false |>, Ok tt)
  | _ =>
      match loaded with
      | None => (l, Err LoadFailed)
      | Some None => if authorityKnown l then (l, Err AuthorityDisappeared) else (l, Ok tt)
      | Some (Some d) =>
          match decodeSnapshot d with
          | None => (l, Err InvalidSnapshot)
          | Some next =>
              (publish (applyPending (pendingRevocations l) next) l <| authorityKnown := true |>, Ok tt)
          end
      end
  end.

Definition NewStore (capacity : Z) (x : Extra) : store := mkLedger ∅ capacity false ∅ x.

Definition rowsList (l : store) : list R := (map_to_list (rows l)).*2.

Definition Count (l : store) : Z := Z.of_nat (size (rows l)).

(** The one row with an identifier: the lookup without a tenant refuses shared ones. *)
Definition withID (id : string) (next : rowsMap) : list (string * R) :=
  List.filter (fun kr => String.eqb (rowID kr.2) id) (map_to_list next).

Definition Get (b : backing) (l : store) (loaded : option (option (document R))) (id : string)
    : store * option R :=
  match RefreshShared b l loaded with
  | (l, Err _) => (l, None)
  | (l, Ok _) => (l, match withID id (rows l) with [(_, r)] => Some r | _ => None end)
  end.

Definition GetForTenant (b : backing) (l : store) (loaded : option (option (document R)))
    (tenant id : string) : store * option R :=
  match RefreshShared b l loaded with
  | (l, Err _) => (l, None)
  | (l, Ok _) => (l, if validKey tenant id then rows l !! authKey tenant id else None)
  end.

Definition GetForTenantContext (b : backing) (cancelled : bool) (l : store)
    (loaded : option (option (document R))) (tenant id : string) : store * result error (option R) :=
  if cancelled then (l, Err ErrPersistence) else
  match RefreshShared b l loaded with
  | (l, Err e) => (l, Err e)
  | (l, Ok _) => (l, Ok (if validKey tenant id then rows l !! authKey tenant id else None))
  end.

(** The key an edit addresses: of a tenant, or the only row with the identifier. *)
Definition targetKey (tenant id : string) (next : rowsMap) : result error string :=
  if is_empty tenant
  then match withID id next with
       | [] => Ok ""
       | [(k, _)] => Ok k
       | _ => Err Ambiguous
       end
  else Ok (authKey tenant id).

(** ** What the functions keep *)

Context `{!AuthRowLaws R Reason Extra}.

Definition keyed (m : rowsMap) : Prop :=
  ∀ k r, m !! k = Some r → validKey (rowTenant r) (rowID r) = true ∧ k = keyOf r.

(** Whatever is under the key is revoked. *)
Definition denies (m : rowsMap) (k : string) : Prop := ∀ r, m !! k = Some r → rowRevoked r = true.

Lemma revoked_denies m k : isRevoked m k = true → denies m k.
Proof. unfold isRevoked. intros Hr r Hk. by rewrite Hk in Hr. Qed.

Lemma isRevoked_insert m k k' r :
  isRevoked (<[k := r]> m) k' = if decide (k = k') then rowRevoked r else isRevoked m k'.
Proof. unfold isRevoked. rewrite lookup_insert. by case_decide. Qed.

Lemma keyed_insert m r : validKey (rowTenant r) (rowID r) = true → keyed m → keyed (<[keyOf r := r]> m).
Proof. intros Hv Hm k r' [[<- <-]|[_ ?]]%lookup_insert_Some; [done|by apply Hm]. Qed.

Lemma keyed_empty : keyed ∅.
Proof. by intros k r ?%lookup_empty_Some. Qed.

Lemma keyOf_reread r : keyOf (rereadRow r) = keyOf r.
Proof. unfold keyOf. by rewrite reread_tenant, reread_id. Qed.

Lemma keyOf_deny q r : keyOf (denyRow q r) = keyOf r.
Proof. unfold keyOf. by rewrite deny_tenant, deny_id. Qed.

Lemma decode_keyed d m : decodeSnapshot d = Some m → keyed m.
Proof.
  destruct d as [|saved]; [done|]. cbn. revert m.
  apply (map_fold_weak_ind (fun (acc : option rowsMap) _ => ∀ m, acc = Some m → keyed m)).
  - intros m [= <-]. apply keyed_empty.
  - intros k r _ [acc|] _ IH m; [|done]. cbn. specialize (IH acc eq_refl).
    destruct (_ && _); [done|]. destruct (validKey _ _) eqn:Hv; cbn; [|by destruct skipsInvalid; intros [= <-]].
    destruct (acc !! _); [done|]. intros [= <-]. by apply keyed_insert.
Qed.

(** What a ledger saves it can read, as JSON reads it back. *)
Lemma decodeSnapshot_marshal m : keyed m → decodeSnapshot (marshal m) = Some (rereadRow <$> m).
Proof.
  intros Hm. assert (keyed (rereadRow <$> m)) as Hk.
  { intros k r'. rewrite lookup_fmap. intros (r & Hr & ->)%fmap_Some.
    rewrite keyOf_reread, reread_tenant, reread_id. by apply Hm. }
  cbn. generalize dependent (rereadRow <$> m). clear m Hm. intros m.
  apply (map_fold_weak_ind (fun (acc : option rowsMap) m => keyed m → acc = Some m)); [done|].
  intros k r m' acc Hnone IH Hk. destruct (Hk k r) as [Hv ->]; [by rewrite lookup_insert_eq|].
  rewrite IH.
  2: { intros k' r' Hr'. apply Hk. rewrite lookup_insert_ne; [done|]. intros <-. by rewrite Hnone in Hr'. }
  cbn. by rewrite String.eqb_refl, andb_false_r, Hv, Hnone.
Qed.

Lemma applyPending_lookup p m k :
  applyPending p m !! k =
  (fun r => match p !! k with Some q => denyRow q r | None => r end) <$> m !! k.
Proof.
  unfold applyPending. rewrite map_lookup_imap.
  by destruct (m !! k).
Qed.

Lemma applyPending_keyed p m : keyed m → keyed (applyPending p m).
Proof.
  intros Hm k r'. rewrite applyPending_lookup. intros (r & Hr & ->)%fmap_Some.
  apply Hm in Hr as [Hv ->]. destruct (p !! _); [|done]. by rewrite keyOf_deny, deny_tenant, deny_id.
Qed.

Lemma applyPending_pending p m k : is_Some (p !! k) → denies (applyPending p m) k.
Proof.
  intros [q Hq] r'. rewrite applyPending_lookup, Hq. intros (r & _ & ->)%fmap_Some. apply deny_revoked.
Qed.

Lemma applyPending_revoked p m k : isRevoked m k = true → isRevoked (applyPending p m) k = true.
Proof.
  unfold isRevoked. rewrite applyPending_lookup. destruct (m !! k); [|done]. cbn.
  destruct (p !! k); [by rewrite deny_revoked|done].
Qed.

Lemma applyPending_denies p m k : denies m k → denies (applyPending p m) k.
Proof.
  intros Hd r'. rewrite applyPending_lookup. intros (r & Hr & ->)%fmap_Some.
  destruct (p !! k); [apply deny_revoked|by apply Hd].
Qed.

Lemma reread_isRevoked m k : isRevoked (rereadRow <$> m) k = isRevoked m k.
Proof. unfold isRevoked. rewrite lookup_fmap. destruct (m !! k); [apply reread_revoked|done]. Qed.

Lemma unconfirmed_lookup m p k :
  unconfirmed m p !! k = if isRevoked m k then None else p !! k.
Proof. unfold unconfirmed. rewrite map_lookup_imap. destruct (p !! k); cbn; by destruct (isRevoked m k). Qed.


End ledger.
End AuthLedger.
