(* ===== verification/AuthFleet.v ===== *)
(** * Control planes over one ledger of authorisations

    What keeps an authorisation revoked: the denial is in what the ledger publishes, and
    either the process remembers it or the authority holds it.  Edits that respect a denial
    ([guarded]) preserve this with every answer of the persister; the interface [Registry]
    says that the operations of a store are such edits, and the histories of several control
    planes over one document are steps of them. *)

From stdpp Require Import base gmap fin_maps list strings relations.
From S2P Require Import Prelude Persistence AuthLedger.
Import AuthLedger.

Module AuthFleet.

Section safety.
Context {R Reason Extra : Type} `{AuthRow R Reason Extra} `{!AuthRowLaws R Reason Extra}.

Notation rowsMap := (gmap string R).
Notation store := (ledger R Reason Extra).

(** The stored document carries the denial. *)
Definition diskRevoked (k : string) (stored : option (document R)) : Prop :=
  ∃ d m, stored = Some d ∧ decodeSnapshot d = Some m ∧ isRevoked m k = true.

(** An edit that never undoes a revocation of [k], nor a pending one. *)
Record guarded {T} (pending : gmap string Reason) (k : string)
    (edit : rowsMap → T * result error rowsMap) : Prop := {
  guard_keyed m t m' : keyed m → edit m = (t, Ok m') → keyed m';
  guard_revoked m t m' : keyed m → edit m = (t, Ok m') → isRevoked m k = true → isRevoked m' k = true;
  guard_pending m t m' : keyed m → edit m = (t, Ok m') → is_Some (pending !! k) →
    denies m k → denies m' k;
}.

(** The authority of the edits: the document, or the rows of the process. *)
Definition held (b : backing) (k : string) (l : store) (stored : option (document R)) : Prop :=
  match b with Updating => diskRevoked k stored | _ => isRevoked (rows l) k = true end.

Record safe (b : backing) (k : string) (l : store) (stored : option (document R)) : Prop := {
  safe_keyed : keyed (rows l);
  safe_denies : denies (rows l) k;
  safe_kept : is_Some (pendingRevocations l !! k) ∨ held b k l stored;
}.

Lemma marshal_revoked k m : keyed m → isRevoked m k = true → diskRevoked k (Some (marshal m)).
Proof.
  intros Hm Hr. exists (marshal m), (rereadRow <$> m).
  split_and!; [done|by apply decodeSnapshot_marshal|by rewrite reread_isRevoked].
Qed.

Lemma diskAfter_revoked w k stored m :
  keyed m → isRevoked m k = true → diskRevoked k stored → diskRevoked k (diskAfter w stored (marshal m)).
Proof. intros Hm Hr Hd. destruct w as [| |[]|]; try done; by apply marshal_revoked. Qed.

(** What an edit starts from carries the denials that are held. *)
Lemma latest_spec b k l stored m known :
  keyed (rows l) → latest b l stored = Some (m, known) →
  keyed m ∧ (held b k l stored → isRevoked m k = true).
Proof.
  intros Hl. unfold latest, held. destruct b.
  1,2: rewrite (decodeSnapshot_marshal _ Hl); intros [= <- <-]; rewrite reread_isRevoked;
       split; [by eapply decode_keyed, decodeSnapshot_marshal|done].
  destruct stored as [d|].
  - destruct (decodeSnapshot d) as [m'|] eqn:Hd; [|done]. intros [= <- <-].
    split; [by apply decode_keyed in Hd|]. intros (d' & m0 & [= <-] & Hd' & Hr). rewrite Hd in Hd'. by injection Hd' as ->.
  - destruct (authorityKnown l); [done|]. intros [= <- <-]. split; [done|]. by intros (? & ? & ? & _).
Qed.

(** The cases of an edit that ran. *)
Inductive edited {T} (b : backing) (l : store) (stored : option (document R)) (m : rowsMap)
    (edit : rowsMap → T * result error rowsMap)
    : store → option (document R) → option T → result error unit → Prop :=
  | edited_unreached l1 : rows l1 = rows l → pendingRevocations l1 = pendingRevocations l →
      edited b l stored m edit l1 stored None (Err ErrPersistence)
  | edited_refused l1 t e : edit m = (t, Err e) → e ≠ NoChange → rows l1 = rows l →
      pendingRevocations l1 = pendingRevocations l → edited b l stored m edit l1 stored (Some t) (Err e)
  | edited_failed l1 t m' w :
      edit m = (t, Ok m') → rows l1 = rows l → pendingRevocations l1 = pendingRevocations l →
      b ≠ Memory →
      edited b l stored m edit l1 (diskAfter w stored (marshal m')) (Some t) (Err ErrPersistence)
  | edited_same l1 t : edit m = (t, Err NoChange) → rows l1 = m →
      pendingRevocations l1 = pendingRevocations l → edited b l stored m edit l1 stored (Some t) (Ok tt)
  | edited_committed l1 t m' stored' :
      edit m = (t, Ok m') → rows l1 = m' → pendingRevocations l1 = unconfirmed m' (pendingRevocations l) →
      stored' = match b with Memory => stored | _ => Some (marshal m') end →
      edited b l stored m edit l1 stored' (Some t) (Ok tt).

Lemma edit_cases {T} b c l stored w (edit : rowsMap → T * result error rowsMap) l1 stored1 t r :
  editLocked b c l stored w edit = (l1, stored1, t, r) →
  ∃ m, edited b l stored m edit l1 stored1 t r ∧
    ((∃ m0 known, latest b l stored = Some (m0, known) ∧ m = applyPending (pendingRevocations l) m0) ∨
     l1 = l ∧ stored1 = stored ∧ t = None ∧ r = Err ErrPersistence).
Proof.
  unfold editLocked. destruct (c || _).
  { intros [= <- <- <- <-]. exists ∅. split; [by apply edited_unreached|by right]. }
  destruct (latest b l stored) as [[m0 known]|] eqn:Hl.
  2: { intros [= <- <- <- <-]. exists ∅. split; [by apply edited_unreached|by right]. }
  cbn. set (m := applyPending _ m0). destruct (edit m) as [t0 [m'|e]] eqn:He.
  - intros Hcase. exists m. split; [|left; by exists m0, known].
    destruct b; [injection Hcase as <- <- <- <-; by apply (edited_committed _ _ _ _ _ _ _ m')|..];
      (destruct w as [| |reached|]; injection Hcase as <- <- <- <-;
       [by apply (edited_committed _ _ _ _ _ _ _ m')
       |by apply (edited_failed _ _ _ _ _ _ _ m' Unflushed)
       |by apply (edited_failed _ _ _ _ _ _ _ m' (WriteFailed reached))
       |by apply (edited_failed _ _ _ _ _ _ _ m' Unavailable)]).
  - intros Hcase. exists m. split; [|left; by exists m0, known].
    destruct e; injection Hcase as <- <- <- <-; first [by apply edited_same|by apply edited_refused].
Qed.

(** An edit that fails publishes nothing. *)
Lemma edit_failed {T} b c l stored w (edit : rowsMap → T * result error rowsMap) l1 stored1 t e :
  editLocked b c l stored w edit = (l1, stored1, t, Err e) → rows l1 = rows l.
Proof. intros (m & Hc & _)%edit_cases. by inversion Hc. Qed.

Lemma edit_keyed {T} b c l stored w k (edit : rowsMap → T * result error rowsMap) l1 stored1 t r :
  guarded (pendingRevocations l) k edit → keyed (rows l) →
  editLocked b c l stored w edit = (l1, stored1, t, r) → keyed (rows l1).
Proof.
  intros Hg Hl (m & Hc & Hm)%edit_cases. destruct Hm as [(m0 & kn & Hm & ->)|(-> & _)]; [|done].
  pose proof (proj1 (latest_spec b k l stored m0 kn Hl Hm)) as Hk0. apply (applyPending_keyed (pendingRevocations l)) in Hk0.
  destruct Hc as [? ->|? ? ? ? ? ->|? ? ? ? ? ->|? ? ? ->|? ? ? ? He ->]; try done. by eapply (guard_keyed _ _ _ Hg).
Qed.

(** The document of a known denial keeps it. *)
Lemma edit_disk {T} b c l stored w k (edit : rowsMap → T * result error rowsMap) l1 stored1 t r :
  guarded (pendingRevocations l) k edit → keyed (rows l) → held b k l stored → diskRevoked k stored →
  editLocked b c l stored w edit = (l1, stored1, t, r) → diskRevoked k stored1.
Proof.
  intros Hg Hl Hh Hd (m & Hc & Hm)%edit_cases. destruct Hm as [(m0 & kn & Hm & ->)|(-> & -> & _)]; [|done].
  destruct (latest_spec b k l stored m0 kn Hl Hm) as [Hk0 Hr0]. specialize (Hr0 Hh).
  apply (applyPending_keyed (pendingRevocations l)) in Hk0. apply (applyPending_revoked (pendingRevocations l)) in Hr0.
  destruct Hc as [| |? ? ? ? He|?|? ? m' ? He ? ? ->]; [done|done| |done|].
  - apply diskAfter_revoked; [by eapply (guard_keyed _ _ _ Hg)|by eapply (guard_revoked _ _ _ Hg)|done].
  - destruct b; [done|..]; (apply marshal_revoked; [by eapply (guard_keyed _ _ _ Hg)|by eapply (guard_revoked _ _ _ Hg)]).
Qed.

(** What the authority of the edits holds it goes on holding. *)
Lemma edit_held {T} b c l stored w k (edit : rowsMap → T * result error rowsMap) l1 stored1 t r :
  guarded (pendingRevocations l) k edit → keyed (rows l) → held b k l stored →
  editLocked b c l stored w edit = (l1, stored1, t, r) → held b k l1 stored1.
Proof.
  intros Hg Hl Hh Heq. destruct b; [..|by eapply edit_disk].
  1,2: apply edit_cases in Heq as (m & Hc & Hm); destruct Hm as [(m0 & kn & Hm & ->)|(-> & -> & _)]; [|done];
    destruct (latest_spec _ k l stored m0 kn Hl Hm) as [Hk0 Hr0]; specialize (Hr0 Hh);
    apply (applyPending_keyed (pendingRevocations l)) in Hk0; apply (applyPending_revoked (pendingRevocations l)) in Hr0;
    cbn in *; destruct Hc as [? ->|? ? ? ? ? ->|? ? ? ? ? ->|? ? ? ->|? ? ? ? He ->]; try done; by eapply (guard_revoked _ _ _ Hg).
Qed.

(** A denial survives every edit that respects it. *)
Lemma edit_safe {T} b c l stored w k (edit : rowsMap → T * result error rowsMap) l1 stored1 t r :
  guarded (pendingRevocations l) k edit → safe b k l stored →
  editLocked b c l stored w edit = (l1, stored1, t, r) → safe b k l1 stored1.
Proof.
  intros Hg Hs Heq. pose proof (edit_keyed _ _ _ _ _ _ _ _ _ _ _ Hg (safe_keyed _ _ _ _ Hs) Heq) as Hkeyed.
  destruct Hs as [Hl Hden Hkept]. apply edit_cases in Heq as (m & Hc & Hm).
  destruct Hm as [(m0 & kn & Hm & ->)|(-> & -> & _)]; [|done].
  destruct (latest_spec b k l stored m0 kn Hl Hm) as [Hk0 Hr0].
  apply (applyPending_keyed (pendingRevocations l)) in Hk0. set (m := applyPending _ m0) in *.
  assert (held b k l stored → isRevoked m k = true) as Hr by (intros Hh; by apply applyPending_revoked, Hr0).
  assert (denies m k) as Hdm.
  { destruct Hkept as [Hp|Hh]; [by apply applyPending_pending|by apply revoked_denies, Hr]. }
  assert (∀ t m', edit m = (t, Ok m') → denies m' k ∧ (is_Some (pendingRevocations l !! k) ∨ isRevoked m' k = true)) as Hnext.
  { intros t' m' He. destruct Hkept as [Hp|Hh].
    - split; [by eapply (guard_pending _ _ _ Hg)|by left].
    - assert (isRevoked m' k = true) by (eapply (guard_revoked _ _ _ Hg); eauto). split; [by apply revoked_denies|by right]. }
  destruct Hc as [? Hrows Hp|? ? ? He ? Hrows Hp|? ? m' w' He Hrows Hp|? ? He Hrows Hp|? ? m' ? He Hrows Hp ->].
  - split; [done|by rewrite Hrows|]. rewrite Hp. destruct Hkept as [|Hh]; [by left|right]. by destruct b; cbn in *; rewrite ?Hrows.
  - split; [done|by rewrite Hrows|]. rewrite Hp. destruct Hkept as [|Hh]; [by left|right]. by destruct b; cbn in *; rewrite ?Hrows.
  - split; [done|by rewrite Hrows|]. rewrite Hp. destruct Hkept as [|Hh]; [by left|right].
    destruct b; cbn in *; rewrite ?Hrows; try done.
    apply diskAfter_revoked; [by eapply (guard_keyed _ _ _ Hg)|by eapply (guard_revoked _ _ _ Hg); eauto|done].
  - split; [done|by rewrite Hrows|]. rewrite Hp. destruct Hkept as [|Hh]; [by left|right].
    destruct b; cbn in *; rewrite ?Hrows; auto.
  - destruct (Hnext _ _ He) as [Hd' Hk']. split; [done|by rewrite Hrows|]. rewrite Hp, unconfirmed_lookup.
    destruct (isRevoked m' k) eqn:Hrev; [right|left; by destruct Hk'].
    destruct b; cbn; rewrite ?Hrows; try done. apply marshal_revoked; [by eapply (guard_keyed _ _ _ Hg)|done].
Qed.

(** An acknowledged denial is held by the authority, or still remembered. *)
Lemma edit_confirms {T} b c l stored w k (edit : rowsMap → T * result error rowsMap) l1 stored1 t :
  guarded (pendingRevocations l) k edit → keyed (rows l) →
  editLocked b c l stored w edit = (l1, stored1, t, Ok tt) → isRevoked (rows l1) k = true →
  (b = Updating → is_Some stored) →
  safe b k l1 stored1 ∧ (b = Updating → diskRevoked k stored1 ∨ is_Some (pendingRevocations l1 !! k)).
Proof.
  intros Hg Hl Heq Hr Hstored. pose proof (edit_keyed _ _ _ _ _ _ _ _ _ _ _ Hg Hl Heq) as Hkeyed.
  assert (b = Updating → diskRevoked k stored1 ∨ is_Some (pendingRevocations l1 !! k)) as Hup.
  { intros ->. apply edit_cases in Heq as (m & Hc & Hm).
    destruct Hm as [(m0 & kn & Hm & ->)|(_ & _ & _ & [=])].
    inversion Hc as [| | |? ? He Hrows Hp|? ? m' ? He Hrows Hp]; subst.
    - rewrite Hp. destruct (pendingRevocations l !! k) as [q|] eqn:Hq; [right; by eexists|left].
      destruct (Hstored eq_refl) as [d ->]. cbn in Hm. destruct (decodeSnapshot d) as [m1|] eqn:Hd; [|done].
      injection Hm as -> <-. exists d, m0. split_and!; [done..|]. revert Hr. rewrite Hrows. unfold isRevoked.
      rewrite applyPending_lookup, Hq. by destruct (m0 !! k).
    - left. by apply marshal_revoked. }
  split; [|done]. split; [done|by apply revoked_denies|]. destruct b; [by right..|]. cbn. destruct (Hup eq_refl); auto.
Qed.

(** ** Refresh and restart *)

Lemma publish_rows (m : rowsMap) (l : store) : rows (publish m l) = m.
Proof. done. Qed.

Lemma loaded_safe b k (l : store) stored d m :
  b ≠ Memory → stored = Some d → decodeSnapshot d = Some m →
  (is_Some (pendingRevocations l !! k) ∨ diskRevoked k stored) →
  safe b k (publish (applyPending (pendingRevocations l) m) l <| authorityKnown := true |>) stored.
Proof.
  intros Hb -> Hd Hk. pose proof (applyPending_keyed (pendingRevocations l) _ (decode_keyed _ _ Hd)) as Hkeyed.
  assert (diskRevoked k (Some d) → isRevoked m k = true) as Hr.
  { intros (d' & m' & [= <-] & Hd' & Hr). rewrite Hd in Hd'. by injection Hd' as ->. }
  split; [done| |].
  - destruct Hk as [Hp|Hdisk]; [by apply applyPending_pending|by apply revoked_denies, applyPending_revoked, Hr].
  - destruct Hk as [Hp|Hdisk]; [by left|right]. destruct b; [done| |done]. cbn. by apply applyPending_revoked, Hr.
Qed.

Lemma refresh_safe b k (l l' : store) (ok : bool) stored r :
  RefreshShared b l (if ok then Some stored else None) = (l', r) →
  safe b k l stored → safe b k l' stored.
Proof.
  intros Heq Hs. unfold RefreshShared in Heq. destruct b; [by injection Heq as <- _..|].
  destruct ok; [|by injection Heq as <- _].
  destruct stored as [d|]; [|by destruct (authorityKnown l); injection Heq as <- _].
  destruct (decodeSnapshot d) as [m|] eqn:Hd; [|by injection Heq as <- _].
  injection Heq as <- _. eapply loaded_safe; [done..|]. apply (safe_kept _ _ _ _ Hs).
Qed.

(** A refresh that succeeds shows the denials of the document. *)
Lemma refresh_denies k (l l' : store) stored :
  RefreshShared Updating l (Some stored) = (l', Ok tt) → diskRevoked k stored → safe Updating k l' stored.
Proof.
  cbn. intros Heq Hdisk. destruct stored as [d|]; [|by destruct Hdisk as (? & ? & ? & _)].
  destruct (decodeSnapshot d) as [m|] eqn:Hd; [|done]. injection Heq as <-.
  eapply loaded_safe; [done..|]. by right.
Qed.

Lemma restart_held b k (l l' : store) stored :
  b ≠ Memory → SetPersister b l (Some stored) = (l', Ok tt) → diskRevoked k stored → held b k l' stored.
Proof.
  intros Hb Heq Hdisk. destruct b; [done| |done]. destruct Hdisk as (d & m & -> & Hd & Hr). cbn in Heq.
  rewrite Hd in Heq. injection Heq as <-. by apply applyPending_revoked.
Qed.

End safety.

(** ** The interface of a store *)

Class Registry (R Reason Extra Op : Type) `{AuthRow R Reason Extra} := {
  perform : backing → bool → ledger R Reason Extra → option (document R) → write_outcome → Op →
    ledger R Reason Extra * option (document R);
  spares : string → Op → Prop;         (* the operation does not erase the key *)
}.

(** What follows an edit may only add denials. *)
Record latched {R Reason Extra} `{AuthRow R Reason Extra} (k : string) (l l' : ledger R Reason Extra) : Prop := {
  latched_keyed : keyed (rows l) → keyed (rows l');
  latched_pending : is_Some (pendingRevocations l !! k) → is_Some (pendingRevocations l' !! k);
  latched_denies : denies (rows l) k → denies (rows l') k;
  latched_revoked : isRevoked (rows l) k = true → isRevoked (rows l') k = true;
}.

Class RegistryLaws (R Reason Extra Op : Type) `{Registry R Reason Extra Op} : Prop :=
  perform_law (b : backing) (c : bool) (l : ledger R Reason Extra) (stored : option (document R))
      (w : write_outcome) (o : Op) (k : string) : spares k o → keyed (rows l) →
    perform b c l stored w o = (l, stored) ∨
    ∃ T (edit : gmap string R → T * result error (gmap string R)) l1 stored1 t r l',
      guarded (pendingRevocations l) k edit ∧
      editLocked b c l stored w edit = (l1, stored1, t, r) ∧
      perform b c l stored w o = (l', stored1) ∧ latched k l1 l'.

Section fleet.
Context {R Reason Extra Op : Type} `{Registry R Reason Extra Op}.
Context `{!AuthRowLaws R Reason Extra} `{!RegistryLaws R Reason Extra Op}.

Notation store := (ledger R Reason Extra).

Record fleet := mkFleet { planes : list store; disk : option (document R) }.

Inductive action :=
  | AEdit (cancelled : bool) (w : write_outcome) (o : Op)
  | ARefresh (readable : bool)
  | ARestart (capacity : Z) (x : Extra).

Inductive step (b : backing) (f : fleet) (i : nat) : action → fleet → Prop :=
  | step_edit l c w o l' d' :
      planes f !! i = Some l → perform b c l (disk f) w o = (l', d') →
      step b f i (AEdit c w o) (mkFleet (<[i := l']> (planes f)) d')
  | step_refresh l (ok : bool) l' r :
      planes f !! i = Some l → RefreshShared b l (if ok then Some (disk f) else None) = (l', r) →
      step b f i (ARefresh ok) (mkFleet (<[i := l']> (planes f)) (disk f))
  | step_restart l n x l' :
      planes f !! i = Some l → SetPersister b (NewStore n x) (Some (disk f)) = (l', Ok tt) →
      step b f i (ARestart n x) (mkFleet (<[i := l']> (planes f)) (disk f)).

Definition steps (b : backing) (allowed : nat → action → Prop) : relation fleet :=
  rtc (fun f g => ∃ i a, allowed i a ∧ step b f i a g).

(** Nobody erases the key; [alive] planes do not restart. *)
Definition spared (k : string) (i : nat) (a : action) : Prop :=
  match a with AEdit _ _ o => spares k o | _ => True end.
Definition alive (p : nat) (i : nat) (a : action) : Prop :=
  match a with ARestart _ _ => i ≠ p | _ => True end.

(** Only a shared document has several owners. *)
Definition owners (b : backing) (f : fleet) : Prop := b = Updating ∨ length (planes f) = 1%nat.

Definition all_keyed (f : fleet) : Prop := ∀ i l, planes f !! i = Some l → keyed (rows l).

Lemma latched_safe b k l l' stored : latched k l l' → safe b k l stored → safe b k l' stored.
Proof.
  intros [Hk Hp Hd Hr] [Hl Hden Hkept]. split; [auto..|]. destruct Hkept as [|Hh]; [by left; auto|right].
  destruct b; cbn in *; auto.
Qed.

Lemma perform_keyed b c l stored w o k l' stored' :
  spares k o → perform b c l stored w o = (l', stored') → keyed (rows l) → keyed (rows l').
Proof.
  intros Ho Heq Hl. destruct (perform_law b c l stored w o k Ho Hl) as
    [Hp|(T & edit & l1 & s1 & t & r & l2 & Hg & He & Hp & Hla)]; rewrite Hp in Heq; injection Heq as <- <-; [done|].
  apply Hla. by eapply edit_keyed.
Qed.

Lemma perform_safe b c l stored w o k l' stored' :
  spares k o → perform b c l stored w o = (l', stored') → safe b k l stored → safe b k l' stored'.
Proof.
  intros Ho Heq Hs. destruct (perform_law b c l stored w o k Ho (safe_keyed _ _ _ _ Hs)) as
    [Hp|(T & edit & l1 & s1 & t & r & l2 & Hg & He & Hp & Hla)]; rewrite Hp in Heq; injection Heq as <- <-; [done|].
  by eapply latched_safe, edit_safe.
Qed.

Lemma perform_held b c l stored w o k l' stored' :
  spares k o → perform b c l stored w o = (l', stored') → keyed (rows l) → held b k l stored →
  held b k l' stored'.
Proof.
  intros Ho Heq Hl Hh. destruct (perform_law b c l stored w o k Ho Hl) as
    [Hp|(T & edit & l1 & s1 & t & r & l2 & Hg & He & Hp & Hla)]; rewrite Hp in Heq; injection Heq as <- <-; [done|].
  assert (held b k l1 s1) as Hh1 by (by eapply edit_held). destruct b; cbn in *; by (apply Hla || done).
Qed.

Lemma perform_disk b c l stored w o k l' stored' :
  spares k o → perform b c l stored w o = (l', stored') → keyed (rows l) → held b k l stored →
  diskRevoked k stored → diskRevoked k stored'.
Proof.
  intros Ho Heq Hl Hh Hd. destruct (perform_law b c l stored w o k Ho Hl) as
    [Hp|(T & edit & l1 & s1 & t & r & l2 & Hg & He & Hp & Hla)]; rewrite Hp in Heq; injection Heq as <- <-; [done|].
  by eapply edit_disk.
Qed.

Lemma step_keyed b k f i a g : spared k i a → step b f i a g → all_keyed f → all_keyed g.
Proof.
  intros Ha Hstep Hf j lj. destruct Hstep as [l c w o l' d' Hl Hp|l ok l' r Hl Hr|l n x l' Hl Hs]; cbn;
    (intros [(<- & <- & _)|[_ Hj]]%list_lookup_insert_Some; [|by eapply Hf]).
  - eapply perform_keyed; eauto.
  - unfold RefreshShared in Hr. repeat case_match; injection Hr as <- _; try exact (Hf _ _ Hl).
    all: by apply applyPending_keyed, (decode_keyed d).

  - unfold SetPersister in Hs. repeat case_match; try discriminate; injection Hs as <-; try apply keyed_empty;
      by apply applyPending_keyed, (decode_keyed d).
Qed.

Lemma step_owners b f i a g : step b f i a g → owners b f → owners b g.
Proof. intros Hstep [->|Hlen]; [by left|right]. destruct Hstep; cbn; by rewrite length_insert. Qed.

(** What one plane does to the denial another one relies on. *)
Lemma step_safe b k p f i a g l :
  spared k i a → alive p i a → step b f i a g → owners b f → all_keyed f →
  planes f !! p = Some l → safe b k l (disk f) → ∃ l', planes g !! p = Some l' ∧ safe b k l' (disk g).
Proof.
  intros Ha Hp Hstep Ho Hkeyed Hl Hs. destruct (decide (i = p)) as [->|Hne].
  - destruct Hstep as [l0 c w o l' d' Hl0 Hperf|l0 ok l' r Hl0 Hr|l0 n x l' Hl0 Hset]; [..|done];
      rewrite Hl in Hl0; injection Hl0 as <-; exists l'; cbn;
      (split; [by eapply list_lookup_insert_eq, lookup_lt_Some|]).
    + by eapply perform_safe.
    + by eapply refresh_safe.
  - assert (b = Updating) as ->.
    { destruct Ho as [|Hlen]; [done|]. apply lookup_lt_Some in Hl.
      destruct Hstep as [? ? ? ? ? ? Hl0|? ? ? ? Hl0|? ? ? ? Hl0]; apply lookup_lt_Some in Hl0; lia. }
    exists l. destruct Hs as [Hk Hd Hkept].
    destruct Hstep as [l0 c w o l' d' Hl0 Hperf|l0 ok l' r Hl0 Hr|l0 n x l' Hl0 Hset]; cbn;
      (split; [by rewrite list_lookup_insert_ne|]); split; try done.
    destruct Hkept as [|Hh]; [by left|right]. cbn in *. by eapply perform_disk; eauto.
Qed.

(** A denial that one process remembers or the authority holds stays on that process. *)
Lemma history_safe b k p f g l :
  steps b (fun i a => spared k i a ∧ alive p i a) f g → owners b f → all_keyed f →
  planes f !! p = Some l → safe b k l (disk f) → ∃ l', planes g !! p = Some l' ∧ safe b k l' (disk g).
Proof.
  intros Hsteps. revert l. induction Hsteps as [f|f f' g (i & a & [Ha Hp] & Hstep) _ IH]; intros l Ho Hk Hl Hs; [by exists l|].
  destruct (step_safe _ _ _ _ _ _ _ _ Ha Hp Hstep Ho Hk Hl Hs) as (l' & Hl' & Hs').
  eapply IH; [by eapply step_owners|by eapply step_keyed|done..].
Qed.

(** The denial is in the document, and in the rows when they are the authority. *)
Record confirmed (b : backing) (k : string) (f : fleet) : Prop := {
  confirmed_keyed : all_keyed f;
  confirmed_disk : diskRevoked k (disk f);
  confirmed_held i l : planes f !! i = Some l → held b k l (disk f);
}.

Lemma step_confirmed b k f i a g :
  b ≠ Memory → spared k i a → step b f i a g → owners b f → confirmed b k f → confirmed b k g.
Proof.
  intros Hb Ha Hstep Ho [Hk Hd Hh]. pose proof (step_keyed _ _ _ _ _ _ Ha Hstep Hk) as Hkeyed.
  destruct Hstep as [l c w o l' d' Hl Hp|l ok l' r Hl Hr|l n x l' Hl Hs]; cbn.
  - assert (diskRevoked k d') as Hd' by (eapply perform_disk; eauto). split; [done..|].
    intros j lj Hj. destruct b; [done| |done].
    apply list_lookup_insert_Some in Hj as [(_ & <- & _)|[_ Hj]]; [by eapply perform_held; eauto|by apply (Hh j)].
  - split; [done..|]. intros j lj Hj. destruct b; [done| |done]. injection Hr as <- _.
    apply list_lookup_insert_Some in Hj as [(_ & <- & _)|[_ Hj]]; [by apply (Hh i)|by apply (Hh j)].
  - split; [done..|]. intros j lj Hj.
    apply list_lookup_insert_Some in Hj as [(_ & <- & _)|[_ Hj]]; [by eapply restart_held|by apply (Hh j)].
Qed.

(** A confirmed denial stays confirmed over restarts too. *)
Lemma history_confirmed b k f g :
  b ≠ Memory → steps b (spared k) f g → owners b f → confirmed b k f → confirmed b k g.
Proof.
  intros Hb. induction 1 as [|f f' g (i & a & Ha & Hstep) _ IH]; intros Ho Hc; [done|].
  apply IH; [by eapply step_owners|by eapply step_confirmed].
Qed.

Lemma confirmed_denies b k f i l :
  confirmed b k f → b ≠ Updating → planes f !! i = Some l → denies (rows l) k.
Proof. intros [_ _ Hh] Hb Hl. specialize (Hh i l Hl). destruct b; [..|done]; by apply revoked_denies. Qed.

End fleet.
End AuthFleet.
