(* ===== verification/DelegatedGrant.v ===== *)
(** * Delegated access grants ([src/delegatedgrant/store.go])

    Short-lived grants under which an agent acts for a user.  A grant is admitted while the
    store has room for active ones, never leaves the revoked state, and a revocation whose
    save fails still denies on the process that asked for it. *)

From Stdlib Require Import Ascii.
From stdpp Require Import base gmap fin_maps list strings.
From S2P Require Import Prelude Trimmed GoStd Persistence Model Common AuthLedger AuthFleet.
Import AuthLedger AuthFleet.

Open Scope Z_scope.

Module DelegatedGrant.

Record pendingRevocation := mkPending { p_at : string; p_reason : string }.

Definition revokedGrant (g : DelegatedAccessGrant) : bool := String.eqb (dag_Status g) "revoked".

Definition denyGrant (p : pendingRevocation) (g : DelegatedAccessGrant) : DelegatedAccessGrant :=
  g <| dag_Status := "revoked" |> <| dag_RevokedAt := Some (p_at p) |>
    <| dag_RevocationReason := stringPtr (p_reason p) |>.

(** A publication that changes the rows raises the generation. *)
Definition generationAfter (grants next : gmap string DelegatedAccessGrant) (generation : Z) : Z :=
  if bool_decide (grants = next) then generation else (generation + 1) mod 2 ^ 64.

#[export] Instance grantRow : AuthRow DelegatedAccessGrant pendingRevocation Z := {
  rowTenant := dag_TenantID;
  rowID := dag_ID;
  rowRevoked := revokedGrant;
  rereadRow := fun g => g <| dag_Metadata := json_values (dag_Metadata g) |>;
  denyRow := denyGrant;
  skipsInvalid := false;
  counted := generationAfter;
}.

#[export] Instance grantRow_laws : AuthRowLaws DelegatedAccessGrant pendingRevocation Z.
Proof. by split. Qed.

Notation Store := (ledger DelegatedAccessGrant pendingRevocation Z).
Notation grantsMap := (gmap string DelegatedAccessGrant).
Notation authority := (option (document DelegatedAccessGrant)).

(** ** Records *)

Definition validateTransition (existing next : DelegatedAccessGrant) : bool :=
  negb (String.eqb (dag_Status existing) "revoked" && negb (String.eqb (dag_Status next) "revoked"))
  && negb (String.eqb (dag_Status existing) "expired" && String.eqb (dag_Status next) "active").

Definition IsActive (grant : DelegatedAccessGrant) (now : Z) : bool :=
  if negb (String.eqb (dag_Status grant) "active") then false
  else if is_blank (dag_ExpiresAt grant) then true
  else match parse_rfc3339 (dag_ExpiresAt grant) with
       | None => false
       | Some expiresAt => now <? expiresAt
       end.

Definition activeCount (next : grantsMap) (now : Z) : Z :=
  Z.of_nat (length (List.filter (fun kg => IsActive kg.2 now) (map_to_list next))).

Definition pendingAt (s : Store) (key : string) : bool :=
  match pendingRevocations s !! key with Some _ => true | None => false end.

(** ** Edits *)

(** What [upsertContext] does to the rows, with the grant it retained instead. *)
Definition upsertEdit (s : Store) (grant : DelegatedAccessGrant) (received : bool) (now : Z)
    (next : grantsMap) : DelegatedAccessGrant * result error grantsMap :=
  let key := keyOf grant in
  let refused (retained : DelegatedAccessGrant) (e : error) : DelegatedAccessGrant * result error grantsMap :=
    if received then (retained, Err RetainedTerminal) else (zero_DelegatedAccessGrant, Err e) in
  let full := negb received && IsActive grant now
              && match next !! key with Some old => negb (IsActive old now) | None => true end
              && (0 <? capacity s) && (capacity s <=? activeCount next now) in
  if pendingAt s key && negb (revokedGrant grant)
  then refused ((default zero_DelegatedAccessGrant (next !! key)) <| dag_Status := "revoked" |>) PendingDenial
  else if match next !! key with Some old => negb (validateTransition old grant) | None => false end
  then refused (default zero_DelegatedAccessGrant (next !! key)) BadTransition
  else if full then (zero_DelegatedAccessGrant, Err ErrCapacity)
  else (zero_DelegatedAccessGrant, Ok (<[key := grant]> next)).

(** A denial that could not be saved: the first one is kept. *)
Definition latch (key : string) (p : pendingRevocation) (next : grantsMap) (s : Store) : Store :=
  let s := s <| pendingRevocations := if pendingAt s key then pendingRevocations s
                                      else <[key := p]> (pendingRevocations s) |> in
  publish (applyPending (pendingRevocations s) next) s.

Definition upsertContext (b : backing) (cancelled : bool) (s : Store) (stored : authority)
    (w : write_outcome) (grant : DelegatedAccessGrant) (received : bool) (now : Z)
    : Store * authority * result error DelegatedAccessGrant :=
  if negb (validKey (dag_TenantID grant) (dag_ID grant)) then (s, stored, Err InvalidKey) else
  let '(s, stored, retained, outcome) :=
    editLocked b cancelled s stored w (upsertEdit s grant received now) in
  match outcome with
  | Ok _ => (s, stored, Ok grant)
  | Err RetainedTerminal => (s, stored, Ok (default zero_DelegatedAccessGrant retained))
  | Err ErrPersistence =>
      if revokedGrant grant
      then let p := mkPending (default (format_rfc3339 now) (dag_RevokedAt grant))
                      (default "" (dag_RevocationReason grant)) in
           let next := match rows s !! keyOf grant with
                       | Some _ => rows s
                       | None => <[keyOf grant := grant]> (rows s)
                       end in
           (latch (keyOf grant) p next s, stored, Err ErrPersistence)
      else (s, stored, Err ErrPersistence)
  | Err e => (s, stored, Err e)
  end.

Definition UpsertContext (b : backing) (cancelled : bool) (s : Store) (stored : authority)
    (w : write_outcome) (grant : DelegatedAccessGrant) (now : Z) :=
  upsertContext b cancelled s stored w grant false now.

Definition UpsertReceived (b : backing) (cancelled : bool) (s : Store) (stored : authority)
    (w : write_outcome) (grant : DelegatedAccessGrant) (now : Z) :=
  upsertContext b cancelled s stored w grant true now.

(** The grant that is found, revoked. *)
Definition revokeEdit (s : Store) (tenant id reason : string) (now : Z) (next : grantsMap)
    : option DelegatedAccessGrant * result error grantsMap :=
  match targetKey tenant id next with
  | Err e => (None, Err e)
  | Ok key =>
      match next !! key with
      | None => (None, Err ErrAbsent)
      | Some result =>
          if revokedGrant result
          then (Some result, if pendingAt s key then Ok next else Err NoChange)
          else let result := denyGrant (mkPending (format_rfc3339 now) reason) result in
               (Some result, Ok (<[key := result]> next))
      end
  end.

(** The local grant a revocation that never reached the authority is about. *)
Definition localTarget (s : Store) (tenant id : string) : option DelegatedAccessGrant :=
  if is_empty tenant
  then match withID id (rows s) with [(_, g)] => Some g | _ => None end
  else rows s !! authKey tenant id.

Definition revokeContext (b : backing) (cancelled : bool) (s : Store) (stored : authority)
    (w : write_outcome) (tenant id reason : string) (now : Z)
    : Store * authority * (DelegatedAccessGrant * result error unit) :=
  let '(s, stored, found, outcome) :=
    editLocked b cancelled s stored w (revokeEdit s tenant id reason now) in
  match outcome with
  | Ok _ => (s, stored, (default zero_DelegatedAccessGrant (mjoin found), Ok tt))
  | Err ErrPersistence =>
      match (match mjoin found with Some g => Some g | None => localTarget s tenant id end) with
      | Some result =>
          let key := keyOf result in
          let s := latch key (mkPending (format_rfc3339 now) reason) (<[key := result]> (rows s)) s in
          (s, stored, (default zero_DelegatedAccessGrant (rows s !! key), Err ErrPersistence))
      | None => (s, stored, (zero_DelegatedAccessGrant, Err ErrPersistence))
      end
  | Err e => (s, stored, (zero_DelegatedAccessGrant, Err e))
  end.

Definition RevokeForTenantContext (b : backing) (cancelled : bool) (s : Store) (stored : authority)
    (w : write_outcome) (tenant id reason : string) (now : Z)
    : Store * authority * (DelegatedAccessGrant * result error unit) :=
  if negb (validKey tenant id) then (s, stored, (zero_DelegatedAccessGrant, Err InvalidKey))
  else revokeContext b cancelled s stored w tenant id reason now.

(** [Revoke]: without a tenant. *)
Definition Revoke (b : backing) (s : Store) (stored : authority) (w : write_outcome)
    (id reason : string) (now : Z) :=
  revokeContext b false s stored w "" id reason now.

Definition ofTenant (tenant : string) (g : DelegatedAccessGrant) : bool :=
  String.eqb (trim_space (dag_TenantID g)) tenant.

Definition CountForTenant (s : Store) (tenantID : string) : Z :=
  let tenantID := trim_space tenantID in
  if is_empty tenantID then 0
  else Z.of_nat (length (List.filter (ofTenant tenantID) (rowsList s))).

Definition removeEdit (tenant : string) (next : grantsMap) : Z * result error grantsMap :=
  let kept := map_imap (fun _ g => if ofTenant tenant g then None else Some g) next in
  let n := Z.of_nat (size next) - Z.of_nat (size kept) in
  (n, if n =? 0 then Err NoChange else Ok kept).

(** [strings.SplitN(key, "\x00", 2)[0]] *)
Definition keyTenant (key : string) : string := match cut nul key with Some (t, _) => t | None => key end.

Definition RemoveTenantContext (b : backing) (cancelled : bool) (s : Store) (stored : authority)
    (w : write_outcome) (tenant : string) : Store * authority * result error Z :=
  let tenant := trim_space tenant in
  if is_empty tenant then (s, stored, Ok 0) else
  let '(s, stored, n, outcome) := editLocked b cancelled s stored w (removeEdit tenant) in
  match outcome with
  | Err e => (s, stored, Err e)
  | Ok _ =>
      (s <| pendingRevocations := map_imap (fun key p => if String.eqb (keyTenant key) tenant then None else Some p)
                                    (pendingRevocations s) |>, stored, Ok (default 0 n))
  end.

Definition ConfigGeneration (s : Store) : Z := extra s.

Definition GetActive (b : backing) (s : Store) (loaded : option authority) (id : string) (now : Z)
    : Store * option DelegatedAccessGrant :=
  let '(s, found) := Get b s loaded id in
  (s, match found with Some g => if IsActive g now then Some g else None | None => None end).

Definition SetStatePath (b : backing) (s : Store) (path : string) (loaded : option authority) :=
  if is_blank path then SetPersister Memory s loaded else SetPersister b s loaded.

(** ** The operations behind the interface [Registry] *)

Inductive op :=
  | OUpsert (grant : DelegatedAccessGrant) (received : bool) (now : Z)
  | ORevoke (tenant id reason : string) (now : Z)
  | ORemove (tenant : string).

Definition performOp (b : backing) (cancelled : bool) (s : Store) (stored : authority)
    (w : write_outcome) (o : op) : Store * authority :=
  match o with
  | OUpsert grant received now => (upsertContext b cancelled s stored w grant received now).1
  | ORevoke tenant id reason now => (revokeContext b cancelled s stored w tenant id reason now).1
  | ORemove tenant => (RemoveTenantContext b cancelled s stored w tenant).1
  end.

Definition sparesKey (key : string) (o : op) : Prop :=
  match o with ORemove tenant => keyTenant key ≠ trim_space tenant | _ => True end.

#[export] Instance grantRegistry : Registry DelegatedAccessGrant pendingRevocation Z op := {
  perform := performOp;
  spares := sparesKey;
}.

Lemma keyTenant_authKey t i : no_nul t = true → keyTenant (authKey t i) = t.
Proof.
  intros Ht. unfold keyTenant. assert (cut nul (authKey t i) = Some (t, i)) as ->; [|done].
  induction t as [|c t IH]; [done|]. cbn in Ht. apply andb_true_iff in Ht as [Hc Ht].
  unfold authKey in *. rewrite string_app_cons. cbn [cut nul strip_prefix].
  change (strip_prefix nul (String c (t +:+ nul +:+ i))) with
    (if Ascii.eqb Ascii.zero c then Some (t +:+ nul +:+ i) else None).
  rewrite Ascii.eqb_sym. destruct (Ascii.eqb c Ascii.zero); [done|]. by rewrite IH.
Qed.

Lemma grant_pendingAt_true s k : pendingAt s k = true ↔ is_Some (pendingRevocations s !! k).
Proof. unfold pendingAt. destruct (_ !! k); split; first [done|by intros [? ?]|by eauto]. Qed.

Lemma grant_revoked_stays (o g : DelegatedAccessGrant) :
  validateTransition o g = true → revokedGrant o = true → revokedGrant g = true.
Proof.
  unfold validateTransition, revokedGrant. intros [Ht _]%andb_true_iff Ho. rewrite Ho in Ht. cbn in Ht.
  by rewrite negb_involutive in Ht.
Qed.

Lemma grant_upsertEdit_ok s grant received now m t m' :
  upsertEdit s grant received now m = (t, Ok m') →
  m' = <[keyOf grant := grant]> m ∧
  (∀ old, m !! keyOf grant = Some old → validateTransition old grant = true) ∧
  (is_Some (pendingRevocations s !! keyOf grant) → revokedGrant grant = true).
Proof.
  unfold upsertEdit. destruct (_ && _) eqn:Hp; [by destruct received|].
  destruct (match m !! keyOf grant with Some _ => _ | None => _ end) eqn:Hv; [by destruct received|].
  destruct (negb received && _ && _ && _ && _); [done|]. intros [= <- <-]. split_and!; [done| |].
  - intros old Hold. rewrite Hold in Hv. by destruct (validateTransition old grant).
  - intros Hpend%grant_pendingAt_true. rewrite Hpend in Hp. by destruct (revokedGrant grant).
Qed.

Lemma grant_upsertEdit_guarded s grant received now k :
  validKey (dag_TenantID grant) (dag_ID grant) = true →
  guarded (pendingRevocations s) k (upsertEdit s grant received now).
Proof.
  intros Hv. split; intros m t m' Hm (-> & Htrans & Hpend)%grant_upsertEdit_ok.
  - by apply keyed_insert.
  - intros Hr. rewrite isRevoked_insert. case_decide as Hk; [subst k|done]. cbn in *. unfold isRevoked in Hr.
    destruct (m !! keyOf grant) as [old|]; [|done]. by apply (grant_revoked_stays old); [apply Htrans|].
  - intros Hp Hd r [[<- <-]|[Hne Hr]]%lookup_insert_Some; [by apply Hpend|by apply Hd].
Qed.

Lemma targetKey_ok (tenant id : string) (m : grantsMap) k g :
  keyed m → targetKey tenant id m = Ok k → m !! k = Some g →
  k = keyOf g ∧ validKey (dag_TenantID g) (dag_ID g) = true.
Proof. intros Hm _ Hk. by apply Hm in Hk as [? ?]. Qed.

Lemma grant_revokeEdit_guarded s tenant id reason now k :
  guarded (pendingRevocations s) k (revokeEdit s tenant id reason now).
Proof.
  assert (∀ m t m', revokeEdit s tenant id reason now m = (t, Ok m') →
    m' = m ∨ ∃ k g p, m !! k = Some g ∧ m' = <[k := denyGrant p g]> m) as Hcase.
  { intros m t m'. unfold revokeEdit. destruct (targetKey tenant id m) as [key|]; [|done].
    destruct (m !! key) as [g|] eqn:Hg; [|done]. destruct (revokedGrant g).
    - destruct (pendingAt s key); [|done]. intros [= _ <-]. by left.
    - intros [= _ <-]. right. by eauto. }
  split; intros m t m' Hm [->|(k' & g & p & Hg & ->)]%Hcase; try done.
  - apply Hm in Hg as [Hv ->]. rewrite <- (keyOf_deny p g). by apply (keyed_insert m (denyGrant p g)).
  - intros Hr. rewrite isRevoked_insert. by case_decide.
  - intros _ Hd r [[_ <-]|[_ Hr]]%lookup_insert_Some; [done|by apply Hd].
Qed.

Lemma removed_lookup tenant (m : grantsMap) k :
  map_imap (fun _ g => if ofTenant tenant g then None else Some g) m !! k =
  m !! k ≫= fun g => if ofTenant tenant g then None else Some g.
Proof. by rewrite map_lookup_imap. Qed.

Lemma grant_removeEdit_guarded (s : Store) tenant k :
  keyTenant k ≠ tenant → guarded (pendingRevocations s) k (removeEdit tenant).
Proof.
  intros Hk. assert (∀ m t m', removeEdit tenant m = (t, Ok m') → ∀ k,
    m' !! k = m !! k ≫= fun g => if ofTenant tenant g then None else Some g) as Hcase.
  { intros m t m'. unfold removeEdit. destruct (_ =? 0); [done|]. intros [= _ <-] k'. apply removed_lookup. }
  assert (∀ m t m', keyed m → removeEdit tenant m = (t, Ok m') → m' !! k = m !! k) as Hsame.
  { intros m t m' Hm He. rewrite (Hcase m t m' He). destruct (m !! k) as [g|] eqn:Hg; [|done]. cbn.
    destruct (ofTenant tenant g) eqn:Ht; [|done]. apply Hm in Hg as [Hv ->]. destruct Hk.
    unfold ofTenant in Ht. apply String.eqb_eq in Ht. rewrite <- Ht. unfold keyOf. cbn in *.
    rewrite keyTenant_authKey; [by apply validKey_trimmed in Hv as [-> _]|].
    unfold validKey in Hv. rewrite !andb_true_iff in Hv. tauto. }
  split; intros m t m' Hm He.
  - intros k' r. rewrite (Hcase m t m' He). destruct (m !! k') as [g|] eqn:Hg; [|done]. cbn.
    destruct (ofTenant tenant g); [done|]. intros [= <-]. by apply Hm.
  - unfold isRevoked. by rewrite (Hsame m t m').
  - intros _ Hd r. rewrite (Hsame m t m') by done. apply Hd.
Qed.

(** Latching adds denials: of the key, and of what is pending already. *)
Lemma latch_latched key p (next : grantsMap) (s : Store) k :
  (keyed (rows s) → keyed next) → (denies (rows s) k → denies next k ∨ k = key) →
  (isRevoked (rows s) k = true → isRevoked next k = true ∨ (k = key ∧ is_Some (next !! k))) →
  latched k s (latch key p next s).
Proof.
  intros Hk Hd Hr. set (s' := latch key p next s).
  assert (∀ k', is_Some (pendingRevocations s !! k') ∨ k' = key → is_Some (pendingRevocations s' !! k')) as Hpend.
  { intros k' Hk'. cbn. destruct (pendingAt s key) eqn:Hp; cbn.
    - destruct Hk' as [| ->]; [done|by apply grant_pendingAt_true].
    - rewrite lookup_insert. case_decide; [by eauto|]. destruct Hk' as [| ->]; [done|by contradiction]. }
  split.
  - intros Hs. by apply applyPending_keyed, Hk.
  - intros Hp. apply Hpend. by left.
  - intros [Hn| ->]%Hd; [by apply applyPending_denies|]. apply applyPending_pending, (Hpend key). by right.
  - intros [Hn|(-> & g & Hg)]%Hr; [by apply applyPending_revoked|].
    destruct (Hpend key (or_intror eq_refl)) as [q Hq]. cbn in Hq |- *. unfold isRevoked.
    rewrite applyPending_lookup, Hg, Hq. done.
Qed.

Lemma latched_refl k (s : Store) : latched k s s.
Proof. by split. Qed.


(** A revoked grant that is put under its own key. *)
Lemma latch_put p g (next : grantsMap) (s : Store) k :
  validKey (dag_TenantID g) (dag_ID g) = true →
  next = rows s ∨ next = <[keyOf g := g]> (rows s) →
  (next = rows s → is_Some (rows s !! keyOf g)) → latched k s (latch (keyOf g) p next s).
Proof.
  intros Hv Hnext Hin. apply latch_latched.
  - intros Hs. destruct Hnext as [-> | ->]; [done|by apply keyed_insert].
  - intros Hd. destruct (decide (k = keyOf g)) as [-> | Hne]; [by right|left].
    destruct Hnext as [-> | ->]; [done|]. intros r. rewrite lookup_insert_ne by done. apply Hd.
  - intros Hr. destruct (decide (k = keyOf g)) as [-> | Hne].
    + right. split; [done|]. destruct Hnext as [-> | ->]; [by apply Hin|]. rewrite lookup_insert_eq. by eexists.
    + left. destruct Hnext as [-> | ->]; [done|]. by rewrite isRevoked_insert, decide_False by done.
Qed.

(** What a revocation that could not be saved is about. *)
Lemma grant_revoke_target b c (s : Store) stored w tenant id reason now l1 s1 t g :
  keyed (rows s) →
  editLocked b c s stored w (revokeEdit s tenant id reason now) = (l1, s1, t, Err ErrPersistence) →
  match mjoin t with Some g => Some g | None => localTarget l1 tenant id end = Some g →
  validKey (dag_TenantID g) (dag_ID g) = true ∧ (tenant ≠ "" → keyOf g = authKey tenant id).
Proof.
  intros Hs He. pose proof (edit_failed _ _ _ _ _ _ _ _ _ _ He) as Hrows.
  apply edit_cases in He as (m & Hc & Hm).
  assert (∀ k (n : grantsMap), keyed n → n !! k = Some g → validKey (dag_TenantID g) (dag_ID g) = true ∧ keyOf g = k) as Hat.
  { intros k n Hn Hk. by apply Hn in Hk as [? ->]. }
  assert (mjoin t = None → localTarget l1 tenant id = Some g →
    validKey (dag_TenantID g) (dag_ID g) = true ∧ (tenant ≠ "" → keyOf g = authKey tenant id)) as Hlocal.
  { intros _. unfold localTarget. rewrite Hrows. destruct (is_empty tenant) eqn:Ht.
    - destruct (withID id (rows s)) as [|[k g'] []] eqn:Hw; try done. intros [= ->].
      assert ((k, g) ∈ withID id (rows s)) as Hin by (rewrite Hw; by left).
      apply list_elem_of_In, List.filter_In in Hin as [Hin%list_elem_of_In _]. apply elem_of_map_to_list in Hin.
      apply Hat in Hin as [? _]; [|done]. split; [done|]. apply is_empty_true in Ht. done.
    - intros Hg. apply Hat in Hg as [? ->]; done. }
  inversion Hc as [|? t' ? Hedit Hne|? t' m' ? Hedit|? ? ? ? ? Hsome Hbad|]; subst; [by apply Hlocal| |].
  - unfold revokeEdit in Hedit. destruct (targetKey tenant id m) as [key|e] eqn:Hk.
    + destruct (m !! key) as [g0|]; [|done].
      destruct (revokedGrant g0); [|done].
      destruct (pendingAt s key); done.
    + injection Hedit as <- ->. unfold targetKey in Hk. repeat case_match; congruence.
  - destruct Hm as [(m0 & kn & Hm & ->)|(-> & _ & [=] & _)].
    destruct (latest_spec b "" s stored m0 kn Hs Hm) as [Hk0 _].
    apply (applyPending_keyed (pendingRevocations s)) in Hk0. set (m := applyPending _ m0) in *.
    unfold revokeEdit in Hedit. destruct (targetKey tenant id m) as [key|e] eqn:Hk; [|done].
    assert (tenant ≠ "" → key = authKey tenant id) as Hkey.
    { intros Ht. unfold targetKey in Hk. destruct (is_empty tenant) eqn:E; [by apply is_empty_true in E|by injection Hk]. }
    destruct (m !! key) as [g0|] eqn:Hg0; [|done]. pose proof (Hk0 _ _ Hg0) as [Hv0 Hk0'].
    cbn [mjoin option_join]. destruct (revokedGrant g0).
    + destruct (pendingAt s key); [|done]. injection Hedit as <- <-. cbn. intros [= <-]. split; [done|].
      intros Ht. by rewrite <- (Hkey Ht).
    + injection Hedit as <- <-. cbn. intros [= <-]. split; [done|]. intros Ht. by rewrite <- (Hkey Ht).
Qed.

#[export] Instance grantRegistry_laws : RegistryLaws DelegatedAccessGrant pendingRevocation Z op.
Proof.
  intros b c s stored w o k Ho Hs. destruct o as [grant received now|tenant id reason now|tenant].
  - cbn. unfold upsertContext. destruct (validKey _ _) eqn:Hv; [|by left]. cbn [negb]. right.
    destruct (editLocked _ _ _ _ _ _) as [[[l1 s1] t] r] eqn:He.
    pose proof (grant_upsertEdit_guarded s grant received now k Hv) as Hg.
    exists _, (upsertEdit s grant received now), l1, s1, t, r.
    destruct r as [u|e]; [by exists l1|]. destruct e; try (by exists l1). destruct (revokedGrant grant); [|by exists l1].
    eexists. split_and!; [done..|]. apply (latch_put _ grant); [done| |].
    + destruct (rows l1 !! keyOf grant); [by left|by right].
    + destruct (rows l1 !! keyOf grant) eqn:Hr; [done|]. intros Hbad. apply (f_equal (.!! keyOf grant)) in Hbad.
      rewrite lookup_insert_eq, Hr in Hbad. done.
  - cbn. unfold revokeContext. destruct (editLocked _ _ _ _ _ _) as [[[l1 s1] t] r] eqn:He. right.
    pose proof (grant_revokeEdit_guarded s tenant id reason now k) as Hg.
    exists _, (revokeEdit s tenant id reason now), l1, s1, t, r.
    destruct r as [u|e]; [by exists l1|]. destruct e; try (by exists l1).
    destruct (match mjoin t with Some _ => _ | None => _ end) as [g|] eqn:Hg'; [|by exists l1].
    eexists. split_and!; [done..|]. destruct (grant_revoke_target _ _ _ _ _ _ _ _ _ _ _ _ _ Hs He Hg') as [Hv _].
    apply (latch_put _ g); [done|by right|]. intros Heq. rewrite <- Heq, lookup_insert_eq. by eexists.
  - cbn in *. unfold RemoveTenantContext. destruct (is_empty (trim_space tenant)); [by left|]. right.
    destruct (editLocked _ _ _ _ _ _) as [[[l1 s1] t] r] eqn:He.
    exists _, (removeEdit (trim_space tenant)), l1, s1, t, r.
    pose proof (grant_removeEdit_guarded s (trim_space tenant) k Ho) as Hg.
    destruct r as [u|e]; [|by exists l1]. eexists. split_and!; [done..|]. split; try done.
    cbn. rewrite map_lookup_imap. intros [p ->]. cbn. apply String.eqb_neq in Ho. rewrite Ho. by eexists.
Qed.


(** ** What a revocation promises *)

Lemma targetKey_tenant tenant id (m : grantsMap) :
  tenant ≠ "" → targetKey tenant id m = Ok (authKey tenant id).
Proof. unfold targetKey. intros Ht. destruct (is_empty tenant) eqn:E; [by apply is_empty_true in E|done]. Qed.

Lemma revoke_acknowledged b c (s : Store) stored w tenant id reason now l1 s1 t :
  tenant ≠ "" → editLocked b c s stored w (revokeEdit s tenant id reason now) = (l1, s1, t, Ok tt) →
  isRevoked (rows l1) (authKey tenant id) = true ∧ pendingRevocations l1 !! authKey tenant id = None.
Proof.
  intros Ht (m & Hc & _)%edit_cases.
  inversion Hc as [| | |? t' Hedit Hrows Hp|? t' m' ? Hedit Hrows Hp]; subst; unfold revokeEdit in Hedit;
    rewrite targetKey_tenant in Hedit by done.
  - rewrite Hp. unfold isRevoked. destruct (rows l1 !! _) as [g|]; [|done].
    destruct (revokedGrant g) eqn:Hr; [|done]. unfold pendingAt in Hedit. by destruct (pendingRevocations s !! _).
  - assert (isRevoked (rows l1) (authKey tenant id) = true) as Hr.
    { destruct (m !! _) as [g|] eqn:Hg; [|done]. destruct (revokedGrant g) eqn:Hr.
      - destruct (pendingAt s _); [|done]. injection Hedit as _ <-. unfold isRevoked. by rewrite Hg.
      - injection Hedit as _ <-. rewrite isRevoked_insert. by rewrite decide_True by done. }
    by rewrite Hp, unconfirmed_lookup, Hr.
Qed.

(** A revocation that answers with the revoked grant denies from now on: on this process
    at least, and in the authority when the answer is without error. *)
Lemma grant_revoked_safe b c (s : Store) stored w tenant id reason now s' stored' g r :
  keyed (rows s) → (b = Updating → is_Some stored) →
  RevokeForTenantContext b c s stored w tenant id reason now = (s', stored', (g, r)) →
  revokedGrant g = true →
  safe b (authKey tenant id) s' stored' ∧
  (r = Ok tt → b = Updating → diskRevoked (authKey tenant id) stored').
Proof.
  intros Hs Hstored. unfold RevokeForTenantContext. destruct (validKey tenant id) eqn:Hv; [|by intros [= <- <- <- <-]].
  cbn [negb]. apply validKey_nonempty in Hv as [Ht _]. unfold revokeContext.
  destruct (editLocked _ _ _ _ _ _) as [[[l1 s1] t] outcome] eqn:He.
  pose proof (grant_revokeEdit_guarded s tenant id reason now (authKey tenant id)) as Hg.
  destruct outcome as [[]|e].
  - intros [= <- <- <- <-] _. destruct (revoke_acknowledged _ _ _ _ _ _ _ _ _ _ _ _ Ht He) as [Hr Hnone].
    destruct (edit_confirms _ _ _ _ _ _ _ _ _ _ Hg Hs He Hr Hstored) as [Hsafe Hup]. split; [done|].
    intros _ Hb. destruct (Hup Hb) as [|[q Hq]]; [done|]. by rewrite Hnone in Hq.
  - destruct e; try (by intros [= <- <- <- <-]).
    destruct (match mjoin t with Some _ => _ | None => _ end) as [found|] eqn:Hf; [|by intros [= <- <- <- <-]].
    destruct (grant_revoke_target _ _ _ _ _ _ _ _ _ _ _ _ _ Hs He Hf) as [Hv Hkey]. specialize (Hkey Ht).
    pose proof (edit_keyed _ _ _ _ _ _ _ _ _ _ _ Hg Hs He) as Hk1. intros [= <- <- <- <-] _. split; [|done].
    rewrite <- Hkey. assert (is_Some (pendingRevocations (latch (keyOf found) (mkPending (format_rfc3339 now) reason)
                     (<[keyOf found := found]> (rows l1)) l1) !! keyOf found)) as Hpend.
    { cbn. destruct (pendingAt l1 (keyOf found)) eqn:Hp; [by apply grant_pendingAt_true|]. rewrite lookup_insert_eq. by eexists. }
    split; [|by apply applyPending_pending|by left].
    eapply (latched_keyed (keyOf found)); [|done]. by apply latch_put; [..|right|intros <-; rewrite lookup_insert_eq; eexists].
Qed.


End DelegatedGrant.
