(* ===== verification/HumanApproval.v ===== *)
(** * Human approvals ([src/humanapproval/store.go, read_refresh.go])

    The outcomes of approval ceremonies.  Pending and approved events occupy the store, those
    that are over are kept besides; a revoked approval never comes back, and a revocation whose
    save fails still denies on the process that asked for it.  The data path refreshes from the
    shared authority at most every five seconds. *)

From Stdlib Require Import Ascii.
From stdpp Require Import base gmap fin_maps list strings.
From S2P Require Import Prelude Trimmed GoStd Persistence Model Common AuthLedger AuthFleet DelegatedGrant.
Import AuthLedger AuthFleet.

Open Scope Z_scope.

Module HumanApproval.

Definition revokedEvent (e : HumanApprovalEvent) : bool := String.eqb (hae_ApprovalResult e) "revoked".

Definition denyEvent (reason : option string) (e : HumanApprovalEvent) : HumanApprovalEvent :=
  e <| hae_ApprovalResult := "revoked" |> <| hae_Reason := reason |>.

(** The reason of a revocation is the JSON of the record; rows that cannot be attributed are
    skipped when a snapshot is read. *)
#[export] Instance eventRow : AuthRow HumanApprovalEvent (option string) () := {
  rowTenant := hae_TenantID;
  rowID := hae_ID;
  rowRevoked := revokedEvent;
  rereadRow := fun e => e <| hae_Metadata := json_values (hae_Metadata e) |>;
  denyRow := denyEvent;
  skipsInvalid := true;
  counted := fun _ _ x => x;
}.

#[export] Instance eventRow_laws : AuthRowLaws HumanApprovalEvent (option string) ().
Proof. by split. Qed.

Notation Store := (ledger HumanApprovalEvent (option string) ()).
Notation eventsMap := (gmap string HumanApprovalEvent).
Notation authority := (option (document HumanApprovalEvent)).

(** ** Records *)

Definition resultIsTerminal (value : string) : bool :=
  containsString ["denied"; "expired"; "revoked"] value.

Definition validateTransition (existing next : HumanApprovalEvent) : bool :=
  negb (resultIsTerminal (hae_ApprovalResult existing) && String.eqb (hae_ApprovalResult next) "approved")
  && negb (String.eqb (hae_ApprovalResult existing) "revoked"
           && negb (String.eqb (hae_ApprovalResult next) "revoked")).

Definition occupiesApprovalSlot (event : HumanApprovalEvent) (now : Z) : bool :=
  if resultIsTerminal (hae_ApprovalResult event) then false
  else match hae_ExpiresAt event with
       | Some text =>
           if is_empty text then true
           else match parse_rfc3339 text with
                | Some expiry => now <? expiry
                | None => true
                end
       | None => true
       end.

(** A time that must have been reached, or must not: no bound when absent or empty, and
    refused when it cannot be parsed. *)
Definition timeBound (text : option string) (holds : Z → bool) : bool :=
  match text with
  | None => true
  | Some text =>
      if is_empty text then true
      else match parse_rfc3339 text with Some t => holds t | None => false end
  end.

Definition IsActive (event : HumanApprovalEvent) (now : Z) : bool :=
  String.eqb (hae_ApprovalResult event) "approved"
  && timeBound (hae_ActivatedAt event) (fun activatedAt => negb (now <? activatedAt))
  && timeBound (hae_ExpiresAt event) (fun expiresAt => now <? expiresAt).

Definition slotsUsed (next : eventsMap) (now : Z) : Z :=
  Z.of_nat (length (List.filter (fun ke => occupiesApprovalSlot ke.2 now) (map_to_list next))).

Definition pendingAt (s : Store) (key : string) : bool :=
  match pendingRevocations s !! key with Some _ => true | None => false end.

(** ** Edits *)

Definition upsertEdit (s : Store) (event : HumanApprovalEvent) (now : Z) (next : eventsMap)
    : () * result error eventsMap :=
  let key := keyOf event in
  let full := (0 <? capacity s) && occupiesApprovalSlot event now
              && match next !! key with Some old => negb (occupiesApprovalSlot old now) | None => true end
              && (capacity s <=? slotsUsed next now) in
  (tt,
   if pendingAt s key && negb (revokedEvent event) then Err PendingDenial
   else if match next !! key with Some old => negb (validateTransition old event) | None => false end
   then Err BadTransition
   else if full then Err ErrCapacity
   else Ok (<[key := event]> next)).

Definition UpsertContext (b : backing) (cancelled : bool) (s : Store) (stored : authority)
    (w : write_outcome) (event : HumanApprovalEvent) (now : Z)
    : Store * authority * result error HumanApprovalEvent :=
  if negb (validKey (hae_TenantID event) (hae_ID event)) then (s, stored, Err InvalidKey) else
  let '(s, stored, _, outcome) := editLocked b cancelled s stored w (upsertEdit s event now) in
  match outcome with
  | Err e => (s, stored, Err e)
  | Ok _ => (s, stored, Ok event)
  end.

Definition revokeEdit (tenant id reason : string) (next : eventsMap)
    : option HumanApprovalEvent * result error eventsMap :=
  match targetKey tenant id next with
  | Err e => (None, Err e)
  | Ok key =>
      match next !! key with
      | None => (None, Err NoChange)
      | Some result =>
          let result := if revokedEvent result then result else denyEvent (stringPtr reason) result in
          (Some result, Ok (<[key := result]> next))
      end
  end.

(** The event with what was found, and the outcome. *)
Definition revokeContext (b : backing) (cancelled : bool) (s : Store) (stored : authority)
    (w : write_outcome) (tenant id reason : string)
    : Store * authority * (option HumanApprovalEvent * result error unit) :=
  let '(s, stored, found, outcome) := editLocked b cancelled s stored w (revokeEdit tenant id reason) in
  let found := match mjoin found, outcome with
               | Some e, _ => Some e
               | None, Err ErrPersistence =>
                   if is_empty tenant then None
                   else denyEvent (stringPtr reason) <$> rows s !! authKey tenant id
               | None, _ => None
               end in
  match outcome, found with
  | Err _, Some result =>
      (s <| pendingRevocations := <[keyOf result := hae_Reason result]> (pendingRevocations s) |>
         <| rows := <[keyOf result := result]> (rows s) |>, stored, (found, outcome))
  | _, _ => (s, stored, (found, outcome))
  end.

Definition RevokeForTenantContext (b : backing) (cancelled : bool) (s : Store) (stored : authority)
    (w : write_outcome) (tenant id reason : string)
    : Store * authority * (option HumanApprovalEvent * result error unit) :=
  if negb (validKey tenant id) then (s, stored, (None, Err InvalidKey))
  else revokeContext b cancelled s stored w tenant id reason.

(** [Revoke]: without a tenant. *)
Definition Revoke (b : backing) (s : Store) (stored : authority) (w : write_outcome) (id reason : string) :=
  revokeContext b false s stored w "" id reason.

Definition ofTenant (tenant : string) (e : HumanApprovalEvent) : bool := String.eqb (hae_TenantID e) tenant.

Definition CountForTenant (s : Store) (tenantID : string) : Z :=
  let tenantID := trim_space tenantID in
  if is_empty tenantID then 0
  else Z.of_nat (length (List.filter (ofTenant tenantID) (rowsList s))).

Definition removeEdit (tenant : string) (next : eventsMap) : Z * result error eventsMap :=
  let kept := map_imap (fun _ e => if ofTenant tenant e then None else Some e) next in
  let n := Z.of_nat (size next) - Z.of_nat (size kept) in
  (n, if n =? 0 then Err NoChange else Ok kept).

Definition RemoveTenantContext (b : backing) (cancelled : bool) (s : Store) (stored : authority)
    (w : write_outcome) (tenant : string) : Store * authority * result error Z :=
  let tenant := trim_space tenant in
  if is_empty tenant then (s, stored, Ok 0) else
  let '(s, stored, n, outcome) := editLocked b cancelled s stored w (removeEdit tenant) in
  match outcome with
  | Err e => (s, stored, Err e)
  | Ok _ =>
      (s <| pendingRevocations := map_imap (fun key p => if has_prefix key (tenant +:+ nul) then None else Some p)
                                    (pendingRevocations s) |>, stored, Ok (default 0 n))
  end.

Definition GetActive (b : backing) (s : Store) (loaded : option authority) (id : string) (now : Z)
    : Store * option HumanApprovalEvent :=
  let '(s, found) := Get b s loaded id in
  (s, match found with Some e => if IsActive e now then Some e else None | None => None end).

Definition SetStatePath (b : backing) (s : Store) (path : string) (loaded : option authority) :=
  if is_blank path then SetPersister Memory s loaded else SetPersister b s loaded.

(** ** Reads of the data path *)

(** The ledger with the last refresh of a read and what it answered. *)
Record Reader := mkReader {
  rd_store : Store;
  rd_refreshAt : Z;
  rd_refreshOk : bool;
}.

(** [clock] is the clock of the read, in one instant. *)
Definition refreshForRead (b : backing) (r : Reader) (loaded : option authority) (clock : Z)
    : Reader * bool :=
  if time_sub clock (rd_refreshAt r) <? 5 * second then (r, rd_refreshOk r)
  else let '(s, outcome) := RefreshShared b (rd_store r) loaded in
       (mkReader s clock (is_ok outcome), is_ok outcome).

Definition GetForAuthorization (b : backing) (r : Reader) (loaded : option authority)
    (tenant id : string) (clock : Z) : Reader * option HumanApprovalEvent :=
  if negb (validKey tenant id) then (r, None) else
  let '(r, ok) := refreshForRead b r loaded clock in
  (r, if ok then rows (rd_store r) !! authKey tenant id else None).

(** ** The operations behind the interface [Registry] *)

Inductive op :=
  | OUpsert (event : HumanApprovalEvent) (now : Z)
  | ORevoke (tenant id reason : string)
  | ORemove (tenant : string).

Definition performOp (b : backing) (cancelled : bool) (s : Store) (stored : authority)
    (w : write_outcome) (o : op) : Store * authority :=
  match o with
  | OUpsert event now => (UpsertContext b cancelled s stored w event now).1
  | ORevoke tenant id reason => (revokeContext b cancelled s stored w tenant id reason).1
  | ORemove tenant => (RemoveTenantContext b cancelled s stored w tenant).1
  end.

Definition sparesKey (key : string) (o : op) : Prop :=
  match o with ORemove tenant => has_prefix key (trim_space tenant +:+ nul) = false | _ => True end.

#[export] Instance eventRegistry : Registry HumanApprovalEvent (option string) () op := {
  perform := performOp;
  spares := sparesKey;
}.

Lemma authKey_prefix t i : has_prefix (authKey t i) (t +:+ nul) = true.
Proof. apply has_prefix_spec. exists i. unfold authKey. by rewrite string_app_assoc. Qed.

Lemma approval_pendingAt_true s k : pendingAt s k = true ↔ is_Some (pendingRevocations s !! k).
Proof. unfold pendingAt. destruct (_ !! k); split; first [done|by intros [? ?]|by eauto]. Qed.

Lemma approval_revoked_stays (o e : HumanApprovalEvent) :
  validateTransition o e = true → revokedEvent o = true → revokedEvent e = true.
Proof.
  unfold validateTransition, revokedEvent. intros [_ Ht]%andb_true_iff Ho. rewrite Ho in Ht. cbn in Ht.
  by rewrite negb_involutive in Ht.
Qed.

Lemma approval_upsertEdit_ok s event now m t m' :
  upsertEdit s event now m = (t, Ok m') →
  m' = <[keyOf event := event]> m ∧
  (∀ old, m !! keyOf event = Some old → validateTransition old event = true) ∧
  (is_Some (pendingRevocations s !! keyOf event) → revokedEvent event = true).
Proof.
  unfold upsertEdit. destruct (pendingAt s _ && _) eqn:Hp; [done|].
  destruct (match m !! keyOf event with Some _ => negb (validateTransition _ _) | None => _ end) eqn:Hv; [done|].
  destruct (_ && _ && _ && _); [done|]. intros [= <- <-]. split_and!; [done| |].
  - intros old Hold. rewrite Hold in Hv. by destruct (validateTransition old event).
  - intros Hpend%approval_pendingAt_true. rewrite Hpend in Hp. by destruct (revokedEvent event).
Qed.

Lemma approval_upsertEdit_guarded s event now k :
  validKey (hae_TenantID event) (hae_ID event) = true →
  guarded (pendingRevocations s) k (upsertEdit s event now).
Proof.
  intros Hv. split; intros m t m' Hm (-> & Htrans & Hpend)%approval_upsertEdit_ok.
  - by apply keyed_insert.
  - intros Hr. rewrite isRevoked_insert. case_decide as Hk; [subst k|done]. cbn in *. unfold isRevoked in Hr.
    destruct (m !! keyOf event) as [old|]; [|done]. by apply (approval_revoked_stays old); [apply Htrans|].
  - intros Hp Hd r [[<- <-]|[Hne Hr]]%lookup_insert_Some; [by apply Hpend|by apply Hd].
Qed.

(** A revocation puts a revoked record under the key it was found at. *)
Lemma revokeEdit_ok tenant id reason m t m' :
  revokeEdit tenant id reason m = (t, Ok m') →
  ∃ k e e', targetKey tenant id m = Ok k ∧ m !! k = Some e ∧ t = Some e' ∧ m' = <[k := e']> m ∧
    revokedEvent e' = true ∧ keyOf e' = keyOf e ∧
    validKey (rowTenant e') (rowID e') = validKey (rowTenant e) (rowID e).
Proof.
  unfold revokeEdit. destruct (targetKey tenant id m) as [k|]; [|done].
  destruct (m !! k) as [e|] eqn:He; [|done]. intros [= <- <-]. exists k, e. eexists.
  split_and!; [done..| | |]; by destruct (revokedEvent e) eqn:Hr.
Qed.

Lemma approval_revokeEdit_guarded (s : Store) tenant id reason k :
  guarded (pendingRevocations s) k (revokeEdit tenant id reason).
Proof.
  split; intros m t m' Hm (k' & e & e' & _ & He & -> & -> & Hr' & Hkey & Hvalid)%revokeEdit_ok.
  - apply Hm in He as [Hv ->]. rewrite <- Hkey. apply keyed_insert; [by rewrite Hvalid|done].
  - intros Hr. rewrite isRevoked_insert. by case_decide.
  - intros _ Hd r [[_ <-]|[_ Hr]]%lookup_insert_Some; [done|by apply Hd].
Qed.

Lemma approval_removeEdit_guarded (s : Store) tenant k :
  has_prefix k (tenant +:+ nul) = false → guarded (pendingRevocations s) k (removeEdit tenant).
Proof.
  intros Hk. assert (∀ m t m', removeEdit tenant m = (t, Ok m') → ∀ k,
    m' !! k = m !! k ≫= fun e => if ofTenant tenant e then None else Some e) as Hcase.
  { intros m t m'. unfold removeEdit. destruct (_ =? 0); [done|]. intros [= _ <-] k'. by rewrite map_lookup_imap. }
  assert (∀ m t m', keyed m → removeEdit tenant m = (t, Ok m') → m' !! k = m !! k) as Hsame.
  { intros m t m' Hm He. rewrite (Hcase m t m' He). destruct (m !! k) as [e|] eqn:Hg; [|done]. cbn.
    destruct (ofTenant tenant e) eqn:Ht; [|done]. apply Hm in Hg as [Hv ->].
    unfold ofTenant in Ht. apply String.eqb_eq in Ht. cbn in *. unfold keyOf in Hk. cbn in Hk.
    by rewrite Ht, authKey_prefix in Hk. }
  split; intros m t m' Hm He.
  - intros k' r. rewrite (Hcase m t m' He). destruct (m !! k') as [e|] eqn:Hg; [|done]. cbn.
    destruct (ofTenant tenant e); [done|]. intros [= <-]. by apply Hm.
  - unfold isRevoked. by rewrite (Hsame m t m').
  - intros _ Hd r. rewrite (Hsame m t m') by done. apply Hd.
Qed.

(** A revoked record put under its own key, and remembered. *)
Lemma put_latched e (s : Store) k :
  validKey (hae_TenantID e) (hae_ID e) = true → revokedEvent e = true →
  latched k s (s <| pendingRevocations := <[keyOf e := hae_Reason e]> (pendingRevocations s) |>
                 <| rows := <[keyOf e := e]> (rows s) |>).
Proof.
  intros Hv Hr. split; cbn.
  - by apply keyed_insert.
  - intros Hp. rewrite lookup_insert. case_decide; [by eexists|done].
  - intros Hd r [[_ <-]|[_ Hr']]%lookup_insert_Some; [done|by apply Hd].
  - intros Hk. rewrite isRevoked_insert. by case_decide.
Qed.

(** What a revocation that could not be saved is about. *)
Lemma approval_revoke_target b c (s : Store) stored w tenant id reason l1 s1 t e found :
  keyed (rows s) →
  editLocked b c s stored w (revokeEdit tenant id reason) = (l1, s1, t, Err e) →
  match mjoin t, e with
  | Some x, _ => Some x
  | None, ErrPersistence =>
      if is_empty tenant then None else denyEvent (stringPtr reason) <$> rows l1 !! authKey tenant id
  | None, _ => None
  end = Some found →
  e = ErrPersistence ∧ revokedEvent found = true ∧
  validKey (hae_TenantID found) (hae_ID found) = true ∧ (tenant ≠ "" → keyOf found = authKey tenant id).
Proof.
  intros Hs He. pose proof (edit_failed _ _ _ _ _ _ _ _ _ _ He) as Hrows.
  apply edit_cases in He as (m & Hc & Hm).
  inversion Hc as [|? t' ? Hedit Hne|? t' m' ? Hedit| |]; subst.
  - cbn. destruct (is_empty tenant) eqn:Ht; [done|]. rewrite Hrows.
    intros (e0 & Hk & ->)%fmap_Some. apply Hs in Hk as [Hv Hk]. split_and!; [done..|]. by intros _.
  - unfold revokeEdit in Hedit. destruct (targetKey tenant id m) as [key|e'] eqn:Hk.
    + destruct (m !! key) as [e0|]; [done|]. by injection Hedit as <- <-.
    + injection Hedit as <- ->. unfold targetKey in Hk. destruct (is_empty tenant); [|done].
      destruct (withID id m) as [|[? ?] []]; try done. injection Hk as <-. done.
  - destruct Hm as [(m0 & kn & Hm & ->)|(-> & _ & [=] & _)].
    destruct (latest_spec b "" s stored m0 kn Hs Hm) as [Hk0 _].
    apply (applyPending_keyed (pendingRevocations s)) in Hk0.
    apply revokeEdit_ok in Hedit as (k & e0 & e1 & Hk & He0 & -> & -> & Hr & Hkey & Hvalid).
    cbn. intros [= <-]. apply Hk0 in He0 as [Hv Hk1]. split_and!; [done..|by cbn in Hvalid; rewrite Hvalid|].
    intros Ht. rewrite Hkey, <- Hk1. unfold targetKey in Hk.
    destruct (is_empty tenant) eqn:E; [by apply is_empty_true in E|by injection Hk].
Qed.

#[export] Instance eventRegistry_laws : RegistryLaws HumanApprovalEvent (option string) () op.
Proof.
  intros b c s stored w o k Ho Hs. destruct o as [event now|tenant id reason|tenant].
  - cbn. unfold UpsertContext. destruct (validKey _ _) eqn:Hv; [|by left]. cbn [negb]. right.
    destruct (editLocked _ _ _ _ _ _) as [[[l1 s1] t] r] eqn:He.
    pose proof (approval_upsertEdit_guarded s event now k Hv) as Hg.
    exists _, (upsertEdit s event now), l1, s1, t, r, l1. by destruct r.
  - cbn. unfold revokeContext. destruct (editLocked _ _ _ _ _ _) as [[[l1 s1] t] r] eqn:He. right.
    pose proof (approval_revokeEdit_guarded s tenant id reason k) as Hg.
    exists _, (revokeEdit tenant id reason), l1, s1, t, r.
    destruct r as [u|e]; [by exists l1|].
    destruct (match mjoin t with Some _ => _ | None => _ end) as [found|] eqn:Hf; [|by exists l1].
    destruct (approval_revoke_target _ _ _ _ _ _ _ _ _ _ _ _ found Hs He Hf) as (-> & Hr & Hv & _).
    eexists. split_and!; [done..|]. by apply put_latched.
  - cbn in *. unfold RemoveTenantContext. destruct (is_empty (trim_space tenant)); [by left|]. right.
    destruct (editLocked _ _ _ _ _ _) as [[[l1 s1] t] r] eqn:He.
    exists _, (removeEdit (trim_space tenant)), l1, s1, t, r.
    pose proof (approval_removeEdit_guarded s (trim_space tenant) k Ho) as Hg.
    destruct r as [u|e]; [|by exists l1]. eexists. split_and!; [done..|]. split; try done.
    cbn. rewrite map_lookup_imap. intros [p ->]. cbn. rewrite Ho. by eexists.
Qed.


(** ** What a revocation promises *)

(** A revocation that found the approval denies it from now on: on this process at least,
    and in the authority when the answer is without error. *)
Lemma approval_revoked_safe b c (s : Store) stored w tenant id reason s' stored' e r :
  keyed (rows s) → (b = Updating → is_Some stored) →
  RevokeForTenantContext b c s stored w tenant id reason = (s', stored', (Some e, r)) →
  safe b (authKey tenant id) s' stored' ∧
  (r = Ok tt → b = Updating → diskRevoked (authKey tenant id) stored').
Proof.
  intros Hs Hstored. unfold RevokeForTenantContext. destruct (validKey tenant id) eqn:Hv; [|done].
  cbn [negb]. apply validKey_nonempty in Hv as [Ht _]. unfold revokeContext.
  destruct (editLocked _ _ _ _ _ _) as [[[l1 s1] t] outcome] eqn:He.
  pose proof (approval_revokeEdit_guarded s tenant id reason (authKey tenant id)) as Hg.
  destruct outcome as [[]|e'].
  - destruct (mjoin t) as [e0|] eqn:Hfound; [|done]. intros [= <- <- -> <-].
    assert (isRevoked (rows l1) (authKey tenant id) = true ∧ pendingRevocations l1 !! authKey tenant id = None) as [Hr Hnone].
    { pose proof He as (m & Hc & _)%edit_cases.
      inversion Hc as [| | |? t' Hedit Hrows Hp|? t' m' ? Hedit Hrows Hp]; subst.
      - unfold revokeEdit in Hedit. destruct (targetKey tenant id _); [|by injection Hedit as <- _].
        destruct (rows l1 !! _); [done|by injection Hedit as <-].
      - apply revokeEdit_ok in Hedit as (k & e0 & e1 & Hk & _ & _ & Hm & Hr & _). unfold targetKey in Hk.
        destruct (is_empty tenant) eqn:E; [by apply is_empty_true in E|]. injection Hk as <-.
        assert (isRevoked (rows l1) (authKey tenant id) = true) as Hrev
          by (by rewrite Hm, isRevoked_insert, decide_True by done).
        split; [done|]. by rewrite Hp, unconfirmed_lookup, Hrev. }
    destruct (edit_confirms _ _ _ _ _ _ _ _ _ _ Hg Hs He Hr Hstored) as [Hsafe Hup]. split; [done|].
    intros _ Hb. destruct (Hup Hb) as [|[q Hq]]; [done|]. by rewrite Hnone in Hq.
  - destruct (match mjoin t with Some _ => _ | None => _ end) as [found|] eqn:Hf; [|done].
    destruct (approval_revoke_target _ _ _ _ _ _ _ _ _ _ _ _ found Hs He Hf) as (-> & Hr & Hv & Hkey). specialize (Hkey Ht).
    pose proof (edit_keyed _ _ _ _ _ _ _ _ _ _ _ Hg Hs He) as Hk1. intros [= <- <- <- <-]. split; [|done].
    rewrite <- Hkey. split; cbn.
    + by apply keyed_insert.
    + intros r. rewrite lookup_insert_eq. by intros [= <-].
    + left. rewrite lookup_insert_eq. by eexists.
Qed.


End HumanApproval.
