(* ===== verification/NonHuman.v ===== *)
(** * Non-human identities ([src/nhi/registry.go, risk.go, snapshot.go])

    The registry of agents and automations: its durable store, the evidence a request of an
    agent must show, and the risk signals that policies read. *)

From Stdlib Require Import Ascii.
From stdpp Require Import base gmap fin_maps list strings.
From S2P Require Import Prelude Trimmed GoStd Persistence Model Common AuthLedger.

Open Scope Z_scope.

Module NonHuman.

Inductive error :=
  | IDRequired | TenantMismatch (own tenant : string) | TenantRequired | ContainsNUL
  | NameRequired | TypeRequired | OwnerRequired | InvalidStatus (status : string)
  | NotRFC3339 (field : string)
  | InvalidSnapshot | ErrPersistence
  | ReferenceError (status : Z) (message : string).

(** ** Records *)

Definition identityKey (tenant id : string) : string := tenant +:+ AuthLedger.nul +:+ id.

Definition statusValid (status : string) : bool :=
  containsString ["active"; "suspended"; "expired"; "revoked"] status.

(** An optional time: blank as it is, otherwise trimmed when it can be parsed. *)
Definition validateOptionalRFC3339 (value : option string) (field : string) : result error (option string) :=
  match value with
  | None => Ok None
  | Some text =>
      if is_blank text then Ok (Some text)
      else match parse_rfc3339 (trim_space text) with
           | Some _ => Ok (Some (trim_space text))
           | None => Err (NotRFC3339 field)
           end
  end.

(** Trimmed, without blanks and repetitions. *)
Definition normalizedStringList (values : list string) : list string :=
  foldl (fun result value =>
    let normalized := trim_space value in
    if is_empty normalized || containsString result normalized then result
    else result ++ [normalized]) [] values.

Definition Normalize (identity : NonHumanIdentity) (tenantID : string) : result error NonHumanIdentity :=
  let id := trim_space (nhi_ID identity) in
  let own := trim_space (nhi_TenantID identity) in
  if is_empty id then Err IDRequired
  else if nonempty tenantID && nonempty own && negb (String.eqb own tenantID)
  then Err (TenantMismatch own tenantID) else
  let tenant := if nonempty tenantID then tenantID else own in
  if is_empty tenant then Err TenantRequired
  else if negb (AuthLedger.no_nul tenant) || negb (AuthLedger.no_nul id) then Err ContainsNUL else
  let name := trim_space (nhi_Name identity) in
  if is_empty name then Err NameRequired else
  let kind := trim_space (nhi_NHIType identity) in
  if is_empty kind then Err TypeRequired else
  let owner := trim_space (nhi_OwnerUserID identity) in
  if is_empty owner then Err OwnerRequired else
  let status := valueOrDefault (trim_space (nhi_Status identity)) "active" in
  if negb (statusValid status) then Err (InvalidStatus status) else
  let! lastUsedAt := validateOptionalRFC3339 (nhi_LastUsedAt identity) "last_used_at" in
  let! expiresAt := validateOptionalRFC3339 (nhi_ExpiresAt identity) "expires_at" in
  Ok (identity <| nhi_ID := id |> <| nhi_TenantID := tenant |> <| nhi_Name := name |>
        <| nhi_NHIType := kind |> <| nhi_OwnerUserID := owner |> <| nhi_Status := status |>
        <| nhi_LastUsedAt := lastUsedAt |> <| nhi_ExpiresAt := expiresAt |>
        <| nhi_AllowedApplicationIDs := normalizedStringList (nhi_AllowedApplicationIDs identity) |>
        <| nhi_AllowedScopes := normalizedStringList (nhi_AllowedScopes identity) |>).

(** A list of what is allowed: when it is empty, everything unless the list is enforced. *)
Definition listAllows (identity : NonHumanIdentity) (allowed : list string) (value : string) : bool :=
  match allowed with
  | [] => negb (nhi_AllowlistEnforced identity)
  | _ => let value := trim_space value in
         nonempty value && existsb (fun a => String.eqb (trim_space a) value) allowed
  end.

Definition ApplicationAllowed (identity : NonHumanIdentity) (applicationID : string) : bool :=
  listAllows identity (nhi_AllowedApplicationIDs identity) applicationID.

Definition ScopeAllowed (identity : NonHumanIdentity) (requestedScope : string) : bool :=
  listAllows identity (nhi_AllowedScopes identity) requestedScope.

(** The first scope that is refused; the empty one when a scope is required. *)
Definition FirstDisallowedScope (identity : NonHumanIdentity) (requestedScopes : list string)
    : option string :=
  let normalized := normalizedStringList requestedScopes in
  match nhi_AllowedScopes identity with
  | [] => if negb (nhi_AllowlistEnforced identity) then None else Some (default "" (head normalized))
  | _ => List.find (fun scope => negb (ScopeAllowed identity scope)) normalized
  end.

Definition isActive (identity : NonHumanIdentity) (now : Z) : bool :=
  String.eqb (nhi_Status identity) "active"
  && match nhi_ExpiresAt identity with
     | None => true
     | Some text =>
         if is_blank text then true
         else match parse_rfc3339 (trim_space text) with
              | Some expiresAt => now <? expiresAt
              | None => false
              end
     end.

(** ** The store *)

Notation identitiesMap := (gmap string NonHumanIdentity).
Notation document := (AuthLedger.document NonHumanIdentity).

Record Store := mkStore {
  st_identities : identitiesMap;
  st_generation : Z;
}.

#[export] Instance Store_eta : Etaable Store := fun s => mkStore (st_identities s) (st_generation s).

Definition json_identity (i : NonHumanIdentity) : NonHumanIdentity :=
  i <| nhi_Metadata := json_values (nhi_Metadata i) |>.

(** Rows are attributed by what they say, whatever key they were saved under. *)
Definition restoreIdentity (_ : string) (identity : NonHumanIdentity) (fresh : option identitiesMap)
    : option identitiesMap :=
  match fresh with
  | None => None
  | Some fresh =>
      let tenant := nhi_TenantID identity in
      let id := nhi_ID identity in
      if negb (String.eqb (trim_space tenant) tenant) || negb (String.eqb (trim_space id) id) then None
      else if is_empty tenant || is_empty id || negb (AuthLedger.no_nul tenant) || negb (AuthLedger.no_nul id)
      then None
      else match fresh !! identityKey tenant id with
           | Some _ => None
           | None => Some (<[identityKey tenant id := identity]> fresh)
           end
  end.

Definition decodeRegistry (d : document) : option identitiesMap :=
  match d with
  | AuthLedger.Unreadable => None
  | AuthLedger.Document saved => map_fold restoreIdentity (Some ∅) saved
  end.

Definition SetPersister (b : backing) (s : Store) (loaded : option (option document))
    : result error Store :=
  match b with
  | Memory => Ok s
  | _ =>
      match loaded with
      | None => Err ErrPersistence
      | Some None => Ok s
      | Some (Some d) =>
          match decodeRegistry d with
          | Some fresh => Ok (s <| st_identities := fresh |>)
          | None => Err InvalidSnapshot
          end
      end
  end.

(** [saveSnapshotLocked]: the outcome and what is stored. *)
Definition saveSnapshotLocked (b : backing) (stored : option document) (w : write_outcome)
    (identities : identitiesMap) : option document * bool :=
  match b with
  | Memory => (stored, true)
  | _ => (diskAfter w stored (AuthLedger.Document (json_identity <$> identities)),
          match w with Written => true | _ => false end)
  end.

Definition NewStore (items : list NonHumanIdentity) : Store :=
  mkStore (foldl (fun m item =>
    match Normalize item (nhi_TenantID item) with
    | Ok n => <[identityKey (nhi_TenantID n) (nhi_ID n) := n]> m
    | Err _ => m
    end) ∅ items) 0.

Definition Upsert (b : backing) (s : Store) (stored : option document) (w : write_outcome)
    (identity : NonHumanIdentity) (tenantID : string)
    : Store * option document * result error NonHumanIdentity :=
  match Normalize identity tenantID with
  | Err e => (s, stored, Err e)
  | Ok normalized =>
      let candidate := <[identityKey (nhi_TenantID normalized) (nhi_ID normalized) := normalized]>
                         (st_identities s) in
      match saveSnapshotLocked b stored w candidate with
      | (disk, true) =>
          (mkStore candidate ((st_generation s + 1) mod 2 ^ 64), disk, Ok normalized)
      | (disk, false) => (s, disk, Err ErrPersistence)
      end
  end.

Definition List_ (s : Store) (tenantID : string) : list NonHumanIdentity :=
  sort_stable (lex_string_lt nhi_ID)
    (List.filter (fun i => String.eqb (nhi_TenantID i) tenantID) (map_to_list (st_identities s)).*2).

(** A use is recorded even when it cannot be saved. *)
Definition MarkUsed (b : backing) (s : Store) (stored : option document) (w : write_outcome)
    (tenantID actorNHIID : string) (now : Z) : Store * option document * bool :=
  let tenantID := trim_space tenantID in
  let actorNHIID := trim_space actorNHIID in
  if is_empty tenantID || is_empty actorNHIID then (s, stored, false) else
  match st_identities s !! identityKey tenantID actorNHIID with
  | None => (s, stored, false)
  | Some identity =>
      if negb (String.eqb (nhi_TenantID identity) tenantID) then (s, stored, false) else
      let identities := <[identityKey tenantID actorNHIID :=
                           identity <| nhi_LastUsedAt := Some (format_rfc3339 now) |>]> (st_identities s) in
      (s <| st_identities := identities |>, (saveSnapshotLocked b stored w identities).1, true)
  end.

(** ** What the rest of the program asks *)

(** The interface [RuntimeStore]: the identities of a tenant, or a failure. *)
Class RuntimeStore (S : Type) := identitiesOf : S → string → option (list NonHumanIdentity).

#[export] Instance Store_RuntimeStore : RuntimeStore Store := fun s tenantID => Some (List_ s tenantID).

Record UsageReference := mkUsage { us_ApplicationID : string; us_Scopes : list string }.

Definition stringPtrValue (value : option string) : string := default "" value.

Definition UsageFromHumanApprovalEvent (event : HumanApprovalEvent) : UsageReference :=
  mkUsage (stringPtrValue (hae_ApplicationID event))
    (hae_RequestedScopes event ++ match hae_ActionType event with Some a => [a] | None => [] end).

Definition UsageFromDelegatedGrant (grant : DelegatedAccessGrant) : UsageReference :=
  mkUsage (stringPtrValue (dag_ApplicationID grant)) (dag_Scopes grant).

Section queries.
Context {S : Type} `{RuntimeStore S}.

Definition CountActive (s : S) (tenantID : string) (now : Z) : option Z :=
  (fun l => Z.of_nat (length (List.filter (fun i => isActive i now) l))) <$> identitiesOf s tenantID.

Definition ValidateUsageReference (store : option S) (tenantID actorNHIID : string)
    (usage : UsageReference) (now : Z) : result error unit :=
  let actorNHIID := trim_space actorNHIID in
  match store with
  | None => Ok tt
  | Some store =>
      if is_empty actorNHIID then Ok tt else
      match identitiesOf store tenantID with
      | None => Err (ReferenceError 500 "non-human identity registry is unavailable")
      | Some [] => Ok tt
      | Some identities =>
          match List.find (fun i => String.eqb (nhi_ID i) actorNHIID) identities with
          | None => Err (ReferenceError 404 ("non-human identity " +:+ actorNHIID +:+ " is not registered"))
          | Some identity =>
              if negb (isActive identity now)
              then Err (ReferenceError 403 ("non-human identity " +:+ actorNHIID +:+ " is not active"))
              else if negb (is_blank (us_ApplicationID usage))
                      && negb (ApplicationAllowed identity (us_ApplicationID usage))
              then Err (ReferenceError 403 ("non-human identity " +:+ actorNHIID
                     +:+ " is not allowed for application " +:+ trim_space (us_ApplicationID usage)))
              else match FirstDisallowedScope identity (us_Scopes usage) with
                   | None => Ok tt
                   | Some scope => Err (ReferenceError 403 ("non-human identity " +:+ actorNHIID +:+
                       (if is_empty scope then " requires an allowed scope"
                        else " is not allowed for scope " +:+ scope)))
                   end
          end
      end
  end.

(** The reason and the code of the evidence that is missing. *)
Definition ValidateRuntimeEvidence (store : option S) (req : DecisionRequest)
    (tenantID actorNHIID : string) (now : Z) : result (string * string) unit :=
  let actorNHIID := trim_space actorNHIID in
  match store with
  | None => Ok tt
  | Some store =>
      match identitiesOf store tenantID with
      | None => Err ("Non-Human Identity Registry is unavailable.", "nhi_registry_unavailable")
      | Some [] => Ok tt
      | Some identities =>
          if is_empty actorNHIID
          then Err ("Non-Human Identity is required for delegated agent access.", "nhi_registry_absent")
          else match List.find (fun i => String.eqb (nhi_ID i) actorNHIID) identities with
          | None => Err ("Non-Human Identity " +:+ actorNHIID +:+ " is not registered.", "nhi_registry_absent")
          | Some identity =>
              if negb (isActive identity now)
              then Err ("Non-Human Identity " +:+ actorNHIID +:+ " is not active.", "nhi_inactive")
              else if negb (ApplicationAllowed identity (req_ApplicationID req))
              then Err ("Non-Human Identity " +:+ actorNHIID +:+ " is not allowed for application "
                        +:+ req_ApplicationID req +:+ ".", "nhi_application_not_allowed")
              else if negb (ScopeAllowed identity (req_ToolActionType req))
              then Err ("Non-Human Identity " +:+ actorNHIID +:+ " is not allowed for scope "
                        +:+ req_ToolActionType req +:+ ".", "nhi_scope_not_allowed")
              else Ok tt
          end
      end
  end.

(** ** Risk *)

Definition longLivedThreshold : Z := 90 * 24 * 3600 * second.
Definition unusedThreshold : Z := 30 * 24 * 3600 * second.

(** An optional time that is absent, blank, or satisfies the test. *)
Definition missingOr (text : option string) (holds : Z → bool) : bool :=
  match text with
  | None => true
  | Some text =>
      if is_blank text then true
      else match parse_rfc3339 (trim_space text) with Some t => holds t | None => false end
  end.

Definition ComputeRiskSignals (nhi : NonHumanIdentity) (now : Z) : list string * string :=
  let ownerUnset := is_blank (nhi_OwnerUserID nhi) in
  let longLived := missingOr (nhi_ExpiresAt nhi) (fun t => now + longLivedThreshold <? t) in
  let overbroad := negb (nhi_AllowlistEnforced nhi) || (length (nhi_AllowedApplicationIDs nhi) =? 0)%nat
                   || existsb (fun s => String.eqb (trim_space s) "*") (nhi_AllowedScopes nhi) in
  let unused := missingOr (nhi_LastUsedAt nhi) (fun t => t <? now - unusedThreshold) in
  let sigs := when ownerUnset ["owner_unset"] ++ when longLived ["no_expiry_long_lived"]
              ++ when overbroad ["scope_overbroad"] ++ when unused ["unused"] in
  (sigs, if ownerUnset || (2 <=? length sigs)%nat then "high"
         else if (length sigs =? 1)%nat then "medium" else "none").

Definition severityRank (s : string) : Z :=
  if String.eqb s "high" then 2 else if String.eqb s "medium" then 1 else 0.

Record RiskRow := mkRiskRow {
  rr_ID : string; rr_Name : string; rr_NHIType : string; rr_Severity : string; rr_Signals : list string }.

(** The rows of the report, most severe first. *)
Definition riskRows (nhis : list NonHumanIdentity) (now : Z) : list RiskRow :=
  sort_stable (lex_Z (fun r => - severityRank (rr_Severity r)) (lex_string_lt rr_ID))
    (List.map (fun i => let '(sigs, sev) := ComputeRiskSignals i now in
                        mkRiskRow (nhi_ID i) (nhi_Name i) (nhi_NHIType i) sev sigs) nhis).

(** What a client says of its risk is discarded first. *)
Definition EnrichDecisionRequestWithRisk (req : DecisionRequest) (store : option S) (now : Z)
    : DecisionRequest :=
  let req := req <| req_NHIRiskSeverity := "" |> in
  match store with
  | None => req
  | Some store =>
      if is_blank (req_ActorNHIID req) then req else
      match identitiesOf store (req_TenantID req) with
      | None => req
      | Some l =>
          match List.find (fun i => String.eqb (nhi_ID i) (req_ActorNHIID req)) l with
          | Some i => req <| req_NHIRiskSeverity := (ComputeRiskSignals i now).2 |>
          | None => req
          end
      end
  end.

End queries.

Definition needsStrictAllowlist (identity : NonHumanIdentity) : bool :=
  containsString ["ai_agent"; "automation"] (to_lower (trim_space (nhi_NHIType identity))).

(** The codes of the warnings about an identity. *)
Definition governanceWarnings (identity : NonHumanIdentity) (now : Z) : list string :=
  if negb (isActive identity now) || negb (needsStrictAllowlist identity) then []
  else when (negb (nhi_AllowlistEnforced identity) && (length (nhi_AllowedApplicationIDs identity) =? 0)%nat)
         ["empty_allowed_application_ids"]
       ++ when (negb (nhi_AllowlistEnforced identity) && (length (nhi_AllowedScopes identity) =? 0)%nat)
         ["empty_allowed_scopes"].

End NonHuman.
