(* ===== verification/RuntimeEvidence.v ===== *)
(** * Evidence of delegated access ([src/cmd/dsse-edge/delegated_access.go, main.go])

    A decision that allows an agent still needs evidence when the request runs: a registered
    identity, a live delegated grant that fits the request and, where one is required, a live
    human approval that fits both.  Anything missing turns the allow into a denial. *)

From Stdlib Require Import Ascii.
From stdpp Require Import base gmap fin_maps list strings.
From S2P Require Import Prelude Trimmed GoStd Persistence Model Common Conditions PolicyOrder.
From S2P Require Import SaaSCatalog Guards Evaluator Decision MatchedPolicy AuthLedger AuthFleet DelegatedGrant HumanApproval NonHuman.
Import AuthLedger AuthFleet NonHuman.

Open Scope Z_scope.

Module RuntimeEvidence.

#[local] Existing Instances DelegatedGrant.grantRow DelegatedGrant.grantRow_laws.
#[local] Existing Instances HumanApproval.eventRow HumanApproval.eventRow_laws.

Definition maxHumanApprovalTTL : Z := 24 * 3600 * second.
Definition maxDelegatedGrantTTL : Z := 24 * 3600 * second.

Definition isDelegatedActorType (actorType : string) : bool :=
  String.eqb actorType "delegated_agent" || String.eqb actorType "nhi".

(** Two identifiers that are both given and differ. *)
Definition differs (bound : option string) (asked : string) : bool :=
  match bound with
  | Some v => nonempty v && nonempty asked && negb (String.eqb v asked)
  | None => false
  end.

(** The first violated condition. *)
Fixpoint firstViolation (checks : list (bool * string)) : result string unit :=
  match checks with
  | [] => Ok tt
  | (violated, message) :: rest => if violated then Err message else firstViolation rest
  end.

Definition validateDelegatedGrantContext (grant : DelegatedAccessGrant) (req : DecisionRequest)
    : result string unit :=
  firstViolation [
    (nonempty (req_ActorNHIID req) && negb (String.eqb (dag_ActorNHIID grant) (req_ActorNHIID req)),
     "Delegated Access Grant actor_nhi_id does not match the request");
    (nonempty (req_SubjectUserID req) && negb (String.eqb (dag_SubjectUserID grant) (req_SubjectUserID req)),
     "Delegated Access Grant subject_user_id does not match the request");
    (differs (dag_DeviceID grant) (req_DeviceID req),
     "Delegated Access Grant device_id does not match the request");
    (differs (dag_ApplicationID grant) (req_ApplicationID req),
     "Delegated Access Grant application_id does not match the request");
    ((0 <? length (dag_ToolIDs grant))%nat && nonempty (req_ToolID req)
     && negb (containsString (dag_ToolIDs grant) (req_ToolID req)),
     "Delegated Access Grant does not allow the requested tool")].

Definition validateHumanApprovalContext (approval : HumanApprovalEvent) (grant : DelegatedAccessGrant)
    (req : DecisionRequest) : result string unit :=
  firstViolation [
    (differs (hae_ActorNHIID approval) (req_ActorNHIID req),
     "Human Approval Event actor_nhi_id does not match the request");
    (differs (hae_SubjectUserID approval) (req_SubjectUserID req),
     "Human Approval Event subject_user_id does not match the request");
    (match hae_DelegatedAccessGrantID approval with
     | Some v => nonempty v && negb (String.eqb v (dag_ID grant))
     | None => false
     end, "Human Approval Event delegated_access_grant_id does not match the grant");
    (match dag_ApprovalEventID grant with
     | Some v => nonempty v && negb (String.eqb v (hae_ID approval))
     | None => false
     end, "Delegated Access Grant approval_event_id does not match the approval");
    (differs (hae_ApplicationID approval) (req_ApplicationID req),
     "Human Approval Event application_id does not match the request");
    (differs (hae_ActionType approval) (req_ToolActionType req),
     "Human Approval Event action_type does not match the request")].

(** A pointer to a text in a [map[string]any]. *)
Definition ptrValue (p : option string) : any := match p with Some s => VStr s | None => VNil end.

Definition markRuntimeEvidenceAllowed (dec : AccessDecision) (grant : DelegatedAccessGrant)
    (approval : option HumanApprovalEvent) : AccessDecision :=
  dec <| dec_Metadata := set_keys (dec_Metadata dec)
    ([("runtime_evidence_result", VStr "valid"); ("delegated_grant_status", VStr (dag_Status grant));
      ("delegated_grant_expires_at", VStr (dag_ExpiresAt grant))]
     ++ match approval with
        | Some a => [("approval_result", VStr (hae_ApprovalResult a));
                     ("approval_expires_at", ptrValue (hae_ExpiresAt a))]
        | None => []
        end) |>.

Definition denyRuntimeEvidence (dec : AccessDecision) (reason evidenceResult : string) : AccessDecision :=
  dec <| dec_Decision := "deny" |> <| dec_Reason := Some reason |>
    <| dec_ReasonCodes := ["policy_matched"; evidenceResult] |>
    <| dec_Actions := [zero_DecisionAction <| act_Type := "emit_audit_event" |>
         <| act_Metadata := {["runtime_evidence_result" := VStr evidenceResult]} |>] |>
    <| dec_TTLSeconds := 30 |>
    <| dec_Metadata := <["runtime_evidence_result" := VStr evidenceResult]> (dec_Metadata dec) |>.

(** The policy the decision was made by, recognised by identifier and recorded tenant. *)
Definition policyForDecision (e : Evaluator) (dec : AccessDecision) : option Policy :=
  match dec_Metadata dec !! "matched_policy_tenant_id" with
  | Some (VStr matchedTenant) =>
      if is_empty (dec_PolicyID dec)
         || (nonempty matchedTenant && negb (String.eqb matchedTenant (dec_TenantID dec)))
      then None
      else List.find (fun p => String.eqb (pol_ID p) (dec_PolicyID dec)
                               && String.eqb (pol_TenantID p) matchedTenant) (ev_Policies e)
  | _ => None
  end.

Definition derivedDecisionActorType (req : DecisionRequest) : string :=
  if negb (is_blank (req_DelegatedAccessGrantID req)) || negb (is_blank (req_AgentTaskSessionID req))
  then "delegated_agent"
  else if negb (is_blank (req_ActorNHIID req))
  then (if negb (is_blank (req_ToolID req)) || negb (is_blank (req_ToolActionType req))
           || negb (is_blank (req_HumanApprovalEventID req))
        then "delegated_agent" else "nhi")
  else "human".

(** A field the request leaves blank. *)
Definition fillBlank (own offered : string) : string := if is_blank own then trim_space offered else own.

(** What a client says of its actor type is discarded; a grant of its tenant fills what the
    request leaves blank. *)
Definition deriveDecisionRequestActor (b : backing) (req : DecisionRequest)
    (delegatedGrants : option DelegatedGrant.Store) (loaded : option DelegatedGrant.authority)
    : option DelegatedGrant.Store * DecisionRequest :=
  let grantID := trim_space (req_DelegatedAccessGrantID req) in
  let tenant := trim_space (req_TenantID req) in
  let finish (r : DecisionRequest) := r <| req_ActorType := derivedDecisionActorType r |> in
  match delegatedGrants with
  | None => (None, finish req)
  | Some s =>
      if is_empty grantID then (Some s, finish req) else
      match GetForTenant b s loaded tenant grantID with
      | (s, None) => (Some s, finish req)
      | (s, Some grant) =>
          if negb (String.eqb (trim_space (dag_TenantID grant)) tenant) then (Some s, finish req)
          else (Some s, finish (req
                 <| req_ActorNHIID := fillBlank (req_ActorNHIID req) (dag_ActorNHIID grant) |>
                 <| req_SubjectUserID := fillBlank (req_SubjectUserID req) (dag_SubjectUserID grant) |>
                 <| req_HumanApprovalEventID :=
                      match dag_ApprovalEventID grant with
                      | Some a => fillBlank (req_HumanApprovalEventID req) a
                      | None => req_HumanApprovalEventID req
                      end |>))
      end
  end.

(** What the evidence is taken from: the stores of the process, what their authorities
    answer, and the clocks. *)
Record sources (S : Type) := mkSources {
  src_registry : option S;
  src_grants : DelegatedGrant.Store;
  src_grantsLoaded : option DelegatedGrant.authority;
  src_approvals : HumanApproval.Reader;
  src_approvalsLoaded : option HumanApproval.authority;
  src_grantsBacking : backing;
  src_approvalsBacking : backing;
  src_now : Z;
  src_readClock : Z;
}.
Arguments mkSources {S}.
Arguments src_registry {S}.
Arguments src_grants {S}.
Arguments src_grantsLoaded {S}.
Arguments src_approvals {S}.
Arguments src_approvalsLoaded {S}.
Arguments src_grantsBacking {S}.
Arguments src_approvalsBacking {S}.
Arguments src_now {S}.
Arguments src_readClock {S}.

#[export] Instance sources_eta S : Etaable (sources S) := fun s =>
  mkSources (src_registry s) (src_grants s) (src_grantsLoaded s) (src_approvals s)
    (src_approvalsLoaded s) (src_grantsBacking s) (src_approvalsBacking s) (src_now s) (src_readClock s).

Section evidence.
Context {S : Type} `{RuntimeStore S}.

(** The grant and what is checked of it. *)
Definition grantEvidence (src : sources S) (dec : AccessDecision) (req : DecisionRequest)
    : sources S * result (string * string) DelegatedAccessGrant :=
  let absent := ("Delegated Access Grant was not found.", "delegated_grant_absent") in
  let grantID := req_DelegatedAccessGrantID req in
  if is_empty grantID
  then (src, Err ("Delegated Access Grant is required for delegated agent access.", "delegated_grant_absent"))
  else
  let '(s, found) := GetForTenant (src_grantsBacking src) (src_grants src) (src_grantsLoaded src)
                       (dec_TenantID dec) grantID in
  (src <| src_grants := s |>,
   match found with
   | None => Err absent
   | Some grant =>
       if negb (String.eqb (dag_TenantID grant) (dec_TenantID dec))
       then Err ("Delegated Access Grant tenant does not match the decision tenant.", "delegated_grant_mismatch")
       else if String.eqb (dag_Status grant) "revoked"
       then Err ("Delegated Access Grant has been revoked.", "delegated_grant_revoked")
       else if negb (DelegatedGrant.IsActive grant (src_now src))
       then Err ("Delegated Access Grant is not active.", "delegated_grant_expired")
       else match validateDelegatedGrantContext grant req with
            | Err message => Err (message, "delegated_grant_mismatch")
            | Ok _ => Ok grant
            end
   end).

(** The approval and what is checked of it. *)
Definition approvalEvidence (src : sources S) (dec : AccessDecision) (req : DecisionRequest)
    (grant : DelegatedAccessGrant) (approvalID : string)
    : sources S * result (string * string) HumanApprovalEvent :=
  if is_empty approvalID
  then (src, Err ("Human Approval Event is required for this delegated agent access.", "approval_absent"))
  else
  let '(r, found) := HumanApproval.GetForAuthorization (src_approvalsBacking src) (src_approvals src)
                       (src_approvalsLoaded src) (dec_TenantID dec) approvalID (src_readClock src) in
  (src <| src_approvals := r |>,
   match found with
   | None => Err ("Human Approval Event was not found.", "approval_absent")
   | Some approval =>
       if negb (String.eqb (hae_TenantID approval) (dec_TenantID dec))
       then Err ("Human Approval Event tenant does not match the decision tenant.", "approval_mismatch")
       else if String.eqb (hae_ApprovalResult approval) "revoked"
       then Err ("Human Approval Event has been revoked.", "approval_revoked")
       else if negb (HumanApproval.IsActive approval (src_now src))
       then Err ("Human Approval Event is not active.", "approval_expired")
       else match validateHumanApprovalContext approval grant req with
            | Err message => Err (message, "approval_mismatch")
            | Ok _ => Ok approval
            end
   end).

Definition requiresApproval (policy : option Policy) (req : DecisionRequest) (grant : DelegatedAccessGrant)
    : bool :=
  match policy with Some p => pol_RequiredHumanApproval p | None => false end
  || nonempty (req_HumanApprovalEventID req)
  || nonempty (stringPtrValue (dag_ApprovalEventID grant)).

Definition approvalIDFor (req : DecisionRequest) (grant : DelegatedAccessGrant) : string :=
  valueOrDefault (req_HumanApprovalEventID req) (stringPtrValue (dag_ApprovalEventID grant)).

(** [id] is the drawn identifier of the decision. *)
Definition evaluateWithRuntimeEvidence (src : sources S) (e : Evaluator) (req : DecisionRequest)
    (id : string) : sources S * AccessDecision :=
  let dec := Evaluate e req id (src_now src) in
  if negb (String.eqb (dec_Decision dec) "allow") || negb (isDelegatedActorType (dec_ActorType dec))
  then (src, dec) else
  let policy := policyForDecision e dec in
  match ValidateRuntimeEvidence (src_registry src) req (dec_TenantID dec) (req_ActorNHIID req) (src_now src) with
  | Err (reason, result) => (src, denyRuntimeEvidence dec reason result)
  | Ok _ =>
      match grantEvidence src dec req with
      | (src, Err (reason, result)) => (src, denyRuntimeEvidence dec reason result)
      | (src, Ok grant) =>
          if negb (requiresApproval policy req grant)
          then (src, markRuntimeEvidenceAllowed dec grant None)
          else match approvalEvidence src dec req grant (approvalIDFor req grant) with
               | (src, Err (reason, result)) => (src, denyRuntimeEvidence dec reason result)
               | (src, Ok approval) => (src, markRuntimeEvidenceAllowed dec grant (Some approval))
               end
      end
  end.

End evidence.

(** ** Records that are authored *)

Inductive error :=
  | OtherTenant (own expected : string) | SubjectRequired | ActorRequired | InvalidStatus (status : string)
  | InvalidResult (value : string) | ApproverRequired | ActionTypeRequired.

Definition validDelegatedGrantStatus (value : string) : bool :=
  containsString ["active"; "expired"; "revoked"] value.

Definition validHumanApprovalResult (value : string) : bool :=
  containsString ["approved"; "denied"; "expired"; "revoked"] value.

(** A lifetime in seconds, within the limit. *)
Definition cappedTTL (ttl limit : Z) : Z :=
  if limit <? wrap64 (ttl * second) then Z.quot limit second else ttl.

Definition expiryAfter (now ttl : Z) : string := format_rfc3339 (now + wrap64 (ttl * second)).

(** [freshID] is the identifier that is drawn when there is none. *)
Definition normalizeDelegatedAccessGrant (grant : DelegatedAccessGrant) (expectedTenantID : string)
    (now : Z) (freshID : string) : result error DelegatedAccessGrant :=
  let tenant := valueOrDefault (dag_TenantID grant) expectedTenantID in
  if nonempty expectedTenantID && negb (String.eqb tenant expectedTenantID)
  then Err (OtherTenant tenant expectedTenantID)
  else if is_empty (dag_SubjectUserID grant) then Err SubjectRequired
  else if is_empty (dag_ActorNHIID grant) then Err ActorRequired else
  let status := valueOrDefault (dag_Status grant) "active" in
  if negb (validDelegatedGrantStatus status) then Err (InvalidStatus status) else
  let ttl := match dag_MaxSessionDuration grant with Some n => if 0 <? n then n else 1800 | None => 1800 end in
  Ok (grant <| dag_ID := valueOrDefault (dag_ID grant) freshID |> <| dag_TenantID := tenant |>
        <| dag_Status := status |>
        <| dag_CreatedAt := if is_empty (stringPtrValue (dag_CreatedAt grant))
                            then stringPtr (format_rfc3339 now) else dag_CreatedAt grant |>
        <| dag_ExpiresAt := if is_empty (dag_ExpiresAt grant)
                            then expiryAfter now (cappedTTL ttl maxDelegatedGrantTTL)
                            else dag_ExpiresAt grant |>).

Definition normalizeHumanApprovalEvent (event : HumanApprovalEvent) (expectedTenantID : string)
    (now : Z) (freshID : string) : result error HumanApprovalEvent :=
  let tenant := valueOrDefault (hae_TenantID event) expectedTenantID in
  let approved := String.eqb (hae_ApprovalResult event) "approved" in
  if nonempty expectedTenantID && negb (String.eqb tenant expectedTenantID)
  then Err (OtherTenant tenant expectedTenantID)
  else if negb (validHumanApprovalResult (hae_ApprovalResult event))
  then Err (InvalidResult (hae_ApprovalResult event))
  else if approved && is_empty (stringPtrValue (hae_ApproverUserID event)) then Err ApproverRequired
  else if is_empty (stringPtrValue (hae_ActorNHIID event)) then Err ActorRequired
  else if is_empty (stringPtrValue (hae_ActionType event)) then Err ActionTypeRequired else
  let ttl := intMetadata (hae_Metadata event) "approval_ttl_seconds" 1800 in
  let ttl := if ttl <=? 0 then 1800 else ttl in
  Ok (event <| hae_ID := valueOrDefault (hae_ID event) freshID |> <| hae_TenantID := tenant |>
        <| hae_ApprovalSource := valueOrDefault (hae_ApprovalSource event) "admin_console" |>
        <| hae_CreatedAt := valueOrDefault (hae_CreatedAt event) (format_rfc3339 now) |>
        <| hae_ActivatedAt := if approved && is_empty (stringPtrValue (hae_ActivatedAt event))
                              then stringPtr (format_rfc3339 now) else hae_ActivatedAt event |>
        <| hae_ExpiresAt := if approved && is_empty (stringPtrValue (hae_ExpiresAt event))
                            then stringPtr (expiryAfter now (cappedTTL ttl maxHumanApprovalTTL))
                            else hae_ExpiresAt event |>).

(** * Properties *)

(** What the evidence comes to, without the order of the checks. *)
Record grantFits (g : DelegatedAccessGrant) (req : DecisionRequest) : Prop := {
  fits_actor : req_ActorNHIID req = "" ∨ dag_ActorNHIID g = req_ActorNHIID req;
  fits_subject : req_SubjectUserID req = "" ∨ dag_SubjectUserID g = req_SubjectUserID req;
  fits_device : differs (dag_DeviceID g) (req_DeviceID req) = false;
  fits_application : differs (dag_ApplicationID g) (req_ApplicationID req) = false;
  fits_tool : dag_ToolIDs g = [] ∨ req_ToolID req = "" ∨ req_ToolID req ∈ dag_ToolIDs g;
}.

Record approvalFits (a : HumanApprovalEvent) (g : DelegatedAccessGrant) (req : DecisionRequest) : Prop := {
  fits_approved_actor : differs (hae_ActorNHIID a) (req_ActorNHIID req) = false;
  fits_approved_subject : differs (hae_SubjectUserID a) (req_SubjectUserID req) = false;
  fits_approved_grant v : hae_DelegatedAccessGrantID a = Some v → v = "" ∨ v = dag_ID g;
  fits_approval v : dag_ApprovalEventID g = Some v → v = "" ∨ v = hae_ID a;
  fits_approved_application : differs (hae_ApplicationID a) (req_ApplicationID req) = false;
  fits_approved_action : differs (hae_ActionType a) (req_ToolActionType req) = false;
}.

Lemma firstViolation_ok l : firstViolation l = Ok tt ↔ Forall (fun c => c.1 = false) l.
Proof.
  induction l as [|[[] m] l IH]; cbn; [done| |].
  - split; [done|]. by intros [? _]%Forall_cons.
  - rewrite IH, Forall_cons. cbn. naive_solver.
Qed.

Lemma nonempty_eqb x y : nonempty x && negb (String.eqb y x) = false ↔ x = "" ∨ y = x.
Proof.
  unfold nonempty, is_empty. destruct (String.eqb_spec x ""), (String.eqb_spec y x); cbn; naive_solver.
Qed.

Lemma ptr_eqb (p : option string) x :
  match p with Some v => nonempty v && negb (String.eqb v x) | None => false end = false ↔
  ∀ v, p = Some v → v = "" ∨ v = x.
Proof.
  destruct p as [v|]; [|naive_solver]. unfold nonempty, is_empty.
  destruct (String.eqb_spec v ""), (String.eqb_spec v x); cbn; naive_solver.
Qed.

Lemma grantContext_ok g req : validateDelegatedGrantContext g req = Ok tt ↔ grantFits g req.
Proof.
  unfold validateDelegatedGrantContext. rewrite firstViolation_ok. rewrite !Forall_cons. cbn [fst].
  rewrite !nonempty_eqb.
  assert ((0 <? length (dag_ToolIDs g))%nat && nonempty (req_ToolID req)
          && negb (containsString (dag_ToolIDs g) (req_ToolID req)) = false ↔
          dag_ToolIDs g = [] ∨ req_ToolID req = "" ∨ req_ToolID req ∈ dag_ToolIDs g) as ->.
  { rewrite <- containsString_spec, <- is_empty_true. unfold nonempty.
    destruct (dag_ToolIDs g), (is_empty _), (containsString _ _); cbn; naive_solver. }
  split; [intros (? & ? & ? & ? & ? & _); by split|intros []; by repeat split].
Qed.

Lemma approvalContext_ok a g req : validateHumanApprovalContext a g req = Ok tt ↔ approvalFits a g req.
Proof.
  unfold validateHumanApprovalContext. rewrite firstViolation_ok. rewrite !Forall_cons. cbn [fst].
  rewrite !ptr_eqb. split; [intros (? & ? & ? & ? & ? & ? & _); by split|intros []; by repeat split].
Qed.

#[local] Arguments validateDelegatedGrantContext : simpl never.
#[local] Arguments validateHumanApprovalContext : simpl never.
#[local] Arguments GetForTenant : simpl never.
#[local] Arguments HumanApproval.GetForAuthorization : simpl never.

Section properties.
Context {S : Type} `{RuntimeStore S}.

(** A text that bounds a time from above: absent, or a time still to come. *)
Definition notOver (text : string) (now : Z) : Prop := ∃ t, parse_rfc3339 text = Some t ∧ now < t.

(** The allow list of an identity: empty and not enforced, or it has the value. *)
Definition listed (i : NonHumanIdentity) (allowed : list string) (value : string) : Prop :=
  allowed = [] ∧ nhi_AllowlistEnforced i = false ∨
  trim_space value ≠ "" ∧ ∃ a, a ∈ allowed ∧ trim_space a = trim_space value.

Record goodIdentity (i : NonHumanIdentity) (req : DecisionRequest) (now : Z) : Prop := {
  identity_status : nhi_Status i = "active";
  identity_expiry text : nhi_ExpiresAt i = Some text → is_blank text = true ∨ notOver (trim_space text) now;
  identity_application : listed i (nhi_AllowedApplicationIDs i) (req_ApplicationID req);
  identity_scope : listed i (nhi_AllowedScopes i) (req_ToolActionType req);
}.

(** Nothing is known against the agent: the process has no registry, the registry of the
    tenant is empty, or it has the agent, active and allowed. *)
Inductive vouchedIdentity (src : sources S) (dec : AccessDecision) (req : DecisionRequest) : Prop :=
  | without_registry : src_registry src = None → vouchedIdentity src dec req
  | with_empty_registry store :
      src_registry src = Some store → identitiesOf store (dec_TenantID dec) = Some [] → vouchedIdentity src dec req
  | with_registered_identity store l i :
      src_registry src = Some store → identitiesOf store (dec_TenantID dec) = Some l →
      trim_space (req_ActorNHIID req) ≠ "" →
      List.find (fun i => String.eqb (nhi_ID i) (trim_space (req_ActorNHIID req))) l = Some i →
      goodIdentity i req (src_now src) → vouchedIdentity src dec req.

Record liveGrant (src : sources S) (dec : AccessDecision) (req : DecisionRequest) (g : DelegatedAccessGrant) : Prop := {
  live_found : (GetForTenant (src_grantsBacking src) (src_grants src) (src_grantsLoaded src)
                  (dec_TenantID dec) (req_DelegatedAccessGrantID req)).2 = Some g;
  live_tenant : dag_TenantID g = dec_TenantID dec;
  live_status : dag_Status g = "active";
  live_expiry : is_blank (dag_ExpiresAt g) = true ∨ notOver (dag_ExpiresAt g) (src_now src);
  live_fits : grantFits g req;
}.

Record liveApproval (src : sources S) (dec : AccessDecision) (req : DecisionRequest)
    (g : DelegatedAccessGrant) (a : HumanApprovalEvent) : Prop := {
  approved_found : (HumanApproval.GetForAuthorization (src_approvalsBacking src) (src_approvals src)
                      (src_approvalsLoaded src) (dec_TenantID dec) (approvalIDFor req g) (src_readClock src)).2 = Some a;
  approved_tenant : hae_TenantID a = dec_TenantID dec;
  approved_result : hae_ApprovalResult a = "approved";
  approved_begin text : hae_ActivatedAt a = Some text → text = "" ∨ ∃ t, parse_rfc3339 text = Some t ∧ t ≤ src_now src;
  approved_expiry text : hae_ExpiresAt a = Some text → text = "" ∨ notOver text (src_now src);
  approved_fits : approvalFits a g req;
}.

Lemma notOver_iff text now :
  match parse_rfc3339 text with Some t => now <? t | None => false end = true ↔ notOver text now.
Proof.
  unfold notOver. destruct (parse_rfc3339 text) as [t|]; [|naive_solver]. rewrite Z.ltb_lt. naive_solver.
Qed.

Lemma listAllows_iff i allowed value : listAllows i allowed value = true ↔ listed i allowed value.
Proof.
  unfold listAllows, listed. destruct allowed as [|a0 allowed].
  - rewrite negb_true_iff. split; [by left|]. by intros [[_ ?]|(_ & a & Ha%not_elem_of_nil & _)].
  - cbv zeta. unfold nonempty. rewrite andb_true_iff, negb_true_iff, existsb_exists.
    setoid_rewrite String.eqb_eq. setoid_rewrite <- list_elem_of_In.
    rewrite <- not_true_iff_false, is_empty_true. naive_solver.
Qed.

Lemma identity_active i now :
  isActive i now = true ↔
  nhi_Status i = "active" ∧ ∀ text, nhi_ExpiresAt i = Some text → is_blank text = true ∨ notOver (trim_space text) now.
Proof.
  unfold isActive. rewrite andb_true_iff, String.eqb_eq. apply and_iff_compat_l.
  destruct (nhi_ExpiresAt i) as [text|]; [|naive_solver]. destruct (is_blank text) eqn:Hb.
  - split; [|done]. intros _ ? [= <-]. by left.
  - rewrite notOver_iff. split; [intros Hn ? [= <-]; by right|].
    intros Hn. by destruct (Hn text eq_refl) as [Hb'|]; [rewrite Hb in Hb'|].
Qed.

Lemma grant_active (g : DelegatedAccessGrant) now :
  DelegatedGrant.IsActive g now = true ↔
  dag_Status g = "active" ∧ (is_blank (dag_ExpiresAt g) = true ∨ notOver (dag_ExpiresAt g) now).
Proof.
  unfold DelegatedGrant.IsActive. destruct (String.eqb_spec (dag_Status g) "active"); cbn [negb]; [|naive_solver].
  destruct (is_blank _) eqn:Hb; [naive_solver|]. rewrite notOver_iff.
  split; [by intros; split; [|right]|]. by intros (_ & [|]).
Qed.

Lemma approval_active (a : HumanApprovalEvent) now :
  HumanApproval.IsActive a now = true ↔
  hae_ApprovalResult a = "approved" ∧
  (∀ text, hae_ActivatedAt a = Some text → text = "" ∨ ∃ t, parse_rfc3339 text = Some t ∧ t ≤ now) ∧
  (∀ text, hae_ExpiresAt a = Some text → text = "" ∨ notOver text now).
Proof.
  assert (∀ (o : option string) (holds : Z → bool) (P : Z → Prop), (∀ t, holds t = true ↔ P t) →
    HumanApproval.timeBound o holds = true ↔
    ∀ text, o = Some text → text = "" ∨ ∃ t, parse_rfc3339 text = Some t ∧ P t) as Hbound.
  { intros o holds P HP. unfold HumanApproval.timeBound. destruct o as [text|]; [|naive_solver].
    destruct (is_empty text) eqn:He; [apply is_empty_true in He; naive_solver|].
    assert (text ≠ "") by (intros Ht; apply is_empty_true in Ht; congruence).
    destruct (parse_rfc3339 text) as [t|] eqn:Hp; [rewrite HP|]; naive_solver. }
  unfold HumanApproval.IsActive. rewrite !andb_true_iff, String.eqb_eq.
  rewrite (Hbound _ _ (fun t => t ≤ now)), (Hbound _ _ (fun t => now < t)); [by rewrite Logic.and_assoc|intros; apply Z.ltb_lt|].
  intros t. by rewrite negb_true_iff, Z.ltb_ge.
Qed.

Lemma identity_ok src dec req :
  ValidateRuntimeEvidence (src_registry src) req (dec_TenantID dec) (req_ActorNHIID req) (src_now src) = Ok tt ↔
  vouchedIdentity src dec req.
Proof.
  unfold ValidateRuntimeEvidence. destruct (src_registry src) as [store|] eqn:Hs; [|split; [intros _; by apply without_registry|done]].
  destruct (identitiesOf store (dec_TenantID dec)) as [l|] eqn:Hl.
  2: { split; [done|]. intros [|store' H1 H2|store' l i H1 H2]; congruence. }
  destruct l as [|i0 l]; [split; [intros _; by eapply with_empty_registry|done]|]. set (l' := i0 :: l) in *.
  assert (∀ i, goodIdentity i req (src_now src) ↔ isActive i (src_now src) = true ∧
    ApplicationAllowed i (req_ApplicationID req) = true ∧ ScopeAllowed i (req_ToolActionType req) = true) as Hgood.
  { intros i. unfold ApplicationAllowed, ScopeAllowed. rewrite identity_active, !listAllows_iff.
    split; [by intros []|intros ([] & ? & ?); by split]. }
  assert (vouchedIdentity src dec req ↔ trim_space (req_ActorNHIID req) ≠ "" ∧
    ∃ i, List.find (fun i => String.eqb (nhi_ID i) (trim_space (req_ActorNHIID req))) l' = Some i ∧
         goodIdentity i req (src_now src)) as ->.
  { split; [|intros (? & i & ? & ?); by eapply with_registered_identity].
    intros [H1|store' H1 H2|store' l1 i H1 H2 Hne Hf Hg]; rewrite Hs in H1; [done|..]; injection H1 as <-;
      rewrite Hl in H2; [done|]. injection H2 as <-. split; [done|]. by exists i. }
  destruct (is_empty (trim_space (req_ActorNHIID req))) eqn:He.
  { apply is_empty_true in He. rewrite He. naive_solver. }
  assert (trim_space (req_ActorNHIID req) ≠ "") as Hne by (intros H0; apply is_empty_true in H0; congruence).
  destruct (List.find _ l') as [i|]; [|naive_solver]. pose proof (Hgood i) as Hi.
  destruct (isActive _ _), (ApplicationAllowed _ _), (ScopeAllowed _ _); cbn [negb]; naive_solver.
Qed.

Lemma grant_found b s loaded tenant id : id = "" → (GetForTenant (R := DelegatedAccessGrant) b s loaded tenant id).2 = None.
Proof.
  intros ->. unfold GetForTenant. destruct (RefreshShared b s loaded) as [s' []]; [|done]. cbn.
  unfold validKey. cbn. by rewrite andb_false_r.
Qed.

Lemma revoked_not_active (g : DelegatedAccessGrant) now :
  DelegatedGrant.IsActive g now = true → String.eqb (dag_Status g) "revoked" = false.
Proof.
  unfold DelegatedGrant.IsActive. by destruct (String.eqb_spec (dag_Status g) "active") as [-> | ].
Qed.

Lemma grantEvidence_ok src dec req g :
  (grantEvidence src dec req).2 = Ok g ↔ liveGrant src dec req g.
Proof.
  unfold grantEvidence. destruct (is_empty (req_DelegatedAccessGrantID req)) eqn:He.
  { apply is_empty_true in He. split; [done|]. intros [Hf _ _ _ _]. by rewrite grant_found in Hf. }
  destruct (GetForTenant _ _ _ _ _) as [s found] eqn:Hg. cbn. split.
  - destruct found as [g'|]; [|done]. destruct (String.eqb_spec (dag_TenantID g') (dec_TenantID dec)) as [Ht|]; [cbn|done].
    destruct (String.eqb _ "revoked"); [done|]. destruct (DelegatedGrant.IsActive g' _) eqn:Ha; [cbn|done].
    destruct (validateDelegatedGrantContext g' req) as [[]|] eqn:Hc; [|done]. intros [= <-].
    apply grantContext_ok in Hc. apply grant_active in Ha as [? ?]. split; [by rewrite Hg|done..].
  - intros [Hf Ht Hs He' Hc]. assert (DelegatedGrant.IsActive g (src_now src) = true) as Ha by by apply grant_active.
    rewrite Hg in Hf. cbn in Hf. subst found. apply grantContext_ok in Hc.
    rewrite Ht, String.eqb_refl, (revoked_not_active _ _ Ha), Ha, Hc. done.
Qed.

Lemma approval_not_revoked (a : HumanApprovalEvent) now :
  HumanApproval.IsActive a now = true → String.eqb (hae_ApprovalResult a) "revoked" = false.
Proof. unfold HumanApproval.IsActive. by destruct (String.eqb_spec (hae_ApprovalResult a) "approved") as [-> | ]. Qed.

Lemma approvalEvidence_ok src dec req g a :
  (approvalEvidence src dec req g (approvalIDFor req g)).2 = Ok a ↔ liveApproval src dec req g a.
Proof.
  unfold approvalEvidence. destruct (is_empty (approvalIDFor req g)) eqn:He.
  { apply is_empty_true in He. split; [done|]. intros [Hf _ _ _ _ _]. rewrite He in Hf. unfold HumanApproval.GetForAuthorization in Hf.
    unfold validKey in Hf. cbn in Hf. by rewrite andb_false_r in Hf. }
  destruct (HumanApproval.GetForAuthorization _ _ _ _ _ _) as [r found] eqn:Hg. cbn. split.
  - destruct found as [a'|]; [|done]. destruct (String.eqb_spec (hae_TenantID a') (dec_TenantID dec)) as [Ht|]; [cbn|done].
    destruct (String.eqb _ "revoked"); [done|]. destruct (HumanApproval.IsActive a' _) eqn:Ha; [cbn|done].
    destruct (validateHumanApprovalContext a' g req) as [[]|] eqn:Hc; [|done]. intros [= <-].
    apply approvalContext_ok in Hc. apply approval_active in Ha as (? & ? & ?). split; [by rewrite Hg|done..].
  - intros [Hf Ht Hs Hb' He' Hc]. assert (HumanApproval.IsActive a (src_now src) = true) as Ha by by apply approval_active.
    rewrite Hg in Hf. cbn in Hf. subst found. apply approvalContext_ok in Hc.
    rewrite Ht, String.eqb_refl, (approval_not_revoked _ _ Ha), Ha, Hc. done.
Qed.

(** Reading the grant leaves the approvals alone. *)
Lemma grantEvidence_approvals src dec req g a :
  liveApproval (grantEvidence src dec req).1 dec req g a ↔ liveApproval src dec req g a.
Proof.
  assert (∀ s, liveApproval (src <| src_grants := s |>) dec req g a ↔ liveApproval src dec req g a) as Hs.
  { intros s. split; intros []; by split. }
  unfold grantEvidence. destruct (is_empty _); [done|]. destruct (GetForTenant _ _ _ _ _) as [s found]. apply Hs.
Qed.

(** What the evidence comes to, with the policy the code looks up. *)
Lemma evidence_allow_iff (src : sources S) e req id :
  let dec := Evaluate e req id (src_now src) in
  dec_Decision (evaluateWithRuntimeEvidence src e req id).2 = "allow" ↔
  dec_Decision dec = "allow" ∧
  (isDelegatedActorType (dec_ActorType dec) = true →
   vouchedIdentity src dec req ∧
   ∃ g, liveGrant src dec req g ∧
     (requiresApproval (policyForDecision e dec) req g = true → ∃ a, liveApproval src dec req g a)).
Proof.
  cbv zeta. unfold evaluateWithRuntimeEvidence. generalize (Evaluate e req id (src_now src)). intros dec.
  destruct (String.eqb_spec (dec_Decision dec) "allow") as [Hallow|Hallow]; cbn [negb orb]; [|by naive_solver].
  destruct (isDelegatedActorType (dec_ActorType dec)); cbn [negb snd]; [|by naive_solver].
  rewrite <- identity_ok.
  destruct (ValidateRuntimeEvidence _ _ _ _ _) as [[]|[reason result]]; [|by split; [|intros [_ Hev]; destruct (Hev eq_refl)]].
  setoid_rewrite <- grantEvidence_ok. setoid_rewrite <- grantEvidence_approvals.
  destruct (grantEvidence src dec req) as [src' [g|[reason result]]]; cbn [fst snd];
    [|by split; [|intros [_ Hev]; destruct (Hev eq_refl) as (_ & ? & ? & _)]].
  setoid_rewrite <- approvalEvidence_ok.
  destruct (requiresApproval _ req g) eqn:Hreq; cbn [negb snd].
  - destruct (approvalEvidence src' dec req g _) as [src'' [a|[reason result]]] eqn:Ha; cbn [snd].
    + split; [|done]. intros _. split; [done|]. intros _. split; [done|]. exists g. split; [done|]. intros _. exists a. by rewrite Ha.
    + split; [done|]. intros [_ Hev]. destruct (Hev eq_refl) as (_ & g' & [= <-] & Hn).
      destruct (Hn Hreq) as [a Hbad]. by rewrite Ha in Hbad.
  - split; [|done]. intros _. split; [done|]. intros _. split; [done|]. exists g. split; [done|]. by rewrite Hreq.
Qed.

(** No two policies share an identifier and an organisation. *)
Definition ownKeys (e : Evaluator) : Prop :=
  ∀ p q, p ∈ ev_Policies e → q ∈ ev_Policies e → pol_ID p = pol_ID q → pol_TenantID p = pol_TenantID q → p = q.

(** Who may ask for a human approval. *)
Inductive approvalAsked (e : Evaluator) (req : DecisionRequest) (now : Z) (g : DelegatedAccessGrant) : Prop :=
  | asked_by_policy p : decidedBy e req now p → pol_RequiredHumanApproval p = true → approvalAsked e req now g
  | asked_by_request : req_HumanApprovalEventID req ≠ "" → approvalAsked e req now g
  | asked_by_grant id : dag_ApprovalEventID g = Some id → id ≠ "" → approvalAsked e req now g.

Lemma decidedBy_unique e req now p q : decidedBy e req now p → decidedBy e req now q → p = q.
Proof. intros (_ & _ & Hp) (_ & _ & Hq). by eapply (first_min_unique policyLess). Qed.

Lemma decidedBy_in e req now p : decidedBy e req now p → p ∈ ev_Policies e.
Proof. intros (_ & _ & Hp). by apply find_sort_stable_first, find_sort_stable in Hp as (Hin & _); [|apply _..]. Qed.

(** The policy found for a decision is the one that made it. *)
Lemma policyForDecision_decided e req id now p :
  ownKeys e → policyForDecision e (Evaluate e req id now) = Some p → decidedBy e req now p.
Proof.
  intros Hk. unfold policyForDecision. change "matched_policy_tenant_id" with matchedTenantKey.
  destruct (decision_records_policy e req id now) as [(q & Hq & Hid & ->)|[_ ->]]; [|done]. destruct (_ || _); [done|].
  intros [Hin [H1 H2]%andb_true_iff]%List.find_some. apply String.eqb_eq in H1, H2. apply list_elem_of_In in Hin.
  rewrite Hid in H1. by rewrite (Hk p q Hin (decidedBy_in _ _ _ _ Hq) H1 H2).
Qed.

Lemma policyForDecision_finds e req id now p :
  ownKeys e → decidedBy e req now p → pol_ID p ≠ "" →
  pol_TenantID p = "" ∨ pol_TenantID p = dec_TenantID (Evaluate e req id now) →
  policyForDecision e (Evaluate e req id now) = Some p.
Proof.
  intros Hk Hp Hid Ht. pose proof (decision_records_policy e req id now) as Hrec.
  unfold policyForDecision. change "matched_policy_tenant_id" with matchedTenantKey.
  destruct Hrec as [(q & Hq & -> & ->)|[Hn _]]; [|by destruct (Hn p)].
  rewrite (decidedBy_unique _ _ _ _ _ Hq Hp).
  destruct (is_empty (pol_ID p)) eqn:He; [by apply is_empty_true in He|]. cbn [orb].
  assert (nonempty (pol_TenantID p) && negb (String.eqb (pol_TenantID p) (dec_TenantID (Evaluate e req id now))) = false) as ->.
  { destruct Ht as [-> | ->]; [done|]. by rewrite String.eqb_refl, andb_false_r. }
  destruct (List.find _ _) as [q'|] eqn:Hf.
  - apply List.find_some in Hf as [Hin [H1 H2]%andb_true_iff]. apply String.eqb_eq in H1, H2. apply list_elem_of_In in Hin.
    f_equal. by apply Hk; [|apply (decidedBy_in _ _ _ _ Hp)|..].
  - apply find_none with (x := p) in Hf; [|by apply list_elem_of_In, (decidedBy_in _ _ _ _ Hp)].
    by rewrite !String.eqb_refl in Hf.
Qed.

Lemma nonempty_iff x : nonempty x = true ↔ x ≠ "".
Proof. unfold nonempty. by rewrite negb_true_iff, <- not_true_iff_false, is_empty_true. Qed.

(** An approval the policy demands is named by the request, or the evaluator had not allowed. *)
Lemma policy_approval_named e req id now p :
  dec_Decision (Evaluate e req id now) = "allow" → decidedBy e req now p → pol_RequiredHumanApproval p = true →
  req_HumanApprovalEventID req ≠ "".
Proof.
  rewrite Evaluate_decision, evaluate_permitted. intros Hperm (Hs & Hw & Hp) Hreq.
  destruct Hperm as [|? ?|q _ _ Hq Hsafe]; [congruence..|].
  rewrite <- (first_min_unique policyLess _ _ _ _ Hp Hq) in Hsafe.
  destruct (sg_approval _ _ _ Hsafe Hreq) as [Hb _]. rewrite with_saas_approval in Hb. intros He. by rewrite He in Hb.
Qed.

Lemma requiresApproval_asked e req id now g (dec := Evaluate e req id now) :
  ownKeys e → dec_Decision dec = "allow" →
  requiresApproval (policyForDecision e dec) req g = true ↔ approvalAsked e req now g.
Proof.
  intros Hk Hallow. unfold requiresApproval. rewrite !orb_true_iff, !nonempty_iff. split.
  - intros [[Hp|?]|Hg].
    + destruct (policyForDecision e dec) as [p|] eqn:Hf; [|done]. eapply asked_by_policy; [|exact Hp].
      by eapply policyForDecision_decided.
    + by apply asked_by_request.
    + destruct (dag_ApprovalEventID g) as [i|] eqn:Hi; [|done]. by eapply asked_by_grant.
  - intros [p Hp Hreq|?|i Hi ?]; [left; right|left; by right|right; by rewrite Hi].
    by eapply policy_approval_named.
Qed.

(** (C12) Where no two policies share an identifier and an organisation, a request is allowed
    exactly when the evaluator allows it and, for the actor types of agents, there is
    evidence: nothing is known against the identity - it is registered, active, unexpired and
    listed for the application and the scope, or its tenant has an empty registry, or the
    process none; the delegated grant of the request is one of the tenant, active and not
    past its expiry, and fits the request; and, where the policy that decided, the request or
    the grant ask for a human approval, there is one of the tenant, approved, begun and not
    past its expiry, that fits the grant and the request.  The policy looked up for the
    decision is the one that made it. *)
Theorem agents_act_under_live_evidence (src : sources S) e req id :
  ownKeys e →
  let now := src_now src in
  let dec := Evaluate e req id now in
  (dec_Decision (evaluateWithRuntimeEvidence src e req id).2 = "allow" ↔
   dec_Decision dec = "allow" ∧
   (isDelegatedActorType (dec_ActorType dec) = true →
    vouchedIdentity src dec req ∧
    ∃ g, liveGrant src dec req g ∧ (approvalAsked e req now g → ∃ a, liveApproval src dec req g a))) ∧
  ∀ p, decidedBy e req now p → pol_ID p ≠ "" → pol_TenantID p = "" ∨ pol_TenantID p = dec_TenantID dec →
    policyForDecision e dec = Some p.
Proof.
  intros Hk now dec. split; [|intros p; by apply policyForDecision_finds].
  rewrite evidence_allow_iff. fold now dec. split; (intros [Hallow Hev]; split; [done|]); intros Ha;
    destruct (Hev Ha) as (Hid & g & Hg & Happ); (split; [done|]); exists g; (split; [done|]);
    intros Hreq; apply Happ; by eapply requiresApproval_asked.
Qed.

End properties.


End RuntimeEvidence.
