(* ===== verification/AgentAccess.v ===== *)
(** * Revocation of delegated access

    What the stores of grants and approvals promise, as the decision sees it: after a grant or
    an approval is revoked, no request of an agent is allowed under it any more, on the process
    that revoked it whether or not the save succeeded, and everywhere when it did. *)

From Stdlib Require Import Ascii ZifyBool ZifyN.
From stdpp Require Import base gmap fin_maps list strings relations.
From S2P Require Import Prelude Trimmed GoStd Timestamps Persistence Model Common Conditions PolicyOrder.
From S2P Require Import Evaluator Decision AuthLedger AuthFleet DelegatedGrant HumanApproval NonHuman RuntimeEvidence.
Import AuthLedger AuthFleet RuntimeEvidence.

Open Scope Z_scope.

Module AgentAccess.

#[local] Existing Instances DelegatedGrant.grantRow DelegatedGrant.grantRow_laws.
#[local] Existing Instances DelegatedGrant.grantRegistry DelegatedGrant.grantRegistry_laws.
#[local] Existing Instances HumanApproval.eventRow HumanApproval.eventRow_laws.
#[local] Existing Instances HumanApproval.eventRegistry HumanApproval.eventRegistry_laws.
#[local] Existing Instance NonHuman.Store_RuntimeStore.

#[local] Arguments GetForTenant : simpl never.
#[local] Arguments RefreshShared : simpl never.

(** ** Reading a denied record *)

Section ledger.
Context {R Reason Extra Op : Type} `{Registry R Reason Extra Op}.
Context `{!AuthRowLaws R Reason Extra} `{!RegistryLaws R Reason Extra Op}.

(** A process that knows of the denial, or reads it from the authority. *)
Definition informed (b : backing) (k : string) (l : ledger R Reason Extra) (stored : option (document R)) : Prop :=
  safe b k l stored ∨ b = Updating ∧ diskRevoked k stored.

Lemma refresh_informed b k (l l' : ledger R Reason Extra) (ok : bool) stored :
  informed b k l stored → RefreshShared b l (if ok then Some stored else None) = (l', Ok tt) →
  denies (rows l') k.
Proof.
  intros [Hs|[-> Hd]] Hr.
  - by eapply refresh_safe in Hr as [_ ? _].
  - destruct ok; [by eapply refresh_denies in Hr as [_ ? _]|done].
Qed.

Lemma get_denied b (l : ledger R Reason Extra) (ok : bool) stored tenant id r :
  informed b (authKey tenant id) l stored →
  (GetForTenant b l (if ok then Some stored else None) tenant id).2 = Some r → rowRevoked r = true.
Proof.
  intros Hi. unfold GetForTenant. destruct (RefreshShared _ _ _) as [l' [[]|]] eqn:Hr; [|done]. cbn.
  destruct (validKey tenant id); [|done]. by apply (refresh_informed b _ l l' ok stored).
Qed.

(** The histories after a denial of [k] on plane [p] that answered [r], at the end of which
    plane [j] is asked: the denying process, while it is not restarted; and, if the answer was
    without error, every process of a shared authority that has [read] it since. *)
Definition histories (b : backing) (k : string) (p : nat) (r : result AuthLedger.error unit) (j : nat)
    (read : Prop) (f g : fleet (R := R) (Reason := Reason) (Extra := Extra)) : Prop :=
  j = p ∧ steps b (fun i a => spared (Op := Op) k i a ∧ alive p i a) f g ∨
  r = Ok tt ∧ b = Updating ∧ steps b (spared (Op := Op) k) f g ∧ read.

Lemma put_plane b f p (s s' : ledger R Reason Extra) disk' :
  owners b f → all_keyed f → planes f !! p = Some s → keyed (rows s') →
  let f1 := mkFleet (<[p := s']> (planes f)) disk' in
  owners b f1 ∧ all_keyed f1 ∧ planes f1 !! p = Some s'.
Proof.
  intros Ho Hk Hp Hs f1. split_and!.
  - destruct Ho as [|Hlen]; [by left|right; by cbn; rewrite length_insert].
  - intros i l [(<- & <- & _)|[_ Hi]]%list_lookup_insert_Some; [done|by eapply Hk].
  - by eapply list_lookup_insert_eq, lookup_lt_Some.
Qed.

(** The process that denied goes on denying. *)
Lemma history_local b k p f (s s' : ledger R Reason Extra) disk' g l' :
  owners b f → all_keyed f → planes f !! p = Some s → safe b k s' disk' →
  steps b (fun i a => spared (Op := Op) k i a ∧ alive p i a) (mkFleet (<[p := s']> (planes f)) disk') g →
  planes g !! p = Some l' → safe b k l' (disk g).
Proof.
  intros Ho Hk Hp Hs Hsteps Hl'.
  destruct (put_plane b f p s s' disk' Ho Hk Hp (safe_keyed _ _ _ _ Hs)) as (Ho1 & Hk1 & Hp1).
  destruct (history_safe _ _ _ _ _ _ Hsteps Ho1 Hk1 Hp1 Hs) as (l & Hl & Hsafe). rewrite Hl' in Hl.
  by injection Hl as ->.
Qed.

(** After a denial on plane [p], plane [j] is informed over the histories that keep it. *)
Lemma history_informed b k p j f (s s' : ledger R Reason Extra) disk' (r : result AuthLedger.error unit) g l' :
  owners b f → all_keyed f → planes f !! p = Some s →
  safe b k s' disk' → (r = Ok tt → b = Updating → diskRevoked k disk') →
  histories b k p r j True (mkFleet (<[p := s']> (planes f)) disk') g →
  planes g !! j = Some l' → informed b k l' (disk g).
Proof.
  intros Ho Hk Hp Hs Hd [[-> Hsteps]|(Hr & -> & Hsteps & _)] Hl'.
  - left. by eapply history_local.
  - right. split; [done|]. specialize (Hd Hr eq_refl).
    destruct (put_plane Updating f p s s' disk' Ho Hk Hp (safe_keyed _ _ _ _ Hs)) as (Ho1 & Hk1 & Hp1).
    eapply (history_confirmed Updating k); [done|exact Hsteps|done|]. by split.
Qed.

End ledger.

(** ** Grants *)

Section access.
Context {S : Type} `{NonHuman.RuntimeStore S}.

Lemma revoked_grant_inactive (g : DelegatedAccessGrant) :
  DelegatedGrant.revokedGrant g = true → dag_Status g ≠ "active".
Proof. unfold DelegatedGrant.revokedGrant. by intros ->%String.eqb_eq. Qed.

Lemma revoked_event_inactive (e : HumanApprovalEvent) :
  HumanApproval.revokedEvent e = true → hae_ApprovalResult e ≠ "approved".
Proof. unfold HumanApproval.revokedEvent. by intros ->%String.eqb_eq. Qed.

(** (C14) When the revocation of a grant answers with the revoked
    grant, no later request of an agent under that grant is allowed: on the same process over
    every history in which it is not restarted, also when the save failed; and, when the answer
    was without error, on every process that shares the authority, over every history of edits
    with every outcome of their saves, refreshes and restarts, until the tenant is erased. *)
Theorem revoked_grant_never_authorises b cancelled w f p s tenant id reason now s' disk' g r f' j l'
    (src : sources S) (ok : bool) e req decisionID (k := authKey tenant id)
    (f1 := mkFleet (<[p := s']> (planes f)) disk') (dec := Evaluate e req decisionID (src_now src)) :
  owners b f → all_keyed f → planes f !! p = Some s → (b = Updating → is_Some (disk f)) →
  DelegatedGrant.RevokeForTenantContext b cancelled s (disk f) w tenant id reason now
    = (s', disk', (g, r)) →
  DelegatedGrant.revokedGrant g = true →
  histories (Op := DelegatedGrant.op) b k p r j True f1 f' →
  planes f' !! j = Some l' →
  src_grants src = l' → src_grantsBacking src = b →
  src_grantsLoaded src = (if ok then Some (disk f') else None) →
  dec_TenantID dec = tenant → isDelegatedActorType (dec_ActorType dec) = true →
  req_DelegatedAccessGrantID req = id →
  dec_Decision (evaluateWithRuntimeEvidence src e req decisionID).2 ≠ "allow".
Proof.
  intros Ho Hk Hp Hdisk Hrev Hg Hh Hl' Hsrc Hb Hloaded Ht Hactor Hid Hallow.
  destruct (DelegatedGrant.grant_revoked_safe _ _ _ _ _ _ _ _ _ _ _ _ _ (Hk p s Hp) Hdisk Hrev Hg) as [Hs Hd].
  pose proof (history_informed (Op := DelegatedGrant.op) b k p j f s s' disk' r f' l' Ho Hk Hp Hs Hd Hh Hl') as Hi.
  apply evidence_allow_iff in Hallow as [_ Hev]. fold dec in Hev.
  destruct (Hev Hactor) as (_ & g' & [Hfound _ Hactive _ _] & _).
  rewrite Hsrc, Hb, Hloaded, Ht, Hid in Hfound. apply get_denied in Hfound; [|done].
  by apply (revoked_grant_inactive _ Hfound) in Hactive.
Qed.

(** ** Approvals *)

(** A read of the data path refreshes, or answers from rows that deny. *)
Lemma authorization_denied b (rd : HumanApproval.Reader) (ok : bool) stored tenant id clock a :
  (safe b (authKey tenant id) (HumanApproval.rd_store rd) stored ∨
   informed b (authKey tenant id) (HumanApproval.rd_store rd) stored ∧
   5 * second ≤ time_sub clock (HumanApproval.rd_refreshAt rd)) →
  (HumanApproval.GetForAuthorization b rd (if ok then Some stored else None) tenant id clock).2 = Some a →
  HumanApproval.revokedEvent a = true.
Proof.
  intros Hi. unfold HumanApproval.GetForAuthorization, HumanApproval.refreshForRead.
  destruct (validKey tenant id); [cbn [negb]|done].
  destruct (Z.ltb_spec (time_sub clock (HumanApproval.rd_refreshAt rd)) (5 * second)) as [Hfresh|Hold].
  - destruct Hi as [[_ Hden _]|[_ Hlate]]; [|lia]. destruct (HumanApproval.rd_refreshOk rd); [|done]. apply Hden.
  - destruct (RefreshShared _ _ _) as [l' [[]|]] eqn:Hr; [|done]. cbn.
    assert (informed b (authKey tenant id) (HumanApproval.rd_store rd) stored) as Hinf
      by (destruct Hi as [Hs|[Hi _]]; [by left|done]).
    by apply (refresh_informed b _ _ l' ok stored Hinf Hr).
Qed.

(** (C18) When the revocation of an approval finds it, no later
    request of an agent that names it is allowed: on the same process at once and over every
    history in which it is not restarted, also when the save failed; and, when the answer was
    without error, on every process that shares the authority once five seconds have passed
    since its last refresh, over every history with failures and restarts, until the tenant
    is erased. *)
Theorem revoked_approval_never_authorises b cancelled w f p s tenant id reason s' disk' a r f' j l'
    (src : sources S) (ok : bool) e req decisionID (k := authKey tenant id)
    (f1 := mkFleet (<[p := s']> (planes f)) disk') (dec := Evaluate e req decisionID (src_now src)) :
  owners b f → all_keyed f → planes f !! p = Some s → (b = Updating → is_Some (disk f)) →
  HumanApproval.RevokeForTenantContext b cancelled s (disk f) w tenant id reason
    = (s', disk', (Some a, r)) →
  histories (Op := HumanApproval.op) b k p r j
    (5 * second ≤ time_sub (src_readClock src) (HumanApproval.rd_refreshAt (src_approvals src))) f1 f' →
  planes f' !! j = Some l' →
  HumanApproval.rd_store (src_approvals src) = l' → src_approvalsBacking src = b →
  src_approvalsLoaded src = (if ok then Some (disk f') else None) →
  dec_TenantID dec = tenant → isDelegatedActorType (dec_ActorType dec) = true →
  req_HumanApprovalEventID req = id →
  dec_Decision (evaluateWithRuntimeEvidence src e req decisionID).2 ≠ "allow".
Proof.
  intros Ho Hk Hp Hdisk Hrev Hh Hl' Hsrc Hb Hloaded Ht Hactor Hid Hallow.
  destruct (HumanApproval.approval_revoked_safe _ _ _ _ _ _ _ _ _ _ _ _ (Hk p s Hp) Hdisk Hrev) as [Hs Hd].
  assert (is_empty id = false) as Hne.
  { unfold HumanApproval.RevokeForTenantContext in Hrev. destruct (validKey tenant id) eqn:Hv; [|done].
    apply validKey_nonempty in Hv as [_ Hv]. destruct (is_empty id) eqn:E; [by apply is_empty_true in E|done]. }
  apply evidence_allow_iff in Hallow as [_ Hev]. fold dec in Hev.
  destruct (Hev Hactor) as (_ & g & _ & Happ). destruct Happ as [a' [Hfound _ Hactive _ _ _]].
  { unfold requiresApproval, nonempty. by rewrite Hid, Hne, orb_true_r. }
  assert (approvalIDFor req g = id) as Hfor by (unfold approvalIDFor, valueOrDefault; by rewrite Hid, Hne).
  rewrite Hb, Hloaded, Ht, Hfor in Hfound.
  apply authorization_denied in Hfound; [by apply (revoked_event_inactive _ Hfound) in Hactive|]. rewrite Hsrc.
  destruct Hh as [[-> Hsteps]|(Hr & -> & Hsteps & Hlate)]; [|right; split; [|done]].
  - left. by eapply (history_local (Op := HumanApproval.op)).
  - eapply (history_informed (Op := HumanApproval.op) Updating k p j f s s' disk' r f' l'); try done. by right.
Qed.

End access.
(** ** Lifetimes *)

Lemma capped_expiry now ttl limit :
  0 ≤ limit ≤ int_max → limit mod second = 0 → year_zero + 2 ^ 63 ≤ now → now + limit < year_10000 →
  ∃ t, parse_rfc3339 (expiryAfter now (cappedTTL ttl limit)) = Some t ∧ t ≤ now + limit.
Proof.
  intros Hl Hm Hlo Hhi. set (d := wrap64 (cappedTTL ttl limit * second)).
  pose proof (wrap64_range (cappedTTL ttl limit * second)) as Hr. fold d in Hr. unfold int_min, int_max in *.
  assert (d ≤ limit) as Hd.
  { unfold d, cappedTTL. destruct (Z.ltb_spec limit (wrap64 (ttl * second))) as [Hlt|Hge]; [|done].
    rewrite Z.quot_div_nonneg by (unfold second in *; lia). rewrite wrap64_id; unfold second, int_min, int_max in *; lia. }
  exists ((now + d) / second * second). split.
  - unfold expiryAfter. fold d. apply rfc3339_round_trip; lia.
  - unfold second. pose proof (Z.mul_div_le (now + d) 1000000000 ltac:(done)). lia.
Qed.

(** A text that can be parsed is not blank. *)
Lemma parsed_nonblank text t : parse_rfc3339 text = Some t → is_blank text = false.
Proof.
  unfold parse_rfc3339. destruct (two_digits text) as [r|] eqn:Hr; [intros _|done].
  destruct text as [|a [|c text]]; try done. cbn [two_digits] in Hr.
  destruct (digit_val a) as [x|] eqn:Ha; [clear Hr|done].
  unfold digit_val in Ha. cbv zeta in Ha. destruct (_ && _) eqn:Hd; [clear Ha|done]. bool_facts.
  apply nonblank_head; intros; unfold is_space1, is_space2, is_space3; cbv zeta; lia.
Qed.

(** The longest lifetime has passed, and the clock is within the years of RFC 3339. *)
Definition aDayLater (now later : Z) : Prop :=
  year_zero + 2 ^ 63 ≤ now ∧ now + maxDelegatedGrantTTL < year_10000 ∧ now + maxDelegatedGrantTTL ≤ later.

(** (C36) A grant or an approval that is authored without an expiry is
    active for a day at most, whatever lifetime it asks for and also when that lifetime
    overflows a duration. *)
Theorem authored_lifetimes_capped tenant now freshID later :
  aDayLater now later →
  (∀ g g', normalizeDelegatedAccessGrant g tenant now freshID = Ok g' → dag_ExpiresAt g = "" →
     DelegatedGrant.IsActive g' later = false) ∧
  (∀ a a', normalizeHumanApprovalEvent a tenant now freshID = Ok a' → NonHuman.stringPtrValue (hae_ExpiresAt a) = "" →
     HumanApproval.IsActive a' later = false).
Proof.
  intros (Hlo & Hhi & Hlater). split.
  - intros g g' Hn He. unfold normalizeDelegatedAccessGrant in Hn. cbv zeta in Hn.
    destruct (_ && _); [done|]. destruct (is_empty (dag_SubjectUserID g)); [done|].
    destruct (is_empty (dag_ActorNHIID g)); [done|]. destruct (negb _); [done|]. injection Hn as <-.
    unfold DelegatedGrant.IsActive. cbn -[expiryAfter cappedTTL is_blank is_empty parse_rfc3339]. rewrite He. change (is_empty "") with true. cbv iota.
    destruct (negb _); [done|]. set (ttl := match dag_MaxSessionDuration g with Some _ => _ | None => _ end).
    destruct (capped_expiry now ttl maxDelegatedGrantTTL) as (t & Ht & Hle); [done..|].
    rewrite (parsed_nonblank _ _ Ht), Ht. apply Z.ltb_ge. lia.
  - intros a a' Hn He. unfold normalizeHumanApprovalEvent in Hn. cbv zeta in Hn.
    destruct (nonempty _ && _); [done|]. destruct (negb (validHumanApprovalResult _)); [done|].
    destruct (String.eqb _ "approved" && _); [done|]. destruct (is_empty (NonHuman.stringPtrValue (hae_ActorNHIID a))); [done|].
    destruct (is_empty (NonHuman.stringPtrValue (hae_ActionType a))); [done|]. injection Hn as <-.
    set (ttl := if intMetadata _ _ _ <=? 0 then 1800 else _). set (a' := set_field _ _).
    assert (hae_ApprovalResult a' = hae_ApprovalResult a) as Hresult by reflexivity.
    assert (hae_ExpiresAt a' = if String.eqb (hae_ApprovalResult a) "approved"
              && is_empty (NonHuman.stringPtrValue (hae_ExpiresAt a))
            then stringPtr (expiryAfter now (cappedTTL ttl maxHumanApprovalTTL)) else hae_ExpiresAt a) as Hexpiry by reflexivity.
    clearbody a'. unfold HumanApproval.IsActive. rewrite Hresult, Hexpiry, He.
    destruct (String.eqb _ "approved"); [|done]. apply andb_false_intro2.
    destruct (capped_expiry now ttl maxHumanApprovalTTL) as (t & Ht & Hle); [done..|].
    change (is_empty "") with true. cbn [andb]. cbv iota. unfold stringPtr.
    destruct (is_empty (expiryAfter _ _)) eqn:E; [apply is_empty_true in E; by rewrite E in Ht|].
    cbv beta iota delta [HumanApproval.timeBound]. rewrite E, Ht. apply Z.ltb_ge.
    unfold maxHumanApprovalTTL, maxDelegatedGrantTTL in *. lia.
Qed.


(** ** An agent under a grant and an approval *)

Section examples.

Definition wiki : Policy :=
  zero_Policy <| pol_ID := "p1" |> <| pol_TenantID := "t" |> <| pol_Status := "active" |>
    <| pol_Conditions := {[ "fqdn" := VStr "wiki.example" ]} |> <| pol_Action := mkPolicyAction "allow" |>.
Definition evaluator : Evaluator :=
  mkEvaluator [wiki] zero_PolicyBundle "" "" false (EastWest.mkEWConfig false (Locality.mkInternalNetworks [] []) [] 0 [])
    false [] ∅.
Definition byAgent : DecisionRequest :=
  zero_DecisionRequest <| req_TenantID := "t" |> <| req_FQDN := "wiki.example" |>
    <| req_ActorType := "delegated_agent" |> <| req_ActorNHIID := "bot" |>
    <| req_DelegatedAccessGrantID := "g1" |> <| req_HumanApprovalEventID := "a1" |>.

Definition grant : DelegatedAccessGrant :=
  zero_DelegatedAccessGrant <| dag_ID := "g1" |> <| dag_TenantID := "t" |> <| dag_SubjectUserID := "u" |>
    <| dag_ActorNHIID := "bot" |> <| dag_Status := "active" |>.
Definition approval : HumanApprovalEvent :=
  zero_HumanApprovalEvent <| hae_ID := "a1" |> <| hae_TenantID := "t" |> <| hae_ApprovalResult := "approved" |>.

Definition grants : option (document DelegatedAccessGrant) := Some (Document {[ authKey "t" "g1" := grant ]}).
Definition approvals : option (document HumanApprovalEvent) := Some (Document {[ authKey "t" "a1" := approval ]}).

Definition grantPlane : DelegatedGrant.Store := (SetPersister Updating (NewStore 0 0) (Some grants)).1.
Definition approvalPlane : HumanApproval.Store := (SetPersister Updating (NewStore 0 tt) (Some approvals)).1.

(** A process with these stores, over these documents. *)
Definition process (g : DelegatedGrant.Store) (gs : option (document DelegatedAccessGrant))
    (a : HumanApproval.Store) (approvals : option (document HumanApprovalEvent)) (refreshed : Z)
    : sources NonHuman.Store :=
  mkSources None g (Some gs) (HumanApproval.mkReader a refreshed true) (Some approvals) Updating Updating 0 0.

Definition decided (src : sources NonHuman.Store) : string :=
  dec_Decision (evaluateWithRuntimeEvidence src evaluator byAgent "d").2.

Definition revokedGrants := DelegatedGrant.RevokeForTenantContext Updating false grantPlane grants Written "t" "g1" "left" 0.
Definition unsavedApproval :=
  HumanApproval.RevokeForTenantContext Updating false approvalPlane approvals Unavailable "t" "a1" "left".

(** The agent is let through; after the grant is revoked, and after a revocation of the
    approval that never reached the authority, it is not; but another process whose refresh
    is recent still answers from the approval it holds. *)
Example agent_revoked :
  decided (process grantPlane grants approvalPlane approvals zero_time) = "allow" ∧
  decided (process grantPlane revokedGrants.1.2 approvalPlane approvals zero_time) = "deny" ∧
  decided (process grantPlane grants unsavedApproval.1.1 approvals zero_time) = "deny" ∧
  decided (process grantPlane grants approvalPlane unsavedApproval.1.2 0) = "allow".
Proof. vm_compute. done. Qed.

Lemma agents_act_under_live_evidence_witness :
  let src := process grantPlane grants approvalPlane approvals zero_time in
  let dec := Evaluate evaluator byAgent "d" 0 in
  ∃ g, liveGrant src dec byAgent g ∧ ∃ a, liveApproval src dec byAgent g a.
Proof.
  intros src dec.
  assert (ownKeys evaluator) as Hkeys.
  { intros p q Hp%list_elem_of_singleton Hq%list_elem_of_singleton _ _. by rewrite Hp, Hq. }
  destruct (agents_act_under_live_evidence src evaluator byAgent "d" Hkeys) as [Hiff _]. fold dec in Hiff.
  destruct Hiff as [Hev _]. destruct Hev as [_ Hev]; [vm_compute; reflexivity|].
  destruct Hev as (_ & g & Hg & Happ); [vm_compute; reflexivity|].
  exists g. split; [exact Hg|]. apply Happ, asked_by_request. discriminate.
Defined.

Definition grantFleet : fleet := mkFleet [grantPlane; grantPlane] grants.
Definition approvalFleet : fleet := mkFleet [approvalPlane; approvalPlane] approvals.

Lemma singleton_keyed {R Q X} `{AuthRow R Q X} (r : R) :
  validKey (rowTenant r) (rowID r) = true → keyed {[ keyOf r := r ]}.
Proof. by intros Hv k r' [<- <-]%lookup_singleton_Some. Qed.

Lemma grantPlane_keyed : keyed (rows grantPlane).
Proof.
  assert (rows grantPlane = {[ keyOf grant := grant ]}) as -> by (vm_compute; reflexivity).
  by apply singleton_keyed.
Qed.

Lemma approvalPlane_keyed : keyed (rows approvalPlane).
Proof.
  assert (rows approvalPlane = {[ keyOf approval := approval ]}) as -> by (vm_compute; reflexivity).
  by apply singleton_keyed.
Qed.

Lemma both_planes {A} (x : A) i l : [x; x] !! i = Some l → l = x.
Proof. destruct i as [|[|i]]; [by intros [= ->]..|]. destruct i; done. Qed.

(** The other process restarts, and reads the revocation. *)
Lemma revoked_grant_never_authorises_witness :
  let restarted := (SetPersister Updating (NewStore 5 0) (Some revokedGrants.1.2)).1 in
  decided (process restarted revokedGrants.1.2 approvalPlane approvals zero_time) ≠ "allow".
Proof.
  intros restarted.
  refine (revoked_grant_never_authorises Updating false Written grantFleet 0 grantPlane "t" "g1" "left" 0
    revokedGrants.1.1 revokedGrants.1.2 revokedGrants.2.1 (Ok tt)
    (mkFleet [revokedGrants.1.1; restarted] revokedGrants.1.2) 1 restarted
    (process restarted revokedGrants.1.2 approvalPlane approvals zero_time) true evaluator byAgent "d"
    (or_introl eq_refl) _ eq_refl (fun _ => ltac:(by eexists)) _ _ (or_intror (conj eq_refl (conj eq_refl (conj _ I))))
    eq_refl eq_refl eq_refl eq_refl _ _ _).
  - intros i l ->%(both_planes _ i l). exact grantPlane_keyed.
  - vm_compute. reflexivity.
  - vm_compute. reflexivity.
  - apply rtc_once. exists 1%nat, (ARestart 5 0). split; [exact I|].
    apply (step_restart (Op := DelegatedGrant.op) Updating (mkFleet [revokedGrants.1.1; grantPlane] revokedGrants.1.2) 1
             grantPlane 5 0 restarted eq_refl). vm_compute. reflexivity.
  - vm_compute. reflexivity.
  - vm_compute. reflexivity.
  - reflexivity.
Defined.

(** The authority cannot be reached; the process denies from what it remembers, and a refresh
    of the approval that is still stored does not bring it back. *)
Lemma revoked_approval_never_authorises_witness :
  let refreshed := (RefreshShared Updating unsavedApproval.1.1 (Some approvals)).1 in
  decided (process grantPlane grants refreshed approvals zero_time) ≠ "allow".
Proof.
  intros refreshed.
  refine (revoked_approval_never_authorises Updating false Unavailable approvalFleet 0 approvalPlane "t" "a1" "left"
    unsavedApproval.1.1 approvals (HumanApproval.denyEvent (Some "left") approval) (Err AuthLedger.ErrPersistence)
    (mkFleet [refreshed; approvalPlane] approvals) 0 refreshed
    (process grantPlane grants refreshed approvals zero_time) true evaluator byAgent "d"
    (or_introl eq_refl) _ eq_refl (fun _ => ltac:(by eexists)) _ (or_introl (conj eq_refl _))
    eq_refl eq_refl eq_refl eq_refl _ _ _).
  - intros i l ->%(both_planes _ i l). exact approvalPlane_keyed.
  - vm_compute. reflexivity.
  - apply rtc_once. exists 0%nat, (ARefresh true). split; [by split|].
    by eapply (step_refresh (Op := HumanApproval.op) Updating (mkFleet [unsavedApproval.1.1; approvalPlane] approvals) 0
             unsavedApproval.1.1 true refreshed).
  - vm_compute. reflexivity.
  - vm_compute. reflexivity.
  - reflexivity.
Defined.

Lemma authored_lifetimes_capped_witness :
  ∃ g, normalizeDelegatedAccessGrant (grant <| dag_MaxSessionDuration := Some 1000000 |>) "t" 0 "x" = Ok g ∧
    dag_ExpiresAt g = "1970-01-02T00:00:00Z" ∧ DelegatedGrant.IsActive g maxDelegatedGrantTTL = false.
Proof.
  eexists. split; [vm_compute; reflexivity|]. split; [reflexivity|].
  refine (proj1 (authored_lifetimes_capped "t" 0 "x" maxDelegatedGrantTTL _)
            (grant <| dag_MaxSessionDuration := Some 1000000 |>) _ _ _).
  - by split_and!; vm_compute.
  - vm_compute. reflexivity.
  - reflexivity.
Defined.

End examples.


End AgentAccess.
