(* ===== verification/Admission.v ===== *)
(** * The kill-switch of devices ([src/revocation/])

    [AdmissionRevocations] keeps three layers of refused transport identities: those authored
    here ([revoked]), those received from peer regions ([meshReceived]) and those pulled from
    the control plane ([synced]).  The first two are saved, and an edit of the shared row whose
    commit was not confirmed is remembered ([originPending], [meshPending]) until a later edit
    carries it.  Receivers are never nil here; texts are valid UTF-8, as those of a JSON body
    are. *)

From Stdlib Require Import Ascii.
From stdpp Require Import base gmap fin_maps list strings.
From S2P Require Import Prelude Trimmed GoStd Persistence.

Open Scope Z_scope.

Module Admission.

Definition normalizeIdentity (identity : string) : string := to_lower (trim_space identity).
Definition NormalizeDeviceID (id : string) : string := trim_space id.

Lemma normalizeIdentity_idemp id : normalizeIdentity (normalizeIdentity id) = normalizeIdentity id.
Proof. unfold normalizeIdentity. by rewrite trim_space_lower, trim_space_idemp, to_lower_idemp. Qed.

(** ** The snapshot ([admission_persistence.go], [admission_snapshot.go]) *)

Inductive error := ErrAdmissionLoad | ErrAdmissionSave | ErrInvalidAdmissionSnapshot.

Record admissionRevocationsStateFile := mkStateFile {
  sf_SchemaVersion : string;
  sf_Revoked : gmap string string;
  sf_MeshReceived : gmap string string;
}.

#[export] Instance stateFile_eta : Etaable admissionRevocationsStateFile := fun f =>
  mkStateFile (sf_SchemaVersion f) (sf_Revoked f) (sf_MeshReceived f).

Definition admissionRevocationsStateSchemaVersion : string := "admission_revocations_state.v1".

(** What the tokens of a decoder spell, in order and with repetitions. *)
Inductive json :=
  | JNull | JBool (b : bool) | JNumber (literal : string) | JString (s : string)
  | JArray (items : list json) | JObject (members : list (string * json)).

(** A stored payload: not UTF-8, no JSON or followed by something, or one JSON value. *)
Inductive payload := NotJSON | OneValue (j : json).

Fixpoint decodeRows (members : list (string * json)) (rows : gmap string string)
    : option (gmap string string) :=
  match members with
  | [] => Some rows
  | (id, value) :: members =>
      if is_empty id || negb (String.eqb id (normalizeIdentity id)) then None
      else match rows !! id, value with
           | None, JString reason =>
               if String.eqb reason (trim_space reason) then decodeRows members (<[id := reason]> rows)
               else None
           | _, _ => None
           end
  end.

Definition decodeAdmissionMap (j : json) : option (gmap string string) :=
  match j with JObject members => decodeRows members ∅ | _ => None end.

Fixpoint decodeFields (members : list (string * json)) (seen : list string)
    (f : admissionRevocationsStateFile) : option admissionRevocationsStateFile :=
  match members with
  | [] => if containsString seen "schema_version" && containsString seen "revoked" then Some f else None
  | (name, value) :: members =>
      if containsString seen name then None
      else let seen := name :: seen in
        if String.eqb name "schema_version" then
          match value with
          | JString v =>
              if String.eqb v admissionRevocationsStateSchemaVersion
              then decodeFields members seen (f <| sf_SchemaVersion := v |>) else None
          | _ => None
          end
        else if String.eqb name "revoked" then
          rows ← decodeAdmissionMap value; decodeFields members seen (f <| sf_Revoked := rows |>)
        else if String.eqb name "mesh_received" then
          rows ← decodeAdmissionMap value; decodeFields members seen (f <| sf_MeshReceived := rows |>)
        else None
  end.

Definition decodeAdmissionSnapshot (data : payload) : option admissionRevocationsStateFile :=
  match data with
  | OneValue (JObject members) => decodeFields members [] (mkStateFile "" ∅ ∅)
  | _ => None
  end.

(** [json.Marshal]: the keys of a map are sorted, an empty [mesh_received] is omitted. *)
Definition marshalMap (m : gmap string string) : json :=
  JObject ((fun row => (row.1, JString row.2)) <$>
             sort_stable (fun a b => String.ltb a.1 b.1) (map_to_list m)).

Definition marshal (f : admissionRevocationsStateFile) : payload :=
  OneValue (JObject ([("schema_version", JString (sf_SchemaVersion f)); ("revoked", marshalMap (sf_Revoked f))]
    ++ when (negb (Nat.eqb (size (sf_MeshReceived f)) 0)) [("mesh_received", marshalMap (sf_MeshReceived f))])).

(** Identifiers and reasons as the operations write them. *)
Definition canonicalRows (m : gmap string string) : Prop :=
  ∀ id reason, m !! id = Some reason → id ≠ "" ∧ normalizeIdentity id = id ∧ trim_space reason = reason.

Record canonicalFile (f : admissionRevocationsStateFile) : Prop := {
  canonical_schema : sf_SchemaVersion f = admissionRevocationsStateSchemaVersion;
  canonical_revoked : canonicalRows (sf_Revoked f);
  canonical_mesh : canonicalRows (sf_MeshReceived f);
}.

Lemma canonicalRows_insert id reason m :
  id ≠ "" → normalizeIdentity id = id → trim_space reason = reason → canonicalRows m →
  canonicalRows (<[id := reason]> m).
Proof. intros ? ? ? Hm k v [[<- <-]|[_ Hk]]%lookup_insert_Some; [done|by apply Hm]. Qed.

Lemma decodeRows_canonical members : ∀ rows m,
  decodeRows members rows = Some m → canonicalRows rows → canonicalRows m.
Proof.
  induction members as [|[id value] members IH]; intros rows m; cbn [decodeRows]; [by intros [= ->]|].
  destruct (is_empty id) eqn:He; [done|]. destruct (String.eqb_spec id (normalizeIdentity id)) as [Hid|]; [|done].
  cbn. destruct (rows !! id); [done|]. destruct value; try done.
  destruct (String.eqb_spec s (trim_space s)) as [Hs|]; [|done]. intros Hd Hrows.
  eapply IH; [done|]. apply canonicalRows_insert; [|done..]. by intros ->.
Qed.

Lemma decodeAdmissionMap_canonical j m : decodeAdmissionMap j = Some m → canonicalRows m.
Proof. destruct j; try done. cbn. intros Hd. by eapply decodeRows_canonical. Qed.

Lemma decodeFields_canonical members : ∀ seen f f',
  decodeFields members seen f = Some f' →
  (containsString seen "schema_version" = true → sf_SchemaVersion f = admissionRevocationsStateSchemaVersion) →
  canonicalRows (sf_Revoked f) → canonicalRows (sf_MeshReceived f) → canonicalFile f'.
Proof.
  induction members as [|[name value] members IH]; intros seen f f'; cbn [decodeFields].
  { destruct (containsString seen "schema_version"); [|done]. destruct (containsString seen "revoked"); [|done].
    intros [= <-] Hs Hr Hm. by split; auto. }
  destruct (containsString seen name); [done|].
  destruct (String.eqb_spec name "schema_version") as [->|Hn].
  { destruct value; try done. destruct (String.eqb_spec s admissionRevocationsStateSchemaVersion) as [->|]; [|done].
    intros Hd _ Hr Hm. by eapply IH. }
  assert (containsString (name :: seen) "schema_version" = true →
          containsString seen "schema_version" = true) as Hseen.
  { rewrite !containsString_spec, elem_of_cons. by intros [<-|]. }
  destruct (String.eqb_spec name "revoked") as [->|].
  { rewrite bind_Some. intros (rows & Hrows%decodeAdmissionMap_canonical & Hd) Hs Hr Hm.
    eapply IH; [exact Hd|by intros ?%Hseen; auto|done..]. }
  destruct (String.eqb_spec name "mesh_received") as [->|]; [|done].
  rewrite bind_Some. intros (rows & Hrows%decodeAdmissionMap_canonical & Hd) Hs Hr Hm.
  eapply IH; [exact Hd|by intros ?%Hseen; auto|done..].
Qed.

(** A snapshot that is accepted is canonical: nothing can hide under a second spelling. *)
Lemma decoded_canonical data f : decodeAdmissionSnapshot data = Some f → canonicalFile f.
Proof. destruct data as [|[]]; try done. cbn. intros Hd. by eapply decodeFields_canonical. Qed.

Lemma decodeRows_marshal l : ∀ rows,
  NoDup l.*1 → canonicalRows (list_to_map l) → (∀ id, id ∈ l.*1 → rows !! id = None) →
  decodeRows ((fun row => (row.1, JString row.2)) <$> l) rows = Some (list_to_map l ∪ rows).
Proof.
  induction l as [|[id reason] l IH]; intros rows Hnd Hc Hdis;
    [|rewrite fmap_cons; cbn [decodeRows fst snd]; change (list_to_map ((id, reason) :: l)) with (<[id := reason]> (list_to_map l : gmap string string)) in *].
  { cbn. by rewrite map_empty_union. }
  apply NoDup_cons in Hnd as [Hid Hnd].
  destruct (Hc id reason) as (He & Hn & Ht); [apply lookup_insert_eq|].
  destruct (is_empty id) eqn:E; [by apply is_empty_true in E|].
  rewrite Hn, String.eqb_refl. cbn [orb negb]. rewrite (Hdis id) by left. rewrite Ht, String.eqb_refl, IH.
  - f_equal. rewrite <- insert_union_r by (by apply not_elem_of_list_to_map_1). by rewrite insert_union_l.
  - done.
  - intros k v Hk. apply Hc. rewrite lookup_insert_ne; [done|]. intros <-.
    apply Hid, list_elem_of_fmap. exists (id, v). split; [done|]. by apply elem_of_list_to_map_2.
  - intros k Hk. rewrite lookup_insert_ne by (by intros ->). apply Hdis. by right.
Qed.

Lemma decodeAdmissionMap_marshal m : canonicalRows m → decodeAdmissionMap (marshalMap m) = Some m.
Proof.
  intros Hm. unfold marshalMap, decodeAdmissionMap. set (l := sort_stable _ (map_to_list m)).
  assert (l ≡ₚ map_to_list m) as Hp by apply sort_stable_perm.
  assert (NoDup l.*1) as Hnd by (rewrite Hp; apply NoDup_fst_map_to_list).
  assert (list_to_map l = m) as Hl by (rewrite (list_to_map_proper l _ Hnd Hp); apply list_to_map_to_list).
  rewrite decodeRows_marshal; [|done|by rewrite Hl|intros; apply lookup_empty]. by rewrite Hl, map_union_empty.
Qed.

(** What is saved is what a restart reads. *)
Lemma decode_marshal_file f : canonicalFile f → decodeAdmissionSnapshot (marshal f) = Some f.
Proof.
  destruct f as [v r m]. intros [Hv Hr Hm]. cbn in Hv, Hr, Hm. subst v.
  unfold marshal, decodeAdmissionSnapshot. cbn [sf_SchemaVersion sf_Revoked sf_MeshReceived].
  destruct (Nat.eqb_spec (size m) 0) as [Hz|Hz]; cbn -[decodeAdmissionMap marshalMap];
    rewrite ?decodeAdmissionMap_marshal by done; [|done].
  apply map_size_empty_inv in Hz. by rewrite Hz.
Qed.

(** ** The state ([admission.go]) *)

Record AdmissionRevocations := mkRevocations {
  revoked : gmap string string;
  synced : gmap string string;
  meshInitialPending : bool;
  meshReceived : gmap string string;
  meshPending : gmap string string;
  originPending : gmap string string;
  originInitialPending : bool;
  persister : backing;
  generation : Z;                                   (* uint64 *)
}.

#[export] Instance revocations_eta : Etaable AdmissionRevocations := fun a =>
  mkRevocations (revoked a) (synced a) (meshInitialPending a) (meshReceived a) (meshPending a)
    (originPending a) (originInitialPending a) (persister a) (generation a).

Definition NewAdmissionRevocations : AdmissionRevocations :=
  mkRevocations ∅ ∅ false ∅ ∅ ∅ false Memory 0.

(** [generation.Add(1)] *)
Definition bump (a : AdmissionRevocations) : AdmissionRevocations :=
  a <| generation := (generation a + 1) mod 2 ^ 64 |>.

(** The hooks that are wired, and the calls they receive. *)
Record hooks := mkHooks { hk_reporter : bool; hk_meshReporter : bool; hk_onRevoked : bool }.

Inductive notice :=
  | Reported (identity reason : string) | MeshReported (identity reason : string)
  | OnRevoked (identity reason : string).

(** ** Saving and loading *)

(** [saveStateLocked]: what is stored afterwards, and the error. *)
Definition saveStateLocked (a : AdmissionRevocations) (stored : option payload) (w : write_outcome)
    (revoked : gmap string string) : option payload * option error :=
  match persister a with
  | Memory => (stored, None)
  | _ =>
      (diskAfter w stored (marshal (mkStateFile admissionRevocationsStateSchemaVersion revoked (meshReceived a))),
       match w with Written => None | _ => Some ErrAdmissionSave end)
  end.

Definition mergePendingAdmissionBlocks (a : AdmissionRevocations) (candidate : admissionRevocationsStateFile)
    : admissionRevocationsStateFile :=
  candidate <| sf_Revoked := originPending a ∪ sf_Revoked candidate |>
            <| sf_MeshReceived := meshPending a ∪ sf_MeshReceived candidate |>.

Definition moved (a : AdmissionRevocations) (f : admissionRevocationsStateFile) : bool :=
  negb (bool_decide (revoked a = sf_Revoked f)) || negb (bool_decide (meshReceived a = sf_MeshReceived f)).

(** The authored layers become those of a snapshot. *)
Definition takeLayers (a : AdmissionRevocations) (f : admissionRevocationsStateFile) : AdmissionRevocations :=
  (if moved a f then bump a else a) <| revoked := sf_Revoked f |> <| meshReceived := sf_MeshReceived f |>.

(** [loaded] is what [Load] answers: an error, no snapshot, or a payload. *)
Definition restoreSnapshotLocked (a : AdmissionRevocations) (b : backing) (loaded : option (option payload))
    (refresh : bool) : AdmissionRevocations * option error :=
  match b with
  | Memory => (a <| persister := Memory |>, None)
  | _ =>
      match loaded with
      | None => (a, Some ErrAdmissionLoad)
      | Some None =>
          if refresh && negb (generation a =? 0) then (a, Some ErrAdmissionLoad)
          else (a <| persister := b |>, None)
      | Some (Some data) =>
          match decodeAdmissionSnapshot data with
          | None => (a, Some ErrInvalidAdmissionSnapshot)
          | Some f => ((takeLayers a (mergePendingAdmissionBlocks a f)) <| persister := b |>, None)
          end
      end
  end.

Definition SetPersister (a : AdmissionRevocations) (b : backing) (loaded : option (option payload))
    : AdmissionRevocations * option error := restoreSnapshotLocked a b loaded false.

Definition ReloadFromStore (a : AdmissionRevocations) (loaded : option (option payload))
    : AdmissionRevocations * option error := restoreSnapshotLocked a (persister a) loaded true.

(** ** Reading *)

Definition IsRevoked (a : AdmissionRevocations) (identity : string) : option string :=
  let id := normalizeIdentity identity in
  match revoked a !! id with
  | Some reason => Some reason
  | None => match synced a !! id with Some reason => Some reason | None => meshReceived a !! id end
  end.

Definition ConfigGeneration (a : AdmissionRevocations) : Z := generation a.
Definition Snapshot (a : AdmissionRevocations) : gmap string string := revoked a.
Definition FeedSnapshot (a : AdmissionRevocations) : gmap string string := revoked a ∪ meshReceived a.
Definition SyncedCount (a : AdmissionRevocations) : nat := size (synced a).

Definition List (a : AdmissionRevocations) : list string :=
  sort_strings (elements (dom (revoked a) ∪ dom (synced a) ∪ dom (meshReceived a) : gset string)).

Definition CountDevices (a : AdmissionRevocations) (deviceIDs : list string) : nat :=
  length (List.filter (fun id => bool_decide (is_Some (revoked a !! NormalizeDeviceID id))) deviceIDs).

Definition admitDecision (enrolled revoked : gset string) (requireEnrolled : bool) (identity : string)
    : bool * string :=
  let id := normalizeIdentity identity in
  if bool_decide (id ∈ revoked) && nonempty id then (false, "revoked")
  else if requireEnrolled then
    if is_empty id then (false, "no_identity")
    else if bool_decide (id ∈ enrolled) then (true, "") else (false, "not_enrolled")
  else (true, "").

(** ** The pulled layer *)

Definition freshSynced `{MapOrder} (pulled : gmap string string) : gmap string string :=
  foldl (fun fresh row =>
      let id := normalizeIdentity row.1 in
      if is_empty id then fresh else <[id := trim_space row.2]> fresh)
    ∅ (iterate (map_to_list pulled)).

Definition ReplaceSynced `{MapOrder} (hk : hooks) (a : AdmissionRevocations) (pulled : gmap string string)
    : AdmissionRevocations * list notice :=
  let fresh := freshSynced pulled in
  let newly := when (hk_onRevoked hk)
    ((fun row => OnRevoked row.1 row.2) <$>
       List.filter (fun row => negb (bool_decide (is_Some (synced a !! row.1)))
                          && negb (bool_decide (is_Some (revoked a !! row.1)))
                          && negb (bool_decide (is_Some (meshReceived a !! row.1))))
         (iterate (map_to_list fresh))) in
  (a <| synced := fresh |>, newly).

(** ** Blocks without a request behind them, and on a file *)

Definition changedRow (m : gmap string string) (id reason : string) : bool :=
  negb (bool_decide (m !! id = Some reason)).

Definition noticesOf (hk : hooks) (changed delivered : bool) (id reason : string) : list notice :=
  when (changed && hk_reporter hk) [Reported id reason] ++
  when (delivered && hk_meshReporter hk) [MeshReported id reason] ++
  when (changed && hk_onRevoked hk) [OnRevoked id reason].

Definition revokeContext (hk : hooks) (a : AdmissionRevocations) (stored : option payload) (w : write_outcome)
    (identity reason : string) (retrySave : bool)
    : AdmissionRevocations * option payload * list notice * option error :=
  let id := normalizeIdentity identity in
  if is_empty id then (a, stored, [], None)
  else
    let reason := trim_space reason in
    let changed := changedRow (revoked a) id reason in
    let a := if changed then bump (a <| revoked := <[id := reason]> (revoked a) |>) else a in
    let '(stored, err) :=
      if changed || retrySave then saveStateLocked a stored w (revoked a) else (stored, None) in
    let confirmed := match err with None => true | Some _ => false end in
    (a, stored, noticesOf hk changed (changed || retrySave && confirmed) id reason, err).

Definition Revoke hk a stored w identity reason := revokeContext hk a stored w identity reason false.
Definition RevokeChecked hk a stored w identity reason := revokeContext hk a stored w identity reason true.

Definition restore (a : AdmissionRevocations) (stored : option payload) (w : write_outcome) (identity : string)
    (retrySave : bool) : AdmissionRevocations * option payload * option error :=
  let id := normalizeIdentity identity in
  if is_empty id then (a, stored, None)
  else
    let existed := bool_decide (is_Some (revoked a !! id)) in
    if negb existed && negb retrySave then (a, stored, None)
    else
      let candidate := delete id (revoked a) in
      let '(stored, err) := saveStateLocked a stored w candidate in
      match err with
      | Some _ => (a, stored, err)
      | None => (if existed then bump (a <| revoked := candidate |>) else a, stored, None)
      end.

Definition Restore a stored w identity := restore a stored w identity false.
Definition RestoreChecked a stored w identity := restore a stored w identity true.

Definition revokeFromMesh (hk : hooks) (a : AdmissionRevocations) (stored : option payload) (w : write_outcome)
    (identity reason : string) (retrySave : bool)
    : AdmissionRevocations * option payload * list notice * (bool * option error) :=
  let id := normalizeIdentity identity in
  if is_empty id then (a, stored, [], (false, None))
  else
    let reason := trim_space reason in
    let changed := changedRow (meshReceived a) id reason in
    let a := if changed then bump (a <| meshReceived := <[id := reason]> (meshReceived a) |>) else a in
    let '(stored, err) :=
      if changed || retrySave then saveStateLocked a stored w (revoked a) else (stored, None) in
    (a, stored, when (changed && hk_onRevoked hk) [OnRevoked id reason], (changed, err)).

Definition RevokeFromMesh hk a stored w identity reason := revokeFromMesh hk a stored w identity reason false.

Definition removeKeys (norm : string → string) (ids : list string) (m : gmap string string)
    : gmap string string * Z :=
  foldl (fun acc id =>
      if bool_decide (is_Some (acc.1 !! norm id)) then (delete (norm id) acc.1, acc.2 + 1) else acc)
    (m, 0) ids.

Lemma removeKeys_spec norm ids m id :
  (∀ x, x ∈ ids → norm x ≠ id) → (removeKeys norm ids m).1 !! id = m !! id.
Proof.
  intros Hids. unfold removeKeys. set (acc := (m, 0)). change (m !! id) with (acc.1 !! id). clearbody acc. revert acc.
  induction ids as [|x ids IH]; intros acc; [done|]. cbn [foldl]. rewrite IH by (intros y Hy; apply Hids; by right).
  case_bool_decide; [|done]. cbn. rewrite lookup_delete_ne; [done|]. apply Hids. by left.
Qed.

Lemma removeKeys_sub norm ids m : (removeKeys norm ids m).1 ⊆ m.
Proof.
  unfold removeKeys. change m with (m, 0).1 at 2. generalize (m, 0) as acc.
  induction ids as [|x ids IH]; intros acc; [done|]. cbn [foldl]. etrans; [apply IH|].
  case_bool_decide; [|done]. apply delete_subseteq.
Qed.

Definition RemoveDevicesChecked (a : AdmissionRevocations) (stored : option payload) (w : write_outcome)
    (deviceIDs : list string) : AdmissionRevocations * option payload * (Z * option error) :=
  match deviceIDs with
  | [] => (a, stored, (0, None))
  | _ =>
      let '(candidate, n) := removeKeys NormalizeDeviceID deviceIDs (revoked a) in
      let '(stored, err) := saveStateLocked a stored w candidate in
      match err with
      | Some _ => (a, stored, (0, err))
      | None => (if 0 <? n then bump (a <| revoked := candidate |>) else a, stored, (n, None))
      end
  end.

Definition RemoveDevices a stored w deviceIDs := (RemoveDevicesChecked a stored w deviceIDs).2.1.

(** ** Edits of the shared row ([context_writes.go], [context_mesh.go], [context_erasure.go]) *)

(** What an edit starts from: the latest row with the unconfirmed blocks, or an empty first
    row of a process that has observed nothing. *)
Definition latest (a : AdmissionRevocations) (stored : option payload) : option admissionRevocationsStateFile :=
  match stored with
  | Some data => mergePendingAdmissionBlocks a <$> decodeAdmissionSnapshot data
  | None =>
      if negb (generation a =? 0) && negb (originInitialPending a) && negb (meshInitialPending a) then None
      else Some (mergePendingAdmissionBlocks a (mkStateFile admissionRevocationsStateSchemaVersion ∅ ∅))
  end.

(** [p.UpdateContext]: the row afterwards, the candidate if the edit ran, and whether the
    commit was confirmed.  A lost lease or a connection that cannot be opened is [Unavailable]. *)
Definition UpdateContext (a : AdmissionRevocations) (stored : option payload) (w : write_outcome)
    (edit : admissionRevocationsStateFile → admissionRevocationsStateFile)
    : option payload * option admissionRevocationsStateFile * bool :=
  match w with
  | Unavailable => (stored, None, false)
  | _ =>
      match latest a stored with
      | None => (stored, None, false)
      | Some f =>
          let candidate := edit f in
          (diskAfter w stored (marshal candidate), Some candidate, match w with Written => true | _ => false end)
      end
  end.

Definition isMissing (stored : option payload) : bool := match stored with None => true | Some _ => false end.

(** A confirmed commit: the row becomes the authored layers, and nothing is pending. *)
Definition publish (a : AdmissionRevocations) (candidate : admissionRevocationsStateFile) : AdmissionRevocations :=
  (takeLayers a candidate) <| originPending := ∅ |> <| originInitialPending := false |>
    <| meshInitialPending := false |> <| meshPending := ∅ |>.

Definition changeAdmissionContext (hk : hooks) (a : AdmissionRevocations) (stored : option payload)
    (w : write_outcome) (identity reason : string) (revoke : bool)
    : AdmissionRevocations * option payload * list notice * (bool * option error) :=
  let id := normalizeIdentity identity in
  if is_empty id then (a, stored, [], (false, None))
  else
    let reason := trim_space reason in
    match persister a with
    | Updating =>
        let '(stored', candidate, confirmed) := UpdateContext a stored w (fun f =>
          f <| sf_Revoked := if revoke then <[id := reason]> (sf_Revoked f) else delete id (sf_Revoked f) |>) in
        match candidate with
        | None => (a, stored', [], (false, Some ErrAdmissionSave))
        | Some candidate =>
            let notify := revoke && changedRow (revoked a) id reason in
            let a' :=
              if confirmed then publish a candidate
              else if revoke then
                (if notify then bump (a <| revoked := <[id := reason]> (revoked a) |>) else a)
                  <| originInitialPending := originInitialPending a || isMissing stored |>
                  <| originPending := <[id := reason]> (originPending a) |>
              else a in
            (a', stored', noticesOf hk notify (notify || revoke && confirmed) id reason,
             (confirmed || revoke, if confirmed then None else Some ErrAdmissionSave))
        end
    | _ =>
        if revoke then
          let '(a', stored', calls, err) := revokeContext hk a stored w id reason true in
          (a', stored', calls, (true, err))
        else
          let '(a', stored', err) := RestoreChecked a stored w id in
          (a', stored', [], (match err with None => true | Some _ => false end, err))
    end.

Definition RevokeCheckedContext hk a stored w identity reason :=
  changeAdmissionContext hk a stored w identity reason true.

Definition RestoreCheckedContext hk a stored w identity :=
  let '(a', stored', calls, (_, err)) := changeAdmissionContext hk a stored w identity "" false in
  (a', stored', calls, err).

Definition receiveMeshContext (hk : hooks) (a : AdmissionRevocations) (stored : option payload)
    (w : write_outcome) (identity reason : string) (retry : bool)
    : AdmissionRevocations * option payload * list notice * (bool * option error) :=
  let id := normalizeIdentity identity in
  if is_empty id then (a, stored, [], (false, None))
  else
    let reason := trim_space reason in
    match persister a with
    | Updating =>
        let '(stored', candidate, confirmed) := UpdateContext a stored w (fun f =>
          f <| sf_MeshReceived := <[id := reason]> (sf_MeshReceived f) |>) in
        match candidate with
        | None => (a, stored', [], (false, Some ErrAdmissionSave))
        | Some candidate =>
            let changed := changedRow (meshReceived a) id reason in
            let a' :=
              if confirmed then publish a candidate
              else (if changed then bump (a <| meshReceived := <[id := reason]> (meshReceived a) |>) else a)
                     <| meshInitialPending := meshInitialPending a || isMissing stored |>
                     <| meshPending := <[id := reason]> (meshPending a) |> in
            (a', stored', when (changed && hk_onRevoked hk) [OnRevoked id reason],
             (changed, if confirmed then None else Some ErrAdmissionSave))
        end
    | _ => revokeFromMesh hk a stored w identity reason retry
    end.

Definition RevokeFromMeshCheckedContext hk a stored w identity reason :=
  receiveMeshContext hk a stored w identity reason true.

Definition RemoveDevicesContext (a : AdmissionRevocations) (stored : option payload) (w : write_outcome)
    (ids : list string) : AdmissionRevocations * option payload * (Z * option error) :=
  match ids, persister a with
  | [], _ => (a, stored, (0, None))
  | _, Updating =>
      let removal f := removeKeys normalizeIdentity ids (sf_Revoked f) in
      let '(stored', candidate, confirmed) := UpdateContext a stored w (fun f => f <| sf_Revoked := (removal f).1 |>) in
      match candidate, latest a stored with
      | Some candidate, Some before =>
          if confirmed then (publish a candidate, stored', ((removal before).2, None))
          else (a, stored', (0, Some ErrAdmissionSave))
      | _, _ => (a, stored', (0, Some ErrAdmissionSave))
      end
  | _, _ => RemoveDevicesChecked a stored w ids
  end.

End Admission.
