(* ===== verification/SharedFleet.v ===== *)
(** * Processes over one saved row

    Several stores of the control plane live the same way: each process keeps its own state,
    edits go through the persister, a process that is promoted reads the row again, and a
    restarted one begins from it.  A store says how with the class [Plane]; what an edit must
    leave in place is a [keeper], and the lemmas carry it over whole histories. *)

From stdpp Require Import base list relations.
From S2P Require Import Prelude Persistence.

Module SharedFleet.

Class Plane (S D Op : Type) := {
  act : S → option D → write_outcome → Op → S * option D;
  reload : S → option (option D) → option S;        (* [None]: refused *)
  boot : backing → option D → option S;             (* [None]: does not start *)
}.

Section fleet.
Context {S D Op : Type} `{Plane S D Op}.

Record fleet := mkFleet { planes : list S; disk : option D }.

Definition put (f : fleet) (i : nat) (s : S) (d : option D) : fleet := mkFleet (<[i := s]> (planes f)) d.

Inductive action :=
  | Act (w : write_outcome) (o : Op)
  | Reload
  | Restart.

(** Only a process of a shared row is promoted, and reads it again. *)
Inductive step (b : backing) (f : fleet) (i : nat) : action → fleet → Prop :=
  | step_act s w o s' d' :
      planes f !! i = Some s → act s (disk f) w o = (s', d') → step b f i (Act w o) (put f i s' d')
  | step_reload s s' :
      b = Updating → planes f !! i = Some s → reload s (Some (disk f)) = Some s' →
      step b f i Reload (put f i s' (disk f))
  | step_restart s s' :
      planes f !! i = Some s → boot b (disk f) = Some s' → step b f i Restart (put f i s' (disk f)).

Definition steps (b : backing) (allowed : nat → action → Prop) : relation fleet :=
  rtc (fun f g => ∃ i a, allowed i a ∧ step b f i a g).

(** Only a shared row has several owners. *)
Definition owners (b : backing) (f : fleet) : Prop := b = Updating ∨ length (planes f) = 1%nat.

Definition all_planes (P : S → Prop) (f : fleet) : Prop := ∀ i s, planes f !! i = Some s → P s.

(** [wf] processes whose edits are [spare] keep [kept] for themselves and each other, and the
    row keeps [written]; whoever reads the row has it. *)
Record keeper (b : backing) (wf : S → Prop) (spare : Op → Prop) (kept : S → option D → Prop)
    (written : option D → Prop) : Prop := {
  wf_act s d w o s' d' : wf s → spare o → act s d w o = (s', d') → wf s';
  wf_reload s d s' : wf s → reload s (Some d) = Some s' → wf s';
  wf_boot d s : boot b d = Some s → wf s;
  kept_act s d w o s' d' : wf s → spare o → kept s d → act s d w o = (s', d') → kept s' d';
  kept_other t s d w o s' d' : b = Updating → wf s → spare o → kept t d → act s d w o = (s', d') → kept t d';
  kept_reload s d s' : b = Updating → wf s → kept s d → reload s (Some d) = Some s' → kept s' d;
  written_act s d w o s' d' : wf s → spare o → b = Updating ∨ kept s d → written d →
    act s d w o = (s', d') → written d';
  written_reload s d s' : b = Updating → wf s → written d → reload s (Some d) = Some s' → kept s' d;
  written_boot d s : written d → boot b d = Some s → kept s d;
}.

Context {b : backing} {wf : S → Prop} {spare : Op → Prop}.

(** Nobody undoes it; the process [p] does not restart. *)
Definition spared (i : nat) (a : action) : Prop := match a with Act _ o => spare o | _ => True end.
Definition alive (p : nat) (i : nat) (a : action) : Prop := match a with Restart => i ≠ p | _ => True end.

Lemma put_lookup f i s d j t :
  planes (put f i s d) !! j = Some t → j = i ∧ t = s ∨ j ≠ i ∧ planes f !! j = Some t.
Proof. intros [(-> & -> & _)|[? ?]]%list_lookup_insert_Some; auto. Qed.

Lemma put_same f i s0 s d : planes f !! i = Some s0 → planes (put f i s d) !! i = Some s.
Proof. intros Hi. by eapply list_lookup_insert_eq, lookup_lt_Some. Qed.

Lemma put_owners f i s d : owners b f → owners b (put f i s d).
Proof. intros [|Hl]; [by left|right]. cbn. by rewrite length_insert. Qed.

Lemma put_all P f i s d : all_planes P f → P s → all_planes P (put f i s d).
Proof. intros Hf Hs j t [(_ & ->)|[_ Hj]]%put_lookup; [done|by eapply Hf]. Qed.

Lemma step_preserves f i a g :
  (∀ s d w o s' d', wf s → spare o → act s d w o = (s', d') → wf s') →
  (∀ s d s', wf s → reload s (Some d) = Some s' → wf s') → (∀ d s, boot b d = Some s → wf s) →
  step b f i a g → spared i a → all_planes wf f → owners b f → all_planes wf g ∧ owners b g.
Proof.
  intros Hact Hre Hbo [s w o s' d' Hi Ha|s s' _ Hi Ha|s s' Hi Ha] Hsp Hf Ho; (split; [apply put_all; [done|]|by apply put_owners]).
  - by eapply Hact, Ha; [eapply Hf|].
  - by eapply Hre, Ha; eapply Hf.
  - by eapply Hbo.
Qed.

Context {kept : S → option D → Prop} {written : option D → Prop}.
Context (K : keeper b wf spare kept written).

Lemma step_wellformed f i a g :
  step b f i a g → spared i a → all_planes wf f → owners b f → all_planes wf g ∧ owners b g.
Proof. apply step_preserves; [apply (wf_act _ _ _ _ _ K)|apply (wf_reload _ _ _ _ _ K)|apply (wf_boot _ _ _ _ _ K)]. Qed.

(** The owner of a file is the only one who edits it. *)
Lemma other_shared f i j s t : owners b f → planes f !! i = Some s → planes f !! j = Some t → i ≠ j → b = Updating.
Proof. intros [|Hl] Hi%lookup_lt_Some Hj%lookup_lt_Some Hne; [done|]. rewrite Hl in *. lia. Qed.

Lemma step_kept f i a g p s :
  step b f i a g → all_planes wf f → owners b f → spared i a → alive p i a →
  planes f !! p = Some s → kept s (disk f) → ∃ s', planes g !! p = Some s' ∧ kept s' (disk g).
Proof.
  intros Hstep Hf Ho Hspare Halive Hp Hs. destruct (decide (i = p)) as [-> | Hne].
  - destruct Hstep as [s0 w o s' d' Hi Ha|s0 s' Hb Hi Ha|s0 s' Hi Ha]; [..|done];
      rewrite Hp in Hi; injection Hi as <-; exists s'; (split; [by eapply put_same|]).
    + by eapply (kept_act _ _ _ _ _ K); eauto.
    + by eapply (kept_reload _ _ _ _ _ K); eauto.
  - assert (planes g !! p = Some s) as Hg.
    { destruct Hstep; cbn; by rewrite list_lookup_insert_ne. }
    exists s. split; [done|]. destruct Hstep as [s0 w o s' d' Hi Ha| |]; [|done..].
    eapply (kept_other _ _ _ _ _ K s s0); [by eapply (other_shared f i p)|by eapply Hf, Hi|done..].
Qed.

Lemma steps_kept f g p s :
  steps b (fun i a => spared i a ∧ alive p i a) f g → all_planes wf f → owners b f →
  planes f !! p = Some s → kept s (disk f) → ∃ s', planes g !! p = Some s' ∧ kept s' (disk g).
Proof.
  intros Hsteps. revert s. induction Hsteps as [f|f f' g (i & a & [Hsp Hal] & Hstep) _ IH]; intros s Hf Ho Hp Hs; [by exists s|].
  destruct (step_wellformed _ _ _ _ Hstep Hsp Hf Ho) as [Hf' Ho'].
  destruct (step_kept _ _ _ _ _ _ Hstep Hf Ho Hsp Hal Hp Hs) as (s' & Hp' & Hs'). by eapply IH.
Qed.

(** ** What is written *)

(** A shared row, or a file of which the owner keeps what is written. *)
Definition secured (f : fleet) : Prop :=
  written (disk f) ∧ (b = Updating ∨ all_planes (fun s => kept s (disk f)) f).

Lemma all_alone (P : S → Prop) f i s d :
  length (planes f) = 1%nat → planes f !! i = Some s → all_planes P (put f i s d) → all_planes P f.
Proof.
  intros Hl Hi HP j t Hj. pose proof (lookup_lt_Some _ _ _ Hi). pose proof (lookup_lt_Some _ _ _ Hj).
  assert (j = i) as -> by lia. apply (HP i). rewrite Hi in Hj. injection Hj as ->. by eapply put_same.
Qed.

Lemma step_secured f i a g :
  step b f i a g → all_planes wf f → owners b f → spared i a → secured f → secured g.
Proof.
  intros Hstep Hf Ho Hsp [Hw Hk].
  assert (written (disk g)) as Hw'.
  { destruct Hstep as [s w o s' d' Hi Ha| |]; [|done..]. eapply (written_act _ _ _ _ _ K); [by eapply Hf|done| |done..].
    destruct Hk as [|Hk]; [by left|right; by eapply Hk]. }
  split; [done|]. destruct Hk as [|Hk]; [by left|]. destruct (decide (b = Updating)) as [|Hb]; [by left|right].
  intros j t Hj. destruct Hstep as [s w o s' d' Hi Ha|s s' ? Hi Ha|s s' Hi Ha]; [..|].
  - apply put_lookup in Hj as [(-> & ->)|[Hne Hj]].
    + eapply (kept_act _ _ _ _ _ K); [by eapply Hf|done|by eapply Hk|done].
    + destruct Hb. by eapply (other_shared f j i).
  - done.
  - apply put_lookup in Hj as [(-> & ->)|[Hne Hj]].
    + by eapply (written_boot _ _ _ _ _ K).
    + by eapply Hk.
Qed.

Lemma steps_secured f g :
  steps b spared f g → all_planes wf f → owners b f → secured f →
  all_planes wf g ∧ owners b g ∧ secured g.
Proof.
  induction 1 as [f|f f' g (i & a & Hsp & Hstep) _ IH]; intros Hf Ho Hs; [done|].
  destruct (step_wellformed _ _ _ _ Hstep Hsp Hf Ho) as [Hf' Ho']. apply IH; [done..|]. by eapply step_secured.
Qed.

(** Process [j] has read the row since [f], or is [p], which wrote it. *)
Definition hears (p j : nat) (f g : fleet) : Prop :=
  j = p ∧ steps b spared f g ∨
  ∃ f1 f2 a, (a = Reload ∨ a = Restart) ∧ steps b spared f f1 ∧ step b f1 j a f2 ∧ steps b spared f2 g.

(** What is written and kept by a process stays so, also when it restarts. *)
Lemma steps_both f g p s :
  steps b spared f g → all_planes wf f → owners b f → secured f →
  planes f !! p = Some s → kept s (disk f) → ∃ s', planes g !! p = Some s' ∧ kept s' (disk g).
Proof.
  intros Hsteps. revert s. induction Hsteps as [f|f f' g (i & a & Hsp & Hstep) _ IH]; intros s Hf Ho Hsec Hp Hs; [by exists s|].
  destruct (step_wellformed _ _ _ _ Hstep Hsp Hf Ho) as [Hf' Ho']. pose proof (step_secured _ _ _ _ Hstep Hf Ho Hsp Hsec) as Hsec'.
  assert (∃ s', planes f' !! p = Some s' ∧ kept s' (disk f')) as (s' & Hp' & Hs'); [|by eapply IH].
  assert (alive p i a ∨ a = Restart ∧ i = p) as [Hal|[-> ->]]; [|by eapply step_kept|].
  { destruct a; [by left..|]. destruct (decide (i = p)); [by right|by left]. }
  inversion Hstep as [| |s0 s' Hi Hboot]; subst. exists s'. split; [by eapply put_same|].
  eapply (written_boot _ _ _ _ _ K); [apply Hsec|done].
Qed.

Lemma hears_kept p j f g s t :
  hears p j f g → all_planes wf f → owners b f → secured f → planes f !! p = Some s → kept s (disk f) →
  planes g !! j = Some t → kept t (disk g).
Proof.
  intros Hh Hf Ho Hsec Hp Hs Ht. destruct Hh as [[-> Hsteps]|(f1 & f2 & a & Ha & H1 & Hstep & H2)].
  - destruct (steps_both _ _ _ _ Hsteps Hf Ho Hsec Hp Hs) as (t' & Ht' & Hk). rewrite Ht in Ht'. by injection Ht' as ->.
  - destruct (steps_secured _ _ H1 Hf Ho Hsec) as (Hf1 & Ho1 & Hsec1).
    assert (spared j a) as Hsp by by destruct Ha as [-> | ->].
    destruct (step_wellformed _ _ _ _ Hstep Hsp Hf1 Ho1) as [Hf2 Ho2].
    assert (secured f2) as Hsec2 by (eapply step_secured; [done..| |done]; by destruct Ha as [-> | ->]).
    assert (∃ s', planes f2 !! j = Some s' ∧ kept s' (disk f2)) as (s' & Hj & Hk).
    { destruct Hstep as [s0 w o s' d' Hi Hact|s0 s' Hb Hi Hr|s0 s' Hi Hboot].
      - by destruct Ha.
      - exists s'. split; [by eapply put_same|]. eapply (written_reload _ _ _ _ _ K); [done|by eapply Hf1|apply Hsec1|done].
      - exists s'. split; [by eapply put_same|]. eapply (written_boot _ _ _ _ _ K); [apply Hsec1|done]. }
    destruct (steps_both _ _ _ _ H2 Hf2 Ho2 Hsec2 Hj Hk) as (t' & Ht' & Hk'). rewrite Ht in Ht'. by injection Ht' as ->.
Qed.

Lemma secured_by f p s s' d' :
  owners b f → planes f !! p = Some s → kept s' d' → written d' → secured (put f p s' d').
Proof.
  intros Ho Hp Hk Hw. split; [done|]. destruct Ho as [|Hlen]; [by left|right].
  intros i t [(_ & ->)|[Hne Hi]]%put_lookup; [done|]. apply lookup_lt_Some in Hp, Hi. rewrite Hlen in *. lia.
Qed.

(** Process [j], asked after a history from an answer of process [p]: the one that answered,
    while it is not restarted; or, when the answer is that it is saved, any process that has
    read the row since, restarted or not. *)
Definition asked (p j : nat) (saved : Prop) (f g : fleet) : Prop :=
  j = p ∧ steps b (fun i a => spared i a ∧ alive p i a) f g ∨ saved ∧ hears p j f g.

Lemma asked_kept f p s s' d' (saved : Prop) g j t :
  owners b f → all_planes wf f → planes f !! p = Some s → wf s' → kept s' d' → (saved → written d') →
  asked p j saved (put f p s' d') g → planes g !! j = Some t → kept t (disk g).
Proof.
  intros Ho Hf Hp Hw Hk Hsaved Hasked Hj.
  assert (all_planes wf (put f p s' d')) as Hf1 by by apply put_all.
  pose proof (put_owners f p s' d' Ho) as Ho1. pose proof (put_same f p s s' d' Hp) as Hp1.
  destruct Hasked as [[-> Hsteps]|[Hc Hh]].
  - destruct (steps_kept _ _ _ _ Hsteps Hf1 Ho1 Hp1 Hk) as (t' & Ht' & Hk'). rewrite Hj in Ht'. by injection Ht' as ->.
  - eapply hears_kept; [done..| |done|exact Hk|done]. eapply secured_by; [done..|by apply Hsaved].
Qed.

End fleet.

Arguments keeper {S D Op _}.
Arguments spared {Op} spare.
Arguments hears {S D Op _} b spare.
Arguments asked {S D Op _} b spare.
Arguments secured {S D} b kept written.

(** ** Edits of a shared row

    What a property needs of the ways an edit ends: it did not run, it ran and its commit is
    unknown, or what it wrote became the state of the process. *)

Section edits.
Context {S D F : Type} (marshal : F → D).
Context (live pend : S → Prop) (filed good : F → Prop) (row : option D → Prop).

Inductive ended (a : S) (stored : option D) : S → option D → Prop :=
  | ended_idle a' : (live a → live a') → (live a → pend a → pend a') → ended a stored a' stored
  | ended_unconfirmed candidate w a' :
      good candidate → (pend a ∨ row stored → filed candidate) →
      (live a → live a') → (live a → pend a → pend a') → ended a stored a' (diskAfter w stored (marshal candidate))
  | ended_published candidate a' :
      good candidate → (pend a ∨ row stored → filed candidate) → (filed candidate → live a') →
      ended a stored a' (Some (marshal candidate)).

Hypothesis marshal_row : ∀ f, good f → filed f → row (Some (marshal f)).

Lemma diskAfter_row w stored f : good f → filed f → row stored → row (diskAfter w stored (marshal f)).
Proof. intros Hf Hid Hr. destruct w as [| |[]|]; cbn; auto. Qed.

Lemma ended_row a stored a' stored' : ended a stored a' stored' → row stored → row stored'.
Proof. intros [|f w a1 Hg Hf|f a1 Hg Hf] Hr; [done|apply diskAfter_row; auto|auto]. Qed.

Lemma ended_kept a stored a' stored' :
  ended a stored a' stored' → live a → pend a ∨ row stored → live a' ∧ (pend a' ∨ row stored').
Proof.
  intros He Hl Hp. pose proof (ended_row _ _ _ _ He) as Hrow. destruct He as [a1 Hla Hpa|f w a1 Hg Hf Hla Hpa|f a1 Hg Hf Hla].
  - destruct Hp; auto.
  - split; [auto|]. destruct Hp as [Hp|Hp]; [left|right]; auto.
  - auto.
Qed.

End edits.

End SharedFleet.
