(* ===== verification/AdmissionFleet.v ===== *)
(** * Control planes over one set of kill-switches

    Histories of the blocks of [Admission]: edits of administrators, deliveries of peer
    regions, erasures and pulls, with every outcome of their commits, promotions that read the
    row again and restarts.  A block that was applied stays until the device is restored or
    erased, and a block that a peer was told is kept stays for good. *)

From stdpp Require Import base gmap fin_maps list strings relations.
From S2P Require Import Prelude Trimmed GoStd Persistence Admission SharedFleet.
Import Admission SharedFleet.

Open Scope Z_scope.

Module AdmissionFleet.

(** ** The operations the program runs *)

Inductive op :=
  | ORevoke (identity reason : string)
  | ORestore (identity : string)
  | OMesh (identity reason : string)
  | OErase (ids : list string)
  | OPull (pulled : gmap string string).

Section fleet.
Context (hk : hooks) `{MapOrder}.

Definition perform (a : AdmissionRevocations) (stored : option payload) (w : write_outcome) (o : op)
    : AdmissionRevocations * option payload :=
  match o with
  | ORevoke identity reason => (RevokeCheckedContext hk a stored w identity reason).1.1
  | ORestore identity => (RestoreCheckedContext hk a stored w identity).1.1
  | OMesh identity reason => (RevokeFromMeshCheckedContext hk a stored w identity reason).1.1
  | OErase ids => (RemoveDevicesContext a stored w ids).1
  | OPull pulled => ((ReplaceSynced hk a pulled).1, stored)
  end.

Definition accepted (r : AdmissionRevocations * option error) : option AdmissionRevocations :=
  match r with (a, None) => Some a | _ => None end.

#[export] Instance admissionPlane : Plane AdmissionRevocations payload op := {
  act := perform;
  reload a loaded := accepted (ReloadFromStore a loaded);
  boot b stored := accepted (SetPersister NewAdmissionRevocations b (Some stored));
}.

(** ** Two layers of blocks *)

Inductive layer := Origin | Mesh.

Definition live (l : layer) (a : AdmissionRevocations) : gmap string string :=
  match l with Origin => revoked a | Mesh => meshReceived a end.
Definition pending (l : layer) (a : AdmissionRevocations) : gmap string string :=
  match l with Origin => originPending a | Mesh => meshPending a end.
Definition filed (l : layer) (f : admissionRevocationsStateFile) : gmap string string :=
  match l with Origin => sf_Revoked f | Mesh => sf_MeshReceived f end.

(** The saved row blocks [id]. *)
Definition rowBlocks (l : layer) (id : string) (stored : option payload) : Prop :=
  ∃ data f, stored = Some data ∧ decodeAdmissionSnapshot data = Some f ∧ is_Some (filed l f !! id).

(** The process blocks [id], and so will what it publishes next. *)
Definition blocks (l : layer) (id : string) (a : AdmissionRevocations) (stored : option payload) : Prop :=
  is_Some (live l a !! id) ∧
  (persister a = Updating → is_Some (pending l a !! id) ∨ rowBlocks l id stored).

(** The only operations that lift a block: a local block by its device. *)
Definition sparesBlock (l : layer) (id : string) (o : op) : Prop :=
  match l, o with
  | Origin, ORestore identity => normalizeIdentity identity ≠ id
  | Origin, OErase ids => ∀ x, x ∈ ids → normalizeIdentity x ≠ id
  | _, _ => True
  end.

Record wellFormed (b : backing) (a : AdmissionRevocations) : Prop := {
  wf_backing : persister a = b;
  wf_live l : canonicalRows (live l a);
  wf_pending l : canonicalRows (pending l a);
}.

Lemma canonical_empty : canonicalRows ∅.
Proof. intros id r Hr. by rewrite lookup_empty in Hr. Qed.

Lemma canonical_union m m' : canonicalRows m → canonicalRows m' → canonicalRows (m ∪ m').
Proof. intros Hm Hm' id r [?|[? ?]]%lookup_union_Some_raw; eauto. Qed.

Lemma canonical_delete m id : canonicalRows m → canonicalRows (delete id m).
Proof. intros Hm k r [_ Hk]%lookup_delete_Some. by apply Hm. Qed.

Lemma filed_canonical l f : canonicalFile f → canonicalRows (filed l f).
Proof. intros [? ? ?]. by destruct l. Qed.

(** ** Edits *)

Lemma merged_filed l a f : filed l (mergePendingAdmissionBlocks a f) = pending l a ∪ filed l f.
Proof. by destruct l. Qed.

Lemma merged_canonical b a f : wellFormed b a → canonicalFile f → canonicalFile (mergePendingAdmissionBlocks a f).
Proof.
  intros Hw [Hs Hr Hm]. split; cbn; [done| |]; apply canonical_union; try done;
    [exact (wf_pending _ _ Hw Origin)|exact (wf_pending _ _ Hw Mesh)].
Qed.

(** What an edit starts from has the blocks of the row and those that are pending. *)
Lemma latest_blocks b a stored f :
  wellFormed b a → latest a stored = Some f →
  canonicalFile f ∧
  (∀ l id, is_Some (pending l a !! id) ∨ rowBlocks l id stored → is_Some (filed l f !! id)).
Proof.
  intros Hw. unfold latest. destruct stored as [data|].
  - rewrite fmap_Some. intros (f0 & Hd & ->). split; [by eapply merged_canonical, decoded_canonical|].
    intros l id Hid. rewrite merged_filed, lookup_union_is_Some. destruct Hid as [|(? & ? & [= <-] & Hd' & Hid)]; [by left|right].
    rewrite Hd in Hd'. by injection Hd' as ->.
  - destruct (_ && _); [done|]. intros [= <-]. split; [by eapply merged_canonical|].
    intros l id Hid. rewrite merged_filed, lookup_union_is_Some. destruct Hid as [|(? & ? & [=] & _)]. by left.
Qed.

Lemma marshal_blocks l id f : canonicalFile f → is_Some (filed l f !! id) → rowBlocks l id (Some (marshal f)).
Proof. intros Hf Hid. exists (marshal f), f. split_and!; [done|by apply decode_marshal_file|done]. Qed.

(** How an operation of a shared row ends, as far as [id] is concerned. *)
Definition concluded (l : layer) (id : string) :=
  ended marshal (fun a => is_Some (live l a !! id)) (fun a => is_Some (pending l a !! id))
    (fun f => is_Some (filed l f !! id)) canonicalFile (rowBlocks l id).

Lemma live_publish l a f : live l (publish a f) = filed l f.
Proof. by destruct l. Qed.

Lemma persister_publish a f : persister (publish a f) = persister a.
Proof. unfold publish, takeLayers. by destruct (moved a f). Qed.

Lemma insert_keeps {A} (m : gmap string A) k v id : is_Some (m !! id) → is_Some (<[k := v]> m !! id).
Proof. intros. rewrite lookup_insert_is_Some. destruct (decide (k = id)); auto. Qed.

Lemma update_cases a stored w edit stored' candidate confirmed :
  UpdateContext a stored w edit = (stored', candidate, confirmed) →
  candidate = None ∧ stored' = stored ∨
  ∃ f, latest a stored = Some f ∧ candidate = Some (edit f) ∧ stored' = diskAfter w stored (marshal (edit f)) ∧
    (confirmed = true → w = Written).
Proof.
  unfold UpdateContext. destruct w as [| |reached|]; [..|intros [= <- <- <-]; by left];
    (destruct (latest a stored) as [f|]; [|intros [= <- <- <-]; by left]);
    intros [= <- <- <-]; right; by exists f.
Qed.

(** An edit of the canonical files that keeps [id] in a layer. *)
Record gentle (l : layer) (id : string) (edit : admissionRevocationsStateFile → admissionRevocationsStateFile) : Prop := {
  gentle_canonical f : canonicalFile f → canonicalFile (edit f);
  gentle_keeps f : is_Some (filed l f !! id) → is_Some (filed l (edit f) !! id);
}.

(** A process that only gained blocks. *)
Record grown (l : layer) (id : string) (a a' : AdmissionRevocations) : Prop := {
  grown_live : is_Some (live l a !! id) → is_Some (live l a' !! id);
  grown_pending : is_Some (pending l a !! id) → is_Some (pending l a' !! id);
  grown_backing : persister a' = persister a;
}.

Lemma update_ended b a stored w edit stored' candidate confirmed l id a' :
  wellFormed b a → gentle l id edit → UpdateContext a stored w edit = (stored', candidate, confirmed) →
  match candidate with
  | None => a' = a
  | Some f => if confirmed then a' = publish a f else grown l id a a'
  end → concluded l id a stored a' stored'.
Proof.
  intros Hw [Hc Hk] [(-> & ->)|(f & Hf & -> & -> & Hconf)]%update_cases.
  - intros ->. by apply ended_idle.
  - destruct (latest_blocks _ _ _ _ Hw Hf) as [Hcan Hid]. destruct confirmed.
    + intros ->. rewrite Hconf by done. apply ended_published; auto.
    + intros [? ? ?]. apply ended_unconfirmed; auto.
Qed.

Lemma gentle_insert l l' k v id :
  k ≠ "" → normalizeIdentity k = k → trim_space v = v →
  gentle l id (fun f => match l' with
                        | Origin => f <| sf_Revoked := <[k := v]> (sf_Revoked f) |>
                        | Mesh => f <| sf_MeshReceived := <[k := v]> (sf_MeshReceived f) |> end).
Proof.
  intros Hk Hn Hv. split.
  - intros f [? ? ?]. destruct l'; split; try done; by apply canonicalRows_insert.
  - intros f Hf. destruct l, l'; cbn in *; try done; by apply insert_keeps.
Qed.

Lemma canonical_sub m m' : m ⊆ m' → canonicalRows m' → canonicalRows m.
Proof. intros Hs Hm id r Hr. by eapply Hm, lookup_weaken. Qed.

Lemma nonempty_id identity : is_empty (normalizeIdentity identity) = false → normalizeIdentity identity ≠ "".
Proof. intros He Hid. by rewrite Hid in He. Qed.

Lemma bump_live l a : live l (bump a) = live l a.
Proof. by destruct l. Qed.

(** ** A shared row *)

Lemma revoke_shared b a stored w identity reason l id a' stored' calls r :
  b = Updating → wellFormed b a →
  changeAdmissionContext hk a stored w identity reason true = (a', stored', calls, r) →
  concluded l id a stored a' stored'.
Proof.
  intros -> Hw. unfold changeAdmissionContext. destruct (is_empty _) eqn:He; [intros [= <- <- _ _]; by apply ended_idle|].
  rewrite (wf_backing _ _ Hw). cbv zeta. destruct (UpdateContext _ _ _ _) as [[stored1 candidate] confirmed] eqn:Hu.
  intros Heq. assert (stored1 = stored') as -> by (by destruct candidate; injection Heq).
  eapply update_ended; [done| |exact Hu|].
  - apply (gentle_insert l Origin); [by apply nonempty_id|apply normalizeIdentity_idemp|apply trim_space_idemp].
  - destruct candidate as [f|]; [|by injection Heq as <- _ _]. injection Heq as <- _ _. destruct confirmed; [done|].
    split; destruct l, (changedRow _ _ _); cbn; auto using insert_keeps.
Qed.

Lemma restore_shared b a stored w identity reason l id a' stored' calls r :
  b = Updating → wellFormed b a → sparesBlock l id (ORestore identity) →
  changeAdmissionContext hk a stored w identity reason false = (a', stored', calls, r) →
  concluded l id a stored a' stored'.
Proof.
  intros -> Hw Hsp. unfold changeAdmissionContext. destruct (is_empty _) eqn:He; [intros [= <- <- _ _]; by apply ended_idle|].
  rewrite (wf_backing _ _ Hw). cbv zeta. destruct (UpdateContext _ _ _ _) as [[stored1 candidate] confirmed] eqn:Hu.
  intros Heq. assert (stored1 = stored') as -> by (by destruct candidate; injection Heq).
  eapply update_ended; [done| |exact Hu|].
  - split.
    + intros f [? ? ?]. split; cbn; try done. by apply canonical_delete.
    + intros f. destruct l; cbn; [|done]. by rewrite lookup_delete_ne by apply Hsp.
  - destruct candidate as [f|]; [|by injection Heq as <- _ _]. injection Heq as <- _ _. by destruct confirmed.
Qed.

Lemma mesh_shared b a stored w identity reason retry l id a' stored' calls r :
  b = Updating → wellFormed b a →
  receiveMeshContext hk a stored w identity reason retry = (a', stored', calls, r) →
  concluded l id a stored a' stored'.
Proof.
  intros -> Hw. unfold receiveMeshContext. destruct (is_empty _) eqn:He; [intros [= <- <- _ _]; by apply ended_idle|].
  rewrite (wf_backing _ _ Hw). cbv zeta. destruct (UpdateContext _ _ _ _) as [[stored1 candidate] confirmed] eqn:Hu.
  intros Heq. assert (stored1 = stored') as -> by (by destruct candidate; injection Heq).
  eapply update_ended; [done| |exact Hu|].
  - apply (gentle_insert l Mesh); [by apply nonempty_id|apply normalizeIdentity_idemp|apply trim_space_idemp].
  - destruct candidate as [f|]; [|by injection Heq as <- _ _]. injection Heq as <- _ _. destruct confirmed; [done|].
    split; destruct l, (changedRow _ _ _); cbn; auto using insert_keeps.
Qed.

Lemma erase_shared b a stored w ids l id a' stored' r :
  b = Updating → wellFormed b a → sparesBlock l id (OErase ids) →
  RemoveDevicesContext a stored w ids = (a', stored', r) → concluded l id a stored a' stored'.
Proof.
  intros -> Hw Hsp. unfold RemoveDevicesContext. destruct ids as [|x ids]; [intros [= <- <- _]; by apply ended_idle|].
  rewrite (wf_backing _ _ Hw). cbv zeta. destruct (UpdateContext _ _ _ _) as [[stored1 candidate] confirmed] eqn:Hu.
  intros Heq. eapply (update_ended _ _ _ _ _ _ candidate confirmed); [done| |rewrite Hu; f_equal|].
  - split.
    + intros f [? Hr ?]. split; [done| |done].
      exact (canonical_sub _ _ (removeKeys_sub normalizeIdentity (x :: ids) (sf_Revoked f)) Hr).
    + intros f. destruct l; [|done].
      change (filed Origin (f <| sf_Revoked := ?m |>)) with m. by rewrite removeKeys_spec.
  - f_equal. destruct candidate, (latest a stored), confirmed; by injection Heq.
  - apply update_cases in Hu as [(-> & ->)|(f & Hf & -> & _ & _)]; [by injection Heq as <- _ _|].
    rewrite Hf in Heq. destruct confirmed; injection Heq as <- _ _; [done|by split].
Qed.

(** ** A file, or nothing *)

(** How an operation ends when the process is the only owner of what it saves. *)
Inductive alone (a : AdmissionRevocations) (stored : option payload) (l : layer) (id : string)
    (a' : AdmissionRevocations) : option payload → Prop :=
  | alone_unsaved : alone a stored l id a' stored
  | alone_saved w f : persister a ≠ Memory → canonicalFile f → (is_Some (live l a !! id) → is_Some (filed l f !! id)) →
      alone a stored l id a' (diskAfter w stored (marshal f)).

Lemma save_alone a stored w rows stored' err l id a' a0 :
  saveStateLocked a0 stored w rows = (stored', err) → persister a0 = persister a →
  canonicalRows rows → canonicalRows (meshReceived a0) →
  (is_Some (live l a !! id) → is_Some (match l with Origin => rows | Mesh => meshReceived a0 end !! id)) →
  alone a stored l id a' stored' ∧ (err = None → persister a = Memory ∨ w = Written).
Proof.
  unfold saveStateLocked. intros Heq Hp Hr Hm Hid. rewrite Hp in Heq.
  assert (∀ w, persister a ≠ Memory → alone a stored l id a'
    (diskAfter w stored (marshal (mkStateFile admissionRevocationsStateSchemaVersion rows (meshReceived a0))))) as Hsaved.
  { intros w' Hb. apply alone_saved; [done|by split|]. by destruct l. }
  destruct (persister a) eqn:Hb; injection Heq as <- <-; (split; [|by destruct w; auto]);
    [apply alone_unsaved|apply Hsaved; congruence..].
Qed.

Lemma revoke_alone b a stored w identity reason retry l id a' stored' calls err :
  wellFormed b a → revokeContext hk a stored w identity reason retry = (a', stored', calls, err) →
  wellFormed b a' ∧ alone a stored l id a' stored' ∧ grown l id a a'.
Proof.
  intros [Hb Hl Hp]. unfold revokeContext. cbv zeta.
  destruct (is_empty _) eqn:He; [intros [= <- <- _ _]; split_and!; [done|apply alone_unsaved|done]|].
  set (rid := normalizeIdentity identity) in *.
  set (a1 := if changedRow _ _ _ then _ else _).
  assert (canonicalRows (revoked a1) ∧ meshReceived a1 = meshReceived a ∧ persister a1 = b ∧
    (∀ l, pending l a1 = pending l a) ∧ grown l id a a1) as (Hr & Hmesh & Hb1 & Hp1 & Hg).
  { pose proof (Hl Origin). unfold a1. destruct (changedRow _ _ _); [|by split_and!].
    split_and!; try done; cbn.
    - apply canonicalRows_insert; [by apply nonempty_id|apply normalizeIdentity_idemp|apply trim_space_idemp|done].
    - split; destruct l; cbn; auto using insert_keeps. }
  destruct (if changedRow _ _ _ || retry then _ else _) as [stored1 err1] eqn:Hs. intros [= <- <- _ _].
  assert (wellFormed b a1) as Hw by (split; [done|intros []; cbn; [done|by rewrite Hmesh; apply (Hl Mesh)]|intros l0; by rewrite Hp1]).
  split_and!; [done| |done]. destruct (_ || retry); [|injection Hs as <- _; apply alone_unsaved].
  eapply save_alone in Hs as [Hs _]; [exact Hs|congruence|done|rewrite Hmesh; apply (Hl Mesh)|apply Hg].
Qed.

Lemma restore_alone b a stored w identity retry l id a' stored' err :
  wellFormed b a → sparesBlock l id (ORestore identity) →
  restore a stored w identity retry = (a', stored', err) →
  wellFormed b a' ∧ alone a stored l id a' stored' ∧ grown l id a a'.
Proof.
  intros [Hb Hl Hp] Hsp. unfold restore. cbv zeta.
  destruct (is_empty _) eqn:He; [intros [= <- <- _]; split_and!; [done|apply alone_unsaved|done]|].
  destruct (_ && _); [intros [= <- <- _]; split_and!; [done|apply alone_unsaved|done]|].
  set (rows := delete _ _). destruct (saveStateLocked _ _ _ _) as [stored1 err1] eqn:Hs.
  assert (canonicalRows rows) as Hrows by apply canonical_delete, (Hl Origin).
  assert (is_Some (live l a !! id) → is_Some (match l with Origin => rows | Mesh => meshReceived a end !! id)) as Hid.
  { destruct l; [|done]. unfold rows. cbn. by rewrite lookup_delete_ne by apply Hsp. }
  assert (wellFormed b (bump (a <| revoked := rows |>)) ∧ grown l id a (bump (a <| revoked := rows |>))) as [Hw Hg].
  { split; [split; [done|by intros []; [|apply (Hl Mesh)]|by intros []; [apply (Hp Origin)|apply (Hp Mesh)]]|].
    split; [|by destruct l|done]. by destruct l. }
  eapply (save_alone a) in Hs as [Hs _]; [|done|done|apply (Hl Mesh)|exact Hid].
  destruct err1; intros [= <- <- _]; (split_and!; [| |]);
    try case_bool_decide; first [done|exact Hs|exact Hw|by split].
Qed.

Lemma mesh_alone b a stored w identity reason retry l id a' stored' calls r :
  wellFormed b a → revokeFromMesh hk a stored w identity reason retry = (a', stored', calls, r) →
  wellFormed b a' ∧ alone a stored l id a' stored' ∧ grown l id a a'.
Proof.
  intros [Hb Hl Hp]. unfold revokeFromMesh. cbv zeta.
  destruct (is_empty _) eqn:He; [intros [= <- <- _ _]; split_and!; [done|apply alone_unsaved|done]|].
  set (rid := normalizeIdentity identity) in *.
  set (a1 := if changedRow _ _ _ then _ else _).
  assert (canonicalRows (meshReceived a1) ∧ revoked a1 = revoked a ∧ persister a1 = b ∧
    (∀ l, pending l a1 = pending l a) ∧ grown l id a a1) as (Hm & Hrev & Hb1 & Hp1 & Hg).
  { pose proof (Hl Mesh). unfold a1. destruct (changedRow _ _ _); [|by split_and!].
    split_and!; try done; cbn.
    - apply canonicalRows_insert; [by apply nonempty_id|apply normalizeIdentity_idemp|apply trim_space_idemp|done].
    - split; destruct l; cbn; auto using insert_keeps. }
  destruct (if changedRow _ _ _ || retry then _ else _) as [stored1 err1] eqn:Hs. intros [= <- <- _ _].
  assert (wellFormed b a1) as Hw by (split; [done|intros []; cbn; [by rewrite Hrev; apply (Hl Origin)|done]|intros l0; by rewrite Hp1]).
  split_and!; [done| |done]. destruct (_ || retry); [|injection Hs as <- _; apply alone_unsaved].
  eapply save_alone in Hs as [Hs _]; [exact Hs|congruence|rewrite Hrev; apply (Hl Origin)|done|].
  destruct l; [rewrite Hrev; done|apply Hg].
Qed.

Lemma erase_alone b a stored w ids l id a' stored' r :
  normalizeIdentity id = id → wellFormed b a → sparesBlock l id (OErase ids) →
  RemoveDevicesChecked a stored w ids = (a', stored', r) →
  wellFormed b a' ∧ alone a stored l id a' stored' ∧ grown l id a a'.
Proof.
  intros Hid [Hb Hl Hp] Hsp. unfold RemoveDevicesChecked.
  destruct ids as [|x ids]; [intros [= <- <- _]; split_and!; [done|apply alone_unsaved|done]|].
  destruct (removeKeys _ _ _) as [rows n] eqn:Hrm. destruct (saveStateLocked _ _ _ _) as [stored1 err1] eqn:Hs.
  assert (rows ⊆ revoked a) as Hsub by (pose proof (removeKeys_sub NormalizeDeviceID (x :: ids) (revoked a)) as Hr; by rewrite Hrm in Hr).
  assert (canonicalRows rows) as Hrows by (eapply canonical_sub; [done|apply (Hl Origin)]).
  assert (is_Some (live l a !! id) → is_Some (match l with Origin => rows | Mesh => meshReceived a end !! id)) as Hkeep.
  { destruct l; [|done]. cbn. pose proof (removeKeys_spec NormalizeDeviceID (x :: ids) (revoked a) id) as Hk.
    rewrite Hrm in Hk. cbn in Hk. rewrite Hk; [done|]. intros y Hy Heq. apply (Hsp y Hy).
    unfold NormalizeDeviceID in Heq. unfold normalizeIdentity in *. rewrite Heq. rewrite <- Hid at 2.
    by rewrite <- Heq, trim_space_idemp. }
  assert (wellFormed b (bump (a <| revoked := rows |>)) ∧ grown l id a (bump (a <| revoked := rows |>))) as [Hw Hg].
  { split; [split; [done|by intros []; [|apply (Hl Mesh)]|by intros []; [apply (Hp Origin)|apply (Hp Mesh)]]|].
    split; [|by destruct l|done]. by destruct l. }
  eapply (save_alone a) in Hs as [Hs _]; [|done|done|apply (Hl Mesh)|exact Hkeep].
  destruct err1; intros [= <- <- _]; (split_and!; [| |]);
    try destruct (0 <? n); first [done|exact Hs|exact Hw|by split].
Qed.

(** ** Every operation *)

Lemma wellFormed_publish b a f : wellFormed b a → canonicalFile f → wellFormed b (publish a f).
Proof.
  intros [Hb _ _] Hf. split; [by rewrite persister_publish|intros l; rewrite live_publish; by apply filed_canonical|].
  intros []; apply canonical_empty.
Qed.

Lemma revoke_shared_wf b a stored w identity reason revoke a' stored' calls r :
  b = Updating → wellFormed b a →
  changeAdmissionContext hk a stored w identity reason revoke = (a', stored', calls, r) → wellFormed b a'.
Proof.
  intros -> Hw. pose proof Hw as [Hb Hl Hp]. unfold changeAdmissionContext.
  destruct (is_empty _) eqn:He; [by intros [= <- <- _ _]|]. rewrite Hb. cbv zeta.
  destruct (UpdateContext _ _ _ _) as [[stored1 candidate] confirmed] eqn:Hu.
  apply update_cases in Hu as [(-> & ->)|(f & Hf & -> & _ & _)]; [by intros [= <- <- _ _]|]. intros [= <- _ _ _].
  apply (latest_blocks Updating) in Hf as [[? ? ?] _]; [|done].
  assert (normalizeIdentity identity ≠ "") by by apply nonempty_id.
  pose proof (normalizeIdentity_idemp identity). pose proof (trim_space_idemp reason).
  destruct confirmed.
  - apply wellFormed_publish; [done|]. split; cbn; try done. destruct revoke; [by apply canonicalRows_insert|by apply canonical_delete].
  - destruct revoke; [|done]. pose proof (Hl Origin). pose proof (Hl Mesh). pose proof (Hp Origin). pose proof (Hp Mesh).
    split; [by destruct (_ && _)|intros []|intros []]; destruct (_ && _); cbn; try done; by apply canonicalRows_insert.
Qed.

Lemma mesh_shared_wf b a stored w identity reason retry a' stored' calls r :
  b = Updating → wellFormed b a →
  receiveMeshContext hk a stored w identity reason retry = (a', stored', calls, r) → wellFormed b a'.
Proof.
  intros -> Hw. pose proof Hw as [Hb Hl Hp]. unfold receiveMeshContext.
  destruct (is_empty _) eqn:He; [by intros [= <- <- _ _]|]. rewrite Hb. cbv zeta.
  destruct (UpdateContext _ _ _ _) as [[stored1 candidate] confirmed] eqn:Hu.
  apply update_cases in Hu as [(-> & ->)|(f & Hf & -> & _ & _)]; [by intros [= <- <- _ _]|]. intros [= <- _ _ _].
  apply (latest_blocks Updating) in Hf as [[? ? ?] _]; [|done].
  assert (normalizeIdentity identity ≠ "") by by apply nonempty_id.
  pose proof (normalizeIdentity_idemp identity). pose proof (trim_space_idemp reason).
  destruct confirmed.
  - apply wellFormed_publish; [done|]. split; cbn; try done. by apply canonicalRows_insert.
  - pose proof (Hl Origin). pose proof (Hl Mesh). pose proof (Hp Origin). pose proof (Hp Mesh).
    split; [by destruct (changedRow _ _ _)|intros []|intros []]; destruct (changedRow _ _ _); cbn; try done; by apply canonicalRows_insert.
Qed.

Lemma erase_shared_wf b a stored w ids a' stored' r :
  b = Updating → wellFormed b a → RemoveDevicesContext a stored w ids = (a', stored', r) → wellFormed b a'.
Proof.
  intros -> Hw. pose proof Hw as [Hb Hl Hp]. unfold RemoveDevicesContext. destruct ids as [|x ids]; [by intros [= <- _ _]|].
  rewrite Hb. cbv zeta. destruct (UpdateContext _ _ _ _) as [[stored1 candidate] confirmed] eqn:Hu.
  apply update_cases in Hu as [(-> & ->)|(f & Hf & -> & _ & _)]; [by intros [= <- _ _]|]. rewrite Hf.
  apply (latest_blocks Updating) in Hf as [[? Hr ?] _]; [|done]. destruct confirmed; intros [= <- _ _]; [|done].
  apply wellFormed_publish; [done|]. split; [done| |done].
  exact (canonical_sub _ _ (removeKeys_sub normalizeIdentity (x :: ids) (sf_Revoked f)) Hr).
Qed.

Lemma perform_alone b a stored w o a' stored' l id :
  b ≠ Updating → normalizeIdentity id = id → wellFormed b a → sparesBlock l id o →
  perform a stored w o = (a', stored') →
  wellFormed b a' ∧ alone a stored l id a' stored' ∧ grown l id a a'.
Proof.
  intros Hb Hid Hw Hsp. pose proof (wf_backing _ _ Hw) as Hp.
  destruct o as [identity reason|identity|identity reason|ids|pulled]; cbn [perform].
  - unfold RevokeCheckedContext, changeAdmissionContext. destruct (is_empty _).
    { intros [= <- <-]. split_and!; [done|apply alone_unsaved|done]. }
    destruct (revokeContext _ _ _ _ _ _ _) as [[[a1 s1] calls] err] eqn:Hr. intros Heq.
    eapply (revoke_alone b); [done|]. rewrite Hr. destruct (persister a); [..|by destruct Hb]; by injection Heq as <- <-.
  - unfold RestoreCheckedContext, changeAdmissionContext. destruct (is_empty _).
    { intros [= <- <-]. split_and!; [done|apply alone_unsaved|done]. }
    destruct (RestoreChecked _ _ _ _) as [[a1 s1] err] eqn:Hr. intros Heq.
    eapply (restore_alone b _ _ _ (normalizeIdentity identity) true); [done| |].
    + destruct l; [|done]. cbn. by rewrite normalizeIdentity_idemp.
    + unfold RestoreChecked in Hr. rewrite Hr. destruct (persister a); [..|by destruct Hb]; by injection Heq as <- <-.
  - unfold RevokeFromMeshCheckedContext, receiveMeshContext. destruct (is_empty _).
    { intros [= <- <-]. split_and!; [done|apply alone_unsaved|done]. }
    destruct (revokeFromMesh _ _ _ _ _ _ _) as [[[a1 s1] calls] r] eqn:Hr. intros Heq.
    eapply (mesh_alone b); [done|]. rewrite Hr. destruct (persister a); [..|by destruct Hb]; by injection Heq as <- <-.
  - unfold RemoveDevicesContext. destruct ids as [|x ids].
    { intros [= <- <-]. split_and!; [done|apply alone_unsaved|done]. }
    destruct (RemoveDevicesChecked _ _ _ _) as [[a1 s1] r] eqn:Hr. intros Heq.
    eapply (erase_alone b); [done..|]. rewrite Hr. destruct (persister a); [..|by destruct Hb]; by injection Heq as <- <-.
  - intros [= <- <-]. split_and!; [|apply alone_unsaved|]; destruct Hw as [? Hl Hpend].
    + split; [done|intros []; [apply (Hl Origin)|apply (Hl Mesh)]|intros []; [apply (Hpend Origin)|apply (Hpend Mesh)]].
    + split; by destruct l.
Qed.

Lemma perform_shared a stored w o a' stored' l id :
  wellFormed Updating a → sparesBlock l id o → perform a stored w o = (a', stored') → concluded l id a stored a' stored'.
Proof.
  intros Hw Hsp. destruct o as [identity reason|identity|identity reason|ids|pulled]; cbn [perform].
  - destruct (RevokeCheckedContext _ _ _ _ _ _) as [[[a1 s1] calls] r] eqn:Hr. intros [= <- <-]. by eapply revoke_shared.
  - unfold RestoreCheckedContext. destruct (changeAdmissionContext _ _ _ _ _ _ _) as [[[a1 s1] calls] [? r]] eqn:Hr.
    intros [= <- <-]. by eapply restore_shared.
  - destruct (RevokeFromMeshCheckedContext _ _ _ _ _ _) as [[[a1 s1] calls] r] eqn:Hr. intros [= <- <-]. by eapply mesh_shared.
  - destruct (RemoveDevicesContext _ _ _ _) as [[a1 s1] r] eqn:Hr. intros [= <- <-]. by eapply erase_shared.
  - intros [= <- <-]. apply ended_idle; by destruct l.
Qed.

Lemma perform_wf b a stored w o a' stored' : wellFormed b a → perform a stored w o = (a', stored') → wellFormed b a'.
Proof.
  intros Hw. destruct (decide (b = Updating)) as [-> | Hb].
  2: { intros Ho. by eapply (perform_alone b _ _ _ _ _ _ Mesh "" Hb eq_refl Hw). }
  destruct o as [identity reason|identity|identity reason|ids|pulled]; cbn [perform].
  - destruct (RevokeCheckedContext _ _ _ _ _ _) as [[[a1 s1] calls] r] eqn:Hr. intros [= <- _]. by eapply revoke_shared_wf.
  - unfold RestoreCheckedContext. destruct (changeAdmissionContext _ _ _ _ _ _ _) as [[[a1 s1] calls] [? r]] eqn:Hr.
    intros [= <- _]. by eapply revoke_shared_wf.
  - destruct (RevokeFromMeshCheckedContext _ _ _ _ _ _) as [[[a1 s1] calls] r] eqn:Hr. intros [= <- _]. by eapply mesh_shared_wf.
  - destruct (RemoveDevicesContext _ _ _ _) as [[a1 s1] r] eqn:Hr. intros [= <- _]. by eapply erase_shared_wf.
  - intros [= <- _]. destruct Hw as [? Hl Hpend].
    split; [done|intros []; [apply (Hl Origin)|apply (Hl Mesh)]|intros []; [apply (Hpend Origin)|apply (Hpend Mesh)]].
Qed.

(** ** Reading the row *)

Lemma restore_row b b' a loaded refresh a' :
  wellFormed b' a → restoreSnapshotLocked a b loaded refresh = (a', None) →
  wellFormed b a' ∧
  (∀ l id, b ≠ Memory → (∃ stored, loaded = Some stored ∧ rowBlocks l id stored) → is_Some (live l a' !! id)) ∧
  (∀ l id, is_Some (pending l a !! id) → is_Some (live l a !! id) → is_Some (live l a' !! id)) ∧
  (∀ l, pending l a' = pending l a).
Proof.
  intros Hw. unfold restoreSnapshotLocked.
  assert (let a1 := a <| persister := b |> in wellFormed b a1 ∧ (∀ l, live l a1 = live l a) ∧ (∀ l, pending l a1 = pending l a)) as Hsame.
  { destruct Hw as [_ Hl Hp]. split_and!; [split; [done|intros l; specialize (Hl l)|intros l; specialize (Hp l)]|..]; intros; by destruct l. }
  assert (∀ f, canonicalFile f → let a1 := (takeLayers a (mergePendingAdmissionBlocks a f)) <| persister := b |> in
    wellFormed b a1 ∧ (∀ l id, is_Some (pending l a !! id) ∨ is_Some (filed l f !! id) → is_Some (live l a1 !! id)) ∧
    (∀ l, pending l a1 = pending l a)) as Hread.
  { intros f Hf. cbv zeta. pose proof (merged_canonical _ a f Hw Hf) as Hm. destruct Hw as [_ _ Hp]. unfold takeLayers.
    split_and!.
    - split; [by destruct (moved _ _)|intros l|intros l].
      + pose proof (filed_canonical l _ Hm). by destruct l, (moved _ _).
      + specialize (Hp l). by destruct l, (moved _ _).
    - intros l id Hid. rewrite <- lookup_union_is_Some, <- merged_filed in Hid. by destruct l, (moved _ _).
    - intros l. by destruct l, (moved _ _). }
  destruct Hsame as (Hwf & Hlive & Hpend).
  assert (∀ l id, ¬ rowBlocks l id None) as Hnone by (by intros l id (? & ? & [=] & _)).
  destruct (decide (b = Memory)) as [-> | Hb].
  { intros [= <-]. split_and!; [done|done|intros l id _; by rewrite Hlive|done]. }
  intros Hr. assert (match loaded with
    | None => (a, Some ErrAdmissionLoad)
    | Some None => if refresh && negb (generation a =? 0) then (a, Some ErrAdmissionLoad) else (a <| persister := b |>, None)
    | Some (Some data) => match decodeAdmissionSnapshot data with
        | None => (a, Some ErrInvalidAdmissionSnapshot)
        | Some f => ((takeLayers a (mergePendingAdmissionBlocks a f)) <| persister := b |>, None)
        end
    end = (a', None)) as Heq by (by destruct b). clear Hr. destruct loaded as [[data|]|]; [| |done].
  - destruct (decodeAdmissionSnapshot data) as [f|] eqn:Hd; [|done]. injection Heq as <-.
    destruct (Hread f (decoded_canonical _ _ Hd)) as (Hwf' & Hl' & Hp').
    split_and!; [done| |intros l id ? _; apply Hl'; by left|done].
    intros l id _ (? & [= <-] & ? & f' & [= <-] & Hd' & Hid). apply Hl'. right. rewrite Hd in Hd'. by injection Hd' as ->.
  - destruct (refresh && _); [done|]. injection Heq as <-.
    split_and!; [done|by intros l id _ (? & [= <-] & ?%Hnone)|intros l id _; by rewrite Hlive|done].
Qed.

Lemma new_wellFormed : wellFormed Memory NewAdmissionRevocations.
Proof. split; [done|intros []; apply canonical_empty|intros []; apply canonical_empty]. Qed.

(** ** The store keeps its blocks *)

(** A saved row of a file or of a shared row. *)
Definition rowKeeps (b : backing) (l : layer) (id : string) (stored : option payload) : Prop :=
  b ≠ Memory ∧ rowBlocks l id stored.

Lemma alone_row b l id a stored a' stored' :
  wellFormed b a → alone a stored l id a' stored' → is_Some (live l a !! id) → rowBlocks l id stored →
  rowBlocks l id stored'.
Proof.
  intros Hw [|w f Hb Hf Hid] Hl Hr; [done|].
  apply (diskAfter_row marshal (fun f => is_Some (filed l f !! id)) canonicalFile); auto using marshal_blocks.
Qed.

Lemma concluded_row l id a stored a' stored' :
  concluded l id a stored a' stored' → rowBlocks l id stored → rowBlocks l id stored'.
Proof. apply ended_row. intros f. apply marshal_blocks. Qed.

Lemma concluded_blocks a stored l id a' stored' :
  wellFormed Updating a → concluded l id a stored a' stored' → blocks l id a stored → blocks l id a' stored'.
Proof.
  intros Hw He [Hl Hp]. destruct (ended_kept _ _ _ _ _ _ (marshal_blocks l id) _ _ _ _ He Hl (Hp (wf_backing _ _ Hw))).
  by split.
Qed.

Lemma admission_reload b a d a' : wellFormed b a → reload a (Some d) = Some a' → wellFormed b a'.
Proof.
  intros Hw Hr. cbn in Hr. unfold ReloadFromStore in Hr. rewrite (wf_backing _ _ Hw) in Hr.
  destruct (restoreSnapshotLocked _ _ _ _) as [a1 [|]] eqn:Hrow; [done|]. injection Hr as <-. by eapply restore_row.
Qed.

Lemma admission_boot b d a : boot b d = Some a → wellFormed b a.
Proof.
  intros Hr. cbn in Hr. unfold SetPersister in Hr.
  destruct (restoreSnapshotLocked _ _ _ _) as [a1 [|]] eqn:Hrow; [done|]. injection Hr as <-.
  by eapply restore_row; [apply new_wellFormed|].
Qed.

(** Whatever is done, a step leaves the processes well formed. *)
Lemma admission_step b f i a g :
  step b f i a g → all_planes (wellFormed b) f → owners b f → all_planes (wellFormed b) g ∧ owners b g.
Proof.
  intros Hs. apply (step_preserves (spare := fun _ => True) f i a g); [|apply admission_reload|apply admission_boot|done|by destruct a].
  intros s d w o s' d' Hw _. by apply perform_wf.
Qed.

Lemma admission_keeper b l id :
  normalizeIdentity id = id →
  keeper b (wellFormed b) (sparesBlock l id) (blocks l id) (rowKeeps b l id).
Proof.
  intros Hnorm. split.
  - intros a d w o a' d' Hw _ Ha. by eapply perform_wf.
  - apply admission_reload.
  - apply admission_boot.
  - intros a d w o a' d' Hw Hsp Hk Ha. destruct (decide (b = Updating)) as [-> | Hb].
    + by eapply concluded_blocks, Hk; [|by eapply perform_shared].
    + destruct (perform_alone _ _ _ _ _ _ _ l id Hb Hnorm Hw Hsp Ha) as (Hw' & _ & Hg).
      split; [by apply Hg, Hk|]. by rewrite (wf_backing _ _ Hw').
  - intros t a d w o a' d' -> Hw Hsp [Hl Hp] Ha. split; [done|]. intros Hb.
    destruct (Hp Hb) as [|Hr]; [by left|right]. by eapply concluded_row; [by eapply perform_shared|].
  - intros a d a' -> Hw [Hl Hp] Hr. cbn in Hr. unfold ReloadFromStore in Hr. rewrite (wf_backing _ _ Hw) in Hr.
    destruct (restoreSnapshotLocked _ _ _ _) as [a1 [|]] eqn:Hrow; [done|]. injection Hr as <-.
    destruct (restore_row _ _ _ _ _ _ Hw Hrow) as (Hw' & H1 & H2 & H3). specialize (Hp (wf_backing _ _ Hw)).
    split; [destruct Hp; [by apply H2|apply H1; [done|by exists d]]|]. intros _. by rewrite H3.
  - intros a d w o a' d' Hw Hsp Hk [Hm Hr] Ha. split; [done|]. destruct (decide (b = Updating)) as [-> | Hb].
    + by eapply concluded_row; [by eapply perform_shared|].
    + destruct Hk as [|Hk]; [done|].
      destruct (perform_alone _ _ _ _ _ _ _ l id Hb Hnorm Hw Hsp Ha) as (_ & Hal & _). eapply alone_row; [done..|apply Hk|done].
  - intros a d a' -> Hw [_ Hrow] Hr. cbn in Hr. unfold ReloadFromStore in Hr. rewrite (wf_backing _ _ Hw) in Hr.
    destruct (restoreSnapshotLocked _ _ _ _) as [a1 [|]] eqn:He; [done|]. injection Hr as <-.
    destruct (restore_row _ _ _ _ _ _ Hw He) as (Hw' & H1 & _ & _). split; [apply H1; [done|by exists d]|by right].
  - intros d a [Hm Hrow] Hr. cbn in Hr. unfold SetPersister in Hr.
    destruct (restoreSnapshotLocked _ _ _ _) as [a1 [|]] eqn:He; [done|]. injection Hr as <-.
    destruct (restore_row _ _ _ _ _ _ new_wellFormed He) as (Hw' & H1 & _ & _). split; [apply H1; [done|by exists d]|by right].
Qed.

(** ** What an answer says *)

Lemma blocked a l id stored identity : normalizeIdentity identity = id → blocks l id a stored → is_Some (IsRevoked a identity).
Proof.
  intros <- [Hl _]. unfold IsRevoked. cbv zeta. destruct l; cbn in Hl.
  - destruct Hl as [reason ->]. by eexists.
  - destruct Hl as [reason ->]. repeat case_match; by eexists.
Qed.

Lemma filed_insert l f k v :
  is_Some (filed l (match l with Origin => f <| sf_Revoked := <[k := v]> (sf_Revoked f) |>
                    | Mesh => f <| sf_MeshReceived := <[k := v]> (sf_MeshReceived f) |> end) !! k).
Proof. destruct l; cbn; rewrite lookup_insert_eq; by eexists. Qed.

Lemma changed_present m id reason : changedRow m id reason = false → is_Some (m !! id).
Proof. unfold changedRow. case_bool_decide as Hm; [|done]. rewrite Hm. by eexists. Qed.

Lemma saved_row a stored w rows stored' :
  saveStateLocked a stored w rows = (stored', None) → persister a ≠ Memory →
  stored' = Some (marshal (mkStateFile admissionRevocationsStateSchemaVersion rows (meshReceived a))).
Proof. unfold saveStateLocked. destruct (persister a), w; try done; by intros [= <-]. Qed.

(** An applied block is held by the process, and an answer without error means it is saved. *)
Lemma revoke_applies b a stored w identity reason a' stored' calls err (id := normalizeIdentity identity) :
  wellFormed b a → id ≠ "" →
  RevokeCheckedContext hk a stored w identity reason = (a', stored', calls, (true, err)) →
  blocks Origin id a' stored' ∧ (err = None → b ≠ Memory → rowBlocks Origin id stored').
Proof.
  intros Hw Hid. unfold RevokeCheckedContext, changeAdmissionContext. fold id.
  destruct (is_empty id) eqn:He; [by apply is_empty_true in He|].
  pose proof (normalizeIdentity_idemp identity) as Hnorm. fold id in Hnorm. cbv zeta.
  destruct (decide (b = Updating)) as [-> | Hb].
  - rewrite (wf_backing _ _ Hw). destruct (UpdateContext _ _ _ _) as [[stored1 candidate] confirmed] eqn:Hu.
    apply update_cases in Hu as [(-> & ->)|(f & Hf & -> & -> & Hconf)]; [done|].
    apply (latest_blocks Updating) in Hf as [Hcan _]; [|done].
    pose proof (gentle_canonical _ _ _ (gentle_insert Origin Origin id (trim_space reason) id Hid Hnorm (trim_space_idemp reason)) f Hcan) as Hc.
    pose proof (filed_insert Origin f id (trim_space reason)) as Hfiled. cbv beta iota in Hc, Hfiled.
    set (f' := f <| sf_Revoked := _ |>) in *. intros [= <- <- _ _ <-]. destruct confirmed.
    + rewrite Hconf by done. split; [|intros _ _; by apply marshal_blocks].
      split; [by rewrite live_publish|]. intros _. right. by apply marshal_blocks.
    + split; [|done]. split; [|intros _; left; destruct (changedRow _ _ _); cbn; rewrite lookup_insert_eq; by eexists].
      destruct (changedRow _ _ _) eqn:Hch; cbn; [rewrite lookup_insert_eq; by eexists|]. by eapply changed_present.
  - destruct (revokeContext _ _ _ _ _ _ _) as [[[a1 s1] calls1] err1] eqn:Hr. intros Heq.
    assert ((a1, s1, err1) = (a', stored', err)) as [= -> -> ->] by (destruct (persister a) eqn:Hp; [..|by rewrite (wf_backing _ _ Hw) in Hp]; by injection Heq as <- <- _ <-).
    clear Heq. unfold revokeContext in Hr. rewrite Hnorm, He, trim_space_idemp in Hr. cbv zeta in Hr.
    set (a1 := if changedRow _ _ _ then _ else _) in Hr.
    assert (is_Some (revoked a1 !! id) ∧ persister a1 = b) as [Hlive Hp1].
    { unfold a1. destruct (changedRow _ _ _) eqn:Hch; cbn; [rewrite lookup_insert_eq|];
        (split; [|apply (wf_backing _ _ Hw)]); [by eexists|by eapply changed_present]. }
    pose proof (revoke_alone b a stored w id reason true Origin id) as Hal.
    unfold revokeContext in Hal. rewrite Hnorm, He in Hal. cbv zeta in Hal. fold a1 in Hal.
    rewrite orb_true_r in Hr, Hal. destruct (saveStateLocked _ _ _ _) as [s2 e2] eqn:Hs.
    destruct (Hal _ _ _ _ Hw eq_refl) as (Hw' & _ & _). injection Hr as <- <- _ <-.
    split; [split; [done|by rewrite Hp1]|]. intros -> Hm. apply saved_row in Hs as ->; [|by rewrite Hp1].
    apply marshal_blocks; [|done]. destruct Hw' as [_ Hl _]. split; [done|apply (Hl Origin)|apply (Hl Mesh)].
Qed.

(** An acknowledged delivery is held and saved. *)
Lemma mesh_applies b a stored w identity reason a' stored' calls changed (id := normalizeIdentity identity) :
  wellFormed b a → id ≠ "" →
  RevokeFromMeshCheckedContext hk a stored w identity reason = (a', stored', calls, (changed, None)) →
  blocks Mesh id a' stored' ∧ (b ≠ Memory → rowBlocks Mesh id stored').
Proof.
  intros Hw Hid. unfold RevokeFromMeshCheckedContext, receiveMeshContext. fold id.
  destruct (is_empty id) eqn:He; [by apply is_empty_true in He|].
  pose proof (normalizeIdentity_idemp identity) as Hnorm. fold id in Hnorm. cbv zeta.
  destruct (decide (b = Updating)) as [-> | Hb].
  - rewrite (wf_backing _ _ Hw). destruct (UpdateContext _ _ _ _) as [[stored1 candidate] confirmed] eqn:Hu.
    apply update_cases in Hu as [(-> & ->)|(f & Hf & -> & -> & Hconf)]; [done|].
    apply (latest_blocks Updating) in Hf as [Hcan _]; [|done].
    pose proof (gentle_canonical _ _ _ (gentle_insert Mesh Mesh id (trim_space reason) id Hid Hnorm (trim_space_idemp reason)) f Hcan) as Hc.
    pose proof (filed_insert Mesh f id (trim_space reason)) as Hfiled. cbv beta iota in Hc, Hfiled.
    set (f' := f <| sf_MeshReceived := _ |>) in *. destruct confirmed; [|done]. intros [= <- <- _ _].
    rewrite Hconf by done. split; [|intros _; by apply marshal_blocks].
    split; [by rewrite live_publish|]. intros _. right. by apply marshal_blocks.
  - intros Hr. assert (revokeFromMesh hk a stored w identity (trim_space reason) true = (a', stored', calls, (changed, None))) as Hm
      by (destruct (persister a) eqn:Hp; [exact Hr..|by rewrite (wf_backing _ _ Hw) in Hp]).
    destruct (mesh_alone b a stored w identity (trim_space reason) true Mesh id _ _ _ _ Hw Hm) as (Hw' & _ & _). clear Hr.
    unfold revokeFromMesh in Hm. fold id in Hm. rewrite He in Hm. cbv zeta in Hm.
    set (a1 := if changedRow _ _ _ then _ else _) in Hm.
    assert (is_Some (meshReceived a1 !! id) ∧ persister a1 = b) as [Hlive Hp1].
    { unfold a1. destruct (changedRow _ _ _) eqn:Hch; cbn; [rewrite lookup_insert_eq|];
        (split; [|apply (wf_backing _ _ Hw)]); [by eexists|by eapply changed_present]. }
    rewrite orb_true_r in Hm. destruct (saveStateLocked _ _ _ _) as [s2 e2] eqn:Hs. injection Hm as <- <- _ _ ->.
    split; [split; [done|by rewrite Hp1]|]. intros Hmem. apply saved_row in Hs as ->; [|by rewrite Hp1].
    apply marshal_blocks; [|done]. destruct Hw' as [_ Hl _]. split; [done|apply (Hl Origin)|apply (Hl Mesh)].
Qed.

(** ** Histories after a block *)

Lemma block_survives b l f p a identity a' d' (saved : Prop) f' j t (id := normalizeIdentity identity) :
  owners b f → all_planes (wellFormed b) f → planes f !! p = Some a → wellFormed b a' →
  blocks l id a' d' → (saved → rowKeeps b l id d') → asked b (sparesBlock l id) p j saved (put f p a' d') f' →
  planes f' !! j = Some t → is_Some (IsRevoked t identity).
Proof.
  intros Ho Hf Hp Hw Hb Hr Hasked Hj. apply (blocked t l id (disk f')); [done|].
  by eapply (asked_kept (admission_keeper b l id (normalizeIdentity_idemp identity))).
Qed.

End fleet.

(** (C2) A device that an administrator blocked stays blocked: on the process that
    applied the block, saved or not, over every history of blocks, deliveries, erasures, pulls,
    promotions and failed or ambiguous commits in which it is not restarted; and, when the
    answer was without error, on every process that has read the row since, restarted or not,
    as long as nobody restores or erases that very device. *)
Theorem kill_switch_holds hk `{MapOrder} b f p a identity reason w a' d' calls err f' j t
    (id := normalizeIdentity identity) :
  owners b f → all_planes (wellFormed b) f → planes f !! p = Some a → id ≠ "" →
  RevokeCheckedContext hk a (disk f) w identity reason = (a', d', calls, (true, err)) →
  asked (H := admissionPlane hk) b (sparesBlock Origin id) p j (err = None ∧ b ≠ Memory) (put f p a' d') f' →
  planes f' !! j = Some t → is_Some (IsRevoked t identity).
Proof.
  intros Ho Hf Hp Hid Hr Hasked Hj. pose proof (Hf p a Hp) as Hw.
  destruct (revoke_applies hk _ _ _ _ _ _ _ _ _ _ Hw Hid Hr) as [Hb Hrow].
  eapply block_survives; [done..| |exact Hb| |exact Hasked|done]; [|intros [? ?]; by split; [|apply Hrow]].
  eapply (perform_wf hk b a (disk f) w (ORevoke identity reason)); [done|]. cbn. by rewrite Hr.
Qed.

(** (C20) A delivery that a peer region saw acknowledged blocks the device for good:
    no operation of the program, no outcome of a commit and no restart lifts it on the process
    that answered or on any that has read the row since. *)
Theorem acknowledged_peer_block_is_permanent hk `{MapOrder} b f p a identity reason w a' d' calls changed f' j t :
  owners b f → all_planes (wellFormed b) f → planes f !! p = Some a → normalizeIdentity identity ≠ "" →
  RevokeFromMeshCheckedContext hk a (disk f) w identity reason = (a', d', calls, (changed, None)) →
  asked (H := admissionPlane hk) b (fun _ => True) p j (b ≠ Memory) (put f p a' d') f' →
  planes f' !! j = Some t → is_Some (IsRevoked t identity).
Proof.
  intros Ho Hf Hp Hid Hr Hasked Hj. pose proof (Hf p a Hp) as Hw.
  destruct (mesh_applies hk _ _ _ _ _ _ _ _ _ _ Hw Hid Hr) as [Hb Hrow].
  eapply (block_survives hk b Mesh); [done..| |exact Hb| |exact Hasked|done]; [|by split; [|apply Hrow]].
  eapply (perform_wf hk b a (disk f) w (OMesh identity reason)); [done|]. cbn. by rewrite Hr.
Qed.

(** ** Two control planes *)

Section examples.

#[local] Instance plainOrder : MapOrder := { iterate A l := l; iterate_perm A l := reflexivity l }.

Definition noHooks : hooks := mkHooks false false false.
#[local] Existing Instance admissionPlane.

Definition plane : AdmissionRevocations := NewAdmissionRevocations <| persister := Updating |>.
Definition pair : fleet (S := AdmissionRevocations) (D := payload) := mkFleet [plane; plane] None.

Definition blockOut := RevokeCheckedContext noHooks plane None Written " LAPTOP-7 " "lost".
Definition unsavedOut := RevokeCheckedContext noHooks plane None (WriteFailed false) "laptop-7" "lost".
Definition deliveryOut := RevokeFromMeshCheckedContext noHooks plane None Written "laptop-7" "peer".

Lemma plane_wf : wellFormed Updating plane.
Proof. split; [done|intros []; apply canonical_empty|intros []; apply canonical_empty]. Qed.

Lemma pair_wf : all_planes (wellFormed Updating) pair.
Proof. intros [|[|i]] s; [by intros [= <-]; apply plane_wf..|]. by destruct i. Qed.

(** The other process is promoted, and then restores another device. *)
Lemma kill_switch_holds_witness :
  ∃ t, accepted (ReloadFromStore plane (Some blockOut.1.1.2)) = Some t ∧ is_Some (IsRevoked t "Laptop-7").
Proof.
  destruct (accepted (ReloadFromStore plane (Some blockOut.1.1.2))) as [t|] eqn:Ht; [|exfalso; vm_compute in Ht; discriminate].
  exists t. split; [reflexivity|].
  change (is_Some (IsRevoked t "Laptop-7")) with (is_Some (IsRevoked t " LAPTOP-7 ")).
  refine (kill_switch_holds noHooks Updating pair 0 plane " LAPTOP-7 " "lost" Written blockOut.1.1.1 blockOut.1.1.2
    blockOut.1.2 None (put (put pair 0 blockOut.1.1.1 blockOut.1.1.2) 1 t blockOut.1.1.2) 1 t
    (or_introl eq_refl) pair_wf eq_refl _ _ (or_intror (conj (conj eq_refl _) (or_intror _))) eq_refl).
  - vm_compute. discriminate.
  - vm_compute. reflexivity.
  - discriminate.
  - exists (put pair 0 blockOut.1.1.1 blockOut.1.1.2), (put (put pair 0 blockOut.1.1.1 blockOut.1.1.2) 1 t blockOut.1.1.2), Reload.
    split; [left; reflexivity|]. split; [apply rtc_refl|]. split; [|apply rtc_refl].
    apply (step_reload (H := admissionPlane noHooks) Updating (put pair 0 blockOut.1.1.1 blockOut.1.1.2) 1 plane t eq_refl eq_refl Ht).
Defined.

(** The receiving process restores the device; the block of the peer stays. *)
Lemma acknowledged_peer_block_is_permanent_witness :
  is_Some (IsRevoked (RestoreCheckedContext noHooks deliveryOut.1.1.1 deliveryOut.1.1.2 Written "laptop-7").1.1.1 "laptop-7").
Proof.
  set (out := RestoreCheckedContext noHooks deliveryOut.1.1.1 deliveryOut.1.1.2 Written "laptop-7").
  refine (acknowledged_peer_block_is_permanent noHooks Updating pair 0 plane "laptop-7" "peer" Written deliveryOut.1.1.1
    deliveryOut.1.1.2 deliveryOut.1.2 deliveryOut.2.1 (put (put pair 0 deliveryOut.1.1.1 deliveryOut.1.1.2) 0 out.1.1.1 out.1.1.2)
    0 out.1.1.1 (or_introl eq_refl) pair_wf eq_refl _ _ (or_intror (conj _ (or_introl (conj eq_refl _)))) eq_refl).
  - vm_compute. discriminate.
  - vm_compute. reflexivity.
  - discriminate.
  - apply rtc_once. exists 0%nat, (Act Written (ORestore "laptop-7")). split; [exact I|].
    apply (step_act (H := admissionPlane noHooks) Updating (put pair 0 deliveryOut.1.1.1 deliveryOut.1.1.2) 0 deliveryOut.1.1.1 Written (ORestore "laptop-7")).
    + reflexivity.
    + apply surjective_pairing.
Defined.

(** A block whose commit failed is kept, and saved with the next edit. *)
Example unsaved_block_is_carried :
  unsavedOut.2 = (true, Some ErrAdmissionSave) ∧ unsavedOut.1.1.2 = None ∧
  IsRevoked unsavedOut.1.1.1 "laptop-7" = Some "lost" ∧
  (let next := RevokeCheckedContext noHooks unsavedOut.1.1.1 None Written "phone-1" "stolen" in
   (d ← next.1.1.2; f ← decodeAdmissionSnapshot d; sf_Revoked f !! "laptop-7") = Some "lost").
Proof. vm_compute. done. Qed.

(** A row that disappeared is not taken for an empty one. *)
Example missing_row_refused :
  (RestoreCheckedContext noHooks blockOut.1.1.1 None Written "laptop-7").2 = Some ErrAdmissionSave ∧
  (ReloadFromStore blockOut.1.1.1 (Some None)).2 = Some ErrAdmissionLoad.
Proof. vm_compute. done. Qed.

(** *** Where the code departs from its comments *)

(** On a file the erasure of a tenant compares the identifiers without folding their case, so
    it does not find the block of a device that is named in capitals, nor counts it. *)
Example erasure_misses_capitals :
  let a := (RevokeChecked noHooks NewAdmissionRevocations None Written "LAPTOP-7" "lost").1.1.1 in
  CountDevices a ["LAPTOP-7"] = 0%nat ∧
  (RemoveDevicesChecked a None Written ["LAPTOP-7"]).2 = (0, None) ∧
  (RemoveDevicesContext (unsavedOut.1.1.1) None Written ["LAPTOP-7"]).2 = (1, None).
Proof. vm_compute. done. Qed.

End examples.

End AdmissionFleet.
