(* ===== verification/HighRisk.v ===== *)
(** * Devices and users marked as a risk ([src/revocation/highrisk*.go, user_risk.go, device_risk.go])

    [HighRiskOverlay] keeps the severity of marked devices and of marked users of a tenant,
    with an index from the subjects a user is known by.  Marks of the first schema whose type
    cannot be told stay in a name space of their own.  Administrative changes are saved before
    they are published; a detection ([RaiseDeviceRisk]) is published first, and remembered
    until a commit carries it.  Receivers are never nil here. *)

From Stdlib Require Import Ascii.
From stdpp Require Import base gmap fin_maps list strings.
From S2P Require Import Prelude Trimmed GoStd Persistence Admission.
Import Admission.

Open Scope Z_scope.

Module HighRisk.

(** ** Marks *)

Record UserRisk := mkUserRisk {
  ur_TenantID : string;
  ur_ID : string;
  ur_Subjects : list string;
  ur_Severity : string;
}.

#[export] Instance userRisk_eta : Etaable UserRisk := fun u =>
  mkUserRisk (ur_TenantID u) (ur_ID u) (ur_Subjects u) (ur_Severity u).

#[export] Instance userRisk_eq_dec : EqDecision UserRisk.
Proof. solve_decision. Defined.

Inductive risk_error :=
  | ErrRiskSave | ErrRiskUnavailable | ErrRiskLoad | ErrInvalidRiskSnapshot
  | ErrLegacyUnattributed | ErrLegacyRiskNotFound | ErrLegacyRiskChanged
  | IdentityRequired | InvalidDeviceSeverity | TenantAndUserRequired | InvalidUserSeverity
  | InvalidUserFeed | DuplicateUserFeed | InvalidLegacyFeed | InvalidAutomatic
  | LegacyRequestIncomplete | AttributionRequired | ResolveFailed.

Definition nul : string := String Ascii.zero "".
Definition has_nul (s : string) : bool := negb (all_bytes (fun c => negb (Ascii.eqb c Ascii.zero)) s).

Definition userRiskKey (tenant id : string) : string := tenant +:+ nul +:+ id.

Definition riskRank (sev : string) : Z :=
  switch sev [(["medium"], 1); (["high"], 2); (["critical"], 3)] 0.

Definition addSubject (acc : list string) (s : string) : list string :=
  let s := trim_space s in
  if nonempty s && negb (has_nul s) && negb (containsString acc s) then acc ++ [s] else acc.

Definition normalizeUserRisk (mark : UserRisk) : result risk_error UserRisk :=
  let tenant := trim_space (ur_TenantID mark) in
  let id := trim_space (ur_ID mark) in
  let severity := to_lower (trim_space (ur_Severity mark)) in
  if is_empty tenant || is_empty id || has_nul tenant || has_nul id then Err TenantAndUserRequired
  else if negb (containsString ["medium"; "high"; "critical"; "none"; "low"; ""] severity)
  then Err InvalidUserSeverity
  else Ok (mkUserRisk tenant id (sort_strings (foldl addSubject [id] (ur_Subjects mark))) severity).

(** ** The snapshot ([highrisk_persistence.go], [highrisk_snapshot.go]) *)

Record highRiskOverlayStateFile := mkStateFile {
  rf_SchemaVersion : string;
  rf_Devices : gmap string string;
  rf_Users : gmap string UserRisk;
  rf_LegacyUnattributed : gmap string string;
}.

#[export] Instance riskFile_eta : Etaable highRiskOverlayStateFile := fun f =>
  mkStateFile (rf_SchemaVersion f) (rf_Devices f) (rf_Users f) (rf_LegacyUnattributed f).

Definition highRiskOverlayStateSchemaVersion : string := "high_risk_overlay_state.v2".
Definition firstSchemaVersion : string := "high_risk_overlay_state.v1".

(** The members of an object, each key once. *)
Definition riskSnapshotObject (j : option json) : option (list (string * json)) :=
  match j with
  | Some (JObject members) => if bool_decide (NoDup members.*1) then Some members else None
  | _ => None
  end.

Definition field (name : string) (members : list (string * json)) : option json :=
  snd <$> List.find (fun row => String.eqb row.1 name) members.

Definition riskSnapshotString (j : option json) : option string :=
  match j with Some (JString s) => Some s | _ => None end.

Fixpoint decodeMarks (members : list (string * json)) : option (gmap string string) :=
  match members with
  | [] => Some ∅
  | (id, raw) :: members =>
      severity ← riskSnapshotString (Some raw);
      if is_empty id || negb (String.eqb id (NormalizeDeviceID id)) || (riskRank severity =? 0) then None
      else marks ← decodeMarks members; Some (<[id := severity]> marks)
  end.

Fixpoint decodeSubjects (items : list json) : option (list string) :=
  match items with
  | [] => Some []
  | raw :: items =>
      s ← riskSnapshotString (Some raw);
      if is_empty s || negb (String.eqb s (trim_space s)) || has_nul s then None
      else rest ← decodeSubjects items; Some (s :: rest)
  end.

Definition decodeUserField (mark : option UserRisk) (row : string * json) : option UserRisk :=
  mark ← mark;
  let '(key, raw) := row in
  if String.eqb key "tenant_id" then s ← riskSnapshotString (Some raw); Some (mark <| ur_TenantID := s |>)
  else if String.eqb key "id" then s ← riskSnapshotString (Some raw); Some (mark <| ur_ID := s |>)
  else if String.eqb key "severity" then s ← riskSnapshotString (Some raw); Some (mark <| ur_Severity := s |>)
  else if String.eqb key "subjects" then
    match raw with
    | JArray items => subjects ← decodeSubjects items; Some (mark <| ur_Subjects := subjects |>)
    | _ => None
    end
  else None.

Definition decodeSavedUserRisk (j : json) : option UserRisk :=
  fields ← riskSnapshotObject (Some j);
  mark ← foldl decodeUserField (Some (mkUserRisk "" "" [] "")) fields;
  match normalizeUserRisk mark with
  | Ok normalized =>
      if (riskRank (ur_Severity mark) =? 0) || negb (String.eqb (ur_TenantID mark) (ur_TenantID normalized))
         || negb (String.eqb (ur_ID mark) (ur_ID normalized)) then None
      else Some normalized
  | Err _ => None
  end.

Fixpoint decodeUsers (members : list (string * json)) : option (gmap string UserRisk) :=
  match members with
  | [] => Some ∅
  | (key, raw) :: members =>
      mark ← decodeSavedUserRisk raw;
      if negb (String.eqb key (userRiskKey (ur_TenantID mark) (ur_ID mark))) then None
      else marks ← decodeUsers members; Some (<[key := mark]> marks)
  end.

Definition decodeRiskSnapshot (data : payload) : option highRiskOverlayStateFile :=
  match data with
  | NotJSON => None
  | OneValue j =>
      fields ← riskSnapshotObject (Some j);
      if negb (forallb (fun row => containsString ["schema_version"; "devices"; "users"; "legacy_unattributed"] row.1) fields)
      then None
      else
        schema ← riskSnapshotString (field "schema_version" fields);
        let v2 := String.eqb schema highRiskOverlayStateSchemaVersion in
        if negb v2 && negb (String.eqb schema firstSchemaVersion) then None
        else
          devices ← riskSnapshotObject (field "devices" fields);
          devices ← decodeMarks devices;
          legacy ← match field "legacy_unattributed" fields with
                   | None => Some ∅
                   | Some raw => if v2 then rows ← riskSnapshotObject (Some raw); decodeMarks rows else None
                   end;
          users ← match field "users" fields with
                  | None => Some ∅
                  | Some raw =>
                      rows ← riskSnapshotObject (Some raw);
                      if negb v2 && negb (Nat.eqb (length rows) 0) then None else decodeUsers rows
                  end;
          Some (mkStateFile schema devices users legacy)
  end.

(** [json.Marshal]: sorted keys, and empty members left out where the tag says so. *)
Definition marshalRows {A} (encode : A → json) (m : gmap string A) : json :=
  JObject ((fun row => (row.1, encode row.2)) <$> sort_stable (fun a b => String.ltb a.1 b.1) (map_to_list m)).

Definition marshalUser (u : UserRisk) : json :=
  JObject ([("tenant_id", JString (ur_TenantID u)); ("id", JString (ur_ID u))]
    ++ when (negb (Nat.eqb (length (ur_Subjects u)) 0)) [("subjects", JArray (JString <$> ur_Subjects u))]
    ++ [("severity", JString (ur_Severity u))]).

Definition marshalRisk (f : highRiskOverlayStateFile) : payload :=
  OneValue (JObject ([("schema_version", JString (rf_SchemaVersion f)); ("devices", marshalRows JString (rf_Devices f))]
    ++ when (negb (Nat.eqb (size (rf_Users f)) 0)) [("users", marshalRows marshalUser (rf_Users f))]
    ++ when (negb (Nat.eqb (size (rf_LegacyUnattributed f)) 0))
         [("legacy_unattributed", marshalRows JString (rf_LegacyUnattributed f))])).

(** ** The state ([highrisk.go]) *)

Record HighRiskOverlay := mkOverlay {
  devices : gmap string string;
  users : gmap string UserRisk;
  userIndex : gmap string string;
  loadErr : option risk_error;
  legacy : bool;
  rpersister : backing;
  rgeneration : Z;
  automaticPending : gmap string string;
  riskSavePending : bool;
  deviceSavePending : bool;
  legacyUnattributed : gmap string string;
}.

#[export] Instance overlay_eta : Etaable HighRiskOverlay := fun o =>
  mkOverlay (devices o) (users o) (userIndex o) (loadErr o) (legacy o) (rpersister o) (rgeneration o)
    (automaticPending o) (riskSavePending o) (deviceSavePending o) (legacyUnattributed o).

Definition NewHighRiskOverlay : HighRiskOverlay := mkOverlay ∅ ∅ ∅ None false Memory 0 ∅ false false ∅.

Definition rbump (o : HighRiskOverlay) : HighRiskOverlay := o <| rgeneration := (rgeneration o + 1) mod 2 ^ 64 |>.

(** The severity in a map, as an absent key reads. *)
Definition severityOf (m : gmap string string) (id : string) : string := default "" (m !! id).

Section overlay.
Context `{MapOrder}.

Definition indexSubject (tenant severity : string) (ix : gmap string string) (subject : string) : gmap string string :=
  let k := userRiskKey tenant subject in
  if riskRank (severityOf ix k) <? riskRank severity then <[k := severity]> ix else ix.

Definition indexMark (ix : gmap string string) (mark : UserRisk) : gmap string string :=
  foldl (indexSubject (ur_TenantID mark) (ur_Severity mark)) ix (ur_Subjects mark).

Definition userIndexOf (users : gmap string UserRisk) : gmap string string :=
  foldl indexMark ∅ (iterate (map_to_list users)).*2.

Definition rebuildUserIndexLocked (o : HighRiskOverlay) : HighRiskOverlay :=
  o <| userIndex := userIndexOf (users o) |>.

(** ** Reading *)

Definition worse (legacy sev : string) : bool := riskRank sev <? riskRank legacy.

Definition IsHighRisk (o : HighRiskOverlay) (deviceID : string) : option string :=
  let id := NormalizeDeviceID deviceID in
  let legacy := severityOf (legacyUnattributed o) id in
  if worse legacy (severityOf (devices o) id) then Some legacy else devices o !! id.

Definition RiskSnapshot (o : HighRiskOverlay) : gmap string string :=
  map_fold (fun k v out => if worse v (severityOf out k) then <[k := v]> out else out)
    (devices o) (legacyUnattributed o).

Definition RiskList (o : HighRiskOverlay) : list string := sort_strings (elements (dom (devices o) : gset string)).

Definition RiskCountDevices (o : HighRiskOverlay) (deviceIDs : list string) : nat :=
  length (List.filter (fun id => bool_decide (is_Some (devices o !! NormalizeDeviceID id))) deviceIDs).

Definition UserSeverity (o : HighRiskOverlay) (tenant subject : string) : option string :=
  let sev := userIndex o !! userRiskKey (trim_space tenant) (trim_space subject) in
  let legacy := severityOf (legacyUnattributed o) (trim_space subject) in
  if worse legacy (default "" sev) then Some legacy else sev.

Definition LegacySeverity (o : HighRiskOverlay) (id : string) : string := severityOf (legacyUnattributed o) (trim_space id).
Definition LegacyUnattributedSnapshot (o : HighRiskOverlay) : gmap string string := legacyUnattributed o.
Definition LegacyUnattributedCount (o : HighRiskOverlay) : nat := size (legacyUnattributed o).

Definition healthLocked (o : HighRiskOverlay) : option risk_error :=
  match loadErr o with Some e => Some e | None => if legacy o then Some AttributionRequired else None end.
Definition NeedsMigration (o : HighRiskOverlay) : bool := legacy o.

Definition UserSnapshot (o : HighRiskOverlay) : list UserRisk :=
  sort_stable (lex_string_lt (fun u => userRiskKey (ur_TenantID u) (ur_ID u))) (iterate (map_to_list (users o)).*2).

Definition CheckedSnapshot (o : HighRiskOverlay) : result risk_error (gmap string string * list UserRisk) :=
  match healthLocked o with Some _ => Err ErrRiskUnavailable | None => Ok (devices o, UserSnapshot o) end.

Definition ofTenant (tenant : string) (o : HighRiskOverlay) : gmap string UserRisk :=
  filter (fun row => ur_TenantID row.2 = tenant) (users o).
Definition CountUsers (o : HighRiskOverlay) (tenant : string) : nat := size (ofTenant tenant o).
Definition UserSeverities (o : HighRiskOverlay) (tenant : string) : gmap string string :=
  list_to_map ((fun row => (ur_ID row.2, ur_Severity row.2)) <$> map_to_list (ofTenant tenant o)).

(** ** Saving and loading *)

Definition mergeAutomaticPending (o : HighRiskOverlay) (f : highRiskOverlayStateFile) : highRiskOverlayStateFile :=
  f <| rf_Devices := map_fold (fun id severity devices =>
         if worse severity (severityOf devices id) then <[id := severity]> devices else devices)
         (rf_Devices f) (automaticPending o) |>.

Definition riskMoved (o : HighRiskOverlay) (f : highRiskOverlayStateFile) : bool :=
  negb (bool_decide (devices o = rf_Devices f)) || negb (bool_decide (users o = rf_Users f))
  || negb (bool_decide (legacyUnattributed o = rf_LegacyUnattributed f)).

Definition takeMarks (o : HighRiskOverlay) (f : highRiskOverlayStateFile) : HighRiskOverlay :=
  rebuildUserIndexLocked (o <| devices := rf_Devices f |> <| users := rf_Users f |>
    <| legacyUnattributed := rf_LegacyUnattributed f |>).

Definition unavailable (o : HighRiskOverlay) (e : risk_error) : HighRiskOverlay * option risk_error :=
  (o <| loadErr := Some e |>, Some e).

Definition restoreRisk (o : HighRiskOverlay) (b : backing) (loaded : option (option payload)) (refresh : bool)
    : HighRiskOverlay * option risk_error :=
  match b with
  | Memory =>
      match loadErr o with
      | Some e => (o, Some e)
      | None => (o <| rpersister := Memory |> <| riskSavePending := true |>, None)
      end
  | _ =>
      match loaded with
      | None => unavailable o ErrRiskLoad
      | Some None =>
          if refresh && negb (rgeneration o =? 0) then unavailable o ErrRiskLoad
          else match loadErr o with
               | Some e => (o, Some e)
               | None =>
                   (o <| rpersister := b |>
                      <| riskSavePending := negb (Nat.eqb (size (devices o)) 0) || negb (Nat.eqb (size (users o)) 0)
                                            || negb (Nat.eqb (size (legacyUnattributed o)) 0) |>, None)
               end
      | Some (Some data) =>
          match decodeRiskSnapshot data with
          | None => unavailable o ErrInvalidRiskSnapshot
          | Some f =>
              let old := String.eqb (rf_SchemaVersion f) firstSchemaVersion && negb (Nat.eqb (size (rf_Devices f)) 0) in
              if refresh && old then unavailable o ErrRiskUnavailable
              else
                let f := if refresh then mergeAutomaticPending o f else f in
                let o' := if riskMoved o f || negb (Bool.eqb (legacy o) old) then rbump o else o in
                let o' := o' <| automaticPending := if refresh then automaticPending o else ∅ |> in
                ((takeMarks o' f) <| legacy := old |> <| rpersister := b |> <| loadErr := None |>
                   <| riskSavePending := negb (Nat.eqb (size (automaticPending o')) 0) |>, None)
          end
      end
  end.

Definition SetRiskPersister (o : HighRiskOverlay) (b : backing) (loaded : option (option payload)) :=
  restoreRisk o b loaded false.
Definition ReloadRiskFromStore (o : HighRiskOverlay) (loaded : option (option payload)) :=
  restoreRisk o (rpersister o) loaded true.

(** [saveStateLocked]: the flag, what is stored, and a warning or an error.  [weak] says that a
    completed save was made through the destination. *)
Definition saveRisk (o : HighRiskOverlay) (stored : option payload) (w : write_outcome) (weak : bool)
    (devices : gmap string string) (users : gmap string UserRisk) (legacy : gmap string string)
    : HighRiskOverlay * option payload * result risk_error bool :=
  match rpersister o with
  | Memory => (o <| riskSavePending := true |>, stored, Ok true)
  | _ =>
      let stored' := diskAfter w stored (marshalRisk (mkStateFile highRiskOverlayStateSchemaVersion devices users legacy)) in
      match w with
      | Written => (o <| riskSavePending := false |>, stored', Ok weak)
      | _ => (o <| riskSavePending := true |>, stored', Err ErrRiskSave)
      end
  end.

Definition publishDevices (devices' : gmap string string) (o : HighRiskOverlay) : HighRiskOverlay :=
  rbump (o <| devices := devices' |>).

(** ** Administrative changes ([device_risk.go], [user_risk.go], [highrisk_erasure.go]) *)

(** The severity to store; [None] is refused, the empty text clears. *)
Definition deviceSeverity (severity : string) : option string :=
  switch (to_lower (trim_space severity))
    [([""; "none"; "low"], Some ""); (["medium"], Some "medium"); (["high"], Some "high"); (["critical"], Some "critical")]
    None.

Definition put_severity (id severity : string) (m : gmap string string) : gmap string string :=
  if is_empty severity then delete id m else <[id := severity]> m.

Definition isUnavailable (o : HighRiskOverlay) : bool :=
  match loadErr o with Some _ => true | None => legacy o end.

Definition setDeviceRisk (o : HighRiskOverlay) (stored : option payload) (w : write_outcome) (weak : bool)
    (deviceID severity : string) (automatic : bool) : HighRiskOverlay * option payload * result risk_error bool :=
  let id := NormalizeDeviceID deviceID in
  if is_empty id then (o, stored, Err IdentityRequired)
  else match deviceSeverity severity with
  | None => (o, stored, Err InvalidDeviceSeverity)
  | Some severity =>
      if isUnavailable o then (o, stored, Err ErrRiskUnavailable)
      else
        let previous := severityOf (devices o) id in
        let changed := negb (String.eqb previous severity)
                       || bool_decide (is_Some (devices o !! id)) && is_empty severity in
        if automatic && negb changed && negb (deviceSavePending o) then (o, stored, Ok false)
        else
          let candidate := put_severity id severity (devices o) in
          let published := automatic && worse severity previous in
          let o1 := if published then publishDevices candidate o else o in
          let '(o2, stored', r) := saveRisk o1 stored w weak candidate (users o1) (legacyUnattributed o1) in
          match r with
          | Err e => (if automatic then o2 <| deviceSavePending := true |> else o2, stored', Err e)
          | Ok warning =>
              let o3 := o2 <| deviceSavePending := false |> in
              (if changed && negb published then publishDevices candidate o3 else o3, stored', Ok warning)
          end
  end.

Definition SetDeviceRisk o stored w weak deviceID severity := setDeviceRisk o stored w weak deviceID severity false.
Definition Mark o stored w weak deviceID severity := (setDeviceRisk o stored w weak deviceID severity true).1.
Definition Clear o stored w weak deviceID := (SetDeviceRisk o stored w weak deviceID "none").1.

Definition put_user (mark : UserRisk) (m : gmap string UserRisk) : gmap string UserRisk :=
  let key := userRiskKey (ur_TenantID mark) (ur_ID mark) in
  if riskRank (ur_Severity mark) =? 0 then delete key m else <[key := mark]> m.

Definition SetUserRisk (o : HighRiskOverlay) (stored : option payload) (w : write_outcome) (weak : bool) (mark : UserRisk)
    : HighRiskOverlay * option payload * result risk_error bool :=
  match normalizeUserRisk mark with
  | Err e => (o, stored, Err e)
  | Ok mark =>
      if isUnavailable o || deviceSavePending o then (o, stored, Err ErrRiskUnavailable)
      else
        let candidate := put_user mark (users o) in
        let '(o1, stored', r) := saveRisk o stored w weak (devices o) candidate (legacyUnattributed o) in
        match r with
        | Err e => (o1, stored', Err e)
        | Ok warning => (rbump (rebuildUserIndexLocked (o1 <| users := candidate |>)), stored', Ok warning)
        end
  end.

(** What an operator may resolve. *)
Definition legacyTarget (o : gmap string string) (id expectedSeverity : string) : option risk_error :=
  match o !! id with
  | None => Some ErrLegacyRiskNotFound
  | Some current => if String.eqb current expectedSeverity then None else Some ErrLegacyRiskChanged
  end.

Definition legacyRequestOk (id expectedSeverity : string) : bool :=
  nonempty id && negb (has_nul id) && negb (riskRank expectedSeverity =? 0).

Definition DiscardLegacyUnattributed (o : HighRiskOverlay) (stored : option payload) (w : write_outcome) (weak : bool)
    (id expectedSeverity : string) : HighRiskOverlay * option payload * result risk_error bool :=
  let id := NormalizeDeviceID id in
  let expectedSeverity := to_lower (trim_space expectedSeverity) in
  if negb (legacyRequestOk id expectedSeverity) then (o, stored, Err LegacyRequestIncomplete)
  else if isUnavailable o || deviceSavePending o then (o, stored, Err ErrRiskUnavailable)
  else match legacyTarget (legacyUnattributed o) id expectedSeverity with
  | Some e => (o, stored, Err e)
  | None =>
      let candidate := delete id (legacyUnattributed o) in
      let '(o1, stored', r) := saveRisk o stored w weak (devices o) (users o) candidate in
      match r with
      | Err e => (o1, stored', Err e)
      | Ok warning => (rbump (o1 <| legacyUnattributed := candidate |>), stored', Ok warning)
      end
  end.

(** The marks of a tenant and of some devices, and how many go. *)
Definition eraseMarks (tenant : string) (deviceIDs : list string) (devices : gmap string string)
    (users : gmap string UserRisk) : gmap string string * gmap string UserRisk * Z :=
  let '(devices', n) := removeKeys NormalizeDeviceID deviceIDs devices in
  let users' := if is_empty tenant then users else filter (fun row => ur_TenantID row.2 ≠ tenant) users in
  (devices', users', n + (Z.of_nat (size users) - Z.of_nat (size users'))).

Definition RemoveTenantRisksChecked (o : HighRiskOverlay) (stored : option payload) (w : write_outcome)
    (tenant : string) (deviceIDs : list string) : HighRiskOverlay * option payload * result risk_error Z :=
  let tenant := trim_space tenant in
  if is_empty tenant && Nat.eqb (length deviceIDs) 0 then (o, stored, Ok 0)
  else if isUnavailable o then (o, stored, Err ErrRiskUnavailable)
  else
    let '(devices', users', n) := eraseMarks tenant deviceIDs (devices o) (users o) in
    let '(o1, stored', r) := saveRisk o stored w false devices' users' (legacyUnattributed o) in
    match r with
    | Err e => (o1, stored', Err e)
    | Ok _ =>
        (if 0 <? n then rbump (rebuildUserIndexLocked (o1 <| devices := devices' |> <| users := users' |>)) else o1,
         stored', Ok n)
    end.

Definition RemoveDevicesChecked o stored w deviceIDs := RemoveTenantRisksChecked o stored w "" deviceIDs.
Definition RemoveUsers o stored w tenant := RemoveTenantRisksChecked o stored w tenant [].

(** [MigrateLegacy]: [resolve] attributes an identifier of the first schema. *)
Definition migrateOne (resolve : string → result risk_error (option UserRisk))
    (acc : result risk_error (gmap string string * gmap string UserRisk * gmap string string)) (row : string * string)
    : result risk_error (gmap string string * gmap string UserRisk * gmap string string) :=
  let! state := acc in
  let '(devices, users, legacy) := state in
  let '(id, sev) := row in
  match resolve id with
  | Err ErrLegacyUnattributed => Ok (devices, users, <[id := sev]> legacy)
  | Err e => Err e
  | Ok None => Ok (<[id := sev]> devices, users, legacy)
  | Ok (Some mark) =>
      let! normalized := normalizeUserRisk (mark <| ur_Severity := sev |>) in
      let key := userRiskKey (ur_TenantID normalized) (ur_ID normalized) in
      Ok (devices,
          if worse (ur_Severity normalized) (default "" (ur_Severity <$> users !! key))
          then <[key := normalized]> users else users,
          legacy)
  end.

Definition MigrateLegacy (o : HighRiskOverlay) (stored : option payload) (w : write_outcome)
    (resolve : string → result risk_error (option UserRisk)) : HighRiskOverlay * option payload * option risk_error :=
  match loadErr o with
  | Some e => (o, stored, Some e)
  | None =>
      if negb (legacy o) then (o, stored, None)
      else match foldl (migrateOne resolve) (Ok (∅, users o, ∅)) (iterate (map_to_list (devices o))) with
      | Err e => (o, stored, Some e)
      | Ok (devices', users', legacy') =>
          let '(o1, stored', r) := saveRisk o stored w false devices' users' legacy' in
          match r with
          | Err e => (o1, stored', Some e)
          | Ok _ =>
              (rbump (rebuildUserIndexLocked (o1 <| devices := devices' |> <| users := users' |>
                 <| legacyUnattributed := legacy' |> <| legacy := false |>)), stored', None)
          end
      end
  end.

(** ** The pulled marks *)

Definition ReplaceSyncedDevices (o : HighRiskOverlay) (pulled : gmap string string) : HighRiskOverlay :=
  o <| devices := foldl (fun fresh row =>
         let id := NormalizeDeviceID row.1 in
         if is_empty id then fresh else <[id := to_lower (trim_space row.2)]> fresh)
       ∅ (iterate (map_to_list pulled)) |>.

Fixpoint freshUsers (marks : list UserRisk) (fresh : gmap string UserRisk) : result risk_error (gmap string UserRisk) :=
  match marks with
  | [] => Ok fresh
  | mark :: marks =>
      match normalizeUserRisk mark with
      | Err _ => Err InvalidUserFeed
      | Ok n =>
          if riskRank (ur_Severity n) =? 0 then Err InvalidUserFeed
          else let k := userRiskKey (ur_TenantID n) (ur_ID n) in
            match fresh !! k with
            | Some _ => Err DuplicateUserFeed
            | None => freshUsers marks (<[k := n]> fresh)
            end
      end
  end.

Definition validLegacyRow (row : string * string) : bool :=
  nonempty row.1 && String.eqb row.1 (NormalizeDeviceID row.1) && negb (riskRank row.2 =? 0).

Definition ReplaceSyncedUserRisks (o : HighRiskOverlay) (marks : list UserRisk) (unresolved : gmap string string)
    : HighRiskOverlay * option risk_error :=
  match freshUsers marks ∅ with
  | Err e => (o, Some e)
  | Ok fresh =>
      if negb (forallb validLegacyRow (map_to_list unresolved)) then (o, Some InvalidLegacyFeed)
      else (rebuildUserIndexLocked (o <| users := fresh |> <| legacyUnattributed := unresolved |>), None)
  end.

(** ** Edits of the shared row ([context_writes.go]) *)

Definition emptyFile : highRiskOverlayStateFile := mkStateFile highRiskOverlayStateSchemaVersion ∅ ∅ ∅.

(** The stored row as the second schema. *)
Definition readRow (data : payload) : option highRiskOverlayStateFile :=
  f ← decodeRiskSnapshot data;
  if negb (String.eqb (rf_SchemaVersion f) highRiskOverlayStateSchemaVersion) && negb (Nat.eqb (size (rf_Devices f)) 0)
  then None else Some (f <| rf_SchemaVersion := highRiskOverlayStateSchemaVersion |>).

Definition publishRisk (o : HighRiskOverlay) (candidate : highRiskOverlayStateFile) : HighRiskOverlay :=
  (takeMarks (if riskMoved o candidate then rbump o else o) candidate)
    <| riskSavePending := false |> <| automaticPending := ∅ |>.

Definition committed (w : write_outcome) : bool := match w with Written => true | _ => false end.

(** What an edit starts from: the latest row, or an empty first row of a process that has
    observed nothing, with the detections that are pending. *)
Definition latestRisk (o : HighRiskOverlay) (stored : option payload) : option highRiskOverlayStateFile :=
  mergeAutomaticPending o <$>
    match stored with
    | Some data => readRow data
    | None => if negb (rgeneration o =? 0) then None else Some emptyFile
    end.

(** [None]: not a shared row. *)
Definition changeRiskContextChecked (o : HighRiskOverlay) (stored : option payload) (w : write_outcome)
    (edit : highRiskOverlayStateFile → result risk_error highRiskOverlayStateFile)
    : option (HighRiskOverlay * option payload * option risk_error) :=
  match rpersister o with
  | Updating => Some (
      if isUnavailable o || deviceSavePending o then (o, stored, Some ErrRiskUnavailable)
      else
        match w, latestRisk o stored with
        | Unavailable, _ | _, None => (o, stored, Some ErrRiskSave)
        | _, Some f =>
            match edit f with
            | Err e => (o, stored, Some e)
            | Ok candidate =>
                (if committed w then publishRisk o candidate else o, diskAfter w stored (marshalRisk candidate),
                 if committed w then None else Some ErrRiskSave)
            end
        end)
  | _ => None
  end.

Definition changeRiskContext o stored w (edit : highRiskOverlayStateFile → highRiskOverlayStateFile) :=
  changeRiskContextChecked o stored w (fun f => Ok (edit f)).

Definition handledOr (r : option (HighRiskOverlay * option payload * option risk_error))
    (fallback : HighRiskOverlay * option payload * result risk_error bool)
    : HighRiskOverlay * option payload * result risk_error bool :=
  match r with
  | Some (o, stored, Some e) => (o, stored, Err e)
  | Some (o, stored, None) => (o, stored, Ok false)
  | None => fallback
  end.

Definition SetDeviceRiskContext (o : HighRiskOverlay) (stored : option payload) (w : write_outcome) (weak : bool)
    (id severity : string) : HighRiskOverlay * option payload * result risk_error bool :=
  let id := NormalizeDeviceID id in
  if is_empty id then (o, stored, Err IdentityRequired)
  else match deviceSeverity severity with
  | None => (o, stored, Err InvalidDeviceSeverity)
  | Some severity =>
      handledOr (changeRiskContext o stored w (fun f => f <| rf_Devices := put_severity id severity (rf_Devices f) |>))
        (SetDeviceRisk o stored w weak id severity)
  end.

Definition SetUserRiskContext (o : HighRiskOverlay) (stored : option payload) (w : write_outcome) (weak : bool)
    (mark : UserRisk) : HighRiskOverlay * option payload * result risk_error bool :=
  match normalizeUserRisk mark with
  | Err e => (o, stored, Err e)
  | Ok mark =>
      handledOr (changeRiskContext o stored w (fun f => f <| rf_Users := put_user mark (rf_Users f) |>))
        (SetUserRisk o stored w weak mark)
  end.

Definition DiscardLegacyUnattributedContext (o : HighRiskOverlay) (stored : option payload) (w : write_outcome)
    (weak : bool) (id expectedSeverity : string) : HighRiskOverlay * option payload * result risk_error bool :=
  let id := NormalizeDeviceID id in
  let expectedSeverity := to_lower (trim_space expectedSeverity) in
  if negb (legacyRequestOk id expectedSeverity) then (o, stored, Err LegacyRequestIncomplete)
  else
    handledOr (changeRiskContextChecked o stored w (fun f =>
        match legacyTarget (rf_LegacyUnattributed f) id expectedSeverity with
        | Some e => Err e
        | None => Ok (f <| rf_LegacyUnattributed := delete id (rf_LegacyUnattributed f) |>)
        end))
      (DiscardLegacyUnattributed o stored w weak id expectedSeverity).

Definition eraseFile (tenant : string) (ids : list string) (f : highRiskOverlayStateFile) : highRiskOverlayStateFile :=
  let '(devices', users', _) := eraseMarks tenant ids (rf_Devices f) (rf_Users f) in
  f <| rf_Devices := devices' |> <| rf_Users := users' |>.

Definition RemoveTenantRisksContext (o : HighRiskOverlay) (stored : option payload) (w : write_outcome)
    (tenant : string) (ids : list string) : HighRiskOverlay * option payload * result risk_error Z :=
  let tenant := trim_space tenant in
  if is_empty tenant && Nat.eqb (length ids) 0 then (o, stored, Ok 0)
  else match changeRiskContext o stored w (eraseFile tenant ids) with
  | Some (o', stored', Some e) => (o', stored', Err e)
  | Some (o', stored', None) =>
      (o', stored', Ok (match latestRisk o stored with
                        | Some f => (eraseMarks tenant ids (rf_Devices f) (rf_Users f)).2
                        | None => 0
                        end))
  | None => RemoveTenantRisksChecked o stored w tenant ids
  end.

(** ** Detections ([automatic_device_risk.go]) *)

Inductive persistence := NotAttempted | Unconfirmed | Saved | SavedNonAtomic | Volatile.

Record AutomaticRiskResult := mkAutomatic {
  au_Severity : string;
  au_Applied : bool;
  au_Changed : bool;
  au_Persistence : persistence;
}.

Definition raiseSharedDeviceRiskLocked (o : HighRiskOverlay) (stored : option payload) (w : write_outcome)
    (id severity : string) : HighRiskOverlay * option payload * (AutomaticRiskResult * option risk_error) :=
  let previous := severityOf (devices o) id in
  let severity := if worse previous severity then previous else severity in
  let changed := negb (String.eqb previous severity) in
  let o1 := (if changed then publishDevices (<[id := severity]> (devices o)) o else o) <| riskSavePending := true |> in
  let failed stored' :=
    (o1 <| automaticPending := <[id := severity]> (automaticPending o1) |>, stored',
     (mkAutomatic severity true changed Unconfirmed, Some ErrRiskSave)) in
  let row := match stored with Some data => readRow data | None => Some emptyFile end in
  match w, row with
  | Unavailable, _ | _, None => failed stored
  | _, Some f =>
      let f := mergeAutomaticPending o1 f in
      let candidate := if worse severity (severityOf (rf_Devices f) id)
                       then f <| rf_Devices := <[id := severity]> (rf_Devices f) |> else f in
      let stored' := diskAfter w stored (marshalRisk candidate) in
      if committed w then
        let now := severityOf (rf_Devices candidate) id in
        (publishRisk o1 candidate, stored',
         (mkAutomatic now true (negb (String.eqb previous now)) Saved, None))
      else failed stored'
  end.

Definition RaiseDeviceRisk (o : HighRiskOverlay) (stored : option payload) (w : write_outcome) (weak : bool)
    (deviceID severity : string) : HighRiskOverlay * option payload * (AutomaticRiskResult * option risk_error) :=
  let id := NormalizeDeviceID deviceID in
  let severity := to_lower (trim_space severity) in
  let refused e := (o, stored, (mkAutomatic "" false false NotAttempted, Some e)) in
  if is_empty id || (riskRank severity =? 0) then refused InvalidAutomatic
  else if isUnavailable o then refused ErrRiskUnavailable
  else match rpersister o with
  | Updating => raiseSharedDeviceRiskLocked o stored w id severity
  | _ =>
      let previous := severityOf (devices o) id in
      let changed := worse severity previous in
      let o1 := if changed then publishDevices (<[id := severity]> (devices o)) o else o in
      let now := if changed then severity else previous in
      if negb changed && negb (riskSavePending o1)
      then (o1, stored, (mkAutomatic now true changed NotAttempted, None))
      else
        let '(o2, stored', r) := saveRisk o1 stored w weak (devices o1) (users o1) (legacyUnattributed o1) in
        match r with
        | Err e => (o2, stored', (mkAutomatic now true changed Unconfirmed, Some e))
        | Ok warning =>
            let p := if warning then match rpersister o with Memory => Volatile | _ => SavedNonAtomic end else Saved in
            (o2, stored', (mkAutomatic now true changed p, None))
        end
  end.

End overlay.

End HighRisk.
