(* ===== verification/HighRiskFleet.v ===== *)
(** * What becomes of a mark

    The saved form of the overlay reads back as it was written; the index of subjects answers
    the worst mark of a user; and a device that a detection raised stays that severe over every
    history of the control planes until an administrator changes or erases it. *)

From Stdlib Require Import Ascii.
From stdpp Require Import base gmap fin_maps list strings relations.
From S2P Require Import Prelude Trimmed GoStd Persistence Admission SharedFleet HighRisk.
Import Admission SharedFleet HighRisk.

Open Scope Z_scope.

Module HighRiskFleet.

(** ** Canonical marks *)

Definition canonicalMarks (m : gmap string string) : Prop :=
  ∀ id severity, m !! id = Some severity → id ≠ "" ∧ trim_space id = id ∧ riskRank severity ≠ 0.

Definition canonicalUsers (m : gmap string UserRisk) : Prop :=
  ∀ key u, m !! key = Some u →
    key = userRiskKey (ur_TenantID u) (ur_ID u) ∧ normalizeUserRisk u = Ok u ∧ riskRank (ur_Severity u) ≠ 0.

Record canonicalRisk (f : highRiskOverlayStateFile) : Prop := {
  canonical_version : rf_SchemaVersion f = highRiskOverlayStateSchemaVersion;
  canonical_devices : canonicalMarks (rf_Devices f);
  canonical_users : canonicalUsers (rf_Users f);
  canonical_legacy : canonicalMarks (rf_LegacyUnattributed f);
}.

(** A subject as it is kept. *)
Definition tidySubject (s : string) : Prop := s ≠ "" ∧ trim_space s = s ∧ has_nul s = false.

Lemma addSubject_spec acc s x :
  (x ∈ addSubject acc s ↔ x ∈ acc ∨ x = trim_space s ∧ tidySubject (trim_space s)) ∧
  (NoDup acc → NoDup (addSubject acc s)).
Proof.
  unfold addSubject, tidySubject. rewrite trim_space_idemp. unfold nonempty, is_empty.
  destruct (String.eqb_spec (trim_space s) "") as [He|He]; cbn; [split; [|done]; split; [by left|]; intros [|(-> & ? & _)]; done|].
  destruct (has_nul _) eqn:Hn; cbn; [split; [|done]; split; [by left|]; intros [|(-> & _ & _ & [=])]; done|].
  destruct (containsString acc (trim_space s)) eqn:Hc; cbn.
  - apply containsString_spec in Hc. split; [|done]. split; [by left|]. intros [|(-> & _)]; done.
  - split.
    + rewrite elem_of_app, list_elem_of_singleton. split; [intros [|]; [by left|by right]|intros [|[-> _]]; [by left|by right]].
    + intros Hnd. apply NoDup_app. split_and!; [done| |apply NoDup_singleton].
      intros y Hy ->%list_elem_of_singleton. apply containsString_spec in Hy. congruence.
Qed.

Lemma addSubjects_spec l : ∀ acc,
  (∀ x, x ∈ foldl addSubject acc l ↔ x ∈ acc ∨ (x ∈ trim_space <$> l) ∧ tidySubject x) ∧
  (NoDup acc → NoDup (foldl addSubject acc l)).
Proof.
  induction l as [|s l IH]; intros acc; cbn [foldl].
  { split; [|done]. intros x. cbn. rewrite elem_of_nil. tauto. }
  destruct (IH (addSubject acc s)) as [Hin Hnd]. split; [|intros; by apply Hnd, addSubject_spec].
  intros x. rewrite Hin, (proj1 (addSubject_spec acc s x)), fmap_cons, elem_of_cons.
  split; [intros [[|[-> ?]]|[? ?]]; auto|intros [|[[-> |] ?]]; auto].
Qed.

(** The normal form of a mark is a fixed point. *)
Lemma normalizeUserRisk_idemp mark u : normalizeUserRisk mark = Ok u → normalizeUserRisk u = Ok u.
Proof.
  unfold normalizeUserRisk. destruct (_ || _) eqn:Hids; [done|]. destruct (negb _) eqn:Hsev; [done|]. intros [= <-].
  cbn [ur_TenantID ur_ID ur_Severity ur_Subjects]. rewrite !trim_space_idemp, Hids, trim_space_lower, trim_space_idemp, to_lower_idemp, Hsev.
  do 2 f_equal. set (id := trim_space (ur_ID mark)) in *. set (l := foldl addSubject [id] (ur_Subjects mark)).
  assert (tidySubject id) as Hid.
  { unfold tidySubject. unfold id. rewrite trim_space_idemp. fold id. apply orb_false_elim in Hids as [Hids Hn].
    apply orb_false_elim in Hids as [Hids _]. apply orb_false_elim in Hids as [_ He].
    split_and!; [|done|done]. intros E. by rewrite E in He. }
  destruct (addSubjects_spec (ur_Subjects mark) [id]) as [Hl Hnd]. fold l in Hl, Hnd.
  apply sort_strings_unique. apply NoDup_Permutation; [apply addSubjects_spec, NoDup_singleton|apply Hnd, NoDup_singleton|].
  intros x. rewrite (proj1 (addSubjects_spec _ _)). unfold sort_strings.
  assert ((x ∈ trim_space <$> sort_stable String.ltb l) ∧ tidySubject x ↔ x ∈ l) as ->.
  { rewrite sort_stable_perm, list_elem_of_fmap. split.
    - intros [(y & -> & Hy) _]. assert (trim_space y = y) as ->; [|done].
      apply Hl in Hy as [->%list_elem_of_singleton|[_ Hy]]; [|apply Hy]. apply Hid.
    - intros Hx. assert (tidySubject x) as Ht by (apply Hl in Hx as [->%list_elem_of_singleton|[_ ?]]; done).
      split; [|done]. exists x. by destruct Ht as (_ & -> & _). }
  rewrite list_elem_of_singleton. split; [|by right]. intros [->|]; [|done]. apply Hl. left. by apply list_elem_of_singleton.
Qed.

(** ** What is saved is what a restart reads *)

Section rows.
Context {A : Type} (encode : A → json).

Definition sortedRows (m : gmap string A) : list (string * A) :=
  sort_stable (fun a b => String.ltb a.1 b.1) (map_to_list m).

Lemma sortedRows_map m : list_to_map (sortedRows m) = m ∧ NoDup (sortedRows m).*1.
Proof.
  assert (sortedRows m ≡ₚ map_to_list m) as Hp by apply sort_stable_perm.
  assert (NoDup (sortedRows m).*1) as Hnd by (rewrite Hp; apply NoDup_fst_map_to_list).
  split; [|done]. rewrite (list_to_map_proper _ _ Hnd Hp). apply list_to_map_to_list.
Qed.

Lemma object_rows m :
  riskSnapshotObject (Some (marshalRows encode m)) = Some ((fun row => (row.1, encode row.2)) <$> sortedRows m).
Proof.
  unfold riskSnapshotObject, marshalRows. fold (sortedRows m). rewrite bool_decide_eq_true_2; [done|].
  rewrite <- list_fmap_compose. apply sortedRows_map.
Qed.

(** A decoder that takes the rows one by one. *)
Lemma decode_rows (decode : list (string * json) → option (gmap string A)) (P : string → A → Prop) m :
  decode [] = Some ∅ →
  (∀ k a l, P k a → decode ((k, encode a) :: l) = (marks ← decode l; Some (<[k := a]> marks))) →
  (∀ k a, m !! k = Some a → P k a) →
  decode ((fun row => (row.1, encode row.2)) <$> sortedRows m) = Some m.
Proof.
  intros Hnil Hcons Hm. destruct (sortedRows_map m) as [Hmap Hnd]. rewrite <- Hmap at 2. rewrite <- Hmap in Hm. clear Hmap.
  induction (sortedRows m) as [|[k a] l IH]; [done|]. rewrite fmap_cons. cbn [fst snd].
  apply NoDup_cons in Hnd as [Hk Hnd]. change (list_to_map ((k, a) :: l)) with (<[k := a]> (list_to_map l : gmap string A)) in *.
  rewrite Hcons by (apply Hm, lookup_insert_eq). rewrite IH; [done| |done]. intros k' a' Hl. apply Hm.
  rewrite lookup_insert_ne; [done|]. intros <-. apply Hk, list_elem_of_fmap. exists (k, a'). split; [done|]. by apply elem_of_list_to_map_2.
Qed.

End rows.

Lemma marks_back m : canonicalMarks m →
  (rows ← riskSnapshotObject (Some (marshalRows JString m)); decodeMarks rows) = Some m.
Proof.
  intros Hm. rewrite object_rows. cbn [mbind option_bind].
  apply (decode_rows JString decodeMarks (fun id s => id ≠ "" ∧ trim_space id = id ∧ riskRank s ≠ 0)); [done| |exact Hm].
  intros k a l (Hk & Ht & Hr). cbn [decodeMarks riskSnapshotString mbind option_bind]. unfold NormalizeDeviceID.
  rewrite Ht, String.eqb_refl. apply Z.eqb_neq in Hr as ->. destruct (is_empty k) eqn:E; [by apply is_empty_true in E|done].
Qed.

Lemma subjects_back l : (∀ x, x ∈ l → tidySubject x) → decodeSubjects (JString <$> l) = Some l.
Proof.
  induction l as [|x l IH]; intros Hl; [done|]. destruct (Hl x) as (Hx & Ht & Hn); [by left|].
  rewrite fmap_cons. cbn [decodeSubjects riskSnapshotString mbind option_bind]. rewrite Ht, String.eqb_refl, Hn.
  destruct (is_empty x) eqn:E; [by apply is_empty_true in E|]. cbn. rewrite IH; [done|]. intros y Hy. apply Hl. by right.
Qed.

Lemma normal_subjects u : normalizeUserRisk u = Ok u → ∀ x, x ∈ ur_Subjects u → tidySubject x.
Proof.
  unfold normalizeUserRisk. destruct (_ || _) eqn:Hids; [done|]. destruct (negb _); [done|]. intros [= Hu] x.
  apply (f_equal ur_Subjects) in Hu. cbn in Hu. rewrite <- Hu. unfold sort_strings. rewrite sort_stable_perm, (proj1 (addSubjects_spec _ _)).
  intros [->%list_elem_of_singleton|[_ ?]]; [|done].
  apply orb_false_elim in Hids as [Hids Hn]. apply orb_false_elim in Hids as [Hids _]. apply orb_false_elim in Hids as [_ He].
  split_and!; [intros E; by rewrite E in He|apply trim_space_idemp|done].
Qed.

Lemma user_fields u : (∀ x, x ∈ ur_Subjects u → tidySubject x) →
  ∃ fields, riskSnapshotObject (Some (marshalUser u)) = Some fields ∧
    foldl decodeUserField (Some (mkUserRisk "" "" [] "")) fields = Some u.
Proof.
  intros Hsub. destruct u as [tenant id subjects severity]. unfold marshalUser.
  cbn [ur_TenantID ur_ID ur_Subjects ur_Severity] in *. destruct subjects as [|x l].
  - eexists. split; [reflexivity|]. reflexivity.
  - eexists. split; [reflexivity|].
    trans (decodeUserField (subjects ← decodeSubjects (JString <$> x :: l);
             Some (mkUserRisk tenant id subjects "")) ("severity", JString severity)); [reflexivity|].
    by rewrite subjects_back.
Qed.

Lemma user_back u : normalizeUserRisk u = Ok u → riskRank (ur_Severity u) ≠ 0 → decodeSavedUserRisk (marshalUser u) = Some u.
Proof.
  intros Hu Hr. destruct (user_fields u (normal_subjects u Hu)) as (fields & Ho & Hf). unfold decodeSavedUserRisk.
  rewrite Ho. cbn [mbind option_bind]. rewrite Hf. cbn [mbind option_bind]. apply Z.eqb_neq in Hr.
  by rewrite Hu, Hr, !String.eqb_refl.
Qed.

Lemma users_back m : canonicalUsers m →
  (rows ← riskSnapshotObject (Some (marshalRows marshalUser m)); decodeUsers rows) = Some m.
Proof.
  intros Hm. rewrite object_rows. cbn [mbind option_bind].
  apply (decode_rows marshalUser decodeUsers (fun key u =>
    key = userRiskKey (ur_TenantID u) (ur_ID u) ∧ normalizeUserRisk u = Ok u ∧ riskRank (ur_Severity u) ≠ 0)); [done| |exact Hm].
  intros k a l (-> & Hu & Hr). cbn [decodeUsers]. rewrite user_back by done. cbn [mbind option_bind]. by rewrite String.eqb_refl.
Qed.

(** The saved form of the overlay is what a restart reads: devices, users with all
    the subjects they are known by, and unattributed marks. *)
Theorem risk_snapshot_round_trip f : canonicalRisk f → decodeRiskSnapshot (marshalRisk f) = Some f.
Proof.
  destruct f as [v d u l]. intros [Hv Hd Hu Hl]. cbn [rf_SchemaVersion rf_Devices rf_Users rf_LegacyUnattributed] in *. subst v.
  apply marks_back in Hd, Hl. apply users_back in Hu. unfold marshalRisk, decodeRiskSnapshot.
  cbn [rf_SchemaVersion rf_Devices rf_Users rf_LegacyUnattributed].
  set (jd := marshalRows JString d) in *. set (jl := marshalRows JString l) in *. set (ju := marshalRows marshalUser u) in *.
  clearbody jd jl ju.
  apply bind_Some in Hd as (rd & Hrd & Hd).
  trans (devices ← riskSnapshotObject (Some jd); devices ← decodeMarks devices;
         legacy ← (if Nat.eqb (size l) 0 then Some ∅ else rows ← riskSnapshotObject (Some jl); decodeMarks rows);
         users ← (if Nat.eqb (size u) 0 then Some ∅ else rows ← riskSnapshotObject (Some ju); decodeUsers rows);
         Some (mkStateFile highRiskOverlayStateSchemaVersion devices users legacy)).
  { by destruct (Nat.eqb (size u) 0), (Nat.eqb (size l) 0). }
  rewrite Hrd. cbn [mbind option_bind]. rewrite Hd, Hl, Hu. cbn [mbind option_bind].
  destruct (Nat.eqb_spec (size u) 0) as [->%map_size_empty_inv|_], (Nat.eqb_spec (size l) 0) as [->%map_size_empty_inv|_]; done.
Qed.

(** ** The index of subjects *)

Lemma riskRank_nonneg severity : 0 ≤ riskRank severity.
Proof. unfold riskRank, switch. repeat case_match; lia. Qed.

Lemma rank_insert m k v k' :
  riskRank (severityOf m k) < riskRank v →
  riskRank (severityOf m k') ≤ riskRank (severityOf (<[k := v]> m) k').
Proof.
  unfold severityOf. destruct (decide (k = k')) as [-> |Hne]; [rewrite lookup_insert_eq; cbn [default from_option id]; lia|by rewrite lookup_insert_ne].
Qed.

Lemma severity_insert m k v : severityOf (<[k := v]> m) k = v.
Proof. unfold severityOf. by rewrite lookup_insert_eq. Qed.

Lemma severity_insert_ne m k v k' : k ≠ k' → severityOf (<[k := v]> m) k' = severityOf m k'.
Proof. intros. unfold severityOf. by rewrite lookup_insert_ne. Qed.

Lemma indexSubjects_spec tenant severity subjects : ∀ ix,
  let ix' := foldl (indexSubject tenant severity) ix subjects in
  (∀ k, riskRank (severityOf ix k) ≤ riskRank (severityOf ix' k)) ∧
  (∀ s, s ∈ subjects → riskRank severity ≤ riskRank (severityOf ix' (userRiskKey tenant s))) ∧
  (∀ k v, ix' !! k = Some v → ix !! k = Some v ∨ ∃ s, s ∈ subjects ∧ k = userRiskKey tenant s ∧ v = severity).
Proof.
  induction subjects as [|s subjects IH]; intros ix; cbn [foldl].
  { split_and!; [done|by intros s ?%elem_of_nil|by left]. }
  destruct (IH (indexSubject tenant severity ix s)) as (Hmono & Hin & Hfrom).
  assert ((∀ k, riskRank (severityOf ix k) ≤ riskRank (severityOf (indexSubject tenant severity ix s) k)) ∧
          riskRank severity ≤ riskRank (severityOf (indexSubject tenant severity ix s) (userRiskKey tenant s))) as [H1 H2].
  { unfold indexSubject. destruct (Z.ltb_spec (riskRank (severityOf ix (userRiskKey tenant s))) (riskRank severity)) as [Hlt|Hge].
    - split; [intros k; by apply rank_insert|by rewrite severity_insert].
    - by split. }
  split_and!.
  - intros k. etrans; [apply H1|apply Hmono].
  - intros x [->|Hx]%elem_of_cons; [etrans; [exact H2|apply Hmono]|by apply Hin].
  - intros k v [Hv|(x & Hx & -> & ->)]%Hfrom; [|right; exists x; by split; [right|]].
    unfold indexSubject in Hv. destruct (_ <? _); [|by left].
    apply lookup_insert_Some in Hv as [[<- <-]|[_ Hv]]; [right; exists s; by split; [left|]|by left].
Qed.

(** A mark names a subject of a tenant by the key. *)
Definition names (u : UserRisk) (k : string) : Prop := ∃ s, s ∈ ur_Subjects u ∧ k = userRiskKey (ur_TenantID u) s.

Lemma indexMarks_spec marks : ∀ ix,
  let ix' := foldl indexMark ix marks in
  (∀ k, riskRank (severityOf ix k) ≤ riskRank (severityOf ix' k)) ∧
  (∀ u k, u ∈ marks → names u k → riskRank (ur_Severity u) ≤ riskRank (severityOf ix' k)) ∧
  (∀ k v, ix' !! k = Some v → ix !! k = Some v ∨ ∃ u, u ∈ marks ∧ names u k ∧ v = ur_Severity u).
Proof.
  induction marks as [|u marks IH]; intros ix; cbn [foldl].
  { split_and!; [done|by intros u k ?%elem_of_nil|by left]. }
  destruct (IH (indexMark ix u)) as (Hmono & Hin & Hfrom).
  destruct (indexSubjects_spec (ur_TenantID u) (ur_Severity u) (ur_Subjects u) ix) as (H1 & H2 & H3).
  fold (indexMark ix u) in H1, H2, H3. split_and!.
  - intros k. etrans; [apply H1|apply Hmono].
  - intros x k [->|Hx]%elem_of_cons Hk; [|by apply Hin]. destruct Hk as (s & Hs & ->). etrans; [by apply H2|apply Hmono].
  - intros k v [Hv|(x & Hx & Hk & ->)]%Hfrom; [|right; exists x; by split; [right|]].
    apply H3 in Hv as [|(s & Hs & -> & ->)]; [by left|]. right. exists u. split; [left|]. split; [by exists s|done].
Qed.

Lemma userIndexOf_spec `{MapOrder} m k :
  (∀ key u, m !! key = Some u → names u k → riskRank (ur_Severity u) ≤ riskRank (severityOf (userIndexOf m) k)) ∧
  (∀ v, userIndexOf m !! k = Some v → ∃ key u, m !! key = Some u ∧ names u k ∧ v = ur_Severity u).
Proof.
  destruct (indexMarks_spec (iterate (map_to_list m)).*2 ∅) as (_ & Hin & Hfrom). fold (userIndexOf m) in Hin, Hfrom. split.
  - intros key u Hu Hk. apply Hin; [|done]. rewrite iterate_perm. apply list_elem_of_fmap. exists (key, u).
    split; [done|by apply elem_of_map_to_list].
  - intros v [Hv|(u & Hu & Hk & ->)]%Hfrom; [by rewrite lookup_empty in Hv|].
    rewrite iterate_perm in Hu. apply list_elem_of_fmap in Hu as ([key u'] & -> & Hu%elem_of_map_to_list). by exists key, u'.
Qed.

Lemma userRiskKey_inj t s t' s' : has_nul t = false → has_nul t' = false → userRiskKey t s = userRiskKey t' s' → t = t' ∧ s = s'.
Proof. unfold has_nul, userRiskKey. rewrite !negb_false_iff. apply (separator_inj Ascii.zero). Qed.

(** A mark of the tenant that knows the subject. *)
Definition marks (o : HighRiskOverlay) (tenant subject : string) (u : UserRisk) : Prop :=
  (∃ key, users o !! key = Some u) ∧ ur_TenantID u = tenant ∧ subject ∈ ur_Subjects u.

(** The index is the one of the users. *)
Definition indexed `{MapOrder} (o : HighRiskOverlay) : Prop := userIndex o = userIndexOf (users o).

Lemma normal_tenant u : normalizeUserRisk u = Ok u → has_nul (ur_TenantID u) = false.
Proof.
  unfold normalizeUserRisk. destruct (_ || _) eqn:Hids; [done|]. destruct (negb _); [done|]. intros [= Hu].
  apply orb_false_elim in Hids as [Hids _]. apply orb_false_elim in Hids as [_ Hn]. by rewrite <- Hu.
Qed.

(** *)
Theorem user_severity_is_the_worst `{MapOrder} o tenant subject
    (T := trim_space tenant) (s := trim_space subject) :
  indexed o → canonicalUsers (users o) → has_nul T = false →
  (∀ u, marks o T s u → ∃ sev, UserSeverity o tenant subject = Some sev ∧ riskRank (ur_Severity u) ≤ riskRank sev) ∧
  (riskRank (LegacySeverity o subject) ≤ riskRank (default "" (UserSeverity o tenant subject))) ∧
  (∀ sev, UserSeverity o tenant subject = Some sev → sev = LegacySeverity o subject ∨ ∃ u, marks o T s u ∧ sev = ur_Severity u).
Proof.
  unfold indexed. intros Hix Hc HT. unfold UserSeverity, LegacySeverity. fold T s. rewrite !Hix.
  set (raw := severityOf (legacyUnattributed o) s). unfold worse.
  destruct (userIndexOf_spec (users o) (userRiskKey T s)) as [Hin Hfrom]. unfold severityOf in Hin at 1. split_and!.
  - intros u ((key & Hu) & Ht & Hs). destruct (Hc _ _ Hu) as (_ & _ & Hr). 
    assert (names u (userRiskKey T s)) as Hn by (exists s; by rewrite Ht). specialize (Hin _ _ Hu Hn).
    pose proof (riskRank_nonneg (ur_Severity u)).
    destruct (Z.ltb_spec (riskRank (default "" (userIndexOf (users o) !! userRiskKey T s))) (riskRank raw)) as [Hlt|Hge].
    + exists raw. split; [done|lia].
    + destruct (userIndexOf (users o) !! userRiskKey T s) as [v|]; [by exists v|]. change (riskRank (default "" None)) with 0 in Hin. lia.
  - destruct (Z.ltb_spec (riskRank (default "" (userIndexOf (users o) !! userRiskKey T s))) (riskRank raw)); [done|lia].
  - intros sev. destruct (Z.ltb_spec (riskRank (default "" (userIndexOf (users o) !! userRiskKey T s))) (riskRank raw)).
    + intros [= <-]. by left.
    + intros (key & u & Hu & (x & Hx & Hk) & ->)%Hfrom. right. exists u. split; [|done].
      destruct (Hc _ _ Hu) as (_ & Hn & _). apply userRiskKey_inj in Hk as [Ht Hs]; [|done|by apply normal_tenant].
      rewrite Ht, Hs. split; [by exists key|done].
Qed.

(** ** Control planes over one set of marks *)

Inductive op :=
  | RSetDevice (weak : bool) (id severity : string)
  | RSetUser (weak : bool) (mark : UserRisk)
  | RDiscard (weak : bool) (id expectedSeverity : string)
  | RErase (tenant : string) (ids : list string)
  | RRaise (weak : bool) (id severity : string).

(** What happens to the marks of a process: an operation, or a feed that it has pulled. *)
Inductive event :=
  | Operate (x : op)
  | PullDevices (pulled : gmap string string)
  | PullUsers (pulled : list UserRisk) (unresolved : gmap string string).

Section fleet.
Context `{MapOrder}.

Definition perform (o : HighRiskOverlay) (stored : option payload) (w : write_outcome) (x : op)
    : HighRiskOverlay * option payload :=
  match x with
  | RSetDevice weak id severity => (SetDeviceRiskContext o stored w weak id severity).1
  | RSetUser weak mark => (SetUserRiskContext o stored w weak mark).1
  | RDiscard weak id severity => (DiscardLegacyUnattributedContext o stored w weak id severity).1
  | RErase tenant ids => (RemoveTenantRisksContext o stored w tenant ids).1
  | RRaise weak id severity => (RaiseDeviceRisk o stored w weak id severity).1
  end.

Definition happen (o : HighRiskOverlay) (stored : option payload) (w : write_outcome) (e : event)
    : HighRiskOverlay * option payload :=
  match e with
  | Operate x => perform o stored w x
  | PullDevices pulled => (ReplaceSyncedDevices o pulled, stored)
  | PullUsers pulled unresolved => ((ReplaceSyncedUserRisks o pulled unresolved).1, stored)
  end.

Definition ready (r : HighRiskOverlay * option risk_error) : option HighRiskOverlay :=
  match r with (o, None) => Some o | _ => None end.

(** A row of the first schema is attributed before the process serves. *)
#[export] Instance riskPlane : Plane HighRiskOverlay payload event := {
  act := happen;
  reload o loaded := ready (ReloadRiskFromStore o loaded);
  boot b stored := o ← ready (SetRiskPersister NewHighRiskOverlay b (Some stored)); if legacy o then None else Some o;
}.

Record wellFormed (b : backing) (o : HighRiskOverlay) : Prop := {
  wf_backing : rpersister o = b;
  wf_devices : canonicalMarks (devices o);
  wf_users : canonicalUsers (users o);
  wf_legacy : canonicalMarks (legacyUnattributed o);
  wf_pending : canonicalMarks (automaticPending o);
  wf_index : indexed o;
}.

(** *** Marks *)

Definition atLeast (r : Z) (id : string) (m : gmap string string) : Prop := r ≤ riskRank (severityOf m id).

Lemma canonical_insert id severity m :
  id ≠ "" → trim_space id = id → riskRank severity ≠ 0 → canonicalMarks m → canonicalMarks (<[id := severity]> m).
Proof. intros ? ? ? Hm k v [[<- <-]|[_ Hk]]%lookup_insert_Some; [done|by apply Hm]. Qed.

Lemma marks_sub (m m' : gmap string string) : m ⊆ m' → canonicalMarks m' → canonicalMarks m.
Proof. intros Hs Hm id r Hr. by eapply Hm, lookup_weaken. Qed.

Lemma users_sub (m m' : gmap string UserRisk) : m ⊆ m' → canonicalUsers m' → canonicalUsers m.
Proof. intros Hs Hm id r Hr. by eapply Hm, lookup_weaken. Qed.

Lemma canonical_none : canonicalMarks ∅.
Proof. intros id s Hs. by rewrite lookup_empty in Hs. Qed.

Lemma users_none : canonicalUsers ∅.
Proof. intros id s Hs. by rewrite lookup_empty in Hs. Qed.

(** Merging the pending detections takes the worst of both. *)
Lemma merged_devices (pend base : gmap string string) :
  let m := map_fold (fun id severity devices =>
      if worse severity (severityOf devices id) then <[id := severity]> devices else devices) base pend in
  (∀ id, riskRank (severityOf base id) ≤ riskRank (severityOf m id)) ∧
  (∀ id, riskRank (severityOf pend id) ≤ riskRank (severityOf m id)) ∧
  (canonicalMarks base → canonicalMarks pend → canonicalMarks m).
Proof.
  cbv zeta. apply (map_fold_weak_ind (fun m (pend : gmap string string) =>
    (∀ id, riskRank (severityOf base id) ≤ riskRank (severityOf m id)) ∧
    (∀ id, riskRank (severityOf pend id) ≤ riskRank (severityOf m id)) ∧
    (canonicalMarks base → canonicalMarks pend → canonicalMarks m))).
  { split_and!; [done|intros id; apply riskRank_nonneg|done]. }
  intros k v pend' m Hk (H1 & H2 & H3). unfold worse.
  destruct (Z.ltb_spec (riskRank (severityOf m k)) (riskRank v)) as [Hlt|Hge]; split_and!.
  - intros id. etrans; [apply H1|by apply rank_insert].
  - intros id. destruct (decide (k = id)) as [<-|Hne]; [by rewrite !severity_insert|].
    rewrite !severity_insert_ne by done. apply H2.
  - intros Hb Hp. destruct (Hp k v) as (? & ? & ?); [apply lookup_insert_eq|]. apply canonical_insert; [done..|].
    apply H3; [done|]. eapply marks_sub, Hp. by apply insert_subseteq.
  - exact H1.
  - intros id. destruct (decide (k = id)) as [<-|Hne]; [by rewrite severity_insert|].
    rewrite severity_insert_ne by done. apply H2.
  - intros Hb Hp. apply H3; [done|]. eapply marks_sub, Hp. by apply insert_subseteq.
Qed.

Lemma merge_canonical b o f : wellFormed b o → canonicalRisk f → canonicalRisk (mergeAutomaticPending o f).
Proof. intros Hw [? ? ? ?]. split; try done. apply merged_devices; [done|by apply (wf_pending b)]. Qed.

(** *** Rows *)

Lemma rank_folded severity : riskRank severity ≠ 0 → to_lower (trim_space severity) = severity.
Proof.
  unfold riskRank. cbn [switch containsString existsb]. rewrite !orb_false_r.
  destruct (String.eqb_spec "medium" severity) as [<-|]; [done|]. destruct (String.eqb_spec "high" severity) as [<-|]; [done|].
  by destruct (String.eqb_spec "critical" severity) as [<-|].
Qed.

Lemma decodeMarks_canonical members : ∀ m, decodeMarks members = Some m → canonicalMarks m.
Proof.
  induction members as [|[id raw] members IH]; intros m; cbn [decodeMarks]; [intros [= <-]; apply canonical_none|].
  rewrite bind_Some. intros (severity & _ & Hd). destruct (is_empty id) eqn:He; [done|].
  destruct (String.eqb_spec id (NormalizeDeviceID id)) as [Hid|]; [|done]. destruct (Z.eqb_spec (riskRank severity) 0); [done|].
  cbn in Hd. apply bind_Some in Hd as (m' & Hm' & [= <-]). apply canonical_insert; [by intros ->|done|done|by apply IH].
Qed.

Lemma decodeUsers_canonical members : ∀ m, decodeUsers members = Some m → canonicalUsers m.
Proof.
  induction members as [|[key raw] members IH]; intros m; cbn [decodeUsers]; [intros [= <-]; apply users_none|].
  rewrite bind_Some. intros (u & Hu & Hd). destruct (String.eqb_spec key (userRiskKey (ur_TenantID u) (ur_ID u))) as [Hk|]; [|done].
  cbn in Hd. apply bind_Some in Hd as (m' & Hm' & [= <-]). intros k v [[<- <-]|[_ Hv]]%lookup_insert_Some; [|by eapply IH].
  split; [done|]. unfold decodeSavedUserRisk in Hu. apply bind_Some in Hu as (fields & _ & Hu). apply bind_Some in Hu as (mark & _ & Hu).
  destruct (normalizeUserRisk mark) as [n|] eqn:Hn; [|done]. destruct (Z.eqb_spec (riskRank (ur_Severity mark)) 0) as [|Hr]; [done|].
  destruct (_ || _); [done|]. injection Hu as ->. split; [by eapply normalizeUserRisk_idemp|].
  unfold normalizeUserRisk in Hn. destruct (_ || _); [done|]. destruct (negb _); [done|]. injection Hn as <-. cbn.
  by rewrite rank_folded.
Qed.

Lemma decodeRisk_canonical data f :
  decodeRiskSnapshot data = Some f →
  canonicalMarks (rf_Devices f) ∧ canonicalUsers (rf_Users f) ∧ canonicalMarks (rf_LegacyUnattributed f).
Proof.
  destruct data as [|j]; [done|]. unfold decodeRiskSnapshot. rewrite bind_Some. intros (fields & _ & Hd).
  destruct (negb _); [done|]. apply bind_Some in Hd as (schema & _ & Hd). cbv zeta in Hd. destruct (negb _ && _); [done|].
  apply bind_Some in Hd as (rows & _ & Hd). apply bind_Some in Hd as (devs & Hdev & Hd).
  apply bind_Some in Hd as (leg & Hleg & Hd). apply bind_Some in Hd as (us & Hus & [= <-]). cbn. split_and!.
  - by eapply decodeMarks_canonical.
  - destruct (field "users" fields) as [raw|]; [|injection Hus as <-; apply users_none].
    apply bind_Some in Hus as (rows' & _ & Hus). destruct (_ && _); [done|]. by eapply decodeUsers_canonical.
  - destruct (field "legacy_unattributed" fields) as [raw|]; [|injection Hleg as <-; apply canonical_none].
    destruct (String.eqb _ _); [|done]. apply bind_Some in Hleg as (rows' & _ & Hleg). by eapply decodeMarks_canonical.
Qed.

Lemma readRow_canonical data f : readRow data = Some f → canonicalRisk f.
Proof.
  unfold readRow. rewrite bind_Some. intros (f0 & Hd & Hf). destruct (_ && _); [done|]. injection Hf as <-.
  apply decodeRisk_canonical in Hd as (? & ? & ?). by split.
Qed.

(** The saved row has a device at a severity. *)
Definition rowRisk (r : Z) (id : string) (stored : option payload) : Prop :=
  ∃ data f, stored = Some data ∧ readRow data = Some f ∧ atLeast r id (rf_Devices f).

Lemma marshal_risk r id f : canonicalRisk f → atLeast r id (rf_Devices f) → rowRisk r id (Some (marshalRisk f)).
Proof.
  intros Hf Hid. exists (marshalRisk f), (f <| rf_SchemaVersion := highRiskOverlayStateSchemaVersion |>).
  split_and!; [done| |done]. unfold readRow. rewrite risk_snapshot_round_trip by done. cbn [mbind option_bind].
  by rewrite (canonical_version _ Hf).
Qed.

(** The process has the device at a severity, and so will what it writes next. *)
Definition keptRisk (r : Z) (id : string) (o : HighRiskOverlay) (stored : option payload) : Prop :=
  atLeast r id (devices o) ∧
  (rpersister o = Updating → atLeast r id (automaticPending o) ∨ rowRisk r id stored).

Definition rowKeeps (b : backing) (r : Z) (id : string) (stored : option payload) : Prop :=
  b ≠ Memory ∧ rowRisk r id stored.

(** The administrative changes and erasures of the device itself. *)
Definition sparesDevice (id : string) (x : op) : Prop :=
  match x with
  | RSetDevice _ device _ => NormalizeDeviceID device ≠ id
  | RErase _ ids => ∀ device, device ∈ ids → NormalizeDeviceID device ≠ id
  | _ => True
  end.

(** A feed of known severities that has the device at [r] at least. *)
Definition names_still (r : Z) (id : string) (pulled : gmap string string) : Prop :=
  (∀ k s, pulled !! k = Some s → NormalizeDeviceID k ≠ "" → riskRank (to_lower (trim_space s)) ≠ 0) ∧
  (∃ k s, pulled !! k = Some s ∧ NormalizeDeviceID k = id) ∧
  (∀ k s, pulled !! k = Some s → NormalizeDeviceID k = id → r ≤ riskRank (to_lower (trim_space s))).

Definition spares (r : Z) (id : string) (e : event) : Prop :=
  match e with
  | Operate x => sparesDevice id x
  | PullDevices pulled => names_still r id pulled
  | PullUsers _ _ => True
  end.

Definition concludedRisk (r : Z) (id : string) :=
  ended marshalRisk (fun o => atLeast r id (devices o)) (fun o => atLeast r id (automaticPending o))
    (fun f => atLeast r id (rf_Devices f)) canonicalRisk (rowRisk r id).

Lemma emptyFile_canonical : canonicalRisk emptyFile.
Proof. split; [done|apply canonical_none|apply users_none|apply canonical_none]. Qed.

(** A row with the pending detections merged into it. *)
Lemma merged_row b o f r id (row : option highRiskOverlayStateFile) stored :
  wellFormed b o → (∀ f, row = Some f → canonicalRisk f) →
  (rowRisk r id stored → ∃ f, row = Some f ∧ atLeast r id (rf_Devices f)) →
  mergeAutomaticPending o <$> row = Some f →
  canonicalRisk f ∧ (atLeast r id (automaticPending o) ∨ rowRisk r id stored → atLeast r id (rf_Devices f)).
Proof.
  intros Hw Hc Hr (f0 & -> & ->)%fmap_Some. split; [by eapply merge_canonical, Hc|].
  destruct (merged_devices (automaticPending o) (rf_Devices f0)) as (H1 & H2 & _). unfold atLeast.
  intros [Hp|(f1 & [= <-] & Hd)%Hr]; [etrans; [exact Hp|apply H2]|etrans; [exact Hd|apply H1]].
Qed.

Lemma latest_risk b o stored f r id :
  wellFormed b o → latestRisk o stored = Some f →
  canonicalRisk f ∧ (atLeast r id (automaticPending o) ∨ rowRisk r id stored → atLeast r id (rf_Devices f)).
Proof.
  intros Hw. apply (merged_row b); [done|..].
  - intros f0. destruct stored as [data|]; [apply readRow_canonical|]. destruct (negb _); [done|].
    intros [= <-]. apply emptyFile_canonical.
  - intros (data & f0 & -> & Hf & Hid). by exists f0.
Qed.

Lemma publish_risk_wf b o f : wellFormed b o → canonicalRisk f → wellFormed b (publishRisk o f).
Proof.
  intros Hw [? ? ? ?]. unfold publishRisk, takeMarks.
  split; try done. destruct (riskMoved o f); apply (wf_backing _ _ Hw).
Qed.

(** *** Edits *)

(** An edit of canonical rows that leaves a device at its severity. *)
Definition gentle (r : Z) (id : string) (edit : highRiskOverlayStateFile → result risk_error highRiskOverlayStateFile) : Prop :=
  ∀ f f', edit f = Ok f' → canonicalRisk f →
    canonicalRisk f' ∧ (atLeast r id (rf_Devices f) → atLeast r id (rf_Devices f')).

Lemma change_shared o stored w edit o' stored' err r id :
  wellFormed Updating o → gentle r id edit →
  changeRiskContextChecked o stored w edit = Some (o', stored', err) →
  wellFormed Updating o' ∧ concludedRisk r id o stored o' stored'.
Proof.
  intros Hw Hg. unfold changeRiskContextChecked. rewrite (wf_backing _ _ Hw).
  destruct (_ || _); [intros [= <- <- _]; split; [done|by apply ended_idle]|].
  destruct w as [| |reached|] eqn:Hwo; [..|intros [= <- <- _]; split; [done|by apply ended_idle]];
    (destruct (latestRisk o stored) as [f|] eqn:Hf; [|intros [= <- <- _]; split; [done|by apply ended_idle]]);
    (destruct (edit f) as [candidate|e] eqn:He; [|intros [= <- <- _]; split; [done|by apply ended_idle]]);
    cbn [committed]; intros [= <- <- _]; destruct (latest_risk _ _ _ _ r id Hw Hf) as [Hc Hid];
    destruct (Hg _ _ He Hc) as [Hc' Hk].
  - split; [by apply publish_risk_wf|]. apply ended_published; auto.
  - split; [done|]. apply (ended_unconfirmed _ _ _ _ _ _ _ _ candidate Unflushed); auto.
  - split; [done|]. apply (ended_unconfirmed _ _ _ _ _ _ _ _ candidate (WriteFailed reached)); auto.
Qed.

Lemma put_severity_canonical id severity m :
  id ≠ "" → trim_space id = id → severity = "" ∨ riskRank severity ≠ 0 → canonicalMarks m →
  canonicalMarks (put_severity id severity m).
Proof.
  intros Hid Ht Hs Hm. unfold put_severity. destruct (is_empty severity) eqn:He.
  - eapply marks_sub, Hm. apply delete_subseteq.
  - apply canonical_insert; [done..| |done]. destruct Hs as [-> |]; [done|done].
Qed.

Lemma put_severity_other id severity m r id' : id ≠ id' → atLeast r id' m → atLeast r id' (put_severity id severity m).
Proof.
  intros Hne. unfold put_severity, atLeast, severityOf. destruct (is_empty severity); [by rewrite lookup_delete_ne|by rewrite lookup_insert_ne].
Qed.

Lemma deviceSeverity_spec severity s : deviceSeverity severity = Some s → s = "" ∨ riskRank s ≠ 0.
Proof.
  unfold deviceSeverity. cbn [switch containsString existsb]. repeat case_match; intros [= <-]; auto.
Qed.

Lemma put_user_canonical mark u m :
  normalizeUserRisk mark = Ok u → canonicalUsers m → canonicalUsers (put_user u m).
Proof.
  intros Hu Hm. unfold put_user. cbv zeta. destruct (Z.eqb_spec (riskRank (ur_Severity u)) 0) as [|Hr].
  - eapply users_sub, Hm. apply delete_subseteq.
  - intros k v [[<- <-]|[_ Hv]]%lookup_insert_Some; [|by apply Hm]. split_and!; [done|by eapply normalizeUserRisk_idemp|done].
Qed.

Lemma eraseMarks_spec tenant ids devs us devs' us' n :
  eraseMarks tenant ids devs us = (devs', us', n) → devs' ⊆ devs ∧ us' ⊆ us ∧
  (∀ r id, (∀ x, x ∈ ids → NormalizeDeviceID x ≠ id) → atLeast r id devs → atLeast r id devs').
Proof.
  unfold eraseMarks. destruct (removeKeys _ _ _) as [d k] eqn:Hrm. intros [= <- <- _].
  pose proof (removeKeys_sub NormalizeDeviceID ids devs) as Hsub. rewrite Hrm in Hsub. split_and!; [done| |].
  - destruct (is_empty tenant); [done|]. apply map_filter_subseteq.
  - intros r id Hids. unfold atLeast, severityOf. pose proof (removeKeys_spec NormalizeDeviceID ids devs id Hids) as Hk.
    rewrite Hrm in Hk. cbn in Hk. by rewrite Hk.
Qed.

(** *** A shared row *)

Lemma handled_shared o stored w edit fallback o' stored' r id :
  wellFormed Updating o → gentle r id edit →
  (handledOr (changeRiskContextChecked o stored w edit) fallback).1 = (o', stored') →
  wellFormed Updating o' ∧ concludedRisk r id o stored o' stored'.
Proof.
  intros Hw Hg. destruct (changeRiskContextChecked o stored w edit) as [[[o1 s1] err]|] eqn:Hc.
  - pose proof (change_shared _ _ _ _ _ _ _ r id Hw Hg Hc). by destruct err; intros [= <- <-].
  - unfold changeRiskContextChecked in Hc. by rewrite (wf_backing _ _ Hw) in Hc.
Qed.

Lemma nonempty_device id : is_empty (NormalizeDeviceID id) = false → NormalizeDeviceID id ≠ "".
Proof. intros He Hid. by rewrite Hid in He. Qed.

Lemma severity_rank severity : riskRank severity =? 0 = false → riskRank severity ≠ 0.
Proof. intros ?%Z.eqb_neq. done. Qed.

(** The local step of a detection. *)
Lemma raise_local o id severity (sev := if worse (severityOf (devices o) id) severity then severityOf (devices o) id else severity)
    (changed := negb (String.eqb (severityOf (devices o) id) sev))
    (o1 := (if changed then publishDevices (<[id := sev]> (devices o)) o else o) <| riskSavePending := true |>)
    (o2 := o1 <| automaticPending := <[id := sev]> (automaticPending o1) |>) :
  wellFormed Updating o → id ≠ "" → trim_space id = id → riskRank severity ≠ 0 →
  riskRank severity ≤ riskRank sev ∧ riskRank sev ≠ 0 ∧ automaticPending o1 = automaticPending o ∧
  wellFormed Updating o1 ∧ wellFormed Updating o2 ∧ (∀ r k, atLeast r k (devices o) → atLeast r k (devices o1)) ∧
  (∀ r k, atLeast r k (devices o) → atLeast r k (automaticPending o) → atLeast r k (automaticPending o2)) ∧
  riskRank sev ≤ riskRank (severityOf (devices o1) id).
Proof.
  intros [Hb Hd Hu Hl Ha Hix] Hid Ht Hr. set (previous := severityOf (devices o) id) in *.
  assert (riskRank severity ≤ riskRank sev ∧ riskRank previous ≤ riskRank sev ∧ riskRank sev ≠ 0) as (Hs1 & Hs2 & Hs3).
  { unfold sev, worse. destruct (Z.ltb_spec (riskRank severity) (riskRank previous)); [|by split_and!].
    pose proof (riskRank_nonneg severity). split_and!; lia. }
  clearbody sev.
  assert (∀ k, riskRank (severityOf (devices o) k) ≤ riskRank (severityOf (devices o1) k)) as Hmono.
  { intros k. unfold o1. destruct changed; [|done]. cbn.
    destruct (decide (id = k)) as [<-|Hne]; [by rewrite severity_insert|by rewrite severity_insert_ne]. }
  assert (riskRank sev ≤ riskRank (severityOf (devices o1) id)) as Hsev.
  { unfold o1, changed. destruct (String.eqb_spec previous sev) as [Hps|Hne]; cbn [negb]; [|by cbn; rewrite severity_insert].
    change (riskRank sev ≤ riskRank previous). by rewrite Hps. }
  assert (automaticPending o1 = automaticPending o) as Hp by (unfold o1; by destruct changed).
  assert (wellFormed Updating o1) as Hw1.
  { split; try (unfold o1; by destruct changed). unfold o1. destruct changed; [|done]. cbn. by apply canonical_insert. }
  split_and!; try done.
  - destruct Hw1 as [Hb1 Hd1 Hu1 Hl1 Ha1 Hix1]. split; try done. by apply canonical_insert.
  - intros r k Hk. unfold atLeast in *. etrans; [exact Hk|apply Hmono].
  - intros r k Hlive Hk. unfold atLeast in *. change (automaticPending o2) with (<[id := sev]> (automaticPending o1)). rewrite Hp.
    destruct (decide (id = k)) as [<-|Hne]; [|by rewrite severity_insert_ne].
    rewrite severity_insert. fold previous in Hlive. lia.
Qed.

(** A detection makes the device at least as severe, and takes nothing from the others. *)
Lemma raise_shared o stored w id severity o' stored' res err r k :
  wellFormed Updating o → id ≠ "" → trim_space id = id → riskRank severity ≠ 0 →
  raiseSharedDeviceRiskLocked o stored w id severity = (o', stored', (res, err)) →
  wellFormed Updating o' ∧ concludedRisk r k o stored o' stored' ∧
  keptRisk (riskRank severity) id o' stored' ∧ (err = None → rowRisk (riskRank severity) id stored').
Proof.
  intros Hw Hid Ht Hr. unfold raiseSharedDeviceRiskLocked. cbv zeta.
  destruct (raise_local o id severity Hw Hid Ht Hr) as (Hs1 & Hs3 & Hp & Hw1 & Hw2 & Hlive & Hpend & Hsev).
  set (sev := if worse _ _ then _ else _) in *. set (o1 := (if negb _ then _ else _) <| riskSavePending := true |>) in *.
  set (o2 := o1 <| automaticPending := _ |>) in *. set (row := match stored with Some data => _ | None => _ end).
  assert (∀ d, keptRisk (riskRank severity) id o2 d) as Hk2.
  { intros d. split; [unfold atLeast; etrans; [exact Hs1|exact Hsev]|]. intros _. left. unfold o2, atLeast. cbn. by rewrite severity_insert. }
  assert (∀ f, row = Some f → let f' := mergeAutomaticPending o1 f in
    let c := if worse sev (severityOf (rf_Devices f') id) then f' <| rf_Devices := <[id := sev]> (rf_Devices f') |> else f' in
    canonicalRisk c ∧ (atLeast r k (automaticPending o) ∨ rowRisk r k stored → atLeast r k (rf_Devices c)) ∧
    atLeast (riskRank severity) id (rf_Devices c)) as Hrow.
  { intros f Hf. cbv zeta. destruct (merged_row Updating o1 (mergeAutomaticPending o1 f) r k row stored Hw1) as [Hc Hkeep].
    - intros f0. unfold row. destruct stored as [data|]; [apply readRow_canonical|]. intros [= <-]. apply emptyFile_canonical.
    - intros (data & f0 & -> & Hf0 & Hk). by exists f0.
    - by rewrite Hf.
    - rewrite Hp in Hkeep. set (f' := mergeAutomaticPending o1 f) in *. unfold worse.
      destruct (Z.ltb_spec (riskRank (severityOf (rf_Devices f') id)) (riskRank sev)) as [Hlt|Hge]; split_and!; auto.
      + destruct Hc as [? ? ? ?]. split; try done. by apply canonical_insert.
      + intros Hor. specialize (Hkeep Hor). unfold atLeast in *. cbn. etrans; [exact Hkeep|by apply rank_insert].
      + unfold atLeast. cbn. by rewrite severity_insert.
      + unfold atLeast. lia. }
  assert (∀ c w', canonicalRisk c → (atLeast r k (automaticPending o) ∨ rowRisk r k stored → atLeast r k (rf_Devices c)) →
    concludedRisk r k o stored o2 (diskAfter w' stored (marshalRisk c))) as Hlost.
  { intros c w' Hc Hkeep. by apply ended_unconfirmed; [..|apply Hlive|apply Hpend]. }
  clearbody row. assert (concludedRisk r k o stored o2 stored) as Hidle by (apply ended_idle; [apply Hlive|apply Hpend]).
  destruct w as [| |reached|] eqn:Hwo; [..|intros [= <- <- _ <-]; by split_and!];
    (destruct row as [f|]; [|intros [= <- <- _ <-]; by split_and!]);
    specialize (Hrow f eq_refl); cbv zeta in Hrow; destruct Hrow as (Hc & Hkeep & Hid');
    cbn [committed]; intros [= <- <- _ <-].
  - split_and!; [by apply publish_risk_wf|apply ended_published; auto| |intros _; by apply marshal_risk].
    split; [done|]. intros _. right. by apply marshal_risk.
  - split_and!; [done|by apply (Hlost _ Unflushed)|apply Hk2|done].
  - split_and!; [done|by apply (Hlost _ (WriteFailed reached))|apply Hk2|done].
Qed.

(** *** Every operation on a shared row *)

Lemma gentle_devices id severity r k :
  id ≠ "" → trim_space id = id → id ≠ k → severity = "" ∨ riskRank severity ≠ 0 →
  gentle r k (fun f => Ok (f <| rf_Devices := put_severity id severity (rf_Devices f) |>)).
Proof.
  intros Hid Ht Hne Hs f f' [= <-] [? ? ? ?]. split; [split; try done; by apply put_severity_canonical|].
  by apply put_severity_other.
Qed.

Lemma gentle_user mark u r k :
  normalizeUserRisk mark = Ok u → gentle r k (fun f => Ok (f <| rf_Users := put_user u (rf_Users f) |>)).
Proof. intros Hu f f' [= <-] [? ? ? ?]. split; [|done]. split; try done. by eapply put_user_canonical. Qed.

Lemma gentle_discard id expected r k :
  gentle r k (fun f => match legacyTarget (rf_LegacyUnattributed f) id expected with
                       | Some e => Err e
                       | None => Ok (f <| rf_LegacyUnattributed := delete id (rf_LegacyUnattributed f) |>)
                       end).
Proof.
  intros f f' Hf [? ? ? ?]. destruct (legacyTarget _ _ _); [done|]. injection Hf as <-. split; [|done].
  split; try done. eapply marks_sub; [apply delete_subseteq|done].
Qed.

Lemma gentle_erase tenant ids r k :
  (∀ x, x ∈ ids → NormalizeDeviceID x ≠ k) → gentle r k (fun f => Ok (eraseFile tenant ids f)).
Proof.
  intros Hids f f' [= <-] [? ? ? ?]. unfold eraseFile.
  destruct (eraseMarks tenant ids (rf_Devices f) (rf_Users f)) as [[d u] n] eqn:He.
  apply eraseMarks_spec in He as (Hd & Hu & Hk). split; [|by apply Hk].
  split; [done|by eapply marks_sub|by eapply users_sub|done].
Qed.

Lemma perform_on_row o stored w x o' stored' r k :
  wellFormed Updating o → sparesDevice k x → perform o stored w x = (o', stored') →
  wellFormed Updating o' ∧ concludedRisk r k o stored o' stored'.
Proof.
  intros Hw Hsp. assert (∀ o1 s1, (o, stored) = (o1, s1) → wellFormed Updating o1 ∧ concludedRisk r k o stored o1 s1) as Hrefused.
  { intros o1 s1 [= <- <-]. split; [done|by apply ended_idle]. }
  destruct x as [weak id severity|weak mark|weak id expected|tenant ids|weak id severity]; cbn [perform sparesDevice] in *.
  - unfold SetDeviceRiskContext. destruct (is_empty _) eqn:He; [apply Hrefused|].
    destruct (deviceSeverity severity) as [s|] eqn:Hs; [|apply Hrefused]. apply handled_shared; [done|].
    apply gentle_devices; [by apply nonempty_device|apply trim_space_idemp|done|by eapply deviceSeverity_spec].
  - unfold SetUserRiskContext. destruct (normalizeUserRisk mark) as [u|] eqn:Hu; [|apply Hrefused].
    apply handled_shared; [done|by eapply gentle_user].
  - unfold DiscardLegacyUnattributedContext. destruct (negb _); [apply Hrefused|]. apply handled_shared; [done|apply gentle_discard].
  - unfold RemoveTenantRisksContext. destruct (_ && _); [apply Hrefused|].
    destruct (changeRiskContext o stored w (eraseFile (trim_space tenant) ids)) as [[[o1 s1] err]|] eqn:Hc.
    + pose proof (change_shared _ _ _ _ _ _ _ r k Hw (gentle_erase (trim_space tenant) ids r k Hsp) Hc).
      by destruct err; intros [= <- <-].
    + unfold changeRiskContext, changeRiskContextChecked in Hc. by rewrite (wf_backing _ _ Hw) in Hc.
  - unfold RaiseDeviceRisk. destruct (_ || _) eqn:Hg; [apply Hrefused|]. destruct (isUnavailable o); [apply Hrefused|].
    rewrite (wf_backing _ _ Hw). apply orb_false_elim in Hg as [He Hs].
    destruct (raiseSharedDeviceRiskLocked _ _ _ _ _) as [[o1 s1] [res err]] eqn:Hra. cbn. intros [= <- <-].
    destruct (raise_shared _ _ _ _ _ _ _ _ _ r k Hw (nonempty_device _ He) (trim_space_idemp _) (severity_rank _ Hs) Hra) as (? & ? & _). done.
Qed.

(** *** Every operation of a sole owner *)

(** The process and its file keep the device. *)
Definition settled (b : backing) (r : Z) (k : string) (o : HighRiskOverlay) (stored : option payload)
    (o' : HighRiskOverlay) (stored' : option payload) : Prop :=
  wellFormed b o' ∧
  (atLeast r k (devices o) → atLeast r k (devices o') ∧ (rowKeeps b r k stored → rowKeeps b r k stored')).

Lemma wf_flags b o p s : wellFormed b o → wellFormed b (o <| riskSavePending := p |> <| deviceSavePending := s |>).
Proof. intros [? ? ? ? ? ?]. by split. Qed.

Lemma wf_devices_set b o d : b ≠ Updating → wellFormed b o → canonicalMarks d → wellFormed b (o <| devices := d |>).
Proof. intros _ [? ? ? ? ? ?] Hd. by split. Qed.

Lemma wf_users_set b o u : wellFormed b o → canonicalUsers u → wellFormed b (rbump (rebuildUserIndexLocked (o <| users := u |>))).
Proof. intros [? ? ? ? ? ?] Hu. by split. Qed.

Lemma wf_legacy_set b o l : wellFormed b o → canonicalMarks l → wellFormed b (rbump (o <| legacyUnattributed := l |>)).
Proof. intros [? ? ? ? ? ?] Hl. by split. Qed.

(** A save carries all the marks, and touches nothing else of the process. *)
Lemma save_marks_alone b o stored w weak d u l o1 stored' res r k :
  wellFormed b o → canonicalMarks d → canonicalUsers u → canonicalMarks l →
  saveRisk o stored w weak d u l = (o1, stored', res) →
  (∃ p, o1 = o <| riskSavePending := p |>) ∧ wellFormed b o1 ∧
  (atLeast r k d → rowKeeps b r k stored → rowKeeps b r k stored') ∧
  (∀ warning, res = Ok warning → b ≠ Memory → atLeast r k d → rowRisk r k stored').
Proof.
  intros Hw Hd Hu Hl Hs.
  set (f := mkStateFile highRiskOverlayStateSchemaVersion d u l) in Hs.
  assert (canonicalRisk f) as Hf by by split.
  assert ((∃ p, o1 = o <| riskSavePending := p |>) ∧ (b ≠ Memory → stored' = diskAfter w stored (marshalRisk f) ∧
          (∀ warning, res = Ok warning → w = Written))) as [[p ->] Hst].
  { unfold saveRisk in Hs. fold f in Hs. pose proof (wf_backing _ _ Hw) as Hb.
    destruct (rpersister o), w; injection Hs as <- <- <-; (split; [by eexists|]); intros ?; try done; by destruct b. }
  split_and!; [by eexists|destruct Hw; by split| |].
  - intros Hk [Hm Hr]. destruct (Hst Hm) as [-> _]. split; [done|].
    apply (diskAfter_row marshalRisk (fun f => atLeast r k (rf_Devices f)) canonicalRisk); auto using marshal_risk.
  - intros warning He Hm Hk. destruct (Hst Hm) as [-> Hwr]. rewrite (Hwr _ He). by apply marshal_risk.
Qed.

(** An edit that saves first and then publishes. *)
Lemma saved_first b o stored w weak d u l o1 stored' (res : result risk_error bool) (publish : HighRiskOverlay → HighRiskOverlay) r k :
  wellFormed b o → canonicalMarks d → canonicalUsers u → canonicalMarks l →
  (atLeast r k (devices o) → atLeast r k d) →
  (∀ p, let o' := o <| riskSavePending := p |> in wellFormed b o' →
     wellFormed b (publish o') ∧ (atLeast r k d → atLeast r k (devices o) → atLeast r k (devices (publish o')))) →
  saveRisk o stored w weak d u l = (o1, stored', res) →
  settled b r k o stored o1 stored' ∧ settled b r k o stored (publish o1) stored'.
Proof.
  intros Hw Hd Hu Hl Hk Hp Hs. destruct (save_marks_alone _ _ _ _ _ _ _ _ _ _ _ r k Hw Hd Hu Hl Hs) as ([p ->] & Hw1 & Hrow & _).
  destruct (Hp p Hw1) as [Hw2 Hk2]. split; (split; [done|]); intros Hlive; (split; [|by auto]); [done|by auto].
Qed.

Lemma set_alone b o stored w weak id severity r k o' stored' :
  b ≠ Updating → wellFormed b o → NormalizeDeviceID id ≠ k →
  (SetDeviceRisk o stored w weak id severity).1 = (o', stored') → settled b r k o stored o' stored'.
Proof.
  intros Hb Hw Hne. assert (settled b r k o stored o stored) as Hsame by done.
  unfold SetDeviceRisk, setDeviceRisk. cbv zeta. destruct (is_empty _) eqn:He; [by intros [= <- <-]|].
  destruct (deviceSeverity severity) as [sev|] eqn:Hsev; [|by intros [= <- <-]]. destruct (isUnavailable o); [by intros [= <- <-]|].
  cbn [andb]. set (id' := NormalizeDeviceID id) in *. set (changed := _ || _).
  assert (canonicalMarks (put_severity id' sev (devices o))) as Hc.
  { apply put_severity_canonical; [by apply nonempty_device|apply trim_space_idemp|by eapply deviceSeverity_spec|apply (wf_devices _ _ Hw)]. }
  destruct (saveRisk _ _ _ _ _ _ _) as [[o1 s1] res] eqn:Hs.
  destruct (saved_first b o stored w weak _ _ _ o1 s1 res
    (fun o1 => if changed && negb false then publishDevices (put_severity id' sev (devices o)) (o1 <| deviceSavePending := false |>)
               else o1 <| deviceSavePending := false |>) r k Hw Hc (wf_users _ _ Hw) (wf_legacy _ _ Hw)) as [H1 H2]; [| |exact Hs|].
  - by apply put_severity_other.
  - intros p o2 Hw2. pose proof (wf_flags b o2 (riskSavePending o2) false Hw2) as Hw3. destruct (changed && negb false).
    + split; [|by intros ? _]. by destruct (wf_devices_set b _ _ Hb Hw3 Hc).
    + done.
  - destruct res as [warning|e]; [|by intros [= <- <-]]. by intros [= <- <-].
Qed.

Lemma user_alone b o stored w weak mark r k o' stored' :
  wellFormed b o → (SetUserRisk o stored w weak mark).1 = (o', stored') → settled b r k o stored o' stored'.
Proof.
  intros Hw. assert (settled b r k o stored o stored) as Hsame by done.
  unfold SetUserRisk. destruct (normalizeUserRisk mark) as [u|] eqn:Hu; [|by intros [= <- <-]].
  destruct (_ || _); [by intros [= <- <-]|]. cbv zeta. destruct (saveRisk _ _ _ _ _ _ _) as [[o1 s1] res] eqn:Hs.
  pose proof (put_user_canonical _ _ _ Hu (wf_users _ _ Hw)) as Hc.
  destruct (saved_first b o stored w weak _ _ _ o1 s1 res
    (fun o1 => rbump (rebuildUserIndexLocked (o1 <| users := put_user u (users o) |>))) r k Hw (wf_devices _ _ Hw) Hc (wf_legacy _ _ Hw))
    as [H1 H2]; [done| |exact Hs|].
  - intros p o2 Hw2. split; [by apply wf_users_set|done].
  - destruct res; by intros [= <- <-].
Qed.

Lemma discard_alone b o stored w weak id expected r k o' stored' :
  wellFormed b o → (DiscardLegacyUnattributed o stored w weak id expected).1 = (o', stored') →
  settled b r k o stored o' stored'.
Proof.
  intros Hw. assert (settled b r k o stored o stored) as Hsame by done.
  unfold DiscardLegacyUnattributed. cbv zeta. destruct (negb _); [by intros [= <- <-]|]. destruct (_ || _); [by intros [= <- <-]|].
  destruct (legacyTarget _ _ _); [by intros [= <- <-]|]. destruct (saveRisk _ _ _ _ _ _ _) as [[o1 s1] res] eqn:Hs.
  pose proof (marks_sub _ _ (delete_subseteq _ (NormalizeDeviceID id)) (wf_legacy _ _ Hw)) as Hc.
  destruct (saved_first b o stored w weak _ _ _ o1 s1 res
    (fun o1 => rbump (o1 <| legacyUnattributed := delete (NormalizeDeviceID id) (legacyUnattributed o) |>)) r k
    Hw (wf_devices _ _ Hw) (wf_users _ _ Hw) Hc) as [H1 H2]; [done| |exact Hs|].
  - intros p o2 Hw2. split; [by apply wf_legacy_set|done].
  - destruct res; by intros [= <- <-].
Qed.

Lemma erase_marks_alone b o stored w tenant ids r k o' stored' res :
  b ≠ Updating → wellFormed b o → (∀ x, x ∈ ids → NormalizeDeviceID x ≠ k) →
  RemoveTenantRisksChecked o stored w tenant ids = (o', stored', res) → settled b r k o stored o' stored'.
Proof.
  intros Hb Hw Hids. assert (settled b r k o stored o stored) as Hsame by done.
  unfold RemoveTenantRisksChecked. cbv zeta. destruct (_ && _); [by intros [= <- <- _]|].
  destruct (isUnavailable o); [by intros [= <- <- _]|].
  destruct (eraseMarks _ _ _ _) as [[d u] n] eqn:He. apply eraseMarks_spec in He as (Hd & Hu & Hk).
  pose proof (marks_sub _ _ Hd (wf_devices _ _ Hw)) as Hcd. pose proof (users_sub _ _ Hu (wf_users _ _ Hw)) as Hcu.
  destruct (saveRisk _ _ _ _ _ _ _) as [[o1 s1] res1] eqn:Hs.
  destruct (saved_first b o stored w false _ _ _ o1 s1 res1
    (fun o1 => if 0 <? n then rbump (rebuildUserIndexLocked (o1 <| devices := d |> <| users := u |>)) else o1) r k
    Hw Hcd Hcu (wf_legacy _ _ Hw)) as [H1 H2]; [by apply Hk| |exact Hs|].
  - intros p o2 Hw2. destruct (0 <? n); [|done]. split; [|done].
    apply (wf_users_set b (o2 <| devices := d |>) u); [|done]. by apply wf_devices_set.
  - destruct res1; by intros [= <- <- _].
Qed.

(** The answer of a detection says that the mark is saved. *)
Definition durable (res : AutomaticRiskResult) : Prop :=
  au_Persistence res = Saved ∨ au_Persistence res = SavedNonAtomic.

Lemma raise_published b o id severity (o1 := if worse severity (severityOf (devices o) id)
    then publishDevices (<[id := severity]> (devices o)) o else o) r k :
  b ≠ Updating → wellFormed b o → id ≠ "" → trim_space id = id → riskRank severity ≠ 0 →
  wellFormed b o1 ∧ (atLeast r k (devices o) → atLeast r k (devices o1)) ∧ atLeast (riskRank severity) id (devices o1).
Proof.
  intros Hb Hw Hid Ht Hr. unfold o1, worse, atLeast.
  destruct (Z.ltb_spec (riskRank (severityOf (devices o) id)) (riskRank severity)) as [Hlt|Hge]; [|by split_and!].
  split_and!.
  - pose proof (canonical_insert id severity _ Hid Ht Hr (wf_devices _ _ Hw)) as Hc.
    by destruct (wf_devices_set b o _ Hb Hw Hc).
  - intros Hk. etrans; [exact Hk|by apply rank_insert].
  - cbn. by rewrite severity_insert.
Qed.

Lemma raise_alone b o stored w weak device severity r k o' stored' res err (id := NormalizeDeviceID device)
    (sev := to_lower (trim_space severity)) :
  b ≠ Updating → wellFormed b o → RaiseDeviceRisk o stored w weak device severity = (o', stored', (res, err)) →
  settled b r k o stored o' stored' ∧
  (au_Applied res = true → atLeast (riskRank sev) id (devices o') ∧ (durable res → rowKeeps b (riskRank sev) id stored')).
Proof.
  intros Hb Hw. unfold RaiseDeviceRisk. fold id sev. cbv zeta. destruct (_ || _) eqn:Hg; [by intros [= <- <- <- _]|].
  apply orb_false_elim in Hg as [He Hs]. apply nonempty_device in He. apply severity_rank in Hs.
  destruct (isUnavailable o); [by intros [= <- <- <- _]|].
  destruct (raise_published b o id sev r k Hb Hw He (trim_space_idemp _) Hs) as (Hw1 & Hk1 & Hid1).
  set (o1 := if worse _ _ then _ else _) in *. rewrite (wf_backing _ _ Hw).
  assert (∀ A (x y : A), match b with Updating => x | _ => y end = y) as Halone by (intros; by destruct b).
  rewrite Halone. clear Halone. destruct (_ && _).
  { intros [= <- <- <- _]. split; [split; [done|]; by intros ?%Hk1|]. intros _. split; [done|]. by intros [|]. }
  destruct (saveRisk _ _ _ _ _ _ _) as [[o3 s3] r3] eqn:Hsave.
  pose proof (wf_users _ _ Hw1) as Hu1. pose proof (wf_legacy _ _ Hw1) as Hl1. pose proof (wf_devices _ _ Hw1) as Hd1.
  destruct (save_marks_alone b o1 stored w weak _ _ _ _ _ _ r k Hw1 Hd1 Hu1 Hl1 Hsave) as ([p Ho3] & Hw3 & Hrow & _).
  destruct (save_marks_alone b o1 stored w weak _ _ _ _ _ _ (riskRank sev) id Hw1 Hd1 Hu1 Hl1 Hsave) as (_ & _ & _ & Hok).
  assert (settled b r k o stored o3 s3) as Hset by (split; [done|]; rewrite Ho3; intros Hl; split; [by apply Hk1|by apply Hrow, Hk1]).
  assert (atLeast (riskRank sev) id (devices o3)) as Hid3 by by rewrite Ho3.
  destruct r3 as [warning|e]; intros [= <- <- <- _]; (split; [done|]; intros _; split; [done|]); [|by intros [|]].
  intros Hd. assert (b ≠ Memory) as Hm; [|by split; [|by eapply Hok]].
  intros ->. unfold saveRisk in Hsave. rewrite (wf_backing _ _ Hw1) in Hsave. injection Hsave as _ _ <-. by destruct Hd.
Qed.

Lemma perform_as_owner b o stored w x o' stored' r k :
  b ≠ Updating → wellFormed b o → sparesDevice k x → perform o stored w x = (o', stored') → settled b r k o stored o' stored'.
Proof.
  intros Hb Hw Hsp. assert (settled b r k o stored o stored) as Hsame by done.
  assert (∀ edit, changeRiskContextChecked o stored w edit = None) as Hc.
  { intros edit. unfold changeRiskContextChecked. rewrite (wf_backing _ _ Hw). by destruct b. }
  destruct x as [weak id severity|weak mark|weak id expected|tenant ids|weak id severity]; cbn [perform sparesDevice] in *.
  - unfold SetDeviceRiskContext, changeRiskContext. destruct (is_empty _); [by intros [= <- <-]|].
    destruct (deviceSeverity severity) as [s|]; [|by intros [= <- <-]]. rewrite Hc. cbn [handledOr].
    apply set_alone; [done..|]. unfold NormalizeDeviceID in *. by rewrite trim_space_idemp.
  - unfold SetUserRiskContext, changeRiskContext. destruct (normalizeUserRisk mark) as [u|]; [|by intros [= <- <-]].
    rewrite Hc. by apply user_alone.
  - unfold DiscardLegacyUnattributedContext. destruct (negb _); [by intros [= <- <-]|]. rewrite Hc. by apply discard_alone.
  - unfold RemoveTenantRisksContext, changeRiskContext. destruct (_ && _); [by intros [= <- <-]|]. rewrite Hc.
    destruct (RemoveTenantRisksChecked _ _ _ _ _) as [[o1 s1] res] eqn:He. intros [= <- <-]. by eapply erase_marks_alone.
  - destruct (RaiseDeviceRisk _ _ _ _ _ _) as [[o1 s1] [res err]] eqn:Hr. intros [= <- <-]. by eapply raise_alone.
Qed.

Lemma shared_durable o stored w id severity o' stored' res err :
  raiseSharedDeviceRiskLocked o stored w id severity = (o', stored', (res, err)) → durable res → err = None.
Proof.
  unfold raiseSharedDeviceRiskLocked. cbv zeta. set (row := match stored with Some data => _ | None => _ end).
  destruct w, row; intros [= <- <- <- <-] Hd; try done; by destruct Hd.
Qed.

(** *** Reading the row *)

Lemma take_wf b o f pend moved flag old :
  canonicalMarks (rf_Devices f) → canonicalUsers (rf_Users f) → canonicalMarks (rf_LegacyUnattributed f) → canonicalMarks pend →
  wellFormed b ((takeMarks ((if moved : bool then rbump o else o) <| automaticPending := pend |>) f)
    <| legacy := old |> <| rpersister := b |> <| loadErr := None |> <| riskSavePending := flag |>).
Proof. intros. split; try done; by destruct moved. Qed.

Lemma decoded_row data f :
  decodeRiskSnapshot data = Some f →
  String.eqb (rf_SchemaVersion f) firstSchemaVersion && negb (Nat.eqb (size (rf_Devices f)) 0) = false →
  readRow data = Some (f <| rf_SchemaVersion := highRiskOverlayStateSchemaVersion |>).
Proof.
  intros Hd Hold. unfold readRow. rewrite Hd. cbn [mbind option_bind].
  assert (rf_SchemaVersion f = firstSchemaVersion ∨ rf_SchemaVersion f = highRiskOverlayStateSchemaVersion) as [Hv|Hv];
    [|rewrite Hv in *; cbn in *; by rewrite Hold|by rewrite Hv].
  destruct data as [|j]; [done|]. unfold decodeRiskSnapshot in Hd. apply bind_Some in Hd as (fields & _ & Hd).
  destruct (negb _); [done|]. apply bind_Some in Hd as (schema & _ & Hd). cbv zeta in Hd.
  destruct (String.eqb_spec schema highRiskOverlayStateSchemaVersion) as [Hs|Hs], (String.eqb_spec schema firstSchemaVersion) as [Hs'|Hs'];
    cbn [negb andb] in Hd; try done;
    apply bind_Some in Hd as (? & _ & Hd); apply bind_Some in Hd as (? & _ & Hd); apply bind_Some in Hd as (? & _ & Hd);
    apply bind_Some in Hd as (? & _ & [= <-]); cbn; auto.
Qed.

(** A promotion: the pending detections are merged into what is read. *)
Lemma reload_row o loaded o' r k :
  wellFormed Updating o → ready (restoreRisk o Updating loaded true) = Some o' →
  wellFormed Updating o' ∧ (∀ d, loaded = Some d → keptRisk r k o d ∨ rowRisk r k d → keptRisk r k o' d).
Proof.
  intros Hw. unfold restoreRisk. destruct loaded as [[data|]|]; [|..|done].
  - destruct (decodeRiskSnapshot data) as [f|] eqn:Hd; [|done]. cbn [andb]. set (old := String.eqb _ _ && _).
    destruct old eqn:Hold; [done|]. cbv zeta. cbn [ready]. intros [= <-].
    pose proof (decoded_row _ _ Hd Hold) as Hrow. apply decodeRisk_canonical in Hd as (Hcd & Hcu & Hcl).
    destruct (merged_devices (automaticPending o) (rf_Devices f)) as (H1 & H2 & H3).
    fold (rf_Devices (mergeAutomaticPending o f)) in H1, H2, H3.
    change (map_fold _ (rf_Devices f) (automaticPending o)) with (rf_Devices (mergeAutomaticPending o f)) in H1, H2, H3.
    split; [apply take_wf; [apply H3; [done|apply (wf_pending _ _ Hw)]|done|done|apply (wf_pending _ _ Hw)]|].
    intros d [= <-] Hk.
    assert (atLeast r k (automaticPending o) ∨ rowRisk r k (Some data)) as Hor.
    { destruct Hk as [[_ Hk]|Hk]; [by apply Hk, (wf_backing _ _ Hw)|by right]. }
    split; [|by intros _]. unfold atLeast. destruct Hor as [Hp|(data' & f' & [= <-] & Hf' & Hid)]; [etrans; [exact Hp|apply H2]|].
    rewrite Hrow in Hf'. injection Hf' as <-. etrans; [exact Hid|apply H1].
  - destruct (true && _); [done|]. destruct (loadErr o); [done|]. cbn [ready]. intros [= <-]. split; [by destruct Hw|].
    intros d [= <-] [[Hl Hk]|(? & ? & [=] & _)]. split; [exact Hl|]. intros _. by apply Hk, (wf_backing _ _ Hw).
Qed.

(** A start. *)
Lemma boot_row b stored o r k :
  boot b stored = Some o → wellFormed b o ∧ (rowKeeps b r k stored → keptRisk r k o stored).
Proof.
  assert (wellFormed Memory NewHighRiskOverlay) as Hnew.
  { split; try done.
    unfold indexed, userIndexOf. cbn [users NewHighRiskOverlay]. rewrite map_to_list_empty. pose proof (iterate_perm (@nil (string * UserRisk))) as Hn.
    by apply Permutation_nil_r in Hn as ->. }
  cbn [boot riskPlane]. unfold SetRiskPersister. rewrite bind_Some. intros (o1 & Hr & Ho).
  destruct (legacy o1) eqn:Hleg; [done|]. injection Ho as ->.
  destruct (decide (b = Memory)) as [-> |Hm]; [injection Hr as <-; split; [by destruct Hnew|by intros [? _]]|].
  assert (ready (match stored with
    | None => (NewHighRiskOverlay <| rpersister := b |> <| riskSavePending := false |>, None)
    | Some data => match decodeRiskSnapshot data with
        | None => unavailable NewHighRiskOverlay ErrInvalidRiskSnapshot
        | Some f =>
            let old := String.eqb (rf_SchemaVersion f) firstSchemaVersion && negb (Nat.eqb (size (rf_Devices f)) 0) in
            ((takeMarks ((if riskMoved NewHighRiskOverlay f || negb (Bool.eqb false old) then rbump NewHighRiskOverlay else NewHighRiskOverlay)
                <| automaticPending := ∅ |>) f) <| legacy := old |> <| rpersister := b |> <| loadErr := None |>
                <| riskSavePending := false |>, None)
        end
    end) = Some o) as Hr' by (rewrite <- Hr; by destruct b, stored). clear Hr.
  destruct stored as [data|].
  - destruct (decodeRiskSnapshot data) as [f|] eqn:Hd; [|done]. cbv zeta in Hr'. cbn [ready] in Hr'.
    set (old := String.eqb _ _ && _) in *. injection Hr' as <-. change (old = false) in Hleg.
    pose proof (decoded_row _ _ Hd Hleg) as Hrow. apply decodeRisk_canonical in Hd as (Hcd & Hcu & Hcl).
    split; [apply take_wf; [done..|apply canonical_none]|].
    intros [_ Hk]. split; [|by right]. destruct Hk as (data' & f' & [= <-] & Hf' & Hid). rewrite Hrow in Hf'. by injection Hf' as <-.
  - injection Hr' as <-. split; [by destruct Hnew|]. by intros [_ (? & ? & [=] & _)].
Qed.

(** Only a shared row is read again. *)
Lemma reload_alone b o d o' : wellFormed b o → ready (restoreRisk o b (Some d) true) = Some o' → wellFormed b o'.
Proof.
  intros Hw. destruct (decide (b = Updating)) as [-> |Hb]; [by intros Hr; destruct (reload_row _ _ _ 0 "" Hw Hr)|].
  unfold restoreRisk. destruct (decide (b = Memory)) as [-> |Hm].
  { destruct (loadErr o); [done|]. intros [= <-]. destruct Hw. by split. }
  assert (∀ A (x y : A), match b with Memory => x | _ => y end = y) as -> by (intros; by destruct b).
  destruct d as [data|].
  - destruct (decodeRiskSnapshot data) as [f|] eqn:Hd; [|done]. cbn [andb]. destruct (_ && _); [done|]. cbv zeta. cbn [ready]. intros [= <-].
    apply decodeRisk_canonical in Hd as (Hcd & Hcu & Hcl). pose proof (wf_pending _ _ Hw) as Hp.
    destruct (merged_devices (automaticPending o) (rf_Devices f)) as (_ & _ & H3).
    apply take_wf; [by apply H3|done..].
  - destruct (_ && _); [done|]. destruct (loadErr o); [done|]. intros [= <-]. destruct Hw. by split.
Qed.

Lemma at_least_high o device r :
  0 < r → atLeast r (NormalizeDeviceID device) (devices o) → ∃ now, IsHighRisk o device = Some now ∧ r ≤ riskRank now.
Proof.
  intros Hr. unfold atLeast, IsHighRisk, worse. cbv zeta. set (id := NormalizeDeviceID device).
  set (raw := severityOf (legacyUnattributed o) id). intros Hk.
  destruct (Z.ltb_spec (riskRank (severityOf (devices o) id)) (riskRank raw)); [exists raw; split; [done|lia]|].
  unfold severityOf in Hk. destruct (devices o !! id) as [now|]; [by exists now|]. change (riskRank (default "" None)) with 0 in Hk. lia.
Qed.

Lemma applied_severity o stored w weak device severity o' stored' res err :
  RaiseDeviceRisk o stored w weak device severity = (o', stored', (res, err)) → au_Applied res = true →
  0 < riskRank (to_lower (trim_space severity)).
Proof.
  unfold RaiseDeviceRisk. cbv zeta. destruct (_ || _) eqn:Hg; [by intros [= _ _ <- _]|]. intros _ _.
  apply orb_false_elim in Hg as [_ Hs%severity_rank]. pose proof (riskRank_nonneg (to_lower (trim_space severity))). lia.
Qed.

Lemma applied_device o stored w weak device severity o' stored' res err :
  RaiseDeviceRisk o stored w weak device severity = (o', stored', (res, err)) → au_Applied res = true →
  NormalizeDeviceID device ≠ "".
Proof.
  unfold RaiseDeviceRisk. cbv zeta. destruct (_ || _) eqn:Hg; [by intros [= _ _ <- _]|]. intros _ _.
  by apply orb_false_elim in Hg as [He%nonempty_device _].
Qed.

(** *** Pulled feeds *)

Lemma pulled_rows r k (rows : list (string * string)) : ∀ fresh,
  k ≠ "" →
  (∀ row, row ∈ rows → NormalizeDeviceID row.1 ≠ "" → riskRank (to_lower (trim_space row.2)) ≠ 0) →
  (∀ row, row ∈ rows → NormalizeDeviceID row.1 = k → r ≤ riskRank (to_lower (trim_space row.2))) →
  canonicalMarks fresh →
  atLeast r k fresh ∨ (∃ row, row ∈ rows ∧ NormalizeDeviceID row.1 = k) →
  let fresh' := foldl (fun fresh row => let id := NormalizeDeviceID row.1 in
      if is_empty id then fresh else <[id := to_lower (trim_space row.2)]> fresh) fresh rows in
  canonicalMarks fresh' ∧ atLeast r k fresh'.
Proof.
  induction rows as [|[k' s] rows IH]; intros fresh Hk Hknown Hr Hc Hin; cbn [foldl].
  { split; [done|]. destruct Hin as [|(? & ?%elem_of_nil & _)]; done. }
  cbv zeta in *. apply IH; [done|intros row ?; by apply Hknown; right|intros row ?; by apply Hr; right|..].
  - destruct (is_empty _) eqn:He; [done|]. cbn [fst snd]. apply nonempty_device in He.
    apply canonical_insert; [done|apply trim_space_idemp|by apply (Hknown (k', s)); [left|]|done].
  - cbn [fst snd] in *. destruct Hin as [Hin|(row & [->|Hrow]%elem_of_cons & Hid)]; [left|left|right; by exists row].
    + destruct (is_empty _) eqn:He; [done|]. destruct (decide (NormalizeDeviceID k' = k)) as [<-|Hne].
      * unfold atLeast. rewrite severity_insert. by apply (Hr (k', s)); [left|].
      * unfold atLeast. by rewrite severity_insert_ne.
    + cbn [fst] in Hid. rewrite Hid. destruct (is_empty k) eqn:He; [by apply is_empty_true in He|].
      unfold atLeast. rewrite severity_insert. by apply (Hr (k', s)); [left|].
Qed.

Lemma pulled_devices r k o pulled b :
  k ≠ "" → wellFormed b o → names_still r k pulled →
  wellFormed b (ReplaceSyncedDevices o pulled) ∧ atLeast r k (devices (ReplaceSyncedDevices o pulled)).
Proof.
  intros Hk [Hb Hd Hu Hl Ha Hix] (Hknown & (k0 & s0 & Hin & Hid) & Hr).
  assert (∀ row, row ∈ iterate (map_to_list pulled) ↔ pulled !! row.1 = Some row.2) as Hrows.
  { intros [x y]. rewrite (iterate_perm (map_to_list pulled)). apply elem_of_map_to_list. }
  destruct (pulled_rows r k (iterate (map_to_list pulled)) ∅ Hk) as [Hc Hat].
  - intros row ?%Hrows. by apply Hknown.
  - intros row ?%Hrows. by apply Hr.
  - apply canonical_none.
  - right. exists (k0, s0). split; [by apply Hrows|done].
  - split; [|exact Hat]. by split.
Qed.

Lemma pulled_users_canonical marks : ∀ fresh fresh',
  canonicalUsers fresh → freshUsers marks fresh = Ok fresh' → canonicalUsers fresh'.
Proof.
  induction marks as [|u marks IH]; intros fresh fresh' Hc; cbn [freshUsers]; [by intros [= <-]|].
  destruct (normalizeUserRisk u) as [n|] eqn:Hn; [|done]. destruct (Z.eqb_spec (riskRank (ur_Severity n)) 0) as [|Hr]; [done|].
  destruct (fresh !! _); [done|]. apply IH. intros key v [[<- <-]|[_ Hv]]%lookup_insert_Some; [|by apply Hc].
  split_and!; [done|by eapply normalizeUserRisk_idemp|done].
Qed.

Lemma pulled_users b o pulled unresolved (o' := (ReplaceSyncedUserRisks o pulled unresolved).1) :
  wellFormed b o → wellFormed b o' ∧ devices o' = devices o ∧ automaticPending o' = automaticPending o.
Proof.
  intros Hw. unfold o', ReplaceSyncedUserRisks. destruct (freshUsers pulled ∅) as [fresh|] eqn:Hf; [|done].
  destruct (forallb _ _) eqn:Hv; cbn; [|done]. split; [|done].
  pose proof (pulled_users_canonical _ _ _ users_none Hf) as Hu. destruct Hw. split; try done.
  intros id s Hs. rewrite forallb_forall in Hv. specialize (Hv (id, s)). rewrite <- list_elem_of_In, elem_of_map_to_list in Hv.
  specialize (Hv Hs). unfold validLegacyRow in Hv. cbn in Hv. apply andb_true_iff in Hv as [[Hn Hid]%andb_true_iff Hr].
  apply String.eqb_eq in Hid. apply negb_true_iff, severity_rank in Hr. split_and!; [|by symmetry|done].
  intros ->. by vm_compute in Hn.
Qed.

(** *** Histories *)

Lemma happen_on_row o stored w e o' stored' r k :
  k ≠ "" → wellFormed Updating o → spares r k e → happen o stored w e = (o', stored') →
  wellFormed Updating o' ∧ concludedRisk r k o stored o' stored'.
Proof.
  intros Hk Hw Hsp. destruct e as [x|pulled|pulled unresolved]; cbn [happen spares] in *.
  - by apply perform_on_row.
  - intros [= <- <-]. destruct (pulled_devices _ _ _ _ _ Hk Hw Hsp). split; [done|by apply ended_idle].
  - intros [= <- <-]. destruct (pulled_users _ _ pulled unresolved Hw) as (? & Hd & Hp). split; [done|].
    apply ended_idle; [by rewrite Hd|by rewrite Hp].
Qed.

Lemma happen_as_owner b o stored w e o' stored' r k :
  k ≠ "" → b ≠ Updating → wellFormed b o → spares r k e → happen o stored w e = (o', stored') → settled b r k o stored o' stored'.
Proof.
  intros Hk Hb Hw Hsp. destruct e as [x|pulled|pulled unresolved]; cbn [happen spares] in *.
  - by apply perform_as_owner.
  - intros [= <- <-]. destruct (pulled_devices _ _ _ _ _ Hk Hw Hsp). by split.
  - intros [= <- <-]. destruct (pulled_users _ _ pulled unresolved Hw) as (? & Hd & _). split; [done|]. by rewrite Hd.
Qed.

Lemma happen_marks b o stored w e o' stored' r k :
  k ≠ "" → wellFormed b o → spares r k e → happen o stored w e = (o', stored') → wellFormed b o'.
Proof.
  intros Hk Hw Hsp Hp. destruct (decide (b = Updating)) as [-> |Hb].
  - by destruct (happen_on_row _ _ _ _ _ _ r k Hk Hw Hsp Hp).
  - by destruct (happen_as_owner _ _ _ _ _ _ _ r k Hk Hb Hw Hsp Hp).
Qed.

Lemma concluded_risk_row r id o stored o' stored' :
  concludedRisk r id o stored o' stored' → rowRisk r id stored → rowRisk r id stored'.
Proof. apply ended_row. intros f. apply marshal_risk. Qed.

Lemma risk_keeper b r id : id ≠ "" → keeper b (wellFormed b) (spares r id) (keptRisk r id) (rowKeeps b r id).
Proof.
  intros Hid. split.
  - intros o d w x o' d' Hw Hsp Ha. by eapply happen_marks.
  - intros o d o' Hw Hr. cbn in Hr. unfold ReloadRiskFromStore in Hr. rewrite (wf_backing _ _ Hw) in Hr.
    destruct (decide (b = Updating)) as [-> |Hb]; [by destruct (reload_row _ _ _ r id Hw Hr)|].
    by destruct (reload_alone b o d o' Hw Hr).
  - intros d o Hb. by destruct (boot_row _ _ _ r id Hb).
  - intros o d w x o' d' Hw Hsp [Hl Hp] Ha. destruct (decide (b = Updating)) as [-> |Hb].
    + destruct (happen_on_row _ _ _ _ _ _ r id Hid Hw Hsp Ha) as [Hw' He].
      destruct (ended_kept _ _ _ _ _ _ (marshal_risk r id) _ _ _ _ He Hl (Hp (wf_backing _ _ Hw))). by split.
    + destruct (happen_as_owner _ _ _ _ _ _ _ r id Hid Hb Hw Hsp Ha) as (Hw' & Hk). split; [by apply Hk|].
      by rewrite (wf_backing _ _ Hw').
  - intros t o d w x o' d' -> Hw Hsp [Hl Hp] Ha. split; [done|]. intros Hb.
    destruct (Hp Hb) as [|Hr]; [by left|right]. by eapply concluded_risk_row; [by eapply happen_on_row|].
  - intros o d o' -> Hw Hk Hr. cbn in Hr. unfold ReloadRiskFromStore in Hr. rewrite (wf_backing _ _ Hw) in Hr.
    destruct (reload_row _ _ _ r id Hw Hr) as [_ Hr']. by apply Hr'; [|left].
  - intros o d w x o' d' Hw Hsp Hk [Hm Hr] Ha. split; [done|]. destruct (decide (b = Updating)) as [-> |Hb].
    + by eapply concluded_risk_row; [by eapply happen_on_row|].
    + destruct Hk as [|[Hl _]]; [done|]. destruct (happen_as_owner _ _ _ _ _ _ _ r id Hid Hb Hw Hsp Ha) as (_ & Hk).
      by apply Hk.
  - intros o d o' -> Hw [_ Hrow] Hr. cbn in Hr. unfold ReloadRiskFromStore in Hr. rewrite (wf_backing _ _ Hw) in Hr.
    destruct (reload_row _ _ _ r id Hw Hr) as [_ Hr']. by apply Hr'; [|right].
  - intros d o Hrow Hb. by destruct (boot_row _ _ _ r id Hb) as [_ H']; apply H'.
Qed.

(** A detection is held by the process, and saved where its answer says so. *)
Lemma raise_applies b o stored w weak device severity o' stored' res err (id := NormalizeDeviceID device)
    (sev := to_lower (trim_space severity)) :
  wellFormed b o → RaiseDeviceRisk o stored w weak device severity = (o', stored', (res, err)) → au_Applied res = true →
  wellFormed b o' ∧ keptRisk (riskRank sev) id o' stored' ∧ (durable res → rowKeeps b (riskRank sev) id stored').
Proof.
  intros Hw Hr Ha. destruct (decide (b = Updating)) as [-> |Hb].
  - unfold RaiseDeviceRisk in Hr. fold id sev in Hr. cbv zeta in Hr. destruct (_ || _) eqn:Hg; [by injection Hr as _ _ <- _|].
    apply orb_false_elim in Hg as [He Hs]. destruct (isUnavailable o); [by injection Hr as _ _ <- _|].
    rewrite (wf_backing _ _ Hw) in Hr.
    destruct (raise_shared _ _ _ _ _ _ _ _ _ 0 id Hw (nonempty_device _ He) (trim_space_idemp _) (severity_rank _ Hs) Hr)
      as (Hw' & _ & Hk & Hrow).
    split_and!; [done..|]. intros Hd. split; [done|]. by eapply Hrow, shared_durable.
  - destruct (raise_alone _ _ _ _ _ _ _ 0 id _ _ _ _ Hb Hw Hr) as ([Hw' _] & Hk). destruct (Hk Ha) as [Hl Hrow].
    split_and!; [done|split; [done|by rewrite (wf_backing _ _ Hw')]|done].
Qed.

End fleet.

(** (C23) A device that a detection raised stays at least that severe: on the process that
    raised it, saved or not, over every history of changes to other devices, users and
    unattributed marks, of further detections, of pulled user feeds, failed commits and
    promotions in which it is not restarted; and, where the answer said that the mark is saved,
    on every process that has read the row since.  That ends when an administrator changes or
    erases that very device, or when a pulled device feed leaves the device out, has it less
    severe or has a severity that is not known: a pull replaces what the process itself has
    found, so the histories have only the pulls that still name the device. *)
Theorem raised_device_stays_raised `{MapOrder} b f p o device severity weak w o' d' res err f' j t
    (id := NormalizeDeviceID device) :
  owners b f → all_planes (wellFormed b) f → planes f !! p = Some o →
  RaiseDeviceRisk o (disk f) w weak device severity = (o', d', (res, err)) → au_Applied res = true →
  asked b (spares (riskRank (to_lower (trim_space severity))) id) p j (durable res) (put f p o' d') f' →
  planes f' !! j = Some t →
  ∃ now, IsHighRisk t device = Some now ∧ riskRank (to_lower (trim_space severity)) ≤ riskRank now.
Proof.
  intros Ho Hf Hp Hr Ha Hasked Hj. destruct (raise_applies _ _ _ _ _ _ _ _ _ _ _ (Hf p o Hp) Hr Ha) as (Hw & Hk & Hrow).
  apply (at_least_high t device _ (applied_severity _ _ _ _ _ _ _ _ _ _ Hr Ha)).
  eapply (asked_kept (risk_keeper b _ _ (applied_device _ _ _ _ _ _ _ _ _ _ Hr Ha))); [done..|exact Hw|exact Hk|exact Hrow|exact Hasked|done].
Qed.


(** ** Two control planes *)

Section examples.

#[local] Instance plainOrder : MapOrder := { iterate A l := l; iterate_perm A l := reflexivity l }.

Definition alice : UserRisk := mkUserRisk "acme" "alice" ["alice"; "alice@acme"] "high".
Definition aliceKey : string := userRiskKey "acme" "alice".

Definition savedMarks : highRiskOverlayStateFile :=
  mkStateFile highRiskOverlayStateSchemaVersion {["laptop-7" := "high"]} {[aliceKey := alice]} {["bob" := "critical"]}.

Definition shared : HighRiskOverlay := NewHighRiskOverlay <| rpersister := Updating |>.
Definition marked : HighRiskOverlay := takeMarks shared savedMarks.
Definition raisedPair : fleet (S := HighRiskOverlay) (D := payload) := mkFleet [shared; shared] None.

Definition raiseOut := RaiseDeviceRisk shared None Written false " laptop-7 " "High".

Lemma singleton_marks id severity :
  id ≠ "" → trim_space id = id → riskRank severity ≠ 0 → canonicalMarks {[id := severity]}.
Proof. intros ? ? ? k v [<- <-]%lookup_singleton_Some. done. Qed.

Lemma alice_canonical : canonicalUsers {[aliceKey := alice]}.
Proof. intros k v [<- <-]%lookup_singleton_Some. split; [done|]. by vm_compute. Qed.

Lemma savedMarks_canonical : canonicalRisk savedMarks.
Proof. split; [done|by apply singleton_marks|apply alice_canonical|by apply singleton_marks]. Qed.

Lemma shared_wf : wellFormed Updating shared.
Proof. by split. Qed.

Lemma raisedPair_wf : all_planes (wellFormed Updating) raisedPair.
Proof. intros [|[|i]] s; [by intros [= <-]; apply shared_wf..|]. by destruct i. Qed.

Lemma risk_snapshot_round_trip_witness : decodeRiskSnapshot (marshalRisk savedMarks) = Some savedMarks.
Proof. refine (risk_snapshot_round_trip savedMarks savedMarks_canonical). Defined.

(** Alice is found by her other subject. *)
Lemma user_severity_is_the_worst_witness :
  ∃ sev, UserSeverity marked " acme " "alice@acme" = Some sev ∧ 2 ≤ riskRank sev.
Proof.
  refine (proj1 (user_severity_is_the_worst marked " acme " "alice@acme" eq_refl alice_canonical _) alice _).
  - vm_compute. reflexivity.
  - split; [exists aliceKey; vm_compute; reflexivity|]. split; [vm_compute; reflexivity|].
    change (trim_space "alice@acme") with "alice@acme". right. left.
Defined.

(** The other process is promoted after the answer. *)
Lemma raised_device_stays_raised_witness :
  ∃ t, ready (ReloadRiskFromStore shared (Some raiseOut.1.2)) = Some t ∧
    ∃ now, IsHighRisk t " laptop-7 " = Some now ∧ 2 ≤ riskRank now.
Proof.
  destruct (ready (ReloadRiskFromStore shared (Some raiseOut.1.2))) as [t|] eqn:Ht; [|exfalso; vm_compute in Ht; discriminate].
  exists t. split; [reflexivity|].
  refine (raised_device_stays_raised Updating raisedPair 0 shared " laptop-7 " "High" false Written raiseOut.1.1 raiseOut.1.2
    raiseOut.2.1 None (put (put raisedPair 0 raiseOut.1.1 raiseOut.1.2) 1 t raiseOut.1.2) 1 t
    (or_introl eq_refl) raisedPair_wf eq_refl _ _ (or_intror (conj (or_introl _) (or_intror _))) eq_refl).
  - vm_compute. reflexivity.
  - vm_compute. reflexivity.
  - vm_compute. reflexivity.
  - exists (put raisedPair 0 raiseOut.1.1 raiseOut.1.2), (put (put raisedPair 0 raiseOut.1.1 raiseOut.1.2) 1 t raiseOut.1.2), Reload.
    split; [left; reflexivity|]. split; [apply rtc_refl|]. split; [|apply rtc_refl].
    apply (step_reload (H := riskPlane) Updating (put raisedPair 0 raiseOut.1.1 raiseOut.1.2) 1 shared t eq_refl eq_refl Ht).
Defined.

(** A detection whose commit failed protects at once, and the next edit of any target saves it. *)
Example unsaved_detection_is_carried :
  let out := RaiseDeviceRisk shared None (WriteFailed false) false "laptop-7" "critical" in
  out.2 = (mkAutomatic "critical" true true Unconfirmed, Some ErrRiskSave) ∧ out.1.2 = None ∧
  IsHighRisk out.1.1 "laptop-7" = Some "critical" ∧
  (let next := RaiseDeviceRisk out.1.1 None Written false "phone-1" "medium" in
   (d ← next.1.2; f ← readRow d; rf_Devices f !! "laptop-7") = Some "critical").
Proof. vm_compute. done. Qed.

(** *** Where the code departs from its comments *)

Definition markOf (id : string) (stored : option payload) : option string :=
  d ← stored; f ← readRow d; rf_Devices f !! id.

(** A process that has not read the row since an administrator cleared the device elsewhere
    brings the old severity back on a weaker detection, though its cache is said to certify no
    severity. *)
Example stale_cache_raises_a_cleared_device :
  let raised := RaiseDeviceRisk shared None Written false "laptop-7" "critical" in
  let read := (ReloadRiskFromStore shared (Some raised.1.2)).1 in
  let cleared := SetDeviceRiskContext read raised.1.2 Written false "laptop-7" "none" in
  let again := RaiseDeviceRisk raised.1.1 cleared.1.2 Written false "laptop-7" "medium" in
  markOf "laptop-7" cleared.1.2 = None ∧
  again.2 = (mkAutomatic "critical" true false Saved, None) ∧
  markOf "laptop-7" again.1.2 = Some "critical".
Proof. vm_compute. done. Qed.

(** A pull replaces what the process has found itself, as [docs/maintenance.md] says: the
    detection of an Edge, saved or not, is gone with the next feed that does not name the
    device. *)
Example pull_drops_a_detection :
  let edge := NewHighRiskOverlay <| rpersister := Plain |> in
  let raised := RaiseDeviceRisk edge None Written false "laptop-7" "critical" in
  raised.2 = (mkAutomatic "critical" true true Saved, None) ∧
  IsHighRisk raised.1.1 "laptop-7" = Some "critical" ∧
  IsHighRisk (happen raised.1.1 raised.1.2 Written (PullDevices {["phone-1" := "medium"]})).1 "laptop-7" = None.
Proof. vm_compute. done. Qed.

(** When the row has disappeared an administrative change is refused, but a detection writes a
    new row with only what is pending, and drops every other mark of the process. *)
Example detection_over_a_lost_row_drops_marks :
  let first := RaiseDeviceRisk shared None Written false "laptop-7" "critical" in
  (SetDeviceRiskContext first.1.1 None Written false "phone-1" "medium").2 = Err ErrRiskSave ∧
  (let second := RaiseDeviceRisk first.1.1 None Written false "phone-1" "medium" in
   second.2.2 = None ∧ IsHighRisk second.1.1 "laptop-7" = None ∧ markOf "laptop-7" second.1.2 = None).
Proof. vm_compute. done. Qed.

End examples.

End HighRiskFleet.
