(* ===== verification/RevocationFeed.v ===== *)
(** * The feed of kill-switches and risk marks ([src/cmd/dsse-edge/revocation_sync.go])

    A control plane serves what it blocks and marks as one document
    ([GET /admin/revocations], [admin_device_admission_routes.go]); every edge pulls it every
    two seconds and takes it over when it is newer.  The handler reads the two stores one after
    the other, each under its own lock, so it is given as the steps between which they may
    change.  A fetch is its outcome: the document, or an error. *)

From stdpp Require Import base gmap fin_maps list strings.
From S2P Require Import Prelude Trimmed GoStd Persistence Admission HighRisk.
Import Admission HighRisk.

Open Scope Z_scope.

Module RevocationFeed.

Record revocationFeed := mkFeed {
  fd_Generation : Z;                                (* uint64 *)
  fd_Epoch : string;
  fd_Revoked : gmap string string;
  fd_HighRisk : gmap string string;
  fd_UserRiskVersion : Z;
  fd_UserRisk : list UserRisk;
  fd_LegacyRiskVersion : Z;
  fd_LegacyUnattributed : gmap string string;
  fd_Authoritative : bool;
}.

#[export] Instance feed_eta : Etaable revocationFeed := fun f =>
  mkFeed (fd_Generation f) (fd_Epoch f) (fd_Revoked f) (fd_HighRisk f) (fd_UserRiskVersion f) (fd_UserRisk f)
    (fd_LegacyRiskVersion f) (fd_LegacyUnattributed f) (fd_Authoritative f).

(** ** Serving *)

(** A process that answers: its stores, which may be absent, the identifier of its start, and
    whether it is a control plane and, where there is an election, the leader. *)
Record server := mkServer {
  sv_AdmissionRevocations : option AdmissionRevocations;
  sv_HighRiskOverlay : option HighRiskOverlay;
  sv_Epoch : string;
  sv_IsControlPlane : bool;
  sv_IsLeader : option bool;
  sv_TenantID : string;
}.

#[export] Instance server_eta : Etaable server := fun s =>
  mkServer (sv_AdmissionRevocations s) (sv_HighRiskOverlay s) (sv_Epoch s) (sv_IsControlPlane s) (sv_IsLeader s)
    (sv_TenantID s).

(** Who asks: no identity, or the tenant of a credential and whether it answers for the whole
    deployment. *)
Definition caller := option (string * bool).

Definition admissionReadRefusedOnAStandby (s : server) : bool :=
  sv_IsControlPlane s && negb (default true (sv_IsLeader s)).

Definition callerRefused (s : server) (c : caller) : bool :=
  match c with
  | None => false
  | Some (tenant, wholeDeployment) =>
      let tenant := trim_space tenant in
      let node := trim_space (sv_TenantID s) in
      nonempty tenant && nonempty node && negb (equal_fold tenant node) && negb wholeDeployment
  end.

(** Where the handler is. *)
Inductive stage :=
  | Received | GenerationRead | BlocksRead | RiskGenerationRead | RiskRead | LegacyRead | Served.

#[export] Instance stage_eq_dec : EqDecision stage.
Proof. solve_decision. Defined.

Definition emptyFeed : revocationFeed := mkFeed 0 "" ∅ ∅ 0 [] 0 ∅ false.

Section feed.
Context `{MapOrder}.

(** The next read; [None] is an error answer. *)
Definition serveStep (s : server) (c : caller) (at_ : stage) (feed : revocationFeed)
    : option (stage * revocationFeed) :=
  match at_ with
  | Received =>
      if callerRefused s c || admissionReadRefusedOnAStandby s then None
      else Some (GenerationRead,
        mkFeed (match sv_AdmissionRevocations s with Some a => ConfigGeneration a | None => 0 end) (sv_Epoch s)
          ∅ ∅ 0 [] 0 ∅ (sv_IsControlPlane s))
  | GenerationRead =>
      Some (BlocksRead, match sv_AdmissionRevocations s with
                        | Some a => feed <| fd_Revoked := FeedSnapshot a |>
                        | None => feed
                        end)
  | BlocksRead =>
      match sv_HighRiskOverlay s with
      | None => Some (Served, feed)
      | Some o => Some (RiskGenerationRead, feed <| fd_Generation := (fd_Generation feed + rgeneration o) mod 2 ^ 64 |>)
      end
  | RiskGenerationRead =>
      match sv_HighRiskOverlay s with
      | None => None
      | Some o =>
          match CheckedSnapshot o with
          | Err _ => None
          | Ok (devices, users) =>
              Some (RiskRead, feed <| fd_HighRisk := devices |> <| fd_UserRiskVersion := 1 |>
                                   <| fd_UserRisk := users |> <| fd_LegacyRiskVersion := 1 |>)
          end
      end
  | RiskRead =>
      match sv_HighRiskOverlay s with
      | None => None
      | Some o => Some (LegacyRead, feed <| fd_LegacyUnattributed := LegacyUnattributedSnapshot o |>)
      end
  | LegacyRead =>
      match sv_HighRiskOverlay s with
      | None => None
      | Some o => Some (Served, feed <| fd_HighRisk := RiskSnapshot o ∪ fd_HighRisk feed |>)
      end
  | Served => None
  end.

(** The answer over the states that the reads find. *)
Fixpoint serveOver (states : list server) (c : caller) (at_ : stage) (feed : revocationFeed) : option revocationFeed :=
  match at_, states with
  | Served, _ => Some feed
  | _, [] => None
  | _, s :: states => next ← serveStep s c at_ feed; serveOver states c next.1 next.2
  end.

(** An answer while nothing changes: six reads. *)
Definition serveRevocations (s : server) (c : caller) : option revocationFeed :=
  serveOver (replicate 6 s) c Received emptyFeed.

(** ** Taking it over *)

Inductive feed_error :=
  | UnsupportedUserRiskVersion | UnsupportedLegacyRiskVersion | LegacyRiskVersionMissing
  | LegacyNeedsUserRisk | UserRiskVersionMissing | LocalRiskNotReady | RiskRejected (e : risk_error).

Definition Health (o : HighRiskOverlay) : option risk_error := healthLocked o.

Definition applyUserRiskFeed (overlay : option HighRiskOverlay) (feed : revocationFeed)
    : result feed_error (option HighRiskOverlay) :=
  let users := fd_UserRiskVersion feed in
  let legacy := fd_LegacyRiskVersion feed in
  if negb (users =? 0) && negb (users =? 1) && negb (users =? 2) then Err UnsupportedUserRiskVersion
  else if negb (legacy =? 0) && negb (legacy =? 1) then Err UnsupportedLegacyRiskVersion
  else if negb (Nat.eqb (size (fd_LegacyUnattributed feed)) 0) && negb (legacy =? 1) && negb (users =? 2)
  then Err LegacyRiskVersionMissing
  else if (legacy =? 1) && negb (users =? 1) then Err LegacyNeedsUserRisk
  else if users =? 0 then
    if negb (Nat.eqb (length (fd_UserRisk feed)) 0) then Err UserRiskVersionMissing else Ok overlay
  else match overlay with
  | None => Ok None
  | Some o =>
      match Health o with
      | Some _ => Err LocalRiskNotReady
      | None =>
          if Nat.eqb (length (fd_UserRisk feed)) 0 && Nat.eqb (size (fd_LegacyUnattributed feed)) 0
             && negb (fd_Authoritative feed) then Ok overlay
          else
            let unresolved := if (legacy =? 0) && negb (users =? 2) then LegacyUnattributedSnapshot o
                              else fd_LegacyUnattributed feed in
            match ReplaceSyncedUserRisks o (fd_UserRisk feed) unresolved with
            | (o', None) => Ok (Some o')
            | (_, Some e) => Err (RiskRejected e)
            end
      end
  end.

(** What the loop has managed to do; a time that was never set is [None]. *)
Inductive pull_error := FetchFailed | RiskStateNotReady | FeedRejected (e : feed_error).

Record revocationSyncStatus := mkStatus {
  st_haveApplied : bool;
  st_lastAppliedAt : option Z;
  st_lastGeneration : Z;
  st_lastCount : nat;
  st_lastPollAt : option Z;
  st_lastError : option pull_error;
  st_lastErrorAt : option Z;
  st_consecutiveFail : Z;
}.

#[export] Instance status_eta : Etaable revocationSyncStatus := fun s =>
  mkStatus (st_haveApplied s) (st_lastAppliedAt s) (st_lastGeneration s) (st_lastCount s) (st_lastPollAt s)
    (st_lastError s) (st_lastErrorAt s) (st_consecutiveFail s).

Definition recordFailure (s : revocationSyncStatus) (e : pull_error) (now : Z) : revocationSyncStatus :=
  s <| st_lastPollAt := Some now |> <| st_lastError := Some e |> <| st_lastErrorAt := Some now |>
    <| st_consecutiveFail := st_consecutiveFail s + 1 |>.

Definition recordApplied (s : revocationSyncStatus) (generation : Z) (count : nat) (now : Z) : revocationSyncStatus :=
  s <| st_lastPollAt := Some now |> <| st_haveApplied := true |> <| st_lastAppliedAt := Some now |>
    <| st_lastGeneration := generation |> <| st_lastCount := count |> <| st_lastError := None |>
    <| st_consecutiveFail := 0 |>.

Definition recordPoll (s : revocationSyncStatus) (now : Z) : revocationSyncStatus :=
  s <| st_lastPollAt := Some now |> <| st_lastError := None |> <| st_consecutiveFail := 0 |>.

Definition stampOrEmpty (t : option Z) : option string := format_rfc3339 <$> t.

(** What [run] keeps between pulls, and the state of the status. *)
Record puller := mkPuller {
  haveApplied : bool;
  lastApplied : Z;
  lastEpoch : string;
  lastAuthoritative : bool;
  status : revocationSyncStatus;
}.

#[export] Instance puller_eta : Etaable puller := fun p =>
  mkPuller (haveApplied p) (lastApplied p) (lastEpoch p) (lastAuthoritative p) (status p).

Definition newPuller : puller := mkPuller false 0 "" false (mkStatus false None 0 0 None None None 0).

(** Whether an answer is taken over. *)
Definition shouldApply (p : puller) (feed : revocationFeed) : bool :=
  negb (haveApplied p) || negb (String.eqb (fd_Epoch feed) (lastEpoch p)) || (lastApplied p <? fd_Generation feed)
  || (fd_Authoritative feed && negb (lastAuthoritative p) && (fd_Generation feed =? lastApplied p)).

(** An empty answer that does not say it is complete keeps what is held. *)
Definition keepsLocal (overlay : AdmissionRevocations) (feed : revocationFeed) : bool :=
  Nat.eqb (size (fd_Revoked feed)) 0 && Nat.ltb 0 (SyncedCount overlay) && negb (fd_Authoritative feed).

Definition replaceDevices (o : HighRiskOverlay) (feed : revocationFeed) : HighRiskOverlay :=
  if Nat.eqb (size (fd_HighRisk feed)) 0 && negb (fd_Authoritative feed) then o
  else ReplaceSyncedDevices o (fd_HighRisk feed).

(** One pull: the loop, the blocks, the marks, and the hooks that are called. *)
Definition pull (hk : hooks) (p : puller) (overlay : AdmissionRevocations) (highRisk : option HighRiskOverlay)
    (answer : option revocationFeed) (now : Z)
    : puller * AdmissionRevocations * option HighRiskOverlay * list notice :=
  match answer with
  | None => (p <| status := recordFailure (status p) FetchFailed now |>, overlay, highRisk, [])
  | Some feed =>
      if match o ← highRisk; Health o with Some _ => true | None => false end
      then (p <| status := recordFailure (status p) RiskStateNotReady now |>, overlay, highRisk, [])
      else if negb (shouldApply p feed)
      then (p <| status := recordPoll (status p) now |>, overlay, highRisk, [])
      else match applyUserRiskFeed highRisk feed with
      | Err e => (p <| status := recordFailure (status p) (FeedRejected e) now |>, overlay, highRisk, [])
      | Ok highRisk =>
          let '(overlay', calls) := if keepsLocal overlay feed then (overlay, [])
                                    else ReplaceSynced hk overlay (fd_Revoked feed) in
          let highRisk' := (fun o => replaceDevices o feed) <$> highRisk in
          (mkPuller true (fd_Generation feed) (fd_Epoch feed) (fd_Authoritative feed)
             (recordApplied (status p) (fd_Generation feed) (SyncedCount overlay') now),
           overlay', highRisk', calls)
      end
  end.

(** The loop over the answers it receives. *)
Fixpoint run (hk : hooks) (answers : list (option revocationFeed * Z)) (p : puller) (overlay : AdmissionRevocations)
    (highRisk : option HighRiskOverlay) : puller * AdmissionRevocations * option HighRiskOverlay :=
  match answers with
  | [] => (p, overlay, highRisk)
  | (answer, now) :: answers =>
      let '(p, overlay, highRisk, _) := pull hk p overlay highRisk answer now in
      run hk answers p overlay highRisk
  end.

End feed.

End RevocationFeed.
