(* ===== verification/FeedSync.v ===== *)
(** * Edges that pull from control planes

    Any number of control planes change, restart and serve; an edge pulls from one after
    another, and every read of an answer may find another state.  An answer that is taken for
    nothing new is really nothing new, so that an edge whose last pull went through refuses
    what was blocked before it asked. *)

From stdpp Require Import base gmap fin_maps list strings relations.
From S2P Require Import Prelude Trimmed GoStd Persistence Admission SharedFleet AdmissionFleet HighRisk HighRiskFleet RevocationFeed.
Import Admission HighRisk RevocationFeed.

Open Scope Z_scope.

Module FeedSync.

(** ** Every change is counted *)

(** The blocks stand, or the generation moved by one; the pulled layer stands. *)
Definition counted (a a' : AdmissionRevocations) : Prop :=
  synced a' = synced a ∧
  (revoked a' = revoked a ∧ meshReceived a' = meshReceived a ∧ generation a' = generation a
   ∨ generation a' = (generation a + 1) mod 2 ^ 64).

Lemma counted_take a f : counted a (takeLayers a f).
Proof.
  unfold takeLayers. destruct (moved a f) eqn:Hmv; (split; [done|]); [by right|left].
  unfold moved in Hmv. apply orb_false_elim in Hmv as [H1 H2].
  apply negb_false_iff, bool_decide_eq_true in H1, H2. by split_and!.
Qed.

Lemma counted_publish a f : counted a (publish a f).
Proof. destruct (counted_take a f) as [Hs Hc]. by split. Qed.

Ltac by_count := first [done | apply counted_publish | by split; [|left] | by split; [|right]].

Section admission.
Context (hk : hooks) `{MapOrder}.

Lemma counted_revoke a stored w identity reason retry :
  counted a (revokeContext hk a stored w identity reason retry).1.1.1.
Proof.
  unfold revokeContext. destruct (is_empty _); [by_count|]. cbv zeta.
  destruct (changedRow _ _ _); destruct (_ || _); [destruct (saveStateLocked _ _ _ _)| |destruct (saveStateLocked _ _ _ _)|]; by_count.
Qed.

Lemma counted_restore a stored w identity retry : counted a (restore a stored w identity retry).1.1.
Proof.
  unfold restore. destruct (is_empty _); [by_count|]. cbv zeta. destruct (_ && _); [by_count|].
  destruct (saveStateLocked _ _ _ _) as [s [|]]; [by_count|]. destruct (bool_decide _); by_count.
Qed.

Lemma counted_mesh a stored w identity reason retry :
  counted a (revokeFromMesh hk a stored w identity reason retry).1.1.1.
Proof.
  unfold revokeFromMesh. destruct (is_empty _); [by_count|]. cbv zeta.
  destruct (changedRow _ _ _); destruct (_ || _); [destruct (saveStateLocked _ _ _ _)| |destruct (saveStateLocked _ _ _ _)|]; by_count.
Qed.

Lemma counted_erase a stored w ids : counted a (Admission.RemoveDevicesChecked a stored w ids).1.1.
Proof.
  unfold Admission.RemoveDevicesChecked. destruct ids as [|x ids]; [by_count|]. destruct (removeKeys _ _ _) as [c n].
  destruct (saveStateLocked _ _ _ _) as [s [|]]; [by_count|]. destruct (0 <? n); by_count.
Qed.

Lemma counted_change a stored w identity reason revoke :
  counted a (changeAdmissionContext hk a stored w identity reason revoke).1.1.1.
Proof.
  unfold changeAdmissionContext. cbv zeta. destruct (is_empty _); [by_count|].
  pose proof (counted_revoke a stored w (normalizeIdentity identity) (trim_space reason) true) as Hrev.
  pose proof (counted_restore a stored w (normalizeIdentity identity) true) as Hres. unfold RestoreChecked.
  destruct (revokeContext _ _ _ _ _ _ _) as [[[a1 s1] c1] e1], (restore _ _ _ _ _) as [[a2 s2] e2]. cbn in Hrev, Hres.
  destruct (UpdateContext _ _ _ _) as [[stored' candidate] confirmed].
  destruct (persister a); [by destruct revoke..|]. destruct candidate as [f|]; [|by_count].
  destruct confirmed; [by_count|]. destruct revoke; [|by_count]. destruct (changedRow _ _ _); by_count.
Qed.

(** Nothing but a pull touches the pulled layer, and every change of the blocks is counted. *)
Lemma admission_counted a stored w o a' stored' :
  (∀ pulled, o ≠ AdmissionFleet.OPull pulled) → AdmissionFleet.perform hk a stored w o = (a', stored') → counted a a'.
Proof.
  intros Ho Hp. assert (a' = (AdmissionFleet.perform hk a stored w o).1) as -> by by rewrite Hp.
  destruct o as [identity reason|identity|identity reason|ids|pulled]; cbn [AdmissionFleet.perform]; [..|by destruct (Ho pulled)].
  - pose proof (counted_change a stored w identity reason true) as Hc. unfold RevokeCheckedContext.
    by destruct (changeAdmissionContext _ _ _ _ _ _ _) as [[[? ?] ?] ?].
  - pose proof (counted_change a stored w identity "" false) as Hc. unfold RestoreCheckedContext.
    by destruct (changeAdmissionContext _ _ _ _ _ _ _) as [[[? ?] ?] [? ?]].
  - unfold RevokeFromMeshCheckedContext, receiveMeshContext. cbv zeta. destruct (is_empty _); [by_count|].
    pose proof (counted_mesh a stored w identity (trim_space reason) true) as Hm.
    pose proof (counted_mesh a stored w identity reason true) as Hm'.
    destruct (UpdateContext _ _ _ _) as [[stored1 candidate] confirmed].
    destruct (persister a); [by destruct (revokeFromMesh _ _ _ _ _ _ _) as [[[? ?] ?] ?]..|].
    destruct candidate as [f|]; [|by_count]. destruct confirmed; [by_count|]. destruct (changedRow _ _ _); by_count.
  - unfold RemoveDevicesContext. destruct ids as [|x ids]; [by_count|].
    pose proof (counted_erase a stored w (x :: ids)) as He.
    destruct (UpdateContext _ _ _ _) as [[stored1 candidate] confirmed].
    destruct (persister a); [by destruct (Admission.RemoveDevicesChecked _ _ _ _) as [[? ?] ?]..|].
    destruct candidate, (latest a stored); [destruct confirmed|..]; by_count.
Qed.

Lemma restore_counted a b loaded refresh : counted a (restoreSnapshotLocked a b loaded refresh).1.
Proof.
  unfold restoreSnapshotLocked. destruct b; [by_count|..];
    (destruct loaded as [[data|]|]; [|destruct (_ && _); by_count|by_count]);
    (destruct (decodeAdmissionSnapshot data) as [f|]; [|by_count]);
    destruct (counted_take a (mergePendingAdmissionBlocks a f)) as [Hs Hc]; by split.
Qed.

End admission.

(** A risk store counts a change once, or twice for a detection. *)
Definition grows (o o' : HighRiskOverlay) : Prop :=
  rgeneration o' = rgeneration o ∨ rgeneration o' = (rgeneration o + 1) mod 2 ^ 64
  ∨ rgeneration o' = ((rgeneration o + 1) mod 2 ^ 64 + 1) mod 2 ^ 64.

Ltac by_growth := first [done | by left | by right | by right; left | by right; right].

Section risk.
Context `{MapOrder}.

Lemma publishRisk_grows o f : grows o (publishRisk o f).
Proof. unfold publishRisk, takeMarks. destruct (riskMoved o f); by_growth. Qed.

Lemma saveRisk_grows o stored w weak d u l : rgeneration (saveRisk o stored w weak d u l).1.1 = rgeneration o.
Proof. unfold saveRisk. by destruct (rpersister o), w. Qed.

Lemma setDeviceRisk_grows o stored w weak id severity : grows o (SetDeviceRisk o stored w weak id severity).1.1.
Proof.
  unfold SetDeviceRisk, setDeviceRisk. cbv zeta. destruct (is_empty _); [by_growth|].
  destruct (deviceSeverity severity) as [sev|]; [|by_growth]. destruct (isUnavailable o); [by_growth|]. cbn [andb].
  set (candidate := put_severity _ sev (devices o)). pose proof (saveRisk_grows o stored w weak candidate (users o) (legacyUnattributed o)) as Hs.
  destruct (saveRisk _ _ _ _ _ _ _) as [[o1 s1] [warning|e]]; [|by left]. cbn in Hs.
  destruct (_ || _); unfold grows; cbn; rewrite Hs; by_growth.
Qed.

Lemma setUserRisk_grows o stored w weak mark : grows o (SetUserRisk o stored w weak mark).1.1.
Proof.
  unfold SetUserRisk. destruct (normalizeUserRisk mark) as [u|]; [|by_growth]. destruct (_ || _); [by_growth|]. cbv zeta.
  pose proof (saveRisk_grows o stored w weak (devices o) (put_user u (users o)) (legacyUnattributed o)) as Hs.
  destruct (saveRisk _ _ _ _ _ _ _) as [[o1 s1] [warning|e]]; [|by left]. cbn in Hs. unfold grows. cbn. rewrite Hs. by_growth.
Qed.

Lemma discard_grows o stored w weak id severity : grows o (DiscardLegacyUnattributed o stored w weak id severity).1.1.
Proof.
  unfold DiscardLegacyUnattributed. cbv zeta. destruct (negb _); [by_growth|]. destruct (_ || _); [by_growth|].
  destruct (legacyTarget _ _ _); [by_growth|]. set (candidate := delete _ _).
  pose proof (saveRisk_grows o stored w weak (devices o) (users o) candidate) as Hs.
  destruct (saveRisk _ _ _ _ _ _ _) as [[o1 s1] [warning|e]]; [|by left]. cbn in Hs. unfold grows. cbn. rewrite Hs. by_growth.
Qed.

Lemma erase_grows o stored w tenant ids : grows o (RemoveTenantRisksChecked o stored w tenant ids).1.1.
Proof.
  unfold RemoveTenantRisksChecked. cbv zeta. destruct (_ && _); [by_growth|]. destruct (isUnavailable o); [by_growth|].
  destruct (eraseMarks _ _ _ _) as [[d u] n]. pose proof (saveRisk_grows o stored w false d u (legacyUnattributed o)) as Hs.
  destruct (saveRisk _ _ _ _ _ _ _) as [[o1 s1] [warning|e]]; [|by left]. cbn in Hs.
  destruct (0 <? n); unfold grows; cbn; rewrite Hs; by_growth.
Qed.

Lemma change_grows o stored w edit o' stored' err :
  changeRiskContextChecked o stored w edit = Some (o', stored', err) → grows o o'.
Proof.
  unfold changeRiskContextChecked. destruct (rpersister o); [done..|]. destruct (_ || _); [intros [= <- _ _]; by_growth|].
  destruct w, (latestRisk o stored) as [f|]; try (intros [= <- _ _]; by_growth);
    (destruct (edit f) as [c|e]; intros [= <- _ _]; [|by_growth]); [apply publishRisk_grows|by_growth..].
Qed.

Lemma handled_grows o stored w edit fallback :
  grows o fallback.1.1 → grows o (handledOr (changeRiskContextChecked o stored w edit) fallback).1.1.
Proof.
  destruct (changeRiskContextChecked o stored w edit) as [[[o' s'] err]|] eqn:Hc; [|done].
  intros _. apply change_grows in Hc. by destruct err.
Qed.

Lemma grows_twice o o1 o2 :
  (rgeneration o1 = rgeneration o ∨ rgeneration o1 = (rgeneration o + 1) mod 2 ^ 64) →
  (rgeneration o2 = rgeneration o1 ∨ rgeneration o2 = (rgeneration o1 + 1) mod 2 ^ 64) → grows o o2.
Proof. unfold grows. intros [-> | ->] [-> | ->]; auto. Qed.

Lemma raise_grows o stored w weak id severity : grows o (RaiseDeviceRisk o stored w weak id severity).1.1.
Proof.
  unfold RaiseDeviceRisk. cbv zeta. destruct (_ || _); [by_growth|]. destruct (isUnavailable o); [by_growth|].
  set (id' := NormalizeDeviceID id). set (sev := to_lower (trim_space severity)).
  assert (grows o (raiseSharedDeviceRiskLocked o stored w id' sev).1.1) as Hshared.
  { unfold raiseSharedDeviceRiskLocked. cbv zeta. set (sev' := if worse _ _ then _ else _).
    set (o1 := (if negb _ then _ else _) <| riskSavePending := true |>).
    assert (rgeneration o1 = rgeneration o ∨ rgeneration o1 = (rgeneration o + 1) mod 2 ^ 64) as H1.
    { unfold o1. destruct (negb _); by_growth. }
    assert (∀ f, grows o (publishRisk o1 f)) as Hpub.
    { intros f. apply (grows_twice o o1); [done|]. unfold publishRisk, takeMarks. destruct (riskMoved o1 f); by_growth. }
    assert (∀ m, grows o (o1 <| automaticPending := m |>)) as Hfail by (intros m; destruct H1; by_growth).
    set (row := match stored with Some data => _ | None => _ end). clearbody row o1.
    destruct w, row as [f|]; cbn [committed fst]; auto. }
  set (o1 := if worse sev _ then _ else o).
  assert (rgeneration o1 = rgeneration o ∨ rgeneration o1 = (rgeneration o + 1) mod 2 ^ 64) as H1.
  { unfold o1. destruct (worse _ _); by_growth. }
  pose proof (saveRisk_grows o1 stored w weak (devices o1) (users o1) (legacyUnattributed o1)) as Hs.
  destruct (raiseSharedDeviceRiskLocked o stored w id' sev) as [[o2 s2] r2]. cbn [fst] in Hshared.
  destruct (saveRisk _ _ _ _ _ _ _) as [[o3 s3] r3]. cbn in Hs.
  destruct (rpersister o); [..|done]; (destruct (_ && _); [destruct H1; by_growth|]);
    destruct r3; unfold grows; cbn; rewrite Hs; destruct H1; by_growth.
Qed.

Lemma risk_counted o stored w x o' stored' : HighRiskFleet.perform o stored w x = (o', stored') → grows o o'.
Proof.
  intros Hp. assert (o' = (HighRiskFleet.perform o stored w x).1) as -> by by rewrite Hp. clear Hp.
  destruct x as [weak id severity|weak mark|weak id expected|tenant ids|weak id severity]; cbn [HighRiskFleet.perform].
  - unfold SetDeviceRiskContext. destruct (is_empty _); [by_growth|]. destruct (deviceSeverity severity); [|by_growth].
    apply handled_grows, setDeviceRisk_grows.
  - unfold SetUserRiskContext. destruct (normalizeUserRisk mark); [|by_growth]. apply handled_grows, setUserRisk_grows.
  - unfold DiscardLegacyUnattributedContext. destruct (negb _); [by_growth|]. apply handled_grows, discard_grows.
  - unfold RemoveTenantRisksContext. destruct (_ && _); [by_growth|].
    destruct (changeRiskContext _ _ _ _) as [[[o1 s1] err]|] eqn:Hc; [|apply erase_grows].
    apply change_grows in Hc. by destruct err.
  - pose proof (raise_grows o stored w weak id severity) as Hr. by destruct (RaiseDeviceRisk _ _ _ _ _ _) as [[? ?] ?].
Qed.

Lemma reload_grows o b loaded : grows o (restoreRisk o b loaded true).1.
Proof.
  unfold restoreRisk. destruct b; [destruct (loadErr o); by_growth|..];
    (destruct loaded as [[data|]|]; [|destruct (_ && _); [by_growth|destruct (loadErr o); by_growth]|by_growth]);
    (destruct (decodeRiskSnapshot data) as [f|]; [|by_growth]); cbv zeta; (destruct (_ && _); [by_growth|]);
    destruct (_ || _); by_growth.
Qed.

End risk.

(** ** Control planes, an edge, and an answer on its way *)

Record request := mkRequest { rq_server : nat; rq_caller : caller; rq_stage : stage; rq_feed : revocationFeed }.

Record system := mkSystem {
  servers : list server;
  used : gset string;                               (* the epochs there have been *)
  loop : puller;
  blocks : AdmissionRevocations;
  marks : option HighRiskOverlay;
  inflight : option request;                        (* the loop asks one thing at a time *)
}.

#[export] Instance system_eta : Etaable system := fun s =>
  mkSystem (servers s) (used s) (loop s) (blocks s) (marks s) (inflight s).

Definition blocksGeneration (s : server) : Z :=
  match sv_AdmissionRevocations s with Some a => ConfigGeneration a | None => 0 end.
Definition marksGeneration (s : server) : Z :=
  match sv_HighRiskOverlay s with Some o => rgeneration o | None => 0 end.

(** The process blocks the device, as its feed says. *)
Definition servesBlock (id : string) (s : server) : Prop :=
  ∃ a, sv_AdmissionRevocations s = Some a ∧ is_Some (FeedSnapshot a !! id).

(** 2^64 changes are never reached. *)
Definition headroom (s : server) : Prop := blocksGeneration s + marksGeneration s + 2 < 2 ^ 64.
Definition fits (s : server) : Prop :=
  0 ≤ blocksGeneration s ∧ 0 ≤ marksGeneration s ∧ blocksGeneration s + marksGeneration s < 2 ^ 64.

Section system.
Context (hk : hooks) `{MapOrder}.

(** What happens to a process: edits with whatever outcome, reloads with whatever row, and
    elections.  It pulls from nobody. *)
Inductive changes (s : server) : server → Prop :=
  | changes_blocks a stored w o a' stored' :
      sv_AdmissionRevocations s = Some a → (∀ pulled, o ≠ AdmissionFleet.OPull pulled) →
      AdmissionFleet.perform hk a stored w o = (a', stored') → changes s (s <| sv_AdmissionRevocations := Some a' |>)
  | changes_reload a loaded :
      sv_AdmissionRevocations s = Some a →
      changes s (s <| sv_AdmissionRevocations := Some (ReloadFromStore a loaded).1 |>)
  | changes_marks o stored w x o' stored' :
      sv_HighRiskOverlay s = Some o → HighRiskFleet.perform o stored w x = (o', stored') →
      changes s (s <| sv_HighRiskOverlay := Some o' |>)
  | changes_marks_reload o loaded :
      sv_HighRiskOverlay s = Some o → changes s (s <| sv_HighRiskOverlay := Some (ReloadRiskFromStore o loaded).1 |>)
  | changes_election leads : changes s (s <| sv_IsLeader := leads |>).

Inductive event := ServerChanges | ServerStarts | Asks | Reads | Delivers | Loses | EdgeChanges | EdgeStarts.

Inductive step (S : system) : event → system → Prop :=
  | step_changes i s s' :
      servers S !! i = Some s → headroom s → changes s s' →
      step S ServerChanges (S <| servers := <[i := s']> (servers S) |>)
  | step_starts i s' :
      sv_Epoch s' ∉ used S → fits s' →
      step S ServerStarts (S <| servers := <[i := s']> (servers S) |> <| used := {[sv_Epoch s']} ∪ used S |>)
  | step_asks i c :
      inflight S = None → step S Asks (S <| inflight := Some (mkRequest i c Received emptyFeed) |>)
  | step_reads r s stage' feed' :
      inflight S = Some r → servers S !! rq_server r = Some s →
      rq_stage r = Received ∨ sv_Epoch s = fd_Epoch (rq_feed r) →
      serveStep s (rq_caller r) (rq_stage r) (rq_feed r) = Some (stage', feed') →
      step S Reads (S <| inflight := Some (mkRequest (rq_server r) (rq_caller r) stage' feed') |>)
  | step_delivers r now p a o calls :
      inflight S = Some r → rq_stage r = Served →
      pull hk (loop S) (blocks S) (marks S) (Some (rq_feed r)) now = (p, a, o, calls) →
      step S Delivers (mkSystem (servers S) (used S) p a o None)
  | step_loses r now p a o calls :
      inflight S = Some r → pull hk (loop S) (blocks S) (marks S) None now = (p, a, o, calls) →
      step S Loses (mkSystem (servers S) (used S) p a o None)
  | step_edge a o : synced a = synced (blocks S) → step S EdgeChanges (S <| blocks := a |> <| marks := o |>)
  | step_edge_starts a o :
      synced a = ∅ → step S EdgeStarts (mkSystem (servers S) (used S) newPuller a o None).

(** Processes that were started at different times, and an edge that has pulled nothing. *)
Definition initial (S : system) : Prop :=
  (∀ i s, servers S !! i = Some s → fits s ∧ sv_Epoch s ∈ used S) ∧
  (∀ i j s t, servers S !! i = Some s → servers S !! j = Some t → sv_Epoch s = sv_Epoch t → i = j) ∧
  haveApplied (loop S) = false ∧ inflight S = None.

Definition runs (allowed : event → Prop) (good : system → Prop) : relation system :=
  rtc (fun S S' => ∃ e, allowed e ∧ step S e S' ∧ good S').

(** *** A change moves the count *)

Lemma next_mod g : 0 ≤ g → g + 1 < 2 ^ 64 → (g + 1) mod 2 ^ 64 = g + 1.
Proof. intros. apply Z.mod_small. lia. Qed.

Lemma feed_of_layers a a' : revoked a' = revoked a → meshReceived a' = meshReceived a → FeedSnapshot a' = FeedSnapshot a.
Proof. unfold FeedSnapshot. by intros -> ->. Qed.

Definition moves (id : string) (s s' : server) : Prop :=
  fits s' ∧ sv_Epoch s' = sv_Epoch s ∧ blocksGeneration s ≤ blocksGeneration s' ∧ marksGeneration s ≤ marksGeneration s' ∧
  (blocksGeneration s' = blocksGeneration s → servesBlock id s' → servesBlock id s).

Lemma counted_moves id s a a' :
  fits s → headroom s → sv_AdmissionRevocations s = Some a → counted a a' →
  moves id s (s <| sv_AdmissionRevocations := Some a' |>).
Proof.
  unfold moves, fits, headroom, servesBlock, blocksGeneration, marksGeneration, ConfigGeneration. intros Hf Hh Ha [_ Hc].
  change (sv_HighRiskOverlay (s <| sv_AdmissionRevocations := Some a' |>)) with (sv_HighRiskOverlay s).
  change (sv_AdmissionRevocations (s <| sv_AdmissionRevocations := Some a' |>)) with (Some a'). rewrite Ha in *.
  destruct Hc as [(Hr & Hm & Hg)|Hg].
  - rewrite Hg. split_and!; try done; try lia. intros _ (a1 & [= <-] & Hid). exists a. by rewrite <- (feed_of_layers a a').
  - rewrite next_mod in Hg by lia. rewrite Hg. split_and!; try done; lia.
Qed.

Lemma grown_moves id s o o' :
  fits s → headroom s → sv_HighRiskOverlay s = Some o → grows o o' →
  moves id s (s <| sv_HighRiskOverlay := Some o' |>).
Proof.
  unfold moves, fits, headroom, servesBlock, blocksGeneration, marksGeneration. intros Hf Hh Ho Hg.
  change (sv_HighRiskOverlay (s <| sv_HighRiskOverlay := Some o' |>)) with (Some o').
  change (sv_AdmissionRevocations (s <| sv_HighRiskOverlay := Some o' |>)) with (sv_AdmissionRevocations s). rewrite Ho in *.
  assert (rgeneration o ≤ rgeneration o' ≤ rgeneration o + 2) as Hle.
  { destruct Hg as [-> |[-> | ->]]; rewrite ?(next_mod (rgeneration o)) by lia; [lia..|]. rewrite next_mod by lia. lia. }
  split_and!; try done; lia.
Qed.

Lemma changes_move id s s' : fits s → headroom s → changes s s' → moves id s s'.
Proof.
  intros Hf Hh Hc. destruct Hc as [a st w o a' st' Ha Ho Hp|a loaded Ha|o st w x o' st' Ho Hp|o loaded Ho|leads].
  - apply (counted_moves id s a a' Hf Hh Ha). by apply (admission_counted hk a st w o a' st').
  - apply (counted_moves id s a _ Hf Hh Ha), restore_counted.
  - apply (grown_moves id s o o' Hf Hh Ho). by apply (risk_counted o st w x o' st').
  - apply (grown_moves id s o _ Hf Hh Ho), reload_grows.
  - split; [exact Hf|]. by split_and!.
Qed.

(** *** What is known of the loop and of the answer on its way

    The generations that were read, separately for the blocks and the marks: those of the
    answer that was taken over last, and those of the answer on its way. *)

Record ghosts := mkGhosts { taken_blocks : Z; taken_marks : Z; read_blocks : Z; read_marks : Z }.

Definition blocksAreRead (at_ : stage) : bool := match at_ with Received | GenerationRead => false | _ => true end.
Definition marksAreRead (at_ : stage) : bool :=
  match at_ with Received | GenerationRead | BlocksRead => false | _ => true end.

Definition pulled (id : string) (S : system) : Prop := is_Some (synced (blocks S) !! id).

Record known (id : string) (g : ghosts) (S : system) : Prop := {
  kn_fits i s : servers S !! i = Some s → fits s ∧ sv_Epoch s ∈ used S;
  kn_distinct i j s t : servers S !! i = Some s → servers S !! j = Some t → sv_Epoch s = sv_Epoch t → i = j;
  kn_loop : haveApplied (loop S) = true → lastEpoch (loop S) ∈ used S ∧ lastApplied (loop S) = taken_blocks g + taken_marks g;
  kn_taken i s : servers S !! i = Some s → haveApplied (loop S) = true → lastEpoch (loop S) = sv_Epoch s →
    taken_blocks g ≤ blocksGeneration s ∧ taken_marks g ≤ marksGeneration s ∧
    (taken_blocks g = blocksGeneration s → servesBlock id s → pulled id S);
  kn_answer r : inflight S = Some r → rq_stage r ≠ Received →
    fd_Epoch (rq_feed r) ∈ used S ∧ fd_Generation (rq_feed r) = read_blocks g + read_marks g ∧
    0 ≤ read_blocks g ∧ (marksAreRead (rq_stage r) = false → read_marks g = 0) ∧
    (haveApplied (loop S) = true → lastEpoch (loop S) = fd_Epoch (rq_feed r) →
       taken_blocks g ≤ read_blocks g ∧ (marksAreRead (rq_stage r) = true → taken_marks g ≤ read_marks g));
  kn_read r i s : inflight S = Some r → rq_stage r ≠ Received → servers S !! i = Some s → sv_Epoch s = fd_Epoch (rq_feed r) →
    read_blocks g ≤ blocksGeneration s ∧ read_marks g ≤ marksGeneration s ∧
    (blocksAreRead (rq_stage r) = true → read_blocks g = blocksGeneration s → servesBlock id s →
       is_Some (fd_Revoked (rq_feed r) !! id));
}.

(** The answer on its way was asked for while every process blocked the device. *)
Definition timely (id : string) (g : ghosts) (S : system) : Prop :=
  ∀ r, inflight S = Some r →
    (blocksAreRead (rq_stage r) = true → is_Some (fd_Revoked (rq_feed r) !! id)) ∧
    (rq_stage r ≠ Received → haveApplied (loop S) = true → lastEpoch (loop S) = fd_Epoch (rq_feed r) →
       taken_blocks g = read_blocks g → pulled id S).

Definition held (id : string) (S : system) : Prop := ∀ i s, servers S !! i = Some s → servesBlock id s.

(** What a step must keep. *)
Definition keeps (id : string) (g : ghosts) (S S' : system) : Prop :=
  ∃ g', known id g' S' ∧ (held id S → held id S' → timely id g S → timely id g' S').

(** *** Steps *)

Lemma keeps_same id g (S S' : system) :
  servers S' = servers S → used S' = used S → loop S' = loop S → synced (blocks S') = synced (blocks S) →
  inflight S' = inflight S → known id g S → keeps id g S S'.
Proof.
  intros H1 H2 H3 H4 H5 K. exists g. unfold timely, pulled in *. split.
  - destruct K as [K1 K2 K3 K4 K5 K6]. split; unfold pulled in *; rewrite ?H1, ?H2, ?H3, ?H4, ?H5; auto.
  - by rewrite H3, H4, H5.
Qed.

(** Another state of a process, of the same start. *)
Lemma keeps_changes id g S i s s' :
  known id g S → servers S !! i = Some s → moves id s s' → keeps id g S (S <| servers := <[i := s']> (servers S) |>).
Proof.
  intros [K1 K2 K3 K4 K5 K6] Hi (Hf & He & Hb & Hm & Hs). exists g. split; [|by intros _ _ Ht].
  assert (∀ j t, <[i := s']> (servers S) !! j = Some t → ∃ t0, servers S !! j = Some t0 ∧ sv_Epoch t = sv_Epoch t0 ∧
            fits t ∧ blocksGeneration t0 ≤ blocksGeneration t ∧ marksGeneration t0 ≤ marksGeneration t ∧
            (blocksGeneration t = blocksGeneration t0 → servesBlock id t → servesBlock id t0)) as Hback.
  { intros j t [(-> & <- & _)|[_ Hj]]%list_lookup_insert_Some; [by exists s|]. destruct (K1 _ _ Hj). pose proof Z.le_refl. exists t. auto 10. }
  split; [..|exact K5|].
  - intros j t (t0 & Hj & -> & Hft & _)%Hback. split; [done|by eapply K1].
  - intros j k t u (t0 & Hj & -> & _)%Hback (u0 & Hk & -> & _)%Hback. by apply K2.
  - exact K3.
  - intros j t (t0 & Hj & -> & _ & Hb0 & Hm0 & Hs0)%Hback Ha Hl. destruct (K4 _ _ Hj Ha Hl) as (H1 & H2 & H3).
    split_and!; [lia|lia|]. intros Heq Hserve. apply H3; [lia|]. apply Hs0; [lia|done].
  - intros r j t Hr Hst (t0 & Hj & -> & _ & Hb0 & Hm0 & Hs0)%Hback Ha. destruct (K6 _ _ _ Hr Hst Hj Ha) as (H1 & H2 & H3).
    split_and!; [lia|lia|]. intros Hbr Heq Hserve. apply H3; [done|lia|]. apply Hs0; [lia|done].
Qed.

Lemma keeps_starts id g S i s' :
  known id g S → sv_Epoch s' ∉ used S → fits s' →
  keeps id g S (S <| servers := <[i := s']> (servers S) |> <| used := {[sv_Epoch s']} ∪ used S |>).
Proof.
  intros [K1 K2 K3 K4 K5 K6] Hnew Hf. exists g. split; [|by intros _ _ Ht].
  split.
  - intros j t [(-> & <- & _)|[_ Hj]]%list_lookup_insert_Some; [split; [done|set_solver]|].
    destruct (K1 _ _ Hj). split; [done|set_solver].
  - intros j k t u [(-> & <- & _)|[Hj Ht]]%list_lookup_insert_Some [(-> & <- & _)|[Hk Hu]]%list_lookup_insert_Some Heq; [done|..|by eapply K2].
    + destruct Hnew. rewrite Heq. by eapply K1.
    + destruct Hnew. rewrite <- Heq. by eapply K1.
  - intros Ha. destruct (K3 Ha). split; [set_solver|done].
  - intros j t [(-> & <- & _)|[_ Hj]]%list_lookup_insert_Some Ha Hl; [|by eapply K4].
    destruct Hnew. rewrite <- Hl. by apply K3.
  - intros r Hr Hst. destruct (K5 _ Hr Hst) as (? & ?). split; [set_solver|done].
  - intros r j t Hr Hst [(-> & <- & _)|[_ Hj]]%list_lookup_insert_Some He; [|by eapply K6].
    destruct Hnew. rewrite He. by eapply K5.
Qed.

(** The loop is between two questions. *)
Lemma keeps_idle id g S S' :
  servers S' = servers S → used S' = used S → inflight S' = None →
  (haveApplied (loop S') = true → loop S' = (loop S) <| status := status (loop S') |> ∧ synced (blocks S') = synced (blocks S)) →
  known id g S → keeps id g S S'.
Proof.
  intros H1 H2 H3 H4 [K1 K2 K3 K4 K5 K6]. exists g. split; [|intros _ _ _ r; by rewrite H3].
  split; rewrite ?H1, ?H2; auto.
  - intros Ha. destruct (H4 Ha) as [Hl _]. rewrite Hl in *. by apply K3.
  - intros i s Hi Ha. destruct (H4 Ha) as [Hl Hs]. unfold pulled in *. rewrite Hs. rewrite Hl in *. intros He; by eapply K4.
  - intros r. by rewrite H3.
  - intros r i s. by rewrite H3.
Qed.

(** What a read adds to the answer. *)
Lemma serve_cases s c at_ feed at' feed' :
  serveStep s c at_ feed = Some (at', feed') →
  match at_ with
  | Received => at' = GenerationRead ∧ fd_Epoch feed' = sv_Epoch s ∧ fd_Generation feed' = blocksGeneration s
  | GenerationRead =>
      at' = BlocksRead ∧ fd_Epoch feed' = fd_Epoch feed ∧ fd_Generation feed' = fd_Generation feed ∧
      ∀ id, servesBlock id s → is_Some (fd_Revoked feed' !! id)
  | BlocksRead =>
      marksAreRead at' = true ∧ fd_Epoch feed' = fd_Epoch feed ∧ fd_Revoked feed' = fd_Revoked feed ∧
      (fits s → 0 ≤ fd_Generation feed ≤ blocksGeneration s → fd_Generation feed' = fd_Generation feed + marksGeneration s)
  | _ => marksAreRead at' = true ∧ fd_Epoch feed' = fd_Epoch feed ∧ fd_Revoked feed' = fd_Revoked feed ∧
         fd_Generation feed' = fd_Generation feed
  end.
Proof.
  unfold serveStep, fits, blocksGeneration, marksGeneration, servesBlock. destruct at_.
  - destruct (_ || _); [done|]. by intros [= <- <-].
  - intros [= <- <-]. destruct (sv_AdmissionRevocations s) as [a|]; split_and!; try done.
    + by intros id (a' & [= <-] & Hid).
    + by intros id (a' & [=] & _).
  - destruct (sv_HighRiskOverlay s) as [o|]; intros [= <- <-]; split_and!; try done; intros Hf Hg.
    + cbn. rewrite Z.mod_small; lia.
    + lia.
  - destruct (sv_HighRiskOverlay s) as [o|]; [|done]. destruct (CheckedSnapshot o) as [[d u]|]; [|done]. by intros [= <- <-].
  - destruct (sv_HighRiskOverlay s) as [o|]; [|done]. by intros [= <- <-].
  - destruct (sv_HighRiskOverlay s) as [o|]; [|done]. by intros [= <- <-].
  - done.
Qed.

(** The first read. *)
Lemma keeps_first id g S r s at' feed' :
  known id g S → inflight S = Some r → rq_stage r = Received → servers S !! rq_server r = Some s →
  serveStep s (rq_caller r) (rq_stage r) (rq_feed r) = Some (at', feed') →
  keeps id g S (S <| inflight := Some (mkRequest (rq_server r) (rq_caller r) at' feed') |>).
Proof.
  intros [K1 K2 K3 K4 K5 K6] Hr Hst Hs Hserve%serve_cases. rewrite Hst in Hserve. destruct Hserve as (-> & He & Hg).
  destruct (K1 _ _ Hs) as [(Hf1 & Hf2 & Hf3) Hused].
  exists (mkGhosts (taken_blocks g) (taken_marks g) (blocksGeneration s) 0). split.
  - split; [exact K1|exact K2|exact K3|exact K4|..].
    + intros r' [= <-] _. cbn [rq_feed rq_stage]. rewrite He. split_and!; [done|cbn; lia|done|done|]. intros Ha Hl.
      destruct (K4 _ _ Hs Ha Hl) as (H1 & _). by split.
    + intros r' i t [= <-] _ Ht Het. cbn in Het. rewrite He in Het.
      assert (t = s) as ->.
      { change (servers S !! i = Some t) in Ht.
        assert (i = rq_server r) as Hi by (by eapply K2). rewrite Hi, Hs in Ht. by injection Ht. }
      cbn. by split_and!.
  - intros Hheld _ _ r' [= <-]. split; [done|]. intros _ Ha Hl Heq. cbn in Hl, Heq. rewrite He in Hl.
    destruct (K4 _ _ Hs Ha Hl) as (_ & _ & H3). apply H3; [done|by eapply Hheld].
Qed.

(** The other reads. *)
Lemma keeps_reads id g S r s at' feed' :
  known id g S → inflight S = Some r → rq_stage r ≠ Received → servers S !! rq_server r = Some s →
  sv_Epoch s = fd_Epoch (rq_feed r) → serveStep s (rq_caller r) (rq_stage r) (rq_feed r) = Some (at', feed') →
  keeps id g S (S <| inflight := Some (mkRequest (rq_server r) (rq_caller r) at' feed') |>).
Proof.
  intros [K1 K2 K3 K4 K5 K6] Hr Hst Hs Heq Hserve%serve_cases.
  destruct (K1 _ _ Hs) as [Hfit Hused]. destruct (K5 _ Hr Hst) as (Hu & Hg & H0 & Hz & Htk). destruct (K6 _ _ _ Hr Hst Hs Heq) as (Hb & Hm & Hrv).
  assert (∀ i t, servers S !! i = Some t → sv_Epoch t = fd_Epoch (rq_feed r) → t = s) as Huniq.
  { intros i t Ht Het. assert (i = rq_server r) as Hi by (eapply K2; [done..|by rewrite Het]). rewrite Hi, Hs in Ht. by injection Ht. }
  set (g' := match rq_stage r with BlocksRead => mkGhosts (taken_blocks g) (taken_marks g) (read_blocks g) (marksGeneration s) | _ => g end).
  assert (at' ≠ Received ∧ fd_Epoch feed' = fd_Epoch (rq_feed r) ∧ taken_blocks g' = taken_blocks g ∧ taken_marks g' = taken_marks g ∧
    read_blocks g' = read_blocks g ∧ fd_Generation feed' = read_blocks g' + read_marks g' ∧
    (marksAreRead at' = false → read_marks g' = 0) ∧ read_marks g' ≤ marksGeneration s ∧
    (marksAreRead at' = true → marksAreRead (rq_stage r) = true ∧ read_marks g' = read_marks g ∨ read_marks g' = marksGeneration s) ∧
    (rq_stage r = GenerationRead ∧ servesBlock id s ∨ blocksAreRead (rq_stage r) = true ∧ is_Some (fd_Revoked (rq_feed r) !! id) → is_Some (fd_Revoked feed' !! id)))
    as (Hat & He & E1 & E2 & E3 & Hg' & Hz' & Hm' & Hmr & Hblk).
  { unfold g'. destruct Hfit as (F1 & F2 & F3). destruct (rq_stage r); [done|..]; cbn in Hz, Hrv.
    - destruct Hserve as (-> & -> & -> & Hid). split_and!; try done. intros [[_ ?]|[? ?]]; [auto|done].
    - destruct Hserve as (Hmk & -> & -> & Hgen). specialize (Hz eq_refl). split_and!; try done.
      + by intros ->.
      + rewrite Hgen by (repeat split; lia). cbn. lia.
      + by rewrite Hmk.
      + by right.
      + by intros [[? _]|[_ ?]].
    - destruct Hserve as (Hmk & -> & -> & ->). split_and!; try done; [by intros ->|by rewrite Hmk|by left|by intros [[? _]|[_ ?]]].
    - destruct Hserve as (Hmk & -> & -> & ->). split_and!; try done; [by intros ->|by rewrite Hmk|by left|by intros [[? _]|[_ ?]]].
    - destruct Hserve as (Hmk & -> & -> & ->). split_and!; try done; [by intros ->|by rewrite Hmk|by left|by intros [[? _]|[_ ?]]].
    - destruct Hserve as (Hmk & -> & -> & ->). split_and!; try done; [by intros ->|by rewrite Hmk|by left|by intros [[? _]|[_ ?]]]. }
  assert (rq_stage r = GenerationRead ∨ blocksAreRead (rq_stage r) = true) as Hor by (destruct (rq_stage r); auto; done).
  exists g'. split.
  - split; [exact K1|exact K2|intros Ha; rewrite E1, E2; by apply K3|intros i t; rewrite E1, E2; by apply K4|..].
    + intros r' [= <-] _. cbn [rq_feed rq_stage]. rewrite He, E1, E2, E3. split_and!; [done|by rewrite Hg', E3|done|done|].
      intros Ha Hl. destruct (Htk Ha Hl) as [H1 H2]. split; [done|]. intros Hmk. destruct (Hmr Hmk) as [[? ->]| ->]; [by apply H2|].
      destruct (K4 _ _ Hs Ha) as (_ & ? & _); [by rewrite Heq|done].
    + intros r' i t [= <-] _ Ht Het. cbn [rq_feed rq_stage] in *. rewrite He in Het. rewrite (Huniq i t Ht Het). rewrite E3.
      split_and!; [done|done|]. intros _ Hbg Hsv. apply Hblk. destruct Hor as [?|Hbr]; [by left|right]. split; [done|]. by apply Hrv.
  - intros Hheld _ Htime r' [= <-]. cbn [rq_feed rq_stage]. rewrite He, E1, E3. destruct (Htime r Hr) as [T1 T2].
    split; [|intros _; by apply T2]. intros _. apply Hblk. destruct Hor as [?|Hbr]; [left; split; [done|by eapply Hheld]|right].
    split; [done|by apply T1].
Qed.

Lemma keeps_asks id g S i c :
  inflight S = None → known id g S → keeps id g S (S <| inflight := Some (mkRequest i c Received emptyFeed) |>).
Proof.
  intros Hi [K1 K2 K3 K4 K5 K6]. exists g. split.
  - split; [exact K1|exact K2|exact K3|exact K4|by intros r [= <-]|by intros r j s [= <-]].
  - by intros _ _ _ r [= <-].
Qed.

(** *** A pull *)

Lemma fresh_has pulled id k : normalizeIdentity k = id → id ≠ "" → is_Some (pulled !! k) → is_Some (freshSynced pulled !! id).
Proof.
  intros Hk Hid [v Hv]. unfold freshSynced.
  assert ((k, v) ∈ iterate (map_to_list pulled)) as Hin by (rewrite iterate_perm; by apply elem_of_map_to_list). clear Hv.
  set (put := fun (fresh : gmap string string) (row : string * string) => _).
  assert (∀ l acc, is_Some (acc !! id) → is_Some (foldl put acc l !! id)) as Hkeep.
  { induction l as [|row l IH]; intros acc Ha; [done|]. apply IH. unfold put. cbv zeta. destruct (is_empty _); [done|].
    destruct (decide (normalizeIdentity row.1 = id)) as [-> |Hne]; [rewrite lookup_insert_eq; by eexists|by rewrite lookup_insert_ne]. }
  revert Hin. generalize (∅ : gmap string string) as acc. generalize (iterate (map_to_list pulled)) as l.
  induction l as [|row l IH]; intros acc Hin; [by apply elem_of_nil in Hin|].
  apply elem_of_cons in Hin as [<-|Hin]; [|by apply IH]. cbn [foldl]. apply Hkeep. unfold put. cbn [fst snd]. rewrite Hk.
  destruct (is_empty id) eqn:He; [by apply is_empty_true in He|]. rewrite lookup_insert_eq. by eexists.
Qed.

(** A pull changes nothing but the record of its outcome, or takes the answer over. *)
Lemma pull_cases p a o answer now p' a' o' calls :
  pull hk p a o answer now = (p', a', o', calls) →
  (p' = p <| status := status p' |> ∧ a' = a ∧
     (st_lastError (status p') = None → ∃ f, answer = Some f ∧ shouldApply p f = false)) ∨
  ∃ f, answer = Some f ∧ shouldApply p f = true ∧ haveApplied p' = true ∧ lastApplied p' = fd_Generation f ∧ lastEpoch p' = fd_Epoch f ∧
    ∀ id, id ≠ "" → normalizeIdentity id = id → is_Some (fd_Revoked f !! id) → is_Some (synced a' !! id).
Proof.
  unfold pull. destruct answer as [f|]; [|intros [= <- <- _ _]; by left].
  destruct (match o ← o; Health o with Some _ => true | None => false end); [intros [= <- <- _ _]; by left|].
  destruct (shouldApply p f) eqn:Hs; cbn [negb]; [|intros [= <- <- _ _]; left; split_and!; [by destruct p|done|by exists f]].
  destruct (applyUserRiskFeed o f) as [o1|e]; [|intros [= <- <- _ _]; by left].
  destruct (keepsLocal a f) eqn:Hk; [|unfold ReplaceSynced]; intros [= <- <- _ _]; right; exists f; split_and!; try done.
  - intros id _ _ Hid. unfold keepsLocal in Hk. apply andb_true_iff in Hk as [[Hz%Nat.eqb_eq _]%andb_true_iff _].
    apply map_size_empty_inv in Hz. rewrite Hz, lookup_empty in Hid. by destruct Hid.
  - intros id Hne Hn Hid. by apply (fresh_has _ id id).
Qed.

Lemma keeps_pull id g S answer now p a o calls :
  id ≠ "" → normalizeIdentity id = id → known id g S →
  (∀ f, answer = Some f → ∃ r, inflight S = Some r ∧ rq_stage r = Served ∧ rq_feed r = f) →
  pull hk (loop S) (blocks S) (marks S) answer now = (p, a, o, calls) →
  keeps id g S (mkSystem (servers S) (used S) p a o None).
Proof.
  intros Hne Hn K Hans [(Hp & -> & _)|(f & Hf & _ & Ha & Hg & He & Hid)]%pull_cases; [by apply (keeps_idle id g S)|].
  destruct (Hans f Hf) as (r & Hr & Hst & <-). assert (rq_stage r ≠ Received) as Hnr by by rewrite Hst.
  destruct K as [K1 K2 K3 K4 K5 K6]. destruct (K5 _ Hr Hnr) as (Hu & Hgen & _).
  exists (mkGhosts (read_blocks g) (read_marks g) (read_blocks g) (read_marks g)). split; [|by intros _ _ _ r'].
  split; [exact K1|exact K2| |..].
  - intros _. cbn [loop used]. rewrite He, Hg. by split.
  - intros i s Hi _ Hep. cbn [loop] in Hep. rewrite He in Hep. destruct (K6 _ _ _ Hr Hnr Hi (eq_sym Hep)) as (H1 & H2 & H3).
    split_and!; [done..|]. intros Heq Hsv. apply Hid; [done..|]. apply H3; [by rewrite Hst|done..].
  - by intros r'.
  - by intros r'.
Qed.

(** Every step keeps what is known. *)
Lemma step_keeps id g S e S' :
  id ≠ "" → normalizeIdentity id = id → known id g S → step S e S' → keeps id g S S'.
Proof.
  intros Hne Hn K Hstep.
  destruct Hstep as [i s s' Hi Hh Hc|i s' Hnew Hf|i c Hi|r s at' feed' Hr Hs Hor Hserve|r now p a o calls Hr Hst Hp|r now p a o calls Hr Hp|a o Hs|a o Hs].
  - eapply keeps_changes; [done..|]. apply changes_move; [by eapply (kn_fits _ _ _ K)|done..].
  - by apply keeps_starts.
  - apply (keeps_asks id g S i c Hi K).
  - destruct (decide (rq_stage r = Received)) as [Hst|Hst]; [by eapply keeps_first|].
    destruct Hor as [|He]; [done|]. by eapply keeps_reads.
  - eapply (keeps_pull id g S); [done..| |exact Hp]. intros f [= <-]. by exists r.
  - eapply (keeps_pull id g S); [done..| |exact Hp]. by intros f.
  - by apply keeps_same.
  - by apply (keeps_idle id g S).
Qed.

Lemma runs_known id g allowed S S' :
  id ≠ "" → normalizeIdentity id = id → runs allowed (fun _ => True) S S' → known id g S → ∃ g', known id g' S'.
Proof.
  intros Hne Hn Hr. revert g. induction Hr as [|S S1 S' (e & _ & Hstep & _) _ IH]; intros g K; [by exists g|].
  destruct (step_keeps _ _ _ _ _ Hne Hn K Hstep) as (g' & K' & _). by eapply IH.
Qed.

Lemma runs_timely id g S S' :
  id ≠ "" → normalizeIdentity id = id → runs (fun _ => True) (held id) S S' → known id g S → held id S → timely id g S →
  ∃ g', known id g' S' ∧ held id S' ∧ timely id g' S'.
Proof.
  intros Hne Hn Hr. revert g. induction Hr as [|S S1 S' (e & _ & Hstep & Hh1) _ IH]; intros g K Hh Ht; [by exists g|].
  destruct (step_keeps _ _ _ _ _ Hne Hn K Hstep) as (g' & K' & Ht'). by eapply IH; [|auto..].
Qed.

Lemma initial_known id S : initial S → known id (mkGhosts 0 0 0 0) S.
Proof.
  intros (Hs & Hd & Ha & Hi). split; [exact Hs|exact Hd|..].
  - by rewrite Ha.
  - intros i s _. by rewrite Ha.
  - intros r. by rewrite Hi.
  - intros r i s. by rewrite Hi.
Qed.

(** The edge keeps a block that every process it can ask has. *)
Lemma step_pulled id S e S' :
  id ≠ "" → normalizeIdentity id = id → e ≠ EdgeStarts → step S e S' → held id S →
  let has S := pulled id S ∧ ∀ r, inflight S = Some r → blocksAreRead (rq_stage r) = true → is_Some (fd_Revoked (rq_feed r) !! id) in
  has S → has S'.
Proof.
  intros Hne Hn He Hstep Hh has [Hp Hr].
  destruct Hstep as [i s s' Hi _ _|i s' Hnew Hf|i c Hi|r s at' feed' Hrq Hs Hor Hserve|r now p a o calls Hrq Hst Hpl|r now p a o calls Hrq Hpl|a o Hs|a o Hs];
    try done.
  - split; [exact Hp|]. by intros r [= <-].
  - split; [exact Hp|]. intros r' [= <-]. cbn [rq_stage rq_feed]. specialize (Hr r Hrq). apply serve_cases in Hserve.
    destruct (rq_stage r); [by destruct Hserve as (-> & _)|..].
    + intros _. destruct Hserve as (_ & _ & _ & Hid). by eapply Hid, Hh.
    + intros _. destruct Hserve as (_ & _ & -> & _). by apply Hr.
    + intros _. destruct Hserve as (_ & _ & -> & _). by apply Hr.
    + intros _. destruct Hserve as (_ & _ & -> & _). by apply Hr.
    + intros _. destruct Hserve as (_ & _ & -> & _). by apply Hr.
    + intros _. destruct Hserve as (_ & _ & -> & _). by apply Hr.
  - split; [|by intros r']. destruct (pull_cases _ _ _ _ _ _ _ _ _ Hpl) as [(_ & -> & _)|(f & [= <-] & _ & _ & _ & _ & Hid)]; [done|].
    apply Hid; [done..|]. apply Hr; [done|by rewrite Hst].
  - split; [|by intros r']. destruct (pull_cases _ _ _ _ _ _ _ _ _ Hpl) as [(_ & -> & _)|(f & [=] & _)]. done.
  - split; [|exact Hr]. unfold pulled. cbn [blocks]. change (is_Some (synced a !! id)). by rewrite Hs.
Qed.

Lemma runs_pulled id S S' :
  id ≠ "" → normalizeIdentity id = id → runs (fun e => e ≠ EdgeStarts) (held id) S S' → held id S →
  pulled id S → inflight S = None → pulled id S'.
Proof.
  intros Hne Hn Hr Hh Hp Hi.
  assert (∀ r, inflight S = Some r → blocksAreRead (rq_stage r) = true → is_Some (fd_Revoked (rq_feed r) !! id)) as Hf by (intros r; by rewrite Hi).
  clear Hi. induction Hr as [|S S1 S' (e & He & Hstep & Hh1) _ IH]; [done|].
  destruct (step_pulled _ _ _ _ Hne Hn He Hstep Hh (conj Hp Hf)) as [Hp1 Hf1]. by apply IH.
Qed.

Lemma pulled_refused id identity S : normalizeIdentity identity = id → pulled id S → is_Some (IsRevoked (blocks S) identity).
Proof. unfold pulled, IsRevoked. cbv zeta. intros -> [v Hv]. rewrite Hv. destruct (revoked (blocks S) !! id); by eexists. Qed.

End system.

(** (C4) A device that every control plane blocks is refused by an edge as soon as
    one pull that began afterwards has gone through, whether the answer was taken over or was
    taken for nothing new, and until the edge is restarted: whatever the control planes and the
    edge do in between, whichever of them restart or fail, however the reads of an answer
    interleave with their changes, and from whichever of them the edge pulls next. *)
Theorem answered_pull_enforces_blocks hk `{MapOrder} S S0 S1 S2 S3 identity (id := normalizeIdentity identity) :
  id ≠ "" → initial S → runs hk (fun _ => True) (fun _ => True) S S0 → inflight S0 = None → held id S0 →
  runs hk (fun _ => True) (held id) S0 S1 →
  step hk S1 Delivers S2 → st_lastError (status (loop S2)) = None → held id S2 →
  runs hk (fun e => e ≠ EdgeStarts) (held id) S2 S3 →
  is_Some (IsRevoked (blocks S3) identity).
Proof.
  intros Hne Hi H0 Hidle Hh0 H1 Hstep Hok Hh2 H3. pose proof (normalizeIdentity_idemp identity) as Hn. fold id in Hn.
  destruct (runs_known hk id _ _ _ _ Hne Hn H0 (initial_known id S Hi)) as (g0 & K0).
  destruct (runs_timely hk id g0 S0 S1 Hne Hn H1 K0 Hh0) as (g1 & K1 & Hh1 & Ht); [intros r; by rewrite Hidle|].
  apply (pulled_refused id); [done|]. inversion Hstep as [| | | |r now p a o calls Hr Hst Hp| | |]; subst.
  eapply (runs_pulled hk); [done..| |done]. destruct (Ht r Hr) as [T1 T2].
  destruct (pull_cases _ _ _ _ _ _ _ _ _ _ Hp) as [(_ & -> & Hf)|(f & [= <-] & _ & _ & _ & _ & Hid)].
  - destruct (Hf Hok) as (f & [= <-] & Hs). assert (rq_stage r ≠ Received) as Hnr by by rewrite Hst.
    destruct (kn_answer _ _ _ K1 r Hr Hnr) as (_ & Hgen & _ & _ & Htk). unfold shouldApply in Hs.
    apply orb_false_elim in Hs as [Hs _]. apply orb_false_elim in Hs as [Hs Hlt%Z.ltb_ge]. apply orb_false_elim in Hs as [Ha%negb_false_iff He].
    apply negb_false_iff, String.eqb_eq in He. destruct (Htk Ha (eq_sym He)) as [Hb Hm]. rewrite Hst in Hm. specialize (Hm eq_refl).
    destruct (kn_loop _ _ _ K1 Ha) as [_ Hla]. apply (T2 Hnr Ha); [done|]. lia.
  - unfold pulled. cbn [blocks]. apply Hid; [done..|]. apply T1. by rewrite Hst.
Qed.

(** ** What a sound control plane serves is taken over *)

(** The marks of a process, as its own operations leave them ([HighRiskFleet.wellFormed]). *)
Definition soundMarks (s : server) : Prop :=
  ∀ o, sv_HighRiskOverlay s = Some o →
    HighRiskFleet.canonicalUsers (users o) ∧ HighRiskFleet.canonicalMarks (legacyUnattributed o).

Definition userKey (u : UserRisk) : string := userRiskKey (ur_TenantID u) (ur_ID u).

Definition soundUsers (l : list UserRisk) : Prop :=
  (∀ u, u ∈ l → normalizeUserRisk u = Ok u ∧ riskRank (ur_Severity u) ≠ 0) ∧ NoDup (userKey <$> l).

Definition soundFeed (f : revocationFeed) : Prop :=
  HighRiskFleet.canonicalMarks (fd_LegacyUnattributed f) ∧
  ((fd_UserRiskVersion f = 0 ∧ fd_UserRisk f = [] ∧ fd_LegacyRiskVersion f = 0 ∧ fd_LegacyUnattributed f = ∅) ∨
   (fd_UserRiskVersion f = 1 ∧ fd_LegacyRiskVersion f = 1 ∧ soundUsers (fd_UserRisk f))).

Section accepted.
Context (hk : hooks) `{MapOrder}.

Lemma snapshot_sound o : HighRiskFleet.canonicalUsers (users o) → soundUsers (UserSnapshot o).
Proof.
  intros Hc. assert (UserSnapshot o ≡ₚ (map_to_list (users o)).*2) as Hp.
  { unfold UserSnapshot. rewrite sort_stable_perm. apply iterate_perm. }
  assert (userKey <$> (map_to_list (users o)).*2 = (map_to_list (users o)).*1) as Hk.
  { rewrite <- list_fmap_compose. apply list_fmap_ext. intros i [k u] Hi. cbn.
    apply list_elem_of_lookup_2, elem_of_map_to_list in Hi. by destruct (Hc _ _ Hi) as (-> & _). }
  split.
  - intros u. rewrite Hp. intros ([k u'] & -> & Hi%elem_of_map_to_list)%list_elem_of_fmap. by destruct (Hc _ _ Hi) as (_ & ? & ?).
  - rewrite Hp, Hk. apply NoDup_fst_map_to_list.
Qed.

(** The risk section has its version from the moment it is read. *)
Definition soundAt (at_ : stage) (f : revocationFeed) : Prop :=
  soundFeed f ∧ match at_ with RiskRead | LegacyRead => fd_UserRiskVersion f = 1 | _ => True end.

Lemma serve_sound s c at_ f at' f' : soundMarks s → soundAt at_ f → serveStep s c at_ f = Some (at', f') → soundAt at' f'.
Proof.
  intros Hs [Hf Hv]. unfold serveStep. destruct at_; try done.
  - destruct (_ || _); [done|]. intros [= <- <-]. split; [|done]. split; [apply HighRiskFleet.canonical_none|]. by left.
  - intros [= <- <-]. split; [|done]. by destruct (sv_AdmissionRevocations s).
  - destruct (sv_HighRiskOverlay s); by intros [= <- <-].
  - destruct (sv_HighRiskOverlay s) as [o|] eqn:Ho; [|done]. destruct (Hs o Ho) as [Hu _]. unfold CheckedSnapshot.
    destruct (healthLocked o); [done|]. intros [= <- <-]. split; [|done]. split; [apply Hf|]. right.
    by split; [|split; [|apply snapshot_sound]].
  - destruct (sv_HighRiskOverlay s) as [o|] eqn:Ho; [|done]. destruct (Hs o Ho) as [_ Hl]. intros [= <- <-].
    split; [|done]. split; [exact Hl|]. right. by destruct Hf as [_ [(E & _)|?]]; [rewrite E in Hv|].
  - destruct (sv_HighRiskOverlay s) as [o|] eqn:Ho; [|done]. intros [= <- <-]. by split.
Qed.

Lemma served_sound states c : ∀ at_ f f',
  Forall soundMarks states → soundAt at_ f → serveOver states c at_ f = Some f' → soundFeed f'.
Proof.
  induction states as [|s states IH]; intros at_ f f' Hs Hf; destruct at_; cbn [serveOver]; try done;
    try (by intros [= <-]; apply Hf);
    (apply Forall_cons in Hs as [Hs1 Hs]; intros ([at' f1] & Hst & Hrest)%bind_Some; eapply IH; [done| |exact Hrest];
     by eapply serve_sound).
Qed.

Lemma fresh_users l : ∀ fresh,
  (∀ u, u ∈ l → normalizeUserRisk u = Ok u ∧ riskRank (ur_Severity u) ≠ 0) → NoDup (userKey <$> l) →
  (∀ u, u ∈ l → fresh !! userKey u = None) → ∃ m, freshUsers l fresh = Ok m.
Proof.
  induction l as [|u l IH]; intros fresh Hl Hnd Hf; [by exists fresh|]. cbn [freshUsers].
  destruct (Hl u) as [-> Hr%Z.eqb_neq]; [by left|]. rewrite Hr. fold (userKey u). rewrite (Hf u) by left.
  rewrite fmap_cons in Hnd. apply NoDup_cons in Hnd as [Hu Hnd]. apply IH; [|done|].
  - intros v Hv. apply Hl. by right.
  - intros v Hv. rewrite lookup_insert_ne; [apply Hf; by right|]. intros E. apply Hu. rewrite E. by apply list_elem_of_fmap_2.
Qed.

Lemma valid_legacy m : HighRiskFleet.canonicalMarks m → forallb validLegacyRow (map_to_list m) = true.
Proof.
  intros Hm. apply forallb_forall. intros [k v] Hkv%list_elem_of_In%elem_of_map_to_list.
  destruct (Hm _ _ Hkv) as (Hk & Ht & Hr%Z.eqb_neq). change (nonempty k && String.eqb k (trim_space k) && negb (riskRank v =? 0) = true). rewrite Ht, Hr, String.eqb_refl.
  unfold nonempty. destruct (is_empty k) eqn:E; [by apply is_empty_true in E|done].
Qed.

Lemma apply_sound o f : soundFeed f → (∀ o1, o = Some o1 → Health o1 = None) → ∃ o', applyUserRiskFeed o f = Ok o'.
Proof.
  intros [Hl Hf] Ho. unfold applyUserRiskFeed. cbv zeta. destruct Hf as [(-> & -> & -> & ->)|(-> & -> & Hu & Hnd)]; [by exists o|].
  cbn. rewrite andb_false_r. cbn. destruct o as [o|]; [|by exists None]. rewrite (Ho o eq_refl).
  destruct (_ && _ && _); [by eexists|]. unfold ReplaceSyncedUserRisks.
  destruct (fresh_users (fd_UserRisk f) ∅ Hu Hnd) as [m ->]; [intros; apply lookup_empty|]. rewrite valid_legacy by done. by eexists.
Qed.

End accepted.

(** (C25) An answer that sound control planes assembled, over whatever states its
    reads found, is never rejected by an edge whose own risk state is healthy: the pull
    succeeds, is recorded as such, and the edge is at the epoch of the answer and at its
    generation; only an answer that is no newer than what the edge has applied of that epoch is
    not applied, and leaves the edge at the generation it had. *)
Theorem sound_answers_are_taken_over hk `{MapOrder} states c f p a o now p' a' o' calls :
  Forall soundMarks states → serveOver states c Received emptyFeed = Some f →
  (∀ o1, o = Some o1 → Health o1 = None) → pull hk p a o (Some f) now = (p', a', o', calls) →
  st_lastError (status p') = None ∧ st_consecutiveFail (status p') = 0 ∧ haveApplied p' = true ∧
  lastEpoch p' = fd_Epoch f ∧
  (lastApplied p' = fd_Generation f ∨
   haveApplied p = true ∧ lastEpoch p = fd_Epoch f ∧ lastApplied p' = lastApplied p ∧ fd_Generation f ≤ lastApplied p).
Proof.
  intros Hs Hserve Ho. assert (soundFeed f) as Hf.
  { eapply served_sound; [done| |exact Hserve]. split; [|done]. split; [apply HighRiskFleet.canonical_none|]. by left. }
  unfold pull. assert ((match o1 ← o; Health o1 with Some _ => true | None => false end) = false) as ->.
  { destruct o as [o1|]; [|done]. cbn. by rewrite (Ho o1 eq_refl). }
  destruct (shouldApply p f) eqn:Hsa; cbn [negb].
  - destruct (apply_sound o f Hf Ho) as [o1 ->]. destruct (if keepsLocal a f then _ else _) as [a1 calls1]. intros [= <- <- <- _].
    split_and!; try done. by left.
  - intros [= <- <- <- _]. unfold shouldApply in Hsa. apply orb_false_elim in Hsa as [Hsa _].
    apply orb_false_elim in Hsa as [Hsa Hlt%Z.ltb_ge]. apply orb_false_elim in Hsa as [Ha%negb_false_iff He].
    apply negb_false_iff, String.eqb_eq in He. cbn. split_and!; try done. by right.
Qed.

(** ** A control plane and an edge *)

Section examples.

#[local] Instance plainOrder : MapOrder := { iterate A l := l; iterate_perm A l := reflexivity l }.

Definition noHooks : hooks := mkHooks false false false.

Definition blocked : AdmissionRevocations :=
  (RevokeCheckedContext noHooks NewAdmissionRevocations None Written " LAPTOP-7 " "lost").1.1.1.
Definition riskless (a : AdmissionRevocations) : server := mkServer (Some a) None "1785500000" true None "lab".
Definition full (a : AdmissionRevocations) (o : HighRiskOverlay) : server := mkServer (Some a) (Some o) "1785500000" true None "lab".

Definition atRest (l : list server) : system := mkSystem l {["1785500000"]} newPuller NewAdmissionRevocations None None.
Definition asking (S : system) (at_ : stage) (f : revocationFeed) : system :=
  S <| inflight := Some (mkRequest 0 None at_ f) |>.

Definition first : system := atRest [riskless blocked].
Definition answer (n : nat) : stage * revocationFeed :=
  Nat.iter n (fun x => default x (serveStep (riskless blocked) None x.1 x.2)) (Received, emptyFeed).
Definition served : system := asking first (answer 3).1 (answer 3).2.
Definition taken := pull noHooks newPuller NewAdmissionRevocations None (Some (answer 3).2) 0.
Definition done_ : system := mkSystem (servers first) (used first) taken.1.1.1 taken.1.1.2 taken.1.2 None.

Lemma first_held : held "laptop-7" first.
Proof. intros [|i] s; [|by destruct i]. intros [= <-]. exists blocked. split; [done|]. eexists. vm_compute. reflexivity. Qed.

Lemma answered_pull_enforces_blocks_witness :
  is_Some (IsRevoked (blocks done_) "Laptop-7").
Proof.
  refine (answered_pull_enforces_blocks noHooks first first served done_ done_ "Laptop-7" _ _ (rtc_refl _ _) eq_refl first_held _
    (step_delivers noHooks served (mkRequest 0 None (answer 3).1 (answer 3).2) 0 _ _ _ taken.2 eq_refl _ _) _ first_held (rtc_refl _ _)).
  - vm_compute. discriminate.
  - split; [|split; [|split; reflexivity]].
    + intros [|i] s; [|destruct i; discriminate]. intros [= <-]. split; [vm_compute; repeat split; discriminate|vm_compute; reflexivity].
    + intros [|i] [|j] s t Hi Hj _; try reflexivity; [destruct j; discriminate|destruct i; discriminate|destruct i; discriminate].
  - apply (rtc_l _ first (asking first Received emptyFeed)); [|apply (rtc_l _ _ (asking first (answer 1).1 (answer 1).2));
      [|apply (rtc_l _ _ (asking first (answer 2).1 (answer 2).2)); [|apply (rtc_l _ _ served); [|apply rtc_refl]]]];
      (eexists; split; [exact I|]; split; [|exact first_held]).
    + apply (step_asks noHooks first 0 None eq_refl).
    + apply (step_reads noHooks (asking first Received emptyFeed) (mkRequest 0 None Received emptyFeed) (riskless blocked)); try reflexivity. left. reflexivity.
    + apply (step_reads noHooks (asking first (answer 1).1 (answer 1).2) (mkRequest 0 None (answer 1).1 (answer 1).2) (riskless blocked)); try reflexivity. right. reflexivity.
    + apply (step_reads noHooks (asking first (answer 2).1 (answer 2).2) (mkRequest 0 None (answer 2).1 (answer 2).2) (riskless blocked)); try reflexivity. right. reflexivity.
  - reflexivity.
  - vm_compute. reflexivity.
  - vm_compute. reflexivity.
Defined.

(** An answer with marks, assembled while nothing changes. *)
Definition marked : server := full blocked HighRiskFleet.marked.
Definition markedFeed : revocationFeed := default emptyFeed (serveRevocations marked None).
Definition markedPull := pull noHooks newPuller NewAdmissionRevocations (Some NewHighRiskOverlay) (Some markedFeed) 0.

Lemma sound_answers_are_taken_over_witness :
  st_lastError (status markedPull.1.1.1) = None ∧ st_consecutiveFail (status markedPull.1.1.1) = 0.
Proof.
  destruct (sound_answers_are_taken_over noHooks (replicate 6 marked) None markedFeed newPuller NewAdmissionRevocations
    (Some NewHighRiskOverlay) 0 markedPull.1.1.1 markedPull.1.1.2 markedPull.1.2 markedPull.2) as (H1 & H2 & _).
  - apply Forall_replicate. intros o [= <-]. split; [apply HighRiskFleet.alice_canonical|].
    by apply HighRiskFleet.singleton_marks.
  - vm_compute. reflexivity.
  - intros o1 [= <-]. reflexivity.
  - vm_compute. reflexivity.
  - split; [exact H1|exact H2].
Defined.

(** A block that lands between two reads of an answer may travel with the older generation; it
    is then taken over with that answer or with the next. *)
Example block_between_reads :
  let early := serveOver [riskless NewAdmissionRevocations; riskless NewAdmissionRevocations; riskless blocked] None Received emptyFeed in
  let '(p, a, _) := run noHooks [(early, 0)] newPuller NewAdmissionRevocations None in
  let '(p', a', _) := run noHooks [(serveRevocations (riskless blocked) None, 1)] p a None in
  IsRevoked a "laptop-7" = None ∧ st_lastError (status p) = None ∧ IsRevoked a' "laptop-7" = Some "lost".
Proof. vm_compute. done. Qed.

(** An empty answer releases the last device only when it says that it is complete; a failed
    pull releases nobody. *)
Example empty_answer_must_be_complete :
  let feed := default emptyFeed (serveRevocations (riskless blocked) None) in
  let '(p, a, _) := run noHooks [(Some feed, 0)] newPuller NewAdmissionRevocations None in
  let empty authoritative := emptyFeed <| fd_Epoch := "2" |> <| fd_Authoritative := authoritative |> in
  IsRevoked a "laptop-7" = Some "lost" ∧
  IsRevoked (run noHooks [(None, 1)] p a None).1.2 "laptop-7" = Some "lost" ∧
  IsRevoked (run noHooks [(Some (empty false), 1)] p a None).1.2 "laptop-7" = Some "lost" ∧
  IsRevoked (run noHooks [(Some (empty true), 1)] p a None).1.2 "laptop-7" = None.
Proof. vm_compute. done. Qed.

(** The kill-switches travel with the marks: while a control plane cannot read its marks, or an
    edge its own, no block is delivered. *)
Example unreadable_marks_stop_the_feed :
  serveRevocations (full blocked (NewHighRiskOverlay <| loadErr := Some ErrRiskLoad |>)) None = None ∧
  (let '(p, a, _, _) := pull noHooks newPuller NewAdmissionRevocations (Some (NewHighRiskOverlay <| loadErr := Some ErrRiskLoad |>))
                          (serveRevocations (riskless blocked) None) 0 in
   st_lastError (status p) = Some RiskStateNotReady ∧ IsRevoked a "laptop-7" = None).
Proof. vm_compute. done. Qed.

End examples.

End FeedSync.
