(* ===== verification/PolicyRule.v ===== *)
(** * Authored access rules ([src/policyrule/policyrule.go])

    What an operator writes in the console: source, destination, service, action and
    lifecycle of one rule; the selectors that name a person, a group or an agent; and
    [normalizeAndValidate], the gate every rule passes before it is stored or
    distributed. *)

From stdpp Require Import base gmap list strings.
From S2P Require Import Prelude GoStd Model Common.

Open Scope Z_scope.

Module PolicyRule.

Definition PlaneEastWest : string := "east_west".
Definition PlaneEgress : string := "egress".
Definition DirectionOutbound : string := "outbound".
Definition DirectionInbound : string := "inbound".
Definition AccessAllow : string := "allow".
Definition AccessAuthenticate : string := "authenticate".
Definition AccessDeny : string := "deny".
Definition InspectionInspect : string := "inspect".
Definition InspectionBypass : string := "bypass".
Definition StatusActive : string := "active".
Definition StatusDisabled : string := "disabled".
Definition StageEnforce : string := "enforce".
Definition StageWarn : string := "warn".
Definition SubjectAny : string := "*".

Definition IsAnySubject (ids : list string) : bool :=
  existsb (fun id => String.eqb (trim_space id) SubjectAny) ids.

Definition IdentityGroupPrefix : string := "idgroup:".
Definition IdentityUserPrefix : string := "iduser:".
Definition AgentPrefix : string := "nhi:".

(** The name after a selector prefix; a blank one is no selector. *)
Definition prefixToken (prefix id : string) : option string :=
  match strip_prefix prefix (trim_space id) with
  | None => None
  | Some rest => if is_empty (trim_space rest) then None else Some (trim_space rest)
  end.

Definition IdentityGroupToken : string → option string := prefixToken IdentityGroupPrefix.
Definition IdentityUserToken : string → option string := prefixToken IdentityUserPrefix.
Definition AgentToken : string → option string := prefixToken AgentPrefix.

Record Action := mkAction {
  act_Access : string;
  act_Inspection : string;
  act_RequireWorkloadAttestation : bool;
  act_GrantTTLSeconds : Z;
  act_RequiredIdPID : string;
  act_MinACR : string;
  act_RequiredAMR : list string;
  act_MaxAgeSeconds : option Z;
  act_DeviceAttestedAuto : bool;
  act_DLP : option DLPSpec;
}.

#[export] Instance Action_eta : Etaable Action := fun a =>
  mkAction (act_Access a) (act_Inspection a) (act_RequireWorkloadAttestation a)
    (act_GrantTTLSeconds a) (act_RequiredIdPID a) (act_MinACR a) (act_RequiredAMR a)
    (act_MaxAgeSeconds a) (act_DeviceAttestedAuto a) (act_DLP a).

Record Rule := mkRule {
  ru_ID : string;
  ru_TenantID : string;
  ru_Plane : string;
  ru_Direction : string;
  ru_Priority : Z;
  ru_Name : string;
  ru_Source : list string;
  ru_Destination : list string;
  ru_ServiceID : string;
  ru_Action : Action;
  ru_AllowedToolIDs : list string;
  ru_RiskAtLeast : string;
  ru_Status : string;
  ru_Stage : string;
}.

#[export] Instance Rule_eta : Etaable Rule := fun r =>
  mkRule (ru_ID r) (ru_TenantID r) (ru_Plane r) (ru_Direction r) (ru_Priority r) (ru_Name r)
    (ru_Source r) (ru_Destination r) (ru_ServiceID r) (ru_Action r) (ru_AllowedToolIDs r)
    (ru_RiskAtLeast r) (ru_Status r) (ru_Stage r).

#[export] Instance DLPSpec_eq_dec : EqDecision DLPSpec.
Proof. solve_decision. Defined.
#[export] Instance Action_eq_dec : EqDecision Action.
Proof. solve_decision. Defined.
#[export] Instance Rule_eq_dec : EqDecision Rule.
Proof. solve_decision. Defined.

Definition zero_Action : Action := mkAction "" "" false 0 "" "" [] None false None.
Definition zero_Rule : Rule := mkRule "" "" "" "" 0 "" [] [] "" zero_Action [] "" "" "".

(** ** Risk thresholds *)

Definition riskSeverityRank (severity : string) : option Z :=
  switch severity [
    (["low"], Some 1); (["medium"], Some 2); (["high"], Some 3); (["critical"], Some 4)
  ] None.

Definition riskSeverities : list string := ["low"; "medium"; "high"; "critical"].

Definition RiskSeveritiesAtLeast (threshold : string) : list string :=
  match riskSeverityRank (to_lower (trim_space threshold)) with
  | None => []
  | Some minRank =>
      List.filter (fun s => match riskSeverityRank s with
                            | Some rank => minRank <=? rank
                            | None => false
                            end) riskSeverities
  end.

(** ** Validation

    The method assigns to the receiver as it goes and stops at the first violation;
    each step below is one of its paragraphs. *)

Definition normalizeTenant (r : Rule) : result string Rule :=
  let r := r <| ru_TenantID := trim_space (ru_TenantID r) |> in
  if is_empty (ru_TenantID r) then Err "tenant_id is required" else Ok r.

Definition normalizePlane (r : Rule) : result string Rule :=
  let r := r <| ru_Plane := folded (ru_Plane r) |> in
  if String.eqb (ru_Plane r) PlaneEastWest then
    let r := r <| ru_Direction := valueOrDefault (folded (ru_Direction r)) DirectionOutbound |> in
    if containsString [DirectionOutbound; DirectionInbound] (ru_Direction r) then Ok r
    else Err ("east-west direction " +:+ quote (ru_Direction r)
              +:+ " is invalid (want outbound|inbound)")
  else if String.eqb (ru_Plane r) PlaneEgress then
    if is_blank (ru_Direction r) then Ok r else Err "egress rules have no direction"
  else Err ("plane " +:+ quote (ru_Plane r) +:+ " is invalid (want east_west|egress)").

Definition normalizeAction (a : Action) : result string Action :=
  let a := a <| act_Access := folded (act_Access a) |> in
  if negb (containsString [AccessAllow; AccessAuthenticate; AccessDeny] (act_Access a))
  then Err ("access " +:+ quote (act_Access a)
            +:+ " is invalid (want allow|authenticate|deny)") else
  let a := a <| act_Inspection := valueOrDefault (folded (act_Inspection a)) InspectionInspect |> in
  if negb (containsString [InspectionInspect; InspectionBypass] (act_Inspection a))
  then Err ("inspection " +:+ quote (act_Inspection a)
            +:+ " is invalid (want inspect|bypass)") else
  if String.eqb (act_Access a) AccessDeny && String.eqb (act_Inspection a) InspectionBypass
  then Err "deny cannot bypass inspection" else
  if act_GrantTTLSeconds a <? 0 then Err "grant_ttl_seconds cannot be negative" else
  match act_MaxAgeSeconds a with
  | Some age => if (age <? 0) || (86400 <? age)
                then Err "max_age_seconds must be an integer from 0 to 86400" else Ok a
  | None => Ok a
  end.

Definition canonicalSubjects (ids : list string) : list string :=
  if IsAnySubject ids then [SubjectAny] else ids.

Definition normalizeSubjects (r : Rule) : result string Rule :=
  if (length (ru_Source r) =? 0)%nat
  then Err "source requires at least one endpoint or group (or Any)" else
  if (length (ru_Destination r) =? 0)%nat
  then Err "destination requires at least one endpoint or group (or Any)" else
  if existsb is_blank (ru_Source r) then Err "source contains a blank id" else
  if existsb is_blank (ru_Destination r) then Err "destination contains a blank id" else
  Ok (r <| ru_Source := canonicalSubjects (ru_Source r) |>
        <| ru_Destination := canonicalSubjects (ru_Destination r) |>).

Definition normalizeRisk (r : Rule) : result string Rule :=
  let r := r <| ru_RiskAtLeast := folded (ru_RiskAtLeast r) |> in
  let r := if String.eqb (ru_RiskAtLeast r) "none" then r <| ru_RiskAtLeast := "" |> else r in
  if nonempty (ru_RiskAtLeast r) && negb (bool_decide (is_Some (riskSeverityRank (ru_RiskAtLeast r))))
  then Err ("risk_at_least " +:+ quote (ru_RiskAtLeast r)
            +:+ " is invalid (want low|medium|high|critical)")
  else Ok r.

Definition normalizeLifecycle (r : Rule) : result string Rule :=
  let r := r <| ru_Status := valueOrDefault (folded (ru_Status r)) StatusActive |> in
  if negb (containsString [StatusActive; StatusDisabled] (ru_Status r))
  then Err ("status " +:+ quote (ru_Status r) +:+ " is invalid (want active|disabled)") else
  let r := r <| ru_Stage := valueOrDefault (folded (ru_Stage r)) StageEnforce |> in
  if negb (containsString [StageEnforce; StageWarn] (ru_Stage r))
  then Err ("stage " +:+ quote (ru_Stage r) +:+ " is invalid (want enforce|warn)") else
  if String.eqb (ru_Stage r) StageWarn && negb (String.eqb (ru_Plane r) PlaneEastWest)
  then Err "stage warn is only valid on east-west rules" else Ok r.

Definition normalizeAndValidate (r : Rule) : result string Rule :=
  let! r := normalizeTenant r in
  let! r := normalizePlane r in
  let! a := normalizeAction (ru_Action r) in
  let! r := normalizeSubjects (r <| ru_Action := a |>) in
  let! r := normalizeRisk r in
  normalizeLifecycle r.

(** * Properties *)

(** What every stored rule looks like. *)
Record canonical (r : Rule) : Prop := {
  can_tenant : trim_space (ru_TenantID r) = ru_TenantID r ∧ ru_TenantID r ≠ "";
  can_plane :
    (ru_Plane r = PlaneEastWest ∧ ru_Direction r ∈ [DirectionOutbound; DirectionInbound]) ∨
    (ru_Plane r = PlaneEgress ∧ is_blank (ru_Direction r) = true ∧ ru_Stage r = StageEnforce);
  can_access : act_Access (ru_Action r) ∈ [AccessAllow; AccessAuthenticate; AccessDeny];
  can_inspection : act_Inspection (ru_Action r) ∈ [InspectionInspect; InspectionBypass];
  can_deny_inspects : act_Access (ru_Action r) = AccessDeny →
    act_Inspection (ru_Action r) = InspectionInspect;
  can_ttl : 0 ≤ act_GrantTTLSeconds (ru_Action r);
  can_age : ∀ age, act_MaxAgeSeconds (ru_Action r) = Some age → 0 ≤ age ≤ 86400;
  can_source : ru_Source r ≠ [] ∧ Forall (fun id => is_blank id = false) (ru_Source r) ∧
    canonicalSubjects (ru_Source r) = ru_Source r;
  can_destination : ru_Destination r ≠ [] ∧
    Forall (fun id => is_blank id = false) (ru_Destination r) ∧
    canonicalSubjects (ru_Destination r) = ru_Destination r;
  can_risk : ru_RiskAtLeast r ∈ "" :: riskSeverities;
  can_status : ru_Status r ∈ [StatusActive; StatusDisabled];
  can_stage : ru_Stage r ∈ [StageEnforce; StageWarn];
}.

Lemma riskSeverityRank_some s : is_Some (riskSeverityRank s) ↔ s ∈ riskSeverities.
Proof.
  unfold riskSeverityRank, riskSeverities. cbn [switch]. split.
  - repeat match goal with |- context [containsString ?l s] =>
      let E := fresh in destruct (containsString l s) eqn:E;
        [intros _; apply containsString_spec in E; rewrite !elem_of_cons in *; tauto|] end.
    by intros [? [=]].
  - rewrite !elem_of_cons, elem_of_nil. intros H. destruct_or! H; subst; eauto; done.
Qed.

Lemma canonicalSubjects_idemp ids : canonicalSubjects (canonicalSubjects ids) = canonicalSubjects ids.
Proof. unfold canonicalSubjects. destruct (IsAnySubject ids) eqn:E; [done|by rewrite E]. Qed.

Lemma canonicalSubjects_keeps ids :
  ids ≠ [] → existsb is_blank ids = false →
  canonicalSubjects ids ≠ [] ∧ Forall (fun id => is_blank id = false) (canonicalSubjects ids).
Proof.
  intros Hne Hb. unfold canonicalSubjects. destruct (IsAnySubject ids); [by repeat constructor|].
  split; [done|]. apply Forall_forall. intros id Hid. apply not_true_is_false. intros Hid'.
  assert (existsb is_blank ids = true); [|congruence].
  apply existsb_exists. exists id. by rewrite <- list_elem_of_In.
Qed.

(** A word of a fixed vocabulary is its own normal form. *)
Definition normal_word (s : string) : Prop := folded s = s ∧ s ≠ "".

Lemma normal_word_default s d : normal_word s → valueOrDefault (folded s) d = s.
Proof. intros [-> Hne]. unfold valueOrDefault. destruct (is_empty s) eqn:E; [|done].
  by apply is_empty_true in E. Qed.

Lemma vocabulary_normal (words : list string) s :
  Forall normal_word words → s ∈ words → normal_word s.
Proof. rewrite Forall_forall. auto. Qed.

Ltac in_vocabulary H :=
  apply vocabulary_normal in H; [|repeat (constructor; [split; [reflexivity|discriminate]|]);
    constructor].

Lemma normalizeAction_ok a a' :
  normalizeAction a = Ok a' →
  act_Access a' ∈ [AccessAllow; AccessAuthenticate; AccessDeny] ∧
  act_Inspection a' ∈ [InspectionInspect; InspectionBypass] ∧
  (act_Access a' = AccessDeny → act_Inspection a' = InspectionInspect) ∧
  0 ≤ act_GrantTTLSeconds a' ∧
  (∀ age, act_MaxAgeSeconds a' = Some age → 0 ≤ age ≤ 86400).
Proof.
  unfold normalizeAction. cbn zeta.
  set (a1 := a <| act_Access := _ |>).
  destruct (containsString _ (act_Access a1)) eqn:Hacc; [|done]. cbn [negb].
  set (a2 := a1 <| act_Inspection := _ |>).
  destruct (containsString _ (act_Inspection a2)) eqn:Hins; [|done]. cbn [negb].
  destruct (_ && _) eqn:Hdeny; [done|].
  destruct (act_GrantTTLSeconds a2 <? 0) eqn:Httl; [done|].
  intros H. assert (a' = a2 ∧ ∀ age, act_MaxAgeSeconds a2 = Some age → 0 ≤ age ≤ 86400)
    as [-> Hage].
  { destruct (act_MaxAgeSeconds a2) as [age|]; [|by simplify_eq].
    destruct (_ || _) eqn:E; [done|]. bool_facts. simplify_eq. split; [done|].
    intros ? [= <-]. lia. }
  apply containsString_spec in Hacc, Hins. split_and!; [done|done| |bool_facts; lia|done].
  intros Hd. rewrite !elem_of_cons, elem_of_nil in Hins. destruct Hins as [?|[Hb|[]]]; [done|].
  by rewrite Hd, Hb in Hdeny.
Qed.

Lemma normalizeAction_fixed a :
  act_Access a ∈ [AccessAllow; AccessAuthenticate; AccessDeny] →
  act_Inspection a ∈ [InspectionInspect; InspectionBypass] →
  (act_Access a = AccessDeny → act_Inspection a = InspectionInspect) →
  0 ≤ act_GrantTTLSeconds a →
  (∀ age, act_MaxAgeSeconds a = Some age → 0 ≤ age ≤ 86400) →
  normalizeAction a = Ok a.
Proof.
  intros Hacc Hins Hdeny Httl Hage. unfold normalizeAction. cbn zeta.
  assert (a <| act_Access := folded (act_Access a) |> = a) as ->.
  { in_vocabulary Hacc. destruct Hacc as [Hacc _]. rewrite Hacc. by destruct a. }
  assert (a <| act_Inspection := valueOrDefault (folded (act_Inspection a)) InspectionInspect |>
          = a) as ->.
  { in_vocabulary Hins. rewrite normal_word_default by done. by destruct a. }
  apply containsString_spec in Hacc as ->, Hins as ->. cbn [negb].
  destruct (String.eqb_spec (act_Access a) AccessDeny) as [Hd|Hd]; cbn [andb];
    [rewrite (Hdeny Hd); cbn|];
    (rewrite (proj2 (Z.ltb_ge _ _)) by done);
    (destruct (act_MaxAgeSeconds a) as [age|]; [|done]);
    specialize (Hage age eq_refl);
    (rewrite (proj2 (Z.ltb_ge _ _)), (proj2 (Z.ltb_ge _ _)) by lia); done.
Qed.

Lemma normalizeTenant_ok r r' :
  normalizeTenant r = Ok r' →
  ∃ t, r' = r <| ru_TenantID := t |> ∧ t = trim_space (ru_TenantID r) ∧ t ≠ "".
Proof.
  unfold normalizeTenant. cbn zeta. destruct (is_empty _) eqn:E; [done|]. intros [= <-].
  eexists. split_and!; [done..|]. intros H. cbn in E. by rewrite H in E.
Qed.

Lemma normalizePlane_ok r r' :
  normalizePlane r = Ok r' →
  ∃ p d, r' = r <| ru_Plane := p |> <| ru_Direction := d |> ∧
  ((p = PlaneEastWest ∧ d ∈ [DirectionOutbound; DirectionInbound]) ∨
   (p = PlaneEgress ∧ is_blank d = true)).
Proof.
  unfold normalizePlane. cbn zeta. intros H.
  destruct (String.eqb_spec (ru_Plane (r <| ru_Plane := folded (ru_Plane r) |>)) PlaneEastWest)
    as [He|_].
  - destruct (containsString _ _) eqn:Hd; [|done]. apply containsString_spec in Hd.
    simplify_eq. do 2 eexists. split; [done|left]. by split.
  - destruct (String.eqb_spec (ru_Plane (r <| ru_Plane := folded (ru_Plane r) |>)) PlaneEgress)
      as [He|_]; [|done].
    destruct (is_blank _) eqn:Hd; [|done]. simplify_eq.
    exists (folded (ru_Plane r)), (ru_Direction r). split; [by destruct r|by right].
Qed.

Lemma normalizeSubjects_ok r r' :
  normalizeSubjects r = Ok r' →
  ∃ src dst, r' = r <| ru_Source := src |> <| ru_Destination := dst |> ∧
  (src ≠ [] ∧ Forall (fun id => is_blank id = false) src ∧ canonicalSubjects src = src) ∧
  (dst ≠ [] ∧ Forall (fun id => is_blank id = false) dst ∧ canonicalSubjects dst = dst).
Proof.
  unfold normalizeSubjects.
  destruct (Nat.eqb_spec (length (ru_Source r)) 0) as [|Hs]; [done|].
  destruct (Nat.eqb_spec (length (ru_Destination r)) 0) as [|Hd]; [done|].
  destruct (existsb is_blank (ru_Source r)) eqn:Hbs; [done|].
  destruct (existsb is_blank (ru_Destination r)) eqn:Hbd; [done|]. intros [= <-].
  do 2 eexists. split; [done|].
  destruct (canonicalSubjects_keeps (ru_Source r)) as [? ?]; [by intros Hn; rewrite Hn in Hs|done|].
  destruct (canonicalSubjects_keeps (ru_Destination r)) as [? ?];
    [by intros Hn; rewrite Hn in Hd|done|].
  by rewrite !canonicalSubjects_idemp.
Qed.

Lemma normalizeRisk_ok r r' :
  normalizeRisk r = Ok r' →
  ∃ k, r' = r <| ru_RiskAtLeast := k |> ∧ k ∈ "" :: riskSeverities.
Proof.
  unfold normalizeRisk. cbn zeta.
  set (r1 := if String.eqb _ "none" then _ else _).
  assert (r1 = r <| ru_RiskAtLeast := ru_RiskAtLeast r1 |>) as Hr1.
  { unfold r1. case_match; by destruct r. }
  clearbody r1. destruct (_ && _) eqn:E; [done|]. intros [= <-]. eexists. split; [done|].
  apply andb_false_iff in E as [E|E]; bool_facts.
  - unfold nonempty in E. bool_facts. apply is_empty_true in E. rewrite E. left.
  - right. by apply riskSeverityRank_some.
Qed.

Lemma normalizeLifecycle_ok r r' :
  normalizeLifecycle r = Ok r' →
  ∃ st sg, r' = r <| ru_Status := st |> <| ru_Stage := sg |> ∧
  st ∈ [StatusActive; StatusDisabled] ∧ sg ∈ [StageEnforce; StageWarn] ∧
  (sg = StageWarn → ru_Plane r = PlaneEastWest).
Proof.
  unfold normalizeLifecycle. cbn zeta. set (r1 := r <| ru_Status := _ |>).
  destruct (containsString _ (ru_Status r1)) eqn:Hst; [|done]. cbn [negb].
  set (r2 := r1 <| ru_Stage := _ |>).
  destruct (containsString _ (ru_Stage r2)) eqn:Hsg; [|done]. cbn [negb].
  destruct (_ && _) eqn:Hw; [done|]. intros [= <-].
  apply containsString_spec in Hst, Hsg.
  exists (ru_Status r1), (ru_Stage r2). split_and!; [done..|].
  intros Hs. rewrite Hs in Hw. cbn [andb String.eqb] in Hw.
  apply (andb_false_iff) in Hw as [Hw|Hw]; [done|]. by bool_facts.
Qed.

(** The five steps together. *)
Lemma normalizeAndValidate_ok r r' :
  normalizeAndValidate r = Ok r' →
  canonical r' ∧ ru_TenantID r' = trim_space (ru_TenantID r) ∧ ru_ID r' = ru_ID r ∧
  ru_Priority r' = ru_Priority r ∧ ru_ServiceID r' = ru_ServiceID r.
Proof.
  unfold normalizeAndValidate.
  rewrite result_bind_ok. intros (? & (t & -> & Ht & Hne)%normalizeTenant_ok & H).
  rewrite result_bind_ok in H. destruct H as (? & (p & d & -> & Hp)%normalizePlane_ok & H).
  rewrite result_bind_ok in H. destruct H as (a & Ha & H).
  apply normalizeAction_ok in Ha as (Hacc & Hins & Hdi & Httl & Hage).
  rewrite result_bind_ok in H.
  destruct H as (? & (src & dst & -> & Hsrc & Hdst)%normalizeSubjects_ok & H).
  rewrite result_bind_ok in H. destruct H as (? & (k & -> & Hr)%normalizeRisk_ok & H).
  apply normalizeLifecycle_ok in H as (st & sg & -> & Hst & Hsg & Hw). cbn in Hw.
  split; [|done]. constructor; try done.
  - split; [|done]. cbn. subst t. apply trim_space_idemp.
  - destruct Hp as [?|[-> ?]]; [by left|right]. split_and!; [done..|]. cbn.
    rewrite !elem_of_cons, elem_of_nil in Hsg. destruct Hsg as [?|[?|[]]]; [done|].
    by specialize (Hw ltac:(done)).
Qed.

Lemma normalizePlane_fixed r :
  (ru_Plane r = PlaneEastWest ∧ ru_Direction r ∈ [DirectionOutbound; DirectionInbound]) ∨
  (ru_Plane r = PlaneEgress ∧ is_blank (ru_Direction r) = true ∧ ru_Stage r = StageEnforce) →
  normalizePlane r = Ok r.
Proof.
  intros H. unfold normalizePlane. cbn zeta.
  assert (r <| ru_Plane := folded (ru_Plane r) |> = r) as ->.
  { destruct r; cbn in *. by destruct H as [[-> _]|[-> _]]. }
  destruct H as [[Hp Hd]|(Hp & Hd & _)]; rewrite Hp.
  - rewrite String.eqb_refl.
    assert (normal_word (ru_Direction r)) as Hn by (by in_vocabulary Hd).
    rewrite normal_word_default by done.
    replace (r <| ru_Direction := ru_Direction r |>) with r by (by destruct r).
    by apply containsString_spec in Hd as ->.
  - change (String.eqb PlaneEgress PlaneEastWest) with false. by rewrite String.eqb_refl, Hd.
Qed.

Lemma blank_free ids : Forall (fun id => is_blank id = false) ids → existsb is_blank ids = false.
Proof. induction 1 as [|id ids Hid _ IH]; [done|]. cbn. by rewrite Hid. Qed.

Lemma normalizeSubjects_fixed r : canonical r → normalizeSubjects r = Ok r.
Proof.
  intros [_ _ _ _ _ _ _ (Hs & Hbs & Hcs) (Hd & Hbd & Hcd) _ _ _]. unfold normalizeSubjects.
  destruct (Nat.eqb_spec (length (ru_Source r)) 0) as [?%nil_length_inv|_]; [done|].
  destruct (Nat.eqb_spec (length (ru_Destination r)) 0) as [?%nil_length_inv|_]; [done|].
  rewrite !blank_free, Hcs, Hcd by done. by destruct r.
Qed.

Lemma normalizeRisk_fixed r : canonical r → normalizeRisk r = Ok r.
Proof.
  intros Hc. pose proof (can_risk r Hc) as Hr. unfold normalizeRisk. cbn zeta.
  assert (r <| ru_RiskAtLeast := folded (ru_RiskAtLeast r) |> = r) as ->.
  { unfold riskSeverities in Hr. rewrite !elem_of_cons, elem_of_nil in Hr.
    destruct r. cbn in *. destruct_or! Hr; by subst. }
  replace (if String.eqb (ru_RiskAtLeast r) "none" then _ else r) with r.
  2: { unfold riskSeverities in Hr. rewrite !elem_of_cons, elem_of_nil in Hr.
    destruct_or! Hr; by rewrite Hr. }
  apply elem_of_cons in Hr as [Hr|Hr]; [by rewrite Hr|].
  apply riskSeverityRank_some in Hr. rewrite (bool_decide_eq_true_2 _ Hr).
  by rewrite andb_false_r.
Qed.

Lemma normalizeLifecycle_fixed r : canonical r → normalizeLifecycle r = Ok r.
Proof.
  intros Hc. pose proof (can_status r Hc) as Hst. pose proof (can_stage r Hc) as Hsg.
  unfold normalizeLifecycle. cbn zeta.
  rewrite normal_word_default by (by in_vocabulary Hst).
  replace (r <| ru_Status := ru_Status r |>) with r by (by destruct r).
  apply containsString_spec in Hst as ->. cbn [negb].
  rewrite normal_word_default by (by in_vocabulary Hsg).
  replace (r <| ru_Stage := ru_Stage r |>) with r by (by destruct r).
  apply containsString_spec in Hsg as ->. cbn [negb].
  destruct (String.eqb_spec (ru_Stage r) StageWarn) as [Hw|_]; [|done]. cbn [andb].
  destruct (can_plane r Hc) as [[-> _]|(_ & _ & He)]; [done|by rewrite He in Hw].
Qed.

Lemma canonical_fixed r : canonical r → normalizeAndValidate r = Ok r.
Proof.
  intros Hc. unfold normalizeAndValidate, normalizeTenant. cbn zeta.
  destruct (can_tenant r Hc) as [-> Hne].
  replace (r <| ru_TenantID := ru_TenantID r |>) with r by (by destruct r).
  destruct (is_empty (ru_TenantID r)) eqn:E; [by apply is_empty_true in E|]. cbn [result_bind].
  rewrite normalizePlane_fixed by apply Hc. cbn [result_bind].
  rewrite normalizeAction_fixed by apply Hc. cbn [result_bind].
  replace (r <| ru_Action := ru_Action r |>) with r by (by destruct r).
  rewrite normalizeSubjects_fixed by done. cbn [result_bind].
  rewrite normalizeRisk_fixed by done. cbn [result_bind]. by apply normalizeLifecycle_fixed.
Qed.

(** (C40) The rules that pass validation are exactly the
    canonical ones: words in lower case from their vocabularies, a wildcard alone in its
    list, no blank selector, no deny that bypasses inspection, limits in range, a warning
    stage only on the lateral plane.  Validating such a rule again changes nothing. *)
Theorem validated_rules_canonical r :
  (canonical r ↔ ∃ r0, normalizeAndValidate r0 = Ok r) ∧
  (canonical r ↔ normalizeAndValidate r = Ok r).
Proof.
  split; split.
  - intros Hc. exists r. by apply canonical_fixed.
  - intros [r0 [Hc _]%normalizeAndValidate_ok]. done.
  - apply canonical_fixed.
  - by intros [Hc _]%normalizeAndValidate_ok.
Qed.

End PolicyRule.
