(* ===== verification/RuleCompile.v ===== *)
(** * Egress rules become policies ([src/policyrule/compile_egress.go, service_transport.go])

    How the authored egress rules of [PolicyRule] become policies of the condition
    language, and what the policies of one rule accept together.  The asset catalogue is
    reached through the interface [EgressResolver]; what it promises is the class
    [PointwiseResolver]. *)

From stdpp Require Import base gmap sets list strings.
From S2P Require Import Prelude GoStd GoNet Model Common Conditions PolicyOrder SaaSCatalog Inspection.
From S2P Require Import BreakGlass Guards Locality EastWest Evaluator Decision PolicyRule.
Import PolicyRule.

Open Scope Z_scope.

Module RuleCompile.

(** ** The resolver

    A method that the Go code finds by a type assertion is an [option]. *)

Definition transports := gmap string (list Z).

Class EgressResolver (R : Type) := {
  SourceDeviceTokens : R → string → list string → list string;
  EndpointAddresses : R → string → list string → list string;
  serviceTransportResolver : R → option (string → string → transports);
}.

Definition nul : string := String (Ascii.ascii_of_N 0) "".
Definition sourceNoMatchSentinel : string := nul +:+ "no-such-source-device".
Definition destinationNoMatchSentinel : string := nul +:+ "no-such-destination".

(** ** Services *)

Definition validTransport (kv : string * list Z) : bool :=
  containsString ["tcp"; "udp"] kv.1 && negb (is_nil kv.2)
  && forallb (fun port => (1 <=? port) && (port <=? 65535)) kv.2.

(** The distinct ports in increasing order. *)
Definition sortedPorts (ports : list Z) : list Z :=
  sort_stable Z.ltb (elements (list_to_set ports : gset Z)).

Definition transportCondition (protocol : string) (ports : list Z) : list metadata :=
  match ports with
  | [] => []
  | [port] => [{[ "protocol" := VStr protocol; "destination_port" := VInt port ]}]
  | _ => [{[ "protocol" := VStr protocol;
             "destination_port" := VList (List.map VInt ports) ]}]
  end.

Definition egressServiceConditions (tenant serviceID : string)
    (resolver : option (string → string → transports)) : list metadata * bool :=
  let noMatch : list metadata := [{[ "protocol" := VList [] ]}] in
  if is_empty serviceID then ([∅], true) else
  match resolver with
  | None => (noMatch, false)
  | Some resolve =>
      let ts := resolve tenant serviceID in
      if bool_decide (ts = ∅) then (noMatch, false)
      else if negb (forallb validTransport (map_to_list ts)) then (noMatch, false)
      else (flat_map (fun protocol =>
              transportCondition protocol (sortedPorts (default [] (ts !! protocol))))
              ["tcp"; "udp"], true)
  end.

Definition EgressServiceUnresolved (tenant serviceID : string)
    (resolver : option (string → string → transports)) : bool :=
  negb (egressServiceConditions tenant serviceID resolver).2.

(** ** Sources *)

(** What a source selector names: the cascade of [continue]s in the loop. *)
Inductive subject :=
  | IdentityGroup (g : string)
  | IdentityUser (u : string)
  | Agent (a : string)
  | Device (id : string).

Definition classify (s : string) : subject :=
  match IdentityGroupToken s with
  | Some g => IdentityGroup g
  | None => match IdentityUserToken s with
            | Some u => IdentityUser u
            | None => match AgentToken s with
                      | Some a => Agent a
                      | None => Device s
                      end
            end
  end.

Definition identityGroups (ids : list string) : list string :=
  omap (fun s => match classify s with IdentityGroup g => Some g | _ => None end) ids.
Definition identityUsers (ids : list string) : list string :=
  omap (fun s => match classify s with IdentityUser u => Some u | _ => None end) ids.
Definition agentIDs (ids : list string) : list string :=
  omap (fun s => match classify s with Agent a => Some a | _ => None end) ids.
Definition deviceIDs (ids : list string) : list string :=
  omap (fun s => match classify s with Device d => Some d | _ => None end) ids.

Definition strings (l : list string) : any := VList (List.map VStr l).

(** A list, or the value that stands for "nothing resolved". *)
Definition or_sentinel (sentinel : string) (l : list string) : list string :=
  match l with [] => [sentinel] | _ => l end.

Section egress.
Context {R : Type} `{EgressResolver R}.

(** One entry per kind of source restriction; several are an OR. *)
Definition sourceConditions (tenant : string) (resolver : R) (source : list string)
    : list metadata :=
  if IsAnySubject source then [∅] else
  let conds :=
    when (negb (is_nil (deviceIDs source)))
      [{[ "device_id" := strings (or_sentinel sourceNoMatchSentinel
            (SourceDeviceTokens resolver tenant (deviceIDs source))) ]}] ++
    when (negb (is_nil (identityGroups source)))
      [{[ "user_groups" := strings (identityGroups source) ]}] ++
    when (negb (is_nil (identityUsers source)))
      [{[ "user_id" := strings (identityUsers source) ]}] ++
    when (negb (is_nil (agentIDs source)))
      [{[ "actor_nhi_id" := strings (agentIDs source) ]}] in
  match conds with
  | [] => [{[ "device_id" := strings [sourceNoMatchSentinel] ]}]
  | _ => conds
  end.

(** ** Destinations

    Each entry is an identifier suffix with a host condition. *)

Definition hostsOfAddress (i : nat) (addr : string) : list (string * metadata) :=
  if is_blank addr then [] else
  [("-" +:+ itoa (Z.of_nat i) +:+ "-fqdn", {[ "fqdn" := VStr addr ]});
   ("-" +:+ itoa (Z.of_nat i) +:+ "-sni", {[ "sni" := VStr addr ]})].

Definition hostConditions (tenant : string) (resolver : R) (destination : list string)
    : list (string * metadata) :=
  if IsAnySubject destination then [("-any", ∅)] else
  match mjoin (imap hostsOfAddress (EndpointAddresses resolver tenant destination)) with
  | [] => [("-nomatch", {[ "fqdn" := VStr destinationNoMatchSentinel ]})]
  | hosts => hosts
  end.

(** ** Actions *)

Definition egressDecision (access : string) : option string :=
  switch access [
    ([AccessAllow], Some "allow"); ([AccessDeny], Some "deny");
    ([AccessAuthenticate], Some "require_reauthentication")
  ] None.

Definition stepUpMetadata (a : Action) : metadata :=
  if negb (String.eqb (act_Access a) AccessAuthenticate) then ∅ else
  set_keys ∅ (
    when (nonempty (act_RequiredIdPID a)) [("required_idp_id", VStr (act_RequiredIdPID a))] ++
    when (nonempty (act_MinACR a)) [("min_acr", VStr (act_MinACR a))] ++
    when (negb (is_nil (act_RequiredAMR a)))
      [("required_amr", VStr (join "," (act_RequiredAMR a)))] ++
    when (0 <? act_GrantTTLSeconds a) [("grant_ttl_seconds", VInt (act_GrantTTLSeconds a))] ++
    match act_MaxAgeSeconds a with
    | Some age => [("max_age_seconds", VInt age)]
    | None => []
    end).

Definition riskCondition (riskAtLeast : string) : metadata :=
  match RiskSeveritiesAtLeast riskAtLeast with
  | [] => ∅
  | severities => {[ "risk_state_severity" := strings severities ]}
  end.

(** ** One rule *)

Definition policyOf (tenant : string) (r : Rule) (dec suffix : string) (conditions : metadata)
    : Policy :=
  zero_Policy <| pol_ID := "rule-egress-" +:+ ru_ID r +:+ suffix |>
    <| pol_TenantID := tenant |>
    <| pol_Name := "Authored egress rule " +:+ ru_ID r |>
    <| pol_Priority := ru_Priority r |>
    <| pol_Status := "active" |>
    <| pol_Conditions := conditions |>
    <| pol_Action := mkPolicyAction dec |>
    <| pol_DLP := act_DLP (ru_Action r) |>
    <| pol_AllowedToolIDs := ru_AllowedToolIDs r |>
    <| pol_RequiredWorkloadAttestation := act_RequireWorkloadAttestation (ru_Action r) |>
    <| pol_Metadata := stepUpMetadata (ru_Action r) |>.

(** With several transports each has a protocol text, so the assertion holds. *)
Definition transportSuffix (transport : metadata) : string :=
  match transport !! "protocol" with Some (VStr p) => "-" +:+ p | _ => "" end.

(** [appendPolicy]: a policy per source restriction and transport; later maps
    overwrite the keys of earlier ones. *)
Definition appendPolicy (tenant : string) (r : Rule) (dec : string)
    (sources transports : list metadata) (idSuffix : string) (host : metadata) : list Policy :=
  mjoin (imap (fun si source =>
    List.map (fun transport =>
      policyOf tenant r dec
        (idSuffix +:+ (if (1 <? length sources)%nat then "-s" +:+ itoa (Z.of_nat si) else "")
         +:+ (if (1 <? length transports)%nat then transportSuffix transport else ""))
        (riskCondition (ru_RiskAtLeast r) ∪ (transport ∪ (source ∪ host)))) transports)
    sources).

(** The transports of the rule: a restriction whose service is gone keeps every port. *)
Definition ruleTransports (tenant : string) (resolver : R) (r : Rule) : list metadata :=
  let (conds, resolved) :=
    egressServiceConditions tenant (ru_ServiceID r) (serviceTransportResolver resolver) in
  if negb resolved && negb (String.eqb (act_Access (ru_Action r)) AccessAllow)
  then [∅] else conds.

Definition egressInScope (tenant : string) (r : Rule) : bool :=
  (is_empty (ru_TenantID r) || String.eqb (ru_TenantID r) tenant)
  && String.eqb (ru_Plane r) PlaneEgress && String.eqb (ru_Status r) StatusActive.

Definition compileEgressRule (tenant : string) (resolver : R) (r : Rule) : list Policy :=
  if negb (egressInScope tenant r) then [] else
  match egressDecision (act_Access (ru_Action r)) with
  | None => []
  | Some dec =>
      let transports := ruleTransports tenant resolver r in
      let sources := sourceConditions tenant resolver (ru_Source r) in
      flat_map (fun h : string * metadata => appendPolicy tenant r dec sources transports h.1 h.2)
        (hostConditions tenant resolver (ru_Destination r))
  end.

Definition CompileEgressPolicies (tenant : string) (rules : list Rule) (resolver : R)
    : list Policy :=
  flat_map (compileEgressRule tenant resolver) rules.
End egress.

(** * What a compiled condition accepts *)

Lemma conditionMatches_strings actual l :
  conditionMatches actual (strings l) = true ↔ ∃ v, v ∈ actual ∧ v ∈ l.
Proof.
  assert (List.map sprint (List.map VStr l) = l) as Hl.
  { rewrite List.map_map. cbn. apply List.map_id. }
  unfold conditionMatches, strings, anyActualInExpectedValues. rewrite Hl.
  destruct actual as [|a actual]; [set_solver|]. rewrite existsb_exists.
  setoid_rewrite <- list_elem_of_In. by setoid_rewrite containsString_spec.
Qed.

Lemma conditionMatches_str actual v : conditionMatches actual (VStr v) = true ↔ v ∈ actual.
Proof.
  unfold conditionMatches, anyActualEquals. destruct actual as [|a actual]; [set_solver|].
  rewrite existsb_exists. setoid_rewrite <- list_elem_of_In. setoid_rewrite String.eqb_eq.
  cbn [sprint]. naive_solver.
Qed.

Lemma elem_of_singleValue v s : v ∈ singleValue s ↔ v = s ∧ v ≠ "".
Proof.
  unfold singleValue. destruct (is_empty s) eqn:E.
  - apply is_empty_true in E. set_solver.
  - rewrite list_elem_of_singleton. split; [|by intros [-> _]].
    intros ->. split; [done|]. by intros ->.
Qed.

(** Away from the host names a condition is decided by the values of its key. *)
Lemma conditionHolds_other now req actorType key expected :
  isHostnameConditionKey key = false →
  conditionHolds now req actorType key expected
  = conditionMatches (fieldValues now req actorType key) expected.
Proof. intros Hk. unfold conditionHolds. by rewrite Hk, orb_false_r. Qed.

(** The text of a port tells the ports apart. *)
Definition portValues (port : Z) : list string := if port =? 0 then [] else singleValue (itoa port).

Lemma elem_of_portValues port p : 1 ≤ p → itoa p ∈ portValues port ↔ port = p.
Proof.
  intros Hp. unfold portValues. destruct (Z.eqb_spec port 0) as [->|Hne].
  - split; [set_solver|lia].
  - rewrite elem_of_singleValue. split; [|intros ->; split; [done|apply itoa_nonempty]].
    intros [H _]. symmetry in H. by apply itoa_inj in H; [|lia].
Qed.

Lemma conditionMatches_port port p :
  1 ≤ p → conditionMatches (portValues port) (VInt p) = true ↔ port = p.
Proof.
  intros Hp. rewrite <- elem_of_portValues by done.
  rewrite <- conditionMatches_str. by destruct (portValues port).
Qed.

Lemma conditionMatches_ports port ps :
  Forall (fun p => 1 ≤ p) ps →
  conditionMatches (portValues port) (VList (List.map VInt ps)) = true ↔ port ∈ ps.
Proof.
  intros Hps. rewrite Forall_forall in Hps.
  transitivity (∃ v, v ∈ portValues port ∧ v ∈ List.map itoa ps).
  - unfold conditionMatches, anyActualInExpectedValues. rewrite List.map_map.
    destruct (portValues port) as [|a l]; [set_solver|]. rewrite existsb_exists.
    setoid_rewrite <- list_elem_of_In. by setoid_rewrite containsString_spec.
  - split.
    + intros (v & Hv & (p & -> & Hp)%list_elem_of_fmap).
      apply elem_of_portValues in Hv; [by subst|by apply Hps].
    + intros Hp. exists (itoa port). split; [apply elem_of_portValues; [by apply Hps|done]|].
      by apply list_elem_of_fmap_2.
Qed.

(** ** Conditions over disjoint keys *)

Definition keys_in (ks : list string) (m : metadata) : Prop :=
  ∀ k, is_Some (m !! k) → k ∈ ks.

Lemma keys_in_disjoint ks1 ks2 (m1 m2 : metadata) :
  Forall (fun k => containsString ks2 k = false) ks1 →
  keys_in ks1 m1 → keys_in ks2 m2 → m1 ##ₘ m2.
Proof.
  intros Hd H1 H2. apply map_disjoint_spec. intros k x y Hx Hy.
  rewrite Forall_forall in Hd. specialize (Hd k (H1 k ltac:(eauto))).
  assert (containsString ks2 k = true); [|congruence]. apply containsString_spec, H2. eauto.
Qed.

Lemma keys_in_union ks1 ks2 (m1 m2 : metadata) :
  keys_in ks1 m1 → keys_in ks2 m2 → keys_in (ks1 ++ ks2) (m1 ∪ m2).
Proof.
  intros H1 H2 k [v Hv]. apply elem_of_app.
  apply lookup_union_Some_raw in Hv as [Hv|[_ Hv]]; [left; apply H1|right; apply H2]; eauto.
Qed.

Lemma keys_in_empty ks : keys_in ks ∅.
Proof. intros k [v Hv]. by rewrite lookup_empty in Hv. Qed.

Lemma keys_in_singleton ks k v : k ∈ ks → keys_in ks {[ k := v ]}.
Proof. intros Hk k' [v' [<- <-]%lookup_singleton_Some]. done. Qed.

Lemma keys_in_insert ks k v (m : metadata) : k ∈ ks → keys_in ks m → keys_in ks (<[k:=v]> m).
Proof.
  intros Hk Hm k' [v' [[<- <-]|[_ Hv]]%lookup_insert_Some]; [done|]. apply Hm. eauto.
Qed.

(** * What an authored egress rule covers

    The meaning of a rule, without its compilation: the request comes from one of the
    authored sources, goes to one of the authored destinations by the authored service,
    and the subject is at the authored risk. *)

(** What a catalogue promises: selectors are resolved one by one. *)
Class PointwiseResolver (R : Type) `{EgressResolver R} : Prop := {
  devices_pointwise (r : R) tenant ids d :
    d ∈ SourceDeviceTokens r tenant ids ↔
    ∃ id, id ∈ ids ∧ d ∈ SourceDeviceTokens r tenant [id];
  addresses_pointwise (r : R) tenant ids a :
    a ∈ EndpointAddresses r tenant ids ↔
    ∃ id, id ∈ ids ∧ a ∈ EndpointAddresses r tenant [id];
}.

(** Requests that do not spell a sentinel. *)
Definition unforged (req : DecisionRequest) : Prop :=
  req_DeviceID req ≠ sourceNoMatchSentinel ∧
  trim_space (to_lower (req_FQDN req)) ≠ destinationNoMatchSentinel.

(** A name the request carries against an authored address. *)
Definition nameCovers (name addr : string) : Prop :=
  name ≠ "" ∧ (name = addr ∨ hostMatchesPattern name addr = true).

Definition hostCovers (req : DecisionRequest) (addr : string) : Prop :=
  nameCovers (req_FQDN req) addr ∨ nameCovers (req_SNI req) addr ∨
  ipLiteralConditionMatchesDestination (req_Destination req) (VStr addr) = true.

Definition riskCovers (r : Rule) (req : DecisionRequest) : Prop :=
  riskSeverityRank (folded (ru_RiskAtLeast r)) = None ∨
  ∃ m n, riskSeverityRank (folded (ru_RiskAtLeast r)) = Some m ∧
         riskSeverityRank (req_RiskStateSeverity req) = Some n ∧ m ≤ n.

Section covers.
Context {R : Type} `{EgressResolver R}.
Variables (tenant : string) (resolver : R).

Definition subjectCovers (req : DecisionRequest) (s : string) : Prop :=
  match classify s with
  | IdentityGroup g => g ∈ req_UserGroups req
  | IdentityUser u => u ∈ userIDs req
  | Agent a => a = req_ActorNHIID req
  | Device id => req_DeviceID req ∈ SourceDeviceTokens resolver tenant [id] ∧
                 req_DeviceID req ≠ ""
  end.

Definition sourceCovers (r : Rule) (req : DecisionRequest) : Prop :=
  IsAnySubject (ru_Source r) = true ∨ ∃ s, s ∈ ru_Source r ∧ subjectCovers req s.

Definition destinationCovers (r : Rule) (req : DecisionRequest) : Prop :=
  IsAnySubject (ru_Destination r) = true ∨
  ∃ id addr, id ∈ ru_Destination r ∧ addr ∈ EndpointAddresses resolver tenant [id] ∧
    is_blank addr = false ∧ hostCovers req addr.

(** A service that does not resolve covers nothing in an allow, everything in a
    restriction. *)
Definition serviceCovers (r : Rule) (req : DecisionRequest) : Prop :=
  if EgressServiceUnresolved tenant (ru_ServiceID r) (serviceTransportResolver resolver)
  then act_Access (ru_Action r) ≠ AccessAllow
  else ru_ServiceID r = "" ∨
    ∃ resolve ports, serviceTransportResolver resolver = Some resolve ∧
      resolve tenant (ru_ServiceID r) !! req_Protocol req = Some ports ∧
      req_DestinationPort req ∈ ports.

Definition ruleCovers (r : Rule) (req : DecisionRequest) : Prop :=
  sourceCovers r req ∧ destinationCovers r req ∧ serviceCovers r req ∧ riskCovers r req.

Definition enforcedEgress (r : Rule) : Prop :=
  egressInScope tenant r = true ∧ is_Some (egressDecision (act_Access (ru_Action r))).

End covers.

(** ** Condition by condition *)

Definition holdsAll (now : Z) (req : DecisionRequest) (actorType : string) (m : metadata) : Prop :=
  map_Forall (fun k v => conditionHolds now req actorType k v = true) m.

Section conditions.
Context (now : Z) (req : DecisionRequest) (actorType : string).
#[local] Notation holds := (holdsAll now req actorType).

Lemma holds_empty : holds ∅.
Proof. apply map_Forall_empty. Qed.

Lemma holds_singleton k v : holds {[ k := v ]} ↔ conditionHolds now req actorType k v = true.
Proof. unfold holdsAll. by rewrite map_Forall_singleton. Qed.

Lemma holds_device l :
  holds {[ "device_id" := strings l ]} ↔ req_DeviceID req ∈ l ∧ req_DeviceID req ≠ "".
Proof.
  rewrite holds_singleton, conditionHolds_other, conditionMatches_strings by done.
  change (fieldValues now req actorType "device_id") with (singleValue (req_DeviceID req)).
  setoid_rewrite elem_of_singleValue. naive_solver.
Qed.

Lemma holds_groups l :
  holds {[ "user_groups" := strings l ]} ↔ ∃ g, g ∈ l ∧ g ∈ req_UserGroups req.
Proof.
  rewrite holds_singleton, conditionHolds_other, conditionMatches_strings by done.
  change (fieldValues now req actorType "user_groups") with (req_UserGroups req). naive_solver.
Qed.

Lemma holds_users l : holds {[ "user_id" := strings l ]} ↔ ∃ u, u ∈ l ∧ u ∈ userIDs req.
Proof.
  rewrite holds_singleton, conditionHolds_other, conditionMatches_strings by done.
  change (fieldValues now req actorType "user_id") with (userIDs req). naive_solver.
Qed.

Lemma holds_agents l :
  holds {[ "actor_nhi_id" := strings l ]} ↔ req_ActorNHIID req ∈ l ∧ req_ActorNHIID req ≠ "".
Proof.
  rewrite holds_singleton, conditionHolds_other, conditionMatches_strings by done.
  change (fieldValues now req actorType "actor_nhi_id") with (singleValue (req_ActorNHIID req)).
  setoid_rewrite elem_of_singleValue. naive_solver.
Qed.

Lemma hostname_covers name addr :
  conditionMatches (singleValue name) (VStr addr) = true ∨
  hostnameConditionMatches (singleValue name) (VStr addr) = true ↔ nameCovers name addr.
Proof.
  rewrite conditionMatches_str, elem_of_singleValue. unfold nameCovers.
  unfold hostnameConditionMatches. cbn [hostnamePatterns sprint].
  unfold singleValue. destruct (is_empty name) eqn:E; cbn [existsb].
  - apply is_empty_true in E. naive_solver.
  - rewrite !orb_false_r. assert (name ≠ "") by (by intros ->). naive_solver.
Qed.

Lemma holds_host addr :
  holds {[ "fqdn" := VStr addr ]} ∨ holds {[ "sni" := VStr addr ]} ↔ hostCovers req addr.
Proof.
  rewrite !holds_singleton. unfold conditionHolds.
  change (fieldValues now req actorType "fqdn") with (singleValue (req_FQDN req)).
  change (fieldValues now req actorType "sni") with (singleValue (req_SNI req)).
  change (isHostnameConditionKey "fqdn") with true.
  change (isHostnameConditionKey "sni") with true. cbn [andb].
  unfold hostCovers. rewrite <- !hostname_covers, !orb_true_iff. tauto.
Qed.

(** A sentinel destination is never reached. *)
Lemma holds_host_sentinel :
  unforged req → ¬ holds {[ "fqdn" := VStr destinationNoMatchSentinel ]}.
Proof.
  intros [_ Hf] Hh. rewrite holds_singleton in Hh. unfold conditionHolds in Hh.
  change (fieldValues now req actorType "fqdn") with (singleValue (req_FQDN req)) in Hh.
  change (isHostnameConditionKey "fqdn") with true in Hh. cbn [andb] in Hh.
  rewrite orb_assoc, orb_true_iff, orb_true_iff, hostname_covers in Hh.
  destruct Hh as [[Hne [Hh|Hh]]|Hh].
  - rewrite Hh in Hf. by apply Hf.
  - unfold hostMatchesPattern in Hh. repeat (case_match; [done|]). bool_facts. by apply Hf.
  - unfold ipLiteralConditionMatchesDestination in Hh.
    destruct (parse_addr (trim_space (req_Destination req))) as [a|] eqn:Ha; [|done].
    assert (parse_prefix destinationNoMatchSentinel = None) as Hp by (vm_compute; reflexivity).
    apply orb_true_iff in Hh as [Hh|Hh].
    + rewrite conditionMatches_str, !elem_of_cons, elem_of_nil in Hh.
      destruct Hh as [Hh|[Hh|[]]].
      * rewrite <- Hh in Ha. vm_compute in Ha. done.
      * pose proof (addr_text_starts_nul (unmap a)) as Hn. by rewrite <- Hh in Hn.
    + unfold anyActualCIDRContains in Hh. cbn [conditionValues sprint existsb] in Hh.
      rewrite Hp, Ha in Hh. done.
Qed.
End conditions.

(** ** Part by part *)

Lemma Exists_when {A} (P : A → Prop) b l : Exists P (when b l) ↔ b = true ∧ Exists P l.
Proof. destruct b; cbn; [naive_solver|]. rewrite Exists_nil. naive_solver. Qed.

Lemma Exists_single {A} (P : A → Prop) x : Exists P [x] ↔ P x.
Proof. rewrite Exists_cons, Exists_nil. tauto. Qed.

Lemma not_nil {A} (l : list A) : negb (is_nil l) = true ↔ ∃ x, x ∈ l.
Proof.
  destruct l as [|x l]; cbn; split; try done; [by intros [x Hx%elem_of_nil]|].
  intros _. exists x. left.
Qed.

Lemma elem_of_or_sentinel sentinel l x :
  x ≠ sentinel → x ∈ or_sentinel sentinel l ↔ x ∈ l.
Proof. intros Hx. destruct l; [|done]. cbn. set_solver. Qed.

(** The severities a threshold expands to: those of its rank or above. *)
Lemma elem_of_RiskSeveritiesAtLeast s threshold :
  s ∈ RiskSeveritiesAtLeast threshold ↔
  ∃ m n, riskSeverityRank (folded threshold) = Some m ∧ riskSeverityRank s = Some n ∧ m ≤ n.
Proof.
  unfold RiskSeveritiesAtLeast. fold (folded threshold).
  destruct (riskSeverityRank (folded threshold)) as [m|].
  2: { split; [by intros ?%elem_of_nil|naive_solver]. }
  rewrite list_elem_of_In, List.filter_In, <- list_elem_of_In, <- riskSeverityRank_some.
  destruct (riskSeverityRank s) as [n|]; [|naive_solver]. rewrite Z.leb_le. naive_solver.
Qed.

Section parts.
Context {R : Type} `{PointwiseResolver R}.
Variables (tenant : string) (resolver : R) (now : Z) (req : DecisionRequest)
  (actorType : string).
#[local] Notation holds := (holdsAll now req actorType).

Lemma subjectCovers_split source :
  (∃ s, s ∈ source ∧ subjectCovers tenant resolver req s) ↔
  (req_DeviceID req ∈ SourceDeviceTokens resolver tenant (deviceIDs source) ∧
   req_DeviceID req ≠ "") ∨
  (∃ g, g ∈ identityGroups source ∧ g ∈ req_UserGroups req) ∨
  (∃ u, u ∈ identityUsers source ∧ u ∈ userIDs req) ∨
  req_ActorNHIID req ∈ agentIDs source.
Proof.
  rewrite devices_pointwise. unfold deviceIDs, identityGroups, identityUsers, agentIDs.
  setoid_rewrite list_elem_of_omap. unfold subjectCovers. split.
  - intros (s & Hs & Hc). destruct (classify s) as [g|u|a|d] eqn:E.
    + right; left. exists g. split; [|done]. exists s. by rewrite E.
    + right; right; left. exists u. split; [|done]. exists s. by rewrite E.
    + do 3 right. exists s. rewrite E. by rewrite Hc.
    + left. split; [|by apply Hc]. exists d. split; [|by apply Hc]. exists s. by rewrite E.
  - intros [[(d & (s & Hs & E) & Hd) Hne]|[(g & (s & Hs & E) & Hg)|[(u & (s & Hs & E) & Hu)
      |(s & Hs & E)]]]; exists s; (split; [done|]);
      destruct (classify s); simplify_eq; done.
Qed.

Lemma prefixToken_nonempty p id x : prefixToken p id = Some x → x ≠ "".
Proof.
  unfold prefixToken. destruct (strip_prefix _ _); [|done]. destruct (is_empty _) eqn:E; [done|].
  intros [= <-] Hn. by rewrite Hn in E.
Qed.

Lemma classify_agent s a : classify s = Agent a → a ≠ "".
Proof.
  unfold classify. destruct (IdentityGroupToken s); [done|].
  destruct (IdentityUserToken s); [done|].
  destruct (AgentToken s) eqn:E; [|done]. intros [= <-]. by apply prefixToken_nonempty in E.
Qed.

Lemma sourceConditions_spec (r : Rule) :
  unforged req →
  Exists holds (sourceConditions tenant resolver (ru_Source r)) ↔
  sourceCovers tenant resolver r req.
Proof.
  intros [Hdev _]. unfold sourceConditions, sourceCovers.
  destruct (IsAnySubject (ru_Source r)) eqn:Hany.
  { rewrite Exists_single. split; [by left|intros _; apply holds_empty]. }
  rewrite subjectCovers_split. set (source := ru_Source r).
  set (conds := _ ++ _).
  assert (Exists holds conds ↔
    (req_DeviceID req ∈ SourceDeviceTokens resolver tenant (deviceIDs source) ∧
     req_DeviceID req ≠ "") ∨
    (∃ g, g ∈ identityGroups source ∧ g ∈ req_UserGroups req) ∨
    (∃ u, u ∈ identityUsers source ∧ u ∈ userIDs req) ∨
    req_ActorNHIID req ∈ agentIDs source) as Hconds.
  { unfold conds. rewrite !Exists_app, !Exists_when, !Exists_single, holds_device, holds_groups,
      holds_users, holds_agents, !not_nil, elem_of_or_sentinel by done.
    assert (req_ActorNHIID req ∈ agentIDs source → req_ActorNHIID req ≠ "") as Ha.
    { unfold agentIDs. rewrite list_elem_of_omap. intros (s & _ & E).
      destruct (classify s) eqn:Es; simplify_eq. by eapply classify_agent. }
    assert (req_DeviceID req ∈ SourceDeviceTokens resolver tenant (deviceIDs source) →
            ∃ x, x ∈ deviceIDs source) as Hd.
    { rewrite devices_pointwise. naive_solver. }
    naive_solver. }
  destruct conds as [|c conds'] eqn:Hc.
  - rewrite Exists_single, holds_device, list_elem_of_singleton.
    assert (Exists holds [] ↔ False) as Hnil by apply Exists_nil. rewrite Hnil in Hconds.
    naive_solver.
  - rewrite Hconds. naive_solver.
Qed.

(** *** Services *)

#[local] Instance Zltb_weak : WeakOrder Z.ltb.
Proof. split; intros *; rewrite ?Z.ltb_lt, ?Z.ltb_ge; lia. Qed.

Lemma elem_of_sortedPorts p l : p ∈ sortedPorts l ↔ p ∈ l.
Proof. unfold sortedPorts. by rewrite sort_stable_perm, elem_of_elements, elem_of_list_to_set. Qed.

Lemma holds_transport protocol v :
  holds {[ "protocol" := VStr protocol; "destination_port" := v ]} ↔
  (req_Protocol req = protocol ∧ protocol ≠ "") ∧
  conditionMatches (portValues (req_DestinationPort req)) v = true.
Proof.
  unfold holdsAll. rewrite map_Forall_insert by (by rewrite lookup_singleton_ne).
  rewrite map_Forall_singleton, !conditionHolds_other, conditionMatches_str by done.
  change (fieldValues now req actorType "protocol") with (singleValue (req_Protocol req)).
  change (fieldValues now req actorType "destination_port")
    with (portValues (req_DestinationPort req)).
  rewrite elem_of_singleValue. naive_solver.
Qed.

Lemma transportCondition_spec protocol ports :
  protocol ≠ "" → Forall (fun p => 1 ≤ p) ports →
  Exists holds (transportCondition protocol ports) ↔
  req_Protocol req = protocol ∧ req_DestinationPort req ∈ ports.
Proof.
  intros Hp Hall. unfold transportCondition. destruct ports as [|p [|q ports]].
  - rewrite Exists_nil. set_solver.
  - rewrite Exists_single, holds_transport, conditionMatches_port by (by inversion Hall).
    set_solver.
  - rewrite Exists_single, holds_transport, conditionMatches_ports by done. tauto.
Qed.

Lemma validTransport_spec protocol ports :
  validTransport (protocol, ports) = true →
  protocol ∈ ["tcp"; "udp"] ∧ Forall (fun p => 1 ≤ p) ports.
Proof.
  unfold validTransport. cbn [fst snd]. rewrite !andb_true_iff. intros [[Hk _] Hall].
  split; [by apply containsString_spec|]. apply Forall_forall. intros p Hp.
  rewrite List.forallb_forall in Hall. specialize (Hall p ltac:(by apply list_elem_of_In)).
  bool_facts. lia.
Qed.

(** A request inside one of the protocol and port pairs of a service. *)
Lemma egressService_spec serviceID resolve conds :
  serviceID ≠ "" →
  egressServiceConditions tenant serviceID (Some resolve) = (conds, true) →
  Exists holds conds ↔
  ∃ ports, resolve tenant serviceID !! req_Protocol req = Some ports ∧
    req_DestinationPort req ∈ ports.
Proof.
  intros Hne. unfold egressServiceConditions. cbv zeta.
  destruct (is_empty serviceID) eqn:E; [by apply is_empty_true in E|].
  set (ts := resolve tenant serviceID). case_bool_decide; [done|].
  destruct (forallb validTransport (map_to_list ts)) eqn:Hv; [|done]. cbn [negb].
  intros [= <-]. rewrite List.forallb_forall in Hv.
  assert (∀ protocol ports, ts !! protocol = Some ports →
    protocol ∈ ["tcp"; "udp"] ∧ Forall (fun p => 1 ≤ p) ports) as Hts.
  { intros protocol ports Hl. apply validTransport_spec, Hv, list_elem_of_In.
    by apply elem_of_map_to_list. }
  assert (∀ protocol, protocol ≠ "" →
    Exists holds (transportCondition protocol (sortedPorts (default [] (ts !! protocol)))) ↔
    req_Protocol req = protocol ∧ req_DestinationPort req ∈ default [] (ts !! protocol))
    as Hone.
  { intros protocol Hp. rewrite transportCondition_spec; [|done|].
    - by rewrite elem_of_sortedPorts.
    - apply Forall_forall. intros p. rewrite elem_of_sortedPorts. intros Hin.
      destruct (ts !! protocol) as [ports|] eqn:Hl; [|by apply elem_of_nil in Hin].
      apply Hts in Hl as [_ Hl]. rewrite Forall_forall in Hl. by apply Hl. }
  cbn [flat_map]. rewrite app_nil_r, Exists_app, !Hone by done. split.
  - intros [[-> Hin]|[-> Hin]];
      match type of Hin with _ ∈ default [] ?o => destruct o as [ports|] eqn:Hl end;
      try (by apply elem_of_nil in Hin); by exists ports.
  - intros (ports & Hl & Hin). destruct (Hts _ _ Hl) as [Hp _].
    rewrite !elem_of_cons, elem_of_nil in Hp.
    destruct Hp as [Hp|[Hp|[]]]; rewrite Hp in *; [left|right]; by rewrite Hl.
Qed.

Lemma ruleTransports_spec r :
  Exists holds (ruleTransports tenant resolver r) ↔ serviceCovers tenant resolver r req.
Proof.
  unfold ruleTransports, serviceCovers, EgressServiceUnresolved.
  destruct (egressServiceConditions _ _ _) as [conds resolved] eqn:E. cbn [snd].
  destruct resolved; cbn [negb andb].
  - destruct (is_empty (ru_ServiceID r)) eqn:He.
    + apply is_empty_true in He. unfold egressServiceConditions in E. rewrite He in E.
      cbn in E. simplify_eq. rewrite Exists_single. split; [by left|intros _; apply holds_empty].
    + assert (ru_ServiceID r ≠ "") as Hne by (intros Hn; by rewrite Hn in He).
      destruct (serviceTransportResolver resolver) as [resolve|] eqn:Hr.
      * rewrite egressService_spec by done. naive_solver.
      * unfold egressServiceConditions in E. by rewrite He in E.
  - destruct (String.eqb_spec (act_Access (ru_Action r)) AccessAllow) as [Ha|Ha]; cbn.
    + split; [|done]. intros Hex. exfalso.
      assert (conds = [{[ "protocol" := VList [] ]}]) as ->.
      { unfold egressServiceConditions in E. repeat (case_match; simplify_eq; try done). }
      rewrite Exists_single, holds_singleton, conditionHolds_other in Hex by done.
      change (VList []) with (strings []) in Hex. rewrite conditionMatches_strings in Hex.
      destruct Hex as (? & _ & Hex%elem_of_nil). done.
    + rewrite Exists_single. split; [done|intros _; apply holds_empty].
Qed.

(** *** Risk *)

Lemma riskCondition_spec r : holds (riskCondition (ru_RiskAtLeast r)) ↔ riskCovers r req.
Proof.
  unfold riskCovers. destruct (riskSeverityRank (folded (ru_RiskAtLeast r))) as [m|] eqn:Em.
  2: { unfold riskCondition, RiskSeveritiesAtLeast. fold (folded (ru_RiskAtLeast r)). rewrite Em.
    split; [by left|intros _; apply holds_empty]. }
  unfold riskCondition. pose proof (fun s => elem_of_RiskSeveritiesAtLeast s (ru_RiskAtLeast r))
    as Hsev.
  assert (folded (ru_RiskAtLeast r) ∈ RiskSeveritiesAtLeast (ru_RiskAtLeast r)) as Hs0
    by (apply Hsev; by exists m, m).
  destruct (RiskSeveritiesAtLeast (ru_RiskAtLeast r)) as [|s0 sev] eqn:E;
    [by apply elem_of_nil in Hs0|].
  rewrite holds_singleton, conditionHolds_other, conditionMatches_strings by done.
  change (fieldValues now req actorType "risk_state_severity")
    with (singleValue (req_RiskStateSeverity req)).
  setoid_rewrite elem_of_singleValue. setoid_rewrite Hsev. setoid_rewrite Em. split.
  - intros (v & [-> _] & m' & n & [= <-] & Hn & Hmn). right. by exists m, n.
  - intros [?|(m' & n & ? & Hn & Hmn)]; [done|]. simplify_eq.
    exists (req_RiskStateSeverity req). split; [|by exists m', n]. split; [done|].
    intros Hv. by rewrite Hv in Hn.
Qed.

(** *** Destinations *)

Lemma hosts_spec addrs :
  Exists (fun h : string * metadata => holds h.2) (mjoin (imap hostsOfAddress addrs)) ↔
  ∃ addr, addr ∈ addrs ∧ is_blank addr = false ∧ hostCovers req addr.
Proof.
  rewrite Exists_exists. setoid_rewrite list_elem_of_join.
  setoid_rewrite elem_of_lookup_imap. split.
  - intros (h & (l & Hl & i & addr & -> & Hi) & Hh). exists addr.
    split; [by eapply list_elem_of_lookup_2|]. unfold hostsOfAddress in Hl.
    destruct (is_blank addr); [by apply elem_of_nil in Hl|]. split; [done|].
    apply (holds_host now req actorType). rewrite !elem_of_cons, elem_of_nil in Hl.
    destruct Hl as [->|[->|[]]]; [by left|by right].
  - intros (addr & Hin & Hb & Hc). apply list_elem_of_lookup in Hin as [i Hi].
    apply (holds_host now req actorType) in Hc as [Hc|Hc];
      [exists ("-" +:+ itoa (Z.of_nat i) +:+ "-fqdn", {[ "fqdn" := VStr addr ]})
      |exists ("-" +:+ itoa (Z.of_nat i) +:+ "-sni", {[ "sni" := VStr addr ]})];
      (split; [|done]); exists (hostsOfAddress i addr); unfold hostsOfAddress; rewrite Hb;
      (split; [set_solver|]); exists i, addr; by rewrite Hb.
Qed.

Lemma hostConditions_spec r :
  unforged req →
  Exists (fun h : string * metadata => holds h.2)
    (hostConditions tenant resolver (ru_Destination r)) ↔
  destinationCovers tenant resolver r req.
Proof.
  intros Hun. unfold hostConditions, destinationCovers.
  destruct (IsAnySubject (ru_Destination r)) eqn:Hany.
  { rewrite Exists_single. split; [by left|intros _; apply holds_empty]. }
  pose proof (hosts_spec (EndpointAddresses resolver tenant (ru_Destination r))) as Hhosts.
  setoid_rewrite (addresses_pointwise resolver tenant (ru_Destination r)) in Hhosts.
  assert (Exists (fun h : string * metadata => holds h.2)
    (mjoin (imap hostsOfAddress (EndpointAddresses resolver tenant (ru_Destination r)))) ↔
    ∃ id addr, id ∈ ru_Destination r ∧ addr ∈ EndpointAddresses resolver tenant [id] ∧
      is_blank addr = false ∧ hostCovers req addr) as Hall.
  { rewrite Hhosts. split; [intros (addr & (id & ?) & ?)|intros (id & addr & ?)]; naive_solver. }
  destruct (mjoin _) as [|h hosts].
  - rewrite Exists_single. rewrite Exists_nil in Hall. split; [|naive_solver].
    intros Hs. by apply holds_host_sentinel in Hs.
  - rewrite Hall. naive_solver.
Qed.

(** *** The parts talk about different keys *)

Lemma keys_source (source : list string) m :
  m ∈ sourceConditions tenant resolver source →
  keys_in ["device_id"; "user_groups"; "user_id"; "actor_nhi_id"] m.
Proof.
  assert (∀ m, m ∈ ([∅] : list metadata) → m = ∅) as Hone by set_solver.
  unfold sourceConditions. destruct (IsAnySubject source); [intros ->%Hone; apply keys_in_empty|].
  set (conds := _ ++ _). intros Hm.
  assert (m = {[ "device_id" := strings [sourceNoMatchSentinel] ]} ∨ m ∈ conds) as [->|Hin].
  { destruct conds; [left; set_solver|by right]. }
  { apply keys_in_singleton. set_solver. }
  unfold conds in Hin. rewrite !elem_of_app in Hin.
  destruct Hin as [Hin|[Hin|[Hin|Hin]]]; unfold when in Hin; case_match;
    try (by apply elem_of_nil in Hin); apply list_elem_of_singleton in Hin as ->;
    apply keys_in_singleton; set_solver.
Qed.

Lemma keys_transport r m :
  m ∈ ruleTransports tenant resolver r → keys_in ["protocol"; "destination_port"] m.
Proof.
  assert (∀ protocol ports m, m ∈ transportCondition protocol ports →
    keys_in ["protocol"; "destination_port"] m) as Htc.
  { intros protocol ports m0 Hm. unfold transportCondition in Hm.
    repeat case_match; try (by apply elem_of_nil in Hm);
      apply list_elem_of_singleton in Hm as ->;
      (apply keys_in_insert; [set_solver|]); apply keys_in_singleton; set_solver. }
  unfold ruleTransports, egressServiceConditions.
  repeat case_match; simplify_eq; rewrite ?list_elem_of_singleton; try (intros ->);
    try apply keys_in_empty; try (apply keys_in_singleton; set_solver).
  all: rewrite list_elem_of_In, List.in_flat_map; intros (protocol & _ & Hin);
    eapply Htc, list_elem_of_In, Hin.
Qed.

Lemma keys_hosts (destination : list string) h :
  h ∈ hostConditions tenant resolver destination → keys_in ["fqdn"; "sni"] h.2.
Proof.
  unfold hostConditions. destruct (IsAnySubject destination).
  { intros ->%list_elem_of_singleton. apply keys_in_empty. }
  set (hosts := mjoin _). intros Hh.
  assert (h = ("-nomatch", {[ "fqdn" := VStr destinationNoMatchSentinel ]}) ∨ h ∈ hosts)
    as [->|Hin].
  { destruct hosts; [left; set_solver|by right]. }
  { apply keys_in_singleton. set_solver. }
  apply list_elem_of_join in Hin as (l & Hl & Hin).
  apply elem_of_lookup_imap in Hin as (i & addr & -> & _). unfold hostsOfAddress in Hl.
  destruct (is_blank addr); [by apply elem_of_nil in Hl|].
  rewrite !elem_of_cons, elem_of_nil in Hl.
  destruct Hl as [->|[->|[]]]; apply keys_in_singleton; set_solver.
Qed.

Lemma keys_risk riskAtLeast : keys_in ["risk_state_severity"] (riskCondition riskAtLeast).
Proof.
  unfold riskCondition. case_match; [apply keys_in_empty|]. apply keys_in_singleton. set_solver.
Qed.

Lemma conditions_split r source transport host :
  source ∈ sourceConditions tenant resolver (ru_Source r) →
  transport ∈ ruleTransports tenant resolver r →
  host ∈ hostConditions tenant resolver (ru_Destination r) →
  holds (riskCondition (ru_RiskAtLeast r) ∪ (transport ∪ (source ∪ host.2))) ↔
  riskCovers r req ∧ holds transport ∧ holds source ∧ holds host.2.
Proof.
  intros Hs Ht Hh. rewrite <- riskCondition_spec.
  apply keys_source in Hs. apply keys_transport in Ht. apply keys_hosts in Hh.
  pose proof (keys_risk (ru_RiskAtLeast r)) as Hr.
  pose proof (keys_in_union _ _ _ _ Hs Hh) as Hsh.
  pose proof (keys_in_union _ _ _ _ Ht Hsh) as Htsh.
  unfold holdsAll.
  rewrite !map_Forall_union; [tauto|..].
  all: eapply keys_in_disjoint; [|eassumption|eassumption]; repeat (constructor; [reflexivity|]);
    constructor.
Qed.

End parts.

(** * Compiled rules enforce what was authored *)

Section refinement.
Context {R : Type} `{PointwiseResolver R}.

Lemma appendPolicy_elem tenant r dec sources transports idSuffix host p :
  p ∈ appendPolicy tenant r dec sources transports idSuffix host →
  ∃ source transport suffix, source ∈ sources ∧ transport ∈ transports ∧
    p = policyOf tenant r dec suffix
          (riskCondition (ru_RiskAtLeast r) ∪ (transport ∪ (source ∪ host))).
Proof.
  unfold appendPolicy. rewrite list_elem_of_join. intros (l & Hl & Hin).
  apply elem_of_lookup_imap in Hin as (si & source & -> & Hs).
  apply list_elem_of_fmap in Hl as (transport & -> & Ht).
  do 3 eexists. split_and!; [by eapply list_elem_of_lookup_2|done|reflexivity].
Qed.

Lemma appendPolicy_intro tenant r dec sources transports idSuffix host source transport :
  source ∈ sources → transport ∈ transports → ∃ suffix, policyOf tenant r dec suffix
    (riskCondition (ru_RiskAtLeast r) ∪ (transport ∪ (source ∪ host)))
    ∈ appendPolicy tenant r dec sources transports idSuffix host.
Proof.
  intros [si Hs]%list_elem_of_lookup Ht. unfold appendPolicy. eexists.
  apply list_elem_of_join. eexists. split.
  2: { apply elem_of_lookup_imap. exists si, source. split; [reflexivity|done]. }
  apply list_elem_of_fmap. by exists transport.
Qed.

Lemma compileEgressRule_elem tenant resolver r p :
  p ∈ compileEgressRule tenant resolver r →
  egressInScope tenant r = true ∧
  ∃ dec host source transport suffix,
    egressDecision (act_Access (ru_Action r)) = Some dec ∧
    host ∈ hostConditions tenant resolver (ru_Destination r) ∧
    source ∈ sourceConditions tenant resolver (ru_Source r) ∧
    transport ∈ ruleTransports tenant resolver r ∧
    p = policyOf tenant r dec suffix
          (riskCondition (ru_RiskAtLeast r) ∪ (transport ∪ (source ∪ host.2))).
Proof.
  unfold compileEgressRule. destruct (egressInScope tenant r); cbn [negb];
    [|by intros ?%elem_of_nil].
  destruct (egressDecision _) as [dec|]; [|by intros ?%elem_of_nil].
  rewrite list_elem_of_In, List.in_flat_map. intros (host & Hh & Hp).
  apply list_elem_of_In in Hh, Hp.
  apply appendPolicy_elem in Hp as (source & transport & suffix & Hs & Ht & ->).
  split; [done|]. by exists dec, host, source, transport, suffix.
Qed.

Lemma policyOf_matches tenant r dec suffix conditions now req actorType :
  trim_space (req_TenantID req) = trim_space tenant →
  matches_b now req actorType (policyOf tenant r dec suffix conditions) = true ↔
  holdsAll now req actorType conditions.
Proof.
  intros Ht. unfold matches_b. rewrite matchPolicy_iff. unfold policyTenantAppliesTo.
  cbn [pol_TenantID policyOf]. change (pol_TenantID (policyOf tenant r dec suffix conditions))
    with tenant. rewrite Ht, String.eqb_refl, orb_true_r.
  change (pol_Conditions (policyOf tenant r dec suffix conditions)) with conditions.
  unfold holdsAll. naive_solver.
Qed.

Lemma compileEgressRule_matches tenant (resolver : R) r now req actorType :
  trim_space (req_TenantID req) = trim_space tenant → unforged req →
  Exists (fun p => matches_b now req actorType p = true) (compileEgressRule tenant resolver r) ↔
  enforcedEgress tenant r ∧ ruleCovers tenant resolver r req.
Proof.
  intros Ht Hun. rewrite Exists_exists. unfold enforcedEgress, ruleCovers.
  rewrite <- (sourceConditions_spec _ _ now _ actorType), <- (hostConditions_spec _ _ now _ actorType),
    <- (ruleTransports_spec _ _ now _ actorType), !Exists_exists by done. split.
  - intros (p & Hp & Hm).
    apply compileEgressRule_elem in Hp as (Hsc & dec & host & source & transport & suffix & Hd &
      Hh & Hs & Htr & ->).
    rewrite policyOf_matches, (conditions_split _ resolver) in Hm by done.
    destruct Hm as (Hr & Htm & Hsm & Hhm). split; [by rewrite Hd|].
    split_and!; [by exists source|by exists host|by exists transport|done].
  - intros ([Hsc [dec Hd]] & (source & Hs & Hsm) & (host & Hh & Hhm) & (transport & Htr & Htm) & Hr).
    destruct (appendPolicy_intro tenant r dec (sourceConditions tenant resolver (ru_Source r))
      (ruleTransports tenant resolver r) host.1 host.2 source transport Hs Htr) as [suffix Hp].
    eexists. split.
    + unfold compileEgressRule. rewrite Hsc, Hd. cbn [negb].
      apply list_elem_of_In, List.in_flat_map. exists host. rewrite <- !list_elem_of_In.
      split; [done|exact Hp].
    + rewrite policyOf_matches, (conditions_split _ resolver) by done. done.
Qed.

(** What the compiler emits for one authored egress rule is
    what the rule says.  For a request of the tenant that spells no sentinel, some policy
    compiled from the rule matches exactly when the rule is active and in scope, one of
    its source subjects is the user, group, agent or device of the request, one of its
    destinations names the host or address dialled, its service holds the protocol and
    port, and the risk of the subject reaches its threshold.  An unresolved source or
    destination matches nothing; an unresolved service empties an allow and never
    narrows a restriction. *)
Theorem egress_rule_refinement tenant (resolver : R) r now req actorType :
  trim_space (req_TenantID req) = trim_space tenant → unforged req →
  Exists (fun p => matches_b now req actorType p = true) (compileEgressRule tenant resolver r) ↔
  enforcedEgress tenant r ∧ ruleCovers tenant resolver r req.
Proof. apply compileEgressRule_matches. Qed.

(** ** From the authored rule to the decision *)

Lemma CompileEgressPolicies_elem tenant rules (resolver : R) p :
  p ∈ CompileEgressPolicies tenant rules resolver ↔
  ∃ r, r ∈ rules ∧ p ∈ compileEgressRule tenant resolver r.
Proof.
  unfold CompileEgressPolicies. rewrite list_elem_of_In, List.in_flat_map.
  by setoid_rewrite <- list_elem_of_In.
Qed.

(** The fields a compiled policy takes from its rule. *)
Lemma compileEgressRule_fields tenant (resolver : R) r p :
  p ∈ compileEgressRule tenant resolver r →
  pol_Priority p = ru_Priority r ∧
  egressDecision (act_Access (ru_Action r)) = Some (pact_Decision (pol_Action p)) ∧
  pol_RequiredWorkloadAttestation p = act_RequireWorkloadAttestation (ru_Action r) ∧
  pol_AllowedToolIDs p = ru_AllowedToolIDs r.
Proof.
  intros (_ & dec & ? & ? & ? & ? & -> & _ & _ & _ & ->)%compileEgressRule_elem. done.
Qed.

Lemma egressDecision_cases access dec :
  egressDecision access = Some dec →
  (access = AccessAllow ∧ dec = "allow") ∨ (access = AccessDeny ∧ dec = "deny") ∨
  (access = AccessAuthenticate ∧ dec = "require_reauthentication").
Proof.
  unfold egressDecision. cbn [switch].
  repeat match goal with |- context [containsString ?l access] =>
    let E := fresh in destruct (containsString l access) eqn:E;
      [apply containsString_spec, list_elem_of_singleton in E; intros [= <-]; tauto|] end.
  done.
Qed.

(** What is authored does not depend on the SaaS annotation of the request. *)
Lemma ruleCovers_annotated bundle tenant (resolver : R) r req :
  ruleCovers tenant resolver r (decisionRequestWithSaaSContext bundle req) ↔
  ruleCovers tenant resolver r req.
Proof. unfold decisionRequestWithSaaSContext. by destruct (SaaSContextForRequest _ _). Qed.

Lemma unforged_annotated bundle req :
  unforged (decisionRequestWithSaaSContext bundle req) ↔ unforged req.
Proof. unfold decisionRequestWithSaaSContext. by destruct (SaaSContextForRequest _ _). Qed.

(** The demands of an allow rule on the machine and the tool. *)
Definition ruleGrants (r : Rule) (req : DecisionRequest) : Prop :=
  (act_RequireWorkloadAttestation (ru_Action r) = true →
   workloadAttestationSatisfied (req_WorkloadAttestationState req) = true) ∧
  (ru_AllowedToolIDs r ≠ [] → toolBoundaryListContains (ru_AllowedToolIDs r) (req_ToolID req) = true).

Lemma policyGrants_rule now tenant (resolver : R) r p req :
  p ∈ compileEgressRule tenant resolver r →
  policyGrants now p req (req_WorkloadAttestationState req) →
  act_Access (ru_Action r) = AccessAllow ∧ ruleGrants r req.
Proof.
  intros (_ & Hd & Hw & Ht)%compileEgressRule_fields [Ha Hwl _ Htool _ _].
  apply egressDecision_cases in Hd as Hcase. unfold policyDecisionValue in Ha. split.
  - destruct Hcase as [[? _]|[[_ Hp]|[_ Hp]]]; [done|rewrite Hp in Ha; done..].
  - split; [by rewrite <- Hw|]. intros Hne. unfold toolActionBoundaryViolation in Htool.
    rewrite Ht in Htool. destruct (ru_AllowedToolIDs r); [done|]. cbn [length Nat.ltb] in Htool.
    by destruct (toolBoundaryListContains _ _).
Qed.

Lemma ruleGrants_annotated bundle r req :
  ruleGrants r (decisionRequestWithSaaSContext bundle req) ↔ ruleGrants r req.
Proof. unfold decisionRequestWithSaaSContext. by destruct (SaaSContextForRequest _ _). Qed.

(** A compiled restriction that does not precede a compiled allow has a larger number. *)
Lemma restriction_outranked tenant (resolver : R) r q p p' :
  p ∈ compileEgressRule tenant resolver r → p' ∈ compileEgressRule tenant resolver q →
  policyLess p' p = false → act_Access (ru_Action r) = AccessAllow →
  act_Access (ru_Action q) ≠ AccessAllow → ru_Priority r < ru_Priority q.
Proof.
  intros Hp Hp' Hless Hacc Hnq. pose proof (policyLess_priority _ _ Hless) as Hpri.
  apply compileEgressRule_fields in Hp as (Hp1 & Hd1 & _).
  apply compileEgressRule_fields in Hp' as (Hp2 & Hd2 & _).
  rewrite Hp1, Hp2 in Hpri. apply Z.le_neq. split; [done|]. intros Heqp.
  pose proof (policyLess_rank _ _ Hless ltac:(congruence)) as Hrank.
  rewrite Hacc in Hd1. injection Hd1 as Hd1. unfold pol_rank in Hrank. rewrite <- Hd1 in Hrank.
  apply egressDecision_cases in Hd2 as [[? _]|[[_ Hd2]|[_ Hd2]]]; [done|..];
    rewrite Hd2 in Hrank; vm_compute in Hrank; done.
Qed.

Lemma evaluate_authored e tenant (resolver : R) rules req now :
  ev_Policies e = CompileEgressPolicies tenant rules resolver →
  trim_space (req_TenantID req) = trim_space tenant → unforged req →
  onServerPlane e req = false → onEastWestPlane e req = false →
  es_Decision (evaluate e req now) = "allow" →
  ∃ r, r ∈ rules ∧ enforcedEgress tenant r ∧ act_Access (ru_Action r) = AccessAllow ∧
    ruleCovers tenant resolver r req ∧ ruleGrants r req ∧
    ∀ q, q ∈ rules → enforcedEgress tenant q → act_Access (ru_Action q) ≠ AccessAllow →
      ruleCovers tenant resolver q req → ru_Priority r < ru_Priority q.
Proof.
  intros Hpol Ht Hun Hsp Hwp Hallow.
  apply evaluate_permitted in Hallow as [| |p _ _ Hp Hg%policyGrants_safeguards]; [congruence..|].
  apply find_sort_stable_first, find_sort_stable in Hp as (Hin & Hm & Hmin); [|apply _..].
  rewrite Hpol, CompileEgressPolicies_elem in Hin. destruct Hin as (r & Hr & Hin).
  assert (enforcedEgress tenant r ∧ ruleCovers tenant resolver r req) as [Hen Hc].
  { eapply compileEgressRule_matches; [done..|]. apply Exists_exists. by exists p. }
  pose proof (policyGrants_rule _ _ _ _ _ _ Hin Hg) as [Hacc Hgr].
  exists r. split_and!; [done..|]. intros q Hq Heq Hnq Hcq.
  assert (Exists (fun p => matches_b now req (actorTypeOf req) p = true)
    (compileEgressRule tenant resolver q)) as Hex by (by eapply compileEgressRule_matches).
  apply Exists_exists in Hex as (p' & Hp' & Hm').
  assert (policyLess p' p = false) as Hless.
  { apply Hmin; [|done]. rewrite Hpol, CompileEgressPolicies_elem. by exists q. }
  exact (restriction_outranked _ _ _ _ _ _ Hin Hp' Hless Hacc Hnq).
Qed.

Lemma Evaluate_authored e tenant (resolver : R) rules req id now :
  let req' := decisionRequestWithSaaSContext (ev_PolicyBundle e) req in
  ev_Policies e = CompileEgressPolicies tenant rules resolver →
  trim_space (req_TenantID req) = trim_space tenant → unforged req →
  onServerPlane e req' = false → onEastWestPlane e req' = false →
  dec_Decision (Evaluate e req id now) = "allow" →
  ∃ r, r ∈ rules ∧ enforcedEgress tenant r ∧ act_Access (ru_Action r) = AccessAllow ∧
    ruleCovers tenant resolver r req ∧ ruleGrants r req ∧
    ∀ q, q ∈ rules → enforcedEgress tenant q → act_Access (ru_Action q) ≠ AccessAllow →
      ruleCovers tenant resolver q req → ru_Priority r < ru_Priority q.
Proof.
  intros req' Hpol Ht Hun Hsp Hwp Hallow. rewrite Evaluate_decision in Hallow.
  apply (unforged_annotated (ev_PolicyBundle e)) in Hun.
  rewrite <- (with_saas_TenantID (ev_PolicyBundle e) req) in Ht.
  destruct (evaluate_authored e tenant resolver rules req' now Hpol Ht Hun Hsp Hwp Hallow)
    as (r & Hr & Hen & Hacc & Hc & Hg & Hall).
  exists r. split_and!; [done..| | |].
  - by apply ruleCovers_annotated in Hc.
  - by apply ruleGrants_annotated in Hg.
  - intros q Hq Heq Hnq Hcq. apply Hall; [done..|]. by apply ruleCovers_annotated.
Qed.

(** (C9) An allow on the egress plane goes back to an authored
    allow.  With the compiled rules of a tenant as the policies, a request of that tenant
    is let through only if an active authored rule with access allow covers it, whose
    workload and tool demands it meets, and no active deny or authenticate rule that
    covers it has a priority number as small: authored restrictions are never outranked
    by accident of the compilation. *)
Theorem authored_allow_sound e tenant (resolver : R) rules req id now :
  let req' := decisionRequestWithSaaSContext (ev_PolicyBundle e) req in
  ev_Policies e = CompileEgressPolicies tenant rules resolver →
  trim_space (req_TenantID req) = trim_space tenant → unforged req →
  onServerPlane e req' = false → onEastWestPlane e req' = false →
  dec_Decision (Evaluate e req id now) = "allow" →
  ∃ r, r ∈ rules ∧ enforcedEgress tenant r ∧ act_Access (ru_Action r) = AccessAllow ∧
    ruleCovers tenant resolver r req ∧ ruleGrants r req ∧
    ∀ q, q ∈ rules → enforcedEgress tenant q → act_Access (ru_Action q) ≠ AccessAllow →
      ruleCovers tenant resolver q req → ru_Priority r < ru_Priority q.
Proof. apply Evaluate_authored. Qed.
End refinement.

(** ** A concrete catalogue *)

(** Devices and addresses per selector, transports per service. *)
Record table := mkTable {
  tb_devices : list (string * string);
  tb_addresses : list (string * string);
  tb_services : transports;
}.

Definition table_lookup (rows : list (string * string)) (ids : list string) : list string :=
  flat_map (fun id => omap (fun kv : string * string =>
    if String.eqb kv.1 id then Some kv.2 else None) rows) ids.

#[export] Instance table_resolver : EgressResolver table := {
  SourceDeviceTokens t _ := table_lookup (tb_devices t);
  EndpointAddresses t _ := table_lookup (tb_addresses t);
  serviceTransportResolver t := Some (fun _ _ => tb_services t);
}.

Lemma table_pointwise rows ids x :
  x ∈ table_lookup rows ids ↔ ∃ id, id ∈ ids ∧ x ∈ table_lookup rows [id].
Proof.
  unfold table_lookup. cbn [flat_map]. setoid_rewrite app_nil_r.
  rewrite list_elem_of_In, List.in_flat_map. by setoid_rewrite <- list_elem_of_In.
Qed.

#[export] Instance table_resolver_pointwise : PointwiseResolver table.
Proof. split; intros; apply table_pointwise. Qed.

Definition exampleTable : table :=
  mkTable [("ep-1", "laptop-1")] [("ep-2", "git.example")] {[ "tcp" := [443; 8443] ]}.

(** Staff laptops reach the git server over TLS; everything else to it is denied. *)
Definition exampleAllow : Rule :=
  zero_Rule <| ru_ID := "rule-1" |> <| ru_TenantID := "t1" |> <| ru_Plane := PlaneEgress |>
    <| ru_Source := ["ep-1"; "idgroup: staff"] |> <| ru_Destination := ["ep-2"] |>
    <| ru_ServiceID := "https" |> <| ru_Priority := 10 |> <| ru_Status := StatusActive |>
    <| ru_Action := zero_Action <| act_Access := AccessAllow |> |>.
Definition exampleDeny : Rule :=
  exampleAllow <| ru_ID := "rule-2" |> <| ru_Source := [SubjectAny] |> <| ru_ServiceID := "" |>
    <| ru_Priority := 20 |> <| ru_Action := zero_Action <| act_Access := AccessDeny |> |>.

Definition exampleRequest : DecisionRequest :=
  zero_DecisionRequest <| req_TenantID := "t1" |> <| req_DeviceID := "laptop-1" |>
    <| req_SNI := "git.example" |> <| req_Protocol := "tcp" |>
    <| req_DestinationPort := 8443 |>.

Lemma exampleRequest_unforged : unforged exampleRequest.
Proof. by split. Qed.

Lemma egress_rule_refinement_witness :
  enforcedEgress "t1" exampleAllow ∧
  ruleCovers "t1" exampleTable exampleAllow exampleRequest.
Proof.
  apply (egress_rule_refinement "t1" exampleTable exampleAllow 0 exampleRequest "human");
    [reflexivity|split; discriminate|]. apply Exists_exists.
  exists (List.nth 2 (compileEgressRule "t1" exampleTable exampleAllow) zero_Policy).
  split; [|vm_compute; reflexivity]. apply list_elem_of_In, List.nth_In. vm_compute. lia.
Defined.

Definition exampleEvaluator : Evaluator :=
  mkEvaluator (CompileEgressPolicies "t1" [exampleDeny; exampleAllow] exampleTable)
    zero_PolicyBundle "" "" false (mkEWConfig false (mkInternalNetworks [] []) [] 0 []) false [] ∅.

Lemma authored_allow_sound_witness :
  ∃ r, r ∈ [exampleDeny; exampleAllow] ∧ act_Access (ru_Action r) = AccessAllow ∧
    ruleCovers "t1" exampleTable r exampleRequest.
Proof.
  destruct (authored_allow_sound exampleEvaluator "t1" exampleTable [exampleDeny; exampleAllow]
    exampleRequest "dec_1" 0 eq_refl eq_refl ltac:(split; discriminate) eq_refl eq_refl
    ltac:(vm_compute; reflexivity)) as (r & Hr & _ & Ha & Hc & _).
  exists r. split; [exact Hr|split; [exact Ha|exact Hc]].
Defined.
End RuleCompile.
