(* ===== verification/RuleLateral.v ===== *)
(** * Lateral rules and inspection hosts ([src/policyrule/compile_eastwest.go, compile.go])

    Outbound east-west rules compiled to the enforcement primitive of the lateral plane,
    and the projection of the inspection axis of egress rules to host selections. *)

From stdpp Require Import base gmap sets list strings.
From S2P Require Import Prelude GoStd GoNet Model Common Inspection Guards Locality EastWest.
From S2P Require Import PolicyRule RuleCompile.
Import PolicyRule RuleCompile.

Open Scope Z_scope.

Module RuleLateral.

Class EastWestResolver (R : Type) := {
  ew_SourceDeviceTokens : R → string → list string → list string;
  DestinationTokens : R → string → list string → list string;
  ServiceTransportPorts : R → string → string → transports;
}.

(** [SourceDeviceTokens] and [ServiceIncludesTransport] are found by type assertion. *)
Class AddressResolver (R : Type) := {
  ar_EndpointAddresses : R → string → list string → list string;
  ar_SourceDeviceTokens : R → option (string → list string → list string);
  ar_ServiceIncludesTransport : R → option (string → string → string → Z → bool);
}.

(** ** Lateral rules *)

Section lateral.
Context {R : Type} `{EastWestResolver R}.

Definition eastWestInScope (tenant : string) (r : Rule) : bool :=
  (is_empty (ru_TenantID r) || String.eqb (ru_TenantID r) tenant)
  && String.eqb (ru_Plane r) PlaneEastWest && String.eqb (ru_Status r) StatusActive
  && String.eqb (ru_Direction r) DirectionOutbound.

(** The service family no request of the lateral plane has. *)
Definition transportPortFamily : string := "__dsse_transport_port_service__".

Definition compileEastWestRule (tenant : string) (resolver : R) (r : Rule) : EastWestRule :=
  let a := ru_Action r in
  let ew := zero_EastWestRule
    <| ewr_ID := ru_ID r |>
    <| ewr_Priority := ru_Priority r |>
    <| ewr_SourceDevices := if IsAnySubject (ru_Source r) then [] else
         or_sentinel sourceNoMatchSentinel (ew_SourceDeviceTokens resolver tenant (ru_Source r)) |>
    <| ewr_Destinations := if IsAnySubject (ru_Destination r) then [] else
         or_sentinel destinationNoMatchSentinel
           (DestinationTokens resolver tenant (ru_Destination r)) |>
    <| ewr_Mode := act_Access a |>
    <| ewr_Warn := String.eqb (ru_Stage r) StageWarn |>
    <| ewr_RequiredIdPID := act_RequiredIdPID a |>
    <| ewr_MinACR := act_MinACR a |>
    <| ewr_RequiredAMR := act_RequiredAMR a |>
    <| ewr_DeviceAttestedAuto := act_DeviceAttestedAuto a |>
    <| ewr_RequiredWorkloadAttestation := act_RequireWorkloadAttestation a |>
    <| ewr_RiskSeverities := RiskSeveritiesAtLeast (ru_RiskAtLeast r) |> in
  let ew := match act_MaxAgeSeconds a with
            | Some age => ew <| ewr_MaxAgeSeconds := age |> <| ewr_MaxAgeSecondsSet := true |>
            | None => ew
            end in
  let ew := if is_empty (ru_ServiceID r) then ew else
              ew <| ewr_Protocols := [transportPortFamily] |>
                 <| ewr_ServiceTransportPorts :=
                      Some (ServiceTransportPorts resolver tenant (ru_ServiceID r)) |> in
  if 0 <? act_GrantTTLSeconds a then ew <| ewr_MaxTTLSeconds := act_GrantTTLSeconds a |> else ew.

Definition CompileEastWest (tenant : string) (rules : list Rule) (resolver : R)
    : list EastWestRule :=
  List.map (compileEastWestRule tenant resolver) (List.filter (eastWestInScope tenant) rules).
End lateral.

(** ** Inspection hosts *)

Record InspectionHostSelection := mkSelection {
  AnySource : list string;
  ByDevice : gmap string (list string);
}.

Section inspection.
Context {R : Type} `{AddressResolver R}.

Definition reservedSelector (id : string) : bool :=
  has_prefix id IdentityGroupPrefix || has_prefix id IdentityUserPrefix
  || has_prefix id AgentPrefix.

Definition plainToken (s : string) : bool := nonempty s && String.eqb s (trim_space s).

Definition inspectionServiceApplies (tenant serviceID : string) (resolver : R) : bool :=
  is_empty serviceID ||
  match ar_ServiceIncludesTransport resolver with
  | Some includes => includes tenant serviceID "tcp" 443
  | None => false
  end.

Definition InspectionSourceWarning (tenant : string) (rule : Rule) (resolver : R) : string :=
  if negb (String.eqb (ru_Plane rule) PlaneEgress) || IsAnySubject (ru_Source rule)
     || String.eqb (act_Access (ru_Action rule)) AccessDeny then ""
  else if existsb (fun id => reservedSelector (trim_space id)) (ru_Source rule)
  then "identity_context_unavailable"
  else match ar_SourceDeviceTokens resolver with
       | Some tokens => if existsb plainToken (tokens tenant (ru_Source rule)) then ""
                        else "no_resolved_device"
       | None => "no_resolved_device"
       end.

(** The sets of the two accumulators: hosts for any source, hosts per device. *)
Record hostSets := mkHostSets {
  hs_all : gset string;
  hs_devices : gmap string (gset string);
}.

Definition inspectionInScope (tenant : string) (resolver : R) (inspection : string) (r : Rule)
    : bool :=
  (is_empty (ru_TenantID r) || String.eqb (ru_TenantID r) tenant)
  && String.eqb (ru_Plane r) PlaneEgress && String.eqb (ru_Status r) StatusActive
  && String.eqb (act_Inspection (ru_Action r)) inspection
  && negb (String.eqb (act_Access (ru_Action r)) AccessDeny)
  && inspectionServiceApplies tenant (ru_ServiceID r) resolver.

Definition ruleHosts (tenant : string) (resolver : R) (r : Rule) : list string :=
  if IsAnySubject (ru_Destination r) then [SubjectAny]
  else ar_EndpointAddresses resolver tenant (ru_Destination r).

(** The source selectors that may name a device. *)
Definition deviceSelectors (source : list string) : list string :=
  List.filter (fun id => plainToken id && negb (reservedSelector id)) source.

Definition addDeviceHosts (hosts : list string) (devices : gmap string (gset string))
    (device : string) : gmap string (gset string) :=
  if plainToken device
  then <[device := default ∅ (devices !! device) ∪ list_to_set hosts]> devices
  else devices.

Definition addRule (tenant : string) (resolver : R) (inspection : string) (acc : hostSets)
    (r : Rule) : hostSets :=
  if negb (inspectionInScope tenant resolver inspection r) then acc else
  let hosts := ruleHosts tenant resolver r in
  if IsAnySubject (ru_Source r)
     || String.eqb inspection InspectionInspect
        && nonempty (InspectionSourceWarning tenant r resolver)
  then mkHostSets (hs_all acc ∪ list_to_set hosts) (hs_devices acc)
  else match ar_SourceDeviceTokens resolver with
       | None => acc
       | Some tokens =>
           match deviceSelectors (ru_Source r) with
           | [] => acc
           | ids => mkHostSets (hs_all acc)
                      (foldl (addDeviceHosts hosts) (hs_devices acc) (tokens tenant ids))
           end
       end.

Definition sortedSet (s : gset string) : list string := sort_strings (elements s).

Definition EgressInspectionHosts (tenant : string) (rules : list Rule) (resolver : R)
    (inspection : string) : InspectionHostSelection :=
  if negb (String.eqb inspection InspectionInspect || String.eqb inspection InspectionBypass)
  then mkSelection [] ∅ else
  let sets := foldl (addRule tenant resolver inspection) (mkHostSets ∅ ∅) rules in
  mkSelection (sortedSet (hs_all sets))
    (sortedSet <$> filter (fun kv => kv.2 ≠ ∅) (hs_devices sets)).

Definition EgressBypassFQDNs (tenant : string) (rules : list Rule) (resolver : R) : list string :=
  AnySource (EgressInspectionHosts tenant rules resolver InspectionBypass).

Definition EgressInspectFQDNs (tenant : string) (rules : list Rule) (resolver : R)
    : list string :=
  AnySource (EgressInspectionHosts tenant rules resolver InspectionInspect).
End inspection.

(** * What a lateral rule covers *)

(** A destination token against the names a request dials. *)
Definition tokenReaches (token : string) (candidates : list string) : Prop :=
  ∃ c, c ∈ candidates ∧
    ((trim_space token ≠ "" ∧ trim_space token = trim_space c) ∨ same_address token c = true).

Definition dialled (req : DecisionRequest) : list string :=
  [req_Destination req; req_ApplicationID req; req_FQDN req].

(** Requests that do not spell a sentinel. *)
Definition lateral_unforged (req : DecisionRequest) : Prop :=
  trim_space (AuthoritativeDeviceIdentity req) ≠ sourceNoMatchSentinel ∧
  Forall (fun c => trim_space c ≠ destinationNoMatchSentinel) (dialled req).

Definition lateralRiskCovers (r : Rule) (req : DecisionRequest) : Prop :=
  riskSeverityRank (folded (ru_RiskAtLeast r)) = None ∨
  ∃ m n, riskSeverityRank (folded (ru_RiskAtLeast r)) = Some m ∧
         riskSeverityRank (trim_space (req_RiskStateSeverity req)) = Some n ∧ m ≤ n.

Section lateral_covers.
Context {R : Type} `{EastWestResolver R}.
Variables (tenant : string) (resolver : R).

Definition lateralCovers (r : Rule) (req : DecisionRequest) : Prop :=
  (IsAnySubject (ru_Source r) = true ∨
   ∃ d, d ∈ ew_SourceDeviceTokens resolver tenant (ru_Source r) ∧ trim_space d ≠ "" ∧
        trim_space d = trim_space (AuthoritativeDeviceIdentity req)) ∧
  (IsAnySubject (ru_Destination r) = true ∨
   ∃ token, token ∈ DestinationTokens resolver tenant (ru_Destination r) ∧
            tokenReaches token (dialled req)) ∧
  (ru_ServiceID r = "" ∨
   ∃ ports, ServiceTransportPorts resolver tenant (ru_ServiceID r) !! folded (req_Protocol req)
              = Some ports ∧
            req_DestinationPort req ∈ ports ∧ 0 < req_DestinationPort req) ∧
  lateralRiskCovers r req.
End lateral_covers.

(** ** Selectors *)

Lemma selectorMatches_spec selector candidates :
  selector ≠ [] →
  eastWestSelectorMatches selector candidates = true ↔
  ∃ s c, s ∈ selector ∧ c ∈ candidates ∧ trim_space s ≠ "" ∧ trim_space s = trim_space c.
Proof.
  intros Hne. unfold eastWestSelectorMatches. destruct selector as [|s0 selector]; [done|].
  rewrite existsb_exists. setoid_rewrite <- list_elem_of_In.
  setoid_rewrite andb_true_iff. setoid_rewrite existsb_exists.
  setoid_rewrite <- list_elem_of_In. setoid_rewrite String.eqb_eq. unfold nonempty.
  setoid_rewrite negb_true_iff. setoid_rewrite <- not_true_iff_false.
  setoid_rewrite is_empty_true. naive_solver.
Qed.

Lemma destinationMatches_spec selector candidates :
  selector ≠ [] →
  eastWestDestinationMatches selector candidates = true ↔
  ∃ token, token ∈ selector ∧ tokenReaches token candidates.
Proof.
  intros Hne. unfold eastWestDestinationMatches.
  rewrite orb_true_iff, selectorMatches_spec, existsb_exists by done.
  setoid_rewrite existsb_exists. setoid_rewrite <- list_elem_of_In. unfold tokenReaches. split.
  - intros [(s & c & Hs & Hc & ?)|(s & Hs & c & Hc & ?)]; exists s; (split; [done|]); exists c;
      (split; [done|]); auto.
  - intros (s & Hs & c & Hc & [[? ?]|?]); [left; by exists s, c|right; exists s; eauto].
Qed.

Lemma or_sentinel_nonnil sentinel l : or_sentinel sentinel l ≠ [].
Proof. by destruct l. Qed.

Lemma sentinel_source_spec (tokens : list string) identity :
  trim_space identity ≠ sourceNoMatchSentinel →
  eastWestSelectorMatches (or_sentinel sourceNoMatchSentinel tokens) [identity] = true ↔
  ∃ d, d ∈ tokens ∧ trim_space d ≠ "" ∧ trim_space d = trim_space identity.
Proof.
  intros Hun. rewrite selectorMatches_spec by apply or_sentinel_nonnil.
  assert (trim_space sourceNoMatchSentinel = sourceNoMatchSentinel) as Hs
    by (vm_compute; reflexivity).
  destruct tokens as [|t tokens]; cbn [or_sentinel]; split.
  - intros (s & c & ->%list_elem_of_singleton & ->%list_elem_of_singleton & _ & Heq).
    by rewrite Hs in Heq.
  - by intros (d & ?%elem_of_nil & _).
  - intros (s & c & Hin & ->%list_elem_of_singleton & ? & ?). by exists s.
  - intros (d & Hd & ? & ?). exists d, identity. by rewrite list_elem_of_singleton.
Qed.

Lemma sentinel_destination_spec tokens candidates :
  Forall (fun c => trim_space c ≠ destinationNoMatchSentinel) candidates →
  eastWestDestinationMatches (or_sentinel destinationNoMatchSentinel tokens) candidates = true ↔
  ∃ token, token ∈ tokens ∧ tokenReaches token candidates.
Proof.
  intros Hun. rewrite destinationMatches_spec by apply or_sentinel_nonnil.
  assert (trim_space destinationNoMatchSentinel = destinationNoMatchSentinel) as Hs
    by (vm_compute; reflexivity).
  assert (parse_addr destinationNoMatchSentinel = None) as Hp by (vm_compute; reflexivity).
  destruct tokens as [|t tokens]; cbn [or_sentinel]; [|done]. split.
  - intros (s & ->%list_elem_of_singleton & c & Hc & [[_ Heq]|Hsame]).
    + rewrite Forall_forall in Hun. rewrite Hs in Heq. by destruct (Hun c Hc).
    + unfold same_address in Hsame. by rewrite Hs, Hp in Hsame.
  - by intros (d & ?%elem_of_nil & _).
Qed.

Section lateral_refinement.
Context {R : Type} `{EastWestResolver R}.

(** The fields of a compiled rule. *)
Lemma compileEastWestRule_fields tenant (resolver : R) r :
  let ew := compileEastWestRule tenant resolver r in
  ewr_ID ew = ru_ID r ∧ ewr_Priority ew = ru_Priority r ∧
  ewr_SourceUsers ew = [] ∧ ewr_SourceGroups ew = [] ∧
  ewr_SourceDevices ew = (if IsAnySubject (ru_Source r) then [] else
    or_sentinel sourceNoMatchSentinel (ew_SourceDeviceTokens resolver tenant (ru_Source r))) ∧
  ewr_Destinations ew = (if IsAnySubject (ru_Destination r) then [] else
    or_sentinel destinationNoMatchSentinel
      (DestinationTokens resolver tenant (ru_Destination r))) ∧
  ewr_ServiceTransportPorts ew = (if is_empty (ru_ServiceID r) then None else
    Some (ServiceTransportPorts resolver tenant (ru_ServiceID r))) ∧
  (ru_ServiceID r = "" → ewr_Protocols ew = []) ∧
  ewr_Mode ew = act_Access (ru_Action r) ∧
  ewr_Warn ew = String.eqb (ru_Stage r) StageWarn ∧
  ewr_RequiredWorkloadAttestation ew = act_RequireWorkloadAttestation (ru_Action r) ∧
  ewr_RiskSeverities ew = RiskSeveritiesAtLeast (ru_RiskAtLeast r).
Proof.
  cbn zeta. unfold compileEastWestRule. cbn zeta.
  destruct (act_MaxAgeSeconds _), (is_empty (ru_ServiceID r)) eqn:He,
    (0 <? act_GrantTTLSeconds _); split_and!; try done; intros Hn; by rewrite Hn in He.
Qed.

Lemma lateral_risk_spec r req :
  eastWestSelectorMatches (RiskSeveritiesAtLeast (ru_RiskAtLeast r)) [req_RiskStateSeverity req]
    = true ↔ lateralRiskCovers r req.
Proof.
  unfold lateralRiskCovers. destruct (riskSeverityRank (folded (ru_RiskAtLeast r))) as [m|] eqn:Em.
  2: { unfold RiskSeveritiesAtLeast. fold (folded (ru_RiskAtLeast r)). rewrite Em. naive_solver. }
  pose proof (fun s => elem_of_RiskSeveritiesAtLeast s (ru_RiskAtLeast r)) as Hsev.
  rewrite selectorMatches_spec.
  2: { intros Hn. assert (folded (ru_RiskAtLeast r) ∈ RiskSeveritiesAtLeast (ru_RiskAtLeast r))
         as Hin; [|by rewrite Hn in Hin; apply elem_of_nil in Hin].
       apply Hsev. by exists m, m. }
  setoid_rewrite Hsev. setoid_rewrite Em. split.
  - intros (s & c & (m' & n & [= <-] & Hn & Hle) & ->%list_elem_of_singleton & Hne & Heq).
    right. exists m, n. split_and!; [done| |done]. rewrite <- Heq.
    assert (trim_space s = s) as ->; [|done].
    assert (s ∈ riskSeverities) as Hs by (apply riskSeverityRank_some; by exists n).
    unfold riskSeverities in Hs. rewrite !elem_of_cons, elem_of_nil in Hs.
    destruct_or! Hs; by subst.
  - intros [?|(m' & n & [= <-] & Hn & Hle)]; [done|].
    exists (trim_space (req_RiskStateSeverity req)), (req_RiskStateSeverity req).
    rewrite list_elem_of_singleton, trim_space_idemp. split_and!; [by exists m, n|done| |done].
    intros He. by rewrite He in Hn.
Qed.

Lemma compileEastWestRule_matches tenant (resolver : R) r req :
  lateral_unforged req →
  ewr_matches (compileEastWestRule tenant resolver r) req = true ↔
  lateralCovers tenant resolver r req.
Proof.
  intros [Hsrc Hdst].
  destruct (compileEastWestRule_fields tenant resolver r)
    as (_ & _ & Hu & Hg & Hd & Ht & Hp & Hpr & _ & _ & _ & Hr).
  unfold ewr_matches, lateralCovers. rewrite !andb_true_iff, Hr, lateral_risk_spec, Ht.
  fold (dialled req).
  assert (ewSourceMatches (compileEastWestRule tenant resolver r) req = true ↔
    IsAnySubject (ru_Source r) = true ∨
    ∃ d, d ∈ ew_SourceDeviceTokens resolver tenant (ru_Source r) ∧ trim_space d ≠ "" ∧
         trim_space d = trim_space (AuthoritativeDeviceIdentity req)) as ->.
  { unfold ewSourceMatches. rewrite Hu, Hg, Hd. destruct (IsAnySubject (ru_Source r)).
    - cbn. naive_solver.
    - cbn [is_nil negb orb]. rewrite <- (sentinel_source_spec _ _ Hsrc).
      destruct (ew_SourceDeviceTokens resolver tenant (ru_Source r)); cbn -[eastWestSelectorMatches];
        naive_solver. }
  assert (eastWestDestinationMatches
    (if IsAnySubject (ru_Destination r) then [] else
      or_sentinel destinationNoMatchSentinel (DestinationTokens resolver tenant (ru_Destination r)))
    (dialled req) = true ↔
    IsAnySubject (ru_Destination r) = true ∨
    ∃ token, token ∈ DestinationTokens resolver tenant (ru_Destination r) ∧
      tokenReaches token (dialled req)) as ->.
  { destruct (IsAnySubject (ru_Destination r)); [cbn; naive_solver|].
    rewrite sentinel_destination_spec by done. naive_solver. }
  assert (ewServiceMatches (compileEastWestRule tenant resolver r) req = true ↔
    ru_ServiceID r = "" ∨
    ∃ ports, ServiceTransportPorts resolver tenant (ru_ServiceID r) !! folded (req_Protocol req)
               = Some ports ∧
      req_DestinationPort req ∈ ports ∧ 0 < req_DestinationPort req) as ->; [|tauto].
  unfold ewServiceMatches. rewrite Hp. destruct (is_empty (ru_ServiceID r)) eqn:He.
  - apply is_empty_true in He. rewrite (Hpr He). cbn. naive_solver.
  - assert (ru_ServiceID r ≠ "") by (intros Hn; by rewrite Hn in He).
    rewrite existsb_exists. setoid_rewrite <- list_elem_of_In. setoid_rewrite andb_true_iff.
    setoid_rewrite Z.eqb_eq. setoid_rewrite Z.ltb_lt.
    destruct (_ !! folded (req_Protocol req)) as [ports|]; cbn; [|set_solver].
    naive_solver.
Qed.
End lateral_refinement.

(** * What the compiled rules let through *)

Section lateral_decisions.
Context {R : Type} `{EastWestResolver R}.

Lemma CompileEastWest_elem tenant rules (resolver : R) ew :
  ew ∈ CompileEastWest tenant rules resolver ↔
  ∃ r, r ∈ rules ∧ eastWestInScope tenant r = true ∧ ew = compileEastWestRule tenant resolver r.
Proof.
  unfold CompileEastWest. rewrite list_elem_of_fmap.
  setoid_rewrite (list_elem_of_In (List.filter _ _)). setoid_rewrite List.filter_In.
  setoid_rewrite <- list_elem_of_In. naive_solver.
Qed.

Lemma governs_least e req ew :
  governs e req ew →
  ew ∈ ewc_Rules e ∧ ewr_matches ew req = true ∧
  ∀ q, q ∈ ewc_Rules e → ewr_matches q req = true → ewr_Priority ew ≤ ewr_Priority q.
Proof.
  intros (l1 & l2 & -> & Hm & H1 & H2). split_and!; [set_solver|done|].
  intros q [Hq|[->|Hq]%elem_of_cons]%elem_of_app Hqm; [|lia|by apply H2].
  specialize (H1 q Hq Hqm). lia.
Qed.

(** (C39) On an enforcing lateral plane whose rules are compiled
    from authored ones, a request is let through only under an active outbound rule of
    the tenant that covers it - source device, destination, service and risk - and whose
    priority number is the least of the covering rules.  That rule does not deny unless it
    is in its warning stage, and outside that stage the workload proof it asks for is
    there.  Unresolved sources, destinations and services cover nothing. *)
Theorem authored_lateral_sound e tenant (resolver : R) rules req now :
  ewc_Rules e = CompileEastWest tenant rules resolver → ewc_AllowUnmatched e = false →
  lateral_unforged req → out_Decision (eastWestDecisionFor e req now) = "allow" →
  ∃ r, r ∈ rules ∧ eastWestInScope tenant r = true ∧ lateralCovers tenant resolver r req ∧
    (ru_Stage r ≠ StageWarn →
       folded (act_Access (ru_Action r)) ∈ [AccessAllow; AccessAuthenticate] ∧
       (act_RequireWorkloadAttestation (ru_Action r) = true →
        workloadAttestationSatisfied (req_WorkloadAttestationState req) = true)) ∧
    ∀ q, q ∈ rules → eastWestInScope tenant q = true → lateralCovers tenant resolver q req →
      ru_Priority r ≤ ru_Priority q.
Proof.
  intros Hrules Hun Hgen Hallow.
  destruct (MatchedEastWestRule (ewc_Rules e) req) as [ew|] eqn:Hm.
  2: { unfold eastWestDecisionFor, eastWestUnmatched in Hallow. by rewrite Hm, Hun in Hallow. }
  pose proof (proj1 (eastWestDecisionFor_governed e req now ew Hm) Hallow) as Hcase.
  apply matched_governs, governs_least in Hm as (Hin & Hmatch & Hleast).
  rewrite Hrules, CompileEastWest_elem in Hin. destruct Hin as (r & Hr & Hsc & ->).
  destruct (compileEastWestRule_fields tenant resolver r)
    as (_ & Hpri & _ & _ & _ & _ & _ & _ & Hmode & Hwarn & Hatt & _).
  exists r. split_and!; [done..|by apply compileEastWestRule_matches| |].
  - intros Hstage. unfold ewAttested in Hcase. rewrite Hmode, Hwarn, Hatt in Hcase.
    destruct Hcase as [[Hw _]|[Ha Hc]]; [by apply String.eqb_eq in Hw|]. split; [|done].
    rewrite !elem_of_cons. tauto.
  - intros q Hq Hqs Hqc. rewrite <- Hpri.
    destruct (compileEastWestRule_fields tenant resolver q) as (_ & <- & _).
    apply Hleast; [|by apply compileEastWestRule_matches].
    rewrite Hrules, CompileEastWest_elem. by exists q.
Qed.
End lateral_decisions.

(** ** Inspection *)

Section inspection_facts.
Context {R : Type} `{AddressResolver R}.
Variables (tenant : string) (resolver : R).

(** The hosts of a rule go to every source. *)
Definition appliesToAny (inspection : string) (r : Rule) : bool :=
  IsAnySubject (ru_Source r)
  || String.eqb inspection InspectionInspect
     && nonempty (InspectionSourceWarning tenant r resolver).

(** The device is one the catalogue resolves from the rule's plain source selectors. *)
Definition appliesToDevice (inspection : string) (r : Rule) (device : string) : Prop :=
  appliesToAny inspection r = false ∧ plainToken device = true ∧
  deviceSelectors (ru_Source r) ≠ [] ∧
  ∃ tokens, ar_SourceDeviceTokens resolver = Some tokens ∧
    device ∈ tokens tenant (deviceSelectors (ru_Source r)).

Definition hostOf (devices : gmap string (gset string)) (device host : string) : Prop :=
  host ∈ default ∅ (devices !! device).

Lemma addDeviceHosts_spec hosts devices device d h :
  hostOf (addDeviceHosts hosts devices device) d h ↔
  hostOf devices d h ∨ d = device ∧ plainToken device = true ∧ h ∈ hosts.
Proof.
  unfold hostOf, addDeviceHosts. destruct (plainToken device); [|naive_solver].
  destruct (decide (d = device)) as [->|Hne].
  - rewrite lookup_insert_eq. cbn. rewrite elem_of_union, elem_of_list_to_set. naive_solver.
  - rewrite lookup_insert_ne by done. naive_solver.
Qed.

Lemma addDevicesHosts_spec hosts tokens devices d h :
  hostOf (foldl (addDeviceHosts hosts) devices tokens) d h ↔
  hostOf devices d h ∨ d ∈ tokens ∧ plainToken d = true ∧ h ∈ hosts.
Proof.
  revert devices. induction tokens as [|t tokens IH]; intros devices; cbn [foldl].
  - rewrite elem_of_nil. tauto.
  - rewrite IH, addDeviceHosts_spec, elem_of_cons. naive_solver.
Qed.

Lemma addRule_spec inspection acc r d h :
  (h ∈ hs_all (addRule tenant resolver inspection acc r) ↔
   h ∈ hs_all acc ∨
   inspectionInScope tenant resolver inspection r = true ∧ h ∈ ruleHosts tenant resolver r ∧
   appliesToAny inspection r = true) ∧
  (hostOf (hs_devices (addRule tenant resolver inspection acc r)) d h ↔
   hostOf (hs_devices acc) d h ∨
   inspectionInScope tenant resolver inspection r = true ∧ h ∈ ruleHosts tenant resolver r ∧
   appliesToDevice inspection r d).
Proof.
  unfold addRule, appliesToDevice. fold (appliesToAny inspection r).
  destruct (inspectionInScope _ _ _ r); cbn [negb]; [|naive_solver].
  destruct (appliesToAny inspection r).
  - cbn [hs_all hs_devices]. rewrite elem_of_union, elem_of_list_to_set. naive_solver.
  - destruct (ar_SourceDeviceTokens resolver) as [tokens|]; [|naive_solver].
    destruct (deviceSelectors (ru_Source r)) as [|id ids]; [naive_solver|].
    cbn [hs_all hs_devices]. rewrite addDevicesHosts_spec. split; [naive_solver|].
    split; [|naive_solver]. intros [?|(? & ? & ?)]; [by left|right]. split_and!; try done.
    by exists tokens.
Qed.

Lemma addRules_spec inspection rules acc d h :
  let sets := foldl (addRule tenant resolver inspection) acc rules in
  (h ∈ hs_all sets ↔
   h ∈ hs_all acc ∨ ∃ r, r ∈ rules ∧ inspectionInScope tenant resolver inspection r = true ∧
     h ∈ ruleHosts tenant resolver r ∧ appliesToAny inspection r = true) ∧
  (hostOf (hs_devices sets) d h ↔
   hostOf (hs_devices acc) d h ∨
   ∃ r, r ∈ rules ∧ inspectionInScope tenant resolver inspection r = true ∧
     h ∈ ruleHosts tenant resolver r ∧ appliesToDevice inspection r d).
Proof.
  cbn zeta. revert acc. induction rules as [|r rules IH]; intros acc; cbn [foldl].
  - setoid_rewrite elem_of_nil. naive_solver.
  - destruct (addRule_spec inspection acc r d h) as [Ha Hd].
    destruct (IH (addRule tenant resolver inspection acc r)) as [-> ->].
    rewrite Ha, Hd, !exists_elem_cons. tauto.
Qed.

Lemma elem_of_sortedSet h s : h ∈ sortedSet s ↔ h ∈ s.
Proof. unfold sortedSet, sort_strings. by rewrite sort_stable_perm, elem_of_elements. Qed.
End inspection_facts.

(** The TLS engine is told to bypass or inspect exactly what
    was authored.  A host applies to every source only from an active, non-deny egress
    rule of that inspection axis whose service includes TCP 443 and whose source is the
    explicit wildcard - or, for inspect alone, a source that cannot be known before the
    handshake; it applies to a device only when the catalogue resolves that device from
    the rule's plain selectors.  So a bypass never widens beyond its authored source. *)
Theorem inspection_hosts_spec {R} `{AddressResolver R} tenant (resolver : R) rules inspection
    device host :
  inspection = InspectionInspect ∨ inspection = InspectionBypass →
  let sel := EgressInspectionHosts tenant rules resolver inspection in
  let authored (applies : Rule → Prop) := ∃ r, r ∈ rules ∧
    inspectionInScope tenant resolver inspection r = true ∧
    host ∈ ruleHosts tenant resolver r ∧ applies r in
  (host ∈ AnySource sel ↔ authored (fun r => IsAnySubject (ru_Source r) = true ∨
     inspection = InspectionInspect ∧ InspectionSourceWarning tenant r resolver ≠ "")) ∧
  ((∃ hosts, ByDevice sel !! device = Some hosts ∧ host ∈ hosts) ↔
   authored (fun r => appliesToDevice tenant resolver inspection r device)).
Proof.
  intros Hi. cbn zeta. unfold EgressInspectionHosts.
  assert (String.eqb inspection InspectionInspect || String.eqb inspection InspectionBypass = true)
    as -> by (destruct Hi as [->| ->]; reflexivity). cbn [negb AnySource ByDevice].
  destruct (addRules_spec tenant resolver inspection rules (mkHostSets ∅ ∅) device host)
    as [Hall Hdev]. set (sets := foldl _ _ _) in *. split.
  - rewrite elem_of_sortedSet, Hall. unfold appliesToAny, nonempty.
    setoid_rewrite orb_true_iff. setoid_rewrite andb_true_iff. setoid_rewrite String.eqb_eq.
    setoid_rewrite negb_true_iff. setoid_rewrite <- not_true_iff_false.
    setoid_rewrite is_empty_true. cbn [hs_all]. rewrite elem_of_empty. tauto.
  - transitivity (hostOf (hs_devices sets) device host).
    + unfold hostOf. setoid_rewrite lookup_fmap_Some. setoid_rewrite map_lookup_filter_Some.
      split.
      * intros (hosts & (s & <- & -> & _) & Hin). by apply elem_of_sortedSet in Hin.
      * destruct (hs_devices sets !! device) as [s|] eqn:E; [|set_solver]. cbn. intros Hin.
        exists (sortedSet s). rewrite elem_of_sortedSet. split; [|done]. exists s.
        split_and!; [done|done|]. cbn. set_solver.
    + rewrite Hdev. unfold hostOf at 1. cbn [hs_devices]. rewrite lookup_empty. cbn [default].
      rewrite elem_of_empty. tauto.
Qed.

(** ** A concrete catalogue *)

#[export] Instance table_lateral : EastWestResolver table := {
  ew_SourceDeviceTokens t _ := table_lookup (tb_devices t);
  DestinationTokens t _ := table_lookup (tb_addresses t);
  ServiceTransportPorts t _ _ := tb_services t;
}.

#[export] Instance table_hosts : AddressResolver table := {
  ar_EndpointAddresses t _ := table_lookup (tb_addresses t);
  ar_SourceDeviceTokens t := Some (fun _ => table_lookup (tb_devices t));
  ar_ServiceIncludesTransport t := Some (fun _ _ protocol port =>
    bool_decide (port ∈ default [] (tb_services t !! protocol)));
}.

Definition lateralAllow : Rule :=
  exampleAllow <| ru_Plane := PlaneEastWest |> <| ru_Direction := DirectionOutbound |>
    <| ru_Stage := StageEnforce |>.

Definition lateralRequest : DecisionRequest :=
  exampleRequest <| req_TransportDeviceIdentity := "laptop-1" |>
    <| req_Destination := "git.example" |>.

Lemma authored_lateral_sound_witness :
  ∃ r, r ∈ [lateralAllow] ∧ lateralCovers "t1" exampleTable r lateralRequest.
Proof.
  destruct (authored_lateral_sound
    (mkEWConfig false (mkInternalNetworks [] [])
       (CompileEastWest "t1" [lateralAllow] exampleTable) 0 [])
    "t1" exampleTable [lateralAllow] lateralRequest 0 eq_refl eq_refl
    ltac:(split; [discriminate|repeat (constructor; [discriminate|]); constructor])
    ltac:(vm_compute; reflexivity)) as (r & Hr & _ & Hc & _).
  exists r. split; [exact Hr|exact Hc].
Defined.

(** The group selector is dropped, the laptop keeps its exception. *)
Definition bypassRule : Rule :=
  exampleAllow <| ru_Action := zero_Action <| act_Access := AccessAllow |>
                                           <| act_Inspection := InspectionBypass |> |>.

Lemma inspection_hosts_spec_witness :
  "git.example" ∉ AnySource (EgressInspectionHosts "t1" [bypassRule] exampleTable InspectionBypass) ∧
  ∃ r, r ∈ [bypassRule] ∧
    inspectionInScope "t1" exampleTable InspectionBypass r = true ∧
    "git.example" ∈ ruleHosts "t1" exampleTable r ∧
    appliesToDevice "t1" exampleTable InspectionBypass r "laptop-1".
Proof.
  destruct (inspection_hosts_spec "t1" exampleTable [bypassRule] InspectionBypass "laptop-1"
    "git.example" (or_intror eq_refl)) as [_ Hdev].
  split.
  - intros H. vm_compute in H. by apply elem_of_nil in H.
  - apply Hdev. exists ["git.example"]. split; [vm_compute; reflexivity|left].
Defined.

End RuleLateral.
