(* ===== verification/RuleStore.v ===== *)
(** * The store of authored rules ([src/policyrule/store.go, shared.go, persistence.go,
    distribution.go])

    Rules per tenant and identifier, with a sequence for fresh identifiers and a
    generation that tells the fleet something changed.  A mutation edits a candidate and
    publishes it once the save has answered; with a transactional persister the candidate
    comes from the stored snapshot, which several control planes share.  The JSON text of
    a snapshot is described by what it decodes to. *)

From stdpp Require Import base gmap sets fin_map_dom list strings.
From S2P Require Import Prelude GoStd Persistence Model Common PolicyRule.
Import PolicyRule.

Open Scope Z_scope.

Module RuleStore.

Notation rulesets := (gmap string (gmap string Rule)).

Record Store := mkStore {
  st_seq : Z;
  st_rules : rulesets;
  st_generation : Z;
}.

Definition NewStore : Store := mkStore 0 ∅ 0.

Inductive error :=
  | ErrPersistence
  | Invalid (message : string)
  | InvalidRule (id tenant message : string)
  | MissingID (tenant : string)
  | DuplicateID
  | ErrLoad
  | ErrMacOSInboundUnsupported.

(** ** The durable snapshot *)

(** A stored payload: not JSON, or the sequence and the rules it decodes to ([None]
    where they are absent or null). *)
Inductive raw :=
  | Garbage
  | SnapshotFile (seq : Z) (rules : option rulesets).

Definition candidateRow (tenant id : string) (r : Rule) : option Rule :=
  if is_empty tenant || is_empty id || negb (String.eqb (ru_TenantID r) tenant)
     || negb (String.eqb (ru_ID r) id) then None
  else match normalizeAndValidate r with Ok r' => Some r' | Err _ => None end.

Definition rowsAcceptable (rules : rulesets) : Prop :=
  map_Forall (fun tenant rows =>
    map_Forall (fun id r => is_Some (candidateRow tenant id r)) rows) rules.
#[export] Instance rowsAcceptable_dec rules : Decision (rowsAcceptable rules).
Proof. unfold rowsAcceptable. apply _. Defined.

Definition normalizeRows (rules : rulesets) : rulesets :=
  map_imap (fun tenant rows => Some (map_imap (candidateRow tenant) rows)) rules.

(** The candidate of a transaction: the stored rules, validated row by row. *)
Definition sharedCandidateLocked (s : Store) (stored : option raw) : result error Store :=
  match stored with
  | None =>
      if bool_decide (st_rules s = ∅) then Ok (mkStore 0 ∅ (st_generation s))
      else Err ErrPersistence
  | Some (SnapshotFile seq (Some rules)) =>
      if seq <? 0 then Err ErrPersistence
      else if bool_decide (rowsAcceptable rules)
      then Ok (mkStore seq (normalizeRows rules) (st_generation s))
      else Err ErrPersistence
  | Some _ => Err ErrPersistence
  end.

Definition marshal (rules : rulesets) (seq : Z) : raw := SnapshotFile seq (Some rules).

(** ** Mutations *)

(** What an edit of a candidate asks for. *)
Inductive editing (T : Type) :=
  | Refused (e : error)
  | Unchanged (t : T)
  | Candidate (t : T) (next : rulesets) (seq : Z).
Arguments Refused {T} e.
Arguments Unchanged {T} t.
Arguments Candidate {T} t next seq.

Definition bump (generation : Z) : Z := (generation + 1) mod 2 ^ 64.

Definition publish (s : Store) (next : rulesets) (seq : Z) : Store :=
  mkStore seq next
    (if bool_decide (st_rules s = next) then st_generation s else bump (st_generation s)).

(** [mutateRules]: the store, what is stored, and the answer. *)
Definition mutateRules {T} (b : backing) (s : Store) (stored : option raw) (w : write_outcome)
    (edit : Store → editing T) : Store * option raw * result error T :=
  match b with
  | Updating =>
      match w with
      | Unavailable => (s, stored, Err ErrPersistence)
      | _ =>
          match sharedCandidateLocked s stored with
          | Err _ => (s, stored, Err ErrPersistence)
          | Ok n =>
              let commit t next seq :=
                let disk := diskAfter w stored (marshal next seq) in
                match w with
                | Written => (publish s next seq, disk, Ok t)
                | _ => (s, disk, Err ErrPersistence)
                end in
              match edit n with
              | Refused e => (s, stored, Err e)
              | Unchanged t => commit t (st_rules n) (st_seq n)
              | Candidate t next seq => commit t next seq
              end
          end
      end
  | _ =>
      match edit s with
      | Refused e => (s, stored, Err e)
      | Unchanged t => (s, stored, Ok t)
      | Candidate t next seq =>
          match b with
          | Plain =>
              let disk := diskAfter w stored (marshal next seq) in
              match w with
              | Written => (publish s next seq, disk, Ok t)
              | Unflushed => (publish s next seq, disk, Err ErrPersistence)
              | _ => (s, disk, Err ErrPersistence)
              end
          | _ => (publish s next seq, stored, Ok t)
          end
      end
  end.

(** [for { seq++; r.ID = "rule-" + strconv.Itoa(seq); ... }]: one identifier more than
    the tenant has rules cannot all be taken. *)
Fixpoint freshID (fuel : nat) (rows : gmap string Rule) (seq : Z) : Z * string :=
  let seq := wrap64 (seq + 1) in
  let id := "rule-" +:+ itoa seq in
  match fuel with
  | O => (seq, id)
  | S fuel' => if bool_decide (is_Some (rows !! id)) then freshID fuel' rows seq else (seq, id)
  end.

Definition upsertEdit (r : Rule) (s : Store) : editing Rule :=
  match normalizeAndValidate r with
  | Err message => Refused (Invalid message)
  | Ok r =>
      let rows := rowsOf (st_rules s) (ru_TenantID r) in
      let (seq, id) := if is_blank (ru_ID r) then freshID (size rows) rows (st_seq s)
                       else (st_seq s, ru_ID r) in
      let r := r <| ru_ID := id |> in
      Candidate r (putRow (ru_TenantID r) id r (st_rules s)) seq
  end.

Definition deleteEdit (tenant id : string) (s : Store) : editing bool :=
  let rows := rowsOf (st_rules s) tenant in
  if bool_decide (is_Some (rows !! id))
  then Candidate true (<[tenant := delete id rows]> (st_rules s)) (st_seq s)
  else Unchanged false.

Definition removeTenantEdit (tenant : string) (s : Store) : editing Z :=
  let tenant := trim_space tenant in
  if is_empty tenant then Unchanged 0 else
  let removed := Z.of_nat (size (rowsOf (st_rules s) tenant)) in
  if removed =? 0 then Unchanged 0
  else Candidate removed (delete tenant (st_rules s)) (st_seq s).

(** One rule of a distributed set. *)
Definition replaceRow (next : rulesets) (r0 : Rule) : result error rulesets :=
  match normalizeAndValidate r0 with
  | Err message => Err (InvalidRule (ru_ID r0) (trim_space (ru_TenantID r0)) message)
  | Ok r =>
      if is_empty (ru_ID r) then Err (MissingID (ru_TenantID r))
      else if bool_decide (is_Some (rowsOf next (ru_TenantID r) !! ru_ID r)) then Err DuplicateID
      else Ok (putRow (ru_TenantID r) (ru_ID r) r next)
  end.

Fixpoint replaceRows (next : rulesets) (rules : list Rule) : result error rulesets :=
  match rules with
  | [] => Ok next
  | r :: rules' => let! next := replaceRow next r in replaceRows next rules'
  end.

Definition replaceAllEdit (rules : list Rule) (s : Store) : editing bool :=
  match replaceRows ∅ rules with
  | Err e => Refused e
  | Ok next => Candidate true next (st_seq s)
  end.

Definition UpsertContext (b : backing) (s : Store) (stored : option raw) (w : write_outcome)
    (r : Rule) := mutateRules b s stored w (upsertEdit r).
Definition DeleteContext (b : backing) (s : Store) (stored : option raw) (w : write_outcome)
    (tenant id : string) := mutateRules b s stored w (deleteEdit tenant id).
Definition RemoveTenantContext (b : backing) (s : Store) (stored : option raw)
    (w : write_outcome) (tenant : string) := mutateRules b s stored w (removeTenantEdit tenant).
Definition ReplaceAll (b : backing) (s : Store) (stored : option raw) (w : write_outcome)
    (rules : list Rule) := mutateRules b s stored w (replaceAllEdit rules).

(** ** Reads *)

Definition Get (s : Store) (tenant id : string) : option Rule := rowsOf (st_rules s) tenant !! id.

Definition Tenants (s : Store) : list string := sort_strings (map_to_list (st_rules s)).*1.

Definition byPriority : Rule → Rule → bool := lex_Z ru_Priority (lex_string_lt ru_ID).

Definition List_ (s : Store) (tenant plane : string) : list Rule :=
  let plane := folded plane in
  sort_stable byPriority
    (List.filter (fun r => is_empty plane || String.eqb (ru_Plane r) plane)
       (map_to_list (rowsOf (st_rules s) tenant)).*2).

(** [if x.TenantID != y.TenantID { return x.TenantID < y.TenantID }; ...] *)
Definition byTenant (x y : Rule) : bool :=
  if String.eqb (ru_TenantID x) (ru_TenantID y) then byPriority x y
  else String.ltb (ru_TenantID x) (ru_TenantID y).

Definition allRules (rules : rulesets) : list Rule :=
  flat_map (fun kv : string * gmap string Rule => (map_to_list kv.2).*2) (map_to_list rules).

Definition Snapshot (s : Store) : list Rule := sort_stable byTenant (allRules (st_rules s)).

Definition ConfigGeneration (s : Store) : Z := st_generation s.

(** ** Start and refresh *)

Definition loadLocked (s : Store) (stored : option raw) : result error Store :=
  match stored with
  | None => Ok s
  | Some Garbage => Err ErrLoad
  | Some (SnapshotFile seq rules) =>
      Ok (mkStore (Z.max seq (st_seq s)) (default (st_rules s) rules) (st_generation s))
  end.

(** [load] is what the persister's [Load] answers. *)
Definition SetPersister (b : backing) (s : Store) (load : result error (option raw))
    : result error Store :=
  match b with
  | Memory => Ok s
  | Plain => let! stored := load in loadLocked s stored
  | Updating =>
      match load with
      | Err _ => Err ErrPersistence
      | Ok stored =>
          let! n := sharedCandidateLocked s stored in Ok (publish s (st_rules n) (st_seq n))
      end
  end.

Definition RefreshShared (b : backing) (s : Store) (load : result error (option raw))
    : result error Store :=
  match b with
  | Updating => SetPersister Updating s load
  | _ => Ok s
  end.

(** ** Receivers of inbound rules *)

Definition isInbound (r : Rule) : bool :=
  String.eqb (ru_Plane r) PlaneEastWest && String.eqb (ru_Direction r) DirectionInbound.

Definition InboundReceiversNeedingPlatform (r : Rule) : list string :=
  if isInbound r then ru_Destination r else [].

(** The warning to show with a save that is let through. *)
Definition ValidateInboundReceiverPlatforms (r : Rule) (platforms macReceivers : list string)
    : result error string :=
  if negb (isInbound r) then Ok "" else
  let hasWindows := existsb (fun p => String.eqb (folded p) "windows") platforms in
  let hasMac := existsb (fun p => String.eqb (folded p) "macos") platforms in
  if hasMac && negb hasWindows then Err ErrMacOSInboundUnsupported
  else if hasMac && hasWindows && (0 <? length macReceivers)%nat
  then Ok ("inbound enforces on Windows only; these macOS receivers are not covered: "
           +:+ join ", " macReceivers)
  else Ok "".

(** * Properties *)

(** ** Identifiers *)

Lemma rule_ids_differ (seq : Z) (i j : nat) :
  Z.of_nat i < 2 ^ 64 → Z.of_nat j < 2 ^ 64 →
  "rule-" +:+ itoa (wrap64 (seq + Z.of_nat i)) = "rule-" +:+ itoa (wrap64 (seq + Z.of_nat j)) →
  i = j.
Proof.
  intros Hi Hj H. cbn in H. simplify_eq. apply itoa_inj_all in H. apply wrap64_inj in H; lia.
Qed.

(** A taken answer means that every identifier tried was taken. *)
Lemma freshID_taken fuel rows seq :
  is_Some (rows !! (freshID fuel rows seq).2) →
  ∀ k, (k ≤ fuel)%nat → is_Some (rows !! ("rule-" +:+ itoa (wrap64 (seq + 1 + Z.of_nat k)))).
Proof.
  revert seq. induction fuel as [|fuel IH]; intros seq; cbn [freshID].
  - cbn [snd]. intros H k Hk. assert (k = 0%nat) as -> by lia. by rewrite Z.add_0_r.
  - case_bool_decide as Hid; cbn [snd]; [|done]. intros H [|k] Hk.
    + by rewrite Z.add_0_r.
    + specialize (IH _ H k ltac:(lia)).
      rewrite <- Z.add_assoc, wrap64_add_l in IH.
      by replace (seq + 1 + Z.of_nat (S k)) with (seq + 1 + (1 + Z.of_nat k)) by lia.
Qed.

Lemma free_identifier (rows : gmap string Rule) (seq : Z) :
  Z.of_nat (size rows) < 2 ^ 64 - 1 → rows !! (freshID (size rows) rows seq).2 = None.
Proof.
  intros Hsize. apply eq_None_not_Some. intros Htaken.
  pose proof (freshID_taken _ _ _ Htaken) as Hall.
  set (ids := (fun k => "rule-" +:+ itoa (wrap64 (seq + 1 + Z.of_nat k)))
    <$> List.seq 0 (S (size rows))).
  assert (length ids ≤ size (dom rows))%nat as Hle.
  { apply no_dup_in_set.
    - unfold ids. apply NoDup_fmap_2_strong; [|apply NoDup_ListNoDup, List.seq_NoDup].
      intros i j Hi Hj. rewrite list_elem_of_In, List.in_seq in Hi, Hj.
      apply rule_ids_differ; lia.
    - intros id (k & -> & Hk)%list_elem_of_fmap. apply elem_of_dom, Hall.
      apply list_elem_of_In, List.in_seq in Hk. lia. }
  unfold ids in Hle. rewrite length_fmap, List.length_seq, size_dom in Hle. lia.
Qed.

(** The search for a free rule identifier ends: among one
    identifier more than the tenant has rules one is free, so the loop stops within as
    many turns and what it returns names no rule of the tenant, also when the sequence
    wraps around. *)
Theorem fresh_identifier_found (rows : gmap string Rule) (seq : Z) :
  Z.of_nat (size rows) < 2 ^ 64 - 1 → rows !! (freshID (size rows) rows seq).2 = None.
Proof. apply free_identifier. Qed.

(** ** Well-formed rule sets *)

(** Every row passes validation unchanged under its own tenant and identifier. *)
Definition wf (rules : rulesets) : Prop :=
  map_Forall (fun tenant rows =>
    map_Forall (fun id r => candidateRow tenant id r = Some r) rows) rules.

#[export] Instance wf_dec rules : Decision (wf rules).
Proof. unfold wf. apply _. Defined.

Lemma candidateRow_some tenant id r r' :
  candidateRow tenant id r = Some r' ↔
  tenant ≠ "" ∧ id ≠ "" ∧ ru_TenantID r = tenant ∧ ru_ID r = id ∧ normalizeAndValidate r = Ok r'.
Proof.
  unfold candidateRow. destruct (is_empty tenant) eqn:Et; cbn [orb].
  { apply is_empty_true in Et. naive_solver. }
  destruct (is_empty id) eqn:Ei; cbn [orb]; [apply is_empty_true in Ei; naive_solver|].
  assert (tenant ≠ "") by (intros ->; done). assert (id ≠ "") by (intros ->; done).
  destruct (String.eqb_spec (ru_TenantID r) tenant); cbn [negb orb]; [|naive_solver].
  destruct (String.eqb_spec (ru_ID r) id); cbn [negb]; [|naive_solver].
  destruct (normalizeAndValidate r); naive_solver.
Qed.

Lemma wf_row tenant id r :
  candidateRow tenant id r = Some r ↔
  canonical r ∧ ru_TenantID r = tenant ∧ ru_ID r = id ∧ id ≠ "".
Proof.
  rewrite candidateRow_some. split.
  - intros (_ & ? & ? & ? & Hn). apply normalizeAndValidate_ok in Hn as [Hc _]. done.
  - intros (Hc & Ht & ? & ?). rewrite (canonical_fixed r Hc). split_and!; try done.
    rewrite <- Ht. apply (can_tenant r Hc).
Qed.

(** The same by lookup. *)
Lemma wf_lookup rules :
  wf rules ↔ ∀ tenant id r, rowsOf rules tenant !! id = Some r →
    canonical r ∧ ru_TenantID r = tenant ∧ ru_ID r = id ∧ id ≠ "".
Proof.
  setoid_rewrite <- wf_row. setoid_rewrite rowsOf_some. unfold wf, map_Forall. naive_solver.
Qed.

Lemma wf_empty : wf ∅.
Proof. apply map_Forall_empty. Qed.

Lemma wf_put rules r :
  wf rules → canonical r → ru_ID r ≠ "" →
  wf (putRow (ru_TenantID r) (ru_ID r) r rules).
Proof.
  rewrite !wf_lookup. intros Hwf Hc Hid tenant id r'. rewrite rowsOf_put.
  case_decide as Hd; [|apply Hwf]. destruct Hd as [-> ->]. intros [= <-]. done.
Qed.

Lemma canonical_id r id : canonical r → canonical (r <| ru_ID := id |>).
Proof. intros []. by constructor. Qed.

Lemma freshID_nonempty fuel rows seq : (freshID fuel rows seq).2 ≠ "".
Proof.
  revert seq. induction fuel as [|fuel IH]; intros seq; [done|]. cbn [freshID].
  case_bool_decide; [apply IH|done].
Qed.

(** What an upsert leaves, whatever the candidate. *)
Lemma upsertEdit_spec r s e :
  upsertEdit r s = e →
  match e with
  | Refused err => ∃ message, normalizeAndValidate r = Err message ∧ err = Invalid message
  | Unchanged _ => False
  | Candidate r' next seq => canonical r' ∧ ru_ID r' ≠ "" ∧
      ru_TenantID r' = trim_space (ru_TenantID r) ∧
      next = putRow (ru_TenantID r') (ru_ID r') r' (st_rules s) ∧
      (if is_blank (ru_ID r)
       then ru_ID r' = (freshID (size (rowsOf (st_rules s) (ru_TenantID r')))
                          (rowsOf (st_rules s) (ru_TenantID r')) (st_seq s)).2
       else ru_ID r' = ru_ID r)
  end.
Proof.
  intros <-. unfold upsertEdit. destruct (normalizeAndValidate r) as [r1|message] eqn:Hn; [|eauto].
  apply normalizeAndValidate_ok in Hn as (Hc & Ht & Hid & _). rewrite Hid.
  destruct (is_blank (ru_ID r)) eqn:Hb.
  - destruct (freshID _ _ _) as [seq id] eqn:Hf. split_and!; [by apply canonical_id| |done|done|].
    + cbn. pose proof (freshID_nonempty (size (rowsOf (st_rules s) (ru_TenantID r1)))
        (rowsOf (st_rules s) (ru_TenantID r1)) (st_seq s)) as H. by rewrite Hf in H.
    + cbn. by rewrite Hf.
  - split_and!; [by apply canonical_id| |done|done|done]. cbn. intros Hn. by rewrite Hn in Hb.
Qed.

(** An edit that keeps rule sets well formed. *)
Definition keeps_wf {T} (edit : Store → editing T) : Prop :=
  ∀ s t next seq, wf (st_rules s) → edit s = Candidate t next seq → wf next.

Lemma upsert_keeps_wf r : keeps_wf (upsertEdit r).
Proof.
  intros s t next seq Hwf He. apply upsertEdit_spec in He as (Hc & Hid & _ & -> & _).
  by apply wf_put.
Qed.

Lemma delete_keeps_wf tenant id : keeps_wf (deleteEdit tenant id).
Proof.
  intros s t next seq Hwf. unfold deleteEdit. case_bool_decide; [|done]. intros [= _ <- _].
  rewrite wf_lookup in *. intros tenant' id' r. rewrite rowsOf_insert.
  case_decide as Hd; [|apply Hwf]. subst. rewrite lookup_delete_Some. intros [_ ?]. by apply Hwf.
Qed.

Lemma removeTenant_keeps_wf tenant : keeps_wf (removeTenantEdit tenant).
Proof.
  intros s t next seq Hwf. unfold removeTenantEdit. repeat case_match; try done.
  intros [= _ <- _]. rewrite wf_lookup in *. intros tenant' id' r. rewrite rowsOf_delete.
  case_decide; [by rewrite lookup_empty|apply Hwf].
Qed.

Lemma replaceRow_ok next r0 next' :
  replaceRow next r0 = Ok next' →
  ∃ r, normalizeAndValidate r0 = Ok r ∧ canonical r ∧ ru_ID r ≠ "" ∧
    rowsOf next (ru_TenantID r) !! ru_ID r = None ∧
    next' = putRow (ru_TenantID r) (ru_ID r) r next.
Proof.
  unfold replaceRow. destruct (normalizeAndValidate r0) as [r|] eqn:Hn; [|done].
  destruct (is_empty (ru_ID r)) eqn:He; [done|]. case_bool_decide as Hd; [done|].
  intros [= <-]. exists r. split_and!; [done| |by intros H; rewrite H in He|..|done].
  - by apply normalizeAndValidate_ok in Hn as [Hc _].
  - by apply eq_None_not_Some.
Qed.

Lemma replaceRows_wf rules next next' :
  wf next → replaceRows next rules = Ok next' → wf next'.
Proof.
  revert next. induction rules as [|r rules IH]; intros next Hwf; cbn [replaceRows].
  - by intros [= <-].
  - rewrite result_bind_ok. intros (mid & (r' & _ & Hc & Hid & _ & ->)%replaceRow_ok & H).
    eapply IH; [|exact H]. by apply wf_put.
Qed.

Lemma replaceAll_keeps_wf rules : keeps_wf (replaceAllEdit rules).
Proof.
  intros s t next seq _. unfold replaceAllEdit.
  destruct (replaceRows ∅ rules) as [m|] eqn:E; [|done]. intros [= _ <- _].
  eapply replaceRows_wf; [apply wf_empty|exact E].
Qed.

(** *** Snapshots *)

Lemma normalizeRows_wf rules : wf rules → rowsAcceptable rules ∧ normalizeRows rules = rules.
Proof.
  intros Hwf. split.
  - intros tenant rows Hrows id r Hr. rewrite (Hwf tenant rows Hrows id r Hr). by eexists.
  - apply map_eq. intros tenant. unfold normalizeRows. rewrite map_lookup_imap.
    destruct (rules !! tenant) as [rows|] eqn:Hrows; [|done]. cbn. f_equal.
    apply map_eq. intros id. rewrite map_lookup_imap.
    destruct (rows !! id) as [r|] eqn:Hr; [|done]. cbn. by apply (Hwf tenant rows Hrows).
Qed.

(** A snapshot of well-formed rules decodes to them. *)
Lemma sharedCandidate_wf s rules seq :
  wf rules → 0 ≤ seq →
  sharedCandidateLocked s (Some (marshal rules seq)) = Ok (mkStore seq rules (st_generation s)).
Proof.
  intros Hwf Hseq. destruct (normalizeRows_wf rules Hwf) as [Hacc Hnorm]. unfold sharedCandidateLocked, marshal.
  rewrite (proj2 (Z.ltb_ge _ _)) by done. by rewrite bool_decide_true, Hnorm.
Qed.

(** What is stored is something the store wrote. *)
Definition disk_wf (stored : option raw) : Prop :=
  match stored with
  | None => True
  | Some (SnapshotFile _ (Some rules)) => wf rules
  | Some _ => False
  end.

Lemma sharedCandidate_keeps s stored n :
  disk_wf stored → sharedCandidateLocked s stored = Ok n → wf (st_rules n).
Proof.
  intros Hd. unfold sharedCandidateLocked.
  destruct stored as [[|seq [rules|]]|]; try done.
  - destruct (seq <? 0); [done|]. case_bool_decide; [|done]. intros [= <-]. cbn.
    by destruct (normalizeRows_wf rules Hd) as [_ ->].
  - case_bool_decide; [|done]. intros [= <-]. apply wf_empty.
Qed.

Lemma mutateRules_wf {T} b s stored w (edit : Store → editing T) :
  keeps_wf edit → wf (st_rules s) → disk_wf stored →
  let '(s', stored', _) := mutateRules b s stored w edit in
  wf (st_rules s') ∧ disk_wf stored'.
Proof.
  intros Hedit Hs Hd.
  assert (∀ next seq, wf next → disk_wf (diskAfter w stored (marshal next seq))) as Hafter.
  { intros next seq Hn. by destruct w as [| |[]|]. }
  unfold mutateRules. destruct b.
  - destruct (edit s) as [e|t|t next seq] eqn:E; try done. split; [by eapply Hedit|done].
  - destruct (edit s) as [e|t|t next seq] eqn:E; try done.
    assert (wf next) as Hn by (by eapply Hedit).
    destruct w; (split; [done|by apply Hafter]).
  - destruct (sharedCandidateLocked s stored) as [n|] eqn:Hc; [|by destruct w].
    apply sharedCandidate_keeps in Hc as Hn; [|done].
    assert (∀ e, edit n = e → match e with Candidate _ next _ => wf next | _ => True end) as He.
    { intros e He. destruct e; try done. by eapply Hedit. }
    specialize (He _ eq_refl).
    destruct (edit n), w; try done; (split; [done|by apply Hafter]).
Qed.

(** ** Several control planes over one snapshot *)

Inductive op :=
  | OpUpsert (r : Rule)
  | OpDelete (tenant id : string)
  | OpRemoveTenant (tenant : string)
  | OpReplaceAll (rules : list Rule).

Definition applyOp (b : backing) (s : Store) (stored : option raw) (w : write_outcome) (o : op)
    : Store * option raw :=
  match o with
  | OpUpsert r => (UpsertContext b s stored w r).1
  | OpDelete tenant id => (DeleteContext b s stored w tenant id).1
  | OpRemoveTenant tenant => (RemoveTenantContext b s stored w tenant).1
  | OpReplaceAll rules => (ReplaceAll b s stored w rules).1
  end.

Record fleet := mkFleet { fl_stores : list Store; fl_disk : option raw }.

(** One control plane mutates, refreshes or restarts, with any answer of the persister. *)
Inductive step : fleet → fleet → Prop :=
  | step_mutate f i s b w o s' disk :
      fl_stores f !! i = Some s → applyOp b s (fl_disk f) w o = (s', disk) →
      step f (mkFleet (<[i := s']> (fl_stores f)) disk)
  | step_refresh f i s b s' :
      fl_stores f !! i = Some s → RefreshShared b s (Ok (fl_disk f)) = Ok s' →
      step f (mkFleet (<[i := s']> (fl_stores f)) (fl_disk f))
  | step_restart f i s b s' :
      fl_stores f !! i = Some s → SetPersister b NewStore (Ok (fl_disk f)) = Ok s' →
      step f (mkFleet (<[i := s']> (fl_stores f)) (fl_disk f)).

Definition fleet_wf (f : fleet) : Prop :=
  Forall (fun s => wf (st_rules s)) (fl_stores f) ∧ disk_wf (fl_disk f).

Lemma applyOp_wf b s stored w o :
  wf (st_rules s) → disk_wf stored →
  wf (st_rules (applyOp b s stored w o).1) ∧ disk_wf (applyOp b s stored w o).2.
Proof.
  intros Hs Hd. destruct o as [r|tenant id|tenant|rules]; cbn [applyOp].
  - pose proof (mutateRules_wf b s stored w _ (upsert_keeps_wf r) Hs Hd) as H.
    unfold UpsertContext. by destruct (mutateRules _ _ _ _ _) as [[? ?] ?].
  - pose proof (mutateRules_wf b s stored w _ (delete_keeps_wf tenant id) Hs Hd) as H.
    unfold DeleteContext. by destruct (mutateRules _ _ _ _ _) as [[? ?] ?].
  - pose proof (mutateRules_wf b s stored w _ (removeTenant_keeps_wf tenant) Hs Hd) as H.
    unfold RemoveTenantContext. by destruct (mutateRules _ _ _ _ _) as [[? ?] ?].
  - pose proof (mutateRules_wf b s stored w _ (replaceAll_keeps_wf rules) Hs Hd) as H.
    unfold ReplaceAll. by destruct (mutateRules _ _ _ _ _) as [[? ?] ?].
Qed.

Lemma SetPersister_wf b s stored s' :
  wf (st_rules s) → disk_wf stored → SetPersister b s (Ok stored) = Ok s' → wf (st_rules s').
Proof.
  intros Hs Hd. destruct b; cbn [SetPersister].
  - by intros [= <-].
  - cbn [result_bind]. unfold loadLocked.
    destruct stored as [[|seq [rules|]]|]; try done; by intros [= <-].
  - rewrite result_bind_ok. intros (n & Hn & [= <-]).
    change (wf (st_rules n)). by eapply sharedCandidate_keeps.
Qed.

Lemma step_wf f f' : fleet_wf f → step f f' → fleet_wf f'.
Proof.
  intros [Hs Hd] Hstep.
  assert (∀ i s, fl_stores f !! i = Some s → wf (st_rules s)) as Hget.
  { intros i s Hi. rewrite Forall_forall in Hs. by eapply Hs, list_elem_of_lookup_2. }
  assert (∀ i s', wf (st_rules s') → Forall (fun s => wf (st_rules s)) (<[i:=s']> (fl_stores f)))
    as Hput by (intros; by apply Forall_insert).
  destruct Hstep as [f i s b w o s' disk Hi Ha|f i s b s' Hi Hr|f i s b s' Hi Hr].
  - pose proof (applyOp_wf b s (fl_disk f) w o (Hget i s Hi) Hd) as [H1 H2].
    rewrite Ha in H1, H2. by split; [apply Hput|].
  - split; [|done]. apply Hput. unfold RefreshShared in Hr. specialize (Hget i s Hi).
    destruct b; [by injection Hr as <-..|]. by eapply SetPersister_wf.
  - split; [|done]. apply Hput. eapply (SetPersister_wf b NewStore); [apply wf_empty|exact Hd|exact Hr].
Qed.

Lemma steps_wf f f' : fleet_wf f → rtc step f f' → fleet_wf f'.
Proof. intros Hf. induction 1 as [|f f1 f2 Hs _ IH]; [done|]. by eapply IH, step_wf. Qed.

(** (C38) Over every history of control planes that share one
    snapshot - mutations, failed, unconfirmed and half-reached writes, refreshes and
    restarts - every rule any of them holds is canonical, under its own tenant and
    identifier, and what is stored decodes, for every control plane, to exactly the rules
    that were written (while the sequence has not wrapped): no write locks the fleet out
    of its own rules. *)
Theorem authored_rules_stay_valid n f :
  rtc step (mkFleet (replicate n NewStore) None) f →
  (∀ s tenant id r, s ∈ fl_stores f → Get s tenant id = Some r →
     canonical r ∧ ru_TenantID r = tenant ∧ ru_ID r = id) ∧
  (∀ s seq rules, fl_disk f = Some (SnapshotFile seq rules) → 0 ≤ seq →
     ∃ m, rules = Some m ∧
       sharedCandidateLocked s (fl_disk f) = Ok (mkStore seq m (st_generation s))).
Proof.
  intros Hf. apply steps_wf in Hf as [Hs Hd].
  2: { split; [|done]. apply Forall_replicate, wf_empty. }
  split.
  - intros s tenant id r Hin Hget. rewrite Forall_forall in Hs. specialize (Hs s Hin).
    rewrite wf_lookup in Hs. by destruct (Hs _ _ _ Hget) as (? & ? & ? & _).
  - intros s seq rules Hdisk Hseq. rewrite Hdisk in Hd |- *. destruct rules as [m|]; [|done].
    exists m. split; [done|]. by apply sharedCandidate_wf.
Qed.

(** ** What one mutation does *)

(** The rules an edit starts from. *)
Definition baseRules (b : backing) (s : Store) (stored : option raw) : rulesets :=
  match b with
  | Updating => match sharedCandidateLocked s stored with Ok n => st_rules n | Err _ => ∅ end
  | _ => st_rules s
  end.

Lemma mutateRules_ok {T} b s stored w (edit : Store → editing T) s' stored' t :
  mutateRules b s stored w edit = (s', stored', Ok t) →
  ∃ n, st_rules n = baseRules b s stored ∧
    ((edit n = Unchanged t ∧ st_rules s' = st_rules n) ∨
     ∃ next seq, edit n = Candidate t next seq ∧ st_rules s' = next ∧
       (b ≠ Memory → stored' = Some (marshal next seq))).
Proof.
  unfold mutateRules, baseRules. destruct b.
  - destruct (edit s) eqn:E; intros [= <- <- <-]; exists s; (split; [done|]); [by left|].
    right. do 2 eexists. by split_and!.
  - destruct (edit s) eqn:E; [done|intros [= <- <- <-]; exists s; split; [done|by left]|].
    destruct w; intros [= <- <- <-]. exists s. split; [done|]. right. do 2 eexists.
    by split_and!.
  - destruct w, (sharedCandidateLocked s stored) as [n|] eqn:Hc; try done;
      destruct (edit n) eqn:E; try done; intros [= <- <- <-]; exists n; (split; [done|]);
      [by left|]. right. do 2 eexists. by split_and!.
Qed.

(** A rule that is saved is the validated one, is found under its tenant
    and identifier, is what the persister holds, and changes no other rule of any tenant;
    a rule authored without an identifier gets one that no rule of its tenant had. *)
Theorem upsert_sound b s stored w r s' stored' r' :
  UpsertContext b s stored w r = (s', stored', Ok r') →
  Z.of_nat (size (rowsOf (baseRules b s stored) (ru_TenantID r'))) < 2 ^ 64 - 1 →
  canonical r' ∧ ru_TenantID r' = trim_space (ru_TenantID r) ∧
  Get s' (ru_TenantID r') (ru_ID r') = Some r' ∧
  (∀ tenant id, (tenant, id) ≠ (ru_TenantID r', ru_ID r') →
     Get s' tenant id = rowsOf (baseRules b s stored) tenant !! id) ∧
  (if is_blank (ru_ID r)
   then rowsOf (baseRules b s stored) (ru_TenantID r') !! ru_ID r' = None
   else ru_ID r' = ru_ID r) ∧
  (b ≠ Memory → ∃ seq, stored' = Some (marshal (st_rules s') seq)).
Proof.
  intros H Hsize. apply mutateRules_ok in H as (n & Hbase & [[He _]|(next & seq & He & Hs' & Hst)]);
    apply upsertEdit_spec in He; [done|].
  destruct He as (Hc & Hid & Ht & Hnext & Hfresh). rewrite Hbase in *. unfold Get.
  rewrite Hs', Hnext. split_and!; [done|done| | | |].
  - rewrite rowsOf_put. by rewrite decide_True.
  - intros tenant id Hne. rewrite rowsOf_put, decide_False; [done|]. naive_solver.
  - destruct (is_blank (ru_ID r)); [|done]. rewrite Hfresh. by apply free_identifier.
  - intros Hb. exists seq. by rewrite <- Hnext, Hst.
Qed.

(** A mutation that is answered with an error leaves the
    rules, the sequence and the generation as they were - a refused rule, an unreachable or
    failed persister, a snapshot that does not decode - with one exception: a file that was
    replaced but not flushed is kept live, since it is what a restart reads.  And the
    generation moves exactly when the rules do. *)
Theorem failed_mutation_harmless {T} b s stored w (edit : Store → editing T) s' stored' answer :
  mutateRules b s stored w edit = (s', stored', answer) →
  (is_ok answer = false →
     s' = s ∨ b = Plain ∧ w = Unflushed ∧ ∃ seq, stored' = Some (marshal (st_rules s') seq)) ∧
  (st_rules s' = st_rules s → st_generation s' = st_generation s) ∧
  (st_rules s' ≠ st_rules s → st_generation s' = bump (st_generation s)).
Proof.
  assert (∀ next seq,
    (st_rules (publish s next seq) = st_rules s →
     st_generation (publish s next seq) = st_generation s) ∧
    (st_rules (publish s next seq) ≠ st_rules s →
     st_generation (publish s next seq) = bump (st_generation s))) as Hpub.
  { intros next seq. unfold publish. cbn. case_bool_decide; split; congruence. }
  unfold mutateRules. intros H. destruct b.
  - destruct (edit s) as [e|t|t next seq]; simplify_eq; (split; [|done || apply Hpub]); try done.
    by left.
  - destruct (edit s) as [e|t|t next seq]; [..|destruct w]; simplify_eq;
      (split; [|done || apply Hpub]); try done; intros _; try (by left).
    right. split_and!; [done..|]. by exists seq.
  - destruct w, (sharedCandidateLocked s stored) as [n|]; try destruct (edit n); simplify_eq;
      (split; [|done || apply Hpub]); try done; intros _; by left.
Qed.

(** ** Distribution *)

Definition rowKey (r : Rule) : string * string := (ru_TenantID r, ru_ID r).

Lemma elem_of_allRules rules r :
  r ∈ allRules rules ↔ ∃ tenant id, rowsOf rules tenant !! id = Some r.
Proof.
  unfold allRules. setoid_rewrite rowsOf_some.
  rewrite list_elem_of_In, List.in_flat_map. setoid_rewrite <- list_elem_of_In. split.
  - intros ([tenant rows] & Hin & ([id r'] & -> & Hr)%list_elem_of_fmap).
    apply elem_of_map_to_list in Hin, Hr. by exists tenant, id, rows.
  - intros (tenant & id & rows & Hin & Hr). exists (tenant, rows).
    split; [by apply elem_of_map_to_list|]. apply list_elem_of_fmap. exists (id, r).
    split; [done|by apply elem_of_map_to_list].
Qed.

Lemma NoDup_keys_rows tenant (rows : gmap string Rule) :
  map_Forall (fun id r => candidateRow tenant id r = Some r) rows →
  NoDup (rowKey <$> (map_to_list rows).*2).
Proof.
  intros Hrows. rewrite <- list_fmap_compose. apply NoDup_fmap_2_strong; [|apply NoDup_map_to_list].
  intros [i r] [j q] Hr Hq. cbn. intros [= _ Hk]. apply elem_of_map_to_list in Hr, Hq.
  destruct (proj1 (wf_row _ _ _) (Hrows i r Hr)) as (_ & _ & Hi & _).
  destruct (proj1 (wf_row _ _ _) (Hrows j q Hq)) as (_ & _ & Hj & _).
  assert (i = j) as -> by congruence. congruence.
Qed.

Lemma NoDup_keys rules : wf rules → NoDup (rowKey <$> allRules rules).
Proof.
  intros Hwf. unfold allRules. rewrite <- flat_map_fmap.
  apply NoDup_flat_map.
  - apply NoDup_map_to_list.
  - intros [tenant rows] Hin. apply elem_of_map_to_list in Hin.
    by apply NoDup_keys_rows with tenant, Hwf.
  - intros [t1 rows1] [t2 rows2] k H1 H2 Hk1 Hk2. apply elem_of_map_to_list in H1, H2.
    assert (∀ t rows, rules !! t = Some rows → k ∈ rowKey <$> (map_to_list rows).*2 → t = k.1)
      as Hkey.
    { intros t rows Ht (r & -> & Hr)%list_elem_of_fmap.
      apply list_elem_of_fmap in Hr as ([id r'] & -> & Hr). apply elem_of_map_to_list in Hr.
      apply (Hwf t rows Ht), wf_row in Hr as (_ & <- & _). done. }
    assert (t1 = t2) as -> by (rewrite (Hkey t1 rows1), (Hkey t2 rows2); done).
    congruence.
Qed.

(** A distributed set of valid rules with distinct keys is taken over whole. *)
Lemma replaceRows_complete l next :
  Forall (fun r => canonical r ∧ ru_ID r ≠ "") l → NoDup (rowKey <$> l) →
  (∀ r, r ∈ l → rowsOf next (ru_TenantID r) !! ru_ID r = None) →
  ∃ next', replaceRows next l = Ok next' ∧
    (∀ r, r ∈ l → rowsOf next' (ru_TenantID r) !! ru_ID r = Some r) ∧
    (∀ tenant id, (tenant, id) ∉ rowKey <$> l →
       rowsOf next' tenant !! id = rowsOf next tenant !! id).
Proof.
  revert next. induction l as [|r l IH]; intros next Hall Hnd Hnew.
  { exists next. split_and!; [done| |done]. by intros r ?%elem_of_nil. }
  apply Forall_cons in Hall as [[Hc Hid] Hall]. rewrite fmap_cons in Hnd.
  apply NoDup_cons in Hnd as [Hr Hnd].
  set (mid := putRow (ru_TenantID r) (ru_ID r) r next).
  assert (replaceRow next r = Ok mid) as Hstep.
  { unfold replaceRow. rewrite (canonical_fixed r Hc).
    destruct (is_empty (ru_ID r)) eqn:He; [by apply is_empty_true in He|].
    rewrite (Hnew r) by left. by rewrite bool_decide_false by (by intros [? ?]). }
  destruct (IH mid Hall Hnd) as (next' & Hok & Hin & Hout).
  { intros q Hq. unfold mid. rewrite rowsOf_put, decide_False; [by apply Hnew; right|].
    intros [Ht Hi]. apply Hr. apply list_elem_of_fmap. exists q. split; [|done].
    unfold rowKey. by rewrite Ht, Hi. }
  exists next'. cbn [replaceRows]. rewrite Hstep. split_and!; [done| |].
  - intros q [->|Hq]%elem_of_cons; [|by apply Hin]. rewrite Hout by done.
    unfold mid. by rewrite rowsOf_put, decide_True.
  - intros tenant id Hk. rewrite fmap_cons, not_elem_of_cons in Hk. destruct Hk as [Hk1 Hk2].
    rewrite Hout by done. unfold mid. rewrite rowsOf_put, decide_False; [done|].
    intros [-> ->]. by apply Hk1.
Qed.

(** A control plane's snapshot, distributed, reproduces it: on
    any store [ReplaceAll] accepts the [Snapshot] of a store of valid rules as a whole and
    afterwards every tenant and identifier answers what it answers at the source, so rules
    deleted at the source are gone.  The same from the file: what was saved loads to it. *)
Theorem distribution_round_trip s target stored :
  wf (st_rules s) →
  let '(target', stored', answer) := ReplaceAll Plain target stored Written (Snapshot s) in
  answer = Ok true ∧
  (∀ tenant id, Get target' tenant id = Get s tenant id) ∧
  (∀ tenant id fresh, loadLocked NewStore stored' = Ok fresh → Get fresh tenant id = Get s tenant id).
Proof.
  intros Hwf. unfold ReplaceAll, mutateRules, replaceAllEdit.
  assert (∀ r, r ∈ Snapshot s ↔ r ∈ allRules (st_rules s)) as Helem.
  { intros r. unfold Snapshot. by rewrite sort_stable_perm. }
  destruct (replaceRows_complete (Snapshot s) ∅) as (next & Hok & Hin & Hout).
  { apply Forall_forall. intros r (tenant & id & Hr)%Helem%elem_of_allRules.
    rewrite wf_lookup in Hwf. by destruct (Hwf _ _ _ Hr) as (? & ? & <- & ?). }
  { unfold Snapshot. rewrite sort_stable_perm. by apply NoDup_keys. }
  { intros r _. unfold rowsOf. by rewrite lookup_empty. }
  rewrite Hok.
  assert (∀ tenant id, rowsOf next tenant !! id = rowsOf (st_rules s) tenant !! id) as Hsame.
  { intros tenant id. destruct (rowsOf (st_rules s) tenant !! id) as [r|] eqn:Hr.
    - assert (canonical r ∧ ru_TenantID r = tenant ∧ ru_ID r = id ∧ id ≠ "") as (_ & <- & <- & _).
      { rewrite wf_lookup in Hwf. by apply Hwf. }
      apply Hin, Helem, elem_of_allRules. eauto.
    - rewrite Hout; [unfold rowsOf; by rewrite lookup_empty|].
      intros (r & Hk & (t & i & Hrow)%Helem%elem_of_allRules)%list_elem_of_fmap.
      rewrite wf_lookup in Hwf. destruct (Hwf _ _ _ Hrow) as (_ & <- & <- & _).
      unfold rowKey in Hk. by simplify_eq. }
  split_and!; [done|exact Hsame|]. intros tenant id fresh [= <-]. apply Hsame.
Qed.

(** ** Concrete runs *)

Definition sampleRule : Rule :=
  zero_Rule <| ru_TenantID := " t1 " |> <| ru_Plane := "EGRESS" |> <| ru_Source := ["*"; "ep-1"] |>
    <| ru_Destination := ["ep-2"] |> <| ru_Action := zero_Action <| act_Access := "Allow" |> |>.

Definition sampleStore : Store := (UpsertContext Updating NewStore None Written sampleRule).1.1.

Example sample_saved :
  Get sampleStore "t1" "rule-1" =
  Some (sampleRule <| ru_ID := "rule-1" |> <| ru_TenantID := "t1" |> <| ru_Plane := "egress" |>
    <| ru_Source := ["*"] |> <| ru_Status := "active" |> <| ru_Stage := "enforce" |>
    <| ru_Action := zero_Action <| act_Access := "allow" |> <| act_Inspection := "inspect" |> |>).
Proof. vm_compute. reflexivity. Qed.

Definition oneRow : gmap string Rule := {[ "rule-1" := zero_Rule ]}.

Lemma fresh_identifier_found_witness : oneRow !! (freshID (size oneRow) oneRow 0).2 = None.
Proof. apply (fresh_identifier_found oneRow 0). vm_compute. reflexivity. Defined.

Lemma authored_rules_stay_valid_witness :
  let f := mkFleet [NewStore; sampleStore] (Some (marshal (st_rules sampleStore) 1)) in
  (∀ r, Get sampleStore "t1" "rule-1" = Some r → canonical r) ∧
  ∃ m, sharedCandidateLocked NewStore (fl_disk f) = Ok (mkStore 1 m 0).
Proof.
  intros f.
  assert (rtc step (mkFleet (replicate 2 NewStore) None) f) as Hrun.
  { apply rtc_once. apply (step_mutate (mkFleet (replicate 2 NewStore) None) 1%nat NewStore
      Updating Written (OpUpsert sampleRule)); [reflexivity|vm_compute; reflexivity]. }
  destruct (authored_rules_stay_valid 2 f Hrun) as [Hrows Hdisk]. split.
  - intros r Hr. exact (proj1 (Hrows sampleStore "t1" "rule-1" r
      ltac:(right; left) Hr)).
  - destruct (Hdisk NewStore 1 _ eq_refl ltac:(lia)) as (m & _ & Hm). exists m. exact Hm.
Defined.

Lemma upsert_sound_witness :
  ∃ s' stored' r', UpsertContext Updating NewStore None Written sampleRule = (s', stored', Ok r') ∧
    Get s' "t1" "rule-1" = Some r' ∧ canonical r'.
Proof.
  exists sampleStore, (Some (marshal (st_rules sampleStore) 1)).
  eexists. split; [vm_compute; reflexivity|].
  destruct (upsert_sound Updating NewStore None Written sampleRule sampleStore
    (Some (marshal (st_rules sampleStore) 1)) _ ltac:(vm_compute; reflexivity)
    ltac:(vm_compute; reflexivity)) as (Hc & _ & Hget & _).
  split; [exact Hget|exact Hc].
Defined.

Lemma failed_mutation_harmless_witness :
  let out := UpsertContext Plain sampleStore None (WriteFailed true) sampleRule in
  is_ok out.2 = false ∧ out.1.1 = sampleStore.
Proof.
  intros out. assert (is_ok out.2 = false) as He by (vm_compute; reflexivity). split; [exact He|].
  destruct (failed_mutation_harmless Plain sampleStore None (WriteFailed true)
    (upsertEdit sampleRule) out.1.1 out.1.2 out.2 ltac:(vm_compute; reflexivity)) as [H _].
  destruct (H He) as [Hs|(_ & Hw & _)]; [exact Hs|discriminate Hw].
Defined.

Lemma distribution_round_trip_witness :
  Get (ReplaceAll Plain NewStore None Written (Snapshot sampleStore)).1.1 "t1" "rule-1"
  = Get sampleStore "t1" "rule-1".
Proof.
  assert (wf (st_rules sampleStore)) as Hwf.
  { apply (bool_decide_eq_true_1 _). vm_compute. reflexivity. }
  pose proof (distribution_round_trip sampleStore NewStore None Hwf) as H.
  destruct (ReplaceAll Plain NewStore None Written (Snapshot sampleStore)) as [[t d] a].
  destruct H as (_ & H & _). exact (H "t1" "rule-1").
Defined.

(** A foreign snapshot whose tenant key carries a space: it is accepted, the row is
    trimmed, and what the next mutation writes back no control plane can decode. *)
Example spaced_tenant_locks_the_store :
  let foreign := SnapshotFile 1 (Some {[ " t1" := {[ "rule-1" :=
    sampleRule <| ru_TenantID := " t1" |> <| ru_ID := "rule-1" |> ]} ]}) in
  let '(s', stored', answer) := UpsertContext Updating NewStore (Some foreign) Written
    (sampleRule <| ru_TenantID := "t2" |>) in
  is_ok answer = true ∧ sharedCandidateLocked s' stored' = Err ErrPersistence.
Proof. vm_compute. split; reflexivity. Qed.
End RuleStore.
