(* ===== verification/AssetCatalog.v ===== *)
(** * The asset catalogue ([src/assetcatalog])

    Endpoints, groups and services a rule refers to: the catalogue and its namespace of
    aliases ([assetcatalog.go, store.go, enrolled.go, builtin_services.go]), dynamic
    membership ([membership.go]), the transports of a service ([service_transports.go])
    and the resolution of selectors ([resolve.go]), which is what the compilers of
    [RuleCompile] and [RuleLateral] are given.  The transactions around the catalogue are
    in [CatalogStore].  SHA-256 is an argument. *)

From Stdlib Require Import Ascii.
From stdpp Require Import base gmap sets fin_map_dom list strings sorting.
From S2P Require Import Prelude Trimmed GoStd Tables GoNet Model Common Conditions SaaSCatalog Evaluator Decision.
From S2P Require Import PolicyRule RuleCompile RuleLateral.
Import PolicyRule RuleCompile RuleLateral.

Open Scope Z_scope.

Module AssetCatalog.

Definition KindSteeredDevice : string := "steered_device".
Definition KindNetwork : string := "network".
Definition SourceEnrolled : string := "enrolled".
Definition SourceManual : string := "manual".
Definition SourceApplication : string := "application".

Record PortProto := mkPort { pp_Protocol : string; pp_Port : Z }.

Record Endpoint := mkEndpoint {
  ep_ID : string;
  ep_TenantID : string;
  ep_Alias : string;
  ep_Kind : string;
  ep_Platform : string;
  ep_Steered : bool;
  ep_Identity : string;
  ep_Address : string;
  ep_Tags : list string;
  ep_Source : string;
  ep_BuiltIn : bool;
  ep_Category : string;
}.

#[export] Instance Endpoint_eta : Etaable Endpoint := fun e =>
  mkEndpoint (ep_ID e) (ep_TenantID e) (ep_Alias e) (ep_Kind e) (ep_Platform e) (ep_Steered e)
    (ep_Identity e) (ep_Address e) (ep_Tags e) (ep_Source e) (ep_BuiltIn e) (ep_Category e).

Record MembershipRule := mkMembership {
  mr_Platform : option string;
  mr_Steered : option bool;
  mr_Tag : string;
  mr_Subnet : string;
}.

Record Group := mkGroup {
  gr_ID : string;
  gr_TenantID : string;
  gr_Alias : string;
  gr_Tier0 : bool;
  gr_StaticMembers : list string;
  gr_Dynamic : option MembershipRule;
  gr_BuiltIn : bool;
  gr_Category : string;
}.

#[export] Instance Group_eta : Etaable Group := fun g =>
  mkGroup (gr_ID g) (gr_TenantID g) (gr_Alias g) (gr_Tier0 g) (gr_StaticMembers g)
    (gr_Dynamic g) (gr_BuiltIn g) (gr_Category g).

Record Service := mkService {
  sv_ID : string;
  sv_TenantID : string;
  sv_Alias : string;
  sv_Ports : list PortProto;
  sv_BuiltIn : bool;
}.

#[export] Instance Service_eta : Etaable Service := fun s =>
  mkService (sv_ID s) (sv_TenantID s) (sv_Alias s) (sv_Ports s) (sv_BuiltIn s).

#[export] Instance PortProto_eq_dec : EqDecision PortProto.
Proof. solve_decision. Defined.
#[export] Instance Endpoint_eq_dec : EqDecision Endpoint.
Proof. solve_decision. Defined.
#[export] Instance MembershipRule_eq_dec : EqDecision MembershipRule.
Proof. solve_decision. Defined.
#[export] Instance Group_eq_dec : EqDecision Group.
Proof. solve_decision. Defined.
#[export] Instance Service_eq_dec : EqDecision Service.
Proof. solve_decision. Defined.


(** [st_aliases]: tenant, alias, owner. *)
Record Store := mkStore {
  st_seq : Z;
  st_endpoints : nested Endpoint;
  st_groups : nested Group;
  st_services : nested Service;
  st_aliases : nested string;
  st_enrolledAliases : nested string;
  st_builtInEndpoints : gmap string Endpoint;
  st_builtInGroups : gmap string Group;
  st_builtInServices : gmap string Service;
  st_generation : Z;
}.

#[export] Instance Store_eta : Etaable Store := fun s =>
  mkStore (st_seq s) (st_endpoints s) (st_groups s) (st_services s) (st_aliases s)
    (st_enrolledAliases s) (st_builtInEndpoints s) (st_builtInGroups s) (st_builtInServices s)
    (st_generation s).

Definition NewStore : Store := mkStore 0 ∅ ∅ ∅ ∅ ∅ ∅ ∅ ∅ 0.

Inductive error :=
  | TenantRequired
  | InvalidKind (kind : string)
  | NoPorts
  | InvalidProtocol
  | InvalidPort
  | ErrCertPinEndpointOwnership
  | ErrApplicationEndpointOwnership
  | EnrolledFromInventory
  | EnrolledNameOnly
  | EnrolledManaged
  | ErrPersistence
  | ErrLoad.

(** ** Aliases *)

Definition normalizeAlias (a : string) : string := trim_space a.

Definition aliasFree (used : gmap string string) (owner a : string) : bool :=
  match used !! a with Some o => String.eqb o owner | None => true end.

(** [for n := 2; ; n++]: among one candidate more than there are aliases one is free, so
    the counter does not come near its width. *)
Fixpoint suffixSearch (fuel : nat) (used : gmap string string) (owner desired : string) (n : Z)
    : string :=
  let cand := desired +:+ "-" +:+ itoa n in
  match fuel with
  | O => cand
  | S fuel' => if aliasFree used owner cand then cand
               else suffixSearch fuel' used owner desired (n + 1)
  end.

Definition uniqueAliasLocked (s : Store) (tenant desired owner : string) : string :=
  let desired := valueOrDefault (normalizeAlias desired) owner in
  let used := rowsOf (st_aliases s) tenant in
  if aliasFree used owner desired then desired
  else suffixSearch (size used) used owner desired 2.

Definition releaseOwner (owner : string) (aliases : gmap string string) : gmap string string :=
  filter (fun kv => kv.2 ≠ owner) aliases.

Definition releaseAliasLocked (s : Store) (tenant owner : string) : Store :=
  s <| st_aliases := alter (releaseOwner owner) tenant (st_aliases s) |>.

Definition claimAliasLocked (s : Store) (tenant desired owner : string) : Store * string :=
  let s := releaseAliasLocked s tenant owner in
  let a := uniqueAliasLocked s tenant desired owner in
  (s <| st_aliases := putRow tenant a owner (st_aliases s) |>, a).

Definition nextIDLocked (s : Store) (prefix : string) : Store * string :=
  let seq := wrap64 (st_seq s + 1) in
  (s <| st_seq := seq |>, prefix +:+ "-" +:+ itoa seq).

Definition bump (generation : Z) : Z := (generation + 1) mod 2 ^ 64.
Definition bumpGeneration (s : Store) : Store := s <| st_generation := bump (st_generation s) |>.

(** ** Edits *)

(** [if strings.TrimSpace(x.ID) == "" { x.ID = s.nextIDLocked(prefix) }] *)
Definition assignID (s : Store) (prefix id : string) : Store * string :=
  if is_blank id then nextIDLocked s prefix else (s, id).

Definition upsertEndpointLocked (s : Store) (e : Endpoint) : Store * Endpoint :=
  let '(s, id) := assignID s "ep" (ep_ID e) in
  let e := e <| ep_ID := id |> in
  let '(s, alias) := claimAliasLocked s (ep_TenantID e) (ep_Alias e) (ep_ID e) in
  let e := e <| ep_Alias := alias |> in
  let s := s <| st_endpoints := putRow (ep_TenantID e) (ep_ID e) e (st_endpoints s) |> in
  (if String.eqb (ep_Source e) SourceEnrolled then s else bumpGeneration s, e).

Definition upsertEndpoint (s : Store) (e : Endpoint) : result error (Store * Endpoint) :=
  let e := e <| ep_TenantID := trim_space (ep_TenantID e) |> in
  if is_empty (ep_TenantID e) then Err TenantRequired
  else if negb (containsString [KindSteeredDevice; KindNetwork] (ep_Kind e))
  then Err (InvalidKind (ep_Kind e))
  else Ok (upsertEndpointLocked s e).

Definition upsertGroup (s : Store) (g : Group) : result error (Store * Group) :=
  let g := g <| gr_TenantID := trim_space (gr_TenantID g) |> in
  if is_empty (gr_TenantID g) then Err TenantRequired else
  let '(s, id) := assignID s "grp" (gr_ID g) in
  let g := g <| gr_ID := id |> in
  let '(s, alias) := claimAliasLocked s (gr_TenantID g) (gr_Alias g) (gr_ID g) in
  let g := g <| gr_Alias := alias |> in
  Ok (bumpGeneration (s <| st_groups := putRow (gr_TenantID g) (gr_ID g) g (st_groups s) |>), g).

Definition normalizePort (p : PortProto) : result error PortProto :=
  let protocol := folded (pp_Protocol p) in
  if negb (containsString ["tcp"; "udp"] protocol) then Err InvalidProtocol
  else if (pp_Port p <? 1) || (65535 <? pp_Port p) then Err InvalidPort
  else Ok (mkPort protocol (pp_Port p)).

Fixpoint normalizePorts (ps : list PortProto) : result error (list PortProto) :=
  match ps with
  | [] => Ok []
  | p :: ps' => let! p := normalizePort p in let! ps' := normalizePorts ps' in Ok (p :: ps')
  end.

Definition normalizeServiceTransports (svc : Service) : result error Service :=
  if (length (sv_Ports svc) =? 0)%nat then Err NoPorts else
  let! ports := normalizePorts (sv_Ports svc) in
  Ok (svc <| sv_Ports := ports |>).

Definition upsertService (s : Store) (svc : Service) : result error (Store * Service) :=
  let svc := svc <| sv_TenantID := trim_space (sv_TenantID svc) |> in
  if is_empty (sv_TenantID svc) then Err TenantRequired else
  let! svc := normalizeServiceTransports svc in
  let '(s, id) := assignID s "svc" (sv_ID svc) in
  let svc := svc <| sv_ID := id |> in
  let '(s, alias) := claimAliasLocked s (sv_TenantID svc) (sv_Alias svc) (sv_ID svc) in
  let svc := svc <| sv_Alias := alias |> in
  Ok (bumpGeneration
        (s <| st_services := putRow (sv_TenantID svc) (sv_ID svc) svc (st_services s) |>), svc).

Definition deleteRow {A} (tenant id : string) (t : nested A) : nested A :=
  alter (delete id) tenant t.

Definition deleteEndpoint (s : Store) (tenant id : string) : Store * bool :=
  if bool_decide (is_Some (st_builtInEndpoints s !! id)) then (s, false)
  else if bool_decide (is_Some (rowsOf (st_endpoints s) tenant !! id)) then
    (bumpGeneration (releaseAliasLocked
       (s <| st_endpoints := deleteRow tenant id (st_endpoints s) |>) tenant id), true)
  else (s, false).

Definition deleteGroup (s : Store) (tenant id : string) : Store * bool :=
  if bool_decide (is_Some (st_builtInGroups s !! id)) then (s, false)
  else if bool_decide (is_Some (rowsOf (st_groups s) tenant !! id)) then
    (bumpGeneration (releaseAliasLocked
       (s <| st_groups := deleteRow tenant id (st_groups s) |>) tenant id), true)
  else (s, false).

Definition deleteService (s : Store) (tenant id : string) : Store * bool :=
  if bool_decide (is_Some (rowsOf (st_services s) tenant !! id)) then
    (bumpGeneration (releaseAliasLocked
       (s <| st_services := deleteRow tenant id (st_services s) |>) tenant id), true)
  else (s, false).

(** ** Built-ins *)

Definition SetBuiltInServices (s : Store) (services : list Service) : Store :=
  s <| st_builtInServices :=
    set_keys ∅ (List.map (fun svc => (sv_ID svc, svc <| sv_BuiltIn := true |>)) services) |>.

Definition SetBuiltInCatalog (s : Store) (endpoints : list Endpoint) (groups : list Group) : Store :=
  s <| st_builtInEndpoints :=
         set_keys ∅ (List.map (fun e => (ep_ID e, e <| ep_BuiltIn := true |>)) endpoints) |>
    <| st_builtInGroups :=
         set_keys ∅ (List.map (fun g => (gr_ID g, g <| gr_BuiltIn := true |>)) groups) |>.

Definition tcp (p : Z) : PortProto := mkPort "tcp" p.
Definition udp (p : Z) : PortProto := mkPort "udp" p.
Definition builtInService (alias : string) (ports : list PortProto) : Service :=
  mkService ("builtin-svc-" +:+ to_lower (replace_byte " " "-" alias)) "" alias ports true.

Definition BuiltInServices : list Service := [
  builtInService "HTTPS" [tcp 443]; builtInService "HTTP" [tcp 80];
  builtInService "SSH" [tcp 22]; builtInService "RDP" [tcp 3389];
  builtInService "VNC" [tcp 5900]; builtInService "WinRM-HTTP" [tcp 5985];
  builtInService "WinRM-HTTPS" [tcp 5986]; builtInService "Telnet" [tcp 23];
  builtInService "SMB" [tcp 445]; builtInService "NetBIOS" [tcp 139];
  builtInService "RPC Endpoint Mapper" [tcp 135]; builtInService "LDAP" [tcp 389];
  builtInService "LDAPS" [tcp 636]; builtInService "Kerberos" [tcp 88; udp 88];
  builtInService "DNS" [tcp 53; udp 53]; builtInService "SMTP" [tcp 25];
  builtInService "SMTP Submission" [tcp 587]; builtInService "SMTPS" [tcp 465];
  builtInService "IMAP" [tcp 143]; builtInService "IMAPS" [tcp 993];
  builtInService "POP3" [tcp 110]; builtInService "POP3S" [tcp 995];
  builtInService "FTP" [tcp 21]; builtInService "MySQL" [tcp 3306];
  builtInService "PostgreSQL" [tcp 5432]; builtInService "MSSQL" [tcp 1433];
  builtInService "Oracle DB" [tcp 1521]; builtInService "Redis" [tcp 6379];
  builtInService "MongoDB" [tcp 27017]; builtInService "Syslog" [udp 514];
  builtInService "SNMP" [udp 161]].
(** ** Membership *)

Definition hasTag (tags : list string) (tag : string) : bool :=
  existsb (fun t => equal_fold (trim_space t) (trim_space tag)) tags.

Definition addressInSubnet (address cidr : string) : bool :=
  match net_parse_cidr (trim_space cidr) with
  | None => false
  | Some ipnet =>
      let host := trim_space address in
      let host := match cut "/" host with Some (h, _) => h | None => host end in
      match net_parse_ip host with
      | None => false
      | Some ip => prefix_contains ipnet ip
      end
  end.

(** An absent field is "any". *)
Definition endpointMatchesRule (e : Endpoint) (r : MembershipRule) : bool :=
  match mr_Platform r with
  | Some p => equal_fold (trim_space (ep_Platform e)) (trim_space p)
  | None => true
  end
  && match mr_Steered r with Some b => Bool.eqb (ep_Steered e) b | None => true end
  && (is_empty (mr_Tag r) || hasTag (ep_Tags e) (mr_Tag r))
  && (is_empty (mr_Subnet r) || addressInSubnet (ep_Address e) (mr_Subnet r)).

(** ** Reads *)

Definition GetEndpoint (s : Store) (tenant id : string) : option Endpoint :=
  match rowsOf (st_endpoints s) tenant !! id with
  | Some e => Some e
  | None => st_builtInEndpoints s !! id
  end.

Definition values {A} (m : gmap string A) : list A := (map_to_list m).*2.

(** Sorted by alias; the order among equal aliases is not specified. *)
Definition sortByAlias {A} (alias : A → string) : list A → list A :=
  sort_stable (lex_string_lt alias).

Definition ListEndpoints (s : Store) (tenant : string) : list Endpoint :=
  sortByAlias ep_Alias (values (rowsOf (st_endpoints s) tenant) ++ values (st_builtInEndpoints s)).

Definition ListGroups (s : Store) (tenant : string) : list Group :=
  sortByAlias gr_Alias (values (rowsOf (st_groups s) tenant) ++ values (st_builtInGroups s)).

(** A tenant's service shadows the built-in of the same name. *)
Definition ListServices (s : Store) (tenant : string) : list Service :=
  let own := values (rowsOf (st_services s) tenant) in
  let seen := List.map (fun svc => to_lower (sv_Alias svc)) own in
  sortByAlias sv_Alias
    (own ++ List.filter (fun svc => negb (containsString seen (to_lower (sv_Alias svc))))
              (values (st_builtInServices s))).

(** The keys of a set of texts, in order. *)
Definition sortedDistinct (l : list string) : list string := sortedSet (list_to_set l).

Definition existing (endpoints : gmap string Endpoint) (ids : list string) : list string :=
  List.filter (fun id => bool_decide (is_Some (endpoints !! id))) ids.

Definition ResolveGroupMembers (s : Store) (tenant groupID : string) : list string :=
  match st_builtInGroups s !! groupID with
  | Some bg => sortedDistinct (existing (st_builtInEndpoints s) (gr_StaticMembers bg))
  | None =>
      match rowsOf (st_groups s) tenant !! groupID with
      | None => []
      | Some g =>
          let endpoints := rowsOf (st_endpoints s) tenant in
          sortedDistinct (existing endpoints (gr_StaticMembers g) ++
            match gr_Dynamic g with
            | None => []
            | Some rule =>
                (List.filter (fun kv : string * Endpoint => endpointMatchesRule kv.2 rule)
                   (map_to_list endpoints)).*1
            end)
      end
  end.

(** ** Resolution *)

(** An endpoint stands for itself, anything else for the members of the group it names. *)
Definition expandIDs (s : Store) (tenant : string) (ids : list string) : list string :=
  flat_map (fun id => if bool_decide (is_Some (GetEndpoint s tenant id)) then [id]
                      else ResolveGroupMembers s tenant id) ids.

(** The endpoints behind a list of selectors. *)
Definition subjects (s : Store) (tenant : string) (ids : list string) : list Endpoint :=
  omap (GetEndpoint s tenant) (expandIDs s tenant ids).

Definition ResolvePlatforms (s : Store) (tenant : string) (ids : list string)
    : list string * list string :=
  let eps := subjects s tenant ids in
  (sortedDistinct (List.filter nonempty (List.map ep_Platform eps)),
   sortedDistinct (List.map ep_Alias
     (List.filter (fun e => String.eqb (ep_Platform e) "macos") eps))).

Definition EndpointAddresses (s : Store) (tenant : string) (ids : list string) : list string :=
  sortedDistinct (List.filter nonempty (List.map ep_Address (subjects s tenant ids))).

Definition SourceDeviceTokens (s : Store) (tenant : string) (ids : list string) : list string :=
  sortedDistinct (List.filter nonempty (List.map ep_Identity (subjects s tenant ids))).

Definition DestinationTokens (s : Store) (tenant : string) (ids : list string) : list string :=
  sortedDistinct (List.filter nonempty
    (List.map (fun e => valueOrDefault (ep_Address e) (ep_Alias e)) (subjects s tenant ids))).

Definition findService (s : Store) (tenant serviceID : string) : option Service :=
  List.find (fun svc => String.eqb (sv_ID svc) serviceID) (ListServices s tenant).

Definition ServiceProtocols (s : Store) (tenant serviceID : string) : list string :=
  if is_blank serviceID then [] else
  match findService s tenant serviceID with
  | Some svc => [folded (sv_Alias svc)]
  | None => []
  end.

Definition ServicePorts (s : Store) (tenant serviceID : string) : list Z :=
  if is_blank serviceID then [] else
  match findService s tenant serviceID with
  | Some svc => List.filter (fun p => 0 <? p) (List.map pp_Port (sv_Ports svc))
  | None => []
  end.

Definition addTransport (out : gmap string (list Z)) (p : PortProto) : gmap string (list Z) :=
  <[pp_Protocol p := default [] (out !! pp_Protocol p) ++ [pp_Port p]]> out.

Definition ServiceTransportPorts (s : Store) (tenant serviceID : string)
    : gmap string (list Z) :=
  if is_empty serviceID then ∅ else
  match findService s tenant serviceID with
  | None => ∅
  | Some svc =>
      match normalizeServiceTransports svc with
      | Err _ => ∅
      | Ok valid => foldl addTransport ∅ (sv_Ports valid)
      end
  end.

Definition ServiceIncludesTransport (s : Store) (tenant serviceID protocol : string) (port : Z)
    : bool :=
  negb (is_blank serviceID) &&
  existsb (Z.eqb port) (default [] (ServiceTransportPorts s tenant serviceID !! protocol)).

(** A stored service whose transports are not valid is kept as it is. *)
Definition loadServiceTransports (svc : Service) : Service :=
  match normalizeServiceTransports svc with Ok normalized => normalized | Err _ => svc end.

(** The catalogue is what the compilers resolve against. *)
#[export] Instance Store_EgressResolver : EgressResolver Store := {
  RuleCompile.SourceDeviceTokens := SourceDeviceTokens;
  RuleCompile.EndpointAddresses := EndpointAddresses;
  serviceTransportResolver s := Some (ServiceTransportPorts s);
}.

#[export] Instance Store_EastWestResolver : EastWestResolver Store := {
  ew_SourceDeviceTokens := SourceDeviceTokens;
  RuleLateral.DestinationTokens := DestinationTokens;
  RuleLateral.ServiceTransportPorts := ServiceTransportPorts;
}.

#[export] Instance Store_AddressResolver : AddressResolver Store := {
  ar_EndpointAddresses := EndpointAddresses;
  ar_SourceDeviceTokens s := Some (SourceDeviceTokens s);
  ar_ServiceIncludesTransport s := Some (ServiceIncludesTransport s);
}.

(** ** The enrolled inventory *)

Record EnrolledDevice := mkEnrolledDevice {
  ed_Identity : string;
  ed_Name : string;
  ed_Platform : string;
}.

Section enrolled.
(** The hexadecimal text of SHA-256. *)
Context (sha256_hex : string → string).

(** The first ten bytes of the digest. *)
Definition enrolledEndpointID (identity : string) : string :=
  "enrolled-" +:+ String.substring 0 20 (sha256_hex (folded identity)).

(** A name the operator chose wins over the one the inventory proposes. *)
Definition syncEnrolledEndpoint (s : Store) (e : Endpoint) : Store * Endpoint :=
  let e := match rowsOf (st_endpoints s) (ep_TenantID e) !! ep_ID e with
           | Some current => e <| ep_Alias := ep_Alias current |>
           | None => e
           end in
  let e := match rowsOf (st_enrolledAliases s) (ep_TenantID e) !! ep_ID e with
           | Some alias => e <| ep_Alias := alias |>
           | None => e
           end in
  upsertEndpointLocked s e.

Definition enrolledEndpoint (tenantID : string) (d : EnrolledDevice) : Endpoint :=
  let identity := trim_space (ed_Identity d) in
  mkEndpoint (enrolledEndpointID identity) tenantID
    (valueOrDefault (trim_space (ed_Name d)) identity) KindSteeredDevice
    (trim_space (ed_Platform d)) true identity "" [] SourceEnrolled false "".

Definition syncDevice (tenantID : string) (acc : Store * list Endpoint) (d : EnrolledDevice)
    : Store * list Endpoint :=
  if is_blank (ed_Identity d) then acc else
  let '(s, e) := syncEnrolledEndpoint acc.1 (enrolledEndpoint tenantID d) in
  (s, acc.2 ++ [e]).

Definition SyncEnrolledEndpoints (s : Store) (tenantID : string) (devices : list EnrolledDevice)
    : Store * list Endpoint :=
  if is_blank tenantID then (s, []) else
  foldl (syncDevice (trim_space tenantID)) (s, []) devices.
End enrolled.

(** * Properties *)

(** ** What a selector stands for *)

(** The endpoints a selector of a rule selects. *)
Inductive selects (s : Store) (tenant : string) : string → Endpoint → Prop :=
  | selects_endpoint id e :
      GetEndpoint s tenant id = Some e → selects s tenant id e
  | selects_builtin_member id g eid e :
      GetEndpoint s tenant id = None → st_builtInGroups s !! id = Some g →
      eid ∈ gr_StaticMembers g → is_Some (st_builtInEndpoints s !! eid) →
      GetEndpoint s tenant eid = Some e → selects s tenant id e
  | selects_static_member id g eid e :
      GetEndpoint s tenant id = None → st_builtInGroups s !! id = None →
      rowsOf (st_groups s) tenant !! id = Some g → eid ∈ gr_StaticMembers g →
      rowsOf (st_endpoints s) tenant !! eid = Some e → selects s tenant id e
  | selects_dynamic_member id g rule eid e :
      GetEndpoint s tenant id = None → st_builtInGroups s !! id = None →
      rowsOf (st_groups s) tenant !! id = Some g → gr_Dynamic g = Some rule →
      rowsOf (st_endpoints s) tenant !! eid = Some e → endpointMatchesRule e rule = true →
      selects s tenant id e.

Lemma elem_of_sortedDistinct x l : x ∈ sortedDistinct l ↔ x ∈ l.
Proof.
  unfold sortedDistinct, sortedSet, sort_strings.
  by rewrite sort_stable_perm, elem_of_elements, elem_of_list_to_set.
Qed.

Lemma sortedDistinct_canonical l :
  NoDup (sortedDistinct l) ∧
  StronglySorted (fun a b => String.ltb b a = false) (sortedDistinct l).
Proof.
  unfold sortedDistinct, sortedSet, sort_strings. split; [|apply sort_stable_sorted; apply _].
  rewrite sort_stable_perm. apply NoDup_elements.
Qed.

Lemma elem_of_existing m ids x : x ∈ existing m ids ↔ x ∈ ids ∧ is_Some (m !! x).
Proof.
  unfold existing. rewrite list_elem_of_In, List.filter_In, <- list_elem_of_In.
  by rewrite bool_decide_eq_true.
Qed.

Lemma elem_of_nonempty l x : x ∈ List.filter nonempty l ↔ x ∈ l ∧ x ≠ "".
Proof.
  rewrite list_elem_of_In, List.filter_In, <- list_elem_of_In.
  unfold nonempty. rewrite negb_true_iff, <- not_true_iff_false, is_empty_true. done.
Qed.

Lemma GetEndpoint_own s tenant id e :
  rowsOf (st_endpoints s) tenant !! id = Some e → GetEndpoint s tenant id = Some e.
Proof. unfold GetEndpoint. by intros ->. Qed.

Lemma elem_of_subjects s tenant ids e :
  e ∈ subjects s tenant ids ↔ ∃ id, id ∈ ids ∧ e ∈ subjects s tenant [id].
Proof.
  unfold subjects, expandIDs. cbn [flat_map]. setoid_rewrite app_nil_r.
  setoid_rewrite list_elem_of_omap. setoid_rewrite list_elem_of_In at 1.
  setoid_rewrite List.in_flat_map. setoid_rewrite <- list_elem_of_In. naive_solver.
Qed.

(** One selector at a time. *)
Lemma subjects_single s tenant id e : e ∈ subjects s tenant [id] ↔ selects s tenant id e.
Proof.
  unfold subjects, expandIDs. cbn [flat_map]. rewrite app_nil_r, list_elem_of_omap.
  destruct (GetEndpoint s tenant id) as [e0|] eqn:Hid.
  { rewrite bool_decide_true by done. split.
    - intros (x & ->%list_elem_of_singleton & He). by constructor.
    - intros Hsel. exists id. split; [set_solver|]. destruct Hsel; congruence. }
  rewrite bool_decide_false by (by intros [? ?]). unfold ResolveGroupMembers.
  destruct (st_builtInGroups s !! id) as [bg|] eqn:Hbg.
  { setoid_rewrite elem_of_sortedDistinct. setoid_rewrite elem_of_existing. split.
    - intros (eid & [? ?] & ?). by eapply selects_builtin_member.
    - intros Hsel. destruct Hsel; simplify_eq. eauto. }
  destruct (rowsOf (st_groups s) tenant !! id) as [g|] eqn:Hg.
  2: { split; [by intros (? & ?%elem_of_nil & _)|]. intros Hsel. destruct Hsel; congruence. }
  setoid_rewrite elem_of_sortedDistinct. setoid_rewrite elem_of_app.
  setoid_rewrite elem_of_existing. split.
  - intros (eid & [[Hin [e' He']]|Hin] & He).
    + rewrite (GetEndpoint_own _ _ _ _ He') in He. simplify_eq. by eapply selects_static_member.
    + destruct (gr_Dynamic g) as [rule|] eqn:Hdyn; [|by apply elem_of_nil in Hin].
      apply list_elem_of_fmap in Hin as ([k e'] & -> & Hin).
      apply list_elem_of_In, List.filter_In in Hin as [Hin Hm].
      apply list_elem_of_In, elem_of_map_to_list in Hin. cbn in *.
      rewrite (GetEndpoint_own _ _ _ _ Hin) in He. simplify_eq. by eapply selects_dynamic_member.
  - intros Hsel. destruct Hsel as [|? ? ? ? ? ?|id g' eid e _ _ Hg' Hin He|id g' rule eid e _ _ Hg' Hd He Hm];
      try congruence; simplify_eq; exists eid; (split; [|by apply GetEndpoint_own]).
    + left. by split; [|eexists].
    + right. rewrite Hd. apply list_elem_of_fmap. exists (eid, e). split; [done|].
      apply list_elem_of_In, List.filter_In. split; [|done].
      by apply list_elem_of_In, elem_of_map_to_list.
Qed.

(** A token that the endpoints behind some selectors carry. *)
Definition resolves (f : Endpoint → string) (s : Store) (tenant : string) (ids : list string)
    (x : string) : Prop :=
  x ≠ "" ∧ ∃ id e, id ∈ ids ∧ selects s tenant id e ∧ f e = x.

Lemma elem_of_resolved f s tenant ids x :
  x ∈ sortedDistinct (List.filter nonempty (List.map f (subjects s tenant ids))) ↔
  resolves f s tenant ids x.
Proof.
  unfold resolves. rewrite elem_of_sortedDistinct, elem_of_nonempty, list_elem_of_fmap.
  setoid_rewrite elem_of_subjects. setoid_rewrite subjects_single. naive_solver.
Qed.

Lemma resolves_pointwise f s tenant ids x :
  resolves f s tenant ids x ↔ ∃ id, id ∈ ids ∧ resolves f s tenant [id] x.
Proof. unfold resolves. setoid_rewrite list_elem_of_singleton. naive_solver. Qed.

#[export] Instance Store_PointwiseResolver : PointwiseResolver Store.
Proof.
  split; intros s tenant ids x; cbn; setoid_rewrite elem_of_resolved; apply resolves_pointwise.
Qed.

(** What the compilers are given is what the selectors stand for:
    the device tokens of a list of selectors are the identities of the endpoints it
    selects (an endpoint itself, or the static and dynamic members of a group), the
    addresses their addresses, the destination tokens an address or else the alias, the
    platforms theirs; blanks are left out, nothing is listed twice and the order does not
    depend on the map. *)
Theorem catalogue_resolution s tenant ids x :
  (x ∈ SourceDeviceTokens s tenant ids ↔ resolves ep_Identity s tenant ids x) ∧
  (x ∈ EndpointAddresses s tenant ids ↔ resolves ep_Address s tenant ids x) ∧
  (x ∈ DestinationTokens s tenant ids ↔
   resolves (fun e => valueOrDefault (ep_Address e) (ep_Alias e)) s tenant ids x) ∧
  (x ∈ (ResolvePlatforms s tenant ids).1 ↔ resolves ep_Platform s tenant ids x) ∧
  (x ∈ (ResolvePlatforms s tenant ids).2 ↔
   ∃ id e, id ∈ ids ∧ selects s tenant id e ∧ ep_Platform e = "macos" ∧ ep_Alias e = x) ∧
  NoDup (SourceDeviceTokens s tenant ids) ∧
  StronglySorted (fun a b => String.ltb b a = false) (SourceDeviceTokens s tenant ids).
Proof.
  split_and!; try apply elem_of_resolved; try apply sortedDistinct_canonical.
  cbn. rewrite elem_of_sortedDistinct, list_elem_of_fmap.
  setoid_rewrite list_elem_of_In at 1. setoid_rewrite List.filter_In.
  setoid_rewrite <- list_elem_of_In. setoid_rewrite String.eqb_eq.
  setoid_rewrite elem_of_subjects. setoid_rewrite subjects_single. naive_solver.
Qed.

(** ** Services *)

Lemma normalizePorts_ok ps qs :
  normalizePorts ps = Ok qs →
  length qs = length ps ∧
  Forall (fun p => pp_Protocol p ∈ ["tcp"; "udp"] ∧ 1 ≤ pp_Port p ≤ 65535) qs.
Proof.
  revert qs. induction ps as [|p ps IH]; intros qs; cbn [normalizePorts].
  { intros [= <-]. by split. }
  rewrite result_bind_ok. intros (p' & Hp & Hps).
  rewrite result_bind_ok in Hps. destruct Hps as (qs' & Hqs & [= <-]).
  destruct (IH _ Hqs) as [Hl Hall]. split; [cbn; by rewrite Hl|]. constructor; [|done].
  unfold normalizePort in Hp. destruct (containsString _ _) eqn:Hc; [|done]. cbn [negb] in Hp.
  destruct ((pp_Port p <? 1) || (65535 <? pp_Port p)) eqn:Hr; [done|].
  injection Hp as <-. cbn [pp_Protocol pp_Port]. split; [by apply containsString_spec|]. bool_facts. lia.
Qed.

Lemma addTransport_lookup ps out protocol :
  foldl addTransport out ps !! protocol =
  match List.map pp_Port (List.filter (fun p => String.eqb (pp_Protocol p) protocol) ps) with
  | [] => out !! protocol
  | ports => Some (default [] (out !! protocol) ++ ports)
  end.
Proof.
  revert out. induction ps as [|p ps IH]; intros out; [done|]. cbn [foldl List.filter].
  rewrite IH. unfold addTransport. destruct (String.eqb_spec (pp_Protocol p) protocol) as [->|Hne].
  - rewrite lookup_insert_eq. cbn [List.map].
    destruct (List.map _ _); cbn; [done|]. by rewrite <- app_assoc.
  - by rewrite lookup_insert_ne.
Qed.

(** The transports of a service are those of the row listed under its identifier. *)
Lemma ServiceTransportPorts_spec s tenant serviceID protocol :
  serviceID ≠ "" →
  ServiceTransportPorts s tenant serviceID !! protocol =
  match findService s tenant serviceID with
  | Some svc =>
      match normalizeServiceTransports svc with
      | Ok valid =>
          match List.map pp_Port
                  (List.filter (fun p => String.eqb (pp_Protocol p) protocol) (sv_Ports valid)) with
          | [] => None
          | ports => Some ports
          end
      | Err _ => None
      end
  | None => None
  end.
Proof.
  intros Hne. unfold ServiceTransportPorts.
  destruct (is_empty serviceID) eqn:E; [by apply is_empty_true in E|].
  destruct (findService _ _ _) as [svc|]; [|by rewrite lookup_empty].
  destruct (normalizeServiceTransports svc) as [valid|]; [|by rewrite lookup_empty].
  rewrite addTransport_lookup. destruct (List.map _ _); [by rewrite lookup_empty|].
  by rewrite lookup_empty.
Qed.

Lemma normalizeServiceTransports_ok svc valid :
  normalizeServiceTransports svc = Ok valid →
  sv_Ports valid ≠ [] ∧
  Forall (fun p => pp_Protocol p ∈ ["tcp"; "udp"] ∧ 1 ≤ pp_Port p ≤ 65535) (sv_Ports valid).
Proof.
  unfold normalizeServiceTransports. destruct (sv_Ports svc) as [|p ps] eqn:Hps; [done|].
  cbn [length Nat.eqb]. rewrite result_bind_ok. intros (ports & Hok & [= <-]).
  apply normalizePorts_ok in Hok as [Hl Hall]. cbn. split; [|done]. by destruct ports.
Qed.

Lemma elem_of_ports ps protocol port :
  port ∈ List.map pp_Port (List.filter (fun p => String.eqb (pp_Protocol p) protocol) ps) ↔
  mkPort protocol port ∈ ps.
Proof.
  rewrite list_elem_of_fmap. setoid_rewrite list_elem_of_In. setoid_rewrite List.filter_In.
  setoid_rewrite String.eqb_eq. split.
  - intros ([q n] & -> & Hin & <-). done.
  - intros Hin. by exists (mkPort protocol port).
Qed.

(** A protocol and port pair of a service. *)
Definition serviceHas (s : Store) (tenant serviceID protocol : string) (port : Z) : Prop :=
  ∃ svc valid, findService s tenant serviceID = Some svc ∧
    normalizeServiceTransports svc = Ok valid ∧ mkPort protocol port ∈ sv_Ports valid.

Lemma serviceHas_spec s tenant serviceID protocol port :
  serviceID ≠ "" →
  (∃ ports, ServiceTransportPorts s tenant serviceID !! protocol = Some ports ∧ port ∈ ports) ↔
  serviceHas s tenant serviceID protocol port.
Proof.
  intros Hne. rewrite ServiceTransportPorts_spec by done. unfold serviceHas.
  destruct (findService _ _ _) as [svc|]; [|naive_solver].
  destruct (normalizeServiceTransports svc) as [valid|] eqn:Hn.
  2: { split; [by intros (? & ? & ?)|]. intros (? & ? & [= <-] & ? & _). congruence. }
  pose proof (elem_of_ports (sv_Ports valid) protocol port) as Hp.
  destruct (List.map _ _) as [|q qs].
  - split; [naive_solver|]. intros (svc' & valid' & [= <-] & Hn' & Hin). assert (valid' = valid) as -> by congruence.
    apply Hp, elem_of_nil in Hin. done.
  - split.
    + intros (ports & [= <-] & Hin%Hp). eauto.
    + intros (svc' & valid' & [= <-] & Hn' & Hin). assert (valid' = valid) as -> by congruence. eexists. split; [done|]. by apply Hp.
Qed.

(** A service never resolves in part: it resolves for the compilers
    exactly when its stored row passes the transport validation, and then to exactly the
    protocol and port pairs of that row, all of them TCP or UDP with a port of the valid
    range; a missing or invalid service resolves to nothing and grants no
    transport-specific exception. *)
Theorem catalogue_services s tenant serviceID protocol port :
  serviceID ≠ "" →
  (EgressServiceUnresolved tenant serviceID (Some (ServiceTransportPorts s)) = false ↔
   ∃ svc valid, findService s tenant serviceID = Some svc ∧
     normalizeServiceTransports svc = Ok valid) ∧
  ((∃ ports, ServiceTransportPorts s tenant serviceID !! protocol = Some ports ∧ port ∈ ports) ↔
   serviceHas s tenant serviceID protocol port) ∧
  (serviceHas s tenant serviceID protocol port →
   protocol ∈ ["tcp"; "udp"] ∧ 1 ≤ port ≤ 65535) ∧
  (ServiceIncludesTransport s tenant serviceID protocol port = true ↔
   is_blank serviceID = false ∧ serviceHas s tenant serviceID protocol port).
Proof.
  intros Hne.
  assert (∀ protocol port, serviceHas s tenant serviceID protocol port →
    protocol ∈ ["tcp"; "udp"] ∧ 1 ≤ port ≤ 65535) as Hvalid.
  { intros p q (svc & valid & _ & Hn & Hin). apply normalizeServiceTransports_ok in Hn as [_ Hall].
    rewrite Forall_forall in Hall. apply (Hall _ Hin). }
  split_and!; [| by apply serviceHas_spec| by apply Hvalid|].
  - unfold EgressServiceUnresolved, egressServiceConditions.
    destruct (is_empty serviceID) eqn:E; [by apply is_empty_true in E|]. cbv zeta.
    set (ts := ServiceTransportPorts s tenant serviceID).
    assert (ts ≠ ∅ ↔ ∃ svc valid, findService s tenant serviceID = Some svc ∧
      normalizeServiceTransports svc = Ok valid) as Hts.
    { unfold ts, ServiceTransportPorts. rewrite E.
      destruct (findService _ _ _) as [svc|]; [|naive_solver].
      destruct (normalizeServiceTransports svc) as [valid|] eqn:Hn.
      2: { split; [done|]. intros (? & ? & [= <-] & ?). congruence. }
      split; [by eauto|]. intros _ Hemp. apply normalizeServiceTransports_ok in Hn as [Hnil _].
      destruct (sv_Ports valid) as [|p ps] eqn:Hps; [done|].
      assert (foldl addTransport ∅ (p :: ps) !! pp_Protocol p = None) as Hl
        by (by rewrite Hemp, lookup_empty).
      rewrite addTransport_lookup in Hl. cbn [List.filter] in Hl.
      by rewrite String.eqb_refl in Hl. }
    rewrite <- Hts. case_bool_decide as Hemp; [naive_solver|].
    replace (forallb validTransport (map_to_list ts)) with true; [naive_solver|].
    symmetry. apply forallb_forall. intros [p ports] Hin%list_elem_of_In%elem_of_map_to_list.
    assert (∀ q, q ∈ ports → p ∈ ["tcp"; "udp"] ∧ 1 ≤ q ≤ 65535) as Hq.
    { intros q Hq. apply Hvalid, serviceHas_spec; [done|]. by exists ports. }
    unfold ts in Hin. rewrite ServiceTransportPorts_spec in Hin by done.
    assert (∃ q qs, ports = q :: qs) as (q & qs & ->).
    { repeat (case_match; try done). simplify_eq. eauto. }
    unfold validTransport. cbn [fst snd].
    rewrite !andb_true_iff, containsString_spec. split_and!; [apply (Hq q); left|done|].
    apply forallb_forall. intros r Hr%list_elem_of_In%Hq. apply andb_true_iff. rewrite !Z.leb_le. lia.
  - unfold ServiceIncludesTransport. rewrite andb_true_iff, negb_true_iff, existsb_exists.
    rewrite <- serviceHas_spec by done. setoid_rewrite Z.eqb_eq.
    setoid_rewrite <- list_elem_of_In.
    destruct (ServiceTransportPorts _ _ _ !! protocol) as [ports|]; cbn; [naive_solver|].
    split; [|naive_solver]. intros [_ (? & ?%elem_of_nil & _)]. done.
Qed.

(** ** The namespace of aliases *)

Lemma aliasFree_spec used owner a :
  aliasFree used owner a = true ↔ ∀ o, used !! a = Some o → o = owner.
Proof.
  unfold aliasFree. destruct (used !! a) as [o|]; [rewrite String.eqb_eq|]; naive_solver.
Qed.

Definition candidate (desired : string) (n : Z) : string := desired +:+ "-" +:+ itoa n.

Lemma candidate_inj desired m n : candidate desired m = candidate desired n → m = n.
Proof.
  unfold candidate. intros H. apply itoa_inj_all. induction desired as [|c d IH].
  - by injection H.
  - rewrite !string_app_cons in H. injection H as H. by apply IH.
Qed.

(** The search returns the first free candidate, or a taken one when all of them are. *)
Lemma suffixSearch_spec fuel used owner desired n :
  ∃ k : nat, (k ≤ fuel)%nat ∧
    suffixSearch fuel used owner desired n = candidate desired (n + Z.of_nat k) ∧
    (∀ j : nat, (j < k)%nat → aliasFree used owner (candidate desired (n + Z.of_nat j)) = false) ∧
    (aliasFree used owner (candidate desired (n + Z.of_nat k)) = true ∨ k = fuel).
Proof.
  revert n. induction fuel as [|fuel IH]; intros n; cbn [suffixSearch]; fold (candidate desired n).
  { exists 0%nat. rewrite Z.add_0_r. split_and!; [done|done|lia|by right]. }
  destruct (aliasFree used owner (candidate desired n)) eqn:Hf.
  { exists 0%nat. rewrite Z.add_0_r. split_and!; [lia|done|lia|by left]. }
  destruct (IH (n + 1)) as (k & Hk & -> & Hall & Hlast). exists (S k).
  replace (n + Z.of_nat (S k)) with (n + 1 + Z.of_nat k) by lia. split_and!; [lia|done| |].
  - intros [|j] Hj; [by rewrite Z.add_0_r|].
    replace (n + Z.of_nat (S j)) with (n + 1 + Z.of_nat j) by lia. apply Hall. lia.
  - destruct Hlast as [?| ->]; auto.
Qed.

(** One candidate more than there are aliases: one is free. *)
Lemma suffixSearch_free used owner desired n :
  ∃ k : nat, suffixSearch (size used) used owner desired n = candidate desired (n + Z.of_nat k) ∧
    aliasFree used owner (candidate desired (n + Z.of_nat k)) = true ∧
    ∀ j : nat, (j < k)%nat → aliasFree used owner (candidate desired (n + Z.of_nat j)) = false.
Proof.
  destruct (suffixSearch_spec (size used) used owner desired n) as (k & Hk & He & Hall & Hlast).
  exists k. split_and!; [done| |done]. destruct Hlast as [?| ->]; [done|].
  destruct (aliasFree used owner (candidate desired (n + Z.of_nat (size used)))) eqn:Hf; [done|].
  exfalso.
  set (cands := (fun i => candidate desired (n + Z.of_nat i)) <$> List.seq 0 (S (size used))).
  assert (length cands ≤ size (dom used))%nat as Hle.
  { apply no_dup_in_set.
    - unfold cands. apply NoDup_fmap_2_strong; [|apply NoDup_ListNoDup, List.seq_NoDup].
      intros i j _ _ Hij%candidate_inj. lia.
    - intros c (i & -> & Hi)%list_elem_of_fmap. apply list_elem_of_In, List.in_seq in Hi.
      assert (aliasFree used owner (candidate desired (n + Z.of_nat i)) = false) as Hi'.
      { destruct (decide (i < size used)%nat); [by apply Hall|].
        by replace i with (size used) by lia. }
      unfold aliasFree in Hi'. apply elem_of_dom.
      destruct (used !! candidate desired (n + Z.of_nat i)); [by eexists|done]. }
  unfold cands in Hle. rewrite length_fmap, List.length_seq, size_dom in Hle. lia.
Qed.

Lemma uniqueAlias_free s tenant desired owner :
  aliasFree (rowsOf (st_aliases s) tenant) owner (uniqueAliasLocked s tenant desired owner) = true.
Proof.
  unfold uniqueAliasLocked. case_match eqn:Hf; [done|].
  destruct (suffixSearch_free (rowsOf (st_aliases s) tenant) owner
    (valueOrDefault (normalizeAlias desired) owner) 2) as (k & -> & ? & _). done.
Qed.

Lemma uniqueAlias_trimmed s tenant desired owner :
  trim_space owner = owner → owner ≠ "" →
  let a := uniqueAliasLocked s tenant desired owner in trim_space a = a ∧ a ≠ "".
Proof.
  intros Ho Hne. cbn zeta. unfold uniqueAliasLocked.
  set (wanted := valueOrDefault (normalizeAlias desired) owner).
  assert (trim_space wanted = wanted ∧ wanted ≠ "") as [Hw Hwne].
  { unfold wanted, valueOrDefault, normalizeAlias. destruct (is_empty (trim_space desired)) eqn:E; [done|].
    split; [apply trim_space_idemp|]. intros Hn. by rewrite Hn in E. }
  destruct (aliasFree _ _ wanted); [done|].
  destruct (suffixSearch_free (rowsOf (st_aliases s) tenant) owner wanted 2) as (k & -> & _).
  unfold candidate. change ("-" +:+ ?x) with (String "-" x). split.
  - apply trim_numbered; [done..|lia].
  - by destruct wanted.
Qed.

(** The search for an alias ends: the wanted alias is kept, trimmed,
    when no other entry of the tenant holds it; otherwise the answer is the first of
    [alias-2], [alias-3], ... that none holds, found within one turn more than the tenant
    has aliases. *)
Theorem alias_search_ends s tenant desired owner :
  let used := rowsOf (st_aliases s) tenant in
  let wanted := valueOrDefault (normalizeAlias desired) owner in
  let a := uniqueAliasLocked s tenant desired owner in
  aliasFree used owner a = true ∧
  (a = wanted ∨
   aliasFree used owner wanted = false ∧
   ∃ k : nat, a = candidate wanted (2 + Z.of_nat k) ∧
     ∀ j : nat, (j < k)%nat → aliasFree used owner (candidate wanted (2 + Z.of_nat j)) = false).
Proof.
  cbn zeta. split; [apply uniqueAlias_free|]. unfold uniqueAliasLocked.
  destruct (aliasFree _ _ (valueOrDefault _ _)) eqn:Hf; [by left|]. right. split; [done|].
  destruct (suffixSearch_free (rowsOf (st_aliases s) tenant) owner
    (valueOrDefault (normalizeAlias desired) owner) 2) as (k & -> & _ & ?). by exists k.
Qed.

(** *** Claiming and releasing *)

Lemma rowsOf_deleteRow {A} tenant id (m : nested A) t i :
  rowsOf (deleteRow tenant id m) t !! i =
  if decide (t = tenant ∧ i = id) then None else rowsOf m t !! i.
Proof.
  unfold deleteRow. rewrite rowsOf_alter by apply delete_empty. destruct (decide (t = tenant)) as [->|Ht].
  - destruct (decide (i = id)) as [->|Hi].
    + by rewrite lookup_delete_eq, decide_True.
    + rewrite lookup_delete_ne by done. by rewrite decide_False by naive_solver.
  - by rewrite decide_False by naive_solver.
Qed.

Lemma releaseOwner_lookup owner aliases a o :
  releaseOwner owner aliases !! a = Some o ↔ aliases !! a = Some o ∧ o ≠ owner.
Proof. unfold releaseOwner. by rewrite map_lookup_filter_Some. Qed.

Lemma released_aliases s tenant owner t a o :
  rowsOf (st_aliases (releaseAliasLocked s tenant owner)) t !! a = Some o ↔
  rowsOf (st_aliases s) t !! a = Some o ∧ (t = tenant → o ≠ owner).
Proof.
  unfold releaseAliasLocked. cbn. rewrite rowsOf_alter by apply map_filter_empty.
  case_decide as Ht; [rewrite releaseOwner_lookup|]; naive_solver.
Qed.

Lemma claimed_aliases s tenant desired owner t a o :
  let '(s', alias) := claimAliasLocked s tenant desired owner in
  rowsOf (st_aliases s') t !! a = Some o ↔
  if decide (t = tenant ∧ o = owner) then a = alias
  else rowsOf (st_aliases s) t !! a = Some o.
Proof.
  unfold claimAliasLocked. set (s1 := releaseAliasLocked s tenant owner).
  set (alias := uniqueAliasLocked s1 tenant desired owner). cbn [st_aliases].
  assert (aliasFree (rowsOf (st_aliases s1) tenant) owner alias = true) as Hfree
    by apply uniqueAlias_free.
  unfold s1 in Hfree. rewrite aliasFree_spec in Hfree. setoid_rewrite released_aliases in Hfree.
  change (rowsOf (putRow tenant alias owner (st_aliases s1)) t !! a = Some o ↔
    if decide (t = tenant ∧ o = owner) then a = alias
    else rowsOf (st_aliases s) t !! a = Some o).
  rewrite rowsOf_put.
  destruct (decide (t = tenant ∧ a = alias)) as [[-> ->]|Hne].
  - destruct (decide (tenant = tenant ∧ o = owner)) as [[_ ->]|Ho]; naive_solver.
  - unfold s1. rewrite released_aliases.
    destruct (decide (t = tenant ∧ o = owner)) as [[-> ->]|Ho]; naive_solver.
Qed.

(** *** What an edit does to the entries and to the namespace *)

Inductive kind := KEndpoint | KGroup | KService.
#[export] Instance kind_eq_dec : EqDecision kind.
Proof. solve_decision. Defined.

(** The alias of an entry. *)
Definition aliasIn (s : Store) (tenant : string) (k : kind) (id : string) : option string :=
  match k with
  | KEndpoint => ep_Alias <$> rowsOf (st_endpoints s) tenant !! id
  | KGroup => gr_Alias <$> rowsOf (st_groups s) tenant !! id
  | KService => sv_Alias <$> rowsOf (st_services s) tenant !! id
  end.

(** [s'] is [s] with an entry put, or removed, and its alias with it. *)
Record puts (s s' : Store) (tenant : string) (k : kind) (id alias : string) : Prop := {
  puts_entry t k' i :
    aliasIn s' t k' i = if decide (t = tenant ∧ k' = k ∧ i = id) then Some alias
                        else aliasIn s t k' i;
  puts_alias t a o :
    rowsOf (st_aliases s') t !! a = Some o ↔
    if decide (t = tenant ∧ o = id) then a = alias else rowsOf (st_aliases s) t !! a = Some o;
}.

Record removes (s s' : Store) (tenant : string) (k : kind) (id : string) : Prop := {
  removes_entry t k' i :
    aliasIn s' t k' i = if decide (t = tenant ∧ k' = k ∧ i = id) then None
                        else aliasIn s t k' i;
  removes_alias t a o :
    rowsOf (st_aliases s') t !! a = Some o ↔
    rowsOf (st_aliases s) t !! a = Some o ∧ (t = tenant → o ≠ id);
}.

(** Identifiers are drawn and generations counted without touching entries. *)
Lemma assignID_same s prefix id s' id' :
  assignID s prefix id = (s', id') →
  st_endpoints s' = st_endpoints s ∧ st_groups s' = st_groups s ∧
  st_services s' = st_services s ∧ st_aliases s' = st_aliases s.
Proof. unfold assignID, nextIDLocked. case_match; by intros [= <- _]. Qed.

Lemma claimAlias_same s tenant desired owner s' alias :
  claimAliasLocked s tenant desired owner = (s', alias) →
  st_endpoints s' = st_endpoints s ∧ st_groups s' = st_groups s ∧ st_services s' = st_services s.
Proof. by intros [= <- _]. Qed.

Lemma claimed_by s tenant desired owner s' alias t a o :
  claimAliasLocked s tenant desired owner = (s', alias) →
  rowsOf (st_aliases s') t !! a = Some o ↔
  if decide (t = tenant ∧ o = owner) then a = alias else rowsOf (st_aliases s) t !! a = Some o.
Proof. intros H. pose proof (claimed_aliases s tenant desired owner t a o) as Hc. by rewrite H in Hc. Qed.

(** An alias table by claim and one table of entries by insertion. *)
Ltac solve_puts :=
  lazymatch goal with
  | Ha : assignID _ _ _ = _, Hc : claimAliasLocked _ _ _ _ = _ |- puts _ _ _ _ _ _ =>
      apply assignID_same in Ha as (He & Hg & Hs & Hal);
      pose proof (claimAlias_same _ _ _ _ _ _ Hc) as (He' & Hg' & Hs');
      split;
      [ intros t [] i; cbn; rewrite ?He', ?Hg', ?Hs', ?He, ?Hg, ?Hs, ?rowsOf_put;
        repeat case_decide; naive_solver
      | intros t a o; cbn; rewrite (claimed_by _ _ _ _ _ _ _ _ _ Hc), ?Hal; done ]
  end.

Lemma upsertEndpointLocked_puts s e s' e' :
  upsertEndpointLocked s e = (s', e') →
  ep_TenantID e' = ep_TenantID e ∧ puts s s' (ep_TenantID e') KEndpoint (ep_ID e') (ep_Alias e').
Proof.
  unfold upsertEndpointLocked. destruct (assignID s "ep" (ep_ID e)) as [s1 id] eqn:Ha.
  cbn [ep_TenantID ep_Alias ep_ID].
  destruct (claimAliasLocked s1 _ _ _) as [s2 alias] eqn:Hc. cbn in Hc.
  intros [= Hs <-]. split; [done|]. cbn. rewrite <- Hs. clear Hs.
  case_match; solve_puts.
Qed.

Lemma upsertEndpoint_puts s e s' e' :
  upsertEndpoint s e = Ok (s', e') →
  puts s s' (ep_TenantID e') KEndpoint (ep_ID e') (ep_Alias e').
Proof.
  unfold upsertEndpoint. repeat (case_match; [done|]). intros [= Hup].
  by apply upsertEndpointLocked_puts in Hup as [_ ?].
Qed.

Lemma upsertGroup_puts s g s' g' :
  upsertGroup s g = Ok (s', g') → puts s s' (gr_TenantID g') KGroup (gr_ID g') (gr_Alias g').
Proof.
  unfold upsertGroup. case_match; [done|].
  destruct (assignID s "grp" _) as [s1 id] eqn:Ha.
  destruct (claimAliasLocked s1 _ _ _) as [s2 alias] eqn:Hc. cbn in Hc.
  intros [= <- <-]. cbn. solve_puts.
Qed.

Lemma upsertService_puts s svc s' svc' :
  upsertService s svc = Ok (s', svc') →
  puts s s' (sv_TenantID svc') KService (sv_ID svc') (sv_Alias svc').
Proof.
  unfold upsertService. case_match; [done|]. rewrite result_bind_ok. intros (svc1 & _ & Hup).
  revert Hup. destruct (assignID s "svc" _) as [s1 id] eqn:Ha.
  destruct (claimAliasLocked s1 _ _ _) as [s2 alias] eqn:Hc. cbn in Hc.
  intros [= <- <-]. cbn. solve_puts.
Qed.

Ltac solve_removes :=
  split;
  [ intros t [] i; cbn; rewrite ?rowsOf_deleteRow; repeat case_decide; naive_solver
  | intros t a o; exact (released_aliases _ _ _ t a o) ].

Lemma deleteEndpoint_removes s tenant id s' :
  deleteEndpoint s tenant id = (s', true) → removes s s' tenant KEndpoint id.
Proof. unfold deleteEndpoint. repeat (case_bool_decide; try done). intros [= <-]. solve_removes. Qed.

Lemma deleteGroup_removes s tenant id s' :
  deleteGroup s tenant id = (s', true) → removes s s' tenant KGroup id.
Proof. unfold deleteGroup. repeat (case_bool_decide; try done). intros [= <-]. solve_removes. Qed.

Lemma deleteService_removes s tenant id s' :
  deleteService s tenant id = (s', true) → removes s s' tenant KService id.
Proof. unfold deleteService. repeat (case_bool_decide; try done). intros [= <-]. solve_removes. Qed.

(** *** The namespace stays consistent *)

(** No entry of another kind has the identifier. *)
Definition ownKind (s : Store) (tenant : string) (k : kind) (id : string) : Prop :=
  ∀ k', k' ≠ k → aliasIn s tenant k' id = None.

(** The namespace lists exactly the aliases of the entries, and no two kinds share an
    identifier. *)
Record consistent (s : Store) : Prop := {
  cons_alias t a id :
    rowsOf (st_aliases s) t !! a = Some id ↔ ∃ k, aliasIn s t k id = Some a;
  cons_kind t k k' id a b :
    aliasIn s t k id = Some a → aliasIn s t k' id = Some b → k = k';
}.

Lemma consistent_new : consistent NewStore.
Proof.
  assert (∀ t k id, aliasIn NewStore t k id = None) as Hnone.
  { intros t [] id; cbn; by rewrite rowsOf_empty, lookup_empty. }
  split; intros *; rewrite ?Hnone; [|done]. cbn. rewrite rowsOf_empty, lookup_empty.
  split; [done|]. intros [k Hk]. by rewrite Hnone in Hk.
Qed.

Lemma puts_consistent s s' tenant k id alias :
  puts s s' tenant k id alias → ownKind s tenant k id → consistent s → consistent s'.
Proof.
  intros Hp Hown Hc. split.
  - intros t a o. rewrite (puts_alias _ _ _ _ _ _ Hp). setoid_rewrite (puts_entry _ _ _ _ _ _ Hp).
    destruct (decide (t = tenant ∧ o = id)) as [[-> ->]|Hne].
    + split; [intros ->; exists k; by rewrite decide_True|].
      intros [k' Hk']. case_decide as Hd; [by injection Hk'|].
      rewrite Hown in Hk'; [done|]. intros ->. by apply Hd.
    + rewrite (cons_alias s Hc). apply exist_proper. intros k'.
      by rewrite decide_False by naive_solver.
  - intros t k1 k2 i a b. rewrite !(puts_entry _ _ _ _ _ _ Hp).
    repeat case_decide; destruct_and?; subst; try done.
    + rewrite Hown by naive_solver. done.
    + rewrite (Hown k1) by naive_solver. done.
    + apply (cons_kind s Hc).
Qed.

Lemma removes_consistent s s' tenant k id :
  removes s s' tenant k id → is_Some (aliasIn s tenant k id) → consistent s → consistent s'.
Proof.
  intros Hp [a0 Ha0] Hc. split.
  - intros t a o. rewrite (removes_alias _ _ _ _ _ Hp). setoid_rewrite (removes_entry _ _ _ _ _ Hp).
    rewrite (cons_alias s Hc). split.
    + intros [[k' Hk'] Hne]. exists k'. rewrite decide_False; [done|]. naive_solver.
    + intros [k' Hk']. case_decide as Hd; [done|]. split; [by exists k'|]. intros -> ->.
      apply Hd. split_and!; [done| |done]. by eapply (cons_kind s Hc).
  - intros t k1 k2 i a b. rewrite !(removes_entry _ _ _ _ _ Hp).
    repeat case_decide; try done. apply (cons_kind s Hc).
Qed.

(** An edit of one entry by any of the operations, under an identifier no other kind has. *)
Inductive edit : Store → Store → Prop :=
  | edit_endpoint s e s' e' :
      upsertEndpoint s e = Ok (s', e') → ownKind s (ep_TenantID e') KEndpoint (ep_ID e') →
      edit s s'
  | edit_group s g s' g' :
      upsertGroup s g = Ok (s', g') → ownKind s (gr_TenantID g') KGroup (gr_ID g') → edit s s'
  | edit_service s svc s' svc' :
      upsertService s svc = Ok (s', svc') →
      ownKind s (sv_TenantID svc') KService (sv_ID svc') → edit s s'
  | edit_enrolled s e s' e' :
      syncEnrolledEndpoint s e = (s', e') → ownKind s (ep_TenantID e') KEndpoint (ep_ID e') →
      edit s s'
  | edit_delete_endpoint s tenant id s' ok : deleteEndpoint s tenant id = (s', ok) → edit s s'
  | edit_delete_group s tenant id s' ok : deleteGroup s tenant id = (s', ok) → edit s s'
  | edit_delete_service s tenant id s' ok : deleteService s tenant id = (s', ok) → edit s s'
  | edit_builtins s services endpoints groups :
      edit s (SetBuiltInCatalog (SetBuiltInServices s services) endpoints groups).

Lemma deleted_or_same s s' tenant k id ok :
  (ok = true → removes s s' tenant k id ∧ is_Some (aliasIn s tenant k id)) →
  (ok = false → s' = s) → consistent s → consistent s'.
Proof.
  intros Ht Hf Hc. destruct ok; [|by rewrite Hf].
  destruct (Ht eq_refl) as [Hr Ha]. by eapply removes_consistent.
Qed.

Lemma edit_consistent s s' : edit s s' → consistent s → consistent s'.
Proof.
  destruct 1 as [s e s' e' H Ho|s g s' g' H Ho|s v s' v' H Ho|s e s' e' H Ho
    |s t i s' ok H|s t i s' ok H|s t i s' ok H|s v e g].
  - eapply puts_consistent; [by eapply upsertEndpoint_puts|done].
  - eapply puts_consistent; [by eapply upsertGroup_puts|done].
  - eapply puts_consistent; [by eapply upsertService_puts|done].
  - unfold syncEnrolledEndpoint in H. apply upsertEndpointLocked_puts in H as [_ Hp].
    by eapply puts_consistent.
  - apply (deleted_or_same s s' t KEndpoint i ok); [intros ->|intros ->]; cbn.
    + split; [by apply deleteEndpoint_removes|]. revert H. unfold deleteEndpoint.
      repeat (case_bool_decide; try done). intros _. by apply fmap_is_Some.
    + revert H. unfold deleteEndpoint. repeat case_bool_decide; by intros [=].
  - apply (deleted_or_same s s' t KGroup i ok); [intros ->|intros ->]; cbn.
    + split; [by apply deleteGroup_removes|]. revert H. unfold deleteGroup.
      repeat (case_bool_decide; try done). intros _. by apply fmap_is_Some.
    + revert H. unfold deleteGroup. repeat case_bool_decide; by intros [=].
  - apply (deleted_or_same s s' t KService i ok); [intros ->|intros ->]; cbn.
    + split; [by apply deleteService_removes|]. revert H. unfold deleteService.
      repeat (case_bool_decide; try done). intros _. by apply fmap_is_Some.
    + revert H. unfold deleteService. repeat case_bool_decide; by intros [=].
  - intros [Ha Hk]. by split.
Qed.

(** The namespace is shared by the three kinds: over every history
    of edits, inventory syncs and deletions, with identifiers no two kinds share, the
    namespace of a tenant lists exactly the aliases in use, so an alias names one entry. *)
Theorem aliases_stay_unique s :
  rtc edit NewStore s →
  (∀ tenant k id a, aliasIn s tenant k id = Some a → rowsOf (st_aliases s) tenant !! a = Some id) ∧
  (∀ tenant a id, rowsOf (st_aliases s) tenant !! a = Some id → ∃ k, aliasIn s tenant k id = Some a) ∧
  (∀ tenant k1 id1 k2 id2 a, aliasIn s tenant k1 id1 = Some a → aliasIn s tenant k2 id2 = Some a →
     k1 = k2 ∧ id1 = id2).
Proof.
  intros Hrun. assert (consistent s) as Hc.
  { assert (∀ s0, rtc edit s0 s → consistent s0 → consistent s) as H.
    { induction 1 as [|s0 s1 s2 Hs _ IH]; [done|]. intros Hc. by eapply IH, edit_consistent. }
    by eapply H, consistent_new. }
  split_and!.
  - intros t k id a Ha. apply (cons_alias s Hc). by exists k.
  - intros t a id. apply (cons_alias s Hc).
  - intros t k1 id1 k2 id2 a H1 H2.
    assert (rowsOf (st_aliases s) t !! a = Some id1) by (apply (cons_alias s Hc); by exists k1).
    assert (rowsOf (st_aliases s) t !! a = Some id2) by (apply (cons_alias s Hc); by exists k2).
    simplify_eq. split; [|done]. by eapply (cons_kind s Hc).
Qed.

(** ** The inventory *)

(** An operator's name is taken, and its owner wins the claim. *)
Definition named_by_operator (s : Store) (tenant id a : string) : Prop :=
  rowsOf (st_enrolledAliases s) tenant !! id = Some a ∧
  rowsOf (st_aliases s) tenant !! a = Some id ∧ trim_space a = a ∧ a ≠ "".

Lemma uniqueAlias_own s tenant desired owner :
  trim_space desired = desired → desired ≠ "" →
  aliasFree (rowsOf (st_aliases s) tenant) owner desired = true →
  uniqueAliasLocked s tenant desired owner = desired.
Proof.
  intros Ht Hne Hf. unfold uniqueAliasLocked, normalizeAlias, valueOrDefault. rewrite Ht.
  destruct (is_empty desired) eqn:E; [by apply is_empty_true in E|]. by rewrite Hf.
Qed.

Lemma claim_own s tenant desired owner :
  trim_space desired = desired → desired ≠ "" →
  rowsOf (st_aliases s) tenant !! desired = Some owner →
  (claimAliasLocked s tenant desired owner).2 = desired.
Proof.
  intros Ht Hne Ha. cbn. apply uniqueAlias_own; [done..|]. apply aliasFree_spec.
  intros o Ho. apply released_aliases in Ho as [Ho _]. congruence.
Qed.

(** Everything of the catalogue an inventory sync leaves alone. *)
Definition same_rest (s s' : Store) : Prop :=
  st_groups s' = st_groups s ∧ st_services s' = st_services s ∧
  st_enrolledAliases s' = st_enrolledAliases s ∧ st_generation s' = st_generation s ∧
  st_builtInEndpoints s' = st_builtInEndpoints s ∧ st_builtInGroups s' = st_builtInGroups s ∧
  st_builtInServices s' = st_builtInServices s.

Section inventory.
Context (sha256_hex : string → string).
#[local] Notation endpointID d := (enrolledEndpointID sha256_hex (trim_space (ed_Identity d))).
#[local] Notation derived t d := (enrolledEndpoint sha256_hex t d).

Lemma enrolledID_nonblank identity : is_blank (enrolledEndpointID sha256_hex identity) = false.
Proof.
  unfold enrolledEndpointID. change ("enrolled-" +:+ ?x) with (String "e" ("nrolled-" +:+ x)).
  by apply nonblank_head.
Qed.

(** One device: its row, with the name the operator chose if there is one. *)
Lemma sync_one s t d :
  let '(s', e') := syncEnrolledEndpoint s (derived t d) in
  e' = (derived t d) <| ep_Alias := ep_Alias e' |> ∧
  st_endpoints s' = putRow t (endpointID d) e' (st_endpoints s) ∧ same_rest s s' ∧
  puts s s' t KEndpoint (endpointID d) (ep_Alias e') ∧
  ∀ a, named_by_operator s t (endpointID d) a → ep_Alias e' = a.
Proof.
  destruct (syncEnrolledEndpoint s (derived t d)) as [s' e'] eqn:H.
  unfold syncEnrolledEndpoint in H.
  change (ep_TenantID (derived t d)) with t in H. change (ep_ID (derived t d)) with (endpointID d) in H.
  set (e0 := match rowsOf (st_endpoints s) t !! endpointID d with
             | Some current => (derived t d) <| ep_Alias := ep_Alias current |>
             | None => derived t d
             end) in H.
  assert (∃ a, e0 = (derived t d) <| ep_Alias := a |>) as [a0 He0].
  { unfold e0. clear. destruct (rowsOf (st_endpoints s) t !! _); eexists; reflexivity. }
  rewrite He0 in H. change (ep_TenantID ((derived t d) <| ep_Alias := a0 |>)) with t in H.
  change (ep_ID ((derived t d) <| ep_Alias := a0 |>)) with (endpointID d) in H.
  set (e1 := match rowsOf (st_enrolledAliases s) t !! endpointID d with
             | Some alias => _ | None => _ end) in H.
  assert (∃ a, e1 = (derived t d) <| ep_Alias := a |> ∧
    ∀ b, rowsOf (st_enrolledAliases s) t !! endpointID d = Some b → a = b) as (a1 & He1 & Ha1).
  { unfold e1. clear. destruct (rowsOf (st_enrolledAliases s) t !! _) as [b|].
    - exists b. split; [done|]. by intros ? [= <-].
    - exists a0. done. }
  rewrite He1 in H. clear e0 e1 He0 He1.
  pose proof (upsertEndpointLocked_puts _ _ _ _ H) as [_ Hp]. revert H Hp.
  unfold upsertEndpointLocked, assignID.
  change (ep_ID ((derived t d) <| ep_Alias := a1 |>)) with (endpointID d).
  rewrite enrolledID_nonblank. cbn. intros [= <- <-]. cbn. intros Hp.
  split_and!; [done|done|by split_and!|done|].
  intros a (Hop & Hal & Htr & Hne). rewrite (Ha1 a Hop). by apply (claim_own s t a).
Qed.

(** [s] is [s0] with the devices [ds] of tenant [t] synced. *)
Record inventory_view (s0 : Store) (t : string) (ds : list EnrolledDevice) (s : Store) : Prop := {
  iv_rest : same_rest s0 s;
  iv_rows t' id :
    (∃ d a, d ∈ ds ∧ is_blank (ed_Identity d) = false ∧ t' = t ∧ id = endpointID d ∧
       rowsOf (st_endpoints s) t' !! id = Some ((derived t d) <| ep_Alias := a |>)) ∨
    ((∀ d, d ∈ ds → is_blank (ed_Identity d) = false → t' = t → id ≠ endpointID d) ∧
       rowsOf (st_endpoints s) t' !! id = rowsOf (st_endpoints s0) t' !! id);
  iv_names id a :
    named_by_operator s0 t id a →
    named_by_operator s t id a ∧
    ∀ d, d ∈ ds → is_blank (ed_Identity d) = false → id = endpointID d →
      ep_Alias <$> rowsOf (st_endpoints s) t !! id = Some a;
}.

Lemma inventory_view_nil s t : inventory_view s t [] s.
Proof.
  split; [by split_and!| |].
  - intros t' id. right. split; [|done]. by intros d ?%elem_of_nil.
  - intros id a Hn. split; [done|]. by intros d ?%elem_of_nil.
Qed.

Lemma inventory_view_snoc s0 t ds d s out :
  inventory_view s0 t ds s → inventory_view s0 t (ds ++ [d]) (syncDevice sha256_hex t (s, out) d).1.
Proof.
  intros [Hrest Hrows Hnames]. unfold syncDevice. destruct (is_blank (ed_Identity d)) eqn:Hb.
  { assert (∀ d', d' ∈ ds ++ [d] → is_blank (ed_Identity d') = false → d' ∈ ds) as Hin.
    { intros d' [?| ->%list_elem_of_singleton]%elem_of_app Hb'; [done|]. congruence. }
    split; [done| |].
    - intros t' id. destruct (Hrows t' id) as [(d' & a & Hd & ?)|[Hno ?]].
      + left. exists d', a. split; [|done]. apply elem_of_app. by left.
      + right. split; [|done]. intros d' Hd' Hb'. apply Hno; [by apply Hin|done].
    - intros id a Hn. destruct (Hnames id a Hn) as [? Hall]. split; [done|].
      intros d' Hd' Hb'. apply Hall; [by apply Hin|done]. }
  pose proof (sync_one s t d) as Hone. cbn [fst].
  destruct (syncEnrolledEndpoint s (derived t d)) as [s' e'].
  destruct Hone as (He' & Heps & Hrest' & Hp & Hop). cbn [fst]. split.
  - destruct Hrest as (? & ? & ? & ? & ? & ? & ?), Hrest' as (? & ? & ? & ? & ? & ? & ?).
    split_and!; congruence.
  - intros t' id. rewrite Heps, rowsOf_put. case_decide as Hk.
    + destruct Hk as [-> ->]. left. exists d, (ep_Alias e'). rewrite <- He'.
      split_and!; [set_solver|done..].
    + destruct (Hrows t' id) as [(d' & a & Hd & ?)|[Hno ?]].
      * left. exists d', a. split; [set_solver|done].
      * right. split; [|done]. intros d' [?| ->%list_elem_of_singleton]%elem_of_app Hb' Ht Hid;
          [by eapply Hno|]. by apply Hk.
  - intros id a Hn. destruct (Hnames id a Hn) as [(Hoa & Hal & Htr & Hne) Hall].
    assert (named_by_operator s' t id a) as Hn'.
    { destruct Hrest' as (_ & _ & Hea & _). split_and!; [by rewrite Hea| |done..].
      apply (puts_alias _ _ _ _ _ _ Hp). case_decide as Hk; [|done]. destruct Hk as [_ ->].
      symmetry. by apply Hop. }
    split; [done|]. intros d' Hd' Hb' Hid. rewrite Heps, rowsOf_put. case_decide as Hk.
    + destruct Hk as [_ ->]. cbn. f_equal. by apply Hop.
    + apply elem_of_app in Hd' as [Hd'| ->%list_elem_of_singleton]; [by eapply Hall|].
      by destruct Hk.
Qed.

Lemma inventory_synced s tenant devices :
  is_blank tenant = false →
  inventory_view s (trim_space tenant) devices
    (SyncEnrolledEndpoints sha256_hex s tenant devices).1.
Proof.
  intros Hb. unfold SyncEnrolledEndpoints. rewrite Hb. generalize (trim_space tenant). intros t.
  induction devices as [|d ds IH] using rev_ind; [apply inventory_view_nil|].
  rewrite foldl_app. cbn [foldl]. destruct (foldl _ _ ds) as [s1 out]. by apply inventory_view_snoc.
Qed.
End inventory.

(** Syncing the enrolled inventory puts exactly the devices of the
    inventory, under identifiers derived from their identities, with the identity and
    platform of the inventory; it touches no other endpoint, no group, service or other
    tenant, and does not move the generation; and a name an operator confirmed for a device
    is still its name afterwards, whatever the inventory calls it. *)
Theorem inventory_sync_sound sha256_hex s tenant devices :
  is_blank tenant = false →
  inventory_view sha256_hex s (trim_space tenant) devices
    (SyncEnrolledEndpoints sha256_hex s tenant devices).1.
Proof. apply inventory_synced. Qed.

(** ** From the catalogue to the decision *)

Definition subjectIn (s : Store) (tenant : string) (req : DecisionRequest) (sel : string) : Prop :=
  match classify sel with
  | IdentityGroup g => g ∈ req_UserGroups req
  | IdentityUser u => u ∈ userIDs req
  | Agent a => a = req_ActorNHIID req
  | Device id => req_DeviceID req ≠ "" ∧
      ∃ e, selects s tenant id e ∧ ep_Identity e = req_DeviceID req
  end.

Lemma subjectCovers_in s tenant req sel :
  subjectCovers tenant s req sel → subjectIn s tenant req sel.
Proof.
  unfold subjectCovers, subjectIn. destruct (classify sel) as [| | |id]; try done.
  change (RuleCompile.SourceDeviceTokens s tenant [id]) with (SourceDeviceTokens s tenant [id]).
  unfold SourceDeviceTokens. rewrite elem_of_resolved. intros [(Hne & id' & e & ->%list_elem_of_singleton & ? & ?) _].
  split; [done|]. by exists e.
Qed.

(** (C27) Catalogue, compiler and evaluator together: with the rules of
    a tenant compiled against its catalogue, a request off the dedicated planes is allowed
    only under an active authored allow rule that is for any source, or one of whose sources is
    the user, group or agent of the request or selects, itself or as a member of a group, an
    endpoint of the catalogue with the identity of its device; that is for any destination, or
    one of whose destinations selects an endpoint whose address is the host or address dialled;
    and that names no service, or one that lists the protocol and port; with no covering deny or
    authenticate rule as urgent. *)
Theorem catalogue_allow_sound e tenant (s : Store) rules req id now :
  let req' := decisionRequestWithSaaSContext (ev_PolicyBundle e) req in
  ev_Policies e = CompileEgressPolicies tenant rules s →
  trim_space (req_TenantID req) = trim_space tenant → unforged req →
  onServerPlane e req' = false → onEastWestPlane e req' = false →
  dec_Decision (Evaluate e req id now) = "allow" →
  ∃ r, r ∈ rules ∧ enforcedEgress tenant r ∧ act_Access (ru_Action r) = AccessAllow ∧
    (IsAnySubject (ru_Source r) = true ∨
     ∃ sel, sel ∈ ru_Source r ∧ subjectIn s tenant req sel) ∧
    (IsAnySubject (ru_Destination r) = true ∨
     ∃ sel ep, sel ∈ ru_Destination r ∧ selects s tenant sel ep ∧
       hostCovers req (ep_Address ep)) ∧
    (ru_ServiceID r = "" ∨
     serviceHas s tenant (ru_ServiceID r) (req_Protocol req) (req_DestinationPort req)) ∧
    ∀ q, q ∈ rules → enforcedEgress tenant q → act_Access (ru_Action q) ≠ AccessAllow →
      ruleCovers tenant s q req → ru_Priority r < ru_Priority q.
Proof.
  intros req' Hpol Ht Hun Hsp Hwp Hallow.
  destruct (Evaluate_authored e tenant s rules req id now Hpol Ht Hun Hsp Hwp Hallow)
    as (r & Hr & Hen & Hacc & (Hsrc & Hdst & Hsvc & _) & _ & Hall).
  exists r. split_and!; [done..| | | |done].
  - destruct Hsrc as [?|(sel & ? & ?)]; [by left|]. right. exists sel. split; [done|].
    by apply subjectCovers_in.
  - destruct Hdst as [?|(sel & addr & Hin & Hres & _ & Hc)]; [by left|]. right.
    change (RuleCompile.EndpointAddresses s tenant [sel]) with (EndpointAddresses s tenant [sel]) in Hres.
    apply elem_of_resolved in Hres as (_ & sel' & ep & ->%list_elem_of_singleton & Hsel & <-).
    by exists sel, ep.
  - unfold serviceCovers in Hsvc. case_match; [done|].
    destruct Hsvc as [?|(resolve & ports & Hres & Hl & Hp)]; [by left|].
    destruct (decide (ru_ServiceID r = "")) as [?|Hne]; [by left|]. right.
    cbn in Hres. injection Hres as <-. apply serviceHas_spec; [done|]. by exists ports.
Qed.

(** ** Concrete runs *)

Definition endpoint (id alias kind identity address : string) : Endpoint :=
  mkEndpoint id "t1" alias kind "" (String.eqb kind KindSteeredDevice) identity address [] SourceManual
    false "".
Definition laptop : Endpoint := endpoint "ep-1" "laptop" KindSteeredDevice "laptop-1" "".
Definition gitServer : Endpoint := endpoint "ep-2" "git" KindNetwork "" "git.example".
Definition https : Service := mkService "https" "t1" "HTTPS" [mkPort " TCP " 443; mkPort "tcp" 8443] false.

(** The store after a successful edit. *)
Definition after {A} (r : result error (Store * A)) : Store :=
  match r with Ok (s, _) => s | Err _ => NewStore end.

Definition exampleCatalog : Store :=
  after (upsertService (after (upsertEndpoint (after (upsertEndpoint NewStore laptop)) gitServer)) https).

Example example_services :
  ServiceTransportPorts exampleCatalog "t1" "https" = {[ "tcp" := [443; 8443] ]}.
Proof. vm_compute. reflexivity. Qed.

Example builtin_services_resolve :
  let s := SetBuiltInServices exampleCatalog BuiltInServices in
  ServiceTransportPorts s "t2" "builtin-svc-kerberos" = {[ "tcp" := [88]; "udp" := [88] ]} ∧
  length (ListServices s "t2") = 31%nat ∧ length (ListServices s "t1") = 31%nat.
Proof. vm_compute. split_and!; reflexivity. Qed.

Lemma catalogue_services_witness :
  "https" ≠ "" ∧ ServiceIncludesTransport exampleCatalog "t1" "https" "tcp" 443 = true ∧
  serviceHas exampleCatalog "t1" "https" "tcp" 443.
Proof.
  assert ("https" ≠ "") as Hne by discriminate.
  assert (ServiceIncludesTransport exampleCatalog "t1" "https" "tcp" 443 = true) as Hi
    by (vm_compute; reflexivity).
  split_and!; [exact Hne|exact Hi|].
  destruct (catalogue_services exampleCatalog "t1" "https" "tcp" 443 Hne) as (_ & _ & _ & H).
  exact (proj2 (proj1 H Hi)).
Defined.

Definition evaluatorOf (policies : list Policy) : Evaluator :=
  mkEvaluator policies zero_PolicyBundle "" "" false
    (EastWest.mkEWConfig false (Locality.mkInternalNetworks [] []) [] 0 []) false [] ∅.

Lemma evaluatorOf_policies policies : ev_Policies (evaluatorOf policies) = policies.
Proof. reflexivity. Defined.

Lemma catalogue_allow_sound_witness :
  ∃ r, r ∈ [exampleDeny; exampleAllow] ∧ act_Access (ru_Action r) = AccessAllow ∧
    (ru_ServiceID r = "" ∨ serviceHas exampleCatalog "t1" (ru_ServiceID r) "tcp" 8443).
Proof.
  destruct (catalogue_allow_sound
    (evaluatorOf (CompileEgressPolicies "t1" [exampleDeny; exampleAllow] exampleCatalog))
    "t1" exampleCatalog [exampleDeny; exampleAllow] exampleRequest "dec_1" 0
    (evaluatorOf_policies _) eq_refl ltac:(split; discriminate)
    ltac:(vm_compute; reflexivity) ltac:(vm_compute; reflexivity) ltac:(vm_compute; reflexivity))
    as (r & Hr & _ & Ha & _ & _ & Hs & _).
  exists r. split_and!; [exact Hr|exact Ha|exact Hs].
Defined.

Definition exampleDevices : list EnrolledDevice := [mkEnrolledDevice "Laptop-9" "Anna" "macos"].
Definition exampleDigest (identity : string) : string := identity +:+ "0123456789abcdef0123456789abcdef".

Lemma inventory_sync_sound_witness :
  is_blank " t1 " = false ∧
  st_generation (SyncEnrolledEndpoints exampleDigest exampleCatalog " t1 " exampleDevices).1 = 3.
Proof.
  assert (is_blank " t1 " = false) as Hb by (vm_compute; reflexivity). split; [exact Hb|].
  destruct (inventory_sync_sound exampleDigest exampleCatalog " t1 " exampleDevices Hb)
    as [(_ & _ & _ & Hg & _) _ _].
  transitivity (st_generation exampleCatalog); [exact Hg|vm_compute; reflexivity].
Defined.

Example inventory_device_resolves :
  let s := (SyncEnrolledEndpoints exampleDigest exampleCatalog " t1 " exampleDevices).1 in
  SourceDeviceTokens s "t1" ["ep-1"; "enrolled-laptop-90123456789ab"] = ["Laptop-9"; "laptop-1"].
Proof. vm_compute. reflexivity. Qed.

Lemma aliases_stay_unique_witness :
  rtc edit NewStore exampleCatalog ∧
  rowsOf (st_aliases exampleCatalog) "t1" !! "git" = Some "ep-2".
Proof.
  assert (∀ s t k id, (∀ k', k' ≠ k → aliasIn s t k' id = None) → ownKind s t k id) as Hown
    by (intros * H; exact H).
  assert (rtc edit NewStore exampleCatalog) as Hrun.
  { eapply rtc_l; [eapply (edit_endpoint NewStore laptop); [vm_compute; reflexivity|]|].
    { apply Hown. intros [] Hk; [done|vm_compute; reflexivity..]. }
    eapply rtc_l; [eapply edit_endpoint with (e := gitServer); [vm_compute; reflexivity|]|].
    { apply Hown. intros [] Hk; [done|vm_compute; reflexivity..]. }
    eapply rtc_l; [eapply edit_service with (svc := https); [vm_compute; reflexivity|]|].
    { apply Hown. intros [] Hk; [vm_compute; reflexivity..|done]. }
    apply rtc_refl. }
  split; [exact Hrun|].
  destruct (aliases_stay_unique exampleCatalog Hrun) as (H & _ & _).
  apply (H "t1" KEndpoint "ep-2" "git"). vm_compute. reflexivity.
Defined.

(** An identifier shared by an endpoint and a group: claiming the group's alias releases
    the endpoint's, which a service then takes. *)
Example shared_id_breaks_the_namespace :
  let s := after (upsertEndpoint NewStore (gitServer <| ep_ID := "x" |>)) in
  let s := after (upsertGroup s (mkGroup "x" "t1" "servers" false [] None false "")) in
  let s := after (upsertService s (https <| sv_Alias := "git" |>)) in
  aliasIn s "t1" KEndpoint "x" = Some "git" ∧ aliasIn s "t1" KService "https" = Some "git".
Proof. vm_compute. split; reflexivity. Qed.

(** A fresh identifier is not checked against the identifiers in use: an endpoint an
    operator called [ep-1] is replaced by the next one that is created without an
    identifier, and its alias is lost. *)
Example fresh_id_overwrites :
  let s := after (upsertEndpoint NewStore laptop) in
  let s' := after (upsertEndpoint s (gitServer <| ep_ID := "" |>)) in
  GetEndpoint s "t1" "ep-1" = Some laptop ∧
  GetEndpoint s' "t1" "ep-1" = Some (gitServer <| ep_ID := "ep-1" |>).
Proof. vm_compute. split; reflexivity. Qed.
End AssetCatalog.
