(* ===== verification/CatalogStore.v ===== *)
(** * Transactions of the asset catalogue ([src/assetcatalog/transaction.go, shared.go,
    persistence.go, distribution.go, erasure.go, application.go, certpin.go])

    Every authored edit of the catalogue of [AssetCatalog] runs on a candidate that is
    published once the save has answered.  With a transactional persister the candidate is
    built from the stored snapshot, which several control planes share, with the enrolled
    endpoints of this process laid over it: the inventory owns those, and the snapshot
    never holds them.  Destinations managed by bypass review, by application publish or by
    the inventory are closed to the generic endpoint operations.  The JSON text of a
    snapshot is described by what it decodes to; the order in which Go visits a map is the
    class [MapOrder]. *)

From Stdlib Require Import Ascii.
From stdpp Require Import base gmap sets fin_map_dom list strings sorting.
From S2P Require Import Prelude Trimmed GoStd Tables GoNet Persistence Model Common RuleCompile RuleLateral AssetCatalog.
Import RuleCompile AssetCatalog.

Open Scope Z_scope.

Module CatalogStore.

(** ** The durable snapshot *)

(** A map field is [None] when it is absent or null. *)
Record persistedCatalog := mkPersisted {
  pc_Generation : Z;
  pc_EnrolledAliases : option (nested string);
  pc_Seq : Z;
  pc_Endpoints : option (nested Endpoint);
  pc_Groups : option (nested Group);
  pc_Services : option (nested Service);
  pc_Aliases : option (nested string);
}.

#[export] Instance persistedCatalog_eta : Etaable persistedCatalog := fun p =>
  mkPersisted (pc_Generation p) (pc_EnrolledAliases p) (pc_Seq p) (pc_Endpoints p) (pc_Groups p)
    (pc_Services p) (pc_Aliases p).
#[export] Instance persistedCatalog_eq_dec : EqDecision persistedCatalog.
Proof. solve_decision. Defined.

Inductive raw :=
  | Garbage
  | CatalogFile (snap : persistedCatalog).

(** [enrolled_aliases] is left out when it is empty. *)
Definition marshal (snap : persistedCatalog) : raw :=
  CatalogFile (snap <| pc_EnrolledAliases :=
    if bool_decide (pc_EnrolledAliases snap = Some ∅) then None else pc_EnrolledAliases snap |>).

Definition enrolledOwnerPrefix : string := "enrolled-".
Definition isEnrolled (e : Endpoint) : bool := String.eqb (ep_Source e) SourceEnrolled.

(** The rows that pass, under the tenants that have one. *)
Definition keepRows {A} (keep : string → string → A → bool) (m : nested A) : nested A :=
  filter (fun kv => kv.2 ≠ ∅)
    (map_imap (fun t rows => Some (filter (fun kv => keep t kv.1 kv.2 = true) rows)) m).

(** An alias of an enrolled device is stored only when an operator chose it. *)
Definition authoredAlias (enrolledAliases : nested string) (tenant alias owner : string) : bool :=
  negb (has_prefix owner enrolledOwnerPrefix
        && negb (String.eqb (default "" (rowsOf enrolledAliases tenant !! owner)) alias)).

Definition authoredStateLocked (s : Store) : persistedCatalog :=
  mkPersisted (st_generation s) (Some (st_enrolledAliases s)) (st_seq s)
    (Some (keepRows (fun _ _ e => negb (isEnrolled e)) (st_endpoints s)))
    (Some (st_groups s)) (Some (st_services s))
    (Some (keepRows (authoredAlias (st_enrolledAliases s)) (st_aliases s))).

(** ** The candidate of a shared transaction *)

Definition acceptRows {A} (f : string → string → A → bool) (m : nested A) : bool :=
  bool_decide (map_Forall (fun t rows => map_Forall (fun id a => f t id a = true) rows) m).

Definition keyed (tenant id rowTenant rowID : string) : bool :=
  nonempty tenant && nonempty id && String.eqb rowTenant tenant && String.eqb rowID id.

Definition endpointAcceptable (t id : string) (e : Endpoint) : bool :=
  keyed t id (ep_TenantID e) (ep_ID e) && negb (isEnrolled e).
Definition groupAcceptable (t id : string) (g : Group) : bool :=
  keyed t id (gr_TenantID g) (gr_ID g).
Definition serviceAcceptable (t id : string) (v : Service) : bool :=
  keyed t id (sv_TenantID v) (sv_ID v).
Definition enrolledAliasAcceptable (aliases : nested string) (t id alias : string) : bool :=
  nonempty t && has_prefix id enrolledOwnerPrefix && negb (is_blank alias)
  && String.eqb (default "" (rowsOf aliases t !! alias)) id.

Definition noTenants (p : persistedCatalog) : bool :=
  bool_decide (pc_Endpoints p = Some ∅ ∧ pc_Groups p = Some ∅ ∧ pc_Services p = Some ∅ ∧
               pc_EnrolledAliases p = Some ∅).

Definition loadServices (svcs : nested Service) : nested Service :=
  (fun rows : gmap string Service => loadServiceTransports <$> rows) <$> svcs.

(** What the stored snapshot contributes. *)
Definition storedCandidate (s : Store) (stored : option raw) : result error Store :=
  let n := NewStore <| st_generation := st_generation s |>
             <| st_builtInEndpoints := st_builtInEndpoints s |>
             <| st_builtInGroups := st_builtInGroups s |>
             <| st_builtInServices := st_builtInServices s |> in
  match stored with
  | None => if noTenants (authoredStateLocked s) then Ok n else Err ErrPersistence
  | Some (CatalogFile (mkPersisted gen enrolled seq (Some eps) (Some grs) (Some svcs)
                         (Some als))) =>
      if (seq <? 0) || negb (acceptRows endpointAcceptable eps)
         || negb (acceptRows groupAcceptable grs) || negb (acceptRows serviceAcceptable svcs)
         || negb (acceptRows (enrolledAliasAcceptable als) (default ∅ enrolled))
      then Err ErrPersistence
      else Ok (n <| st_generation := Z.max gen (st_generation s) |>
                 <| st_enrolledAliases := default ∅ enrolled |> <| st_seq := seq |>
                 <| st_endpoints := eps |> <| st_groups := grs |>
                 <| st_services := loadServices svcs |>
                 <| st_aliases := als |>)
  | Some _ => Err ErrPersistence
  end.

(** One enrolled endpoint of this process laid over the candidate. *)
Definition overlayOne (acc : result error Store) (row : string * (string * Endpoint))
    : result error Store :=
  let! n := acc in
  let '(t, (id, e)) := row in
  if bool_decide (is_Some (rowsOf (st_endpoints n) t !! id)) then Err ErrPersistence else
  let desired := default (ep_Alias e) (rowsOf (st_enrolledAliases n) t !! id) in
  let '(n, alias) := claimAliasLocked n t desired id in
  Ok (n <| st_endpoints := putRow t id (e <| ep_Alias := alias |>) (st_endpoints n) |>).

(** The authored state without its sequence and generation. *)
Definition authoredContent (s : Store) : persistedCatalog :=
  (authoredStateLocked s) <| pc_Seq := 0 |> <| pc_Generation := 0 |>.

Section transactions.
Context `{MapOrder}.

Definition enrolledRows (s : Store) : list (string * (string * Endpoint)) :=
  List.filter (fun row => isEnrolled row.2.2) (visit (st_endpoints s)).

Definition sharedCandidateLocked (s : Store) (stored : option raw) : result error Store :=
  let! n := storedCandidate s stored in
  let! n := foldl overlayOne (Ok n) (enrolledRows s) in
  Ok (if (st_generation n <=? st_generation s)
         && negb (bool_decide (authoredContent s = authoredContent n))
      then bumpGeneration n else n).

(** [mutateCatalogContext]: the store, what is stored, and the answer. *)
Definition mutateCatalog {T} (b : backing) (s : Store) (stored : option raw) (w : write_outcome)
    (apply : Store → result error (Store * T)) : Store * option raw * result error T :=
  match b with
  | Updating =>
      match w with
      | Unavailable => (s, stored, Err ErrPersistence)
      | _ =>
          match sharedCandidateLocked s stored with
          | Err _ => (s, stored, Err ErrPersistence)
          | Ok n =>
              match apply n with
              | Err e => (s, stored, Err e)
              | Ok (n, t) =>
                  let disk := diskAfter w stored (marshal (authoredStateLocked n)) in
                  match w with
                  | Written => (n, disk, Ok t)
                  | _ => (s, disk, Err ErrPersistence)
                  end
              end
          end
      end
  | _ =>
      match apply s with
      | Err e => (s, stored, Err e)
      | Ok (n, t) =>
          if st_generation n =? st_generation s then (s, stored, Ok t) else
          match b with
          | Plain =>
              let disk := diskAfter w stored (marshal (authoredStateLocked n)) in
              match w with
              | Written => (n, disk, Ok t)
              | Unflushed => (n, disk, Err ErrPersistence)
              | _ => (s, disk, Err ErrPersistence)
              end
          | _ => (n, stored, Ok t)
          end
      end
  end.

(** ** Start and refresh *)

Definition loadLocked (s : Store) (stored : option raw) : result error Store :=
  match stored with
  | None => Ok s
  | Some Garbage => Err ErrLoad
  | Some (CatalogFile p) =>
      Ok (s <| st_enrolledAliases := default (st_enrolledAliases s) (pc_EnrolledAliases p) |>
            <| st_endpoints := default (st_endpoints s) (pc_Endpoints p) |>
            <| st_groups := default (st_groups s) (pc_Groups p) |>
            <| st_services :=
                 match pc_Services p with
                 | Some svcs => loadServices svcs
                 | None => st_services s
                 end |>
            <| st_aliases := default (st_aliases s) (pc_Aliases p) |>
            <| st_generation := Z.max (pc_Generation p) (st_generation s) |>
            <| st_seq := Z.max (pc_Seq p) (st_seq s) |>)
  end.

(** [load] is what the persister's [Load] answers. *)
Definition SetPersister (b : backing) (s : Store) (load : result error (option raw))
    : result error Store :=
  match b with
  | Memory => Ok s
  | Plain => let! stored := load in loadLocked s stored
  | Updating =>
      match load with
      | Err _ => Err ErrPersistence
      | Ok stored => sharedCandidateLocked s stored
      end
  end.

Definition RefreshShared (b : backing) (s : Store) (load : result error (option raw))
    : result error Store :=
  match b with
  | Updating => SetPersister Updating s load
  | _ => Ok s
  end.

End transactions.

(** ** Edits by owner *)

Definition SourceCertPin : string := "cert_pin".
Definition certPinEndpointPrefix : string := "certpin-ep-".

Definition certPinEndpoint (e : Endpoint) : bool :=
  String.eqb (ep_Source e) SourceCertPin || has_prefix (ep_ID e) certPinEndpointPrefix.
Definition isApplication (e : Endpoint) : bool := String.eqb (ep_Source e) SourceApplication.

(** [found && p(current)] *)
Definition found_and (p : Endpoint → bool) (current : option Endpoint) : bool :=
  match current with Some e => p e | None => false end.

Section owners.
Context (sha256_hex : string → string).

(** The rename of an enrolled endpoint: [current] is what the inventory holds. *)
Definition renameEnrolled (e : Endpoint) (current : option Endpoint) (n : Store)
    : result error (Store * Endpoint) :=
  match current with
  | None => Err EnrolledFromInventory
  | Some c =>
      if negb (isEnrolled c) || negb (String.eqb (ep_ID c) (enrolledEndpointID sha256_hex (ep_Identity c)))
      then Err EnrolledFromInventory
      else if negb (bool_decide (e <| ep_Alias := ep_Alias c |> = c)) then Err EnrolledNameOnly
      else
        let! (n, saved) := upsertEndpoint n e in
        Ok (bumpGeneration (n <| st_enrolledAliases :=
              putRow (ep_TenantID e) (ep_ID e) (ep_Alias saved) (st_enrolledAliases n) |>), saved)
  end.

(** The edit of [UpsertEndpointContext]. *)
Definition editEndpoint (e : Endpoint) (n : Store) : result error (Store * Endpoint) :=
  let current := GetEndpoint n (ep_TenantID e) (ep_ID e) in
  if certPinEndpoint e || found_and certPinEndpoint current then Err ErrCertPinEndpointOwnership
  else if isApplication e || found_and isApplication current
  then Err ErrApplicationEndpointOwnership
  else if isEnrolled e || has_prefix (ep_ID e) enrolledOwnerPrefix || found_and isEnrolled current
  then renameEnrolled e current n
  else upsertEndpoint n e.
End owners.

(** The edit of [DeleteEndpointContext]. *)
Definition removeEndpoint (tenant id : string) (n : Store) : result error (Store * bool) :=
  let current := GetEndpoint n tenant id in
  if found_and (fun e => has_prefix id certPinEndpointPrefix || certPinEndpoint e) current
  then Err ErrCertPinEndpointOwnership
  else if found_and isApplication current then Err ErrApplicationEndpointOwnership
  else if found_and isEnrolled current then Err EnrolledManaged
  else Ok (deleteEndpoint n tenant id).

Definition ApplicationEndpointWritable (e : Endpoint) (applicationID : string)
    (allowManual : bool) : bool :=
  negb (ep_BuiltIn e || negb (String.eqb (ep_ID e) ("app-" +:+ applicationID)))
  && (isApplication e
      || allowManual && (String.eqb (ep_Source e) SourceManual || is_empty (ep_Source e))).

Definition foreignApplication (applicationID : string) (allowManual : bool)
    (current : option Endpoint) : bool :=
  found_and (fun e => negb (ApplicationEndpointWritable e applicationID allowManual)) current.

(** [e] with the identifier and source of the application. *)
Definition editApplicationEndpoint (applicationID : string) (e : Endpoint) (allowManual : bool)
    (n : Store) : result error (Store * Endpoint) :=
  let e := e <| ep_ID := "app-" +:+ applicationID |> <| ep_Source := SourceApplication |> in
  if foreignApplication applicationID allowManual (GetEndpoint n (ep_TenantID e) (ep_ID e))
  then Err ErrApplicationEndpointOwnership
  else upsertEndpoint n e.

Definition removeApplicationEndpoint (tenant applicationID : string) (allowManual : bool)
    (n : Store) : result error (Store * bool) :=
  let id := "app-" +:+ applicationID in
  if foreignApplication applicationID allowManual (GetEndpoint n tenant id)
  then Err ErrApplicationEndpointOwnership
  else Ok (deleteEndpoint n tenant id).

Definition renameApplicationEndpoint (tenant applicationID alias : string) (allowManual : bool)
    (n : Store) : result error (Store * Endpoint) :=
  match GetEndpoint n tenant ("app-" +:+ applicationID) with
  | None => Err ErrApplicationEndpointOwnership
  | Some current =>
      if negb (ApplicationEndpointWritable current applicationID allowManual)
      then Err ErrApplicationEndpointOwnership
      else upsertEndpoint n (current <| ep_Alias := alias |>)
  end.

(** A destination stored before the source marker existed. *)
Definition legacyCertPin (current e : Endpoint) : bool :=
  (String.eqb (ep_Source current) SourceManual || is_empty (ep_Source current))
  && String.eqb (ep_Kind current) KindNetwork && String.eqb (ep_Address current) (ep_Address e)
  && negb (ep_Steered current) && is_empty (ep_Identity current)
  && bool_decide (ep_Tags current = ["cert_pin"]).

Definition editCertPinEndpoint (candidateID : string) (e : Endpoint) (n : Store)
    : result error (Store * Endpoint) :=
  let e := e <| ep_ID := certPinEndpointPrefix +:+ candidateID |> <| ep_Source := SourceCertPin |> in
  if found_and (fun current => ep_BuiltIn current
       || negb (String.eqb (ep_Source current) SourceCertPin) && negb (legacyCertPin current e))
       (GetEndpoint n (ep_TenantID e) (ep_ID e))
  then Err ErrCertPinEndpointOwnership
  else upsertEndpoint n e.

(** ** Reconciliation with a control plane *)

Fixpoint upsertAll {A} (upsert : Store → A → result error (Store * A)) (s : Store) (l : list A)
    : result error Store :=
  match l with
  | [] => Ok s
  | a :: l' => let! (s, _) := upsert s a in upsertAll upsert s l'
  end.

(** [tenant + "\x00" + id] *)
Definition rowKey (tenant id : string) : string := tenant +:+ nul +:+ id.

(** Deletes the rows that are not kept and names those that were there. *)
Definition dropOne {A} (label : string) (delete_ : Store → string → string → Store * bool)
    (acc : Store * list string) (row : string * (string * A)) : Store * list string :=
  let '(s, ok) := delete_ acc.1 row.1 row.2.1 in
  (s, if ok : bool then acc.2 ++ [label +:+ row.2.1] else acc.2).

Definition dropped {A} (kept : list string) (spared : A → bool)
    (rows : list (string * (string * A))) : list (string * (string * A)) :=
  List.filter (fun row => negb (spared row.2.2 || containsString kept (rowKey row.1 row.2.1))) rows.

Definition replaceAuthored `{MapOrder} (endpoints : list Endpoint) (groups : list Group)
    (services : list Service) (s : Store) : result error (Store * list string) :=
  let! s := upsertAll upsertEndpoint s endpoints in
  let! s := upsertAll upsertGroup s groups in
  let! s := upsertAll upsertService s services in
  let keepEndpoint := List.map (fun e => rowKey (ep_TenantID e) (ep_ID e)) endpoints in
  let keepGroup := List.map (fun g => rowKey (gr_TenantID g) (gr_ID g)) groups in
  let keepService := List.map (fun v => rowKey (sv_TenantID v) (sv_ID v)) services in
  let dropEndpoints := dropped keepEndpoint isEnrolled (visit (st_endpoints s)) in
  let dropGroups := dropped keepGroup (fun _ => false) (visit (st_groups s)) in
  let dropServices := dropped keepService (fun _ => false) (visit (st_services s)) in
  let acc := foldl (dropOne "endpoint:" deleteEndpoint) (s, []) dropEndpoints in
  let acc := foldl (dropOne "group:" deleteGroup) acc dropGroups in
  let '(s, removed) := foldl (dropOne "service:" deleteService) acc dropServices in
  Ok (s, sort_strings removed).

(** The edit of [ReplaceAuthored]. *)
Definition editReplaceAuthored `{MapOrder} (endpoints : list Endpoint) (groups : list Group)
    (services : list Service) (n : Store) : result error (Store * list string) :=
  let! (n, removed) := replaceAuthored endpoints groups services n in
  Ok (bumpGeneration n, removed).

Definition byTenantAndID {A} (tenant id : A → string) (x y : A) : bool :=
  if String.eqb (tenant x) (tenant y) then String.ltb (id x) (id y)
  else String.ltb (tenant x) (tenant y).

Definition allRows {A} (m : nested A) : list A := flat_map (fun rows => values rows) (values m).

Definition AuthoredSnapshot (s : Store) : list Endpoint * list Group * list Service :=
  (sort_stable (byTenantAndID ep_TenantID ep_ID) (allRows (st_endpoints s)),
   sort_stable (byTenantAndID gr_TenantID gr_ID) (allRows (st_groups s)),
   sort_stable (byTenantAndID sv_TenantID sv_ID) (allRows (st_services s))).

Definition ConfigGeneration (s : Store) : Z := st_generation s.

(** ** Erasure of a tenant *)

Definition rowCount {A} (m : option (nested A)) (tenant : string) : Z :=
  Z.of_nat (size (rowsOf (default ∅ m) tenant)).

Definition countTenantCatalogRecords (p : persistedCatalog) (tenant : string) : Z :=
  rowCount (pc_Endpoints p) tenant + rowCount (pc_Groups p) tenant
  + rowCount (pc_Services p) tenant + rowCount (pc_Aliases p) tenant
  + rowCount (pc_EnrolledAliases p) tenant.

Definition removeTenant (tenant : string) (n : Store) : result error (Store * Z) :=
  let count := countTenantCatalogRecords (authoredStateLocked n) tenant in
  let absent := bool_decide (rowsOf (st_endpoints n) tenant = ∅ ∧ rowsOf (st_groups n) tenant = ∅ ∧
    rowsOf (st_services n) tenant = ∅ ∧ rowsOf (st_aliases n) tenant = ∅ ∧
    rowsOf (st_enrolledAliases n) tenant = ∅) in
  let n := n <| st_endpoints := delete tenant (st_endpoints n) |>
             <| st_groups := delete tenant (st_groups n) |>
             <| st_services := delete tenant (st_services n) |>
             <| st_aliases := delete tenant (st_aliases n) |>
             <| st_enrolledAliases := delete tenant (st_enrolledAliases n) |> in
  Ok (if absent then n else bumpGeneration n, count).

(** ** The public operations *)

Section operations.
Context `{MapOrder} (sha256_hex : string → string).
Variables (b : backing) (s : Store) (stored : option raw) (w : write_outcome).

Definition UpsertEndpointContext (e : Endpoint) :=
  mutateCatalog b s stored w (editEndpoint sha256_hex e).

(** Callers that hold the inventory write it without a save. *)
Definition UpsertEndpoint (e : Endpoint) : Store * option raw * result error Endpoint :=
  if isEnrolled e then
    match upsertEndpoint s e with
    | Ok (s', e') => (s', stored, Ok e')
    | Err err => (s, stored, Err err)
    end
  else UpsertEndpointContext e.

Definition UpsertGroupContext (g : Group) :=
  mutateCatalog b s stored w (fun n => upsertGroup n g).
Definition UpsertServiceContext (svc : Service) :=
  mutateCatalog b s stored w (fun n => upsertService n svc).
Definition DeleteEndpointContext (tenant id : string) :=
  mutateCatalog b s stored w (removeEndpoint tenant id).
Definition DeleteGroupContext (tenant id : string) :=
  mutateCatalog b s stored w (fun n => Ok (deleteGroup n tenant id)).
Definition DeleteServiceContext (tenant id : string) :=
  mutateCatalog b s stored w (fun n => Ok (deleteService n tenant id)).

Definition UpsertApplicationEndpointContext (applicationID : string) (e : Endpoint)
    (allowManual : bool) : Store * option raw * result error Endpoint :=
  if is_blank applicationID then (s, stored, Err ErrApplicationEndpointOwnership)
  else mutateCatalog b s stored w
         (editApplicationEndpoint (trim_space applicationID) e allowManual).
Definition DeleteApplicationEndpointContext (tenant applicationID : string)
    (allowManual : bool) : Store * option raw * result error bool :=
  if is_blank applicationID then (s, stored, Err ErrApplicationEndpointOwnership)
  else mutateCatalog b s stored w
         (removeApplicationEndpoint tenant (trim_space applicationID) allowManual).
Definition RenameApplicationEndpointContext (tenant applicationID alias : string)
    (allowManual : bool) :=
  mutateCatalog b s stored w (renameApplicationEndpoint tenant applicationID alias allowManual).
Definition UpsertCertPinEndpointContext (candidateID : string) (e : Endpoint)
    : Store * option raw * result error Endpoint :=
  if is_blank candidateID then (s, stored, Err ErrCertPinEndpointOwnership)
  else mutateCatalog b s stored w (editCertPinEndpoint (trim_space candidateID) e).

Definition ReplaceAuthored (endpoints : list Endpoint) (groups : list Group)
    (services : list Service) :=
  mutateCatalog b s stored w (editReplaceAuthored endpoints groups services).
Definition RemoveTenantContext (tenant : string) := mutateCatalog b s stored w (removeTenant tenant).

(** The records of a tenant after a checked refresh. *)
Definition CountTenantRecords (load : result error (option raw)) (tenant : string)
    : result error Z :=
  let! s := RefreshShared b s load in
  Ok (countTenantCatalogRecords (authoredStateLocked s) tenant).
End operations.

End CatalogStore.
