(* ===== verification/CatalogFleet.v ===== *)
(** * A fleet over one catalogue ([src/assetcatalog] transactions over time)

    The invariant of the catalogue of [CatalogStore], what is read back from a snapshot,
    histories of control planes that share one, erasure of a tenant, and the protection of
    destinations that other workflows manage. *)

From Stdlib Require Import Ascii.
From stdpp Require Import base gmap sets fin_map_dom list strings sorting.
From S2P Require Import Prelude Trimmed GoStd Tables GoNet Persistence Model Common RuleCompile RuleLateral.
From S2P Require Import AssetCatalog CatalogStore.
Import RuleCompile AssetCatalog CatalogStore.

Open Scope Z_scope.

Module CatalogFleet.

(** ** Tables *)

#[local] Arguments putRow : simpl never.
#[local] Arguments rowsOf : simpl never.

Section tables.
Context {A : Type}.
Implicit Types (m : nested A).

Lemma rowsOf_keepRows keep m t id a :
  rowsOf (keepRows keep m) t !! id = Some a ↔
  rowsOf m t !! id = Some a ∧ keep t id a = true.
Proof.
  unfold keepRows. rewrite !rowsOf_some. setoid_rewrite map_lookup_filter_Some.
  setoid_rewrite map_lookup_imap. split.
  - intros (rows & [Hrows _] & Hid). destruct (m !! t) as [rows0|]; [|done]. injection Hrows as <-.
    apply map_lookup_filter_Some in Hid as [Hid Hk]. split; [by exists rows0|done].
  - intros [(rows & Hrows & Hid) Hk]. rewrite Hrows. eexists. split_and!; [done| |].
    + cbn [snd]. intros Hemp. assert (filter (fun kv => keep t kv.1 kv.2 = true) rows !! id = Some a) as Hl
        by (by apply map_lookup_filter_Some). by rewrite Hemp, lookup_empty in Hl.
    + by apply map_lookup_filter_Some.
Qed.

Lemma acceptRows_spec f m :
  acceptRows f m = true ↔ ∀ t id a, rowsOf m t !! id = Some a → f t id a = true.
Proof.
  unfold acceptRows. rewrite bool_decide_eq_true. setoid_rewrite rowsOf_some.
  unfold map_Forall. naive_solver.
Qed.

End tables.

(** ** Well-formed catalogues *)

Definition enrolledID (id : string) : bool := has_prefix id enrolledOwnerPrefix.

(** Rows under their own tenant and identifier, inventory rows exactly under inventory
    identifiers, the names operators chose for devices reserved for them, and no built-in
    row that claims to come from the inventory. *)
Record okStore (n : Store) : Prop := {
  ok_endpoint t id e :
    rowsOf (st_endpoints n) t !! id = Some e →
    keyed t id (ep_TenantID e) (ep_ID e) = true ∧ isEnrolled e = enrolledID id ∧ trim_space t = t;
  ok_group t id g :
    rowsOf (st_groups n) t !! id = Some g →
    keyed t id (gr_TenantID g) (gr_ID g) = true ∧ enrolledID id = false;
  ok_service t id v :
    rowsOf (st_services n) t !! id = Some v →
    keyed t id (sv_TenantID v) (sv_ID v) = true ∧ enrolledID id = false ∧
    loadServiceTransports v = v;
  ok_name t id a :
    rowsOf (st_enrolledAliases n) t !! id = Some a →
    t ≠ "" ∧ enrolledID id = true ∧ named_by_operator n t id a;
  ok_builtin id e : st_builtInEndpoints n !! id = Some e → isEnrolled e = false;
}.

Lemma okStore_new : okStore NewStore.
Proof. split; intros *; cbn; rewrite ?rowsOf_empty, lookup_empty; done. Qed.

(** The same authored catalogue: rows, names and sequence, apart from the inventory. *)
Record sameAuthored (n c : Store) : Prop := {
  same_endpoint t id e :
    isEnrolled e = false →
    rowsOf (st_endpoints c) t !! id = Some e ↔ rowsOf (st_endpoints n) t !! id = Some e;
  same_groups : st_groups c = st_groups n;
  same_services : st_services c = st_services n;
  same_names : st_enrolledAliases c = st_enrolledAliases n;
  same_seq : st_seq c = st_seq n;
}.

(** *** Reading back what was written *)

Lemma loadServices_id (svcs : nested Service) :
  (∀ t id v, rowsOf svcs t !! id = Some v → loadServiceTransports v = v) →
  loadServices svcs = svcs.
Proof.
  intros Hall. unfold loadServices. apply map_eq. intros t. rewrite lookup_fmap.
  destruct (svcs !! t) as [rows|] eqn:Ht; [|done]. cbn. f_equal. apply map_eq. intros id.
  rewrite lookup_fmap. destruct (rows !! id) as [v|] eqn:Hv; [|done]. cbn. f_equal.
  apply (Hall t id). apply rowsOf_some. by exists rows.
Qed.

Lemma marshal_enrolled (p : persistedCatalog) m :
  pc_EnrolledAliases p = Some m →
  default ∅ (if bool_decide (pc_EnrolledAliases p = Some ∅) then None else pc_EnrolledAliases p) = m.
Proof. intros ->. case_bool_decide as Hm; cbn; congruence. Qed.

(** The aliases that are stored: those of authored entries and the names operators chose. *)
Lemma authoredAlias_named n t id a :
  named_by_operator n t id a → authoredAlias (st_enrolledAliases n) t a id = true.
Proof.
  intros (Hn & _). unfold authoredAlias. rewrite Hn. cbn. rewrite String.eqb_refl. cbn.
  by rewrite andb_false_r.
Qed.

Lemma stored_back s n :
  okStore s → okStore n → 0 ≤ st_seq n →
  ∃ c, storedCandidate s (Some (marshal (authoredStateLocked n))) = Ok c ∧ okStore c ∧
    sameAuthored n c ∧ (∀ t id e, rowsOf (st_endpoints c) t !! id = Some e → isEnrolled e = false) ∧
    (∀ t a o, rowsOf (st_aliases c) t !! a = Some o → rowsOf (st_aliases n) t !! a = Some o).
Proof.
  intros Hs Hn Hseq. unfold marshal, storedCandidate. cbn -[acceptRows loadServices bool_decide].
  rewrite (proj2 (Z.ltb_ge _ _) Hseq). cbn [orb].
  set (eps := keepRows _ (st_endpoints n)). set (als := keepRows _ (st_aliases n)).
  set (names := default ∅ _). assert (names = st_enrolledAliases n) as ->.
  { unfold names. case_bool_decide as Hm; [|done]. by injection Hm as ->. }
  assert (∀ t id a, rowsOf (st_enrolledAliases n) t !! id = Some a →
    rowsOf als t !! a = Some id) as Hals.
  { intros t id a Ha. apply (ok_name n Hn) in Ha as (_ & _ & Ha). apply rowsOf_keepRows.
    split; [by destruct Ha as (_ & ? & _)|by apply authoredAlias_named]. }
  assert (acceptRows endpointAcceptable eps = true) as ->.
  { apply acceptRows_spec. intros t id e [He Hk]%rowsOf_keepRows. unfold endpointAcceptable.
    by rewrite Hk, (proj1 (ok_endpoint n Hn _ _ _ He)). }
  assert (acceptRows groupAcceptable (st_groups n) = true) as ->.
  { apply acceptRows_spec. intros t id g Hg. by apply (ok_group n Hn). }
  assert (acceptRows serviceAcceptable (st_services n) = true) as ->.
  { apply acceptRows_spec. intros t id v Hv. by apply (ok_service n Hn). }
  assert (acceptRows (enrolledAliasAcceptable als) (st_enrolledAliases n) = true) as ->.
  { apply acceptRows_spec. intros t id a Ha. unfold enrolledAliasAcceptable.
    rewrite (Hals _ _ _ Ha). destruct (ok_name n Hn _ _ _ Ha) as (Ht & Hp & (_ & _ & Htr & Hne)).
    unfold enrolledID in Hp. rewrite Hp. cbn. rewrite String.eqb_refl, !andb_true_r.
    unfold nonempty, is_blank. rewrite Htr.
    destruct (is_empty t) eqn:E1; [by apply is_empty_true in E1|].
    by destruct (is_empty a) eqn:E2; [apply is_empty_true in E2|]. }
  cbn [negb orb]. rewrite loadServices_id by (intros t id v Hv; by apply (ok_service n Hn _ _ _ Hv)).
  eexists. split; [done|]. split_and!.
  - split; cbn.
    + intros t id e [He _]%rowsOf_keepRows. by apply (ok_endpoint n Hn).
    + apply (ok_group n Hn).
    + apply (ok_service n Hn).
    + intros t id a Ha. destruct (ok_name n Hn _ _ _ Ha) as (Ht & Hp & (_ & _ & Htr & Hne)).
      split_and!; [done..|]. by split_and!; [|apply Hals|..].
    + apply (ok_builtin s Hs).
  - split; try done. intros t id e He. cbn. unfold eps. rewrite rowsOf_keepRows, He. naive_solver.
  - intros t id e [_ Hk]%rowsOf_keepRows. by destruct (isEnrolled e).
  - intros t a o [? _]%rowsOf_keepRows. done.
Qed.

(** *** Edits keep the catalogue well formed *)

Lemma keyed_intro t id : t ≠ "" → id ≠ "" → keyed t id t id = true.
Proof.
  intros Ht Hid. unfold keyed, nonempty. rewrite !String.eqb_refl.
  destruct (is_empty t) eqn:E1; [by apply is_empty_true in E1|].
  by destruct (is_empty id) eqn:E2; [apply is_empty_true in E2|].
Qed.

Lemma keyed_elim t id rt ri : keyed t id rt ri = true → t ≠ "" ∧ id ≠ "" ∧ rt = t ∧ ri = id.
Proof.
  unfold keyed. rewrite !andb_true_iff, !String.eqb_eq. intros [[[Ht Hid] ?] ?].
  split_and!; [by intros ->|by intros ->|done..].
Qed.

(** A claim keeps the names of the others, and the owner's when it asks for its own. *)
Lemma claim_keeps_name n t desired owner n' alias t' id a :
  okStore n → claimAliasLocked n t desired owner = (n', alias) →
  rowsOf (st_enrolledAliases n) t' !! id = Some a → (t' = t → id = owner → desired = a) →
  t' ≠ "" ∧ enrolledID id = true ∧ named_by_operator n' t' id a.
Proof.
  intros Hn Hc Ha Hown. destruct (ok_name n Hn _ _ _ Ha) as (Ht & Hid & Hnm).
  destruct Hnm as (_ & Hal & Htr & Hne). split_and!; [done..|].
  split_and!; [by injection Hc as <- _| |done..].
  apply (claimed_by _ _ _ _ _ _ _ _ _ Hc). case_decide as Hk; [|done]. destruct Hk as [-> ->].
  rewrite Hown in Hc by done. pose proof (claim_own n t a owner Htr Hne Hal) as Hsame.
  by rewrite Hc in Hsame.
Qed.

Lemma claim_keeps_names n t desired owner n' alias :
  okStore n → claimAliasLocked n t desired owner = (n', alias) →
  (∀ a, rowsOf (st_enrolledAliases n) t !! owner = Some a → desired = a) →
  ∀ t' id a, rowsOf (st_enrolledAliases n) t' !! id = Some a →
    t' ≠ "" ∧ enrolledID id = true ∧ named_by_operator n' t' id a.
Proof.
  intros Hn Hc Hown t' id a Ha. eapply claim_keeps_name; [done..|].
  intros -> ->. by apply Hown.
Qed.

(** Other entries have no such name to keep. *)
Lemma no_name n t id (desired : string) :
  okStore n → enrolledID id = false →
  ∀ a, rowsOf (st_enrolledAliases n) t !! id = Some a → desired = a.
Proof. intros Hn Hid a Ha. apply (ok_name n Hn) in Ha as (_ & Ha & _). congruence. Qed.

(** An identifier given, or a fresh one of some kind. *)
Lemma assignID_cases s prefix id s' id' :
  assignID s prefix id = (s', id') →
  s' = s ∧ id' = id ∧ is_blank id = false ∨
  is_blank id = true ∧ ∃ seq, s' = s <| st_seq := seq |> ∧ id' = prefix +:+ "-" +:+ itoa seq.
Proof.
  unfold assignID, nextIDLocked. destruct (is_blank id); intros [= <- <-]; [right|by left].
  split; [done|]. by eexists.
Qed.

Lemma okStore_seq n seq : okStore n → okStore (n <| st_seq := seq |>).
Proof. intros []. by split. Qed.

Lemma assignID_ok s prefix id s' id' :
  okStore s → assignID s prefix id = (s', id') → okStore s' ∧ st_enrolledAliases s' = st_enrolledAliases s.
Proof.
  intros Hs Ha. apply assignID_cases in Ha as [(-> & _)|(_ & seq & -> & _)]; [done|].
  split; [by apply okStore_seq|done].
Qed.

(** What the assigned identifier is, for the three kinds. *)
Lemma assignID_id s prefix id s' id' :
  assignID s prefix id = (s', id') → prefix ≠ "" →
  (∀ x, enrolledID (prefix +:+ "-" +:+ x) = false) →
  id' ≠ "" ∧ (is_blank id = true → enrolledID id' = false) ∧ (is_blank id = false → id' = id).
Proof.
  intros Ha Hne Hp. apply assignID_cases in Ha as [(_ & -> & Hb)|(Hb & seq & _ & ->)].
  - split_and!; [by intros ->|congruence|done].
  - split_and!; [by destruct prefix|intros _; apply Hp|congruence].
Qed.

(** The row put under its tenant and identifier by one of the three upserts. *)
Lemma upsertEndpointLocked_row n e n' e' :
  upsertEndpointLocked n e = (n', e') →
  ∃ n1 n2, assignID n "ep" (ep_ID e) = (n1, ep_ID e') ∧
    claimAliasLocked n1 (ep_TenantID e) (ep_Alias e) (ep_ID e') = (n2, ep_Alias e') ∧
    e' = e <| ep_ID := ep_ID e' |> <| ep_Alias := ep_Alias e' |> ∧
    st_endpoints n' = putRow (ep_TenantID e) (ep_ID e') e' (st_endpoints n) ∧
    st_groups n' = st_groups n ∧ st_services n' = st_services n ∧
    st_aliases n' = st_aliases n2 ∧ st_enrolledAliases n' = st_enrolledAliases n2 ∧
    st_builtInEndpoints n' = st_builtInEndpoints n.
Proof.
  unfold upsertEndpointLocked. destruct (assignID n "ep" (ep_ID e)) as [n1 id] eqn:Ha.
  cbn [ep_TenantID ep_Alias ep_ID]. destruct (claimAliasLocked n1 _ _ _) as [n2 alias] eqn:Hc.
  pose proof (assignID_same _ _ _ _ _ Ha) as (He & Hg & Hs & _).
  pose proof (claimAlias_same _ _ _ _ _ _ Hc) as (He2 & Hg2 & Hs2).
  assert (st_builtInEndpoints n2 = st_builtInEndpoints n) as Hb.
  { apply assignID_cases in Ha. injection Hc as <- _. cbn. naive_solver. }
  intros [= Hn' <-]. exists n1, n2. rewrite <- Hn'. cbn in Hc.
  split_and!; try done; case_match; cbn; congruence.
Qed.

Lemma put_endpoint_ok n e n' e' :
  upsertEndpointLocked n e = (n', e') → okStore n → ep_TenantID e ≠ "" → trim_space (ep_TenantID e) = ep_TenantID e →
  (is_blank (ep_ID e) = true → isEnrolled e = false) →
  (is_blank (ep_ID e) = false → isEnrolled e = enrolledID (ep_ID e)) →
  (∀ a, rowsOf (st_enrolledAliases n) (ep_TenantID e) !! ep_ID e' = Some a → ep_Alias e = a) →
  okStore n'.
Proof.
  intros H Hn Ht Htr Hblank Hgiven Hown.
  destruct (upsertEndpointLocked_row _ _ _ _ H) as (n1 & n2 & Ha & Hc & He' & Heps & Hg & Hs & Hal & Hen & Hb).
  destruct (assignID_ok _ _ _ _ _ Hn Ha) as [Hn1 Hnames].
  destruct (assignID_id _ _ _ _ _ Ha ltac:(done) ltac:(by intros x)) as (Hne & Hid1 & Hid2).
  rewrite <- Hnames in Hown. split.
  - intros t id x. rewrite Heps, rowsOf_put. case_decide as Hk; [|apply (ok_endpoint n Hn)].
    destruct Hk as [-> ->]. intros [= <-]. rewrite He'. cbn. split; [by apply keyed_intro|].
    split; [|done]. change (isEnrolled e = enrolledID (ep_ID e')).
    destruct (is_blank (ep_ID e)); [by rewrite Hblank, Hid1|by rewrite Hgiven, Hid2].
  - rewrite Hg. apply (ok_group n Hn).
  - rewrite Hs. apply (ok_service n Hn).
  - intros t id a. rewrite Hen. replace (st_enrolledAliases n2) with (st_enrolledAliases n1)
      by (by injection Hc as <- _). intros Hl.
    destruct (claim_keeps_names _ _ _ _ _ _ Hn1 Hc Hown _ _ _ Hl) as (? & ? & (H1 & H2 & ?)).
    split_and!; [done..|]. split_and!; [by rewrite Hen|by rewrite Hal|by destruct_and?..].
  - rewrite Hb. apply (ok_builtin n Hn).
Qed.

(** Authored endpoints. *)
Lemma upsertEndpoint_ok n e n' e' :
  upsertEndpoint n e = Ok (n', e') → okStore n → isEnrolled e = false →
  enrolledID (ep_ID e) = false → okStore n'.
Proof.
  unfold upsertEndpoint. set (e1 := e <| ep_TenantID := trim_space (ep_TenantID e) |>).
  destruct (is_empty (ep_TenantID e1)) eqn:Ht; [done|].
  destruct (negb _); [done|]. intros [= H] Hn Hen Hid.
  eapply (put_endpoint_ok n e1); [done..| | | | |].
  - by intros Hemp; rewrite Hemp in Ht.
  - apply trim_space_idemp.
  - done.
  - intros _. change (isEnrolled e = enrolledID (ep_ID e)). by rewrite Hid.
  - apply no_name; [done|].
    destruct (upsertEndpointLocked_row _ _ _ _ H) as (n1 & n2 & Has & _).
    destruct (assignID_id _ _ _ _ _ Has ltac:(done) ltac:(by intros x)) as (_ & Hid1 & Hid2).
    change (ep_ID e1) with (ep_ID e) in Hid1, Hid2.
    destruct (is_blank (ep_ID e)); [by apply Hid1|]. by rewrite Hid2.
Qed.

Lemma okStore_rest n n' :
  okStore n → st_endpoints n' = st_endpoints n → st_groups n' = st_groups n →
  st_services n' = st_services n → st_aliases n' = st_aliases n →
  st_enrolledAliases n' = st_enrolledAliases n →
  st_builtInEndpoints n' = st_builtInEndpoints n → okStore n'.
Proof.
  intros [? ? ? Hname ?] He Hg Hs Ha Hn Hb. split; rewrite ?He, ?Hg, ?Hs, ?Hn, ?Hb; [done..| |done].
  intros t id a Hl. destruct (Hname t id a Hl) as (? & ? & (? & ? & ? & ?)).
  split_and!; [done..|]. split_and!; [by rewrite Hn|by rewrite Ha|done..].
Qed.

Lemma upsertGroup_ok n g n' g' :
  upsertGroup n g = Ok (n', g') → okStore n → enrolledID (gr_ID g) = false → okStore n'.
Proof.
  unfold upsertGroup. set (g1 := g <| gr_TenantID := trim_space (gr_TenantID g) |>).
  destruct (is_empty (gr_TenantID g1)) eqn:Ht; [done|].
  destruct (assignID n "grp" _) as [n1 id] eqn:Ha.
  destruct (claimAliasLocked n1 _ _ _) as [n2 alias] eqn:Hc. intros [= <- _] Hn Hid.
  destruct (assignID_ok _ _ _ _ _ Hn Ha) as [Hn1 Hnames].
  destruct (assignID_id _ _ _ _ _ Ha ltac:(done) ltac:(by intros x)) as (Hne & Hid1 & Hid2).
  assert (enrolledID id = false) as Hidf.
  { change (gr_ID g1) with (gr_ID g) in Hid1, Hid2.
    destruct (is_blank (gr_ID g)); [by apply Hid1|]. by rewrite Hid2. }
  pose proof (claimAlias_same _ _ _ _ _ _ Hc) as (He2 & Hg2 & Hs2).
  apply okStore_rest with (n := n2 <| st_groups := putRow (gr_TenantID g1) id
    (g1 <| gr_ID := id |> <| gr_Alias := alias |>) (st_groups n2) |>); try done.
  split; cbn.
  - rewrite He2. apply (ok_endpoint n1 Hn1).
  - intros t i x. rewrite rowsOf_put, Hg2. case_decide as Hk; [|apply (ok_group n1 Hn1)].
    destruct Hk as [-> ->]. intros [= <-]. split; [|done]. apply keyed_intro; [|done].
    intros Hemp. change (gr_TenantID g1 = "") in Hemp. by rewrite Hemp in Ht.
  - rewrite Hs2. apply (ok_service n1 Hn1).
  - intros t i a. replace (st_enrolledAliases n2) with (st_enrolledAliases n1)
      by (by injection Hc as <- _). intros Hl.
    by destruct (claim_keeps_names _ _ _ _ _ _ Hn1 Hc (no_name _ _ _ _ Hn1 Hidf) _ _ _ Hl).
  - injection Hc as <- _. apply (ok_builtin n1 Hn1).
Qed.

Lemma loadServiceTransports_fixed svc valid :
  normalizeServiceTransports svc = Ok valid → ∀ id alias,
  loadServiceTransports (valid <| sv_ID := id |> <| sv_Alias := alias |>) =
  valid <| sv_ID := id |> <| sv_Alias := alias |>.
Proof.
  intros H id alias. unfold normalizeServiceTransports in H.
  destruct (length (sv_Ports svc) =? 0)%nat eqn:Hl; [done|].
  apply result_bind_ok in H as (ports & Hp & [= <-]).
  apply normalizePorts_ok in Hp as [Hlen Hall].
  assert (normalizePorts ports = Ok ports) as Hfix.
  { clear Hlen. induction Hall as [|[protocol port] ps [Hpr Hpo] _ IH]; [done|]. cbn in Hpr, Hpo.
    assert (normalizePort (mkPort protocol port) = Ok (mkPort protocol port)) as Hone.
    { unfold normalizePort. cbn. rewrite !elem_of_cons, elem_of_nil in Hpr.
      rewrite (proj2 (Z.ltb_ge _ _)), (proj2 (Z.ltb_ge _ _)) by lia.
      by destruct Hpr as [->|[->|[]]]. }
    cbn. by rewrite Hone, IH. }
  unfold loadServiceTransports, normalizeServiceTransports. cbn.
  rewrite Hlen, Hl, Hfix. done.
Qed.

Lemma upsertService_ok n svc n' svc' :
  upsertService n svc = Ok (n', svc') → okStore n → enrolledID (sv_ID svc) = false → okStore n'.
Proof.
  unfold upsertService. set (v0 := svc <| sv_TenantID := trim_space (sv_TenantID svc) |>).
  destruct (is_empty (sv_TenantID v0)) eqn:Ht; [done|]. rewrite result_bind_ok.
  intros (v1 & Hv & Hup) Hn Hid. revert Hup.
  assert (sv_TenantID v1 = sv_TenantID v0 ∧ sv_ID v1 = sv_ID svc) as [Ht1 Hid1'].
  { unfold normalizeServiceTransports in Hv. destruct (_ =? _)%nat; [done|].
    apply result_bind_ok in Hv as (? & _ & [= <-]). done. }
  destruct (assignID n "svc" _) as [n1 id] eqn:Ha.
  destruct (claimAliasLocked n1 _ _ _) as [n2 alias] eqn:Hc. intros [= <- _].
  destruct (assignID_ok _ _ _ _ _ Hn Ha) as [Hn1 Hnames].
  destruct (assignID_id _ _ _ _ _ Ha ltac:(done) ltac:(by intros x)) as (Hne & Hid1 & Hid2).
  rewrite Hid1' in Hid1, Hid2.
  assert (enrolledID id = false) as Hidf.
  { destruct (is_blank (sv_ID svc)); [by apply Hid1|]. by rewrite Hid2. }
  pose proof (claimAlias_same _ _ _ _ _ _ Hc) as (He2 & Hg2 & Hs2).
  apply okStore_rest with (n := n2 <| st_services := putRow (sv_TenantID v1) id
    (v1 <| sv_ID := id |> <| sv_Alias := alias |>) (st_services n2) |>); try done.
  split; cbn.
  - rewrite He2. apply (ok_endpoint n1 Hn1).
  - rewrite Hg2. apply (ok_group n1 Hn1).
  - intros t i x. rewrite rowsOf_put, Hs2. case_decide as Hk; [|apply (ok_service n1 Hn1)].
    destruct Hk as [-> ->]. intros [= <-].
    split_and!; [|done|by eapply loadServiceTransports_fixed]. apply keyed_intro; [|done].
    intros Hemp. change (sv_TenantID v1 = "") in Hemp. rewrite Ht1 in Hemp. by rewrite Hemp in Ht.
  - intros t i a. replace (st_enrolledAliases n2) with (st_enrolledAliases n1)
      by (by injection Hc as <- _). intros Hl.
    by destruct (claim_keeps_names _ _ _ _ _ _ Hn1 Hc (no_name _ _ _ _ Hn1 Hidf) _ _ _ Hl).
  - injection Hc as <- _. apply (ok_builtin n1 Hn1).
Qed.

(** Fewer rows, and the names of the devices that are left. *)
Lemma okStore_sub n n' :
  okStore n →
  (∀ t id e, rowsOf (st_endpoints n') t !! id = Some e → rowsOf (st_endpoints n) t !! id = Some e) →
  (∀ t id g, rowsOf (st_groups n') t !! id = Some g → rowsOf (st_groups n) t !! id = Some g) →
  (∀ t id v, rowsOf (st_services n') t !! id = Some v → rowsOf (st_services n) t !! id = Some v) →
  (∀ t id a, rowsOf (st_enrolledAliases n') t !! id = Some a →
     rowsOf (st_enrolledAliases n) t !! id = Some a ∧
     (rowsOf (st_aliases n) t !! a = Some id → rowsOf (st_aliases n') t !! a = Some id)) →
  st_builtInEndpoints n' = st_builtInEndpoints n → okStore n'.
Proof.
  intros Hn He Hg Hs Hnm Hb. split.
  - intros t id e H%He. by apply (ok_endpoint n Hn).
  - intros t id g H%Hg. by apply (ok_group n Hn).
  - intros t id v H%Hs. by apply (ok_service n Hn).
  - intros t id a H. destruct (Hnm _ _ _ H) as [H0 Hal].
    destruct (ok_name n Hn _ _ _ H0) as (? & ? & (_ & ? & ? & ?)).
    split_and!; [done..|]. split_and!; [done|by apply Hal|done..].
  - rewrite Hb. apply (ok_builtin n Hn).
Qed.

Lemma deleteRow_sub {A} tenant i (m : nested A) t id a :
  rowsOf (deleteRow tenant i m) t !! id = Some a → rowsOf m t !! id = Some a.
Proof. rewrite rowsOf_deleteRow. by case_decide. Qed.

(** Releasing the alias of an authored entry leaves the operators' names alone. *)
Lemma released_names n tenant owner t id a :
  okStore n → enrolledID owner = false →
  rowsOf (st_enrolledAliases n) t !! id = Some a → rowsOf (st_aliases n) t !! a = Some id →
  rowsOf (st_aliases (releaseAliasLocked n tenant owner)) t !! a = Some id.
Proof.
  intros Hn Ho Ha Hal. apply released_aliases. split; [done|]. intros _ ->.
  apply (ok_name n Hn) in Ha as (_ & Ha & _). congruence.
Qed.

Lemma deleteEndpoint_ok n tenant id :
  okStore n → (∀ e, rowsOf (st_endpoints n) tenant !! id = Some e → isEnrolled e = false) →
  okStore (deleteEndpoint n tenant id).1.
Proof.
  intros Hn Hrow. unfold deleteEndpoint. case_bool_decide; [done|].
  case_bool_decide as Hid; [|done]. destruct Hid as [e He].
  assert (enrolledID id = false) as Ho.
  { destruct (ok_endpoint n Hn _ _ _ He) as (_ & <- & _). by apply Hrow. }
  cbn [fst]. apply (okStore_sub n); [done| |done|done| |done].
  - intros t i x Hx. exact (deleteRow_sub tenant id (st_endpoints n) t i x Hx).
  - intros t i a Ha. split; [done|]. by apply (released_names n).
Qed.

Lemma deleteGroup_ok n tenant id : okStore n → okStore (deleteGroup n tenant id).1.
Proof.
  intros Hn. unfold deleteGroup. case_bool_decide; [done|].
  case_bool_decide as Hid; [|done]. destruct Hid as [g Hg].
  destruct (ok_group n Hn _ _ _ Hg) as (_ & Ho). cbn [fst].
  apply (okStore_sub n); [done|done| |done| |done].
  - intros t i x Hx. exact (deleteRow_sub tenant id (st_groups n) t i x Hx).
  - intros t i a Ha. split; [done|]. by apply (released_names n).
Qed.

Lemma deleteService_ok n tenant id : okStore n → okStore (deleteService n tenant id).1.
Proof.
  intros Hn. unfold deleteService. case_bool_decide as Hid; [|done]. destruct Hid as [v Hv].
  destruct (ok_service n Hn _ _ _ Hv) as (_ & Ho & _). cbn [fst].
  apply (okStore_sub n); [done|done|done| | |done].
  - intros t i x Hx. exact (deleteRow_sub tenant id (st_services n) t i x Hx).
  - intros t i a Ha. split; [done|]. by apply (released_names n).
Qed.

Lemma removeTenant_ok n tenant n' count :
  removeTenant tenant n = Ok (n', count) → okStore n → okStore n'.
Proof.
  assert (∀ {A} (m : nested A) t id a,
    rowsOf (delete tenant m) t !! id = Some a → t ≠ tenant ∧ rowsOf m t !! id = Some a) as Hsub.
  { intros A m t id a. rewrite rowsOf_delete. case_decide; [by rewrite lookup_empty|done]. }
  unfold removeTenant. destruct (bool_decide _); intros [= <- _] Hn;
    (apply (okStore_sub n); [done|intros *; apply Hsub..| |done]);
    intros t id a [Ht Ha]%Hsub; (split; [done|]); intros Hal; cbn;
    by rewrite rowsOf_delete, decide_False.
Qed.

(** *** Inventory rows *)

Section inventory.
Context (sha256_hex : string → string).
(** SHA-256 is printed in hexadecimal digits. *)
Hypothesis digest_solid : ∀ x, solid_text (sha256_hex x) = true.

Lemma enrolledEndpointID_facts identity :
  let id := enrolledEndpointID sha256_hex identity in
  enrolledID id = true ∧ is_blank id = false ∧ trim_space id = id ∧ id ≠ "".
Proof.
  cbn zeta. split_and!.
  - apply has_prefix_spec. by eexists.
  - apply enrolledID_nonblank.
  - apply trim_solid. unfold enrolledEndpointID. rewrite solid_text_app.
    by apply andb_true_iff; split; [|apply solid_text_substring].
  - intros H. pose proof (enrolledID_nonblank sha256_hex identity) as Hb. by rewrite H in Hb.
Qed.

(** Syncing one device keeps the catalogue well formed. *)
Lemma syncDevice_ok t s out d :
  t ≠ "" → trim_space t = t → okStore s → okStore (syncDevice sha256_hex t (s, out) d).1.
Proof.
  intros Ht Htr Hs. unfold syncDevice. destruct (is_blank (ed_Identity d)) eqn:Hb; [done|].
  cbn [fst]. destruct (syncEnrolledEndpoint s (enrolledEndpoint sha256_hex t d)) as [s' e'] eqn:H.
  cbn [fst]. unfold syncEnrolledEndpoint in H.
  set (e0 := enrolledEndpoint sha256_hex t d) in H.
  assert (∃ a, upsertEndpointLocked s (e0 <| ep_Alias := a |>) = (s', e') ∧
    ∀ b, rowsOf (st_enrolledAliases s) t !! ep_ID e0 = Some b → a = b) as (a & Hup & Ha).
  { change (ep_TenantID e0) with t in H.
    destruct (rowsOf (st_endpoints s) t !! ep_ID e0) as [c|].
    - change (ep_TenantID (e0 <| ep_Alias := ep_Alias c |>)) with t in H.
      change (ep_ID (e0 <| ep_Alias := ep_Alias c |>)) with (ep_ID e0) in H.
      destruct (rowsOf (st_enrolledAliases s) t !! ep_ID e0) as [b|].
      + exists b. split; [exact H|]. by intros ? [= <-].
      + exists (ep_Alias c). split; [exact H|done].
    - change (ep_TenantID e0) with t in H.
      destruct (rowsOf (st_enrolledAliases s) t !! ep_ID e0) as [b|].
      + exists b. split; [exact H|]. by intros ? [= <-].
      + exists (ep_Alias e0). split; [exact H|done]. }
  destruct (enrolledEndpointID_facts (trim_space (ed_Identity d))) as (Hid & Hnb & _ & _).
  assert (ep_ID e' = ep_ID e0) as Hide.
  { destruct (upsertEndpointLocked_row _ _ _ _ Hup) as (n1 & n2 & Has & _).
    apply (assignID_id _ _ _ _ _ Has); [done|by intros x|exact Hnb]. }
  eapply put_endpoint_ok; [exact Hup|done|done|done| | |].
  - intros Hbl. change (is_blank (enrolledEndpointID sha256_hex (trim_space (ed_Identity d))) = true) in Hbl.
    congruence.
  - intros _. symmetry. exact Hid.
  - intros b Hb'. change (a = b). apply Ha. rewrite <- Hide. exact Hb'.
Qed.

Lemma SyncEnrolledEndpoints_ok s tenant devices :
  okStore s → okStore (SyncEnrolledEndpoints sha256_hex s tenant devices).1.
Proof.
  intros Hs. unfold SyncEnrolledEndpoints. destruct (is_blank tenant) eqn:Hb; [done|].
  induction devices as [|d ds IH] using rev_ind; [done|]. rewrite foldl_app. cbn [foldl].
  destruct (foldl _ _ ds) as [s1 out]. apply syncDevice_ok; [|apply trim_space_idemp|done].
  intros Ht. unfold is_blank in Hb. by rewrite Ht in Hb.
Qed.

(** The rename of an enrolled endpoint. *)
Lemma renameEnrolled_ok e n n' saved :
  renameEnrolled sha256_hex e (GetEndpoint n (ep_TenantID e) (ep_ID e)) n = Ok (n', saved) →
  okStore n → okStore n'.
Proof.
  unfold renameEnrolled. destruct (GetEndpoint n _ _) as [c|] eqn:Hget; [|done].
  destruct (isEnrolled c) eqn:Hen; [|done]. cbn [negb orb].
  destruct (String.eqb_spec (ep_ID c) (enrolledEndpointID sha256_hex (ep_Identity c))) as [Hidc|]; [|done].
  cbn [negb]. case_bool_decide as Hsame; [|done]. cbn [negb]. rewrite result_bind_ok.
  intros ([n1 saved'] & Hup & [= <- <-]) Hn.
  assert (rowsOf (st_endpoints n) (ep_TenantID e) !! ep_ID e = Some c) as Hrow.
  { unfold GetEndpoint in Hget. destruct (rowsOf _ _ !! _); [done|].
    apply (ok_builtin n Hn) in Hget. congruence. }
  destruct (ok_endpoint n Hn _ _ _ Hrow) as (Hkey & Henid & Htr).
  apply keyed_elim in Hkey as (Ht & Hid & _ & Hcid).
  destruct (enrolledEndpointID_facts (ep_Identity c)) as (_ & Hnb & Htrid & Hne).
  rewrite <- Hidc, Hcid in Hnb, Htrid. rewrite Hen in Henid.
  unfold upsertEndpoint in Hup. rewrite Htr in Hup.
  assert (e <| ep_TenantID := ep_TenantID e |> = e) as He by (by destruct e). rewrite He in Hup.
  repeat case_match; try done. injection Hup as Hup.
  destruct (upsertEndpointLocked_row _ _ _ _ Hup)
    as (m1 & m2 & Has & Hc & He' & Heps & Hg & Hs & Hal & Hnm & Hb).
  apply assignID_cases in Has as [(-> & Hids & _)|(Hbl & _)]; [|congruence].
  rewrite Hids in *. assert (st_enrolledAliases m2 = st_enrolledAliases n) as Hm2
    by (by injection Hc as <- _).
  split; cbn.
  - rewrite Heps. intros t i x. rewrite rowsOf_put. case_decide as Hk; [|apply (ok_endpoint n Hn)].
    destruct Hk as [-> ->]. intros [= <-]. rewrite He'. cbn. split_and!; [by apply keyed_intro| |done].
    rewrite <- Henid, <- Hen, <- Hsame. done.
  - rewrite Hg. apply (ok_group n Hn).
  - rewrite Hs. apply (ok_service n Hn).
  - intros t i a Ha. assert (∀ x, named_by_operator m2 t i x →
      rowsOf (putRow (ep_TenantID e) (ep_ID e) (ep_Alias saved') (st_enrolledAliases n1)) t !! i = Some x →
      named_by_operator (bumpGeneration (n1 <| st_enrolledAliases :=
        putRow (ep_TenantID e) (ep_ID e) (ep_Alias saved') (st_enrolledAliases n1) |>)) t i x) as Hlift.
    { intros x (_ & Hx & ? & ?) Hl. split_and!; [done|cbn; by rewrite Hal|done..]. }
    pose proof Ha as Hput. rewrite Hnm, rowsOf_put, Hm2 in Ha. case_decide as Hk.
    + destruct Hk as [-> ->]. injection Ha as <-. split_and!; [done..|].
      pose proof (uniqueAlias_trimmed (releaseAliasLocked n (ep_TenantID e) (ep_ID e)) (ep_TenantID e)
        (ep_Alias e) (ep_ID e) Htrid Hid) as [Ht1 Hne1].
      assert (uniqueAliasLocked (releaseAliasLocked n (ep_TenantID e) (ep_ID e)) (ep_TenantID e)
        (ep_Alias e) (ep_ID e) = ep_Alias saved') as Hal' by (by injection Hc). rewrite Hal' in Ht1, Hne1.
      split_and!; [exact Hput| |done..]. cbn. rewrite Hal, (claimed_by _ _ _ _ _ _ _ _ _ Hc).
      by rewrite decide_True.
    + destruct (claim_keeps_name _ _ _ _ _ _ t i a Hn Hc Ha) as (? & ? & Hm); [|by eauto].
      intros -> ->. by destruct Hk.
  - rewrite Hb. apply (ok_builtin n Hn).
Qed.
End inventory.

(** *** The edits of the public operations *)

Definition keeps_ok {T} (apply : Store → result error (Store * T)) : Prop :=
  ∀ n n' t, okStore n → apply n = Ok (n', t) → okStore n'.

Lemma GetEndpoint_row n t id e :
  rowsOf (st_endpoints n) t !! id = Some e → ∀ p, found_and p (GetEndpoint n t id) = false → p e = false.
Proof. intros He p. by rewrite (GetEndpoint_own _ _ _ _ He). Qed.

Lemma editEndpoint_ok sha256_hex e :
  (∀ x, solid_text (sha256_hex x) = true) → keeps_ok (editEndpoint sha256_hex e).
Proof.
  intros Hsha n n' saved Hn. unfold editEndpoint. case_match; [done|]. case_match; [done|].
  destruct (isEnrolled e || has_prefix (ep_ID e) enrolledOwnerPrefix || _) eqn:Hen.
  - intros Hr. by eapply renameEnrolled_ok.
  - apply orb_false_elim in Hen as [[He Hid]%orb_false_elim _]. intros Hup.
    by eapply upsertEndpoint_ok.
Qed.

Lemma removeEndpoint_ok tenant id : keeps_ok (removeEndpoint tenant id).
Proof.
  intros n n' ok Hn. unfold removeEndpoint. case_match; [done|]. case_match; [done|].
  destruct (found_and isEnrolled _) eqn:Hen; [done|]. intros [= Hd].
  assert (n' = (deleteEndpoint n tenant id).1) as -> by (by rewrite Hd).
  apply deleteEndpoint_ok; [done|]. intros e He. by apply (GetEndpoint_row _ _ _ _ He).
Qed.

Lemma writable_not_enrolled c applicationID allowManual :
  ApplicationEndpointWritable c applicationID allowManual = true →
  ep_ID c = "app-" +:+ applicationID ∧ isEnrolled c = false.
Proof.
  unfold ApplicationEndpointWritable, isApplication, isEnrolled. rewrite andb_true_iff, negb_true_iff.
  intros [[_ Hid]%orb_false_elim Hsrc]. split; [by apply String.eqb_eq, negb_false_iff|].
  destruct (String.eqb_spec (ep_Source c) SourceEnrolled) as [Hs|]; [|done]. rewrite Hs in Hsrc.
  by destruct allowManual.
Qed.

Lemma editApplication_ok applicationID e allowManual :
  keeps_ok (editApplicationEndpoint applicationID e allowManual).
Proof.
  intros n n' saved Hn. unfold editApplicationEndpoint. case_match; [done|]. intros Hup.
  by eapply upsertEndpoint_ok.
Qed.

Lemma removeApplication_ok tenant applicationID allowManual :
  keeps_ok (removeApplicationEndpoint tenant applicationID allowManual).
Proof.
  intros n n' ok Hn. unfold removeApplicationEndpoint. case_match eqn:Hf; [done|]. intros [= Hd].
  assert (n' = (deleteEndpoint n tenant ("app-" +:+ applicationID)).1) as -> by (by rewrite Hd).
  apply deleteEndpoint_ok; [done|]. intros e He.
  unfold foreignApplication in Hf. pose proof (GetEndpoint_row _ _ _ _ He _ Hf) as Hw.
  apply negb_false_iff in Hw. by apply writable_not_enrolled in Hw as [_ ?].
Qed.

Lemma renameApplication_ok tenant applicationID alias allowManual :
  keeps_ok (renameApplicationEndpoint tenant applicationID alias allowManual).
Proof.
  intros n n' saved Hn. unfold renameApplicationEndpoint.
  destruct (GetEndpoint n tenant _) as [c|]; [|done].
  destruct (ApplicationEndpointWritable c _ _) eqn:Hw; [|done].
  apply writable_not_enrolled in Hw as [Hid He]. intros Hup.
  eapply upsertEndpoint_ok; [exact Hup|done|exact He|].
  change (enrolledID (ep_ID c) = false). by rewrite Hid.
Qed.

Lemma editCertPin_ok candidateID e : keeps_ok (editCertPinEndpoint candidateID e).
Proof.
  intros n n' saved Hn. unfold editCertPinEndpoint. case_match; [done|]. intros Hup.
  by eapply upsertEndpoint_ok.
Qed.

(** **** Reconciliation *)

Lemma upsertAll_ok {A} (upsert : Store → A → result error (Store * A)) (P : A → Prop) l :
  (∀ n a n' a', okStore n → P a → upsert n a = Ok (n', a') → okStore n') → Forall P l →
  ∀ n n', okStore n → upsertAll upsert n l = Ok n' → okStore n'.
Proof.
  intros Hone Hall. induction Hall as [|a l Ha _ IH]; intros n n' Hn; cbn; [by intros [= <-]|].
  rewrite result_bind_ok. intros ([n1 a'] & Hup & Hl). by eapply IH, Hl; eapply Hone.
Qed.

Lemma drops_ok {A} label (del : Store → string → string → Store * bool)
    (P : string * (string * A) → Prop) rows :
  (∀ n row, okStore n → P row → okStore (del n row.1 row.2.1).1) → Forall P rows →
  ∀ acc, okStore acc.1 → okStore (foldl (dropOne label del) acc rows).1.
Proof.
  intros Hone Hall. induction Hall as [|row rows Hr _ IH]; intros acc Hacc; cbn; [done|].
  apply IH. unfold dropOne. specialize (Hone acc.1 row Hacc Hr).
  by destruct (del acc.1 row.1 row.2.1).
Qed.

(** A reconciliation that carries no inventory rows. *)
Definition authoredOnly (endpoints : list Endpoint) (groups : list Group) (services : list Service)
    : Prop :=
  Forall (fun e => isEnrolled e = false ∧ enrolledID (ep_ID e) = false) endpoints ∧
  Forall (fun g => enrolledID (gr_ID g) = false) groups ∧
  Forall (fun v => enrolledID (sv_ID v) = false) services.

Lemma bumpGeneration_ok n : okStore n → okStore (bumpGeneration n).
Proof. intros Hn. by apply (okStore_rest n). Qed.

Lemma replaceAuthored_ok `{MapOrder} endpoints groups services :
  authoredOnly endpoints groups services → keeps_ok (editReplaceAuthored endpoints groups services).
Proof.
  intros (He & Hg & Hs) n n' removed Hn. unfold editReplaceAuthored, replaceAuthored.
  rewrite result_bind_ok. intros ([n4 removed'] & Hr & [= <- <-]). apply bumpGeneration_ok.
  rewrite result_bind_ok in Hr. destruct Hr as (n1 & H1 & Hr).
  rewrite result_bind_ok in Hr. destruct Hr as (n2 & H2 & Hr).
  rewrite result_bind_ok in Hr. destruct Hr as (n3 & H3 & Hr).
  assert (okStore n1) as Hn1.
  { eapply (upsertAll_ok upsertEndpoint); [|exact He|exact Hn|exact H1].
    intros m a m' a' Hm [? ?] ?. by eapply upsertEndpoint_ok. }
  assert (okStore n2) as Hn2.
  { eapply (upsertAll_ok upsertGroup); [|exact Hg|exact Hn1|exact H2].
    intros m a m' a' Hm ? ?. by eapply upsertGroup_ok. }
  assert (okStore n3) as Hn3.
  { eapply (upsertAll_ok upsertService); [|exact Hs|exact Hn2|exact H3].
    intros m a m' a' Hm ? ?. by eapply upsertService_ok. }
  set (eps := dropped _ isEnrolled _) in Hr.
  assert (Forall (fun row : string * (string * Endpoint) => enrolledID row.2.1 = false) eps) as Heps.
  { apply Forall_forall. intros [t [id e]] Hin. unfold eps, dropped in Hin.
    apply list_elem_of_In, List.filter_In in Hin as [Hin Hk]. cbn in Hk |- *.
    apply list_elem_of_In, elem_of_visit in Hin.
    destruct (ok_endpoint n3 Hn3 _ _ _ Hin) as (_ & <- & _).
    apply negb_true_iff, orb_false_elim in Hk. by destruct Hk. }
  assert (okStore (foldl (dropOne "endpoint:" deleteEndpoint) (n3, []) eps).1) as Hd1.
  { eapply drops_ok; [|exact Heps|exact Hn3]. intros m row Hm Hid. apply deleteEndpoint_ok; [done|].
    intros e Hrow. by destruct (ok_endpoint m Hm _ _ _ Hrow) as (_ & -> & _). }
  set (grs := dropped _ _ (visit (st_groups n3))) in Hr.
  set (svs := dropped _ _ (visit (st_services n3))) in Hr.
  assert (okStore (foldl (dropOne "service:" deleteService)
    (foldl (dropOne "group:" deleteGroup) (foldl (dropOne "endpoint:" deleteEndpoint) (n3, []) eps)
       grs) svs).1) as Hd3.
  { apply (drops_ok (A := Service)) with (P := fun _ => True);
      [intros; by apply deleteService_ok|by apply Forall_true|].
    apply (drops_ok (A := Group)) with (P := fun _ => True);
      [intros; by apply deleteGroup_ok|by apply Forall_true|]. exact Hd1. }
  destruct (foldl (dropOne "service:" deleteService) _ _) as [m rm]. by injection Hr as <- _.
Qed.

(** *** The inventory laid over a candidate *)

(** Aliases are those there were, and those of inventory rows. *)
Definition aliases_from (n c : Store) : Prop :=
  ∀ t a o, rowsOf (st_aliases c) t !! a = Some o →
    rowsOf (st_aliases n) t !! a = Some o ∨ enrolledID o = true ∧ a ≠ "".

Lemma uniqueAlias_nonempty s t desired owner : owner ≠ "" → uniqueAliasLocked s t desired owner ≠ "".
Proof.
  intros Hne. unfold uniqueAliasLocked. set (wanted := valueOrDefault _ owner).
  assert (wanted ≠ "") as Hw.
  { unfold wanted, valueOrDefault. destruct (is_empty _) eqn:E; [done|]. intros Hn. by rewrite Hn in E. }
  destruct (aliasFree _ _ wanted); [done|].
  destruct (suffixSearch_free (rowsOf (st_aliases s) t) owner wanted 2) as (k & -> & _).
  unfold candidate. by destruct wanted.
Qed.

Lemma overlayOne_ok n t id e :
  okStore n → keyed t id (ep_TenantID e) (ep_ID e) = true → trim_space t = t →
  isEnrolled e = true → enrolledID id = true → rowsOf (st_endpoints n) t !! id = None →
  ∃ n', overlayOne (Ok n) (t, (id, e)) = Ok n' ∧ okStore n' ∧ sameAuthored n n' ∧
    aliases_from n n' ∧
    (∀ t' id', (t', id') ≠ (t, id) →
       rowsOf (st_endpoints n') t' !! id' = rowsOf (st_endpoints n) t' !! id').
Proof.
  intros Hn Hk Htr Hen Hid Hnone. unfold overlayOne. cbn [result_bind].
  rewrite Hnone, bool_decide_false by (by intros [? ?]).
  set (desired := default (ep_Alias e) (rowsOf (st_enrolledAliases n) t !! id)).
  destruct (claimAliasLocked n t desired id) as [n1 alias] eqn:Hc.
  pose proof (claimAlias_same _ _ _ _ _ _ Hc) as (He1 & Hg1 & Hs1).
  assert (st_enrolledAliases n1 = st_enrolledAliases n ∧ st_seq n1 = st_seq n ∧
    st_generation n1 = st_generation n ∧ st_builtInEndpoints n1 = st_builtInEndpoints n)
    as (Hnm1 & Hq1 & Hgn1 & Hb1) by (by injection Hc as <- _).
  eexists. split; [done|]. split_and!.
  - split; cbn.
    + intros t' id' x. rewrite He1, rowsOf_put. case_decide as Hd; [|apply (ok_endpoint n Hn)].
      destruct Hd as [-> ->]. intros [= <-]. split_and!; [exact Hk| |done].
      change (isEnrolled e = enrolledID id). congruence.
    + rewrite Hg1. apply (ok_group n Hn).
    + rewrite Hs1. apply (ok_service n Hn).
    + intros t' id' a. rewrite Hnm1. intros Ha.
      destruct (claim_keeps_name _ _ _ _ _ _ t' id' a Hn Hc Ha) as (? & ? & Hm); [|by split_and!].
      intros -> ->. unfold desired. by rewrite Ha.
    + rewrite Hb1. apply (ok_builtin n Hn).
  - split; cbn; try done. intros t' id' x Hx. rewrite He1, rowsOf_put. case_decide as Hd; [|done].
    destruct Hd as [-> ->]. split; [|congruence]. intros [= <-]. unfold isEnrolled in *. cbn in Hx. congruence.
  - intros t' a o. cbn. rewrite (claimed_by _ _ _ _ _ _ _ _ _ Hc). case_decide as Hd; [|by left].
    destruct Hd as [-> ->]. intros ->. right. split; [done|].
    replace alias with (claimAliasLocked n t desired id).2 by (by rewrite Hc).
    apply uniqueAlias_nonempty. by apply keyed_elim in Hk as (_ & ? & _).
  - intros t' id' Hne. cbn. rewrite He1, rowsOf_put, decide_False; [done|]. by intros [-> ->].
Qed.

Lemma sameAuthored_refl n : sameAuthored n n.
Proof. by split. Qed.

Lemma sameAuthored_trans n m c : sameAuthored n m → sameAuthored m c → sameAuthored n c.
Proof.
  intros [H1 ? ? ? ?] [H2 ? ? ? ?]. split; try congruence. intros t id e He.
  by rewrite (H2 _ _ _ He), (H1 _ _ _ He).
Qed.

Lemma overlay_ok rows : ∀ n,
  okStore n → NoDup (place <$> rows) →
  (∀ t id e, (t, (id, e)) ∈ rows →
     keyed t id (ep_TenantID e) (ep_ID e) = true ∧ trim_space t = t ∧ isEnrolled e = true ∧
     enrolledID id = true ∧ rowsOf (st_endpoints n) t !! id = None) →
  ∃ c, foldl overlayOne (Ok n) rows = Ok c ∧ okStore c ∧ sameAuthored n c ∧ aliases_from n c.
Proof.
  induction rows as [|[t [id e]] rows IH]; intros n Hn Hnd Hrows.
  { exists n. split_and!; [done|done|apply sameAuthored_refl|by left]. }
  rewrite fmap_cons in Hnd. apply NoDup_cons in Hnd as [Hnew Hnd].
  destruct (Hrows t id e) as (Hk & Htr & Hen & Hid & Hnone); [by left|].
  destruct (overlayOne_ok n t id e Hn Hk Htr Hen Hid Hnone) as (n1 & H1 & Hn1 & Hsame & Hal & Hother).
  cbn [foldl]. rewrite H1. destruct (IH n1 Hn1 Hnd) as (c & Hc & Hok & Hs & Hal').
  { intros t' id' e' Hin. destruct (Hrows t' id' e') as (? & ? & ? & ? & Hnone'); [by right|].
    split_and!; [done..|]. rewrite Hother; [done|]. intros Heq. apply Hnew.
    apply list_elem_of_fmap. exists (t', (id', e')). split; [|done]. unfold place. cbn. congruence. }
  exists c. split_and!; [done|done|by eapply sameAuthored_trans|].
  intros t' a o [Ha|?]%Hal'; [by apply Hal|by right].
Qed.

(** ** Snapshots that every control plane can read *)

Section shared.
Context `{MapOrder}.

Lemma enrolledRows_nodup s : NoDup (place <$> enrolledRows s).
Proof.
  unfold enrolledRows. assert (∀ l : list (string * (string * Endpoint)),
    NoDup (place <$> l) → NoDup (place <$> List.filter (fun row => isEnrolled row.2.2) l)) as Hf.
  { induction l as [|x l IH]; [done|]. rewrite fmap_cons. intros [Hx Hl]%NoDup_cons. cbn.
    destruct (isEnrolled x.2.2); [|by apply IH]. rewrite fmap_cons. apply NoDup_cons. split; [|by apply IH].
    intros (y & Hy & Hin)%list_elem_of_fmap. apply Hx. apply list_elem_of_fmap. exists y.
    split; [done|]. apply list_elem_of_In, List.filter_In in Hin as [Hin _]. by apply list_elem_of_In. }
  apply Hf, NoDup_visit.
Qed.

Lemma elem_of_enrolledRows s t id e :
  (t, (id, e)) ∈ enrolledRows s ↔ rowsOf (st_endpoints s) t !! id = Some e ∧ isEnrolled e = true.
Proof.
  unfold enrolledRows. rewrite list_elem_of_In, List.filter_In, <- list_elem_of_In, elem_of_visit.
  done.
Qed.

(** The inventory of a process fits on every candidate without inventory rows. *)
Lemma inventory_overlay s n :
  okStore s → okStore n →
  (∀ t id e, rowsOf (st_endpoints n) t !! id = Some e → isEnrolled e = false) →
  ∃ c, foldl overlayOne (Ok n) (enrolledRows s) = Ok c ∧ okStore c ∧ sameAuthored n c ∧
    aliases_from n c.
Proof.
  intros Hs Hn Hauth. apply overlay_ok; [done|apply enrolledRows_nodup|].
  intros t id e [Hrow Hen]%elem_of_enrolledRows.
  destruct (ok_endpoint s Hs _ _ _ Hrow) as (Hk & Hid & Htr). rewrite Hen in Hid.
  split_and!; [done..|]. apply eq_None_not_Some. intros [x Hx].
  destruct (ok_endpoint n Hn _ _ _ Hx) as (_ & Hx' & _). rewrite (Hauth _ _ _ Hx) in Hx'. congruence.
Qed.

(** The generation of a candidate apart. *)
Lemma moved_ok (moved : bool) c : okStore c → okStore (if moved then bumpGeneration c else c).
Proof. destruct moved; [apply bumpGeneration_ok|done]. Qed.

Lemma moved_same (moved : bool) m c :
  sameAuthored m c → sameAuthored m (if moved then bumpGeneration c else c).
Proof. intros [? ? ? ? ?]. by destruct moved. Qed.

Lemma written_candidate s n :
  okStore s → okStore n → 0 ≤ st_seq n →
  ∃ c, sharedCandidateLocked s (Some (marshal (authoredStateLocked n))) = Ok c ∧ okStore c ∧
    sameAuthored n c ∧ aliases_from n c.
Proof.
  intros Hs Hn Hseq. destruct (stored_back s n Hs Hn Hseq) as (c0 & H0 & Hc0 & Hsame0 & Hauth & Hal0).
  destruct (inventory_overlay s c0 Hs Hc0 Hauth) as (c1 & H1 & Hc1 & Hsame1 & Hal1).
  unfold sharedCandidateLocked. rewrite H0. cbn [result_bind]. rewrite H1. cbn [result_bind].
  eexists. split; [reflexivity|].
  split_and!; [by apply moved_ok|apply moved_same; by eapply sameAuthored_trans|].
  intros t a o Ha. destruct (Hal1 t a o) as [?|?]; [by destruct (_ && _)|left; by apply Hal0|by right].
Qed.

(** What is stored is something a well-formed catalogue wrote. *)
Definition disk_ok (stored : option raw) : Prop :=
  stored = None ∨ ∃ n, okStore n ∧ stored = Some (marshal (authoredStateLocked n)).

Lemma sharedCandidate_ok s stored c :
  okStore s → disk_ok stored → sharedCandidateLocked s stored = Ok c → okStore c.
Proof.
  intros Hs [->|(n & Hn & ->)] Hc.
  - unfold sharedCandidateLocked, storedCandidate in Hc. destruct (noTenants _); [|done].
    cbn [result_bind] in Hc. set (n0 := _ <| st_builtInServices := _ |>) in Hc.
    assert (okStore n0) as Hn0.
    { split; intros *; cbn; rewrite ?rowsOf_empty, ?lookup_empty; try done. apply (ok_builtin s Hs). }
    destruct (inventory_overlay s n0 Hs Hn0) as (c1 & H1 & Hc1 & _ & _).
    { intros *. cbn. by rewrite rowsOf_empty, lookup_empty. }
    rewrite H1 in Hc. cbn [result_bind] in Hc.
    injection Hc as <-. by apply moved_ok.
  - destruct (Z.ltb_spec (st_seq n) 0) as [Hneg|Hpos].
    + exfalso. unfold sharedCandidateLocked, storedCandidate, marshal in Hc.
      cbn -[acceptRows bool_decide] in Hc. rewrite (proj2 (Z.ltb_lt _ _) Hneg) in Hc. done.
    + destruct (written_candidate s n Hs Hn Hpos) as (c' & Hc' & Hok & _ & _). congruence.
Qed.

Lemma mutateCatalog_ok {T} b s stored w (apply : Store → result error (Store * T)) :
  keeps_ok apply → okStore s → disk_ok stored →
  let '(s', stored', _) := mutateCatalog b s stored w apply in okStore s' ∧ disk_ok stored'.
Proof.
  intros Hkeep Hs Hd.
  assert (∀ n, okStore n → disk_ok (diskAfter w stored (marshal (authoredStateLocked n)))) as Hafter.
  { intros n Hn. destruct w as [| |[]|]; cbn; try done; right; by exists n. }
  unfold mutateCatalog. destruct b.
  - destruct (apply s) as [[n t]|e] eqn:E; [|done]. assert (okStore n) by (by eapply Hkeep).
    destruct (_ =? _); done.
  - destruct (apply s) as [[n t]|e] eqn:E; [|done]. assert (okStore n) by (by eapply Hkeep).
    destruct (_ =? _); [done|]. destruct w; (split; [done|by apply Hafter]).
  - destruct (sharedCandidateLocked s stored) as [c|] eqn:Hc; [|by destruct w].
    assert (okStore c) by (by eapply sharedCandidate_ok).
    destruct (apply c) as [[n t]|e] eqn:E; [|by destruct w].
    assert (okStore n) by (by eapply Hkeep).
    destruct w; try done; (split; [done|by apply Hafter]).
Qed.

Lemma loadLocked_ok s stored s' :
  okStore s → disk_ok stored → loadLocked s stored = Ok s' →
  st_enrolledAliases s = ∅ → okStore s'.
Proof.
  intros Hs [->|(n & Hn & ->)]; [by intros [= <-]|]. intros Hl Hnm. unfold loadLocked, marshal in Hl.
  cbn -[bool_decide loadServices] in Hl. injection Hl as <-.
  set (names := default _ _). assert (names = st_enrolledAliases n) as ->.
  { unfold names. case_bool_decide as Hm; [|done]. injection Hm as Hm. rewrite Hm. exact Hnm. }
  split; cbn -[loadServices].
  - intros t id e [He _]%rowsOf_keepRows. by apply (ok_endpoint n Hn).
  - apply (ok_group n Hn).
  - intros t id v. change ((λ rows : gmap string Service, loadServiceTransports <$> rows) <$>
      st_services n) with (loadServices (st_services n)).
    rewrite loadServices_id by (intros; by eapply (ok_service n Hn)). apply (ok_service n Hn).
  - intros t id a Ha. destruct (ok_name n Hn _ _ _ Ha) as (Ht & Hp & Hnamed).
    pose proof (authoredAlias_named _ _ _ _ Hnamed) as Hk. destruct Hnamed as (_ & Hal & Htr & Hne).
    split_and!; [done..|]. split_and!; [done| |done..]. cbn. by apply rowsOf_keepRows.
  - apply (ok_builtin s Hs).
Qed.
End shared.

(** ** Several control planes over one snapshot *)

Inductive op :=
  | OpUpsertEndpoint (e : Endpoint)
  | OpUpsertGroup (g : Group)
  | OpUpsertService (v : Service)
  | OpDeleteEndpoint (tenant id : string)
  | OpDeleteGroup (tenant id : string)
  | OpDeleteService (tenant id : string)
  | OpApplication (applicationID : string) (e : Endpoint) (allowManual : bool)
  | OpRemoveApplication (tenant applicationID : string) (allowManual : bool)
  | OpRenameApplication (tenant applicationID alias : string) (allowManual : bool)
  | OpCertPin (candidateID : string) (e : Endpoint)
  | OpReplace (endpoints : list Endpoint) (groups : list Group) (services : list Service)
  | OpRemoveTenant (tenant : string).

(** No group or service under an inventory identifier, and no inventory row from outside. *)
Definition admissible (o : op) : Prop :=
  match o with
  | OpUpsertGroup g => enrolledID (gr_ID g) = false
  | OpUpsertService v => enrolledID (sv_ID v) = false
  | OpReplace endpoints groups services => authoredOnly endpoints groups services
  | _ => True
  end.

Section fleet.
Context `{MapOrder} (sha256_hex : string → string).

Definition applyOp (b : backing) (s : Store) (stored : option raw) (w : write_outcome) (o : op)
    : Store * option raw :=
  match o with
  | OpUpsertEndpoint e => (UpsertEndpointContext sha256_hex b s stored w e).1
  | OpUpsertGroup g => (UpsertGroupContext b s stored w g).1
  | OpUpsertService v => (UpsertServiceContext b s stored w v).1
  | OpDeleteEndpoint tenant id => (DeleteEndpointContext b s stored w tenant id).1
  | OpDeleteGroup tenant id => (DeleteGroupContext b s stored w tenant id).1
  | OpDeleteService tenant id => (DeleteServiceContext b s stored w tenant id).1
  | OpApplication app e m => (UpsertApplicationEndpointContext b s stored w app e m).1
  | OpRemoveApplication tenant app m => (DeleteApplicationEndpointContext b s stored w tenant app m).1
  | OpRenameApplication tenant app alias m =>
      (RenameApplicationEndpointContext b s stored w tenant app alias m).1
  | OpCertPin c e => (UpsertCertPinEndpointContext b s stored w c e).1
  | OpReplace eps grs svs => (ReplaceAuthored b s stored w eps grs svs).1
  | OpRemoveTenant tenant => (RemoveTenantContext b s stored w tenant).1
  end.

Record fleet := mkFleet { fl_stores : list Store; fl_disk : option raw }.

(** One control plane edits, syncs its inventory, refreshes, installs built-ins or
    restarts, with any answer of the persister. *)
Inductive step : fleet → fleet → Prop :=
  | step_edit f i s b w o s' disk :
      fl_stores f !! i = Some s → admissible o → applyOp b s (fl_disk f) w o = (s', disk) →
      step f (mkFleet (<[i := s']> (fl_stores f)) disk)
  | step_sync f i s tenant devices :
      fl_stores f !! i = Some s →
      step f (mkFleet (<[i := (SyncEnrolledEndpoints sha256_hex s tenant devices).1]> (fl_stores f))
                (fl_disk f))
  | step_refresh f i s b s' :
      fl_stores f !! i = Some s → RefreshShared b s (Ok (fl_disk f)) = Ok s' →
      step f (mkFleet (<[i := s']> (fl_stores f)) (fl_disk f))
  | step_builtins f i s services endpoints groups :
      fl_stores f !! i = Some s → Forall (fun e => isEnrolled e = false) endpoints →
      step f (mkFleet (<[i := SetBuiltInCatalog (SetBuiltInServices s services) endpoints groups]>
                         (fl_stores f)) (fl_disk f))
  | step_restart f i s b s' :
      fl_stores f !! i = Some s → SetPersister b NewStore (Ok (fl_disk f)) = Ok s' →
      step f (mkFleet (<[i := s']> (fl_stores f)) (fl_disk f)).

Definition fleet_ok (f : fleet) : Prop := Forall okStore (fl_stores f) ∧ disk_ok (fl_disk f).

Hypothesis digest_solid : ∀ x, solid_text (sha256_hex x) = true.

Lemma mutate_ok {T} b s stored w (apply : Store → result error (Store * T)) :
  keeps_ok apply → okStore s → disk_ok stored →
  okStore (mutateCatalog b s stored w apply).1.1 ∧ disk_ok (mutateCatalog b s stored w apply).1.2.
Proof.
  intros Hk Hs Hd. pose proof (mutateCatalog_ok b s stored w apply Hk Hs Hd) as Hm.
  by destruct (mutateCatalog _ _ _ _ _) as [[? ?] ?].
Qed.

Lemma applyOp_ok b s stored w o :
  admissible o → okStore s → disk_ok stored →
  okStore (applyOp b s stored w o).1 ∧ disk_ok (applyOp b s stored w o).2.
Proof.
  intros Ho Hs Hd. destruct o; cbn [applyOp].
  - apply mutate_ok; [by apply editEndpoint_ok|done..].
  - apply mutate_ok; [|done..]. intros n n' t Hn Hup. by eapply upsertGroup_ok.
  - apply mutate_ok; [|done..]. intros n n' t Hn Hup. by eapply upsertService_ok.
  - apply mutate_ok; [apply removeEndpoint_ok|done..].
  - apply mutate_ok; [|done..]. intros n n' t Hn [= Hdel]. pose proof (deleteGroup_ok n tenant id Hn) as Hg.
    by rewrite Hdel in Hg.
  - apply mutate_ok; [|done..]. intros n n' t Hn [= Hdel]. pose proof (deleteService_ok n tenant id Hn) as Hg.
    by rewrite Hdel in Hg.
  - unfold UpsertApplicationEndpointContext. case_match; [done|].
    apply mutate_ok; [apply editApplication_ok|done..].
  - unfold DeleteApplicationEndpointContext. case_match; [done|].
    apply mutate_ok; [apply removeApplication_ok|done..].
  - apply mutate_ok; [apply renameApplication_ok|done..].
  - unfold UpsertCertPinEndpointContext. case_match; [done|].
    apply mutate_ok; [apply editCertPin_ok|done..].
  - apply mutate_ok; [by apply replaceAuthored_ok|done..].
  - apply mutate_ok; [|done..]. intros n n' t Hn Hrm. by eapply removeTenant_ok.
Qed.

Lemma SetPersister_ok b stored s' :
  disk_ok stored → SetPersister b NewStore (Ok stored) = Ok s' → okStore s'.
Proof.
  intros Hd. destruct b; cbn [SetPersister].
  - intros [= <-]. apply okStore_new.
  - cbn [result_bind]. intros Hl. eapply loadLocked_ok; [apply okStore_new|exact Hd|exact Hl|done].
  - intros Hc. by eapply sharedCandidate_ok; [apply okStore_new|..].
Qed.

Lemma builtins_ok s services endpoints groups :
  okStore s → Forall (fun e => isEnrolled e = false) endpoints →
  okStore (SetBuiltInCatalog (SetBuiltInServices s services) endpoints groups).
Proof.
  intros Hs Hall. split; try apply Hs. intros id e.
  unfold SetBuiltInCatalog. cbn -[set_keys].
  assert (∀ (l : list Endpoint) (m : gmap string Endpoint), Forall (fun e => isEnrolled e = false) l →
    map_Forall (fun _ e => isEnrolled e = false) m →
    map_Forall (fun _ e => isEnrolled e = false)
      (set_keys m (List.map (fun e => (ep_ID e, e <| ep_BuiltIn := true |>)) l))) as Hset.
  { induction l as [|x l IH]; intros m Hl Hm; [done|]. inversion Hl; subst. cbn. apply IH; [done|].
    by apply map_Forall_insert_2. }
  intros Hl. by apply (Hset endpoints ∅ Hall (map_Forall_empty _) id).
Qed.

Lemma step_ok f f' : fleet_ok f → step f f' → fleet_ok f'.
Proof.
  intros [Hs Hd] Hstep.
  assert (∀ i s, fl_stores f !! i = Some s → okStore s) as Hget.
  { intros i s Hi. rewrite Forall_forall in Hs. by eapply Hs, list_elem_of_lookup_2. }
  assert (∀ i s', okStore s' → Forall okStore (<[i:=s']> (fl_stores f))) as Hput
    by (intros; by apply Forall_insert).
  destruct Hstep as [f i s b w o s' disk Hi Ho Ha|f i s t ds Hi|f i s b s' Hi Hr
    |f i s v e g Hi Hall|f i s b s' Hi Hr].
  - pose proof (applyOp_ok b s (fl_disk f) w o Ho (Hget i s Hi) Hd) as [H1 H2].
    rewrite Ha in H1, H2. by split; [apply Hput|].
  - split; [|done]. apply Hput. by apply SyncEnrolledEndpoints_ok, (Hget i s).
  - split; [|done]. apply Hput. specialize (Hget i s Hi). unfold RefreshShared, SetPersister in Hr.
    destruct b; [by injection Hr as <-..|]. by eapply sharedCandidate_ok.
  - split; [|done]. apply Hput. by apply builtins_ok, Hall; apply (Hget i s).
  - split; [|done]. apply Hput. by eapply SetPersister_ok.
Qed.

Lemma steps_ok f f' : fleet_ok f → rtc step f f' → fleet_ok f'.
Proof. intros Hf. induction 1 as [|f f1 f2 Hs _ IH]; [done|]. by eapply IH, step_ok. Qed.

Lemma fleet_start n : fleet_ok (mkFleet (replicate n NewStore) None).
Proof. split; [apply Forall_replicate, okStore_new|by left]. Qed.
End fleet.

(** The fleet is never locked out of its own catalogue: over
    every history of control planes sharing one snapshot - edits by every owner with
    failed, unconfirmed and half-reached writes, inventory syncs, refreshes, restarts - what
    is stored is read by every control plane, with its own inventory laid over it, as
    exactly the authored endpoints, groups, services and operator names that were written,
    while the sequence has not wrapped; and no inventory row is ever stored. *)
Theorem catalogue_stays_readable `{MapOrder} sha256_hex n f s stored :
  (∀ x, solid_text (sha256_hex x) = true) →
  rtc (step sha256_hex) (mkFleet (replicate n NewStore) None) f →
  s ∈ fl_stores f → fl_disk f = Some stored →
  ∃ p, stored = CatalogFile p ∧
    (∀ t id e, rowsOf (default ∅ (pc_Endpoints p)) t !! id = Some e → isEnrolled e = false) ∧
    (0 ≤ pc_Seq p → ∃ c, sharedCandidateLocked s (Some stored) = Ok c ∧
       (∀ t id e, isEnrolled e = false →
          rowsOf (st_endpoints c) t !! id = Some e ↔
          rowsOf (default ∅ (pc_Endpoints p)) t !! id = Some e) ∧
       pc_Groups p = Some (st_groups c) ∧ pc_Services p = Some (st_services c) ∧
       default ∅ (pc_EnrolledAliases p) = st_enrolledAliases c).
Proof.
  intros Hsha Hrun Hs Hdisk. apply (steps_ok sha256_hex Hsha) in Hrun as [Hall Hd]; [|apply fleet_start].
  rewrite Forall_forall in Hall. specialize (Hall s Hs).
  destruct Hd as [Hd|(m & Hm & Hd)]; [congruence|]. rewrite Hdisk in Hd. injection Hd as ->.
  eexists. split_and!; [reflexivity| |].
  - intros t id e [_ Hk]%rowsOf_keepRows. by destruct (isEnrolled e).
  - cbn -[bool_decide]. intros Hseq.
    destruct (written_candidate s m Hall Hm Hseq) as (c & Hc & _ & Hsame & _).
    exists c. split_and!; [exact Hc| | | |].
    + intros t id e He. rewrite rowsOf_keepRows, (same_endpoint _ _ Hsame _ _ _ He), He. naive_solver.
    + by rewrite (same_groups _ _ Hsame).
    + by rewrite (same_services _ _ Hsame).
    + rewrite (same_names _ _ Hsame). case_bool_decide as Hb; [|done]. by injection Hb as ->.
Qed.

(** ** Erasure *)

Lemma rowCount_zero {A} (m : nested A) tenant :
  (∀ id, rowsOf m tenant !! id = None) → rowCount (Some m) tenant = 0.
Proof.
  intros Hm. unfold rowCount. cbn. assert (rowsOf m tenant = ∅) as -> by (by apply map_empty).
  by rewrite map_size_empty.
Qed.

(** Erasing a tenant erases it for the fleet: once the removal is
    confirmed, every control plane that reads the shared snapshot counts no record of the
    tenant, whatever inventory it holds itself; and the entries of the other tenants are
    those the stored catalogue had. *)
Theorem erasure_complete `{MapOrder} s stored tenant s' stored' count reader :
  okStore s → disk_ok stored →
  RemoveTenantContext Updating s stored Written tenant = (s', stored', Ok count) →
  0 ≤ st_seq s' → okStore reader →
  CountTenantRecords Updating reader (Ok stored') tenant = Ok 0 ∧
  ∃ n, sharedCandidateLocked s stored = Ok n ∧
    ∀ t, t ≠ tenant → rowsOf (st_endpoints s') t = rowsOf (st_endpoints n) t ∧
      rowsOf (st_groups s') t = rowsOf (st_groups n) t ∧
      rowsOf (st_services s') t = rowsOf (st_services n) t.
Proof.
  intros Hs Hd Hrm Hseq Hreader. unfold RemoveTenantContext, mutateCatalog in Hrm.
  destruct (sharedCandidateLocked s stored) as [n|] eqn:Hn; [|done].
  apply sharedCandidate_ok in Hn as Hnok; [|done..].
  destruct (removeTenant tenant n) as [[m c]|] eqn:Hm; [|done].
  injection Hrm as -> <- <-. assert (okStore s') as Hok by (by eapply removeTenant_ok).
  assert (∀ {A} (m : nested A) t, rowsOf (delete tenant m) t = if decide (t = tenant) then ∅ else rowsOf m t)
    as Hdel by (intros; apply rowsOf_delete).
  assert (st_endpoints s' = delete tenant (st_endpoints n) ∧ st_groups s' = delete tenant (st_groups n) ∧
    st_services s' = delete tenant (st_services n) ∧ st_aliases s' = delete tenant (st_aliases n) ∧
    st_enrolledAliases s' = delete tenant (st_enrolledAliases n)) as (He & Hg & Hv & Ha & Hnm).
  { unfold removeTenant in Hm. injection Hm as <- _. by case_match. }
  split.
  - destruct (written_candidate reader s' Hreader Hok Hseq) as (k & Hk & _ & Hsame & Hal).
    unfold CountTenantRecords, RefreshShared, SetPersister. cbn [diskAfter]. rewrite Hk. cbn [result_bind].
    f_equal. unfold countTenantCatalogRecords, authoredStateLocked.
    cbn [pc_Endpoints pc_Groups pc_Services pc_Aliases pc_EnrolledAliases].
    assert (∀ id, rowsOf (st_enrolledAliases k) tenant !! id = None) as Hnames.
    { intros id. by rewrite (same_names _ _ Hsame), Hnm, Hdel, decide_True, lookup_empty. }
    rewrite !rowCount_zero; [done|done|..].
    + intros alias. apply eq_None_not_Some. intros [o [Ho Hkeep]%rowsOf_keepRows].
      apply Hal in Ho as [Ho|[Ho Hne]].
      { rewrite Ha, Hdel, decide_True, lookup_empty in Ho; done. }
      unfold authoredAlias in Hkeep. unfold enrolledID in Ho. rewrite Ho, Hnames in Hkeep. cbn in Hkeep.
      by destruct alias.
    + intros id. by rewrite (same_services _ _ Hsame), Hv, Hdel, decide_True, lookup_empty.
    + intros id. by rewrite (same_groups _ _ Hsame), Hg, Hdel, decide_True, lookup_empty.
    + intros id. apply eq_None_not_Some. intros [e [Hrow Hkeep]%rowsOf_keepRows].
      apply negb_true_iff in Hkeep. apply (same_endpoint _ _ Hsame _ _ _ Hkeep) in Hrow.
      by rewrite He, Hdel, decide_True, lookup_empty in Hrow.
  - exists n. split; [done|]. intros t Ht. rewrite He, Hg, Hv, !Hdel, !decide_False by done. done.
Qed.

(** ** Ownership *)

Definition protected (e : Endpoint) : bool :=
  certPinEndpoint e || isApplication e || isEnrolled e.

(** Every protected row keeps everything but the name of an inventory row. *)
Definition spares_protected (n n' : Store) : Prop :=
  ∀ t id e, rowsOf (st_endpoints n) t !! id = Some e → protected e = true →
    rowsOf (st_endpoints n') t !! id = Some e ∨
    isEnrolled e = true ∧ ∃ a, rowsOf (st_endpoints n') t !! id = Some (e <| ep_Alias := a |>).

(** Protected rows are under the identifiers of their owners. *)
Definition owned_ids (n : Store) : Prop :=
  ∀ t id e, rowsOf (st_endpoints n) t !! id = Some e → protected e = true →
    has_prefix id "app-" = true ∨ has_prefix id certPinEndpointPrefix = true ∨ enrolledID id = true.

Lemma spares_refl n : spares_protected n n.
Proof. intros t id e He _. by left. Qed.

(** The row an upsert writes, and nothing else. *)
Lemma upsertEndpoint_row n e n' e' :
  upsertEndpoint n e = Ok (n', e') →
  (is_blank (ep_ID e) = false → ep_ID e' = ep_ID e) ∧
  (is_blank (ep_ID e) = true → ∃ seq, ep_ID e' = "ep-" +:+ itoa seq) ∧
  e' = e <| ep_TenantID := trim_space (ep_TenantID e) |> <| ep_ID := ep_ID e' |>
         <| ep_Alias := ep_Alias e' |> ∧
  st_endpoints n' = putRow (trim_space (ep_TenantID e)) (ep_ID e') e' (st_endpoints n).
Proof.
  unfold upsertEndpoint. set (e1 := e <| ep_TenantID := trim_space (ep_TenantID e) |>).
  repeat (case_match; [done|]). intros [= Hup].
  destruct (upsertEndpointLocked_row _ _ _ _ Hup) as (n1 & n2 & Ha & _ & He' & Heps & _).
  change (ep_ID e1) with (ep_ID e) in Ha. split_and!; [| |exact He'|exact Heps].
  - intros Hb. apply assignID_cases in Ha as [(_ & ? & _)|(? & _)]; [done|congruence].
  - intros Hb. apply assignID_cases in Ha as [(_ & _ & ?)|(_ & seq & _ & ->)]; [congruence|].
    by exists seq.
Qed.

(** A write to a row that is not protected. *)
Lemma upsert_spares n e n' e' :
  upsertEndpoint n e = Ok (n', e') → owned_ids n →
  (∀ x, rowsOf (st_endpoints n) (trim_space (ep_TenantID e)) !! ep_ID e = Some x → protected x = false) →
  spares_protected n n'.
Proof.
  intros Hup Hown Hfree t id x Hx Hp. left.
  destruct (upsertEndpoint_row _ _ _ _ Hup) as (Hid & Hfresh & _ & ->).
  rewrite rowsOf_put. case_decide as Hd; [|done]. destruct Hd as [-> ->]. exfalso.
  destruct (is_blank (ep_ID e)) eqn:Hb.
  - destruct (Hfresh eq_refl) as [seq Hseq]. rewrite Hseq in Hx.
    destruct (Hown _ _ _ Hx Hp) as [Ho|[Ho|Ho]]; done.
  - rewrite (Hid eq_refl) in Hx. rewrite Hfree in Hp; done.
Qed.

Lemma deleteEndpoint_spares n tenant id :
  (∀ e, rowsOf (st_endpoints n) tenant !! id = Some e → protected e = false) →
  spares_protected n (deleteEndpoint n tenant id).1.
Proof.
  intros Hfree t i e He Hp. left. unfold deleteEndpoint. case_bool_decide; [done|].
  case_bool_decide; [|done]. cbn. rewrite rowsOf_deleteRow. case_decide as Hd; [|done].
  destruct Hd as [-> ->]. rewrite Hfree in Hp; done.
Qed.

(** The generic edits of endpoints, groups and services. *)
Inductive generic_edit (sha256_hex : string → string) (n : Store) : Store → Prop :=
  | generic_endpoint e n' e' :
      trim_space (ep_TenantID e) = ep_TenantID e → editEndpoint sha256_hex e n = Ok (n', e') →
      generic_edit sha256_hex n n'
  | generic_delete tenant id n' ok :
      removeEndpoint tenant id n = Ok (n', ok) → generic_edit sha256_hex n n'
  | generic_group g n' g' : upsertGroup n g = Ok (n', g') → generic_edit sha256_hex n n'
  | generic_service v n' v' : upsertService n v = Ok (n', v') → generic_edit sha256_hex n n'
  | generic_delete_group tenant id : generic_edit sha256_hex n (deleteGroup n tenant id).1
  | generic_delete_service tenant id : generic_edit sha256_hex n (deleteService n tenant id).1.

Lemma not_protected n t id e :
  rowsOf (st_endpoints n) t !! id = Some e →
  found_and certPinEndpoint (GetEndpoint n t id) = false →
  found_and isApplication (GetEndpoint n t id) = false →
  found_and isEnrolled (GetEndpoint n t id) = false → protected e = false.
Proof.
  intros He. rewrite (GetEndpoint_own _ _ _ _ He). cbn. unfold protected. by intros -> -> ->.
Qed.

Lemma renameEnrolled_spares sha256_hex e n n' saved :
  trim_space (ep_TenantID e) = ep_TenantID e → owned_ids n →
  (∀ id x, st_builtInEndpoints n !! id = Some x → isEnrolled x = false) →
  renameEnrolled sha256_hex e (GetEndpoint n (ep_TenantID e) (ep_ID e)) n = Ok (n', saved) →
  spares_protected n n'.
Proof.
  intros Htr Hown Hbi. unfold renameEnrolled. destruct (GetEndpoint n _ _) as [c|] eqn:Hget; [|done].
  destruct (isEnrolled c) eqn:Hen; [|done]. cbn [negb orb].
  destruct (String.eqb_spec (ep_ID c) (enrolledEndpointID sha256_hex (ep_Identity c))) as [Hidc|]; [|done].
  cbn [negb]. case_bool_decide as Hsame; [|done]. cbn [negb]. rewrite result_bind_ok.
  intros ([n1 saved'] & Hup & [= <- <-]).
  assert (rowsOf (st_endpoints n) (ep_TenantID e) !! ep_ID e = Some c) as Hrow.
  { unfold GetEndpoint in Hget. destruct (rowsOf _ _ !! _); [done|].
    apply Hbi in Hget. congruence. }
  destruct (upsertEndpoint_row _ _ _ _ Hup) as (Hid & _ & He' & Heps).
  assert (is_blank (ep_ID e) = false) as Hb.
  { assert (ep_ID e = ep_ID c) as -> by (by rewrite <- Hsame). rewrite Hidc. apply enrolledID_nonblank. }
  rewrite Htr, (Hid Hb) in *. intros t id x Hx Hp. cbn. rewrite Heps, rowsOf_put.
  case_decide as Hd; [|by left]. destruct Hd as [-> ->]. right. split; [congruence|].
  exists (ep_Alias saved'). assert (x = c) as -> by congruence. rewrite He' at 1. rewrite <- Hsame at 1.
  by destruct e.
Qed.

Lemma generic_spares sha256_hex n n' :
  owned_ids n → (∀ id x, st_builtInEndpoints n !! id = Some x → isEnrolled x = false) →
  generic_edit sha256_hex n n' → spares_protected n n'.
Proof.
  intros Hown Hbi Hedit. destruct Hedit as [e n' e' Htr H|tenant id n' ok H|g n' g' H|v n' v' H|t id|t id].
  - unfold editEndpoint in H. destruct (certPinEndpoint e || _) eqn:H1; [done|].
    destruct (isApplication e || _) eqn:H2; [done|].
    destruct (isEnrolled e || has_prefix (ep_ID e) enrolledOwnerPrefix || _) eqn:H3.
    { by eapply renameEnrolled_spares. }
    apply (upsert_spares _ _ _ _ H Hown). rewrite Htr. intros x Hx.
    eapply not_protected; [exact Hx|bool_facts; done..].
  - unfold removeEndpoint in H. destruct (found_and _ _) eqn:H1 in H; [done|].
    destruct (found_and isApplication _) eqn:H2; [done|].
    destruct (found_and isEnrolled _) eqn:H3; [done|]. injection H as Hd.
    assert (n' = (deleteEndpoint n tenant id).1) as -> by (by rewrite Hd).
    apply deleteEndpoint_spares. intros x Hx. eapply not_protected; [exact Hx| |done..].
    rewrite (GetEndpoint_own _ _ _ _ Hx) in H1 |- *. cbn in H1 |- *. by bool_facts.
  - intros t id e He _. left. revert H. unfold upsertGroup. case_match; [done|].
    destruct (assignID _ _ _) as [n1 i] eqn:Ha. destruct (claimAliasLocked _ _ _ _) as [n2 a] eqn:Hc.
    intros [= <- _]. cbn. apply assignID_same in Ha as (Hep & _). apply claimAlias_same in Hc as (Hep2 & _).
    by rewrite Hep2, Hep.
  - intros t id e He _. left. revert H. unfold upsertService. case_match; [done|].
    rewrite result_bind_ok. intros (v1 & _ & Hup). revert Hup.
    destruct (assignID _ _ _) as [n1 i] eqn:Ha. destruct (claimAliasLocked _ _ _ _) as [n2 a] eqn:Hc.
    intros [= <- _]. cbn. apply assignID_same in Ha as (Hep & _). apply claimAlias_same in Hc as (Hep2 & _).
    by rewrite Hep2, Hep.
  - intros t' id' e He _. left. unfold deleteGroup. repeat case_bool_decide; done.
  - intros t' id' e He _. left. unfold deleteService. repeat case_bool_decide; done.
Qed.

(** The generic operations cannot take over or remove a destination
    another workflow manages: for requests with a trimmed tenant, whatever endpoint, group
    or service an administrator writes or deletes, every cert-pin, application and enrolled
    endpoint of every tenant is still there unchanged, except that an enrolled one may have
    been renamed. *)
Theorem ownership_kept sha256_hex n n' :
  owned_ids n → (∀ id x, st_builtInEndpoints n !! id = Some x → isEnrolled x = false) →
  generic_edit sha256_hex n n' → spares_protected n n'.
Proof. apply generic_spares. Qed.

(** ** Concrete runs *)

#[local] Instance listOrder : MapOrder := { iterate A l := l; iterate_perm A l := reflexivity l }.

Definition flatDigest (_ : string) : string := "0123456789abcdef0123456789abcdef".
Definition laptopID : string := "enrolled-0123456789abcdef0123".

(** The first of two control planes has a device in its inventory and adds an endpoint. *)
Definition fleet0 : fleet := mkFleet (replicate 2 NewStore) None.
Definition synced : Store := (SyncEnrolledEndpoints flatDigest NewStore "t1" exampleDevices).1.
Definition addGit : Store * option raw :=
  applyOp flatDigest Updating synced None Written (OpUpsertEndpoint (gitServer <| ep_ID := "git-1" |>)).

Definition fleet2 : fleet := mkFleet [addGit.1; NewStore] addGit.2.

Lemma fleet2_run : rtc (step flatDigest) fleet0 fleet2.
Proof.
  eapply rtc_l; [apply (step_sync flatDigest fleet0 0 NewStore "t1" exampleDevices); reflexivity|].
  eapply rtc_l; [|apply rtc_refl].
  apply (step_edit flatDigest (mkFleet [synced; NewStore] None) 0 synced Updating Written
    (OpUpsertEndpoint (gitServer <| ep_ID := "git-1" |>))); [reflexivity|exact I|].
  apply surjective_pairing.
Qed.

Lemma catalogue_stays_readable_witness :
  rtc (step flatDigest) fleet0 fleet2 ∧ NewStore ∈ fl_stores fleet2 ∧
  ∃ p, fl_disk fleet2 = Some (CatalogFile p) ∧
    ∀ t id e, rowsOf (default ∅ (pc_Endpoints p)) t !! id = Some e → isEnrolled e = false.
Proof.
  assert (NewStore ∈ fl_stores fleet2) as Hin by (right; left).
  assert (∃ stored, fl_disk fleet2 = Some stored) as [stored Hd].
  { assert (match fl_disk fleet2 with Some _ => true | None => false end = true) as Hd
      by (vm_compute; reflexivity). destruct (fl_disk fleet2) as [stored|]; [by exists stored|done]. }
  split_and!; [exact fleet2_run|exact Hin|].
  destruct (catalogue_stays_readable flatDigest 2 fleet2 NewStore stored ltac:(intros x; vm_compute; reflexivity)
    fleet2_run Hin Hd) as (p & -> & H & _).
  exists p. split; [exact Hd|exact H].
Defined.

(** The second control plane reads the endpoint, not the device of the first. *)
Example second_reads :
  match sharedCandidateLocked NewStore (fl_disk fleet2) with
  | Ok c => (ep_Address <$> GetEndpoint c "t1" "git-1", GetEndpoint c "t1" laptopID)
  | Err _ => (None, None)
  end = (Some "git.example", None).
Proof. vm_compute. reflexivity. Qed.

Lemma fleet2_ok : fleet_ok fleet2.
Proof. by apply (steps_ok flatDigest (fun _ => eq_refl) fleet0); [apply fleet_start|apply fleet2_run]. Qed.

Lemma addGit_ok : okStore addGit.1 ∧ disk_ok addGit.2.
Proof. destruct fleet2_ok as [Hs Hd]. by apply Forall_cons in Hs as [Hs _]. Qed.

Definition erased : Store * option raw * result error Z :=
  RemoveTenantContext Updating addGit.1 addGit.2 Written "t1".

Lemma erasure_complete_witness :
  erased.2 = Ok 2 ∧ 0 ≤ st_seq erased.1.1 ∧
  CountTenantRecords Updating synced (Ok erased.1.2) "t1" = Ok 0.
Proof.
  assert (erased.2 = Ok 2) as Hc by (vm_compute; reflexivity).
  assert (0 ≤ st_seq erased.1.1) as Hseq by (vm_compute; discriminate).
  split_and!; [exact Hc|exact Hseq|].
  assert (RemoveTenantContext Updating addGit.1 addGit.2 Written "t1" = (erased.1.1, erased.1.2, Ok 2)) as Hrun.
  { rewrite <- Hc. change (erased = (erased.1.1, erased.1.2, erased.2)). by destruct erased as [[? ?] ?]. }
  apply (erasure_complete addGit.1 addGit.2 "t1" erased.1.1 erased.1.2 2 synced
    (proj1 addGit_ok) (proj2 addGit_ok) Hrun Hseq).
  apply (SyncEnrolledEndpoints_ok flatDigest); [intros x; vm_compute; reflexivity|apply okStore_new].
Defined.

(** A catalogue with a published application. *)
Definition crm : Endpoint := endpoint "" "crm" KindNetwork "" "crm.example".
Definition withApp : Store := after (editApplicationEndpoint "crm" crm false NewStore).

Lemma withApp_owned : owned_ids withApp.
Proof.
  intros t id e He Hp.
  assert (acceptRows (fun _ i x => negb (protected x) || has_prefix i "app-") (st_endpoints withApp) = true) as Hall
    by (vm_compute; reflexivity).
  apply acceptRows_spec with (t := t) (id := id) (a := e) in Hall; [|exact He].
  rewrite Hp in Hall. left. exact Hall.
Qed.

Lemma ownership_kept_witness :
  owned_ids withApp ∧
  ∀ t id e, rowsOf (st_endpoints withApp) t !! id = Some e → protected e = true →
    rowsOf (st_endpoints (after (editEndpoint flatDigest gitServer withApp))) t !! id = Some e ∨
    isEnrolled e = true.
Proof.
  split; [exact withApp_owned|]. intros t id e He Hp.
  assert (editEndpoint flatDigest gitServer withApp =
    Ok (after (editEndpoint flatDigest gitServer withApp), gitServer)) as Hed by (vm_compute; reflexivity).
  assert (st_builtInEndpoints withApp = ∅) as Hb by (vm_compute; reflexivity).
  destruct (ownership_kept flatDigest withApp (after (editEndpoint flatDigest gitServer withApp)) withApp_owned
    ltac:(intros i x; rewrite Hb, lookup_empty; discriminate)
    (generic_endpoint _ _ gitServer _ _ ltac:(vm_compute; reflexivity) Hed) t id e He Hp) as [H|[H _]];
    [left; exact H|right; exact H].
Defined.

(** What the protection answers, and how a padded tenant gets around it: the ownership is
    looked up under the tenant as sent, the row is written under the trimmed one. *)
Example takeover_refused :
  editEndpoint flatDigest (gitServer <| ep_ID := "app-crm" |>) withApp
  = Err ErrApplicationEndpointOwnership.
Proof. vm_compute. reflexivity. Qed.

Example padded_tenant_takes_over :
  let s := (UpsertEndpointContext flatDigest Memory withApp None Written
              (gitServer <| ep_ID := "app-crm" |> <| ep_TenantID := " t1 " |>)).1.1 in
  (ep_Source <$> GetEndpoint withApp "t1" "app-crm",
   ep_Address <$> GetEndpoint s "t1" "app-crm", ep_Source <$> GetEndpoint s "t1" "app-crm")
  = (Some SourceApplication, Some "git.example", Some SourceManual).
Proof. vm_compute. reflexivity. Qed.

(** A group under the identifier of a device that an operator has named takes the name from
    the device: the group is saved, and no control plane can read the snapshot again. *)
Definition named : Store * option raw :=
  let device := default crm (GetEndpoint synced "t1" laptopID) in
  (UpsertEndpointContext flatDigest Updating synced None Written
     (device <| ep_Alias := "kiosk" |>)).1.

Example device_identifier_locks_the_catalogue :
  let r := UpsertGroupContext Updating named.1 named.2 Written
             (mkGroup laptopID "t1" "servers" false [] None false "") in
  (if r.2 is Ok g then gr_ID g else "") = laptopID ∧
  sharedCandidateLocked NewStore r.1.2 = Err ErrPersistence ∧
  sharedCandidateLocked r.1.1 r.1.2 = Err ErrPersistence.
Proof. vm_compute. split_and!; reflexivity. Qed.

End CatalogFleet.
