(* ===== verification/CatalogReconcile.v ===== *)
(** * Reconciliation with a control plane ([src/assetcatalog/distribution.go])

    What an Edge holds after [ReplaceAuthored]: the three kinds of entry behind one
    interface with its laws, the two passes of a reconciliation over it, and the whole. *)

From Stdlib Require Import Ascii.
From stdpp Require Import base gmap sets fin_map_dom list strings sorting.
From S2P Require Import Prelude GoStd Tables GoNet Persistence Model Common RuleCompile RuleLateral.
From S2P Require Import AssetCatalog CatalogStore CatalogFleet.
Import RuleCompile AssetCatalog CatalogStore CatalogFleet.

Open Scope Z_scope.

Module CatalogReconcile.

(** ** Reconciliation

    What the three kinds of entry have in common, as far as a reconciliation sees it. *)

(** The alias an entry is to be known by, and the forms it takes when that is held. *)
Definition wanted (desired id : string) : string := valueOrDefault (normalizeAlias desired) id.
Definition numberedFrom (w alias : string) : Prop := alias = w ∨ ∃ k : nat, alias = candidate w (2 + Z.of_nat k).

(** What entries ask for: tenant, identifier and alias. *)
Definition claims := list (string * string * string).

(** The aliases are those of [n], or went to the entries that asked for them. *)
Definition fromClaims (n : Store) (cs : claims) (n' : Store) : Prop :=
  ∀ t x o, rowsOf (st_aliases n') t !! x = Some o →
    rowsOf (st_aliases n) t !! x = Some o ∨ ∃ w, (t, o, w) ∈ cs ∧ numberedFrom w x.

(** Neither an entry of [n] nor another of those that ask for one can have the alias. *)
Definition undisputed (n : Store) (cs : claims) (t id w : string) : Prop :=
  (∀ o, rowsOf (st_aliases n) t !! w = Some o → o = id) ∧
  (∀ o w', (t, o, w') ∈ cs → o ≠ id → ¬ numberedFrom w' w).

(** The alias an entry gets: the one it asks for, numbered only where that is disputed. *)
Definition aliasFor (n : Store) (cs : claims) (t id w alias : string) : Prop :=
  numberedFrom w alias ∧ (undisputed n cs t id w → alias = w).

Lemma aliasFor_mono n cs cs' t id w alias : cs ⊆ cs' → aliasFor n cs t id w alias → aliasFor n cs' t id w alias.
Proof.
  intros Hsub [Hn Hu]. split; [done|]. intros [H1 H2]. apply Hu. split; [done|]. intros o w' Ho. apply H2. by apply Hsub.
Qed.

(** A claim takes the alias that is asked for or a numbered one, and that only where it has to. *)
Lemma claim_alias n0 cs n t desired id n' alias (w := wanted desired id) :
  fromClaims n0 cs n → claimAliasLocked n t desired id = (n', alias) →
  fromClaims n0 (cs ++ [(t, id, w)]) n' ∧ aliasFor n0 cs t id w alias.
Proof.
  intros Hfrom. unfold claimAliasLocked. set (n1 := releaseAliasLocked n t id). intros [= <- <-].
  assert (∀ t' x o, rowsOf (st_aliases n1) t' !! x = Some o → rowsOf (st_aliases n) t' !! x = Some o) as Hrel.
  { intros t' x o. by intros [? _]%released_aliases. }
  set (alias := uniqueAliasLocked n1 t desired id).
  assert (numberedFrom w alias ∧ (aliasFree (rowsOf (st_aliases n1) t) id w = true → alias = w)) as [Hn Hown].
  { unfold alias, uniqueAliasLocked. fold (wanted desired id). fold w. destruct (aliasFree _ _ w) eqn:Hf; [by split; [left|]|].
    destruct (suffixSearch_free (rowsOf (st_aliases n1) t) id w 2) as (k & -> & _). split; [right; by exists k|done]. }
  split; [|split; [done|]].
  - intros t' x o. cbn. rewrite rowsOf_put. case_decide as Hx.
    + destruct Hx as [-> ->]. intros [= <-]. right. exists w. split; [|done]. apply elem_of_app. right. by left.
    + intros [?|(w' & ? & ?)]%Hrel%Hfrom; [by left|]. right. exists w'. split; [|done]. apply elem_of_app. by left.
  - intros [H1 H2]. apply Hown, aliasFree_spec. intros o [Ho|(w' & Ho & Hw)]%Hrel%Hfrom; [by apply H1|].
    destruct (decide (o = id)) as [|Hne]; [done|]. by destruct (H2 _ _ Ho Hne).
Qed.

Class EntryKind (A : Type) := {
  entries : Store → nested A;
  frame : Type;
  others : Store → frame;
  upsertEntry : Store → A → result error (Store * A);
  deleteEntry : Store → string → string → Store * bool;
  entryTenant : A → string;
  entryID : A → string;
  entryAlias : A → string;
  renamed : string → A → A;
  distributable : A → Prop;
  fixedID : Store → string → Prop;
}.

Class EntryLaws (A : Type) `{EntryKind A} : Prop := {
  renamed_key alias (a : A) :
    entryTenant (renamed alias a) = entryTenant a ∧ entryID (renamed alias a) = entryID a;
  upsert_entry n (a : A) :
    distributable a → ∃ n1 n' alias, upsertEntry n a = Ok (n', renamed alias a) ∧
      claimAliasLocked n (entryTenant a) (entryAlias a) (entryID a) = (n1, alias) ∧ st_aliases n' = st_aliases n1 ∧
      entries n' = putRow (entryTenant a) (entryID a) (renamed alias a) (entries n) ∧
      others n' = others n ∧ ∀ id, fixedID n' id ↔ fixedID n id;
  delete_entry n tenant id :
    ¬ fixedID n id →
    (∀ t i, rowsOf (entries (A := A) (deleteEntry n tenant id).1) t !! i =
       if decide (t = tenant ∧ i = id) then None else rowsOf (entries n) t !! i) ∧
    others (A := A) (deleteEntry n tenant id).1 = others n ∧
    ∀ i, fixedID (A := A) (deleteEntry n tenant id).1 i ↔ fixedID n i;
}.

Definition entryKey {A} `{EntryKind A} (a : A) : string * string := (entryTenant a, entryID a).
Definition claimOf {A} `{EntryKind A} (a : A) : string * string * string :=
  (entryTenant a, entryID a, wanted (entryAlias a) (entryID a)).

(** The entry is held as it was sent, under the alias it gets. *)
Definition sentTo {A} `{EntryKind A} (n : Store) (cs : claims) (n' : Store) (a : A) : Prop :=
  ∃ alias, rowsOf (entries n') (entryTenant a) !! entryID a = Some (renamed alias a) ∧
    aliasFor n cs (entryTenant a) (entryID a) (wanted (entryAlias a) (entryID a)) alias.

Section reconcile.
Context {A : Type} `{EntryLaws A} `{MapOrder}.
Implicit Types (a : A) (l : list A).

(** The incoming entries are put under their keys, the rest is as it was. *)
Lemma upsertAll_rows n0 l : ∀ n cs,
  Forall distributable l → NoDup (entryKey <$> l) → fromClaims n0 cs n →
  ∃ n', upsertAll upsertEntry n l = Ok n' ∧ others (A := A) n' = others n ∧
    (∀ id, fixedID (A := A) n' id ↔ fixedID n id) ∧ fromClaims n0 (cs ++ (claimOf <$> l)) n' ∧
    (∀ a, a ∈ l → sentTo n0 (cs ++ (claimOf <$> l)) n' a) ∧
    (∀ t id, (t, id) ∉ entryKey <$> l →
       rowsOf (entries n') t !! id = rowsOf (entries n) t !! id).
Proof.
  induction l as [|a l IH]; intros n cs Hall Hnd Hcs; cbn [upsertAll].
  { exists n. cbn. rewrite app_nil_r. split_and!; [done..| |done]. by intros a ?%elem_of_nil. }
  apply Forall_cons in Hall as [Ha Hall]. rewrite fmap_cons in Hnd. apply NoDup_cons in Hnd as [Hnew Hnd].
  destruct (upsert_entry n a Ha) as (n0' & n1 & alias & Hup & Hc & Hal & He & Ho & Hf). rewrite Hup. cbn [result_bind].
  destruct (claim_alias _ _ _ _ _ _ _ _ Hcs Hc) as [Hcs1 Hfor].
  assert (fromClaims n0 (cs ++ [claimOf a]) n1) as Hcs2 by (unfold fromClaims; by rewrite Hal).
  destruct (IH n1 (cs ++ [claimOf a]) Hall Hnd Hcs2) as (n' & Hl & Ho' & Hf' & Hcs' & Hin & Hout).
  rewrite <- app_assoc in Hcs', Hin. cbn [app] in Hcs', Hin.
  exists n'. split_and!; [done|congruence|by intros id; rewrite Hf', Hf|done| |].
  - intros b [->|Hb]%elem_of_cons; [|by apply Hin]. exists alias. split.
    + rewrite (Hout (entryTenant a) (entryID a) Hnew). by rewrite He, rowsOf_put, decide_True.
    + eapply aliasFor_mono, Hfor. intros c Hx. apply elem_of_app. by left.
  - intros t id Hk. rewrite fmap_cons, not_elem_of_cons in Hk. destruct Hk as [Hk1 Hk2].
    rewrite Hout by done. rewrite He, rowsOf_put, decide_False; [done|]. intros [-> ->]. by apply Hk1.
Qed.

(** The listed rows are gone, the rest is as it was. *)
Lemma drops_rows label (rows : list (string * (string * A))) : ∀ acc,
  (∀ row, row ∈ rows → ¬ fixedID (A := A) acc.1 row.2.1) →
  let n' := (foldl (dropOne label deleteEntry) acc rows).1 in
  others (A := A) n' = others acc.1 ∧ (∀ id, fixedID (A := A) n' id ↔ fixedID acc.1 id) ∧
  ∀ t id, rowsOf (entries n') t !! id =
    if decide ((t, id) ∈ place <$> rows) then None else rowsOf (entries acc.1) t !! id.
Proof.
  induction rows as [|row rows IH]; intros acc Hfix; cbn [foldl].
  { split_and!; [done..|]. intros t id. rewrite decide_False; [done|]. by intros ?%elem_of_nil. }
  assert ((dropOne label deleteEntry acc row).1 = (deleteEntry acc.1 row.1 row.2.1).1) as Hone.
  { unfold dropOne. by destruct (deleteEntry acc.1 row.1 row.2.1). }
  destruct (delete_entry acc.1 row.1 row.2.1 (Hfix row ltac:(left))) as (Hrow & Ho & Hf).
  destruct (IH (dropOne label deleteEntry acc row)) as (Ho' & Hf' & Hrows).
  { intros r Hr. rewrite Hone, Hf. apply Hfix. by right. }
  rewrite Hone in Ho', Hf', Hrows. split_and!; [congruence|by intros id; rewrite Hf', Hf|].
  intros t id. rewrite Hrows, Hrow, fmap_cons.
  destruct (decide ((t, id) ∈ place <$> rows)) as [Hi|Hi]; [by rewrite decide_True by by right|].
  destruct (decide (t = row.1 ∧ id = row.2.1)) as [[-> ->]|Hne]; [by rewrite decide_True by left|].
  rewrite decide_False; [done|]. intros [Heq|?]%elem_of_cons; [|done]. apply Hne.
  unfold place in Heq. by injection Heq.
Qed.

(** Both passes together, for a text key that tells the keys apart. *)
Lemma reconciled l (spared : A → bool) label n0 cs n n1 removed kept :
  (∀ a, a ∈ l → sentTo n0 cs n1 a) →
  (∀ t id, (t, id) ∉ entryKey <$> l → rowsOf (entries n1) t !! id = rowsOf (entries n) t !! id) →
  (∀ t id a, rowsOf (entries n1) t !! id = Some a → spared a = false → (t, id) ∉ entryKey <$> l →
     ¬ fixedID (A := A) n1 id) →
  kept = List.map (fun a => rowKey (entryTenant a) (entryID a)) l →
  (∀ t id a, rowsOf (entries n1) t !! id = Some a →
     ∀ b, b ∈ l → rowKey t id = rowKey (entryTenant b) (entryID b) → (t, id) = entryKey b) →
  let n' := (foldl (dropOne label deleteEntry) (n1, removed) (dropped kept spared (visit (entries n1)))).1 in
  others (A := A) n' = others n1 ∧
  (∀ a, a ∈ l → sentTo n0 cs n' a) ∧
  (∀ t id, (t, id) ∉ entryKey <$> l →
     rowsOf (entries n') t !! id =
     match rowsOf (entries n) t !! id with Some a => if spared a then Some a else None | None => None end).
Proof.
  intros Hin Hout Hfix -> Hkeys.
  set (kept := List.map _ l). set (rows := dropped kept spared (visit (entries n1))).
  assert (∀ t id a, (t, (id, a)) ∈ rows ↔ rowsOf (entries n1) t !! id = Some a ∧ spared a = false ∧
    (t, id) ∉ entryKey <$> l) as Hrows.
  { intros t id a. unfold rows, dropped. rewrite list_elem_of_In, List.filter_In, <- list_elem_of_In.
    rewrite elem_of_visit. cbn [fst snd]. rewrite negb_true_iff, orb_false_iff.
    assert (rowsOf (entries n1) t !! id = Some a →
      (containsString kept (rowKey t id) = false ↔ (t, id) ∉ entryKey <$> l)) as Hk.
    { intros Ha. rewrite <- not_true_iff_false, containsString_spec. apply not_iff_compat.
      unfold kept. rewrite !list_elem_of_fmap. split.
      - intros (b & Hb & Hl). exists b. split; [by eapply Hkeys|done].
      - intros (b & [= -> ->] & Hl). by exists b. }
    naive_solver. }
  destruct (drops_rows label rows (n1, removed)) as (Ho & _ & Hn').
  { intros [t [id a]] (Ha & Hs & Hno)%Hrows. cbn. by eapply Hfix. }
  cbn zeta. split_and!; [exact Ho| |].
  - intros a Ha. destruct (Hin a Ha) as (alias & Hrow & Hfor). exists alias. split; [|exact Hfor]. rewrite Hn'.
    rewrite decide_False; [exact Hrow|]. intros (r & Hr & Hrr)%list_elem_of_fmap.
    destruct r as [t [id b]]. unfold place in Hr. cbn in Hr. injection Hr as <- <-.
    apply Hrows in Hrr as (_ & _ & Hno). apply Hno. apply list_elem_of_fmap. by exists a.
  - intros t id Hno. rewrite Hn', <- Hout by done. cbn [fst].
    destruct (rowsOf (entries n1) t !! id) as [a|] eqn:Ha; [|by case_decide].
    destruct (spared a) eqn:Hs.
    + rewrite decide_False; [done|]. intros ([t' [id' b]] & [= <- <-] & Hr)%list_elem_of_fmap.
      apply Hrows in Hr as (Hb & Hsb & _). congruence.
    + rewrite decide_True; [done|]. apply list_elem_of_fmap. exists (t, (id, a)). split; [done|].
      by apply Hrows.
Qed.
End reconcile.

(** *** The three kinds *)

Definition canonicalKey (tenant id : string) : Prop :=
  tenant ≠ "" ∧ trim_space tenant = tenant ∧ is_blank id = false.

#[export] Instance Endpoint_kind : EntryKind Endpoint := {
  entries := st_endpoints;
  others s := (st_groups s, st_services s, st_builtInGroups s);
  upsertEntry := upsertEndpoint;
  deleteEntry := deleteEndpoint;
  entryTenant := ep_TenantID;
  entryID := ep_ID;
  entryAlias := ep_Alias;
  renamed alias e := e <| ep_Alias := alias |>;
  distributable e := canonicalKey (ep_TenantID e) (ep_ID e) ∧
    containsString [KindSteeredDevice; KindNetwork] (ep_Kind e) = true;
  fixedID s id := is_Some (st_builtInEndpoints s !! id);
}.

#[export] Instance Group_kind : EntryKind Group := {
  entries := st_groups;
  others s := (st_endpoints s, st_services s, st_builtInEndpoints s);
  upsertEntry := upsertGroup;
  deleteEntry := deleteGroup;
  entryTenant := gr_TenantID;
  entryID := gr_ID;
  entryAlias := gr_Alias;
  renamed alias g := g <| gr_Alias := alias |>;
  distributable g := canonicalKey (gr_TenantID g) (gr_ID g);
  fixedID s id := is_Some (st_builtInGroups s !! id);
}.

#[export] Instance Service_kind : EntryKind Service := {
  entries := st_services;
  others s := (st_endpoints s, st_groups s, st_builtInEndpoints s, st_builtInGroups s);
  upsertEntry := upsertService;
  deleteEntry := deleteService;
  entryTenant := sv_TenantID;
  entryID := sv_ID;
  entryAlias := sv_Alias;
  renamed alias v := v <| sv_Alias := alias |>;
  distributable v := canonicalKey (sv_TenantID v) (sv_ID v) ∧ normalizeServiceTransports v = Ok v;
  fixedID s id := False;
}.

(** A delete that is let through removes the row, whether or not it was there. *)
Lemma deleteRow_absent {A} (m : nested A) tenant id t i :
  rowsOf m tenant !! id = None →
  rowsOf m t !! i = if decide (t = tenant ∧ i = id) then None else rowsOf m t !! i.
Proof. intros Hm. by case_decide as Hd; [destruct Hd as [-> ->]|]. Qed.

Lemma canonicalKey_assign n prefix tenant id desired :
  canonicalKey tenant id →
  trim_space tenant = tenant ∧ is_empty tenant = false ∧ assignID n prefix id = (n, id) ∧
  ∃ n' alias, claimAliasLocked n tenant desired id = (n', alias) ∧
    st_endpoints n' = st_endpoints n ∧ st_groups n' = st_groups n ∧ st_services n' = st_services n ∧
    st_builtInEndpoints n' = st_builtInEndpoints n ∧ st_builtInGroups n' = st_builtInGroups n.
Proof.
  intros (Ht & Htr & Hid). split_and!; [done| | |do 2 eexists; split; [reflexivity|done]].
  - destruct (is_empty tenant) eqn:E; [|done]. by apply is_empty_true in E.
  - unfold assignID. by rewrite Hid.
Qed.

(** An alias to ask for does not matter for what is reconciled. *)
#[export] Instance Endpoint_laws : EntryLaws Endpoint.
Proof.
  split.
  - done.
  - intros n e [Hkey Hk].
    destruct (canonicalKey_assign n "ep" _ _ (ep_Alias e) Hkey) as (Htr & Hne & Ha & n1 & alias & Hc & He & Hg & Hs & Hb & Hbg).
    assert (e <| ep_TenantID := ep_TenantID e |> = e ∧ e <| ep_ID := ep_ID e |> = e) as [He1 He2]
      by (by destruct e).
    change (upsertEntry n e) with (upsertEndpoint n e). unfold upsertEndpoint. rewrite Htr, He1, Hne, Hk.
    unfold upsertEndpointLocked. cbn [negb]. rewrite Ha, He2, Hc. do 3 eexists. split; [reflexivity|]. split; [exact Hc|].
    by case_match; cbn -[putRow]; rewrite ?He, ?Hg, ?Hs, ?Hbg, ?Hb.
  - intros n t id Hf. change (¬ is_Some (st_builtInEndpoints n !! id)) in Hf.
    change (deleteEntry n t id) with (deleteEndpoint n t id). unfold deleteEndpoint.
    rewrite bool_decide_false by done. case_bool_decide as Hrow; cbn [fst].
    + split_and!; [|done..]. intros t' i. apply (rowsOf_deleteRow t id (st_endpoints n)).
    + split_and!; [|done..]. intros t' i. by apply deleteRow_absent, eq_None_not_Some.
Qed.

#[export] Instance Group_laws : EntryLaws Group.
Proof.
  split.
  - done.
  - intros n g Hkey.
    destruct (canonicalKey_assign n "grp" _ _ (gr_Alias g) Hkey) as (Htr & Hne & Ha & n1 & alias & Hc & He & Hg & Hs & Hb & Hbg).
    assert (g <| gr_TenantID := gr_TenantID g |> = g ∧ g <| gr_ID := gr_ID g |> = g) as [He1 He2]
      by (by destruct g).
    change (upsertEntry n g) with (upsertGroup n g). unfold upsertGroup. rewrite Htr, He1, Hne, Ha, He2, Hc.
    do 3 eexists. split; [reflexivity|]. split; [exact Hc|].
    cbn -[putRow]. by rewrite He, Hg, Hs, Hbg, Hb.
  - intros n t id Hf. change (¬ is_Some (st_builtInGroups n !! id)) in Hf.
    change (deleteEntry n t id) with (deleteGroup n t id). unfold deleteGroup.
    rewrite bool_decide_false by done. case_bool_decide as Hrow; cbn [fst].
    + split_and!; [|done..]. intros t' i. apply (rowsOf_deleteRow t id (st_groups n)).
    + split_and!; [|done..]. intros t' i. by apply deleteRow_absent, eq_None_not_Some.
Qed.

#[export] Instance Service_laws : EntryLaws Service.
Proof.
  split.
  - done.
  - intros n v [Hkey Hv].
    destruct (canonicalKey_assign n "svc" _ _ (sv_Alias v) Hkey) as (Htr & Hne & Ha & n1 & alias & Hc & He & Hg & Hs & Hb & Hbg).
    assert (v <| sv_TenantID := sv_TenantID v |> = v ∧ v <| sv_ID := sv_ID v |> = v) as [He1 He2]
      by (by destruct v).
    change (upsertEntry n v) with (upsertService n v). unfold upsertService. rewrite Htr, He1, Hne, Hv.
    cbn [result_bind]. rewrite Ha, He2, Hc. do 3 eexists. split; [reflexivity|]. split; [exact Hc|].
    cbn -[putRow]. by rewrite He, Hg, Hs, Hb, Hbg.
  - intros n t id _. change (deleteEntry n t id) with (deleteService n t id). unfold deleteService.
    case_bool_decide as Hrow; cbn [fst].
    + split_and!; [|done..]. intros t' i. apply (rowsOf_deleteRow t id (st_services n)).
    + split_and!; [|done..]. intros t' i. by apply deleteRow_absent, eq_None_not_Some.
Qed.

(** *** Keys as texts *)

Fixpoint no_nul (s : string) : bool :=
  match s with EmptyString => true | String c s' => negb (Ascii.eqb c Ascii.zero) && no_nul s' end.

Lemma rowKey_inj t id t' id' :
  no_nul t = true → no_nul t' = true → rowKey t id = rowKey t' id' → t = t' ∧ id = id'.
Proof.
  revert t'. induction t as [|c t IH]; intros [|c' t'] Ht Ht' Heq; cbn in *.
  - by injection Heq.
  - injection Heq as Hc _. by rewrite <- Hc in Ht'.
  - injection Heq as Hc _. by rewrite Hc in Ht.
  - injection Heq as -> Heq. bool_facts. destruct (IH t') as [-> ->]; done.
Qed.

(** *** A whole reconciliation *)

(** The catalogue holds the incoming entries, and of its own only what is spared. *)
Definition reconciled_to {A} `{EntryKind A} (n : Store) (cs : claims) (n' : Store) (spared : A → bool) (l : list A) : Prop :=
  (∀ a, a ∈ l → sentTo n cs n' a) ∧
  (∀ t id, (t, id) ∉ entryKey <$> l →
     rowsOf (entries n') t !! id =
     match rowsOf (entries n) t !! id with Some a => if spared a then Some a else None | None => None end).

(** Incoming entries with keys of their own; texts of keys that can be told apart; and no
    row of the catalogue that a built-in shields from deletion. *)
Record reconcilable {A} `{EntryKind A} (n : Store) (spared : A → bool) (l : list A) : Prop := {
  rc_entries : Forall distributable l;
  rc_keys : NoDup (entryKey <$> l);
  rc_text a : a ∈ l → no_nul (entryTenant a) = true;
  rc_rows t id a : rowsOf (entries n) t !! id = Some a →
    no_nul t = true ∧ (spared a = false → ¬ fixedID (A := A) n id);
}.

Lemma reconcile_kind {A} `{EntryLaws A} `{MapOrder} n0 cs (n n1 m : Store) spared label l removed :
  reconcilable n spared l → fromClaims n0 cs n →
  upsertAll upsertEntry n l = Ok n1 → entries m = entries n1 →
  (∀ id, fixedID (A := A) m id ↔ fixedID (A := A) n id) →
  let n' := (foldl (dropOne label deleteEntry) (m, removed)
    (dropped (List.map (fun a => rowKey (entryTenant a) (entryID a)) l) spared
       (visit (entries (A := A) m)))).1 in
  others (A := A) n' = others (A := A) m ∧
  (∀ a, a ∈ l → sentTo n0 (cs ++ (claimOf <$> l)) n' a) ∧
  (∀ t id, (t, id) ∉ entryKey <$> l →
     rowsOf (entries n') t !! id =
     match rowsOf (entries n) t !! id with Some a => if spared a then Some a else None | None => None end).
Proof.
  intros [Hd Hnd Htext Hrows] Hcs Hup He Hf.
  destruct (upsertAll_rows n0 l n cs Hd Hnd Hcs) as (n1' & Hup' & _ & _ & _ & Hin & Hout).
  rewrite Hup in Hup'. injection Hup' as <-.
  apply (reconciled l spared label n0 _ n m removed _); [unfold sentTo; by rewrite He|by rewrite He| |done|].
  - intros t id a Ha Hs Hno. rewrite He, Hout in Ha by done. rewrite Hf. by eapply Hrows.
  - intros t id a Ha b Hb Hk. rewrite He in Ha. apply rowKey_inj in Hk as [-> ->]; [done| |by apply Htext].
    destruct (decide ((t, id) ∈ entryKey <$> l)) as [(c & [= -> _] & Hc)%list_elem_of_fmap|Hno];
      [by apply Htext|]. rewrite Hout in Ha by done. by eapply Hrows.
Qed.

Lemma sentTo_kept {A} `{EntryKind A} n cs cs' m m' (a : A) :
  cs ⊆ cs' → entries m' = entries (A := A) m → sentTo n cs m a → sentTo n cs' m' a.
Proof.
  intros Hcs Hm (alias & Hrow & Hfor). exists alias. rewrite Hm. split; [done|]. by eapply aliasFor_mono.
Qed.

(** The three upsert passes: each kind of entry is written by its own pass only. *)
Lemma upsert_passes n endpoints groups services :
  reconcilable n isEnrolled endpoints → reconcilable n (fun _ => false) groups →
  reconcilable n (fun _ => false) services →
  ∃ n1 n2 n3,
    (upsertAll upsertEndpoint n endpoints = Ok n1 ∧ upsertAll upsertGroup n1 groups = Ok n2 ∧
     upsertAll upsertService n2 services = Ok n3) ∧
    reconcilable n1 (fun _ => false) groups ∧ reconcilable n2 (fun _ => false) services ∧
    (st_endpoints n3 = st_endpoints n1 ∧ st_groups n1 = st_groups n ∧ st_groups n3 = st_groups n2 ∧
     st_services n2 = st_services n) ∧
    (∀ id, fixedID (A := Endpoint) n3 id ↔ fixedID (A := Endpoint) n id) ∧
    (∀ id, fixedID (A := Group) n3 id ↔ fixedID (A := Group) n1 id) ∧
    fromClaims n (claimOf <$> endpoints) n1 ∧ fromClaims n ((claimOf <$> endpoints) ++ (claimOf <$> groups)) n2.
Proof.
  intros He Hg Hs.
  destruct (upsertAll_rows n endpoints n [] (rc_entries _ _ _ He) (rc_keys _ _ _ He)) as (n1 & H1 & Ho1 & Hf1 & Hc1 & _); [by left|].
  injection Ho1 as Hg1 Hs1 Hbg1.
  assert (reconcilable n1 (fun _ => false) groups) as Hg'.
  { destruct Hg as [? ? ? Hr]. split; [done..|]. intros t id a Ha. cbn in Ha. rewrite Hg1 in Ha.
    cbn. rewrite Hbg1. by eapply Hr. }
  destruct (upsertAll_rows n groups n1 _ (rc_entries _ _ _ Hg') (rc_keys _ _ _ Hg') Hc1) as (n2 & H2 & Ho2 & Hf2 & Hc2 & _).
  injection Ho2 as He2 Hs2 Hbe2.
  assert (reconcilable n2 (fun _ => false) services) as Hs'.
  { destruct Hs as [? ? ? Hr]. split; [done..|]. intros t id a Ha. cbn in Ha. rewrite Hs2, Hs1 in Ha.
    by eapply Hr. }
  destruct (upsertAll_rows n services n2 _ (rc_entries _ _ _ Hs') (rc_keys _ _ _ Hs') Hc2) as (n3 & H3 & Ho3 & _).
  injection Ho3 as He3 Hg3 Hbe3 Hbg3.
  exists n1, n2, n3. split_and!; try done; [congruence..| |].
  - intros id. cbn. by rewrite Hbe3, Hbe2, (Hf1 id).
  - intros id. cbn. by rewrite Hbg3, (Hf2 id).
Qed.

(** (C33) What a control plane distributes is what an Edge holds afterwards:
    for entries with keys of their own a reconciliation succeeds and holds every incoming
    endpoint, group and service as it was sent.  Its alias is the one that was sent (the
    identifier, if that is blank) or that alias with a number appended; and numbered it is only
    where an entry that the Edge had, or another of those that are sent, holds or may get that
    alias.  Of its own entries the Edge keeps only the endpoints of its inventory: what was
    deleted at the control plane is gone. *)
Theorem reconciliation `{MapOrder} n endpoints groups services :
  reconcilable n isEnrolled endpoints → reconcilable n (fun _ => false) groups →
  reconcilable n (fun _ => false) services →
  let asked := (claimOf <$> endpoints) ++ (claimOf <$> groups) ++ (claimOf <$> services) in
  ∃ n' removed, editReplaceAuthored endpoints groups services n = Ok (n', removed) ∧
    reconciled_to n asked n' isEnrolled endpoints ∧ reconciled_to n asked n' (fun _ => false) groups ∧
    reconciled_to n asked n' (fun _ => false) services.
Proof.
  intros He Hg Hs asked.
  destruct (upsert_passes n endpoints groups services He Hg Hs)
    as (n1 & n2 & n3 & (H1 & H2 & H3) & Hg' & Hs' & (He3 & Hg1 & Hg3 & Hs2) & Hfe & Hfg & Hc1 & Hc2).
  unfold editReplaceAuthored, replaceAuthored. rewrite H1. cbn [result_bind].
  rewrite H2. cbn [result_bind]. rewrite H3. cbn [result_bind].
  destruct (reconcile_kind n [] n n1 n3 isEnrolled "endpoint:" endpoints [] He) as (Hod1 & Hs1 & Hr1).
  { by left. }
  { exact H1. }
  { exact He3. }
  { exact Hfe. }
  set (acc1 := foldl (dropOne "endpoint:" deleteEntry) _ _) in Hod1, Hs1, Hr1.
  injection Hod1 as Hd1g Hd1s Hd1b.
  destruct (reconcile_kind n _ n1 n2 acc1.1 (fun _ => false) "group:" groups acc1.2 Hg' Hc1 H2) as (Hod2 & Hs2' & Hr2).
  { cbn. congruence. }
  { intros id. rewrite <- Hfg. cbn. by rewrite Hd1b. }
  set (acc2 := foldl (dropOne "group:" deleteEntry) _ _) in Hod2, Hs2', Hr2.
  injection Hod2 as Hd2e Hd2s Hd2b.
  destruct (reconcile_kind n _ n2 n3 acc2.1 (fun _ => false) "service:" services acc2.2 Hs' Hc2 H3) as (Hod3 & Hs3 & Hr3).
  { cbn. congruence. }
  { done. }
  set (acc3 := foldl (dropOne "service:" deleteEntry) _ _) in Hod3, Hs3, Hr3.
  injection Hod3 as Hd3e Hd3g _ _.
  match goal with |- context [bumpGeneration ?p.1] => idtac | |- context [foldl (dropOne "service:" deleteService) ?b ?l] =>
    assert (foldl (dropOne "service:" deleteService) b l = acc3) as -> end.
  { unfold acc3. rewrite <- surjective_pairing. f_equal;
      [|change (entries acc2.1) with (st_services acc2.1); by rewrite Hd2s, Hd1s].
    unfold acc2. rewrite <- surjective_pairing. f_equal.
    change (entries acc1.1) with (st_groups acc1.1). by rewrite Hd1g. }
  exists (bumpGeneration acc3.1), (sort_strings acc3.2). split.
  { by destruct acc3. }
  unfold reconciled_to. split_and!.
  - intros a Ha. eapply sentTo_kept, (Hs1 a Ha); [unfold asked; set_solver|exact (eq_trans Hd3e Hd2e)].
  - cbn in *. rewrite Hd3e, Hd2e. apply Hr1.
  - intros a Ha. eapply sentTo_kept, (Hs2' a Ha); [unfold asked; set_solver|exact Hd3g].
  - intros t id Hno. cbn in *. rewrite Hd3g, <- Hg1. by apply Hr2.
  - intros a Ha. eapply sentTo_kept, (Hs3 a Ha); [unfold asked; set_solver|done].
  - intros t id Hno. cbn in *. rewrite <- Hs2. by apply Hr3.
Qed.

(** ** Concrete runs *)

#[local] Existing Instance listOrder.

(** A control plane sends one endpoint, one group of it and one service; the Edge holds a
    device of its inventory and an endpoint that was deleted at the control plane. *)
Definition sentEndpoint : Endpoint := crm <| ep_ID := "crm-1" |>.
Definition sentGroup : Group := mkGroup "servers" "t1" "servers" false ["crm-1"] None false "".
Definition sentService : Service := mkService "https" "t1" "HTTPS" [mkPort "tcp" 443] false.

(** What is asked of rows and entries, evaluated on a catalogue without built-ins. *)
Lemma reconcilable_one {A} `{EntryKind A} (n : Store) spared (a : A) :
  distributable a → no_nul (entryTenant a) = true →
  acceptRows (fun t _ _ => no_nul t) (entries (A := A) n) = true → (∀ id, ¬ fixedID (A := A) n id) →
  reconcilable n spared [a].
Proof.
  intros Hd Ht Hrows Hf. split.
  - by constructor.
  - apply NoDup_singleton.
  - by intros b ->%list_elem_of_singleton.
  - intros t id x Hx. split; [|intros _; apply Hf].
    by apply (proj1 (acceptRows_spec _ _) Hrows t id x).
Qed.

Lemma reconciliation_witness :
  ∃ n' removed,
    editReplaceAuthored [sentEndpoint] [sentGroup] [sentService] addGit.1 = Ok (n', removed) ∧
    reconciled_to addGit.1 [claimOf sentEndpoint; claimOf sentGroup; claimOf sentService] n' isEnrolled [sentEndpoint].
Proof.
  assert (∀ t id : string, t = "t1" → is_blank id = false → canonicalKey t id) as Hkey
    by (intros t id -> Hid; split_and!; [discriminate|vm_compute; reflexivity|exact Hid]).
  assert (st_builtInEndpoints addGit.1 = ∅ ∧ st_builtInGroups addGit.1 = ∅) as [Hbe Hbg]
    by (vm_compute; split; reflexivity).
  destruct (reconciliation addGit.1 [sentEndpoint] [sentGroup] [sentService]) as (n' & removed & Hr & He & _).
  - apply reconcilable_one; [|vm_compute; reflexivity..|].
    + split; [apply Hkey|]; vm_compute; reflexivity.
    + intros id Hf. change (is_Some (st_builtInEndpoints addGit.1 !! id)) in Hf.
      rewrite Hbe, lookup_empty in Hf. by destruct Hf.
  - apply reconcilable_one; [|vm_compute; reflexivity..|].
    + apply Hkey; vm_compute; reflexivity.
    + intros id Hf. change (is_Some (st_builtInGroups addGit.1 !! id)) in Hf.
      rewrite Hbg, lookup_empty in Hf. by destruct Hf.
  - apply reconcilable_one; [|vm_compute; reflexivity..|].
    + split; [apply Hkey|]; vm_compute; reflexivity.
    + intros id Hf. exact Hf.
  - exists n', removed. split; [exact Hr|exact He].
Defined.

(** What the Edge deleted, and that its device stayed. *)
Example reconciled_edge :
  match editReplaceAuthored [sentEndpoint] [sentGroup] [sentService] addGit.1 with
  | Ok (n, removed) => (removed, ep_Alias <$> ListEndpoints n "t1", ResolveGroupMembers n "t1" "servers")
  | Err _ => ([], [], [])
  end = (["endpoint:git-1"], ["Anna"; "crm"], ["crm-1"]).
Proof. vm_compute. reflexivity. Qed.

(** Incoming entries are saved before those that are gone are deleted: an alias that moved
    to a new entry at the control plane is numbered here, although it is free afterwards. *)
Example moved_alias_is_numbered :
  match editReplaceAuthored [gitServer <| ep_ID := "git-2" |>] [] [] addGit.1 with
  | Ok (n, removed) => (removed, ep_Alias <$> GetEndpoint n "t1" "git-2", rowsOf (st_aliases n) "t1" !! "git")
  | Err _ => ([], None, None)
  end = (["endpoint:git-1"], Some "git-2", None).
Proof. vm_compute. reflexivity. Qed.

End CatalogReconcile.
