(* ===== verification/Explain.v ===== *)
(** * Explaining a decision ([src/decision/explain.go])

    The policies in evaluation order, which of them matched and which one won. *)

From stdpp Require Import base gmap list strings.
From S2P Require Import Prelude GoStd Model Common Conditions PolicyOrder SaaSCatalog Locality EastWest.
From S2P Require Import Evaluator Decision.

Open Scope Z_scope.

Record PolicyTraceEntry := mkTraceEntry {
  te_PolicyID : string;
  te_Name : string;
  te_Priority : Z;
  te_Decision : string;
  te_Status : string;
  te_Matched : bool;
  te_MatchedConditions : list string;
  te_Winner : bool;
  te_Shadowed : bool;
  te_CreatedBy : string;
}.

Record DecisionExplanation := mkExplanation {
  exp_ActorType : string;
  exp_Trace : list PolicyTraceEntry;
  exp_WinnerPolicyID : string;
  exp_WinnerDecision : string;
  exp_FinalDecision : string;
  exp_FinalPolicyID : string;
}.

Definition OrderedPolicies (e : Evaluator) : list Policy := orderedPolicies (ev_Policies e).

Definition traceEntry (policy : Policy) (matched : bool) (names : list string)
    (winnerFound : bool) : PolicyTraceEntry :=
  mkTraceEntry (pol_ID policy) (pol_Name policy) (pol_Priority policy)
    (pact_Decision (pol_Action policy)) (pol_Status policy) matched names
    (matched && negb winnerFound) (matched && winnerFound)
    (default "" (pol_CreatedBy policy)).

(** The loop: the trace, and the winner once one is found. *)
Fixpoint explainFrom (now : Z) (req : DecisionRequest) (actorType : string)
    (winner : option Policy) (policies : list Policy)
    : list PolicyTraceEntry * option Policy :=
  match policies with
  | [] => ([], winner)
  | policy :: rest =>
      let '(matched, names) := matchPolicy now policy req actorType in
      let found := match winner with Some _ => true | None => false end in
      let winner' := if matched && negb found then Some policy else winner in
      let '(trace, w) := explainFrom now req actorType winner' rest in
      (traceEntry policy matched names found :: trace, w)
  end.

Definition ExplainDecision (e : Evaluator) (req : DecisionRequest) (id : string) (now : Z)
    : DecisionExplanation :=
  let enriched := decisionRequestWithSaaSContext (ev_PolicyBundle e) req in
  let actorType := actorTypeOf enriched in
  let '(trace, winner) :=
    explainFrom now enriched actorType None (orderedPolicies (ev_Policies e)) in
  let final := Evaluate e req id now in
  {| exp_ActorType := actorType;
     exp_Trace := trace;
     exp_WinnerPolicyID := match winner with Some p => pol_ID p | None => "" end;
     exp_WinnerDecision := match winner with
                           | Some p => pact_Decision (pol_Action p)
                           | None => ""
                           end;
     exp_FinalDecision := dec_Decision final;
     exp_FinalPolicyID := dec_PolicyID final |}.

(** * Properties *)

(** After the winner everything that matches is shadowed. *)
Lemma explainFrom_after now req actorType w l :
  (explainFrom now req actorType (Some w) l).2 = Some w ∧
  Forall (fun t => te_Winner t = false ∧ te_Shadowed t = te_Matched t)
    (explainFrom now req actorType (Some w) l).1.
Proof.
  induction l as [|p l [IH1 IH2]]; [by repeat constructor|]. cbn [explainFrom].
  destruct (matchPolicy now p req actorType) as [m names]. rewrite andb_false_r.
  destruct (explainFrom now req actorType (Some w) l) as [trace w'] eqn:E; cbn in *.
  split; [done|]. constructor; [|done]. cbn. by destruct m.
Qed.

Lemma explainFrom_before now req actorType l :
  (explainFrom now req actorType None l).2 = List.find (matches_b now req actorType) l ∧
  List.map te_Matched (explainFrom now req actorType None l).1
    = List.map (matches_b now req actorType) l ∧
  match List.find (matches_b now req actorType) l with
  | None => Forall (fun t => te_Winner t = false) (explainFrom now req actorType None l).1
  | Some p => ∃ t1 t t2, (explainFrom now req actorType None l).1 = t1 ++ t :: t2 ∧
      te_PolicyID t = pol_ID p ∧ te_Winner t = true ∧
      Forall (fun t => te_Matched t = false ∧ te_Winner t = false) t1 ∧
      Forall (fun t => te_Winner t = false ∧ te_Shadowed t = te_Matched t) t2
  end.
Proof.
  induction l as [|p l (IH1 & IH2 & IH3)]; [by repeat constructor|]. cbn [explainFrom].
  assert (∀ w, List.map te_Matched (explainFrom now req actorType w l).1
               = List.map (matches_b now req actorType) l) as Hm.
  { clear. induction l as [|p l IH]; intros w; [done|]. cbn [explainFrom List.map].
    unfold matches_b at 1. destruct (matchPolicy now p req actorType) as [m names]; cbn.
    specialize (IH (if m && negb match w with Some _ => true | None => false end
                    then Some p else w)).
    destruct (explainFrom _ _ _ _ l) as [trace w']; cbn in *. by rewrite IH. }
  cbn [List.find List.map]. unfold matches_b at 1 3 5.
  destruct (matchPolicy now p req actorType) as [m names] eqn:Ep; cbn [fst andb negb].
  destruct m; cbn [andb].
  - pose proof (explainFrom_after now req actorType p l) as [Ha1 Ha2].
    specialize (Hm (Some p)).
    destruct (explainFrom now req actorType (Some p) l) as [trace w']; cbn in *.
    split_and!; [done|by rewrite Hm|]. eexists [], _, trace. by repeat split.
  - destruct (explainFrom now req actorType None l) as [trace w']; cbn in *.
    split_and!; [done|by rewrite IH2|].
    destruct (List.find _ l) as [q|].
    + destruct IH3 as (t1 & t & t2 & -> & ? & ? & ? & ?).
      eexists (_ :: t1), t, t2. split_and!; try done. by constructor.
    + by constructor.
Qed.

Lemma deciding_find e req now p :
  decidingPolicy e req now p ↔
  List.find (matches_b now req (actorTypeOf req)) (orderedPolicies (ev_Policies e)) = Some p.
Proof. unfold decidingPolicy. symmetry. apply find_sort_stable_first, _. Qed.

Lemma explainFrom_ids now req actorType w l :
  List.map te_PolicyID (explainFrom now req actorType w l).1 = List.map pol_ID l.
Proof.
  revert w. induction l as [|p l IH]; intros w; [done|]. cbn [explainFrom List.map].
  destruct (matchPolicy now p req actorType) as [m names].
  match goal with |- context [explainFrom _ _ _ ?w' l] => specialize (IH w') end.
  destruct (explainFrom _ _ _ _ l) as [trace w']; cbn in *. by rewrite IH.
Qed.

(** The entry of the winner, in a trace where it is the only one. *)
Definition wins (trace : list PolicyTraceEntry) (p : Policy) : Prop :=
  ∃ t1 t t2, trace = t1 ++ t :: t2 ∧ te_PolicyID t = pol_ID p ∧ te_Winner t = true ∧
    Forall (fun t => te_Matched t = false ∧ te_Winner t = false) t1 ∧
    Forall (fun t => te_Winner t = false ∧ te_Shadowed t = te_Matched t) t2.

Lemma final_policy_id e req id now p :
  onServerPlane e (decisionRequestWithSaaSContext (ev_PolicyBundle e) req) = false →
  onEastWestPlane e (decisionRequestWithSaaSContext (ev_PolicyBundle e) req) = false →
  decidingPolicy e (decisionRequestWithSaaSContext (ev_PolicyBundle e) req) now p →
  dec_PolicyID (Evaluate e req id now) = pol_ID p.
Proof.
  intros Hs Hw Hp. unfold Evaluate. cbn zeta. cbn [dec_PolicyID decisionFrom]. unfold evaluate.
  rewrite Hs, Hw, (policyEvaluation_winner _ _ _ _ _ Hp). apply matched_policy_id.
Qed.

(** The explanation tells what [Evaluate] does: it lists every policy in
    evaluation order, marks as winner the deciding policy and only it, as shadowed
    every later match, and off the other planes the decision is attributed to the
    winner. *)
Theorem explain_faithful e req id now :
  let x := ExplainDecision e req id now in
  let r := decisionRequestWithSaaSContext (ev_PolicyBundle e) req in
  List.map te_PolicyID (exp_Trace x) = List.map pol_ID (OrderedPolicies e) ∧
  List.map te_Matched (exp_Trace x)
    = List.map (matches_b now r (actorTypeOf r)) (OrderedPolicies e) ∧
  (∀ p, decidingPolicy e r now p →
     wins (exp_Trace x) p ∧ exp_WinnerPolicyID x = pol_ID p ∧
     (onServerPlane e r = false → onEastWestPlane e r = false →
      exp_FinalPolicyID x = exp_WinnerPolicyID x)) ∧
  ((∀ p, ¬ decidingPolicy e r now p) →
     Forall (fun t => te_Winner t = false) (exp_Trace x) ∧ exp_WinnerPolicyID x = "").
Proof.
  cbn zeta. unfold ExplainDecision. cbn zeta.
  set (r := decisionRequestWithSaaSContext (ev_PolicyBundle e) req).
  pose proof (explainFrom_before now r (actorTypeOf r) (orderedPolicies (ev_Policies e)))
    as (Hw & Hm & Ht).
  pose proof (explainFrom_ids now r (actorTypeOf r) None (orderedPolicies (ev_Policies e))) as Hi.
  destruct (explainFrom _ _ _ _ _) as [trace w]; cbn [fst snd] in *.
  cbn [exp_Trace exp_WinnerPolicyID exp_FinalPolicyID].
  split_and!; [done..| |].
  - intros p Hp. pose proof Hp as Hf. apply deciding_find in Hf. rewrite Hf in *. subst w.
    split_and!; [done..|]. intros. by apply final_policy_id.
  - setoid_rewrite deciding_find. destruct (List.find _ _) as [q|].
    + intros H. by destruct (H q).
    + intros _. by subst w.
Qed.

Lemma explain_faithful_witness :
  let pol id d := zero_Policy <| pol_ID := id |> <| pol_Status := "active" |>
    <| pol_Action := mkPolicyAction d |> in
  let e := mkEvaluator [pol "b-allow" "allow"; pol "a-deny" "deny"] zero_PolicyBundle
             "" "" false (mkEWConfig false (mkInternalNetworks [] []) [] 0 []) false [] ∅ in
  List.map te_PolicyID (exp_Trace (ExplainDecision e zero_DecisionRequest "d" 0))
  = ["a-deny"; "b-allow"].
Proof.
  intros pol e. rewrite (proj1 (explain_faithful e zero_DecisionRequest "d" 0)).
  vm_compute. reflexivity.
Defined.
