(* ===== verification/AccessLog.v ===== *)
(** * What is recorded of a decision ([src/decision/config_generation.go],
    [AccessLogFromDecision] and [DecisionTraceFromDecision] in
    [src/decision/evaluator.go])

    The access log keeps the configuration a decision was taken under in a shared
    snapshot, and only its identifier in the record.  The content hash (SHA-256 of
    the tenant and the sorted keys) is an argument. *)

From stdpp Require Import base gmap list strings.
From S2P Require Import Prelude GoStd Model Common Inspection SwgEnforcement Evaluator.

Open Scope Z_scope.

Definition configGenerationKeys : list string :=
  ["certificate_issuance_mode"; "certificate_pinning_policy"; "inspection_mode";
   "inspection_profile_id"; "network_extension_dependency";
   "network_extension_runtime_used"; "payload_policy"; "quic_policy_action";
   "quic_policy_mode"; "quic_tcp_tls_redirect_required";
   "tenant_root_ca_distribution_mode"; "tenant_root_ca_id";
   "tenant_root_ca_private_key_status"; "tenant_root_ca_status";
   "tenant_root_ca_trust_store_target"; "tls_inspection_readiness";
   "tls_interception_enabled"; "trust_profile_id"; "trust_profile_status";
   "trust_store_state"].

Record ConfigGenerationSnapshot := mkSnapshot {
  cgs_ID : string;
  cgs_TenantID : string;
  cgs_Config : metadata;
}.

(** [for _, k := range keys { if v, ok := m[k]; ok { out[k] = v } }] *)
Definition pick_keys (keys : list string) (m : metadata) : metadata :=
  foldl (fun acc k => match m !! k with Some v => <[k := v]> acc | None => acc end) ∅ keys.

Section access_log.
  Context (configGenerationID : string → metadata → string).

Definition ConfigGenerationFromDecision (dec : AccessDecision)
    : option ConfigGenerationSnapshot :=
  if bool_decide (dec_Metadata dec = ∅) then None else
  let config := pick_keys configGenerationKeys (dec_Metadata dec) in
  if bool_decide (config = ∅) then None
  else Some (mkSnapshot (configGenerationID (dec_TenantID dec) config) (dec_TenantID dec) config).

Definition stripConfigGenerationKeys (m : metadata) : metadata :=
  foldl (fun acc k => delete k acc) m configGenerationKeys.

Record AccessLog := mkAccessLog {
  al_ID : string;
  al_TenantID : string;
  al_ConfigGenerationID : string;
  al_AccessDecisionID : string;
  al_SessionID : option string;
  al_UserID : option string;
  al_SubjectUserID : option string;
  al_ActorType : string;
  al_ActorNHIID : option string;
  al_DelegatedAccessGrantID : option string;
  al_HumanApprovalEventID : option string;
  al_AgentTaskSessionID : option string;
  al_ToolID : option string;
  al_ToolActionType : option string;
  al_MCPServerID : option string;
  al_RuntimeEnvironmentID : option string;
  al_DeviceID : option string;
  al_ApplicationID : option string;
  al_SourceIP : option string;
  al_Destination : option string;
  al_RequestMethod : option string;
  al_RequestPath : option string;
  al_ServiceFamily : option string;
  al_Decision : string;
  al_Reason : option string;
  al_ReasonCodes : list string;
  al_PolicyID : option string;
  al_PolicyBundleID : option string;
  al_MatchedConditions : list string;
  al_CacheStatus : string;
  al_EdgeRegionID : option string;
  al_EdgeClusterID : option string;
  al_ConnectorID : option string;
  al_Timestamp : string;
  al_Metadata : metadata;
}.

Definition AccessLogFromDecision (id : string) (dec : AccessDecision) : AccessLog := {|
  al_ID := id;
  al_TenantID := dec_TenantID dec;
  al_ConfigGenerationID :=
    match ConfigGenerationFromDecision dec with Some s => cgs_ID s | None => "" end;
  al_AccessDecisionID := dec_ID dec;
  al_SessionID := dec_SessionID dec;
  al_UserID := dec_UserID dec;
  al_SubjectUserID := dec_SubjectUserID dec;
  al_ActorType := dec_ActorType dec;
  al_ActorNHIID := dec_ActorNHIID dec;
  al_DelegatedAccessGrantID := dec_DelegatedAccessGrantID dec;
  al_HumanApprovalEventID := dec_HumanApprovalEventID dec;
  al_AgentTaskSessionID := dec_AgentTaskSessionID dec;
  al_ToolID := dec_ToolID dec;
  al_ToolActionType := dec_ToolActionType dec;
  al_MCPServerID := dec_MCPServerID dec;
  al_RuntimeEnvironmentID := dec_RuntimeEnvironmentID dec;
  al_DeviceID := dec_DeviceID dec;
  al_ApplicationID := Some (dec_ApplicationID dec);
  al_SourceIP := dec_SourceIP dec;
  al_Destination := dec_Destination dec;
  al_RequestMethod := dec_RequestMethod dec;
  al_RequestPath := dec_RequestPath dec;
  al_ServiceFamily := dec_ServiceFamily dec;
  al_Decision := dec_Decision dec;
  al_Reason := dec_Reason dec;
  al_ReasonCodes := dec_ReasonCodes dec;
  al_PolicyID := stringPtr (dec_PolicyID dec);
  al_PolicyBundleID := stringPtr (dec_PolicyBundleID dec);
  al_MatchedConditions := dec_MatchedConditions dec;
  al_CacheStatus := dec_CacheStatus dec;
  al_EdgeRegionID := dec_EdgeRegionID dec;
  al_EdgeClusterID := dec_EdgeClusterID dec;
  al_ConnectorID := dec_ConnectorID dec;
  al_Timestamp := dec_Timestamp dec;
  al_Metadata := stripConfigGenerationKeys (dec_Metadata dec) |}.
End access_log.

(** ** The decision trace *)

Definition traceKeys : list string :=
  ["saas_application_id"; "saas_name"; "saas_provider"; "saas_category";
   "saas_risk_tier"; "saas_matched_domain"; "saas_matched_pattern"; "saas_match_type";
   "tls_inspection_readiness"; "tls_interception_enabled"; "certificate_issuance_mode";
   "inspection_profile_id"; "inspection_mode"; "inspection_route_category";
   "inspection_execution_scope"; "edge_tls_policy_decision";
   "edge_tls_policy_decision_source"; "edge_tls_policy_bypass";
   "inspection_profile_resolution"; "payload_policy"; "network_extension_dependency";
   "trust_profile_id"; "trust_profile_status"; "trust_store_state";
   "certificate_pinning_policy"; "tenant_root_ca_id"; "tenant_root_ca_status";
   "tenant_root_ca_distribution_mode"; "tenant_root_ca_trust_store_target";
   "tenant_root_ca_private_key_status"; "quic_policy_mode"; "quic_policy_action";
   "quic_tcp_tls_redirect_required"; "network_extension_runtime_used";
   "break_glass_policy"; "break_glass_identity_id"; "break_glass_max_session_seconds";
   "break_glass_strong_auth_required"; "break_glass_strong_auth_satisfied";
   "break_glass_audit_required"; "break_glass_audit_event_required";
   "break_glass_auth_age_seconds"; "break_glass_auth_freshness";
   "break_glass_request_id"; "break_glass_reason_present";
   "break_glass_ticket_id_present"; "subject_user_id"; "actor_type"; "actor_nhi_id";
   "delegated_access_grant_id"; "agent_task_session_id"; "tool_id"; "tool_action_type";
   "tool_permission_profile"; "tool_version"; "tool_signature_state";
   "agent_tool_metadata_scope"; "mcp_server_id"; "mcp_resource_uri"; "mcp_audience";
   "mcp_token_passthrough_policy"; "mcp_metadata_scope"; "runtime_environment_id";
   "tool_payload_recorded"; "tool_secret_recorded"; "tool_credentials_recorded";
   "context_boundary_id"; "data_classification"; "human_approval_event_id";
   "runtime_evidence_result"; "delegated_grant_status"; "delegated_grant_expires_at";
   "approval_result"; "approval_expires_at"; "nhi_registry_last_used_result";
   "nhi_registry_last_used_at"; "swg_tenant_enforcement_preflight";
   "swg_default_tls_decryption_required"; "swg_tls_bypass_policy";
   "swg_tls_bypass_applied"; "swg_tls_runtime_decryption_observed";
   "swg_header_injection_runtime_observed"; "swg_macos_ca_trust_required";
   "swg_macos_ca_trust_observed"; "swg_tenant_restriction_rule_id";
   "swg_tenant_restriction_header_name"; "swg_tenant_restriction_header_value_ref";
   "swg_tenant_restriction_header_value_kind";
   "swg_tenant_restriction_header_value_material_in_decision";
   "swg_tenant_restriction_header_injection_applicable";
   "swg_tenant_restriction_header_injection_applied";
   "swg_tenant_restriction_header_injection_suppressed_by_bypass";
   "swg_tls_bypass_rule_id"; "swg_tls_bypass_match_type"; "swg_tls_bypass_reason"].

Record DecisionTrace := mkDecisionTrace {
  dt_ID : string;
  dt_AccessDecisionID : string;
  dt_PolicyID : string;
  dt_PolicyBundleID : string;
  dt_MatchedConditions : list string;
  dt_CacheStatus : string;
  dt_ReasonCodes : list string;
  dt_Timestamp : string;
  dt_Metadata : metadata;
}.

Definition decisionTraceMetadata (m : metadata) : metadata := pick_keys traceKeys m.

Definition DecisionTraceFromDecision (id : string) (dec : AccessDecision) : DecisionTrace :=
  mkDecisionTrace id (dec_ID dec) (dec_PolicyID dec) (dec_PolicyBundleID dec)
    (dec_MatchedConditions dec) (dec_CacheStatus dec) (dec_ReasonCodes dec)
    (dec_Timestamp dec) (decisionTraceMetadata (dec_Metadata dec)).

(** * Properties *)

Lemma lookup_pick_keys keys m k :
  pick_keys keys m !! k = if containsString keys k then m !! k else None.
Proof.
  unfold pick_keys.
  enough (∀ acc : metadata, foldl (fun acc k => match m !! k with Some v => <[k := v]> acc | None => acc end)
      acc keys !! k = if containsString keys k then (m !! k) ∪ (acc !! k) else acc !! k) as H.
  { rewrite H, lookup_empty. case_match; [|done]. by rewrite (right_id_L None _). }
  induction keys as [|j keys IH]; intros acc; [done|]. cbn. rewrite IH. clear IH.
  destruct (String.eqb_spec j k) as [->|Hj].
  - cbn. destruct (m !! k) as [v|] eqn:E; rewrite ?lookup_insert_eq;
      by destruct (acc !! k), (containsString keys k).
  - cbn. destruct (m !! j); rewrite ?lookup_insert_ne by done; done.
Qed.

Lemma lookup_strip m k :
  stripConfigGenerationKeys m !! k = if containsString configGenerationKeys k then None else m !! k.
Proof.
  unfold stripConfigGenerationKeys. generalize configGenerationKeys. intros keys. revert m.
  induction keys as [|j keys IH]; intros m; [done|]. cbn. rewrite IH. clear IH.
  destruct (String.eqb_spec j k) as [->|Hj]; cbn.
  - rewrite lookup_delete_eq. by case_match.
  - by rewrite lookup_delete_ne.
Qed.

(** The configuration part of a decision's metadata. *)
Definition configOf (hash : string → metadata → string) (dec : AccessDecision) : metadata :=
  match ConfigGenerationFromDecision hash dec with Some s => cgs_Config s | None => ∅ end.

Lemma configOf_pick hash dec :
  configOf hash dec = pick_keys configGenerationKeys (dec_Metadata dec).
Proof.
  unfold configOf, ConfigGenerationFromDecision.
  destruct (bool_decide_reflect (dec_Metadata dec = ∅)) as [->|]; [done|].
  by destruct (bool_decide_reflect (pick_keys configGenerationKeys (dec_Metadata dec) = ∅)).
Qed.

(** Moving the configuration out of the record loses nothing: the
    metadata of the log entry and the snapshot it points to are disjoint, and together
    they are the metadata of the decision; the trace holds nothing else either. *)
Theorem access_log_lossless hash id dec :
  al_Metadata (AccessLogFromDecision hash id dec) ##ₘ configOf hash dec ∧
  al_Metadata (AccessLogFromDecision hash id dec) ∪ configOf hash dec = dec_Metadata dec ∧
  dt_Metadata (DecisionTraceFromDecision id dec) ⊆ dec_Metadata dec.
Proof.
  rewrite configOf_pick. cbn [al_Metadata AccessLogFromDecision dt_Metadata
    DecisionTraceFromDecision]. unfold decisionTraceMetadata. split_and!.
  - apply map_disjoint_spec. intros k x y. rewrite lookup_strip, lookup_pick_keys.
    by case_match.
  - apply map_eq. intros k. rewrite lookup_union, lookup_strip, lookup_pick_keys.
    case_match; [by rewrite (left_id_L None _)|by rewrite (right_id_L None _)].
  - apply map_subseteq_spec. intros k x. rewrite lookup_pick_keys. by case_match.
Qed.

(** A snapshot is meant to change only when the configuration does.  One key of it
    does not: whether the QUIC redirect is recorded depends on the protocol of the
    request, so two requests under one configuration get different snapshots. *)
Example config_generation_depends_on_request :
  let profile := zero_InspectionProfile <| ipf_ID := "ip1" |>
    <| ipf_QUICPolicyAction := "tcp_tls_required" |> in
  let policy := zero_Policy <| pol_Status := "active" |>
    <| pol_Action := mkPolicyAction "allow" |> <| pol_InspectionProfileID := Some "ip1" |> in
  let bundle := zero_PolicyBundle <| bun_InspectionProfiles := [profile] |> in
  let config req := pick_keys configGenerationKeys
    (es_Metadata (matchedPolicyEvaluation 0 bundle policy [] req "human"
                    (initialEvaluation req))) in
  config (zero_DecisionRequest <| req_Protocol := "tcp" |>) !! "quic_tcp_tls_redirect_required"
    = None ∧
  config (zero_DecisionRequest <| req_Protocol := "udp" |>) !! "quic_tcp_tls_redirect_required"
    = Some (VBool true).
Proof. vm_compute. split; reflexivity. Qed.
