(* ===== verification/SeatAllocation.v ===== *)
(** * Seats of the licence, per tenant ([src/seatallocation])

    How a pool of licensed devices is divided among tenants: the store, its durable
    snapshot, and the admission of one more device.  A persister is described by how
    it answers one call; the JSON text of a snapshot by what it decodes to. *)

From stdpp Require Import base gmap list strings.
From S2P Require Import Prelude GoStd.

Open Scope Z_scope.

Module SeatAllocation.

Record Allocation := mkAllocation {
  a_TenantID : string;
  a_Seats : Z;
  a_UpdatedAt : string;
  a_UpdatedBy : string;
  a_Note : string;
}.

#[export] Instance Allocation_eq_dec : EqDecision Allocation.
Proof. solve_decision. Defined.

Notation allocations := (gmap string Allocation).

Record Store := mkStore {
  st_allocations : allocations;
  st_generation : Z;
}.

Definition NewStore : Store := mkStore ∅ 0.

Record Policy := mkSeatPolicy {
  sp_PoolSeats : Z;
  sp_AllowOversubscription : bool;
}.

Inductive error : Set :=
  | ErrPoolExceeded | ErrNoTenant | ErrNegative | ErrPersistence
  | ErrLoad | ErrDecode | ErrInvalidSnapshot | ErrInvalidEntry | ErrDisappeared.

(** ** The durable snapshot *)

Definition stateSchemaVersion : string := "dsse.seat_allocations.v1".

(** A stored payload: not JSON, or a state file with its schema and allocations
    ([None] where the field is absent or null). *)
Inductive raw :=
  | Garbage
  | StateFile (schema : string) (allocs : option allocations).

Definition entry_ok (key : string) (a : Allocation) : bool :=
  negb (is_empty key) && String.eqb (trim_space (a_TenantID a)) key && negb (a_Seats a <? 0).

Definition decodeAllocations (data : raw) : result error allocations :=
  match data with
  | Garbage => Err ErrDecode
  | StateFile schema allocs =>
      match allocs with
      | Some m =>
          if negb (String.eqb schema stateSchemaVersion) then Err ErrInvalidSnapshot
          else if bool_decide (map_Forall (fun k a => entry_ok k a = true) m) then Ok m
          else Err ErrInvalidEntry
      | None => Err ErrInvalidSnapshot
      end
  end.

Definition marshal (m : allocations) : raw := StateFile stateSchemaVersion (Some m).

Inductive save_error : Set := SavedWithoutAtomicity | SaveError.

(** What [s.persister] does in this call: nothing there; [Save] with its error; or
    [UpdateContext] with the stored payload, whether the closure ran and whether the
    transaction committed. *)
Inductive persister :=
  | NoPersister
  | PlainPersister (save : raw → option save_error)
  | UpdatingPersister (stored : option raw) (reached committed : bool).

Definition saveCandidateLocked (p : persister) (candidate : allocations) : option error :=
  match p with
  | PlainPersister save =>
      match save (marshal candidate) with
      | None | Some SavedWithoutAtomicity => None
      | Some SaveError => Some ErrPersistence
      end
  | _ => None
  end.

Definition publish (s : Store) (candidate : allocations) : Store :=
  if bool_decide (st_allocations s = candidate) then s
  else mkStore candidate (wrap64 (st_generation s + 1)).

(** The snapshot an updating persister hands to the closure. *)
Definition latestSnapshot (s : Store) (stored : option raw) : result error allocations :=
  match stored with
  | Some data => decodeAllocations data
  | None => if bool_decide (st_allocations s = ∅) then Ok ∅ else Err ErrDisappeared
  end.

Definition mutateLocked (s : Store) (p : persister)
    (edit : allocations → result error allocations) : result error Store :=
  match p with
  | UpdatingPersister stored reached committed =>
      if negb reached then Err ErrPersistence else
      match latestSnapshot s stored with
      | Err _ => Err ErrPersistence
      | Ok snapshot =>
          let! candidate := edit snapshot in
          if negb committed then Err ErrPersistence else Ok (publish s candidate)
      end
  | _ =>
      let! candidate := edit (st_allocations s) in
      if bool_decide (st_allocations s = candidate) then Ok s
      else match saveCandidateLocked p candidate with
           | Some e => Err e
           | None => Ok (publish s candidate)
           end
  end.

(** ** Operations *)

(** [total += a.Seats] over the other tenants: Go's wrapping sum. *)
Definition othersTotal (tenantID : string) (m : allocations) : Z :=
  map_fold (fun id a total => if String.eqb id tenantID then total
                              else wrap64 (total + a_Seats a)) 0 m.

Definition allocateEdit (policy : Policy) (a : Allocation) (candidate : allocations)
    : result error allocations :=
  if negb (sp_AllowOversubscription policy)
     && (sp_PoolSeats policy <? wrap64 (othersTotal (a_TenantID a) candidate + a_Seats a))
  then Err ErrPoolExceeded
  else Ok (<[a_TenantID a := a]> candidate).

Definition AllocateContext (s : Store) (p : persister) (policy : Policy) (tenantID : string)
    (seats : Z) (by_ note now : string) : result error (Allocation * Store) :=
  let tenantID := trim_space tenantID in
  if is_empty tenantID then Err ErrNoTenant
  else if seats <? 0 then Err ErrNegative
  else
    let a := mkAllocation tenantID seats now (trim_space by_) (trim_space note) in
    let! s' := mutateLocked s p (allocateEdit policy a) in
    Ok (a, s').

Definition SeatsFor (s : Store) (tenantID : string) : Z :=
  match st_allocations s !! trim_space tenantID with Some a => a_Seats a | None => 0 end.

Definition Allocated (s : Store) : Z :=
  map_fold (fun _ a total => wrap64 (total + a_Seats a)) 0 (st_allocations s).

Definition Unallocated (s : Store) (poolSeats : Z) : Z := wrap64 (poolSeats - Allocated s).

Definition Has (s : Store) (tenantID : string) : bool :=
  bool_decide (is_Some (st_allocations s !! trim_space tenantID)).

Definition seatLess : Allocation → Allocation → bool :=
  lex_Z (fun a => - a_Seats a) (lex_string_lt a_TenantID).
Definition List_ (s : Store) : list Allocation :=
  sort_stable seatLess (map_to_list (st_allocations s)).*2.

(** Whether there was one, read from the snapshot the removal was applied to. *)
Definition RemoveConfirmedContext (s : Store) (p : persister) (tenantID : string)
    : result error (bool * Store) :=
  let k := trim_space tenantID in
  let! s' := mutateLocked s p (fun candidate => Ok (delete k candidate)) in
  let snapshot := match p with
                  | UpdatingPersister stored _ _ =>
                      match latestSnapshot s stored with Ok m => m | Err _ => ∅ end
                  | _ => st_allocations s
                  end in
  Ok (bool_decide (is_Some (snapshot !! k)), s').

Definition CountForTenant (s : Store) (tenantID : string) : Z :=
  let tenantID := trim_space tenantID in
  if is_empty tenantID then 0
  else if bool_decide (is_Some (st_allocations s !! tenantID)) then 1 else 0.

Definition RemoveTenantContext (s : Store) (p : persister) (tenantID : string)
    : result error (Z * Store) :=
  let! (removed, s') := RemoveConfirmedContext s p tenantID in
  Ok (if removed : bool then 1 else 0, s').

(** [SetPersister]: what is loaded replaces the live state. *)
Definition SetPersister (s : Store) (loaded : result error (option raw)) : result error Store :=
  match loaded with
  | Err _ => Err ErrLoad
  | Ok None => Ok s
  | Ok (Some data) => let! m := decodeAllocations data in Ok (mkStore m (st_generation s))
  end.

Definition ReloadFromStore (s : Store) (loaded : result error (option raw))
    : result error Store :=
  let! data := loaded in
  let! candidate := latestSnapshot s data in
  Ok (publish s candidate).

(** ** Admission of a device *)

Record Verdict := mkVerdict {
  v_Allowed : bool;
  v_Allocated : Z;
  v_Used : Z;
  v_Reason : string;
}.

Definition MayEnrol (allocated used : Z) : Verdict :=
  if allocated <=? 0 then
    mkVerdict false allocated used
      "this tenant has no seats allocated; the MSSP allocates from its licensed pool before devices can enrol"
  else if allocated <=? used then
    mkVerdict false allocated used
      ("this tenant is using all " +:+ itoa allocated +:+
       " of its allocated seats; existing devices are unaffected")
  else mkVerdict true allocated used "".

(** * Properties *)

(** The exact sum, over the integers. *)
Definition seats_of (l : list (string * Allocation)) : Z :=
  foldr (fun ka acc => a_Seats ka.2 + acc) 0 l.
Definition total (m : allocations) : Z := seats_of (map_to_list m).

Lemma seats_of_perm l k : l ≡ₚ k → seats_of l = seats_of k.
Proof. unfold seats_of. induction 1; cbn; lia. Qed.

Lemma total_insert m k a : total (<[k := a]> m) = a_Seats a + total (delete k m).
Proof.
  unfold total. rewrite <- insert_delete_eq.
  rewrite (seats_of_perm _ _ (map_to_list_insert (delete k m) k a (lookup_delete_eq _ _))).
  done.
Qed.

Lemma wrap_sum (keep : string → bool) (l : list (string * Allocation)) :
  foldr (fun ka acc => if keep ka.1 then wrap64 (acc + a_Seats ka.2) else acc) 0 l
  = wrap64 (seats_of (List.filter (fun ka => keep ka.1) l)).
Proof.
  induction l as [|[k a] l IH]; [done|]. cbn. rewrite IH. clear IH.
  destruct (keep k); [|done]. rewrite wrap64_add_l. by rewrite Z.add_comm.
Qed.

(** The wrapping sum is the exact sum of the other tenants, wrapped. *)
Lemma othersTotal_exact t m : othersTotal t m = wrap64 (total (delete t m)).
Proof.
  unfold othersTotal. rewrite map_fold_foldr.
  transitivity (foldr (fun ka acc => if negb (String.eqb ka.1 t)
    then wrap64 (acc + a_Seats ka.2) else acc) 0 (map_to_list m)).
  { generalize (map_to_list m). intros l. induction l as [|[k a] l IH]; [done|]. cbn.
    rewrite IH. by destruct (String.eqb k t). }
  rewrite (wrap_sum (fun k => negb (String.eqb k t))). f_equal. unfold total.
  apply seats_of_perm.
  assert (∀ l : list (string * Allocation), t ∉ l.*1 →
    List.filter (fun ka => negb (String.eqb ka.1 t)) l = l) as Hno.
  { induction l as [|[k a] l IH]; intros Hl; [done|]. cbn in *.
    apply not_elem_of_cons in Hl as [Hk Hl]. rewrite IH by done.
    by destruct (String.eqb_spec k t). }
  assert (t ∉ (map_to_list (delete t m)).*1) as Hd.
  { rewrite list_elem_of_fmap. intros ([k a] & -> & Hin).
    apply elem_of_map_to_list in Hin. cbn in Hin. by rewrite lookup_delete_eq in Hin. }
  destruct (m !! t) as [a|] eqn:E.
  - rewrite <- (Hno _ Hd). rewrite <- (insert_delete_id m t a E) at 1.
    assert (∀ l k : list (string * Allocation), l ≡ₚ k →
      List.filter (fun ka => negb (String.eqb ka.1 t)) l ≡ₚ
      List.filter (fun ka => negb (String.eqb ka.1 t)) k) as Hp.
    { intros l k Hlk. induction Hlk as [|x l k _ IH|x y l|]; cbn; [done|..].
      - destruct (negb _); [by f_equiv|done].
      - destruct (negb _), (negb _); try done. apply perm_swap.
      - by etransitivity. }
    rewrite (Hp _ _ (map_to_list_insert _ t a (lookup_delete_eq _ _))). cbn.
    by rewrite String.eqb_refl.
  - rewrite (delete_id m t E) in *. by rewrite Hno.
Qed.

(** The snapshot a mutation starts from. *)
Definition snapshotOf (s : Store) (p : persister) : result error allocations :=
  match p with
  | UpdatingPersister stored _ _ => latestSnapshot s stored
  | _ => Ok (st_allocations s)
  end.

Lemma publish_allocations s m : st_allocations (publish s m) = m.
Proof. unfold publish. by case_bool_decide. Qed.

Lemma mutateLocked_ok s p edit s' :
  mutateLocked s p edit = Ok s' →
  ∃ m, snapshotOf s p = Ok m ∧ edit m = Ok (st_allocations s').
Proof.
  unfold mutateLocked, snapshotOf. destruct p as [|save|stored reached committed].
  - intros (m & Hm & H)%result_bind_ok. exists (st_allocations s). split; [done|].
    revert H. case_bool_decide; cbn; [|]; intros [= <-]; rewrite ?publish_allocations;
      congruence.
  - intros (m & Hm & H)%result_bind_ok. exists (st_allocations s). split; [done|].
    revert H. case_bool_decide; [intros [= <-]; congruence|].
    destruct (saveCandidateLocked _ _); [done|]. intros [= <-].
    by rewrite publish_allocations.
  - destruct reached; cbn [negb]; [|done]. destruct (latestSnapshot s stored) as [m|e]; [|done].
    intros (c & Hc & H)%result_bind_ok. exists m. split; [done|].
    destruct committed; cbn [negb] in H; [|done]. injection H as <-.
    by rewrite publish_allocations.
Qed.

Lemma AllocateContext_ok s p policy t seats by_ note now a s' :
  AllocateContext s p policy t seats by_ note now = Ok (a, s') →
  a_TenantID a = trim_space t ∧ trim_space t ≠ "" ∧ a_Seats a = seats ∧ 0 ≤ seats ∧
  ∃ m, snapshotOf s p = Ok m ∧ allocateEdit policy a m = Ok (st_allocations s').
Proof.
  unfold AllocateContext. destruct (is_empty (trim_space t)) eqn:Et; [done|].
  destruct (Z.ltb_spec seats 0); [done|].
  intros (s1 & H1 & [= <- <-])%result_bind_ok. apply mutateLocked_ok in H1 as (m & ? & ?).
  split_and!; [done| |done..|by exists m].
  intros E. apply is_empty_true in E. congruence.
Qed.

(** Without oversubscription, a confirmed allocation never takes the seats
    handed out, over all tenants of the latest snapshot, beyond the licensed pool; it
    gives the tenant what was asked and leaves every other tenant as it was.  The
    bound on the exact sum is the range of Go's [int]. *)
Theorem allocate_within_pool s p policy t seats by_ note now a s' m :
  AllocateContext s p policy t seats by_ note now = Ok (a, s') →
  snapshotOf s p = Ok m →
  sp_AllowOversubscription policy = false →
  0 ≤ total (delete (trim_space t) m) → total (delete (trim_space t) m) + seats ≤ int_max →
  total (st_allocations s') ≤ sp_PoolSeats policy ∧
  SeatsFor s' t = seats ∧
  ∀ k, k ≠ trim_space t → st_allocations s' !! k = m !! k.
Proof.
  intros H Hm Hov Hlo Hhi. apply AllocateContext_ok in H as (Ha & _ & Hs & Hpos & m' & Hm' & He).
  rewrite Hm in Hm'. injection Hm' as <-. unfold allocateEdit in He. rewrite Hov in He.
  cbn [negb andb] in He. destruct (Z.ltb_spec (sp_PoolSeats policy)
    (wrap64 (othersTotal (a_TenantID a) m + a_Seats a))) as [|Hle]; [done|].
  injection He as He. unfold SeatsFor. rewrite <- He, Ha, Hs in *.
  rewrite othersTotal_exact, wrap64_add_l, wrap64_id in Hle
    by (unfold int_min, int_max in *; lia).
  split_and!.
  - rewrite total_insert. lia.
  - by rewrite lookup_insert_eq.
  - intros k Hk. by rewrite lookup_insert_ne.
Qed.

Lemma allocate_within_pool_witness :
  let s := mkStore {["acme" := mkAllocation "acme" 6 "" "" ""]} 0 in
  let a := mkAllocation "zed" 4 "now" "op" "" in
  total (<["zed" := a]> (st_allocations s)) ≤ 10.
Proof.
  intros s a.
  refine (proj1 (allocate_within_pool s NoPersister (mkSeatPolicy 10 false) " zed " 4 "op" ""
    "now" a (mkStore (<["zed" := a]> (st_allocations s)) 1) (st_allocations s) _ _ _ _ _));
    [vm_compute; reflexivity|reflexivity|reflexivity|vm_compute; discriminate
    |vm_compute; discriminate].
Defined.


(** Without the bound the check is defeated: the largest [int] next to any other
    allocation is accepted, because Go's sum wraps around to a negative number. *)
Example allocate_overflow_accepted :
  let s := mkStore {["acme" := mkAllocation "acme" 1 "" "" ""]} 0 in
  match AllocateContext s NoPersister (mkSeatPolicy 10 false) "zed" int_max "" "" "" with
  | Ok (_, s') => SeatsFor s' "zed" = int_max ∧ Allocated s' = int_min
  | Err _ => False
  end.
Proof. vm_compute. split; reflexivity. Qed.

(** A tenant's allocation cannot be reduced while the other tenants' seats exceed a
    pool that has shrunk, although the reduction frees seats. *)
Example reduction_refused_after_pool_shrinks :
  let s := mkStore (<["zed" := mkAllocation "zed" 5 "" "" ""]>
                      {["acme" := mkAllocation "acme" 5 "" "" ""]}) 0 in
  AllocateContext s NoPersister (mkSeatPolicy 4 false) "zed" 1 "" "" "" = Err ErrPoolExceeded.
Proof. vm_compute. reflexivity. Qed.

(** ** Reachable stores *)

Inductive reachable : Store → Prop :=
  | reach_new : reachable NewStore
  | reach_load s loaded s' : reachable s → SetPersister s loaded = Ok s' → reachable s'
  | reach_reload s loaded s' : reachable s → ReloadFromStore s loaded = Ok s' → reachable s'
  | reach_allocate s p policy t seats by_ note now a s' :
      reachable s → AllocateContext s p policy t seats by_ note now = Ok (a, s') → reachable s'
  | reach_remove s p t removed s' :
      reachable s → RemoveConfirmedContext s p t = Ok (removed, s') → reachable s'.

Definition well_formed (m : allocations) : Prop := map_Forall (fun k a => entry_ok k a = true) m.

Lemma decode_well_formed data m : decodeAllocations data = Ok m → well_formed m.
Proof.
  unfold decodeAllocations. destruct data as [|schema [m'|]]; [done| |done].
  destruct (String.eqb schema _); cbn [negb]; [|done]. case_bool_decide; [|done]. by intros [= <-].
Qed.

Lemma latest_well_formed s stored m : latestSnapshot s stored = Ok m → well_formed m.
Proof.
  unfold latestSnapshot. destruct stored as [data|]; [apply decode_well_formed|].
  case_bool_decide; [|done]. intros [= <-]. apply map_Forall_empty.
Qed.

Lemma snapshot_well_formed s p m :
  well_formed (st_allocations s) → snapshotOf s p = Ok m → well_formed m.
Proof.
  intros Hs. destruct p; [by intros [= <-]|by intros [= <-]|apply latest_well_formed].
Qed.

(** In every reachable store, whatever its persisters answered and other
    processes stored, each allocation sits under its own trimmed, non-empty tenant
    identifier and is not negative: what was saved always loads again. *)
Theorem reachable_well_formed s :
  reachable s →
  well_formed (st_allocations s) ∧
  decodeAllocations (marshal (st_allocations s)) = Ok (st_allocations s).
Proof.
  intros Hr. assert (well_formed (st_allocations s)) as Hwf.
  { induction Hr as [|s loaded s' _ IH H|s loaded s' _ IH H|s p policy t seats by_ note now a s' _
      IH H|s p t removed s' _ IH H].
    - apply map_Forall_empty.
    - destruct loaded as [[data|]|e]; [|by injection H as <-|done].
      apply result_bind_ok in H as (m & Hm & [= <-]). by eapply decode_well_formed.
    - apply result_bind_ok in H as (data & -> & H).
      apply result_bind_ok in H as (m & Hm & [= <-]). rewrite publish_allocations.
      by eapply latest_well_formed.
    - apply AllocateContext_ok in H as (Ha & Ht & Hseats & Hpos & m & Hm & He).
      apply snapshot_well_formed in Hm; [|done]. unfold allocateEdit in He.
      destruct (_ && _); [done|]. injection He as <-. apply map_Forall_insert_2; [|done].
      unfold entry_ok. rewrite Ha, trim_space_idemp, String.eqb_refl, Hseats.
      destruct (is_empty _) eqn:E; [by apply is_empty_true in E|].
      by destruct (Z.ltb_spec seats 0); [lia|].
    - apply result_bind_ok in H as (s1 & H & [= _ <-]).
      apply mutateLocked_ok in H as (m & Hm & [= <-]).
      apply snapshot_well_formed in Hm; [|done]. by apply map_Forall_delete. }
  split; [done|]. unfold decodeAllocations, marshal. rewrite String.eqb_refl. cbn [negb].
  by rewrite bool_decide_true.
Qed.

Lemma reachable_well_formed_witness :
  well_formed {["acme" := mkAllocation "acme" 3 "" "" ""]}.
Proof.
  refine (proj1 (reachable_well_formed
    (mkStore {["acme" := mkAllocation "acme" 3 "" "" ""]} 1) _)).
  eapply (reach_allocate NewStore NoPersister (mkSeatPolicy 5 false) " acme " 3 "" "" "");
    [constructor|]. vm_compute. reflexivity.
Defined.

(** One more device is admitted exactly when the tenant holds a positive
    allocation that its enabled devices do not fill; a refusal always says why. *)
Lemma MayEnrol_spec allocated used :
  (v_Allowed (MayEnrol allocated used) = true ↔ 0 < allocated ∧ used < allocated) ∧
  (v_Allowed (MayEnrol allocated used) = false ↔ v_Reason (MayEnrol allocated used) ≠ "").
Proof.
  unfold MayEnrol. destruct (Z.leb_spec allocated 0); [cbn; split; [lia|done]|].
  destruct (Z.leb_spec allocated used); cbn; (split; [lia|]); [|done].
  split; [|done]. intros _ E. done.
Qed.

End SeatAllocation.
