(* ===== verification/EnrollToken.v ===== *)
(** * One-time enrolment tokens ([src/enrolltoken])

    The credential that admits one machine once: its store, the checks under the
    store's lock, and its durable state.  Random identifiers and secrets are drawn
    outside; SHA-256 is an argument.  What the persister holds is part of the state,
    and a save is described by its outcome. *)

From stdpp Require Import base gmap list strings.
From S2P Require Import Prelude GoStd Common.

Open Scope Z_scope.

Module EnrollToken.

Record Token := mkToken {
  t_ID : string;
  t_Hash : string;
  t_TenantID : string;
  t_Group : string;
  t_Label : string;
  t_IssuedBy : string;
  t_IssuedByLabel : string;
  t_IssuedAt : string;
  t_ExpiresAt : string;
  t_UsedAt : string;
  t_UsedBy : string;
  t_RevokedAt : string;
  t_RevokedBy : string;
}.

#[export] Instance Token_eta : Etaable Token := fun t =>
  mkToken (t_ID t) (t_Hash t) (t_TenantID t) (t_Group t) (t_Label t) (t_IssuedBy t)
    (t_IssuedByLabel t) (t_IssuedAt t) (t_ExpiresAt t) (t_UsedAt t) (t_UsedBy t)
    (t_RevokedAt t) (t_RevokedBy t).

Inductive error :=
  | ErrStateUnavailable | ErrUnknownToken | ErrTokenRevoked | ErrTokenExpired
  | ErrWrongTenant | ErrOutstandingCap | ErrLifetimeTooLong | ErrLifetimeNotFuture
  | ErrTenantRequired | ErrIssuerRequired
  | AlreadyUsedError (usedBy usedAt : string).

(** [AlreadyUsedError.Error] *)
Definition alreadyUsedText (usedBy usedAt : string) : string :=
  let who := trim_space usedBy in
  let who := if is_empty who then "a machine this record does not name" else quote who in
  let when_ := trim_space usedAt in
  let when_ := if nonempty when_ then " at " +:+ when_ else when_ in
  "enrolment token has already been used, by device " +:+ who +:+ when_ +:+
  " — a token is one machine, once, so this machine needs one issued for it".

Definition expired (t : Token) (now : Z) : bool :=
  match parse_rfc3339 (t_ExpiresAt t) with
  | None => true
  | Some exp => negb (now <? exp)
  end.

(** [Token.Outstanding] *)
Definition outstanding (t : Token) (now : Z) : bool :=
  is_empty (t_UsedAt t) && is_empty (t_RevokedAt t) && negb (expired t now).

Notation tokens := (gmap string Token).

Record Policy := mkTokenPolicy { p_MaxLifetime : Z; p_MaxOutstanding : Z }.

Definition DefaultPolicy : Policy := mkTokenPolicy (30 * 24 * 3600 * second) 200.

(** ** Durable state *)

Definition stateSchemaVersion : string := "dsse.enrolment_tokens.v1".

(** What is on disk: nothing, bytes that do not decode, or a state file. *)
Inductive raw :=
  | NoData
  | Garbage
  | StateFile (schema : string) (toks : option tokens).

(** [s_disk] is what the store's persister holds. *)
Record Store := mkStore {
  s_tokens : tokens;
  s_byHash : gmap string string;
  s_stateErr : bool;
  s_generation : Z;
  s_disk : raw;
}.

#[export] Instance Store_eta : Etaable Store := fun s =>
  mkStore (s_tokens s) (s_byHash s) (s_stateErr s) (s_generation s) (s_disk s).

Definition NewStore (disk : raw) : Store := mkStore ∅ ∅ false 0 disk.

(** The outcome of a save: done (atomically, or in place and synced), or an error
    that leaves the old or the new contents behind. *)
Inductive save_outcome : Set := Saved | SavedInPlace | Unconfirmed (written : bool).

Definition marshal (m : tokens) : raw := StateFile stateSchemaVersion (Some m).

Definition indexByHash (m : tokens) : gmap string string :=
  map_fold (fun id t acc => if nonempty (t_Hash t) then <[t_Hash t := id]> acc else acc) ∅ m.

(** [loadLocked]; [readable] is whether the persister's read succeeds. *)
Definition loadLocked (s : Store) (readable : bool) : Store :=
  if negb readable then s <| s_stateErr := true |> else
  match s_disk s with
  | NoData => s
  | StateFile schema (Some m) =>
      if negb (String.eqb schema stateSchemaVersion) then s <| s_stateErr := true |>
      else s <| s_tokens := m |> <| s_byHash := indexByHash m |>
  | Garbage | StateFile _ None => s <| s_stateErr := true |>
  end.

(** [commitTokensLocked] with a persister ([None]: without one). *)
Definition commitTokensLocked (s : Store) (save : option save_outcome) (next : tokens)
    : Store * option error :=
  let gen := wrap64 (s_generation s + 1) in
  if s_stateErr s then (s, Some ErrStateUnavailable)
  else match save with
       | Some (Unconfirmed written) =>
           (s <| s_stateErr := true |>
              <| s_disk := if written then marshal next else s_disk s |>,
            Some ErrStateUnavailable)
       | Some _ => (mkStore next (indexByHash next) false gen (marshal next), None)
       | None => (mkStore next (indexByHash next) false gen (s_disk s), None)
       end.

(** ** Operations *)

Section operations.
  Context (sha256_hex : string → string).

Definition hashSecret (secret : string) : string := sha256_hex (trim_space secret).

Definition outstandingLocked (s : Store) (tenantID : string) (now : Z) : Z :=
  map_fold (fun _ t n => if String.eqb (trim_space (t_TenantID t)) (trim_space tenantID)
                            && outstanding t now then n + 1 else n) 0 (s_tokens s).

(** The store after the call, and the record or the refusal. *)
Definition Issue (s : Store) (save : option save_outcome) (policy : Policy)
    (tenantID group label issuedBy issuedByLabel : string) (expiresAt now : Z)
    (secret id : string) : Store * result error (Token * string) :=
  let tenantID := trim_space tenantID in
  if is_empty tenantID then (s, Err ErrTenantRequired)
  else if is_blank issuedBy then (s, Err ErrIssuerRequired)
  else if negb (now <? expiresAt) then (s, Err ErrLifetimeNotFuture)
  else if (0 <? p_MaxLifetime policy) && (p_MaxLifetime policy <? time_sub expiresAt now)
  then (s, Err ErrLifetimeTooLong)
  else if s_stateErr s then (s, Err ErrStateUnavailable)
  else if (0 <? p_MaxOutstanding policy)
          && (p_MaxOutstanding policy <=? outstandingLocked s tenantID now)
  then (s, Err ErrOutstandingCap)
  else
    let tok := mkToken id (hashSecret secret) tenantID (trim_space group) (trim_space label)
      (trim_space issuedBy) (trim_space issuedByLabel) (format_rfc3339 now)
      (format_rfc3339 expiresAt) "" "" "" "" in
    match commitTokensLocked s save (<[id := tok]> (s_tokens s)) with
    | (s', None) => (s', Ok (tok, secret))
    | (s', Some e) => (s', Err e)
    end.

Definition checkLocked (s : Store) (id tenantID : string) (now : Z) : result error Token :=
  if s_stateErr s then Err ErrStateUnavailable else
  match s_tokens s !! id with
  | None => Err ErrUnknownToken
  | Some tok =>
      if nonempty (t_RevokedAt tok) then Err ErrTokenRevoked
      else if nonempty (t_UsedAt tok) then Err (AlreadyUsedError (t_UsedBy tok) (t_UsedAt tok))
      else if expired tok now then Err ErrTokenExpired
      else if nonempty tenantID
              && negb (String.eqb (trim_space tenantID) (trim_space (t_TenantID tok)))
      then Err ErrWrongTenant
      else Ok tok
  end.

Definition verifyLocked (s : Store) (secret tenantID : string) (now : Z) : result error Token :=
  if s_stateErr s then Err ErrStateUnavailable else
  match s_byHash s !! hashSecret secret with
  | None => Err ErrUnknownToken
  | Some id => checkLocked s id tenantID now
  end.

Definition spendLocked (s : Store) (save : option save_outcome) (id deviceID tenantID : string)
    (now : Z) : Store * result error Token :=
  match checkLocked s id tenantID now with
  | Err e => (s, Err e)
  | Ok tok =>
      let tok := tok <| t_UsedAt := format_rfc3339 now |>
                     <| t_UsedBy := trim_space deviceID |> in
      match commitTokensLocked s save (<[t_ID tok := tok]> (s_tokens s)) with
      | (s', None) => (s', Ok tok)
      | (s', Some e) => (s', Err e)
      end
  end.

Definition Consume (s : Store) (save : option save_outcome) (secret tenantID deviceID : string)
    (now : Z) : Store * result error Token :=
  match verifyLocked s secret tenantID now with
  | Err e => (s, Err e)
  | Ok tok => spendLocked s save (t_ID tok) deviceID tenantID now
  end.

Definition Verify := verifyLocked.

Definition Spend (s : Store) (save : option save_outcome) (id tenantID deviceID : string)
    (now : Z) : Store * result error Token := spendLocked s save id deviceID tenantID now.

Definition Revoke (s : Store) (save : option save_outcome) (id revokedBy : string) (now : Z)
    : Store * option Token :=
  match s_tokens s !! trim_space id with
  | None => (s, None)
  | Some tok =>
      if nonempty (t_RevokedAt tok) then (s, None) else
      let tok := tok <| t_RevokedAt := format_rfc3339 now |>
                     <| t_RevokedBy := trim_space revokedBy |> in
      match commitTokensLocked s save (<[t_ID tok := tok]> (s_tokens s)) with
      | (s', None) => (s', Some tok)
      | (s', Some _) => (s', None)
      end
  end.

Definition tokenLess (a b : Token) : bool :=
  if String.eqb (t_IssuedAt a) (t_IssuedAt b) then String.ltb (t_ID a) (t_ID b)
  else String.ltb (t_IssuedAt b) (t_IssuedAt a).

Definition List_ (s : Store) (tenantID : string) : list Token :=
  let all := is_empty tenantID in
  let tenantID := trim_space tenantID in
  sort_stable tokenLess
    (List.filter (fun t => all || nonempty tenantID
                           && String.eqb (trim_space (t_TenantID t)) tenantID)
       (map_to_list (s_tokens s)).*2).

Definition ExpiringWithin (s : Store) (tenantID : string) (window now : Z) : list Token :=
  List.filter (fun t => outstanding t now
    && match parse_rfc3339 (t_ExpiresAt t) with
       | Some exp => exp <? now + window
       | None => false
       end) (List_ s tenantID).

(** The tokens of a tenant, counted and erased. *)
Definition ownedBy (tenantID : string) (t : Token) : bool :=
  String.eqb (trim_space (t_TenantID t)) tenantID.

Definition CountForTenant (s : Store) (tenantID : string) : Z :=
  let tenantID := trim_space tenantID in
  if is_empty tenantID then 0
  else Z.of_nat (size (filter (fun kt : string * Token => ownedBy tenantID kt.2 = true)
                         (s_tokens s))).

Definition RemoveTenant (s : Store) (save : option save_outcome) (tenantID : string)
    : Store * Z :=
  let n := CountForTenant s tenantID in
  let tenantID := trim_space tenantID in
  if is_empty tenantID || (n =? 0) then (s, 0) else
  let next := filter (fun kt : string * Token => ownedBy tenantID kt.2 = false) (s_tokens s) in
  match commitTokensLocked s save next with
  | (s', None) => (s', n)
  | (s', Some _) => (s', 0)
  end.
End operations.

(** * Properties *)

(** ** Runs of the durable store

    A store with a persister, its calls in any order with any save outcome, and
    restarts that read the persister back, or fail to. *)

Inductive event : Set := EvIssue (id : string) | EvSpend (id : string).

Section runs.
  Context (sha256_hex : string → string).

(** A spend counts when the call returns the token. *)
Definition spent_event (r : result error Token) : list event :=
  match r with Ok tok => [EvSpend (t_ID tok)] | Err _ => [] end.

Inductive step : Store → list event → Store → Prop :=
  | step_issue s o policy tenantID group label by_ byLabel expiresAt now secret id :
      step s [EvIssue id]
        (Issue sha256_hex s (Some o) policy tenantID group label by_ byLabel expiresAt now
           secret id).1
  | step_consume s o secret tenantID deviceID now :
      step s (spent_event (Consume sha256_hex s (Some o) secret tenantID deviceID now).2)
        (Consume sha256_hex s (Some o) secret tenantID deviceID now).1
  | step_spend s o id tenantID deviceID now :
      step s (spent_event (Spend s (Some o) id tenantID deviceID now).2)
        (Spend s (Some o) id tenantID deviceID now).1
  | step_revoke s o id by_ now : step s [] (Revoke s (Some o) id by_ now).1
  | step_remove s o tenantID : step s [] (RemoveTenant s (Some o) tenantID).1
  | step_restart s readable : step s [] (loadLocked (NewStore (s_disk s)) readable).

(** Runs from an empty disk; the trace is newest first. *)
Inductive run : Store → list event → Prop :=
  | run_boot : run (NewStore NoData) []
  | run_step s tr ev s' : run s tr → step s ev s' → run s' (ev ++ tr).

Definition issues (id : string) (tr : list event) : nat :=
  length (List.filter (fun e => match e with EvIssue i => String.eqb i id | _ => false end) tr).
Definition spends (id : string) (tr : list event) : nat :=
  length (List.filter (fun e => match e with EvSpend i => String.eqb i id | _ => false end) tr).

(** A token still unspent leaves room for one more spend. *)
Definition bound (m : tokens) (tr : list event) : Prop :=
  ∀ id t, m !! id = Some t →
    t_ID t = id ∧ (t_UsedAt t = "" → (spends id tr < issues id tr)%nat).

Definition disk_bound (d : raw) (tr : list event) : Prop :=
  match d with StateFile _ (Some m) => bound m tr | _ => True end.

Record inv (s : Store) (tr : list event) : Prop := {
  inv_once : ∀ id, (spends id tr ≤ issues id tr)%nat;
  inv_memory : bound (s_tokens s) tr;
  inv_disk : disk_bound (s_disk s) tr;
}.

Lemma format_nonempty t : format_rfc3339 t ≠ "".
Proof.
  unfold format_rfc3339. destruct (civil_from_days _) as [[y m] d].
  intros H%(f_equal String.length). rewrite !string_length_app in H. cbn in H. lia.
Qed.

Lemma commit_inv s o next tr :
  inv s tr → bound next tr → inv (commitTokensLocked s (Some o) next).1 tr.
Proof.
  intros [H1 H2 H3] Hn. unfold commitTokensLocked. destruct (s_stateErr s); [by constructor|].
  destruct o as [| |[]]; by constructor.
Qed.

(** A confirmed commit publishes exactly what was saved. *)
Lemma commit_ok s o next s' :
  commitTokensLocked s (Some o) next = (s', None) →
  s_tokens s' = next ∧ s_disk s' = marshal next.
Proof.
  unfold commitTokensLocked. destruct (s_stateErr s); [done|].
  destruct o; by intros [= <-].
Qed.

Lemma bound_issue m id tr : bound m tr → bound m (EvIssue id :: tr).
Proof.
  intros H i t Hi. destruct (H i t Hi) as [? Hu]. split; [done|]. intros Hx. specialize (Hu Hx).
  unfold spends, issues in *. cbn. destruct (String.eqb id i); cbn; lia.
Qed.

Lemma inv_issue s id tr : inv s tr → inv s (EvIssue id :: tr).
Proof.
  intros [H1 H2 H3]. split; [|by apply bound_issue|].
  - intros i. specialize (H1 i). unfold spends, issues in *. cbn.
    destruct (String.eqb id i); cbn; lia.
  - destruct (s_disk s) as [| |? [m|]]; [done..|by apply bound_issue|done].
Qed.

Lemma step_issue_inv s o policy tenantID group label by_ byLabel expiresAt now secret id tr :
  inv s tr →
  inv (Issue sha256_hex s (Some o) policy tenantID group label by_ byLabel expiresAt now
         secret id).1 (EvIssue id :: tr).
Proof.
  intros Hinv. pose proof (inv_issue s id tr Hinv) as Hi.
  unfold Issue. repeat (case_match; [exact Hi|]).
  set (tok := mkToken _ _ _ _ _ _ _ _ _ _ _ _ _).
  assert (bound (<[id := tok]> (s_tokens s)) (EvIssue id :: tr)) as Hb.
  { intros i t. destruct (decide (i = id)) as [->|Hne].
    - rewrite lookup_insert_eq. intros [= <-]. split; [done|]. intros _.
      pose proof (inv_once _ _ Hinv id). unfold spends, issues in *. cbn.
      rewrite String.eqb_refl. cbn. lia.
    - rewrite lookup_insert_ne by done. apply Hi. }
  pose proof (commit_inv s o _ _ Hi Hb) as Hc.
  destruct (commitTokensLocked s (Some o) _) as [s' [e|]]; exact Hc.
Qed.

Lemma checkLocked_ok s id tenantID now tok :
  checkLocked s id tenantID now = Ok tok →
  s_tokens s !! id = Some tok ∧ t_UsedAt tok = "" ∧ t_RevokedAt tok = "" ∧
  expired tok now = false ∧
  (tenantID = "" ∨ trim_space tenantID = trim_space (t_TenantID tok)).
Proof.
  unfold checkLocked. destruct (s_stateErr s); [done|].
  destruct (s_tokens s !! id) as [t|]; [|done].
  destruct (nonempty (t_RevokedAt t)) eqn:E1; [done|].
  destruct (nonempty (t_UsedAt t)) eqn:E2; [done|].
  destruct (expired t now) eqn:E3; [done|].
  destruct (nonempty tenantID && _) eqn:E4; [done|]. intros [= <-].
  unfold nonempty in *. apply negb_false_iff, is_empty_true in E1, E2.
  split_and!; try done. apply andb_false_iff in E4 as [E4|E4]; apply negb_false_iff in E4.
  - left. by apply is_empty_true.
  - right. by apply String.eqb_eq.
Qed.

Lemma step_spend_inv s o id deviceID tenantID now tr :
  inv s tr →
  inv (spendLocked s (Some o) id deviceID tenantID now).1
      (spent_event (spendLocked s (Some o) id deviceID tenantID now).2 ++ tr).
Proof.
  intros Hinv. unfold spendLocked.
  destruct (checkLocked s id tenantID now) as [tok|e] eqn:Hc; [|exact Hinv].
  apply checkLocked_ok in Hc as (Hid & Hu & _).
  destruct (inv_memory _ _ Hinv id tok Hid) as [Hkey Hlt]. specialize (Hlt Hu).
  set (tok' := tok <| t_UsedAt := format_rfc3339 now |> <| t_UsedBy := trim_space deviceID |>).
  assert (t_ID tok' = id) as Hkey' by done. rewrite Hkey'.
  assert (bound (<[id := tok']> (s_tokens s)) (EvSpend id :: tr)) as Hb.
  { intros i t. destruct (decide (i = id)) as [->|Hne].
    - rewrite lookup_insert_eq. intros [= <-]. split; [done|].
      intros Hx. destruct (format_nonempty now Hx).
    - rewrite lookup_insert_ne by done. intros Hi.
      destruct (inv_memory _ _ Hinv i t Hi) as [? Ht]. split; [done|].
      intros Hx. specialize (Ht Hx). unfold spends, issues in *. cbn.
      by destruct (String.eqb_spec id i). }
  assert (bound (<[id := tok']> (s_tokens s)) tr) as Hb0.
  { intros i t Hi. destruct (Hb i t Hi) as [? Ht]. split; [done|]. intros Hx.
    specialize (Ht Hx). unfold spends, issues in *. cbn in Ht.
    destruct (String.eqb id i); cbn in Ht; lia. }
  pose proof (commit_inv s o _ _ Hinv Hb0) as Hok.
  destruct (commitTokensLocked s (Some o) _) as [s' [e|]] eqn:Ec; cbn [fst snd spent_event app];
    [exact Hok|].
  apply commit_ok in Ec as [Et Ed]. rewrite Hkey'. split; [|by rewrite Et|by rewrite Ed].
  intros i. pose proof (inv_once _ _ Hinv i). unfold spends, issues in *. cbn.
  destruct (String.eqb_spec id i) as [->|]; cbn; lia.
Qed.

Lemma step_consume_inv s o secret tenantID deviceID now tr :
  inv s tr →
  inv (Consume sha256_hex s (Some o) secret tenantID deviceID now).1
      (spent_event (Consume sha256_hex s (Some o) secret tenantID deviceID now).2 ++ tr).
Proof.
  intros Hinv. unfold Consume. destruct (verifyLocked _ _ _ _ _); [by apply step_spend_inv|done].
Qed.

Lemma step_revoke_inv s o id by_ now tr : inv s tr → inv (Revoke s (Some o) id by_ now).1 tr.
Proof.
  intros Hinv. unfold Revoke. destruct (s_tokens s !! trim_space id) as [tok|] eqn:E; [|done].
  destruct (nonempty _); [done|].
  set (tok' := tok <| t_RevokedAt := _ |> <| t_RevokedBy := _ |>).
  destruct (inv_memory _ _ Hinv _ _ E) as [Hkey Hlt].
  assert (bound (<[t_ID tok' := tok']> (s_tokens s)) tr) as Hb.
  { change (t_ID tok') with (t_ID tok). rewrite Hkey. intros i t.
    destruct (decide (i = trim_space id)) as [->|Hne].
    - rewrite lookup_insert_eq. intros [= <-]. by split.
    - rewrite lookup_insert_ne by done. apply (inv_memory _ _ Hinv). }
  pose proof (commit_inv s o _ _ Hinv Hb) as Hc.
  by destruct (commitTokensLocked s (Some o) _) as [s' [e|]].
Qed.

Lemma step_remove_inv s o tenantID tr : inv s tr → inv (RemoveTenant s (Some o) tenantID).1 tr.
Proof.
  intros Hinv. unfold RemoveTenant. destruct (_ || _); [done|].
  match goal with |- context [commitTokensLocked s (Some o) ?m] => set (next := m) end.
  assert (bound next tr) as Hb.
  { intros i t [Hi _]%map_lookup_filter_Some. by apply (inv_memory _ _ Hinv). }
  pose proof (commit_inv s o _ _ Hinv Hb) as Hc.
  by destruct (commitTokensLocked s (Some o) next) as [s' [e|]].
Qed.

Lemma step_restart_inv s readable tr :
  inv s tr → inv (loadLocked (NewStore (s_disk s)) readable) tr.
Proof.
  intros [H1 H2 H3]. assert (bound ∅ tr) by (intros i t Hi; by rewrite lookup_empty in Hi).
  unfold loadLocked. destruct readable; cbn [negb]; [|by constructor]. cbn [NewStore s_disk].
  destruct (s_disk s) as [| |schema [m|]] eqn:E; try by constructor.
  destruct (String.eqb schema _); by constructor.
Qed.

Lemma run_inv s tr : run s tr → inv s tr.
Proof.
  induction 1 as [|s tr ev s' _ IH Hstep].
  - split; [done| |done]. intros i t Hi. cbn [NewStore s_tokens] in Hi.
    by apply lookup_empty_Some in Hi.
  - destruct Hstep; [by apply step_issue_inv|by apply step_consume_inv|by apply step_spend_inv
      |by apply step_revoke_inv|by apply step_remove_inv|by apply step_restart_inv].
Qed.

(** (C29) A token admits at most one machine.  Over every run of the durable
    store, with any interleaving of issues, spends, revocations, erasures and
    restarts and any outcome of the saves, a token is spent successfully no more
    often than its identifier was drawn by an issue. *)
Theorem token_spent_at_most_once s tr id :
  run s tr → (spends id tr ≤ issues id tr)%nat.
Proof. intros H. apply (inv_once _ _ (run_inv s tr H)). Qed.
End runs.

Lemma token_spent_at_most_once_witness :
  let H := fun s : string => s in
  let s1 := (Issue H (NewStore NoData) (Some Saved) DefaultPolicy "acme" "" "" "admin" ""
               (2 * second) 0 "sekrit" "ent_1").1 in
  let s2 := (Consume H s1 (Some Saved) "sekrit" "acme" "dev-1" second).1 in
  let s3 := loadLocked (NewStore (s_disk s2)) true in
  (Consume H s3 (Some Saved) "sekrit" "acme" "dev-2" second).2
    = Err (AlreadyUsedError "dev-1" (format_rfc3339 second)) ∧
  (spends "ent_1" [EvSpend "ent_1"; EvIssue "ent_1"] ≤ 1)%nat.
Proof.
  intros H s1 s2 s3. split; [vm_compute; reflexivity|].
  refine (token_spent_at_most_once H s3 [EvSpend "ent_1"; EvIssue "ent_1"] "ent_1" _).
  apply (run_step H s2 [EvSpend "ent_1"; EvIssue "ent_1"] []); [|apply step_restart].
  apply (run_step H s1 [EvIssue "ent_1"] [EvSpend "ent_1"]);
    [|apply (step_consume H s1 Saved "sekrit" "acme" "dev-1" second)].
  apply (run_step H (NewStore NoData) [] [EvIssue "ent_1"]); [apply run_boot|apply step_issue].
Defined.

(** A secret is accepted only for a stored token that is neither used
    nor revoked nor expired and that belongs to the tenant that asks, when one is
    named; a token whose expiry does not parse is never accepted. *)
Theorem consume_sound H s save secret tenantID deviceID now tok s' :
  (∀ id t, s_tokens s !! id = Some t → t_ID t = id) →
  Consume H s save secret tenantID deviceID now = (s', Ok tok) →
  ∃ id t exp, s_byHash s !! hashSecret H secret = Some id ∧ s_tokens s !! id = Some t ∧
    t_UsedAt t = "" ∧ t_RevokedAt t = "" ∧
    parse_rfc3339 (t_ExpiresAt t) = Some exp ∧ now < exp ∧
    (tenantID = "" ∨ trim_space tenantID = trim_space (t_TenantID t)) ∧
    tok = t <| t_UsedAt := format_rfc3339 now |> <| t_UsedBy := trim_space deviceID |> ∧
    s_tokens s' = <[id := tok]> (s_tokens s).
Proof.
  intros Hkeys. unfold Consume, verifyLocked. destruct (s_stateErr s); [done|].
  destruct (s_byHash s !! hashSecret H secret) as [id|]; [|done].
  destruct (checkLocked s id tenantID now) as [t|e] eqn:Hc; [|done].
  unfold spendLocked. pose proof (checkLocked_ok _ _ _ _ _ Hc) as (Hid & Hu & Hr & He & Ht).
  rewrite (Hkeys _ _ Hid), Hc.
  set (t' := t <| t_UsedAt := _ |> <| t_UsedBy := _ |>).
  assert (t_ID t' = id) as -> by apply (Hkeys _ _ Hid).
  unfold expired in He. destruct (parse_rfc3339 (t_ExpiresAt t)) as [exp|] eqn:Hexp; [|done].
  apply negb_false_iff, Z.ltb_lt in He.
  unfold commitTokensLocked. destruct (s_stateErr s); [done|].
  destruct save as [[| |w]|]; intros [= <- <-]; by exists id, t, exp.
Qed.

Lemma consume_sound_witness :
  let H := fun s : string => s in
  let t := mkToken "ent_1" "sekrit" "acme" "" "" "admin" "" "" "1970-01-01T00:00:02Z"
             "" "" "" "" in
  let s := mkStore {["ent_1" := t]} {["sekrit" := "ent_1"]} false 1 NoData in
  let tok := t <| t_UsedAt := format_rfc3339 second |> <| t_UsedBy := "dev-1" |> in
  ∃ id t exp, s_tokens s !! id = Some t ∧ parse_rfc3339 (t_ExpiresAt t) = Some exp ∧
              second < exp.
Proof.
  intros H t s tok.
  destruct (consume_sound H s None " sekrit" "acme" "dev-1" second tok
    (mkStore {["ent_1" := tok]} {["sekrit" := "ent_1"]} false 2 NoData)) as
    (id & t' & exp & _ & H2 & _ & _ & H5 & H6 & _).
  - intros id t'. change (s_tokens s) with ({["ent_1" := t]} : gmap string Token).
    intros [<- <-]%lookup_singleton_Some. reflexivity.
  - vm_compute. reflexivity.
  - exists id, t', exp. split_and!; assumption.
Defined.

End EnrollToken.
