(* ===== verification/RegionFailover.v ===== *)
(** * Region selection and failover ([src/regionfailover])

    The selector an agent drives with health probes: which of the allowed endpoints
    to steer through, when to move to another and when to deny.  A probe is its
    answers in one round. *)

From Stdlib Require Import Ascii.
From stdpp Require Import base gmap list strings.
From S2P Require Import Prelude GoStd.

Open Scope Z_scope.

Module RegionFailover.

Record RegionEndpoint := mkEndpoint {
  re_Region : string;
  re_Endpoint : string;
  re_Priority : Z;
}.

#[export] Instance RegionEndpoint_eq_dec : EqDecision RegionEndpoint.
Proof. solve_decision. Defined.

Definition zero_RegionEndpoint : RegionEndpoint := mkEndpoint "" "" 0.

(** [math.MaxInt32] *)
Definition max_int32 : Z := 2 ^ 31 - 1.

Definition effectiveRegionPriority (p : Z) : Z := if p <=? 0 then max_int32 else p.

Record Health := mkHealth { h_Reachable : bool; h_Admitted : bool; h_RTT : Z }.

Definition zero_Health : Health := mkHealth false false 0.

Definition healthy (h : Health) : bool := h_Reachable h && h_Admitted h.
(** [h.Reachable && !h.Admitted] *)
Definition denies (h : Health) : bool := h_Reachable h && negb (h_Admitted h).

Definition key_separator : ascii := ascii_of_N 0.
Definition endpointKey (ep : RegionEndpoint) : string :=
  re_Region ep +:+ String key_separator (re_Endpoint ep).

Notation probe := (RegionEndpoint → Health).

Inductive State : Set := StateConnected | StateFailClosed | StateDenied.

Record Decision := mkDecision {
  d_State : State;
  d_Current : RegionEndpoint;
  d_FailoverSet : list RegionEndpoint;
  d_Reason : string;
  d_Held : bool;
  d_HeldAdmissionDenied : bool;
  d_HeldRoundsRemaining : Z;
}.

#[export] Instance Decision_eta : Etaable Decision := fun d =>
  mkDecision (d_State d) (d_Current d) (d_FailoverSet d) (d_Reason d) (d_Held d)
    (d_HeldAdmissionDenied d) (d_HeldRoundsRemaining d).

Definition verdict (st : State) (reason : string) : Decision :=
  mkDecision st zero_RegionEndpoint [] reason false false 0.

Definition defaultUnhealthyStrikes : Z := 3.

Record Selector := mkSelector {
  s_allowed : list RegionEndpoint;
  s_home : string;
  s_current : string;
  s_currentStrikes : Z;
  s_unhealthyStrike : Z;
  s_denyOnAdmissionDeny : bool;
  s_instantRevokeOnAdmissionDeny : bool;
}.

#[export] Instance Selector_eta : Etaable Selector := fun s =>
  mkSelector (s_allowed s) (s_home s) (s_current s) (s_currentStrikes s) (s_unhealthyStrike s)
    (s_denyOnAdmissionDeny s) (s_instantRevokeOnAdmissionDeny s).

(** ** Building and reconfiguring *)

(** The loop of [normalize], with the keys seen so far. *)
Fixpoint normalizeFrom (seen : list string) (allowed : list RegionEndpoint)
    : list RegionEndpoint :=
  match allowed with
  | [] => []
  | ep :: rest =>
      let ep' := mkEndpoint (to_lower (trim_space (re_Region ep))) (trim_space (re_Endpoint ep))
                   (re_Priority ep) in
      let k := endpointKey ep' in
      if is_empty (re_Region ep') || is_empty (re_Endpoint ep') || containsString seen k
      then normalizeFrom seen rest
      else ep' :: normalizeFrom (k :: seen) rest
  end.

Definition normalize : list RegionEndpoint → list RegionEndpoint := normalizeFrom [].

Definition New (allowed : list RegionEndpoint) (home : string) : Selector :=
  mkSelector (normalize allowed) (to_lower (trim_space home)) "" 0 defaultUnhealthyStrikes
    false false.

Definition SetDenyOnAdmissionDeny (s : Selector) (v : bool) : Selector :=
  s <| s_denyOnAdmissionDeny := v |>.
Definition SetInstantRevokeOnAdmissionDeny (s : Selector) (v : bool) : Selector :=
  s <| s_instantRevokeOnAdmissionDeny := v |>.
Definition SetUnhealthyStrikes (s : Selector) (n : Z) : Selector :=
  s <| s_unhealthyStrike := if n <? 1 then 1 else n |>.

Definition ExpediteAfterTransportLoss (s : Selector) : Selector :=
  if nonempty (s_current s) && (1 <? s_unhealthyStrike s)
  then s <| s_currentStrikes := s_unhealthyStrike s - 1 |> else s.

Definition endpointFor (s : Selector) (key : string) : RegionEndpoint :=
  default zero_RegionEndpoint
    (List.find (fun ep => String.eqb (endpointKey ep) key) (s_allowed s)).

Definition inAllowed (s : Selector) (key : string) : bool :=
  existsb (fun ep => String.eqb (endpointKey ep) key) (s_allowed s).

Definition UpdateList (s : Selector) (allowed : list RegionEndpoint) (home : string) : Selector :=
  let s := s <| s_allowed := normalize allowed |> in
  let h := to_lower (trim_space home) in
  let s := if nonempty h then s <| s_home := h |> else s in
  if nonempty (s_current s) && negb (inAllowed s (s_current s))
  then s <| s_current := "" |> <| s_currentStrikes := 0 |> else s.

Definition Current (s : Selector) : string :=
  if is_empty (s_current s) then ""
  else match cut (String key_separator "") (s_current s) with
       | Some (region, _) => region
       | None => s_current s
       end.

(** ** One round *)

Definition probeResults (allowed : list RegionEndpoint) (p : probe) : gmap string Health :=
  set_keys ∅ (List.map (fun ep => (endpointKey ep, p ep)) allowed).

Definition resultOf (results : gmap string Health) (key : string) : Health :=
  default zero_Health (results !! key).

Definition positions (order : list RegionEndpoint) : gmap string Z :=
  set_keys ∅ (imap (fun i ep => (endpointKey ep, Z.of_nat i)) order).

(** The comparator of [rankHealthy]. *)
Definition rankLess (results : gmap string Health) (home : string) (pos : gmap string Z)
    : RegionEndpoint → RegionEndpoint → bool :=
  lex_Z (fun ep => effectiveRegionPriority (re_Priority ep))
    (lex_Z (fun ep => h_RTT (resultOf results (endpointKey ep)))
      (lex_Z (fun ep => if String.eqb (re_Region ep) home then 0 else 1)
        (lex_Z (fun ep => default 0 (pos !! endpointKey ep)) (fun _ _ => false)))).

Definition rankHealthy (l : list RegionEndpoint) (results : gmap string Health)
    (home : string) (order : list RegionEndpoint) : list RegionEndpoint :=
  sort_stable (rankLess results home (positions order)) l.

(** The last healthy door with the current key; else the degraded door itself. *)
Definition connected (s : Selector) (currentKey : string) (ranked : list RegionEndpoint)
    (reason : string) : Decision :=
  let is_current ep := String.eqb (endpointKey ep) currentKey in
  let current := default zero_RegionEndpoint (last (List.filter is_current ranked)) in
  let current := if is_empty (re_Region current) then endpointFor s currentKey else current in
  mkDecision StateConnected current (List.filter (fun ep => negb (is_current ep)) ranked) reason
    false false 0.

(** The end of [Evaluate]: no door is held. *)
Definition reselect (s : Selector) (ranked : list RegionEndpoint) (anyDenied : bool)
    : Selector * Decision :=
  let cleared := s <| s_current := "" |> <| s_currentStrikes := 0 |> in
  if s_denyOnAdmissionDeny s && anyDenied then
    (cleared, verdict StateDenied "allowed endpoint denied admission — refusing endpoint shopping")
  else match ranked with
       | best :: _ =>
           let s := s <| s_current := endpointKey best |> <| s_currentStrikes := 0 |> in
           (s, connected s (s_current s) ranked "selected nearest healthy allowed endpoint")
       | [] =>
           if anyDenied then
             (cleared, verdict StateDenied "allowed region(s) reachable but admission denied this device (revoked/not-enrolled) — surfacing deny, not failing over")
           else
             (cleared, verdict StateFailClosed "no healthy region within the residency boundary — denying egress (never crossing the boundary)")
       end.

Definition Evaluate (s : Selector) (p : probe) : Selector * Decision :=
  let results := probeResults (s_allowed s) p in
  let up := List.filter (fun ep => healthy (p ep)) (s_allowed s) in
  let anyDenied := existsb (fun ep => negb (healthy (p ep)) && denies (p ep)) (s_allowed s) in
  let ranked := rankHealthy up results (s_home s) (s_allowed s) in
  if is_empty (s_current s) then reselect s ranked anyDenied else
  let cur := resultOf results (s_current s) in
  if healthy cur then
    let s := s <| s_currentStrikes := 0 |> in
    (s, connected s (s_current s) ranked "current region healthy (sticky)")
  else if s_instantRevokeOnAdmissionDeny s && denies cur then
    (s <| s_currentStrikes := s_unhealthyStrike s |>,
     verdict StateDenied "current region admission-denied (revoked/not-enrolled) — instant revoke (hysteresis bypassed for a revocation)")
  else
    let s := s <| s_currentStrikes := s_currentStrikes s + 1 |> in
    if s_currentStrikes s <? s_unhealthyStrike s then
      (s, (connected s (s_current s) ranked "current degraded but within hysteresis")
            <| d_Held := true |> <| d_HeldAdmissionDenied := denies cur |>
            <| d_HeldRoundsRemaining := s_unhealthyStrike s - s_currentStrikes s |>)
    else if s_denyOnAdmissionDeny s && denies cur then
      (s <| s_currentStrikes := s_unhealthyStrike s |>,
       verdict StateDenied "current region persistently denies admission (revoked/not-enrolled) — surfacing deny, not failing over to a region that may not yet have the revocation")
    else reselect s ranked anyDenied.

(** ** The operator's preference ([priority_config.go]) *)

Definition normalizeRegionID (r : string) : string := to_lower (trim_space r).

Inductive priority_error : Set :=
  | NotRegionEqualsN (entry : string)
  | NotAWholeNumber (entry prio : string)
  | NotARank (what : string) (n : Z)
  | TwoPriorities (region : string)
  | EmptyRegion
  | ConflictingSpellings (first second : string) (rank1 rank2 : Z).

Definition checkRank (what : string) (n : Z) : option priority_error :=
  if n <=? 0 then Some (NotARank what n) else None.

(** The loop of [ParsePriority]. *)
Fixpoint parseEntries (entries : list string) (out : gmap string Z)
    : result priority_error (gmap string Z) :=
  match entries with
  | [] => Ok out
  | entry :: rest =>
      let entry := trim_space entry in
      if is_empty entry then parseEntries rest out else
      let '(region, prio, ok) :=
        match cut "=" entry with
        | Some (r, p) => (r, p, true)
        | None => (entry, "", false)
        end in
      let region := normalizeRegionID region in
      let prio := trim_space prio in
      if negb ok || is_empty region || is_empty prio then Err (NotRegionEqualsN entry) else
      match atoi prio with
      | None => Err (NotAWholeNumber entry prio)
      | Some n =>
          match checkRank entry n with
          | Some e => Err e
          | None => if bool_decide (is_Some (out !! region)) then Err (TwoPriorities region)
                    else parseEntries rest (<[region := n]> out)
          end
      end
  end.

Definition ParsePriority (raw : string) : result priority_error (gmap string Z) :=
  let raw := trim_space raw in
  if is_empty raw then Ok ∅ else parseEntries (split_byte "," raw) ∅.

(** The loop of [ValidatePriority] over the sorted ids; [seen] maps a matched form to
    its first spelling. *)
Fixpoint validateFrom (pri : gmap string Z) (seen : gmap string string) (regions : list string)
    : list priority_error :=
  match regions with
  | [] => []
  | r :: rest =>
      let rank x := default 0 (pri !! x) in
      if is_blank r then EmptyRegion :: validateFrom pri seen rest else
      let k := normalizeRegionID r in
      let '(errs, seen') :=
        match seen !! k with
        | Some first =>
            (when (negb (rank first =? rank r))
               [ConflictingSpellings first r (rank first) (rank r)], seen)
        | None => ([], <[k := r]> seen)
        end in
      errs ++ match checkRank r (rank r) with Some e => [e] | None => [] end
           ++ validateFrom pri seen' rest
  end.

Definition ValidatePriority (pri : gmap string Z) : list priority_error :=
  validateFrom pri ∅ (sort_strings (map_to_list pri).*1).

Definition normalizePriorityKeys (pri : gmap string Z) : gmap string Z :=
  map_fold (fun r n out =>
    let k := normalizeRegionID r in
    match out !! k with
    | Some prev => if prev <=? n then out else <[k := n]> out
    | None => <[k := n]> out
    end) ∅ pri.

Definition ApplyPriority (eps : list RegionEndpoint) (pri : gmap string Z)
    : list RegionEndpoint :=
  let norm := normalizePriorityKeys pri in
  List.map (fun ep => match norm !! normalizeRegionID (re_Region ep) with
                      | Some n => mkEndpoint (re_Region ep) (re_Endpoint ep) n
                      | None => ep
                      end) eps.

Definition RenderPriority (pri : gmap string Z) : string :=
  join "," (List.map (fun kv : string * Z => kv.1 +:+ "=" +:+ itoa kv.2)
    (sort_stable (lex_Z snd (lex_string_lt fst)) (map_to_list pri))).

(** * Properties *)

#[export] Instance rankLess_weak results home pos : WeakOrder (rankLess results home pos).
Proof. unfold rankLess. repeat apply lex_Z_weak. by split. Qed.

(** ** The allowed list *)

Definition endpoint_ok (ep : RegionEndpoint) : Prop := re_Region ep ≠ "" ∧ re_Endpoint ep ≠ "".

(** Every door is named and no two have the same key. *)
Definition allowed_ok (l : list RegionEndpoint) : Prop :=
  Forall endpoint_ok l ∧ NoDup (endpointKey <$> l).

Lemma normalizeFrom_ok seen l :
  Forall endpoint_ok (normalizeFrom seen l) ∧ NoDup (endpointKey <$> normalizeFrom seen l) ∧
  ∀ k, k ∈ seen → k ∉ endpointKey <$> normalizeFrom seen l.
Proof.
  revert seen. induction l as [|ep l IH]; intros seen; cbn [normalizeFrom].
  { split_and!; [constructor|constructor|]. intros k _ Hk. by apply elem_of_nil in Hk. }
  set (ep' := mkEndpoint _ _ _). destruct (_ || _) eqn:E; [apply IH|].
  apply orb_false_elim in E as [E Eseen]. apply orb_false_elim in E as [Er Ee].
  destruct (IH (endpointKey ep' :: seen)) as (H1 & H2 & H3). split_and!.
  - constructor; [|done]. split; intros Hx; rewrite Hx in *; done.
  - cbn. constructor; [apply H3; left|done].
  - intros k Hk. cbn. intros [->|Hin]%elem_of_cons.
    + apply containsString_spec in Hk. congruence.
    + eapply H3; [right; exact Hk|exact Hin].
Qed.

Lemma normalize_ok l : allowed_ok (normalize l).
Proof. destruct (normalizeFrom_ok [] l) as (? & ? & _). by split. Qed.

Lemma inAllowed_spec s k : inAllowed s k = true ↔ ∃ ep, ep ∈ s_allowed s ∧ endpointKey ep = k.
Proof.
  unfold inAllowed. rewrite existsb_exists. setoid_rewrite String.eqb_eq.
  by setoid_rewrite list_elem_of_In.
Qed.

Lemma endpointKey_nonempty ep : is_empty (endpointKey ep) = false.
Proof. unfold endpointKey. by destruct (re_Region ep). Qed.

(** What every reachable selector satisfies. *)
Record inv (s : Selector) : Prop := {
  inv_allowed : allowed_ok (s_allowed s);
  inv_current : s_current s = "" ∨ ∃ ep, ep ∈ s_allowed s ∧ endpointKey ep = s_current s;
  inv_strikes : 0 ≤ s_currentStrikes s;
  inv_threshold : 1 ≤ s_unhealthyStrike s;
}.

Lemma key_inj s a b :
  allowed_ok (s_allowed s) → a ∈ s_allowed s → b ∈ s_allowed s →
  endpointKey a = endpointKey b → a = b.
Proof.
  intros [_ Hnd] Ha Hb Hk. apply list_elem_of_lookup in Ha as [i Hi].
  apply list_elem_of_lookup in Hb as [j Hj].
  assert (i = j) as ->.
  { eapply NoDup_lookup; [exact Hnd| |]; rewrite list_lookup_fmap; [by rewrite Hi|].
    rewrite Hj. cbn. by rewrite Hk. }
  congruence.
Qed.

(** ** Results of a round *)

Lemma probeResults_lookup l p ep :
  NoDup (endpointKey <$> l) → ep ∈ l → resultOf (probeResults l p) (endpointKey ep) = p ep.
Proof.
  intros Hnd Hin. unfold resultOf, probeResults.
  apply list_elem_of_split in Hin as (l1 & l2 & ->).
  rewrite fmap_app, fmap_cons in Hnd. apply NoDup_app in Hnd as (_ & _ & Hnd).
  apply NoDup_cons in Hnd as [Hni _]. rewrite List.map_app. cbn [List.map].
  rewrite set_keys_last; [done|]. contradict Hni.
  apply list_elem_of_fmap in Hni as ([k h] & -> & Hin).
  apply list_elem_of_In, in_map_iff in Hin as (e & [= <- <-] & He).
  apply list_elem_of_fmap. exists e. split; [done|]. by apply list_elem_of_In.
Qed.

Lemma elem_of_rank l r h o ep : ep ∈ rankHealthy l r h o ↔ ep ∈ l.
Proof. unfold rankHealthy. by rewrite (sort_stable_perm (rankLess r h (positions o)) l). Qed.

Lemma elem_of_filter_b {A} (f : A → bool) l x : x ∈ List.filter f l ↔ x ∈ l ∧ f x = true.
Proof. rewrite !list_elem_of_In. apply List.filter_In. Qed.

(** The healthy doors of a round, ranked. *)
Definition rankedUp (s : Selector) (p : probe) : list RegionEndpoint :=
  rankHealthy (List.filter (fun ep => healthy (p ep)) (s_allowed s))
    (probeResults (s_allowed s) p) (s_home s) (s_allowed s).

Lemma elem_of_rankedUp s p ep :
  ep ∈ rankedUp s p ↔ ep ∈ s_allowed s ∧ healthy (p ep) = true.
Proof. unfold rankedUp. by rewrite elem_of_rank, elem_of_filter_b. Qed.

Lemma connected_current s ep ranked reason :
  allowed_ok (s_allowed s) → ep ∈ s_allowed s → ranked ⊆ s_allowed s →
  d_Current (connected s (endpointKey ep) ranked reason) = ep.
Proof.
  intros Hok Hin Hsub. unfold connected. cbn [d_Current].
  set (l := List.filter _ ranked).
  assert (∀ x, x ∈ l → x = ep) as Hl.
  { intros x [Hx Hk%String.eqb_eq]%elem_of_filter_b. eapply key_inj; eauto. }
  destruct (last l) as [x|] eqn:E; cbn.
  - apply last_Some_elem_of in E. rewrite (Hl x E). destruct Hok as [Hok _].
    rewrite Forall_forall in Hok. destruct (Hok ep Hin) as [Hr _].
    destruct (is_empty (re_Region ep)) eqn:Em; [|done]. apply is_empty_true in Em. contradiction.
  - unfold endpointFor. destruct (List.find _ _) as [y|] eqn:Ef.
    + apply find_some in Ef as [Hy Hk%String.eqb_eq]. apply list_elem_of_In in Hy.
      cbn. eapply key_inj; eauto.
    + eapply find_none in Ef; [|by apply list_elem_of_In].
      by rewrite String.eqb_refl in Ef.
Qed.

Lemma connected_state s k ranked reason : d_State (connected s k ranked reason) = StateConnected.
Proof. done. Qed.

(** ** One round, case by case *)

(** What a round decides when nothing is held. *)
Lemma reselect_cases s p any :
  let r := reselect s (rankedUp s p) any in
  s_allowed r.1 = s_allowed s ∧
  (s_current r.1 = "" ∧ d_State r.2 ≠ StateConnected ∧ s_currentStrikes r.1 = 0 ∧
   (d_State r.2 = StateFailClosed → rankedUp s p = [])
   ∨ ∃ best rest, rankedUp s p = best :: rest ∧ s_current r.1 = endpointKey best ∧
       s_currentStrikes r.1 = 0 ∧
       r.2 = connected r.1 (endpointKey best) (best :: rest)
               "selected nearest healthy allowed endpoint") ∧
  s_unhealthyStrike r.1 = s_unhealthyStrike s ∧ d_Held r.2 = false.
Proof.
  cbn zeta. unfold reselect. destruct (_ && _).
  { split_and!; try done. by left. }
  destruct (rankedUp s p) as [|best rest].
  { destruct any; (split_and!; try done; by left). }
  split_and!; try done. right. by exists best, rest.
Qed.

(** A round with a current door, in terms of that door's answer. *)
Lemma Evaluate_current s p ep :
  inv s → ep ∈ s_allowed s → s_current s = endpointKey ep →
  let any := existsb (fun e => negb (healthy (p e)) && denies (p e)) (s_allowed s) in
  let s1 := s <| s_currentStrikes := s_currentStrikes s + 1 |> in
  Evaluate s p =
  if healthy (p ep) then
    (s <| s_currentStrikes := 0 |>,
     connected (s <| s_currentStrikes := 0 |>) (endpointKey ep) (rankedUp s p)
       "current region healthy (sticky)")
  else if s_instantRevokeOnAdmissionDeny s && denies (p ep) then
    (s <| s_currentStrikes := s_unhealthyStrike s |>,
     verdict StateDenied "current region admission-denied (revoked/not-enrolled) — instant revoke (hysteresis bypassed for a revocation)")
  else if s_currentStrikes s + 1 <? s_unhealthyStrike s then
    (s1, (connected s1 (endpointKey ep) (rankedUp s p) "current degraded but within hysteresis")
           <| d_Held := true |> <| d_HeldAdmissionDenied := denies (p ep) |>
           <| d_HeldRoundsRemaining := s_unhealthyStrike s - (s_currentStrikes s + 1) |>)
  else if s_denyOnAdmissionDeny s && denies (p ep) then
    (s1 <| s_currentStrikes := s_unhealthyStrike s |>,
     verdict StateDenied "current region persistently denies admission (revoked/not-enrolled) — surfacing deny, not failing over to a region that may not yet have the revocation")
  else reselect s1 (rankedUp s1 p) any.
Proof.
  intros [[Hok Hnd] _ _ _] Hin Hc. cbn zeta. unfold Evaluate. cbn zeta. rewrite Hc.
  rewrite endpointKey_nonempty, (probeResults_lookup (s_allowed s) p ep Hnd Hin).
  unfold rankedUp. destruct s; cbn in *. subst.
  destruct (healthy (p ep)); [done|]. destruct (_ && _); [done|].
  destruct (_ <? _); [done|]. destruct (_ && _); done.
Qed.

Lemma Evaluate_none s p :
  s_current s = "" →
  Evaluate s p = reselect s (rankedUp s p)
    (existsb (fun e => negb (healthy (p e)) && denies (p e)) (s_allowed s)).
Proof. intros H. unfold Evaluate, rankedUp. cbn zeta. by rewrite H. Qed.

(** What holds of a connected decision. *)
Definition connected_ok (s : Selector) (p : probe) (d : Decision) : Prop :=
  d_Current d ∈ s_allowed s ∧
  (healthy (p (d_Current d)) = true ∨
   d_Held d = true ∧ endpointKey (d_Current d) = s_current s) ∧
  ∀ ep, ep ∈ d_FailoverSet d → ep ∈ s_allowed s ∧ healthy (p ep) = true.

Lemma connected_failover s p k t reason ep :
  ep ∈ d_FailoverSet (connected t k (rankedUp s p) reason) →
  ep ∈ s_allowed s ∧ healthy (p ep) = true.
Proof. cbn. intros [Hin _]%elem_of_filter_b. by apply elem_of_rankedUp. Qed.

Lemma rankedUp_allowed s p : rankedUp s p ⊆ s_allowed s.
Proof. intros ep. rewrite elem_of_rankedUp. tauto. Qed.

Lemma reselect_ok s p any d s' :
  allowed_ok (s_allowed s) → reselect s (rankedUp s p) any = (s', d) →
  d_State d = StateConnected → connected_ok s p d ∧ s_current s' = endpointKey (d_Current d).
Proof.
  intros Hok Hr. pose proof (reselect_cases s p any) as H. rewrite Hr in H. cbn [fst snd] in H.
  destruct H as (Ha & [(_ & Hn & _)|(best & rest & Hranked & Hc & _ & ->)] & _); [done|].
  intros _. assert (best ∈ rankedUp s p) as Hb by (rewrite Hranked; left).
  rewrite <- Hranked. apply elem_of_rankedUp in Hb as [Hb Hh].
  assert (d_Current (connected s' (endpointKey best) (rankedUp s p)
    "selected nearest healthy allowed endpoint") = best) as Hcur.
  { apply connected_current; [by rewrite Ha..|]. rewrite Ha. apply rankedUp_allowed. }
  unfold connected_ok. rewrite Hcur. split_and!; [done|by left| |done].
  intros ep. apply connected_failover.
Qed.

(** One round keeps the invariant, connects only to allowed doors, and never changes
    the allowed list. *)
Lemma Evaluate_spec s p :
  inv s →
  inv (Evaluate s p).1 ∧ s_allowed (Evaluate s p).1 = s_allowed s ∧
  (d_State (Evaluate s p).2 = StateConnected → connected_ok s p (Evaluate s p).2).
Proof.
  intros Hinv. pose proof Hinv as [Hok Hcur Hstr Hthr].
  assert (∀ t any, s_allowed t = s_allowed s → s_unhealthyStrike t = s_unhealthyStrike s →
    let r := reselect t (rankedUp t p) any in
    inv r.1 ∧ s_allowed r.1 = s_allowed s ∧
    (d_State r.2 = StateConnected → connected_ok s p r.2)) as Hre.
  { intros t any Ha Ht. cbn zeta. pose proof (reselect_cases t p any) as (H1 & H2 & H3 & _).
    assert (allowed_ok (s_allowed t)) as Hokt by (by rewrite Ha).
    split_and!; [|by rewrite H1|].
    - destruct H2 as [(Hc & _ & Hs & _)|(best & rest & Hr & Hc & Hs & _)];
        (split; [by rewrite H1|..|rewrite H3, Ht; done]); rewrite ?Hs; try done; [by left|].
      right. exists best. rewrite H1. split; [|done].
      apply rankedUp_allowed with (p := p). rewrite Hr. left.
    - intros Hd. destruct (reselect t (rankedUp t p) any) as [s' d] eqn:E.
      destruct (reselect_ok t p any d s' Hokt E Hd) as [[? [? ?]] ?]. cbn [snd].
      unfold connected_ok. rewrite <- Ha. split_and!; [done| |done].
      destruct H2 as [(_ & Hn & _)|(best & rest & Hr & _ & _ & Hdd)]; [done|].
      left. cbn [fst snd] in *. subst d. assert (best ∈ rankedUp t p) as Hb by (rewrite Hr; left).
      apply elem_of_rankedUp in Hb as [Hb Hh].
      rewrite connected_current; [done|by rewrite H1..|]. rewrite H1, <- Hr.
      apply rankedUp_allowed. }
  destruct Hcur as [Hnone|(ep & Hin & Hkey)].
  { rewrite Evaluate_none by done. by apply Hre. }
  rewrite (Evaluate_current s p ep) by done. cbn zeta.
  assert (∀ n, 0 ≤ n → inv (s <| s_currentStrikes := n |>)) as Hn.
  { intros n ?. split; cbn; [done|right; by exists ep|done|done]. }
  assert (∀ t reason, s_allowed t = s_allowed s →
    d_Current (connected t (endpointKey ep) (rankedUp s p) reason) = ep) as Hc.
  { intros t reason Ha. apply connected_current; rewrite ?Ha; try done. apply rankedUp_allowed. }
  destruct (healthy (p ep)) eqn:Eh.
  { split_and!; [by apply Hn|done|]. intros _. unfold connected_ok. cbn [snd].
    rewrite Hc by done. split_and!; [done|by left|]. intros x. apply connected_failover. }
  destruct (_ && _); [split_and!; [apply Hn; cbn; lia|done|done]|].
  destruct (_ <? _).
  { split_and!; [apply Hn; lia|done|]. intros _. unfold connected_ok. cbn [snd].
    change (d_Current (_ <| d_HeldRoundsRemaining := _ |>)) with
      (d_Current (connected (s <| s_currentStrikes := s_currentStrikes s + 1 |>)
        (endpointKey ep) (rankedUp s p) "current degraded but within hysteresis")).
    rewrite Hc by done. split_and!; [done|by right|]. intros x. apply connected_failover. }
  destruct (_ && _).
  { split_and!; [|done|done]. cbn [fst]. apply (Hn (s_unhealthyStrike s)). lia. }
  by apply Hre.
Qed.

(** ** Reachable selectors *)

Inductive reachable : Selector → list RegionEndpoint → Prop :=
  | reach_new allowed home : reachable (New allowed home) allowed
  | reach_update s l allowed home :
      reachable s l → reachable (UpdateList s allowed home) allowed
  | reach_round s l p : reachable s l → reachable (Evaluate s p).1 l
  | reach_expedite s l : reachable s l → reachable (ExpediteAfterTransportLoss s) l
  | reach_strikes s l n : reachable s l → reachable (SetUnhealthyStrikes s n) l
  | reach_deny s l v : reachable s l → reachable (SetDenyOnAdmissionDeny s v) l
  | reach_instant s l v : reachable s l → reachable (SetInstantRevokeOnAdmissionDeny s v) l.

Lemma UpdateList_inv s allowed home : inv s → inv (UpdateList s allowed home).
Proof.
  intros [_ Hcur Hstr Hthr]. unfold UpdateList. cbn zeta.
  set (s1 := if nonempty _ then _ else _).
  assert (s_allowed s1 = normalize allowed ∧ s_current s1 = s_current s ∧
    s_currentStrikes s1 = s_currentStrikes s ∧ s_unhealthyStrike s1 = s_unhealthyStrike s)
    as (Ha & Hc & Hs & Ht) by (unfold s1; by destruct (nonempty _)).
  pose proof (normalize_ok allowed) as Hok. rewrite <- Ha in Hok. clearbody s1.
  destruct (nonempty (s_current s1)) eqn:En; cbn [andb].
  - destruct (inAllowed s1 (s_current s1)) eqn:Ei; cbn [negb].
    + split; [done| |lia|lia]. right. apply inAllowed_spec in Ei as (ep & ? & ?). eauto.
    + split; cbn; [done|by left|lia|lia].
  - split; [done| |lia|lia]. left. apply negb_false_iff in En. by apply is_empty_true.
Qed.

Lemma reachable_inv s l : reachable s l → inv s ∧ s_allowed s = normalize l.
Proof.
  induction 1 as [l home|s l l' home _ [IH _]|s l p _ [IH Ha]|s l _ [IH Ha]|s l n _ [IH Ha]
    |s l v _ [IH Ha]|s l v _ [IH Ha]].
  - split; [|done]. split; cbn; [apply normalize_ok|by left|lia|unfold defaultUnhealthyStrikes; lia].
  - split; [by apply UpdateList_inv|]. unfold UpdateList. cbn zeta. by repeat case_match.
  - destruct (Evaluate_spec s p IH) as (? & H & _). by rewrite H.
  - unfold ExpediteAfterTransportLoss. destruct (_ && _) eqn:E; [|done].
    apply andb_prop in E as [_ E%Z.ltb_lt]. destruct IH as [? ? ? ?].
    split; [|done]. split; cbn; try done. lia.
  - destruct IH as [? ? ? ?]. split; [|done]. unfold SetUnhealthyStrikes. split; cbn; try done.
    destruct (Z.ltb_spec n 1); lia.
  - destruct IH. split; [|done]. by split.
  - destruct IH. split; [|done]. by split.
Qed.

(** Traffic never leaves the residency boundary.  In every reachable
    selector, whatever the probes answered before, a connected decision steers
    through a door of the list the server gave last, the alternates it names are
    healthy doors of that list, and the door itself is healthy unless the decision
    says it is held over a degraded one. *)
Theorem connected_within_boundary s l p :
  reachable s l → d_State (Evaluate s p).2 = StateConnected →
  d_Current (Evaluate s p).2 ∈ normalize l ∧
  (healthy (p (d_Current (Evaluate s p).2)) = true ∨ d_Held (Evaluate s p).2 = true) ∧
  ∀ ep, ep ∈ d_FailoverSet (Evaluate s p).2 → ep ∈ normalize l ∧ healthy (p ep) = true.
Proof.
  intros [Hinv Ha]%reachable_inv Hd. rewrite <- Ha.
  destruct (Evaluate_spec s p Hinv) as (_ & _ & H). destruct (H Hd) as (? & ? & ?).
  split_and!; [done|naive_solver|done].
Qed.

Lemma connected_within_boundary_witness :
  let tokyo := mkEndpoint " Tokyo" "https://t" 2 in
  let osaka := mkEndpoint "osaka" "https://o" 1 in
  let s := New [tokyo; osaka] "tokyo" in
  let p := fun ep => mkHealth true true 5 in
  d_Current (Evaluate s p).2 ∈ normalize [tokyo; osaka] ∧
  d_Current (Evaluate s p).2 = osaka.
Proof.
  intros tokyo osaka s p. split; [|vm_compute; reflexivity].
  exact (proj1 (connected_within_boundary s [tokyo; osaka] p (reach_new _ _) eq_refl)).
Defined.

(** The fail-closed verdict is given only when no allowed door is
    healthy, and when none is healthy the agent is either denied or held on its
    current door for a bounded time: it is never moved to another. *)
Theorem fail_closed_sound s l p :
  reachable s l →
  (d_State (Evaluate s p).2 = StateFailClosed →
   ∀ ep, ep ∈ normalize l → healthy (p ep) = false) ∧
  ((∀ ep, ep ∈ normalize l → healthy (p ep) = false) →
   d_State (Evaluate s p).2 = StateConnected →
   d_Held (Evaluate s p).2 = true ∧
   endpointKey (d_Current (Evaluate s p).2) = s_current s).
Proof.
  intros [Hinv Ha]%reachable_inv. rewrite <- Ha. split.
  - assert (∀ t any, s_allowed t = s_allowed s →
      d_State (reselect t (rankedUp t p) any).2 = StateFailClosed →
      ∀ ep, ep ∈ s_allowed s → healthy (p ep) = false) as Hre.
    { intros t any Hat Hd ep Hep. apply not_true_iff_false. intros Hh.
      assert (ep ∈ rankedUp t p) as Hr by (apply elem_of_rankedUp; by rewrite Hat).
      destruct (reselect_cases t p any) as (_ & [(_ & _ & _ & Hn)|(b & r & _ & _ & _ & Hdd)] & _).
      - rewrite (Hn Hd) in Hr. by apply elem_of_nil in Hr.
      - by rewrite Hdd in Hd. }
    destruct (inv_current s Hinv) as [Hnone|(ep & Hin & Hkey)].
    + rewrite Evaluate_none by done. by apply Hre.
    + rewrite (Evaluate_current s p ep) by done. cbn zeta.
      destruct (healthy (p ep)); [done|]. destruct (_ && _); [done|].
      destruct (_ <? _); [done|]. destruct (_ && _); [done|]. by apply Hre.
  - intros Hn Hd. destruct (Evaluate_spec s p Hinv) as (_ & _ & H).
    destruct (H Hd) as (Hin & [Hh|?] & _); [|done]. by rewrite Hn in Hh.
Qed.

Lemma fail_closed_sound_witness :
  let s := New [mkEndpoint "tokyo" "https://t" 1] "tokyo" in
  let p := fun ep => mkHealth false false 0 in
  d_State (Evaluate s p).2 = StateFailClosed ∧
  ∀ ep, ep ∈ normalize [mkEndpoint "tokyo" "https://t" 1] → healthy (p ep) = false.
Proof.
  intros s p. split; [reflexivity|].
  exact (proj1 (fail_closed_sound s [mkEndpoint "tokyo" "https://t" 1] p (reach_new _ _)) eq_refl).
Defined.

(** A device agent cannot ride the propagation of its own revocation.
    While the current door answers and refuses admission, a selector that treats a
    refusal as a revocation stays pinned to that door: the round is denied, or held
    on the same door during the hysteresis, and no other door is selected. *)
Theorem revoked_never_moves s l p ep :
  reachable s l → s_denyOnAdmissionDeny s = true →
  ep ∈ normalize l → s_current s = endpointKey ep → denies (p ep) = true →
  s_current (Evaluate s p).1 = endpointKey ep ∧
  (d_State (Evaluate s p).2 = StateDenied ∨
   d_State (Evaluate s p).2 = StateConnected ∧ d_Current (Evaluate s p).2 = ep ∧
   d_Held (Evaluate s p).2 = true ∧ d_HeldAdmissionDenied (Evaluate s p).2 = true).
Proof.
  intros [Hinv Ha]%reachable_inv Hdeny Hin Hkey Hd. rewrite <- Ha in Hin.
  rewrite (Evaluate_current s p ep) by done. cbn zeta.
  assert (healthy (p ep) = false) as ->.
  { unfold healthy, denies in *. apply andb_prop in Hd as [-> Hd].
    by apply negb_true_iff in Hd as ->. }
  rewrite Hd, Hdeny, !andb_true_r. cbn [andb].
  destruct (s_instantRevokeOnAdmissionDeny s); [split; [done|by left]|].
  destruct (_ <? _); [|split; [done|by left]].
  split; [done|]. right. split_and!; try done.
  change (d_Current (_ <| d_HeldRoundsRemaining := _ |>)) with
    (d_Current (connected (s <| s_currentStrikes := s_currentStrikes s + 1 |>)
      (endpointKey ep) (rankedUp s p) "current degraded but within hysteresis")).
  apply connected_current; [apply (inv_allowed s Hinv)|exact Hin|exact (rankedUp_allowed s p)].
Qed.

Lemma revoked_never_moves_witness :
  let tokyo := mkEndpoint "tokyo" "https://t" 1 in
  let osaka := mkEndpoint "osaka" "https://o" 2 in
  let s0 := SetDenyOnAdmissionDeny (New [tokyo; osaka] "tokyo") true in
  let s := (Evaluate s0 (fun ep => mkHealth true true 5)).1 in
  let p := fun ep => mkHealth true (String.eqb (re_Region ep) "osaka") 5 in
  s_current (Evaluate s p).1 = endpointKey tokyo.
Proof.
  intros tokyo osaka s0 s p.
  refine (proj1 (revoked_never_moves s [tokyo; osaka] p tokyo _ eq_refl _ eq_refl eq_refl)).
  - apply reach_round, reach_deny, reach_new.
  - apply list_elem_of_In. vm_compute. left. reflexivity.
Defined.

Lemma rankLess_priority results home pos a b :
  rankLess results home pos b a = false →
  effectiveRegionPriority (re_Priority a) ≤ effectiveRegionPriority (re_Priority b).
Proof.
  unfold rankLess, lex_Z at 1.
  destruct (Z.eqb_spec (effectiveRegionPriority (re_Priority b))
              (effectiveRegionPriority (re_Priority a))); [lia|].
  intros ?%Z.ltb_ge. lia.
Qed.

Lemma rankLess_rtt results home pos a b :
  rankLess results home pos b a = false →
  effectiveRegionPriority (re_Priority a) = effectiveRegionPriority (re_Priority b) →
  h_RTT (resultOf results (endpointKey a)) ≤ h_RTT (resultOf results (endpointKey b)).
Proof.
  unfold rankLess. intros H E. unfold lex_Z at 1 2 in H. rewrite <- E, Z.eqb_refl in H.
  destruct (Z.eqb_spec (h_RTT (resultOf results (endpointKey b)))
              (h_RTT (resultOf results (endpointKey a)))); [lia|].
  apply Z.ltb_ge in H. lia.
Qed.

(** A selector without a current door connects to the door the operator
    prefers: no healthy door has a smaller rank (an unranked one counts as last), and
    among equally ranked doors none answered faster. *)
Theorem selects_preferred s l p :
  reachable s l → s_current s = "" → d_State (Evaluate s p).2 = StateConnected →
  ∀ ep, ep ∈ normalize l → healthy (p ep) = true →
  let best := d_Current (Evaluate s p).2 in
  effectiveRegionPriority (re_Priority best) ≤ effectiveRegionPriority (re_Priority ep) ∧
  (effectiveRegionPriority (re_Priority best) = effectiveRegionPriority (re_Priority ep) →
   h_RTT (p best) ≤ h_RTT (p ep)).
Proof.
  intros [Hinv Ha]%reachable_inv Hnone Hd ep Hin Hh. rewrite <- Ha in Hin. cbn zeta.
  pose proof Hinv as [[Hok Hnd] _ _ _].
  rewrite Evaluate_none in Hd |- * by done.
  set (any := existsb _ _) in *.
  pose proof (reselect_cases s p any) as
    (H1 & [(_ & Hn & _)|(best & rest & Hr & _ & _ & Hdd)] & _); [done|].
  assert (best ∈ rankedUp s p) as Hb by (rewrite Hr; left).
  assert (ep ∈ rankedUp s p) as Hep by by apply elem_of_rankedUp.
  assert (rankLess (probeResults (s_allowed s) p) (s_home s) (positions (s_allowed s)) ep best
          = false) as Hle.
  { pose proof (sort_stable_sorted (rankLess (probeResults (s_allowed s) p) (s_home s)
      (positions (s_allowed s))) (List.filter (fun ep => healthy (p ep)) (s_allowed s))) as Hs.
    fold (rankHealthy (List.filter (fun ep => healthy (p ep)) (s_allowed s))
      (probeResults (s_allowed s) p) (s_home s) (s_allowed s)) in Hs.
    fold (rankedUp s p) in Hs. rewrite Hr in Hs, Hep.
    apply elem_of_cons in Hep as [->|Hep].
    - destruct (rankLess _ _ _ best best) eqn:E; [|done]. by rewrite (wo_asym _ _ E) in E.
    - inversion Hs as [|? ? _ Hall]; subst. rewrite Forall_forall in Hall. by apply Hall. }
  apply elem_of_rankedUp in Hb as [Hb _].
  assert (d_Current (reselect s (rankedUp s p) any).2 = best) as ->.
  { rewrite Hdd. apply connected_current; rewrite ?H1; try done. rewrite <- Hr.
    apply rankedUp_allowed. }
  split; [by eapply rankLess_priority|]. intros E.
  pose proof (rankLess_rtt _ _ _ _ _ Hle E) as Hrtt.
  by rewrite !probeResults_lookup in Hrtt.
Qed.

Lemma selects_preferred_witness :
  let near := mkEndpoint "near" "https://n" 0 in
  let ranked := mkEndpoint "ranked" "https://r" 7 in
  let p := fun ep => mkHealth true true (if String.eqb (re_Region ep) "near" then 1 else 90) in
  let s := New [near; ranked] "near" in
  effectiveRegionPriority (re_Priority (d_Current (Evaluate s p).2))
  ≤ effectiveRegionPriority (re_Priority near).
Proof.
  intros near ranked p s.
  refine (proj1 (selects_preferred s [near; ranked] p (reach_new _ _) eq_refl eq_refl near _
    eq_refl)).
  apply list_elem_of_In. vm_compute. left. reflexivity.
Defined.

(** The decisions of successive rounds. *)
Fixpoint rounds (s : Selector) (probes : list probe) : list Decision :=
  match probes with
  | [] => []
  | p :: ps => let '(s', d) := Evaluate s p in d :: rounds s' ps
  end.

(** A held round uses up one strike. *)
Lemma held_strikes s p :
  inv s → d_Held (Evaluate s p).2 = true →
  s_currentStrikes (Evaluate s p).1 = s_currentStrikes s + 1 ∧
  s_currentStrikes (Evaluate s p).1 < s_unhealthyStrike (Evaluate s p).1 ∧
  s_unhealthyStrike (Evaluate s p).1 = s_unhealthyStrike s.
Proof.
  intros Hinv. assert (∀ t any, d_Held (reselect t (rankedUp t p) any).2 = false) as Hre.
  { intros t any. apply reselect_cases. }
  destruct (inv_current s Hinv) as [Hnone|(ep & Hin & Hkey)].
  { rewrite Evaluate_none, Hre by done. done. }
  rewrite (Evaluate_current s p ep) by done. cbn zeta.
  destruct (healthy (p ep)); [done|]. destruct (_ && _); [done|].
  destruct (Z.ltb_spec (s_currentStrikes s + 1) (s_unhealthyStrike s)); [done|].
  destruct (_ && _); [done|]. by rewrite Hre.
Qed.

(** The hysteresis ends: from any reachable selector, among as many
    consecutive rounds as the strike threshold, whatever the probes answer, at least
    one is not held over a degraded door. *)
Theorem hysteresis_bounded s l probes :
  reachable s l → Z.of_nat (length probes) = s_unhealthyStrike s →
  ∃ d, d ∈ rounds s probes ∧ d_Held d = false.
Proof.
  intros [Hinv _]%reachable_inv Hlen.
  assert (∀ ps s, inv s → s_currentStrikes s < s_unhealthyStrike s ∨ ps ≠ [] →
    s_unhealthyStrike s ≤ s_currentStrikes s + Z.of_nat (length ps) →
    ∃ d, d ∈ rounds s ps ∧ d_Held d = false) as H.
  { clear. induction ps as [|p ps IH]; intros s Hinv Hor Hge.
    - cbn in Hge. destruct Hor; [lia|done].
    - cbn [rounds]. pose proof (held_strikes s p Hinv) as Hs.
      destruct (Evaluate_spec s p Hinv) as (Hinv' & _).
      destruct (Evaluate s p) as [s' d]. cbn [fst snd] in *.
      destruct (d_Held d) eqn:Hd; [|exists d; split; [left|done]].
      destruct (Hs eq_refl) as (Hs1 & Hs2 & Hs3).
      destruct (IH s' Hinv') as (d' & Hin & ?); [by left| |].
      + rewrite Hs1, Hs3. cbn [length] in Hge. lia.
      + exists d'. split; [by right|done]. }
  pose proof (inv_strikes s Hinv). pose proof (inv_threshold s Hinv).
  apply H; [done| |lia]. right. intros ->. cbn in Hlen. lia.
Qed.

Lemma hysteresis_bounded_witness :
  let s := New [mkEndpoint "tokyo" "https://t" 1] "tokyo" in
  let s1 := (Evaluate s (fun _ => mkHealth true true 5)).1 in
  let down : probe := fun _ => mkHealth false false 0 in
  List.map d_Held (rounds s1 [down; down; down]) = [true; true; false] ∧
  ∃ d, d ∈ rounds s1 [down; down; down] ∧ d_Held d = false.
Proof.
  intros s s1 down. split; [vm_compute; reflexivity|].
  apply (hysteresis_bounded s1 [mkEndpoint "tokyo" "https://t" 1]); [|reflexivity].
  apply reach_round, reach_new.
Defined.

(** ** The operator's preference *)

Lemma parseEntries_ranks entries out m :
  map_Forall (fun _ n => 1 ≤ n) out → parseEntries entries out = Ok m →
  map_Forall (fun _ n => 1 ≤ n) m.
Proof.
  revert out. induction entries as [|e entries IH]; intros out Hout; cbn [parseEntries].
  { by intros [= <-]. }
  destruct (is_empty _); [by apply IH|].
  destruct (match cut "=" (trim_space e) with Some (r, p) => (r, p, true)
            | None => (trim_space e, "", false) end) as [[region prio] ok].
  destruct (_ || _); [done|]. destruct (atoi _) as [n|]; [|done].
  unfold checkRank. destruct (Z.leb_spec n 0); [done|]. case_bool_decide; [done|].
  apply IH. apply map_Forall_insert_2; [lia|done].
Qed.

(** The operator's preference can reorder the doors but not widen the
    boundary: stamping it keeps every door, its region and its endpoint, and a
    preference that parses holds only ranks from 1, so none is read as unspecified. *)
Lemma priority_only_reorders eps raw pri :
  ParsePriority raw = Ok pri →
  List.map endpointKey (ApplyPriority eps pri) = List.map endpointKey eps ∧
  map_Forall (fun _ n => 1 ≤ n ∧ effectiveRegionPriority n = n) pri.
Proof.
  intros H. split.
  - unfold ApplyPriority. rewrite List.map_map. apply List.map_ext. intros ep. by case_match.
  - assert (map_Forall (fun _ n => 1 ≤ n) pri) as Hr.
    { unfold ParsePriority in H. destruct (is_empty _).
      - injection H as <-. apply map_Forall_empty.
      - eapply parseEntries_ranks; [|exact H]. apply map_Forall_empty. }
    intros k n Hk. specialize (Hr k n Hk). cbn in Hr. split; [done|].
    unfold effectiveRegionPriority. by destruct (Z.leb_spec n 0); [lia|].
Qed.

Example priority_applied :
  ∃ pri, ParsePriority " JP-Tokyo=1, osaka = 2" = Ok pri ∧
  List.map re_Priority (ApplyPriority [mkEndpoint "jp-tokyo" "a" 0; mkEndpoint "sg" "b" 0] pri)
    = [1; 0].
Proof. eexists. split; [vm_compute; reflexivity|]. vm_compute. reflexivity. Qed.
End RegionFailover.
