(* ===== verification/Conntrack.v ===== *)
(** * The DNS resolution conntrack ([src/dns/conntrack.go])

    Which name a tenant's resolved address stood for: a bounded first-in-first-out
    map with expiring entries, and the two consumers that recover a name from it. *)

From stdpp Require Import base gmap list strings.
From S2P Require Import Prelude GoStd GoNet Model.

Open Scope Z_scope.

Module Conntrack.

Definition ConntrackDefaultTTLSeconds : Z := 300.
Definition conntrackDefaultCapacity : Z := 100000.

Record ObservationRequest := mkObservation {
  ob_TenantID : string;
  ob_ClientID : string;
  ob_FQDN : string;
  ob_ResolvedIPs : list string;
  ob_ApplicationID : string;
  ob_TTLSeconds : Z;
}.

Record conntrackEntry := mkEntry {
  e_fqdn : string;
  e_appID : string;
  e_expiresAt : Z;
}.

Record ConntrackStore := mkConntrack {
  ct_entries : gmap string conntrackEntry;
  ct_order : list string;
  ct_capacity : Z;
}.

Definition NewConntrackStore : ConntrackStore := mkConntrack ∅ [] conntrackDefaultCapacity.

Definition conntrackKey (tenantID ip : string) : string :=
  trim_space tenantID +:+ "|" +:+ trim_space ip.

(** One turn of the recording loop: entries, order and count. *)
Definition recordIP (tenantID : string) (entry : conntrackEntry)
    (st : gmap string conntrackEntry * list string * Z) (ip : string)
    : gmap string conntrackEntry * list string * Z :=
  let '(entries, order, n) := st in
  let ip := trim_space ip in
  if is_empty ip then st else
  let key := conntrackKey tenantID ip in
  let order := if bool_decide (is_Some (entries !! key)) then order else order ++ [key] in
  (<[key := entry]> entries, order, n + 1).

(** [for len(entries) > capacity && len(order) > 0 { evict the oldest }] *)
Fixpoint evict (capacity : Z) (entries : gmap string conntrackEntry) (order : list string)
    : gmap string conntrackEntry * list string :=
  if capacity <? Z.of_nat (size entries) then
    match order with
    | [] => (entries, order)
    | oldest :: rest => evict capacity (delete oldest entries) rest
    end
  else (entries, order).

(** The store after the call and the number of entries recorded. *)
Definition Record_ (s : ConntrackStore) (req : ObservationRequest) (now : Z)
    : ConntrackStore * Z :=
  let fqdn := trim_space (ob_FQDN req) in
  if is_empty fqdn || (length (ob_ResolvedIPs req) =? 0)%nat then (s, 0) else
  let ttl := if ob_TTLSeconds req <=? 0 then ConntrackDefaultTTLSeconds
             else ob_TTLSeconds req in
  let exp := now + wrap64 (ttl * second) in
  let entry := mkEntry fqdn (trim_space (ob_ApplicationID req)) exp in
  let '(entries, order, n) :=
    foldl (recordIP (ob_TenantID req) entry) (ct_entries s, ct_order s, 0)
      (ob_ResolvedIPs req) in
  let '(entries, order) :=
    if 0 <? ct_capacity s then evict (ct_capacity s) entries order else (entries, order) in
  (mkConntrack entries order (ct_capacity s), n).

(** The name and the application. *)
Definition LookupFQDN (s : ConntrackStore) (tenantID ip : string) (now : Z)
    : option (string * string) :=
  match ct_entries s !! conntrackKey tenantID ip with
  | Some e => if negb (now <? e_expiresAt e) then None else Some (e_fqdn e, e_appID e)
  | None => None
  end.

(** The name and the address it was seen as; [None] for a nil store. *)
Definition RecoverCertPinName (ct : option ConntrackStore) (tenantID host sni : string)
    (now : Z) : option (string * string) :=
  match ct with
  | None => None
  | Some ct =>
      if negb (is_blank sni) then None else
      let ip := trim_space host in
      if is_empty ip || negb (is_ip_literal ip) then None else
      match LookupFQDN ct tenantID ip now with
      | Some (name, _) => if is_blank name then None else Some (name, ip)
      | None => None
      end
  end.

Definition EnrichDecisionRequestWithDNS (req : DecisionRequest) (ct : option ConntrackStore)
    (now : Z) : DecisionRequest :=
  match ct with
  | None => req
  | Some ct =>
      if negb (is_blank (req_FQDN req)) then req else
      let ip := trim_space (req_Destination req) in
      if is_empty ip || negb (is_ip_literal ip) then req else
      match LookupFQDN ct (req_TenantID req) ip now with
      | None => req
      | Some (fqdn, appID) =>
          let req := req <| req_FQDN := fqdn |> in
          if is_blank (req_ApplicationID req) && nonempty appID
          then req <| req_ApplicationID := appID |> else req
      end
  end.

(** * Properties *)

(** The order lists every entry exactly once. *)
Definition in_step (entries : gmap string conntrackEntry) (order : list string) : Prop :=
  NoDup order ∧ ∀ k, k ∈ order ↔ is_Some (entries !! k).

Lemma in_step_size entries order : in_step entries order → size entries = length order.
Proof.
  intros [Hnd Hk]. rewrite <- size_dom.
  assert (dom entries = list_to_set order) as ->.
  { apply set_eq. intros k. rewrite elem_of_dom, elem_of_list_to_set. symmetry. apply Hk. }
  by apply size_list_to_set.
Qed.

Lemma recordIP_in_step t e entries order n ip :
  in_step entries order →
  in_step (recordIP t e (entries, order, n) ip).1.1 (recordIP t e (entries, order, n) ip).1.2.
Proof.
  intros [Hnd Hk]. unfold recordIP. destruct (is_empty _); [done|]. cbn [fst snd].
  set (key := conntrackKey t (trim_space ip)). case_bool_decide as Hs.
  - split; [done|]. intros k. rewrite Hk. destruct (decide (k = key)) as [->|].
    + rewrite lookup_insert_eq. naive_solver.
    + by rewrite lookup_insert_ne.
  - split.
    + apply NoDup_app. split_and!; [done| |apply NoDup_singleton].
      intros x Hx ->%list_elem_of_singleton. by apply Hs, Hk.
    + intros k. rewrite elem_of_app, Hk, list_elem_of_singleton.
      destruct (decide (k = key)) as [->|].
      * rewrite lookup_insert_eq. naive_solver.
      * rewrite lookup_insert_ne by done. naive_solver.
Qed.

Lemma record_in_step t e ips entries order n :
  in_step entries order →
  in_step (foldl (recordIP t e) (entries, order, n) ips).1.1
          (foldl (recordIP t e) (entries, order, n) ips).1.2.
Proof.
  revert entries order n. induction ips as [|ip ips IH]; intros entries order n H; [done|].
  cbn [foldl]. pose proof (recordIP_in_step t e entries order n ip H) as H'.
  destruct (recordIP t e (entries, order, n) ip) as [[? ?] ?]. by apply IH.
Qed.

Lemma evict_in_step c entries order :
  0 ≤ c → in_step entries order →
  in_step (evict c entries order).1 (evict c entries order).2 ∧
  Z.of_nat (size (evict c entries order).1) ≤ c.
Proof.
  intros Hc. revert entries. induction order as [|k order IH]; intros entries H; cbn [evict].
  - apply in_step_size in H as Hs. cbn in Hs. rewrite Hs.
    destruct (Z.ltb_spec c (Z.of_nat 0)); cbn; rewrite ?Hs; split; try done; lia.
  - destruct (Z.ltb_spec c (Z.of_nat (size entries))); [|done]. apply IH.
    destruct H as [Hnd Hk]. apply NoDup_cons in Hnd as [Hni Hnd]. split; [done|].
    intros x. destruct (decide (x = k)) as [->|].
    + rewrite lookup_delete_eq. split; [done|]. by intros [? ?].
    + rewrite lookup_delete_ne by done. rewrite <- Hk. set_solver.
Qed.

Inductive reachable : ConntrackStore → Prop :=
  | reach_new : reachable NewConntrackStore
  | reach_record s req now : reachable s → reachable (Record_ s req now).1.

Record inv (s : ConntrackStore) : Prop := {
  inv_step : in_step (ct_entries s) (ct_order s);
  inv_capacity : ct_capacity s = conntrackDefaultCapacity;
  inv_size : Z.of_nat (size (ct_entries s)) ≤ ct_capacity s;
}.

Lemma Record_inv s req now : inv s → inv (Record_ s req now).1.
Proof.
  intros [Hstep Hcap Hsize]. unfold Record_. destruct (_ || _); [by split|].
  set (entry := mkEntry _ _ _).
  pose proof (record_in_step (ob_TenantID req) entry (ob_ResolvedIPs req) _ _ 0 Hstep) as H.
  destruct (foldl _ _ _) as [[entries order] n]. cbn [fst snd] in H.
  assert (0 ≤ ct_capacity s) as Hc by (rewrite Hcap; unfold conntrackDefaultCapacity; lia).
  destruct (evict_in_step (ct_capacity s) entries order Hc H) as [H1 H2].
  rewrite Hcap in *. unfold conntrackDefaultCapacity at 1. cbn [Z.ltb Z.compare].
  destruct (evict _ entries order) as [entries' order']. by split.
Qed.

Lemma conntrack_reachable_inv s : reachable s → inv s.
Proof.
  induction 1 as [|s req now _ IH]; [|by apply Record_inv].
  split; [split; [apply NoDup_nil_2|]|done|vm_compute; discriminate].
  intros k. cbn [NewConntrackStore ct_entries ct_order]. rewrite elem_of_nil.
  split; [done|]. by intros [? ?%lookup_empty_Some].
Qed.

(** The conntrack stays bounded and consistent: after any sequence of
    observations it holds at most its capacity, and its eviction order lists each
    held key exactly once and nothing else. *)
Theorem conntrack_bounded s :
  reachable s →
  Z.of_nat (size (ct_entries s)) ≤ conntrackDefaultCapacity ∧
  NoDup (ct_order s) ∧ (∀ k, k ∈ ct_order s ↔ is_Some (ct_entries s !! k)) ∧
  length (ct_order s) = size (ct_entries s).
Proof.
  intros [[H1 H2] Hc Hs]%conntrack_reachable_inv.
  rewrite Hc in Hs. split_and!; try done. symmetry. by apply in_step_size; split.
Qed.

Lemma conntrack_bounded_witness :
  let req := mkObservation "t" "" "www.example.com" ["192.0.2.1"; "192.0.2.2"] "" 0 in
  let s := (Record_ (Record_ NewConntrackStore req 0).1 req 0).1 in
  length (ct_order s) = size (ct_entries s) ∧ length (ct_order s) = 2%nat.
Proof.
  intros req s. split; [|vm_compute; reflexivity].
  refine (proj2 (proj2 (proj2 (conntrack_bounded s _)))).
  apply reach_record, reach_record, reach_new.
Defined.

Lemma evict_id c entries order :
  Z.of_nat (size entries) ≤ c → evict c entries order = (entries, order).
Proof. intros H. by destruct order; cbn; destruct (Z.ltb_spec c (Z.of_nat (size entries))); try lia. Qed.

(** One key over a capacity of at least one: only the oldest goes. *)
Lemma evict_keeps_last c entries order key e :
  1 ≤ c → in_step entries (order ++ [key]) → Z.of_nat (size entries) ≤ c + 1 →
  entries !! key = Some e → (evict c entries (order ++ [key])).1 !! key = Some e.
Proof.
  intros Hc Hstep Hs Hkey. pose proof (in_step_size _ _ Hstep) as Hlen.
  destruct order as [|o order].
  - rewrite evict_id; cbn [fst]; [done|]. rewrite Hlen. cbn. lia.
  - destruct Hstep as [Hnd Hk]. cbn in Hnd. apply NoDup_cons in Hnd as [Hni _].
    assert (o ≠ key) as Hne by (intros ->; apply Hni; set_solver).
    cbn [app evict]. destruct (Z.ltb_spec c (Z.of_nat (size entries))); [|done].
    assert (is_Some (entries !! o)) as Ho by (apply Hk; left).
    rewrite evict_id; cbn [fst]; [by rewrite lookup_delete_ne|].
    rewrite map_size_delete_Some by done. lia.
Qed.

(** The last observation is recovered: after a report that a name
    resolved to one address, looking the address up for the same tenant yields the
    name and the application until the reported lifetime is over, and never after;
    the new entry is not the one evicted. *)
Theorem conntrack_remembers s req ip now later :
  reachable s → ob_ResolvedIPs req = [ip] → is_blank ip = false →
  is_blank (ob_FQDN req) = false → 0 < ob_TTLSeconds req → ob_TTLSeconds req * second ≤ int_max →
  LookupFQDN (Record_ s req now).1 (ob_TenantID req) ip later
  = if later <? now + ob_TTLSeconds req * second
    then Some (trim_space (ob_FQDN req), trim_space (ob_ApplicationID req)) else None.
Proof.
  intros [Hstep Hc Hsize]%conntrack_reachable_inv Hips Hip Hf Httl Hmax.
  unfold Record_. unfold is_blank in Hf, Hip. rewrite Hf, Hips.
  destruct (Z.leb_spec (ob_TTLSeconds req) 0); [lia|].
  rewrite wrap64_id by (unfold int_min, second in *; lia).
  cbn [length Nat.eqb orb foldl]. set (e := mkEntry _ _ _).
  pose proof (recordIP_in_step (ob_TenantID req) e _ _ 0 ip Hstep) as Hs'.
  set (key := conntrackKey (ob_TenantID req) ip).
  assert (conntrackKey (ob_TenantID req) (trim_space ip) = key) as Hkey.
  { unfold key, conntrackKey. by rewrite trim_space_idemp. }
  unfold recordIP in *. rewrite Hip, Hkey in *. cbn [fst snd] in Hs'.
  rewrite Hc in *. unfold conntrackDefaultCapacity at 1. cbn [Z.ltb Z.compare].
  unfold LookupFQDN. fold key.
  enough ((evict conntrackDefaultCapacity (<[key:=e]> (ct_entries s))
    (if bool_decide (is_Some (ct_entries s !! key)) then ct_order s else ct_order s ++ [key])).1
    !! key = Some e) as He.
  { destruct (evict _ _ _) as [entries order]. cbn [fst ct_entries] in *. rewrite He. cbn.
    by destruct (later <? _). }
  pose proof (in_step_size _ _ Hstep) as Hlen. case_bool_decide as Hs.
  - rewrite evict_id; cbn [fst]; [apply lookup_insert_eq|]. by rewrite map_size_insert_Some.
  - apply evict_keeps_last; [unfold conntrackDefaultCapacity; lia|done| |apply lookup_insert_eq].
    rewrite map_size_insert_None by (by apply eq_None_not_Some). lia.
Qed.

Lemma conntrack_remembers_witness :
  let req := mkObservation "t" "" " www.example.com" ["192.0.2.1 "] "app" 60 in
  LookupFQDN (Record_ NewConntrackStore req 0).1 "t" "192.0.2.1" (59 * second)
    = Some ("www.example.com", "app") ∧
  LookupFQDN (Record_ NewConntrackStore req 0).1 "t" "192.0.2.1 " (60 * second) = None.
Proof.
  intros req. split; [vm_compute; reflexivity|].
  refine (eq_trans (conntrack_remembers NewConntrackStore req "192.0.2.1 " 0 (60 * second)
    reach_new eq_refl eq_refl eq_refl eq_refl _) _);
    [vm_compute; discriminate|reflexivity].
Defined.

End Conntrack.
