(* ===== verification/Lru.v ===== *)
(** * The bounded cache ([src/interception/lru.go])

    A map from keys to the elements of a doubly linked list, most recently used
    first.  An element is known by an identity, so that the map and the list really
    are two structures that have to agree; the specification is one list. *)

From stdpp Require Import base gmap list strings.
From S2P Require Import Prelude.

Open Scope Z_scope.

Module Lru.

Section lru.
  Context {V : Type}.

(** A list element: its identity, its key and its value. *)
Record element := mkElement { el_id : Z; el_key : string; el_val : V }.

Record lru := mkLru {
  c_cap : Z;
  c_ll : list element;
  c_m : gmap string Z;
  c_next : Z;
}.

Definition newLRU (capacity : Z) : lru :=
  mkLru (if capacity <=? 0 then 1 else capacity) [] ∅ 0.

(** The operations of [container/list]. *)
Definition is_el (id : Z) (e : element) : bool := el_id e =? id.
Definition removeElement (id : Z) (ll : list element) : list element :=
  List.filter (fun e => negb (is_el id e)) ll.
Definition moveToFront (id : Z) (ll : list element) : list element :=
  match List.find (is_el id) ll with
  | Some e => e :: removeElement id ll
  | None => ll
  end.
Definition setValue (id : Z) (v : V) (ll : list element) : list element :=
  List.map (fun e => if is_el id e then mkElement (el_id e) (el_key e) v else e) ll.
Definition valueOf (id : Z) (ll : list element) : option V :=
  el_val <$> List.find (is_el id) ll.

Definition get (c : lru) (key : string) : lru * option V :=
  match c_m c !! key with
  | Some id => (mkLru (c_cap c) (moveToFront id (c_ll c)) (c_m c) (c_next c),
                valueOf id (c_ll c))
  | None => (c, None)
  end.

Definition peek (c : lru) (key : string) : option V :=
  match c_m c !! key with Some id => valueOf id (c_ll c) | None => None end.

Definition put (c : lru) (key : string) (val : V) : lru :=
  match c_m c !! key with
  | Some id =>
      mkLru (c_cap c) (moveToFront id (setValue id val (c_ll c))) (c_m c) (c_next c)
  | None =>
      let id := c_next c in
      let ll := mkElement id key val :: c_ll c in
      let m := <[key := id]> (c_m c) in
      if c_cap c <? Z.of_nat (length ll) then
        match last ll with
        | Some back =>
            mkLru (c_cap c) (removeElement (el_id back) ll) (delete (el_key back) m) (id + 1)
        | None => mkLru (c_cap c) ll m (id + 1)
        end
      else mkLru (c_cap c) ll m (id + 1)
  end.

Definition delete_ (c : lru) (key : string) : lru :=
  match c_m c !! key with
  | Some id =>
      mkLru (c_cap c) (removeElement id (c_ll c)) (delete key (c_m c)) (c_next c)
  | None => c
  end.

Definition len (c : lru) : Z := Z.of_nat (length (c_ll c)).

(** ** The specification: keys and values, most recently used first *)

Definition abs (c : lru) : list (string * V) :=
  List.map (fun e => (el_key e, el_val e)) (c_ll c).

Definition spec_find (key : string) (l : list (string * V)) : option V :=
  snd <$> List.find (fun kv => String.eqb kv.1 key) l.
Definition spec_drop (key : string) (l : list (string * V)) : list (string * V) :=
  List.filter (fun kv => negb (String.eqb kv.1 key)) l.
Definition spec_touch (key : string) (l : list (string * V)) : list (string * V) :=
  match spec_find key l with Some v => (key, v) :: spec_drop key l | None => l end.
Definition spec_put (cap : nat) (key : string) (v : V) (l : list (string * V))
    : list (string * V) := take cap ((key, v) :: spec_drop key l).

(** * Properties *)

Record inv (c : lru) : Prop := {
  inv_cap : 1 ≤ c_cap c;
  inv_len : Z.of_nat (length (c_ll c)) ≤ c_cap c;
  inv_ids : NoDup (el_id <$> c_ll c);
  inv_keys : NoDup (el_key <$> c_ll c);
  inv_fresh : ∀ e, e ∈ c_ll c → el_id e < c_next c;
  inv_map : ∀ k id, c_m c !! k = Some id ↔ ∃ e, e ∈ c_ll c ∧ el_key e = k ∧ el_id e = id;
}.

Lemma newLRU_inv n : inv (newLRU n).
Proof.
  split; cbn; try apply NoDup_nil_2.
  - destruct (Z.leb_spec n 0); lia.
  - destruct (Z.leb_spec n 0); lia.
  - intros e He. by apply elem_of_nil in He.
  - intros k id. rewrite lookup_empty. split; [done|]. by intros (e & []%elem_of_nil & _).
Qed.

Lemma find_id e ll : NoDup (el_id <$> ll) → e ∈ ll → List.find (is_el (el_id e)) ll = Some e.
Proof.
  induction ll as [|x ll IH]; [by intros _ []%elem_of_nil|]. cbn. unfold is_el at 1.
  intros [Hx Hnd]%NoDup_cons [->|Hin]%elem_of_cons; [by rewrite Z.eqb_refl|].
  destruct (Z.eqb_spec (el_id x) (el_id e)) as [E|]; [|by apply IH].
  destruct Hx. rewrite E. by apply list_elem_of_fmap_2.
Qed.

Lemma find_key e ll :
  NoDup (el_key <$> ll) → e ∈ ll →
  spec_find (el_key e) (List.map (fun e => (el_key e, el_val e)) ll) = Some (el_val e).
Proof.
  unfold spec_find. induction ll as [|x ll IH]; [by intros _ []%elem_of_nil|]. cbn.
  intros [Hx Hnd]%NoDup_cons [->|Hin]%elem_of_cons; [by rewrite String.eqb_refl|].
  destruct (String.eqb_spec (el_key x) (el_key e)) as [E|]; [|by apply IH].
  destruct Hx. rewrite E. by apply list_elem_of_fmap_2.
Qed.

(** With both identities and keys unique, dropping by one is dropping by the other. *)
Lemma drop_id_key e ll :
  NoDup (el_id <$> ll) → NoDup (el_key <$> ll) → e ∈ ll →
  List.map (fun e => (el_key e, el_val e)) (removeElement (el_id e) ll)
  = spec_drop (el_key e) (List.map (fun e => (el_key e, el_val e)) ll).
Proof.
  intros Hid Hkey Hin. unfold removeElement, spec_drop.
  assert (∀ x, x ∈ ll → is_el (el_id e) x = String.eqb (el_key x) (el_key e)) as H.
  { intros x Hx. unfold is_el. destruct (Z.eqb_spec (el_id x) (el_id e)) as [E|E].
    - pose proof (find_id x ll Hid Hx) as F1. rewrite E, (find_id e ll Hid Hin) in F1.
      injection F1 as ->. by rewrite String.eqb_refl.
    - destruct (String.eqb_spec (el_key x) (el_key e)) as [K|]; [|done].
      destruct E. apply list_elem_of_lookup in Hin as [i Hi].
      apply list_elem_of_lookup in Hx as [j Hj].
      assert (i = j) as ->; [|congruence].
      eapply NoDup_lookup; [exact Hkey| |]; rewrite list_lookup_fmap; [by rewrite Hi|].
      rewrite Hj. cbn. by rewrite K. }
  clear Hid Hkey Hin. induction ll as [|x ll IH]; [done|]. cbn.
  rewrite (H x) by left. specialize (IH (fun y Hy => H y (list_elem_of_further _ _ _ Hy))).
  destruct (String.eqb (el_key x) (el_key e)); cbn; by rewrite IH.
Qed.

(** What the map holds for a key is the list element with that key. *)
Lemma lookup_key c key :
  inv c →
  match c_m c !! key with
  | Some id => ∃ e, e ∈ c_ll c ∧ el_key e = key ∧ el_id e = id
  | None => ∀ e, e ∈ c_ll c → el_key e ≠ key
  end.
Proof.
  intros Hinv. destruct (c_m c !! key) as [id|] eqn:E.
  - by apply (inv_map c Hinv) in E.
  - intros e He Hk. assert (c_m c !! key = Some (el_id e)) by (apply (inv_map c Hinv); eauto).
    congruence.
Qed.

Lemma spec_find_none key (ll : list element) :
  (∀ e, e ∈ ll → el_key e ≠ key) →
  spec_find key (List.map (fun e => (el_key e, el_val e)) ll) = None ∧
  spec_drop key (List.map (fun e => (el_key e, el_val e)) ll)
  = List.map (fun e => (el_key e, el_val e)) ll.
Proof.
  unfold spec_find, spec_drop. induction ll as [|x ll IH]; intros H; [done|]. cbn.
  destruct (String.eqb_spec (el_key x) key) as [E|]; [by destruct (H x ltac:(left))|].
  destruct IH as [H1 H2]; [intros e He; apply H; by right|]. cbn. by rewrite H2.
Qed.

Lemma peek_abs c key : inv c → peek c key = spec_find key (abs c).
Proof.
  intros Hinv. pose proof (lookup_key c key Hinv) as H. unfold peek, abs.
  destruct (c_m c !! key) as [id|].
  - destruct H as (e & He & <- & <-). unfold valueOf.
    rewrite (find_id e) by (apply Hinv || done). by rewrite find_key by (apply Hinv || done).
  - by rewrite (proj1 (spec_find_none key (c_ll c) H)).
Qed.

(** ** The invariant only sees identities and keys *)

Definition tag (e : element) : Z * string := (el_id e, el_key e).

Lemma inv_tags c ll next m :
  inv c → (tag <$> ll) ≡ₚ (tag <$> c_ll c) → next = c_next c → m = c_m c →
  inv (mkLru (c_cap c) ll m next).
Proof.
  intros [H1 H2 H3 H4 H5 H6] Hp -> ->.
  assert ((el_id <$> ll) ≡ₚ (el_id <$> c_ll c)) as Hids.
  { apply (fmap_Permutation fst) in Hp. by rewrite <- !list_fmap_compose in Hp. }
  assert ((el_key <$> ll) ≡ₚ (el_key <$> c_ll c)) as Hkeys.
  { apply (fmap_Permutation snd) in Hp. by rewrite <- !list_fmap_compose in Hp. }
  assert (∀ e, e ∈ ll → ∃ e', e' ∈ c_ll c ∧ tag e' = tag e) as Hfwd.
  { intros e He. apply (list_elem_of_fmap_2 tag) in He. rewrite Hp in He.
    apply list_elem_of_fmap in He as (e' & -> & ?). eauto. }
  assert (∀ e, e ∈ c_ll c → ∃ e', e' ∈ ll ∧ tag e' = tag e) as Hbwd.
  { intros e He. apply (list_elem_of_fmap_2 tag) in He. rewrite <- Hp in He.
    apply list_elem_of_fmap in He as (e' & -> & ?). eauto. }
  split; cbn; [done| |by rewrite Hids|by rewrite Hkeys| |].
  - apply Permutation_length in Hp. rewrite !length_fmap in Hp. by rewrite Hp.
  - intros e He. destruct (Hfwd e He) as (e' & He' & [= <- _]). by apply H5.
  - intros k id. rewrite H6. split; intros (e & He & <- & <-).
    + destruct (Hbwd e He) as (e' & He' & [= ? ?]). eauto.
    + destruct (Hfwd e He) as (e' & He' & [= ? ?]). eauto.
Qed.

Lemma removeElement_perm e ll :
  NoDup (el_id <$> ll) → e ∈ ll → e :: removeElement (el_id e) ll ≡ₚ ll.
Proof.
  unfold removeElement, is_el. induction ll as [|x ll IH]; [by intros _ []%elem_of_nil|]. cbn.
  intros [Hx Hnd]%NoDup_cons Hin. destruct (Z.eqb_spec (el_id x) (el_id e)) as [E|E]; cbn.
  - assert (x = e) as ->.
    { apply elem_of_cons in Hin as [->|Hin]; [done|]. destruct Hx. rewrite E.
      by apply list_elem_of_fmap_2. }
    f_equiv. clear -Hx. induction ll as [|y ll IH]; [done|]. cbn in *.
    apply not_elem_of_cons in Hx as [Hne Hx].
    destruct (Z.eqb_spec (el_id y) (el_id e)); [congruence|]. cbn. by rewrite IH.
  - apply elem_of_cons in Hin as [->|Hin]; [done|]. by rewrite Permutation_swap, IH.
Qed.

Lemma get_spec c key :
  inv c →
  inv (get c key).1 ∧ (get c key).2 = spec_find key (abs c) ∧
  abs (get c key).1 = spec_touch key (abs c).
Proof.
  intros Hinv. pose proof (peek_abs c key Hinv) as Hpeek. unfold peek in Hpeek.
  pose proof (lookup_key c key Hinv) as H. unfold get.
  destruct (c_m c !! key) as [id|].
  - destruct H as (e & He & <- & <-). cbn [fst snd]. unfold moveToFront.
    rewrite (find_id e) by (apply Hinv || done). split_and!; [| done|].
    + apply inv_tags; [done| |done|done].
      apply fmap_Permutation, removeElement_perm; [apply Hinv|done].
    + unfold spec_touch. rewrite <- Hpeek. unfold valueOf.
      rewrite (find_id e) by (apply Hinv || done). cbn.
      by rewrite drop_id_key by (apply Hinv || done).
  - split_and!; [done..|]. unfold spec_touch. by rewrite <- Hpeek.
Qed.

Lemma setValue_remove id v ll : removeElement id (setValue id v ll) = removeElement id ll.
Proof.
  unfold removeElement, setValue. induction ll as [|x ll IH]; [done|]. cbn.
  destruct (is_el id x) eqn:E; unfold is_el in *; cbn; rewrite E; cbn; by rewrite IH.
Qed.

Lemma setValue_find e v ll :
  NoDup (el_id <$> ll) → e ∈ ll →
  List.find (is_el (el_id e)) (setValue (el_id e) v ll)
  = Some (mkElement (el_id e) (el_key e) v).
Proof.
  intros Hnd Hin. pose proof (find_id e ll Hnd Hin) as Hf. clear Hnd Hin.
  unfold setValue. induction ll as [|x ll IH]; [done|]. cbn in *.
  destruct (is_el (el_id e) x) eqn:E.
  - injection Hf as ->. cbn. unfold is_el. cbn. by rewrite Z.eqb_refl.
  - cbn. rewrite E. by apply IH.
Qed.

Lemma delete_inv c e :
  inv c → e ∈ c_ll c →
  inv (mkLru (c_cap c) (removeElement (el_id e) (c_ll c)) (delete (el_key e) (c_m c)) (c_next c)).
Proof.
  intros [H1 H2 H3 H4 H5 H6] He. pose proof (removeElement_perm e (c_ll c) H3 He) as Hp.
  assert (∀ x, x ∈ c_ll c ↔ x = e ∨ x ∈ removeElement (el_id e) (c_ll c)) as Hel.
  { intros x. rewrite <- Hp at 1. by rewrite elem_of_cons. }
  rewrite <- Hp in H3, H4. cbn in H3, H4.
  apply NoDup_cons in H3 as [H3a H3b]. apply NoDup_cons in H4 as [H4a H4b].
  split; cbn; try done.
  - rewrite <- Hp in H2. cbn in H2. lia.
  - intros x Hx. apply H5, Hel. by right.
  - intros k id. destruct (decide (k = el_key e)) as [->|Hne].
    + rewrite lookup_delete_eq. split; [done|]. intros (x & Hx & Hk & _). destruct H4a.
      rewrite <- Hk. by apply list_elem_of_fmap_2.
    + rewrite lookup_delete_ne, H6 by done. split; intros (x & Hx & <- & <-).
      * apply Hel in Hx as [->|Hx]; [done|eauto].
      * exists x. split; [|done]. apply Hel. by right.
Qed.

(** The element at the back, dropped: the list without its last entry. *)
Lemma remove_last ll e :
  NoDup (el_id <$> (ll ++ [e])) → removeElement (el_id e) (ll ++ [e]) = ll.
Proof.
  unfold removeElement, is_el. rewrite fmap_app. intros (_ & Hne & _)%NoDup_app.
  rewrite List.filter_app. cbn. rewrite Z.eqb_refl. cbn. rewrite app_nil_r.
  induction ll as [|x ll IH]; [done|]. cbn.
  destruct (Z.eqb_spec (el_id x) (el_id e)) as [E|]; cbn.
  - destruct (Hne (el_id x)); cbn; [left|rewrite E; left].
  - f_equal. apply IH. intros y Hy. apply Hne. cbn. by right.
Qed.

Lemma put_new_inv c key v :
  inv c → c_m c !! key = None →
  inv (mkLru (c_cap c + 1) (mkElement (c_next c) key v :: c_ll c)
         (<[key := c_next c]> (c_m c)) (c_next c + 1)).
Proof.
  intros Hinv Hm. pose proof (lookup_key c key Hinv) as Hno. rewrite Hm in Hno.
  destruct Hinv as [H1 H2 H3 H4 H5 H6]. split; cbn.
  - lia.
  - lia.
  - apply NoDup_cons. split; [|done]. intros (x & Heq & Hx)%list_elem_of_fmap.
    specialize (H5 x Hx). cbn in Heq. lia.
  - apply NoDup_cons. split; [|done]. intros (x & Heq & Hx)%list_elem_of_fmap.
    by destruct (Hno x Hx).
  - intros x [->|Hx]%elem_of_cons; cbn; [lia|]. specialize (H5 x Hx). lia.
  - intros k id. destruct (decide (k = key)) as [->|Hne].
    + rewrite lookup_insert_eq. split.
      * intros [= <-]. eexists. split; [left|done].
      * intros (x & [->|Hx]%elem_of_cons & Hk & <-); [done|]. by destruct (Hno x Hx).
    + rewrite lookup_insert_ne, H6 by done. split; intros (x & Hx & <- & <-).
      * exists x. split; [by right|done].
      * apply elem_of_cons in Hx as [->|Hx]; [done|eauto].
Qed.
(** A list with its last element dropped is the list cut one short. *)
Lemma last_cut (ll : list element) e :
  NoDup (el_id <$> ll) → last ll = Some e →
  removeElement (el_id e) ll = take (pred (length ll)) ll ∧ e ∈ ll.
Proof.
  intros Hnd [l' ->]%last_Some. rewrite remove_last by done. split.
  - rewrite length_app, Nat.add_1_r. cbn [pred]. by rewrite take_app_length.
  - apply elem_of_app. right. left.
Qed.

Lemma put_spec c key v :
  inv c →
  inv (put c key v) ∧ abs (put c key v) = spec_put (Z.to_nat (c_cap c)) key v (abs c).
Proof.
  intros Hinv. pose proof (lookup_key c key Hinv) as H. unfold put.
  destruct (c_m c !! key) as [id|] eqn:Hm.
  - destruct H as (e & He & <- & <-). unfold moveToFront, spec_put.
    rewrite (setValue_find e) by (apply Hinv || done). rewrite setValue_remove.
    pose proof (removeElement_perm e (c_ll c) (inv_ids c Hinv) He) as Hp. split.
    + apply inv_tags; [done| |done|done]. apply (fmap_Permutation tag) in Hp. exact Hp.
    + unfold abs. cbn [c_ll List.map el_key el_val].
      rewrite drop_id_key by (apply Hinv || done). rewrite take_ge; [done|].
      rewrite <- drop_id_key by (apply Hinv || done). cbn [length]. rewrite List.length_map.
      apply Permutation_length in Hp. cbn in Hp. pose proof (inv_len c Hinv). lia.
  - pose proof (put_new_inv c key v Hinv Hm) as Hnew. unfold spec_put, abs.
    rewrite (proj2 (spec_find_none key (c_ll c) H)).
    pose proof (inv_len c Hinv) as Hlen. pose proof (inv_cap c Hinv) as Hcap.
    set (ll := mkElement (c_next c) key v :: c_ll c) in *.
    change ((key, v) :: List.map (λ e, (el_key e, el_val e)) (c_ll c))
      with (List.map (λ e, (el_key e, el_val e)) ll).
    destruct (Z.ltb_spec (c_cap c) (Z.of_nat (length ll))) as [Hover|Hfit].
    + destruct (last ll) as [back|] eqn:Hlast; [|by apply last_None in Hlast].
      destruct (last_cut ll back (inv_ids _ Hnew) Hlast) as [Hcut Hin].
      pose proof (delete_inv _ back Hnew Hin) as [D1 D2 D3 D4 D5 D6]. cbn in *. split.
      * split; cbn; try done. rewrite Hcut, length_take. lia.
      * rewrite Hcut, <- firstn_map. f_equal. lia.
    + split; [|rewrite take_ge; [done|rewrite List.length_map; lia]].
      destruct Hnew as [D1 D2 D3 D4 D5 D6]. by split.
Qed.

Lemma delete_spec c key :
  inv c → inv (delete_ c key) ∧ abs (delete_ c key) = spec_drop key (abs c).
Proof.
  intros Hinv. pose proof (lookup_key c key Hinv) as H. unfold delete_.
  destruct (c_m c !! key) as [id|].
  - destruct H as (e & He & <- & <-). split; [by apply delete_inv|].
    unfold abs. cbn [c_ll]. by rewrite drop_id_key by (apply Hinv || done).
  - split; [done|]. unfold abs. by rewrite (proj2 (spec_find_none key (c_ll c) H)).
Qed.

(** ** Histories *)

Inductive op := OGet (key : string) | OPut (key : string) (v : V) | ODelete (key : string).

Definition run_op (c : lru) (o : op) : lru :=
  match o with
  | OGet key => (get c key).1
  | OPut key v => put c key v
  | ODelete key => delete_ c key
  end.

Definition spec_op (cap : nat) (l : list (string * V)) (o : op) : list (string * V) :=
  match o with
  | OGet key => spec_touch key l
  | OPut key v => spec_put cap key v l
  | ODelete key => spec_drop key l
  end.

Lemma run_op_spec c o :
  inv c →
  inv (run_op c o) ∧ c_cap (run_op c o) = c_cap c ∧
  abs (run_op c o) = spec_op (Z.to_nat (c_cap c)) (abs c) o.
Proof.
  intros Hinv. destruct o as [key|key v|key]; cbn.
  - destruct (get_spec c key Hinv) as (H1 & _ & H2). split_and!; [done| |done].
    unfold get. by destruct (c_m c !! key).
  - destruct (put_spec c key v Hinv) as (H1 & H2). split_and!; [done| |done].
    unfold put. repeat case_match; done.
  - destruct (delete_spec c key Hinv) as (H1 & H2). split_and!; [done| |done].
    unfold delete_. by destruct (c_m c !! key).
Qed.

Lemma run_ops_spec os : ∀ c,
  inv c →
  inv (foldl run_op c os) ∧ c_cap (foldl run_op c os) = c_cap c ∧
  abs (foldl run_op c os) = foldl (spec_op (Z.to_nat (c_cap c))) (abs c) os.
Proof.
  induction os as [|o os IH]; intros c Hinv; [done|]. cbn.
  destruct (run_op_spec c o Hinv) as (H1 & H2 & H3).
  destruct (IH _ H1) as (H4 & H5 & H6). rewrite H2, H3 in *. done.
Qed.
End lru.

(** The bounded cache is the list of key and value pairs in order of use, cut to
    its capacity.  After any sequence of [get], [put] and [delete] on a cache made with
    a positive capacity: [peek] and [get] answer what the list holds for the key, [len]
    is the length of the list and never exceeds the capacity, and a key evicted,
    deleted or never written is not found - the map and the linked list never
    disagree. *)
Theorem lru_refines {V : Type} (capacity : Z) (os : list (op (V := V))) (key : string) :
  1 ≤ capacity →
  let c := foldl run_op (newLRU capacity) os in
  let l := foldl (spec_op (Z.to_nat capacity)) [] os in
  peek c key = spec_find key l ∧ (get c key).2 = spec_find key l ∧
  len c = Z.of_nat (length l) ∧ len c ≤ capacity.
Proof.
  intros Hcap c l. destruct (run_ops_spec os (newLRU capacity) (newLRU_inv _)) as (H1 & H2 & H3).
  assert (c_cap (newLRU (V := V) capacity) = capacity) as Hc.
  { cbn. destruct (Z.leb_spec capacity 0); lia. }
  rewrite Hc in H2, H3. cbn [abs newLRU c_ll List.map] in H3.
  unfold len, c, l. rewrite <- H3. unfold abs at 3. rewrite List.length_map. split_and!.
  - by apply peek_abs.
  - by apply get_spec.
  - done.
  - pose proof (inv_len _ H1) as Hl. by rewrite H2 in Hl.
Qed.

Lemma lru_refines_witness :
  1 ≤ 2 ∧
  let c := foldl run_op (newLRU 2) [OPut "a" 1; OPut "b" 2; OGet "a"; OPut "c" 3] in
  peek c "a" = Some 1 ∧ peek c "b" = None ∧ len c = 2 ∧ len c ≤ 2.
Proof.
  split; [lia|].
  destruct (lru_refines 2 [OPut "a" 1; OPut "b" 2; OGet "a"; OPut "c" 3] "a" ltac:(lia))
    as (Ha & _ & Hn & Hle).
  destruct (lru_refines 2 [OPut "a" 1; OPut "b" 2; OGet "a"; OPut "c" 3] "b" ltac:(lia))
    as (Hb & _).
  cbv zeta. split; [exact (eq_trans Ha eq_refl)|]. split; [exact (eq_trans Hb eq_refl)|].
  split; [exact (eq_trans Hn eq_refl)|exact Hle].
Defined.
End Lru.
