(* ===== verification/AgentRollout.v ===== *)
(** * The agent rollout control plane ([src/agentrollout])

    Which group's wave speaks for a device ([waves.go]), the plan an administrator
    sets and how a change merges into it ([control.go]), and the store a fleet of
    control planes shares ([shared.go], and the checks of [snapshot.go] on a decoded
    plan).  The lexical layer of JSON is outside: what the shared store holds is
    absent, unreadable, or the plans it decodes to.  Values are immutable here, so
    [clonePlan] is the identity. *)

From Stdlib Require Import Ascii.
From stdpp Require Import base gmap list strings sorting.
From S2P Require Import Prelude GoStd Common.

Open Scope Z_scope.

Module AgentRollout.

(** * Waves *)

Record RolloutWave := mkWave { w_Group : string; w_DelayDays : Z; w_Priority : Z }.
Record WaveSchedule := mkSchedule {
  ws_Waves : list RolloutWave;
  ws_DefaultDelayDays : option Z;
}.

Inductive wave_error :=
  | EmptyGroup (i : Z) | NegativeDelay (g : string) (days : Z)
  | DuplicateGroup (g : string) | NegativeDefault (days : Z).

(** The loop of [WaveSchedule.Validate], with the groups already seen. *)
Fixpoint validateWaves (i : Z) (seen : gset string) (ws : list RolloutWave)
    : option wave_error :=
  match ws with
  | [] => None
  | w :: ws' =>
      let g := trim_space (w_Group w) in
      if is_empty g then Some (EmptyGroup i)
      else if w_DelayDays w <? 0 then Some (NegativeDelay g (w_DelayDays w))
      else
        let key := to_lower g in
        if bool_decide (key ∈ seen) then Some (DuplicateGroup g)
        else validateWaves (i + 1) ({[key]} ∪ seen) ws'
  end.

(** [WaveSchedule.Validate] *)
Definition Validate (s : WaveSchedule) : option wave_error :=
  match validateWaves 0 ∅ (ws_Waves s) with
  | Some e => Some e
  | None =>
      match ws_DefaultDelayDays s with
      | Some d => if d <? 0 then Some (NegativeDefault d) else None
      | None => None
      end
  end.

Record WaveAssignment := mkAssignment {
  a_Group : string;
  a_DelayDays : Z;
  a_Explicit : bool;
  a_Reason : string;
}.

(** The local type [match] of [AssignmentFor]. *)
Record wmatch := mkMatch { m_group : string; m_delay : Z; m_priority : Z }.

(** The first row of the schedule for one of the device's groups. *)
Definition rowFor (s : WaveSchedule) (g : string) : option RolloutWave :=
  List.find (fun w => equal_fold (trim_space (w_Group w)) g) (ws_Waves s).

Definition matchOf (s : WaveSchedule) (g : string) : option wmatch :=
  let g := trim_space g in
  if is_empty g then None
  else
    match rowFor s g with
    | Some w => Some (mkMatch (trim_space (w_Group w)) (w_DelayDays w) (w_Priority w))
    | None => None
    end.

Definition matchesOf (s : WaveSchedule) (groups : list string) : list wmatch :=
  omap (matchOf s) groups.

(** The comparison given to [sort.Slice]. *)
Definition speaksBefore : wmatch → wmatch → bool :=
  lex_Z (fun m => - m_priority m) (lex_Z (fun m => - m_delay m) (lex_string_lt m_group)).

Definition slowest (s : WaveSchedule) : Z :=
  foldl (fun m w => if m <? w_DelayDays w then w_DelayDays w else m) 0 (ws_Waves s).

Definition alsoIn (m : wmatch) : string :=
  m_group m +:+ "(day " +:+ itoa (m_delay m) +:+ ", priority " +:+ itoa (m_priority m) +:+ ")".

(** [AssignmentFor]; the sorted matches are never empty in the second case. *)
Definition AssignmentFor (s : WaveSchedule) (groups : list string) : WaveAssignment :=
  match sort_stable speaksBefore (matchesOf s groups) with
  | [] =>
      match ws_DefaultDelayDays s with
      | Some days =>
          mkAssignment "" days false
            ("no group of this device is in the rollout schedule, so it takes the configured default (day "
             +:+ itoa days +:+ ")")
      | None =>
          mkAssignment "" (slowest s) false
            ("no group of this device is in the rollout schedule, so it takes the slowest wave (day "
             +:+ itoa (slowest s) +:+ ")")
      end
  | win :: rest =>
      let reason :=
        match rest with
        | [] => "group " +:+ quote (m_group win) +:+ ", day " +:+ itoa (m_delay win)
        | _ =>
            "group " +:+ quote (m_group win) +:+ " (priority " +:+ itoa (m_priority win)
            +:+ ") decides day " +:+ itoa (m_delay win) +:+ "; also in "
            +:+ join ", " (List.map alsoIn rest)
        end in
      mkAssignment (m_group win) (m_delay win) true reason
  end.

Definition day : Z := 86400 * second.

(** [WaveStart], for a release instant in UTC: [AddDate] adds whole days. *)
Definition WaveStart (s : WaveSchedule) (groups : list string) (releasedAt : Z)
    : Z * WaveAssignment :=
  let a := AssignmentFor s groups in
  if is_zero_time releasedAt then (zero_time, a)
  else (releasedAt + a_DelayDays a * day, a).

Definition describeLess : RolloutWave → RolloutWave → bool :=
  lex_Z w_DelayDays (fun a b => w_Priority b <? w_Priority a).

Definition describeWave (w : RolloutWave) : string :=
  w_Group w +:+ ": day " +:+ itoa (w_DelayDays w) +:+
  (if w_Priority w =? 0 then "" else " (priority " +:+ itoa (w_Priority w) +:+ ")").

Definition Describe (s : WaveSchedule) : string :=
  match ws_Waves s with
  | [] => "no wave schedule: every group starts at release"
  | ws =>
      let fallback :=
        match ws_DefaultDelayDays s with
        | Some d => "day " +:+ itoa d
        | None => "the slowest wave"
        end in
      join ", " (List.map describeWave (sort_stable describeLess ws))
      +:+ " (devices in no scheduled group: " +:+ fallback +:+ ")"
  end.

(** * The plan *)

(** [agentupdate.PlanWindow] *)
Record PlanWindow := mkWindow {
  pw_LocalStart : string;
  pw_LocalEnd : string;
  pw_RequireIdleMinutes : Z;
  pw_RequireUnattended : bool;
  pw_RequireACPower : bool;
  pw_DeadlineDays : Z;
}.

Record AgentRolloutPlan := mkPlan {
  p_DesiredVersion : string;
  p_ReleaseChannel : string;
  p_Frozen : bool;
  p_Intent : string;
  p_Reason : string;
  p_UpdatedAt : string;
  p_Waves : option WaveSchedule;
  p_Window : option PlanWindow;
}.

#[export] Instance AgentRolloutPlan_eta : Etaable AgentRolloutPlan := fun p =>
  mkPlan (p_DesiredVersion p) (p_ReleaseChannel p) (p_Frozen p) (p_Intent p) (p_Reason p)
    (p_UpdatedAt p) (p_Waves p) (p_Window p).

#[export] Instance RolloutWave_eq_dec : EqDecision RolloutWave.
Proof. solve_decision. Defined.
#[export] Instance WaveSchedule_eq_dec : EqDecision WaveSchedule.
Proof. solve_decision. Defined.
#[export] Instance PlanWindow_eq_dec : EqDecision PlanWindow.
Proof. solve_decision. Defined.
#[export] Instance AgentRolloutPlan_eq_dec : EqDecision AgentRolloutPlan.
Proof. solve_decision. Defined.

Definition emptyPlan : AgentRolloutPlan := mkPlan "" "" false "" "" "" None None.

Definition IntentRollout : string := "rollout".
Definition IntentRollback : string := "rollback".
Definition IntentFreeze : string := "freeze".
Definition IntentSchedule : string := "schedule".
Definition IntentFollow : string := "follow".
Definition intents : list string :=
  [IntentRollout; IntentRollback; IntentFreeze; IntentSchedule; IntentFollow].

(** [AgentRolloutPlan.IsSet] *)
Definition IsSet (p : AgentRolloutPlan) : bool :=
  nonempty (trim_space (p_DesiredVersion p)) || p_Frozen p || nonempty (trim_space (p_Intent p))
  || bool_decide (is_Some (p_Waves p)) || bool_decide (is_Some (p_Window p)).

(** [AgentRolloutDecision]: target, channel, update required. *)
Definition AgentRolloutDecision (plan : AgentRolloutPlan)
    (currentVersion fallbackTarget fallbackChannel : string) : string * string * bool :=
  let current := trim_space currentVersion in
  let target := trim_space (p_DesiredVersion plan) in
  let target := if is_empty target then trim_space fallbackTarget else target in
  let target := if is_empty target then current else target in
  let channel := trim_space (p_ReleaseChannel plan) in
  let channel := if is_empty channel then trim_space fallbackChannel else channel in
  if p_Frozen plan then (target, channel, false)
  else (target, channel, nonempty target && negb (String.eqb target current)).

Record UpdateRequest := mkRequest {
  r_Intent : string;
  r_DesiredVersion : string;
  r_ReleaseChannel : string;
  r_Reason : string;
  r_Frozen : option bool;
  r_Waves : option WaveSchedule;
  r_Window : option PlanWindow;
}.

Inductive window_error :=
  | NotLocalClock (name value : string) | NegativeIdle (n : Z)
  | NegativeDeadline (n : Z) | DeadlineTooLong (n : Z).

(** [isLocalClock]; the index [v[2]] and the slices are of a string of five bytes. *)
Definition isLocalClock (v : string) : bool :=
  let v := trim_space v in
  if negb (Z.of_nat (String.length v) =? 5)
     || negb (bool_decide (String.get 2 v = Some ":"%char)) then false
  else
    match atoi (String.substring 0 2 v), atoi (String.substring 3 2 v) with
    | Some h, Some m => (0 <=? h) && (h <=? 23) && (0 <=? m) && (m <=? 59)
    | _, _ => false
    end.

Definition validateWindow (w : option PlanWindow) : option window_error :=
  match w with
  | None => None
  | Some w =>
      if negb (isLocalClock (pw_LocalStart w))
      then Some (NotLocalClock "local_start" (pw_LocalStart w))
      else if negb (isLocalClock (pw_LocalEnd w))
      then Some (NotLocalClock "local_end" (pw_LocalEnd w))
      else if pw_RequireIdleMinutes w <? 0 then Some (NegativeIdle (pw_RequireIdleMinutes w))
      else if pw_DeadlineDays w <? 0 then Some (NegativeDeadline (pw_DeadlineDays w))
      else if 365 <? pw_DeadlineDays w then Some (DeadlineTooLong (pw_DeadlineDays w))
      else None
  end.

Inductive request_error :=
  | InvalidIntent (intent : string) | VersionRequired (intent : string) | ReasonRequired
  | ScheduleRequired | BadWaves (e : wave_error) | BadWindow (e : window_error).

Definition ValidateAgentRolloutUpdate (req : UpdateRequest)
    : result request_error AgentRolloutPlan :=
  let intent := trim_space (r_Intent req) in
  let intent := if is_empty intent then IntentRollout else intent in
  if negb (containsString intents intent) then Err (InvalidIntent intent)
  else
    let desired := trim_space (r_DesiredVersion req) in
    if (String.eqb intent IntentRollout || String.eqb intent IntentRollback) && is_empty desired
    then Err (VersionRequired intent)
    else
      let frozen := String.eqb intent IntentFreeze in
      let frozen := if String.eqb intent IntentFreeze then default frozen (r_Frozen req)
                    else frozen in
      let reason := trim_space (r_Reason req) in
      if String.eqb intent IntentFreeze && is_empty reason then Err ReasonRequired
      else if String.eqb intent IntentSchedule && bool_decide (r_Waves req = None)
              && bool_decide (r_Window req = None) then Err ScheduleRequired
      else
        match r_Waves req ≫= Validate with
        | Some e => Err (BadWaves e)
        | None =>
            match validateWindow (r_Window req) with
            | Some e => Err (BadWindow e)
            | None =>
                Ok (mkPlan desired (trim_space (r_ReleaseChannel req)) frozen intent reason ""
                      (r_Waves req) (r_Window req))
            end
        end.

(** * The store *)

Notation plans := (gmap string AgentRolloutPlan).

(** What the place a store is kept in holds: nothing yet, something that does not
    decode, or a snapshot of plans. *)
Inductive saved := Absent | Unreadable | Saved (ps : plans).

(** The checks of [decodeRolloutSnapshot] on a decoded row. *)
Definition planAcceptable (tenant : string) (p : AgentRolloutPlan) : bool :=
  String.eqb tenant (trim_space tenant)
  && (is_empty (p_Intent p) || containsString intents (p_Intent p))
  && (is_empty (p_UpdatedAt p) || bool_decide (is_Some (parse_rfc3339 (p_UpdatedAt p))))
  && bool_decide (p_Waves p ≫= Validate = None)
  && bool_decide (validateWindow (p_Window p) = None).

Definition decodeRolloutSnapshot (d : saved) : option plans :=
  match d with
  | Saved ps =>
      if bool_decide (map_Forall (fun t p => planAcceptable t p = true) ps) then Some ps else None
  | _ => None
  end.

(** [decodeCurrentLocked]: an absent snapshot is an error to a store that has plans. *)
Definition decodeCurrentLocked (local : plans) (d : saved) : option plans :=
  match d with
  | Absent => if bool_decide (local = ∅) then Some ∅ else None
  | _ => decodeRolloutSnapshot d
  end.

(** Where the store is kept: a persister with transactions ([contextUpdater]); a file
    or a persister without; or nowhere. *)
Inductive backing := Shared | Simple | Memory.

(** How a write ends; one that fails may have reached the store or not. *)
Inductive write_outcome := Written | WriteFailed (reached : bool).

(** What a write leaves, and whether the mutation is acknowledged. *)
Definition writeBack (local candidate : plans) (d : saved) (w : write_outcome)
    : plans * saved * bool :=
  match w with
  | Written => (candidate, Saved candidate, true)
  | WriteFailed reached => (local, if reached then Saved candidate else d, false)
  end.

(** [mutateLocked] with the outcome of the write: the store's plans, what is saved,
    and whether the mutation is acknowledged. *)
Definition mutateLocked (b : backing) (local : plans) (d : saved) (w : write_outcome)
    (edit : plans → plans) : plans * saved * bool :=
  match b with
  | Shared =>
      match decodeCurrentLocked local d with
      | None => (local, d, false)
      | Some current => writeBack local (edit current) d w
      end
  | Simple =>
      let candidate := edit local in
      if bool_decide (candidate = local) then (local, d, true)
      else writeBack local candidate d w
  | Memory => (edit local, d, true)
  end.

(** The merge under the lock in [ApplyContext]. *)
Definition mergePlan (before input : AgentRolloutPlan) (now : Z) : AgentRolloutPlan :=
  let merged := before in
  let merged := if bool_decide (is_Some (p_Waves input)) then merged <| p_Waves := p_Waves input |> else merged in
  let merged := if bool_decide (is_Some (p_Window input)) then merged <| p_Window := p_Window input |> else merged in
  let merged :=
    if String.eqb (p_Intent input) IntentSchedule then merged
    else if String.eqb (p_Intent input) IntentFollow then
      merged <| p_DesiredVersion := "" |> <| p_ReleaseChannel := "" |>
    else if String.eqb (p_Intent input) IntentFreeze then
      let merged := merged <| p_Frozen := p_Frozen input |> <| p_Reason := p_Reason input |> in
      let merged := if nonempty (p_DesiredVersion input)
                    then merged <| p_DesiredVersion := p_DesiredVersion input |> else merged in
      if nonempty (p_ReleaseChannel input)
      then merged <| p_ReleaseChannel := p_ReleaseChannel input |> else merged
    else
      merged <| p_DesiredVersion := p_DesiredVersion input |>
             <| p_ReleaseChannel := p_ReleaseChannel input |> in
  merged <| p_Intent := p_Intent input |> <| p_UpdatedAt := format_rfc3339 now |>.

(** The edit of [ApplyContext]: a tenant without a plan has the zero plan. *)
Definition applyEdit (tenantID : string) (input : AgentRolloutPlan) (now : Z) (ps : plans) : plans :=
  let key := trim_space tenantID in
  <[key := mergePlan (default emptyPlan (ps !! key)) input now]> ps.

Definition ApplyContext (b : backing) (local : plans) (d : saved) (w : write_outcome)
    (tenantID : string) (input : AgentRolloutPlan) (now : Z) : plans * saved * bool :=
  mutateLocked b local d w (applyEdit tenantID input now).

Definition SetContext (b : backing) (local : plans) (d : saved) (w : write_outcome)
    (tenantID : string) (plan : AgentRolloutPlan) : plans * saved * bool :=
  mutateLocked b local d w (fun ps => <[trim_space tenantID := plan]> ps).

Definition RemoveTenantContext (b : backing) (local : plans) (d : saved) (w : write_outcome)
    (tenantID : string) : plans * saved * bool :=
  mutateLocked b local d w (fun ps => delete (trim_space tenantID) ps).

(** [SnapshotChecked]: the store afterwards and the plans, [None] for an error. *)
Definition SnapshotChecked (b : backing) (local : plans) (d : saved) (loadOK : bool)
    : plans * option plans :=
  match b with
  | Shared =>
      if loadOK then
        match decodeCurrentLocked local d with
        | Some ps => (ps, Some ps)
        | None => (local, None)
        end
      else (local, None)
  | _ => (local, Some local)
  end.

(** [Get]: a store that cannot read its authority answers a freeze. *)
Definition Get (b : backing) (local : plans) (d : saved) (loadOK : bool) (tenantID : string)
    : plans * AgentRolloutPlan :=
  let '(local, answer) := SnapshotChecked b local d loadOK in
  (local,
   match answer with
   | None => mkPlan "" "" true IntentFreeze "rollout state is unavailable" "" None None
   | Some ps => default emptyPlan (ps !! trim_space tenantID)
   end).

Definition CountForTenant (local : plans) (tenantID : string) : Z :=
  if bool_decide (is_Some (local !! trim_space tenantID)) then 1 else 0.

Definition CountForTenantChecked (b : backing) (local : plans) (d : saved) (loadOK : bool)
    (tenantID : string) : plans * option Z :=
  let '(local, answer) := SnapshotChecked b local d loadOK in
  (local, (fun ps => CountForTenant ps tenantID) <$> answer).

(** [LoadFromPersister] when the store was read: the plans, or the process stops. *)
Definition LoadFromPersister (local : plans) (d : saved) : option plans :=
  match d with
  | Absent => Some local
  | _ => decodeRolloutSnapshot d
  end.

Definition Tenants (local : plans) : list string := sort_strings (map_to_list local).*1.

(** * Which wave *)

#[export] Instance speaksBefore_weak : WeakOrder speaksBefore.
Proof. unfold speaksBefore. apply _. Qed.

(** Two rows neither of which speaks before the other are the same row. *)
Lemma speaksBefore_antisym a b : speaksBefore a b = false → speaksBefore b a = false → a = b.
Proof.
  unfold speaksBefore, lex_Z, lex_string_lt. destruct a as [ga da pa], b as [gb db pb]. cbn.
  destruct (Z.eqb_spec (- pa) (- pb)), (Z.eqb_spec (- pb) (- pa)),
    (Z.eqb_spec (- da) (- db)), (Z.eqb_spec (- db) (- da));
    rewrite ?Z.ltb_ge; try lia.
  rewrite !string_ltb_leb, !negb_false_iff. intros H1 H2.
  rewrite (String.leb_antisym ga gb) by done. f_equal; lia.
Qed.

Lemma sorted_matches_unique l l' :
  l ≡ₚ l' → sort_stable speaksBefore l = sort_stable speaksBefore l'.
Proof.
  intros Hp. eapply (StronglySorted_unique_strong (fun a b => speaksBefore b a = false)).
  - intros x y _ _ H1 H2. by apply speaksBefore_antisym.
  - apply sort_stable_sorted, _.
  - apply sort_stable_sorted, _.
  - by rewrite !sort_stable_perm.
Qed.

(** The matches follow the memberships up to order. *)
#[export] Instance matchesOf_proper s : Proper ((≡ₚ) ==> (≡ₚ)) (matchesOf s).
Proof. intros groups groups' Hp. unfold matchesOf. by rewrite Hp. Qed.

Lemma slower_fold ws : ∀ m,
  let d := foldl (fun m w => if m <? w_DelayDays w then w_DelayDays w else m) m ws in
  m ≤ d ∧ ∀ w, w ∈ ws → w_DelayDays w ≤ d.
Proof.
  induction ws as [|x ws IH]; intros m; cbn; [split; [done|by intros ? []%elem_of_nil]|].
  destruct (IH (if m <? w_DelayDays x then w_DelayDays x else m)) as [H1 H2].
  assert (m ≤ (if m <? w_DelayDays x then w_DelayDays x else m) ∧
          w_DelayDays x ≤ (if m <? w_DelayDays x then w_DelayDays x else m)) as [H3 H4]
    by (destruct (Z.ltb_spec m (w_DelayDays x)); lia).
  split; [lia|]. intros w [->|Hin]%elem_of_cons; [lia|by apply H2].
Qed.

Lemma slowest_spec s w : w ∈ ws_Waves s → w_DelayDays w ≤ slowest s.
Proof. apply slower_fold. Qed.

Lemma slowest_nonneg s : 0 ≤ slowest s.
Proof. apply slower_fold. Qed.

(** The wave that speaks for a device.  The answer, its reason included, does
    not depend on the order the memberships are listed in.  When some group of the
    device is scheduled, the one that decides has the highest priority, and the longest
    delay among those of that priority; otherwise the device takes the configured
    default or, without one, waits at least as long as every wave. *)
Theorem assignment_decides (s : WaveSchedule) (groups : list string) :
  let a := AssignmentFor s groups in
  (∀ groups', groups' ≡ₚ groups → AssignmentFor s groups' = a) ∧
  if a_Explicit a then
    ∃ m, m ∈ matchesOf s groups ∧ a_Group a = m_group m ∧ a_DelayDays a = m_delay m ∧
      ∀ m', m' ∈ matchesOf s groups →
        m_priority m' < m_priority m ∨
        (m_priority m' = m_priority m ∧ m_delay m' ≤ m_delay m)
  else
    matchesOf s groups = [] ∧
    match ws_DefaultDelayDays s with
    | Some d => a_DelayDays a = d
    | None => ∀ w, w ∈ ws_Waves s → w_DelayDays w ≤ a_DelayDays a
    end.
Proof.
  intros a. split.
  { intros groups' Hp. unfold a, AssignmentFor.
    rewrite (sorted_matches_unique (matchesOf s groups') (matchesOf s groups)); [done|].
    by rewrite Hp. }
  unfold a, AssignmentFor. pose proof (sort_stable_perm speaksBefore (matchesOf s groups)) as Hp.
  pose proof (sort_stable_sorted speaksBefore (matchesOf s groups)) as Hs.
  destruct (sort_stable speaksBefore (matchesOf s groups)) as [|win rest].
  - apply Permutation_nil_l in Hp. destruct (ws_DefaultDelayDays s); cbn; [done|].
    split; [done|]. apply slowest_spec.
  - cbn. exists win. split_and!; [rewrite <- Hp; left|done|done|].
    intros m' Hm'. rewrite <- Hp in Hm'. apply elem_of_cons in Hm' as [->|Hm']; [lia|].
    apply StronglySorted_inv in Hs as [_ Hall]. rewrite Forall_forall in Hall.
    specialize (Hall m' Hm'). unfold speaksBefore, lex_Z in Hall. revert Hall.
    destruct (Z.eqb_spec (- m_priority m') (- m_priority win)); [|rewrite Z.ltb_ge; lia].
    destruct (Z.eqb_spec (- m_delay m') (- m_delay win)); [|rewrite Z.ltb_ge]; lia.
Qed.

Lemma validateWaves_nonneg i seen ws :
  validateWaves i seen ws = None → ∀ w, w ∈ ws → 0 ≤ w_DelayDays w.
Proof.
  revert i seen. induction ws as [|x ws IH]; intros i seen; [by intros _ w []%elem_of_nil|].
  cbn. destruct (is_empty _); [done|]. destruct (Z.ltb_spec (w_DelayDays x) 0); [done|].
  destruct (bool_decide _); [done|]. intros H' w [->|Hin]%elem_of_cons; [done|].
  by apply (IH _ _ H').
Qed.

Lemma assignment_nonneg s groups : Validate s = None → 0 ≤ a_DelayDays (AssignmentFor s groups).
Proof.
  unfold Validate. destruct (validateWaves 0 ∅ (ws_Waves s)) eqn:Hw; [done|]. intros Hd.
  pose proof (validateWaves_nonneg _ _ _ Hw) as Hnn. unfold AssignmentFor.
  pose proof (sort_stable_perm speaksBefore (matchesOf s groups)) as Hp.
  destruct (sort_stable speaksBefore (matchesOf s groups)) as [|win rest]; cbn.
  - destruct (ws_DefaultDelayDays s) as [d|]; cbn.
    + by destruct (Z.ltb_spec d 0).
    + apply slowest_nonneg.
  - assert (win ∈ matchesOf s groups) as Hin by (rewrite <- Hp; left).
    apply list_elem_of_omap in Hin as (g & _ & Hg). unfold matchOf in Hg.
    destruct (is_empty _); [done|]. destruct (rowFor s _) as [w|] eqn:Hrow; [|done].
    injection Hg as <-. cbn. apply Hnn. unfold rowFor in Hrow.
    apply find_some in Hrow as [Hrow _]. by apply list_elem_of_In.
Qed.

(** When a wave starts.  For a schedule that validates and a release
    with a date, a device never starts before the release, whatever its groups, and it
    starts a whole number of days after; a release without a date has no start time,
    rather than an immediate one. *)
Lemma wave_never_early (s : WaveSchedule) (groups : list string) (releasedAt : Z) :
  Validate s = None →
  if is_zero_time releasedAt then (WaveStart s groups releasedAt).1 = zero_time
  else releasedAt ≤ (WaveStart s groups releasedAt).1 ∧
       (WaveStart s groups releasedAt).1 = releasedAt + a_DelayDays (AssignmentFor s groups) * day.
Proof.
  intros Hv. pose proof (assignment_nonneg s groups Hv) as Hnn. unfold WaveStart.
  destruct (is_zero_time releasedAt); cbn [fst]; [done|]. split; [|done].
  assert (0 < day) by (unfold day, second; lia). nia.
Qed.

(** The pilot ring outranks the department, in whichever order they are listed. *)
Example pilot_outranks_finance :
  let s := mkSchedule [mkWave "pilot" 0 10; mkWave "Finance" 5 0] None in
  AssignmentFor s ["finance"; " pilot"] = AssignmentFor s ["pilot"; "FINANCE"] ∧
  a_DelayDays (AssignmentFor s ["finance"; " pilot"]) = 0 ∧
  a_DelayDays (AssignmentFor s ["sales"]) = 5.
Proof. split_and!; vm_compute; reflexivity. Qed.

(** * The halt, on every control plane *)

(** Control planes that share one persister: what it holds, and each one's plans. *)
Record fleet := mkFleet { f_saved : saved; f_node : Z → plans }.

Inductive fleet_event :=
  | EApply (node : Z) (tenantID : string) (req : UpdateRequest) (now : Z) (w : write_outcome)
  | ERemove (node : Z) (tenantID : string) (w : write_outcome)
  | ERead (node : Z) (tenantID : string) (loadOK : bool).

Definition fleet_with (f : fleet) (node : Z) (r : plans * saved) : fleet :=
  mkFleet r.2 (fun n => if n =? node then r.1 else f_node f n).

Definition fleet_step (f : fleet) (e : fleet_event) : fleet :=
  match e with
  | EApply node t req now ok =>
      match ValidateAgentRolloutUpdate req with
      | Err _ => f
      | Ok input => fleet_with f node (ApplyContext Shared (f_node f node) (f_saved f) ok t input now).1
      end
  | ERemove node t ok =>
      fleet_with f node (RemoveTenantContext Shared (f_node f node) (f_saved f) ok t).1
  | ERead node t ok =>
      fleet_with f node ((Get Shared (f_node f node) (f_saved f) ok t).1, f_saved f)
  end.

(** The events that may end a tenant's halt: a release, or the tenant's erasure. *)
Definition mayRelease (t : string) (e : fleet_event) : bool :=
  match e with
  | EApply _ t' req _ _ =>
      String.eqb (trim_space t') (trim_space t)
      && String.eqb (trim_space (r_Intent req)) IntentFreeze
      && bool_decide (r_Frozen req = Some false) && nonempty (trim_space (r_Reason req))
  | ERemove _ t' _ => String.eqb (trim_space t') (trim_space t)
  | ERead _ _ _ => false
  end.

(** What is saved says the tenant is halted. *)
Definition halted (t : string) (d : saved) : Prop :=
  ∃ ps p, d = Saved ps ∧ ps !! trim_space t = Some p ∧ p_Frozen p = true.

(** A validated request that leaves the halt off is a release with a reason, or does not
    decide the halt. *)
Lemma validated_release req input :
  ValidateAgentRolloutUpdate req = Ok input → p_Intent input = IntentFreeze →
  p_Frozen input = false →
  trim_space (r_Intent req) = IntentFreeze ∧ r_Frozen req = Some false ∧
  nonempty (trim_space (r_Reason req)) = true.
Proof.
  unfold ValidateAgentRolloutUpdate. intros H Hi Hf.
  destruct (negb _); [done|]. destruct (_ && is_empty (trim_space (r_DesiredVersion req))); [done|].
  destruct (_ && is_empty (trim_space (r_Reason req))) eqn:Hr; [done|].
  destruct (_ && _ && _) in H; [done|]. destruct (r_Waves req ≫= Validate); [done|].
  destruct (validateWindow _); [done|]. injection H as <-. cbn in Hi, Hf. rewrite Hi in *.
  rewrite String.eqb_refl in *. destruct (is_empty (trim_space (r_Intent req))); [done|].
  split; [done|]. destruct (r_Frozen req) as [[]|]; [done| |done]. split; [done|].
  unfold nonempty. cbn in Hr. by rewrite Hr.
Qed.

Lemma mergePlan_frozen before input now :
  p_Frozen (mergePlan before input now) =
  if String.eqb (p_Intent input) IntentFreeze then p_Frozen input else p_Frozen before.
Proof.
  unfold mergePlan. destruct (String.eqb_spec (p_Intent input) IntentSchedule) as [->|_];
    [by repeat case_match|].
  destruct (String.eqb_spec (p_Intent input) IntentFollow) as [->|_]; [by repeat case_match|].
  by repeat case_match.
Qed.

(** A mutation whose edit keeps the tenant halted keeps what is saved saying so. *)
Lemma mutateLocked_halted t local d ok edit :
  halted t d →
  (∀ ps, halted t (Saved ps) → halted t (Saved (edit ps))) →
  halted t (mutateLocked Shared local d ok edit).1.2.
Proof.
  intros Hd Hedit. unfold mutateLocked. destruct (decodeCurrentLocked local d) as [ps|] eqn:Hdec; [|done].
  assert (halted t (Saved (edit ps))) as He; [|by destruct ok as [|[]]].
  apply Hedit. destruct Hd as (ps' & p & -> & Hp & Hf).
  cbn in Hdec. destruct (bool_decide _); [|done]. injection Hdec as <-. by exists ps', p.
Qed.

Lemma fleet_step_halted t f e :
  halted t (f_saved f) → mayRelease t e = false → halted t (f_saved (fleet_step f e)).
Proof.
  intros Hh Hno. destruct e as [node t' req now ok|node t' ok|node t' ok]; cbn [fleet_step].
  - destruct (ValidateAgentRolloutUpdate req) as [input|e] eqn:Hv; [|done].
    apply mutateLocked_halted; [done|]. intros ps (ps' & p & [= <-] & Hp & Hf). unfold applyEdit.
    destruct (decide (trim_space t' = trim_space t)) as [Heq|Hne].
    + rewrite Heq, Hp. eexists _, _. split_and!; [done|by rewrite lookup_insert_eq|].
      rewrite mergePlan_frozen. cbn [default]. destruct (String.eqb_spec (p_Intent input) IntentFreeze); [|done].
      destruct (p_Frozen input) eqn:Hfi; [done|].
      destruct (validated_release _ _ Hv) as (H1 & H2 & H3); [done..|].
      cbn [mayRelease] in Hno. rewrite Heq, H1, H2, H3 in Hno. by rewrite !String.eqb_refl in Hno.
    + eexists _, _. split_and!; [done|by rewrite lookup_insert_ne|done].
  - apply mutateLocked_halted; [done|]. intros ps (ps' & p & [= <-] & Hp & Hf).
    cbn [mayRelease] in Hno. apply String.eqb_neq in Hno.
    eexists _, _. split_and!; [done|by rewrite lookup_delete_ne|done].
  - done.
Qed.

Lemma fleet_run_halted t es : ∀ f,
  halted t (f_saved f) → Forall (fun e => mayRelease t e = false) es →
  halted t (f_saved (foldl fleet_step f es)).
Proof.
  induction es as [|e es IH]; intros f Hh Hall; [done|]. apply Forall_cons in Hall as [H1 H2].
  cbn. apply IH; [|done]. by apply fleet_step_halted.
Qed.

Lemma Get_halted t local d loadOK :
  halted t d → p_Frozen (Get Shared local d loadOK t).2 = true.
Proof.
  intros (ps & p & -> & Hp & Hf). unfold Get, SnapshotChecked. destruct loadOK; [|done].
  cbn [decodeCurrentLocked decodeRolloutSnapshot]. destruct (bool_decide _); [|done].
  cbn. by rewrite Hp.
Qed.

(** (C7) An incident halt is the whole fleet's.  Once the shared store says a tenant
    is halted, no sequence of requests to any of the control planes - version choices,
    rollbacks, schedules, windows, other tenants' requests, rejected requests, writes
    that fail with or without effect, failed reads - ends it, short of an explicit
    release that carries a reason, or the tenant's erasure.  Until then every control plane, whatever it held before and
    whether or not it can read the store, answers a frozen plan, and no device is
    required to move. *)
Theorem halt_holds (t : string) (f : fleet) (es : list fleet_event) (node : Z) (loadOK : bool)
    (current target channel : string) :
  halted t (f_saved f) → Forall (fun e => mayRelease t e = false) es →
  let f' := foldl fleet_step f es in
  let plan := (Get Shared (f_node f' node) (f_saved f') loadOK t).2 in
  p_Frozen plan = true ∧ (AgentRolloutDecision plan current target channel).2 = false.
Proof.
  intros Hh Hall f' plan.
  assert (p_Frozen plan = true) as Hf by (apply Get_halted; by apply fleet_run_halted).
  split; [done|]. unfold AgentRolloutDecision. by rewrite Hf.
Qed.

Definition freezeRequest : UpdateRequest :=
  mkRequest "freeze" "" "" "bad build" None None None.
Definition rolloutRequest : UpdateRequest :=
  mkRequest "rollout" "2.0" "" "ship it" (Some false) None None.
Definition haltedFleet : fleet :=
  fleet_step (mkFleet Absent (fun _ => ∅)) (EApply 0 "acme" freezeRequest 0 Written).

Lemma halt_holds_witness :
  halted "acme" (f_saved haltedFleet) ∧
  p_Frozen (Get Shared ∅ (f_saved (fleet_step haltedFleet (EApply 1 " acme" rolloutRequest 5 Written)))
              true "acme").2 = true.
Proof.
  assert (halted "acme" (f_saved haltedFleet)) as H.
  { eexists _, _. split; [reflexivity|]. split; [vm_compute; reflexivity|reflexivity]. }
  split; [exact H|].
  pose proof (halt_holds "acme" haltedFleet [EApply 1 " acme" rolloutRequest 5 Written] 2 true
    "1.0" "" "" H) as Hh.
  assert (Forall (fun e => mayRelease "acme" e = false) [EApply 1 " acme" rolloutRequest 5 Written]) as Hall.
  { constructor; [reflexivity|constructor]. }
  exact (proj1 (Hh Hall)).
Defined.

(** * Snapshots stay readable *)

Lemma validated_acceptable req input :
  ValidateAgentRolloutUpdate req = Ok input →
  containsString intents (p_Intent input) = true ∧ p_Waves input ≫= Validate = None ∧
  validateWindow (p_Window input) = None.
Proof.
  unfold ValidateAgentRolloutUpdate. intros H.
  destruct (containsString intents _) eqn:Hi; cbn [negb] in H; [|done].
  destruct (_ && is_empty (trim_space (r_DesiredVersion req))); [done|].
  destruct (_ && is_empty (trim_space (r_Reason req))) eqn:Hr; [done|].
  destruct (_ && _ && _) in H; [done|]. destruct (r_Waves req ≫= Validate) eqn:Hw; [done|].
  destruct (validateWindow _) eqn:Hwin; [done|]. by injection H as <-.
Qed.

Lemma mergePlan_fields before input now :
  p_Intent (mergePlan before input now) = p_Intent input ∧
  p_UpdatedAt (mergePlan before input now) = format_rfc3339 now ∧
  p_Waves (mergePlan before input now)
  = match p_Waves input with Some w => Some w | None => p_Waves before end ∧
  p_Window (mergePlan before input now)
  = match p_Window input with Some w => Some w | None => p_Window before end.
Proof.
  unfold mergePlan. destruct input as [dv rc fr it re up [w|] [win|]]; cbn [p_Waves p_Window];
    rewrite ?(bool_decide_true (is_Some (Some _))) by eauto;
    rewrite ?(bool_decide_false (is_Some None)) by (by intros []);
    cbn [p_Intent p_Frozen p_Reason p_DesiredVersion p_ReleaseChannel];
    repeat match goal with |- context [if ?b then _ else _] => destruct b end; done.
Qed.

Lemma planAcceptable_spec t p :
  planAcceptable t p = true ↔
  t = trim_space t ∧ (p_Intent p = "" ∨ containsString intents (p_Intent p) = true) ∧
  (p_UpdatedAt p = "" ∨ is_Some (parse_rfc3339 (p_UpdatedAt p))) ∧
  p_Waves p ≫= Validate = None ∧ validateWindow (p_Window p) = None.
Proof.
  unfold planAcceptable. rewrite !andb_true_iff, !orb_true_iff, !bool_decide_eq_true, String.eqb_eq,
    !is_empty_true. tauto.
Qed.

Lemma merged_acceptable t before req input now :
  ValidateAgentRolloutUpdate req = Ok input → is_Some (parse_rfc3339 (format_rfc3339 now)) →
  (planAcceptable t before = true ∨ (before = emptyPlan ∧ t = trim_space t)) →
  planAcceptable t (mergePlan before input now) = true.
Proof.
  intros Hv Hnow Hb. destruct (validated_acceptable _ _ Hv) as (H1 & H2 & H3).
  assert (t = trim_space t ∧ p_Waves before ≫= Validate = None ∧ validateWindow (p_Window before) = None)
    as (Ht & Hbw & Hbwin).
  { destruct Hb as [Hb|[-> Ht]]; [|done].
    apply planAcceptable_spec in Hb as (? & _ & _ & ? & ?). done. }
  apply planAcceptable_spec. destruct (mergePlan_fields before input now) as (-> & -> & -> & ->).
  split_and!; [done|by right|by right| |].
  - by destruct (p_Waves input).
  - by destruct (p_Window input).
Qed.

(** A change made through validation never makes the shared store
    unreadable: when what is saved decodes, an acknowledged change leaves a snapshot
    that every control plane decodes again, and the plan it asked for is the tenant's
    plan there.  [now] is an instant whose timestamp reads back. *)
Theorem applied_snapshot_readable (req : UpdateRequest) (input : AgentRolloutPlan)
    (local ps ps' : plans) (d d' : saved) (t : string) (now : Z) :
  ValidateAgentRolloutUpdate req = Ok input → is_Some (parse_rfc3339 (format_rfc3339 now)) →
  decodeCurrentLocked local d = Some ps →
  ApplyContext Shared local d Written t input now = (ps', d', true) →
  decodeRolloutSnapshot d' = Some ps' ∧
  ps' !! trim_space t = Some (mergePlan (default emptyPlan (ps !! trim_space t)) input now) ∧
  ∀ t', t' ≠ trim_space t → ps' !! t' = ps !! t'.
Proof.
  intros Hv Hnow Hdec Happ. unfold ApplyContext, mutateLocked in Happ. rewrite Hdec in Happ.
  injection Happ as <- <-. unfold applyEdit. split_and!.
  - cbn [decodeRolloutSnapshot]. rewrite bool_decide_true; [done|].
    assert (map_Forall (fun t p => planAcceptable t p = true) ps) as Hps.
    { destruct d as [| |ps0]; cbn in Hdec; [| |].
      - destruct (bool_decide _); [|done]. injection Hdec as <-. apply map_Forall_empty.
      - done.
      - destruct (bool_decide_reflect (map_Forall (fun t p => planAcceptable t p = true) ps0)); [|done].
        by injection Hdec as <-. }
    apply map_Forall_insert_2; [|done]. apply (merged_acceptable _ _ req); [done..|].
    destruct (ps !! trim_space t) as [p|] eqn:Hp; cbn; [left; by apply Hps|].
    right. by rewrite trim_space_idemp.
  - by rewrite lookup_insert_eq.
  - intros t' Hne. by rewrite lookup_insert_ne.
Qed.

Lemma applied_snapshot_readable_witness :
  ∃ ps', decodeRolloutSnapshot (Saved ps') = Some ps' ∧ p_Frozen <$> ps' !! "acme" = Some true.
Proof.
  assert (is_Some (parse_rfc3339 (format_rfc3339 0))) as Hnow by (eexists; vm_compute; reflexivity).
  assert (decodeCurrentLocked ∅ Absent = Some ∅) as Hdec.
  { cbn. by rewrite bool_decide_true. }
  destruct (applied_snapshot_readable freezeRequest _ ∅ ∅ _ Absent _ "acme" 0 eq_refl Hnow
    Hdec eq_refl) as (H1 & H2 & _).
  eexists. split; [exact H1|]. exact (f_equal (fmap p_Frozen) H2).
Defined.

(** The comment on [isLocalClock] says HH:MM and nothing else; the numbers may carry a
    sign. *)
Example isLocalClock_accepts_signs : isLocalClock "+2:-0" = true.
Proof. reflexivity. Qed.
End AgentRollout.
