(* ===== verification/UpdateGate.v ===== *)
(** * The update gate on the device ([src/agentupdate/gate.go, plan.go])

    Whether a verified update may execute now: the halt, the device's wave, the
    maintenance window and the conditions of the machine, and the deadline that bounds
    the waiting.  Durations are 64-bit nanoseconds and their products wrap.  The
    sentence of a decision is kept as the values the code prints in it. *)

From Stdlib Require Import Ascii.
From stdpp Require Import base gmap list strings.
From S2P Require Import Prelude GoStd Common AgentRollout.

Open Scope Z_scope.

Module UpdateGate.

Record MaintenanceWindow := mkMaintenance {
  LocalStart : string;
  LocalEnd : string;
  RequireIdleMinutes : Z;
  RequireUnattended : bool;
  RequireACPower : bool;
  DeadlineDays : Z;
}.

(** [LocalNow] is an instant with the offset of its zone, in seconds. *)
Record DeviceConditions := mkConditions {
  LocalNow : Z;
  LocalOffset : Z;
  IdleFor : Z;
  IdleKnown : bool;
  InUse : bool;
  InUseKnown : bool;
  OnACPower : bool;
  PowerKnown : bool;
  EligibleSince : Z;
  Frozen : bool;
  PlanHold : string;
}.

Inductive wait :=
  | WaitFrozen | WaitPlanHold | WaitOutOfWindow | WaitBusy | WaitIdleUnknown | WaitOnBattery
  | WaitPowerUnknown | WaitInUse | WaitInUseUnknown | WaitNotYetInWave.

(** [parseHHMM]'s errors. *)
Inductive clock_error := ClockEmpty | ClockShape | ClockRange.

Inductive detail :=
  | DText (s : string)
  | DWave (since now remain : Z)
  | DForced (reason : wait) (waited days : Z)
  | DUnusable (which value : string) (e : clock_error)
  | DOutside (start end_ : string) (now : Z)
  | DIdle (idle need : Z)
  | DInside (start end_ : string) (now : Z).

Record GateDecision := mkGate {
  g_Proceed : bool;
  g_WaitReason : option wait;
  g_ForcedByDeadline : bool;
  g_Detail : detail;
}.

Definition parseHHMM (v : string) : result clock_error Z :=
  let v := trim_space v in
  if is_empty v then Err ClockEmpty
  else
    match cut ":" v with
    | None => Err ClockShape
    | Some (h, m) =>
        match atoi h, atoi m with
        | Some hh, Some mm =>
            if (hh <? 0) || (23 <? hh) || (mm <? 0) || (59 <? mm) then Err ClockRange
            else Ok (hh * 60 + mm)
        | _, _ => Err ClockRange
        end
    end.

Definition minute : Z := 60 * second.

(** [now.Hour()*60 + now.Minute()], on the device's wall clock. *)
Definition minuteOfDay (now offset : Z) : Z :=
  ((now + offset * second) mod AgentRollout.day) / minute.

Definition inLocalWindow (start end_ : string) (now offset : Z)
    : result (string * string * clock_error) bool :=
  match parseHHMM start with
  | Err e => Err ("start", start, e)
  | Ok s =>
      match parseHHMM end_ with
      | Err e => Err ("end", end_, e)
      | Ok e =>
          let cur := minuteOfDay now offset in
          if s =? e then Ok true
          else if s <? e then Ok ((s <=? cur) && (cur <? e))
          else Ok ((s <=? cur) || (cur <? e))
      end
  end.

(** [time.Duration(w.RequireIdleMinutes) * time.Minute] *)
Definition idleNeed (w : MaintenanceWindow) : Z := wrap64 (RequireIdleMinutes w * minute).

(** [windowHolds]: why the update is held, or that nothing holds it. *)
Definition windowHolds (w : MaintenanceWindow) (c : DeviceConditions) : option wait * detail :=
  match inLocalWindow (LocalStart w) (LocalEnd w) (LocalNow c) (LocalOffset c) with
  | Err (which, value, e) => (Some WaitOutOfWindow, DUnusable which value e)
  | Ok false => (Some WaitOutOfWindow, DOutside (LocalStart w) (LocalEnd w) (LocalNow c))
  | Ok true =>
      if (0 <? RequireIdleMinutes w) && negb (IdleKnown c) then
        (Some WaitIdleUnknown,
         DText "cannot determine how long this device has been idle; not updating a device that may be in use")
      else if (0 <? RequireIdleMinutes w) && (IdleFor c <? idleNeed w) then
        (Some WaitBusy, DIdle (IdleFor c) (idleNeed w))
      else if RequireUnattended w && negb (InUseKnown c) then
        (Some WaitInUseUnknown,
         DText "cannot determine whether anyone is using this device; not updating a device that may be in use")
      else if RequireUnattended w && InUse c then
        (Some WaitInUse,
         DText "someone is using this device (an interactive session is unlocked and connected)")
      else if RequireACPower w && negb (PowerKnown c) then
        (Some WaitPowerUnknown,
         DText "cannot determine whether this device is on mains power; not risking an install that loses power part-way")
      else if RequireACPower w && negb (OnACPower c) then
        (Some WaitOnBattery, DText "running on battery")
      else (None, DInside (LocalStart w) (LocalEnd w) (LocalNow c))
  end.

(** [time.Duration(w.DeadlineDays) * 24 * time.Hour] *)
Definition deadlineSpan (w : MaintenanceWindow) : Z :=
  wrap64 (wrap64 (DeadlineDays w * 24) * (3600 * second)).

Definition deadlinePassed (w : MaintenanceWindow) (c : DeviceConditions) : bool * Z :=
  if (DeadlineDays w <=? 0) || is_zero_time (EligibleSince c) then (false, 0)
  else
    let waited := time_sub (LocalNow c) (EligibleSince c) in
    (deadlineSpan w <=? waited, waited).

Definition EvaluateGate (w : MaintenanceWindow) (c : DeviceConditions) : GateDecision :=
  let h := trim_space (PlanHold c) in
  if nonempty h then mkGate false (Some WaitPlanHold) false (DText h)
  else if Frozen c then
    mkGate false (Some WaitFrozen) false
      (DText "rollout is frozen; no device moves until the freeze is lifted")
  else if negb (is_zero_time (EligibleSince c)) && (LocalNow c <? EligibleSince c) then
    mkGate false (Some WaitNotYetInWave) false
      (DWave (EligibleSince c) (LocalNow c) (time_sub (EligibleSince c) (LocalNow c)))
  else
    match windowHolds w c with
    | (None, d) => mkGate true None false d
    | (Some reason, d) =>
        let '(past, waited) := deadlinePassed w c in
        if past then mkGate true None true (DForced reason waited (DeadlineDays w))
        else mkGate false (Some reason) false d
    end.

(** [RaiseWindow]; the plan's window is [agentupdate.PlanWindow]. *)
Definition RaiseWindow (local : MaintenanceWindow) (plan : AgentRollout.PlanWindow)
    : MaintenanceWindow :=
  mkMaintenance
    (if nonempty (trim_space (AgentRollout.pw_LocalStart plan)) then AgentRollout.pw_LocalStart plan
     else LocalStart local)
    (if nonempty (trim_space (AgentRollout.pw_LocalEnd plan)) then AgentRollout.pw_LocalEnd plan
     else LocalEnd local)
    (if RequireIdleMinutes local <? AgentRollout.pw_RequireIdleMinutes plan
     then AgentRollout.pw_RequireIdleMinutes plan else RequireIdleMinutes local)
    (if AgentRollout.pw_RequireUnattended plan then true else RequireUnattended local)
    (if AgentRollout.pw_RequireACPower plan then true else RequireACPower local)
    (if 0 <? AgentRollout.pw_DeadlineDays plan then AgentRollout.pw_DeadlineDays plan
     else DeadlineDays local).

(** * Specification *)

(** The window is open: the clock times read, and the minute of the day is in the
    half-open interval, around midnight when the start is the later of the two. *)
Definition windowOpen (w : MaintenanceWindow) (c : DeviceConditions) : Prop :=
  ∃ s e, parseHHMM (LocalStart w) = Ok s ∧ parseHHMM (LocalEnd w) = Ok e ∧
    let cur := minuteOfDay (LocalNow c) (LocalOffset c) in
    s = e ∨ s ≤ cur < e ∨ (e < s ∧ (s ≤ cur ∨ cur < e)).

(** The device is known to be idle, unattended and on mains, where that is required. *)
Definition machineReady (w : MaintenanceWindow) (c : DeviceConditions) : Prop :=
  (0 < RequireIdleMinutes w → IdleKnown c = true ∧ RequireIdleMinutes w * minute ≤ IdleFor c) ∧
  (RequireUnattended w = true → InUseKnown c = true ∧ InUse c = false) ∧
  (RequireACPower w = true → PowerKnown c = true ∧ OnACPower c = true).

(** The device has been eligible for the days of the deadline. *)
Definition overdue (w : MaintenanceWindow) (c : DeviceConditions) : Prop :=
  0 < DeadlineDays w ∧ EligibleSince c ≠ zero_time ∧
  DeadlineDays w * AgentRollout.day ≤ LocalNow c - EligibleSince c.

(** The values whose products fit in a duration. *)
Definition idle_limit : Z := int_max / minute.
Definition deadline_limit : Z := int_max / AgentRollout.day.
Definition in_range (w : MaintenanceWindow) (c : DeviceConditions) : Prop :=
  0 ≤ RequireIdleMinutes w ≤ idle_limit ∧ 0 ≤ DeadlineDays w ≤ deadline_limit ∧
  int_min ≤ LocalNow c - EligibleSince c ≤ int_max.

(** * Properties *)

Lemma idleNeed_exact w : 0 ≤ RequireIdleMinutes w ≤ idle_limit → idleNeed w = RequireIdleMinutes w * minute.
Proof.
  intros [H1 H2]. unfold idleNeed. apply wrap64_id.
  assert (idle_limit * minute ≤ int_max) by (vm_compute; discriminate).
  assert (0 < minute) by reflexivity. unfold int_min. nia.
Qed.

Lemma deadlineSpan_exact w :
  0 ≤ DeadlineDays w ≤ deadline_limit → deadlineSpan w = DeadlineDays w * AgentRollout.day.
Proof.
  intros [H1 H2]. unfold deadlineSpan.
  assert (deadline_limit * AgentRollout.day ≤ int_max) by (vm_compute; discriminate).
  assert (AgentRollout.day = 24 * (3600 * second)) as Hd by reflexivity.
  assert (deadline_limit * 24 ≤ int_max) by (vm_compute; discriminate).
  rewrite (wrap64_id (DeadlineDays w * 24)) by (unfold int_min; nia).
  rewrite wrap64_id; rewrite Hd in *; [lia|]. unfold int_min, second in *. nia.
Qed.

Lemma inLocalWindow_spec w c :
  inLocalWindow (LocalStart w) (LocalEnd w) (LocalNow c) (LocalOffset c) = Ok true ↔ windowOpen w c.
Proof.
  unfold inLocalWindow, windowOpen.
  destruct (parseHHMM (LocalStart w)) as [s|]; [|split; [done|by intros (?&?&?&?)]].
  destruct (parseHHMM (LocalEnd w)) as [e|]; [|split; [done|by intros (?&?&?&?&?)]].
  set (cur := minuteOfDay _ _).
  transitivity (s = e ∨ s ≤ cur < e ∨ (e < s ∧ (s ≤ cur ∨ cur < e))).
  - destruct (Z.eqb_spec s e); [tauto|]. destruct (Z.ltb_spec s e).
    + split; [intros [= Hb]; bool_facts; lia|]. intros H'. f_equal.
      rewrite andb_true_iff, Z.leb_le, Z.ltb_lt. lia.
    + split; [intros [= Hb]|intros H'; f_equal].
      * rewrite orb_true_iff, Z.leb_le, Z.ltb_lt in Hb. lia.
      * rewrite orb_true_iff, Z.leb_le, Z.ltb_lt. lia.
  - split; [intros H'; exists s, e; by split_and!|]. by intros (? & ? & [= <-] & [= <-] & H').
Qed.

(** One reason to wait, and two about the same requirement: not known, or not so. *)
Lemma held_step {A B} (b : bool) (x : A) (d : B) (r : option A * B) :
  (if b then (Some x, d) else r).1 = None ↔ b = false ∧ r.1 = None.
Proof. destruct b; cbn; [|tauto]. split; [discriminate|by intros [? _]]. Qed.

Lemma requirement_met (required known bad : bool) (P : Prop) :
  (required && negb known = false ∧ (required && bad = false ∧ P)) ↔
  (required = true → known = true ∧ bad = false) ∧ P.
Proof. destruct required, known, bad; cbn; intuition congruence. Qed.

Lemma windowHolds_spec w c :
  0 ≤ RequireIdleMinutes w ≤ idle_limit →
  (windowHolds w c).1 = None ↔ windowOpen w c ∧ machineReady w c.
Proof.
  intros Hr. rewrite <- inLocalWindow_spec. unfold windowHolds, machineReady.
  rewrite (idleNeed_exact w Hr).
  destruct (inLocalWindow _ _ _ _) as [[]|[[? ?] ?]];
    [|split; [discriminate|intros [? _]; discriminate]..].
  rewrite !held_step, !requirement_met, Z.ltb_lt, Z.ltb_ge, negb_false_iff. cbn [fst]. intuition congruence.
Qed.

Lemma deadlinePassed_spec w c :
  in_range w c → (deadlinePassed w c).1 = true ↔ overdue w c.
Proof.
  intros (_ & Hd & Hs). unfold deadlinePassed, overdue, is_zero_time. rewrite deadlineSpan_exact by done.
  destruct (Z.leb_spec (DeadlineDays w) 0); cbn; [split; [discriminate|lia]|].
  destruct (Z.eqb_spec (EligibleSince c) zero_time); cbn; [split; [discriminate|tauto]|].
  unfold time_sub. rewrite Z.leb_le. split; [intros Hw; split_and!; [done..|lia]|intros (_ & _ & Hw); lia].
Qed.

(** When a device installs.  With the requirements in range, the gate proceeds
    exactly when no plan hold stands, the rollout is not halted, the device's wave has
    started, and either the window is open and the machine is known to be idle,
    unattended and powered as required, or the device has been eligible for longer
    than the deadline.  A halt, a hold and a wave that has not started therefore
    outrank the deadline, and what cannot be observed never counts as permission. *)
Theorem gate_proceeds_iff (w : MaintenanceWindow) (c : DeviceConditions) :
  in_range w c →
  g_Proceed (EvaluateGate w c) = true ↔
  trim_space (PlanHold c) = "" ∧ Frozen c = false ∧
  (EligibleSince c = zero_time ∨ EligibleSince c ≤ LocalNow c) ∧
  ((windowOpen w c ∧ machineReady w c) ∨ overdue w c).
Proof.
  intros Hr. rewrite <- windowHolds_spec, <- deadlinePassed_spec by (apply Hr || done).
  unfold EvaluateGate, nonempty, is_zero_time. rewrite <- is_empty_true.
  destruct (is_empty _); cbn; [|split; [discriminate|by intros []]].
  destruct (Frozen c); cbn; [split; [discriminate|by intros (_ & ? & _)]|].
  destruct (Z.eqb_spec (EligibleSince c) zero_time), (Z.ltb_spec (LocalNow c) (EligibleSince c));
    cbn; try (split; [discriminate|lia]);
    destruct (windowHolds w c) as [[r|] d], (deadlinePassed w c) as [[] waited]; cbn;
    intuition (congruence || lia).
Qed.

(** A night window, a pilot's conditions just after two in the morning. *)
Definition nightWindow : MaintenanceWindow := mkMaintenance "22:00" "05:00" 30 true true 14.
Definition nightConditions : DeviceConditions :=
  mkConditions (1700013600 * second) 0 (3600 * second) true false true true true
    (1700000000 * second) false "".

Lemma gate_proceeds_iff_witness :
  in_range nightWindow nightConditions ∧
  (g_Proceed (EvaluateGate nightWindow nightConditions) = true ↔
   trim_space (PlanHold nightConditions) = "" ∧ Frozen nightConditions = false ∧
   (EligibleSince nightConditions = zero_time ∨
    EligibleSince nightConditions ≤ LocalNow nightConditions) ∧
   ((windowOpen nightWindow nightConditions ∧ machineReady nightWindow nightConditions) ∨
    overdue nightWindow nightConditions)) ∧
  g_Proceed (EvaluateGate nightWindow nightConditions) = true.
Proof.
  assert (in_range nightWindow nightConditions) as H.
  { unfold in_range. vm_compute. split_and!; discriminate. }
  split; [exact H|]. split; [exact (gate_proceeds_iff _ _ H)|reflexivity].
Defined.

(** A plan can tighten a device's own conditions and never relax them.  If the
    machine does not meet the device's local requirements - idleness, attendance, power -
    it does not meet the requirements raised by any plan, and when the plan names no
    times the raised window is open only when the local one is. *)
Theorem raise_never_weakens (local : MaintenanceWindow) (plan : AgentRollout.PlanWindow)
    (c : DeviceConditions) :
  0 ≤ RequireIdleMinutes local ≤ idle_limit →
  AgentRollout.pw_RequireIdleMinutes plan ≤ idle_limit →
  trim_space (AgentRollout.pw_LocalStart plan) = "" →
  trim_space (AgentRollout.pw_LocalEnd plan) = "" →
  (windowHolds (RaiseWindow local plan) c).1 = None → (windowHolds local c).1 = None.
Proof.
  intros Hl Hp Hs He.
  assert (0 ≤ RequireIdleMinutes (RaiseWindow local plan) ≤ idle_limit) as Hr.
  { cbn. destruct (Z.ltb_spec (RequireIdleMinutes local) (AgentRollout.pw_RequireIdleMinutes plan)); lia. }
  rewrite !windowHolds_spec by done. unfold windowOpen, machineReady, RaiseWindow. cbn.
  rewrite Hs, He. cbn. intros [H1 (H2 & H3 & H4)]. split; [done|].
  destruct (Z.ltb_spec (RequireIdleMinutes local) (AgentRollout.pw_RequireIdleMinutes plan)).
  - destruct (AgentRollout.pw_RequireUnattended plan), (AgentRollout.pw_RequireACPower plan);
      split_and!; auto; intros _; (destruct H2 as [Hk Hm]; [lia|]; split; [done|]);
      assert (0 < minute) by reflexivity; nia.
  - destruct (AgentRollout.pw_RequireUnattended plan), (AgentRollout.pw_RequireACPower plan);
      split_and!; auto.
Qed.

Definition idlePlan : AgentRollout.PlanWindow := AgentRollout.mkWindow "" "" 45 false false 0.

Lemma raise_never_weakens_witness :
  (windowHolds (RaiseWindow nightWindow idlePlan) nightConditions).1 = None ∧
  (windowHolds nightWindow nightConditions).1 = None.
Proof.
  split; [reflexivity|].
  apply (raise_never_weakens nightWindow idlePlan nightConditions);
    [vm_compute; split; discriminate|vm_compute; discriminate|reflexivity..].
Defined.

(** An idle requirement past [idle_limit] is accepted by the control plane and wraps on
    the device, where it no longer holds a machine somebody is using. *)
Definition hugeIdle : Z := 153722868.

Example huge_idle_requirement_lifts_the_gate :
  AgentRollout.validateWindow
    (Some (AgentRollout.mkWindow "00:00" "00:00" hugeIdle false false 14)) = None ∧
  windowHolds
    (RaiseWindow (mkMaintenance "00:00" "00:00" 30 false false 14)
       (AgentRollout.mkWindow "00:00" "00:00" hugeIdle false false 14))
    (mkConditions (1700013600 * second) 0 0 true true true true true zero_time false "")
  = (None, DInside "00:00" "00:00" (1700013600 * second)).
Proof. split; vm_compute; reflexivity. Qed.
End UpdateGate.
