(* ===== verification/Session.v ===== *)
(** * Sessions ([src/session/store.go])

    A session is minted from an authentication event that proves a success, and the
    authorization-facing lookup returns it only while it is active and unexpired. *)

From stdpp Require Import base gmap list strings.
From S2P Require Import Prelude GoStd Model Common.

Open Scope Z_scope.

Module Session.

Notation store := (gmap string Model.Session).

Definition NewStore : store := ∅.

Inductive create_error :=
  | EventIDRequired | SessionIDRequired | TenantIDRequired
  | TenantMismatch (event expected : string) | UserIDRequired
  | NotSuccess (got : string) | SessionIDInUse.

(** The keys of an event's metadata a session keeps. *)
Definition keptKeys : list string :=
  ["issuer"; "email"; "groups"; "break_glass_request_id"; "break_glass_reason"; "ticket_id"].

Definition sessionMetadata (event : AuthenticationEvent) : metadata :=
  let m : metadata := set_keys ∅
    [ ("mfa_state", VStr (aev_MFAState event)); ("idp_id", VStr (aev_IDPID event));
      ("auth_time", VStr (aev_AuthTime event)); ("auth_method", VStr (aev_Method event)) ] in
  let m := match aev_AMR event with [] => m | amr => <["amr" := VStrs amr]> m end in
  let m := match aev_ACR event with Some acr => <["acr" := VStr acr]> m | None => m end in
  foldl (fun m key =>
    match aev_Metadata event !! key with Some v => <[key := v]> m | None => m end) m keptKeys.

(** The session an accepted event describes. *)
Definition sessionOf (event : AuthenticationEvent) (policyBundleID : string) (now : Z)
    : Model.Session :=
  let createdAt := Common.valueOrDefault (aev_Timestamp event) (format_rfc3339 now) in
  let expiresAt := default "" (aev_ExpiresAt event) in
  let expiresAt := if is_empty expiresAt then format_rfc3339 (now + 3600 * second)
                   else expiresAt in
  mkSession (aev_SessionID event) (aev_TenantID event) (aev_UserID event)
    (aev_SubjectUserID event) (aev_DeviceID event) (aev_ID event) policyBundleID createdAt
    expiresAt createdAt "active" (sessionMetadata event).

Definition CreateFromAuthenticationEvent (s : store) (event : AuthenticationEvent)
    (policyBundleID expectedTenantID : string) (now : Z)
    : store * result create_error Model.Session :=
  if is_empty (aev_ID event) then (s, Err EventIDRequired)
  else if is_empty (aev_SessionID event) then (s, Err SessionIDRequired)
  else if is_empty (aev_TenantID event) then (s, Err TenantIDRequired)
  else if nonempty expectedTenantID && negb (String.eqb (aev_TenantID event) expectedTenantID)
  then (s, Err (TenantMismatch (aev_TenantID event) expectedTenantID))
  else if is_empty (aev_UserID event) then (s, Err UserIDRequired)
  else if negb (String.eqb (aev_Result event) "success")
  then (s, Err (NotSuccess (aev_Result event)))
  else
    let session := sessionOf event policyBundleID now in
    match s !! ses_ID session with
    | Some existing =>
        if negb (String.eqb (ses_TenantID existing) (ses_TenantID session))
        then (s, Err SessionIDInUse)
        else (<[ses_ID session := session]> s, Ok session)
    | None => (<[ses_ID session := session]> s, Ok session)
    end.

Definition Get (s : store) (id : string) : option Model.Session := s !! id.

Definition GetActiveAt (s : store) (id : string) (now : Z) : option Model.Session :=
  match Get s id with
  | None => None
  | Some session =>
      if negb (String.eqb (ses_Status session) "active") then None
      else
        match parse_rfc3339 (ses_ExpiresAt session) with
        | None => None
        | Some expiresAt => if negb (now <? expiresAt) then None else Some session
        end
  end.

(** * Properties *)

(** What an event must say for a session to be minted from it. *)
Definition acceptable (event : AuthenticationEvent) (expectedTenantID : string) : Prop :=
  aev_ID event ≠ "" ∧ aev_SessionID event ≠ "" ∧ aev_TenantID event ≠ "" ∧
  aev_UserID event ≠ "" ∧ aev_Result event = "success" ∧
  (expectedTenantID = "" ∨ aev_TenantID event = expectedTenantID).

(** A creation, with the arguments it was called with. *)
Record creation := mkCreation {
  cr_event : AuthenticationEvent;
  cr_bundle : string;
  cr_tenant : string;
  cr_now : Z;
}.

Definition create (s : store) (c : creation) : store :=
  (CreateFromAuthenticationEvent s (cr_event c) (cr_bundle c) (cr_tenant c) (cr_now c)).1.

(** The two ways a creation ends. *)
Lemma create_cases s c :
  create s c = s ∨
  acceptable (cr_event c) (cr_tenant c) ∧
  create s c = <[aev_SessionID (cr_event c) := sessionOf (cr_event c) (cr_bundle c) (cr_now c)]> s ∧
  (∀ old, s !! aev_SessionID (cr_event c) = Some old →
          ses_TenantID old = aev_TenantID (cr_event c)).
Proof.
  unfold create, CreateFromAuthenticationEvent, acceptable. destruct c as [ev b t now].
  cbn [cr_event cr_bundle cr_tenant cr_now].
  destruct (is_empty (aev_ID ev)) eqn:H1; [by left|].
  destruct (is_empty (aev_SessionID ev)) eqn:H2; [by left|].
  destruct (is_empty (aev_TenantID ev)) eqn:H3; [by left|].
  destruct (nonempty t && _) eqn:H4; [by left|].
  destruct (is_empty (aev_UserID ev)) eqn:H5; [by left|].
  destruct (String.eqb_spec (aev_Result ev) "success") as [H6|]; [|by left].
  cbn [negb]. change (ses_ID (sessionOf ev b now)) with (aev_SessionID ev).
  assert (acceptable ev t) as Hacc.
  { unfold acceptable. rewrite <- !is_empty_true, H1, H2, H3, H5.
    split_and!; try discriminate; [done|]. unfold nonempty in H4.
    destruct (is_empty t); [by left|right]. cbn in H4.
    by destruct (String.eqb_spec (aev_TenantID ev) t). }
  destruct (s !! aev_SessionID ev) as [old|] eqn:Hold.
  - change (ses_TenantID (sessionOf ev b now)) with (aev_TenantID ev).
    destruct (String.eqb_spec (ses_TenantID old) (aev_TenantID ev)) as [Ht|]; [|by left].
    right. split; [done|]. split; [done|]. by intros ? [= <-].
  - right. split; [done|]. split; done.
Qed.

(** Every session was minted from an acceptable event of the history. *)
Lemma provenance cs : ∀ id x,
  foldl create NewStore cs !! id = Some x →
  ∃ c, c ∈ cs ∧ acceptable (cr_event c) (cr_tenant c) ∧ aev_SessionID (cr_event c) = id ∧
       x = sessionOf (cr_event c) (cr_bundle c) (cr_now c).
Proof.
  induction cs as [|c cs IH] using rev_ind; intros id x; [cbn; unfold NewStore; by rewrite lookup_empty|].
  rewrite foldl_snoc. destruct (create_cases (foldl create NewStore cs) c) as [->|(Ha & -> & _)].
  - intros Hx. destruct (IH id x Hx) as (c' & Hin & ?). exists c'.
    split; [apply elem_of_app; by left|done].
  - destruct (decide (id = aev_SessionID (cr_event c))) as [->|Hne].
    + rewrite lookup_insert_eq. intros [= <-]. exists c.
      split; [apply elem_of_app; right; left|done].
    + rewrite lookup_insert_ne by done. intros Hx. destruct (IH id x Hx) as (c' & Hin & ?).
      exists c'. split; [apply elem_of_app; by left|done].
Qed.

(** A session identifier stays with its tenant. *)
Lemma tenant_fixed cs : ∀ s id x,
  s !! id = Some x →
  ∃ y, foldl create s cs !! id = Some y ∧ ses_TenantID y = ses_TenantID x.
Proof.
  induction cs as [|c cs IH]; intros s id x Hx; [by exists x|]. cbn.
  destruct (create_cases s c) as [->|(_ & -> & Hold)]; [by apply IH|].
  destruct (decide (id = aev_SessionID (cr_event c))) as [->|Hne].
  - destruct (IH (<[aev_SessionID (cr_event c) := sessionOf (cr_event c) (cr_bundle c) (cr_now c)]> s)
      (aev_SessionID (cr_event c)) _ (lookup_insert_eq _ _ _)) as (y & Hy & Ht).
    exists y. split; [done|]. rewrite Ht. symmetry. by apply Hold.
  - apply IH. by rewrite lookup_insert_ne.
Qed.

(** What an active session proves.  After any sequence of creations, a session
    the authorization lookup returns was minted from an event of the sequence that says
    success, names a user, this session, and the session's tenant - the tenant the
    caller expected, where it expected one; the session is active and expires strictly
    later.  And an identifier never moves between tenants: whatever is created
    afterwards, it still belongs to the same one. *)
Theorem active_session_sound (cs later : list creation) (id : string) (now : Z)
    (x : Model.Session) :
  let s := foldl create NewStore cs in
  GetActiveAt s id now = Some x →
  (∃ c exp, c ∈ cs ∧ acceptable (cr_event c) (cr_tenant c) ∧
     ses_ID x = id ∧ aev_SessionID (cr_event c) = id ∧
     ses_TenantID x = aev_TenantID (cr_event c) ∧ ses_UserID x = aev_UserID (cr_event c) ∧
     ses_AuthenticationEventID x = aev_ID (cr_event c) ∧ ses_Status x = "active" ∧
     parse_rfc3339 (ses_ExpiresAt x) = Some exp ∧ now < exp) ∧
  (∃ y, foldl create s later !! id = Some y ∧ ses_TenantID y = ses_TenantID x).
Proof.
  intros s. unfold GetActiveAt, Get. destruct (s !! id) as [z|] eqn:Hz; [|done].
  destruct (String.eqb_spec (ses_Status z) "active") as [Hst|]; [|done]. cbn [negb].
  destruct (parse_rfc3339 (ses_ExpiresAt z)) as [exp|] eqn:Hexp; [|done].
  destruct (Z.ltb_spec now exp) as [Hlt|]; [|done]. cbn [negb]. intros [= <-].
  split; [|by apply tenant_fixed].
  destruct (provenance cs id z Hz) as (c & Hin & Ha & Hid & ->).
  exists c, exp. split_and!; done.
Qed.

Definition loginEvent : AuthenticationEvent :=
  zero_AuthenticationEvent <| aev_ID := "ev1" |> <| aev_SessionID := "s1" |>
    <| aev_TenantID := "acme" |> <| aev_UserID := "alice" |> <| aev_Result := "success" |>.
Definition login : creation := mkCreation loginEvent "bundle" "acme" 0.

Lemma active_session_sound_witness :
  ∃ x, GetActiveAt (foldl create NewStore [login]) "s1" (1800 * second) = Some x ∧
       ses_TenantID x = "acme" ∧
       ∃ y, foldl create (foldl create NewStore [login])
              [mkCreation (loginEvent <| aev_TenantID := "other" |>) "" "" 5] !! "s1" = Some y ∧
            ses_TenantID y = ses_TenantID x.
Proof.
  exists (sessionOf loginEvent "bundle" 0).
  assert (GetActiveAt (foldl create NewStore [login]) "s1" (1800 * second)
          = Some (sessionOf loginEvent "bundle" 0)) as H by (vm_compute; reflexivity).
  split; [exact H|]. split; [reflexivity|].
  exact (proj2 (active_session_sound [login]
    [mkCreation (loginEvent <| aev_TenantID := "other" |>) "" "" 5] "s1" (1800 * second) _ H)).
Defined.
End Session.
