(* ===== verification/TransportDoor.v ===== *)
(** * The transport door of an Edge ([src/cmd/dsse-edge/secure_transport.go])

    Who may complete a handshake: the identity and the tenant a certificate names
    ([src/tenantca/registry.go]), the gate of [VerifyConnection], the registry of live
    connections ([transport_conn_registry.go]) and the two handlers with which an
    administrator blocks and restores a device ([admin_device_admission_routes.go]). *)

From Stdlib Require Import Ascii.
From stdpp Require Import base gmap fin_maps list strings.
From S2P Require Import Prelude Common Trimmed GoStd Persistence Admission.
Import Admission.

Open Scope Z_scope.

Module TransportDoor.

(** ** Certificates *)

(** [anchorKey] is [CAAnchorKey]: the SHA-256 of the raw certificate.  A URI is its text. *)
Record Certificate := mkCertificate {
  CommonName : string;
  URIs : list (option string);
  DNSNames : list string;
  anchorKey : string;
}.

Record ConnectionState := mkConnectionState {
  PeerCertificates : list Certificate;
  VerifiedChains : list (list (option Certificate));
}.

Fixpoint firstURI (uris : list (option string)) : option string :=
  match uris with
  | [] => None
  | Some uri :: uris => if nonempty (trim_space uri) then Some uri else firstURI uris
  | None :: uris => firstURI uris
  end.

Definition transportIdentityFromLeaf (leaf : option Certificate) : string :=
  match leaf with
  | None => ""
  | Some leaf =>
      let id := trim_space (CommonName leaf) in
      if nonempty id then id
      else match firstURI (URIs leaf) with
           | Some uri => uri
           | None => default "" (List.find (fun dns => nonempty (trim_space dns)) (DNSNames leaf))
           end
  end.

(** [byAnchorKey]: the tenants of the registered CAs. *)
Definition TenantCARegistry := gmap string string.

Fixpoint resolveChain (reg : TenantCARegistry) (resolved : string) (chain : list (option Certificate))
    : option string :=
  match chain with
  | [] => Some resolved
  | None :: _ => None
  | Some c :: chain =>
      match reg !! anchorKey c with
      | None => resolveChain reg resolved chain
      | Some tid => if nonempty resolved && negb (String.eqb resolved tid) then None else resolveChain reg tid chain
      end
  end.

Fixpoint resolveChains (reg : TenantCARegistry) (resolved : string) (chains : list (list (option Certificate)))
    : option string :=
  match chains with
  | [] => if nonempty resolved then Some resolved else None
  | chain :: chains => resolved ← resolveChain reg resolved chain; resolveChains reg resolved chains
  end.

Definition TenantForVerifiedChains (reg : TenantCARegistry) (chains : list (list (option Certificate)))
    : option string := resolveChains reg "" chains.

(** ** What the door asks of the enrolled ledger *)

Class DeviceLedger (L : Type) := {
  IsAdmitted : L → string → bool;
  EntryTenant : L → string → option string;         (* [EntryFor(id)], its [TenantID] *)
}.

(** Devices are known by their normalised identity, and an admitted one has an entry. *)
Class DeviceLedgerLaws (L : Type) `{DeviceLedger L} : Prop := {
  IsAdmitted_norm l id : IsAdmitted l (normalizeIdentity id) = IsAdmitted l id;
  EntryTenant_norm l id : EntryTenant l (normalizeIdentity id) = EntryTenant l id;
  admitted_entry l id : IsAdmitted l id = true → is_Some (EntryTenant l id);
}.

Section door.
Context {L : Type} `{DeviceLedger L}.

(** ** The gate of a handshake *)

Record secureTransportConfig := mkTransportConfig {
  TenantCAs : option TenantCARegistry;
  ExpectedTenantID : string;
  RequireClientCert : bool;
  RequireEnrolledIdentity : bool;
  EnrolledIdentities : gset string;
  EnrolledLedger : option L;
  overlay : bool;                                    (* [AdmissionRevocations != nil] *)
}.

Inductive admission_error :=
  | NoClientCert | TenantUnresolved | TenantMismatch (tenant : string)
  | IdentityRevoked (id reason : string) | NoIdentity | NotEnrolled (id : string)
  | TenantOwnerMismatch (id : string).

Definition tenantBindingActive (cfg : secureTransportConfig) : bool :=
  bool_decide (is_Some (TenantCAs cfg)) && nonempty (trim_space (ExpectedTenantID cfg)).

Definition ownersKnown (cfg : secureTransportConfig) : bool :=
  bool_decide (is_Some (TenantCAs cfg)) && bool_decide (is_Some (EnrolledLedger cfg)).

Definition ownerCheckOnly (cfg : secureTransportConfig) : bool :=
  ownersKnown cfg && negb (RequireClientCert cfg) && negb (tenantBindingActive cfg)
  && negb (RequireEnrolledIdentity cfg) && negb (overlay cfg).

(** Whether [VerifyConnection] is installed at all. *)
Definition gateInstalled (cfg : secureTransportConfig) : bool :=
  tenantBindingActive cfg || RequireEnrolledIdentity cfg || overlay cfg || ownersKnown cfg.

Definition knownEnrolledOwnerMatchesCertificateTenant (chains : list (list (option Certificate))) (id : string)
    (reg : option TenantCARegistry) (ledger : option L) : bool :=
  match reg, ledger with
  | Some reg, Some ledger =>
      match EntryTenant ledger id with
      | None => true
      | Some tenant =>
          let owner := trim_space tenant in
          if is_empty owner then true
          else bool_decide (TenantForVerifiedChains reg chains = Some owner)
      end
  | _, _ => true
  end.

Definition tenantBinding (cfg : secureTransportConfig) (cs : ConnectionState) : option admission_error :=
  match TenantCAs cfg with
  | Some reg =>
      if tenantBindingActive cfg then
        match TenantForVerifiedChains reg (VerifiedChains cs) with
        | None => Some TenantUnresolved
        | Some tid => if String.eqb tid (trim_space (ExpectedTenantID cfg)) then None else Some (TenantMismatch tid)
        end
      else None
  | None => None
  end.

Definition revocationCheck (cfg : secureTransportConfig) (a : AdmissionRevocations) (id : string)
    : option admission_error :=
  if overlay cfg then IdentityRevoked id <$> IsRevoked a id else None.

Definition enrolmentCheck (cfg : secureTransportConfig) (id : string) : option admission_error :=
  if RequireEnrolledIdentity cfg then
    if is_empty id then Some NoIdentity
    else
      let admitted := match EnrolledLedger cfg with
                      | Some ledger => IsAdmitted ledger id
                      | None => bool_decide (to_lower (trim_space id) ∈ EnrolledIdentities cfg)
                      end in
      if admitted then None else Some (NotEnrolled id)
  else None.

(** [if err := ...; err != nil { return err }], one after the other. *)
Fixpoint firstError (checks : list (option admission_error)) : option admission_error :=
  match checks with
  | [] => None
  | Some e :: _ => Some e
  | None :: checks => firstError checks
  end.

Definition VerifyConnection (cfg : secureTransportConfig) (a : AdmissionRevocations) (cs : ConnectionState)
    : option admission_error :=
  if negb (gateInstalled cfg) then None
  else match PeerCertificates cs with
       | [] => if ownerCheckOnly cfg then None else Some NoClientCert
       | leaf :: _ =>
           let id := transportIdentityFromLeaf (Some leaf) in
           firstError [tenantBinding cfg cs; revocationCheck cfg a id; enrolmentCheck cfg id;
             if knownEnrolledOwnerMatchesCertificateTenant (VerifiedChains cs) id (TenantCAs cfg) (EnrolledLedger cfg)
             then None else Some (TenantOwnerMismatch id)]
       end.

(** The identity under which a connection is tracked: empty for none. *)
Definition connIdentity (cs : ConnectionState) : string := transportIdentityFromLeaf (head (PeerCertificates cs)).

(** ** Whose device it is ([device_tenant.go], [device_runtime_tenant_scope.go]) *)

Definition deviceGroupVisibleToTenant (groupTenant callerTenant : string) : bool :=
  let g := trim_space groupTenant in
  let c := trim_space callerTenant in
  if is_empty c then true else nonempty g && String.eqb g c.

(** [belongs] and [placeable]. *)
Definition identityBelongsToTenant (ledger : option L) (identity tenantID : string) : bool * bool :=
  if is_blank tenantID then (true, true)
  else match ledger with
       | None => (false, false)
       | Some ledger =>
           match EntryTenant ledger identity with
           | None => (false, false)
           | Some tenant =>
               if is_blank tenant then (false, false) else (deviceGroupVisibleToTenant tenant tenantID, true)
           end
       end.

(** ** The handlers of an administrator's block and of its end *)

(** What the request says of its caller: the tenant it acts in, whether it answers for the
    whole deployment ([adminAnswerScope]) and the tenant its page was opened for. *)
Record admin_request := mkAdminRequest {
  expected_tenant_id : string;
  adminTenantID : string;
  isOperator : bool;
  operateTenant : string;                            (* [X-Operate-Tenant] *)
  body : option (string * string);                   (* identity and reason; [None]: not decoded *)
}.

Definition pinnedTenantContextMatches (r : admin_request) : bool :=
  negb (nonempty (expected_tenant_id r) && negb (String.eqb (expected_tenant_id r) (adminTenantID r))).

Definition adminAnswerScope (r : admin_request) : string * bool :=
  let named := trim_space (adminTenantID r) in
  if negb (isOperator r) then (named, false)
  else let operating := trim_space (operateTenant r) in
       if nonempty operating then (operating, false) else (named, true).

Definition configWriteRejectedWhenSourced (configSourceURL : string) : bool := negb (is_blank configSourceURL).

(** [IdentityOutOfReach]: the device is not the caller's, or nobody can say whose it is. *)
Inductive refusal :=
  | TenantChanged | SourcedElsewhere | NoOverlay | BadBody | BlankIdentity | IdentityOutOfReach.

(** The guards both handlers share, up to the first edit. *)
Definition deviceActGuards (ledger : option L) (configSourceURL : string) (overlay : bool) (r : admin_request)
    : result refusal (string * string) :=
  if negb (pinnedTenantContextMatches r) then Err TenantChanged
  else if configWriteRejectedWhenSourced configSourceURL then Err SourcedElsewhere
  else if negb overlay then Err NoOverlay
  else match body r with
       | None => Err BadBody
       | Some (identity, reason) =>
           if is_blank identity then Err BlankIdentity
           else if (adminAnswerScope r).2 then Ok (identity, reason)
           else let '(belongs, placeable) := identityBelongsToTenant ledger identity (adminTenantID r) in
                if negb placeable || negb belongs then Err IdentityOutOfReach else Ok (identity, reason)
       end.

Record audit := mkAudit {
  au_TenantID : string;
  au_Action : string;
  au_Identity : string;
  au_Reason : option string;
  au_Result : string;
  au_AppliedLocally : option bool;
  au_TransportRevoked : option bool;
}.

#[export] Instance audit_eta : Etaable audit := fun x =>
  mkAudit (au_TenantID x) (au_Action x) (au_Identity x) (au_Reason x) (au_Result x) (au_AppliedLocally x)
    (au_TransportRevoked x).

Definition transportAdmissionAuditLog (tenantID action identity reason : string) : audit :=
  mkAudit (trim_space tenantID) (String.append "transport_admission_" action) (normalizeIdentity identity)
    (if String.eqb action "revoke" then Some (trim_space reason) else None) "success" None None.

(** The record is filed under the owner of the device, if it has one. *)
Definition auditTenant (ledger : option L) (r : admin_request) (identity : string) : string :=
  match ledger with
  | Some ledger =>
      match EntryTenant ledger identity with
      | Some tenant => if is_blank tenant then adminTenantID r else tenant
      | None => adminTenantID r
      end
  | None => adminTenantID r
  end.

Inductive response :=
  | Refused (e : refusal)
  | AppliedNotSaved | NotApplied
  | Done (tenantID identity reason : string) (transportRevoked : bool).

(** [sweep] is the identity handed to [logCloseIdentity]. *)
Record outcome := mkOutcome {
  out_overlay : AdmissionRevocations;
  out_stored : option payload;
  out_notices : list notice;
  out_sweep : option string;
  out_audit : list audit;
  out_response : response;
}.

Definition refusedAct (a : AdmissionRevocations) (stored : option payload) (e : refusal) : outcome :=
  mkOutcome a stored [] None [] (Refused e).

Definition revokeDevice (hk : hooks) (ledger : option L) (configSourceURL : string)
    (overlay : bool) (a : AdmissionRevocations) (registry : bool) (stored : option payload)
    (w : write_outcome) (r : admin_request) : outcome :=
  match deviceActGuards ledger configSourceURL overlay r with
  | Err e => refusedAct a stored e
  | Ok (identity, why) =>
      let reason := valueOrDefault (trim_space why) "admin_kill_switch" in
      let '(a', stored', calls, (applied, saveErr)) := RevokeCheckedContext hk a stored w identity reason in
      let record := transportAdmissionAuditLog (auditTenant ledger r identity) "revoke" identity reason in
      let failed := bool_decide (is_Some saveErr) in
      mkOutcome a' stored' calls
        (if applied && registry then Some identity else None)
        [if failed then record <| au_Result := if applied then "partial" else "error" |>
                               <| au_AppliedLocally := Some applied |>
         else record]
        (if failed then if applied then AppliedNotSaved else NotApplied
         else Done (adminTenantID r) (trim_space identity) reason true)
  end.

Definition restoreDevice (hk : hooks) (ledger : option L) (configSourceURL : string)
    (overlay : bool) (a : AdmissionRevocations) (stored : option payload)
    (w : write_outcome) (r : admin_request) : outcome :=
  match deviceActGuards ledger configSourceURL overlay r with
  | Err e => refusedAct a stored e
  | Ok (identity, _) =>
      let '(a', stored', calls, saveErr) := RestoreCheckedContext hk a stored w identity in
      let transportRevoked := bool_decide (is_Some (Admission.IsRevoked a' identity)) in
      let failed := bool_decide (is_Some saveErr) in
      let record := (transportAdmissionAuditLog (auditTenant ledger r identity) "restore" identity "")
        <| au_TransportRevoked := Some transportRevoked |> in
      mkOutcome a' stored' calls None
        [if failed then record <| au_Result := "error" |> <| au_AppliedLocally := Some false |>
         else if transportRevoked then record <| au_Result := "partial" |> else record]
        (if failed then NotApplied else Done (adminTenantID r) (trim_space identity) "" transportRevoked)
  end.

End door.

(** ** Live connections ([transport_conn_registry.go])

    A connection is the pointer of its raw socket: a number. *)

Definition normConnID (id : string) : string := to_lower (trim_space id).

Record transportConnRegistry := mkRegistry {
  conns : gmap string (gset nat);
  ids : gmap nat string;
}.

#[export] Instance registry_eta : Etaable transportConnRegistry := fun r => mkRegistry (conns r) (ids r).

Definition newTransportConnRegistry : transportConnRegistry := mkRegistry ∅ ∅.

(** The connections of an identity; no set is the empty one. *)
Definition tracked (r : transportConnRegistry) (id : string) : gset nat := default ∅ (conns r !! id).

Definition register (id : string) (c : nat) (r : transportConnRegistry) : transportConnRegistry :=
  let id := normConnID id in
  if is_empty id then r
  else mkRegistry (<[id := {[c]} ∪ tracked r id]> (conns r)) (<[c := id]> (ids r)).

Definition unregister (id : string) (c : nat) (r : transportConnRegistry) : transportConnRegistry :=
  let id := normConnID id in
  if is_empty id then r
  else mkRegistry
         (match conns r !! id with
          | None => conns r
          | Some set =>
              let set := set ∖ {[c]} in
              if bool_decide (set = ∅) then delete id (conns r) else <[id := set]> (conns r)
          end)
         (delete c (ids r)).

(** The victims of [CloseIdentity], collected under the lock. *)
Definition victims `{MapOrder} (r : transportConnRegistry) (id : string) : list nat :=
  let id := normConnID id in
  if is_empty id then [] else iterate (elements (tracked r id)).

(** ** The life of a connection

    [attachConnRegistryTracking]: the gate, the registration and the second look at the
    overlay, in this order.  The two critical sections of [unregisterConn] are two steps. *)

Inductive phase :=
  | Handshaking | Passed | Registered | Withdrawing | Unregistering (id : string) | Rejected | Serving.

(** [Closing]: some call of [Close] has begun on it. *)
Inductive socket := Open | Closing | Closed.

Record connection := mkConnection { state : ConnectionState; at_phase : phase; sock : socket }.

#[export] Instance connection_eta : Etaable connection := fun c => mkConnection (state c) (at_phase c) (sock c).

(** A call of [Close] on the first of [pending]: its two critical sections, then the socket. *)
Inductive close_stage := AtLookup | AtUnregister (id : string) | AtSocket.

Inductive thread :=
  | Sweep (identity : string)                        (* [CloseIdentity], before its lock *)
  | CloseAll (identity : option string) (pending : list nat) (at_stage : close_stage).

Record door := mkDoor {
  registry : transportConnRegistry;
  connections : gmap nat connection;
  threads : gmap nat thread;
}.

#[export] Instance door_eta : Etaable door := fun d => mkDoor (registry d) (connections d) (threads d).

Definition emptyDoor : door := mkDoor newTransportConnRegistry ∅ ∅.

(** What happens next at the door: a connection is accepted, its handshake goes one step on,
    somebody calls [Close] on it, or a call that is under way goes one step on. *)
Inductive event := Accept (c : nat) (cs : ConnectionState) | Handshake (c : nat) | CallClose (k c : nat) | Advance (k : nat).

Section life.
Context {L : Type} `{DeviceLedger L} `{MapOrder}.

Definition toPhase (c : nat) (p : phase) (d : door) : door :=
  d <| connections := alter (fun x => x <| at_phase := p |>) c (connections d) |>.
Definition toSocket (c : nat) (s : socket) (d : door) : door :=
  d <| connections := alter (fun x => x <| sock := s |>) c (connections d) |>.

(** [None]: the step is not one this connection takes. *)
Definition handshake (cfg : secureTransportConfig) (a : AdmissionRevocations) (c : nat) (d : door) : option door :=
  x ← connections d !! c;
  let id := connIdentity (state x) in
  match at_phase x with
  | Handshaking =>
      Some (toPhase c (match VerifyConnection cfg a (state x) with None => Passed | Some _ => Rejected end) d)
  | Passed =>
      Some (if is_empty id then toPhase c Serving d
            else (toPhase c Registered d) <| registry := register id c (registry d) |>)
  | Registered =>
      Some (toPhase c (match Admission.IsRevoked a id with None => Serving | Some _ => Withdrawing end) d)
  | Withdrawing =>
      Some (toPhase c (match ids (registry d) !! c with None => Rejected | Some i => Unregistering i end) d)
  | Unregistering i => Some ((toPhase c Rejected d) <| registry := unregister i c (registry d) |>)
  | Rejected | Serving => None
  end.

(** [trackedRawConn.Close]: a socket that is closed stays closed. *)
Definition beginClose (c : nat) (d : door) : door :=
  match connections d !! c with
  | Some x => match sock x with Open => toSocket c Closing d | _ => d end
  | None => d
  end.

Definition advance (k : nat) (d : door) : option door :=
  t ← threads d !! k;
  match t with
  | Sweep id => Some (d <| threads := <[k := CloseAll (Some id) (victims (registry d) id) AtLookup]> (threads d) |>)
  | CloseAll _ [] _ => None
  | CloseAll o (c :: pending) AtLookup =>
      Some ((beginClose c d) <| threads :=
        <[k := CloseAll o (c :: pending) (match ids (registry d) !! c with Some i => AtUnregister i | None => AtSocket end)]>
          (threads d) |>)
  | CloseAll o (c :: pending) (AtUnregister i) =>
      Some (d <| registry := unregister i c (registry d) |>
              <| threads := <[k := CloseAll o (c :: pending) AtSocket]> (threads d) |>)
  | CloseAll o (c :: pending) AtSocket =>
      Some ((toSocket c Closed d) <| threads := <[k := CloseAll o pending AtLookup]> (threads d) |>)
  end.

Definition handle (cfg : secureTransportConfig) (a : AdmissionRevocations) (ev : event) (d : door) : option door :=
  match ev with
  | Accept c cs =>
      match connections d !! c with
      | Some _ => None
      | None => Some (d <| connections := <[c := mkConnection cs Handshaking Open]> (connections d) |>)
      end
  | Handshake c => handshake cfg a c d
  | CallClose k c =>
      match threads d !! k, connections d !! c with
      | None, Some _ => Some (d <| threads := <[k := CloseAll None [c] AtLookup]> (threads d) |>)
      | _, _ => None
      end
  | Advance k => advance k d
  end.

(** [logCloseIdentity], run by the request of an administrator. *)
Definition startSweep (k : nat) (identity : string) (d : door) : door :=
  d <| threads := <[k := Sweep identity]> (threads d) |>.

End life.

(** ** Tenants do not mix *)

(** The registry maps no CA to an empty tenant ([LoadTenantCARegistry], [Register]). *)
Definition namedTenants (reg : TenantCARegistry) : Prop := ∀ k tid, reg !! k = Some tid → tid ≠ "".

(** A registered CA that appears in the chains, and its tenant. *)
Definition vouches (reg : TenantCARegistry) (chains : list (list (option Certificate))) (tid : string) : Prop :=
  ∃ chain c, chain ∈ chains ∧ Some c ∈ chain ∧ reg !! anchorKey c = Some tid.

Lemma resolveChain_spec reg chain : ∀ resolved tid,
  namedTenants reg → resolveChain reg resolved chain = Some tid →
  (resolved ≠ "" → tid = resolved) ∧ ∀ c t, Some c ∈ chain → reg !! anchorKey c = Some t → t = tid.
Proof.
  induction chain as [|[c|] chain IH]; intros resolved tid Hreg; cbn [resolveChain]; [| |done].
  { intros [= <-]. split; [done|]. by intros c t ?%elem_of_nil. }
  destruct (reg !! anchorKey c) as [t|] eqn:Hc.
  - destruct (nonempty resolved && negb (String.eqb resolved t)) eqn:Hn; [done|].
    intros Hr. destruct (IH _ _ Hreg Hr) as [Hkeep Hall]. pose proof (Hkeep (Hreg _ _ Hc)) as ->. split.
    + intros Hne. destruct (String.eqb_spec resolved t) as [|_]; [done|]. rewrite andb_true_r in Hn.
      apply negb_false_iff, is_empty_true in Hn. done.
    + intros c' t' [[= ->]|Hin]%elem_of_cons Ht'; [by rewrite Hc in Ht'; injection Ht' as ->|by eapply Hall].
  - intros Hr. destruct (IH _ _ Hreg Hr) as [Hkeep Hall]. split; [done|].
    intros c' t' [[= ->]|Hin]%elem_of_cons Ht'; [by rewrite Hc in Ht'|by eapply Hall].
Qed.

Lemma resolveChains_spec reg chains : ∀ resolved tid,
  namedTenants reg → resolveChains reg resolved chains = Some tid →
  (resolved ≠ "" → tid = resolved) ∧ ∀ t, vouches reg chains t → t = tid.
Proof.
  induction chains as [|chain chains IH]; intros resolved tid Hreg; cbn [resolveChains].
  { destruct (nonempty resolved); [|done]. intros [= <-]. split; [done|]. by intros t (? & ? & ?%elem_of_nil & _). }
  intros (mid & Hc & Hr)%bind_Some. destruct (resolveChain_spec _ _ _ _ Hreg Hc) as [Hkeep Hall].
  destruct (IH _ _ Hreg Hr) as [Hkeep' Hall']. split.
  - intros Hne. pose proof (Hkeep Hne) as ->. by apply Hkeep'.
  - intros t (ch & c & [->|Hin]%elem_of_cons & Hc' & Ht); [|apply Hall'; by exists ch, c].
    pose proof (Hall _ _ Hc' Ht) as ->. symmetry. apply Hkeep'. by eapply Hreg.
Qed.

Lemma firstError_none checks : firstError checks = None ↔ Forall (λ e, e = None) checks.
Proof.
  induction checks as [|[e|] checks IH]; cbn; [done|..]; rewrite Forall_cons; [naive_solver|]. by rewrite IH; naive_solver.
Qed.

Section gate.
Context {L : Type} `{DeviceLedger L}.

(** What a handshake with a certificate that passes the gate has shown. *)
Lemma VerifyConnection_passed (cfg : secureTransportConfig) a cs :
  gateInstalled cfg = true → PeerCertificates cs ≠ [] → VerifyConnection cfg a cs = None →
  tenantBinding cfg cs = None ∧ revocationCheck cfg a (connIdentity cs) = None ∧
  enrolmentCheck cfg (connIdentity cs) = None ∧
  knownEnrolledOwnerMatchesCertificateTenant (VerifiedChains cs) (connIdentity cs) (TenantCAs cfg) (EnrolledLedger cfg) = true.
Proof.
  intros Hg Hp. unfold VerifyConnection, connIdentity. rewrite Hg. cbn [negb].
  destruct (PeerCertificates cs) as [|leaf rest]; [done|]. cbn [head]. rewrite firstError_none, !Forall_cons.
  destruct (knownEnrolledOwnerMatchesCertificateTenant _ _ _ _); naive_solver.
Qed.

(** (C11) A certificate that is admitted carries no registered CA of a
    foreign organization anywhere in its verified chains: of none but the tenant of a
    single-tenant Edge, and of none but the owner of the device it names when the ledger knows
    one. *)
Theorem no_foreign_certificate (cfg : secureTransportConfig) a cs reg tid :
  namedTenants reg → TenantCAs cfg = Some reg → PeerCertificates cs ≠ [] →
  VerifyConnection cfg a cs = None → vouches reg (VerifiedChains cs) tid →
  (is_blank (ExpectedTenantID cfg) = false → tid = trim_space (ExpectedTenantID cfg)) ∧
  (∀ ledger owner, EnrolledLedger cfg = Some ledger → EntryTenant ledger (connIdentity cs) = Some owner →
    is_blank owner = false → tid = trim_space owner).
Proof.
  intros Hreg Hcas Hp Hv Hvouch. split.
  - intros Hexp. assert (tenantBindingActive cfg = true) as Hact.
    { unfold tenantBindingActive. rewrite Hcas. unfold is_blank in Hexp. unfold nonempty. by rewrite Hexp. }
    destruct (VerifyConnection_passed cfg a cs) as (Hb & _); [unfold gateInstalled; by rewrite Hact|done..|].
    unfold tenantBinding in Hb. rewrite Hcas, Hact in Hb.
    destruct (TenantForVerifiedChains _ _) as [t|] eqn:Ht; [|done].
    destruct (String.eqb_spec t (trim_space (ExpectedTenantID cfg))) as [<-|]; [|done].
    by eapply (resolveChains_spec reg (VerifiedChains cs) "").
  - intros ledger owner Hl He Ho. destruct (VerifyConnection_passed cfg a cs) as (_ & _ & _ & Hk); [|done..|].
    { unfold gateInstalled, ownersKnown. rewrite Hcas, Hl. cbn. by rewrite orb_true_r. }
    unfold knownEnrolledOwnerMatchesCertificateTenant in Hk. rewrite Hcas, Hl, He in Hk. unfold is_blank in Ho. cbv zeta in Hk.
    rewrite Ho in Hk. apply bool_decide_eq_true in Hk. by eapply (resolveChains_spec reg (VerifiedChains cs) "").
Qed.

(** The answer to whose device it is does not depend on how its identity is spelled. *)
Lemma belongs_spelling `{!DeviceLedgerLaws L} (ledger : option L) identity i tenantID :
  normalizeIdentity i = normalizeIdentity identity →
  identityBelongsToTenant ledger identity tenantID = identityBelongsToTenant ledger i tenantID.
Proof.
  intros Hi. unfold identityBelongsToTenant. destruct ledger as [l|]; [|done].
  by rewrite <- (EntryTenant_norm l identity), <- Hi, EntryTenant_norm.
Qed.

(** The ledger has the device under some spelling, in that organization. *)
Definition placedIn (ledger : option L) (identity tenantID : string) : Prop :=
  ∃ l i tenant, ledger = Some l ∧ normalizeIdentity i = normalizeIdentity identity ∧ EntryTenant l i = Some tenant ∧
    trim_space tenant = trim_space tenantID.

(** (C17) A caller who acts within one organization - an administrator of it, or an operator
    who has entered it - and whose session names an organization neither blocks nor restores
    a device that the ledger does not place there, be it in another organization, in none, or
    unknown, however its identity is spelled: the overlay and what is saved stay as they are,
    no connection is closed and nothing is notified. *)
Theorem administrators_act_on_their_own_devices `{!DeviceLedgerLaws L} hk (ledger : option L) url overlay a registry stored w r
    identity why :
  (adminAnswerScope r).2 = false → is_blank (adminTenantID r) = false → body r = Some (identity, why) →
  ¬ placedIn ledger identity (adminTenantID r) →
  ∃ e, revokeDevice hk ledger url overlay a registry stored w r = refusedAct a stored e ∧
       restoreDevice hk ledger url overlay a stored w r = refusedAct a stored e.
Proof.
  intros Hscope Ht Hbody Hno. assert (∃ e, deviceActGuards ledger url overlay r = Err e) as [e Hg].
  2: { exists e. unfold revokeDevice, restoreDevice. by rewrite Hg. }
  unfold deviceActGuards. destruct (negb _); [by eexists|]. destruct (configWriteRejectedWhenSourced _); [by eexists|].
  destruct (negb _); [by eexists|]. rewrite Hbody. destruct (is_blank identity); [by eexists|]. rewrite Hscope.
  unfold identityBelongsToTenant. rewrite Ht. destruct ledger as [l|]; [|by eexists].
  destruct (EntryTenant l identity) as [tenant|] eqn:He; [|by eexists]. destruct (is_blank tenant); [by eexists|].
  unfold deviceGroupVisibleToTenant. unfold is_blank in Ht. rewrite Ht.
  destruct (String.eqb_spec (trim_space tenant) (trim_space (adminTenantID r))) as [Heq|_].
  - destruct Hno. by exists l, identity, tenant.
  - rewrite andb_false_r. by eexists.
Qed.

End gate.

(** ** Two organizations at one door *)

Section examples.

(** A ledger that only knows who is enabled and whose it is. *)
#[local] Instance smallLedger : DeviceLedger (gmap string (bool * string)) := {
  IsAdmitted l id := match l !! normalizeIdentity id with Some e => e.1 | None => false end;
  EntryTenant l id := snd <$> l !! normalizeIdentity id;
}.

#[local] Instance smallLedger_laws : DeviceLedgerLaws (gmap string (bool * string)).
Proof.
  split; intros l id; cbn; rewrite ?normalizeIdentity_idemp; [done..|].
  by destruct (l !! normalizeIdentity id) as [[]|].
Qed.

Definition twoTenants : gmap string (bool * string) := <["laptop-7" := (true, "acme")]> {["pad-1" := (true, "northwind")]}.
Definition twoCAs : TenantCARegistry := (<["ca-acme" := "acme"]> {["ca-northwind" := "northwind"]} : gmap string string).
Definition sharedDoor : secureTransportConfig := mkTransportConfig (Some twoCAs) "" true true ∅ (Some twoTenants) true.
Definition ca (key : string) : Certificate := mkCertificate "CA" [] [] key.
Definition presents (cn key : string) : ConnectionState :=
  let leaf := mkCertificate cn [] [] "leaf" in mkConnectionState [leaf] [[Some leaf; Some (ca key)]].

Example door_answers :
  VerifyConnection sharedDoor NewAdmissionRevocations (presents " Laptop-7" "ca-acme") = None ∧
  VerifyConnection sharedDoor NewAdmissionRevocations (presents "laptop-7" "ca-northwind")
    = Some (TenantOwnerMismatch "laptop-7") ∧
  VerifyConnection sharedDoor NewAdmissionRevocations (presents "laptop-8" "ca-acme") = Some (NotEnrolled "laptop-8").
Proof. vm_compute. done. Qed.

Lemma twoCAs_named : namedTenants twoCAs.
Proof.
  intros k tid Hk. unfold twoCAs in Hk. apply lookup_insert_Some in Hk as [[_ <-]|[_ Hk]]; [done|].
  apply lookup_singleton_Some in Hk as [_ <-]. done.
Qed.

Lemma no_foreign_certificate_witness :
  VerifyConnection sharedDoor NewAdmissionRevocations (presents "Laptop-7" "ca-acme") = None ∧ "acme" = trim_space "acme".
Proof.
  split; [vm_compute; reflexivity|].
  apply (no_foreign_certificate sharedDoor NewAdmissionRevocations (presents "Laptop-7" "ca-acme") twoCAs "acme" twoCAs_named
    eq_refl) with (ledger := twoTenants).
  - discriminate.
  - vm_compute. reflexivity.
  - exists [Some (mkCertificate "Laptop-7" [] [] "leaf"); Some (ca "ca-acme")], (ca "ca-acme").
    split; [left|]. split; [right; left|]. vm_compute. reflexivity.
  - reflexivity.
  - vm_compute. reflexivity.
  - vm_compute. reflexivity.
Defined.

Definition northwinds : admin_request := mkAdminRequest "" "northwind" false "acme" (Some (" LAPTOP-7", "mine")).
Definition plainHooks : hooks := mkHooks true true true.

Lemma administrators_act_on_their_own_devices_witness :
  ∃ e, revokeDevice plainHooks (Some twoTenants) "" true NewAdmissionRevocations true None Written northwinds
         = refusedAct NewAdmissionRevocations None e ∧
       restoreDevice plainHooks (Some twoTenants) "" true NewAdmissionRevocations None Written northwinds
         = refusedAct NewAdmissionRevocations None e.
Proof.
  apply (administrators_act_on_their_own_devices plainHooks (Some twoTenants) "" true NewAdmissionRevocations true None Written
    northwinds " LAPTOP-7" "mine"); try (vm_compute; reflexivity).
  intros (l & i & tenant & [= <-] & Hi & Ht & Heq). change (snd <$> twoTenants !! normalizeIdentity i = Some tenant) in Ht.
  rewrite Hi in Ht. vm_compute in Ht. injection Ht as <-. vm_compute in Heq. discriminate.
Defined.

(** Its own administrator blocks the device, and its connections are swept. *)
Example owner_blocks :
  let o := revokeDevice plainHooks (Some twoTenants) "" true NewAdmissionRevocations true None Written
             (mkAdminRequest "" "acme" false "" (Some (" LAPTOP-7", ""))) in
  out_sweep o = Some " LAPTOP-7" ∧ Admission.IsRevoked (out_overlay o) "laptop-7" = Some "admin_kill_switch" ∧
  out_response o = Done "acme" "LAPTOP-7" "admin_kill_switch" true.
Proof. vm_compute. done. Qed.

End examples.

End TransportDoor.
