(* ===== verification/KillSwitch.v ===== *)
(** * An administrator's block reaches the connections that are already up

    The fleet of [AdmissionFleet], and at one of its processes the door of [TransportDoor]:
    handshakes, closes and sweeps interleave with each other and with every edit of the overlay
    anywhere in the fleet.  A sweep that follows a block and has come to its end leaves no open
    connection of the device in service. *)

From stdpp Require Import base gmap fin_maps list strings relations.
From S2P Require Import Prelude Common Trimmed GoStd Persistence Admission SharedFleet AdmissionFleet TransportDoor.
Import Admission SharedFleet AdmissionFleet TransportDoor.

Open Scope Z_scope.

Module KillSwitch.

(** ** Identities *)

Lemma normConnID_normalize id : normConnID id = normalizeIdentity id.
Proof. done. Qed.

Lemma normConnID_idemp id : normConnID (normConnID id) = normConnID id.
Proof. apply normalizeIdentity_idemp. Qed.

Lemma firstURI_nonblank uris uri : firstURI uris = Some uri → nonempty (trim_space uri) = true.
Proof. induction uris as [|[u|] uris IH]; [done| |done]. cbn. case_match; [|done]. by intros [= <-]. Qed.

Lemma normConnID_nonempty id : nonempty (trim_space id) = true → normConnID id ≠ "".
Proof. unfold nonempty, normConnID. by destruct (trim_space id). Qed.

(** An identity is empty, or has a key in the registry. *)
Lemma identity_key leaf : transportIdentityFromLeaf leaf = "" ∨ normConnID (transportIdentityFromLeaf leaf) ≠ "".
Proof.
  destruct leaf as [leaf|]; [|by left]. unfold transportIdentityFromLeaf.
  destruct (nonempty (trim_space (CommonName leaf))) eqn:Hcn; cbv zeta.
  { right. apply normConnID_nonempty. by rewrite trim_space_idemp. }
  destruct (firstURI (URIs leaf)) as [uri|] eqn:Hu.
  { right. by apply normConnID_nonempty, (firstURI_nonblank (URIs leaf)). }
  destruct (List.find _ (DNSNames leaf)) as [dns|] eqn:Hd; [right|by left].
  apply List.find_some in Hd as [_ Hd]. by apply normConnID_nonempty.
Qed.

(** ** The registry *)

Lemma tracked_register id c r c' i :
  c' ∈ tracked (register id c r) i ↔ (c' = c ∧ i = normConnID id ∧ i ≠ "") ∨ c' ∈ tracked r i.
Proof.
  unfold register. destruct (is_empty (normConnID id)) eqn:He.
  { apply is_empty_true in He. rewrite He. naive_solver. }
  assert (normConnID id ≠ "") as Hne by (rewrite <- is_empty_true, He; done).
  unfold tracked at 1. cbn [conns]. destruct (decide (i = normConnID id)) as [-> | Hi].
  - rewrite lookup_insert_eq. cbn [default]. set_solver.
  - rewrite lookup_insert_ne by done. naive_solver.
Qed.

Lemma tracked_unregister id c r c' i :
  (c' ∈ tracked (unregister id c r) i → c' ∈ tracked r i) ∧
  (c' ≠ c → c' ∈ tracked r i → c' ∈ tracked (unregister id c r) i).
Proof.
  unfold unregister. destruct (is_empty (normConnID id)); [done|].
  unfold tracked at 1 4. cbn [conns]. destruct (conns r !! normConnID id) as [set|] eqn:Hset; [|done].
  destruct (decide (i = normConnID id)) as [-> | Hi].
  2: { case_bool_decide; [by rewrite lookup_delete_ne|by rewrite lookup_insert_ne]. }
  unfold tracked. rewrite Hset. cbn [default]. case_bool_decide as Hempty.
  - rewrite lookup_delete_eq. cbn. set_solver.
  - rewrite lookup_insert_eq. cbn. set_solver.
Qed.

Lemma victims_spec `{MapOrder} r id c :
  c ∈ victims r id ↔ normConnID id ≠ "" ∧ c ∈ tracked r (normConnID id).
Proof.
  unfold victims. destruct (is_empty (normConnID id)) eqn:He.
  - apply is_empty_true in He. rewrite He. set_solver.
  - assert (normConnID id ≠ "") by (rewrite <- is_empty_true, He; done).
    rewrite iterate_perm, elem_of_elements. naive_solver.
Qed.

(** ** What always holds at a door *)

Definition inService (x : connection) : Prop := at_phase x = Registered ∨ at_phase x = Serving.
Definition keyOf (x : connection) : string := normConnID (connIdentity (state x)).

(** A registered connection on which nobody called [Close] is tracked under its identity; what is
    tracked, or awaits a sweep, is a connection of that identity. *)
Record doorOk (d : door) : Prop := {
  ok_tracked c x : connections d !! c = Some x → inService x → sock x = Open → keyOf x ≠ "" →
    c ∈ tracked (registry d) (keyOf x);
  ok_owner c i : c ∈ tracked (registry d) i → ∃ x, connections d !! c = Some x ∧ keyOf x = i;
  ok_pending k o pending st c : threads d !! k = Some (CloseAll o pending st) → c ∈ pending →
    ∃ x, connections d !! c = Some x ∧ ∀ id, o = Some id → keyOf x = normConnID id;
  ok_closing k o c pending st : threads d !! k = Some (CloseAll o (c :: pending) st) → st ≠ AtLookup →
    ∃ x, connections d !! c = Some x ∧ sock x ≠ Open;
}.

(** The connections of [d'] are those of [d], as far on or further towards their end. *)
Definition evolves (d d' : door) : Prop :=
  ∀ c x, connections d !! c = Some x →
    ∃ x', connections d' !! c = Some x' ∧ state x' = state x ∧ (sock x' = Open → sock x = Open).

Lemma evolves_refl d : evolves d d.
Proof. intros c x Hx. by exists x. Qed.

Lemma emptyDoor_ok : doorOk emptyDoor.
Proof.
  split; cbn; [done| |done|done]. intros c i. unfold tracked, newTransportConnRegistry. cbn.
  rewrite lookup_empty. cbn. set_solver.
Qed.

Lemma ok_evolved d d' :
  doorOk d → evolves d d' → registry d' = registry d → threads d' = threads d →
  (∀ c x, connections d' !! c = Some x → inService x → sock x = Open → keyOf x ≠ "" →
    c ∈ tracked (registry d) (keyOf x)) → doorOk d'.
Proof.
  intros [Htr Hown Hpend Hcl] Hev Hreg Hth Hserve.
  assert (∀ c x, connections d !! c = Some x →
      ∃ x', connections d' !! c = Some x' ∧ keyOf x' = keyOf x ∧ (sock x' = Open → sock x = Open)) as Hev'.
  { intros c x (x' & ? & Hs & ?)%Hev. exists x'. unfold keyOf. by rewrite Hs. }
  split.
  - rewrite Hreg. apply Hserve.
  - rewrite Hreg. intros c i (x & (x' & ? & Hk & _)%Hev' & <-)%Hown. by exists x'.
  - rewrite Hth. intros k o pending st c Hk Hc. destruct (Hpend _ _ _ _ _ Hk Hc) as (x & (x' & ? & He & _)%Hev' & Hid).
    exists x'. split; [done|]. intros id Ho. rewrite He. by apply Hid.
  - rewrite Hth. intros k o c pending st Hk Hst. destruct (Hcl _ _ _ _ _ Hk Hst) as (x & (x' & ? & _ & Ho)%Hev' & Hne).
    exists x'. split; [done|]. auto.
Qed.

Lemma lookup_toPhase c p d c' x' :
  connections (toPhase c p d) !! c' = Some x' ↔
  ∃ x, connections d !! c' = Some x ∧ x' = if decide (c' = c) then x <| at_phase := p |> else x.
Proof.
  cbn. destruct (decide (c' = c)) as [-> | Hne].
  - rewrite lookup_alter_eq, fmap_Some. naive_solver.
  - rewrite lookup_alter_ne by done. naive_solver.
Qed.

Lemma lookup_toSocket c s d c' x' :
  connections (toSocket c s d) !! c' = Some x' ↔
  ∃ x, connections d !! c' = Some x ∧ x' = if decide (c' = c) then x <| sock := s |> else x.
Proof.
  cbn. destruct (decide (c' = c)) as [-> | Hne].
  - rewrite lookup_alter_eq, fmap_Some. naive_solver.
  - rewrite lookup_alter_ne by done. naive_solver.
Qed.

Lemma evolves_toPhase c p d : evolves d (toPhase c p d).
Proof.
  intros c' x Hx. exists (if decide (c' = c) then x <| at_phase := p |> else x).
  rewrite lookup_toPhase. split; [by exists x|]. by case_decide.
Qed.

Lemma evolves_toSocket c s d : s ≠ Open → evolves d (toSocket c s d).
Proof.
  intros Hs c' x Hx. exists (if decide (c' = c) then x <| sock := s |> else x).
  rewrite lookup_toSocket. split; [by exists x|]. case_decide; [|done]. split; [done|]. cbn. congruence.
Qed.

Lemma ok_toPhase c p d x :
  doorOk d → connections d !! c = Some x →
  ((p = Registered ∨ p = Serving) → sock x = Open → keyOf x ≠ "" → c ∈ tracked (registry d) (keyOf x)) →
  doorOk (toPhase c p d).
Proof.
  intros Hd Hx Hp. apply (ok_evolved d); [done|apply evolves_toPhase|done..|].
  intros c' x' (y & Hy & ->)%lookup_toPhase. case_decide as Hc; [|by apply ok_tracked].
  subst c'. rewrite Hx in Hy. injection Hy as <-. exact Hp.
Qed.

Lemma ok_toSocket c s d : s ≠ Open → doorOk d → doorOk (toSocket c s d).
Proof.
  intros Hs Hd. apply (ok_evolved d); [done|by apply evolves_toSocket|done..|].
  intros c' x' (y & Hy & ->)%lookup_toSocket. case_decide; [|by apply ok_tracked]. by intros _ ?%Hs.
Qed.

Lemma beginClose_cases c d :
  beginClose c d = toSocket c Closing d ∨
  beginClose c d = d ∧ ∀ x, connections d !! c = Some x → sock x ≠ Open.
Proof.
  unfold beginClose. destruct (connections d !! c) as [x|]; [|right; by split].
  destruct (sock x) eqn:Hs; [by left|right..]; (split; [done|]); intros ? [= <-]; by rewrite Hs.
Qed.

Lemma ok_beginClose c d : doorOk d → doorOk (beginClose c d).
Proof. destruct (beginClose_cases c d) as [-> | [-> _]]; [by apply ok_toSocket|done]. Qed.

Lemma evolves_beginClose c d : evolves d (beginClose c d).
Proof. destruct (beginClose_cases c d) as [-> | [-> _]]; [by apply evolves_toSocket|apply evolves_refl]. Qed.

Lemma threads_beginClose c d : threads (beginClose c d) = threads d.
Proof. by destruct (beginClose_cases c d) as [-> | [-> _]]. Qed.

Lemma beginClose_closing c d x :
  connections d !! c = Some x → ∃ x', connections (beginClose c d) !! c = Some x' ∧ sock x' ≠ Open.
Proof.
  intros Hx. destruct (beginClose_cases c d) as [-> | [-> Hs]]; [|exists x; auto].
  eexists. split; [apply lookup_toSocket; by exists x|]. by rewrite decide_True.
Qed.

Lemma ok_unregister i c d :
  doorOk d → (∀ x, connections d !! c = Some x → inService x → sock x ≠ Open) →
  doorOk (d <| registry := unregister i c (registry d) |>).
Proof.
  intros [Htr Hown Hpend Hcl] Hc. split; cbn; [|intros c' j ?%(proj1 (tracked_unregister _ _ _ _ _)); auto|done..].
  intros c' x Hx Hin Ho Hk. apply tracked_unregister; [|by apply Htr].
  intros ->. by apply (Hc x).
Qed.

Lemma ok_register c d x :
  doorOk d → connections d !! c = Some x →
  doorOk (d <| registry := register (connIdentity (state x)) c (registry d) |>).
Proof.
  intros [Htr Hown Hpend Hcl] Hx. split; cbn; [| |done..].
  - intros c' x' Hx' Hin Ho Hk. apply tracked_register. right. by apply Htr.
  - intros c' j [(-> & -> & _)|?]%tracked_register; [by exists x|auto].
Qed.

Lemma ok_thread k t d d' :
  doorOk d → registry d' = registry d → connections d' = connections d → threads d' = <[k := t]> (threads d) →
  (∀ o pending st c, t = CloseAll o pending st → c ∈ pending →
    ∃ x, connections d !! c = Some x ∧ ∀ id, o = Some id → keyOf x = normConnID id) →
  (∀ o c pending st, t = CloseAll o (c :: pending) st → st ≠ AtLookup →
    ∃ x, connections d !! c = Some x ∧ sock x ≠ Open) →
  doorOk d'.
Proof.
  intros [Htr Hown Hpend Hcl] Hr Hc Ht H1 H2. split; rewrite ?Hr, ?Hc, ?Ht; [done..| |].
  - intros k' o pending st c [[_ Hk]|[_ Hk]]%lookup_insert_Some ?; [by eapply H1|by eapply Hpend].
  - intros k' o c pending st [[_ Hk]|[_ Hk]]%lookup_insert_Some ?; [by eapply H2|by eapply Hcl].
Qed.

Section door.
Context {L : Type} `{DeviceLedger L} `{MapOrder}.

Lemma handshake_ok (cfg : secureTransportConfig) a c d d' : doorOk d → handshake cfg a c d = Some d' → doorOk d'.
Proof.
  intros Hd. unfold handshake. destruct (connections d !! c) as [x|] eqn:Hx; [|done]. cbn [mbind option_bind].
  destruct (at_phase x) eqn:Hp; intros [= <-].
  - apply (ok_toPhase _ _ _ x); [done..|]. by destruct (VerifyConnection _ _ _); intros [|].
  - destruct (is_empty _) eqn:He.
    + apply (ok_toPhase _ _ _ x); [done..|]. apply is_empty_true in He. unfold keyOf. by rewrite He.
    + change (doorOk (toPhase c Registered (d <| registry := register (connIdentity (state x)) c (registry d) |>))).
      apply (ok_toPhase _ _ _ x); [by apply ok_register|done|]. intros _ _ Hk. apply tracked_register. by left.
  - apply (ok_toPhase _ _ _ x); [done..|]. destruct (Admission.IsRevoked _ _); intros [Hq|Hq] Ho Hk; try done.
    apply (ok_tracked _ Hd c x Hx); [by left|done..].
  - apply (ok_toPhase _ _ _ x); [done..|]. by destruct (ids _ !! _); intros [|].
  - apply (ok_unregister id c (toPhase c Rejected d)).
    + apply (ok_toPhase _ _ _ x); [done..|]. by intros [|].
    + intros x' (y & _ & ->)%lookup_toPhase. rewrite decide_True by done. by intros [|].
Qed.

Lemma advance_ok k d d' : doorOk d → advance k d = Some d' → doorOk d'.
Proof.
  intros Hd. unfold advance. destruct (threads d !! k) as [t|] eqn:Ht; [|done]. cbn [mbind option_bind].
  destruct t as [id|o [|c pending] [|i|]]; intros Heq; simplify_eq.
  - apply (ok_thread k (CloseAll (Some id) (victims (registry d) id) AtLookup) d); [done..| |by intros ? ? ? ? [= _ _ <-]].
    intros o' p' st c [= <- <- <-]. intros [_ (x & ? & Hk)%(ok_owner _ Hd)]%victims_spec. exists x. split; [done|]. by intros ? [= <-].
  - destruct (ok_pending _ Hd _ _ _ _ c Ht ltac:(left)) as (x & Hx & _).
    eapply (ok_thread k _ (beginClose c d)); [by apply ok_beginClose|done|done|by rewrite threads_beginClose|..].
    + intros o' p' st c' [= <- <- _] Hc. destruct (ok_pending _ Hd _ _ _ _ c' Ht Hc) as (y & (y' & ? & Hs & _)%(evolves_beginClose c) & Hid).
      exists y'. unfold keyOf in *. rewrite Hs. by split.
    + intros o' c' p' st [= <- <- <- _] _. by eapply beginClose_closing.
  - apply (ok_thread k (CloseAll o (c :: pending) AtSocket) (d <| registry := unregister i c (registry d) |>)); [apply ok_unregister; [done|]|done..| |].
    + intros x Hx _. destruct (ok_closing _ Hd _ _ _ _ _ Ht ltac:(done)) as (y & Hy & ?). rewrite Hx in Hy. by injection Hy as ->.
    + intros o' p' st c' [= <- <- _] Hc. by apply (ok_pending _ Hd _ _ _ _ c' Ht).
    + intros o' c' p' st [= <- <- <- _] _. by apply (ok_closing _ Hd _ _ _ _ _ Ht).
  - apply (ok_thread k (CloseAll o pending AtLookup) (toSocket c Closed d)); [by apply ok_toSocket|done..| |by intros ? ? ? ? [= _ _ <-]].
    intros o' p' st c' [= <- <- _] Hc. destruct (ok_pending _ Hd _ _ _ _ c' Ht ltac:(by right)) as (y & (y' & ? & Hs & _)%(evolves_toSocket c Closed) & Hid); [|done].
    exists y'. unfold keyOf in *. rewrite Hs. by split.
Qed.

Lemma handle_ok (cfg : secureTransportConfig) a ev d d' : doorOk d → handle cfg a ev d = Some d' → doorOk d'.
Proof.
  intros Hd. destruct ev as [c cs|c|k c|k]; cbn [handle].
  - destruct (connections d !! c) eqn:Hc; [done|]. intros [= <-]. destruct Hd as [Htr Hown Hpend Hcl].
    assert (∀ c' x, connections d !! c' = Some x → <[c:=mkConnection cs Handshaking Open]> (connections d) !! c' = Some x) as Hold
      by (intros c' x Hx; rewrite lookup_insert_ne; [done|by intros ->; rewrite Hc in Hx]).
    split; cbn.
    + intros c' x [[_ <-]|[_ Hx]]%lookup_insert_Some; [by intros [|]|by apply Htr].
    + intros c' i (x & ? & ?)%Hown. exists x. auto.
    + intros k o pending st c' Hk Hp. destruct (Hpend _ _ _ _ _ Hk Hp) as (x & ? & ?). exists x. auto.
    + intros k o c' pending st Hk Hst. destruct (Hcl _ _ _ _ _ Hk Hst) as (x & ? & ?). exists x. auto.
  - by apply handshake_ok.
  - destruct (threads d !! k); [done|]. destruct (connections d !! c) as [x|] eqn:Hx; [|done]. intros [= <-].
    apply (ok_thread k (CloseAll None [c] AtLookup) d); [done..| |by intros ? ? ? ? [= _ _ <-]].
    intros o p st c' [= <- <- _] ->%list_elem_of_singleton. by exists x.
  - by apply advance_ok.
Qed.

Lemma startSweep_ok k id d : doorOk d → doorOk (startSweep k id d).
Proof. intros Hd. by apply (ok_thread k (Sweep id) d). Qed.

(** ** A sweep after a block *)

(** A connection of the device that serves, and on which nobody called [Close]. *)
Definition serves (id : string) (d : door) (c : nat) : Prop :=
  ∃ x, connections d !! c = Some x ∧ at_phase x = Serving ∧ sock x = Open ∧ keyOf x = id.

(** The sweep [k] for [id] has not begun, or those that still serve await it. *)
Definition sweeping (id : string) (k : nat) (d : door) : Prop :=
  match threads d !! k with
  | Some (Sweep i) => normConnID i = id
  | Some (CloseAll (Some i) pending _) => normConnID i = id ∧ ∀ c, serves id d c → c ∈ pending
  | _ => False
  end.

Lemma sweeping_mono id k d d' :
  sweeping id k d → threads d' !! k = threads d !! k → (∀ c, serves id d' c → serves id d c) → sweeping id k d'.
Proof. unfold sweeping. intros Hs -> Hmono. destruct (threads d !! k) as [[|[]]|]; [done|naive_solver|done..]. Qed.

Lemma serves_toSocket id c s d c' : s ≠ Open → serves id (toSocket c s d) c' → c' ≠ c ∧ serves id d c'.
Proof.
  intros Hs (x & (y & Hy & ->)%lookup_toSocket & Hp & Ho & Hk). case_decide; [done|]. split; [done|]. by exists y.
Qed.

Lemma serves_toPhase id c p d c' x :
  connections d !! c = Some x → (p = Serving → keyOf x ≠ id) → serves id (toPhase c p d) c' → serves id d c'.
Proof.
  intros Hx Hne (y' & (y & Hy & ->)%lookup_toPhase & Hp & Ho & Hk). case_decide as Hc; [|by exists y].
  subst c'. rewrite Hx in Hy. injection Hy as <-. destruct (Hne Hp). exact Hk.
Qed.

Lemma serves_beginClose id c d c' : serves id (beginClose c d) c' → serves id d c'.
Proof. destruct (beginClose_cases c d) as [-> | [-> _]]; [|done]. by intros [_ ?]%serves_toSocket. Qed.

Lemma handshake_serves id (cfg : secureTransportConfig) a c d d' c' :
  id ≠ "" → (∀ i, normConnID i = id → is_Some (Admission.IsRevoked a i)) →
  handshake cfg a c d = Some d' → serves id d' c' → serves id d c'.
Proof.
  intros Hid Hrev. unfold handshake. destruct (connections d !! c) as [x|] eqn:Hx; [|done]. cbn [mbind option_bind].
  destruct (at_phase x) eqn:Hp; intros [= <-].
  - apply (serves_toPhase _ _ _ _ _ x Hx). by destruct (VerifyConnection _ _ _).
  - destruct (is_empty _) eqn:He.
    + apply (serves_toPhase _ _ _ _ _ x Hx). intros _. apply is_empty_true in He. unfold keyOf. by rewrite He.
    + by apply (serves_toPhase _ _ Registered _ _ x Hx).
  - apply (serves_toPhase _ _ _ _ _ x Hx). destruct (Admission.IsRevoked _ _) eqn:Hr; [done|].
    intros _ [r Hk]%Hrev. by rewrite Hr in Hk.
  - apply (serves_toPhase _ _ _ _ _ x Hx). by destruct (ids _ !! _).
  - by apply (serves_toPhase _ _ Rejected _ _ x Hx).
Qed.

Lemma advance_sweeping id k d d' :
  id ≠ "" → doorOk d → sweeping id k d → advance k d = Some d' → sweeping id k d'.
Proof.
  intros Hid Hd. unfold sweeping at 1, advance. destruct (threads d !! k) as [t|] eqn:Ht; [|done]. cbn [mbind option_bind].
  destruct t as [i|[i|] [|c pending] [|j|]]; intros Hs Heq; simplify_eq; unfold sweeping; cbn; rewrite lookup_insert_eq.
  - split; [done|]. intros c (x & Hx & Hp & Ho & Hk). rewrite victims_spec. split; [done|]. rewrite <- Hk.
    apply (ok_tracked _ Hd); [done|by right|done|by rewrite Hk].
  - destruct Hs as [? Hs]. split; [done|]. intros c' Hc'. by apply Hs, (serves_beginClose _ c).
  - destruct Hs as [? Hs]. split; [done|]. intros c' Hc'. by apply Hs.
  - destruct Hs as [? Hs]. split; [done|]. intros c' [Hne Hc']%(serves_toSocket _ _ Closed); [|done].
    apply Hs in Hc' as [|]%elem_of_cons; done.
Qed.

Lemma advance_other k k' d d' : advance k' d = Some d' → k' ≠ k → threads d' !! k = threads d !! k.
Proof.
  intros Ha Hne. unfold advance in Ha. destruct (threads d !! k') as [[|? [] []]|]; cbn [mbind option_bind] in Ha;
    simplify_eq; cbn; by rewrite lookup_insert_ne.
Qed.

Lemma advance_serves id k d d' c : advance k d = Some d' → serves id d' c → serves id d c.
Proof.
  unfold advance. destruct (threads d !! k) as [[|? [|c' pending] []]|]; cbn [mbind option_bind]; intros Heq; simplify_eq; try done.
  - apply (serves_beginClose _ c').
  - by intros [_ ?]%(serves_toSocket _ _ Closed).
Qed.

Lemma handle_sweeping id k (cfg : secureTransportConfig) a ev d d' :
  id ≠ "" → doorOk d → (∀ i, normConnID i = id → is_Some (Admission.IsRevoked a i)) → sweeping id k d →
  handle cfg a ev d = Some d' → sweeping id k d'.
Proof.
  intros Hid Hd Hrev Hs. destruct ev as [c cs|c|k' c|k']; cbn [handle].
  - destruct (connections d !! c) eqn:Hc; [done|]. intros [= <-]. eapply sweeping_mono; [done..|].
    intros c' (x & Hx & Hp & ? & ?). cbn in Hx. apply lookup_insert_Some in Hx as [[_ <-]|[_ Hx]]; [done|by exists x].
  - intros Hh. eapply sweeping_mono; [done| |intros c'; by eapply handshake_serves].
    unfold handshake in Hh. destruct (connections d !! c) as [x|]; [|done]. cbn [mbind option_bind] in Hh.
    destruct (at_phase x); simplify_eq; [done| |done..]. by destruct (is_empty _).
  - destruct (threads d !! k') eqn:Hk; [done|]. destruct (connections d !! c); [|done]. intros [= <-].
    eapply sweeping_mono; [done| |done]. cbn. rewrite lookup_insert_ne; [done|]. intros ->.
    unfold sweeping in Hs. by rewrite Hk in Hs.
  - intros Ha. destruct (decide (k' = k)) as [-> | Hne]; [by eapply advance_sweeping|].
    eapply sweeping_mono; [done|by eapply advance_other|]. intros c. by eapply advance_serves.
Qed.

(** ** The fleet with a door *)

Context (hk : hooks) (b : backing) (p : nat) (configSourceURL : string).

Record world := mkWorld {
  fl : fleet (S := AdmissionRevocations) (D := payload);
  dr : door;
  settings : secureTransportConfig (L := L);
}.

(** [LReconfigure]: the ledger of devices or the registry of CAs changes. *)
Inductive label :=
  | LFleet (i : nat) (a : action (Op := op))
  | LDoor (ev : event)
  | LRevoke (k : nat) (r : admin_request) (w : write_outcome)
  | LReconfigure.

(** Its connections do not outlive the process. *)
Definition doorAfter (i : nat) (a : action (Op := op)) (d : door) : door :=
  match a with Restart => if decide (i = p) then emptyDoor else d | _ => d end.

Definition afterRevoke (w : world) (k : nat) (o : outcome) : world :=
  mkWorld (put (fl w) p (out_overlay o) (out_stored o))
    (match out_sweep o with Some identity => startSweep k identity (dr w) | None => dr w end) (settings w).

Definition revokeAt (w : world) (a : AdmissionRevocations) (r : admin_request) (wo : write_outcome) : outcome :=
  revokeDevice hk (EnrolledLedger (settings w)) configSourceURL true a true (disk (fl w)) wo r.

Inductive wstep (w : world) : label → world → Prop :=
  | wstep_fleet i a f' :
      SharedFleet.step (H := admissionPlane hk) b (fl w) i a f' →
      wstep w (LFleet i a) (mkWorld f' (doorAfter i a (dr w)) (settings w))
  | wstep_door ev a d' :
      planes (fl w) !! p = Some a → handle (settings w) a ev (dr w) = Some d' →
      wstep w (LDoor ev) (mkWorld (fl w) d' (settings w))
  | wstep_revoke k r wo a :
      planes (fl w) !! p = Some a → threads (dr w) !! k = None →
      wstep w (LRevoke k r wo) (afterRevoke w k (revokeAt w a r wo))
  | wstep_reconfigure cfg : wstep w LReconfigure (mkWorld (fl w) (dr w) cfg).

(** A history, with what happened in it. *)
Inductive ran (w : world) : list label → world → Prop :=
  | ran_nil : ran w [] w
  | ran_snoc ls w1 l w2 : ran w ls w1 → wstep w1 l w2 → ran w (ls ++ [l]) w2.

(** Nobody restores or erases the device, and the process does not restart. *)
Definition spares (id : string) (l : label) : Prop :=
  match l with LFleet i a => spared (sparesBlock Origin id) i a ∧ alive p i a | _ => True end.

Record worldOk (w : world) : Prop := {
  world_owners : owners b (fl w);
  world_planes : all_planes (wellFormed b) (fl w);
  world_door : doorOk (dr w);
}.

(** What the handler does to the overlay is the edit of a block, or nothing. *)
Lemma revokeDevice_acts ledger url ov reg a stored w r :
  let o := revokeDevice hk ledger url ov a reg stored w r in
  (out_overlay o, out_stored o) = (a, stored) ∧ out_sweep o = None ∨
  ∃ identity reason, perform hk a stored w (ORevoke identity reason) = (out_overlay o, out_stored o).
Proof.
  cbv zeta. unfold revokeDevice. destruct (deviceActGuards _ _ _ _) as [[identity why]|]; [|by left].
  destruct (RevokeCheckedContext _ _ _ _ _ _) as [[[a' stored'] calls] [applied saveErr]] eqn:Hr.
  right. exists identity, (valueOrDefault (trim_space why) "admin_kill_switch"). cbn. by rewrite Hr.
Qed.

(** A handler whose sweep starts has applied its block. *)
Lemma revokeDevice_sweeps ledger url ov reg a stored w r identity :
  wellFormed b a → out_sweep (revokeDevice hk ledger url ov a reg stored w r) = Some identity →
  normalizeIdentity identity ≠ "" ∧ (∃ why, body r = Some (identity, why)) ∧
  blocks Origin (normalizeIdentity identity) (out_overlay (revokeDevice hk ledger url ov a reg stored w r))
    (out_stored (revokeDevice hk ledger url ov a reg stored w r)).
Proof.
  intros Hw. unfold revokeDevice. destruct (deviceActGuards _ _ _ _) as [[i why]|] eqn:Hg; [|done].
  assert (body r = Some (i, why) ∧ is_blank i = false) as [Hbody Hi].
  { unfold deviceActGuards in Hg. repeat case_match; simplify_eq; done. }
  destruct (RevokeCheckedContext _ _ _ _ _ _) as [[[a' stored'] calls] [applied saveErr]] eqn:Hr.
  cbn [out_sweep]. destruct applied; [|done]. destruct reg; [|done]. cbn. intros [= <-].
  assert (normalizeIdentity i ≠ "") as Hne.
  { apply normConnID_nonempty. unfold is_blank in Hi. unfold nonempty. by rewrite Hi. }
  split_and!; [done|by exists why|].
  by eapply (revoke_applies hk b a stored w i).
Qed.

Lemma wstep_ok w l w' : worldOk w → wstep w l w' → worldOk w'.
Proof.
  intros [Ho Hp Hd] [i a f' Hs|ev a d' Ha Hh|k r wo a Ha Hk|cfg].
  - destruct (admission_step hk b _ _ _ _ Hs Hp Ho) as [? ?].
    split; [done..|]. cbn. destruct a; [done..|]. cbn. case_decide; [apply emptyDoor_ok|done].
  - split; [done..|]. by eapply handle_ok.
  - split; cbn; [by apply put_owners| |destruct (out_sweep _); [by apply startSweep_ok|done]].
    apply put_all; [done|]. destruct (revokeDevice_acts (EnrolledLedger (settings w)) configSourceURL true true a (disk (fl w)) wo r)
      as [[[= Hov _] _]|(identity & reason & Hact)].
    + unfold revokeAt. rewrite Hov. by eapply Hp.
    + by eapply (perform_wf hk b a); [eapply Hp|].
  - by split.
Qed.

Lemma ran_ok w ls w' : worldOk w → ran w ls w' → worldOk w'.
Proof. intros Hw. induction 1; [done|]. by eapply wstep_ok. Qed.

(** The process keeps the block, and the sweep goes on. *)
Definition cutting (id : string) (k : nat) (w : world) : Prop :=
  (∃ a, planes (fl w) !! p = Some a ∧ blocks Origin id a (disk (fl w))) ∧ sweeping id k (dr w).

Lemma wstep_cutting id k w l w' :
  normalizeIdentity id = id → id ≠ "" → worldOk w → cutting id k w → spares id l → wstep w l w' → cutting id k w'.
Proof.
  intros Hid Hne [Ho Hp Hd] [(a0 & Ha0 & Hb) Hs] Hsp Hstep. pose proof (admission_keeper hk b Origin id Hid) as K.
  destruct Hstep as [i a f' Hstep|ev a d' Ha Hh|k' r wo a Ha Hk|cfg].
  - destruct Hsp as [Hsp Hal]. split; [by eapply (step_kept K)|].
    cbn. destruct a; [done..|]. cbn in Hal |- *. by rewrite decide_False.
  - rewrite Ha0 in Ha. injection Ha as <-. split; [by exists a0|].
    eapply handle_sweeping; [done..| |done|done]. intros i Hi. by eapply blocked.
  - rewrite Ha0 in Ha. injection Ha as <-. split.
    + exists (out_overlay (revokeAt w a0 r wo)). split; [by eapply put_same|]. cbn.
      destruct (revokeDevice_acts (EnrolledLedger (settings w)) configSourceURL true true a0 (disk (fl w)) wo r)
        as [[[= Hov Hst] _]|(identity & reason & Hact)]; [unfold revokeAt; by rewrite Hov, Hst|].
      eapply (kept_act _ _ _ _ _ K a0 _ wo (ORevoke identity reason)); [by eapply Hp|done..].
    + cbn. destruct (out_sweep _); [|done]. eapply sweeping_mono; [done| |done]. cbn.
      rewrite lookup_insert_ne; [done|]. intros ->. unfold sweeping in Hs. by rewrite Hk in Hs.
  - split; [by exists a0|done].
Qed.

Lemma ran_cutting id k w ls w' :
  normalizeIdentity id = id → id ≠ "" → worldOk w → cutting id k w → Forall (spares id) ls → ran w ls w' → cutting id k w'.
Proof.
  intros Hid Hne Hw Hc Hls Hran. induction Hran as [|ls w1 l w2 Hran IH Hstep]; [done|].
  apply Forall_app in Hls as [Hls [Hl _]%Forall_cons].
  eapply (wstep_cutting id k w1 l w2); [done|done|by eapply ran_ok|by apply IH|done|done].
Qed.

(** A process of the fleet begins with no connection. *)
Definition begun (w : world) : Prop := owners b (fl w) ∧ all_planes (wellFormed b) (fl w) ∧ dr w = emptyDoor.

Lemma begun_ok w : begun w → worldOk w.
Proof. intros (Ho & Hp & Hd). split; [done..|]. rewrite Hd. apply emptyDoor_ok. Qed.

Lemma revoke_cutting w k r wo a identity :
  worldOk w → planes (fl w) !! p = Some a → out_sweep (revokeAt w a r wo) = Some identity →
  normalizeIdentity identity ≠ "" ∧ cutting (normalizeIdentity identity) k (afterRevoke w k (revokeAt w a r wo)).
Proof.
  intros [Ho Hp Hd] Ha Hsweep. destruct (revokeDevice_sweeps _ _ _ _ _ _ _ _ _ (Hp _ _ Ha) Hsweep) as (Hne & _ & Hb).
  split; [done|]. split.
  - eexists. split; [by eapply put_same|done].
  - unfold afterRevoke, sweeping. rewrite Hsweep. cbn. by rewrite lookup_insert_eq.
Qed.

(** ** Who closes a connection *)

(** Sweeps are those that administrators began, other closes those that were called. *)
Definition accounted (ls : list label) (d : door) : Prop :=
  ∀ k t, threads d !! k = Some t →
    match t with
    | Sweep identity | CloseAll (Some identity) _ _ => ∃ r wo why, LRevoke k r wo ∈ ls ∧ body r = Some (identity, why)
    | CloseAll None pending _ => ∀ c, c ∈ pending → LDoor (CallClose k c) ∈ ls
    end.

Lemma accounted_mono ls l d d' :
  accounted ls d → (∀ k t, threads d' !! k = Some t → threads d !! k = Some t) → accounted (ls ++ [l]) d'.
Proof.
  intros Hacc Hsub k t Hk%Hsub%Hacc. destruct t as [i|[i|] pending st].
  - destruct Hk as (r & wo & why & ? & ?). exists r, wo, why. rewrite elem_of_app. auto.
  - destruct Hk as (r & wo & why & ? & ?). exists r, wo, why. rewrite elem_of_app. auto.
  - intros c Hc%Hk. rewrite elem_of_app. auto.
Qed.

Lemma accounted_snoc ls l d : accounted ls d → accounted (ls ++ [l]) d.
Proof. intros Hacc. by eapply accounted_mono. Qed.

Lemma accounted_handle ls (cfg : secureTransportConfig) a ev d d' :
  accounted ls d → handle cfg a ev d = Some d' → accounted (ls ++ [LDoor ev]) d'.
Proof.
  intros Hacc. destruct ev as [c cs|c|k' c|k']; cbn [handle].
  - destruct (connections d !! c); [done|]. intros [= <-]. by apply (accounted_mono _ _ d).
  - intros Hh. apply (accounted_mono _ _ d); [done|]. unfold handshake in Hh.
    destruct (connections d !! c) as [x|]; [|done]. cbn [mbind option_bind] in Hh.
    destruct (at_phase x); simplify_eq; [done| |done..]. by destruct (is_empty _).
  - destruct (threads d !! k') eqn:Hk; [done|]. destruct (connections d !! c); [|done]. intros [= <-].
    intros k t Ht. cbn in Ht. apply lookup_insert_Some in Ht as [[<- <-]|[_ Ht]].
    + intros c' ->%list_elem_of_singleton. rewrite elem_of_app. right. by left.
    + by apply (accounted_snoc _ (LDoor (CallClose k' c)) _ Hacc) in Ht.
  - intros Ha. unfold advance in Ha. destruct (threads d !! k') as [t'|] eqn:Hk; [|done]. cbn [mbind option_bind] in Ha.
    pose proof (accounted_snoc ls (LDoor (Advance k')) d Hacc) as Hacc'. pose proof (Hacc' _ _ Hk) as Hown.
    destruct t' as [i|o [|c pending] [|j|]]; simplify_eq; intros k t Ht; cbn in Ht;
      apply lookup_insert_Some in Ht as [[<- <-]|[_ Ht]]; try exact (Hacc' _ _ Ht); [exact Hown|exact Hown|exact Hown|].
    destruct o; [exact Hown|]. intros c' Hc'. apply Hown. by right.
Qed.

Lemma ran_accounted w ls w' : begun w → ran w ls w' → accounted ls (dr w').
Proof.
  intros (_ & _ & Hd). induction 1 as [|ls w1 l w2 Hran IH Hstep].
  { intros k t. by rewrite Hd. }
  destruct Hstep as [i a f' Hs|ev a d' Ha Hh|k r wo a Ha Hk|cfg]; cbn.
  - apply (accounted_mono _ _ (dr w1)); [done|]. destruct a; [done..|]. cbn. by case_decide.
  - by eapply accounted_handle.
  - destruct (out_sweep _) as [identity|] eqn:Hsweep; [|by apply (accounted_mono _ _ (dr w1))].
    intros k' t Ht. cbn in Ht. apply lookup_insert_Some in Ht as [[<- <-]|[_ Ht]]; [|by apply (accounted_snoc _ (LRevoke k r wo) _ IH) in Ht].
    exists r, wo. unfold revokeAt, revokeDevice in Hsweep.
    destruct (deviceActGuards _ _ _ _) as [[i why]|] eqn:Hg; [|done].
    assert (body r = Some (i, why)) as Hbody by (unfold deviceActGuards in Hg; repeat case_match; simplify_eq; done).
    destruct (RevokeCheckedContext _ _ _ _ _ _) as [[[a' stored'] calls] [applied saveErr]]. cbn in Hsweep.
    destruct applied; [|done]. injection Hsweep as ->. exists why. rewrite elem_of_app. split; [right; by left|done].
  - by apply (accounted_mono _ _ (dr w1)).
Qed.

(** Only a call of [Close] changes a socket. *)
Lemma handle_closes (cfg : secureTransportConfig) a ev d d' c x x' :
  handle cfg a ev d = Some d' → connections d !! c = Some x → sock x = Open →
  connections d' !! c = Some x' → sock x' ≠ Open →
  ∃ k o pending st, ev = Advance k ∧ threads d !! k = Some (CloseAll o (c :: pending) st).
Proof.
  intros Hh Hx Ho Hx' Hne. destruct ev as [c' cs|c'|k c'|k]; cbn [handle] in Hh.
  - destruct (connections d !! c') eqn:Hc'; [done|]. injection Hh as <-. cbn in Hx'.
    rewrite lookup_insert_ne in Hx' by (intros ->; by rewrite Hc' in Hx). rewrite Hx in Hx'. by injection Hx' as <-.
  - exfalso. apply Hne. unfold handshake in Hh. destruct (connections d !! c') as [y|]; [|done]. cbn [mbind option_bind] in Hh.
    assert (∀ q, connections (toPhase c' q d) !! c = Some x' → sock x' = Open) as Hsame.
    { intros q (z & Hz & ->)%lookup_toPhase. rewrite Hx in Hz. injection Hz as <-. by case_decide. }
    destruct (at_phase y); simplify_eq; try (by eapply Hsame); [|by eapply (Hsame Rejected)].
    destruct (is_empty _); [by eapply Hsame|by eapply (Hsame Registered)].
  - destruct (threads d !! k); [done|]. destruct (connections d !! c'); [|done]. injection Hh as <-. cbn in Hx'.
    rewrite Hx in Hx'. by injection Hx' as <-.
  - exists k. unfold advance in Hh. destruct (threads d !! k) as [[i|o [|c' pending] st]|] eqn:Hk; [|done| |done]; cbn [mbind option_bind] in Hh.
    { simplify_eq. cbn in Hx'. congruence. }
    destruct (decide (c' = c)) as [-> | Hc]; [by exists o, pending, st|]. exfalso. apply Hne.
    assert (∀ s, connections (toSocket c' s d) !! c = Some x' → sock x' = Open) as Hsame.
    { intros s (z & Hz & ->)%lookup_toSocket. rewrite Hx in Hz. injection Hz as <-. by rewrite decide_False. }
    destruct st; simplify_eq.
    + cbn in Hx'. destruct (beginClose_cases c' d) as [Hb|[Hb _]]; rewrite Hb in Hx'; [by eapply Hsame|congruence].
    + cbn in Hx'. congruence.
    + by eapply (Hsame Closed).
Qed.

(** ** A call of [Close] comes to its end *)

Definition finished (k : nat) (d : door) : Prop := ∃ o st, threads d !! k = Some (CloseAll o [] st).

(** The steps left: one to collect, three for each connection. *)
Definition work (t : thread) : nat :=
  match t with
  | Sweep _ => 0
  | CloseAll _ pending st =>
      3 * length pending - match st with AtLookup => 0 | AtUnregister _ => 1 | AtSocket => 2 end
  end.

Definition advances (k : nat) : relation door := fun d d' => advance k d = Some d'.

Lemma beginClose_lookup c d c' x' :
  connections (beginClose c d) !! c' = Some x' →
  ∃ x, connections d !! c' = Some x ∧ (sock x = Closed → sock x' = Closed).
Proof.
  unfold beginClose. destruct (connections d !! c) as [y|] eqn:Hy; [|by exists x'].
  destruct (sock y) eqn:Hs; [|by exists x'..]. intros (x & Hx & ->)%lookup_toSocket. exists x. split; [done|].
  case_decide; [|done]. subst c'. rewrite Hx in Hy. injection Hy as ->. by rewrite Hs.
Qed.

(** One step is left less, what was closed stays closed and what is done with is closed. *)
Lemma advance_progress k d o c pending st :
  threads d !! k = Some (CloseAll o (c :: pending) st) →
  ∃ d' pending' st', advances k d d' ∧ threads d' !! k = Some (CloseAll o pending' st') ∧
    (work (CloseAll o pending' st') < work (CloseAll o (c :: pending) st))%nat ∧
    (∀ c' x', connections d' !! c' = Some x' →
      ∃ x, connections d !! c' = Some x ∧ (sock x = Closed → sock x' = Closed) ∧
        (c' ∈ c :: pending → c' ∉ pending' → sock x' = Closed)).
Proof.
  intros Hk. unfold advances, advance. rewrite Hk. cbn [mbind option_bind].
  destruct st; eexists _, _, _; (split; [done|]); (split; [cbn; by rewrite lookup_insert_eq|]).
  - split; [destruct (ids _ !! _); cbn; lia|]. intros c' x' (x & ? & ?)%beginClose_lookup. exists x. by split_and!.
  - split; [cbn; lia|]. intros c' x' Hx'. exists x'. by split_and!.
  - split; [cbn; lia|]. intros c' x' (x & Hx & ->)%lookup_toSocket. exists x. split; [done|].
    case_decide as Hc; [done|]. split; [done|]. intros [|]%elem_of_cons; done.
Qed.

Lemma closes_all k n : ∀ d o pending st,
  threads d !! k = Some (CloseAll o pending st) → (work (CloseAll o pending st) ≤ n)%nat →
  ∃ d', rtc (advances k) d d' ∧ finished k d' ∧
    ∀ c x', connections d' !! c = Some x' →
      ∃ x, connections d !! c = Some x ∧ (sock x = Closed → sock x' = Closed) ∧ (c ∈ pending → sock x' = Closed).
Proof.
  induction n as [|n IH]; intros d o [|c pending] st Hk Hn.
  1, 3: exists d; split; [done|]; split; [by eexists _, _|]; intros c x' Hx'; exists x'; split_and!; [done..|];
    by intros ?%elem_of_nil.
  { destruct st; cbn in Hn; lia. }
  destruct (advance_progress _ _ _ _ _ _ Hk) as (d1 & pending' & st' & Hstep & Hk' & Hlt & Hsock).
  destruct (IH d1 o pending' st' Hk') as (d' & Hrun & Hfin & Hall); [lia|].
  exists d'. split; [by eapply rtc_l|]. split; [done|]. intros c' x' (x1 & Hx1 & Hs1 & Hp1)%Hall.
  destruct (Hsock _ _ Hx1) as (x & Hx & Hs & Hp). exists x. split_and!; [done|auto|]. intros Hc.
  destruct (decide (c' ∈ pending')); auto.
Qed.

Lemma wstep_door_inv w ev w' :
  wstep w (LDoor ev) w' → ∃ a d', handle (settings w) a ev (dr w) = Some d' ∧ w' = mkWorld (fl w) d' (settings w).
Proof. inversion 1; subst. by eexists _, _. Qed.

Lemma advances_ran k w a d' :
  planes (fl w) !! p = Some a → rtc (advances k) (dr w) d' →
  ∃ ls, Forall (fun l => l = LDoor (Advance k)) ls ∧ ran w ls (mkWorld (fl w) d' (settings w)).
Proof.
  intros Ha. revert d'. apply rtc_ind_r.
  - exists []. split; [done|]. destruct w. apply ran_nil.
  - intros d1 d2 Hrun Hstep IH. destruct IH as (ls & Hls & Hran). exists (ls ++ [LDoor (Advance k)]). split; [by apply Forall_app, conj; [|apply Forall_singleton]|].
    eapply ran_snoc; [done|]. by apply (wstep_door (mkWorld (fl w) d1 (settings w)) (Advance k) a d2).
Qed.

(** After an applied block, whatever happened since. *)
Lemma after_block w0 w w' ls ls' k r wo a identity :
  begun w0 → ran w0 ls w → planes (fl w) !! p = Some a → threads (dr w) !! k = None →
  out_sweep (revokeAt w a r wo) = Some identity → Forall (spares (normalizeIdentity identity)) ls' →
  ran (afterRevoke w k (revokeAt w a r wo)) ls' w' →
  normalizeIdentity identity ≠ "" ∧ worldOk w' ∧ cutting (normalizeIdentity identity) k w'.
Proof.
  intros Hb Hran Ha Hk Hsweep Hls Hran'.
  assert (worldOk w) as Hw by (eapply ran_ok; [by apply begun_ok|done]).
  destruct (revoke_cutting w k r wo a identity Hw Ha Hsweep) as [Hne Hcut].
  assert (worldOk (afterRevoke w k (revokeAt w a r wo))) as Hw1 by (eapply wstep_ok; [done|by apply wstep_revoke]).
  split_and!; [done|by eapply ran_ok|]. by eapply ran_cutting; [apply normalizeIdentity_idemp|..].
Qed.

Lemma swept id k d c : sweeping id k d → finished k d → ¬ serves id d c.
Proof.
  intros Hs (o & st & Hfin) Hserves. unfold sweeping in Hs. rewrite Hfin in Hs. destruct o; [|done].
  destruct Hs as [_ Hs]. by apply Hs, elem_of_nil in Hserves.
Qed.

Lemma sweep_finishes id k d : sweeping id k d → ∃ d', rtc (advances k) d d' ∧ finished k d'.
Proof.
  unfold sweeping. intros Hs. destruct (threads d !! k) as [[i|o pending st]|] eqn:Ht; [| |done].
  - assert (advances k d (d <| threads := <[k := CloseAll (Some i) (victims (registry d) i) AtLookup]> (threads d) |>))
      as Hstep by (unfold advances, advance; by rewrite Ht).
    match type of Hstep with advances _ _ ?d1 => set (d2 := d1) in * end.
    assert (threads d2 !! k = Some (CloseAll (Some i) (victims (registry d) i) AtLookup)) as Ht2 by apply lookup_insert_eq.
    edestruct (closes_all k) as (d' & Hrun & Hfin & _); [exact Ht2|done|].
    exists d'. split; [by eapply rtc_l|done].
  - edestruct (closes_all k) as (d' & Hrun & Hfin & _); [exact Ht|done|]. by exists d'.
Qed.

End door.

(** (C3) Once the sweep that follows an administrator's block has come
    to its end, no connection of that device serves with its socket open, and this stays so:
    over every interleaving of handshakes, closes and other sweeps at the door with edits,
    pulls, promotions and restarts in the fleet, until somebody restores or erases that very
    device or the process restarts, which ends its connections. *)
Theorem blocked_device_is_cut_off `{DeviceLedger L, MapOrder} hk b p url (w0 w w' : world) ls ls' k r wo a identity c :
  begun b w0 → ran hk b p url w0 ls w → planes (fl w) !! p = Some a → threads (dr w) !! k = None →
  out_sweep (revokeAt hk url w a r wo) = Some identity →
  Forall (spares p (normalizeIdentity identity)) ls' →
  ran hk b p url (afterRevoke p w k (revokeAt hk url w a r wo)) ls' w' →
  finished k (dr w') → ¬ serves (normalizeIdentity identity) (dr w') c.
Proof.
  intros Hb Hran Ha Hk Hsweep Hls Hran' Hfin.
  destruct (after_block hk b p url _ _ _ _ _ _ _ _ _ _ Hb Hran Ha Hk Hsweep Hls Hran') as (_ & _ & _ & Hs).
  by eapply swept.
Qed.

(** (C24) From every state after an administrator's block the steps
    of its own sweep, and nothing else, lead to its end: no waiting on any client, handshake
    or other sweep. *)
Theorem block_can_always_reach_its_end `{DeviceLedger L, MapOrder} hk b p url (w0 w w' : world) ls ls' k r wo a identity :
  begun b w0 → ran hk b p url w0 ls w → planes (fl w) !! p = Some a → threads (dr w) !! k = None →
  out_sweep (revokeAt hk url w a r wo) = Some identity →
  Forall (spares p (normalizeIdentity identity)) ls' →
  ran hk b p url (afterRevoke p w k (revokeAt hk url w a r wo)) ls' w' →
  ∃ ls'' w'', Forall (fun l => l = LDoor (Advance k)) ls'' ∧ ran hk b p url w' ls'' w'' ∧ finished k (dr w'') ∧
    ∀ c, ¬ serves (normalizeIdentity identity) (dr w'') c.
Proof.
  intros Hb Hran Ha Hk Hsweep Hls Hran'.
  destruct (after_block hk b p url _ _ _ _ _ _ _ _ _ _ Hb Hran Ha Hk Hsweep Hls Hran') as (Hne & Hw' & Hcut).
  destruct Hcut as [(a' & Ha' & Hbl) Hs]. destruct (sweep_finishes _ _ _ Hs) as (d' & Hrun & Hfin).
  destruct (advances_ran hk b p url k w' a' d' Ha' Hrun) as (ls'' & Hls'' & Hran'').
  eexists ls'', _. split_and!; [done|done|done|]. intros c. apply (swept _ k); [|done].
  refine (proj2 (ran_cutting hk b p url _ k _ _ _ (normalizeIdentity_idemp identity) Hne Hw' _ _ Hran'')).
  - by split; [exists a'|].
  - eapply Forall_impl; [exact Hls''|by intros ? ->].
Qed.

(** (C22) An open connection is closed by a call of [Close] on that very connection,
    or by a sweep that an administrator began by blocking its own device: no pulled, delivered
    or automatic revocation, no handshake and no block of another device ends it. *)
Theorem only_a_block_cuts_off `{DeviceLedger L, MapOrder} hk b p url (w0 w w' : world) ls ev c x x' :
  begun b w0 → ran hk b p url w0 ls w → wstep hk b p url w (LDoor ev) w' →
  connections (dr w) !! c = Some x → sock x = Open →
  connections (dr w') !! c = Some x' → sock x' ≠ Open →
  ∃ k, ev = Advance k ∧
    (LDoor (CallClose k c) ∈ ls ∨
     ∃ r wo identity why, LRevoke k r wo ∈ ls ∧ body r = Some (identity, why) ∧ normalizeIdentity identity = keyOf x).
Proof.
  intros Hb Hran Hstep Hx Ho Hx' Hne.
  assert (worldOk b w) as [_ _ Hd] by (eapply ran_ok; [by apply begun_ok|done]).
  destruct (wstep_door_inv _ _ _ _ _ _ _ Hstep) as (a & d' & Hh & ->).
  destruct (handle_closes _ _ _ _ _ _ _ _ Hh Hx Ho Hx' Hne) as (k & o & pending & st & -> & Ht).
  exists k. split; [done|]. pose proof (ran_accounted _ _ _ _ _ _ _ Hb Hran _ _ Ht) as Hacc. destruct o as [i|].
  - right. destruct Hacc as (r & wo & why & Hin & Hbody). exists r, wo, i, why. split_and!; [done..|].
    destruct (ok_pending _ Hd _ _ _ _ c Ht ltac:(left)) as (y & Hy & Hkey). rewrite Hx in Hy. injection Hy as <-.
    symmetry. by apply Hkey.
  - left. apply Hacc. by left.
Qed.

(** ** A laptop with two connections, one of them in its handshake *)

Section examples.

#[local] Instance plainOrder : MapOrder := { iterate A l := l; iterate_perm A l := reflexivity l }.
#[local] Instance noLedger : DeviceLedger unit := { IsAdmitted _ _ := false; EntryTenant _ _ := None }.

Fixpoint runDoor (cfg : secureTransportConfig (L := unit)) (a : AdmissionRevocations) (evs : list event) (d : door)
    : option door :=
  match evs with
  | [] => Some d
  | ev :: evs => d ← handle cfg a ev d; runDoor cfg a evs d
  end.

Lemma ran_cons hk b p url (w w1 w2 : world (L := unit)) l ls :
  wstep hk b p url w l w1 → ran hk b p url w1 ls w2 → ran hk b p url w (l :: ls) w2.
Proof.
  intros Hs Hr. induction Hr as [|ls w2 l' w3 Hr IH Hstep]; [exact (ran_snoc _ _ _ _ _ [] w l w1 (ran_nil _ _ _ _ _) Hs)|].
  exact (ran_snoc _ _ _ _ _ (l :: ls) w2 l' w3 IH Hstep).
Qed.

Lemma ran_app hk b p url (w w1 w2 : world (L := unit)) ls ls' :
  ran hk b p url w ls w1 → ran hk b p url w1 ls' w2 → ran hk b p url w (ls ++ ls') w2.
Proof.
  intros Hr. induction 1 as [|ls' w2 l w3 _ IH Hstep]; [by rewrite app_nil_r|].
  rewrite app_assoc. by eapply ran_snoc.
Qed.

Lemma runDoor_ran hk b p url cfg a evs : ∀ f d d',
  planes f !! p = Some a → runDoor cfg a evs d = Some d' →
  ran hk b p url (mkWorld f d cfg) (LDoor <$> evs) (mkWorld f d' cfg).
Proof.
  induction evs as [|ev evs IH]; intros f d d' Ha; cbn [runDoor].
  { intros [= <-]. apply ran_nil. }
  destruct (handle cfg a ev d) as [d1|] eqn:Hh; [|done]. cbn [mbind option_bind]. intros Hr.
  rewrite fmap_cons. eapply ran_cons; [by eapply (wstep_door _ _ _ _ (mkWorld f d cfg))|]. by apply IH.
Qed.

Definition plainDoor : secureTransportConfig (L := unit) := mkTransportConfig None "" true false ∅ None true.
Definition device (cn : string) : ConnectionState := mkConnectionState [mkCertificate cn [] [] "ca"] [].
Definition night : world := mkWorld pair emptyDoor plainDoor.

(** Connection 1 of the laptop serves, 2 is that of a phone, 3 of the laptop is registered. *)
Definition evening : list event :=
  [Accept 1 (device "DESKTOP-01"); Handshake 1; Handshake 1; Handshake 1; Accept 2 (device "phone-1"); Handshake 2;
   Handshake 2; Handshake 2; Accept 3 (device " desktop-01"); Handshake 3; Handshake 3].
Definition duskDoor : door := default emptyDoor (runDoor plainDoor plane evening emptyDoor).
Definition dusk : world := mkWorld pair duskDoor plainDoor.

Definition theBlock : admin_request := mkAdminRequest "" "acme" true "" (Some ("Desktop-01", "stolen")).
Definition blockedOut : outcome := revokeAt noHooks "" dusk plane theBlock Written.
Definition blockedWorld : world := afterRevoke 0 dusk 7 blockedOut.
(** The registered connection takes its second look, the sweep begins, a new one is refused. *)
Definition morning : list event :=
  [Handshake 3; Advance 7; Accept 4 (device "desktop-01"); Handshake 4; Advance 7; Handshake 3; Handshake 3;
   Advance 7; Advance 7; Advance 7; Advance 7; Advance 7].
Definition dawnDoor : door := default emptyDoor (runDoor plainDoor (out_overlay blockedOut) morning (dr blockedWorld)).
Definition dawn : world := mkWorld (fl blockedWorld) dawnDoor plainDoor.

Example dawn_state :
  (λ x, (at_phase x, sock x)) <$> connections dawnDoor =
    <[1%nat := (Serving, Closed)]> (<[2%nat := (Serving, Open)]> (<[3%nat := (Rejected, Closed)]>
      {[4%nat := (Rejected, Open)]})) ∧
  threads dawnDoor !! 7%nat = Some (CloseAll (Some "Desktop-01") [] AtLookup).
Proof. split; vm_compute; reflexivity. Qed.

Lemma night_begun : begun Updating night.
Proof. split_and!; [by left|apply pair_wf|done]. Qed.

Lemma dusk_ran : ran noHooks Updating 0 "" night (LDoor <$> evening) dusk.
Proof. apply (runDoor_ran _ _ _ _ _ plane); [done|vm_compute; reflexivity]. Qed.

Lemma dawn_ran : ran noHooks Updating 0 "" blockedWorld (LDoor <$> morning) dawn.
Proof. apply (runDoor_ran _ _ _ _ _ (out_overlay blockedOut)); [done|vm_compute; reflexivity]. Qed.

Lemma doors_spare p id evs : Forall (spares p id) (LDoor <$> evs).
Proof. apply Forall_fmap. apply Forall_true. done. Qed.

Lemma blocked_device_is_cut_off_witness : out_sweep blockedOut = Some "Desktop-01" ∧ ¬ serves "desktop-01" dawnDoor 1.
Proof.
  split; [vm_compute; reflexivity|].
  apply (blocked_device_is_cut_off noHooks Updating 0 "" night dusk dawn (LDoor <$> evening) (LDoor <$> morning) 7 theBlock
    Written plane "Desktop-01" 1 night_begun dusk_ran eq_refl eq_refl).
  - vm_compute. reflexivity.
  - apply doors_spare.
  - exact dawn_ran.
  - exists (Some "Desktop-01"), AtLookup. vm_compute. reflexivity.
Defined.

Lemma block_can_always_reach_its_end_witness :
  ∃ ls w, ran noHooks Updating 0 "" blockedWorld ls w ∧ finished 7 (dr w) ∧ ¬ serves "desktop-01" (dr w) 1.
Proof.
  destruct (block_can_always_reach_its_end noHooks Updating 0 "" night dusk blockedWorld (LDoor <$> evening) [] 7 theBlock
    Written plane "Desktop-01" night_begun dusk_ran eq_refl eq_refl) as (ls & w & _ & Hran & Hfin & Hno).
  - vm_compute. reflexivity.
  - constructor.
  - apply ran_nil.
  - exists ls, w. split; [exact Hran|]. split; [exact Hfin|]. exact (Hno 1%nat).
Defined.

(** The sweep begins to close connection 1: it is the laptop's. *)
Definition closing : list event := [Handshake 3; Advance 7].
Definition noonDoor : door := default emptyDoor (runDoor plainDoor (out_overlay blockedOut) closing (dr blockedWorld)).
Definition noon : world := mkWorld (fl blockedWorld) noonDoor plainDoor.
Definition nextDoor : door := default emptyDoor (advance 7 noonDoor).

Lemma noon_ran :
  ran noHooks Updating 0 "" night (((LDoor <$> evening) ++ [LRevoke 7 theBlock Written]) ++ (LDoor <$> closing)) noon.
Proof.
  eapply ran_app.
  - eapply ran_snoc; [exact dusk_ran|]. apply (wstep_revoke _ _ _ _ dusk 7 theBlock Written plane); reflexivity.
  - apply (runDoor_ran _ _ _ _ _ (out_overlay blockedOut)); [done|vm_compute; reflexivity].
Qed.

Lemma only_a_block_cuts_off_witness : ∃ r identity why, body r = Some (identity, why) ∧ normalizeIdentity identity = "desktop-01".
Proof.
  destruct (only_a_block_cuts_off noHooks Updating 0 "" night noon (mkWorld (fl blockedWorld) nextDoor plainDoor) _
    (Advance 7) 3 (mkConnection (device " desktop-01") Withdrawing Open) (mkConnection (device " desktop-01") Withdrawing Closing)
    night_begun noon_ran) as (k & [= <-] & [Hin|(r & wo & identity & why & Hin & Hbody & Hkey)]).
  - apply (wstep_door _ _ _ _ noon (Advance 7) (out_overlay blockedOut)); vm_compute; reflexivity.
  - vm_compute. reflexivity.
  - reflexivity.
  - vm_compute. reflexivity.
  - discriminate.
  - exfalso. cbn in Hin. repeat (apply elem_of_cons in Hin as [Hin|Hin]; [discriminate|]). by apply elem_of_nil in Hin.
  - exists r, identity, why. split; [exact Hbody|]. rewrite Hkey. vm_compute. reflexivity.
Defined.

End examples.

End KillSwitch.
