(* ===== verification/InventorySnapshot.v ===== *)
(** * What the enrolled inventory saves ([src/enrolledinventory/snapshot.go])

    The entries of devices and the registry of their groups, the snapshot that carries both
    and its strict decoder: no repeated, unknown or null field, keys in their normal form, no
    removal that is enabled.  Snapshots written before enrolments were marked are taken for
    enrolled.  What is saved is read back exactly, or not at all. *)

From Stdlib Require Import Ascii.
From stdpp Require Import base gmap fin_maps list strings.
From S2P Require Import Prelude Trimmed GoStd Persistence Admission.
Import Admission(json, JNull, JBool, JNumber, JString, JArray, JObject, payload, NotJSON, OneValue).

Open Scope Z_scope.

Module InventorySnapshot.

(** ** Entries and groups ([ledger.go], [groups.go]) *)

Record Entry := mkEntry {
  en_Identity : string;
  en_Enabled : bool;
  en_TenantID : string;
  en_Group : string;
  en_Note : string;
  en_EnrolledAt : string;
  en_UpdatedAt : string;
  en_DeviceEnrolledAt : string;
  en_ReenrolmentNonce : Z;
  en_DeviceEnrolledNonce : Z;
  en_RemovedAt : string;
  en_Kind : string;
  en_MachineRef : string;
}.

#[export] Instance Entry_eta : Etaable Entry := fun e =>
  mkEntry (en_Identity e) (en_Enabled e) (en_TenantID e) (en_Group e) (en_Note e) (en_EnrolledAt e) (en_UpdatedAt e)
    (en_DeviceEnrolledAt e) (en_ReenrolmentNonce e) (en_DeviceEnrolledNonce e) (en_RemovedAt e) (en_Kind e)
    (en_MachineRef e).

Record Group := mkGroup {
  gr_ID : string;
  gr_TenantID : string;
  gr_Name : string;
  gr_Description : string;
  gr_Risk : string;
  gr_CreatedAt : string;
  gr_UpdatedAt : string;
}.

#[export] Instance Group_eta : Etaable Group := fun g =>
  mkGroup (gr_ID g) (gr_TenantID g) (gr_Name g) (gr_Description g) (gr_Risk g) (gr_CreatedAt g) (gr_UpdatedAt g).

#[export] Instance Entry_eq_dec : EqDecision Entry.
Proof. solve_decision. Defined.
#[export] Instance Group_eq_dec : EqDecision Group.
Proof. solve_decision. Defined.

Definition NormalizeIdentity (id : string) : string := to_lower (trim_space id).

Definition KindEndpoint : string := "endpoint".
Definition KindService : string := "service".

Definition IsEndpoint (e : Entry) : bool :=
  let k := trim_space (to_lower (en_Kind e)) in is_empty k || String.eqb k KindEndpoint.

Definition ValidKind (kind : string) : bool :=
  let k := trim_space (to_lower kind) in is_empty k || String.eqb k KindEndpoint || String.eqb k KindService.

Definition isTombstone (e : Entry) : bool := negb (is_blank (en_RemovedAt e)).

(** ** The snapshot ([persistence.go]) *)

Record stateFile := mkStateFile {
  sf_SchemaVersion : string;
  sf_Entries : gmap string Entry;
  sf_Groups : gmap string Group;
}.

Definition enrolledInventoryStateSchemaVersion : string := "enrolled_inventory_state.v2".
Definition enrolledInventoryStateSchemaVersionV1 : string := "enrolled_inventory_state.v1".
Definition migratedDeviceEnrolmentSentinel : string := "migrated:assumed-enrolled".

(** [map[string]json.RawMessage] *)
Notation fields := (gmap string json).

(** [inventoryObject], its members in their order. *)
Definition inventoryObject (j : json) : option (list (string * json)) :=
  match j with
  | JObject members => if bool_decide (NoDup members.*1) then Some members else None
  | _ => None
  end.

Definition isNull (j : json) : bool := match j with JNull => true | _ => false end.

(** [inventoryRow], up to its [json.Unmarshal]. *)
Definition inventoryRow (allowed required : list string) (j : json) : option fields :=
  members ← inventoryObject j;
  if forallb (fun member => containsString allowed member.1 && negb (isNull member.2)) members
     && forallb (fun name => containsString (members.*1) name) required
  then Some (list_to_map members) else None.

(** [json.Unmarshal] of one field: an absent one keeps its zero value. *)
Definition stringField (m : fields) (name : string) : option string :=
  match m !! name with None => Some "" | Some (JString s) => Some s | Some _ => None end.
Definition boolField (m : fields) (name : string) : option bool :=
  match m !! name with None => Some false | Some (JBool b) => Some b | Some _ => None end.
Definition intField (m : fields) (name : string) : option Z :=
  match m !! name with None => Some 0 | Some (JNumber literal) => atoi literal | Some _ => None end.

Definition entryFields : list string :=
  ["identity"; "enabled"; "tenant_id"; "group"; "note"; "enrolled_at"; "updated_at"; "device_enrolled_at";
   "reenrolment_nonce"; "device_enrolled_nonce"; "removed_at"; "kind"; "machine_ref"].

Definition readEntry (m : fields) : option Entry :=
  identity ← stringField m "identity";
  enabled ← boolField m "enabled";
  tenant ← stringField m "tenant_id";
  group ← stringField m "group";
  note ← stringField m "note";
  enrolledAt ← stringField m "enrolled_at";
  updatedAt ← stringField m "updated_at";
  deviceEnrolledAt ← stringField m "device_enrolled_at";
  reenrolmentNonce ← intField m "reenrolment_nonce";
  deviceEnrolledNonce ← intField m "device_enrolled_nonce";
  removedAt ← stringField m "removed_at";
  kind ← stringField m "kind";
  machineRef ← stringField m "machine_ref";
  Some (mkEntry identity enabled tenant group note enrolledAt updatedAt deviceEnrolledAt reenrolmentNonce
    deviceEnrolledNonce removedAt kind machineRef).

Definition entryAccepted (key : string) (e : Entry) : bool :=
  nonempty key && String.eqb key (NormalizeIdentity key) && String.eqb (en_Identity e) key && ValidKind (en_Kind e)
  && (0 <=? en_ReenrolmentNonce e) && (0 <=? en_DeviceEnrolledNonce e) && negb (isTombstone e && en_Enabled e).

Definition decodeEntry (version : string) (row : string * json) : option (string * Entry) :=
  m ← inventoryRow entryFields ["identity"; "enabled"] row.2;
  e ← readEntry m;
  if entryAccepted row.1 e then
    Some (row.1, if negb (String.eqb version enrolledInventoryStateSchemaVersion) && is_blank (en_DeviceEnrolledAt e)
                 then e <| en_DeviceEnrolledAt := migratedDeviceEnrolmentSentinel |> else e)
  else None.

Definition groupFields : list string := ["id"; "tenant_id"; "name"; "description"; "risk"; "created_at"; "updated_at"].

Definition readGroup (m : fields) : option Group :=
  id ← stringField m "id";
  tenant ← stringField m "tenant_id";
  name ← stringField m "name";
  description ← stringField m "description";
  risk ← stringField m "risk";
  createdAt ← stringField m "created_at";
  updatedAt ← stringField m "updated_at";
  Some (mkGroup id tenant name description risk createdAt updatedAt).

Definition groupAccepted (key : string) (g : Group) : bool :=
  negb (is_blank key) && String.eqb (gr_ID g) key && negb (is_blank (gr_Name g)).

Definition decodeGroup (row : string * json) : option (string * Group) :=
  m ← inventoryRow groupFields ["id"; "name"] row.2;
  g ← readGroup m;
  if groupAccepted row.1 g then Some (row.1, g) else None.

Definition decodeVersion (m : fields) : option string :=
  match m !! "schema_version" with
  | None => Some ""
  | Some (JString v) =>
      if String.eqb v enrolledInventoryStateSchemaVersion || String.eqb v enrolledInventoryStateSchemaVersionV1
      then Some v else None
  | Some _ => None
  end.

Definition decodeInventorySnapshot (raw : payload) : option stateFile :=
  match raw with
  | NotJSON => None
  | OneValue j =>
      members ← inventoryObject j;
      if forallb (fun member => containsString ["schema_version"; "entries"; "groups"] member.1) members then
        let m := list_to_map members : fields in
        version ← decodeVersion m;
        rows ← (m !! "entries" ≫= inventoryObject);
        entries ← mapM (decodeEntry version) rows;
        groups ← match m !! "groups" with
                 | None => Some []
                 | Some j => inventoryObject j ≫= mapM decodeGroup
                 end;
        Some (mkStateFile version (list_to_map entries) (list_to_map groups))
      else None
  end.

(** [json.Marshal] with [omitempty]. *)
Definition optString (name s : string) : list (string * json) := when (nonempty s) [(name, JString s)].
Definition optInt (name : string) (n : Z) : list (string * json) := when (negb (n =? 0)) [(name, JNumber (itoa n))].

Definition marshalEntry (e : Entry) : json :=
  JObject ([("identity", JString (en_Identity e)); ("enabled", JBool (en_Enabled e))]
    ++ optString "tenant_id" (en_TenantID e) ++ optString "group" (en_Group e) ++ optString "note" (en_Note e)
    ++ optString "enrolled_at" (en_EnrolledAt e) ++ optString "updated_at" (en_UpdatedAt e)
    ++ optString "device_enrolled_at" (en_DeviceEnrolledAt e) ++ optInt "reenrolment_nonce" (en_ReenrolmentNonce e)
    ++ optInt "device_enrolled_nonce" (en_DeviceEnrolledNonce e) ++ optString "removed_at" (en_RemovedAt e)
    ++ optString "kind" (en_Kind e) ++ optString "machine_ref" (en_MachineRef e)).

Definition marshalGroup (g : Group) : json :=
  JObject ([("id", JString (gr_ID g))] ++ optString "tenant_id" (gr_TenantID g) ++ [("name", JString (gr_Name g))]
    ++ optString "description" (gr_Description g) ++ optString "risk" (gr_Risk g)
    ++ optString "created_at" (gr_CreatedAt g) ++ optString "updated_at" (gr_UpdatedAt g)).

Definition marshalRows {A} (marshal : A → json) (m : gmap string A) : json :=
  JObject ((fun row => (row.1, marshal row.2)) <$> sort_stable (fun a b => String.ltb a.1 b.1) (map_to_list m)).

Definition marshal (f : stateFile) : payload :=
  OneValue (JObject ([("schema_version", JString (sf_SchemaVersion f)); ("entries", marshalRows marshalEntry (sf_Entries f))]
    ++ when (negb (Nat.eqb (size (sf_Groups f)) 0)) [("groups", marshalRows marshalGroup (sf_Groups f))])).

(** ** Numbers are read back *)

Lemma parse_unsigned_itoa n : 0 ≤ n → parse_unsigned (itoa n) = Some n.
Proof.
  intros Hn. unfold parse_unsigned. destruct (is_empty (itoa n)) eqn:He; [|by apply parse_digits_itoa].
  apply is_empty_true in He. by destruct (itoa_nonempty n).
Qed.

Lemma atoi_digits s n :
  parse_unsigned s = Some n → atoi s = if (int_min <=? n) && (n <=? int_max) then Some n else None.
Proof.
  intros Hp. unfold atoi. rewrite Hp, !Z.mul_1_l. destruct s as [|c s]; [done|].
  destruct (digit_val c) eqn:Hd; [|unfold parse_unsigned in Hp; cbn in Hp; by rewrite Hd in Hp].
  destruct c as [[] [] [] [] [] [] [] []]; try reflexivity; by vm_compute in Hd.
Qed.

Lemma atoi_itoa n : atoi (itoa n) = if (int_min <=? n) && (n <=? int_max) then Some n else None.
Proof.
  destruct (Z.ltb_spec n 0) as [Hn|Hn]; [|by apply atoi_digits, parse_unsigned_itoa].
  pose proof (parse_unsigned_itoa (- n) ltac:(lia)) as Hp. unfold itoa in Hp |- *.
  rewrite (proj2 (Z.ltb_ge (- n) 0)) in Hp by lia. rewrite (proj2 (Z.ltb_lt n 0)) by lia. cbn [atoi].
  rewrite Hp. by replace (-1 * - n) with n by lia.
Qed.

(** ** Rows are read back *)

Lemma optString_keys name s : (optString name s).*1 `sublist_of` [name].
Proof. unfold optString, when. destruct (nonempty s); cbn; [done|]. by constructor. Qed.
Lemma optInt_keys name n : (optInt name n).*1 `sublist_of` [name].
Proof. unfold optInt, when. destruct (negb _); cbn; [done|]. by constructor. Qed.

(** What a list of members says of a name. *)
Definition says (l : list (string * json)) (name : string) : option json := (list_to_map l : gmap string json) !! name.

Lemma says_app l l' name : says (l ++ l') name = match says l name with Some j => Some j | None => says l' name end.
Proof. unfold says. rewrite list_to_map_app, lookup_union. by destruct (_ !! _), (_ !! _). Qed.

Lemma says_one k j name : says [(k, j)] name = if String.eqb k name then Some j else None.
Proof.
  unfold says. cbn. destruct (String.eqb_spec k name) as [->|]; [by rewrite lookup_insert_eq|by rewrite lookup_insert_ne].
Qed.

Lemma says_when b k j name : says (when b [(k, j)]) name = if b && String.eqb k name then Some j else None.
Proof. destruct b; cbn [when andb]; [apply says_one|done]. Qed.

Lemma says_cons k j l name : says ((k, j) :: l) name = if String.eqb k name then Some j else says l name.
Proof. change ((k, j) :: l) with ([(k, j)] ++ l). rewrite says_app, says_one. by destruct (String.eqb k name). Qed.

Lemma says_nil name : says [] name = None.
Proof. done. Qed.

Lemma says_elem l name j : says l name = Some j → name ∈ l.*1.
Proof. intros Hj. unfold says in Hj. apply elem_of_list_to_map_2 in Hj. by apply (list_elem_of_fmap_2 fst _ (name, j)). Qed.

Lemma optString_read s (x : option json) :
  x = (if nonempty s then Some (JString s) else None) →
  match x with None => Some "" | Some (JString s) => Some s | Some _ => None end = Some s.
Proof. intros ->. destruct (nonempty s) eqn:He; [done|]. apply negb_false_iff, is_empty_true in He. by rewrite He. Qed.

(** Reads a name off a marshalled row. *)
Ltac read_field :=
  unfold optString, optInt; repeat (rewrite says_app || rewrite says_cons || rewrite says_when || rewrite says_nil);
  cbn [String.eqb Ascii.eqb Bool.eqb]; rewrite ?andb_false_r, ?andb_true_r; repeat (case_match; try done); try done.

Lemma stringField_says l name s :
  says l name = (if nonempty s then Some (JString s) else None) → stringField (list_to_map l) name = Some s.
Proof. intros H. unfold stringField. change (list_to_map l !! name) with (says l name). by apply optString_read. Qed.

Lemma stringField_set l name s : says l name = Some (JString s) → stringField (list_to_map l) name = Some s.
Proof. intros H. unfold stringField. change (list_to_map l !! name) with (says l name). by rewrite H. Qed.

Lemma boolField_set l name v : says l name = Some (JBool v) → boolField (list_to_map l) name = Some v.
Proof. intros H. unfold boolField. change (list_to_map l !! name) with (says l name). by rewrite H. Qed.

Lemma intField_says l name n :
  says l name = (if negb (n =? 0) then Some (JNumber (itoa n)) else None) →
  intField (list_to_map l) name = if (int_min <=? n) && (n <=? int_max) then Some n else None.
Proof.
  intros H. unfold intField. change (list_to_map l !! name) with (says l name). rewrite H.
  destruct (Z.eqb_spec n 0) as [Hn|Hn]; cbn [negb]; [by rewrite Hn|apply atoi_itoa].
Qed.

Definition inRange (n : Z) : bool := (int_min <=? n) && (n <=? int_max).

Lemma readEntry_marshal e members :
  marshalEntry e = JObject members →
  readEntry (list_to_map members) =
    if inRange (en_ReenrolmentNonce e) && inRange (en_DeviceEnrolledNonce e) then Some e else None.
Proof.
  intros [= <-]. unfold readEntry.
  rewrite (stringField_set _ "identity" (en_Identity e)) by read_field.
  rewrite (boolField_set _ "enabled" (en_Enabled e)) by read_field.
  rewrite (stringField_says _ "tenant_id" (en_TenantID e)) by read_field.
  rewrite (stringField_says _ "group" (en_Group e)) by read_field.
  rewrite (stringField_says _ "note" (en_Note e)) by read_field.
  rewrite (stringField_says _ "enrolled_at" (en_EnrolledAt e)) by read_field.
  rewrite (stringField_says _ "updated_at" (en_UpdatedAt e)) by read_field.
  rewrite (stringField_says _ "device_enrolled_at" (en_DeviceEnrolledAt e)) by read_field.
  rewrite (intField_says _ "reenrolment_nonce" (en_ReenrolmentNonce e)) by read_field.
  rewrite (intField_says _ "device_enrolled_nonce" (en_DeviceEnrolledNonce e)) by read_field.
  rewrite (stringField_says _ "removed_at" (en_RemovedAt e)) by read_field.
  rewrite (stringField_says _ "kind" (en_Kind e)) by read_field.
  rewrite (stringField_says _ "machine_ref" (en_MachineRef e)) by read_field.
  unfold inRange. cbn. destruct ((int_min <=? en_ReenrolmentNonce e) && _); [|done]. cbn.
  destruct ((int_min <=? en_DeviceEnrolledNonce e) && _); [|done]. by destruct e.
Qed.

(** Keys of a row: some of the known ones, in their order, and no value is null. *)
Definition rowOf (allowed : list string) (members : list (string * json)) : Prop :=
  members.*1 `sublist_of` allowed ∧ Forall (fun member => isNull member.2 = false) members.

Lemma rowOf_app a a' l l' : rowOf a l → rowOf a' l' → rowOf (a ++ a') (l ++ l').
Proof.
  intros [Hs Hn] [Hs' Hn']. split; [rewrite fmap_app; by apply sublist_app|by apply Forall_app].
Qed.

Lemma rowOf_one name j : isNull j = false → rowOf [name] [(name, j)].
Proof. intros Hj. split; [done|by apply Forall_singleton]. Qed.

Lemma rowOf_when b name j : isNull j = false → rowOf [name] (when b [(name, j)]).
Proof. destruct b; [apply rowOf_one|]. intros _. split; cbn; [by constructor|done]. Qed.

Ltac row_fields :=
  unfold optString, optInt;
  repeat (first [refine (rowOf_app [_] _ [_] _ _ _); [by apply rowOf_one|]
                |refine (rowOf_app [_] _ (when _ [_]) _ _ _); [by apply rowOf_when|]]);
  first [by apply rowOf_one|by apply rowOf_when].

Lemma entry_row e members : marshalEntry e = JObject members → rowOf entryFields members.
Proof. intros [= <-]. row_fields. Qed.

Lemma group_row g members : marshalGroup g = JObject members → rowOf groupFields members.
Proof. intros [= <-]. row_fields. Qed.

Lemma inventoryRow_row allowed required members :
  NoDup allowed → rowOf allowed members → (∀ name, name ∈ required → name ∈ members.*1) →
  inventoryRow allowed required (JObject members) = Some (list_to_map members).
Proof.
  intros Hnd [Hs Hn] Hreq. unfold inventoryRow, inventoryObject.
  rewrite bool_decide_true by (by eapply sublist_NoDup). cbn [mbind option_bind].
  assert (forallb (fun member => containsString allowed member.1 && negb (isNull member.2)) members = true) as ->.
  { apply forallb_forall. intros m Hm%list_elem_of_In. rewrite Forall_forall in Hn. rewrite (Hn m Hm), andb_true_r.
    apply containsString_spec. eapply sublist_subseteq; [exact Hs|]. by apply list_elem_of_fmap_2. }
  assert (forallb (fun name => containsString (members.*1) name) required = true) as ->; [|done].
  apply forallb_forall. intros name Hm%list_elem_of_In. by apply containsString_spec, Hreq.
Qed.

Definition entryReadable (key : string) (e : Entry) : bool :=
  inRange (en_ReenrolmentNonce e) && inRange (en_DeviceEnrolledNonce e) && entryAccepted key e.

Lemma decodeEntry_marshal key e :
  decodeEntry enrolledInventoryStateSchemaVersion (key, marshalEntry e) =
    if entryReadable key e then Some (key, e) else None.
Proof.
  unfold decodeEntry, entryReadable. cbn [fst snd]. destruct (marshalEntry e) as [| | | | |members] eqn:Hm; try done.
  rewrite (inventoryRow_row entryFields); [|by apply (bool_decide_unpack _); vm_compute|by eapply entry_row|].
  - cbn [mbind option_bind]. rewrite (readEntry_marshal e) by done.
    destruct (inRange _ && inRange _); cbn; [|done]. by destruct (entryAccepted key e).
  - injection Hm as <-. intros name. rewrite !elem_of_cons, elem_of_nil. intros [-> |[-> |[]]]; [by left|right; by left].
Qed.

Lemma readGroup_marshal g members : marshalGroup g = JObject members → readGroup (list_to_map members) = Some g.
Proof.
  intros [= <-]. unfold readGroup.
  rewrite (stringField_set _ "id" (gr_ID g)) by read_field.
  rewrite (stringField_says _ "tenant_id" (gr_TenantID g)) by read_field.
  rewrite (stringField_set _ "name" (gr_Name g)) by read_field.
  rewrite (stringField_says _ "description" (gr_Description g)) by read_field.
  rewrite (stringField_says _ "risk" (gr_Risk g)) by read_field.
  rewrite (stringField_says _ "created_at" (gr_CreatedAt g)) by read_field.
  rewrite (stringField_says _ "updated_at" (gr_UpdatedAt g)) by read_field.
  by destruct g.
Qed.

Lemma decodeGroup_marshal key g :
  decodeGroup (key, marshalGroup g) = if groupAccepted key g then Some (key, g) else None.
Proof.
  unfold decodeGroup. cbn [fst snd]. destruct (marshalGroup g) as [| | | | |members] eqn:Hm; try done.
  rewrite (inventoryRow_row groupFields); [|by apply (bool_decide_unpack _); vm_compute|by eapply group_row|].
  - cbn [mbind option_bind]. by rewrite (readGroup_marshal g).
  - injection Hm as <-. intros name. rewrite !elem_of_cons, elem_of_nil.
    intros [-> |[-> |[]]]; [by left|]. apply (says_elem _ _ (JString (gr_Name g))). read_field.
Qed.

Section rows.
Context {A : Type} (marshalA : A → json) (decode : string * json → option (string * A)) (ok : string → A → bool).
Hypothesis decode_one : ∀ k a, decode (k, marshalA a) = if ok k a then Some (k, a) else None.

Lemma decode_list l :
  mapM decode ((fun row => (row.1, marshalA row.2)) <$> l) =
    if forallb (fun row => ok row.1 row.2) l then Some l else None.
Proof.
  induction l as [|[k a] l IH]; [done|]. rewrite fmap_cons. cbn [mapM forallb fst snd]. rewrite decode_one.
  destruct (ok k a); cbn [mbind option_bind andb]; [|done]. rewrite IH. by destruct (forallb _ l).
Qed.

Lemma inventory_rows_read m :
  ∃ rows, marshalRows marshalA m = JObject rows ∧ inventoryObject (JObject rows) = Some rows ∧
    list_to_map <$> mapM decode rows = if bool_decide (map_Forall (λ k a, ok k a = true) m) then Some m else None.
Proof.
  unfold marshalRows. eexists. split; [done|]. set (l := sort_stable _ (map_to_list m)).
  assert (l ≡ₚ map_to_list m) as Hp by apply sort_stable_perm.
  assert (NoDup l.*1) as Hnd by (rewrite Hp; apply NoDup_fst_map_to_list).
  assert (list_to_map l = m) as Hl by (rewrite (list_to_map_proper l _ Hnd Hp); apply list_to_map_to_list).
  split.
  - unfold inventoryObject. rewrite bool_decide_true; [done|]. by rewrite <- list_fmap_compose.
  - rewrite decode_list. assert (forallb (fun row => ok row.1 row.2) l = bool_decide (map_Forall (λ k a, ok k a = true) m)) as ->.
    { apply eq_true_iff_eq. rewrite bool_decide_eq_true, forallb_forall. split.
      - intros H k a Hk. apply (H (k, a)), list_elem_of_In. rewrite Hp. by apply elem_of_map_to_list.
      - intros H [k a] Hk%list_elem_of_In. rewrite Hp in Hk. by apply H, elem_of_map_to_list. }
    case_bool_decide; cbn; [by rewrite Hl|done].
Qed.

End rows.

(** Everything in a file is as a reader accepts it. *)
Definition readable (f : stateFile) : Prop :=
  map_Forall (λ k e, entryReadable k e = true) (sf_Entries f) ∧ map_Forall (λ k g, groupAccepted k g = true) (sf_Groups f).

#[export] Instance readable_dec f : Decision (readable f).
Proof. unfold readable. apply _. Defined.

(** A snapshot of the present version that is saved is read back exactly, or not at all. *)
Lemma decode_saved f :
  sf_SchemaVersion f = enrolledInventoryStateSchemaVersion →
  decodeInventorySnapshot (marshal f) = if bool_decide (readable f) then Some f else None.
Proof.
  destruct f as [v es gs]. cbn [sf_SchemaVersion]. intros ->. unfold marshal, decodeInventorySnapshot.
  cbn [sf_SchemaVersion sf_Entries sf_Groups].
  destruct (inventory_rows_read marshalEntry (decodeEntry enrolledInventoryStateSchemaVersion) _ decodeEntry_marshal es) as (rows & -> & Hrows & Hdec).
  destruct (inventory_rows_read marshalGroup decodeGroup _ decodeGroup_marshal gs) as (grows & -> & Hgrows & Hgdec).
  set (tail := when _ _). assert (inventoryObject (JObject ([("schema_version", JString enrolledInventoryStateSchemaVersion);
    ("entries", JObject rows)] ++ tail)) = Some ([("schema_version", JString enrolledInventoryStateSchemaVersion);
    ("entries", JObject rows)] ++ tail)) as ->.
  { unfold inventoryObject. rewrite bool_decide_true; [done|]. unfold tail, when.
    destruct (negb _); cbn; apply (bool_decide_unpack _); by vm_compute. }
  cbn [mbind option_bind]. assert (forallb (fun member => containsString ["schema_version"; "entries"; "groups"] member.1)
    ([("schema_version", JString enrolledInventoryStateSchemaVersion); ("entries", JObject rows)] ++ tail) = true) as ->.
  { unfold tail, when. by destruct (negb _). }
  set (members := [("schema_version", JString enrolledInventoryStateSchemaVersion); ("entries", JObject rows)] ++ tail).
  assert (says members "schema_version" = Some (JString enrolledInventoryStateSchemaVersion) ∧
          says members "entries" = Some (JObject rows) ∧
          says members "groups" = if negb (Nat.eqb (size gs) 0) then Some (JObject grows) else None) as (Hv & He & Hg).
  { unfold members, tail. split_and!; rewrite says_app, !says_cons, says_nil, says_when; cbn; [done..|].
    by rewrite andb_true_r. }
  unfold says in Hv, He, Hg. unfold decodeVersion. rewrite Hv, String.eqb_refl. cbn [orb mbind option_bind]. rewrite He. cbn [mbind option_bind].
  rewrite Hrows. cbn [mbind option_bind]. rewrite Hg. clear Hv He Hg members.
  assert (list_to_map (M := gmap string Group) <$> (match (if negb (Nat.eqb (size gs) 0) then Some (JObject grows) else None) with
    None => Some [] | Some j => inventoryObject j ≫= mapM decodeGroup end) =
    if bool_decide (map_Forall (λ k g, groupAccepted k g = true) gs) then Some gs else None) as Hgs.
  { destruct (Nat.eqb_spec (size gs) 0) as [Hz|Hz]; cbn [negb]; [|by rewrite Hgrows].
    apply map_size_empty_inv in Hz as ->. by rewrite bool_decide_true by apply map_Forall_empty. }
  destruct (match (if negb _ then Some (JObject grows) else None) with None => _ | Some _ => _ end) as [groups|];
    destruct (mapM (decodeEntry _) rows) as [entries|]; cbn in Hdec, Hgs |- *; unfold readable; cbn [sf_Entries sf_Groups].
  - destruct (bool_decide _) eqn:Hb1 in Hdec; [|done]. destruct (bool_decide _) eqn:Hb2 in Hgs; [|done].
    injection Hdec as <-. injection Hgs as <-. rewrite bool_decide_true; [done|].
    apply bool_decide_eq_true in Hb1, Hb2. by split.
  - destruct (bool_decide _) eqn:Hb in Hdec; [done|]. apply bool_decide_eq_false in Hb. rewrite bool_decide_false; [done|]. by intros [].
  - destruct (bool_decide _) eqn:Hb in Hgs; [done|]. apply bool_decide_eq_false in Hb. rewrite bool_decide_false; [done|]. by intros [].
  - destruct (bool_decide _) eqn:Hb in Hdec; [done|]. apply bool_decide_eq_false in Hb. rewrite bool_decide_false; [done|]. by intros [].
Qed.

(** What a reader accepts is in order, whoever wrote it. *)
Lemma list_to_map_mapM {A} (decode : string * json → option (string * A)) (P : string → A → Prop) rows l :
  (∀ row k a, decode row = Some (k, a) → P k a) → mapM decode rows = Some l →
  map_Forall P (list_to_map l : gmap string A).
Proof.
  intros HP Hl k a Hk. apply elem_of_list_to_map_2 in Hk. apply mapM_Some in Hl.
  apply list_elem_of_lookup in Hk as [i Hi]. destruct (Forall2_lookup_r _ _ _ _ _ Hl Hi) as (row & _ & Hrow). by eapply HP.
Qed.

(** An entry a reader takes is in order; from an older snapshot it counts as enrolled. *)
Definition entryTaken (version k : string) (e : Entry) : Prop :=
  entryAccepted k e = true ∧ (version ≠ enrolledInventoryStateSchemaVersion → is_blank (en_DeviceEnrolledAt e) = false).

Lemma decodeEntry_taken version row k e : decodeEntry version row = Some (k, e) → entryTaken version k e.
Proof.
  unfold decodeEntry. destruct (inventoryRow _ _ _) as [m|]; [|done]. cbn [mbind option_bind].
  destruct (readEntry m) as [e'|]; [|done]. cbn [mbind option_bind]. destruct (entryAccepted row.1 e') eqn:Ha; [|done].
  intros [= <- <-]. split; [by case_match|]. intros Hv.
  destruct (String.eqb_spec version enrolledInventoryStateSchemaVersion) as [|_]; [done|]. cbn [negb andb].
  by destruct (is_blank (en_DeviceEnrolledAt e')) eqn:He.
Qed.

Lemma decodeGroup_taken row k g : decodeGroup row = Some (k, g) → groupAccepted k g = true.
Proof.
  unfold decodeGroup. destruct (inventoryRow _ _ _) as [m|]; [|done]. cbn [mbind option_bind].
  destruct (readGroup m) as [g'|]; [|done]. cbn [mbind option_bind]. destruct (groupAccepted row.1 g') eqn:Hg; [|done].
  by intros [= <- <-].
Qed.

Lemma decoded_taken raw f :
  decodeInventorySnapshot raw = Some f →
  map_Forall (entryTaken (sf_SchemaVersion f)) (sf_Entries f) ∧ map_Forall (λ k g, groupAccepted k g = true) (sf_Groups f).
Proof.
  destruct raw as [|j]; [done|]. cbn. destruct (inventoryObject j) as [members|]; [|done]. cbn [mbind option_bind].
  destruct (forallb _ members); [|done]. cbv zeta. destruct (decodeVersion _) as [version|]; [|done]. cbn [mbind option_bind].
  destruct (list_to_map members !! "entries" ≫= inventoryObject) as [rows|]; [|done]. cbn [mbind option_bind].
  destruct (mapM (decodeEntry version) rows) as [entries|] eqn:He; [|done]. cbn [mbind option_bind].
  destruct (match _ !! "groups" with None => _ | Some _ => _ end) as [groups|] eqn:Hg; [|done]. cbn. intros [= <-]. cbn. split.
  - eapply list_to_map_mapM, He. intros row k e. apply decodeEntry_taken.
  - destruct (_ !! "groups") as [jg|]; [|by injection Hg as <-]. apply bind_Some in Hg as (grows & _ & Hg).
    eapply list_to_map_mapM, Hg. intros row k g. apply decodeGroup_taken.
Qed.

Lemma accepted_entry k e :
  entryAccepted k e = true →
  k ≠ "" ∧ NormalizeIdentity k = k ∧ en_Identity e = k ∧ ValidKind (en_Kind e) = true ∧
  0 ≤ en_ReenrolmentNonce e ∧ 0 ≤ en_DeviceEnrolledNonce e ∧ ¬ (isTombstone e = true ∧ en_Enabled e = true).
Proof.
  unfold entryAccepted. intros Ha. repeat (apply andb_true_iff in Ha as [Ha ?]).
  split_and!; [by intros ->|symmetry; by apply String.eqb_eq|by apply String.eqb_eq|done|by apply Z.leb_le..|].
  intros [Ht He]. by rewrite Ht, He in *.
Qed.

(** (C31) An inventory that is saved is read back exactly when every entry
    and group in it is one a reader accepts, and never as another inventory.  Whatever a reader
    takes, from any text, is in order: every entry is of a known kind, under its own normalised
    identity, with counters that are not negative, and not both removed and enabled; every group
    has its own identifier and a name; and an entry from an older snapshot counts as enrolled, so
    no upgrade makes an identity available again. *)
Theorem inventory_snapshots_are_exact f raw g :
  sf_SchemaVersion f = enrolledInventoryStateSchemaVersion → decodeInventorySnapshot raw = Some g →
  (decodeInventorySnapshot (marshal f) = Some f ↔ readable f) ∧
  (∀ f', decodeInventorySnapshot (marshal f) = Some f' → f' = f) ∧
  (∀ k e, sf_Entries g !! k = Some e →
     k ≠ "" ∧ NormalizeIdentity k = k ∧ en_Identity e = k ∧ ValidKind (en_Kind e) = true ∧
     0 ≤ en_ReenrolmentNonce e ∧ 0 ≤ en_DeviceEnrolledNonce e ∧ ¬ (isTombstone e = true ∧ en_Enabled e = true) ∧
     (sf_SchemaVersion g ≠ enrolledInventoryStateSchemaVersion → is_blank (en_DeviceEnrolledAt e) = false)) ∧
  (∀ k gr, sf_Groups g !! k = Some gr → is_blank k = false ∧ gr_ID gr = k ∧ is_blank (gr_Name gr) = false).
Proof.
  intros Hv Hraw. rewrite (decode_saved f Hv). destruct (decoded_taken _ _ Hraw) as [Hes Hgs]. split_and!.
  - case_bool_decide; naive_solver.
  - case_bool_decide; naive_solver.
  - intros k e He. destruct (Hes k e He) as [Ha Hold]. by apply accepted_entry in Ha; destruct_and!.
  - intros k gr Hg. specialize (Hgs k gr Hg). unfold groupAccepted in Hgs.
    apply andb_true_iff in Hgs as [[Hk%negb_true_iff Hid%String.eqb_eq]%andb_true_iff Hn%negb_true_iff]. done.
Qed.

(** ** A fleet saved today, and one saved before enrolments were marked *)

Definition laptop : Entry := mkEntry "laptop-7" true "acme" "finance" "" "2026-08-01T00:00:00Z" "2026-08-01T00:00:00Z"
  "2026-08-02T00:00:00Z" 1 1 "" "" "guid-7".
Definition gone : Entry := mkEntry "pad-1" false "acme" "" "" "" "2026-08-03T00:00:00Z" "" 0 0 "2026-08-03T00:00:00Z" "" "".
Definition saved : stateFile := mkStateFile enrolledInventoryStateSchemaVersion
  (<["laptop-7" := laptop]> {["pad-1" := gone]}) {["dg_1" := mkGroup "dg_1" "acme" "finance" "" "high" "" ""]}.
Definition oldRow : payload := OneValue (JObject [("entries", JObject [("laptop-7",
  JObject [("identity", JString "laptop-7"); ("enabled", JBool true)])])]).
Definition oldFile : stateFile := mkStateFile "" {["laptop-7" := mkEntry "laptop-7" true "" "" "" "" ""
  migratedDeviceEnrolmentSentinel 0 0 "" "" ""]} ∅.

Lemma inventory_snapshots_are_exact_witness :
  decodeInventorySnapshot (marshal saved) = Some saved ∧
  ∀ k e, sf_Entries oldFile !! k = Some e → is_blank (en_DeviceEnrolledAt e) = false.
Proof.
  destruct (inventory_snapshots_are_exact saved oldRow oldFile) as (Hiff & _ & Hall & _);
    [reflexivity|vm_compute; reflexivity|].
  split; [|intros k e He; destruct (Hall k e He) as (_ & _ & _ & _ & _ & _ & _ & Hold); apply Hold; discriminate]. apply Hiff. apply (bool_decide_unpack _). vm_compute. exact I.
Defined.

(** Repeated, unknown and null fields, capitals in a key and an enabled removal are refused. *)
Definition rowWith (members : list (string * json)) : payload :=
  OneValue (JObject [("entries", JObject [("laptop-7", JObject members)])]).

Example refused_rows :
  Forall (λ raw, decodeInventorySnapshot raw = None)
    [rowWith [("identity", JString "laptop-7")];
     rowWith [("identity", JString "laptop-7"); ("enabled", JBool true); ("enabled", JBool false)];
     rowWith [("identity", JString "laptop-7"); ("enabled", JBool true); ("note", JNull)];
     rowWith [("identity", JString "laptop-7"); ("enabled", JBool true); ("owner", JString "x")];
     rowWith [("identity", JString "laptop-7"); ("enabled", JBool true); ("reenrolment_nonce", JNumber "-1")];
     rowWith [("identity", JString "laptop-7"); ("enabled", JBool true); ("reenrolment_nonce", JNumber "1.5")];
     rowWith [("identity", JString "laptop-7"); ("enabled", JBool true); ("removed_at", JString "2026-08-03T00:00:00Z")];
     OneValue (JObject [("entries", JObject [("Laptop-7", JObject [("identity", JString "Laptop-7"); ("enabled", JBool true)])])]);
     NotJSON].
Proof. repeat constructor. Qed.

End InventorySnapshot.
