(* ===== verification/EnrolledLedger.v ===== *)
(** * The enrolled inventory ([src/enrolledinventory/])

    Which devices may come in: an entry per normalised identity, with who owns it, whether a
    device ever enrolled against it and under which permission of an administrator, and the
    memory of removals.  Every operation of the ledger is here, on a file and on a shared row,
    with every outcome of its save.  The ledger is the [DeviceLedger] of the transport door.

    A method returns the ledger, what is stored, and its Go results.  The shared store of
    claims ([IdentityClaimer]) is an argument, and the calls it receives are part of the
    result. *)

From Stdlib Require Import Ascii.
From stdpp Require Import base gmap fin_maps list strings.
From S2P Require Import Prelude Trimmed GoStd Persistence Admission InventorySnapshot TransportDoor.
Import Admission(payload).
Import InventorySnapshot.

Open Scope Z_scope.

Module EnrolledLedger.

Inductive error :=
  | IdentityRequired | ErrIdentityDisabled | ErrIdentityRemoved | ErrIdentityOwnedByAnotherTenant
  | ErrIdentityUnassigned | ErrIdentityAlreadyEnrolled | ErrSameMachineAlreadyEnrolled | ErrDifferentMachineSameName
  | ErrMachineEnrolledUnderAnotherName (enrolledAs : string)
  | ErrIdentityClaimedElsewhere | ClaimFailed | ErrIdentityNotFound
  | SaveFailed | ErrInventorySave | ErrInventoryLoad
  | UnknownKind | GroupNameRequired | GroupNameTaken | GroupNotFound | ErrGroupAssigned
  | InvalidTime | RestoreFailed.

Record Ledger := mkLedger {
  entries : gmap string Entry;
  groups : gmap string Group;
  persister : backing;
  generation : Z;                                   (* uint64 *)
  persistBlocked : bool;
  snapshotKnown : bool;
}.

#[export] Instance Ledger_eta : Etaable Ledger := fun l =>
  mkLedger (entries l) (groups l) (persister l) (generation l) (persistBlocked l) (snapshotKnown l).

Definition NewLedger : Ledger := mkLedger ∅ ∅ Memory 0 false false.

Definition bump (l : Ledger) : Ledger := l <| generation := (generation l + 1) mod 2 ^ 64 |>.
Definition put (k : string) (e : Entry) (l : Ledger) : Ledger := l <| entries := <[k := e]> (entries l) |>.

Definition sameGroupTenant (a b : string) : bool := String.eqb (trim_space a) (trim_space b).
Definition NormalizeMachineRef (v : string) : string := to_lower (trim_space v).
Definition NormalizeGroupName (name : string) : string := to_lower (trim_space name).

Definition seededDeviceEnrolmentSentinel : string := "seeded:assumed-enrolled".
Definition blankEntry (k : string) : Entry := mkEntry k false "" "" "" "" "" "" 0 0 "" "" "".

(** ** Saving and loading ([persistence.go]) *)

(** The ledger, what is stored, and whether the save is confirmed. *)
Definition persistCheckedLocked (l : Ledger) (stored : option payload) (w : write_outcome)
    : Ledger * option payload * bool :=
  match persister l with
  | Memory => (l, stored, true)
  | _ =>
      if persistBlocked l then (l, stored, false)
      else
        let stored := diskAfter w stored (marshal (mkStateFile enrolledInventoryStateSchemaVersion (entries l) (groups l))) in
        match w with Written => (l <| snapshotKnown := true |>, stored, true) | _ => (l, stored, false) end
  end.

(** [loaded] is what [Load] answers: an error, nothing, or a payload. *)
Definition loadLocked (l : Ledger) (loaded : option (option payload)) : Ledger * bool :=
  match persister l with
  | Memory => (l, true)
  | _ =>
      match loaded with
      | None => (l, false)
      | Some None => (l, negb (snapshotKnown l || persistBlocked l))
      | Some (Some data) =>
          match decodeInventorySnapshot data with
          | None => (l, false)
          | Some f =>
              let same := bool_decide (entries l = sf_Entries f) && bool_decide (groups l = sf_Groups f) in
              let l' := l <| entries := sf_Entries f |> <| groups := sf_Groups f |> <| snapshotKnown := true |> in
              (if same then l' else bump l', true)
          end
      end
  end.

Definition SetPersisterChecked (l : Ledger) (p : backing) (loaded : option (option payload)) : Ledger * bool :=
  let l := l <| persister := p |> in
  match p with
  | Memory => (l, true)
  | _ => let '(l, ok) := loadLocked l loaded in (l <| persistBlocked := negb ok |>, ok)
  end.

Definition ReloadFromStore (l : Ledger) (loaded : option (option payload)) : Ledger * bool :=
  let '(l, ok) := loadLocked l loaded in (l <| persistBlocked := negb ok |>, ok).

(** ** Reading ([ledger.go]) *)

Definition ConfigGeneration (l : Ledger) : Z := generation l.
Definition EntryFor (l : Ledger) (id : string) : option Entry := entries l !! NormalizeIdentity id.

Definition IsAdmitted (l : Ledger) (id : string) : bool :=
  match EntryFor l id with Some e => en_Enabled e | None => false end.
Definition IsRefused (l : Ledger) (id : string) : bool :=
  match EntryFor l id with Some e => negb (en_Enabled e) | None => false end.
Definition IsExplicitlyDisabled (l : Ledger) (id : string) : bool :=
  match EntryFor l id with Some e => negb (en_Enabled e) | None => false end.

Definition GroupFor (l : Ledger) (id : string) : option string := en_Group <$> EntryFor l id.

Definition allEntries (l : Ledger) : list Entry := snd <$> map_to_list (entries l).

Definition CountAdmitted (l : Ledger) (tenantID : string) : nat :=
  let want := trim_space tenantID in
  length (List.filter (fun e => en_Enabled e && (is_empty want || sameGroupTenant (trim_space (en_TenantID e)) want))
    (allEntries l)).

Definition CountUntenanted (l : Ledger) : nat :=
  length (List.filter (fun e => negb (isTombstone e) && en_Enabled e && is_blank (en_TenantID e)) (allEntries l)).

Definition CountTenantRecords (l : Ledger) (tenantID : string) : nat :=
  length (List.filter (fun e => sameGroupTenant (trim_space (en_TenantID e)) (trim_space tenantID)) (allEntries l)).

Definition Tenants (l : Ledger) : list string :=
  sort_strings (elements (list_to_set (List.filter nonempty
    ((fun e => trim_space (en_TenantID e)) <$> List.filter (fun e => negb (isTombstone e)) (allEntries l))) : gset string)).

Definition byIdentity (es : list Entry) : list Entry :=
  sort_stable (fun a b => String.ltb (en_Identity a) (en_Identity b)) es.

Definition List (l : Ledger) : list Entry := byIdentity (List.filter (fun e => negb (isTombstone e)) (allEntries l)).
Definition Authoritative (l : Ledger) : list Entry := byIdentity (allEntries l).
Definition Endpoints (l : Ledger) : list Entry :=
  byIdentity (List.filter (fun e => negb (isTombstone e) && IsEndpoint e) (allEntries l)).

(** [pki_snapshot.go]: [None] is an error. *)
Definition DecodePKIPopulation (raw : payload) : option (list Entry) :=
  f ← decodeInventorySnapshot raw;
  Some (byIdentity (List.filter (fun e => negb (isTombstone e)) (snd <$> map_to_list (sf_Entries f)))).

(** ** Seeding *)

Definition SeedFromStatic (l : Ledger) (ids : list string) (now : string) : Ledger :=
  foldl (fun l id =>
      let k := NormalizeIdentity id in
      if is_empty k then l
      else match entries l !! k with
           | Some _ => l
           | None => put k ((blankEntry k) <| en_Enabled := true |> <| en_EnrolledAt := now |> <| en_UpdatedAt := now |>
                              <| en_Note := "seeded_from_static_inventory" |>
                              <| en_DeviceEnrolledAt := seededDeviceEnrolmentSentinel |>) l
           end) l ids.

(** ** Enrolling *)

Definition enrollGroupMutateLocked (l : Ledger) (k tenantID group note now : string) (mayReEnable : bool)
    (complete : Entry → Entry) : Ledger * result error Entry :=
  let start :=
    match entries l !! k with
    | None => Ok ((blankEntry k) <| en_EnrolledAt := now |>)
    | Some e =>
        if isTombstone e then Err ErrIdentityRemoved
        else if negb (en_Enabled e) && negb mayReEnable then Err ErrIdentityDisabled
        else Ok e
    end in
  match start with
  | Err err => (l, Err err)
  | Ok e =>
      let e := e <| en_Enabled := true |> <| en_TenantID := trim_space tenantID |> in
      let g := trim_space group in
      let e := if nonempty g then e <| en_Group := g |> else e in
      let e := if is_blank note then e else e <| en_Note := trim_space note |> in
      let e := complete (e <| en_UpdatedAt := now |>) in
      (bump (put k e l), Ok e)
  end.

(** The edit and its save; an entry beside an error was applied but not confirmed. *)
Definition enrollGroupLocked (l : Ledger) (stored : option payload) (w : write_outcome)
    (k tenantID group note now : string) (mayReEnable : bool)
    : Ledger * option payload * (option Entry * option error) :=
  match enrollGroupMutateLocked l k tenantID group note now mayReEnable (fun e => e) with
  | (l', Err err) => (l', stored, (None, Some err))
  | (l', Ok e) =>
      let '(l'', stored', ok) := persistCheckedLocked l' stored w in
      (l'', stored', (Some e, if ok then None else Some SaveFailed))
  end.

Definition enrollGroup l stored w id tenantID group note now mayReEnable :=
  let k := NormalizeIdentity id in
  if is_empty k then (l, stored, (None, Some IdentityRequired))
  else enrollGroupLocked l stored w k tenantID group note now mayReEnable.

Definition EnrollGroup l stored w id tenantID group note now := enrollGroup l stored w id tenantID group note now true.
Definition Enroll l stored w id tenantID note now := EnrollGroup l stored w id tenantID "" note now.
Definition EnrollGroupUnlessDisabled l stored w id tenantID group note now :=
  enrollGroup l stored w id tenantID group note now false.

Definition EnrollGroupForTenant (l : Ledger) (stored : option payload) (w : write_outcome)
    (id claimant assignTo group note now : string) (adoptUnassigned : bool)
    : Ledger * option payload * (option Entry * option error) :=
  let k := NormalizeIdentity id in
  if is_empty k then (l, stored, (None, Some IdentityRequired))
  else
    let refused :=
      match entries l !! k with
      | Some e =>
          if is_blank claimant then None
          else let owner := trim_space (en_TenantID e) in
            if is_empty owner && negb adoptUnassigned then Some ErrIdentityUnassigned
            else if nonempty owner && negb (sameGroupTenant owner (trim_space claimant))
            then Some ErrIdentityOwnedByAnotherTenant else None
      | None => None
      end in
    match refused with
    | Some err => (l, stored, (None, Some err))
    | None => enrollGroupLocked l stored w k assignTo group note now true
    end.

(** *** The machine behind a name *)

Definition identityForMachineLocked `{MapOrder} (l : Ledger) (machineRef except : string) : option string :=
  if is_empty machineRef then None
  else fst <$> List.find (fun row =>
         negb (String.eqb row.1 except) && is_blank (en_RemovedAt row.2) && negb (is_blank (en_DeviceEnrolledAt row.2))
         && String.eqb (NormalizeMachineRef (en_MachineRef row.2)) machineRef) (iterate (map_to_list (entries l))).

Definition alreadyEnrolledReasonLocked (e : Entry) (machineRef : string) : error :=
  let known := NormalizeMachineRef (en_MachineRef e) in
  if is_empty machineRef || is_empty known then ErrIdentityAlreadyEnrolled
  else if String.eqb known machineRef then ErrSameMachineAlreadyEnrolled
  else ErrDifferentMachineSameName.

(** The refusals of a device's enrolment that this ledger can give by itself. *)
Definition localRefusal (l : Ledger) (k tenantID machineRef : string) : option error :=
  match entries l !! k with
  | None => None
  | Some e =>
      let owner := trim_space (en_TenantID e) in
      if negb (en_Enabled e) then Some ErrIdentityDisabled
      else if nonempty owner && negb (is_blank tenantID) && negb (sameGroupTenant owner (trim_space tenantID))
      then Some ErrIdentityOwnedByAnotherTenant
      else if is_blank (en_DeviceEnrolledAt e) then None
      else Some (alreadyEnrolledReasonLocked e machineRef)
  end.

Definition WouldRefuseEnrolment `{MapOrder} (l : Ledger) (id tenantID machineRef : string) : option error :=
  let k := NormalizeIdentity id in
  if is_empty k then Some IdentityRequired
  else
    let machineRef := NormalizeMachineRef machineRef in
    match identityForMachineLocked l machineRef k with
    | Some other => Some (ErrMachineEnrolledUnderAnotherName other)
    | None => localRefusal l k tenantID machineRef
    end.

(** *** A device enrols *)

Inductive claim_answer := Claimed | NotClaimed | ClaimError.

(** [IdentityClaimer]: what a shared store answers.  A release says whether it was confirmed. *)
Record IdentityClaimer := mkIdentityClaimer {
  ClaimIdentity : string → string → Z → claim_answer;
  ReleaseIdentity : string → string → Z → bool;
}.

(** A call to the claims store and the answer it gave. *)
Inductive claim_call :=
  | Claim (tenantID identity : string) (grant : Z) (answer : claim_answer)
  | Release (tenantID identity : string) (grant : Z) (released : bool).

Definition releaseCall (claimer : IdentityClaimer) (tenantID k : string) (grant : Z) : claim_call :=
  Release tenantID k grant (ReleaseIdentity claimer tenantID k grant).

(** The claims of removed entries are released one by one; a failure is only logged. *)
Definition releaseAll (claimer : option IdentityClaimer) (tenantID : string) (removed : gmap string Entry)
    (ids : list string) : list claim_call :=
  match claimer with
  | None => []
  | Some claimer =>
      (fun k => releaseCall claimer tenantID k (default 0 (en_ReenrolmentNonce <$> removed !! k))) <$> ids
  end.

Definition restoreEntry (l : Ledger) (k : string) (before : option Entry) : Ledger :=
  l <| entries := match before with Some e => <[k := e]> (entries l) | None => delete k (entries l) end |>.

Definition EnrollDeviceForTenantWithMachine `{MapOrder} (l : Ledger) (stored : option payload) (w : write_outcome)
    (claimer : option IdentityClaimer) (id tenantID group note now machineRef : string)
    : Ledger * option payload * list claim_call * result error Entry :=
  let k := NormalizeIdentity id in
  if is_empty k then (l, stored, [], Err IdentityRequired)
  else
    let machineRef := NormalizeMachineRef machineRef in
    match identityForMachineLocked l machineRef k with
    | Some other => (l, stored, [], Err (ErrMachineEnrolledUnderAnotherName other))
    | None =>
        match localRefusal l k tenantID machineRef with
        | Some err => (l, stored, [], Err err)
        | None =>
            let before := entries l !! k in
            let grant := match before with Some e => en_ReenrolmentNonce e | None => 0 end in
            let claim := match claimer with
                         | None => (Claimed, [], [])
                         | Some claimer =>
                             let answer := ClaimIdentity claimer tenantID k grant in
                             (answer, [Claim tenantID k grant answer], [releaseCall claimer tenantID k grant])
                         end in
            let '(answer, claims, release) := claim in
            match answer with
            | ClaimError => (l, stored, claims, Err ClaimFailed)
            | NotClaimed => (l, stored, claims, Err ErrIdentityClaimedElsewhere)
            | Claimed =>
                match enrollGroupMutateLocked l k tenantID group note now false (fun e =>
                        let e := e <| en_DeviceEnrolledAt := now |> <| en_DeviceEnrolledNonce := en_ReenrolmentNonce e |> in
                        if nonempty machineRef then e <| en_MachineRef := machineRef |> else e) with
                | (l', Err err) => (l', stored, claims ++ release, Err err)
                | (l', Ok e) =>
                    let '(l'', stored', ok) := persistCheckedLocked l' stored w in
                    if ok then (l'', stored', claims, Ok e)
                    else (restoreEntry l'' k before, stored', claims ++ release, Err SaveFailed)
                end
            end
        end
    end.

Definition EnrollDeviceForTenant `{MapOrder} l stored w claimer id tenantID group note now :=
  EnrollDeviceForTenantWithMachine l stored w claimer id tenantID group note now "".

(** *** A device that enrolled at another node *)

Definition recordEnrolmentReport (l : Ledger) (stored : option payload) (w : write_outcome)
    (id tenantID group note machineRef now : string) : Ledger * option payload * (option Entry * option error) :=
  let k := NormalizeIdentity id in
  if is_empty k then (l, stored, (None, Some IdentityRequired))
  else
    let before := entries l !! k in
    let refused :=
      match before with
      | Some e =>
          let owner := trim_space (en_TenantID e) in
          if negb (en_Enabled e) then Some ErrIdentityDisabled
          else if nonempty owner && negb (sameGroupTenant owner (trim_space tenantID))
          then Some ErrIdentityOwnedByAnotherTenant else None
      | None => None
      end in
    match refused with
    | Some err => (l, stored, (None, Some err))
    | None =>
        match enrollGroupMutateLocked l k tenantID group note now false (fun e =>
                let e := e <| en_DeviceEnrolledAt := now |> <| en_DeviceEnrolledNonce := en_ReenrolmentNonce e |> in
                if is_empty (NormalizeMachineRef (en_MachineRef e))
                then e <| en_MachineRef := NormalizeMachineRef machineRef |> else e) with
        | (l', Err err) => (l', stored, (None, Some err))
        | (l', Ok e) =>
            let '(l'', stored', ok) := persistCheckedLocked l' stored w in
            if ok then (l'', stored', (Some e, None))
            else (restoreEntry l'' k before, stored', (None, Some ErrInventorySave))
        end
    end.

Definition RecordEnrolmentDecidedElsewhere l stored w id tenantID group note now :=
  recordEnrolmentReport l stored w id tenantID group note "" now.

(** ** An administrator's decisions *)

(** The entry afterwards and before. *)
Definition AllowReenrolment (l : Ledger) (stored : option payload) (w : write_outcome) (id callerTenant now : string)
    : Ledger * option payload * (option (Entry * Entry) * option error) :=
  let k := NormalizeIdentity id in
  if is_empty k then (l, stored, (None, Some IdentityRequired))
  else match entries l !! k with
       | None => (l, stored, (None, Some ErrIdentityNotFound))
       | Some before =>
           let owner := trim_space (en_TenantID before) in
           if negb (is_blank callerTenant) && (is_empty owner || negb (sameGroupTenant owner (trim_space callerTenant)))
           then (l, stored, (None, Some ErrIdentityOwnedByAnotherTenant))
           else
             let e := before <| en_RemovedAt := "" |> <| en_Enabled := true |>
                        <| en_ReenrolmentNonce := wrap64 (en_ReenrolmentNonce before + 1) |>
                        <| en_DeviceEnrolledAt := "" |> <| en_MachineRef := "" |> <| en_UpdatedAt := now |> in
             let '(l', stored', ok) := persistCheckedLocked (bump (put k e l)) stored w in
             if ok then (l', stored', (Some (e, before), None))
             else (bump (put k before l'), stored', (None, Some SaveFailed))
       end.

Definition SetGroup (l : Ledger) (stored : option payload) (w : write_outcome) (id group now : string)
    : Ledger * option payload * (option Entry * option error) :=
  let k := NormalizeIdentity id in
  match entries l !! k with
  | Some e =>
      if isTombstone e then (l, stored, (None, None))
      else
        let e := e <| en_Group := trim_space group |> <| en_UpdatedAt := now |> in
        let '(l', stored', ok) := persistCheckedLocked (bump (put k e l)) stored w in
        (l', stored', (Some e, if ok then None else Some SaveFailed))
  | None => (l, stored, (None, None))
  end.

Definition SetKind (l : Ledger) (stored : option payload) (w : write_outcome) (id kind now : string)
    : Ledger * option payload * (option Entry * option error) :=
  if negb (ValidKind kind) then (l, stored, (None, Some UnknownKind))
  else
    let k := NormalizeIdentity id in
    match entries l !! k with
    | Some e =>
        if isTombstone e then (l, stored, (None, None))
        else
          let kind := trim_space (to_lower kind) in
          let e := e <| en_Kind := if String.eqb kind KindEndpoint then "" else kind |> <| en_UpdatedAt := now |> in
          let '(l', stored', ok) := persistCheckedLocked (bump (put k e l)) stored w in
          (l', stored', (Some e, if ok then None else Some SaveFailed))
    | None => (l, stored, (None, None))
    end.

(** Neither an entry nor an error: the identity is not in the ledger. *)
Definition setEnabledForTenant (l : Ledger) (stored : option payload) (w : write_outcome) (id tenant : string)
    (enabled : bool) (now : string) : Ledger * option payload * (option Entry * option error) :=
  let k := NormalizeIdentity id in
  match entries l !! k with
  | Some before =>
      if isTombstone before
         || negb (is_blank tenant) && negb (sameGroupTenant (trim_space (en_TenantID before)) (trim_space tenant))
      then (l, stored, (None, None))
      else
        let e := before <| en_Enabled := enabled |> <| en_UpdatedAt := now |> in
        let '(l', stored', ok) := persistCheckedLocked (bump (put k e l)) stored w in
        if ok then (l', stored', (Some e, None))
        else (bump (put k before l'), stored', (None, Some SaveFailed))
  | None => (l, stored, (None, None))
  end.

Definition setEnabled l stored w id enabled now := setEnabledForTenant l stored w id "" enabled now.

Definition SetEnabledChecked l stored w id enabled now : Ledger * option payload * result error Entry :=
  let '(l', stored', (e, err)) := setEnabled l stored w id enabled now in
  (l', stored', match e, err with
                | Some e, _ => Ok e
                | None, Some _ => Err SaveFailed
                | None, None => Err ErrIdentityNotFound
                end).

(** *** Removals *)

Definition tombstoneLifetime : Z := 90 * 24 * 3600 * second.

Definition expiredTombstone (at_ : Z) (e : Entry) : bool :=
  isTombstone e &&
  match parse_rfc3339 (trim_space (en_RemovedAt e)) with
  | Some removedAt => tombstoneLifetime <? at_ - removedAt
  | None => false
  end.

Definition purgeExpiredTombstonesLocked (l : Ledger) (now : string) : Ledger :=
  match parse_rfc3339 (trim_space now) with
  | None => l
  | Some at_ => l <| entries := filter (fun row => expiredTombstone at_ row.2 = false) (entries l) |>
  end.

(** On an error the entry is the one that was there. *)
Definition RemoveChecked (l : Ledger) (stored : option payload) (w : write_outcome) (id now : string)
    : Ledger * option payload * (option Entry * option error) :=
  let k := NormalizeIdentity id in
  match entries l !! k with
  | Some removed =>
      if isTombstone removed then (l, stored, (None, Some ErrIdentityNotFound))
      else
        let tomb := (blankEntry (en_Identity removed)) <| en_TenantID := en_TenantID removed |>
                      <| en_RemovedAt := now |> <| en_UpdatedAt := now |> in
        let '(l', stored', ok) := persistCheckedLocked (purgeExpiredTombstonesLocked (put k tomb l) now) stored w in
        if ok then (bump l', stored', (Some tomb, None))
        else (l' <| entries := entries l |>, stored', (Some removed, Some SaveFailed))
  | None => (l, stored, (None, Some ErrIdentityNotFound))
  end.

Definition ofTenant (tenantID : string) (e : Entry) : bool := sameGroupTenant (trim_space (en_TenantID e)) tenantID.

(** The identities removed, sorted, and the claims released for them. *)
Definition RemoveTenantChecked (l : Ledger) (stored : option payload) (w : write_outcome) (claimer : option IdentityClaimer)
    (tenantID : string) : Ledger * option payload * list claim_call * (list string * option error) :=
  let tenantID := trim_space tenantID in
  if is_empty tenantID then (l, stored, [], ([], None))
  else
    let removed := filter (fun row => ofTenant tenantID row.2 = true) (entries l) in
    if bool_decide (removed = ∅) then (l, stored, [], ([], None))
    else
      let '(l', stored', ok) := persistCheckedLocked (l <| entries := entries l ∖ removed |>) stored w in
      if ok then
        let out := sort_strings (elements (dom removed)) in
        (bump l', stored',
         releaseAll claimer tenantID removed out, (out, None))
      else (l' <| entries := removed ∪ entries l' |>, stored', [], ([], Some SaveFailed)).

(** [tenant_retirement.go] *)
Definition retired (tenantID now : string) (e : Entry) : Entry :=
  if ofTenant tenantID e && negb (isTombstone e && negb (en_Enabled e)) then
    (blankEntry (en_Identity e)) <| en_TenantID := en_TenantID e |> <| en_RemovedAt := now |> <| en_UpdatedAt := now |>
      <| en_ReenrolmentNonce := en_ReenrolmentNonce e |>
  else e.

Definition RetireTenantChecked (l : Ledger) (stored : option payload) (w : write_outcome) (tenantID now : string)
    : Ledger * option payload * (Z * option error) :=
  if is_blank tenantID then (l, stored, (0, None))
  else match parse_rfc3339 now with
       | None => (l, stored, (0, Some InvalidTime))
       | Some _ =>
           if persistBlocked l then (l, stored, (0, Some RestoreFailed))
           else
             let n := Z.of_nat (CountTenantRecords l tenantID) in
             let after := retired (trim_space tenantID) now <$> entries l in
             let changed := existsb (fun e => ofTenant (trim_space tenantID) e
                              && negb (isTombstone e && negb (en_Enabled e))) (allEntries l) in
             let l := if changed then bump (l <| entries := after |>) else l in
             if 0 <? n then
               let '(l', stored', ok) := persistCheckedLocked l stored w in
               (l', stored', if ok then (n, None) else (0, Some SaveFailed))
             else (l, stored, (n, None))
       end.

(** ** The control plane's copy *)

(** The entry a bundle brings, with what only this node knows. *)
Definition mergeEntry (prev : option Entry) (k now : string) (e : Entry) : Entry :=
  let e := e <| en_Identity := k |> in
  let e := if is_blank (en_UpdatedAt e) then e <| en_UpdatedAt := now |> else e in
  match prev with
  | Some prev =>
      if negb (is_blank (en_DeviceEnrolledAt prev)) && (en_ReenrolmentNonce e <=? en_DeviceEnrolledNonce prev) then
        let e := e <| en_DeviceEnrolledAt := en_DeviceEnrolledAt prev |>
                   <| en_DeviceEnrolledNonce := en_DeviceEnrolledNonce prev |> in
        if is_blank (en_MachineRef e) then e <| en_MachineRef := en_MachineRef prev |> else e
      else e
  | None => e
  end.

Definition mergedEntries (local : gmap string Entry) (incoming : list Entry) (now : string) : gmap string Entry :=
  foldl (fun fresh e =>
      let k := NormalizeIdentity (en_Identity e) in
      if is_empty k then fresh else <[k := mergeEntry (local !! k) k now e]> fresh) ∅ incoming.

(** The enrolments the bundle does not name, and the error. *)
Definition mergeAuthoritative (l : Ledger) (stored : option payload) (w : write_outcome) (incoming : list Entry)
    (now : string) : Ledger * option payload * (list string * option error) :=
  let fresh := mergedEntries (entries l) incoming now in
  let dropped := sort_strings (fst <$> List.filter (fun row =>
      negb (is_blank (en_DeviceEnrolledAt row.2)) && negb (bool_decide (is_Some (fresh !! row.1)))) (map_to_list (entries l))) in
  let '(l', stored', ok) := persistCheckedLocked (bump (l <| entries := fresh |>)) stored w in
  if ok then (l', stored', (dropped, None))
  else (bump (l' <| entries := entries l |>), stored', ([], Some SaveFailed)).

Definition MergeAuthoritative l stored w incoming now :=
  let '(l', stored', (_, err)) := mergeAuthoritative l stored w incoming now in (l', stored', err).

Definition ReplaceAll (l : Ledger) (stored : option payload) (w : write_outcome) (incoming : list Entry) (now : string)
    : Ledger * option payload :=
  (persistCheckedLocked (bump (l <| entries := mergedEntries ∅ incoming now |>)) stored w).1.

(** What an issuing node said of the machine behind a name: recorded once. *)
Definition RecordReportedMachine (l : Ledger) (stored : option payload) (w : write_outcome) (id machineRef now : string)
    : Ledger * option payload * option error :=
  let k := NormalizeIdentity id in
  let ref := NormalizeMachineRef machineRef in
  if is_empty k || is_empty ref then (l, stored, None)
  else match entries l !! k with
       | Some before =>
           if negb (is_blank (en_RemovedAt before)) || nonempty (NormalizeMachineRef (en_MachineRef before))
           then (l, stored, None)
           else
             let e := before <| en_MachineRef := ref |> <| en_UpdatedAt := now |> in
             let '(l', stored', ok) := persistCheckedLocked (bump (put k e l)) stored w in
             if ok then (l', stored', None) else (bump (put k before l'), stored', Some SaveFailed)
       | None => (l, stored, None)
       end.

(** [BackfillIdentityClaims]: what is offered to the shared claims, in some order. *)
Definition BackfillIdentityClaims `{MapOrder} (l : Ledger) : list (string * string * Z) :=
  (fun row => (en_TenantID row.2, row.1, en_ReenrolmentNonce row.2)) <$>
    List.filter (fun row => negb (isTombstone row.2) && negb (is_blank (en_DeviceEnrolledAt row.2)))
      (iterate (map_to_list (entries l))).

(** ** Groups ([groups.go]) *)

Definition groupNamed (l : Ledger) (tenantID key : string) (g : Group) : bool :=
  sameGroupTenant (gr_TenantID g) tenantID && String.eqb (NormalizeGroupName (gr_Name g)) key.

(** [newID] is what [newGroupID] draws, or its error. *)
Definition CreateGroup (l : Ledger) (stored : option payload) (w : write_outcome) (newID : option string)
    (name tenantID description risk now : string) : Ledger * option payload * (option Group * option error) :=
  let n := trim_space name in
  if is_empty n then (l, stored, (None, Some GroupNameRequired))
  else if existsb (fun row => groupNamed l tenantID (NormalizeGroupName n) row.2) (map_to_list (groups l))
  then (l, stored, (None, Some GroupNameTaken))
  else match newID with
       | None => (l, stored, (None, Some SaveFailed))
       | Some id =>
           let g := mkGroup id (trim_space tenantID) n (trim_space description) (trim_space risk) now now in
           let '(l', stored', ok) := persistCheckedLocked (bump (l <| groups := <[id := g]> (groups l) |>)) stored w in
           (l', stored', (Some g, if ok then None else Some SaveFailed))
       end.

Definition ReplaceAllGroups (l : Ledger) (stored : option payload) (w : write_outcome) (gs : list Group) (now : string)
    : Ledger * option payload :=
  let fresh := foldl (fun fresh g =>
      if is_blank (gr_ID g) then fresh
      else <[gr_ID g := if is_blank (gr_UpdatedAt g) then g <| gr_UpdatedAt := now |> else g]> fresh) ∅ gs in
  (persistCheckedLocked (bump (l <| groups := fresh |>)) stored w).1.

Definition GroupByID (l : Ledger) (id : string) : option Group := groups l !! trim_space id.

Definition ListGroups (l : Ledger) : list Group :=
  sort_stable (fun a b => String.ltb (to_lower (gr_Name a)) (to_lower (gr_Name b))) (snd <$> map_to_list (groups l)).

Definition GroupRiskByName `{MapOrder} (l : Ledger) (tenantID name : string) : string :=
  let key := NormalizeGroupName name in
  if is_empty key then ""
  else match List.find (fun row => groupNamed l tenantID key row.2) (iterate (map_to_list (groups l))) with
       | Some row => gr_Risk row.2
       | None => ""
       end.

Definition GroupRiskForDevice `{MapOrder} (l : Ledger) (deviceID : string) : string :=
  match EntryFor l deviceID with
  | None => ""
  | Some e => GroupRiskByName l (en_TenantID e) (en_Group e)
  end.

(** A rename follows the devices of the group's own tenant. *)
Definition repoint (g : Group) (oldKey n now : string) (e : Entry) : Entry :=
  if sameGroupTenant (en_TenantID e) (gr_TenantID g) && String.eqb (NormalizeGroupName (en_Group e)) oldKey
  then e <| en_Group := n |> <| en_UpdatedAt := now |> else e.

Definition UpdateGroup (l : Ledger) (stored : option payload) (w : write_outcome) (id : string)
    (name description risk : option string) (now : string)
    : Ledger * option payload * (option (Group * nat) * option error) :=
  let key := trim_space id in
  match groups l !! key with
  | None => (l, stored, (None, Some GroupNotFound))
  | Some g =>
      let renamed : result error (Ledger * Group * nat) :=
        match name with
        | None => Ok (l, g, 0%nat)
        | Some name =>
            let n := trim_space name in
            if is_empty n then Err GroupNameRequired
            else if existsb (fun row => negb (String.eqb row.1 key) &&
                                groupNamed l (gr_TenantID g) (NormalizeGroupName n) row.2) (map_to_list (groups l))
            then Err GroupNameTaken
            else
              let oldKey := NormalizeGroupName (gr_Name g) in
              let g' := g <| gr_Name := n |> in
              if String.eqb oldKey (NormalizeGroupName n) then Ok (l, g', 0%nat)
              else Ok (l <| entries := repoint g oldKey n now <$> entries l |>, g',
                       length (List.filter (fun e => sameGroupTenant (en_TenantID e) (gr_TenantID g)
                                 && String.eqb (NormalizeGroupName (en_Group e)) oldKey) (allEntries l)))
        end in
      match renamed with
      | Err err => (l, stored, (None, Some err))
      | Ok (l1, g, reassigned) =>
          let g := match description with Some d => g <| gr_Description := trim_space d |> | None => g end in
          let g := match risk with Some r => g <| gr_Risk := trim_space r |> | None => g end in
          let g := g <| gr_UpdatedAt := now |> in
          let '(l', stored', ok) := persistCheckedLocked (bump (l1 <| groups := <[key := g]> (groups l1) |>)) stored w in
          (l', stored', (Some (g, reassigned), if ok then None else Some SaveFailed))
      end
  end.

Definition DeleteGroup (l : Ledger) (stored : option payload) (w : write_outcome) (id : string)
    : Ledger * option payload * (bool * option error) :=
  let key := trim_space id in
  match groups l !! key with
  | None => (l, stored, (false, None))
  | Some _ =>
      let '(l', stored', ok) := persistCheckedLocked (bump (l <| groups := delete key (groups l) |>)) stored w in
      (l', stored', (true, if ok then None else Some SaveFailed))
  end.

(** ** Edits of a shared row ([context_lifecycle.go], [context_writes.go], [context_erasure.go])

    A rule of the ledger: what it does to a ledger, what is stored, and its results. *)

Definition rule (A : Type) := Ledger → option payload → write_outcome → Ledger * option payload * (A * option error).

(** The private copy a rule runs on: the latest row, or this process's own state before any. *)
Definition sharedCandidate (l : Ledger) (stored : option payload) : option Ledger :=
  match stored with
  | None => if snapshotKnown l then None else Some (NewLedger <| entries := entries l |> <| groups := groups l |>)
  | Some raw => f ← decodeInventorySnapshot raw; Some (NewLedger <| entries := sf_Entries f |> <| groups := sf_Groups f |>)
  end.

Definition publish (l candidate : Ledger) : Ledger :=
  bump (l <| entries := entries candidate |> <| groups := groups candidate |> <| snapshotKnown := true |>).

(** [mutateShared]: also what the callback's variables hold when it ran, and whether the store
    is a shared one. *)
Definition mutateShared {A} (l : Ledger) (stored : option payload) (w : write_outcome) (edit : rule A)
    : Ledger * option payload * (option A * bool * option error) :=
  match persister l with
  | Updating =>
      if persistBlocked l then (l, stored, (None, true, Some ErrInventorySave))
      else match w, sharedCandidate l stored with
           | Unavailable, _ | _, None => (l, stored, (None, true, Some ErrInventorySave))
           | _, Some c =>
               let '(c', _, (a, err)) := edit c None Written in
               match err with
               | Some err => (l, stored, (Some a, true, Some err))
               | None =>
                   let stored' := diskAfter w stored (marshal (mkStateFile enrolledInventoryStateSchemaVersion (entries c') (groups c'))) in
                   match w with
                   | Written => (publish l c', stored', (Some a, true, None))
                   | _ => (l, stored', (Some a, true, Some ErrInventorySave))
                   end
               end
           end
  | _ =>
      let '(l', stored', (a, err)) := edit l stored w in (l', stored', (Some a, false, err))
  end.

(** The results of an operation on a shared row are cleared beside an error. *)
Definition viaShared {A} (zero : A) (l : Ledger) (stored : option payload) (w : write_outcome) (edit : rule A)
    : Ledger * option payload * (A * option error) :=
  let '(l', stored', (a, shared, err)) := mutateShared l stored w edit in
  (l', stored', (match err with Some _ => if shared then zero else default zero a | None => default zero a end, err)).

Definition ownedEntry (l : Ledger) (id tenant : string) : option error :=
  match EntryFor l id with
  | Some e => if negb (is_blank tenant) && negb (sameGroupTenant (en_TenantID e) tenant) then Some ErrIdentityNotFound else None
  | None => Some ErrIdentityNotFound
  end.

Definition ownedGroup (l : Ledger) (id tenant : string) : result error Group :=
  match GroupByID l id with
  | Some g => if negb (is_blank tenant) && negb (sameGroupTenant (gr_TenantID g) tenant) then Err ErrIdentityNotFound else Ok g
  | None => Err ErrIdentityNotFound
  end.

(** [if e := ownedEntry(...); e != nil { return e }], then the rule. *)
Definition ifOwned {A} (zero : A) (id tenant : string) (edit : rule A) : rule A := fun c stored w =>
  match ownedEntry c id tenant with Some err => (c, stored, (zero, Some err)) | None => edit c stored w end.

Definition EnrollGroupForTenantContext l stored w id claimant assignTo group note now adopt :=
  viaShared None l stored w (fun c s w => EnrollGroupForTenant c s w id claimant assignTo group note now adopt).

Definition AllowReenrolmentContext l stored w id tenant now :=
  viaShared None l stored w (fun c s w => AllowReenrolment c s w id tenant now).

(** An absent device is an error here. *)
Definition foundOr (r : Ledger * option payload * (option Entry * option error)) :=
  match r with
  | (l, s, (None, None)) => (l, s, (None, Some ErrIdentityNotFound))
  | _ => r
  end.

Definition SetGroupContext l stored w id tenant group now :=
  viaShared None l stored w (ifOwned None id tenant (fun c s w => foundOr (SetGroup c s w id group now))).

Definition SetKindContext l stored w id tenant kind now :=
  viaShared None l stored w (ifOwned None id tenant (fun c s w => SetKind c s w id kind now)).

Definition RemoveCheckedContext l stored w id tenant now :=
  viaShared None l stored w (ifOwned None id tenant (fun c s w => RemoveChecked c s w id now)).

Definition RecordReportedMachineContext l stored w id tenant ref now :=
  viaShared tt l stored w (ifOwned tt id tenant (fun c s w =>
    let '(c', s', err) := RecordReportedMachine c s w id ref now in (c', s', (tt, err)))).

Definition CreateGroupContext l stored w newID name tenant description risk now :=
  viaShared None l stored w (fun c s w => CreateGroup c s w newID name tenant description risk now).

Definition UpdateGroupContext l stored w id tenant name description risk now :=
  viaShared None l stored w (fun c s w =>
    match ownedGroup c id tenant with
    | Err err => (c, s, (None, Some err))
    | Ok _ => UpdateGroup c s w id name description risk now
    end).

Definition DeleteGroupContext (l : Ledger) (stored : option payload) (w : write_outcome) (id tenant : string) (force : bool) :=
  viaShared false l stored w (fun c s w =>
    match ownedGroup c id tenant with
    | Err err => (c, s, (false, Some err))
    | Ok g =>
        if negb force && existsb (fun e => sameGroupTenant (en_TenantID e) (gr_TenantID g)
                             && String.eqb (NormalizeGroupName (en_Group e)) (NormalizeGroupName (gr_Name g))) (List c)
        then (c, s, (false, Some ErrGroupAssigned))
        else DeleteGroup c s w id
    end).

Definition RecordEnrolmentReportContext l stored w id tenant group note machineRef now :=
  viaShared None l stored w (fun c s w => recordEnrolmentReport c s w id tenant group note machineRef now).

(** The disable of a shared row starts from the row alone. *)
Definition SetEnabledContext (l : Ledger) (stored : option payload) (w : write_outcome) (id tenant : string)
    (enabled : bool) (now : string) : Ledger * option payload * result error Entry :=
  match persister l with
  | Updating =>
      if persistBlocked l then (l, stored, Err ErrInventoryLoad)
      else match w, (stored ≫= decodeInventorySnapshot) with
           | Unavailable, _ | _, None => (l, stored, Err SaveFailed)
           | _, Some f =>
               let k := NormalizeIdentity id in
               match sf_Entries f !! k with
               | None => (l, stored, Err ErrIdentityNotFound)
               | Some e =>
                   if isTombstone e
                      || negb (is_blank tenant) && negb (sameGroupTenant (trim_space (en_TenantID e)) (trim_space tenant))
                   then (l, stored, Err ErrIdentityNotFound)
                   else
                     let e := e <| en_Enabled := enabled |> <| en_UpdatedAt := now |> in
                     let f := mkStateFile enrolledInventoryStateSchemaVersion (<[k := e]> (sf_Entries f)) (sf_Groups f) in
                     let stored' := diskAfter w stored (marshal f) in
                     match w with
                     | Written => (bump (l <| entries := sf_Entries f |> <| groups := sf_Groups f |> <| snapshotKnown := true |>),
                                   stored', Ok e)
                     | _ => (l, stored', Err SaveFailed)
                     end
               end
           end
  | _ =>
      let '(l', stored', (e, err)) := setEnabledForTenant l stored w id tenant enabled now in
      (l', stored', match err, e with
                    | Some _, _ => Err SaveFailed
                    | None, None => Err ErrIdentityNotFound
                    | None, Some e => Ok e
                    end)
  end.

Definition RemoveTenantContext (l : Ledger) (stored : option payload) (w : write_outcome) (claimer : option IdentityClaimer) (tenant : string)
    : Ledger * option payload * list claim_call * (list string * option error) :=
  let tenant := trim_space tenant in
  if is_empty tenant then (l, stored, [], ([], None))
  else match persister l with
       | Updating =>
           let '(l', stored', (a, _, err)) := mutateShared l stored w (fun c s w =>
             let removed := filter (fun row => ofTenant tenant row.2 = true) (entries c) in
             let '(c', s', _, (ids, err)) := RemoveTenantChecked c s w None tenant in (c', s', ((removed, ids), err))) in
           match err with
           | Some err => (l', stored', [], ([], Some err))
           | None =>
               let '(removed, ids) := default (∅, []) a in
               (l', stored',
                releaseAll claimer tenant removed ids, (ids, None))
           end
       | _ => let '(l', stored', calls, (ids, err)) := RemoveTenantChecked l stored w claimer tenant in
              (l', stored', calls, (match err with Some _ => [] | None => ids end, err))
       end.

(** A retirement whose commit is unknown still refuses the devices here. *)
Definition retireLocally (l : Ledger) (es : list Entry) : Ledger :=
  let '(l', changed) := foldl (fun acc e =>
      match entries acc.1 !! en_Identity e with
      | Some current =>
          if sameGroupTenant (en_TenantID current) (en_TenantID e)
             && (en_ReenrolmentNonce current =? en_ReenrolmentNonce e) && (negb (isTombstone current) || en_Enabled current)
          then (put (en_Identity e) e acc.1, true) else acc
      | None => acc
      end) (l, false) es in
  if changed then bump l' else l'.

Definition RetireTenantContext (l : Ledger) (stored : option payload) (w : write_outcome) (tenant now : string)
    : Ledger * option payload * (Z * option error) :=
  if is_blank tenant then (l, stored, (0, None))
  else
    let '(l', stored', (a, shared, err)) := mutateShared l stored w (fun c s w =>
      let '(c', s', (n, err)) := RetireTenantChecked c s w tenant now in
      (c', s', ((n, match err with
                    | None => List.filter (ofTenant (trim_space tenant)) (Authoritative c')
                    | Some _ => []
                    end), err))) in
    match err with
    | Some err => if shared then (retireLocally l' (default [] (snd <$> a)), stored', (0, Some err))
                  else (l', stored', (default 0 (fst <$> a), Some err))
    | None => (l', stored', (default 0 (fst <$> a), None))
    end.

(** ** The ledger of the transport door *)

#[export] Instance ledgerOfDoor : TransportDoor.DeviceLedger Ledger := {
  TransportDoor.IsAdmitted := IsAdmitted;
  TransportDoor.EntryTenant l id := en_TenantID <$> EntryFor l id;
}.

Lemma NormalizeIdentity_idemp id : NormalizeIdentity (NormalizeIdentity id) = NormalizeIdentity id.
Proof. apply Admission.normalizeIdentity_idemp. Qed.

#[export] Instance ledgerOfDoor_laws : TransportDoor.DeviceLedgerLaws Ledger.
Proof.
  assert (∀ l id, EntryFor l (Admission.normalizeIdentity id) = EntryFor l id) as Hnorm.
  { intros l id. unfold EntryFor. by rewrite <- (NormalizeIdentity_idemp id). }
  split; intros l id; cbn; unfold IsAdmitted; rewrite ?Hnorm; [done..|]. by destruct (EntryFor l id).
Qed.

End EnrolledLedger.
