(* ===== verification/IdentityClaims.v ===== *)
(** * The shared claims on device identities ([src/cmd/dsse-edge/enrolled_identity_claim_postgres.go])

    The table in which every issuer of certificates takes the one-time claim on a name: a row
    per organisation and name, with the permission it was taken under and the node that took
    it.  A statement may not reach the database, or its answer may be lost on the way back.
    The last part runs the calls a ledger made ([claim_call]) on the table. *)

From stdpp Require Import base gmap list strings.
From S2P Require Import Prelude Trimmed GoStd Persistence InventorySnapshot EnrolledLedger.
Import EnrolledLedger.

Open Scope Z_scope.

Module IdentityClaims.

Record postgresEnrolledIdentityClaims := mkClaims {
  db : bool;
  nodeID : string;
}.

(** Organisation and name, to the permission of the claim and its owner. *)
Notation claimTable := (gmap (string * string) (Z * string)).

(** What becomes of a statement: it is executed and answered, it never ran, or it was
    executed and the answer was lost. *)
Inductive statement := Answered | NotRun | AnswerLost.

Definition canonicalClaimTenant (tenantID : string) : string := trim_space tenantID.

Definition claimRow (tenantID identity : string) : string * string :=
  (canonicalClaimTenant tenantID, to_lower (trim_space identity)).

(** [ON CONFLICT ... WHERE reenrolment_grant < EXCLUDED.reenrolment_grant] *)
Definition claimable (t : claimTable) (row : string * string) (grant : Z) : bool :=
  match t !! row with Some (standing, _) => standing <? grant | None => true end.

Definition takeClaim (t : claimTable) (row : string * string) (grant : Z) (by_ : string) : claimTable * bool :=
  if claimable t row grant then (<[row := (grant, by_)]> t, true) else (t, false).

Definition ClaimIdentity (c : postgresEnrolledIdentityClaims) (t : claimTable) (s : statement)
    (tenantID identity : string) (grant : Z) : claimTable * claim_answer :=
  if negb (db c) then (t, ClaimError)
  else if is_empty (trim_space identity) then (t, ClaimError)
  else
    let '(t', n) := takeClaim t (claimRow tenantID identity) grant (nodeID c) in
    match s with
    | Answered => (t', if n then Claimed else NotClaimed)
    | NotRun => (t, ClaimError)
    | AnswerLost => (t', ClaimError)
    end.

(** Whether the release was confirmed; a row of another permission or node is not touched. *)
Definition ReleaseIdentity (c : postgresEnrolledIdentityClaims) (t : claimTable) (s : statement)
    (tenantID identity : string) (grant : Z) : claimTable * bool :=
  if negb (db c) then (t, false)
  else
    let row := claimRow tenantID identity in
    let t' := if decide (t !! row = Some (grant, nodeID c)) then delete row t else t in
    match s with
    | Answered => (t', true)
    | NotRun => (t, false)
    | AnswerLost => (t', false)
    end.

(** The transaction of [BackfillClaims]: it may fail to begin, at a claim, or at its commit,
    which may still have happened. *)
Inductive backfill := BeginFails | ClaimFails (before : nat) | CommitFails | CommitLost | Committed.

Definition backfillRows (c : postgresEnrolledIdentityClaims) (t : claimTable) (claims : list (string * string * Z))
    : claimTable * Z :=
  foldl (fun '(t, n) '(tenant, identity, grant) =>
           let '(t', taken) := takeClaim t (claimRow tenant identity) grant (nodeID c +:+ " (backfill)") in
           (t', if taken then n + 1 else n)) (t, 0) claims.

Definition BackfillClaims (c : postgresEnrolledIdentityClaims) (t : claimTable) (b : backfill)
    (claims : list (string * string * Z)) : claimTable * (Z * bool) :=
  if negb (db c) then (t, (0, false))
  else match claims with
       | [] => (t, (0, true))
       | _ =>
           match b with
           | BeginFails => (t, (0, false))
           | ClaimFails before => (t, ((backfillRows c t (take before claims)).2, false))
           | CommitFails => (t, (0, false))
           | CommitLost => ((backfillRows c t claims).1, (0, false))
           | Committed => let '(t', n) := backfillRows c t claims in (t', (n, true))
           end
       end.

(** Who may declare the migration of a fleet finished, and why. *)
Definition identityClaimBarrierDecision (knownEnrolled : Z) (freshDeployment : bool) : string * bool :=
  if 0 <? knownEnrolled then ("backfilled from this node's enrolled inventory", true)
  else if freshDeployment then ("operator declared a new deployment with no fleet to migrate", true)
  else ("", false).

(** *** The calls of a ledger on the table *)

(** A call got its answer from the table. *)
Definition answered (c : postgresEnrolledIdentityClaims) (t : claimTable) (call : claim_call) (t' : claimTable) : Prop :=
  match call with
  | Claim tenantID identity grant answer => ∃ s, ClaimIdentity c t s tenantID identity grant = (t', answer)
  | Release tenantID identity grant released => ∃ s, ReleaseIdentity c t s tenantID identity grant = (t', released)
  end.

Definition held (c : postgresEnrolledIdentityClaims) (t : claimTable) (row : string * string) (grant : Z) : Prop :=
  t !! row = Some (grant, nodeID c).

(** Other nodes work on the same table, and never in this node's name. *)
Definition others (c : postgresEnrolledIdentityClaims) (t t' : claimTable) : Prop :=
  ∀ row grant, held c t' row grant → held c t row grant.

Inductive runs (c : postgresEnrolledIdentityClaims) : claimTable → list claim_call → claimTable → Prop :=
  | runs_nil t : runs c t [] t
  | runs_other t t' calls t'' : others c t t' → runs c t' calls t'' → runs c t calls t''
  | runs_call t call t' calls t'' : answered c t call t' → runs c t' calls t'' → runs c t (call :: calls) t''.

(** * Properties *)

Lemma take_held c t row grant by_ t' n row' grant' :
  takeClaim t row grant by_ = (t', n) → held c t' row' grant' →
  held c t row' grant' ∨ n = true ∧ row' = row ∧ grant' = grant.
Proof.
  unfold takeClaim, held. case_match; intros [= <- <-]; [|by left].
  destruct (decide (row' = row)) as [->|]; [|rewrite lookup_insert_ne by done; by left].
  rewrite lookup_insert_eq. intros [= <- _]. by right.
Qed.

(** What a claim adds: nothing, or its own row when it was granted or its answer is unknown. *)
Lemma claim_held c t s tenant k grant t' answer row grant' :
  ClaimIdentity c t s tenant k grant = (t', answer) → held c t' row grant' →
  held c t row grant' ∨ answer ≠ NotClaimed ∧ row = claimRow tenant k ∧ grant' = grant.
Proof.
  unfold ClaimIdentity. destruct (negb (db c)); [intros [= <- <-]; by left|].
  destruct (is_empty _); [intros [= <- <-]; by left|].
  destruct (takeClaim _ _ _ _) as [t1 n] eqn:Ht. pose proof (λ h, take_held c _ _ _ _ _ _ row grant' Ht h) as Hh.
  destruct s; intros [= <- <-] Hheld; [|by left|]; apply Hh in Hheld as [|(-> & -> & ->)]; auto.
Qed.

(** A release adds nothing, and once confirmed the claim is gone. *)
Lemma release_held c t s tenant k grant t' released row grant' :
  ReleaseIdentity c t s tenant k grant = (t', released) → held c t' row grant' →
  held c t row grant' ∧ (released = true → ¬ (row = claimRow tenant k ∧ grant' = grant)).
Proof.
  unfold ReleaseIdentity, held. destruct (negb (db c)); [by intros [= <- <-]|].
  assert (∀ t1, (t1 = if decide (t !! claimRow tenant k = Some (grant, nodeID c)) then delete (claimRow tenant k) t else t) →
    t1 !! row = Some (grant', nodeID c) → t !! row = Some (grant', nodeID c) ∧ ¬ (row = claimRow tenant k ∧ grant' = grant)) as Hd.
  { intros t1 ->. destruct (decide _) as [Hrow|Hrow].
    - intros [Hne Hl]%lookup_delete_Some. split; [done|]. by intros [-> _].
    - intros Hl. split; [done|]. intros [-> ->]. done. }
  destruct s; intros [= <- <-] Hl; [by destruct (Hd _ eq_refl Hl)|done|]. by destruct (Hd _ eq_refl Hl).
Qed.

(** A run of no call, and of one call after another. *)
Lemma runs_nil_held c t t' : runs c t [] t' → others c t t'.
Proof.
  remember [] as calls eqn:Hc. induction 1 as [t|t t1 calls t2 Ho _ IH|]; [by intros ? ?| |done].
  intros row grant Hh. by apply Ho, IH.
Qed.

Lemma runs_cons c t call calls t'' :
  runs c t (call :: calls) t'' → ∃ t1 t2, others c t t1 ∧ answered c t1 call t2 ∧ runs c t2 calls t''.
Proof.
  remember (call :: calls) as cs eqn:Hc. induction 1 as [|t t1 cs t2 Ho _ IH|t call' t1 cs t2 Ha Hr]; [done| |].
  - destruct (IH Hc) as (u1 & u2 & Ho' & Ha & Hr). exists u1, u2. split_and!; [|done|done].
    intros row grant Hh. by apply Ho, Ho'.
  - injection Hc as -> ->. exists t, t1. split_and!; [by intros ? ?|done|done].
Qed.

(** The calls of an attempt to issue that came to nothing: none, a claim that was not
    granted, or a granted one and its release. *)
Inductive givenUp (tenant k : string) (grant : Z) : list claim_call → Prop :=
  | never_asked : givenUp tenant k grant []
  | not_granted answer : answer ≠ Claimed → givenUp tenant k grant [Claim tenant k grant answer]
  | given_back released : givenUp tenant k grant [Claim tenant k grant Claimed; Release tenant k grant released].

(** Then this node holds nothing it did not hold, but for the very claim whose answer or
    release the database failed to give. *)
Lemma givenUp_held c tenant k grant calls t t' row grant' :
  givenUp tenant k grant calls → runs c t calls t' → held c t' row grant' →
  held c t row grant' ∨
  row = claimRow tenant k ∧ grant' = grant ∧
    (calls = [Claim tenant k grant ClaimError] ∨ calls = [Claim tenant k grant Claimed; Release tenant k grant false]).
Proof.
  intros Hg Hr Hh. destruct Hg as [|answer Hne|released].
  - left. by eapply runs_nil_held.
  - apply runs_cons in Hr as (t1 & t2 & Ho & [s Ha] & Hr). apply (runs_nil_held _ _ _ Hr) in Hh.
    destruct (claim_held _ _ _ _ _ _ _ _ _ _ Ha Hh) as [H|(Hn & -> & ->)]; [left; by apply Ho|right].
    destruct answer; [done..|]. auto.
  - apply runs_cons in Hr as (t1 & t2 & Ho & [s Ha] & Hr). apply runs_cons in Hr as (t3 & t4 & Ho' & [s' Hb] & Hr).
    apply (runs_nil_held _ _ _ Hr) in Hh. destruct (release_held _ _ _ _ _ _ _ _ _ _ Hb Hh) as [Hh' Hrel].
    apply Ho' in Hh'. destruct (claim_held _ _ _ _ _ _ _ _ _ _ Ha Hh') as [H|(_ & -> & ->)]; [left; by apply Ho|right].
    destruct released; [by destruct Hrel|]. auto.
Qed.

End IdentityClaims.
