(* ===== verification/EnrolledHistory.v ===== *)
(** * An Edge's enrolled inventory over time

    Histories of the ledger of one Edge that saves to a file: enrolments of devices,
    reports, edits of administrators, removals, bundles of the control plane, reloads and
    restarts, with every outcome of every save.  An identity a device has enrolled is not
    issued again, and a device that was taken out does not come back, until somebody entitled
    to it says so. *)

From stdpp Require Import base gmap fin_maps list strings relations.
From S2P Require Import Prelude Trimmed GoStd Persistence Admission InventorySnapshot TransportDoor EnrolledLedger IdentityClaims.
Import Admission(payload).
Import InventorySnapshot EnrolledLedger.

Open Scope Z_scope.

Module EnrolledHistory.

Section history.
Context `{MapOrder}.

Inductive act :=
  | AEnroll (claimer : option IdentityClaimer) (id tenant group note now machineRef : string)
  | AReport (id tenant group note machineRef now : string)
  | AAdmit (id claimant assignTo group note now : string) (adopt : bool)
  | AAllow (id tenant now : string)
  | ASetGroup (id tenant group now : string)
  | ASetKind (id tenant kind now : string)
  | ASetEnabled (id tenant : string) (enabled : bool) (now : string)
  | AMachine (id tenant ref now : string)
  | ARemove (id tenant now : string)
  | ARemoveTenant (claimer : option IdentityClaimer) (tenant : string)
  | ARetire (tenant now : string)
  | ACreateGroup (newID : option string) (name tenant description risk now : string)
  | AUpdateGroup (id tenant : string) (name description risk : option string) (now : string)
  | ADeleteGroup (id tenant : string) (force : bool)
  | AReplaceGroups (gs : list Group) (now : string)
  | AMerge (incoming : list Entry) (now : string)
  | AReplaceAll (incoming : list Entry) (now : string)
  | AReload (readsOk : bool)
  | ARestart (readsOk : bool) (seeds : list string) (now : string).

(** What a read of the store gives. *)
Definition reading (readsOk : bool) (stored : option payload) : option (option payload) :=
  if readsOk then Some stored else None.

(** The read brings a snapshot the decoder accepts. *)
Definition readsSnapshot (readsOk : bool) (stored : option payload) : bool :=
  readsOk && match stored with
             | Some data => match decodeInventorySnapshot data with Some _ => true | None => false end
             | None => false
             end.

Definition perform (l : Ledger) (stored : option payload) (w : write_outcome) (a : act) : Ledger * option payload :=
  match a with
  | AEnroll claimer id tenant group note now ref =>
      (EnrollDeviceForTenantWithMachine l stored w claimer id tenant group note now ref).1.1
  | AReport id tenant group note ref now => (RecordEnrolmentReportContext l stored w id tenant group note ref now).1
  | AAdmit id claimant assignTo group note now adopt =>
      (EnrollGroupForTenantContext l stored w id claimant assignTo group note now adopt).1
  | AAllow id tenant now => (AllowReenrolmentContext l stored w id tenant now).1
  | ASetGroup id tenant group now => (SetGroupContext l stored w id tenant group now).1
  | ASetKind id tenant kind now => (SetKindContext l stored w id tenant kind now).1
  | ASetEnabled id tenant enabled now => (SetEnabledContext l stored w id tenant enabled now).1
  | AMachine id tenant ref now => (RecordReportedMachineContext l stored w id tenant ref now).1
  | ARemove id tenant now => (RemoveCheckedContext l stored w id tenant now).1
  | ARemoveTenant claimer tenant => (RemoveTenantContext l stored w claimer tenant).1.1
  | ARetire tenant now => (RetireTenantContext l stored w tenant now).1
  | ACreateGroup newID name tenant description risk now =>
      (CreateGroupContext l stored w newID name tenant description risk now).1
  | AUpdateGroup id tenant name description risk now =>
      (UpdateGroupContext l stored w id tenant name description risk now).1
  | ADeleteGroup id tenant force => (DeleteGroupContext l stored w id tenant force).1
  | AReplaceGroups gs now => ReplaceAllGroups l stored w gs now
  | AMerge incoming now => (MergeAuthoritative l stored w incoming now).1
  | AReplaceAll incoming now => ReplaceAll l stored w incoming now
  | AReload readsOk => ((ReloadFromStore l (reading readsOk stored)).1, stored)
  | ARestart readsOk seeds now =>
      ((SetPersisterChecked (SeedFromStatic NewLedger seeds now) (persister l) (reading readsOk stored)).1, stored)
  end.

(** ** What an edit can leave behind *)

(** The edit made [cand] of the entries: it is in memory or was taken back, and it is in the
    file, on its way there, or not written at all. *)
Record stepped (l : Ledger) (stored : option payload) (cand : gmap string Entry) (l' : Ledger) (stored' : option payload)
    : Prop := {
  st_persister : persister l' = persister l;
  st_blocked : persistBlocked l' = persistBlocked l;
  st_entries : entries l' = entries l ∨ entries l' = cand;
  st_stored : stored' = stored ∨
    persistBlocked l = false ∧
    ∃ w gs, stored' = diskAfter w stored (marshal (mkStateFile enrolledInventoryStateSchemaVersion cand gs));
}.

Lemma stepped_same l stored cand : stepped l stored cand l stored.
Proof. by split; [..|left|left]. Qed.

Lemma persist_stepped l l1 stored w l' stored' ok :
  persister l1 = persister l → persistBlocked l1 = persistBlocked l →
  persistCheckedLocked l1 stored w = (l', stored', ok) → stepped l stored (entries l1) l' stored' ∧ entries l' = entries l1.
Proof.
  intros Hp Hb. unfold persistCheckedLocked. rewrite Hb.
  destruct (persister l1) eqn:Hp1; [intros [= <- <- _]; split; [split; [congruence|done|by right|by left]|done]|..];
    (destruct (persistBlocked l) eqn:Hbl; [intros [= <- <- _]; split; [split; [congruence|congruence|by right|by left]|done]|]);
    destruct w eqn:Hw; intros [= <- <- _]; (split; [split; [cbn; congruence|cbn; congruence|by right|right]|done]);
    (split; [done|]); exists w, (groups l1); by rewrite Hw.
Qed.

(** The edit touched [k0] alone, as [R] says of the entry before and after, or did nothing. *)
Definition edits (l : Ledger) (stored : option payload) (k0 : string) (R : option Entry → Entry → Prop) (l' : Ledger)
    (stored' : option payload) : Prop :=
  (l' = l ∧ stored' = stored) ∨
  ∃ e, R (entries l !! k0) e ∧ stepped l stored (<[k0 := e]> (entries l)) l' stored'.

(** An edit that is kept, and one that is taken back when its save is not confirmed. *)
Lemma edits_kept l stored k0 (R : option Entry → Entry → Prop) e w l' stored' ok :
  R (entries l !! k0) e → persistCheckedLocked (bump (EnrolledLedger.put k0 e l)) stored w = (l', stored', ok) →
  edits l stored k0 R l' stored'.
Proof.
  intros HR Hp. right. exists e. split; [done|].
  by apply (persist_stepped l (bump (EnrolledLedger.put k0 e l))) in Hp as [? _].
Qed.

Lemma stepped_back l stored cand l' stored' l'' :
  stepped l stored cand l' stored' → persister l'' = persister l' → persistBlocked l'' = persistBlocked l' →
  entries l'' = entries l → stepped l stored cand l'' stored'.
Proof. intros [Hp Hb He Hs] Hp' Hb' He'. split; [congruence|congruence|by left|done]. Qed.

Lemma edits_back l stored k0 (R : option Entry → Entry → Prop) e before w l' stored' ok l'' :
  entries l !! k0 = Some before → R (Some before) e →
  persistCheckedLocked (bump (EnrolledLedger.put k0 e l)) stored w = (l', stored', ok) →
  l'' = (if ok then l' else bump (EnrolledLedger.put k0 before l')) → edits l stored k0 R l'' stored'.
Proof.
  intros Hb HR Hp ->. destruct ok; [eapply edits_kept; [|done]; by rewrite Hb|].
  right. exists e. rewrite Hb. split; [done|].
  pose proof Hp as Hp'. apply (persist_stepped l) in Hp' as [Hs He]; [|done..].
  eapply (stepped_back _ _ _ l'); [done..|]. cbn. rewrite He. cbn. rewrite insert_insert_eq. by apply insert_id.
Qed.

Lemma viaShared_local {A} (zero : A) l stored w (edit : rule A) :
  persister l ≠ Updating → (viaShared zero l stored w edit).1 = (edit l stored w).1.
Proof.
  intros Hp. unfold viaShared, mutateShared. destruct (edit l stored w) as [[l' s'] [a err]] eqn:He.
  by destruct (persister l).
Qed.

Lemma ifOwned_edits {A} (zero : A) id tenant (edit : rule A) l stored w k0 R :
  (let '(l', s') := (edit l stored w).1 in edits l stored k0 R l' s') →
  let '(l', s') := (ifOwned zero id tenant edit l stored w).1 in edits l stored k0 R l' s'.
Proof. unfold ifOwned. destruct (ownedEntry l id tenant); [by left|done]. Qed.

(** ** Edits of one entry *)

Definition marker (o : option Entry) : string := match o with Some e => en_DeviceEnrolledAt e | None => "" end.

(** A device only enrols where none has, and is not let in where it is disabled. *)
Definition byDevice (b : option Entry) (e : Entry) : Prop :=
  ∀ e0, b = Some e0 → en_Enabled e0 = true ∧ is_blank (en_DeviceEnrolledAt e0) = true.
Definition byReport (now : string) (b : option Entry) (e : Entry) : Prop :=
  (∀ e0, b = Some e0 → en_Enabled e0 = true) ∧ en_DeviceEnrolledAt e = now.
Definition byAdmission (b : option Entry) (e : Entry) : Prop := en_DeviceEnrolledAt e = marker b.
Definition bySetting (enabled : option bool) (b : option Entry) (e : Entry) : Prop :=
  ∃ e0, b = Some e0 ∧ en_DeviceEnrolledAt e = en_DeviceEnrolledAt e0 ∧ en_Enabled e = default (en_Enabled e0) enabled.

Lemma mutated l k tenant group note now mayReEnable complete l' e :
  enrollGroupMutateLocked l k tenant group note now mayReEnable complete = (l', Ok e) →
  l' = bump (EnrolledLedger.put k e l) ∧
  (∀ e0, entries l !! k = Some e0 → isTombstone e0 = false ∧ (en_Enabled e0 = true ∨ mayReEnable = true)) ∧
  ∃ e1, e = complete e1 ∧ en_DeviceEnrolledAt e1 = marker (entries l !! k) ∧ en_Enabled e1 = true.
Proof.
  unfold enrollGroupMutateLocked. destruct (entries l !! k) as [e0|]; cbv zeta.
  - destruct (isTombstone e0) eqn:Ht; [done|]. destruct (negb (en_Enabled e0) && negb mayReEnable) eqn:Hen; [done|].
    intros [= <- <-]. split; [done|]. split.
    + intros ? [= <-]. split; [done|]. destruct (en_Enabled e0), mayReEnable; auto.
    + eexists. split; [done|]. destruct (nonempty _), (is_blank _); done.
  - intros [= <- <-]. split; [done|]. split; [done|]. eexists. split; [done|]. destruct (nonempty _), (is_blank _); done.
Qed.

Lemma restored l l' k e : entries l' = <[k := e]> (entries l) → entries (restoreEntry l' k (entries l !! k)) = entries l.
Proof.
  intros Hes. unfold restoreEntry. cbn. rewrite Hes. destruct (entries l !! k) as [e0|] eqn:He0.
  - rewrite insert_insert_eq. by apply insert_id.
  - by rewrite delete_insert_id.
Qed.

Lemma enroll_edits l stored w claimer id tenant group note now ref l' stored' calls r :
  EnrollDeviceForTenantWithMachine l stored w claimer id tenant group note now ref = (l', stored', calls, r) →
  edits l stored (NormalizeIdentity id) byDevice l' stored' ∧
  (persister l ≠ Memory → persistBlocked l = true → entries l' = entries l ∧ ∃ err, r = Err err) ∧
  (∀ e, r = Ok e → entries l' !! NormalizeIdentity id = Some e ∧ en_DeviceEnrolledAt e = now ∧
    (persister l ≠ Memory → stored' = Some (marshal (mkStateFile enrolledInventoryStateSchemaVersion (entries l') (groups l'))))).
Proof.
  unfold EnrollDeviceForTenantWithMachine. set (k := NormalizeIdentity id). cbv zeta.
  destruct (is_empty k); [intros [= <- <- _ <-]; split_and!; [by left|by intros; split; [|eexists]|done]|].
  destruct (identityForMachineLocked _ _ _); [intros [= <- <- _ <-]; split_and!; [by left|by intros; split; [|eexists]|done]|].
  destruct (localRefusal _ _ _ _) eqn:Href; [intros [= <- <- _ <-]; split_and!; [by left|by intros; split; [|eexists]|done]|].
  set (claim := match claimer with None => _ | Some _ => _ end). destruct claim as [[answer claims] release]. clear claimer.
  destruct answer; [|intros [= <- <- _ <-]; split_and!; [by left|by intros; split; [|eexists]|done]..].
  destruct (enrollGroupMutateLocked _ _ _ _ _ _ _ _) as [l1 [e|err]] eqn:Hm.
  2: { unfold enrollGroupMutateLocked in Hm. destruct (match entries l !! k with None => _ | Some _ => _ end); [done|].
       injection Hm as <- _. intros [= <- <- _ <-]. split_and!; [by left|by intros; split; [|eexists]|done]. }
  apply mutated in Hm as (-> & _ & e1 & He & Hmark & Hen).
  assert (byDevice (entries l !! k) e) as Hby.
  { intros e0 He0. unfold localRefusal in Href. rewrite He0 in Href. destruct (en_Enabled e0); [|done]. cbn [negb] in Href.
    destruct (_ && _); [done|]. by destruct (is_blank _). }
  destruct (persistCheckedLocked _ _ _) as [[l2 s2] ok] eqn:Hp. pose proof Hp as Hp'.
  apply (persist_stepped l) in Hp as [Hst Hes]; [|done..]. destruct ok; intros [= <- <- _ <-].
  - split_and!; [right; exists e; by split| |].
    { intros Hm Hb. unfold persistCheckedLocked in Hp'. cbn [bump EnrolledLedger.put persister persistBlocked] in Hp'.
      revert Hp'. cbn. rewrite Hb. by destruct (persister l). }
    intros ? [= <-]. rewrite Hes. cbn. rewrite lookup_insert_eq. split; [done|].
    split; [subst e; by destruct (nonempty _)|]. intros Hb. unfold persistCheckedLocked in Hp'. cbn [bump EnrolledLedger.put persister] in Hp'.
    revert Hp'. destruct (persister _) eqn:Hpl; [done|..];
      (destruct (persistBlocked _); [done|]); destruct w; try done; by intros [= <- <-].
  - assert (entries (restoreEntry l2 k (entries l !! k)) = entries l) as Hback by by apply (restored _ _ _ e).
    split_and!; [|by intros; split; [|eexists]|done]. right. exists e. split; [done|]. by eapply stepped_back.
Qed.

Lemma report_edits l stored w id tenant group note ref now l' stored' r :
  recordEnrolmentReport l stored w id tenant group note ref now = (l', stored', r) →
  edits l stored (NormalizeIdentity id) (byReport now) l' stored' ∧
  (persister l ≠ Memory → persistBlocked l = true → entries l' = entries l).
Proof.
  unfold recordEnrolmentReport. set (k := NormalizeIdentity id). cbv zeta.
  destruct (is_empty k); [intros [= <- <- _]; by split; [left|]|].
  destruct (match entries l !! k with None => None | Some _ => _ end) eqn:Href; [intros [= <- <- _]; by split; [left|]|].
  destruct (enrollGroupMutateLocked _ _ _ _ _ _ _ _) as [l1 [e|err]] eqn:Hm.
  2: { unfold enrollGroupMutateLocked in Hm. destruct (match entries l !! k with None => Ok _ | Some _ => _ end); [done|].
       injection Hm as <- _. intros [= <- <- _]. by split; [left|]. }
  apply mutated in Hm as (-> & Hold & e1 & He & Hmark & Hen).
  assert (byReport now (entries l !! k) e) as Hby.
  { split; [|subst e; by destruct (is_empty _)]. intros e0 He0. destruct (Hold e0 He0) as [_ [|]]; done. }
  destruct (persistCheckedLocked _ _ _) as [[l2 s2] ok] eqn:Hp.
  pose proof Hp as Hp'. apply (persist_stepped l) in Hp as [Hst Hes]; [|done..]. destruct ok; intros [= <- <- _].
  - split; [right; exists e; by split|]. intros Hm Hb. unfold persistCheckedLocked in Hp'.
    cbn [bump EnrolledLedger.put persister persistBlocked] in Hp'. revert Hp'. cbn. rewrite Hb. by destruct (persister l).
  - assert (entries (restoreEntry l2 k (entries l !! k)) = entries l) as Hback by by apply (restored _ _ _ e).
    split; [|done]. right. exists e. split; [done|]. by eapply stepped_back.
Qed.

Lemma admit_edits l stored w id claimant assignTo group note now adopt l' stored' r :
  EnrollGroupForTenant l stored w id claimant assignTo group note now adopt = (l', stored', r) →
  edits l stored (NormalizeIdentity id) byAdmission l' stored'.
Proof.
  unfold EnrollGroupForTenant. set (k := NormalizeIdentity id). cbv zeta.
  destruct (is_empty k); [intros [= <- <- _]; by left|].
  destruct (match entries l !! k with None => None | Some _ => _ end); [intros [= <- <- _]; by left|].
  unfold enrollGroupLocked. destruct (enrollGroupMutateLocked _ _ _ _ _ _ _ _) as [l1 [e|err]] eqn:Hm.
  2: { unfold enrollGroupMutateLocked in Hm. destruct (match entries l !! k with None => Ok _ | Some _ => _ end); [done|].
       injection Hm as <- _. intros [= <- <- _]. by left. }
  apply mutated in Hm as (-> & _ & e1 & -> & Hmark & _).
  destruct (persistCheckedLocked _ _ _) as [[l2 s2] ok] eqn:Hp. intros [= <- <- _]. by eapply edits_kept.
Qed.

Lemma allow_edits l stored w id tenant now l' stored' r :
  AllowReenrolment l stored w id tenant now = (l', stored', r) →
  edits l stored (NormalizeIdentity id) (λ _ _, True) l' stored'.
Proof.
  unfold AllowReenrolment. set (k := NormalizeIdentity id). cbv zeta.
  destruct (is_empty k); [intros [= <- <- _]; by left|].
  destruct (entries l !! k) as [before|] eqn:Hb; [|intros [= <- <- _]; by left].
  destruct (_ && _); [intros [= <- <- _]; by left|].
  destruct (persistCheckedLocked _ _ _) as [[l2 s2] ok] eqn:Hp. intros Heq.
  assert (stored' = s2) as -> by (by destruct ok; simplify_eq). eapply (edits_back _ _ _ _ _ before); [done|done|exact Hp|]. destruct ok; by simplify_eq.
Qed.

Lemma setEnabled_edits l stored w id tenant enabled now l' stored' r :
  setEnabledForTenant l stored w id tenant enabled now = (l', stored', r) →
  edits l stored (NormalizeIdentity id) (bySetting (Some enabled)) l' stored'.
Proof.
  unfold setEnabledForTenant. set (k := NormalizeIdentity id). cbv zeta.
  destruct (entries l !! k) as [before|] eqn:Hb; [|intros [= <- <- _]; by left].
  destruct (_ || _); [intros [= <- <- _]; by left|].
  destruct (persistCheckedLocked _ _ _) as [[l2 s2] ok] eqn:Hp. intros Heq.
  assert (stored' = s2) as -> by (by destruct ok; simplify_eq). eapply (edits_back _ _ _ _ _ before); [done| |exact Hp|destruct ok; by simplify_eq]. by exists before.
Qed.

Lemma setGroup_edits l stored w id group now l' stored' r :
  SetGroup l stored w id group now = (l', stored', r) →
  edits l stored (NormalizeIdentity id) (bySetting None) l' stored'.
Proof.
  unfold SetGroup. set (k := NormalizeIdentity id). cbv zeta.
  destruct (entries l !! k) as [before|] eqn:Hb; [|intros [= <- <- _]; by left].
  destruct (isTombstone before); [intros [= <- <- _]; by left|].
  destruct (persistCheckedLocked _ _ _) as [[l2 s2] ok] eqn:Hp. intros [= <- <- _].
  eapply edits_kept; [|exact Hp]. rewrite Hb. by exists before.
Qed.

Lemma setKind_edits l stored w id kind now l' stored' r :
  SetKind l stored w id kind now = (l', stored', r) →
  edits l stored (NormalizeIdentity id) (bySetting None) l' stored'.
Proof.
  unfold SetKind. set (k := NormalizeIdentity id). cbv zeta. destruct (negb _); [intros [= <- <- _]; by left|].
  destruct (entries l !! k) as [before|] eqn:Hb; [|intros [= <- <- _]; by left].
  destruct (isTombstone before); [intros [= <- <- _]; by left|].
  destruct (persistCheckedLocked _ _ _) as [[l2 s2] ok] eqn:Hp. intros [= <- <- _].
  eapply edits_kept; [|exact Hp]. rewrite Hb. by exists before.
Qed.

Lemma machine_edits l stored w id ref now l' stored' r :
  RecordReportedMachine l stored w id ref now = (l', stored', r) →
  edits l stored (NormalizeIdentity id) (bySetting None) l' stored'.
Proof.
  unfold RecordReportedMachine. set (k := NormalizeIdentity id). cbv zeta. destruct (_ || _); [intros [= <- <- _]; by left|].
  destruct (entries l !! k) as [before|] eqn:Hb; [|intros [= <- <- _]; by left].
  destruct (_ || _); [intros [= <- <- _]; by left|].
  destruct (persistCheckedLocked _ _ _) as [[l2 s2] ok] eqn:Hp. intros Heq.
  assert (stored' = s2) as -> by (by destruct ok; simplify_eq). eapply (edits_back _ _ _ _ _ before); [done| |exact Hp|destruct ok; by simplify_eq]. by exists before.
Qed.

(** ** Edits of several entries *)

Lemma remove_steps l stored w id now l' stored' r :
  RemoveChecked l stored w id now = (l', stored', r) →
  (l' = l ∧ stored' = stored) ∨
  ∃ removed tomb, entries l !! NormalizeIdentity id = Some removed ∧ en_Enabled tomb = false ∧ en_RemovedAt tomb = now ∧
    stepped l stored (entries (purgeExpiredTombstonesLocked (EnrolledLedger.put (NormalizeIdentity id) tomb l) now)) l' stored'.
Proof.
  unfold RemoveChecked. set (k := NormalizeIdentity id). cbv zeta.
  destruct (entries l !! k) as [removed|] eqn:Hb; [|intros [= <- <- _]; by left].
  destruct (isTombstone removed); [intros [= <- <- _]; by left|]. set (tomb := _ <| en_UpdatedAt := now |>).
  destruct (persistCheckedLocked _ _ _) as [[l2 s2] ok] eqn:Hp. intros Heq. right. exists removed, tomb. split_and!; [done..|].
  assert (persister (purgeExpiredTombstonesLocked (EnrolledLedger.put k tomb l) now) = persister l ∧
          persistBlocked (purgeExpiredTombstonesLocked (EnrolledLedger.put k tomb l) now) = persistBlocked l) as [Hp1 Hp2]
    by (unfold purgeExpiredTombstonesLocked; by destruct (parse_rfc3339 _)).
  apply (persist_stepped l) in Hp as [Hst Hes]; [|done..]. destruct ok; injection Heq as <- <- _.
  - destruct Hst as [? ? ? ?]. by split.
  - by eapply stepped_back.
Qed.

Lemma removeTenant_steps l stored w claimer tenant l' stored' calls r :
  RemoveTenantChecked l stored w claimer tenant = (l', stored', calls, r) →
  stepped l stored (entries l ∖ filter (fun row => ofTenant (trim_space tenant) row.2 = true) (entries l)) l' stored'.
Proof.
  unfold RemoveTenantChecked. cbv zeta. destruct (is_empty _); [intros [= <- <- _ _]; apply stepped_same|].
  case_bool_decide; [intros [= <- <- _ _]; apply stepped_same|]. set (removed := filter _ (entries l)).
  destruct (persistCheckedLocked _ _ _) as [[l2 s2] ok] eqn:Hp.
  apply (persist_stepped l (l <| entries := entries l ∖ removed |>)) in Hp as [Hst Hes]; [|done..].
  destruct ok; intros [= <- <- _ _].
  - destruct Hst as [? ? ? ?]. by split.
  - eapply stepped_back; [exact Hst|done..|]. cbn. rewrite Hes. cbn. apply map_difference_union.
    unfold removed. apply map_filter_subseteq.
Qed.

Lemma retire_steps l stored w tenant now l' stored' r :
  RetireTenantChecked l stored w tenant now = (l', stored', r) →
  stepped l stored (retired (trim_space tenant) now <$> entries l) l' stored' ∨ stepped l stored (entries l) l' stored'.
Proof.
  unfold RetireTenantChecked. destruct (is_blank tenant); [intros [= <- <- _]; left; apply stepped_same|].
  destruct (parse_rfc3339 now); [|intros [= <- <- _]; left; apply stepped_same].
  destruct (persistBlocked l) eqn:Hb; [intros [= <- <- _]; left; apply stepped_same|]. cbv zeta.
  set (changed := existsb _ _). set (l1 := if changed then _ else l).
  assert (persister l1 = persister l ∧ persistBlocked l1 = persistBlocked l ∧
    (entries l1 = retired (trim_space tenant) now <$> entries l ∨ entries l1 = entries l)) as (Hp1 & Hp2 & Hes).
  { unfold l1. destruct changed; cbn; auto. }
  assert (∀ l2 s2, stepped l stored (entries l1) l2 s2 →
    stepped l stored (retired (trim_space tenant) now <$> entries l) l2 s2 ∨ stepped l stored (entries l) l2 s2) as Hdone.
  { intros l2 s2 Hs. destruct Hes as [Hes|Hes]; rewrite Hes in Hs; auto. }
  destruct (0 <? _).
  - destruct (persistCheckedLocked _ _ _) as [[l2 s2] ok] eqn:Hp. intros [= <- <- _].
    apply Hdone. by apply (persist_stepped l l1) in Hp as [? _].
  - intros [= <- <- _]. apply Hdone. split; [done|done|by right|by left].
Qed.

Lemma replace_steps l l1 stored w :
  persister l1 = persister l → persistBlocked l1 = persistBlocked l →
  stepped l stored (entries l1) (persistCheckedLocked l1 stored w).1.1 (persistCheckedLocked l1 stored w).1.2.
Proof.
  intros Hp Hb. destruct (persistCheckedLocked l1 stored w) as [[l' s'] ok] eqn:He. by apply (persist_stepped l l1) in He as [? _].
Qed.

Lemma merge_steps l stored w incoming now :
  stepped l stored (mergedEntries (entries l) incoming now) (MergeAuthoritative l stored w incoming now).1.1
    (MergeAuthoritative l stored w incoming now).1.2.
Proof.
  unfold MergeAuthoritative, mergeAuthoritative. cbv zeta. set (fresh := mergedEntries _ _ _).
  destruct (persistCheckedLocked _ _ _) as [[l2 s2] ok] eqn:Hp.
  apply (persist_stepped l (bump (l <| entries := fresh |>))) in Hp as [Hst Hes]; [|done..].
  destruct ok; [done|]. cbn. by eapply stepped_back.
Qed.

(** Edits of the groups, and a rename that follows the devices. *)
Lemma group_steps {A} l stored w (o : Ledger * option payload * A) l1 :
  persister l1 = persister l → persistBlocked l1 = persistBlocked l →
  (o.1 = (l, stored) ∨ o.1 = (persistCheckedLocked l1 stored w).1) →
  stepped l stored (entries l1) o.1.1 o.1.2.
Proof. intros Hp Hb [-> | ->]; [apply stepped_same|by apply replace_steps]. Qed.

(** ** What stays true of one identity

    [P] holds of its entry, and of every entry for it that could be read back; a process that
    could not read its file writes nothing, and then [Q] holds of the entry it has. *)

Section kept.
Context (P Q : option Entry → Prop) (k : string).

Definition mute (l : Ledger) : Prop := persister l ≠ Memory ∧ persistBlocked l = true.

Definition rowKeeps (stored : option payload) : Prop :=
  ∃ data, stored = Some data ∧ ∀ f, decodeInventorySnapshot data = Some f → P (sf_Entries f !! k).

Record kept (l : Ledger) (stored : option payload) : Prop := {
  kept_alone : persister l ≠ Updating;
  kept_memory : P (entries l !! k) ∨ mute l ∧ Q (entries l !! k);
  kept_row : persister l ≠ Memory → rowKeeps stored;
}.

Lemma row_marshal cand gs :
  P (cand !! k) → rowKeeps (Some (marshal (mkStateFile enrolledInventoryStateSchemaVersion cand gs))).
Proof.
  intros HP. eexists. split; [done|]. intros f. rewrite decode_saved by done. case_bool_decide; [|done]. by intros [= <-].
Qed.

Lemma row_after w stored cand gs :
  P (cand !! k) → rowKeeps stored →
  rowKeeps (diskAfter w stored (marshal (mkStateFile enrolledInventoryStateSchemaVersion cand gs))).
Proof. intros HP Hr. pose proof (row_marshal cand gs HP). by destruct w as [| |[]|]. Qed.

Lemma stepped_keeps l stored cand l' stored' :
  kept l stored → stepped l stored cand l' stored' →
  (P (entries l !! k) → P (cand !! k)) →
  (mute l → Q (entries l !! k) → entries l' = entries l ∨ Q (cand !! k)) →
  kept l' stored'.
Proof.
  intros [Ha Hm Hr] [Hp Hb He Hs] HP HQ. split.
  - by rewrite Hp.
  - unfold mute. rewrite Hp, Hb. destruct Hm as [Hm|[Hmute Hm]].
    + left. destruct He as [-> | ->]; auto.
    + right. split; [done|]. destruct (HQ Hmute Hm) as [->|]; [done|]. by destruct He as [-> | ->].
  - rewrite Hp. intros Hmem. specialize (Hr Hmem). destruct Hs as [->|(Hb' & w & gs & ->)]; [done|].
    apply row_after; [|done]. apply HP. destruct Hm as [|[[_ Hb''] _]]; [done|]. by rewrite Hb' in Hb''.
Qed.

Lemma edits_keeps l stored k0 R l' stored' :
  kept l stored → edits l stored k0 R l' stored' →
  (k0 = k → ∀ e, R (entries l !! k) e → (P (entries l !! k) → P (Some e)) ∧
    (mute l → Q (entries l !! k) → entries l' = entries l ∨ Q (Some e))) →
  kept l' stored'.
Proof.
  intros Hk [[-> ->]|(e & HR & Hst)] Hobl; [done|]. eapply stepped_keeps; [done|done|..];
    (destruct (decide (k0 = k)) as [-> | Hne]; [rewrite lookup_insert_eq; by apply Hobl|rewrite lookup_insert_ne by done]).
  - done.
  - by right.
Qed.

(** A read either fails, and mutes the process, or brings what the file holds. *)
Lemma loaded_keeps l0 readsOk stored :
  persister l0 ≠ Memory → persister l0 ≠ Updating → rowKeeps stored →
  readsSnapshot readsOk stored = true ∨ P (entries l0 !! k) ∨ Q (entries l0 !! k) →
  let '(l, ok) := loadLocked l0 (reading readsOk stored) in kept (l <| persistBlocked := negb ok |>) stored.
Proof.
  intros Hm Hu Hr Hmem. unfold loadLocked. destruct (persister l0) eqn:Hp; [done| |done].
  assert (readsSnapshot readsOk stored = false → kept (l0 <| persistBlocked := negb false |>) stored) as Hfail.
  { intros Hn. split; cbn; [by rewrite Hp| |done]. rewrite Hn in Hmem. destruct Hmem as [|[|]]; [done|by left|right].
    split; [|done]. split; cbn; [by rewrite Hp|done]. }
  unfold readsSnapshot in Hfail.
  destruct readsOk; cbn [reading]; [|by apply Hfail]. destruct Hr as (data & -> & Hdata).
  destruct (decodeInventorySnapshot data) as [f|] eqn:Hd; [|by apply Hfail].
  cbv zeta. set (same := bool_decide _ && _).
  split; [by destruct same; cbn; rewrite Hp| |].
  - left. assert (P (sf_Entries f !! k)) by auto. by destruct same.
  - intros _. exists data. split; [done|]. intros f'. rewrite Hd. intros [= <-]. auto.
Qed.

End kept.

(** The last entry a list names an identity with. *)
Definition named (k : string) (incoming : list Entry) : option Entry :=
  List.find (fun e => String.eqb (NormalizeIdentity (en_Identity e)) k) (rev incoming).

Lemma merged_lookup local incoming now k :
  k ≠ "" → mergedEntries local incoming now !! k = mergeEntry (local !! k) k now <$> named k incoming.
Proof.
  intros Hk. unfold mergedEntries, named. induction incoming as [|e incoming IH] using rev_ind; [done|].
  rewrite foldl_snoc, rev_app_distr. cbn. destruct (String.eqb_spec (NormalizeIdentity (en_Identity e)) k) as [He|He].
  - rewrite He. destruct (is_empty k) eqn:Hem; [by apply is_empty_true in Hem|]. by rewrite lookup_insert_eq.
  - destruct (is_empty _); [done|]. by rewrite lookup_insert_ne.
Qed.

(** What an action has to respect for [P] and [Q] to stay. *)
Definition obliged (P Q : option Entry → Prop) (k : string) (l : Ledger) (stored : option payload) (a : act) : Prop :=
  let at_ := entries l !! k in
  let both (o : option Entry) := (P at_ → P o) ∧ (mute l → Q at_ → Q o) in
  let same (id : string) (R : option Entry → Entry → Prop) := NormalizeIdentity id = k → ∀ e, R at_ e → both (Some e) in
  match a with
  | AEnroll _ id _ _ _ _ _ => NormalizeIdentity id = k → ∀ e, byDevice at_ e → P at_ → P (Some e)
  | AReport id _ _ _ _ now => NormalizeIdentity id = k → ∀ e, byReport now at_ e → P at_ → P (Some e)
  | AAdmit id _ _ _ _ _ _ => same id byAdmission
  | AAllow id _ _ => same id (λ _ _, True)
  | ASetGroup id _ _ _ | ASetKind id _ _ _ | AMachine id _ _ _ => same id (bySetting None)
  | ASetEnabled id _ enabled _ => same id (bySetting (Some enabled))
  | ARemove id _ now =>
      ∀ tomb, en_Enabled tomb = false → en_RemovedAt tomb = now →
        both (entries (purgeExpiredTombstonesLocked (EnrolledLedger.put (NormalizeIdentity id) tomb l) now) !! k)
  | ARemoveTenant _ tenant => ∀ e, at_ = Some e → ofTenant (trim_space tenant) e = false
  | ARetire tenant now => both (retired (trim_space tenant) now <$> at_)
  | AUpdateGroup _ _ _ _ _ _ => ∀ g oldKey n now, both (repoint g oldKey n now <$> at_)
  | AMerge incoming now => both (mergeEntry at_ k now <$> named k incoming)
  | AReplaceAll incoming now => both (mergeEntry None k now <$> named k incoming)
  | ARestart readsOk seeds now =>
      persister l ≠ Memory ∧
      (readsSnapshot readsOk stored = true ∨ Q (entries (SeedFromStatic NewLedger seeds now) !! k))
  | _ => True
  end.

(** An operation of the file store, whatever it answers. *)
Lemma shared_local {A} (zero : A) l stored w (edit : rule A) (S : Ledger → option payload → Prop) :
  persister l ≠ Updating → (∀ l' s' r, edit l stored w = (l', s', r) → S l' s') →
  S (viaShared zero l stored w edit).1.1 (viaShared zero l stored w edit).1.2.
Proof.
  intros Hp HS. rewrite viaShared_local by done. destruct (edit l stored w) as [[l' s'] r] eqn:He. by eapply HS.
Qed.

Lemma ifOwned_cases {A} (zero : A) id tenant (edit : rule A) l stored w l' s' r (S : Ledger → option payload → Prop) :
  ifOwned zero id tenant edit l stored w = (l', s', r) → S l stored →
  (∀ r, edit l stored w = (l', s', r) → S l' s') → S l' s'.
Proof. unfold ifOwned. destruct (ownedEntry l id tenant); [by intros [= <- <- _]|eauto]. Qed.

Lemma seeds_persister seeds now l : persister (SeedFromStatic l seeds now) = persister l.
Proof.
  unfold SeedFromStatic. revert l. induction seeds as [|id seeds IH]; intros l; [done|]. cbn. rewrite IH.
  destruct (is_empty _); [done|]. by destruct (entries l !! _).
Qed.

Lemma setPersister_plain l loaded :
  (SetPersisterChecked l Plain loaded).1 =
  let '(l1, ok) := loadLocked (l <| persister := Plain |>) loaded in l1 <| persistBlocked := negb ok |>.
Proof. unfold SetPersisterChecked. cbv zeta. by destruct (loadLocked _ _). Qed.

Section actions.
Context (P Q : option Entry → Prop) (k : string) (Hk : k ≠ "").

Lemma group_keeps l stored w (o : Ledger * option payload) l1 :
  kept P Q k l stored → persister l1 = persister l → persistBlocked l1 = persistBlocked l →
  (P (entries l !! k) → P (entries l1 !! k)) → (mute l → Q (entries l !! k) → Q (entries l1 !! k)) →
  (o = (l, stored) ∨ o = (persistCheckedLocked l1 stored w).1) → kept P Q k o.1 o.2.
Proof.
  intros Hkept Hp Hb HP HQ Ho. eapply stepped_keeps; [done| |done|].
  - destruct Ho as [-> | ->]; [apply stepped_same|by apply replace_steps].
  - right. auto.
Qed.

Lemma createGroup_keeps l stored w newID name tenant description risk now l' s' r :
  kept P Q k l stored → CreateGroup l stored w newID name tenant description risk now = (l', s', r) → kept P Q k l' s'.
Proof.
  intros Hkept. unfold CreateGroup. cbv zeta. destruct (is_empty _); [by intros [= <- <- _]|].
  destruct (existsb _ _); [by intros [= <- <- _]|]. destruct newID as [id|]; [|by intros [= <- <- _]].
  destruct (persistCheckedLocked _ _ _) as [[l2 s2] ok] eqn:Hp. intros [= <- <- _].
  eapply (group_keeps l stored w (l2, s2) _ Hkept); [..|right; by rewrite Hp]; done.
Qed.

Lemma deleteGroup_keeps l stored w id l' s' r :
  kept P Q k l stored → DeleteGroup l stored w id = (l', s', r) → kept P Q k l' s'.
Proof.
  intros Hkept. unfold DeleteGroup. cbv zeta. destruct (groups l !! _); [|by intros [= <- <- _]].
  destruct (persistCheckedLocked _ _ _) as [[l2 s2] ok] eqn:Hp. intros [= <- <- _].
  eapply (group_keeps l stored w (l2, s2) _ Hkept); [..|right; by rewrite Hp]; done.
Qed.

Lemma updateGroup_keeps l stored w id name description risk now l' s' r :
  kept P Q k l stored → obliged P Q k l stored (AUpdateGroup id "" name description risk now) →
  UpdateGroup l stored w id name description risk now = (l', s', r) → kept P Q k l' s'.
Proof.
  intros Hkept Hobl. unfold UpdateGroup. cbv zeta. destruct (groups l !! _) as [g|]; [|by intros [= <- <- _]].
  set (renamed := match name with None => _ | Some _ => _ end).
  assert (∀ l1 g1 n1, renamed = Ok (l1, g1, n1) → persister l1 = persister l ∧ persistBlocked l1 = persistBlocked l ∧
    (P (entries l !! k) → P (entries l1 !! k)) ∧ (mute l → Q (entries l !! k) → Q (entries l1 !! k))) as Hren.
  { intros l1 g1 n1. unfold renamed. destruct name as [name|]; [|by intros [= <- _ _]].
    destruct (is_empty _); [done|]. destruct (existsb _ _); [done|]. destruct (String.eqb _ _); intros [= <- _ _]; [done|].
    cbn. rewrite lookup_fmap. split_and!; [done..|apply Hobl|apply Hobl]. }
  destruct renamed as [[[l1 g1] n1]|err]; [|by intros [= <- <- _]]. destruct (Hren _ _ _ eq_refl) as (Hp1 & Hp2 & HP & HQ).
  destruct (persistCheckedLocked _ _ _) as [[l2 s2] ok] eqn:Hp. intros [= <- <- _].
  eapply (group_keeps l stored w (l2, s2) _ Hkept); [..|right; by rewrite Hp]; done.
Qed.

Lemma removeTenant_keeps l stored w claimer tenant l' s' :
  kept P Q k l stored → obliged P Q k l stored (ARemoveTenant claimer tenant) → perform l stored w (ARemoveTenant claimer tenant) = (l', s') → kept P Q k l' s'.
Proof.
  intros Hkept Hobl Hperf. pose proof (kept_alone _ _ _ _ _ Hkept) as Hal. cbn [perform] in Hperf. cbn [obliged] in Hobl.
  unfold RemoveTenantContext in Hperf. cbv zeta in Hperf. destruct (is_empty (trim_space tenant)); [by injection Hperf as <- <-|].
  destruct (RemoveTenantChecked l stored w claimer (trim_space tenant)) as [[[l2 s2] calls] [ids err]] eqn:Hr.
  assert ((l2, s2) = (l', s')) as [= -> ->] by (destruct (persister l); done).
  apply removeTenant_steps in Hr. rewrite trim_space_idemp in Hr.
  assert ((entries l ∖ filter (fun row => ofTenant (trim_space tenant) row.2 = true) (entries l)) !! k = entries l !! k) as Hsame.
  { destruct (entries l !! k) as [e|] eqn:He.
    - apply lookup_difference_Some. split; [done|]. apply map_lookup_filter_None. right. intros e' Hk'. rewrite He in Hk'.
      injection Hk' as <-. cbn. by rewrite (Hobl e).
    - apply lookup_difference_None. by left. }
  eapply stepped_keeps; [done|exact Hr|by rewrite Hsame|by rewrite Hsame; right].
Qed.

Lemma retire_keeps l stored w tenant now l' s' :
  kept P Q k l stored → obliged P Q k l stored (ARetire tenant now) → perform l stored w (ARetire tenant now) = (l', s') → kept P Q k l' s'.
Proof.
  intros Hkept Hobl Hperf. pose proof (kept_alone _ _ _ _ _ Hkept) as Hal. cbn [perform] in Hperf. cbn [obliged] in Hobl.
  unfold RetireTenantContext in Hperf. destruct (is_blank tenant); [by injection Hperf as <- <-|].
  unfold mutateShared in Hperf. destruct (RetireTenantChecked l stored w tenant now) as [[l2 s2] [n err]] eqn:Hr.
  assert ((l2, s2) = (l', s')) as [= -> ->].
  { destruct (persister l); cbv beta in Hperf; rewrite ?Hr in Hperf; try done; destruct err; cbn in Hperf; by injection Hperf as -> ->. }
  apply retire_steps in Hr as [Hr|Hr]; (eapply stepped_keeps; [done|exact Hr|..]).
  + rewrite lookup_fmap. apply Hobl.
  + rewrite lookup_fmap. right. by apply Hobl.
  + done.
  + by right.
Qed.

Lemma reload_keeps l stored w readsOk l' s' :
  kept P Q k l stored → obliged P Q k l stored (AReload readsOk) → perform l stored w (AReload readsOk) = (l', s') → kept P Q k l' s'.
Proof.
  intros Hkept Hobl Hperf. pose proof (kept_alone _ _ _ _ _ Hkept) as Hal. cbn [perform] in Hperf. cbn [obliged] in Hobl.
  injection Hperf as <- <-. unfold ReloadFromStore.
  destruct (decide (persister l = Memory)) as [Hm|Hm].
  + destruct Hkept as [? [HP|[[? _] _]] Hrow]; [|done]. unfold loadLocked. rewrite Hm. by split; [|left|].
  + pose proof (loaded_keeps P Q k l readsOk stored Hm Hal) as Hl. destruct (loadLocked _ _) as [l1 ok]. cbn in Hl |- *.
    apply Hl; [by apply Hkept|]. right. destruct (kept_memory _ _ _ _ _ Hkept) as [|[_ ?]]; auto.
Qed.

Lemma restart_keeps l stored w readsOk seeds now l' s' :
  kept P Q k l stored → obliged P Q k l stored (ARestart readsOk seeds now) → perform l stored w (ARestart readsOk seeds now) = (l', s') → kept P Q k l' s'.
Proof.
  intros Hkept Hobl Hperf. pose proof (kept_alone _ _ _ _ _ Hkept) as Hal. cbn [perform] in Hperf. cbn [obliged] in Hobl.
  injection Hperf as <- <-. destruct Hobl as [Hm HQ].
  pose proof (loaded_keeps P Q k ((SeedFromStatic NewLedger seeds now) <| persister := Plain |>) readsOk stored) as Hl.
  destruct (persister l) eqn:Hp; [done| |done]. rewrite setPersister_plain. destruct (loadLocked _ _) as [l1 ok].
  apply Hl; [done..| |destruct HQ; auto]. apply (kept_row _ _ _ _ _ Hkept). by rewrite Hp.
Qed.

Lemma perform_keeps l stored w a l' s' :
  kept P Q k l stored → obliged P Q k l stored a → perform l stored w a = (l', s') → kept P Q k l' s'.
Proof.
  intros Hkept Hobl Hperf. pose proof (kept_alone _ _ _ _ _ Hkept) as Hal.
  assert (∀ {A} (zero : A) edit, (∀ l' s' r, edit l stored w = (l', s', r) → kept P Q k l' s') →
    (viaShared zero l stored w edit).1 = (l', s') → kept P Q k l' s') as Hlocal.
  { intros A zero edit Hedit Heq. pose proof (shared_local zero l stored w edit (kept P Q k) Hal Hedit) as Hs. by rewrite Heq in Hs. }
  destruct a; cbn [perform] in Hperf; cbn [obliged] in Hobl.
  - destruct (EnrollDeviceForTenantWithMachine _ _ _ _ _ _ _ _ _ _) as [[[l1 s1] calls] r] eqn:He. injection Hperf as -> ->.
    apply enroll_edits in He as (He & Hb & _). eapply edits_keeps; [done..|]. intros Hid e Hby. split; [by apply Hobl|].
    intros [Hm Hbl] _. left. by apply Hb.
  - eapply Hlocal, Hperf. intros l1 s1 r (He & Hb)%report_edits. eapply edits_keeps; [done..|].
    intros Hid e Hby. split; [by apply Hobl|]. intros [Hm Hbl] _. left. by apply Hb.
  - eapply Hlocal, Hperf. intros l1 s1 r He%admit_edits. eapply edits_keeps; [done..|].
    intros Hid e Hby. destruct (Hobl Hid e Hby). split; [done|by right; auto].
  - eapply Hlocal, Hperf. intros l1 s1 r He%allow_edits. eapply edits_keeps; [done..|].
    intros Hid e Hby. destruct (Hobl Hid e Hby). split; [done|by right; auto].
  - eapply Hlocal, Hperf. intros l1 s1 r He. eapply ifOwned_cases; [exact He|done|]. clear r He. intros r He.
    destruct (SetGroup l stored w id group now) as [[l2 s2] r2] eqn:Hg.
    assert ((l2, s2) = (l1, s1)) as [= -> ->] by (unfold foundOr in He; destruct r2 as [[|] [|]]; rewrite Hg in He; cbn in He; congruence).
    apply setGroup_edits in Hg. eapply edits_keeps; [done..|]. intros Hid e Hby. destruct (Hobl Hid e Hby). split; [done|by right; auto].
  - eapply Hlocal, Hperf. intros l1 s1 r He. eapply ifOwned_cases; [exact He|done|]. clear r He. intros r He%setKind_edits.
    eapply edits_keeps; [done..|]. intros Hid e Hby. destruct (Hobl Hid e Hby). split; [done|by right; auto].
  - unfold SetEnabledContext in Hperf.
    destruct (setEnabledForTenant l stored w id tenant enabled now) as [[l2 s2] [e2 r2]] eqn:Hg.
    assert ((l2, s2) = (l', s')) as [= -> ->] by (destruct (persister l); done).
    apply setEnabled_edits in Hg. eapply edits_keeps; [done..|]. intros Hid e Hby. destruct (Hobl Hid e Hby). split; [done|by right; auto].
  - eapply Hlocal, Hperf. intros l1 s1 r He. eapply ifOwned_cases; [exact He|done|]. clear r He. intros r He.
    cbv beta in He. destruct (RecordReportedMachine l stored w id ref now) as [[l2 s2] r2] eqn:Hg. injection He as -> -> _.
    apply machine_edits in Hg. eapply edits_keeps; [done..|]. intros Hid e Hby. destruct (Hobl Hid e Hby). split; [done|by right; auto].
  - eapply Hlocal, Hperf. intros l1 s1 r He. eapply ifOwned_cases; [exact He|done|]. clear r He.
    intros r [[-> ->]|(removed & tomb & _ & Hen & Hnow & Hst)]%remove_steps; [done|].
    destruct (Hobl tomb Hen Hnow). eapply stepped_keeps; [done..|]. by right; auto.
  - exact (removeTenant_keeps _ _ _ _ _ _ _ Hkept Hobl Hperf).
  - exact (retire_keeps _ _ _ _ _ _ _ Hkept Hobl Hperf).
  - eapply Hlocal, Hperf. intros l1 s1 r. by apply createGroup_keeps.
  - eapply Hlocal, Hperf. intros l1 s1 r. cbv beta. destruct (ownedGroup l id tenant); [|by intros [= <- <- _]].
    by apply updateGroup_keeps.
  - unfold DeleteGroupContext in Hperf. eapply Hlocal, Hperf. intros l1 s1 r. cbv beta.
    destruct (ownedGroup l id tenant); [|by intros [= <- <- _]]. destruct (_ && _); [by intros [= <- <- _]|].
    by apply deleteGroup_keeps.
  - unfold ReplaceAllGroups in Hperf. cbv zeta in Hperf.
    match type of Hperf with (persistCheckedLocked ?l1 _ _).1 = _ => eapply (group_keeps l stored w (l', s') l1 Hkept) end;
      [done..|right; by rewrite Hperf].
  - pose proof (merge_steps l stored w incoming now) as Hst. rewrite Hperf in Hst. cbn [fst snd] in Hst.
    eapply stepped_keeps; [done|exact Hst|..]; rewrite merged_lookup by done; [apply Hobl|right; by apply Hobl].
  - unfold ReplaceAll in Hperf.
    destruct (persistCheckedLocked _ _ _) as [[l2 s2] ok] eqn:Hp. injection Hperf as -> ->.
    apply (persist_stepped l) in Hp as [Hst _]; [|done..]. cbn in Hst.
    eapply stepped_keeps; [done|exact Hst|..]; rewrite merged_lookup, lookup_empty by done; [apply Hobl|right; by apply Hobl].
  - exact (reload_keeps _ _ w _ _ _ Hkept Hobl Hperf).
  - exact (restart_keeps _ _ w _ _ _ _ _ Hkept Hobl Hperf).
Qed.

End actions.

(** ** Histories *)

Definition happens (allowed : Ledger → option payload → act → Prop) : relation (Ledger * option payload) :=
  rtc (fun x y => ∃ w a, allowed x.1 x.2 a ∧ perform x.1 x.2 w a = y).

Lemma happens_kept P Q k allowed x y :
  k ≠ "" → (∀ l stored a, allowed l stored a → obliged P Q k l stored a) →
  happens allowed x y → kept P Q k x.1 x.2 → kept P Q k y.1 y.2.
Proof.
  intros Hk Hall. induction 1 as [|x y z (w & a & Ha & Hp) _ IH]; [done|]. intros Hkept. apply IH.
  destruct y as [l' s']. eapply perform_keeps; [done|exact Hkept|by apply Hall|done].
Qed.

(** The removal records this purge does not touch. *)
Definition notPurged (k : string) (l : Ledger) (now : string) : Prop :=
  entries (purgeExpiredTombstonesLocked l now) !! k = entries l !! k.

Lemma purge_other k k0 tomb l now :
  k0 ≠ k → entries (purgeExpiredTombstonesLocked (EnrolledLedger.put k0 tomb l) now) !! k =
           entries (purgeExpiredTombstonesLocked l now) !! k.
Proof.
  intros Hne. unfold purgeExpiredTombstonesLocked. destruct (parse_rfc3339 _); cbn; [|by apply lookup_insert_ne].
  apply option_eq. intros e. rewrite !map_lookup_filter_Some. by rewrite lookup_insert_ne.
Qed.

Lemma purge_fresh k tomb l now :
  en_RemovedAt tomb = now → entries (purgeExpiredTombstonesLocked (EnrolledLedger.put k tomb l) now) !! k = Some tomb.
Proof.
  intros Hnow. unfold purgeExpiredTombstonesLocked. destruct (parse_rfc3339 (trim_space now)) as [t|] eqn:Ht; cbn; [|apply lookup_insert_eq].
  apply map_lookup_filter_Some. split; [apply lookup_insert_eq|]. cbn. unfold expiredTombstone. rewrite Hnow, Ht, Z.sub_diag.
  by rewrite andb_false_r.
Qed.

Lemma seeds_skip k seeds now l :
  k ∉ (NormalizeIdentity <$> seeds) → entries (SeedFromStatic l seeds now) !! k = entries l !! k.
Proof.
  unfold SeedFromStatic. revert l. induction seeds as [|id seeds IH]; intros l; [done|].
  rewrite fmap_cons, not_elem_of_cons. intros [Hne Hs]. cbn [foldl]. cbv zeta. rewrite IH by done.
  destruct (is_empty _); [done|]. destruct (entries l !! _); [done|]. cbn. by rewrite lookup_insert_ne.
Qed.

Lemma retired_same tenant now e : ofTenant tenant e = false → retired tenant now e = e.
Proof. unfold retired. by intros ->. Qed.

Lemma retired_out tenant now e : en_Enabled e = false → en_Enabled (retired tenant now e) = false.
Proof. unfold retired. by destruct (_ && _). Qed.

Lemma repoint_same g oldKey n now e :
  en_DeviceEnrolledAt (repoint g oldKey n now e) = en_DeviceEnrolledAt e ∧
  en_Enabled (repoint g oldKey n now e) = en_Enabled e.
Proof. unfold repoint. by destruct (_ && _). Qed.

(** *** An enrolled identity *)

Definition enrolled (o : option Entry) : Prop := ∃ e, o = Some e ∧ is_blank (en_DeviceEnrolledAt e) = false.

(** Nobody permits another enrolment of [k], removes it or erases its tenant; a bundle names
    it, with no newer permission; and there is a file. *)
Definition leavesEnrolled (k : string) (l : Ledger) (stored : option payload) (a : act) : Prop :=
  match a with
  | AReport id _ _ _ _ now => NormalizeIdentity id = k → is_blank now = false
  | AAllow id _ _ => NormalizeIdentity id ≠ k
  | ARemove id _ now => NormalizeIdentity id ≠ k ∧ notPurged k l now
  | ARemoveTenant _ tenant | ARetire tenant _ => ∀ e, entries l !! k = Some e → ofTenant (trim_space tenant) e = false
  | AMerge incoming _ =>
      ∃ e, named k incoming = Some e ∧ ∀ prev, entries l !! k = Some prev → en_ReenrolmentNonce e <= en_DeviceEnrolledNonce prev
  | AReplaceAll incoming _ => enrolled (named k incoming)
  | ARestart _ _ _ => persister l ≠ Memory
  | _ => True
  end.

Lemma enrolled_marker e e' : en_DeviceEnrolledAt e' = en_DeviceEnrolledAt e → enrolled (Some e) → enrolled (Some e').
Proof. intros He (? & [= <-] & Hm). exists e'. by rewrite He. Qed.

Lemma merge_unmarked k now e : en_DeviceEnrolledAt (mergeEntry None k now e) = en_DeviceEnrolledAt e.
Proof. unfold mergeEntry. by destruct (is_blank _). Qed.

Lemma merge_enrolled k now prev e :
  enrolled (Some prev) → en_ReenrolmentNonce e <= en_DeviceEnrolledNonce prev → enrolled (Some (mergeEntry (Some prev) k now e)).
Proof.
  intros (? & [= <-] & Hm) Hn. eexists. split; [done|]. unfold mergeEntry.
  set (e1 := if is_blank (en_UpdatedAt _) then _ else _). assert (en_ReenrolmentNonce e1 = en_ReenrolmentNonce e) as -> by (unfold e1; by case_match).
  rewrite Hm, (proj2 (Z.leb_le _ _) Hn). cbn. by case_match.
Qed.

Lemma leavesEnrolled_obliged k l stored a : leavesEnrolled k l stored a → obliged enrolled (λ _, True) k l stored a.
Proof.
  destruct a; cbn [leavesEnrolled obliged]; intros Ha; try done.
  - intros _ e Hby (e0 & He0 & Hm). destruct (Hby e0 He0) as [_ Hb]. by rewrite Hm in Hb.
  - intros Hid e [_ Hnow] _. exists e. rewrite Hnow. auto.
  - intros _ e Hby. split; [|done]. intros (e0 & He0 & Hm). exists e. split; [done|]. by rewrite Hby, He0.
  - intros Hid e (e0 & -> & Hm & _). split; [|done]. by apply enrolled_marker.
  - intros Hid e (e0 & -> & Hm & _). split; [|done]. by apply enrolled_marker.
  - intros Hid e (e0 & -> & Hm & _). split; [|done]. by apply enrolled_marker.
  - intros Hid e (e0 & -> & Hm & _). split; [|done]. by apply enrolled_marker.
  - destruct Ha as [Hne Hp]. intros tomb _ _. split; [|done]. rewrite purge_other by done. by rewrite Hp.
  - split; [|done]. intros (e & He & Hm). exists e. rewrite He. cbn. by rewrite retired_same by by apply Ha.
  - intros g oldKey n now'. split; [|done]. intros (e & He & Hm). rewrite He. cbn. eexists. split; [done|].
    by rewrite (proj1 (repoint_same g oldKey n now' e)).
  - destruct Ha as (e & -> & Hn). split; [|done]. intros (prev & Hprev & Hm). rewrite Hprev in Hn |- *. cbn.
    apply merge_enrolled; [by exists prev|by apply Hn].
  - destruct Ha as (e & -> & Hm). split; [|done]. intros _. apply (enrolled_marker e); [apply merge_unmarked|by exists e].
  - split; [done|by right].
Qed.

(** *** A device that was taken out *)

Definition out (o : option Entry) : Prop := ∃ e, o = Some e ∧ en_Enabled e = false.
Definition notIn (o : option Entry) : Prop := ∀ e, o = Some e → en_Enabled e = false.

(** No administrator lets [k] in again or erases its tenant, no removal purges its expired
    record, bundles name it as disabled, and a restart does not lose the ledger: it reads the
    file, or at least its static list does not name [k]. *)
Definition leavesOut (k : string) (l : Ledger) (stored : option payload) (a : act) : Prop :=
  match a with
  | AAdmit id _ _ _ _ _ _ | AAllow id _ _ => NormalizeIdentity id ≠ k
  | ASetEnabled id _ enabled _ => enabled = true → NormalizeIdentity id ≠ k
  | ARemove id _ now => NormalizeIdentity id = k ∨ notPurged k l now
  | ARemoveTenant _ tenant => ∀ e, entries l !! k = Some e → ofTenant (trim_space tenant) e = false
  | AMerge incoming _ | AReplaceAll incoming _ => out (named k incoming)
  | ARestart readsOk seeds _ =>
      persister l ≠ Memory ∧ (readsSnapshot readsOk stored = true ∨ k ∉ (NormalizeIdentity <$> seeds))
  | _ => True
  end.

Lemma merge_enabled prev k now e : en_Enabled (mergeEntry prev k now e) = en_Enabled e.
Proof. unfold mergeEntry. destruct prev, (is_blank _); try done; cbn; by repeat case_match. Qed.

Lemma out_enabled (f : Entry → Entry) o : (∀ e, en_Enabled e = false → en_Enabled (f e) = false) →
  (out o → out (f <$> o)) ∧ (notIn o → notIn (f <$> o)).
Proof.
  intros Hf. split.
  - intros (e & -> & He). eexists. split; [done|]. auto.
  - intros Ho e' (e & -> & ->)%fmap_Some. apply Hf. by apply Ho.
Qed.

Lemma out_some e o : en_Enabled e = false → (out o → out (Some e)) ∧ (notIn o → notIn (Some e)).
Proof. intros He. split; intros _; [by exists e|]. by intros ? [= <-]. Qed.

Lemma out_setting enabled o e : (enabled = None ∨ enabled = Some false) → bySetting enabled o e →
  (out o → out (Some e)) ∧ (notIn o → notIn (Some e)).
Proof.
  intros Hen (e0 & -> & _ & He). split.
  - intros (? & [= <-] & Hd). exists e. split; [done|]. rewrite He. by destruct Hen as [-> | ->].
  - intros Ho ? [= <-]. rewrite He. destruct Hen as [-> | ->]; [|done]. by apply Ho.
Qed.

Lemma leavesOut_obliged k l stored a : leavesOut k l stored a → obliged out notIn k l stored a.
Proof.
  assert (∀ o o', (out o → out o') ∧ (notIn o → notIn o') → (out o → out o') ∧ (mute l → notIn o → notIn o')) as Hmute by naive_solver.
  destruct a; cbn [leavesOut obliged]; intros Ha; try done.
  - intros _ e Hby (e0 & He0 & Hd). destruct (Hby e0 He0) as [Hen _]. by rewrite Hd in Hen.
  - intros _ e [Hby _] (e0 & He0 & Hd). by rewrite (Hby e0 He0) in Hd.
  - intros _ e Hby. apply Hmute. by apply (out_setting None); [left|].
  - intros _ e Hby. apply Hmute. by apply (out_setting None); [left|].
  - intros Hid e Hby. apply Hmute. apply (out_setting (Some enabled)); [|done]. destruct enabled; [by destruct Ha|by right].
  - intros _ e Hby. apply Hmute. by apply (out_setting None); [left|].
  - intros tomb Hen Hnow. apply Hmute. destruct (decide (NormalizeIdentity id = k)) as [<-|Hne].
    + rewrite purge_fresh by done. by apply out_some.
    + rewrite purge_other by done. destruct Ha as [|Ha]; [done|]. by rewrite Ha.
  - apply Hmute, out_enabled. intros e. apply retired_out.
  - intros g oldKey n now'. apply Hmute, out_enabled. intros e. by rewrite (proj2 (repoint_same g oldKey n now' e)).
  - destruct Ha as (e & -> & He). apply Hmute. eapply out_some. by rewrite merge_enabled.
  - destruct Ha as (e & -> & He). apply Hmute. eapply out_some. by rewrite merge_enabled.
  - destruct Ha as [Hm [Hr|Hs]]; (split; [done|]); [by left|right]. rewrite seeds_skip by done. by intros e.
Qed.

(** ** What a confirmed decision leaves *)

Lemma persist_confirmed l stored w l' stored' :
  persistCheckedLocked l stored w = (l', stored', true) →
  persister l' = persister l ∧ entries l' = entries l ∧ (persister l = Memory ∨ persistBlocked l = false ∧ w = Written) ∧
  (persister l ≠ Memory → stored' = Some (marshal (mkStateFile enrolledInventoryStateSchemaVersion (entries l) (groups l)))).
Proof.
  unfold persistCheckedLocked. destruct (persister l) eqn:Hp; [intros [= <- <-]; rewrite Hp; split_and!; [done..|by left|done]|..];
    (destruct (persistBlocked l) eqn:Hb; [done|]; destruct w; try done; intros [= <- <-]; cbn; rewrite Hp; auto 7).
Qed.

Lemma confirmed_keeps P Q k l stored w l' stored' :
  persister l ≠ Updating → P (entries l !! k) → persistCheckedLocked l stored w = (l', stored', true) →
  kept P Q k l' stored'.
Proof.
  intros Hu HP (Hp & He & _ & Hs)%persist_confirmed. split; rewrite ?Hp, ?He; auto.
  intros Hm. rewrite (Hs Hm). by apply row_marshal.
Qed.

Lemma kept_ext (P Q : option Entry → Prop) k l l' stored :
  persister l' = persister l → persistBlocked l' = persistBlocked l → entries l' = entries l →
  kept P Q k l stored → kept P Q k l' stored.
Proof. intros Hp Hb He [Ha Hm Hr]. unfold mute in Hm. split; unfold mute; rewrite ?Hp, ?Hb, ?He; auto. Qed.

Lemma enrolled_refused l stored w claimer id tenant group note now machineRef :
  enrolled (entries l !! NormalizeIdentity id) →
  ∃ err, (EnrollDeviceForTenantWithMachine l stored w claimer id tenant group note now machineRef).2 = Err err.
Proof.
  intros (e & He & Hm). unfold EnrollDeviceForTenantWithMachine. cbv zeta. destruct (is_empty _); [by eexists|].
  destruct (identityForMachineLocked _ _ _); [by eexists|].
  assert (∃ err, localRefusal l (NormalizeIdentity id) tenant (NormalizeMachineRef machineRef) = Some err) as (err & ->); [|by eexists].
  unfold localRefusal. rewrite He, Hm. cbv zeta. destruct (negb _); [by eexists|]. destruct (_ && _); by eexists.
Qed.

Lemma set_out l stored w id tenant now l1 s1 e :
  persister l ≠ Updating → SetEnabledContext l stored w id tenant false now = (l1, s1, Ok e) →
  kept out notIn (NormalizeIdentity id) l1 s1.
Proof.
  intros Hu Hset. unfold SetEnabledContext in Hset.
  assert (∃ r, setEnabledForTenant l stored w id tenant false now = (l1, s1, (Some e, r)) ∧ r = None) as (r & Hs & ->).
  { destruct (setEnabledForTenant _ _ _ _ _ _ _) as [[l2 s2] [[e2|] [err|]]]; destruct (persister l); simplify_eq; eauto. }
  clear Hset. unfold setEnabledForTenant in Hs. cbv zeta in Hs.
  destruct (entries l !! NormalizeIdentity id) as [before|]; [|done]. destruct (_ || _); [done|].
  destruct (persistCheckedLocked _ _ _) as [[l2 s2] []] eqn:Hp; simplify_eq.
  eapply confirmed_keeps; [|..|exact Hp]; [done|]. cbn. rewrite lookup_insert_eq. by eexists.
Qed.

Lemma removed_out l stored w id tenant now l1 s1 e :
  persister l ≠ Updating → RemoveCheckedContext l stored w id tenant now = (l1, s1, (Some e, None)) →
  kept out notIn (NormalizeIdentity id) l1 s1.
Proof.
  intros Hu Hrem. assert (∃ r, ifOwned None id tenant (fun c s w => RemoveChecked c s w id now) l stored w = (l1, s1, (r, None))) as (r & Hs).
  { unfold RemoveCheckedContext, viaShared, mutateShared in Hrem. destruct (ifOwned _ _ _ _ _ _ _) as [[l2 s2] [a err]].
    destruct (persister l); simplify_eq; eauto. }
  clear Hrem. unfold ifOwned in Hs. destruct (ownedEntry _ _ _); [done|]. unfold RemoveChecked in Hs. cbv zeta in Hs.
  destruct (entries l !! NormalizeIdentity id) as [removed|]; [|done]. destruct (isTombstone removed); [done|].
  destruct (persistCheckedLocked _ _ _) as [[l2 s2] []] eqn:Hp; [|done]. injection Hs as <- <- _.
  apply (kept_ext _ _ _ l2); [done..|]. eapply confirmed_keeps; [| |exact Hp].
  - unfold purgeExpiredTombstonesLocked. by destruct (parse_rfc3339 _).
  - rewrite purge_fresh by done. by eexists.
Qed.

End history.

(** ** Theorems *)

(** (C6) The ledger of an Edge that enrolled a device under a name never enrols
    another under it: after reports, edits, reloads, restarts and bundles, with every outcome of
    every save, each further enrolment of that name is refused, whatever the claims store says,
    until an administrator permits one or takes the device out, its tenant is erased, or a
    bundle withdraws it. *)
Theorem enrolled_identity_not_issued_again `{MapOrder} l stored w claimer id tenant group note now machineRef l1 s1 calls e l2 s2 :
  persister l ≠ Updating → is_blank now = false →
  EnrollDeviceForTenantWithMachine l stored w claimer id tenant group note now machineRef = (l1, s1, calls, Ok e) →
  happens (leavesEnrolled (NormalizeIdentity id)) (l1, s1) (l2, s2) →
  ∀ w' claimer' id' tenant' group' note' now' machineRef', NormalizeIdentity id' = NormalizeIdentity id →
  ∃ err, (EnrollDeviceForTenantWithMachine l2 s2 w' claimer' id' tenant' group' note' now' machineRef').2 = Err err.
Proof.
  intros Hu Hnow Henr Hhap w' claimer' id' tenant' group' note' now' machineRef' Hid.
  assert (NormalizeIdentity id ≠ "") as Hk.
  { intros Hem. unfold EnrollDeviceForTenantWithMachine in Henr. by rewrite Hem in Henr. }
  pose proof Henr as Henr'. apply enroll_edits in Henr' as (Hed & _ & Hok). destruct (Hok e eq_refl) as (He & Hm & Hst).
  assert (persister l1 = persister l) as Hp by (destruct Hed as [[-> _]|(? & _ & [? _ _ _])]; done).
  assert (enrolled (entries l1 !! NormalizeIdentity id)) as Hin by (rewrite He; exists e; by rewrite Hm).
  assert (kept enrolled (λ _, True) (NormalizeIdentity id) l2 s2) as [_ Hmem _].
  { apply (happens_kept _ _ _ _ _ _ Hk (leavesEnrolled_obliged _) Hhap). split; cbn; rewrite ?Hp; [done|by left|]. intros Hne. rewrite (Hst Hne). by apply row_marshal. }
  destruct Hmem as [Hin2|[[Hnm Hb] _]]; [apply enrolled_refused; by rewrite Hid|].
  destruct (EnrollDeviceForTenantWithMachine l2 _ _ _ _ _ _ _ _ _) as [[[l3 s3] calls3] r] eqn:Hagain.
  apply enroll_edits in Hagain as (_ & Hblocked & _). by destruct (Hblocked Hnm Hb) as [_ ?].
Qed.

(** (C5) On a ledger that is not kept in a shared row, a device that an administrator disabled
    or removed, with its save confirmed, is not admitted and the gate of the door refuses its
    handshake, after every history with every outcome of every save: of its own enrolments
    and reports, of edits, reloads and bundles that name it as disabled, and of restarts of a
    ledger with a file that read the file or have a static list without the device.  The
    history ends where an administrator lets that very device in again or erases its tenant,
    or where the record of its removal expires. *)
Theorem device_taken_out_stays_out `{MapOrder} l stored w id tenant now l1 s1 l2 s2 :
  persister l ≠ Updating → NormalizeIdentity id ≠ "" →
  (∃ e, SetEnabledContext l stored w id tenant false now = (l1, s1, Ok e)) ∨
  (∃ e, RemoveCheckedContext l stored w id tenant now = (l1, s1, (Some e, None))) →
  happens (leavesOut (NormalizeIdentity id)) (l1, s1) (l2, s2) →
  (∀ id', NormalizeIdentity id' = NormalizeIdentity id → IsAdmitted l2 id' = false) ∧
  ∀ (cfg : TransportDoor.secureTransportConfig (L := Ledger)) a cs leaf,
    TransportDoor.RequireEnrolledIdentity cfg = true → TransportDoor.EnrolledLedger cfg = Some l2 →
    head (TransportDoor.PeerCertificates cs) = Some leaf →
    NormalizeIdentity (TransportDoor.transportIdentityFromLeaf (Some leaf)) = NormalizeIdentity id →
    TransportDoor.VerifyConnection cfg a cs ≠ None.
Proof.
  intros Hu Hk Hact Hhap.
  assert (∀ id', NormalizeIdentity id' = NormalizeIdentity id → IsAdmitted l2 id' = false) as Hno.
  { assert (kept out notIn (NormalizeIdentity id) l2 s2) as [_ Hmem _].
    { apply (happens_kept _ _ _ _ _ _ Hk (leavesOut_obliged _) Hhap).
      destruct Hact as [[e He]|[e He]]; [by eapply set_out|by eapply removed_out]. }
    intros id' Hid. unfold IsAdmitted, EntryFor. rewrite Hid. destruct Hmem as [(e & -> & He)|[_ Hn]]; [done|].
    destruct (entries l2 !! _) eqn:He; [by apply Hn|done]. }
  split; [done|]. intros cfg a cs leaf Hreq Hl Hleaf Hid Hv. unfold TransportDoor.VerifyConnection in Hv.
  assert (TransportDoor.gateInstalled cfg = true) as Hgate.
  { unfold TransportDoor.gateInstalled. rewrite Hreq. by rewrite orb_true_r. }
  rewrite Hgate in Hv. destruct (TransportDoor.PeerCertificates cs) as [|c certs]; [done|]. injection Hleaf as ->.
  apply TransportDoor.firstError_none, Forall_cons in Hv as [_ [_ [Hen _]%Forall_cons]%Forall_cons].
  unfold TransportDoor.enrolmentCheck in Hen. rewrite Hreq, Hl in Hen. destruct (is_empty _); [done|].
  cbn [TransportDoor.IsAdmitted ledgerOfDoor] in Hen. by rewrite Hno in Hen.
Qed.

(** What the claims store answers for the device, if there is one. *)
Definition granted (claimer : option IdentityClaimer) (tenant k : string) (before : option Entry) : Prop :=
  match claimer with
  | None => True
  | Some claimer => ClaimIdentity claimer tenant k (default 0 (en_ReenrolmentNonce <$> before)) = Claimed
  end.

(** On the table of claims the calls leave this node holding nothing it did not hold, but for
    the claim of this very name and permission when the table failed to answer it, or its
    release. *)
Definition noClaimKept (tenant k : string) (grant : Z) (calls : list claim_call) : Prop :=
  ∀ c t t' row grant', IdentityClaims.runs c t calls t' → IdentityClaims.held c t' row grant' →
    IdentityClaims.held c t row grant' ∨
    row = IdentityClaims.claimRow tenant k ∧ grant' = grant ∧
      (calls = [Claim tenant k grant ClaimError] ∨
       calls = [Claim tenant k grant Claimed; Release tenant k grant false]).

Definition saves (l : Ledger) (w : write_outcome) : Prop :=
  persister l = Memory ∨ persistBlocked l = false ∧ w = Written.

Lemma mutate_cases l k tenant group note now complete :
  (∀ e, entries l !! k = Some e → en_Enabled e = true) →
  (∃ e, entries l !! k = Some e ∧ isTombstone e = true ∧
        enrollGroupMutateLocked l k tenant group note now false complete = (l, Err ErrIdentityRemoved)) ∨
  (∀ e, entries l !! k = Some e → isTombstone e = false) ∧
  ∃ e, enrollGroupMutateLocked l k tenant group note now false complete =
         (bump (EnrolledLedger.put k (complete e) l), Ok (complete e)) ∧
    en_Enabled e = true ∧ en_TenantID e = trim_space tenant ∧
    en_ReenrolmentNonce e = default 0 (en_ReenrolmentNonce <$> entries l !! k).
Proof.
  intros Hen. unfold enrollGroupMutateLocked. destruct (entries l !! k) as [e0|] eqn:He0; cbv zeta.
  - destruct (isTombstone e0) eqn:Ht; [left; by exists e0|right]. rewrite (Hen e0) by done. cbn [negb andb].
    split; [by intros ? [= <-]|]. eexists. split; [done|]. destruct (nonempty _), (is_blank _); done.
  - right. split; [done|]. eexists. split; [done|]. destruct (nonempty _), (is_blank _); done.
Qed.

Lemma persist_saves l stored w :
  let '(l', _, ok) := persistCheckedLocked l stored w in (ok = true ↔ saves l w) ∧ entries l' = entries l ∧ groups l' = groups l.
Proof.
  unfold persistCheckedLocked, saves. destruct (persister l); [split_and!; naive_solver|..];
    (destruct (persistBlocked l); [split_and!; [naive_solver|done..]|]; destruct w; split_and!; naive_solver).
Qed.

Lemma nothing_against l k tenant m :
  localRefusal l k tenant m = None → ∀ e, entries l !! k = Some e → en_Enabled e = true.
Proof. unfold localRefusal. intros Hn e He. rewrite He in Hn. by destruct (en_Enabled e). Qed.

Lemma givenUp_kept tenant k grant calls :
  IdentityClaims.givenUp tenant k grant calls → noClaimKept tenant k grant calls.
Proof. intros Hg c t t' row grant' Hr Hh. by eapply IdentityClaims.givenUp_held. Qed.

(** What the claim of an enrolment answers, and the calls it has cost. *)
Lemma claim_cases l (claimer : option IdentityClaimer) tenant k :
  let grant := match entries l !! k with Some e => en_ReenrolmentNonce e | None => 0 end in
  let g := default 0 (en_ReenrolmentNonce <$> entries l !! k) in
  let '(answer, claims, release) := match claimer with
    | None => (Claimed, [], [])
    | Some claimer => let answer := ClaimIdentity claimer tenant k grant in
                      (answer, [Claim tenant k grant answer], [releaseCall claimer tenant k grant]) end in
  (answer = Claimed ↔ granted claimer tenant k (entries l !! k)) ∧
  (answer = Claimed → noClaimKept tenant k g (claims ++ release)) ∧
  (answer ≠ Claimed → noClaimKept tenant k g claims) ∧
  (answer = Claimed → claims = when (bool_decide (claimer ≠ None)) [Claim tenant k g Claimed]).
Proof.
  cbv zeta. assert (match entries l !! k with Some e => en_ReenrolmentNonce e | None => 0 end =
    default 0 (en_ReenrolmentNonce <$> entries l !! k)) as -> by (by destruct (entries l !! k)).
  destruct claimer as [claimer|]; cbn [granted].
  - split_and!; [done|..].
    + intros ->. apply givenUp_kept. constructor.
    + intros Hne. apply givenUp_kept. by constructor.
    + by intros ->.
  - split_and!; [done|..|done]; intros _; apply givenUp_kept; constructor.
Qed.

(** (C19) A device's enrolment succeeds exactly when the check made before its
    certificate is signed finds nothing against it, the name is not a removed one, the claims
    store grants it and the save is confirmed.  Then the device is in the ledger, enrolled
    under the permission in force, with one granted claim and no release.  Otherwise the
    ledger's devices are as before, and on the shared table, whatever other nodes do to it
    meanwhile, this node holds no claim that it did not hold before, unless the table failed
    to answer the claim or its release; and what the check finds is the very error the
    enrolment answers. *)
Theorem enrolment_is_all_or_nothing `{MapOrder} l stored w claimer id tenant group note now machineRef :
  let k := NormalizeIdentity id in
  let before := entries l !! k in
  let check := WouldRefuseEnrolment l id tenant machineRef in
  let '(l', _, calls, r) := EnrollDeviceForTenantWithMachine l stored w claimer id tenant group note now machineRef in
  ((∃ e, r = Ok e) ↔
     check = None ∧ (∀ e, before = Some e → isTombstone e = false) ∧ granted claimer tenant k before ∧ saves l w) ∧
  (∀ err, check = Some err → r = Err err ∧ calls = []) ∧
  match r with
  | Ok e => entries l' = <[k := e]> (entries l) ∧ en_Enabled e = true ∧ en_TenantID e = trim_space tenant ∧
            en_DeviceEnrolledAt e = now ∧ en_DeviceEnrolledNonce e = en_ReenrolmentNonce e ∧
            en_ReenrolmentNonce e = default 0 (en_ReenrolmentNonce <$> before) ∧
            calls = when (bool_decide (claimer ≠ None)) [Claim tenant k (en_ReenrolmentNonce e) Claimed]
  | Err _ => entries l' = entries l ∧ groups l' = groups l ∧
             noClaimKept tenant k (default 0 (en_ReenrolmentNonce <$> before)) calls
  end.
Proof.
  cbv zeta. set (k := NormalizeIdentity id). unfold EnrollDeviceForTenantWithMachine, WouldRefuseEnrolment. fold k. cbv zeta.
  set (g := default 0 (en_ReenrolmentNonce <$> entries l !! k)).
  assert (∀ err : error, ((∃ e : Entry, Err err = Ok e) ↔ Some err = None ∧
      (∀ e, entries l !! k = Some e → isTombstone e = false) ∧ granted claimer tenant k (entries l !! k) ∧ saves l w) ∧
    (∀ err', Some err = Some err' → @Err error Entry err = Err err' ∧ @nil claim_call = []) ∧
    entries l = entries l ∧ groups l = groups l ∧ noClaimKept tenant k g []) as Hnone.
  { intros err. split; [by split; [intros [? ?]|intros [? _]]|]. split; [by intros ? [= <-]|].
    split_and!; [done|done|]. apply givenUp_kept. constructor. }
  destruct (is_empty k); [apply Hnone|]. destruct (identityForMachineLocked _ _ _) as [other|]; [apply Hnone|].
  destruct (localRefusal _ _ _ _) as [err|] eqn:Href; [apply Hnone|]. clear Hnone.
  pose proof (nothing_against _ _ _ _ Href) as Hen.
  pose proof (claim_cases l claimer tenant k) as Hclaim. cbv zeta in Hclaim. fold g in Hclaim.
  set (claim := match claimer with None => _ | Some _ => _ end) in *.
  destruct claim as [[answer claims] release]. destruct Hclaim as (Hgr & Hback & Hheld & Htaken).
  destruct answer; [|split_and!; try done; [split; [by intros [? ?]|by intros (_ & _ & ?%Hgr & _)]|by apply Hheld]..].
  destruct (mutate_cases l k tenant group note now (fun e =>
      let e := e <| en_DeviceEnrolledAt := now |> <| en_DeviceEnrolledNonce := en_ReenrolmentNonce e |> in
      if nonempty (NormalizeMachineRef machineRef) then e <| en_MachineRef := NormalizeMachineRef machineRef |> else e) Hen)
    as [(e & He & Ht & Hm)|(Ht & e & Hm & He1 & He2 & He3)]; cbv zeta in Hm; rewrite Hm.
  - split; [split; [by intros [? ?]|]|split; [done|by split_and!; [..|apply Hback]]].
    intros (_ & Hnt & _). specialize (Hnt e He). by rewrite Ht in Hnt.
  - set (e' := if nonempty _ then _ else _).
    assert (en_Enabled e' = true ∧ en_TenantID e' = trim_space tenant ∧ en_DeviceEnrolledAt e' = now ∧
      en_DeviceEnrolledNonce e' = en_ReenrolmentNonce e' ∧ en_ReenrolmentNonce e' = g) as He'
      by (unfold e'; by destruct (nonempty _)).
    pose proof (persist_saves (bump (EnrolledLedger.put k e' l)) stored w) as Hp.
    destruct (persistCheckedLocked _ _ _) as [[l2 s2] ok]. destruct Hp as (Hok & Hes & Hgs). destruct ok.
    + split; [split; [intros _|by eexists]|].
      { split_and!; [done|done|by apply Hgr|by apply Hok]. }
      destruct He' as (? & ? & ? & ? & Hg). split; [done|].
      split_and!; [by rewrite Hes|done..|rewrite Hg; by apply Htaken].
    + split; [split; [by intros [? ?]|]|split; [done|split_and!; [by apply (restored _ _ _ e')|done|by apply Hback]]].
      intros (_ & _ & _ & Hs). by apply Hok in Hs.
Qed.

(** ** A laptop's life *)

Section examples.

#[local] Instance plainOrder : MapOrder := { iterate A l := l; iterate_perm A l := reflexivity l }.

Definition monday : string := "2026-08-24T08:00:00Z".
Definition tuesday : string := "2026-08-25T08:00:00Z".

(** An Edge with an empty file. *)
Definition edge : Ledger := (SetPersisterChecked NewLedger Plain (Some None)).1.

(** The laptop enrols on Monday. *)
Definition enrolment := EnrollDeviceForTenantWithMachine edge None Written None " Laptop-7" "acme" "office" "" monday "M-1".
Definition enrolledEdge : Ledger := enrolment.1.1.1.
Definition enrolledFile : option payload := enrolment.1.1.2.

(** The Edge restarts, and a bundle that was written before anybody heard of the enrolment
    arrives. *)
Definition bundle : list Entry := [(blankEntry "laptop-7") <| en_Enabled := true |> <| en_TenantID := "acme" |>].
Definition restarted : Ledger * option payload := perform enrolledEdge enrolledFile Written (ARestart true [] tuesday).
Definition bundled : Ledger * option payload := perform restarted.1 restarted.2 Written (AMerge bundle tuesday).

Lemma enrolled_identity_not_issued_again_witness :
  ∃ err, (EnrollDeviceForTenantWithMachine bundled.1 bundled.2 Written None "LAPTOP-7" "acme" "" "" tuesday "M-1").2 = Err err.
Proof.
  assert (∃ e, enrolment = (enrolledEdge, enrolledFile, [], Ok e)) as [e He] by (eexists; vm_compute; reflexivity).
  apply (enrolled_identity_not_issued_again edge None Written None " Laptop-7" "acme" "office" "" monday "M-1"
    enrolledEdge enrolledFile [] e bundled.1 bundled.2).
  - vm_compute. discriminate.
  - vm_compute. reflexivity.
  - exact He.
  - rewrite <- (surjective_pairing bundled). apply (rtc_l _ _ restarted).
    + exists Written, (ARestart true [] tuesday). split; [vm_compute; discriminate|vm_compute; reflexivity].
    + apply rtc_once. exists Written, (AMerge bundle tuesday). split; [|vm_compute; reflexivity].
      eexists. split; [vm_compute; reflexivity|]. intros prev Hprev. vm_compute in Hprev. injection Hprev as <-. vm_compute. discriminate.
  - vm_compute. reflexivity.
Defined.

(** The administrator removes it on Tuesday; it tries to enrol again. *)
Definition removal := RemoveCheckedContext bundled.1 bundled.2 Written "laptop-7" "acme" tuesday.
Definition removedEdge : Ledger * option payload := removal.1.
Definition knocked : Ledger * option payload :=
  perform removedEdge.1 removedEdge.2 Written (AEnroll None "laptop-7" "acme" "" "" tuesday "M-1").
(** The Edge restarts with a static list that still names it, and reads its file. *)
Definition seededRestart (readsOk : bool) : Ledger * option payload :=
  perform knocked.1 knocked.2 Written (ARestart readsOk ["laptop-7"] tuesday).

Lemma device_taken_out_stays_out_witness : IsAdmitted (seededRestart true).1 "LapTop-7 " = false.
Proof.
  apply (device_taken_out_stays_out bundled.1 bundled.2 Written "laptop-7" "acme" tuesday removedEdge.1 removedEdge.2
    (seededRestart true).1 (seededRestart true).2).
  - vm_compute. discriminate.
  - vm_compute. discriminate.
  - right. eexists. vm_compute. reflexivity.
  - rewrite <- (surjective_pairing removedEdge), <- (surjective_pairing (seededRestart true)). apply (rtc_l _ _ knocked).
    + exists Written, (AEnroll None "laptop-7" "acme" "" "" tuesday "M-1"). split; [exact I|vm_compute; reflexivity].
    + apply rtc_once. exists Written, (ARestart true ["laptop-7"] tuesday). split; [|vm_compute; reflexivity].
      split; [vm_compute; discriminate|left; vm_compute; reflexivity].
  - vm_compute. reflexivity.
Defined.

Lemma enrolment_is_all_or_nothing_witness : ∃ e, enrolment.2 = Ok e.
Proof.
  pose proof (enrolment_is_all_or_nothing edge None Written None " Laptop-7" "acme" "office" "" monday "M-1") as Hall.
  unfold enrolment. cbv zeta in Hall. destruct (EnrollDeviceForTenantWithMachine _ _ _ _ _ _ _ _ _ _) as [[[l' s'] calls] r].
  apply Hall. split; [vm_compute; reflexivity|]. split; [intros e He; vm_compute in He; discriminate|].
  split; [exact I|]. right. split; [vm_compute; reflexivity|reflexivity].
Defined.

(** *** A device comes back with the static list

    When the file cannot be read the Edge goes on with its static list, and admits the device
    an administrator has removed. *)
Example seeded_device_returns_when_file_unreadable :
  IsAdmitted removedEdge.1 "laptop-7" = false ∧ IsAdmitted (seededRestart false).1 "laptop-7" = true.
Proof. vm_compute. by split. Qed.

(** *** A permission that the fleet does not honour

    The laptop enrolled at an Edge under the first permission of an administrator.  It is
    removed, and permitted again: the removal has forgotten how many permissions there were,
    so this one carries the number of the one before, and the Edge keeps its mark. *)
Definition planeEntry : Entry :=
  (blankEntry "laptop-7") <| en_Enabled := true |> <| en_TenantID := "acme" |> <| en_ReenrolmentNonce := 1 |>.
Definition plane : Ledger := EnrolledLedger.put "laptop-7" planeEntry NewLedger.
Definition edgeOfPlane : Ledger :=
  EnrolledLedger.put "laptop-7" (planeEntry <| en_DeviceEnrolledAt := monday |> <| en_DeviceEnrolledNonce := 1 |>) NewLedger.

Definition planeRemoved : Ledger := (RemoveChecked plane None Written "laptop-7" tuesday).1.1.
Definition planePermitted : Ledger := (AllowReenrolment planeRemoved None Written "laptop-7" "acme" tuesday).1.1.
Definition follow (l : Ledger) (p : Ledger) : Ledger := (MergeAuthoritative l None Written (Authoritative p) tuesday).1.1.

Example permission_after_removal_is_not_honoured :
  (AllowReenrolment planeRemoved None Written "laptop-7" "acme" tuesday).2.2 = None ∧
  WouldRefuseEnrolment planePermitted "laptop-7" "acme" "M-1" = None ∧
  WouldRefuseEnrolment (follow (follow edgeOfPlane planeRemoved) planePermitted) "laptop-7" "acme" "M-1" =
    Some ErrIdentityAlreadyEnrolled.
Proof. vm_compute. split_and!; reflexivity. Qed.

End examples.

End EnrolledHistory.
