(* ===== verification/Effects.v ===== *)
(** * Programs that act on the world

    A pass of a program is a finite tree of effects.  The environment answers each effect,
    within what it may answer there, and the process may die before any of them: what holds
    of every state on the way is what a restart finds.  [wp] is the weakest precondition of
    an invariant of those states and of a condition on each effect when it is performed. *)

From stdpp Require Import base relations.
From S2P Require Import Prelude.

Section effects.
Context {effect : Type → Type} {world : Type}.

(** What the environment may answer, and the world afterwards. *)
Context (answers : ∀ X, effect X → world → X → world → Prop).

Inductive prog (A : Type) : Type :=
  | Ret (a : A)
  | Do {X : Type} (e : effect X) (k : X → prog A).
#[global] Arguments Ret {A} a.
#[global] Arguments Do {A X} e k.

Fixpoint pbind {A B} (p : prog A) (f : A → prog B) : prog B :=
  match p with
  | Ret a => f a
  | Do e k => Do e (fun x => pbind (k x) f)
  end.

Definition perform {X} (e : effect X) : prog X := Do e Ret.

Inductive pstep {A} : world * prog A → world * prog A → Prop :=
  | pstep_do X (e : effect X) k w x w' : answers X e w x w' → pstep (w, Do e k) (w', k x).

(** The states of a pass, up to its death or its end. *)
Definition passes {A} : relation (world * prog A) := rtc pstep.

(** An environment that is a function, and what a program does under it. *)
Fixpoint drive (oracle : ∀ X, effect X → world → X * world) {A} (n : nat) (c : world * prog A) : world * prog A :=
  match n, c with
  | S n, (w, Do e k) => let '(x, w') := oracle _ e w in drive oracle n (w', k x)
  | _, _ => c
  end.

Lemma drive_passes oracle {A} n (c : world * prog A) :
  (∀ X (e : effect X) w, answers X e w (oracle X e w).1 (oracle X e w).2) → passes c (drive oracle n c).
Proof.
  intros Ho. revert c. induction n as [|n IH]; intros [w p]; [apply rtc_refl|].
  destruct p as [a|X e k]; [apply rtc_refl|]. cbn [drive]. pose proof (Ho X e w) as Ha.
  destruct (oracle X e w) as [x w']. cbn in Ha. eapply rtc_l; [by constructor|]. apply IH.
Qed.

(** ** Weakest preconditions *)

Context (I : world → Prop) (pre : ∀ X, effect X → world → Prop).

Fixpoint wp {A} (p : prog A) (w : world) (Q : A → world → Prop) : Prop :=
  I w ∧
  match p with
  | Ret a => Q a w
  | @Do _ X e k => pre X e w ∧ ∀ x w', answers X e w x w' → wp (k x) w' Q
  end.

Lemma wp_here {A} (p : prog A) w Q : wp p w Q → I w.
Proof. destruct p; by intros [? _]. Qed.

Lemma wp_ret {A} (a : A) w (Q : A → world → Prop) : I w → Q a w → wp (Ret a) w Q.
Proof. done. Qed.

Lemma wp_do {X A} (e : effect X) (k : X → prog A) w Q :
  I w → pre X e w → (∀ x w', answers X e w x w' → wp (k x) w' Q) → wp (Do e k) w Q.
Proof. done. Qed.

Lemma wp_mono {A} (p : prog A) w (Q Q' : A → world → Prop) : (∀ a w, I w → Q a w → Q' a w) → wp p w Q → wp p w Q'.
Proof.
  intros HQ. revert w. induction p as [a|X e k IH]; intros w; cbn.
  - intros [HI H]. auto.
  - intros (HI & Hpre & H). split; [done|]. split; [done|]. eauto.
Qed.

Lemma wp_bind {A B} (p : prog A) (f : A → prog B) w Q : wp p w (fun a w' => wp (f a) w' Q) → wp (pbind p f) w Q.
Proof.
  revert w. induction p as [a|X e k IH]; intros w; cbn; [by intros [_ ?]|]. intros (HI & Hpre & H).
  split; [done|]. split; [done|]. eauto.
Qed.

Lemma wp_passes {A} (p : prog A) w Q w' p' : wp p w Q → passes (w, p) (w', p') → wp p' w' Q.
Proof.
  intros Hwp Hrun. remember (w, p) as c eqn:Hc. remember (w', p') as c' eqn:Hc'.
  revert w p Hwp Hc. induction Hrun as [|c1 c2 c3 Hstep _ IH]; intros w p Hwp ->; [by injection Hc' as -> ->|].
  inversion Hstep as [X e k w0 x w1 Ha]; simplify_eq. eapply IH; [done| |done]. destruct Hwp as (_ & _ & H). eauto.
Qed.

(** Every state on the way is good, every effect is performed where it may be, and every
    result is as promised. *)
Lemma wp_sound {A} (p : prog A) w Q w' p' :
  wp p w Q → passes (w, p) (w', p') →
  I w' ∧ match p' with Ret a => Q a w' | Do e _ => pre _ e w' end.
Proof.
  intros Hwp Hrun. pose proof (wp_passes _ _ _ _ _ Hwp Hrun) as H. split; [by eapply wp_here|].
  destruct p'; [by destruct H|by destruct H as (_ & ? & _)].
Qed.

End effects.
#[global] Arguments prog : clear implicits.
#[global] Arguments Ret {effect A} a.
#[global] Arguments Do {effect A X} e & k.

Declare Scope prog_scope.
Delimit Scope prog_scope with prog.
Notation "'do' x <- e ; p" := (Do e (fun x => p)) (at level 200, x name, e at level 100, p at level 200) : prog_scope.
Notation "'call' x <- p ; q" := (pbind p (fun x => q)) (at level 200, x pattern, p at level 100, q at level 200) : prog_scope.

(** Walks a program: answers every effect, follows every branch. *)
Ltac walk_one :=
  match goal with
  | |- wp _ _ _ (Ret _) _ _ => apply wp_ret
  | |- wp _ _ _ (Do _ _) _ _ => apply wp_do; [| |intros ? ? ?]
  | |- wp _ _ _ (pbind _ _) _ _ => apply wp_bind
  | |- wp _ _ _ (match ?x with _ => _ end) _ _ => destruct x eqn:?
  | |- wp _ _ _ (let '_ := ?x in _) _ _ => destruct x eqn:?
  end.
