(* ===== verification/UpdateVersion.v ===== *)
(** * Versions and manifests of the agent ([src/agentupdate/version.go], [manifest.go])

    Parsing, the order of versions with their pre-releases, versions that name the same
    release, and whether an endpoint may act on a manifest. *)

From Stdlib Require Import Ascii.
From stdpp Require Import base list strings.
From S2P Require Import Prelude.

Open Scope Z_scope.

Module UpdateVersion.

Record Version := mkVersion {
  Major : Z;
  Minor : Z;
  Patch : Z;
  PreRelease : string;
  Build : string;
}.

Definition Dirty (v : Version) : bool := existsb (fun part => equal_fold part "dirty") (split_byte "." (Build v)).

Definition Core (v : Version) : string :=
  let s := itoa (Major v) +:+ "." +:+ itoa (Minor v) +:+ "." +:+ itoa (Patch v) in
  if is_empty (PreRelease v) then s else s +:+ "-" +:+ PreRelease v.

Definition version_string (v : Version) : string :=
  if is_empty (Build v) then Core v else Core v +:+ "+" +:+ Build v.

(** The text up to the separator, and what follows it; [None]: it follows nothing. *)
Definition cutField (sep s : string) : option (string * string) :=
  match cut sep s with
  | None => Some (s, "")
  | Some (a, b) => if is_empty b then None else Some (a, b)
  end.

Definition leadingZero (p : string) : bool :=
  match p with String c (String _ _) => Ascii.eqb c "0" | _ => false end.

Definition component (p : string) : option Z :=
  n ← atoi p; if (n <? 0) || leadingZero p then None else Some n.

(** [None] is [ErrMalformed]. *)
Definition ParseVersion (s : string) : option Version :=
  let raw := trim_space s in
  if is_empty raw then None
  else
    '(raw, build) ← cutField "+" raw;
    '(raw, pre) ← cutField "-" raw;
    match split_byte "." raw with
    | [a; b; c] =>
        major ← component a; minor ← component b; patch ← component c;
        Some (mkVersion major minor patch pre build)
    | _ => None
    end.

(** ** The order *)

Definition compareNumbers (a b : Z) : Z := if a =? b then 0 else if a <? b then -1 else 1.

(** Two identifiers of a pre-release: numbers by value, below every text. *)
Definition compareIdentifiers (a b : string) : Z :=
  if String.eqb a b then 0
  else match atoi a, atoi b with
       | Some an, Some bn => compareNumbers an bn
       | Some _, None => -1
       | None, Some _ => 1
       | None, None => if String.ltb a b then -1 else 1
       end.

Fixpoint compareFields (a b : list string) : Z :=
  match a, b with
  | [], [] => 0
  | [], _ :: _ => -1
  | _ :: _, [] => 1
  | x :: a, y :: b => let c := compareIdentifiers x y in if c =? 0 then compareFields a b else c
  end.

Definition comparePreRelease (a b : string) : Z := compareFields (split_byte "." a) (split_byte "." b).

Definition CompareVersions (a b : Version) : Z :=
  if negb (Major a =? Major b) then if Major a <? Major b then -1 else 1
  else if negb (Minor a =? Minor b) then if Minor a <? Minor b then -1 else 1
  else if negb (Patch a =? Patch b) then if Patch a <? Patch b then -1 else 1
  else if String.eqb (PreRelease a) (PreRelease b) then 0
  else if is_empty (PreRelease a) then 1
  else if is_empty (PreRelease b) then -1
  else comparePreRelease (PreRelease a) (PreRelease b).

Definition SameVersion (a b : string) : bool :=
  let a := trim_space a in let b := trim_space b in
  if is_empty a || is_empty b then false
  else match ParseVersion a, ParseVersion b with
       | Some va, Some vb => CompareVersions va vb =? 0
       | _, _ => String.eqb a b
       end.

(** ** Manifests ([manifest.go]) *)

Record Manifest := mkManifest {
  m_Schema : string;
  m_Version : string;
  m_Platform : string;
  m_Arch : string;
  m_Channel : string;
  m_Delivery : string;
  m_ArtifactKind : string;
  m_ArtifactURL : string;
  m_ArtifactSHA256 : string;
  m_ArtifactSize : Z;
  m_MinFromVersion : string;
  m_ReleasedAt : string;
  m_NotAfter : string;
}.

Inductive manifest_error :=
  | ErrPlatformMismatch | ErrArchMismatch | ErrMalformed | ErrNotAnUpgrade | ErrMinFromNotMet.

Definition Applicable (m : Manifest) (currentVersion platform arch : string) : option manifest_error :=
  if negb (String.eqb (m_Platform m) platform) then Some ErrPlatformMismatch
  else if negb (String.eqb (m_Arch m) arch) then Some ErrArchMismatch
  else match ParseVersion currentVersion, ParseVersion (m_Version m) with
       | Some current, Some target =>
           if CompareVersions target current <=? 0 then Some ErrNotAnUpgrade
           else if is_blank (m_MinFromVersion m) then None
           else match ParseVersion (m_MinFromVersion m) with
                | None => Some ErrMalformed
                | Some minFrom => if CompareVersions current minFrom <? 0 then Some ErrMinFromNotMet else None
                end
       | _, _ => Some ErrMalformed
       end.

(** ** Comparators *)

Record ordering {A} (cmp : A → A → Z) : Prop := {
  ord_anti a b : cmp b a = - cmp a b;
  ord_trans a b c : cmp a b ≤ 0 → cmp b c ≤ 0 → cmp a c ≤ 0;
}.

Lemma ord_strict {A} (cmp : A → A → Z) a b c :
  ordering cmp → cmp a b ≤ 0 → cmp b c ≤ 0 → (cmp a b < 0 ∨ cmp b c < 0) → cmp a c < 0.
Proof.
  intros [Ha Ht] Hab Hbc Hs. pose proof (Ht _ _ _ Hab Hbc). destruct (Z.eq_dec (cmp a c) 0) as [He|]; [|lia]. exfalso.
  assert (cmp c a ≤ 0) as Hca by (rewrite Ha; lia). pose proof (Ha b c). pose proof (Ha a b).
  pose proof (Ht _ _ _ Hca Hab). pose proof (Ht _ _ _ Hbc Hca). lia.
Qed.

Lemma ord_refl {A} (cmp : A → A → Z) a : ordering cmp → cmp a a = 0.
Proof. intros [Ha _]. pose proof (Ha a a). lia. Qed.

Lemma ordering_numbers : ordering compareNumbers.
Proof.
  split; unfold compareNumbers; intros; repeat match goal with
    | |- context [?x =? ?y] => destruct (Z.eqb_spec x y)
    | |- context [?x <? ?y] => destruct (Z.ltb_spec x y)
    | H : context [?x =? ?y] |- _ => destruct (Z.eqb_spec x y)
    | H : context [?x <? ?y] |- _ => destruct (Z.ltb_spec x y)
    end; lia.
Qed.

(** First by one comparator, then by another. *)
Definition andThen {A} (c1 c2 : A → A → Z) (a b : A) : Z := if c1 a b =? 0 then c2 a b else c1 a b.

Lemma ordering_andThen {A} (c1 c2 : A → A → Z) : ordering c1 → ordering c2 → ordering (andThen c1 c2).
Proof.
  intros H1 H2. split; unfold andThen.
  - intros a b. rewrite (ord_anti _ H1 a b), (ord_anti _ H2 a b).
    destruct (Z.eqb_spec (c1 a b) 0) as [->|]; [done|]. destruct (Z.eqb_spec (- c1 a b) 0); lia.
  - intros a b c. destruct (Z.eqb_spec (c1 a b) 0) as [Hab|Hab], (Z.eqb_spec (c1 b c) 0) as [Hbc|Hbc]; intros H3 H4.
    + assert (c1 a c = 0) as ->; [|by apply (ord_trans _ H2 a b)].
      pose proof (ord_trans _ H1 a b c ltac:(lia) ltac:(lia)).
      pose proof (ord_trans _ H1 c b a ltac:(rewrite (ord_anti _ H1 b c); lia) ltac:(rewrite (ord_anti _ H1 a b); lia)).
      pose proof (ord_anti _ H1 a c). lia.
    + pose proof (ord_strict c1 a b c H1 ltac:(lia) ltac:(lia) ltac:(lia)). destruct (Z.eqb_spec (c1 a c) 0); lia.
    + pose proof (ord_strict c1 a b c H1 ltac:(lia) ltac:(lia) ltac:(lia)). destruct (Z.eqb_spec (c1 a c) 0); lia.
    + pose proof (ord_strict c1 a b c H1 ltac:(lia) ltac:(lia) ltac:(lia)). destruct (Z.eqb_spec (c1 a c) 0); lia.
Qed.

Lemma ordering_on {A B} (f : A → B) (cmp : B → B → Z) : ordering cmp → ordering (fun a b => cmp (f a) (f b)).
Proof. intros [Ha Ht]. split; eauto. Qed.

Definition compareText (a b : string) : Z := if String.eqb a b then 0 else if String.ltb a b then -1 else 1.

Lemma ltb_refl a : String.ltb a a = false.
Proof. destruct (String.ltb a a) eqn:H; [|done]. pose proof (wo_asym _ _ H). congruence. Qed.

Lemma ltb_total a b : String.ltb a b = false → String.ltb b a = false → a = b.
Proof. rewrite !string_ltb_leb, !negb_false_iff. intros. by apply String.leb_antisym. Qed.

Lemma compareText_le a b : compareText a b ≤ 0 ↔ String.ltb b a = false.
Proof.
  unfold compareText. destruct (String.eqb_spec a b) as [->|Hne]; [by rewrite ltb_refl|].
  destruct (String.ltb a b) eqn:Hab; [rewrite (wo_asym _ _ Hab); split; [done|lia]|].
  destruct (String.ltb b a) eqn:Hba; [split; [lia|done]|]. by destruct Hne; apply ltb_total.
Qed.

Lemma ordering_text : ordering compareText.
Proof.
  split.
  - intros a b. unfold compareText. rewrite (String.eqb_sym b). destruct (String.eqb_spec a b) as [|Hne]; [done|].
    destruct (String.ltb a b) eqn:Hab; [by rewrite (wo_asym _ _ Hab)|].
    destruct (String.ltb b a) eqn:Hba; [done|]. by destruct Hne; apply ltb_total.
  - intros a b c. rewrite !compareText_le. apply wo_negtrans.
Qed.

(** *** Identifiers, fields, versions *)

Definition identifierKind (s : string) : Z := match atoi s with Some _ => 0 | None => 1 end.
Definition identifierNumber (s : string) : Z := default 0 (atoi s).
Definition identifierText (s : string) : string := match atoi s with Some _ => "" | None => s end.

Lemma compareIdentifiers_fields a b :
  compareIdentifiers a b =
  andThen (fun a b => compareNumbers (identifierKind a) (identifierKind b))
    (andThen (fun a b => compareNumbers (identifierNumber a) (identifierNumber b))
       (fun a b => compareText (identifierText a) (identifierText b))) a b.
Proof.
  unfold compareIdentifiers, andThen, identifierKind, identifierNumber, identifierText.
  destruct (String.eqb_spec a b) as [->|Hne].
  - rewrite !(ord_refl compareNumbers) by apply ordering_numbers. cbn. symmetry. apply (ord_refl _ _ ordering_text).
  - destruct (atoi a) as [x|], (atoi b) as [y|]; cbn; [by destruct (Z.eqb_spec (compareNumbers x y) 0)|done..|].
    unfold compareText. by destruct (String.eqb_spec a b).
Qed.

Lemma ordering_identifiers : ordering compareIdentifiers.
Proof.
  assert (ordering (andThen (fun a b => compareNumbers (identifierKind a) (identifierKind b))
    (andThen (fun a b => compareNumbers (identifierNumber a) (identifierNumber b))
       (fun a b => compareText (identifierText a) (identifierText b))))) as [Ha Ht].
  { repeat apply ordering_andThen; (apply ordering_on; apply ordering_numbers || apply ordering_text). }
  split; intros *; rewrite !compareIdentifiers_fields; [apply Ha|apply Ht].
Qed.

Lemma compareFields_anti a b : compareFields b a = - compareFields a b.
Proof.
  revert b. induction a as [|x a IH]; intros [|y b]; cbn; try done.
  rewrite (ord_anti _ ordering_identifiers x y), IH.
  destruct (Z.eqb_spec (compareIdentifiers x y) 0) as [->|]; [done|].
  destruct (Z.eqb_spec (- compareIdentifiers x y) 0); lia.
Qed.

Lemma ordering_fields : ordering compareFields.
Proof.
  split; [apply compareFields_anti|]. intros a. induction a as [|x a IH]; intros [|y b] [|z c]; cbn; try lia.
  pose proof ordering_identifiers as Hi. pose proof (ord_trans _ Hi x y z) as Hle.
  pose proof (ord_strict _ x y z Hi) as Hs.
  assert (compareIdentifiers x y = 0 → compareIdentifiers y z = 0 → compareIdentifiers x z = 0) as Heq.
  { intros H1 H2. pose proof (Hle ltac:(lia) ltac:(lia)).
    pose proof (ord_trans _ Hi z y x ltac:(rewrite (ord_anti _ Hi y z); lia) ltac:(rewrite (ord_anti _ Hi x y); lia)).
    pose proof (ord_anti _ Hi x z). lia. }
  destruct (Z.eqb_spec (compareIdentifiers x y) 0) as [Hxy|], (Z.eqb_spec (compareIdentifiers y z) 0) as [Hyz|]; intros H1 H2.
  - rewrite (Heq Hxy Hyz). by apply (IH b).
  - destruct (Z.eqb_spec (compareIdentifiers x z) 0); [|apply Hle; lia]. exfalso. pose proof (Hs ltac:(lia) ltac:(lia) ltac:(lia)). lia.
  - destruct (Z.eqb_spec (compareIdentifiers x z) 0); [|apply Hle; lia]. exfalso. pose proof (Hs ltac:(lia) ltac:(lia) ltac:(lia)). lia.
  - destruct (Z.eqb_spec (compareIdentifiers x z) 0); [|apply Hle; lia]. exfalso. pose proof (Hs ltac:(lia) ltac:(lia) ltac:(lia)). lia.
Qed.

(** A release is above its pre-releases. *)
Definition releaseRank (s : string) : Z := if is_empty s then 1 else 0.

Lemma CompareVersions_fields a b :
  CompareVersions a b =
  andThen (fun a b => compareNumbers (Major a) (Major b))
    (andThen (fun a b => compareNumbers (Minor a) (Minor b))
      (andThen (fun a b => compareNumbers (Patch a) (Patch b))
        (andThen (fun a b => compareNumbers (releaseRank (PreRelease a)) (releaseRank (PreRelease b)))
          (fun a b => comparePreRelease (PreRelease a) (PreRelease b))))) a b.
Proof.
  assert (∀ x y z, (if negb (x =? y) then if x <? y then -1 else 1 else z) =
    if compareNumbers x y =? 0 then z else compareNumbers x y) as Hn.
  { intros x y z. unfold compareNumbers. destruct (Z.eqb_spec x y); [done|]. by destruct (x <? y). }
  unfold CompareVersions, andThen. rewrite 3!Hn.
  assert ((if String.eqb (PreRelease a) (PreRelease b) then 0
    else if is_empty (PreRelease a) then 1 else if is_empty (PreRelease b) then -1
    else comparePreRelease (PreRelease a) (PreRelease b)) =
    if compareNumbers (releaseRank (PreRelease a)) (releaseRank (PreRelease b)) =? 0
    then comparePreRelease (PreRelease a) (PreRelease b)
    else compareNumbers (releaseRank (PreRelease a)) (releaseRank (PreRelease b))) as ->; [|done].
  destruct (String.eqb_spec (PreRelease a) (PreRelease b)) as [->|Hne].
  - rewrite (ord_refl _ _ ordering_numbers). cbn. symmetry. apply (ord_refl _ _ ordering_fields).
  - unfold releaseRank. destruct (is_empty (PreRelease a)) eqn:Ha, (is_empty (PreRelease b)) eqn:Hb; try done.
    apply is_empty_true in Ha, Hb. congruence.
Qed.

Lemma ordering_versions : ordering CompareVersions.
Proof.
  assert (ordering (andThen (fun a b => compareNumbers (Major a) (Major b))
    (andThen (fun a b => compareNumbers (Minor a) (Minor b))
      (andThen (fun a b => compareNumbers (Patch a) (Patch b))
        (andThen (fun a b => compareNumbers (releaseRank (PreRelease a)) (releaseRank (PreRelease b)))
          (fun a b => comparePreRelease (PreRelease a) (PreRelease b))))))) as [Ha Ht].
  { repeat apply ordering_andThen;
      first [apply (ordering_on (fun v => Major v)), ordering_numbers
            |apply (ordering_on (fun v => Minor v)), ordering_numbers
            |apply (ordering_on (fun v => Patch v)), ordering_numbers
            |apply (ordering_on (fun v => releaseRank (PreRelease v))), ordering_numbers
            |apply (ordering_on (fun v => split_byte "." (PreRelease v))), ordering_fields]. }
  split; intros *; rewrite !CompareVersions_fields; [apply Ha|apply Ht].
Qed.

Lemma compare_equal a b : CompareVersions a b = 0 → CompareVersions b a = 0.
Proof. rewrite (ord_anti _ ordering_versions a b). lia. Qed.

Lemma compare_equal_trans a b c : CompareVersions a b = 0 → CompareVersions b c = 0 → CompareVersions a c = 0.
Proof.
  intros H1 H2. pose proof (ord_trans _ ordering_versions a b c ltac:(lia) ltac:(lia)).
  pose proof (ord_trans _ ordering_versions c b a
    ltac:(rewrite (ord_anti _ ordering_versions b c); lia) ltac:(rewrite (ord_anti _ ordering_versions a b); lia)).
  pose proof (ord_anti _ ordering_versions a c). lia.
Qed.

Lemma ParseVersion_trim s : ParseVersion (trim_space s) = ParseVersion s.
Proof. unfold ParseVersion. by rewrite trim_space_idemp. Qed.

Lemma SameVersion_sym a b : SameVersion a b = SameVersion b a.
Proof.
  unfold SameVersion. rewrite orb_comm. destruct (is_empty (trim_space b) || _); [done|].
  destruct (ParseVersion (trim_space a)) as [va|], (ParseVersion (trim_space b)) as [vb|]; try apply String.eqb_sym.
  rewrite (ord_anti _ ordering_versions vb va).
  destruct (Z.eqb_spec (CompareVersions vb va) 0), (Z.eqb_spec (- CompareVersions vb va) 0); lia.
Qed.

Lemma SameVersion_trans a b c : SameVersion a b = true → SameVersion b c = true → SameVersion a c = true.
Proof.
  unfold SameVersion. destruct (is_empty (trim_space a)) eqn:Ha; [done|]. destruct (is_empty (trim_space b)) eqn:Hb; [done|].
  destruct (is_empty (trim_space c)) eqn:Hc; [done|]. cbn [orb].
  destruct (ParseVersion (trim_space a)) as [va|] eqn:Pa, (ParseVersion (trim_space b)) as [vb|] eqn:Pb,
    (ParseVersion (trim_space c)) as [vc|] eqn:Pc; rewrite ?Z.eqb_eq, ?String.eqb_eq; try congruence.
  apply compare_equal_trans.
Qed.

(** The comparison of versions is a total order on releases that ignores build metadata and
    puts a release above its pre-releases: comparing the other way round changes the sign, it
    is transitive, and versions that compare equal compare alike with every other.  Naming
    the same release is symmetric and transitive on all texts, parsed or not. *)
Theorem versions_are_ordered a b c :
  CompareVersions b a = - CompareVersions a b ∧
  (CompareVersions a b ≤ 0 → CompareVersions b c ≤ 0 →
     CompareVersions a c ≤ 0 ∧ (CompareVersions a b < 0 ∨ CompareVersions b c < 0 → CompareVersions a c < 0)) ∧
  (∀ build, CompareVersions (mkVersion (Major a) (Minor a) (Patch a) (PreRelease a) build) b = CompareVersions a b) ∧
  (∀ pre build, pre ≠ "" → CompareVersions (mkVersion (Major a) (Minor a) (Patch a) pre build)
                                            (mkVersion (Major a) (Minor a) (Patch a) "" build) < 0) ∧
  (∀ s t u, SameVersion s t = SameVersion t s ∧
            (SameVersion s t = true → SameVersion t u = true → SameVersion s u = true)).
Proof.
  split_and!.
  - apply (ord_anti _ ordering_versions).
  - intros H1 H2. split; [by apply (ord_trans _ ordering_versions a b)|]. by apply (ord_strict _ a b c ordering_versions).
  - done.
  - intros pre build Hp. unfold CompareVersions. cbn. rewrite !Z.eqb_refl. cbn.
    destruct (String.eqb_spec pre ""); [done|]. destruct (is_empty pre) eqn:He; [by apply is_empty_true in He|done].
  - intros s t u. split; [apply SameVersion_sym|apply SameVersion_trans].
Qed.

Lemma versions_are_ordered_witness :
  ∃ rc9 rc10, ParseVersion "0.3.0-rc.9+a1" = Some rc9 ∧ ParseVersion "0.3.0-rc.10" = Some rc10 ∧
    CompareVersions rc10 rc9 = 1 ∧ CompareVersions rc9 rc10 = -1.
Proof.
  eexists _, _. split; [vm_compute; reflexivity|]. split; [vm_compute; reflexivity|]. split; [vm_compute; reflexivity|].
  match goal with |- CompareVersions ?x ?y = _ => rewrite (proj1 (versions_are_ordered y x x)) end. vm_compute. reflexivity.
Defined.

End UpdateVersion.
