(* ===== verification/UpdateJournal.v ===== *)
(** * The updater's journal ([src/agentupdate/journal.go])

    What the updater remembers across its own death: where an attempt had got to, which
    versions failed or are refused on this device, which plan it has accepted and what it
    still owes the fleet.  Also [Reconcile] ([tick.go]), the quarantine of reports
    ([report_quarantine.go]) and which staged installers are done with ([staged_cleanup.go]).

    The sentences the code prints with [fmt.Sprintf] are values of [sentence]; how they read
    is the argument [say].  Timestamps are RFC 3339 texts. *)

From Stdlib Require Import Ascii.
From stdpp Require Import base gmap fin_maps list strings.
From S2P Require Import Prelude Trimmed GoStd UpdateVersion.
Import UpdateVersion.

Open Scope Z_scope.

Module UpdateJournal.

Definition SchemaJournal : string := "dsse_agent_update_journal.v1".

Definition PhaseIdle : string := "idle".
Definition PhaseVerified : string := "verified".
Definition PhaseSnapshotted : string := "snapshotted".
Definition PhaseDisarmed : string := "disarmed".
Definition PhaseExecuting : string := "executing".
Definition PhaseRollingBack : string := "rolling_back".
Definition PhaseObserving : string := "observing".
Definition PhaseCompleted : string := "completed".
Definition PhasePendingReboot : string := "pending_reboot".
Definition PhaseFailed : string := "failed".
Definition PhaseRolledBack : string := "rolled_back".
Definition PhaseUnrecoverable : string := "unrecoverable".

Definition interruptedPhases : list string :=
  [PhaseSnapshotted; PhaseDisarmed; PhaseExecuting; PhaseRollingBack; PhaseObserving].
Definition inFlightPhases : list string := [PhaseDisarmed; PhaseExecuting; PhaseRollingBack].

Definition KindUpdate : string := "update".
Definition KindRollback : string := "rollback".

(** ** Reports ([report.go]) *)

Record Report := mkReport {
  r_ID : string;
  r_DeviceID : string;
  r_TenantID : string;
  r_FromVersion : string;
  r_TargetVersion : string;
  r_RunningVersion : string;
  r_Status : string;
  r_Kind : string;
  r_Platform : string;
  r_Arch : string;
  r_Channel : string;
  r_ArtifactSHA256 : string;
  r_Reason : string;
  r_At : string;
  r_DroppedBefore : Z;
  r_Fingerprint : string;
  r_RejectedDigest : string;
}.

#[export] Instance Report_eta : Etaable Report := fun r =>
  mkReport (r_ID r) (r_DeviceID r) (r_TenantID r) (r_FromVersion r) (r_TargetVersion r) (r_RunningVersion r)
    (r_Status r) (r_Kind r) (r_Platform r) (r_Arch r) (r_Channel r) (r_ArtifactSHA256 r)
    (r_Reason r) (r_At r) (r_DroppedBefore r) (r_Fingerprint r) (r_RejectedDigest r).

Definition ReportInstalled : string := "installed".
Definition ReportFailed : string := "failed".
Definition ReportRolledBack : string := "rolled_back".
Definition ReportRefused : string := "refused".

Record QuarantinedReport := mkQuarantined {
  q_ID : string;
  q_Status : string;
  q_Version : string;
  q_At : string;
  q_Attempts : Z;
  q_Reason : string;
}.

(** ** The journal *)

Record Journal := mkJournal {
  j_Schema : string;
  j_TargetVersion : string;
  j_FromVersion : string;
  j_Phase : string;
  j_UpdatedAt : string;
  j_AttemptStartedAt : string;
  j_InFlightSince : string;
  j_Failures : gmap string Z;
  j_Poisoned : gmap string string;
  j_LastWaitReason : string;
  j_LastFailureReason : string;
  j_RestoreMaterial : list string;
  j_PlanGeneratedAt : string;
  j_PendingReport : option Report;
  j_DroppedOwedOutcomes : Z;
  j_LastDroppedOwedOutcome : string;
  j_PendingReportAttempts : Z;
  j_Quarantined : list QuarantinedReport;
  j_ReportedOutcomeEarned : bool;
  j_ReportedOutcomeAssumed : bool;
  j_ReportedOutcomeForgotten : bool;
  j_ReportedOutcome : string;
  j_TerminalSeq : Z;
  j_AttemptKind : string;
}.

#[export] Instance Journal_eta : Etaable Journal := fun j =>
  mkJournal (j_Schema j) (j_TargetVersion j) (j_FromVersion j) (j_Phase j) (j_UpdatedAt j) (j_AttemptStartedAt j)
    (j_InFlightSince j) (j_Failures j) (j_Poisoned j) (j_LastWaitReason j) (j_LastFailureReason j) (j_RestoreMaterial j)
    (j_PlanGeneratedAt j) (j_PendingReport j) (j_DroppedOwedOutcomes j) (j_LastDroppedOwedOutcome j)
    (j_PendingReportAttempts j) (j_Quarantined j) (j_ReportedOutcomeEarned j) (j_ReportedOutcomeAssumed j)
    (j_ReportedOutcomeForgotten j) (j_ReportedOutcome j) (j_TerminalSeq j) (j_AttemptKind j).

Definition NewJournal : Journal :=
  mkJournal SchemaJournal "" "" PhaseIdle "" "" "" ∅ ∅ "" "" [] "" None 0 "" 0 [] false false false "" 0 "".

Definition DefaultMaxAttempts : Z := 3.
Definition DefaultReportMaxAttempts : Z := 10.

Definition IsRollback (j : Journal) : bool := String.eqb (j_AttemptKind j) KindRollback.

Definition Interrupted (j : Journal) : bool := containsString interruptedPhases (j_Phase j).

Definition NeedsNetworkRecovery (j : Journal) : bool :=
  containsString [PhaseDisarmed; PhaseExecuting; PhaseRollingBack] (j_Phase j).

Definition terminal (j : Journal) : bool :=
  containsString [PhaseCompleted; PhaseRolledBack; PhaseFailed; PhaseUnrecoverable] (j_Phase j).

(** [now.UTC().Format(time.RFC3339)] *)
Definition stamp (now : Z) : string := format_rfc3339 now.

Definition AcceptedPlanFloor (j : Journal) : Z := default zero_time (parse_rfc3339 (j_PlanGeneratedAt j)).

Definition AcceptPlanFloor (generated : Z) (j : Journal) : Journal * bool :=
  if is_zero_time generated || negb (AcceptedPlanFloor j <? generated) then (j, false)
  else (j <| j_PlanGeneratedAt := stamp generated |>, true).

(** ** Transitions *)

Definition Begin (target from : string) (now : Z) (j : Journal) : Journal :=
  j <| j_Schema := SchemaJournal |> <| j_TargetVersion := target |> <| j_FromVersion := from |>
    <| j_AttemptStartedAt := stamp now |> <| j_InFlightSince := "" |> <| j_Phase := PhaseVerified |>
    <| j_UpdatedAt := stamp now |> <| j_AttemptKind := "" |>.

Definition BeginRollback (target from : string) (now : Z) (j : Journal) : Journal :=
  (Begin target from now j) <| j_AttemptKind := KindRollback |>.

Definition Refuse (version reason : string) (j : Journal) : Journal :=
  let v := trim_space version in
  if is_empty v then j else j <| j_Poisoned := <[v := reason]> (j_Poisoned j) |>.

Definition enterTerminal (p : string) (j : Journal) : Journal :=
  if containsString [PhaseCompleted; PhaseRolledBack; PhaseFailed] p
  then j <| j_TerminalSeq := wrap64 (j_TerminalSeq j + 1) |> else j.

Definition Enter (p : string) (now : Z) (j : Journal) : Journal :=
  let j := if String.eqb (j_Phase j) p then j else enterTerminal p j in
  let j := if containsString inFlightPhases p && is_empty (j_InFlightSince j)
           then j <| j_InFlightSince := stamp now |> else j in
  j <| j_Phase := p |> <| j_UpdatedAt := stamp now |>.

Definition RecordWait (reason : string) (now : Z) (j : Journal) : Journal :=
  j <| j_LastWaitReason := reason |> <| j_UpdatedAt := stamp now |>.

Definition failures (j : Journal) (v : string) : Z := default 0 (j_Failures j !! v).

(** The journal, and whether the version is now poisoned. *)
Definition RecordFailure (reason : string) (maxAttempts now : Z) (j : Journal) : Journal * bool :=
  let maxAttempts := if maxAttempts <=? 0 then DefaultMaxAttempts else maxAttempts in
  let v := trim_space (j_TargetVersion j) in
  if is_empty v then (Enter PhaseFailed now (j <| j_LastFailureReason := reason |>), false)
  else
    let n := wrap64 (failures j v + 1) in
    let j := Enter PhaseFailed now (j <| j_LastFailureReason := reason |> <| j_Failures := <[v := n]> (j_Failures j) |>) in
    if n <? maxAttempts then (j, false)
    else (j <| j_Poisoned := <[v := "failed " +:+ itoa n +:+ " times; last: " +:+ reason]> (j_Poisoned j) |>, true).

Definition RecordSuccess (now : Z) (j : Journal) : Journal :=
  let v := trim_space (j_TargetVersion j) in
  let j := if is_empty v then j else j <| j_Failures := delete v (j_Failures j) |> in
  Enter (if IsRollback j then PhaseRolledBack else PhaseCompleted) now j.

Definition IsPoisoned `{MapOrder} (j : Journal) (version : string) : option string :=
  match j_Poisoned j !! trim_space version with
  | Some reason => Some reason
  | None => snd <$> List.find (fun row => SameVersion row.1 version) (iterate (map_to_list (j_Poisoned j)))
  end.

Definition PoisonedVersions (j : Journal) : list string := sort_strings (fst <$> map_to_list (j_Poisoned j)).

(** ** What the fleet is owed *)

Definition OutcomeFingerprint (j : Journal) : string :=
  if containsString [PhaseCompleted; PhaseRolledBack] (j_Phase j)
  then j_Phase j +:+ "|" +:+ j_TargetVersion j +:+ "|" +:+ itoa (j_TerminalSeq j)
  else if String.eqb (j_Phase j) PhaseFailed
  then j_Phase j +:+ "|" +:+ j_TargetVersion j +:+ "|" +:+ itoa (failures j (j_TargetVersion j)) +:+
       "|" +:+ itoa (j_TerminalSeq j)
  else "".

Definition OwesOutcomeReport (j : Journal) : bool :=
  nonempty (OutcomeFingerprint j) && negb (String.eqb (OutcomeFingerprint j) (j_ReportedOutcome j)).

Definition MarkOutcomeReported (j : Journal) : Journal :=
  j <| j_ReportedOutcome := OutcomeFingerprint j |> <| j_ReportedOutcomeEarned := true |>
    <| j_ReportedOutcomeAssumed := false |>.

Definition MarkReportPending (r : Report) (j : Journal) : Journal := j <| j_PendingReport := Some r |>.

Definition MarkReportPendingIfFree (r : Report) (j : Journal) : Journal * bool :=
  match j_PendingReport j with
  | Some _ =>
      (j <| j_DroppedOwedOutcomes := wrap64 (j_DroppedOwedOutcomes j + 1) |>
         <| j_LastDroppedOwedOutcome := trim_space (r_Status r +:+ " " +:+ r_TargetVersion r) |>, false)
  | None => (MarkReportPending r j, true)
  end.

Definition ClearReportPending (j : Journal) : Journal := j <| j_PendingReport := None |>.
Definition ClearReportQueueFailures (j : Journal) : Journal := j <| j_PendingReportAttempts := 0 |>.

(** [report_quarantine.go]: also whether the device has given up on the report. *)
Definition RecordReportQueueFailure (reason : string) (maxAttempts now : Z) (j : Journal) : Journal * bool :=
  match j_PendingReport j with
  | None => (j, false)
  | Some lost =>
      let maxAttempts := if maxAttempts <=? 0 then DefaultReportMaxAttempts else maxAttempts in
      let n := wrap64 (j_PendingReportAttempts j + 1) in
      let j := j <| j_PendingReportAttempts := n |> in
      if n <? maxAttempts then (j, false)
      else
        let id := trim_space (r_ID lost) in
        let label := if is_empty id then trim_space (r_Status lost) else id in
        (j <| j_Quarantined := j_Quarantined j ++ [mkQuarantined label (trim_space (r_Status lost))
                                 (trim_space (r_TargetVersion lost)) (stamp now) n (trim_space reason)] |>
           <| j_ReportedOutcome := OutcomeFingerprint j |> <| j_ReportedOutcomeEarned := false |>
           <| j_ReportedOutcomeAssumed := false |> <| j_PendingReport := None |> <| j_PendingReportAttempts := 0 |>, true)
  end.

(** [rollback.go] *)
Definition TerminalReportStatus (j : Journal) : string :=
  if String.eqb (j_Phase j) PhaseRolledBack then ReportRolledBack
  else if String.eqb (j_Phase j) PhaseFailed then ReportFailed else ReportInstalled.

(** [id] is what [newReportID] draws; the platform and the architecture are those of the build. *)
Definition ReportFromJournal (j : Journal) (id status reason : string) (now : Z) : Report :=
  mkReport id "" "" (j_FromVersion j) (j_TargetVersion j) "" status (if IsRollback j then KindRollback else KindUpdate) "" ""
    "" "" reason (stamp now) 0 "" "".

Definition ReportOutcome (platform arch : string) (j : Journal) (id status running reason : string) (now : Z) : Report :=
  (ReportFromJournal j id status reason now) <| r_RunningVersion := running |> <| r_Platform := platform |>
    <| r_Arch := arch |>.

(** ** Journals of older builds *)

Definition completeLegacyPendingReport (sha256_prefix : string → string) (now : Z) (j : Journal) : Journal :=
  match j_PendingReport j with
  | None => j
  | Some r =>
      let r := if is_blank (r_At r)
               then r <| r_At := if is_blank (j_UpdatedAt j) then stamp now else trim_space (j_UpdatedAt j) |> else r in
      let r := if is_blank (r_ID r)
               then r <| r_ID := "aue_recovered_" +:+ sha256_prefix (j_TargetVersion j +:+ String "000"%char (r_At r)) |>
               else r in
      let r := if is_blank (r_TargetVersion r) then r <| r_TargetVersion := j_TargetVersion j |> else r in
      let r := if is_blank (r_Kind r) then r <| r_Kind := if IsRollback j then KindRollback else KindUpdate |> else r in
      j <| j_PendingReport := Some r |>
  end.

Definition flagLegacyReportedOutcomeAsAssumed (j : Journal) : Journal :=
  if is_empty (j_ReportedOutcome j) || j_ReportedOutcomeAssumed j || negb (j_TerminalSeq j =? 0) then j
  else if j_ReportedOutcomeEarned j || j_ReportedOutcomeForgotten j then j
  else j <| j_ReportedOutcomeAssumed := true |>.

Definition adoptLegacyReportedOutcome (j : Journal) : Journal :=
  if nonempty (j_ReportedOutcome j) || bool_decide (is_Some (j_PendingReport j)) || negb (j_TerminalSeq j =? 0) then j
  else if j_ReportedOutcomeForgotten j then j
  else if nonempty (OutcomeFingerprint j)
  then j <| j_ReportedOutcome := OutcomeFingerprint j |> <| j_ReportedOutcomeAssumed := true |> else j.

(** [LoadJournal], of what the file decodes to. *)
Definition loadedJournal (sha256_prefix : string → string) (now : Z) (j : Journal) : option Journal :=
  if String.eqb (j_Schema j) SchemaJournal then
    Some (adoptLegacyReportedOutcome (flagLegacyReportedOutcomeAsAssumed (completeLegacyPendingReport sha256_prefix now j)))
  else None.

Definition ForgetAssumedOutcome (j : Journal) : Journal * bool :=
  if negb (j_ReportedOutcomeAssumed j) || is_empty (j_ReportedOutcome j) then (j, false)
  else (j <| j_ReportedOutcome := "" |> <| j_ReportedOutcomeAssumed := false |> <| j_ReportedOutcomeForgotten := true |>, true).

(** ** How long an attempt has been changing the machine *)

Definition InstallGrace : Z := 10 * 60 * second.

Definition attemptStarted (j : Journal) : Z := default zero_time (parse_rfc3339 (j_AttemptStartedAt j)).

Definition installStarted (j : Journal) : Z :=
  match parse_rfc3339 (j_InFlightSince j) with Some t => t | None => attemptStarted j end.

Definition installYoungerThan (d now : Z) (j : Journal) : bool :=
  if is_zero_time (installStarted j) then false else time_sub now (installStarted j) <? d.

(** ** Staged installers ([staged_cleanup.go]) *)

Inductive StagedClearReason := StagedClearInstalled | StagedClearRefused.

Definition StagedClears `{MapOrder} (j : Journal) (dryRun : bool) : list (string * StagedClearReason) :=
  let version := j_TargetVersion j in
  if dryRun || is_empty version then []
  else if String.eqb (j_Phase j) PhaseCompleted then [(version, StagedClearInstalled)]
  else match IsPoisoned j version with Some _ => [(version, StagedClearRefused)] | None => [] end.

(** ** Closing an attempt ([tick.go]) *)

(** Why the running version is not known. *)
Inductive version_error := ErrAgentNotRunning | ErrRunningVersionUnknown | VersionUnreadable (why : string).

(** What is printed about an attempt, with its values. *)
Inductive sentence :=
  | StillOpen (rollback : bool) (target phase : string) (why : version_error)
  | DidNotLand (rollback : bool) (target phase running : string)
  | RolledBackTo (target refused : string)
  | CompletedAt (target : string)
  | InterruptedInPhase (target phase : string)
  | RefusedByRollback (target now leaving : string)
  | NothingToRefuse (target : string)
  | FetchFailed (why : string)
  | CouldNotStage (version why : string).

Definition Reconcile (running : result version_error string) (now : Z) (j : Journal) : Journal * bool * option sentence :=
  if negb (Interrupted j) then (j, false, None)
  else match running with
       | Err why => (j, false, Some (StillOpen (IsRollback j) (j_TargetVersion j) (j_Phase j) why))
       | Ok running =>
           if negb (SameVersion running (j_TargetVersion j))
           then (j, false, Some (DidNotLand (IsRollback j) (j_TargetVersion j) (j_Phase j) running))
           else
             let j := RecordSuccess now j in
             (j, true, Some (if IsRollback j then RolledBackTo (j_TargetVersion j) (j_FromVersion j)
                             else CompletedAt (j_TargetVersion j)))
       end.

End UpdateJournal.
