(* ===== verification/UpdateRollout.v ===== *)
(** * What the fleet's plan means on the device ([src/agentupdate/rollout.go], [plan.go])

    A couriered plan may always stop the device; it may start it only for the release it was
    computed for, on the device it is addressed to, while it is fresh and no older than a plan
    accepted before.  How a duration
    and [time.Parse]'s error read are the arguments [duration] and [time_error]. *)

From Stdlib Require Import Ascii.
From stdpp Require Import base list strings.
From S2P Require Import Prelude GoStd Common AgentRollout UpdateGate UpdateVersion.
Import UpdateVersion.

Open Scope Z_scope.

Module UpdateRollout.

(** A plan that decoded; its [SchemaVersion] is the expected one. *)
Record RolloutPlan := mkRolloutPlan {
  rp_TenantID : string;
  rp_DeviceIdentity : string;
  rp_Frozen : bool;
  rp_FrozenReason : string;
  rp_EligibleSince : string;
  rp_WaveReason : string;
  rp_TargetVersion : string;
  rp_Window : option AgentRollout.PlanWindow;
  rp_GeneratedAt : string;
}.

Definition emptyRolloutPlan : RolloutPlan := mkRolloutPlan "" "" false "" "" "" "" None "".

Record Rollout := mkRollout {
  ro_Plan : RolloutPlan;
  ro_Frozen : bool;
  ro_FrozenReason : string;
  ro_EligibleSince : Z;
  ro_Source : string;
  ro_PlanGeneratedAt : Z;
  ro_WaveWithheld : string;
}.

Record RolloutExpectation := mkExpectation {
  e_Version : string;
  e_NotBefore : Z;
  e_MaxAge : Z;
  e_DeviceIdentity : string;
  e_TenantID : string;
}.

Definition DefaultPlanMaxAge : Z := 24 * 3600 * second.
Definition PlanClockSkewTolerance : Z := 5 * UpdateGate.minute.

Definition frozenBy (why : string) : Rollout :=
  mkRollout emptyRolloutPlan true
    (why +:+ " — holding this device rather than falling back to an unfrozen default, because damaging the plan must not be a way to lift a halt")
    zero_time why zero_time "".

(** [None] for a text that is not a time; a blank one is no schedule. *)
Definition EligibleSinceTime (p : RolloutPlan) : option Z :=
  if is_blank (rp_EligibleSince p) then Some zero_time else parse_rfc3339 (rp_EligibleSince p).

Definition named (a b : string) : bool := nonempty a && nonempty b.

Definition otherDevice (p : RolloutPlan) (exp : RolloutExpectation) : bool :=
  named (rp_DeviceIdentity p) (e_DeviceIdentity exp) && negb (equal_fold (rp_DeviceIdentity p) (e_DeviceIdentity exp)).
Definition otherTenant (p : RolloutPlan) (exp : RolloutExpectation) : bool :=
  named (rp_TenantID p) (e_TenantID exp) && negb (String.eqb (rp_TenantID p) (e_TenantID exp)).
Definition addressedElsewhere (p : RolloutPlan) (exp : RolloutExpectation) : bool := otherDevice p exp || otherTenant p exp.

(** [d.Round(time.Minute)] of a positive duration, half away from zero. *)
Definition round_minute (d : Z) : Z :=
  let r := d mod UpdateGate.minute in
  if r + r <? UpdateGate.minute then d - r else Z.min int_max (d + UpdateGate.minute - r).

Section decide.
Context (duration : Z → string) (time_error : string → string).

(** Why the plan's wave does not open; [""] when it does. *)
Definition withholds (p : RolloutPlan) (generated now : Z) (exp : RolloutExpectation) : string :=
  if otherDevice p exp then
    "this plan is addressed to " +:+ rp_DeviceIdentity p +:+ " and this device is " +:+ e_DeviceIdentity exp +:+
    " — a plan issued for another device cannot open this one's wave, however validly it was signed"
  else if otherTenant p exp then
    "this plan belongs to tenant " +:+ rp_TenantID p +:+ " and this device belongs to " +:+ e_TenantID exp
  else if is_blank (e_Version exp) then "no release is being offered to this device, so no wave applies"
  else if is_blank (rp_TargetVersion p) then
    "this plan does not say which release its wave was computed for, so it cannot authorise one"
  else if negb (SameVersion (rp_TargetVersion p) (e_Version exp)) then
    "this plan's wave was computed for " +:+ rp_TargetVersion p +:+ " and this device is being offered " +:+ e_Version exp +:+
    " — a wave that opened for one release does not open another"
  else if is_zero_time generated then "this plan does not say when it was generated, so its age cannot be established"
  else if (0 <? e_MaxAge exp) && (e_MaxAge exp <? time_sub now generated) then
    "this plan was generated " +:+ duration (round_minute (time_sub now generated)) +:+ " ago (limit " +:+ duration (e_MaxAge exp) +:+
    ") — this device has not heard from the fleet in long enough that a release could have been withdrawn since"
  else "".

(** The second component is an [ErrPlanUnverifiable], with its cause. *)
Definition decideRollout (p : RolloutPlan) (path : string) (now : Z) (exp : RolloutExpectation) (source : string)
    : Rollout * option string :=
  match EligibleSinceTime p with
  | None =>
      let terr := "rollout plan eligible_since " +:+ quote (rp_EligibleSince p) +:+ " is not RFC3339: " +:+
                  time_error (rp_EligibleSince p) in
      (frozenBy ("the rollout plan at " +:+ path +:+ " carries an unusable wave start (" +:+ terr +:+ ")"), Some terr)
  | Some since =>
      if nonempty (rp_GeneratedAt p) && negb (bool_decide (is_Some (parse_rfc3339 (rp_GeneratedAt p)))) then
        (frozenBy ("the rollout plan at " +:+ path +:+ " says it was generated at " +:+ quote (rp_GeneratedAt p) +:+
                   ", which is not a time"), Some ("generated_at " +:+ quote (rp_GeneratedAt p) +:+ ": " +:+ time_error (rp_GeneratedAt p)))
      else
        let generated := default zero_time (parse_rfc3339 (rp_GeneratedAt p)) in
        if negb (is_zero_time generated) && (now + PlanClockSkewTolerance <? generated) then
          let withheld :=
            "this plan says it was generated " +:+ format_rfc3339 generated +:+ ", which is in this device's FUTURE (now " +:+
            format_rfc3339 now +:+ ") — its age cannot be established, and accepting it would set a floor no later plan could " +:+
            "clear. Check the clock on the machine that generated it" in
          (mkRollout p (rp_Frozen p) (rp_FrozenReason p) zero_time (source +:+ " — WAVE WITHHELD: " +:+ withheld) zero_time withheld,
           None)
        else if negb (addressedElsewhere p exp) && negb (is_zero_time (e_NotBefore exp)) && negb (is_zero_time generated)
                && (generated <? e_NotBefore exp) then
          (frozenBy ("the rollout plan at " +:+ path +:+ " was generated " +:+ format_rfc3339 generated +:+
                     ", which is OLDER than one this device has already accepted (" +:+ format_rfc3339 (e_NotBefore exp) +:+
                     ") — a halt cannot be lifted by replaying an earlier document"),
           Some "the plan is older than one already accepted")
        else
          let accepted := if addressedElsewhere p exp then zero_time else generated in
          let withheld := withholds p generated now exp in
          if nonempty withheld then
            (mkRollout p (rp_Frozen p) (rp_FrozenReason p) zero_time (source +:+ " — WAVE WITHHELD: " +:+ withheld) accepted withheld,
             None)
          else
            let source :=
              if nonempty (rp_DeviceIdentity p) && is_empty (e_DeviceIdentity exp) then
                source +:+ " — ★ this device could not confirm the plan is addressed to it (its own identity is " +:+
                "unknown here: the agent is stopped, or predates recording it)"
              else source in
            (mkRollout p (rp_Frozen p) (rp_FrozenReason p) since source accepted "", None)
  end.

(** ** Reading the plan ([LoadRollout]) *)

(** What the plan's file holds: nothing, something that cannot be read, a plan outside any
    envelope, or an envelope of a type, with what its payload decodes to - verified when a key
    is pinned.  A plan that does not decode strictly is an error with its text. *)
Inductive PlanFile :=
  | PlanAbsent
  | PlanUnreadable (why : string)
  | PlanBare (decoded : result string RolloutPlan)
  | PlanEnvelope (type : string) (payload : result string (result string RolloutPlan)).

Definition RolloutPlanEnvelopeType : string := "dsse_agent_update_plan.v1".

Definition LoadRollout (path : string) (pinned : bool) (file : PlanFile) (now : Z) (exp : RolloutExpectation)
    : Rollout * option string :=
  match file with
  | PlanAbsent => (mkRollout emptyRolloutPlan false "" zero_time "no rollout plan on this device" zero_time "", None)
  | PlanUnreadable why => (frozenBy ("the rollout plan at " +:+ path +:+ " could not be read (" +:+ why +:+ ")"), Some why)
  | PlanBare decoded =>
      if pinned then
        (frozenBy ("the rollout plan at " +:+ path +:+ " is not a signed envelope, and this device pins a plan-signing key"),
         Some "not a signed envelope")
      else
        match decoded with
        | Err why =>
            (frozenBy ("the rollout plan at " +:+ path +:+ " is neither a signed envelope nor a readable plan (" +:+ why +:+ ")"),
             Some why)
        | Ok p =>
            decideRollout p path now exp
              ("UNVERIFIED and UNSIGNED (this edge has no plan-signing key and this device pins none, " +:+
               "so the freeze is only as strong as this file's permissions)")
        end
  | PlanEnvelope type payload =>
      if negb (String.eqb type RolloutPlanEnvelopeType) then
        (frozenBy ("the document at " +:+ path +:+ " is a " +:+ quote type +:+ ", not a rollout plan"),
         Some ("envelope type " +:+ quote type +:+ ", want " +:+ quote RolloutPlanEnvelopeType))
      else
        match payload with
        | Err why =>
            (frozenBy (if pinned then "the rollout plan at " +:+ path +:+ " did not verify (" +:+ why +:+ ")"
                       else "the rollout plan at " +:+ path +:+ " has an unreadable payload"), Some why)
        | Ok (Err why) => (frozenBy ("the rollout plan at " +:+ path +:+ " is malformed (" +:+ why +:+ ")"), Some why)
        | Ok (Ok p) =>
            decideRollout p path now exp
              (if pinned then "verified against the pinned plan-signing key"
               else "UNVERIFIED (no plan-signing key is pinned on this device, so the freeze is only as strong as this file's permissions)")
        end
  end.

(** ** Properties *)

(** A text that starts with a letter is not blank. *)
Ltac not_blank :=
  match goal with |- is_blank ?x = true → _ =>
    let H := fresh in assert (is_blank x = false) as H by (by apply nonblank_head); rewrite H; discriminate end.

(** What a wave needs to open here. *)
Definition opens (p : RolloutPlan) (now : Z) (exp : RolloutExpectation) : Prop :=
  ∃ generated, parse_rfc3339 (rp_GeneratedAt p) = Some generated ∧
    generated ≤ now + PlanClockSkewTolerance ∧
    (0 < e_MaxAge exp → time_sub now generated ≤ e_MaxAge exp) ∧
    (e_NotBefore exp ≠ zero_time → e_NotBefore exp ≤ generated) ∧
    SameVersion (rp_TargetVersion p) (e_Version exp) = true ∧ addressedElsewhere p exp = false.

(** Whether the gate lets this rollout through. *)
Definition authorises (r : Rollout) : bool := negb (ro_Frozen r) && is_blank (ro_WaveWithheld r).

Lemma withholds_blank p generated now exp :
  is_blank (withholds p generated now exp) = true →
  withholds p generated now exp = "" ∧ addressedElsewhere p exp = false ∧
  SameVersion (rp_TargetVersion p) (e_Version exp) = true ∧ generated ≠ zero_time ∧
  (0 < e_MaxAge exp → time_sub now generated ≤ e_MaxAge exp).
Proof.
  unfold withholds, addressedElsewhere. destruct (otherDevice p exp); [not_blank|].
  destruct (otherTenant p exp); [not_blank|].
  destruct (is_blank (e_Version exp)); [done|]. destruct (is_blank (rp_TargetVersion p)); [done|].
  destruct (SameVersion _ _); [cbn [negb]|cbn [negb]; not_blank].
  unfold is_zero_time. destruct (Z.eqb_spec generated zero_time); [done|]. cbn [negb].
  destruct (Z.ltb_spec 0 (e_MaxAge exp)); cbn [andb]; [|intros _; split_and!; [done..|lia]].
  destruct (Z.ltb_spec (e_MaxAge exp) (time_sub now generated)); [not_blank|].
  done.
Qed.

(** What every decision on a plan has in common. *)
Lemma decide_cases p path now exp source :
  let '(r, e) := decideRollout p path now exp source in
  (ro_Frozen r = true ∧ e ≠ None ∧ ro_PlanGeneratedAt r = zero_time) ∨
  (ro_Frozen r = rp_Frozen p ∧ ro_FrozenReason r = rp_FrozenReason p ∧ e = None ∧
   (is_blank (ro_WaveWithheld r) = true → opens p now exp ∧ EligibleSinceTime p = Some (ro_EligibleSince r)) ∧
   (is_blank (ro_WaveWithheld r) = false → ro_EligibleSince r = zero_time) ∧
   (ro_PlanGeneratedAt r ≠ zero_time → parse_rfc3339 (rp_GeneratedAt p) = Some (ro_PlanGeneratedAt r) ∧
      addressedElsewhere p exp = false ∧ ro_PlanGeneratedAt r ≤ now + PlanClockSkewTolerance ∧
      (e_NotBefore exp ≠ zero_time → e_NotBefore exp ≤ ro_PlanGeneratedAt r))).
Proof.
  unfold decideRollout. destruct (EligibleSinceTime p) as [since|]; [|by left].
  destruct (nonempty (rp_GeneratedAt p) && _); [by left|].
  set (generated := default zero_time (parse_rfc3339 (rp_GeneratedAt p))).
  assert (generated ≠ zero_time → parse_rfc3339 (rp_GeneratedAt p) = Some generated) as Hparse.
  { subst generated. by destruct (parse_rfc3339 (rp_GeneratedAt p)). }
  unfold is_zero_time. destruct (Z.eqb_spec generated zero_time) as [Hz|Hnz]; cbn [negb andb].
  - rewrite !andb_false_r. cbn [andb].
    destruct (nonempty (withholds p generated now exp)) eqn:Hw; right; cbn [ro_Frozen ro_FrozenReason ro_EligibleSince ro_PlanGeneratedAt ro_WaveWithheld].
    + split_and!; [done..| |done|]; [|by destruct (addressedElsewhere p exp)].
      intros Hb. destruct (withholds_blank _ _ _ _ Hb) as (He & _). by rewrite He in Hw.
    + assert (withholds p generated now exp = "") as He by (apply is_empty_true; revert Hw; unfold nonempty; by destruct (is_empty _)).
      destruct (withholds_blank p generated now exp) as (_ & _ & _ & ? & _); [by rewrite He|done].
  - destruct (Z.ltb_spec (now + PlanClockSkewTolerance) generated) as [|Hskew].
    { right. cbn [ro_Frozen ro_FrozenReason ro_EligibleSince ro_PlanGeneratedAt ro_WaveWithheld]. split_and!; [done..| |done|done].
      not_blank. }
    cbn [andb]. rewrite andb_true_r.
    assert (e_NotBefore exp ≠ zero_time → addressedElsewhere p exp = false →
      negb (addressedElsewhere p exp) && negb (e_NotBefore exp =? zero_time) && (generated <? e_NotBefore exp) = false →
      e_NotBefore exp ≤ generated) as Hfloor.
    { intros Hn -> Hb. destruct (Z.eqb_spec (e_NotBefore exp) zero_time); [done|]. cbn in Hb. apply Z.ltb_ge in Hb. lia. }
    destruct (negb (addressedElsewhere p exp) && negb (e_NotBefore exp =? zero_time) && (generated <? e_NotBefore exp)); [by left|].
    destruct (nonempty (withholds p generated now exp)) eqn:Hw; right; cbn [ro_Frozen ro_FrozenReason ro_EligibleSince ro_PlanGeneratedAt ro_WaveWithheld].
    + split_and!; [done..| |done|].
      * intros Hb. destruct (withholds_blank _ _ _ _ Hb) as (He & _). by rewrite He in Hw.
      * destruct (addressedElsewhere p exp) eqn:Ha; [done|]. intros _. split_and!; auto.
    + assert (withholds p generated now exp = "") as He by (apply is_empty_true; revert Hw; unfold nonempty; by destruct (is_empty _)).
      destruct (withholds_blank p generated now exp) as (_ & Ha & Hv & _ & Hage); [by rewrite He|]. rewrite Ha in *.
      split_and!; [done..| |done|]; [|intros _; split_and!; auto].
      intros _. split; [|done]. exists generated. split_and!; auto.
Qed.

(** (C21) A plan may always stop the device and may start it only under conditions.  Whatever the file of
    the plan holds, if it is there and cannot be used the device is frozen, and says why; a
    plan in use freezes the device exactly when its operator halted the fleet, whoever it is
    addressed to and however old it is.  The gate is let through by a plan only if it was
    computed for the release being offered, is addressed to no other device and no other
    tenant where the plan and the device both name one, is not from the future, is not older
    than the limit where there is one, and not older than a plan accepted before.
    The date the device remembers as accepted then satisfies the same: it comes from no other
    device's plan, is not in the future, and never moves back. *)
Theorem a_plan_can_always_stop_the_device path pinned file now exp :
  let '(r, e) := LoadRollout path pinned file now exp in
  (file = PlanAbsent ∧ ro_Frozen r = false ∧ ro_PlanGeneratedAt r = zero_time ∧ e = None) ∨
  (ro_Frozen r = true ∧ e ≠ None ∧ ro_PlanGeneratedAt r = zero_time) ∨
  (∃ p, (file = PlanBare (Ok p) ∧ pinned = false ∨ file = PlanEnvelope RolloutPlanEnvelopeType (Ok (Ok p))) ∧ e = None ∧
    ro_Frozen r = rp_Frozen p ∧ (rp_Frozen p = true → authorises r = false) ∧
    (authorises r = true → opens p now exp) ∧
    (ro_PlanGeneratedAt r ≠ zero_time → addressedElsewhere p exp = false ∧
       ro_PlanGeneratedAt r ≤ now + PlanClockSkewTolerance ∧
       (e_NotBefore exp ≠ zero_time → e_NotBefore exp ≤ ro_PlanGeneratedAt r))).
Proof.
  assert (∀ p source, (file = PlanBare (Ok p) ∧ pinned = false ∨ file = PlanEnvelope RolloutPlanEnvelopeType (Ok (Ok p))) →
    let '(r, e) := decideRollout p path now exp source in
    (ro_Frozen r = true ∧ e ≠ None ∧ ro_PlanGeneratedAt r = zero_time) ∨
    (∃ p, (file = PlanBare (Ok p) ∧ pinned = false ∨ file = PlanEnvelope RolloutPlanEnvelopeType (Ok (Ok p))) ∧ e = None ∧
      ro_Frozen r = rp_Frozen p ∧ (rp_Frozen p = true → authorises r = false) ∧
      (authorises r = true → opens p now exp) ∧
      (ro_PlanGeneratedAt r ≠ zero_time → addressedElsewhere p exp = false ∧
         ro_PlanGeneratedAt r ≤ now + PlanClockSkewTolerance ∧
         (e_NotBefore exp ≠ zero_time → e_NotBefore exp ≤ ro_PlanGeneratedAt r)))) as Hd.
  { intros p source Hf. pose proof (decide_cases p path now exp source) as H.
    destruct (decideRollout p path now exp source) as [r e]. destruct H as [H|(Hz & _ & -> & Ho & _ & Hg)]; [by left|].
    right. exists p. unfold authorises. split; [done|]. split; [done|]. split; [done|]. split; [by rewrite Hz; intros ->|].
    split; [|intros Hn; by destruct (Hg Hn) as (_ & ? & ? & ?)].
    rewrite andb_true_iff. intros [_ Hb]. by apply Ho. }
  destruct file as [|why|[p|why]|type [[p|why]|why]]; cbn [LoadRollout]; [by left|by right; left|..].
  - destruct pinned; [by right; left|].
    match goal with |- let '(r, e) := decideRollout p path now exp ?source in _ => specialize (Hd p source) end.
    destruct (decideRollout _ _ _ _ _) as [r e]. right. apply Hd. by left.
  - destruct pinned; by right; left.
  - destruct (String.eqb_spec type RolloutPlanEnvelopeType) as [->|]; [|by right; left]. cbn [negb String.eqb].
    match goal with |- let '(r, e) := decideRollout p path now exp ?source in _ => specialize (Hd p source) end.
    destruct (decideRollout _ _ _ _ _) as [r e]. right. apply Hd. by right.
  - destruct (String.eqb_spec type RolloutPlanEnvelopeType); by right; left.
  - destruct (String.eqb_spec type RolloutPlanEnvelopeType); by right; left.
Qed.

(** What the gate makes of it. *)
Lemma gate_needs_authority w c r :
  UpdateGate.PlanHold c = ro_WaveWithheld r → (ro_Frozen r = true → UpdateGate.Frozen c = true) →
  UpdateGate.g_Proceed (UpdateGate.EvaluateGate w c) = true → authorises r = true.
Proof.
  unfold UpdateGate.EvaluateGate, authorises, is_blank, nonempty. intros -> Hf.
  destruct (is_empty (trim_space (ro_WaveWithheld r))); [|done]. destruct (ro_Frozen r); [by rewrite Hf|done].
Qed.

End decide.

(** A plan generated an hour ago for the release on offer lets the device start; the same plan
    for another device does not, and still halts it when it is frozen. *)
Definition examplePlan : RolloutPlan :=
  mkRolloutPlan "t1" "dev-1" false "" "2026-08-01T00:00:00Z" "pilot" "0.4.0" None "2026-08-14T09:00:00Z".
Definition exampleExpectation : RolloutExpectation :=
  mkExpectation "0.4.0+build7" zero_time DefaultPlanMaxAge "DEV-1" "t1".
Definition exampleNow : Z := default 0 (parse_rfc3339 "2026-08-14T10:00:00Z").
Definition decided (p : RolloutPlan) (exp : RolloutExpectation) : Rollout :=
  (LoadRollout (fun _ => "") (fun _ => "") "plan" true (PlanEnvelope RolloutPlanEnvelopeType (Ok (Ok p))) exampleNow exp).1.

Example plan_opens_its_own_device :
  authorises (decided examplePlan exampleExpectation) = true ∧
  authorises (decided examplePlan (mkExpectation "0.4.0" zero_time DefaultPlanMaxAge "dev-2" "t1")) = false ∧
  authorises (decided examplePlan (mkExpectation "0.5.0" zero_time DefaultPlanMaxAge "dev-1" "t1")) = false ∧
  ro_Frozen (decided (mkRolloutPlan "t1" "dev-1" true "bad release" "" "" "" None "2024-01-01T00:00:00Z")
               (mkExpectation "0.4.0" zero_time DefaultPlanMaxAge "dev-2" "t1")) = true.
Proof. vm_compute. split_and!; reflexivity. Qed.

End UpdateRollout.
