(* ===== verification/UpdateRunner.v ===== *)
(** * The order of an update ([src/agentupdate/runner.go], [rollback.go])

    One step of an attempt and the deliberate return to an older version, as programs over
    the platform's effects: which journal is written before which action, when steering is
    taken down and put back, and when the installer may be handed control.

    A pass may die before any effect; what the journal then holds is all a later pass knows.
    The reasons printed for an outcome are kept as their values. *)

From Stdlib Require Import Ascii.
From stdpp Require Import base gmap list strings relations.
From S2P Require Import Prelude Trimmed GoStd Common AgentRollout UpdateGate Effects UpdateVersion UpdateJournal.
Import UpdateVersion UpdateJournal.

Open Scope Z_scope.

Module UpdateRunner.

(** ** The platform *)

Inductive fetch_error := ErrNoManifest | FetchRejected (why digest : string).
Inductive stage_error := ErrDeliveryNotOurs | StageRefused (why : string).

(** What an attempt asks of its surroundings: [Platform], the journal file, and what [Tick]
    adds to them.  [None] for an error that was not returned. *)
Inductive effect : Type → Type :=
  | SaveJournal (j : Journal) : effect (option string)
  | RunningVersion : effect (result version_error string)
  | Conditions (now : Z) : effect UpdateGate.DeviceConditions
  | CaptureRestoreMaterial (m : Manifest) : effect (result string (list string))
  | RestoreMaterialFor (version : string) : effect (result string string)
  | DisarmBeforeUpdate : effect bool
  | Disarm : effect (option string)
  | Rearm : effect (option string)
  | Execute (m : Manifest) : effect (option string)
  | ExecuteRollback (pkg toVersion : string) : effect (option string)
  | NewReportID (now : Z) : effect string
  | LockDevice : effect (option string)
  | LoadJournal : effect (result string Journal)
  | Clock : effect Z
  | AppendReport (r : Report) : effect (option string)
  | RefusalAlreadyReported (fingerprint : string) : effect bool
  | MarkRefusal (fingerprint : string) : effect (option string)
  | ClearRefusal : effect unit
  | ClearStaged (version : string) : effect (option string)
  | Fetch (now : Z) : effect (result fetch_error Manifest)
  | Stage (m : Manifest) : effect (option stage_error).

Notation act := (prog effect).
Local Open Scope prog_scope.

(** ** Outcomes *)

Definition ActionNone : string := "none".
Definition ActionWaiting : string := "waiting".
Definition ActionExecuting : string := "executing".
Definition ActionWouldExecute : string := "would_execute".
Definition ActionInProgress : string := "in_progress".
Definition ActionRefused : string := "refused".
Definition ActionResumed : string := "resumed".
Definition ActionRollingBack : string := "rolling_back".
Definition ActionWouldRollBack : string := "would_roll_back".

(** [steeringSentence] *)
Inductive steering_note := SteeringUntouched | SteeringPutBack | SteeringUnconfirmed (why : option string).

(** What could be said of the build a rollback leaves. *)
Inductive leaving_note := LeavingRunning | LeavingInstalled (why : version_error) (leaving : string)
  | LeavingUnnamed (why : version_error).

Inductive reason :=
  | NoReason
  | Saying (s : string)
  | Underway (target phase : string) (since : Z)
  | StoppedInPhase (rollback : bool) (target phase : string) (checkNetwork compareVersion : bool)
  | PoisonedHere (version why : string)
  | Unassessable (version : string) (why : version_error)
  | NotApplicable (why : manifest_error)
  | GateWaits (d : UpdateGate.detail)
  | NothingToReturnTo (version why : string)
  | Rehearsed (version : string)
  | DisarmUnconfirmed (why : string)
  | LaunchRefused (why : string) (steering : steering_note)
  | SteeringLeftDown (rollback : bool) (why : string) (recording : option string)
  | HandedOver (version : string)
  | InstallerMayRun (target phase : string) (since : Z)
  | RolledBackAlready (target from : string)
  | NoPreviousVersion
  | RunsAlready (target : string)
  | NoPackage (target : string) (fromJournal : bool) (why : string)
  | WouldRollBack (pkg leaving : string) (note : leaving_note)
  | RollbackDisarmUnconfirmed (why : string)
  | RollbackRefused (target why leaving : string) (steering : steering_note)
  | RollbackHandedOver (target leaving : string) (note : leaving_note)
  | FetchedNothing
  | NotEvaluating (why : string)
  | EarlierOutcomeOwed
  | NothingNewer (running version : string)
  | DeliveredByMDM
  | CannotStage (version why : string) (poisoned : option string) (waitingSince : option Z).

Record Outcome := mkOutcome {
  Action : string;
  Reason : reason;
}.

Definition noOutcome : Outcome := mkOutcome "" NoReason.

Inductive run_error :=
  | NotRecorded (what why : string)
  | RunningVersionFailed (why : string)
  | LaunchNotRecorded (saving launching : string) (steering : option string)
  | LeftUnprotected (rollback : bool) (why : string) (recording : option string) (before : option run_error)
  | JournalUnreadable (why : string)
  | ManifestUnusable (why : string).

(** ** Configuration *)

Record Config := mkConfig {
  c_Window : UpdateGate.MaintenanceWindow;
  c_MaxAttempts : Z;
  c_Platform : string;
  c_Arch : string;
  c_SteeringSurvivesAgent : bool;
  c_PlanHold : string;
  c_Frozen : bool;
  c_EligibleSince : Z;
  c_DryRun : bool;
}.

#[export] Instance Config_eta : Etaable Config := fun c =>
  mkConfig (c_Window c) (c_MaxAttempts c) (c_Platform c) (c_Arch c) (c_SteeringSurvivesAgent c) (c_PlanHold c)
    (c_Frozen c) (c_EligibleSince c) (c_DryRun c).

(** The constants of [gate.go]. *)
Definition waitText (w : UpdateGate.wait) : string :=
  match w with
  | UpdateGate.WaitFrozen => "frozen"
  | UpdateGate.WaitPlanHold => "plan_cannot_authorise"
  | UpdateGate.WaitOutOfWindow => "out_of_window"
  | UpdateGate.WaitBusy => "busy"
  | UpdateGate.WaitIdleUnknown => "idle_unknown"
  | UpdateGate.WaitOnBattery => "on_battery"
  | UpdateGate.WaitPowerUnknown => "power_unknown"
  | UpdateGate.WaitInUse => "in_use"
  | UpdateGate.WaitInUseUnknown => "in_use_unknown"
  | UpdateGate.WaitNotYetInWave => "not_yet_in_wave"
  end.

(** What the device observes, overridden by what the plan decided; without a wave, the device
    has been eligible since its attempt was recorded. *)
Definition plannedConditions (cfg : Config) (j : Journal) (c : UpdateGate.DeviceConditions) : UpdateGate.DeviceConditions :=
  let since := if is_zero_time (c_EligibleSince cfg) then UpdateGate.EligibleSince c else c_EligibleSince cfg in
  let since := if is_zero_time since then default since (parse_rfc3339 (j_AttemptStartedAt j)) else since in
  UpdateGate.mkConditions (UpdateGate.LocalNow c) (UpdateGate.LocalOffset c) (UpdateGate.IdleFor c) (UpdateGate.IdleKnown c)
    (UpdateGate.InUse c) (UpdateGate.InUseKnown c) (UpdateGate.OnACPower c) (UpdateGate.PowerKnown c) since
    (c_Frozen cfg || UpdateGate.Frozen c) (c_PlanHold cfg).

(** ** Steering *)

Definition steeringUnconfirmed : string := "; ★ steering restoration could NOT be confirmed afterwards: ".
Definition steeringUncertain : string :=
  "; steering may already have been cleared; inspect the driver and normal network before another update attempt".

Definition failureWithSteering (reason : string) (disarmed restored : bool) (rerr : option string) : string :=
  match rerr with
  | Some why => if disarmed then reason +:+ steeringUnconfirmed +:+ why else reason
  | None => reason
  end.

Definition steeringSentence (disarmed restored : bool) (rerr : option string) : steering_note :=
  if negb disarmed then SteeringUntouched
  else if restored && negb (bool_decide (is_Some rerr)) then SteeringPutBack
  else SteeringUnconfirmed rerr.

Definition restoreSteering (disarmed : bool) : act (bool * option string) :=
  if disarmed then do rerr <- Rearm; Ret (true, rerr) else Ret (false, None).

(** ** Saving *)

Definition saver : Type := Journal → act (option string).
Definition writing : saver := fun j => perform (SaveJournal j).
(** What a rehearsal saves with. *)
Definition notWriting : saver := fun _ => Ret None.

(** How a step of [Run] or [Rollback] ends: the journal in memory, what it returns, and what
    its [defer] looks at. *)
Record Exit := mkExit {
  x_journal : Journal;
  x_out : Outcome;
  x_err : option run_error;
  x_disarmed : bool;
  x_launched : bool;
}.

(** The deferred restoration: whatever was taken down and not handed over is put back. *)
Definition restoreOnExit (rollback : bool) (save : saver) (x : Exit) : act (Journal * Outcome * option run_error) :=
  if negb (x_disarmed x) || x_launched x then Ret (x_journal x, x_out x, x_err x)
  else
    do rerr <- Rearm;
    match rerr with
    | None => Ret (x_journal x, x_out x, x_err x)
    | Some why =>
        let j := x_journal x in
        let j := j <| j_LastFailureReason := failureWithSteering (j_LastFailureReason j) true true (Some why) |> in
        call serr <- save j;
        Ret (j, mkOutcome ActionRefused (SteeringLeftDown rollback why serr), Some (LeftUnprotected rollback why serr (x_err x)))
    end.

(** [if err := save(j); err != nil { return Outcome{}, ... }] *)
Definition unless_unrecorded (save : saver) (what : string) (j : Journal)
    (k : act (Journal * Outcome * option run_error)) : act (Journal * Outcome * option run_error) :=
  call serr <- save j;
  match serr with
  | Some why => Ret (j, noOutcome, Some (NotRecorded what why))
  | None => k
  end.

(** ** One step of an attempt *)

Definition executeStep (save : saver) (m : Manifest) (cfg : Config) (now : Z) (disarmed : bool) (j : Journal) : act Exit :=
  let j := Enter PhaseExecuting now j in
  call serr <- save j;
  match serr with
  | Some why => Ret (mkExit j noOutcome (Some (NotRecorded "record the execute" why)) disarmed false)
  | None =>
      do xerr <- Execute m;
      match xerr with
      | None => Ret (mkExit j (mkOutcome ActionExecuting (HandedOver (m_Version m))) None disarmed true)
      | Some xerr =>
          call (restored, rerr) <- restoreSteering disarmed;
          let j := (RecordFailure (failureWithSteering ("execute failed: " +:+ xerr) disarmed restored rerr)
                      (c_MaxAttempts cfg) now j).1 in
          call serr <- save j;
          let out := mkOutcome ActionRefused (LaunchRefused xerr (steeringSentence disarmed restored rerr)) in
          match serr with
          | Some why => Ret (mkExit j out (Some (LaunchNotRecorded why xerr (if disarmed then rerr else None))) false false)
          | None => Ret (mkExit j out None false false)
          end
      end
  end.

Definition disarmStep (save : saver) (m : Manifest) (cfg : Config) (now : Z) (j : Journal) : act Exit :=
  do permitted <- DisarmBeforeUpdate;
  if permitted then
    let j := Enter PhaseDisarmed now j in
    call serr <- save j;
    match serr with
    | Some why => Ret (mkExit j noOutcome (Some (NotRecorded "record the disarm" why)) false false)
    | None =>
        do derr <- Disarm;
        match derr with
        | Some derr =>
            let j := (RecordFailure ("disarm failed: " +:+ derr +:+ steeringUncertain) (c_MaxAttempts cfg) now j).1 in
            call serr <- save j;
            match serr with
            | Some why => Ret (mkExit j noOutcome (Some (NotRecorded "record the disarm failure" why)) false false)
            | None => Ret (mkExit j (mkOutcome ActionRefused (DisarmUnconfirmed derr)) None false false)
            end
        | None => executeStep save m cfg now true j
        end
    end
  else executeStep save m cfg now false j.

Definition launchStep (save : saver) (m : Manifest) (cfg : Config) (now : Z) (j : Journal)
    : act (Journal * Outcome * option run_error) :=
  call x <- disarmStep save m cfg now j;
  restoreOnExit false save x.

(** Past the gate: restore material first, and a rehearsal stops before steering is touched. *)
Definition captureStep (save : saver) (m : Manifest) (cfg : Config) (now : Z) (j : Journal)
    : act (Journal * Outcome * option run_error) :=
  do material <- CaptureRestoreMaterial m;
  match material with
  | Err why => Ret (j, mkOutcome ActionRefused (NothingToReturnTo (m_Version m) why), None)
  | Ok material =>
      let j := Enter PhaseSnapshotted now (j <| j_RestoreMaterial := material |>) in
      unless_unrecorded save "record the snapshot" j
        (if c_DryRun cfg then Ret (j, mkOutcome ActionWouldExecute (Rehearsed (m_Version m)), None)
         else launchStep save m cfg now j)
  end.

Definition gateStep (save : saver) (m : Manifest) (cfg : Config) (now : Z) (j : Journal)
    : act (Journal * Outcome * option run_error) :=
  do observed <- Conditions now;
  let gate := UpdateGate.EvaluateGate (c_Window cfg) (plannedConditions cfg j observed) in
  if UpdateGate.g_Proceed gate then captureStep save m cfg now j
  else
    let j := RecordWait (from_option waitText "" (UpdateGate.g_WaitReason gate)) now j in
    unless_unrecorded save "record the wait" j (Ret (j, mkOutcome ActionWaiting (GateWaits (UpdateGate.g_Detail gate)), None)).

(** A new attempt, or the one already recorded, from the version that is running now. *)
Definition attemptStep (save : saver) (m : Manifest) (cfg : Config) (now : Z) (running : string) (j : Journal)
    : act (Journal * Outcome * option run_error) :=
  if negb (String.eqb (j_TargetVersion j) (m_Version m)) || is_empty (j_AttemptStartedAt j) || terminal j then
    let j := Begin (m_Version m) running now j in
    unless_unrecorded save "record the attempt start" j (gateStep save m cfg now j)
  else if nonempty running && negb (String.eqb (j_FromVersion j) running) then
    let j := j <| j_FromVersion := running |> in
    unless_unrecorded save "record the version this attempt is upgrading from" j (gateStep save m cfg now j)
  else gateStep save m cfg now j.

Definition runStep `{MapOrder} (save : saver) (m : Manifest) (cfg : Config) (now : Z) (j : Journal)
    : act (Journal * Outcome * option run_error) :=
  if Interrupted j && installYoungerThan InstallGrace now j then
    Ret (j, mkOutcome ActionInProgress (Underway (j_TargetVersion j) (j_Phase j) (time_sub now (attemptStarted j))), None)
  else if Interrupted j then
    let needsNetwork := NeedsNetworkRecovery j in
    let j' := Enter PhaseFailed now j in
    unless_unrecorded save "record the interrupted attempt" j'
      (Ret (j', mkOutcome ActionResumed (StoppedInPhase (IsRollback j) (j_TargetVersion j) (j_Phase j)
                  (needsNetwork && c_SteeringSurvivesAgent cfg) (needsNetwork && negb (c_SteeringSurvivesAgent cfg))), None))
  else
    match IsPoisoned j (m_Version m) with
    | Some why => Ret (j, mkOutcome ActionRefused (PoisonedHere (m_Version m) why), None)
    | None =>
        do running <- RunningVersion;
        match running with
        | Err (VersionUnreadable why) => Ret (j, noOutcome, Some (RunningVersionFailed why))
        | Err why => Ret (j, mkOutcome ActionRefused (Unassessable (m_Version m) why), None)
        | Ok running =>
            match Applicable m running (c_Platform cfg) (c_Arch cfg) with
            | Some why => Ret (j, mkOutcome ActionNone (NotApplicable why), None)
            | None => attemptStep save m cfg now running j
            end
        end
    end.

(** [Run]: the journal the caller holds afterwards, what happened, and the error. *)
Definition Run `{MapOrder} (m : Manifest) (cfg : Config) (now : Z) (j : Journal)
    : act (Journal * Outcome * option run_error) :=
  if c_DryRun cfg then call (_, out, err) <- runStep notWriting m cfg now j; Ret (j, out, err)
  else runStep writing m cfg now j.

(** ** Rolling back ([rollback.go]) *)

Record RollbackRequest := mkRollback {
  ToVersion : string;
  LeavingVersion : string;
}.

Definition executeRollbackStep (save : saver) (pkg target leaving : string) (note : leaving_note) (now : Z) (disarmed : bool)
    (j : Journal) : act Exit :=
  let j := Enter PhaseRollingBack now j in
  call serr <- save j;
  match serr with
  | Some why => Ret (mkExit j noOutcome (Some (NotRecorded "record the rollback launch" why)) disarmed false)
  | None =>
      do xerr <- ExecuteRollback pkg target;
      match xerr with
      | None => Ret (mkExit j (mkOutcome ActionRollingBack (RollbackHandedOver target leaving note)) None disarmed true)
      | Some xerr =>
          call (restored, rerr) <- restoreSteering disarmed;
          let j := Enter PhaseFailed now
                     (j <| j_LastFailureReason := failureWithSteering ("rollback launch failed: " +:+ xerr) disarmed restored rerr |>) in
          call serr <- save j;
          match serr with
          | Some why => Ret (mkExit j noOutcome (Some (NotRecorded "record the rollback failure" why)) false false)
          | None =>
              Ret (mkExit j (mkOutcome ActionRefused (RollbackRefused target xerr leaving (steeringSentence disarmed restored rerr)))
                     None false false)
          end
      end
  end.

Definition disarmRollbackStep (save : saver) (pkg target leaving : string) (note : leaving_note) (now : Z) (j : Journal) : act Exit :=
  do permitted <- DisarmBeforeUpdate;
  if permitted then
    let j := Enter PhaseDisarmed now j in
    call serr <- save j;
    match serr with
    | Some why => Ret (mkExit j noOutcome (Some (NotRecorded "record the disarm" why)) false false)
    | None =>
        do derr <- Disarm;
        match derr with
        | Some derr =>
            let j := Enter PhaseFailed now j in
            call serr <- save j;
            match serr with
            | Some why => Ret (mkExit j noOutcome (Some (NotRecorded "record the disarm failure" why)) false false)
            | None => Ret (mkExit j (mkOutcome ActionRefused (RollbackDisarmUnconfirmed derr)) None false false)
            end
        | None => executeRollbackStep save pkg target leaving note now true j
        end
    end
  else executeRollbackStep save pkg target leaving note now false j.

(** The version being left is refused in the same save that records the rollback. *)
Definition refusedByRollback (target leaving : string) (now : Z) (j : Journal) : Journal :=
  if nonempty leaving && negb (SameVersion leaving target) then
    Refuse leaving ("rolled back to " +:+ target +:+ " on " +:+ stamp now +:+ " by an operator; this device will not take " +:+
                    leaving +:+ " again until a different version is published") j
  else if nonempty leaving then
    RecordWait ("rolled back to " +:+ target +:+ ", which is also the version this device reports as installed; " +:+
                "nothing is refused, because refusing it would make the version being restored unavailable") now j
  else j.

Definition launchRollbackStep (save : saver) (pkg target leaving : string) (note : leaving_note) (now : Z) (j : Journal)
    : act (Journal * Outcome * option run_error) :=
  let j := refusedByRollback target leaving now (BeginRollback target leaving now j) in
  unless_unrecorded save "record the rollback" j
    (call x <- disarmRollbackStep save pkg target leaving note now j; restoreOnExit true save x).

(** An attempt that died is a failure; a rollback that died is counted against no version. *)
Definition recordInterrupted (now : Z) (j : Journal) : Journal :=
  let why := "an attempt at " +:+ j_TargetVersion j +:+ " was interrupted in phase " +:+ dquote +:+ j_Phase j +:+ dquote +:+
             " and never completed; it is recorded here because the rollback that follows would otherwise erase it" in
  if IsRollback j then Enter PhaseFailed now (j <| j_LastFailureReason := why |>)
  else Enter PhaseFailed now (RecordFailure why DefaultMaxAttempts now j).1.

(** The outcome of the attempt the rollback replaces, kept for the fleet. *)
Definition oweInterrupted (platform arch : string) (now : Z) (j : Journal) : act Journal :=
  if OwesOutcomeReport j then
    do id <- NewReportID now;
    Ret (MarkReportPendingIfFree (ReportOutcome platform arch j id (TerminalReportStatus j) "" (j_LastFailureReason j) now) j).1
  else if Interrupted j then
    let j := recordInterrupted now j in
    do id <- NewReportID now;
    Ret (MarkReportPendingIfFree (ReportOutcome platform arch j id ReportFailed "" (j_LastFailureReason j) now) j).1
  else Ret j.

(** The running version, the one being left, and what is known of it. *)
Definition leavingOf (req : RollbackRequest) (running : result version_error string) : string * string * leaving_note :=
  match running with
  | Ok running => (running, running, LeavingRunning)
  | Err why =>
      let leaving := trim_space (LeavingVersion req) in
      ("", leaving, if nonempty leaving then LeavingInstalled why leaving else LeavingUnnamed why)
  end.

Definition rollbackStep (build_platform build_arch : string) (save : saver) (req : RollbackRequest) (cfg : Config) (now : Z)
    (j : Journal) : act (Journal * Outcome * option run_error) :=
  if Interrupted j && installYoungerThan InstallGrace now j then
    Ret (j, mkOutcome ActionRefused (InstallerMayRun (j_TargetVersion j) (j_Phase j) (time_sub now (installStarted j))), None)
  else
    call j <- oweInterrupted build_platform build_arch now j;
    do answer <- RunningVersion;
    let '(running, leaving, note) := leavingOf req answer in
    let named := trim_space (ToVersion req) in
    let fromJournal := is_empty named in
    let target := if fromJournal then trim_space (j_FromVersion j) else named in
    if fromJournal && IsRollback j then
      Ret (j, mkOutcome ActionRefused (RolledBackAlready (j_TargetVersion j) (j_FromVersion j)), None)
    else if is_empty target then Ret (j, mkOutcome ActionRefused NoPreviousVersion, None)
    else if nonempty running && SameVersion target running then Ret (j, mkOutcome ActionNone (RunsAlready target), None)
    else
      do held <- RestoreMaterialFor target;
      match held with
      | Err why => Ret (j, mkOutcome ActionRefused (NoPackage target fromJournal why), None)
      | Ok pkg =>
          if c_DryRun cfg then Ret (j, mkOutcome ActionWouldRollBack (WouldRollBack pkg leaving note), None)
          else launchRollbackStep save pkg target leaving note now j
      end.

Definition Rollback (build_platform build_arch : string) (req : RollbackRequest) (cfg : Config) (now : Z) (j : Journal)
    : act (Journal * Outcome * option run_error) :=
  if c_DryRun cfg then call (_, out, err) <- rollbackStep build_platform build_arch notWriting req cfg now j; Ret (j, out, err)
  else rollbackStep build_platform build_arch writing req cfg now j.

End UpdateRunner.
