(* ===== verification/UpdateTick.v ===== *)
(** * One pass of the updater ([src/clients/windows-wfp/updateplatform/tick.go])

    Under the device's lock: hand over what the fleet is still owed, close an attempt whose
    outcome is now visible, fetch the manifest once and judge the plan against it, stage the
    bytes, let [Run] decide, and hand over what that decided.  [say] is how a sentence reads,
    [sha256_prefix] the first eight bytes of a digest in hexadecimal. *)

From Stdlib Require Import Ascii.
From stdpp Require Import base gmap list strings relations.
From S2P Require Import Prelude Trimmed GoStd Common AgentRollout UpdateGate Effects UpdateVersion UpdateJournal UpdateRollout UpdateRunner.
Import UpdateVersion UpdateJournal UpdateRunner.

Open Scope Z_scope.

Module UpdateTick.

Notation act := (prog effect).
Local Open Scope prog_scope.

(** The source, the platform, the journal's file and the network are effects. *)
Record TickDeps := mkDeps {
  d_Config : Config;
  d_ResolveRollout : option (Manifest → UpdateRollout.Rollout);
  d_ResolveWindow : option (UpdateRollout.Rollout → UpdateGate.MaintenanceWindow);
}.

Record TickResult := mkResult {
  t_Outcome : Outcome;
  t_Reconciled : bool;
  t_Notes : list string;
  t_Reports : list Report;
}.

#[export] Instance TickResult_eta : Etaable TickResult := fun t =>
  mkResult (t_Outcome t) (t_Reconciled t) (t_Notes t) (t_Reports t).

Definition noResult : TickResult := mkResult noOutcome false [] [].

Definition noted (n : string) (t : TickResult) : TickResult := t <| t_Notes := t_Notes t ++ [n] |>.
Definition reported (r : Report) (t : TickResult) : TickResult := t <| t_Reports := t_Reports t ++ [r] |>.
Definition concluding (action : string) (why : reason) (t : TickResult) : TickResult := t <| t_Outcome := mkOutcome action why |>.

Section tick.
Context `{MapOrder} (say : sentence → string) (sha256_prefix : string → string) (platform arch : string).

Definition ticksave (dry : bool) : saver := if dry then notWriting else writing.

(** ** What the fleet is owed *)

Definition flushPendingReport (dry : bool) (res : TickResult) (j : Journal) : act (TickResult * Journal) :=
  match j_PendingReport j with
  | None => Ret (res, j)
  | Some owed =>
      if dry then Ret (noted ("rehearsal: would have queued a " +:+ r_Status owed +:+ " outcome") res, j)
      else
        do aerr <- AppendReport owed;
        match aerr with
        | Some _ =>
            do clock <- Clock;
            let '(j, gaveUp) := RecordReportQueueFailure "the outbox refused the report" DefaultReportMaxAttempts clock j in
            call _ <- ticksave dry j;
            Ret (noted (if gaveUp then
                          "★ GAVE UP queueing a terminal outcome after " +:+ itoa DefaultReportMaxAttempts +:+
                          " attempts — the fleet will never hear about it, and this device is released so it can go on updating"
                        else
                          "a terminal outcome could not be queued for the fleet view; the report is held in the journal and " +:+
                          "the next pass will retry THAT report, so it counts once") res, j)
        | None =>
            let j := MarkOutcomeReported (ClearReportQueueFailures (ClearReportPending j)) in
            let res := reported owed res in
            call serr <- ticksave dry j;
            match serr with
            | Some why =>
                Ret (noted ("the pending outcome was queued and the journal could not be updated (" +:+ why +:+
                            "): it will be sent again, and the Edge de-duplicates it by id because the SAME report is retried") res, j)
            | None => Ret (res, j)
            end
        end
  end.

(** An outcome the journal owes becomes its pending report, if the slot is free. *)
Definition oweOutcome (dry : bool) (complaint running : string) (now : Z) (res : TickResult) (j : Journal)
    : act (TickResult * Journal) :=
  if OwesOutcomeReport j then
    do id <- NewReportID now;
    let j := (MarkReportPendingIfFree (ReportOutcome platform arch j id (TerminalReportStatus j) running
                (j_LastFailureReason j) now) j).1 in
    call serr <- ticksave dry j;
    Ret (match serr with Some why => noted (complaint +:+ why) res | None => res end, j)
  else Ret (res, j).

Definition RefusalFingerprint (version reason : string) : string :=
  sha256_prefix (trim_space version +:+ String "000"%char (trim_space reason)).

(** [AppendRefusal]: the report first, the marker once it is in place. *)
Definition AppendRefusal (r : Report) (fingerprint : string) : act (option string) :=
  let fingerprint := if is_blank fingerprint then r_Fingerprint r else fingerprint in
  if is_blank fingerprint then Ret (Some "a refusal with no fingerprint cannot be de-duplicated")
  else
    do already <- RefusalAlreadyReported fingerprint;
    if already then Ret None
    else
      do aerr <- AppendReport r;
      match aerr with
      | Some why => Ret (Some why)
      | None =>
          do werr <- MarkRefusal fingerprint;
          Ret (match werr with
               | Some why => Some ("the refusal is queued and the suppression marker could not be written (" +:+ why +:+
                                   "): it will be reported again next tick")
               | None => None
               end)
      end.

Definition refuse (version digest running why : string) (now : Z) (res : TickResult) (j : Journal) : act TickResult :=
  let fingerprint := RefusalFingerprint (version +:+ digest) why in
  do already <- RefusalAlreadyReported fingerprint;
  if already then Ret res
  else
    do id <- NewReportID now;
    let r := ReportOutcome platform arch j id ReportRefused running why now in
    let r := r <| r_Fingerprint := fingerprint |> <| r_TargetVersion := trim_space version |> <| r_FromVersion := "" |>
               <| r_RejectedDigest := digest |> in
    call aerr <- AppendRefusal r fingerprint;
    Ret (match aerr with Some _ => res | None => reported r res end).

(** ** The steps of a pass *)

Definition journalContext (j : Journal) (m : Manifest) (why : string) : reason :=
  CannotStage (m_Version m) why (IsPoisoned j (m_Version m))
    (if is_empty (j_AttemptStartedAt j) then None else parse_rfc3339 (j_AttemptStartedAt j)).

Fixpoint clearStaged (clears : list (string * StagedClearReason)) (res : TickResult) : act TickResult :=
  match clears with
  | [] => Ret res
  | (version, why) :: rest =>
      do cerr <- ClearStaged version;
      clearStaged rest
        match cerr with
        | None => res
        | Some e =>
            noted (match why with
                   | StagedClearRefused => "the staged installer for the refused version " +:+ version +:+ " could not be removed (" +:+ e +:+ ")"
                   | StagedClearInstalled =>
                       "the staged installer for " +:+ version +:+ " could not be removed (" +:+ e +:+ ") — it is a privileged " +:+
                       "install waiting at a predictable path, so it is worth clearing by hand"
                   end) res
        end
  end.

(** Let [Run] decide, and hand over what it decided. *)
Definition decideStep (cfg : Config) (m : Manifest) (running : string) (now : Z) (res : TickResult) (j : Journal)
    : act (TickResult * option run_error) :=
  call (j, out, err) <- Run m cfg now j;
  call (res, j) <- oweOutcome (c_DryRun cfg) "a terminal attempt could not be recorded for the fleet view: " running now res j;
  call (res, _) <- flushPendingReport (c_DryRun cfg) res j;
  match err with
  | Some e => Ret (res, Some e)
  | None => Ret (res <| t_Outcome := out |>, None)
  end.

(** The bytes on the disk, verified, before the gate - unless the fleet is frozen. *)
Definition acquireStep (cfg : Config) (m : Manifest) (running : string) (now : Z) (res : TickResult) (j : Journal)
    : act (TickResult * option run_error) :=
  if c_Frozen cfg then
    decideStep cfg m running now
      (noted "not staging: this fleet is frozen, and there is no window for the bytes to be ready for" res) j
  else
    do serr <- Stage m;
    match serr with
    | None => decideStep cfg m running now res j
    | Some ErrDeliveryNotOurs =>
        Ret (concluding ActionNone DeliveredByMDM
          (noted ("this manifest is MDM-delivered; DSSE is not fetching or installing it. " +:+
                  "★ What DSSE establishes here is the VERSION the running agent reports, not the bytes: the " +:+
                  "authorised digest is published and nothing on this endpoint compares it") res), None)
    | Some (StageRefused why) =>
        let complaint := "could not stage " +:+ m_Version m +:+ ": " +:+ why in
        let res := noted complaint (concluding ActionRefused (journalContext j m why) res) in
        if c_DryRun cfg then Ret (res, None)
        else call res <- refuse (m_Version m) "" running complaint now res j; Ret (res, None)
    end.

Definition stageStep (cfg : Config) (m : Manifest) (running : string) (now : Z) (res : TickResult) (j : Journal)
    : act (TickResult * option run_error) :=
  match Applicable m running (c_Platform cfg) (c_Arch cfg) with
  | Some ErrNotAnUpgrade => Ret (concluding ActionNone (NothingNewer running (m_Version m)) res, None)
  | _ => acquireStep cfg m running now res j
  end.

(** The configuration of this pass: the caller's, with what the plan decided on this manifest. *)
Definition passConfig (d : TickDeps) (m : Manifest) : Config :=
  match d_ResolveRollout d with
  | None => d_Config d
  | Some resolve =>
      let r := resolve m in
      let cfg := (d_Config d) <| c_Frozen := UpdateRollout.ro_Frozen r |> <| c_EligibleSince := UpdateRollout.ro_EligibleSince r |>
                   <| c_PlanHold := UpdateRollout.ro_WaveWithheld r |> in
      match d_ResolveWindow d with Some window => cfg <| c_Window := window r |> | None => cfg end
  end.

(** What is noted of the plan. *)
Definition rolloutNotes (r : UpdateRollout.Rollout) (res : TickResult) : TickResult :=
  let res := if UpdateRollout.ro_Frozen r && negb (is_blank (UpdateRollout.ro_FrozenReason r))
             then noted ("rollout frozen: " +:+ UpdateRollout.ro_FrozenReason r) res else res in
  if nonempty (UpdateRollout.ro_WaveWithheld r) then noted ("wave withheld: " +:+ UpdateRollout.ro_WaveWithheld r) res else res.

(** The plan is judged against the manifest of this pass, and the floor is raised under the lock. *)
Definition rolloutStep (d : TickDeps) (m : Manifest) (running : string) (now : Z) (res : TickResult) (j : Journal)
    : act (TickResult * option run_error) :=
  let cfg := passConfig d m in
  match d_ResolveRollout d with
  | None => stageStep cfg m running now res j
  | Some resolve =>
      let r := resolve m in
      let res := rolloutNotes r res in
      if is_zero_time (UpdateRollout.ro_PlanGeneratedAt r) then stageStep cfg m running now res j
      else
        let '(j, raised) := AcceptPlanFloor (UpdateRollout.ro_PlanGeneratedAt r) j in
        if raised && negb (c_DryRun cfg) then
          call serr <- ticksave (c_DryRun cfg) j;
          stageStep cfg m running now
            (match serr with Some why => noted ("could not record which plan this device has accepted: " +:+ why) res | None => res end) j
        else stageStep cfg m running now res j
  end.

Definition fetchStep (d : TickDeps) (running : string) (now : Z) (res : TickResult) (j : Journal)
    : act (TickResult * option run_error) :=
  do fetched <- Fetch now;
  match fetched with
  | Err ErrNoManifest => Ret (concluding ActionNone FetchedNothing res, None)
  | Err (FetchRejected why digest) =>
      if c_DryRun (d_Config d) then Ret (res, Some (ManifestUnusable why))
      else
        call res <- refuse "" digest running ("the update manifest could not be used: " +:+ why) now res j;
        Ret (res, Some (ManifestUnusable why))
  | Ok m => rolloutStep d m running now res j
  end.

(** What an earlier pass left owed; while it cannot be handed over, the pass goes no further. *)
Definition owedStep (d : TickDeps) (running : string) (now : Z) (res : TickResult) (j : Journal)
    : act (TickResult * option run_error) :=
  let dry := c_DryRun (d_Config d) in
  call (res, j) <- oweOutcome dry "an outcome left owed by an earlier pass could not be recorded: " running now res j;
  call (res, j) <- flushPendingReport dry res j;
  if bool_decide (is_Some (j_PendingReport j)) && negb dry then Ret (concluding ActionNone EarlierOutcomeOwed res, None)
  else fetchStep d running now res j.

(** An attempt that landed is closed and reported in one save. *)
Definition closeStep (d : TickDeps) (running : string) (note : string) (now : Z) (res : TickResult) (j : Journal)
    : act (TickResult * option run_error) :=
  let dry := c_DryRun (d_Config d) in
  do id <- NewReportID now;
  let j := MarkReportPending (ReportOutcome platform arch j id (if IsRollback j then ReportRolledBack else ReportInstalled)
             running note now) j in
  call serr <- ticksave dry j;
  match serr with
  | Some why => Ret (res, Some (NotRecorded "record the completed attempt" why))
  | None =>
      call (res, j) <- flushPendingReport dry res j;
      call _ <- (if dry then Ret tt else perform ClearRefusal);
      call res <- clearStaged (StagedClears j dry) res;
      owedStep d running now res j
  end.

Definition reconcileStep (d : TickDeps) (now : Z) (res : TickResult) (j : Journal) : act (TickResult * option run_error) :=
  do answer <- RunningVersion;
  let running := match answer with Ok v => v | Err _ => "" end in
  let '(j, changed, note) := Reconcile answer now j in
  match note with
  | None => owedStep d running now res j
  | Some s =>
      let res := noted (say s) res in
      if changed then closeStep d running (say s) now (res <| t_Reconciled := true |>) j
      else owedStep d running now res j
  end.

Definition Tick (d : TickDeps) (now : Z) : act (TickResult * option run_error) :=
  do held <- LockDevice;
  match held with
  | Some why => Ret (concluding ActionNone (NotEvaluating why) noResult, None)
  | None =>
      do loaded <- LoadJournal;
      match loaded with
      | Err why => Ret (noResult, Some (JournalUnreadable why))
      | Ok j =>
          call (res, j) <- flushPendingReport (c_DryRun (d_Config d)) noResult j;
          reconcileStep d now res j
      end
  end.

(** The operator's command ([runRollback] of [updater/main_windows.go]): what it prints is left out. *)
Definition runRollback (cfg : Config) (to installed : string) (now : Z) : act bool :=
  do held <- LockDevice;
  match held with
  | Some _ => Ret false
  | None =>
      do loaded <- LoadJournal;
      match loaded with
      | Err _ => Ret false
      | Ok j =>
          call (_, out, err) <- Rollback platform arch (mkRollback to installed) cfg now j;
          Ret (match err with Some _ => false | None => negb (String.eqb (Action out) ActionRefused) end)
      end
  end.

End tick.
End UpdateTick.
