(* ===== verification/UpdateWorld.v ===== *)
(** * What holds of every pass of the updater

    The world is the journal on the disk, whether steering is armed, and the trail of what was
    asked and answered.  A save that fails leaves the old journal or the new one; a platform
    call that fails may or may not have done its work; and a pass may die anywhere. *)

From Stdlib Require Import Ascii.
From stdpp Require Import base gmap fin_maps list strings relations.
From S2P Require Import Prelude Trimmed GoStd Common AgentRollout UpdateGate Effects UpdateVersion UpdateJournal UpdateRollout UpdateRunner UpdateTick.
Import UpdateVersion UpdateJournal UpdateRunner UpdateTick.

Open Scope Z_scope.

Module UpdateWorld.

(** ** The world *)

Inductive event :=
  | Event {X : Type} (e : effect X) (x : X).

Record world := mkWorld {
  disk : option Journal;
  armed : bool;
  trail : list event;
}.

Section world.
Context (sha256_prefix : string → string).

(** How an answered effect moves the disk and steering. *)
Definition moves {X} (e : effect X) : world → X → world → Prop :=
  match e in effect X return world → X → world → Prop with
  | SaveJournal j => fun w x w' =>
      armed w' = armed w ∧ (disk w' = Some j ∨ x ≠ None ∧ disk w' = disk w)
  | Disarm => fun w x w' => disk w' = disk w ∧ (x = None → armed w' = false)
  | Rearm => fun w x w' => disk w' = disk w ∧ (x = None → armed w' = true)
  | Execute _ | ExecuteRollback _ _ => fun w x w' => disk w' = disk w ∧ (x ≠ None → armed w' = armed w)
  | LoadJournal => fun w x w' =>
      disk w' = disk w ∧ armed w' = armed w ∧
      match x with
      | Err _ => True
      | Ok j => match disk w with
                | None => j = NewJournal
                | Some kept => ∃ now, loadedJournal sha256_prefix now kept = Some j
                end
      end
  | _ => fun w x w' => disk w' = disk w ∧ armed w' = armed w
  end.

Definition answers (X : Type) (e : effect X) (w : world) (x : X) (w' : world) : Prop :=
  moves e w x w' ∧ trail w' = Event e x :: trail w.

(** A device on which everything works: the version that runs, the manifest it is given, and
    what it observes. *)
Definition obliging (running : string) (m : Manifest) (observed : UpdateGate.DeviceConditions) (X : Type) (e : effect X)
    (w : world) : X * world :=
  let unchanged (x : X) := (x, mkWorld (disk w) (armed w) (Event e x :: trail w)) in
  match e in effect X return (X → X * world) → X * world with
  | SaveJournal j => fun _ => (None, mkWorld (Some j) (armed w) (Event (SaveJournal j) None :: trail w))
  | Disarm => fun _ => (None, mkWorld (disk w) false (Event Disarm None :: trail w))
  | Rearm => fun _ => (None, mkWorld (disk w) true (Event Rearm None :: trail w))
  | RunningVersion => fun answer => answer (Ok running)
  | Conditions _ => fun answer => answer observed
  | CaptureRestoreMaterial _ => fun answer => answer (Ok [running])
  | RestoreMaterialFor v => fun answer => answer (Ok v)
  | DisarmBeforeUpdate => fun answer => answer true
  | Execute _ | ExecuteRollback _ _ => fun answer => answer None
  | NewReportID _ => fun answer => answer "aue_1"
  | LoadJournal => fun answer =>
      answer match disk w with
             | None => Ok NewJournal
             | Some kept => match loadedJournal sha256_prefix 0 kept with Some j => Ok j | None => Err "schema" end
             end
  | Clock => fun answer => answer 0
  | RefusalAlreadyReported _ => fun answer => answer false
  | ClearRefusal => fun answer => answer tt
  | Fetch _ => fun answer => answer (Ok m)
  | LockDevice | AppendReport _ | MarkRefusal _ | ClearStaged _ => fun answer => answer None
  | Stage _ => fun answer => answer None
  end unchanged.

Lemma obliging_answers running m observed X (e : effect X) w :
  answers X e w (obliging running m observed X e w).1 (obliging running m observed X e w).2.
Proof.
  destruct e; split; cbn; auto.
  split_and!; [done..|]. destruct (disk w) as [kept|]; [|done]. destruct (loadedJournal sha256_prefix 0 kept) eqn:Hl; [|done].
  by exists 0.
Qed.

(** The effects that touch neither the journal nor steering. *)
Definition calm {X} (e : effect X) : bool :=
  match e with
  | SaveJournal _ | Disarm | Rearm | Execute _ | ExecuteRollback _ _ => false
  | _ => true
  end.

(** Those that leave everything as it is, the fleet's outbox and the staged installers too. *)
Definition quiet {X} (e : effect X) : bool :=
  calm e && match e with AppendReport _ | MarkRefusal _ | ClearRefusal | ClearStaged _ => false | _ => true end.

Lemma calm_moves {X} (e : effect X) w x w' : calm e = true → answers X e w x w' → disk w' = disk w ∧ armed w' = armed w.
Proof. unfold answers. destruct e; cbn; try done; naive_solver. Qed.

Lemma answered {X} (e : effect X) w x w' : answers X e w x w' → trail w' = Event e x :: trail w.
Proof. by intros [_ ?]. Qed.

Lemma saved_moves j w x w' :
  answers _ (SaveJournal j) w x w' → armed w' = armed w ∧ (disk w' = Some j ∨ x ≠ None ∧ disk w' = disk w).
Proof. by intros [? _]. Qed.

(** What is on the trail stays there. *)
Definition later (w w' : world) : Prop := ∀ ev, ev ∈ trail w → ev ∈ trail w'.

Lemma later_refl w : later w w.
Proof. by intros ev. Qed.

Lemma later_answered {X} (e : effect X) w0 w x w' : answers X e w x w' → later w0 w → later w0 w'.
Proof. intros [_ Ht] Hl ev Hev. rewrite Ht. apply list_elem_of_further. by apply Hl. Qed.

Lemma later_trans w1 w2 w3 : later w1 w2 → later w2 w3 → later w1 w3.
Proof. intros H1 H2 ev Hev. auto. Qed.

Hint Resolve later_refl : core.
Hint Resolve later_answered later_trans : core.

(** ** The reports around the decision *)

(** What the reports and the plan's floor change in the journal. *)
Inductive reporting : Journal → Journal → Prop :=
  | reporting_pending r j : reporting j (MarkReportPending r j)
  | reporting_pending_if_free r j : reporting j (MarkReportPendingIfFree r j).1
  | reporting_failure why n now j : reporting j (RecordReportQueueFailure why n now j).1
  | reporting_done j : reporting j (MarkOutcomeReported (ClearReportQueueFailures (ClearReportPending j)))
  | reporting_floor t j : reporting j (AcceptPlanFloor t j).1.

Lemma reporting_keeps j j' :
  reporting j j' → j_Phase j' = j_Phase j ∧ j_LastFailureReason j' = j_LastFailureReason j ∧ j_Poisoned j' = j_Poisoned j.
Proof.
  destruct 1; try done.
  - unfold MarkReportPendingIfFree. by destruct (j_PendingReport j).
  - unfold RecordReportQueueFailure. destruct (j_PendingReport j); [|done]. by destruct (_ <? _).
  - unfold AcceptPlanFloor. by destruct (_ || _).
Qed.

(** A pass of [Tick], around its decision: [R] relates the journal in memory to the world, and
    nothing that surrounds the decision breaks it. *)
Record surrounds (I : world → Prop) (pre : ∀ X, effect X → world → Prop) (R : Journal → world → Prop) (dry : bool) : Prop := {
  holds_I j w : R j w → I w;
  holds_calm X (e : effect X) j w x w' : calm e = true → R j w → answers X e w x w' → R j w';
  holds_saved j w x w' : dry = false → R j w → answers _ (SaveJournal j) w x w' → R j w';
  holds_reporting j j' w : reporting j j' → R j w → R j' w;
  allows_calm X (e : effect X) w : calm e = true → quiet e = true ∨ dry = false → I w → pre X e w;
  allows_save j w : dry = false → R j w → pre _ (SaveJournal j) w;
}.

Section around.
Context `{MapOrder} (say : sentence → string) (platform arch : string).
Context (I : world → Prop) (pre : ∀ X, effect X → world → Prop) (R : Journal → world → Prop) (dry : bool).
Context (Hsur : surrounds I pre R dry).

Let R_I : ∀ j w, R j w → I w.
Proof. apply Hsur. Qed.
Let R_calm : ∀ X (e : effect X) j w x w', calm e = true → R j w → answers X e w x w' → R j w'.
Proof. apply Hsur. Qed.
Let R_saved : ∀ j w x w', dry = false → R j w → answers _ (SaveJournal j) w x w' → R j w'.
Proof. apply Hsur. Qed.
Let R_reporting : ∀ j j' w, reporting j j' → R j w → R j' w.
Proof. apply Hsur. Qed.
Let pre_calm : ∀ X (e : effect X) w, calm e = true → quiet e = true ∨ dry = false → I w → pre X e w.
Proof. apply Hsur. Qed.
Let pre_save : ∀ j w, dry = false → R j w → pre _ (SaveJournal j) w.
Proof. apply Hsur. Qed.

Local Notation WP := (wp answers I pre).

Lemma wp_quiet {X A} (e : effect X) (k : X → prog effect A) j w Q :
  quiet e = true → R j w → (∀ x w', answers X e w x w' → R j w' → WP (k x) w' Q) → WP (Do e k) w Q.
Proof.
  intros Hq HR Hk. assert (calm e = true) by (unfold quiet in Hq; by apply andb_true_iff in Hq as [? _]).
  apply wp_do; eauto.
Qed.

Lemma wp_outgoing {X A} (e : effect X) (k : X → prog effect A) j w Q :
  calm e = true → dry = false → R j w → (∀ x w', answers X e w x w' → R j w' → WP (k x) w' Q) → WP (Do e k) w Q.
Proof. intros Hq Hd HR Hk. apply wp_do; eauto. Qed.

Lemma wp_ticksave j w (Q : option string → world → Prop) :
  R j w → (∀ x w', later w w' → R j w' → Q x w') → WP (ticksave dry j) w Q.
Proof.
  intros HR Hk. unfold ticksave. destruct dry eqn:Hd; [by apply wp_ret; eauto|].
  apply wp_do; [eauto..|]. intros x w' Hx. apply wp_ret; eauto.
Qed.

Lemma wp_flush res j w (Q : TickResult * Journal → world → Prop) :
  R j w → (∀ res' j' w', later w w' → R j' w' → Q (res', j') w') → WP (flushPendingReport dry res j) w Q.
Proof.
  intros HR Hk. unfold flushPendingReport. destruct (j_PendingReport j) as [owed|]; [|by apply wp_ret; eauto].
  destruct (Bool.bool_dec dry true) as [->|Hd%not_true_is_false]; [by apply wp_ret; eauto|]. rewrite Hd.
  apply (wp_outgoing _ _ j); [done..|]. intros [why|] w1 H1 HR1.
  - apply (wp_quiet _ _ j); [done..|]. intros clock w2 H2 HR2.
    pose proof (reporting_failure "the outbox refused the report" DefaultReportMaxAttempts clock j) as Hrep.
    destruct (RecordReportQueueFailure _ _ _ _) as [j' gaveUp]. rewrite <- Hd. apply wp_bind, wp_ticksave; [eauto|].
    intros x w3 Hl HR3. apply wp_ret; eauto.
  - rewrite <- Hd. apply wp_bind, wp_ticksave; [eauto using reporting_done|].
    intros [why|] w3 Hl HR3; apply wp_ret; eauto.
Qed.

Lemma wp_owe complaint running now res j w (Q : TickResult * Journal → world → Prop) :
  R j w → (∀ res' j' w', later w w' → R j' w' → Q (res', j') w') →
  WP (oweOutcome platform arch dry complaint running now res j) w Q.
Proof.
  intros HR Hk. unfold oweOutcome. destruct (OwesOutcomeReport j); [|by apply wp_ret; eauto].
  apply (wp_quiet _ _ j); [done..|]. intros id w1 H1 HR1.
  apply wp_bind, wp_ticksave; [eauto using reporting_pending_if_free|]. intros x w2 Hl HR2. apply wp_ret; eauto.
Qed.

Lemma wp_append_refusal r fingerprint j w (Q : option string → world → Prop) :
  dry = false → R j w → (∀ x w', later w w' → R j w' → Q x w') → WP (AppendRefusal r fingerprint) w Q.
Proof.
  intros Hd HR Hk. unfold AppendRefusal. cbv zeta.
  destruct (is_blank (if _ : bool then _ else _)); [apply wp_ret; eauto|].
  apply (wp_quiet _ _ j); [done..|]. intros [] w3 H3 HR3; [apply wp_ret; eauto|].
  apply (wp_outgoing _ _ j); [done..|]. intros [e|] w4 H4 HR4; [apply wp_ret; eauto|].
  apply (wp_outgoing _ _ j); [done..|]. intros e w5 H5 HR5. apply wp_ret; eauto.
Qed.

Lemma wp_refuse version digest running why now res j w (Q : TickResult → world → Prop) :
  dry = false → R j w → (∀ res' w', later w w' → R j w' → Q res' w') →
  WP (refuse sha256_prefix platform arch version digest running why now res j) w Q.
Proof.
  intros Hd HR Hk. unfold refuse. apply (wp_quiet _ _ j); [done..|]. intros [] w1 H1 HR1; [apply wp_ret; eauto|].
  apply (wp_quiet _ _ j); [done..|]. intros id w2 H2 HR2. apply wp_bind, (wp_append_refusal _ _ j); [done..|].
  intros x w3 Hl HR3. apply wp_ret; eauto 10.
Qed.

Lemma wp_clear clears res j w (Q : TickResult → world → Prop) :
  dry = false → R j w → (∀ res' w', later w w' → R j w' → Q res' w') → WP (clearStaged clears res) w Q.
Proof.
  intros Hd. revert res w. induction clears as [|[v why] rest IH]; intros res w HR Hk; cbn [clearStaged]; [by apply wp_ret; eauto|].
  apply (wp_outgoing _ _ j); [done..|]. intros x w1 H1 HR1. apply IH; eauto.
Qed.

(** The pass, given the decision. *)
Context (d : TickDeps) (now : Z) (Q : TickResult * option run_error → world → Prop).
Context (d_dry : c_DryRun (d_Config d) = dry).
Context (R_reconciled : ∀ answer j w, R j w → R (Reconcile answer now j).1.1 w).
Context (ends : ∀ res err j w, R j w → Q (res, err) w).
Context (decides : ∀ m running res j w, R j w → Event (Fetch now) (Ok m) ∈ trail w →
  (c_Frozen (passConfig d m) = true ∨ Event (Stage m) None ∈ trail w) →
  WP (decideStep platform arch (passConfig d m) m running now res j) w Q).

Lemma passConfig_dry m : c_DryRun (passConfig d m) = dry.
Proof. rewrite <- d_dry. unfold passConfig. destruct (d_ResolveRollout d), (d_ResolveWindow d); done. Qed.

Lemma wp_acquire m running res j w :
  R j w → Event (Fetch now) (Ok m) ∈ trail w →
  WP (acquireStep sha256_prefix platform arch (passConfig d m) m running now res j) w Q.
Proof.
  intros HR Hm. unfold acquireStep. rewrite passConfig_dry. destruct (c_Frozen (passConfig d m)) eqn:Hf; [eauto|].
  apply (wp_quiet _ _ j); [done..|]. intros [[|why]|] w1 H1 HR1.
  - apply wp_ret; eauto.
  - destruct (Bool.bool_dec dry true) as [->|Hd%not_true_is_false]; [apply wp_ret; eauto|]. rewrite Hd.
    apply wp_bind, (wp_refuse _ _ _ _ _ _ j); [done..|]. intros res' w2 Hl HR2. apply wp_ret; eauto.
  - apply decides; [done| |].
    + by apply (later_answered _ _ _ _ _ H1 (later_refl w)).
    + right. rewrite (answered _ _ _ _ H1). apply list_elem_of_here.
Qed.

Lemma wp_stage m running res j w :
  R j w → Event (Fetch now) (Ok m) ∈ trail w →
  WP (stageStep sha256_prefix platform arch (passConfig d m) m running now res j) w Q.
Proof.
  intros HR Hm. unfold stageStep. destruct (Applicable _ _ _ _) as [[]|]; try (by apply wp_acquire). apply wp_ret; eauto.
Qed.

Lemma wp_rollout m running res j w :
  R j w → Event (Fetch now) (Ok m) ∈ trail w → WP (rolloutStep sha256_prefix platform arch d m running now res j) w Q.
Proof.
  intros HR Hm. unfold rolloutStep. destruct (d_ResolveRollout d) as [resolve|]; [|by apply wp_stage]. cbv zeta.
  destruct (is_zero_time _); [by apply wp_stage|].
  pose proof (reporting_floor (UpdateRollout.ro_PlanGeneratedAt (resolve m)) j) as Hrep.
  destruct (AcceptPlanFloor _ j) as [j' raised]. cbn [fst] in Hrep.
  destruct (raised && _); [|by apply wp_stage; eauto]. rewrite passConfig_dry.
  apply wp_bind, wp_ticksave; [eauto|]. intros x w1 Hl HR1. apply wp_stage; [done|]. by apply Hl.
Qed.

Lemma wp_fetch running res j w : R j w → WP (fetchStep sha256_prefix platform arch d running now res j) w Q.
Proof.
  intros HR. unfold fetchStep. apply (wp_quiet _ _ j); [done..|]. intros [m|[|why digest]] w1 H1 HR1.
  - apply wp_rollout; [done|]. rewrite (answered _ _ _ _ H1). apply list_elem_of_here.
  - apply wp_ret; eauto.
  - rewrite d_dry. destruct (Bool.bool_dec dry true) as [->|Hd%not_true_is_false]; [apply wp_ret; eauto|]. rewrite Hd.
    apply wp_bind, (wp_refuse _ _ _ _ _ _ j); [done..|]. intros res' w2 Hl HR2. apply wp_ret; eauto.
Qed.

Lemma wp_owed running res j w : R j w → WP (owedStep sha256_prefix platform arch d running now res j) w Q.
Proof.
  intros HR. unfold owedStep. rewrite d_dry. apply wp_bind, wp_owe; [done|]. intros res1 j1 w1 _ HR1.
  apply wp_bind, wp_flush; [done|]. intros res2 j2 w2 _ HR2.
  destruct (bool_decide _ && _); [apply wp_ret; eauto|by apply wp_fetch].
Qed.

Lemma wp_close running note res j w : R j w → WP (closeStep sha256_prefix platform arch d running note now res j) w Q.
Proof.
  intros HR. unfold closeStep. rewrite d_dry. apply (wp_quiet _ _ j); [done..|]. intros id w1 H1 HR1.
  apply wp_bind, wp_ticksave; [eauto using reporting_pending|]. intros [why|] w2 Hl HR2; [apply wp_ret; eauto|].
  apply wp_bind, wp_flush; [done|]. intros res3 j3 w3 _ HR3. apply wp_bind.
  destruct (Bool.bool_dec dry true) as [Hd|Hd%not_true_is_false]; rewrite Hd.
  - apply wp_ret; [eauto|]. cbn [StagedClears orb clearStaged pbind]. by apply wp_owed.
  - apply (wp_outgoing _ _ j3); [done..|]. intros [] w4 _ HR4. apply wp_ret; [eauto|].
    apply wp_bind, (wp_clear _ _ j3); [done..|]. intros res5 w5 _ HR5. by apply wp_owed.
Qed.

Lemma wp_reconcile res j w : R j w → WP (reconcileStep say sha256_prefix platform arch d now res j) w Q.
Proof.
  intros HR. unfold reconcileStep. apply (wp_quiet _ _ j); [done..|]. intros answer w1 H1 HR1. cbv zeta.
  pose proof (R_reconciled answer j w1 HR1) as HR2. destruct (Reconcile answer now j) as [[j' changed] note]; cbn in HR2.
  destruct note as [note|]; [|by apply wp_owed]. destruct changed; [by apply wp_close|by apply wp_owed].
Qed.

Lemma wp_tick w :
  I w → (∀ w1 j w2, I w1 → disk w1 = disk w → armed w1 = armed w → answers _ LoadJournal w1 (Ok j) w2 → R j w2) →
  (∀ res err w', I w' → Q (res, err) w') →
  (∀ X (e : effect X) w x w', I w → calm e = true → answers X e w x w' → I w') →
  WP (Tick say sha256_prefix platform arch d now) w Q.
Proof.
  intros HI Hload Hno I_calm. unfold Tick. apply wp_do; [done|(apply pre_calm; auto)|]. intros held w1 H1.
  assert (I w1) as HI1 by (by eapply I_calm; [| |exact H1]).
  destruct held as [why|]; [by apply wp_ret; auto|]. apply wp_do; [done|(apply pre_calm; auto)|]. intros loaded w2 H2.
  assert (I w2) as HI2 by (by eapply I_calm; [| |exact H2]).
  destruct loaded as [j|why]; [|by apply wp_ret; auto].
  apply wp_bind. rewrite d_dry. apply wp_flush; [|intros res3 j3 w3 _ HR3; by apply wp_reconcile].
  destruct (calm_moves LockDevice _ _ _ eq_refl H1) as [? ?]. eauto.
Qed.
End around.

(** ** Rehearsals *)

Section rehearsal.
Context `{MapOrder} (say : sentence → string) (platform arch : string) (d0 : option Journal) (a0 : bool).

Definition untouched (w : world) : Prop := disk w = d0 ∧ armed w = a0.
Definition only_quiet (X : Type) (e : effect X) (w : world) : Prop := quiet e = true.

Lemma untouched_calm X (e : effect X) w x w' : calm e = true → untouched w → answers X e w x w' → untouched w'.
Proof. intros Hc [Hd Ha] Hx. destruct (calm_moves _ _ _ _ Hc Hx) as [H1 H2]. split; congruence. Qed.

Local Ltac rehearse :=
  repeat (walk_one; cbn [pbind] in *;
          try match goal with Ha : answers _ _ ?w _ ?w', Hu : untouched ?w |- _ =>
            assert (untouched w') by (eapply untouched_calm; [|exact Hu|exact Ha]; reflexivity); clear Ha end;
          try done).

Lemma rehearsed_run m cfg now j w :
  c_DryRun cfg = true → untouched w →
  wp answers untouched only_quiet (Run m cfg now j) w (fun r w' => r.1.1 = j ∧ untouched w').
Proof.
  intros Hd Hu. unfold Run. rewrite Hd. apply wp_bind.
  unfold runStep, attemptStep, gateStep, captureStep, unless_unrecorded, notWriting. rewrite Hd. cbn [pbind].
  rehearse.
Qed.

Lemma rehearsed_decision cfg m running now res j w :
  c_DryRun cfg = true → untouched w →
  wp answers untouched only_quiet (decideStep platform arch cfg m running now res j) w (fun _ => untouched).
Proof.
  intros Hd Hu. unfold decideStep. apply wp_bind. eapply wp_mono; [|by apply rehearsed_run].
  intros [[j' out] err] w' _ [_ Hu']. rewrite Hd.
  unfold oweOutcome, flushPendingReport, ticksave, notWriting. cbn [pbind]. rehearse.
Qed.

Lemma rehearsal_surrounds : surrounds untouched only_quiet (fun _ => untouched) true.
Proof. split; try done. - intros; by eapply untouched_calm. - by intros X e w _ []. Qed.

Lemma rehearsed_tick d now w :
  c_DryRun (d_Config d) = true → untouched w →
  wp answers untouched only_quiet (Tick say sha256_prefix platform arch d now) w (fun _ => untouched).
Proof.
  intros Hd Hu. apply (wp_tick _ _ _ _ _ _ _ rehearsal_surrounds); try done.
  - intros m running res j w1 Hu1 _ _. apply rehearsed_decision; [|done]. by rewrite (passConfig_dry true d Hd).
  - intros w1 j w2 Hu1 _ _ Hx. by eapply untouched_calm; [|exact Hu1|exact Hx].
  - intros X e w1 x w2 Hu1 Hc. intros; by eapply untouched_calm.
Qed.

Lemma rehearsed_rollback cfg to installed now w :
  c_DryRun cfg = true → untouched w →
  wp answers untouched only_quiet (runRollback platform arch cfg to installed now) w (fun _ => untouched).
Proof.
  intros Hd Hu. unfold runRollback, Rollback, rollbackStep, oweInterrupted. rewrite Hd. cbn [pbind]. rehearse.
Qed.
End rehearsal.

(** (C28) A rehearsal changes nothing.  At every point of a pass of the updater, or of the operator's
    rollback, that runs as a rehearsal - to its end or to its death - the journal on the disk
    and steering are as they were, and the only effects it performs are the ones that read,
    fetch, stage and secure restore material: it writes no journal, queues no report, clears no
    marker and no staged installer, takes no steering down and launches nothing. *)
Theorem rehearsal_changes_nothing `{MapOrder} say platform arch w :
  (∀ d now w' p', c_DryRun (d_Config d) = true →
     passes answers (w, Tick say sha256_prefix platform arch d now) (w', p') →
     disk w' = disk w ∧ armed w' = armed w ∧ match p' with Do e _ => quiet e = true | Ret _ => True end) ∧
  (∀ cfg to installed now w' p', c_DryRun cfg = true →
     passes answers (w, runRollback platform arch cfg to installed now) (w', p') →
     disk w' = disk w ∧ armed w' = armed w ∧ match p' with Do e _ => quiet e = true | Ret _ => True end).
Proof.
  split.
  - intros d now w' p' Hd Hrun.
    destruct (wp_sound _ _ _ _ _ _ _ _ (rehearsed_tick say platform arch (disk w) (armed w) d now w Hd (conj eq_refl eq_refl)) Hrun)
      as [[? ?] Hp]. by destruct p'.
  - intros cfg to installed now w' p' Hd Hrun.
    destruct (wp_sound _ _ _ _ _ _ _ _ (rehearsed_rollback platform arch (disk w) (armed w) cfg to installed now w Hd (conj eq_refl eq_refl)) Hrun)
      as [[? ?] Hp]. by destruct p'.
Qed.

End world.

(** ** A device for the examples *)

(** It runs 0.3.0, to which it was updated from 0.2.0. *)
Definition updatedJournal : Journal :=
  NewJournal <| j_TargetVersion := "0.3.0" |> <| j_FromVersion := "0.2.0" |>.
Definition exampleManifest : Manifest := mkManifest "" "0.4.0" "windows" "amd64" "" "" "" "" "" 1 "" "" "".
Definition exampleConditions : UpdateGate.DeviceConditions :=
  UpdateGate.mkConditions 0 0 0 true false true true true zero_time false "".
Definition exampleConfig : Config :=
  mkConfig (UpdateGate.mkMaintenance "00:00" "00:00" 0 false false 0) 3 "windows" "amd64" true "" false zero_time false.
Definition plainOrder : MapOrder := {| iterate A l := l; iterate_perm A l := reflexivity l |}.

#[global] Hint Resolve later_refl : core.
End UpdateWorld.
