(* ===== verification/UpdateRefusal.v ===== *)
(** * A version left by a rollback stays out

    No pass of the updater forgets a refusal, and none launches the installer of a version
    that is refused under any text naming the same release. *)

From Stdlib Require Import Ascii.
From stdpp Require Import base gmap fin_maps list strings relations.
From S2P Require Import Prelude Trimmed GoStd Common AgentRollout UpdateGate Effects UpdateVersion UpdateJournal UpdateRollout UpdateRunner UpdateTick UpdateWorld.
Import UpdateVersion UpdateJournal UpdateRunner UpdateTick UpdateWorld.

Open Scope Z_scope.

Module UpdateRefusal.

Section world.
Context (sha256_prefix : string → string).
Local Notation answers := (answers sha256_prefix).

(** ** Versions a device refuses *)

Section poison.
Context `{MapOrder} (say : sentence → string) (platform arch : string) (key : string).

Definition poisons (j : Journal) : Prop := is_Some (j_Poisoned j !! key).
Definition refused_on_disk (w : world) : Prop := ∃ k, disk w = Some k ∧ poisons k.
Definition both_refuse (j : Journal) (w : world) : Prop := poisons j ∧ refused_on_disk w.
Definition spares_refused (X : Type) (e : effect X) (w : world) : Prop :=
  match e with Execute m => SameVersion key (m_Version m) = false | _ => True end.

Lemma poisoned_insert (m : gmap string string) k v : is_Some (m !! key) → is_Some (<[k := v]> m !! key).
Proof. intros Hm. apply lookup_insert_is_Some'. by right. Qed.

Lemma Enter_poisoned p now j : j_Poisoned (Enter p now j) = j_Poisoned j.
Proof. unfold Enter, enterTerminal. cbv zeta. repeat case_match; reflexivity. Qed.

Lemma poisons_Enter p now j : poisons j → poisons (Enter p now j).
Proof. unfold poisons. by rewrite Enter_poisoned. Qed.

Lemma poisons_RecordFailure why n now j : poisons j → poisons (RecordFailure why n now j).1.
Proof.
  unfold poisons, RecordFailure. intros Hp. cbv zeta. destruct (is_empty _); cbn [fst]; [by rewrite Enter_poisoned|].
  destruct (_ <? _); cbn [fst]; [by rewrite Enter_poisoned|]. apply (poisoned_insert (j_Poisoned _)). by rewrite Enter_poisoned.
Qed.

Lemma poisons_Refuse v why j : poisons j → poisons (Refuse v why j).
Proof. unfold poisons, Refuse. cbv zeta. destruct (is_empty _); [done|]. by apply poisoned_insert. Qed.

Lemma poisons_refusedByRollback target leaving now j : poisons j → poisons (refusedByRollback target leaving now j).
Proof. unfold refusedByRollback. intros. destruct (_ && _); [by apply poisons_Refuse|]. by destruct (nonempty _). Qed.

Lemma poisons_RecordSuccess now j : poisons j → poisons (RecordSuccess now j).
Proof.
  unfold RecordSuccess. intros. cbv zeta. apply poisons_Enter. by destruct (is_empty _).
Qed.

Lemma poisons_reporting j j' : reporting j j' → poisons j → poisons j'.
Proof. intros Hr. unfold poisons. by destruct (reporting_keeps _ _ Hr) as (_ & _ & ->). Qed.

Lemma poisons_reconcile answer now j : poisons j → poisons (Reconcile answer now j).1.1.
Proof.
  intros Hp. unfold Reconcile. destruct (negb _); [done|]. destruct answer; [|done]. destruct (negb _); [done|].
  by apply poisons_RecordSuccess.
Qed.

Lemma poisons_loaded now kept j : loadedJournal sha256_prefix now kept = Some j → j_Poisoned j = j_Poisoned kept.
Proof.
  unfold loadedJournal. destruct (String.eqb _ _); [|done]. intros [= <-].
  unfold adoptLegacyReportedOutcome, flagLegacyReportedOutcomeAsAssumed, completeLegacyPendingReport.
  repeat match goal with
  | |- context [match j_PendingReport kept with _ => _ end] => destruct (j_PendingReport kept)
  | |- context [if ?b then _ else _] => destruct b
  end; done.
Qed.

(** What is refused is refused under every text of the version. *)
Lemma not_poisoned_differs j version :
  poisons j → IsPoisoned j version = None → SameVersion key version = false.
Proof.
  intros [why Hk]. unfold IsPoisoned. destruct (_ !! trim_space version); [done|].
  rewrite fmap_None. intros Hf. destruct (SameVersion key version) eqn:Hs; [|done].
  pose proof (List.find_none _ _ Hf (key, why)) as Hn. cbn in Hn. rewrite Hn in Hs; [done|].
  apply list_elem_of_In. rewrite iterate_perm. by apply elem_of_map_to_list.
Qed.

Local Hint Resolve poisons_Enter poisons_RecordFailure poisons_refusedByRollback poisons_RecordSuccess : poison.

Local Notation WP := (wp answers refused_on_disk spares_refused).

(** A save writes a journal that refuses; any other effect leaves the disk alone. *)
Lemma wp_saved {A} (k : option string → prog effect A) j w Q :
  both_refuse j w → (∀ x w', both_refuse j w' → WP (k x) w' Q) → WP (pbind (writing j) k) w Q.
Proof.
  intros [Hj Hd] Hk. apply wp_do; [done..|]. intros x w' Hx. apply Hk. split; [done|].
  destruct (saved_moves _ _ _ _ _ Hx) as [_ [Hn|[_ Ho]]]; [by exists j|by unfold refused_on_disk; rewrite Ho].
Qed.

Lemma wp_else {X A} (e : effect X) (k : X → prog effect A) j w Q :
  match e with SaveJournal _ => False | Execute m => SameVersion key (m_Version m) = false | _ => True end →
  both_refuse j w → (∀ x w', both_refuse j w' → WP (k x) w' Q) → WP (Do e k) w Q.
Proof.
  intros He [Hj Hd] Hk. apply wp_do; [done|by destruct e|]. intros x w' [Hm _]. apply Hk. split; [done|].
  assert (disk w' = disk w) as Ho by (destruct e; cbn in Hm; try done; by destruct Hm).
  unfold refused_on_disk. by rewrite Ho.
Qed.

Definition exits (x : Exit) (w : world) : Prop := both_refuse (x_journal x) w.
Definition returns (r : Journal * Outcome * option run_error) (w : world) : Prop := both_refuse r.1.1 w.

Lemma wp_back (r : Journal * Outcome * option run_error) w : both_refuse r.1.1 w → WP (Ret r) w returns.
Proof. intros HR. apply wp_ret; [apply HR|done]. Qed.

Lemma wp_exit x w : both_refuse (x_journal x) w → WP (Ret x) w exits.
Proof. intros HR. apply wp_ret; [apply HR|done]. Qed.

Lemma wp_restore disarmed j w (Q : bool * option string → world → Prop) :
  both_refuse j w → (∀ x w', both_refuse j w' → Q x w') → WP (restoreSteering disarmed) w Q.
Proof.
  intros HR Hk. unfold restoreSteering. destruct disarmed; [|apply wp_ret; [apply HR|eauto]].
  apply (wp_else _ _ j); [done..|]. intros x w' HR'. apply wp_ret; [apply HR'|eauto].
Qed.

(** Whatever happens to the rest of the journal. *)
Lemma both_kept j j' w : (poisons j → poisons j') → both_refuse j w → both_refuse j' w.
Proof. intros Hp [Hj Hd]. split; auto. Qed.

Local Ltac kept := eapply both_kept; [|eassumption]; eauto 6 with poison.

Lemma executeStep_refuses m cfg now disarmed j w :
  SameVersion key (m_Version m) = false → both_refuse j w → WP (executeStep writing m cfg now disarmed j) w exits.
Proof.
  intros Hv HR. unfold executeStep. cbv zeta. apply wp_saved; [kept|]. intros [why|] w1 HR1; [by apply wp_exit|].
  eapply wp_else; [done..|]. intros [xerr|] w2 HR2; [|by apply wp_exit].
  apply wp_bind. eapply wp_restore; [done|]. intros [restored rerr] w3 HR3.
  apply wp_saved; [kept|]. intros [why|] w4 HR4; by apply wp_exit.
Qed.

Lemma disarmStep_refuses m cfg now j w :
  SameVersion key (m_Version m) = false → both_refuse j w → WP (disarmStep writing m cfg now j) w exits.
Proof.
  intros Hv HR. unfold disarmStep. eapply wp_else; [done..|]. intros [] w1 HR1; [|by apply executeStep_refuses].
  cbv zeta. apply wp_saved; [kept|]. intros [why|] w2 HR2; [by apply wp_exit|].
  eapply wp_else; [done..|]. intros [derr|] w3 HR3; [|by apply executeStep_refuses].
  apply wp_saved; [kept|]. intros [why|] w4 HR4; by apply wp_exit.
Qed.

Lemma restoreOnExit_refuses rollback x w :
  both_refuse (x_journal x) w → WP (restoreOnExit rollback writing x) w returns.
Proof.
  intros HR. unfold restoreOnExit. destruct (_ || _); [by apply wp_back|].
  eapply wp_else; [done..|]. intros [why|] w1 HR1; [|by apply wp_back].
  cbv zeta. apply wp_saved; [kept|]. intros serr w2 HR2. by apply wp_back.
Qed.

Lemma unless_refuses what j k w :
  both_refuse j w → (∀ w', both_refuse j w' → WP k w' returns) → WP (unless_unrecorded writing what j k) w returns.
Proof. intros HR Hk. unfold unless_unrecorded. apply wp_saved; [done|]. intros [why|] w1 HR1; [by apply wp_back|auto]. Qed.

Lemma gateStep_refuses m cfg now j w :
  SameVersion key (m_Version m) = false → both_refuse j w → WP (gateStep writing m cfg now j) w returns.
Proof.
  intros Hv HR. unfold gateStep. eapply wp_else; [done..|]. intros observed w1 HR1. cbv zeta.
  destruct (UpdateGate.g_Proceed _).
  - unfold captureStep. eapply wp_else; [done..|]. intros [material|why] w2 HR2; [|by apply wp_back].
    cbv zeta. apply unless_refuses; [kept|]. intros w3 HR3. destruct (c_DryRun cfg); [by apply wp_back|].
    unfold launchStep. apply wp_bind. eapply wp_mono; [|by apply disarmStep_refuses].
    intros x w4 _ HR4. by apply restoreOnExit_refuses.
  - apply unless_refuses; [kept|]. intros w2 HR2. by apply wp_back.
Qed.

Lemma run_refuses m cfg now j w :
  c_DryRun cfg = false → both_refuse j w → WP (Run m cfg now j) w returns.
Proof.
  intros Hd HR. unfold Run. rewrite Hd. unfold runStep. destruct (_ && _); [by apply wp_back|].
  destruct (Interrupted j). { cbv zeta. apply unless_refuses; [kept|]. intros w1 HR1. by apply wp_back. }
  destruct (IsPoisoned j (m_Version m)) eqn:Hip; [by apply wp_back|].
  pose proof (not_poisoned_differs j _ (proj1 HR) Hip) as Hv.
  eapply wp_else; [done..|]. intros [running|[]] w1 HR1; try by apply wp_back.
  destruct (Applicable _ _ _ _); [by apply wp_back|]. unfold attemptStep.
  destruct (_ || _ || _); [|destruct (_ && _); [|by apply gateStep_refuses]];
    (cbv zeta; apply unless_refuses; [kept|]; intros w2 HR2; by apply gateStep_refuses).
Qed.

Lemma poisons_recordInterrupted now j : poisons j → poisons (recordInterrupted now j).
Proof. unfold recordInterrupted. intros. cbv zeta. destruct (IsRollback j); eauto with poison. Qed.

Lemma oweInterrupted_refuses now j w : both_refuse j w → WP (oweInterrupted platform arch now j) w both_refuse.
Proof.
  assert (∀ j w k, both_refuse j w → (∀ id, reporting j (k id)) → WP (Do (NewReportID now) (fun id => Ret (k id))) w both_refuse) as Hown.
  { clear. intros j w k HR Hk. eapply wp_else; [done..|]. intros id w1 HR1.
    assert (both_refuse (k id) w1) as Hid by (eapply both_kept; [exact (poisons_reporting _ _ (Hk id))|exact HR1]).
    apply wp_ret; [apply Hid|done]. }
  intros HR. unfold oweInterrupted. destruct (OwesOutcomeReport j).
  { apply (Hown j); [done|]. intros id. constructor. }
  destruct (Interrupted j); [|by apply wp_ret; [apply HR|]].
  cbv zeta. apply (Hown (recordInterrupted now j)); [|intros id; constructor]. eapply both_kept; [|exact HR]. apply poisons_recordInterrupted.
Qed.

Lemma executeRollbackStep_refuses pkg target leaving note now disarmed j w :
  both_refuse j w → WP (executeRollbackStep writing pkg target leaving note now disarmed j) w exits.
Proof.
  intros HR. unfold executeRollbackStep. cbv zeta. apply wp_saved; [kept|].
  intros [why|] w1 HR1; [by apply wp_exit|]. eapply wp_else; [done..|].
  intros [xerr|] w2 HR2; [|by apply wp_exit]. apply wp_bind. eapply wp_restore; [done|]. intros [restored rerr] w3 HR3.
  apply wp_saved; [kept|]. intros [why|] w4 HR4; by apply wp_exit.
Qed.

Lemma rollback_refuses req cfg now j w :
  c_DryRun cfg = false → both_refuse j w → WP (Rollback platform arch req cfg now j) w returns.
Proof.
  intros Hd HR. unfold Rollback. rewrite Hd. unfold rollbackStep. destruct (_ && _); [by apply wp_back|].
  apply wp_bind. eapply wp_mono; [|by apply oweInterrupted_refuses].
  intros j1 w1 _ HR1. eapply wp_else; [done..|]. intros answer w2 HR2.
  destruct (leavingOf req answer) as [[running leaving] note]. cbv zeta.
  destruct (_ && IsRollback j1); [by apply wp_back|]. destruct (is_empty _); [by apply wp_back|].
  destruct (_ && SameVersion _ _); [by apply wp_back|].
  eapply wp_else; [done..|]. intros [pkg|why] w3 HR3; [|by apply wp_back]. rewrite Hd.
  unfold launchRollbackStep. cbv zeta. apply unless_refuses; [kept|]. intros w4 HR4.
  apply wp_bind. apply (wp_mono _ _ _ _ _ exits); [intros x w5 _ HR5; by apply restoreOnExit_refuses|].
  unfold disarmRollbackStep. eapply wp_else; [done..|].
  intros [] w5 HR5; [|by apply executeRollbackStep_refuses].
  cbv zeta. apply wp_saved; [kept|]. intros [why|] w6 HR6; [by apply wp_exit|].
  eapply wp_else; [done..|]. intros [derr|] w7 HR7; [|by apply executeRollbackStep_refuses].
  apply wp_saved; [kept|]. intros [why|] w8 HR8; by apply wp_exit.
Qed.

Lemma both_refuse_calm X (e : effect X) j w x w' :
  calm e = true → both_refuse j w → answers X e w x w' → both_refuse j w'.
Proof.
  intros Hc [Hj Hd] Hx. split; [done|]. destruct (calm_moves _ _ _ _ _ Hc Hx) as [Ho _]. unfold refused_on_disk. by rewrite Ho.
Qed.

Lemma both_refuse_saved j w x w' : both_refuse j w → answers _ (SaveJournal j) w x w' → both_refuse j w'.
Proof.
  intros [Hj Hd] Hx. split; [done|]. unfold refused_on_disk.
  destruct (saved_moves _ _ _ _ _ Hx) as [_ [Hn|[_ Ho]]]; [by exists j|by rewrite Ho].
Qed.

Lemma both_refuse_reporting j j' w : reporting j j' → both_refuse j w → both_refuse j' w.
Proof. intros Hr. apply both_kept. by apply poisons_reporting. Qed.

Lemma spares_calm X (e : effect X) w : calm e = true → spares_refused X e w.
Proof. by destruct e. Qed.

Lemma refusal_surrounds : surrounds sha256_prefix refused_on_disk spares_refused both_refuse false.
Proof.
  split; [by intros j w []|apply both_refuse_calm|by intros j w x w' _; apply both_refuse_saved|apply both_refuse_reporting
         |by intros X e w Hc _ _; apply spares_calm|done].
Qed.

Lemma decision_refuses cfg m running now res j w :
  c_DryRun cfg = false → both_refuse j w →
  WP (decideStep platform arch cfg m running now res j) w (fun _ => refused_on_disk).
Proof.
  intros Hd HR. unfold decideStep. rewrite Hd. apply wp_bind. eapply wp_mono; [|by apply run_refuses].
  intros [[j1 out] err] w1 _ HR1. apply wp_bind, (wp_owe _ _ _ _ _ _ _ refusal_surrounds); [done|].
  intros res2 j2 w2 _ HR2. apply wp_bind, (wp_flush _ _ _ _ _ refusal_surrounds); [done|].
  intros res3 j3 w3 _ [_ HR3]. destruct err; by apply wp_ret.
Qed.

(** A journal that loads refuses what the one on the disk refuses. *)
Lemma loaded_refuses j w w' : refused_on_disk w → answers _ LoadJournal w (Ok j) w' → both_refuse j w'.
Proof.
  intros (k & Hk & Hp) [(Hd & _ & Hj) _]. cbn in Hj. rewrite Hk in Hj. destruct Hj as [t Hj].
  split; [|exists k; by rewrite Hd]. unfold poisons. by rewrite (poisons_loaded _ _ _ Hj).
Qed.

Lemma calm_refused X (e : effect X) w x w' : refused_on_disk w → calm e = true → answers X e w x w' → refused_on_disk w'.
Proof. intros Hr Hc Hx. unfold refused_on_disk. by destruct (calm_moves _ _ _ _ _ Hc Hx) as [-> _]. Qed.

Definition launches_refused {A} (p : prog effect A) : Prop :=
  match p with Do (Execute m) _ => SameVersion key (m_Version m) = true | _ => False end.

Lemma tick_refuses d now w w' p' :
  refused_on_disk w → passes answers (w, Tick say sha256_prefix platform arch d now) (w', p') →
  refused_on_disk w' ∧ ¬ launches_refused p'.
Proof.
  intros Hr Hrun. destruct (c_DryRun (d_Config d)) eqn:Hd.
  - destruct (wp_sound _ _ _ _ _ _ _ _ (rehearsed_tick sha256_prefix say platform arch (disk w) (armed w) d now w Hd (conj eq_refl eq_refl)) Hrun)
      as [[Hdisk _] Hp]. split; [unfold refused_on_disk; by rewrite Hdisk|].
    intros Hl. destruct p' as [|X []]; cbn in Hl, Hp; done.
  - assert (WP (Tick say sha256_prefix platform arch d now) w (fun _ => refused_on_disk)) as Hwp.
    { apply (wp_tick _ _ _ _ _ _ _ _ refusal_surrounds); [done|..].
      - intros answer j w1. by apply both_kept, poisons_reconcile.
      - by intros res err j w1 [].
      - intros m running res j w1 HR1 _ _. apply decision_refuses; [|done]. by rewrite (passConfig_dry false d Hd).
      - done.
      - intros w1 j w2 Hr1 _ _. by apply loaded_refuses.
      - done.
      - intros; by eapply calm_refused. }
    destruct (wp_sound _ _ _ _ _ _ _ _ Hwp Hrun) as [Hr' Hp]. split; [done|].
    destruct p' as [|X []]; cbn in *; try tauto. congruence.
Qed.

Lemma runRollback_refuses cfg to installed now w w' p' :
  refused_on_disk w → passes answers (w, runRollback platform arch cfg to installed now) (w', p') → refused_on_disk w'.
Proof.
  intros Hr Hrun. destruct (c_DryRun cfg) eqn:Hd.
  - destruct (wp_sound _ _ _ _ _ _ _ _ (rehearsed_rollback sha256_prefix platform arch (disk w) (armed w) cfg to installed now w Hd (conj eq_refl eq_refl)) Hrun)
      as [[Hdisk _] _]. unfold refused_on_disk. by rewrite Hdisk.
  - assert (WP (runRollback platform arch cfg to installed now) w (fun _ => refused_on_disk)) as Hwp.
    { unfold runRollback. apply wp_do; [done..|]. intros held w1 H1.
      assert (refused_on_disk w1) as Hr1 by (by eapply calm_refused; [exact Hr| |exact H1]).
      destruct held as [why|]; [by apply wp_ret|]. apply wp_do; [done..|]. intros loaded w2 H2.
      assert (refused_on_disk w2) as Hr2 by (by eapply calm_refused; [exact Hr1| |exact H2]).
      destruct loaded as [j|why]; [|by apply wp_ret]. apply wp_bind.
      eapply wp_mono; [|by apply rollback_refuses; [|eapply loaded_refuses; [exact Hr1|exact H2]]].
      intros [[j3 out] err] w3 _ [_ Hr3]. by apply wp_ret. }
    by destruct (wp_sound _ _ _ _ _ _ _ _ Hwp Hrun).
Qed.
End poison.

(** ** The life of a device *)

(** Passes of the updater and rollbacks, each to its end or its death, and whatever else the
    machine does that leaves the journal alone. *)
Inductive lives `{MapOrder} : relation world :=
  | lives_tick say platform arch d now w w' p' :
      passes answers (w, Tick say sha256_prefix platform arch d now) (w', p') → lives w w'
  | lives_rollback platform arch cfg to installed now w w' p' :
      passes answers (w, runRollback platform arch cfg to installed now) (w', p') → lives w w'
  | lives_meanwhile w w' : disk w' = disk w → lives w w'.

Lemma lives_refuses `{MapOrder} key w w' : rtc lives w w' → refused_on_disk key w → refused_on_disk key w'.
Proof.
  induction 1 as [|w1 w2 w3 Hstep _ IH]; [done|]. intros Hr. apply IH.
  destruct Hstep as [say platform arch d now w w' p' Hrun|platform arch cfg to installed now w w' p' Hrun|w w' Hd].
  - by eapply tick_refuses.
  - by eapply runRollback_refuses.
  - unfold refused_on_disk. by rewrite Hd.
Qed.

(** What a rollback has written down before it hands over. *)
Definition leaves (target leaving : string) (k : Journal) : Prop :=
  IsRollback k = true ∧ j_TargetVersion k = target ∧ j_FromVersion k = leaving ∧
  (is_blank leaving = false → SameVersion leaving target = false → poisons (trim_space leaving) k).

Section rollback.
Context (platform arch installed : string).

Definition written_down (X : Type) (e : effect X) (w : world) : Prop :=
  match e with
  | ExecuteRollback _ target => ∃ k leaving, disk w = Some k ∧ leaves target leaving k ∧
      (Event RunningVersion (Ok leaving) ∈ trail w ∨ leaving = trim_space installed)
  | _ => True
  end.

Local Notation WP := (wp answers (fun _ => True) written_down).

Definition in_order {A} (_ : A) (_ : world) : Prop := True.

Lemma wp_any {X A} (e : effect X) (k : X → prog effect A) w Q :
  match e with ExecuteRollback _ _ => False | _ => True end →
  (∀ x w', answers X e w x w' → WP (k x) w' Q) → WP (Do e k) w Q.
Proof. intros He Hk. apply wp_do; [done|by destruct e|done]. Qed.

Lemma refusedByRollback_leaves target leaving now j : leaves target leaving (refusedByRollback target leaving now (BeginRollback target leaving now j)).
Proof.
  unfold refusedByRollback, leaves, poisons.
  destruct (nonempty leaving && negb (SameVersion leaving target)) eqn:Hc.
  - unfold Refuse. cbv zeta. destruct (is_empty (trim_space leaving)) eqn:He.
    + split_and!; [done..|]. unfold is_blank. by rewrite He.
    + split_and!; [done..|]. intros _ _. cbn. apply lookup_insert_is_Some'. by left.
  - assert (is_blank leaving = false → SameVersion leaving target = false → False) as Hno.
    { intros Hb Hs. rewrite Hs, andb_true_r in Hc. unfold nonempty in Hc. apply negb_false_iff, is_empty_true in Hc as ->. done. }
    destruct (nonempty leaving); (split_and!; [done..|]; intros Hb Hs; by destruct (Hno Hb Hs)).
Qed.

Lemma leaves_Enter target leaving p now j : leaves target leaving j → leaves target leaving (Enter p now j).
Proof.
  unfold leaves, poisons. rewrite Enter_poisoned. intros (H1 & H2 & H3 & H4).
  assert (IsRollback (Enter p now j) = IsRollback j ∧ j_TargetVersion (Enter p now j) = j_TargetVersion j ∧
          j_FromVersion (Enter p now j) = j_FromVersion j) as (-> & -> & ->); [|done].
  unfold Enter, enterTerminal, IsRollback. cbv zeta. repeat case_match; done.
Qed.

(** The version being left is the one that runs, or the one that is installed. *)
Definition known_leaving (leaving : string) (w : world) : Prop :=
  Event RunningVersion (Ok leaving) ∈ trail w ∨ leaving = trim_space installed.

Lemma known_later leaving w w' : later w w' → known_leaving leaving w → known_leaving leaving w'.
Proof. intros Hl [H|H]; [left; by apply Hl|by right]. Qed.

Lemma executeRollbackStep_written pkg target leaving note now disarmed j w :
  leaves target leaving j → known_leaving leaving w →
  WP (executeRollbackStep writing pkg target leaving note now disarmed j) w in_order.
Proof.
  intros Hj Hw. unfold executeRollbackStep. cbv zeta. apply wp_any; [done|]. intros x w1 H1.
  destruct (saved_moves _ _ _ _ _ H1) as [_ Hd]. destruct x as [why|]; [done|]. apply wp_do; [done| |].
  { destruct Hd as [Hd|[? _]]; [|done]. eexists _, leaving. split; [exact Hd|]. split; [by apply leaves_Enter|].
    by apply (known_later _ w); [apply (later_answered _ _ _ _ _ _ H1)|]. }
  intros [xerr|] w2 _; [|done]. apply wp_bind.
  assert (∀ w Q, (∀ x w', Q x w') → WP (restoreSteering disarmed) w Q) as Hrest.
  { unfold restoreSteering. intros w' Q HQ. destruct disarmed; [|by split]. apply wp_any; [done|]. by split. }
  apply Hrest. intros [restored rerr] w3. apply wp_any; [done|]. by intros [] w4 _.
Qed.

Lemma launchRollbackStep_written pkg target leaving note now j w :
  known_leaving leaving w → WP (launchRollbackStep writing pkg target leaving note now j) w in_order.
Proof.
  intros Hw. unfold launchRollbackStep, unless_unrecorded. cbv zeta.
  pose proof (refusedByRollback_leaves target leaving now j) as Hj.
  set (j1 := refusedByRollback _ _ _ _) in *. apply wp_any; [done|]. intros [why|] w1 H1; [done|].
  assert (∀ x w, WP (restoreOnExit true writing x) w in_order) as Hexit.
  { clear. intros x w. unfold restoreOnExit. destruct (_ || _); [done|]. apply wp_any; [done|]. intros [why|] w1 _; [|done].
    cbv zeta. apply wp_any; [done|]. by intros. }
  assert (known_leaving leaving w1) as Hw1 by (by apply (known_later _ w); [apply (later_answered _ _ _ _ _ _ H1)|]).
  apply wp_bind. apply (wp_mono _ _ _ _ _ in_order); [by intros|]. unfold disarmRollbackStep.
  apply wp_any; [done|]. intros permitted w2 H2.
  assert (known_leaving leaving w2) as Hw2 by (by apply (known_later _ w1); [apply (later_answered _ _ _ _ _ _ H2)|]).
  destruct permitted; [|by apply executeRollbackStep_written].
  cbv zeta. apply wp_any; [done|]. intros [why|] w3 H3; [done|].
  assert (known_leaving leaving w3) as Hw3 by (by apply (known_later _ w2); [apply (later_answered _ _ _ _ _ _ H3)|]).
  apply wp_any; [done|]. intros [derr|] w4 H4.
  - apply wp_any; [done|]. by intros [] w5 _.
  - apply executeRollbackStep_written; [by apply leaves_Enter|].
    by apply (known_later _ w3); [apply (later_answered _ _ _ _ _ _ H4)|].
Qed.

Lemma rollbackStep_written save to cfg now j w :
  save = writing ∨ c_DryRun cfg = true →
  WP (rollbackStep platform arch save (mkRollback to installed) cfg now j) w in_order.
Proof.
  intros Hsave. unfold rollbackStep. destruct (_ && _); [done|]. apply wp_bind. apply (wp_mono _ _ _ _ _ in_order).
  2:{ unfold oweInterrupted. destruct (OwesOutcomeReport j); [by apply wp_any|]. destruct (Interrupted j); [|done].
      cbv zeta. by apply wp_any. }
  intros j1 w1 _ _. apply wp_any; [done|]. intros answer w2 H2.
  assert (known_leaving (leavingOf (mkRollback to installed) answer).1.2 w2) as Hw2.
  { destruct answer as [v|why]; [|by right]. left. rewrite (answered _ _ _ _ _ H2). apply list_elem_of_here. }
  destruct (leavingOf (mkRollback to installed) answer) as [[running leaving] note]. cbn in Hw2. cbv zeta.
  destruct (_ && IsRollback j1); [done|]. destruct (is_empty (if _ : bool then _ else _)); [done|].
  destruct (_ && SameVersion _ _); [done|].
  apply wp_any; [done|]. intros [pkg|why] w3 H3; [|done].
  destruct Hsave as [-> | Hdry]; [destruct (c_DryRun cfg); [done|]|by rewrite Hdry]. apply launchRollbackStep_written.
  by apply (known_later _ w2); [apply (later_answered _ _ _ _ _ _ H3)|].
Qed.

Lemma runRollback_written cfg to now w : WP (runRollback platform arch cfg to installed now) w in_order.
Proof.
  unfold runRollback. apply wp_any; [done|]. intros [why|] w1 _; [done|]. apply wp_any; [done|]. intros [j|why] w2 _; [|done].
  apply wp_bind. apply (wp_mono _ _ _ _ _ in_order); [by intros [[]]|]. unfold Rollback. destruct (c_DryRun cfg) eqn:Hd.
  - apply wp_bind. apply (wp_mono _ _ _ _ _ in_order); [by intros [[]]|]. apply rollbackStep_written. by right.
  - apply rollbackStep_written. by left.
Qed.
End rollback.

(** (C8) A device does not return to a version it is known to have been rolled back from.  When
    the operator's rollback hands a package to the installer, the journal on the disk records a
    rollback to that target, from the version that was running - or, when that could not be
    read, from the one that is installed.  Where that version is known, and names another
    release than the target, no later pass launches the installer of a version that names the
    same release as the one left: whatever passes and rollbacks follow, each to its end or to
    its death, with whatever failing saves, and whatever manifests are published.  Where no
    version is known nothing is refused. *)
Theorem rolled_back_version_stays_out `{MapOrder} platform arch cfg to installed now disk0 armed0 w1 pkg target k :
  passes answers (mkWorld disk0 armed0 [], runRollback platform arch cfg to installed now) (w1, Do (ExecuteRollback pkg target) k) →
  ∃ kept leaving, disk w1 = Some kept ∧ IsRollback kept = true ∧ j_TargetVersion kept = target ∧ j_FromVersion kept = leaving ∧
    (Event RunningVersion (Ok leaving) ∈ trail w1 ∨ leaving = trim_space installed) ∧
    (is_blank leaving = false → SameVersion leaving target = false →
     ∀ w1' w2 w3 say platform' arch' d now' m k', disk w1' = disk w1 → rtc lives w1' w2 →
       passes answers (w2, Tick say sha256_prefix platform' arch' d now') (w3, Do (Execute m) k') →
       SameVersion leaving (m_Version m) = false).
Proof.
  intros Hrun. destruct (wp_sound _ _ _ _ _ _ _ _ (runRollback_written platform arch installed cfg to now _) Hrun)
    as [_ (kept & leaving & Hd & (H1 & H2 & H3 & H4) & Hk)].
  exists kept, leaving. split_and!; [done..|]. intros Hb Hs w1' w2 w3 say platform' arch' d now' m k' Hd' Hlife Htick.
  assert (refused_on_disk (trim_space leaving) w1') as Hr by (exists kept; split; [congruence|auto]).
  apply (lives_refuses _ _ _ Hlife) in Hr.
  destruct (tick_refuses say platform' arch' _ _ _ _ _ _ Hr Htick) as [_ Hno]. cbn in Hno.
  destruct (SameVersion leaving (m_Version m)) eqn:Hsame; [|done]. destruct Hno.
  unfold SameVersion in *. by rewrite trim_space_idemp.
Qed.
End world.

Definition handedBack {A} (p : prog effect A) : option (string * string) :=
  match p with Do (ExecuteRollback pkg target) _ => Some (pkg, target) | _ => None end.

Lemma rolled_back_version_stays_out_witness :
  let hash := fun _ : string => "00" in
  ∃ w1 k, passes (UpdateWorld.answers hash)
      (mkWorld (Some updatedJournal) true [], runRollback "windows" "amd64" exampleConfig "" "0.3.0" 0)
      (w1, Do (ExecuteRollback "0.2.0" "0.2.0") k) ∧
    ∃ kept leaving, disk w1 = Some kept ∧ j_FromVersion kept = leaving ∧ j_TargetVersion kept = "0.2.0".
Proof.
  intros hash. pose proof (drive_passes (UpdateWorld.answers hash) (obliging hash "0.3.0" exampleManifest exampleConditions) 9
    (mkWorld (Some updatedJournal) true [], runRollback "windows" "amd64" exampleConfig "" "0.3.0" 0)
    (obliging_answers hash "0.3.0" exampleManifest exampleConditions)) as Hrun.
  assert (handedBack (drive (obliging hash "0.3.0" exampleManifest exampleConditions) 9
    (mkWorld (Some updatedJournal) true [], runRollback "windows" "amd64" exampleConfig "" "0.3.0" 0)).2 = Some ("0.2.0", "0.2.0"))
    as Hend by (vm_compute; reflexivity).
  destruct (drive _ 9 _) as [w1 [r|X e k]]; [discriminate Hend|]. destruct e; try discriminate Hend.
  cbn in Hend. injection Hend as -> ->. exists w1, k. split; [exact Hrun|].
  destruct (@rolled_back_version_stays_out hash plainOrder _ _ _ _ _ _ _ _ _ _ _ _ Hrun) as (kept & leaving & Hd & _ & Ht & Hf & _).
  exists kept, leaving. split_and!; [exact Hd|exact Hf|exact Ht].
Defined.

End UpdateRefusal.
