(* ===== verification/UpdateLaunch.v ===== *)
(** * When the installer is launched

    What has been asked and answered, and what is on the disk, whenever a pass hands a package
    to the installer. *)

From Stdlib Require Import Ascii.
From stdpp Require Import base gmap fin_maps list strings relations.
From S2P Require Import Prelude Trimmed GoStd Common AgentRollout UpdateGate Effects UpdateVersion UpdateJournal UpdateRollout UpdateRunner UpdateTick UpdateWorld.
Import UpdateVersion UpdateJournal UpdateRunner UpdateTick UpdateWorld.

Open Scope Z_scope.

Module UpdateLaunch.

(** ** What is written down *)

(** The journal's record of the attempt that is handed over. *)
Record handover (m : Manifest) (running : string) (material : list string) (k : Journal) : Prop := {
  over_phase : j_Phase k = PhaseExecuting;
  over_target : j_TargetVersion k = m_Version m;
  over_from : j_FromVersion k = running;
  over_material : j_RestoreMaterial k = material;
}.

(** The start of the attempt, from which the gate counts the deadline when the plan has no
    wave: the time of this pass, or what the pass read for an attempt at the same version that
    was still open. *)
Definition openSince (now : Z) (m : Manifest) (started : string) (evs : list event) : Prop :=
  started = stamp now ∨
  ∃ j0, Event LoadJournal (Ok j0) ∈ evs ∧ terminal j0 = false ∧ j_TargetVersion j0 = m_Version m ∧
        j_AttemptStartedAt j0 = started.

(** What must have happened, on the trail and on the disk. *)
Definition due (cfg : Config) (now : Z) (m : Manifest) (w : world) : Prop :=
  ∃ running observed material k,
    c_DryRun cfg = false ∧
    Event (Fetch now) (Ok m) ∈ trail w ∧
    Event (Stage m) None ∈ trail w ∧
    Event RunningVersion (Ok running) ∈ trail w ∧
    Applicable m running (c_Platform cfg) (c_Arch cfg) = None ∧
    Event (Conditions now) observed ∈ trail w ∧
    UpdateGate.g_Proceed (UpdateGate.EvaluateGate (c_Window cfg) (plannedConditions cfg k observed)) = true ∧
    openSince now m (j_AttemptStartedAt k) (trail w) ∧
    Event (CaptureRestoreMaterial m) (Ok material) ∈ trail w ∧
    (Event DisarmBeforeUpdate false ∈ trail w ∨ Event Disarm None ∈ trail w) ∧
    disk w = Some k ∧ handover m running material k ∧
    Event (SaveJournal k) None ∈ trail w.

Section launch.
Context (sha256_prefix : string → string).
Local Notation answers := (answers sha256_prefix).
Context (cfgs : Manifest → Config) (now : Z).

Definition only_when_due (X : Type) (e : effect X) (w : world) : Prop :=
  match e with Execute m => due (cfgs m) now m w | _ => True end.

Local Notation WP := (wp answers (fun _ => True) only_when_due).
Definition whatever {A} (_ : A) (_ : world) : Prop := True.

(** ** What a pass has learned *)

Definition knows (evs : list event) (w : world) : Prop := Forall (fun ev => ev ∈ trail w) evs.

Lemma knows_more {X} evs (e : effect X) w x w' : answers X e w x w' → knows evs w → knows (Event e x :: evs) w'.
Proof.
  intros Hx Hk. constructor.
  - rewrite (answered _ _ _ _ _ Hx). apply list_elem_of_here.
  - eapply Forall_impl; [exact Hk|]. intros ev. by apply (later_answered _ _ _ _ _ _ Hx).
Qed.

Lemma knows_in evs ev w : knows evs w → ev ∈ evs → ev ∈ trail w.
Proof. unfold knows. rewrite Forall_forall. auto. Qed.

Lemma wp_learn {X A} (e : effect X) (k : X → prog effect A) evs w Q :
  match e with Execute _ => False | _ => True end → knows evs w →
  (∀ x w', answers X e w x w' → knows (Event e x :: evs) w' → WP (k x) w' Q) → WP (Do e k) w Q.
Proof. intros He Hk Hn. apply wp_do; [done|by destruct e|]. intros x w' Hx. apply Hn; [done|]. by eapply knows_more. Qed.

Lemma wp_unrecorded what j k evs w :
  knows evs w → (∀ w', knows (Event (SaveJournal j) None :: evs) w' → WP k w' whatever) →
  WP (unless_unrecorded writing what j k) w whatever.
Proof.
  intros Hk Hn. unfold unless_unrecorded. eapply wp_learn; [done..|]. intros [why|] w' _ Hk'; [done|]. by apply Hn.
Qed.

Context (m : Manifest) (running : string).
Local Notation cfg := (cfgs m).

(** The events on which a launch rests. *)
Definition groundwork (observed : UpdateGate.DeviceConditions) (material : list string) : list event :=
  [Event (CaptureRestoreMaterial m) (Ok material); Event (Conditions now) observed; Event RunningVersion (Ok running);
   Event (Stage m) None; Event (Fetch now) (Ok m)].

Lemma Enter_fields p j : 
  j_TargetVersion (Enter p now j) = j_TargetVersion j ∧ j_FromVersion (Enter p now j) = j_FromVersion j ∧
  j_RestoreMaterial (Enter p now j) = j_RestoreMaterial j ∧ j_Phase (Enter p now j) = p ∧
  j_AttemptStartedAt (Enter p now j) = j_AttemptStartedAt j.
Proof. unfold Enter, enterTerminal. cbv zeta. repeat case_match; done. Qed.

Definition attempts (started : string) (material : list string) (j : Journal) : Prop :=
  j_TargetVersion j = m_Version m ∧ j_FromVersion j = running ∧ j_RestoreMaterial j = material ∧ j_AttemptStartedAt j = started.

Lemma attempts_Enter p started material j : attempts started material j → attempts started material (Enter p now j).
Proof. unfold attempts. by destruct (Enter_fields p j) as (-> & -> & -> & _ & ->). Qed.

(** The gate reads nothing of the journal but the start of the attempt. *)
Definition proceeds (started : string) (observed : UpdateGate.DeviceConditions) : Prop :=
  ∀ j, j_AttemptStartedAt j = started →
    UpdateGate.g_Proceed (UpdateGate.EvaluateGate (c_Window cfg) (plannedConditions cfg j observed)) = true.

Lemma gate_proceeds j observed :
  UpdateGate.g_Proceed (UpdateGate.EvaluateGate (c_Window cfg) (plannedConditions cfg j observed)) = true →
  proceeds (j_AttemptStartedAt j) observed.
Proof. intros Hg j' Hj. unfold plannedConditions in *. by rewrite Hj. Qed.

Lemma openSince_more started evs evs' : openSince now m started evs → evs ⊆ evs' → openSince now m started evs'.
Proof. intros [?|(j0 & Hin & ?)] Hsub; [by left|right]. exists j0. auto. Qed.

Context (Hdry : c_DryRun cfg = false) (Happ : Applicable m running (c_Platform cfg) (c_Arch cfg) = None).

Lemma executeStep_due observed started material disarmed j evs w :
  proceeds started observed → openSince now m started evs → attempts started material j → knows evs w → groundwork observed material ⊆ evs →
  (Event DisarmBeforeUpdate false ∈ evs ∨ Event Disarm None ∈ evs) →
  WP (executeStep writing m cfg now disarmed j) w whatever.
Proof.
  intros Hgate Hopen Hj Hk Hin Hsteer. unfold executeStep. cbv zeta. apply wp_do; [done..|]. intros [why|] w1 H1; [done|].
  pose proof (knows_more _ _ _ _ _ H1 Hk) as Hk1. destruct (saved_moves _ _ _ _ _ H1) as [_ [Hd|[? _]]]; [|done].
  apply wp_do; [done| |].
  { assert (∀ ev, ev ∈ groundwork observed material → ev ∈ trail w1) as Hg
      by (intros ev Hev; eapply knows_in; [exact Hk1|]; right; by apply Hin).
    pose proof (attempts_Enter PhaseExecuting _ _ _ Hj) as (Ht & Hf & Hm & Hs).
    exists running, observed, material, (Enter PhaseExecuting now j).
    split; [done|]. do 3 (split; [apply Hg; unfold groundwork; repeat (apply list_elem_of_here || apply list_elem_of_further)|]).
    split; [done|]. split; [apply Hg; unfold groundwork; repeat (apply list_elem_of_here || apply list_elem_of_further)|].
    split; [by apply Hgate|]. split; [rewrite Hs; eapply openSince_more; [exact Hopen|]|].
    { intros ev Hev. eapply knows_in; [exact Hk1|by right]. }
    split; [apply Hg, list_elem_of_here|].
    split; [destruct Hsteer as [Hst|Hst]; [left|right]; (eapply knows_in; [exact Hk1|]; by right)|].
    split; [done|]. split; [split; [apply Enter_fields|done..]|]. eapply knows_in; [exact Hk1|]. left. }
  intros [xerr|] w2 H2; [|done].
  apply wp_bind. apply (wp_mono _ _ _ _ _ whatever).
  - intros [restored rerr] w3 _ _. cbv zeta. apply wp_do; [done..|]. by intros [why|] w4 _.
  - unfold restoreSteering. destruct disarmed; [|done]. apply wp_do; [done..|]. by intros.
Qed.

Lemma disarmStep_due observed started material j evs w :
  proceeds started observed → openSince now m started evs → attempts started material j → knows evs w → groundwork observed material ⊆ evs →
  WP (disarmStep writing m cfg now j) w whatever.
Proof.
  intros Hgate Hopen Hj Hk Hin. unfold disarmStep. eapply wp_learn; [done..|]. intros permitted w1 _ Hk1. destruct permitted.
  - cbv zeta. eapply wp_learn; [done..|]. intros [why|] w2 _ Hk2; [done|].
    eapply wp_learn; [done..|]. intros [derr|] w3 _ Hk3.
    + eapply wp_learn; [done..|]. by intros [why|] w4 _ _.
    + eapply executeStep_due; [exact Hgate| |by apply attempts_Enter|exact Hk3|set_solver|right; left].
      eapply openSince_more; [exact Hopen|set_solver].
  - eapply executeStep_due; [exact Hgate| |exact Hj|exact Hk1|set_solver|left; left].
    eapply openSince_more; [exact Hopen|set_solver].
Qed.

Lemma launchStep_due observed started material j evs w :
  proceeds started observed → openSince now m started evs → attempts started material j → knows evs w → groundwork observed material ⊆ evs →
  WP (launchStep writing m cfg now j) w whatever.
Proof.
  intros Hgate Hopen Hj Hk Hin. unfold launchStep. apply wp_bind. eapply wp_mono; [|by eapply disarmStep_due].
  intros x w1 _ _. unfold restoreOnExit. destruct (_ || _); [done|]. apply wp_do; [done..|]. intros [why|] w2 _; [|done].
  cbv zeta. apply wp_do; [done..|]. by intros.
Qed.

(** The pass as far as the gate. *)
Definition acquired : list event := [Event RunningVersion (Ok running); Event (Stage m) None; Event (Fetch now) (Ok m)].

Lemma gate_not_frozen j observed :
  c_Frozen cfg = true → UpdateGate.g_Proceed (UpdateGate.EvaluateGate (c_Window cfg) (plannedConditions cfg j observed)) = false.
Proof. intros Hf. unfold UpdateGate.EvaluateGate, plannedConditions. cbn. rewrite Hf. cbn. by destruct (nonempty _). Qed.

Lemma gateStep_due j evs w :
  j_TargetVersion j = m_Version m → j_FromVersion j = running → knows evs w →
  openSince now m (j_AttemptStartedAt j) evs → (c_Frozen cfg = true ∨ acquired ⊆ evs) → WP (gateStep writing m cfg now j) w whatever.
Proof.
  intros Ht Hf Hk Hopen Hin. unfold gateStep. eapply wp_learn; [done..|]. intros observed w1 _ Hk1. cbv zeta.
  destruct (UpdateGate.g_Proceed _) eqn:Hgate.
  - destruct Hin as [Hfr|Hin]; [by rewrite gate_not_frozen in Hgate|].
    unfold captureStep. eapply wp_learn; [done..|]. intros [material|why] w2 _ Hk2; [|done]. cbv zeta.
    eapply wp_unrecorded; [done|]. intros w3 Hk3. rewrite Hdry. eapply launchStep_due; [by apply gate_proceeds| | |exact Hk3|].
    2: { by apply attempts_Enter. }
    + eapply openSince_more; [exact Hopen|set_solver].
    + unfold groundwork, acquired in *. set_solver.
  - eapply wp_unrecorded; [done|]. done.
Qed.
End launch.

Section pass.
Context `{MapOrder} (sha256_prefix : string → string) (say : sentence → string) (platform arch : string).
Local Notation answers := (answers sha256_prefix).

Lemma running_named m running platform' arch' : Applicable m running platform' arch' = None → nonempty running = true.
Proof. by destruct running as [|c s]; [unfold Applicable; do 2 (destruct (negb _); [done|])|]. Qed.

(** What the pass knows of its journal: it is the one it loaded, but for reports, the plan's
    floor and the attempt that turned out to have landed. *)
Definition continues (j0 j : Journal) : Prop :=
  j_TargetVersion j = j_TargetVersion j0 ∧ j_AttemptStartedAt j = j_AttemptStartedAt j0 ∧
  (terminal j = false → terminal j0 = false).
Definition loadedAs (evs : list event) (j : Journal) : Prop :=
  ∃ j0, Event LoadJournal (Ok j0) ∈ evs ∧ continues j0 j.

Lemma loadedAs_more evs evs' j : loadedAs evs j → evs ⊆ evs' → loadedAs evs' j.
Proof. intros (j0 & Hin & ?) Hsub. exists j0. auto. Qed.

Lemma loadedAs_reporting evs j j' : reporting j j' → loadedAs evs j → loadedAs evs j'.
Proof.
  intros Hrep (j0 & Hin & Ht & Hs & Hterm). exists j0. split; [done|].
  assert (j_TargetVersion j' = j_TargetVersion j ∧ j_AttemptStartedAt j' = j_AttemptStartedAt j) as [H1 H2].
  { clear -Hrep. destruct Hrep; try done.
    - unfold MarkReportPendingIfFree. by destruct (j_PendingReport j).
    - unfold RecordReportQueueFailure. destruct (j_PendingReport j); [|done]. by destruct (_ <? _).
    - unfold AcceptPlanFloor. by destruct (_ || _). }
  unfold continues, terminal in *. by rewrite H1, H2, (proj1 (reporting_keeps _ _ Hrep)).
Qed.

Lemma loadedAs_reconciled evs answer now j : loadedAs evs j → loadedAs evs (Reconcile answer now j).1.1.
Proof.
  intros (j0 & Hin & Ht & Hs & Hterm). exists j0. split; [done|]. unfold Reconcile.
  destruct (Interrupted j); [|done]. destruct answer; [|done]. destruct (SameVersion _ _); [|done]. cbn [negb fst].
  unfold RecordSuccess, continues. cbv zeta. set (j1 := if is_empty _ then _ else _).
  assert (j_TargetVersion j1 = j_TargetVersion j ∧ j_AttemptStartedAt j1 = j_AttemptStartedAt j) as [H1 H2]
    by (unfold j1; by case_match).
  set (p := if IsRollback j1 then _ else _).
  destruct (Enter_fields now p j1) as (-> & _ & _ & Hp & ->). rewrite H1, H2. split_and!; [done..|].
  unfold terminal. rewrite Hp. unfold p. by destruct (IsRollback j1).
Qed.

Lemma run_due cfgs now m j w evs (cfg := cfgs m) :
  c_DryRun cfg = false → knows evs w → loadedAs evs j →
  (c_Frozen cfg = true ∨ [Event (Stage m) None; Event (Fetch now) (Ok m)] ⊆ evs) →
  wp answers (fun _ => True) (only_when_due cfgs now) (Run m cfg now j) w whatever.
Proof.
  intros Hd Hk (j0 & Hj0 & Ht0 & Hs0 & Hterm0) Hin. unfold Run. rewrite Hd. unfold runStep. destruct (_ && _); [done|].
  destruct (Interrupted j). { cbv zeta. eapply wp_unrecorded; [exact Hk|done]. }
  destruct (IsPoisoned j (m_Version m)); [done|].
  eapply wp_learn; [done|exact Hk|]. intros [running|[]] w1 _ Hk1; try done.
  destruct (Applicable m running _ _) eqn:Happ; [done|]. unfold attemptStep.
  assert (c_Frozen cfg = true ∨ acquired now m running ⊆ Event RunningVersion (Ok running) :: evs) as Hin1
    by (destruct Hin as [?|Hin]; [by left|right; unfold acquired; set_solver]).
  destruct (negb (String.eqb (j_TargetVersion j) (m_Version m)) || is_empty (j_AttemptStartedAt j) || terminal j) eqn:Hnew.
  { cbv zeta. eapply wp_unrecorded; [exact Hk1|]. intros w2 Hk2.
    eapply gateStep_due; [done..|exact Hk2|by left|]. destruct Hin1; [by left|right; set_solver]. }
  apply orb_false_iff in Hnew as [[Heq _]%orb_false_iff Hopen].
  assert (j_TargetVersion j = m_Version m) as Ht.
  { by destruct (String.eqb_spec (j_TargetVersion j) (m_Version m)). }
  assert (∀ more, openSince now m (j_AttemptStartedAt j) (more ++ evs)) as Hsince.
  { intros more. right. exists j0. split; [by apply elem_of_app; right|]. split_and!; [by apply Hterm0|congruence|done]. }
  rewrite (running_named _ _ _ _ Happ). cbn [andb]. destruct (String.eqb_spec (j_FromVersion j) running) as [Hf|Hf]; cbn [negb].
  - eapply gateStep_due; [done..|exact Hk1|apply (Hsince [_])|done].
  - cbv zeta. eapply wp_unrecorded; [exact Hk1|]. intros w2 Hk2.
    eapply gateStep_due; [done..|exact Hk2|apply (Hsince [_; _])|]. destruct Hin1; [by left|right; set_solver].
Qed.

(** After the decision nothing is asked of the journal. *)
Lemma unrelated_surrounds cfgs now dry : surrounds sha256_prefix (fun _ => True) (only_when_due cfgs now) (fun _ _ => True) dry.
Proof. split; try done. by intros X [] w. Qed.

Definition loadedIn (j : Journal) (w : world) : Prop := loadedAs (trail w) j.

Lemma launch_surrounds cfgs now dry : surrounds sha256_prefix (fun _ => True) (only_when_due cfgs now) loadedIn dry.
Proof.
  assert (∀ X (e : effect X) j w x w', loadedIn j w → answers X e w x w' → loadedIn j w') as Hmore.
  { intros X e j w x w' Hj Hx. eapply loadedAs_more; [exact Hj|]. rewrite (answered _ _ _ _ _ Hx).
    intros ev. apply list_elem_of_further. }
  split; try done.
  - intros X e j w x w' _. apply Hmore.
  - intros j w x w' _. apply Hmore.
  - intros j j' w. apply loadedAs_reporting.
  - by intros X [] w.
Qed.

Lemma decision_due cfgs now m running res j w (cfg := cfgs m) :
  loadedIn j w → Event (Fetch now) (Ok m) ∈ trail w → (c_Frozen cfg = true ∨ Event (Stage m) None ∈ trail w) →
  c_DryRun cfg = false →
  wp answers (fun _ => True) (only_when_due cfgs now) (decideStep platform arch cfg m running now res j) w (fun _ _ => True).
Proof.
  intros Hj Hm Hs Hd. unfold decideStep. rewrite Hd. apply wp_bind. apply (wp_mono _ _ _ _ _ whatever).
  - intros [[j1 out] err] w1 _ _. apply wp_bind, (wp_owe _ _ _ _ _ _ _ (unrelated_surrounds cfgs now false)); [done|].
    intros res2 j2 w2 _ _. apply wp_bind, (wp_flush _ _ _ _ _ (unrelated_surrounds cfgs now false)); [done|].
    intros res3 j3 w3 _ _. by destruct err.
  - apply (run_due _ _ _ _ _ (trail w)); [done|by apply Forall_forall|done|].
    destruct Hs as [Hf|Hs]; [by left|right]. set_solver.
Qed.

Lemma tick_due d now w w' m k :
  passes answers (w, Tick say sha256_prefix platform arch d now) (w', Do (Execute m) k) → due (passConfig d m) now m w'.
Proof.
  intros Hrun. destruct (c_DryRun (d_Config d)) eqn:Hd.
  { destruct (wp_sound _ _ _ _ _ _ _ _ (rehearsed_tick sha256_prefix say platform arch (disk w) (armed w) d now w Hd (conj eq_refl eq_refl)) Hrun)
      as [_ Hp]. discriminate Hp. }
  assert (wp answers (fun _ => True) (only_when_due (passConfig d) now) (Tick say sha256_prefix platform arch d now) w
    (fun _ _ => True)) as Hwp.
  { apply (wp_tick _ _ _ _ _ _ _ _ (launch_surrounds (passConfig d) now false)); try done.
    - intros answer j w1. apply loadedAs_reconciled.
    - intros m' running res j w1 Hj Hm Hs. apply decision_due; [done..|]. by rewrite (passConfig_dry false d Hd).
    - intros w1 j w2 _ _ _ Hx. exists j. split; [|done]. rewrite (answered _ _ _ _ _ Hx). apply list_elem_of_here. }
  by destruct (wp_sound _ _ _ _ _ _ _ _ Hwp Hrun).
Qed.

(** (C10) A pass launches an installer only when everything that must come before has happened in
    that pass.  Whenever [Tick] hands a package to the installer, it is no rehearsal; the
    manifest is the one fetched in this pass, its bytes are staged and verified, and it is
    applicable to the version the device reported as running; the gate, given the machine's
    conditions, what the plan decided on this manifest and the journal on the disk, let it
    proceed, that journal's attempt having begun in this pass or being the open attempt at the
    same version that the pass loaded; the plan - if there is one - authorises it; restore material was secured; steering was confirmed down
    unless the device's posture forbids taking it down; and a journal has been saved, and is
    the one on the disk, that records the attempt as executing, from that version to the
    manifest's, with that material. *)
Theorem installer_launched_only_when_due d now disk0 armed0 w' m k :
  passes answers (mkWorld disk0 armed0 [], Tick say sha256_prefix platform arch d now) (w', Do (Execute m) k) →
  due (passConfig d m) now m w' ∧
  ∀ resolve, d_ResolveRollout d = Some resolve → UpdateRollout.authorises (resolve m) = true.
Proof.
  intros Hrun. pose proof (tick_due _ _ _ _ _ _ Hrun) as Hdue. split; [done|]. intros resolve Hr.
  destruct Hdue as (running & observed & material & kept & _ & _ & _ & _ & _ & _ & Hgate & _).
  eapply UpdateRollout.gate_needs_authority; [| |exact Hgate]; unfold passConfig; rewrite Hr; destruct (d_ResolveWindow d); cbn; try done; by intros ->.
Qed.
End pass.

Definition launched {A} (p : prog effect A) : option Manifest := match p with Do (Execute m) _ => Some m | _ => None end.

Lemma installer_launched_only_when_due_witness :
  let hash := fun _ : string => "00" in
  let d := mkDeps exampleConfig (Some (fun _ => (UpdateRollout.LoadRollout (fun _ => "") (fun _ => "") "plan" false UpdateRollout.PlanAbsent 0
             (UpdateRollout.mkExpectation "0.4.0" zero_time 0 "" "")).1)) None in
  ∃ w1 k, passes (UpdateWorld.answers hash)
      (mkWorld (Some updatedJournal) true [], @Tick plainOrder (fun _ => "") hash "windows" "amd64" d 0) (w1, Do (Execute exampleManifest) k) ∧
    due (passConfig d exampleManifest) 0 exampleManifest w1.
Proof.
  intros hash d. pose proof (drive_passes (UpdateWorld.answers hash) (obliging hash "0.3.0" exampleManifest exampleConditions) 14
    (mkWorld (Some updatedJournal) true [], @Tick plainOrder (fun _ => "") hash "windows" "amd64" d 0)
    (obliging_answers hash "0.3.0" exampleManifest exampleConditions)) as Hrun.
  assert (launched (drive (obliging hash "0.3.0" exampleManifest exampleConditions) 14
    (mkWorld (Some updatedJournal) true [], @Tick plainOrder (fun _ => "") hash "windows" "amd64" d 0)).2 = Some exampleManifest)
    as Hend by (vm_compute; reflexivity).
  destruct (drive _ 14 _) as [w1 [r|X e k]]; [discriminate Hend|]. destruct e; try discriminate Hend.
  cbn in Hend. injection Hend as ->. exists w1, k. split; [exact Hrun|].
  exact (proj1 (@installer_launched_only_when_due plainOrder hash _ _ _ _ _ _ _ _ _ _ Hrun)).
Defined.

End UpdateLaunch.
