(* ===== verification/UpdateSteering.v ===== *)
(** * Steering is never down without a record of it

    An update takes steering down before the installer runs.  Wherever the pass dies, a journal
    that says so is on the disk - except on one branch of the operator's rollback. *)

From Stdlib Require Import Ascii.
From stdpp Require Import base gmap fin_maps list strings relations.
From S2P Require Import Prelude Trimmed GoStd Common AgentRollout UpdateGate Effects UpdateVersion UpdateJournal UpdateRollout UpdateRunner UpdateTick UpdateWorld.
Import UpdateVersion UpdateJournal UpdateRunner UpdateTick UpdateWorld.

Open Scope Z_scope.

Module UpdateSteering.

(** The sentences by which a failure says that steering may be down. *)
Definition mentionsSteering (reason : string) : Prop :=
  ∃ before after, reason = before +:+ steeringUncertain +:+ after ∨ reason = before +:+ steeringUnconfirmed +:+ after.

(** The journal is in a phase that makes the next pass ask for the network to be checked, or
    its failure says that steering may be down. *)
Definition stated (k : Journal) : Prop := NeedsNetworkRecovery k = true ∨ mentionsSteering (j_LastFailureReason k).

Definition stated_on_disk (w : world) : Prop := ∃ k, disk w = Some k ∧ stated k.

(** Steering is up, or its being down is on record. *)
Definition accounted (w : world) : Prop := armed w = true ∨ stated_on_disk w.
Definition accounts (j : Journal) (w : world) : Prop := armed w = true ∨ stated j ∧ stated_on_disk w.
Definition downOnRecord (j : Journal) (w : world) : Prop := stated j ∧ stated_on_disk w.

Definition exit_accounts (x : Exit) (w : world) : Prop :=
  accounts (x_journal x) w ∧ (x_disarmed x = true → x_launched x = false → downOnRecord (x_journal x) w).

Definition allowed (X : Type) (e : effect X) (w : world) : Prop := True.

(** ** What the journal says *)

Lemma NeedsNetworkRecovery_Enter p now j :
  containsString [PhaseDisarmed; PhaseExecuting; PhaseRollingBack] p = true → NeedsNetworkRecovery (Enter p now j) = true.
Proof. intros Hp. unfold NeedsNetworkRecovery, Enter. cbv zeta. repeat case_match; done. Qed.

Lemma RecordFailure_reason why n now j : j_LastFailureReason (RecordFailure why n now j).1 = why.
Proof.
  assert (∀ p j, j_LastFailureReason (Enter p now j) = j_LastFailureReason j) as He.
  { intros p j'. unfold Enter, enterTerminal. cbv zeta. repeat case_match; done. }
  unfold RecordFailure. cbv zeta. destruct (is_empty _); cbn [fst]; [by rewrite He|].
  destruct (_ <? _); cbn [fst]; [by rewrite He|]. transitivity (j_LastFailureReason (Enter PhaseFailed now
    (j <| j_LastFailureReason := why |> <| j_Failures := <[trim_space (j_TargetVersion j) := wrap64 (failures j (trim_space (j_TargetVersion j)) + 1)]> (j_Failures j) |>))); [done|by rewrite He].
Qed.

Lemma mentions_uncertain before : mentionsSteering (before +:+ steeringUncertain).
Proof. exists before, "". left. by rewrite string_app_nil_r. Qed.

Lemma mentions_unconfirmed before restored why : mentionsSteering (failureWithSteering before true restored (Some why)).
Proof. exists before, why. by right. Qed.

Lemma stated_failure why n now j : mentionsSteering why → stated (RecordFailure why n now j).1.
Proof. intros Hm. right. by rewrite RecordFailure_reason. Qed.

Lemma stated_reporting j j' : reporting j j' → stated j → stated j'.
Proof. intros Hr. unfold stated, NeedsNetworkRecovery. by destruct (reporting_keeps _ _ Hr) as (-> & -> & _). Qed.

Section steering.
Context (sha256_prefix : string → string).
Local Notation answers := (answers sha256_prefix).
Local Notation WP := (wp answers accounted allowed).

Lemma accounts_accounted j w : accounts j w → accounted w.
Proof. intros [?|[_ ?]]; [by left|by right]. Qed.

Lemma wp_up {X A} (e : effect X) (k : X → prog effect A) w Q :
  calm e = true → armed w = true → (∀ x w', armed w' = true → WP (k x) w' Q) → WP (Do e k) w Q.
Proof.
  intros Hc Ha Hk. apply wp_do; [by left|done|]. intros x w' Hx. apply Hk.
  by destruct (calm_moves _ _ _ _ _ Hc Hx) as [_ ->].
Qed.

Lemma wp_up_saved {A} j (k : option string → prog effect A) w Q :
  armed w = true → (∀ x w', armed w' = true → (x = None → disk w' = Some j) → WP (k x) w' Q) →
  WP (pbind (writing j) k) w Q.
Proof.
  intros Ha Hk. apply wp_do; [by left|done|]. intros x w' Hx.
  destruct (saved_moves _ _ _ _ _ Hx) as [Hup Hd]. apply Hk; [by rewrite Hup|].
  intros ->. by destruct Hd as [Hd|[? _]].
Qed.

(** A save of a journal that states it keeps the record, whether or not it succeeds. *)
Lemma wp_stated {A} j (k : option string → prog effect A) w Q :
  stated j → stated_on_disk w → (∀ x w', stated_on_disk w' → WP (k x) w' Q) → WP (pbind (writing j) k) w Q.
Proof.
  intros Hj Hd Hk. apply wp_do; [by right|done|]. intros x w' Hx. apply Hk.
  destruct (saved_moves _ _ _ _ _ Hx) as [_ [Hn|[_ Ho]]]; [by exists j|]. unfold stated_on_disk. by rewrite Ho.
Qed.

(** An effect that leaves the disk alone. *)
Lemma wp_recorded {X A} (e : effect X) (k : X → prog effect A) w Q :
  match e with SaveJournal _ => False | _ => True end → stated_on_disk w →
  (∀ x w', answers X e w x w' → stated_on_disk w' → WP (k x) w' Q) → WP (Do e k) w Q.
Proof.
  intros He Hd Hk. apply wp_do; [by right|done|]. intros x w' Hx. apply Hk; [done|].
  destruct Hx as [Hm _]. assert (disk w' = disk w) as Ho by (destruct e; cbn in Hm; try done; by destruct Hm).
  unfold stated_on_disk. by rewrite Ho.
Qed.

Lemma ret_recorded x w : stated (x_journal x) → stated_on_disk w → WP (Ret x) w exit_accounts.
Proof. intros Hj Hd. apply wp_ret; [by right|]. split; [by right|done]. Qed.

Lemma ret_up x w : x_disarmed x = false → armed w = true → WP (Ret x) w exit_accounts.
Proof. intros Hx Ha. apply wp_ret; [by left|]. split; [by left|congruence]. Qed.

Lemma executeStep_accounts m cfg now disarmed j w :
  (disarmed = true → downOnRecord j w) → (disarmed = false → armed w = true) →
  WP (executeStep writing m cfg now disarmed j) w exit_accounts.
Proof.
  intros Hdown Hup. unfold executeStep. cbv zeta.
  assert (stated (Enter PhaseExecuting now j)) as Hst by (left; by apply NeedsNetworkRecovery_Enter).
  destruct disarmed.
  - destruct (Hdown eq_refl) as [_ Hd]. apply wp_stated; [done..|]. intros [why|] w1 Hd1; [by apply ret_recorded|].
    apply wp_recorded; [done..|]. intros [xerr|] w2 _ Hd2; [|by apply ret_recorded].
    cbn [pbind]. apply wp_recorded; [done..|]. intros [rerr|] w3 Hx3 Hd3.
    + apply wp_stated; [by apply stated_failure, mentions_unconfirmed|done|]. intros [why|] w4 Hd4;
        (apply ret_recorded; [by apply stated_failure, mentions_unconfirmed|done]).
    + destruct Hx3 as [[_ Ha] _]. apply wp_up_saved; [by apply Ha|]. intros [why|] w4 Ha4 _; by apply ret_up.
  - apply wp_up_saved; [by apply Hup|]. intros [why|] w1 Ha1 Hd1; [by apply ret_up|].
    assert (stated_on_disk w1) as Hr1 by (eexists; split; [by apply Hd1|done]).
    apply wp_recorded; [done..|]. intros [xerr|] w2 Hx2 Hd2; [|by apply ret_recorded].
    assert (armed w2 = true) as Ha2 by (destruct Hx2 as [[_ Ha] _]; by rewrite Ha).
    cbn [pbind]. apply wp_up_saved; [done|]. intros [why|] w3 Ha3 _; by apply ret_up.
Qed.

Lemma disarmStep_accounts m cfg now j w : armed w = true → WP (disarmStep writing m cfg now j) w exit_accounts.
Proof.
  intros Ha. unfold disarmStep. apply wp_up; [done..|]. intros [] w1 Ha1; [|by apply executeStep_accounts].
  cbv zeta. apply wp_up_saved; [done|]. intros [why|] w2 Ha2 Hd2; [by apply ret_up|].
  assert (stated (Enter PhaseDisarmed now j)) as Hst by (left; by apply NeedsNetworkRecovery_Enter).
  assert (stated_on_disk w2) as Hr2 by (eexists; split; [by apply Hd2|done]).
  apply wp_recorded; [done..|]. intros [derr|] w3 _ Hd3; [|by apply executeStep_accounts].
  assert (stated (RecordFailure ("disarm failed: " +:+ derr +:+ steeringUncertain) (c_MaxAttempts cfg) now (Enter PhaseDisarmed now j)).1)
    as Hst3 by (apply stated_failure, (mentions_uncertain ("disarm failed: " +:+ derr))).
  apply wp_stated; [done..|]. intros [why|] w4 Hd4; by apply ret_recorded.
Qed.

Definition back_accounts (r : Journal * Outcome * option run_error) (w : world) : Prop := accounts r.1.1 w.

Lemma back_up r w : armed w = true → WP (Ret r) w back_accounts.
Proof. intros Ha. by apply wp_ret; left. Qed.

Lemma restoreOnExit_accounts rollback x w : exit_accounts x w → WP (restoreOnExit rollback writing x) w back_accounts.
Proof.
  intros [Hx Hdown]. unfold restoreOnExit. destruct (negb (x_disarmed x) || x_launched x) eqn:Hc.
  { apply wp_ret; [by eapply accounts_accounted|done]. }
  apply orb_false_iff in Hc as [Hdis Hl]. apply negb_false_iff in Hdis. destruct (Hdown Hdis Hl) as [Hj Hd].
  apply wp_recorded; [done..|]. intros [why|] w1 Hx1 Hd1; [|apply back_up; by destruct Hx1 as [[_ Ha] _]; apply Ha].
  cbv zeta. match goal with |- WP (pbind (writing ?j) _) _ _ => assert (stated j) as Hst by (right; apply mentions_unconfirmed) end.
  apply wp_stated; [done..|]. intros serr w2 Hd2. apply wp_ret; [by right|by right].
Qed.

Lemma unless_accounts what j k w :
  armed w = true → (∀ w', armed w' = true → WP k w' back_accounts) → WP (unless_unrecorded writing what j k) w back_accounts.
Proof. intros Ha Hk. unfold unless_unrecorded. apply wp_up_saved; [done|]. intros [why|] w1 Ha1 _; [by apply back_up|auto]. Qed.

Lemma gateStep_accounts m cfg now j w : armed w = true → WP (gateStep writing m cfg now j) w back_accounts.
Proof.
  intros Ha. unfold gateStep. apply wp_up; [done..|]. intros observed w1 Ha1. cbv zeta.
  destruct (UpdateGate.g_Proceed _); [|apply unless_accounts; [done|]; intros; by apply back_up].
  unfold captureStep. apply wp_up; [done..|]. intros [material|why] w2 Ha2; [|by apply back_up].
  cbv zeta. apply unless_accounts; [done|]. intros w3 Ha3. destruct (c_DryRun cfg); [by apply back_up|].
  unfold launchStep. apply wp_bind. eapply wp_mono; [|by apply disarmStep_accounts].
  intros x w4 _ Hx. by apply restoreOnExit_accounts.
Qed.

Lemma run_accounts `{MapOrder} m cfg now j w : c_DryRun cfg = false → armed w = true → WP (Run m cfg now j) w back_accounts.
Proof.
  intros Hd Ha. unfold Run. rewrite Hd. unfold runStep. destruct (_ && _); [by apply back_up|].
  destruct (Interrupted j). { cbv zeta. apply unless_accounts; [done|]. intros; by apply back_up. }
  destruct (IsPoisoned j (m_Version m)); [by apply back_up|].
  apply wp_up; [done..|]. intros [running|[]] w1 Ha1; try by apply back_up.
  destruct (Applicable m running _ _); [by apply back_up|]. unfold attemptStep.
  destruct (_ || _ || _); [|destruct (_ && _); [|by apply gateStep_accounts]];
    (cbv zeta; apply unless_accounts; [done|]; intros; by apply gateStep_accounts).
Qed.

(** ** The whole pass *)

Lemma after_surrounds : surrounds sha256_prefix accounted allowed accounts false.
Proof.
  split; try done.
  - apply accounts_accounted.
  - intros X e j w x w' Hc Hr Hx. destruct (calm_moves _ _ _ _ _ Hc Hx) as [Hd Ha].
    unfold accounts, stated_on_disk in *. by rewrite Hd, Ha.
  - intros j w x w' _ Hr Hx. destruct (saved_moves _ _ _ _ _ Hx) as [Ha Hd]. unfold accounts in *. rewrite Ha.
    destruct Hr as [?|[Hj Hk]]; [by left|right; split; [done|]].
    destruct Hd as [Hd|[_ Hd]]; [by exists j|unfold stated_on_disk; by rewrite Hd].
  - intros j j' w Hr [?|[Hj Hd]]; [by left|right; split; [by eapply stated_reporting|done]].
Qed.

Lemma decision_accounts `{MapOrder} platform arch cfg m running now res j w :
  c_DryRun cfg = false → armed w = true →
  WP (decideStep platform arch cfg m running now res j) w (fun _ => accounted).
Proof.
  intros Hd Ha. unfold decideStep. rewrite Hd. apply wp_bind. eapply wp_mono; [|by apply run_accounts].
  intros [[j1 out] err] w1 _ HR1. apply wp_bind, (wp_owe _ _ _ _ _ _ _ after_surrounds); [done|].
  intros res2 j2 w2 _ HR2. apply wp_bind, (wp_flush _ _ _ _ _ after_surrounds); [done|].
  intros res3 j3 w3 _ HR3. apply accounts_accounted in HR3. destruct err; by apply wp_ret.
Qed.

Lemma before_surrounds : surrounds sha256_prefix accounted allowed (fun _ w => armed w = true) false.
Proof.
  split; try done.
  - by intros j w; left.
  - intros X e j w x w' Hc Hr Hx. by destruct (calm_moves _ _ _ _ _ Hc Hx) as [_ ->].
  - intros j w x w' _ Hr Hx. by destruct (saved_moves _ _ _ _ _ Hx) as [-> _].
Qed.

(** (C15) Steering is never down without a record.  A pass of the updater that starts with steering
    armed may die at any point, and its saves, its attempts to take steering down and to put it
    back may fail in any way, leaving steering one way or the other: at every point, if
    steering is not armed, the journal on the disk is in a phase for which the next pass asks
    for the network to be checked, or its failure says that steering may be down. *)
Theorem steering_down_is_on_record `{MapOrder} say platform arch d now w w' p' :
  armed w = true → passes answers (w, Tick say sha256_prefix platform arch d now) (w', p') →
  armed w' = false → ∃ k, disk w' = Some k ∧ (NeedsNetworkRecovery k = true ∨ mentionsSteering (j_LastFailureReason k)).
Proof.
  intros Ha Hrun Hdown. destruct (c_DryRun (d_Config d)) eqn:Hd.
  { destruct (wp_sound _ _ _ _ _ _ _ _ (rehearsed_tick sha256_prefix say platform arch (disk w) (armed w) d now w Hd (conj eq_refl eq_refl)) Hrun)
      as [[_ Hup] _]. congruence. }
  assert (WP (Tick say sha256_prefix platform arch d now) w (fun _ => accounted)) as Hwp.
  { apply (wp_tick _ _ _ _ _ _ _ _ before_surrounds); try done; [by intros; left|..].
    - intros m running res j w1 Ha1 _ _. apply decision_accounts; [|done]. by rewrite (passConfig_dry false d Hd).
    - by left.
    - intros w1 j w2 _ _ Ha1 Hx. destruct (calm_moves _ LoadJournal _ _ _ eq_refl Hx) as [_ ->]. congruence.
    - intros X e w1 x w2 Hr Hc Hx. destruct (calm_moves _ _ _ _ _ Hc Hx) as [Hd1 Ha1].
      unfold accounted, stated_on_disk in *. by rewrite Hd1, Ha1. }
  destruct (wp_sound _ _ _ _ _ _ _ _ Hwp Hrun) as [[?|?] _]; [congruence|done].
Qed.
End steering.

(** ** A device whose steering does not answer *)

(** As [obliging], but taking steering down fails after it has been cleared. *)
Definition unconfirmed (hash : string → string) (running : string) (X : Type) (e : effect X) (w : world) : X * world :=
  match e in effect X return X * world → X * world with
  | Disarm => fun _ => (Some "driver read", mkWorld (disk w) false (Event Disarm (Some "driver read") :: trail w))
  | _ => fun answer => answer
  end (obliging hash running exampleManifest exampleConditions X e w).

Lemma unconfirmed_answers hash running X (e : effect X) w :
  UpdateWorld.answers hash X e w (unconfirmed hash running X e w).1 (unconfirmed hash running X e w).2.
Proof. destruct e; try apply obliging_answers. by split. Qed.

Lemma steering_down_is_on_record_witness :
  let hash := fun _ : string => "00" in
  let d := mkDeps exampleConfig None None in
  ∃ w1 p1, passes (UpdateWorld.answers hash)
      (mkWorld (Some updatedJournal) true [], @Tick plainOrder (fun _ => "") hash "windows" "amd64" d 0) (w1, p1) ∧
    armed w1 = false ∧ ∃ k, disk w1 = Some k ∧ (NeedsNetworkRecovery k = true ∨ mentionsSteering (j_LastFailureReason k)).
Proof.
  intros hash d. pose (start := (mkWorld (Some updatedJournal) true [], @Tick plainOrder (fun _ => "") hash "windows" "amd64" d 0)).
  pose proof (drive_passes (UpdateWorld.answers hash) (unconfirmed hash "0.3.0") 14 start (unconfirmed_answers hash "0.3.0")) as Hrun.
  assert (armed (drive (unconfirmed hash "0.3.0") 14 start).1 = false) as Hdown by (vm_compute; reflexivity).
  destruct (drive _ 14 start) as [w1 p1]. exists w1, p1. split; [exact Hrun|]. split; [exact Hdown|].
  exact (@steering_down_is_on_record hash plainOrder _ _ _ _ _ (mkWorld (Some updatedJournal) true []) w1 p1 eq_refl Hrun Hdown).
Defined.

(** ** Where the record is missing *)

(** The operator's rollback on the same device: steering is down, and the journal is a failure
    with no reason, which no later pass takes for an interrupted attempt. *)
Theorem rollback_disarm_error_is_not_recorded :
  let hash := fun _ : string => "00" in
  ∃ w1 r k, passes (UpdateWorld.answers hash)
      (mkWorld (Some updatedJournal) true [], runRollback "windows" "amd64" exampleConfig "" "0.3.0" 0) (w1, Ret r) ∧
    armed w1 = false ∧ disk w1 = Some k ∧ j_Phase k = PhaseFailed ∧ j_LastFailureReason k = "" ∧
    Interrupted k = false ∧ NeedsNetworkRecovery k = false.
Proof.
  intros hash. pose (start := (mkWorld (Some updatedJournal) true [], runRollback "windows" "amd64" exampleConfig "" "0.3.0" 0)).
  pose proof (drive_passes (UpdateWorld.answers hash) (unconfirmed hash "0.3.0") 12 start (unconfirmed_answers hash "0.3.0")) as Hrun.
  pose (seen := fun c : world * prog effect bool =>
    (match c.2 with Ret _ => true | Do _ _ => false end, armed c.1, option_map (fun k => (j_Phase k, j_LastFailureReason k)) (disk c.1))).
  assert (seen (drive (unconfirmed hash "0.3.0") 12 start) = (true, false, Some (PhaseFailed, ""))) as Hseen by (vm_compute; reflexivity).
  destruct (drive _ 12 start) as [w1 [r|X e k]]; [|discriminate Hseen]. injection Hseen as Hd Hk. cbn in Hd, Hk.
  destruct (disk w1) as [k|] eqn:Hdisk; [|discriminate Hk]. injection Hk as Hp Hr.
  exists w1, r, k. split_and!; try done; unfold Interrupted, NeedsNetworkRecovery; by rewrite Hp.
Qed.

(** An attempt that died is not counted.  What [Run] saves for it is the same journal in a
    failed phase: no failure of the version, no refusal and no reason, so the next pass takes
    the same version up again, however many times its installation has died. *)
Theorem interrupted_attempt_is_not_counted `{MapOrder} m cfg now j :
  c_DryRun cfg = false → Interrupted j = true → installYoungerThan InstallGrace now j = false →
  ∃ k, Run m cfg now j = Do (SaveJournal (Enter PhaseFailed now j)) k ∧
    j_Failures (Enter PhaseFailed now j) = j_Failures j ∧ j_Poisoned (Enter PhaseFailed now j) = j_Poisoned j ∧
    j_LastFailureReason (Enter PhaseFailed now j) = j_LastFailureReason j.
Proof.
  intros Hd Hi Hy. unfold Run, runStep. rewrite Hd, Hi, Hy. cbn [andb]. eexists. split; [reflexivity|].
  unfold Enter, enterTerminal. cbv zeta. repeat case_match; done.
Qed.

End UpdateSteering.
